(* ===== verification/_CoqProject ===== *)
-Q . S2P
Prelude.v
Uint256.v
OpCodes.v
Common.v
Params.v
Precompiles.v
Lru.v
Rlp.v
Crypto.v
Header.v
StateObject.v
StateInterface.v
StateStore.v
StateSpec.v
StateSafe.v
StateTheorems.v
StateSupply.v
Finalise.v
Stack.v
Memory.v
Analysis.v
Machine.v
Invariant.v
GasTable.v
Instructions.v
JumpTable.v
Interpreter.v
TableOk.v
Evm.v
Safety.v
Encoding.v
RlpStream.v
TrieKeys.v
TrieTree.v
TrieNode.v
TrieStore.v
Trie.v
TrieSpec.v
TrieHash.v
TrieMap.v
TrieCommit.v
CommitSpec.v
StackTrie.v
StackSpec.v
CoreEvm.v
Transaction.v
Blocks.v
StreamSpec.v
ChainKeys.v
Decoding.v
NodeDatabase.v
NodeGraph.v
NodeRemoval.v
NodeInsertion.v
NodeFlush.v
NodeUpdate.v
NodeSpec.v
NodeTrie.v
ChainStore.v
HeaderChain.v
ChainSpec.v
ChainReorg.v
DeriveSha.v
TxSigning.v
Receipts.v
Misc.v
Hashimoto.v
DagSizes.v
Difficulty.v
Emission.v
Ethash.v
StateTransition.v
Processor.v
Validator.v
Chain.v
Example.v
ExampleTrie.v
ExampleNodes.v
ExampleDecode.v
ExampleChain.v
