(* ===== verification/Prelude.v ===== *)
(** * R5 core: a verified model of the protocol rules

    This library models the part of the R5 node (client/, a descendant of
    go-ethereum) that decides what the chain is: the virtual machine and its state
    database, transactions and their signatures, headers and blocks, the proof of
    work, the difficulty and the emission of the coin.  Paths below are under src/.

    ** How the code is rendered

    - A [uint64], [uint32] or [int64] is a [Z], and every operation that can wrap
      around says so ([u64], [u32], [i64]).  A [*big.Int] is a [Z], an optional one
      where the code treats nil.  A [uint256.Int] is a [Z] below 2^256 and its
      methods are the class [Uint256] with the laws of its documentation.
    - Addresses and hashes are [Z]s with their byte conversions; bytes are
      [Byte.byte], slices are lists with Go's bounds checks ([go_index],
      [go_slice]), maps are [gmap]s, sets of map keys [gset]s.
    - A function that can panic returns a [Res]: [Ret], [Panic] with its reason, or
      [NoFuel].  A method that changes an object is in the monad [GM] (state and
      [Res]); [wp P m Q s] says that [m] run from [s] returns, with a result that
      meets [Q], or panics with a reason [P] allows.  [NoFuel] never meets it, so
      every theorem stated with [wp] includes termination.  An error value is an
      option or a sum.
    - A Go interface with one implementation of interest is a class: [StateDB]
      (client/core/vm/interface.go) with the laws [StateDBSpec] the virtual machine
      is verified against, and [state] as the instance that implements it.

    ** The parts

    Foundations.
    - [Prelude]: bytes, machine integers, slices, [Res], [GM] and [wp].
    - [Uint256]: the interface of the 256-bit library, its laws, a reference.
    - [Common] (common/math, core/vm/common.go), [Params] (params), [OpCodes],
      [Crypto] (contract addresses over an abstract Keccak-256).
    - [Rlp] and [Encoding] (rlp): headers, strings, integers, splitting; nested
      lists, big integers.

    State (core/state).
    - [StateObject], [StateStore]: objects, access list, transient storage, the
      journal, and the methods of [StateDB].
    - [StateInterface]: the interface with its laws.  [StateSpec], [StateSafe],
      [StateSupply]: the proof that [StateStore] implements it: undoing a
      journal suffix restores every answer; only balance setters and Suicide move
      balances.  [StateTheorems]: scripts of changes, setters against getters.

    The virtual machine (core/vm).
    - [Stack], [Memory], [Analysis], [Machine] (contracts, frames, the EVM's
      fields), [GasTable], [Instructions], [JumpTable], [Precompiles],
      [Interpreter], [Evm] (calls and creation, tied with the interpreter).
    - [Invariant]: what each operation keeps ([evm_ok], [frame_ok]) and what the
      calls promise.  [TableOk]: every operation of every table meets it.
      [Safety]: the interpreter and the calls, by induction on gas and on nesting.
    - [CoreEvm] (core/evm.go): block contexts, transfers, ancestor hashes.

    Transactions and blocks (core, core/types).
    - [Transaction], [TxSigning]: data, fees, signers, senders.
    - [StateTransition]: messages, gas purchase, execution, refund, fees.
    - [Header], [Blocks]: encoding, hashes, sanity checks, list order.

    Consensus (consensus/ethash, consensus/misc).
    - [Misc], [Difficulty], [Emission]: gas limit, base fee, DAO fork, blob fee;
      difficulty calculators; rewards and supply.
    - [Hashimoto], [DagSizes]: cache, dataset, proof-of-work hash, sizes.
    - [Ethash]: seals, headers, batches, uncles, mining.

    Blocks (core, core/types).
    - [Finalise] (core/state/statedb.go): what the end of a transaction keeps.
    - [Receipts] (receipt.go, bloom9.go, log.go, rawdb/accessors_chain.go): receipts,
      their encodings, the decoder of the stored form, writing and reading them in the
      chain database, derived fields; bloom filters.
    - [Processor] (core/state_processor.go): the transactions of a block.
    - [Validator] (core/block_validator.go, core/types/block.go): checks on body and
      state, gas limits, assembling a block.
    - [Chain] (core/genesis.go): the genesis allocation, and the balances after a
      sequence of processed blocks.

    Tries (trie, core/types/hashing.go).
    - [TrieKeys] (encoding.go), [TrieNode] (node.go, node_enc.go, hasher.go), [Trie]
      (trie.go, tracer.go, trie_reader.go): the operations, on nodes that may be
      loaded, cached, or only known by their hash.
    - [TrieTree], [TrieStore]: trees without hashes, the canonical ones ([canon]),
      and how a node in memory and a store of encodings stand for a tree ([loads]).
      [TrieSpec], [TrieHash]: each operation on nodes against trees; [TrieMap]:
      against finite maps.
    - [TrieCommit] (committer.go, nodeset.go), [CommitSpec]: dirty nodes as they are
      handed to the database, and the trie opened again from there.
    - [StackTrie] (stacktrie.go), [StackSpec], [DeriveSha]: the trie that hashes as
      keys arrive in order; the roots of the lists of a block.

    Decoding (rlp/decode.go).
    - [RlpStream]: the stream that reads values one by one.  [StreamSpec]: each decoder
      as the relation between input, value and rest that it decides, and their
      composition, with lists within lists ([consumes]); [Decoding]: accounts and
      headers.

    The database of trie nodes (trie/database.go).
    - [NodeDatabase]: the nodes in memory with their reference counts and flush
      list; Update, Reference, Dereference, Cap, Commit, reading.  Sizes, floats in
      the code, are integers.
    - [NodeGraph]: the flush list, and the invariant: every node
      comes after what it refers to, unless that is on disk, and has as many parents
      as there are references.  [NodeRemoval], [NodeInsertion], [NodeFlush],
      [NodeUpdate]: each operation keeps it.
    - [NodeSpec]: sequences of operations, what their callers must keep to
      ([admissible]) and what they promise; [NodeTrie]: the tries of [CommitSpec] in
      this database, account tries with the storage tries their leaves refer to.

    The chain of headers (core/rawdb, core/headerchain.go, core/forkchoice.go).
    - [Lru] (common/lru): the caches, against the list of the entries used last.
    - [ChainKeys] (rawdb/schema.go): the keys of the database.  [ChainStore]
      (rawdb/accessors_chain.go): its items, batches, and the freezer readers ask first.
    - [HeaderChain]: storing headers, the fork choice, moving the canonical chain and
      rewinding it.  [ChainSpec]: the invariant that ties store, caches and head
      together, and that a chain starts with it; [ChainReorg]: inserting headers
      keeps it.

    [Example], [ExampleTrie], [ExampleNodes], [ExampleDecode] and [ExampleChain]
    instantiate every parameter by functions that compute and apply the theorems to
    concrete inputs.

    ** What is shown

    - No call, creation or transaction panics (but for the panic [SubRefund]
      writes itself), runs forever, creates gas or ether, or leaves a trace when it
      fails: [Safety.Call_safe], [Safety.code_calls_safe], [Safety.creations_safe],
      [Safety.calls_create_no_ether], [StateTransition.TransitionDb_safe], and
      closed over the real state database and the main network's rules in
      [CoreEvm.mainnet_call_safe] and [StateTransition.transaction_accounts].
    - The state database refines its interface ([StateSupply.state_refines_StateDB]);
      reverting restores it ([StateTheorems.revert_restores]).
    - Optimised code equals its reference: jump destinations, difficulty
      calculators, the circulating supply, light and full proof of work.
    - Encodings are canonical and injective, so hashes commit to what they
      hash ([Rlp], [Encoding], [Blocks], [TxSigning]).
    - A mined block verifies, up to the size of dataset where the offsets wrap around;
      the header and uncle rules are characterised exactly, the latter against the
      generations of ancestors as a relation; batches are verified in order whatever
      the scheduling.
    - A processed block accounts for every unit of gas and every coin,
      and has for each transaction the receipt of its execution, with its status and
      logs ([Processor.Process_accounts]); the whole main network stays below the supply
      cap for ever, and follows the supply the code computes
      ([Chain.supply_cap], [Emission.supply_schedule]).
    - What is assembled validates, what validates commits to its receipts and logs
      ([Validator]); receipts come back from the bytes in the database
      ([Processor.receipts_restored]).
    - A trie behaves as a finite map whatever part of it is loaded
      ([TrieMap.trie_refines_map]); its root is a function of the map and commits to
      it ([TrieMap.trie_root_canonical], [TrieMap.trie_root_commits]); what is
      committed opens again ([CommitSpec.commit_reopens]); the stack trie finds the
      same root ([DeriveSha.stack_trie_root]), so a header fixes its transactions
      ([Validator.accepted_transactions_unique]).
    - The node database, used by the rules of [admissible], never fails, keeps everything that is held readable, and
      never leaves half a trie on disk ([NodeSpec.node_database_safe],
      [NodeSpec.held_root_readable], [NodeSpec.disk_survives_restart]); committing
      and capping do their work ([NodeSpec.Commit_persists],
      [NodeSpec.Cap_frees_memory]); a committed trie survives in it, an account trie
      with its storage tries ([NodeTrie.committed_trie_survives]).
    - Decoding a header never panics and is inverse to encoding it, but for the data
      gas, which the encoder leaves out ([Decoding.Header_roundtrip],
      [Decoding.Header_data_gas_lost]).
    - No two items of the chain database share a key ([ChainKeys.schema_injective]); a
      cache is the list of what was used last ([Lru.lru_keeps_recent]).
    - Inserting headers, unless it is interrupted, keeps the store a tree with the right total difficulties and
      the canonical hashes those of the head's ancestors, whatever branch wins, and
      the head moves exactly when the fork choice prefers the new one
      ([ChainReorg.InsertHeaderChain_keeps], [ChainSpec.NewHeaderChain_loads]).
    ** Fuel

    The run loop's fuel bounds the instructions of one frame: every instruction
    that continues the loop costs gas, so more fuel than gas is enough.  The calls'
    fuel bounds their nesting: calls deeper than 1024 fail, so 1026 is enough.  The
    size loops of the dataset have as much fuel as there are rows, the search for
    a nonce the number of attempts before it is aborted.  A trie operation takes at
    most two steps per nibble of the key (one to load, one to descend), and its fuel
    is set from the length of the key; decoding takes the length of the input.  The
    node database follows references between nodes in memory and walks its flush
    list, so the number of nodes in memory is enough.  Moving the canonical chain
    deletes entries of the database above the new head, so their number is enough,
    and goes back from a header at most its number of times; rewinding does the
    same.  Other loops are structural or their theorem states how much fuel is enough.

    ** Parameters

    Code outside the repository, and what is assumed of it: Keccak-256 is
    idealised, injective and never zero; Keccak-512 gives 64 bytes; the 256-bit
    library computes what it documents; a precompile's [Run] returns, with a result
    of bounded length; the secp256k1 library recovers the key that signed;
    [ProbablyPrime] is right below 2^64.  What the state database reads below it is
    a parameter as well ([DatabaseLaws]: nonces fit 64 bits, balances are not
    negative, code is stored under its hash and of bounded length).  Schedulers and
    map iteration are parameters too: the order in which threads store, workers
    finish, dirty accounts and the children of a node are visited.  The disk below
    the node database takes a batch as a whole or refuses it; the cache of clean
    nodes may forget, but gives back only what it was given.  Nodes are known by
    their hashes ([NodeUniverse]): a hash belongs to one node, and references lead
    to smaller nodes, as they do when hashes do not collide.  The headers that may
    occur are known by their hashes in the same way ([HeaderUniverse]), and a
    header's number follows its parent's.  The freezer answers or fails
    ([AncientStore]; empty in [ChainSpec]), a batch of the chain database is
    written as a whole or refused ([KvDisk]), and the answers of [procInterrupt]
    and the random coin of the fork choice are given.

    ** Not modelled

    - Tracers and debugging hooks (they are nil), metrics and logging.
    - Snapshots below the state database; the state database over tries (what it
      reads is a parameter); iterators, proofs and synchronisation of tries;
      preimages, the journal of the node cache, and the locks of the node database.
    - The reflection that finds the RLP coders of a type (the decoders it puts together
      for headers, accounts, logs and stored receipts are written out); JSON, ABI
      encodings.
    - Networking, synchronisation, RPC, command line, key stores: input and
      output around the rules modelled here.
    - Moving items to the freezer; the invariant of the header chain while it is
      rewound (an interrupted import is shown to leave the database and the head as
      they were, nothing is shown of its caches); the block chain around it.
    - Clique and the beacon wrapper: the main network mines by work. *)

From Stdlib Require Export ZArith Lia.
From Stdlib Require Import Strings.Byte.
From stdpp Require Export base tactics list gmap numbers.

#[global] Open Scope Z_scope.

(** ** Bytes

    A Go [byte] is the Standard Library's [Byte.byte]; a [[]byte] is a list of
    them.  [byte_val] and [byte_of_Z] are the conversions to and from integers
    ([byte(x)] truncates). *)

Abbreviation byte := Corelib.Init.Byte.byte (only parsing).

Definition byte_val (b : byte) : Z := Z.of_N (Byte.to_N b).

Definition byte_of_Z (z : Z) : byte :=
  match Byte.of_N (Z.to_N (z mod 256)) with
  | Some b => b
  | None => Byte.x00
  end.

(** Big-endian reading and writing of byte strings. *)

Definition be_value (bs : list byte) : Z :=
  fold_left (fun acc b => acc * 256 + byte_val b) bs 0.

Fixpoint be_bytes (n : nat) (z : Z) : list byte :=
  match n with
  | O => []
  | S m => byte_of_Z (z / 256 ^ Z.of_nat m) :: be_bytes m z
  end.

(** ** Machine integers

    Unsigned 64-bit values are integers in [0, 2^64); every arithmetic
    operation of the source on [uint64] is written with its wrap-around
    [u64]; [i64] is the conversion [int64(x)]. *)

Definition two64 : Z := 2 ^ 64.
Definition two256 : Z := 2 ^ 256.
Definition MaxUint64 : Z := two64 - 1.

Definition u64 (z : Z) : Z := z mod two64.
Definition i64 (z : Z) : Z := (z + 2 ^ 63) mod two64 - 2 ^ 63.

Definition is_u64 (z : Z) : Prop := 0 <= z < two64.
Definition is_u256 (z : Z) : Prop := 0 <= z < two256.

Definition zlen {A} (l : list A) : Z := Z.of_nat (length l).

(** ** Outcomes of Go code

    A Go function returns, or panics at run time (an index out of range, a nil
    dereference, an explicit [panic]); a bounded unfolding of a loop may also
    run out of fuel, which is an artefact of the model and is proved not to
    happen. *)

Inductive panic : Type :=
| PanicIndex
| PanicNil
| PanicMemory
| PanicAccessList
| PanicRefund
| PanicRevision
| PanicGasPool
| PanicInvalidTable
| PanicDivide
| PanicWithdrawals
| PanicSignature
| PanicTrie
| PanicCrit.

Inductive Res (A : Type) : Type :=
| Ret (a : A)
| Panic (p : panic)
| NoFuel.
Arguments Ret {A} a.
Arguments Panic {A} p.
Arguments NoFuel {A}.

Definition res_bind {A B} (r : Res A) (k : A -> Res B) : Res B :=
  match r with Ret a => k a | Panic p => Panic p | NoFuel => NoFuel end.

(** Stateful code: a function from the state it mutates to an outcome. *)

Definition GM (S A : Type) : Type := S -> Res (A * S).

Definition gret {S A} (a : A) : GM S A := fun s => Ret (a, s).
Definition gpanic {S A} (p : panic) : GM S A := fun _ => Panic p.
Definition gbind {S A B} (m : GM S A) (k : A -> GM S B) : GM S B :=
  fun s =>
    match m s with
    | Ret (a, s') => k a s'
    | Panic p => Panic p
    | NoFuel => NoFuel
    end.
Definition gget {S A} (f : S -> A) : GM S A := fun s => Ret (f s, s).
Definition gput {S} (f : S -> S) : GM S unit := fun s => Ret (tt, f s).
Definition gpure {S A} (r : Res A) : GM S A :=
  fun s => match r with Ret a => Ret (a, s) | Panic p => Panic p | NoFuel => NoFuel end.

(** Running code that works on a component of the state. *)
Definition gzoom {S T A} (get : S -> T) (put : T -> S -> S) (m : GM T A) : GM S A :=
  fun s =>
    match m (get s) with
    | Ret (a, t) => Ret (a, put t s)
    | Panic p => Panic p
    | NoFuel => NoFuel
    end.

Declare Scope go_scope.
Delimit Scope go_scope with go.
Notation "'let*' x ':=' m 'in' k" := (gbind m (fun x => k))
  (at level 10, x pattern, m at level 100, k at level 200) : go_scope.
Notation "m ';;;' k" := (gbind m (fun _ => k))
  (at level 199, right associativity) : go_scope.
Notation "'let?' x ':=' m 'in' k" := (res_bind m (fun x => k))
  (at level 10, x pattern, m at level 100, k at level 200) : go_scope.
#[global] Open Scope go_scope.

(** Slicing [s[lo:hi]] and indexing [s[i]] with Go's bound checks.  (The
    capacity of a slice is not modelled: slicing past the length is a panic
    here, also where Go would still find room in the capacity.) *)

Definition go_slice {A} (l : list A) (lo hi : Z) : Res (list A) :=
  if (0 <=? lo) && (lo <=? hi) && (hi <=? zlen l)
  then Ret (take (Z.to_nat (hi - lo)) (drop (Z.to_nat lo) l))
  else Panic PanicIndex.

Definition go_index {A} (l : list A) (i : Z) : Res A :=
  if (0 <=? i) && (i <? zlen l) then
    match l !! Z.to_nat i with
    | Some x => Ret x
    | None => Panic PanicIndex
    end
  else Panic PanicIndex.

Definition go_update {A} (l : list A) (i : Z) (x : A) : Res (list A) :=
  if (0 <=? i) && (i <? zlen l) then Ret (<[Z.to_nat i := x]> l) else Panic PanicIndex.

(** [copy(dst[off:], src)]: as many bytes of [src] as fit. *)
Definition copy_at {A} (dst : list A) (off : nat) (src : list A) : list A :=
  let n := Nat.min (length src) (length dst - off) in
  take off dst ++ take n src ++ drop (off + n) dst.

(** ** Weakest preconditions

    [wp ok m Q s]: run from [s], [m] terminates, and either it returns with
    [Q], or it panics with one of the panics [ok] allows. *)

Definition wp {S A} (ok : panic -> Prop) (m : GM S A) (Q : A -> S -> Prop) (s : S) : Prop :=
  match m s with
  | Ret (a, s') => Q a s'
  | Panic p => ok p
  | NoFuel => False
  end.

Definition no_panic (p : panic) : Prop := False.

(** ** Lemmas: bytes *)

Lemma byte_val_range b : 0 <= byte_val b < 256.
Proof. destruct b; vm_compute; split; congruence. Qed.

Lemma byte_val_of_Z z : byte_val (byte_of_Z z) = z mod 256.
Proof.
  unfold byte_of_Z, byte_val.
  pose proof (Z.mod_pos_bound z 256 ltac:(lia)) as Hb.
  destruct (Byte.of_N (Z.to_N (z mod 256))) as [b|] eqn:E.
  - apply Byte.to_of_N in E. rewrite E. rewrite Z2N.id by lia. done.
  - apply Byte.of_N_None_iff in E. lia.
Qed.

Lemma byte_of_Z_val b : byte_of_Z (byte_val b) = b.
Proof. destruct b; reflexivity. Qed.

Lemma byte_val_inj a b : byte_val a = byte_val b -> a = b.
Proof. intros H. rewrite <- (byte_of_Z_val a), <- (byte_of_Z_val b). by rewrite H. Qed.

#[export] Instance byte_eq_dec : EqDecision byte.
Proof. intros a b. destruct (Byte.byte_eq_dec a b); [left | right]; done. Defined.

Lemma be_value_app xs ys :
  be_value (xs ++ ys) = be_value xs * 256 ^ zlen ys + be_value ys.
Proof.
  unfold be_value, zlen. rewrite fold_left_app.
  generalize (fold_left (fun acc b => acc * 256 + byte_val b) xs 0) as a.
  induction ys as [|y ys IH] using rev_ind; intros a.
  - cbn. lia.
  - rewrite !fold_left_app, IH, length_app. cbn [fold_left length].
    replace (Z.of_nat (length ys + 1)) with (Z.of_nat (length ys) + 1) by lia.
    rewrite Z.pow_add_r by lia. lia.
Qed.

Lemma be_value_bound bs : 0 <= be_value bs < 256 ^ zlen bs.
Proof.
  induction bs as [|b bs IH] using rev_ind; [vm_compute; split; congruence|].
  rewrite be_value_app. unfold zlen in *. rewrite length_app. cbn [length].
  replace (Z.of_nat (length bs + 1)) with (Z.of_nat (length bs) + 1) by lia.
  rewrite Z.pow_add_r by lia. pose proof (byte_val_range b).
  cbn [be_value fold_left]. change (256 ^ Z.of_nat 1) with 256.
  replace (256 ^ 1) with 256 by lia. unfold be_value in *. cbn [fold_left]. lia.
Qed.

Lemma length_be_bytes n z : length (be_bytes n z) = n.
Proof. induction n; cbn; congruence. Qed.

Lemma be_value_cons b bs : be_value (b :: bs) = byte_val b * 256 ^ zlen bs + be_value bs.
Proof. change (b :: bs) with ([b] ++ bs). rewrite be_value_app. cbn. lia. Qed.

Lemma be_value_be_bytes n z : be_value (be_bytes n z) = z mod 256 ^ Z.of_nat n.
Proof.
  induction n as [|n IH].
  - cbn. by rewrite Z.mod_1_r.
  - cbn [be_bytes]. rewrite be_value_cons, IH, byte_val_of_Z.
    unfold zlen. rewrite length_be_bytes.
    replace (Z.of_nat (S n)) with (Z.of_nat n + 1) by lia.
    rewrite Z.pow_add_r by lia. replace (256 ^ 1) with 256 by lia.
    rewrite Z.rem_mul_r by lia. lia.
Qed.

(** ** Lemmas: machine integers *)

Lemma u64_range z : is_u64 (u64 z).
Proof. unfold is_u64, u64. apply Z.mod_pos_bound. unfold two64. lia. Qed.

Lemma u64_small z : is_u64 z -> u64 z = z.
Proof. apply Z.mod_small. Qed.

Lemma u64_sub_neg a b : is_u64 a -> is_u64 b -> a < b -> u64 (a - b) = a - b + two64.
Proof.
  unfold is_u64, u64. intros Ha Hb Hlt.
  symmetry. apply (Z.mod_unique _ _ (-1)); lia.
Qed.

Lemma u64_add_over a b : is_u64 a -> is_u64 b -> two64 <= a + b -> u64 (a + b) = a + b - two64.
Proof.
  unfold is_u64, u64. intros Ha Hb Hle. symmetry. apply (Z.mod_unique _ _ 1); lia.
Qed.

Lemma u64_sub_self a : u64 (a - a) = 0.
Proof. rewrite Z.sub_diag. done. Qed.

Lemma i64_small z : 0 <= z < 2 ^ 63 -> i64 z = z.
Proof. unfold i64, two64. intros H. rewrite Z.mod_small by lia. lia. Qed.

Lemma two64_lt_two256 : two64 < two256.
Proof. reflexivity. Qed.

(** ** Lemmas: slices *)

Lemma zlen_nonneg {A} (l : list A) : 0 <= zlen l.
Proof. unfold zlen. lia. Qed.

Lemma zlen_nil {A} : zlen (@nil A) = 0.
Proof. done. Qed.

Lemma zlen_cons {A} (x : A) l : zlen (x :: l) = zlen l + 1.
Proof. unfold zlen. cbn. lia. Qed.

Lemma zlen_app {A} (l k : list A) : zlen (l ++ k) = zlen l + zlen k.
Proof. unfold zlen. rewrite length_app. lia. Qed.

Lemma zlen_snoc {A} (l : list A) x : zlen (l ++ [x]) = zlen l + 1.
Proof. unfold zlen. rewrite length_app. cbn. lia. Qed.

Lemma go_slice_ok {A} (l : list A) lo hi :
  0 <= lo <= hi -> hi <= zlen l ->
  exists r, go_slice l lo hi = Ret r /\ zlen r = hi - lo.
Proof.
  intros H1 H2. unfold go_slice.
  rewrite (proj2 (Z.leb_le 0 lo)), (proj2 (Z.leb_le lo hi)), (proj2 (Z.leb_le hi (zlen l))) by lia.
  cbn. eexists. split; [done|].
  unfold zlen in *. rewrite length_take, length_drop. lia.
Qed.

Lemma go_index_ok {A} (l : list A) i :
  0 <= i < zlen l -> exists x, go_index l i = Ret x /\ l !! Z.to_nat i = Some x.
Proof.
  intros H. unfold go_index.
  rewrite (proj2 (Z.leb_le 0 i)), (proj2 (Z.ltb_lt i (zlen l))) by lia. cbn.
  destruct (l !! Z.to_nat i) as [x|] eqn:E; [by eexists|].
  apply lookup_ge_None in E. unfold zlen in H. lia.
Qed.

Lemma go_update_ok {A} (l : list A) i x :
  0 <= i < zlen l -> go_update l i x = Ret (<[Z.to_nat i := x]> l).
Proof.
  intros H. unfold go_update.
  by rewrite (proj2 (Z.leb_le 0 i)), (proj2 (Z.ltb_lt i (zlen l))) by lia.
Qed.

Lemma length_copy_at {A} (dst : list A) off src :
  length (copy_at dst off src) = length dst.
Proof.
  unfold copy_at. rewrite !length_app, !length_take, length_drop. lia.
Qed.

Lemma copy_at_fits {A} (dst : list A) off src : (off + length src <= length dst)%nat ->
  copy_at dst off src = take off dst ++ src ++ drop (off + length src) dst.
Proof. intros H. unfold copy_at. rewrite Nat.min_l by lia. by rewrite (take_ge src) by lia. Qed.

Lemma copy_at_middle {A} (a b c src : list A) off :
  length a = off -> length src = length b -> copy_at (a ++ b ++ c) off src = a ++ src ++ c.
Proof.
  intros Ha Hb. rewrite copy_at_fits by (rewrite !length_app; lia).
  rewrite take_app_length' by lia. do 2 f_equal. rewrite drop_app_ge by lia. rewrite Ha.
  replace (off + length src - off)%nat with (length src) by lia. by rewrite drop_app_length' by lia.
Qed.

(** ** Lemmas: weakest preconditions *)

Section wp_lemmas.
Context {S : Type} {ok : panic -> Prop}.

Lemma wp_gret {A} (a : A) (Q : A -> S -> Prop) s : Q a s -> wp ok (gret a) Q s.
Proof. done. Qed.

Lemma wp_gbind {A B} (m : GM S A) (k : A -> GM S B) Q s :
  wp ok m (fun a s' => wp ok (k a) Q s') s -> wp ok (gbind m k) Q s.
Proof. unfold wp, gbind. by destruct (m s) as [[a s']| |]. Qed.

Lemma wp_gbind_gret {A} (m : GM S A) Q s : wp ok (gbind m gret) Q s -> wp ok m Q s.
Proof. unfold wp, gbind, gret. by destruct (m s) as [[a s']| |]. Qed.

Lemma wp_gget {A} (f : S -> A) (Q : A -> S -> Prop) s : Q (f s) s -> wp ok (gget f) Q s.
Proof. done. Qed.

Lemma wp_gput (f : S -> S) (Q : unit -> S -> Prop) s : Q tt (f s) -> wp ok (gput f) Q s.
Proof. done. Qed.

Lemma wp_gpanic {A} p (Q : A -> S -> Prop) s : ok p -> wp ok (gpanic p) Q s.
Proof. done. Qed.

Lemma wp_gpure {A} (r : Res A) a (Q : A -> S -> Prop) s :
  r = Ret a -> Q a s -> wp ok (gpure r) Q s.
Proof. intros ->. done. Qed.

Lemma wp_gzoom {T A} (get : S -> T) put (m : GM T A) Q s :
  wp ok m (fun a t => Q a (put t s)) (get s) -> wp ok (gzoom get put m) Q s.
Proof. unfold wp, gzoom. by destruct (m (get s)) as [[a t]| |]. Qed.

Lemma wp_mono {A} (m : GM S A) (P Q : A -> S -> Prop) s :
  wp ok m P s -> (forall a s', P a s' -> Q a s') -> wp ok m Q s.
Proof. unfold wp. intros H HPQ. destruct (m s) as [[a s']| |]; auto. Qed.

Lemma wp_conj {A} (m : GM S A) (P Q : A -> S -> Prop) s :
  wp ok m P s -> wp ok m Q s -> wp ok m (fun a s' => P a s' /\ Q a s') s.
Proof. unfold wp. destruct (m s) as [[a s']| |]; auto. Qed.
End wp_lemmas.

Lemma wp_returns {S A} (m : GM S A) Q s :
  wp no_panic m Q s -> exists a s', m s = Ret (a, s') /\ Q a s'.
Proof. unfold wp, no_panic. destruct (m s) as [[a s']| |]; [eauto | done | done]. Qed.

(** ** Automation *)

Create HintDb r5 discriminated.
#[export] Hint Resolve u64_range zlen_nonneg byte_val_range : r5.

(** [wp_step] decomposes the monadic structure of the program in the goal. *)
Ltac wp_step :=
  lazymatch goal with
  | |- wp _ (gbind _ _) _ _ => apply wp_gbind
  | |- wp _ (gret _) _ _ => apply wp_gret
  | |- wp _ (gget _) _ _ => apply wp_gget
  | |- wp _ (gput _) _ _ => apply wp_gput
  | |- wp _ (gpanic _) _ _ => apply wp_gpanic
  | |- wp _ (gzoom _ _ _) _ _ => apply wp_gzoom
  | |- wp _ (if ?b then _ else _) _ _ => destruct b eqn:?
  | |- wp _ (match ?x with _ => _ end) _ _ => destruct x eqn:?
  end.

(** [zbool] turns boolean comparisons of [Z] in hypotheses into propositions. *)
Ltac zbool :=
  repeat match goal with
  | H : (_ && _) = true |- _ => apply andb_true_iff in H; destruct H
  | H : (_ || _) = false |- _ => apply orb_false_iff in H; destruct H
  | H : (_ <=? _) = true |- _ => apply Z.leb_le in H
  | H : (_ <=? _) = false |- _ => apply Z.leb_gt in H
  | H : (_ <? _) = true |- _ => apply Z.ltb_lt in H
  | H : (_ <? _) = false |- _ => apply Z.ltb_ge in H
  | H : (_ >? _) = _ |- _ => rewrite Z.gtb_ltb in H
  | H : (_ >=? _) = _ |- _ => rewrite Z.geb_leb in H
  | H : (_ =? _) = true |- _ => apply Z.eqb_eq in H
  | H : (_ =? _) = false |- _ => apply Z.eqb_neq in H
  | H : negb _ = true |- _ => apply negb_true_iff in H
  | H : negb _ = false |- _ => apply negb_false_iff in H
  end.

(** [ulia] is [lia] with the widths of the machine integers unfolded. *)
Ltac ulia := unfold is_u64, is_u256, MaxUint64, two64, two256 in *; lia.
