(* ===== verification/Uint256.v ===== *)
(** * The interface to the 256-bit integer library

    The EVM computes on [uint256.Int] of the package github.com/holiman/uint256,
    which is not part of this repository.  A [uint256.Int] is represented by its
    value, an integer in [0, 2^256).  The class [Uint256] lists the methods the
    repository calls; [Uint256Laws] states what their documentation promises.
    Every definition of the development takes the methods as an argument, every
    theorem that relies on a method takes the laws.  [u256_ref] is a concrete
    implementation that satisfies the laws, used by the witnesses. *)

From S2P Require Import Prelude.

Class Uint256 : Type := {
  u256_Add : Z -> Z -> Z;
  u256_Sub : Z -> Z -> Z;
  u256_Mul : Z -> Z -> Z;
  u256_Div : Z -> Z -> Z;
  u256_SDiv : Z -> Z -> Z;
  u256_Mod : Z -> Z -> Z;
  u256_SMod : Z -> Z -> Z;
  u256_Exp : Z -> Z -> Z;
  u256_ExtendSign : Z -> Z -> Z;
  u256_Not : Z -> Z;
  u256_Lt : Z -> Z -> bool;
  u256_Gt : Z -> Z -> bool;
  u256_Slt : Z -> Z -> bool;
  u256_Sgt : Z -> Z -> bool;
  u256_Eq : Z -> Z -> bool;
  u256_IsZero : Z -> bool;
  u256_Sign : Z -> Z;
  u256_And : Z -> Z -> Z;
  u256_Or : Z -> Z -> Z;
  u256_Xor : Z -> Z -> Z;
  u256_Byte : Z -> Z -> Z;        (* z.Byte(n), z first *)
  u256_AddMod : Z -> Z -> Z -> Z;
  u256_MulMod : Z -> Z -> Z -> Z;
  u256_Lsh : Z -> Z -> Z;
  u256_Rsh : Z -> Z -> Z;
  u256_SRsh : Z -> Z -> Z;
  u256_LtUint64 : Z -> Z -> bool;
  u256_GtUint64 : Z -> Z -> bool;
  u256_Clear : Z;
  u256_SetOne : Z;
  u256_SetAllOne : Z;
  u256_SetUint64 : Z -> Z;
  u256_SetBytes : list byte -> Z;
  u256_FromBig : Z -> Z;          (* the value part of FromBig / SetFromBig *)
  u256_ToBig : Z -> Z;
  u256_Uint64 : Z -> Z;
  u256_IsUint64 : Z -> bool;
  u256_Uint64WithOverflow : Z -> Z * bool;
  u256_Bytes32 : Z -> Z;          (* the [32]byte, as a common.Hash *)
  u256_Bytes20 : Z -> Z;          (* the [20]byte, as a common.Address *)
  u256_BitLen : Z -> Z
}.

(** Two's complement reading of a 256-bit value. *)
Definition signed256 (x : Z) : Z := if x <? 2 ^ 255 then x else x - two256.

(** The last 32 bytes of a buffer. *)
Definition last32 (bs : list byte) : list byte := drop (length bs - 32) bs.

Class Uint256Laws (U : Uint256) : Prop := {
  Add_spec x y : is_u256 x -> is_u256 y -> u256_Add x y = (x + y) mod two256;
  Sub_spec x y : is_u256 x -> is_u256 y -> u256_Sub x y = (x - y) mod two256;
  Mul_spec x y : is_u256 x -> is_u256 y -> u256_Mul x y = (x * y) mod two256;
  Div_spec x y : is_u256 x -> is_u256 y -> u256_Div x y = if y =? 0 then 0 else x / y;
  SDiv_spec x y : is_u256 x -> is_u256 y ->
    u256_SDiv x y = if y =? 0 then 0 else (Z.quot (signed256 x) (signed256 y)) mod two256;
  Mod_spec x y : is_u256 x -> is_u256 y -> u256_Mod x y = if y =? 0 then 0 else x mod y;
  SMod_spec x y : is_u256 x -> is_u256 y ->
    u256_SMod x y = if y =? 0 then 0 else (Z.rem (signed256 x) (signed256 y)) mod two256;
  Exp_spec x y : is_u256 x -> is_u256 y -> u256_Exp x y = (x ^ y) mod two256;
  ExtendSign_range x b : is_u256 x -> is_u256 b -> is_u256 (u256_ExtendSign x b);
  Not_spec x : is_u256 x -> u256_Not x = two256 - 1 - x;
  Lt_spec x y : is_u256 x -> is_u256 y -> u256_Lt x y = (x <? y);
  Gt_spec x y : is_u256 x -> is_u256 y -> u256_Gt x y = (y <? x);
  Slt_spec x y : is_u256 x -> is_u256 y -> u256_Slt x y = (signed256 x <? signed256 y);
  Sgt_spec x y : is_u256 x -> is_u256 y -> u256_Sgt x y = (signed256 y <? signed256 x);
  Eq_spec x y : is_u256 x -> is_u256 y -> u256_Eq x y = (x =? y);
  IsZero_spec x : is_u256 x -> u256_IsZero x = (x =? 0);
  Sign_spec x : is_u256 x -> u256_Sign x = Z.sgn (signed256 x);
  And_spec x y : is_u256 x -> is_u256 y -> u256_And x y = Z.land x y;
  Or_spec x y : is_u256 x -> is_u256 y -> u256_Or x y = Z.lor x y;
  Xor_spec x y : is_u256 x -> is_u256 y -> u256_Xor x y = Z.lxor x y;
  Byte_spec x n : is_u256 x -> is_u256 n ->
    u256_Byte x n = if n <? 32 then (x / 256 ^ (31 - n)) mod 256 else 0;
  AddMod_spec x y m : is_u256 x -> is_u256 y -> is_u256 m ->
    u256_AddMod x y m = if m =? 0 then 0 else (x + y) mod m;
  MulMod_spec x y m : is_u256 x -> is_u256 y -> is_u256 m ->
    u256_MulMod x y m = if m =? 0 then 0 else (x * y) mod m;
  Lsh_spec x n : is_u256 x -> 0 <= n -> u256_Lsh x n = (x * 2 ^ n) mod two256;
  Rsh_spec x n : is_u256 x -> 0 <= n -> u256_Rsh x n = x / 2 ^ n;
  SRsh_spec x n : is_u256 x -> 0 <= n -> u256_SRsh x n = (signed256 x / 2 ^ n) mod two256;
  LtUint64_spec x n : is_u256 x -> is_u64 n -> u256_LtUint64 x n = (x <? n);
  GtUint64_spec x n : is_u256 x -> is_u64 n -> u256_GtUint64 x n = (n <? x);
  Clear_spec : u256_Clear = 0;
  SetOne_spec : u256_SetOne = 1;
  SetAllOne_spec : u256_SetAllOne = two256 - 1;
  SetUint64_spec n : u256_SetUint64 n = u64 n;
  SetBytes_spec bs : u256_SetBytes bs = be_value (last32 bs);
  FromBig_spec n : u256_FromBig n = n mod two256;
  ToBig_spec x : is_u256 x -> u256_ToBig x = x;
  Uint64_spec x : is_u256 x -> u256_Uint64 x = u64 x;
  IsUint64_spec x : is_u256 x -> u256_IsUint64 x = (x <? two64);
  Uint64WithOverflow_spec x : is_u256 x ->
    u256_Uint64WithOverflow x = (u64 x, negb (x <? two64));
  Bytes32_spec x : is_u256 x -> u256_Bytes32 x = x;
  Bytes20_spec x : is_u256 x -> u256_Bytes20 x = x mod 2 ^ 160;
  BitLen_spec x : is_u256 x -> u256_BitLen x = if x =? 0 then 0 else Z.log2 x + 1
}.

(** ** A concrete implementation *)

Definition ref_ExtendSign (x b : Z) : Z :=
  if b <? 31 then
    let w := 8 * (b + 1) in
    let v := x mod 2 ^ w in
    (if v <? 2 ^ (w - 1) then v else v - 2 ^ w) mod two256
  else x.

#[export] Instance u256_ref : Uint256 := {
  u256_Add x y := (x + y) mod two256;
  u256_Sub x y := (x - y) mod two256;
  u256_Mul x y := (x * y) mod two256;
  u256_Div x y := if y =? 0 then 0 else x / y;
  u256_SDiv x y := if y =? 0 then 0 else (Z.quot (signed256 x) (signed256 y)) mod two256;
  u256_Mod x y := if y =? 0 then 0 else x mod y;
  u256_SMod x y := if y =? 0 then 0 else (Z.rem (signed256 x) (signed256 y)) mod two256;
  u256_Exp x y := (x ^ y) mod two256;
  u256_ExtendSign := ref_ExtendSign;
  u256_Not x := two256 - 1 - x;
  u256_Lt x y := x <? y;
  u256_Gt x y := y <? x;
  u256_Slt x y := signed256 x <? signed256 y;
  u256_Sgt x y := signed256 y <? signed256 x;
  u256_Eq x y := x =? y;
  u256_IsZero x := x =? 0;
  u256_Sign x := Z.sgn (signed256 x);
  u256_And := Z.land;
  u256_Or := Z.lor;
  u256_Xor := Z.lxor;
  u256_Byte x n := if n <? 32 then (x / 256 ^ (31 - n)) mod 256 else 0;
  u256_AddMod x y m := if m =? 0 then 0 else (x + y) mod m;
  u256_MulMod x y m := if m =? 0 then 0 else (x * y) mod m;
  u256_Lsh x n := (x * 2 ^ n) mod two256;
  u256_Rsh x n := x / 2 ^ n;
  u256_SRsh x n := (signed256 x / 2 ^ n) mod two256;
  u256_LtUint64 x n := x <? n;
  u256_GtUint64 x n := n <? x;
  u256_Clear := 0;
  u256_SetOne := 1;
  u256_SetAllOne := two256 - 1;
  u256_SetUint64 n := u64 n;
  u256_SetBytes bs := be_value (last32 bs);
  u256_FromBig n := n mod two256;
  u256_ToBig x := x;
  u256_Uint64 x := u64 x;
  u256_IsUint64 x := x <? two64;
  u256_Uint64WithOverflow x := (u64 x, negb (x <? two64));
  u256_Bytes32 x := x;
  u256_Bytes20 x := x mod 2 ^ 160;
  u256_BitLen x := if x =? 0 then 0 else Z.log2 x + 1
}.

(** ** Lemmas *)

Lemma two256_pos : 0 < two256.
Proof. reflexivity. Qed.

Lemma mod256_range z : is_u256 (z mod two256).
Proof. apply Z.mod_pos_bound, two256_pos. Qed.

Lemma zero_u256 : is_u256 0.
Proof. split; [lia | reflexivity]. Qed.

Lemma one_u256 : is_u256 1.
Proof. split; [lia | reflexivity]. Qed.

Lemma is_u64_u256 z : is_u64 z -> is_u256 z.
Proof. unfold is_u64, is_u256. pose proof two64_lt_two256. lia. Qed.

Lemma be_value_last32 bs : is_u256 (be_value (last32 bs)).
Proof.
  pose proof (be_value_bound (last32 bs)) as [H0 H1]. split; [done|].
  eapply Z.lt_le_trans; [exact H1|].
  change two256 with (256 ^ 32). apply Z.pow_le_mono_r; [lia|].
  unfold zlen, last32. rewrite length_drop. lia.
Qed.

Lemma bits_below_256 z : 0 <= z -> (forall i, 256 <= i -> Z.testbit z i = false) -> is_u256 z.
Proof.
  intros Hz Hb. split; [done|].
  destruct (Z.eq_dec z 0) as [->|Hnz]; [reflexivity|].
  unfold two256. apply Z.log2_lt_pow2; [lia|].
  destruct (Z.lt_ge_cases (Z.log2 z) 256) as [|Hge]; [done|].
  specialize (Hb _ Hge). rewrite Z.bit_log2 in Hb by lia. done.
Qed.

Lemma testbit_u256 z i : is_u256 z -> 256 <= i -> Z.testbit z i = false.
Proof.
  intros [Hz Hlt] Hi. destruct (Z.eq_dec z 0) as [->|Hnz]; [apply Z.testbit_0_l|].
  apply Z.bits_above_log2; [done|].
  apply Z.lt_le_trans with 256; [|done]. apply Z.log2_lt_pow2; [lia|exact Hlt].
Qed.

Section ranges.
Context {U : Uint256} {L : Uint256Laws U}.

Lemma Add_range x y : is_u256 x -> is_u256 y -> is_u256 (u256_Add x y).
Proof. intros. rewrite Add_spec by done. apply mod256_range. Qed.

Lemma Sub_range x y : is_u256 x -> is_u256 y -> is_u256 (u256_Sub x y).
Proof. intros. rewrite Sub_spec by done. apply mod256_range. Qed.

Lemma Mul_range x y : is_u256 x -> is_u256 y -> is_u256 (u256_Mul x y).
Proof. intros. rewrite Mul_spec by done. apply mod256_range. Qed.

Lemma Div_range x y : is_u256 x -> is_u256 y -> is_u256 (u256_Div x y).
Proof.
  intros Hx Hy. rewrite Div_spec by done. destruct (Z.eqb_spec y 0); [apply zero_u256|].
  unfold is_u256 in *. split; [apply Z.div_pos; lia|].
  apply Z.le_lt_trans with x; [apply Z.div_le_upper_bound; nia | lia].
Qed.

Lemma SDiv_range x y : is_u256 x -> is_u256 y -> is_u256 (u256_SDiv x y).
Proof. intros. rewrite SDiv_spec by done. destruct (y =? 0); [apply zero_u256 | apply mod256_range]. Qed.

Lemma Mod_range x y : is_u256 x -> is_u256 y -> is_u256 (u256_Mod x y).
Proof.
  intros Hx Hy. rewrite Mod_spec by done. destruct (Z.eqb_spec y 0); [apply zero_u256|].
  unfold is_u256 in *. pose proof (Z.mod_pos_bound x y). lia.
Qed.

Lemma SMod_range x y : is_u256 x -> is_u256 y -> is_u256 (u256_SMod x y).
Proof. intros. rewrite SMod_spec by done. destruct (y =? 0); [apply zero_u256 | apply mod256_range]. Qed.

Lemma Exp_range x y : is_u256 x -> is_u256 y -> is_u256 (u256_Exp x y).
Proof. intros. rewrite Exp_spec by done. apply mod256_range. Qed.

Lemma Not_range x : is_u256 x -> is_u256 (u256_Not x).
Proof. intros Hx. rewrite Not_spec by done. unfold is_u256 in *. lia. Qed.

Lemma And_range x y : is_u256 x -> is_u256 y -> is_u256 (u256_And x y).
Proof.
  intros Hx Hy. rewrite And_spec by done. apply bits_below_256.
  - apply Z.land_nonneg. left. apply Hx.
  - intros i Hi. rewrite Z.land_spec, (testbit_u256 x) by done. done.
Qed.

Lemma Or_range x y : is_u256 x -> is_u256 y -> is_u256 (u256_Or x y).
Proof.
  intros Hx Hy. rewrite Or_spec by done. apply bits_below_256.
  - apply Z.lor_nonneg. split; [apply Hx | apply Hy].
  - intros i Hi. rewrite Z.lor_spec, (testbit_u256 x), (testbit_u256 y) by done. done.
Qed.

Lemma Xor_range x y : is_u256 x -> is_u256 y -> is_u256 (u256_Xor x y).
Proof.
  intros Hx Hy. rewrite Xor_spec by done. apply bits_below_256.
  - apply Z.lxor_nonneg. split; intros; [apply Hy | apply Hx].
  - intros i Hi. rewrite Z.lxor_spec, (testbit_u256 x), (testbit_u256 y) by done. done.
Qed.

Lemma Byte_range x n : is_u256 x -> is_u256 n -> is_u256 (u256_Byte x n).
Proof.
  intros Hx Hn. rewrite Byte_spec by done. destruct (n <? 32); [|apply zero_u256].
  apply is_u64_u256. unfold is_u64, two64.
  pose proof (Z.mod_pos_bound (x / 256 ^ (31 - n)) 256). lia.
Qed.

Lemma AddMod_range x y m : is_u256 x -> is_u256 y -> is_u256 m -> is_u256 (u256_AddMod x y m).
Proof.
  intros Hx Hy Hm. rewrite AddMod_spec by done. destruct (Z.eqb_spec m 0); [apply zero_u256|].
  unfold is_u256 in *. pose proof (Z.mod_pos_bound (x + y) m). lia.
Qed.

Lemma MulMod_range x y m : is_u256 x -> is_u256 y -> is_u256 m -> is_u256 (u256_MulMod x y m).
Proof.
  intros Hx Hy Hm. rewrite MulMod_spec by done. destruct (Z.eqb_spec m 0); [apply zero_u256|].
  unfold is_u256 in *. pose proof (Z.mod_pos_bound (x * y) m). lia.
Qed.

Lemma Lsh_range x n : is_u256 x -> 0 <= n -> is_u256 (u256_Lsh x n).
Proof. intros. rewrite Lsh_spec by done. apply mod256_range. Qed.

Lemma Rsh_range x n : is_u256 x -> 0 <= n -> is_u256 (u256_Rsh x n).
Proof.
  intros Hx Hn. rewrite Rsh_spec by done. unfold is_u256 in *.
  pose proof (Z.pow_pos_nonneg 2 n ltac:(lia) Hn).
  split; [apply Z.div_pos; lia|].
  apply Z.le_lt_trans with x; [apply Z.div_le_upper_bound; nia | lia].
Qed.

Lemma SRsh_range x n : is_u256 x -> 0 <= n -> is_u256 (u256_SRsh x n).
Proof. intros. rewrite SRsh_spec by done. apply mod256_range. Qed.

Lemma Clear_range : is_u256 u256_Clear.
Proof. rewrite Clear_spec. apply zero_u256. Qed.

Lemma SetOne_range : is_u256 u256_SetOne.
Proof. rewrite SetOne_spec. apply one_u256. Qed.

Lemma SetAllOne_range : is_u256 u256_SetAllOne.
Proof. rewrite SetAllOne_spec. split; [vm_compute; congruence | reflexivity]. Qed.

Lemma SetUint64_range n : is_u256 (u256_SetUint64 n).
Proof. rewrite SetUint64_spec. apply is_u64_u256, u64_range. Qed.

Lemma SetBytes_range bs : is_u256 (u256_SetBytes bs).
Proof. rewrite SetBytes_spec. apply be_value_last32. Qed.

Lemma FromBig_range n : is_u256 (u256_FromBig n).
Proof. rewrite FromBig_spec. apply mod256_range. Qed.

Lemma Uint64_range x : is_u256 x -> is_u64 (u256_Uint64 x).
Proof. intros. rewrite Uint64_spec by done. apply u64_range. Qed.

Lemma Uint64_nonneg x : is_u256 x -> 0 <= u256_Uint64 x.
Proof. intros Hx. apply Uint64_range in Hx as [? _]. done. Qed.

Lemma Uint64WithOverflow_ok x w :
  is_u256 x -> u256_Uint64WithOverflow x = (w, false) -> w = x /\ is_u64 w.
Proof.
  intros Hx. rewrite Uint64WithOverflow_spec by done. unfold is_u256 in Hx.
  destruct (Z.ltb_spec x two64); [|done]. intros [= <-].
  rewrite u64_small by (unfold is_u64; lia). unfold is_u64. lia.
Qed.
End ranges.

#[export] Hint Resolve zero_u256 one_u256 is_u64_u256 Add_range Sub_range Mul_range Div_range
  SDiv_range Mod_range SMod_range Exp_range ExtendSign_range Not_range And_range Or_range
  Xor_range Byte_range AddMod_range MulMod_range Lsh_range Rsh_range SRsh_range Clear_range
  SetOne_range SetAllOne_range SetUint64_range SetBytes_range FromBig_range Uint64_range Uint64_nonneg : r5.

Lemma ref_ExtendSign_range x b : is_u256 x -> is_u256 (ref_ExtendSign x b).
Proof. intros Hx. unfold ref_ExtendSign. destruct (b <? 31); [apply mod256_range | done]. Qed.

#[export] Instance u256_ref_laws : Uint256Laws u256_ref.
Proof. constructor; try done. intros. by apply ref_ExtendSign_range. Qed.
