(* ===== verification/OpCodes.v ===== *)
(** * Opcodes (client/core/vm/opcodes.go)

    An [OpCode] is a byte; the constants carry the source's names. *)

From Stdlib Require Import Strings.Byte.
From S2P Require Import Prelude.

Abbreviation OpCode := byte.

Definition STOP : OpCode := Byte.x00.
Definition ADD : OpCode := Byte.x01.
Definition MUL : OpCode := Byte.x02.
Definition SUB : OpCode := Byte.x03.
Definition DIV : OpCode := Byte.x04.
Definition SDIV : OpCode := Byte.x05.
Definition MOD : OpCode := Byte.x06.
Definition SMOD : OpCode := Byte.x07.
Definition ADDMOD : OpCode := Byte.x08.
Definition MULMOD : OpCode := Byte.x09.
Definition EXP : OpCode := Byte.x0a.
Definition SIGNEXTEND : OpCode := Byte.x0b.
Definition LT : OpCode := Byte.x10.
Definition GT : OpCode := Byte.x11.
Definition SLT : OpCode := Byte.x12.
Definition SGT : OpCode := Byte.x13.
Definition EQ : OpCode := Byte.x14.
Definition ISZERO : OpCode := Byte.x15.
Definition AND : OpCode := Byte.x16.
Definition OR : OpCode := Byte.x17.
Definition XOR : OpCode := Byte.x18.
Definition NOT : OpCode := Byte.x19.
Definition BYTE : OpCode := Byte.x1a.
Definition SHL : OpCode := Byte.x1b.
Definition SHR : OpCode := Byte.x1c.
Definition SAR : OpCode := Byte.x1d.
Definition KECCAK256 : OpCode := Byte.x20.
Definition ADDRESS : OpCode := Byte.x30.
Definition BALANCE : OpCode := Byte.x31.
Definition ORIGIN : OpCode := Byte.x32.
Definition CALLER : OpCode := Byte.x33.
Definition CALLVALUE : OpCode := Byte.x34.
Definition CALLDATALOAD : OpCode := Byte.x35.
Definition CALLDATASIZE : OpCode := Byte.x36.
Definition CALLDATACOPY : OpCode := Byte.x37.
Definition CODESIZE : OpCode := Byte.x38.
Definition CODECOPY : OpCode := Byte.x39.
Definition GASPRICE : OpCode := Byte.x3a.
Definition EXTCODESIZE : OpCode := Byte.x3b.
Definition EXTCODECOPY : OpCode := Byte.x3c.
Definition RETURNDATASIZE : OpCode := Byte.x3d.
Definition RETURNDATACOPY : OpCode := Byte.x3e.
Definition EXTCODEHASH : OpCode := Byte.x3f.
Definition BLOCKHASH : OpCode := Byte.x40.
Definition COINBASE : OpCode := Byte.x41.
Definition TIMESTAMP : OpCode := Byte.x42.
Definition NUMBER : OpCode := Byte.x43.
Definition DIFFICULTY : OpCode := Byte.x44.
Definition RANDOM : OpCode := Byte.x44.
Definition PREVRANDAO : OpCode := Byte.x44.
Definition GASLIMIT : OpCode := Byte.x45.
Definition CHAINID : OpCode := Byte.x46.
Definition SELFBALANCE : OpCode := Byte.x47.
Definition BASEFEE : OpCode := Byte.x48.
Definition POP : OpCode := Byte.x50.
Definition MLOAD : OpCode := Byte.x51.
Definition MSTORE : OpCode := Byte.x52.
Definition MSTORE8 : OpCode := Byte.x53.
Definition SLOAD : OpCode := Byte.x54.
Definition SSTORE : OpCode := Byte.x55.
Definition JUMP : OpCode := Byte.x56.
Definition JUMPI : OpCode := Byte.x57.
Definition PC : OpCode := Byte.x58.
Definition MSIZE : OpCode := Byte.x59.
Definition GAS : OpCode := Byte.x5a.
Definition JUMPDEST : OpCode := Byte.x5b.
Definition PUSH0 : OpCode := Byte.x5f.
Definition PUSH1 : OpCode := Byte.x60.
Definition PUSH2 : OpCode := Byte.x61.
Definition PUSH3 : OpCode := Byte.x62.
Definition PUSH4 : OpCode := Byte.x63.
Definition PUSH5 : OpCode := Byte.x64.
Definition PUSH6 : OpCode := Byte.x65.
Definition PUSH7 : OpCode := Byte.x66.
Definition PUSH8 : OpCode := Byte.x67.
Definition PUSH9 : OpCode := Byte.x68.
Definition PUSH10 : OpCode := Byte.x69.
Definition PUSH11 : OpCode := Byte.x6a.
Definition PUSH12 : OpCode := Byte.x6b.
Definition PUSH13 : OpCode := Byte.x6c.
Definition PUSH14 : OpCode := Byte.x6d.
Definition PUSH15 : OpCode := Byte.x6e.
Definition PUSH16 : OpCode := Byte.x6f.
Definition PUSH17 : OpCode := Byte.x70.
Definition PUSH18 : OpCode := Byte.x71.
Definition PUSH19 : OpCode := Byte.x72.
Definition PUSH20 : OpCode := Byte.x73.
Definition PUSH21 : OpCode := Byte.x74.
Definition PUSH22 : OpCode := Byte.x75.
Definition PUSH23 : OpCode := Byte.x76.
Definition PUSH24 : OpCode := Byte.x77.
Definition PUSH25 : OpCode := Byte.x78.
Definition PUSH26 : OpCode := Byte.x79.
Definition PUSH27 : OpCode := Byte.x7a.
Definition PUSH28 : OpCode := Byte.x7b.
Definition PUSH29 : OpCode := Byte.x7c.
Definition PUSH30 : OpCode := Byte.x7d.
Definition PUSH31 : OpCode := Byte.x7e.
Definition PUSH32 : OpCode := Byte.x7f.
Definition DUP1 : OpCode := Byte.x80.
Definition DUP2 : OpCode := Byte.x81.
Definition DUP3 : OpCode := Byte.x82.
Definition DUP4 : OpCode := Byte.x83.
Definition DUP5 : OpCode := Byte.x84.
Definition DUP6 : OpCode := Byte.x85.
Definition DUP7 : OpCode := Byte.x86.
Definition DUP8 : OpCode := Byte.x87.
Definition DUP9 : OpCode := Byte.x88.
Definition DUP10 : OpCode := Byte.x89.
Definition DUP11 : OpCode := Byte.x8a.
Definition DUP12 : OpCode := Byte.x8b.
Definition DUP13 : OpCode := Byte.x8c.
Definition DUP14 : OpCode := Byte.x8d.
Definition DUP15 : OpCode := Byte.x8e.
Definition DUP16 : OpCode := Byte.x8f.
Definition SWAP1 : OpCode := Byte.x90.
Definition SWAP2 : OpCode := Byte.x91.
Definition SWAP3 : OpCode := Byte.x92.
Definition SWAP4 : OpCode := Byte.x93.
Definition SWAP5 : OpCode := Byte.x94.
Definition SWAP6 : OpCode := Byte.x95.
Definition SWAP7 : OpCode := Byte.x96.
Definition SWAP8 : OpCode := Byte.x97.
Definition SWAP9 : OpCode := Byte.x98.
Definition SWAP10 : OpCode := Byte.x99.
Definition SWAP11 : OpCode := Byte.x9a.
Definition SWAP12 : OpCode := Byte.x9b.
Definition SWAP13 : OpCode := Byte.x9c.
Definition SWAP14 : OpCode := Byte.x9d.
Definition SWAP15 : OpCode := Byte.x9e.
Definition SWAP16 : OpCode := Byte.x9f.
Definition LOG0 : OpCode := Byte.xa0.
Definition LOG1 : OpCode := Byte.xa1.
Definition LOG2 : OpCode := Byte.xa2.
Definition LOG3 : OpCode := Byte.xa3.
Definition LOG4 : OpCode := Byte.xa4.
Definition TLOAD : OpCode := Byte.xb3.
Definition TSTORE : OpCode := Byte.xb4.
Definition CREATE : OpCode := Byte.xf0.
Definition CALL : OpCode := Byte.xf1.
Definition CALLCODE : OpCode := Byte.xf2.
Definition RETURN : OpCode := Byte.xf3.
Definition DELEGATECALL : OpCode := Byte.xf4.
Definition CREATE2 : OpCode := Byte.xf5.
Definition STATICCALL : OpCode := Byte.xfa.
Definition REVERT : OpCode := Byte.xfd.
Definition INVALID : OpCode := Byte.xfe.
Definition SELFDESTRUCT : OpCode := Byte.xff.

(** [IsPush]: [PUSH1 <= op && op <= PUSH32]. *)
Definition IsPush (op : OpCode) : bool :=
  (byte_val PUSH1 <=? byte_val op) && (byte_val op <=? byte_val PUSH32).
