(* ===== verification/Common.v ===== *)
(** * Shared helpers of the EVM

    Overflow-checked arithmetic (client/common/math/integer.go), padding
    (client/common/bytes.go), the memory-size and data helpers of
    client/core/vm/common.go, and the errors of client/core/vm/errors.go. *)

From Stdlib Require Import Strings.Byte.
From S2P Require Import Prelude.
From S2P Require Import Uint256.
From S2P Require Import OpCodes.

(** Addresses and hashes are fixed-width byte arrays; they are represented by
    their big-endian value, the zero array by 0. *)
Definition Address : Type := Z.
Definition Hash : Type := Z.
Definition address_bytes (a : Address) : list byte := be_bytes 20 a.
Definition hash_bytes (h : Hash) : list byte := be_bytes 32 h.
#[export] Instance Address_eq_dec : EqDecision Address := Z.eq_dec.
#[export] Instance Address_countable : Countable Address := Z_countable.
#[export] Instance Hash_eq_dec : EqDecision Hash := Z.eq_dec.
#[export] Instance Hash_countable : Countable Hash := Z_countable.

(** ** Errors *)

Inductive error : Type :=
| ErrOutOfGas
| ErrCodeStoreOutOfGas
| ErrDepth
| ErrInsufficientBalance
| ErrContractAddressCollision
| ErrExecutionReverted
| ErrMaxInitCodeSizeExceeded
| ErrMaxCodeSizeExceeded
| ErrInvalidJump
| ErrWriteProtection
| ErrReturnDataOutOfBounds
| ErrGasUintOverflow
| ErrInvalidCode
| ErrNonceUintOverflow
| errStopToken
| ErrStackUnderflow (stackLen required : Z)
| ErrStackOverflow (stackLen limit : Z)
| ErrInvalidOpCode (opcode : OpCode)
| ErrSentry                        (* "not enough gas for reentrancy sentry" *)
| ErrPrecompile.                   (* an error of a precompiled contract *)

#[export] Instance error_eq_dec : EqDecision error.
Proof. solve_decision. Defined.

(** ** client/common/math/integer.go *)

Definition SafeSub (x y : Z) : Z * bool := (u64 (x - y), x <? y).
Definition SafeAdd (x y : Z) : Z * bool := (u64 (x + y), two64 <=? x + y).
Definition SafeMul (x y : Z) : Z * bool := (u64 (x * y), negb (x * y / two64 =? 0)).

(** ** client/common/bytes.go *)

Definition RightPadBytes (slice : list byte) (l : Z) : list byte :=
  if l <=? zlen slice then slice
  else slice ++ replicate (Z.to_nat (l - zlen slice)) Byte.x00.

(** ** client/core/vm/common.go *)

Section common.
Context {U : Uint256}.

(** calcMemSize64WithUint calculates the required memory size, and returns the
    size and whether the result overflowed uint64. *)
Definition calcMemSize64WithUint (off : Z) (length64 : Z) : Z * bool :=
  if length64 =? 0 then (0, false)
  else
    let '(offset64, overflow) := u256_Uint64WithOverflow off in
    if overflow then (0, true)
    else
      let val := u64 (offset64 + length64) in
      (val, val <? offset64).

Definition calcMemSize64 (off l : Z) : Z * bool :=
  if negb (u256_IsUint64 l) then (0, true)
  else calcMemSize64WithUint off (u256_Uint64 l).
End common.

Definition getData (data : list byte) (start size : Z) : Res (list byte) :=
  let length := zlen data in
  let start := if start >? length then length else start in
  let end_ := u64 (start + size) in
  let end_ := if end_ >? length then length else end_ in
  match go_slice data start end_ with
  | Ret s => Ret (RightPadBytes s (i64 size))
  | Panic p => Panic p
  | NoFuel => NoFuel
  end.

Definition toWordSize (size : Z) : Z :=
  if size >? MaxUint64 - 31 then MaxUint64 / 32 + 1
  else u64 (size + 31) / 32.

Definition allZero (b : list byte) : bool :=
  forallb (fun x => byte_val x =? 0) b.

(** ** Lemmas *)

Lemma SafeAdd_ok x y r :
  is_u64 x -> is_u64 y -> SafeAdd x y = (r, false) -> r = x + y /\ is_u64 r.
Proof.
  unfold SafeAdd, is_u64. intros Hx Hy H. injection H as H1 H2. zbool.
  rewrite <- H1. rewrite u64_small by ulia. ulia.
Qed.

Lemma SafeAdd_overflow x y r :
  is_u64 x -> is_u64 y -> SafeAdd x y = (r, true) <-> r = u64 (x + y) /\ two64 <= x + y.
Proof.
  unfold SafeAdd. intros Hx Hy. split.
  - intros H. injection H as H1 H2. zbool. done.
  - intros [-> H]. by rewrite (proj2 (Z.leb_le two64 (x + y))).
Qed.

Lemma SafeMul_ok x y r :
  is_u64 x -> is_u64 y -> SafeMul x y = (r, false) -> r = x * y /\ is_u64 r.
Proof.
  unfold SafeMul. intros Hx Hy H. injection H as H1 H2. zbool.
  assert (0 <= x * y) by (unfold is_u64 in *; nia).
  assert (x * y < two64).
  { destruct (Z.lt_ge_cases (x * y) two64) as [|Hge]; [done|].
    apply (Z.div_le_mono _ _ two64) in Hge; [|reflexivity].
    rewrite H2, Z.div_same in Hge by done. lia. }
  rewrite <- H1, u64_small by done. done.
Qed.

(** [toWordSize] is the ceiling of size/32, also where size+31 would wrap. *)
Lemma toWordSize_spec size : is_u64 size -> toWordSize size = (size + 31) / 32.
Proof.
  unfold toWordSize, is_u64. intros H. destruct (size >? MaxUint64 - 31) eqn:E; zbool.
  - change (MaxUint64 / 32 + 1) with (2 ^ 59).
    apply (Z.div_unique _ _ _ (size + 31 - 2 ^ 64)); ulia.
  - rewrite u64_small; [done|]. ulia.
Qed.

Lemma toWordSize_le size : is_u64 size -> size <= 32 * toWordSize size < size + 32.
Proof.
  intros H. rewrite toWordSize_spec by done.
  pose proof (Z.div_mod (size + 31) 32). pose proof (Z.mod_pos_bound (size + 31) 32). lia.
Qed.

Lemma toWordSize_range size : is_u64 size -> 0 <= toWordSize size <= 2 ^ 59.
Proof.
  intros H. rewrite toWordSize_spec by done. unfold is_u64, two64 in H. split.
  - apply Z.div_pos; lia.
  - apply Z.lt_succ_r. apply Z.div_lt_upper_bound; lia.
Qed.

Lemma toWordSize_u64 size : is_u64 size -> is_u64 (toWordSize size).
Proof. intros H. pose proof (toWordSize_range size H). unfold is_u64, two64. lia. Qed.

Lemma length_RightPadBytes s l : zlen s <= l -> zlen (RightPadBytes s l) = l.
Proof.
  intros H. unfold RightPadBytes. destruct (l <=? zlen s) eqn:E; zbool; [lia|].
  rewrite zlen_app. unfold zlen at 2. rewrite length_replicate. lia.
Qed.

(** [getData] never panics and returns exactly [size] bytes. *)
Lemma getData_ok data start size :
  zlen data < 2 ^ 63 -> is_u64 start -> 0 <= size < 2 ^ 63 ->
  exists r, getData data start size = Ret r /\ zlen r = size.
Proof.
  intros Hd Hs Hz. unfold getData, is_u64, two64 in *.
  pose proof (zlen_nonneg data).
  set (st := if start >? zlen data then zlen data else start).
  assert (Hst : 0 <= st <= zlen data).
  { unfold st. destruct (start >? zlen data) eqn:E; zbool; lia. }
  rewrite (u64_small (st + size)) by (unfold is_u64, two64; lia).
  set (en := if st + size >? zlen data then zlen data else st + size).
  assert (Hen : st <= en <= zlen data /\ en <= st + size).
  { unfold en. destruct (st + size >? zlen data) eqn:E; zbool; lia. }
  destruct (go_slice_ok data st en) as (r & -> & Hr); [lia..|].
  eexists. split; [done|]. rewrite i64_small by lia.
  apply length_RightPadBytes. lia.
Qed.

Section common_lemmas.
Context {U : Uint256} {L : Uint256Laws U}.

(** The memory size of an access of [len] bytes at [off]: 0 for an empty
    access, [off + len] otherwise; the flag is set exactly when the size does
    not fit in 64 bits. *)
Lemma calcMemSize64_spec off l :
  is_u256 off -> is_u256 l ->
  calcMemSize64 off l =
    if l =? 0 then (0, false)
    else if two64 <=? l then (0, true)
    else if two64 <=? off then (0, true)
    else (u64 (off + l), two64 <=? off + l).
Proof.
  intros Ho Hl. unfold calcMemSize64, calcMemSize64WithUint.
  rewrite IsUint64_spec, Uint64_spec, Uint64WithOverflow_spec by done.
  unfold is_u256 in *.
  destruct (Z.leb_spec two64 l); destruct (Z.ltb_spec l two64); try lia; cbn [negb].
  - destruct (Z.eqb_spec l 0); [unfold two64 in *; lia | done].
  - rewrite u64_small by (unfold is_u64; lia).
    destruct (Z.eqb_spec l 0) as [->|Hnz]; [done|].
    destruct (Z.leb_spec two64 off); destruct (Z.ltb_spec off two64); try lia; cbn [negb]; [done|].
    rewrite (u64_small off) by (unfold is_u64; lia). f_equal.
    destruct (Z.leb_spec two64 (off + l)).
    + rewrite u64_add_over by (unfold is_u64; lia). apply Z.ltb_lt. lia.
    + rewrite u64_small by (unfold is_u64; lia). apply Z.ltb_ge. lia.
Qed.

Lemma calcMemSize64_ok off l sz :
  is_u256 off -> is_u256 l -> calcMemSize64 off l = (sz, false) ->
  is_u64 sz /\ ((l = 0 /\ sz = 0) \/ (0 < l /\ off < two64 /\ l < two64 /\ sz = off + l)).
Proof.
  intros Ho Hl. rewrite calcMemSize64_spec by done. unfold is_u64, is_u256 in *.
  destruct (Z.eqb_spec l 0) as [->|Hnz].
  { intros [= <-]. unfold two64. split; [lia|]. by left. }
  destruct (Z.leb_spec two64 l); [done|]. destruct (Z.leb_spec two64 off); [done|].
  destruct (Z.leb_spec two64 (off + l)); [done|].
  rewrite u64_small by (unfold is_u64; lia). intros [= <-]. split; [lia|]. right. lia.
Qed.
End common_lemmas.

(** ** Theorems *)

(** Checked arithmetic on 64-bit integers: the result is the wrapped one, and
    the flag is set exactly when the exact result does not fit. *)
Theorem SafeMath_exact x y :
  is_u64 x -> is_u64 y ->
  SafeSub x y = (u64 (x - y), bool_decide (~ is_u64 (x - y))) /\
  SafeAdd x y = (u64 (x + y), bool_decide (~ is_u64 (x + y))) /\
  SafeMul x y = (u64 (x * y), bool_decide (~ is_u64 (x * y))).
Proof.
  intros [Hx1 Hx2] [Hy1 Hy2]. unfold SafeSub, SafeAdd, SafeMul. split_and!; f_equal; symmetry.
  - destruct (x <? y) eqn:E; zbool; [apply bool_decide_eq_true | apply bool_decide_eq_false]; unfold is_u64; lia.
  - destruct (two64 <=? x + y) eqn:E; zbool; [apply bool_decide_eq_true | apply bool_decide_eq_false]; unfold is_u64; lia.
  - assert (0 <= x * y) by nia. assert (0 < two64) by reflexivity.
    destruct (x * y / two64 =? 0) eqn:E; zbool; [apply bool_decide_eq_false | apply bool_decide_eq_true]; unfold is_u64.
    + apply Z.div_small_iff in E; lia.
    + intros [_ Hb]. apply E, Z.div_small. lia.
Qed.

(** The size of a memory operand is [offset + length] with the overflow flag
    set when one of the two or the sum exceeds 64 bits; with length 0 it is 0
    whatever the offset. *)
Theorem memory_operand_exact {U : Uint256} {UL : Uint256Laws U} off l :
  is_u256 off -> is_u256 l ->
  exists size overflow, calcMemSize64 off l = (size, overflow) /\
    (overflow = true <-> l <> 0 /\ two64 <= off + l) /\
    (overflow = false -> size = if l =? 0 then 0 else off + l).
Proof.
  intros Ho Hl. rewrite calcMemSize64_spec by done. eexists _, _. split; [apply surjective_pairing|].
  unfold is_u256 in *. destruct (l =? 0) eqn:E1; zbool; [cbn; split; [split; [done|lia]|done]|].
  destruct (two64 <=? l) eqn:E2; zbool; [cbn; split; [split; [lia|done]|done]|].
  destruct (two64 <=? off) eqn:E3; zbool; [cbn; split; [split; [lia|done]|done]|].
  cbn. destruct (two64 <=? off + l) eqn:E4; zbool; (split; [split; [lia|done || lia]|]); [done|].
  intros _. apply u64_small. unfold is_u64. lia.
Qed.

(** Sizes are rounded up to words, also where [size + 31] would overflow. *)
Theorem toWordSize_exact size :
  is_u64 size -> toWordSize size = (size + 31) / 32 /\ is_u64 (toWordSize size).
Proof.
  intros H. rewrite toWordSize_spec by done. split; [done|]. unfold is_u64, two64 in *.
  split; [apply Z.div_pos; lia|apply Z.div_lt_upper_bound; lia].
Qed.
