(* ===== verification/Params.v ===== *)
(** * Protocol parameters and chain configuration

    The constants of client/params/protocol_params.go, and the fork schedule of
    client/params/config.go: [ChainConfig], the [Is*] predicates and [Rules]. *)

From S2P Require Import Prelude.

(** ** client/params/protocol_params.go *)

Definition GasLimitBoundDivisor : Z := 1024.
Definition MinGasLimit : Z := 5000.
Definition MaxGasLimit : Z := 0x7fffffffffffffff.
Definition GenesisGasLimit : Z := 4712388.
Definition MaximumExtraDataSize : Z := 32.
Definition ExpByteGas : Z := 10.
Definition SloadGas : Z := 50.
Definition CallValueTransferGas : Z := 9000.
Definition CallNewAccountGas : Z := 25000.
Definition TxGas : Z := 21000.
Definition TxGasContractCreation : Z := 53000.
Definition TxDataZeroGas : Z := 4.
Definition QuadCoeffDiv : Z := 512.
Definition LogDataGas : Z := 8.
Definition CallStipend : Z := 2300.
Definition Keccak256Gas : Z := 30.
Definition Keccak256WordGas : Z := 6.
Definition InitCodeWordGas : Z := 2.
Definition SstoreSetGas : Z := 20000.
Definition SstoreResetGas : Z := 5000.
Definition SstoreClearGas : Z := 5000.
Definition SstoreRefundGas : Z := 15000.
Definition NetSstoreNoopGas : Z := 200.
Definition NetSstoreInitGas : Z := 20000.
Definition NetSstoreCleanGas : Z := 5000.
Definition NetSstoreDirtyGas : Z := 200.
Definition NetSstoreClearRefund : Z := 15000.
Definition NetSstoreResetRefund : Z := 4800.
Definition NetSstoreResetClearRefund : Z := 19800.
Definition SstoreSentryGasEIP2200 : Z := 2300.
Definition SstoreSetGasEIP2200 : Z := 20000.
Definition SstoreResetGasEIP2200 : Z := 5000.
Definition SstoreClearsScheduleRefundEIP2200 : Z := 15000.
Definition ColdAccountAccessCostEIP2929 : Z := 2600.
Definition ColdSloadCostEIP2929 : Z := 2100.
Definition WarmStorageReadCostEIP2929 : Z := 100.
Definition JumpdestGas : Z := 1.
Definition EpochDuration : Z := 30000.
Definition CreateDataGas : Z := 200.
Definition CallCreateDepth : Z := 1024.
Definition ExpGas : Z := 10.
Definition LogGas : Z := 375.
Definition CopyGas : Z := 3.
Definition StackLimit : Z := 1024.
Definition TierStepGas : Z := 0.
Definition LogTopicGas : Z := 375.
Definition CreateGas : Z := 32000.
Definition Create2Gas : Z := 32000.
Definition SelfdestructRefundGas : Z := 24000.
Definition MemoryGas : Z := 3.
Definition TxDataNonZeroGasFrontier : Z := 68.
Definition TxDataNonZeroGasEIP2028 : Z := 16.
Definition TxAccessListAddressGas : Z := 2400.
Definition TxAccessListStorageKeyGas : Z := 1900.
Definition CallGasFrontier : Z := 40.
Definition CallGasEIP150 : Z := 700.
Definition BalanceGasFrontier : Z := 20.
Definition BalanceGasEIP150 : Z := 400.
Definition BalanceGasEIP1884 : Z := 700.
Definition ExtcodeSizeGasFrontier : Z := 20.
Definition ExtcodeSizeGasEIP150 : Z := 700.
Definition SloadGasFrontier : Z := 50.
Definition SloadGasEIP150 : Z := 200.
Definition SloadGasEIP1884 : Z := 800.
Definition SloadGasEIP2200 : Z := 800.
Definition ExtcodeHashGasConstantinople : Z := 400.
Definition ExtcodeHashGasEIP1884 : Z := 700.
Definition SelfdestructGasEIP150 : Z := 5000.
Definition ExpByteFrontier : Z := 10.
Definition ExpByteEIP158 : Z := 50.
Definition ExtcodeCopyBaseFrontier : Z := 20.
Definition ExtcodeCopyBaseEIP150 : Z := 700.
Definition CreateBySelfdestructGas : Z := 25000.
Definition DefaultBaseFeeChangeDenominator : Z := 8.
Definition DefaultElasticityMultiplier : Z := 2.
Definition InitialBaseFee : Z := 1000000000.
Definition MaxCodeSize : Z := 24576.
Definition MaxInitCodeSize : Z := 2 * MaxCodeSize.
Definition EcrecoverGas : Z := 3000.
Definition Sha256BaseGas : Z := 60.
Definition Sha256PerWordGas : Z := 12.
Definition Ripemd160BaseGas : Z := 600.
Definition Ripemd160PerWordGas : Z := 120.
Definition IdentityBaseGas : Z := 15.
Definition IdentityPerWordGas : Z := 3.
Definition Bn256AddGasByzantium : Z := 500.
Definition Bn256AddGasIstanbul : Z := 150.
Definition Bn256ScalarMulGasByzantium : Z := 40000.
Definition Bn256ScalarMulGasIstanbul : Z := 6000.
Definition Bn256PairingBaseGasByzantium : Z := 100000.
Definition Bn256PairingBaseGasIstanbul : Z := 45000.
Definition Bn256PairingPerPointGasByzantium : Z := 80000.
Definition Bn256PairingPerPointGasIstanbul : Z := 34000.
Definition Bls12381G1AddGas : Z := 600.
Definition Bls12381G1MulGas : Z := 12000.
Definition Bls12381G2AddGas : Z := 4500.
Definition Bls12381G2MulGas : Z := 55000.
Definition Bls12381PairingBaseGas : Z := 115000.
Definition Bls12381PairingPerPairGas : Z := 23000.
Definition Bls12381MapG1Gas : Z := 5500.
Definition Bls12381MapG2Gas : Z := 110000.
Definition RefundQuotient : Z := 2.
Definition RefundQuotientEIP3529 : Z := 5.
Definition BlobTxMinDataGasprice : Z := 1.
Definition BlobTxDataGaspriceUpdateFraction : Z := 2225652.
Definition SstoreClearsScheduleRefundEIP3529 : Z := SstoreResetGasEIP2200 - ColdSloadCostEIP2929 + TxAccessListStorageKeyGas.
Definition DifficultyBoundDivisor : Z := 2048.
Definition GenesisDifficulty : Z := 1.
Definition MinimumDifficulty : Z := 131072.
Definition DurationLimit : Z := 7.

(** ** client/params/config.go

    A [*big.Int] block number is an optional integer ([None] is nil), a
    [*uint64] timestamp likewise. *)

Record ChainConfig : Type := {
  ChainID : option Z;
  HomesteadBlock : option Z;
  DAOForkBlock : option Z;
  DAOForkSupport : bool;
  EIP150Block : option Z;
  EIP155Block : option Z;
  EIP158Block : option Z;
  ByzantiumBlock : option Z;
  ConstantinopleBlock : option Z;
  PetersburgBlock : option Z;
  IstanbulBlock : option Z;
  MuirGlacierBlock : option Z;
  BerlinBlock : option Z;
  LondonBlock : option Z;
  ArrowGlacierBlock : option Z;
  GrayGlacierBlock : option Z;
  MergeNetsplitBlock : option Z;
  ShanghaiTime : option Z;
  CancunTime : option Z;
  PragueTime : option Z;
  TerminalTotalDifficulty : option Z;
  TerminalTotalDifficultyPassed : bool
}.

Definition isBlockForked (s head : option Z) : bool :=
  match s, head with
  | Some s, Some head => s <=? head
  | _, _ => false
  end.

Definition isTimestampForked (s : option Z) (head : Z) : bool :=
  match s with
  | None => false
  | Some s => s <=? head
  end.

Definition configBlockEqual (x y : option Z) : bool :=
  match x, y with
  | None, None => true
  | Some x, Some y => x =? y
  | _, _ => false
  end.

Definition configTimestampEqual (x y : option Z) : bool :=
  match x, y with
  | None, None => true
  | Some x, Some y => x =? y
  | _, _ => false
  end.

Definition isForkBlockIncompatible (s1 s2 head : option Z) : bool :=
  (isBlockForked s1 head || isBlockForked s2 head) && negb (configBlockEqual s1 s2).

Definition isForkTimestampIncompatible (s1 s2 : option Z) (head : Z) : bool :=
  (isTimestampForked s1 head || isTimestampForked s2 head) && negb (configTimestampEqual s1 s2).

Definition IsHomestead (c : ChainConfig) (num : Z) : bool := isBlockForked (HomesteadBlock c) (Some num).
Definition IsDAOFork (c : ChainConfig) (num : Z) : bool := isBlockForked (DAOForkBlock c) (Some num).
Definition IsEIP150 (c : ChainConfig) (num : Z) : bool := isBlockForked (EIP150Block c) (Some num).
Definition IsEIP155 (c : ChainConfig) (num : Z) : bool := isBlockForked (EIP155Block c) (Some num).
Definition IsEIP158 (c : ChainConfig) (num : Z) : bool := isBlockForked (EIP158Block c) (Some num).
Definition IsByzantium (c : ChainConfig) (num : Z) : bool := isBlockForked (ByzantiumBlock c) (Some num).
Definition IsConstantinople (c : ChainConfig) (num : Z) : bool :=
  isBlockForked (ConstantinopleBlock c) (Some num).
Definition IsMuirGlacier (c : ChainConfig) (num : Z) : bool := isBlockForked (MuirGlacierBlock c) (Some num).
Definition IsPetersburg (c : ChainConfig) (num : Z) : bool :=
  isBlockForked (PetersburgBlock c) (Some num) ||
  (match PetersburgBlock c with None => true | Some _ => false end) &&
    isBlockForked (ConstantinopleBlock c) (Some num).
Definition IsIstanbul (c : ChainConfig) (num : Z) : bool := isBlockForked (IstanbulBlock c) (Some num).
Definition IsBerlin (c : ChainConfig) (num : Z) : bool := isBlockForked (BerlinBlock c) (Some num).
Definition IsLondon (c : ChainConfig) (num : Z) : bool := isBlockForked (LondonBlock c) (Some num).
Definition IsArrowGlacier (c : ChainConfig) (num : Z) : bool := isBlockForked (ArrowGlacierBlock c) (Some num).
Definition IsGrayGlacier (c : ChainConfig) (num : Z) : bool := isBlockForked (GrayGlacierBlock c) (Some num).
Definition IsTerminalPoWBlock (c : ChainConfig) (parentTotalDiff totalDiff : Z) : bool :=
  match TerminalTotalDifficulty c with
  | None => false
  | Some ttd => (parentTotalDiff <? ttd) && (ttd <=? totalDiff)
  end.
Definition IsShanghai (c : ChainConfig) (time : Z) : bool := isTimestampForked (ShanghaiTime c) time.
Definition IsCancun (c : ChainConfig) (time : Z) : bool := isTimestampForked (CancunTime c) time.
Definition IsPrague (c : ChainConfig) (time : Z) : bool := isTimestampForked (PragueTime c) time.

Definition BaseFeeChangeDenominator (c : ChainConfig) : Z := DefaultBaseFeeChangeDenominator.
Definition ElasticityMultiplier (c : ChainConfig) : Z := DefaultElasticityMultiplier.

Record Rules : Type := mkRules {
  rChainID : Z;
  rIsHomestead : bool;
  rIsEIP150 : bool;
  rIsEIP155 : bool;
  rIsEIP158 : bool;
  rIsByzantium : bool;
  rIsConstantinople : bool;
  rIsPetersburg : bool;
  rIsIstanbul : bool;
  rIsBerlin : bool;
  rIsLondon : bool;
  rIsMerge : bool;
  rIsShanghai : bool;
  rIsCancun : bool;
  rIsPrague : bool
}.

(** [ChainConfig.Rules]. *)
Definition config_Rules (c : ChainConfig) (num : Z) (isMerge : bool) (timestamp : Z) : Rules :=
  {| rChainID := match ChainID c with None => 0 | Some i => i end;
     rIsHomestead := IsHomestead c num;
     rIsEIP150 := IsEIP150 c num;
     rIsEIP155 := IsEIP155 c num;
     rIsEIP158 := IsEIP158 c num;
     rIsByzantium := IsByzantium c num;
     rIsConstantinople := IsConstantinople c num;
     rIsPetersburg := IsPetersburg c num;
     rIsIstanbul := IsIstanbul c num;
     rIsBerlin := IsBerlin c num;
     rIsLondon := IsLondon c num;
     rIsMerge := isMerge;
     rIsShanghai := IsShanghai c timestamp;
     rIsCancun := IsCancun c timestamp;
     rIsPrague := IsPrague c timestamp |}.

(** The main network's configuration. *)
Definition MainnetChainConfig : ChainConfig :=
  {| ChainID := Some 337;
     HomesteadBlock := Some 0;
     DAOForkBlock := None;
     DAOForkSupport := false;
     EIP150Block := Some 0;
     EIP155Block := Some 0;
     EIP158Block := Some 0;
     ByzantiumBlock := Some 0;
     ConstantinopleBlock := Some 0;
     PetersburgBlock := Some 0;
     IstanbulBlock := Some 0;
     MuirGlacierBlock := None;
     BerlinBlock := Some 0;
     LondonBlock := None;
     ArrowGlacierBlock := None;
     GrayGlacierBlock := None;
     MergeNetsplitBlock := None;
     ShanghaiTime := None;
     CancunTime := None;
     PragueTime := None;
     TerminalTotalDifficulty := None;
     TerminalTotalDifficultyPassed := false |}.
