(* ===== verification/Precompiles.v ===== *)
(** * Precompiled contracts (client/core/vm/contracts.go)

    The tables of precompiled contracts of each fork, the gas they require and
    [RunPrecompiledContract].  What a precompile computes ([Run]) rests on
    cryptographic libraries and is a parameter, except for the data copy. *)

From Stdlib Require Import Strings.Byte.
From S2P Require Import Prelude.
From S2P Require Import Uint256.
From S2P Require Import OpCodes.
From S2P Require Import Common.
From S2P Require Import Params.

Inductive PrecompiledContract : Type :=
| ecrecover
| sha256hash
| ripemd160hash
| dataCopy
| bigModExp (eip2565 : bool)
| bn256AddByzantium
| bn256AddIstanbul
| bn256ScalarMulByzantium
| bn256ScalarMulIstanbul
| bn256PairingByzantium
| bn256PairingIstanbul
| blake2F.

Definition PrecompiledContractsHomestead : gmap Address PrecompiledContract :=
  list_to_map [(1, ecrecover); (2, sha256hash); (3, ripemd160hash); (4, dataCopy)].

Definition PrecompiledContractsByzantium : gmap Address PrecompiledContract :=
  list_to_map
    [(1, ecrecover); (2, sha256hash); (3, ripemd160hash); (4, dataCopy); (5, bigModExp false);
     (6, bn256AddByzantium); (7, bn256ScalarMulByzantium); (8, bn256PairingByzantium)].

Definition PrecompiledContractsIstanbul : gmap Address PrecompiledContract :=
  list_to_map
    [(1, ecrecover); (2, sha256hash); (3, ripemd160hash); (4, dataCopy); (5, bigModExp false);
     (6, bn256AddIstanbul); (7, bn256ScalarMulIstanbul); (8, bn256PairingIstanbul); (9, blake2F)].

Definition PrecompiledContractsBerlin : gmap Address PrecompiledContract :=
  list_to_map
    [(1, ecrecover); (2, sha256hash); (3, ripemd160hash); (4, dataCopy); (5, bigModExp true);
     (6, bn256AddIstanbul); (7, bn256ScalarMulIstanbul); (8, bn256PairingIstanbul); (9, blake2F)].

(** The addresses of a table, as [init] collects them (in no fixed order). *)
Definition precompile_addresses (m : gmap Address PrecompiledContract) : list Address :=
  (map_to_list m).*1.

Definition active_table (rules : Rules) : gmap Address PrecompiledContract :=
  if rIsBerlin rules then PrecompiledContractsBerlin
  else if rIsIstanbul rules then PrecompiledContractsIstanbul
  else if rIsByzantium rules then PrecompiledContractsByzantium
  else PrecompiledContractsHomestead.

Definition ActivePrecompiles (rules : Rules) : list Address := precompile_addresses (active_table rules).

(** ** Gas *)

Definition big_BitLen (x : Z) : Z := if x =? 0 then 0 else Z.log2 (Z.abs x) + 1.

Definition modexpMultComplexity (x : Z) : Z :=
  if x <=? 64 then x * x
  else if x <=? 1024 then x * x / 4 + (96 * x - 3072)
  else x * x / 16 + (480 * x - 199680).

(** The head of the exponent: at most its first 32 bytes. *)
Definition modexp_expHead (input : list byte) (baseLen expLen : Z) : Res Z :=
  if zlen input <=? baseLen then Ret 0
  else
    let? d := getData input (u64 baseLen) (if expLen >? 32 then 32 else u64 expLen) in
    Ret (be_value d).

Definition bigModExp_RequiredGas (eip2565 : bool) (input : list byte) : Res Z :=
  let? b := getData input 0 32 in
  let? e := getData input 32 32 in
  let? m := getData input 64 32 in
  let baseLen := be_value b in
  let expLen := be_value e in
  let modLen := be_value m in
  let input := if zlen input >? 96 then drop 96 input else [] in
  let? expHead := modexp_expHead input baseLen expLen in
  let bitlen := big_BitLen expHead in
  let msb := if bitlen >? 0 then bitlen - 1 else 0 in
  let adjExpLen := (if expLen >? 32 then 8 * (expLen - 32) else 0) + msb in
  let gas := Z.max modLen baseLen in
  if eip2565 then
    let gas := (gas + 7) / 8 in
    let gas := gas * gas in
    let gas := gas * Z.max adjExpLen 1 in
    let gas := gas / 3 in
    if big_BitLen gas >? 64 then Ret MaxUint64
    else if u64 gas <? 200 then Ret 200 else Ret (u64 gas)
  else
    let gas := modexpMultComplexity gas in
    let gas := gas * Z.max adjExpLen 1 in
    let gas := gas / 20 in
    if big_BitLen gas >? 64 then Ret MaxUint64 else Ret (u64 gas).

Definition blake2FInputLength : Z := 213.

(** The per-word charge of the hash functions and of the data copy. *)
Definition word_gas (input : list byte) (perWord base : Z) : Z :=
  u64 (u64 (u64 (zlen input + 31) / 32 * perWord) + base).

Definition RequiredGas (p : PrecompiledContract) (input : list byte) : Res Z :=
  match p with
  | ecrecover => Ret EcrecoverGas
  | sha256hash => Ret (word_gas input Sha256PerWordGas Sha256BaseGas)
  | ripemd160hash => Ret (word_gas input Ripemd160PerWordGas Ripemd160BaseGas)
  | dataCopy => Ret (word_gas input IdentityPerWordGas IdentityBaseGas)
  | bigModExp eip2565 => bigModExp_RequiredGas eip2565 input
  | bn256AddByzantium => Ret Bn256AddGasByzantium
  | bn256AddIstanbul => Ret Bn256AddGasIstanbul
  | bn256ScalarMulByzantium => Ret Bn256ScalarMulGasByzantium
  | bn256ScalarMulIstanbul => Ret Bn256ScalarMulGasIstanbul
  | bn256PairingByzantium =>
      Ret (u64 (Bn256PairingBaseGasByzantium + u64 (zlen input / 192 * Bn256PairingPerPointGasByzantium)))
  | bn256PairingIstanbul =>
      Ret (u64 (Bn256PairingBaseGasIstanbul + u64 (zlen input / 192 * Bn256PairingPerPointGasIstanbul)))
  | blake2F =>
      if negb (zlen input =? blake2FInputLength) then Ret 0
      else let? s := go_slice input 0 4 in Ret (be_value s)
  end.

(** ** Running *)

(** What the precompiles other than the data copy compute. *)
Class PrecompileRun : Type :=
  crypto_Run : PrecompiledContract -> list byte -> list byte * option error.

(** The results of the libraries are of bounded size. *)
Class PrecompileRunLaws (R : PrecompileRun) : Prop :=
  crypto_Run_bound p input : zlen input < 2 ^ 60 -> zlen (fst (crypto_Run p input)) < 2 ^ 60.

Section run.
Context {R : PrecompileRun}.

Definition precompile_Run (p : PrecompiledContract) (input : list byte) : list byte * option error :=
  match p with
  | dataCopy => (input, None)           (* common.CopyBytes *)
  | _ => crypto_Run p input
  end.

Definition RunPrecompiledContract (p : PrecompiledContract) (input : list byte) (suppliedGas : Z)
    : Res (list byte * Z * option error) :=
  let? gasCost := RequiredGas p input in
  if suppliedGas <? gasCost then Ret ([], 0, Some ErrOutOfGas)
  else
    let suppliedGas := u64 (suppliedGas - gasCost) in
    let '(output, err) := precompile_Run p input in
    Ret (output, suppliedGas, err).
End run.

(** ** Lemmas *)

Lemma getData_ret data start size :
  zlen data < 2 ^ 60 -> is_u64 start -> 0 <= size <= 32 -> exists d, getData data start size = Ret d.
Proof.
  intros Hd Hs Hz. destruct (getData_ok data start size) as (d & H & _); [lia|done|lia|]. by exists d.
Qed.

Lemma modexp_expHead_ret input baseLen expLen :
  zlen input < 2 ^ 60 -> 0 <= expLen -> exists h, modexp_expHead input baseLen expLen = Ret h.
Proof.
  intros Hi He. unfold modexp_expHead. destruct (zlen input <=? baseLen); [by eexists|].
  destruct (getData_ret input (u64 baseLen) (if expLen >? 32 then 32 else u64 expLen)) as [d ->];
    [done|apply u64_range| |by eexists].
  destruct (expLen >? 32) eqn:E; zbool; [lia|]. rewrite u64_small by ulia. lia.
Qed.

Lemma bigModExp_RequiredGas_ret b input :
  zlen input < 2 ^ 60 -> exists g, bigModExp_RequiredGas b input = Ret g /\ is_u64 g.
Proof.
  intros Hi. unfold bigModExp_RequiredGas.
  destruct (getData_ret input 0 32) as [d1 ->]; [done|split; [lia|done]|lia|].
  destruct (getData_ret input 32 32) as [d2 ->]; [done|split; [lia|done]|lia|].
  destruct (getData_ret input 64 32) as [d3 ->]; [done|split; [lia|done]|lia|]. cbn [res_bind].
  destruct (modexp_expHead_ret (if zlen input >? 96 then drop 96 input else []) (be_value d1) (be_value d2))
    as [h ->].
  { case_match; [|done]. unfold zlen in *. rewrite length_drop. lia. }
  { apply be_value_bound. }
  cbn [res_bind]. assert (is_u64 MaxUint64) by (split; [vm_compute; congruence|reflexivity]).
  assert (is_u64 200) by (split; [lia|reflexivity]).
  destruct b; repeat case_match; eexists; (split; [done|]); try done; apply u64_range.
Qed.

(** Every precompile's gas is defined, for every input, and is a 64-bit value. *)
Lemma RequiredGas_ret p input :
  zlen input < 2 ^ 60 -> exists g, RequiredGas p input = Ret g /\ is_u64 g.
Proof.
  intros Hi. destruct p; cbn [RequiredGas];
    try (eexists; split; [reflexivity|]; first [apply u64_range | split; [vm_compute; congruence|reflexivity]]).
  - by apply bigModExp_RequiredGas_ret.
  - destruct (negb _) eqn:E; zbool; [eexists; split; [done|]; split; [lia|reflexivity]|].
    destruct (go_slice_ok input 0 4) as (d & -> & Hl); [lia|rewrite E; vm_compute; congruence|].
    cbn [res_bind]. eexists. split; [done|]. pose proof (be_value_bound d) as Hb. rewrite Hl in Hb.
    unfold is_u64, two64. change (256 ^ (4 - 0)) with (2 ^ 32) in Hb. lia.
Qed.

Section run_lemmas.
Context {R : PrecompileRun} {RL : PrecompileRunLaws R}.

Lemma RunPrecompiledContract_ok p input gas :
  zlen input < 2 ^ 60 -> is_u64 gas ->
  exists ret gasLeft err, RunPrecompiledContract p input gas = Ret (ret, gasLeft, err) /\
    0 <= gasLeft <= gas /\ zlen ret < 2 ^ 60.
Proof.
  intros Hi Hg. unfold RunPrecompiledContract. destruct (RequiredGas_ret p input Hi) as (g & -> & Hu).
  cbn [res_bind]. unfold is_u64 in *. destruct (gas <? g) eqn:E; zbool.
  { eexists _, _, _. split; [done|]. split; [lia|done]. }
  rewrite u64_small by (unfold is_u64; lia).
  pose proof (crypto_Run_bound p input Hi) as Hb.
  destruct (precompile_Run p input) as [out err] eqn:Er. eexists _, _, _. split; [done|].
  split; [lia|]. destruct p; cbn in Er; try (rewrite Er in Hb; exact Hb). by simplify_eq.
Qed.
End run_lemmas.

(** ** Theorem *)

(** A precompiled contract is charged before it runs: too little gas runs
    nothing and takes everything, otherwise exactly the required gas is taken;
    no input makes the charge panic or leave 64 bits. *)
Theorem precompile_charged {R : PrecompileRun} p input gas :
  zlen input < 2 ^ 60 -> is_u64 gas ->
  exists cost, RequiredGas p input = Ret cost /\ is_u64 cost /\
    RunPrecompiledContract p input gas =
      Ret (if gas <? cost then ([], 0, Some ErrOutOfGas)
           else (fst (precompile_Run p input), gas - cost, snd (precompile_Run p input))).
Proof.
  intros Hi Hg. destruct (RequiredGas_ret p input Hi) as (cost & Hc & Hu). exists cost. split_and!; try done; try apply Hu.
  unfold RunPrecompiledContract. rewrite Hc. cbn [res_bind]. destruct (gas <? cost) eqn:E; [done|]. zbool.
  destruct (precompile_Run p input) as [out err]. cbn. rewrite u64_small by (unfold is_u64 in *; lia). done.
Qed.
