(* ===== verification/Lru.v ===== *)
(** * Least recently used caches (client/common/lru/basiclru.go)

    The cache as a list of keys, the latest used first, with a map of values.  An element
    of the linked list is known by its key, so the list is modelled as the sequence of the
    keys.  The theorem: a cache is the list of the entries used last. *)

From S2P Require Import Prelude.

Section lru.
Context {K V : Type} `{Countable K}.

Record BasicLRU : Type := mkLRU {
  lru_list : list K;
  lru_items : gmap K V;
  lru_cap : Z
}.

Definition NewBasicLRU (capacity : Z) : BasicLRU := mkLRU [] ∅ (if capacity <=? 0 then 1 else capacity).

(** [list.moveToFront] and [list.remove]. *)
Definition list_remove (k : K) (l : list K) : list K := filter (.≠ k) l.
Definition moveToFront (k : K) (l : list K) : list K := k :: list_remove k l.

Definition lru_Len (c : BasicLRU) : Z := Z.of_nat (size (lru_items c)).

(** [Add]: whether an entry was evicted; an empty list of a full cache has no last element. *)
Definition lru_Add (key : K) (value : V) : GM BasicLRU bool := fun c =>
  match lru_items c !! key with
  | Some _ => Ret (false, mkLRU (moveToFront key (lru_list c)) (<[key := value]> (lru_items c)) (lru_cap c))
  | None =>
      if lru_Len c >=? lru_cap c then
        match list.last (lru_list c) with
        | None => Panic PanicNil
        | Some v =>
            Ret (true, mkLRU (key :: list_remove v (lru_list c)) (<[key := value]> (delete v (lru_items c))) (lru_cap c))
        end
      else Ret (false, mkLRU (key :: lru_list c) (<[key := value]> (lru_items c)) (lru_cap c))
  end.

Definition lru_Contains (key : K) (c : BasicLRU) : bool := bool_decide (is_Some (lru_items c !! key)).

Definition lru_Get (key : K) : GM BasicLRU (option V) := fun c =>
  match lru_items c !! key with
  | None => Ret (None, c)
  | Some value => Ret (Some value, mkLRU (moveToFront key (lru_list c)) (lru_items c) (lru_cap c))
  end.

Definition lru_Peek (key : K) (c : BasicLRU) : option V := lru_items c !! key.

(** [GetOldest]: a key of the list has a value. *)
Definition lru_GetOldest (c : BasicLRU) : option (K * option V) :=
  match list.last (lru_list c) with None => None | Some key => Some (key, lru_items c !! key) end.

Definition lru_Purge (c : BasicLRU) : BasicLRU := mkLRU [] ∅ (lru_cap c).

Definition lru_Remove (key : K) (c : BasicLRU) : bool * BasicLRU :=
  match lru_items c !! key with
  | None => (false, c)
  | Some _ => (true, mkLRU (list_remove key (lru_list c)) (delete key (lru_items c)) (lru_cap c))
  end.

Definition lru_RemoveOldest (c : BasicLRU) : option (K * option V) * BasicLRU :=
  match list.last (lru_list c) with
  | None => (None, c)
  | Some key =>
      (Some (key, lru_items c !! key), mkLRU (list_remove key (lru_list c)) (delete key (lru_items c)) (lru_cap c))
  end.

(** [Keys], the oldest first. *)
Definition lru_Keys (c : BasicLRU) : list K := reverse (lru_list c).

(** ** The entries *)

(** The list has the keys of the map once each, at most as many as the capacity. *)
Record lru_ok (c : BasicLRU) : Prop := {
  lru_nodup : NoDup (lru_list c);
  lru_keys k : k ∈ lru_list c <-> is_Some (lru_items c !! k);
  lru_size : zlen (lru_list c) <= lru_cap c;
  lru_pos : 1 <= lru_cap c
}.

Definition entries_of (l : list K) (items : gmap K V) : list (K * V) :=
  omap (fun k => v ← items !! k; Some (k, v)) l.
Definition entries (c : BasicLRU) : list (K * V) := entries_of (lru_list c) (lru_items c).

(** What a cache should hold: entries in the order they were used, as many as fit. *)
Definition without (k : K) (l : list (K * V)) : list (K * V) := filter (fun p => p.1 <> k) l.
Definition use (k : K) (v : V) (l : list (K * V)) : list (K * V) := (k, v) :: without k l.
Definition remember (cap : Z) (k : K) (v : V) (l : list (K * V)) : list (K * V) := take (Z.to_nat cap) (use k v l).

Lemma lru_Len_list c : lru_ok c -> lru_Len c = zlen (lru_list c).
Proof.
  intros [Hn Hk _ _]. unfold lru_Len, zlen. f_equal. rewrite <- size_dom.
  assert (dom (lru_items c) = list_to_set (lru_list c)) as ->.
  { apply set_eq. intros k. rewrite elem_of_dom, elem_of_list_to_set. by rewrite Hk. }
  by apply size_list_to_set.
Qed.

Lemma entries_of_ext l (m m' : gmap K V) : (forall k, k ∈ l -> m !! k = m' !! k) -> entries_of l m = entries_of l m'.
Proof.
  unfold entries_of. induction l as [|k l IH]; intros Hm; [done|]. cbn. rewrite (Hm k) by left.
  rewrite IH by (intros k' Hk; apply Hm; by right). done.
Qed.

Lemma entries_of_remove k l (m : gmap K V) : entries_of (list_remove k l) m = without k (entries_of l m).
Proof.
  unfold entries_of, list_remove, without. induction l as [|k' l IH]; [done|].
  destruct (decide (k' = k)) as [->|Hk].
  - rewrite filter_cons_False by (by intros ?). cbn [omap list_omap]. rewrite IH. destruct (m !! k) as [v|]; [|done]. cbn. by case_decide.
  - rewrite filter_cons_True by done. cbn [omap list_omap]. rewrite IH. destruct (m !! k') as [v|]; [|done]. cbn. by case_decide.
Qed.

Lemma list_remove_notin k l : k ∉ l -> list_remove k l = l.
Proof.
  unfold list_remove. induction l as [|k' l IH]; [done|]. intros Hk. rewrite filter_cons_True, IH; [done|..].
  - intros Hin. apply Hk. by right.
  - intros ->. apply Hk. left.
Qed.

Lemma elem_of_list_remove k k' l : k' ∈ list_remove k l <-> k' <> k /\ k' ∈ l.
Proof. unfold list_remove. by rewrite list_elem_of_filter. Qed.

Lemma list_remove_perm k l : NoDup l -> k ∈ l -> zlen (list_remove k l) = zlen l - 1.
Proof.
  intros Hn Hk. apply elem_of_Permutation in Hk as [l' Hp]. unfold zlen, list_remove. rewrite Hp in Hn |- *.
  apply list.NoDup_cons in Hn as [Hk _]. rewrite filter_cons_False by (by intros ?). fold (list_remove k l'). 
  rewrite list_remove_notin by done. cbn. lia.
Qed.

(** The first [n] of a list without repetitions, its last one out. *)
Lemma list_remove_last l k : NoDup (l ++ [k]) -> list_remove k (l ++ [k]) = l.
Proof.
  intros [Hl [Hk _]]%list.NoDup_app. unfold list_remove. rewrite list.filter_app, filter_cons_False by (by intros ?). cbn.
  rewrite app_nil_r. apply list_remove_notin. intros Hin. apply (Hk k Hin). by left.
Qed.

Lemma length_entries c : lru_ok c -> zlen (entries c) = zlen (lru_list c).
Proof.
  intros [_ Hk _ _]. unfold entries, entries_of, zlen. f_equal.
  assert (forall k, k ∈ lru_list c -> is_Some (lru_items c !! k)) as Hs by (intros k; apply Hk). clear Hk. revert Hs.
  induction (lru_list c) as [|k l IH]; intros Hs; [done|]. destruct (Hs k ltac:(left)) as [v Hv]. cbn. rewrite Hv. cbn.
  rewrite IH; [done|]. intros k' Hk'. apply Hs. by right.
Qed.

Lemma entries_of_app l l' (m : gmap K V) : entries_of (l ++ l') m = entries_of l m ++ entries_of l' m.
Proof. apply list.omap_app. Qed.

(** Looking an entry up, and putting a key in front. *)
Lemma entries_use c k v :
  entries_of (moveToFront k (lru_list c)) (<[k := v]> (lru_items c)) = use k v (entries c).
Proof.
  unfold moveToFront, use. cbn. rewrite lookup_insert_eq. cbn. f_equal. unfold entries.
  rewrite <- entries_of_remove. apply entries_of_ext. intros k' Hk'%elem_of_list_remove. by rewrite lookup_insert_ne by naive_solver.
Qed.

Lemma lru_keys_zlen c : lru_ok c -> Z.to_nat (lru_cap c) = (length (entries c) + Z.to_nat (lru_cap c - zlen (lru_list c)))%nat.
Proof.
  intros Hc. pose proof (length_entries c Hc) as Hl. destruct Hc as [_ _ Hs Hp]. unfold zlen in *. lia.
Qed.

Lemma without_notin k c : lru_items c !! k = None -> lru_ok c -> without k (entries c) = entries c.
Proof.
  intros Hk [_ Hkeys _ _]. unfold entries. rewrite <- entries_of_remove, list_remove_notin; [done|].
  rewrite Hkeys, Hk. by intros [? ?].
Qed.

Lemma NewBasicLRU_ok capacity : lru_ok (NewBasicLRU capacity).
Proof.
  constructor; cbn; [constructor| |destruct (capacity <=? 0) eqn:E; zbool; unfold zlen; cbn; lia..].
  intros k. rewrite lookup_empty. split; [by intros ?%list_elem_of_In|by intros [? ?]].
Qed.

(** A key that is moved to the front. *)
Lemma moveToFront_ok k v c : lru_ok c -> is_Some (lru_items c !! k) ->
  lru_ok (mkLRU (moveToFront k (lru_list c)) (<[k := v]> (lru_items c)) (lru_cap c)).
Proof.
  intros [Hn Hk Hs Hp] Hin. pose proof (proj2 (Hk k) Hin) as Hkl. constructor; cbn; [| | |done].
  - constructor; [by intros [? _]%elem_of_list_remove|]. by apply list.NoDup_filter.
  - intros k'. unfold moveToFront. rewrite elem_of_cons, elem_of_list_remove, Hk. destruct (decide (k' = k)) as [->|Hne].
    + rewrite lookup_insert_eq. naive_solver.
    + rewrite lookup_insert_ne by done. naive_solver.
  - unfold moveToFront. rewrite zlen_cons, list_remove_perm by done. lia.
Qed.

(** A key that is put in front of those that are left. *)
Lemma push_ok k v l items c :
  lru_ok c -> lru_items c !! k = None -> NoDup l -> (forall k', k' ∈ l <-> is_Some (items !! k')) -> items ⊆ lru_items c ->
  zlen l + 1 <= lru_cap c -> lru_ok (mkLRU (k :: l) (<[k := v]> items) (lru_cap c)).
Proof.
  intros [_ _ _ Hp] Hk Hn Hl Hsub Hlen. assert (items !! k = None) as Hki by (by eapply lookup_weaken_None).
  constructor; cbn; [|..|rewrite zlen_cons; lia|done].
  - constructor; [|done]. rewrite Hl, Hki. by intros [? ?].
  - intros k'. rewrite elem_of_cons, Hl. destruct (decide (k' = k)) as [->|Hne].
    + rewrite lookup_insert_eq. naive_solver.
    + rewrite lookup_insert_ne by done. naive_solver.
Qed.

Lemma push_entries k v l (items : gmap K V) : k ∉ l -> entries_of (k :: l) (<[k := v]> items) = (k, v) :: entries_of l items.
Proof.
  intros Hk. unfold entries_of. cbn. rewrite lookup_insert_eq. cbn. f_equal. apply entries_of_ext. intros k' Hk'.
  by rewrite lookup_insert_ne by (intros ->; done).
Qed.

Lemma lru_Add_ok k v c : lru_ok c -> exists b c',
  lru_Add k v c = Ret (b, c') /\ lru_ok c' /\ lru_cap c' = lru_cap c /\ entries c' = remember (lru_cap c) k v (entries c) /\
  lru_items c' !! k = Some v /\ lru_items c' ⊆ <[k := v]> (lru_items c).
Proof.
  intros Hc. pose proof (lru_Len_list c Hc) as Hlen. pose proof (length_entries c Hc) as Hle.
  pose proof (lru_keys_zlen c Hc) as Hcap. unfold lru_Add, remember.
  destruct (lru_items c !! k) as [v0|] eqn:E.
  - pose proof (moveToFront_ok k v c Hc ltac:(by eexists)) as Hok. eexists _, _. split; [reflexivity|].
    split; [exact Hok|]. split; [done|]. split; [|split; [apply lookup_insert_eq|done]]. rewrite take_ge; [apply entries_use|].
    rewrite <- entries_use. pose proof (length_entries _ Hok) as H1. pose proof (lru_size _ Hok) as H2.
    unfold zlen, entries in H1, H2 |- *. cbn [lru_list lru_items lru_cap] in H1, H2. lia.
  - unfold use. rewrite without_notin by done. assert (k ∉ lru_list c) as Hkl by (rewrite (lru_keys c Hc), E; by intros [? ?]).
    pose proof (lru_nodup c Hc) as Hnd. pose proof (lru_keys c Hc) as Hks. pose proof (lru_size c Hc) as Hsz. pose proof (lru_pos c Hc) as Hp.
    destruct (lru_Len c >=? lru_cap c) eqn:Efull; zbool.
    + destruct (list.last (lru_list c)) as [x|] eqn:El.
      2:{ apply list.last_None in El. rewrite El in *. unfold zlen in *. cbn in *. lia. }
      apply list.last_Some in El as [l El]. rewrite El in *.
      assert (zlen (l ++ [x]) = zlen l + 1) as Hz by (rewrite zlen_app; done).
      rewrite list_remove_last by done. assert (x ∉ l) as Hx by (intros Hin; apply list.NoDup_app in Hnd as [_ [Hd _]]; apply (Hd x Hin); left).
      assert (k ∉ l) as Hkl' by (intros Hin; apply Hkl, elem_of_app; by left).
      eexists _, _. split; [reflexivity|]. split; [|split; [done|split; [|split; [apply lookup_insert_eq|]]]].
      * apply push_ok; [done|done|by apply list.NoDup_app in Hnd as [? _]| |apply delete_subseteq|lia].
        intros k'. rewrite lookup_delete_is_Some, <- Hks, elem_of_app, list_elem_of_singleton. naive_solver.
      * unfold entries at 1. cbn [lru_list lru_items]. rewrite push_entries by done. rewrite Hcap.
        unfold entries in *. rewrite El, entries_of_app in *. rewrite (entries_of_ext l (delete x _) (lru_items c)).
        2:{ intros k' Hk'. by rewrite lookup_delete_ne by (intros ->; done). }
        destruct (proj1 (Hks x)) as [vx Hvx]; [apply elem_of_app; right; left|].
        assert (entries_of [x] (lru_items c) = [(x, vx)]) as Hx1 by (unfold entries_of; cbn; by rewrite Hvx).
        rewrite Hx1 in *. rewrite length_app. cbn [length]. unfold zlen in *. rewrite length_app in *. cbn [length] in *.
        rewrite app_comm_cons, take_app_le by (cbn; lia). rewrite take_ge; [done|]. cbn. lia.
      * apply insert_mono, delete_subseteq.
    + eexists _, _. split; [reflexivity|]. split; [|split; [done|split; [|split; [apply lookup_insert_eq|done]]]].
      * apply push_ok; [done..|lia].
      * unfold entries at 1. cbn [lru_list lru_items]. rewrite push_entries by done. rewrite take_ge; [done|]. cbn. unfold zlen in *. lia.
Qed.

Lemma entries_lookup c k : lru_ok c -> (list_to_map (entries c) : gmap K V) !! k = lru_items c !! k.
Proof.
  intros Hc. unfold entries. pose proof (lru_keys c Hc k) as Hk.
  assert (forall l, (list_to_map (entries_of l (lru_items c)) : gmap K V) !! k = if decide (k ∈ l) then lru_items c !! k else None) as H1.
  { intros l. unfold entries_of. induction l as [|k' l IH]; [done|]. cbn [omap list_omap].
    destruct (decide (k' = k)) as [->|Hne].
    - rewrite decide_True by left. destruct (lru_items c !! k) as [v|]; cbn; [apply lookup_insert_eq|]. rewrite IH. by case_decide.
    - destruct (lru_items c !! k') as [v|]; cbn; [rewrite lookup_insert_ne by done|]; rewrite IH;
        (destruct (decide (k ∈ l)); [rewrite decide_True by (by right); done|rewrite decide_False; [done|]];
         by intros [?|?]%elem_of_cons). }
  rewrite H1. case_decide as Hin; [done|]. destruct (lru_items c !! k) eqn:E; [|done]. destruct Hin. apply Hk. by eexists.
Qed.

Lemma lru_Get_ok k c : lru_ok c -> exists c',
  lru_Get k c = Ret (lru_items c !! k, c') /\ lru_ok c' /\ lru_cap c' = lru_cap c /\ lru_items c' = lru_items c /\
  entries c' = match lru_items c !! k with Some v => use k v (entries c) | None => entries c end.
Proof.
  intros Hc. unfold lru_Get. destruct (lru_items c !! k) as [v|] eqn:E; [|by exists c].
  pose proof (moveToFront_ok k v c Hc ltac:(by eexists)) as Hok. rewrite insert_id in Hok by done.
  eexists. split; [reflexivity|]. split; [exact Hok|]. split; [done|]. split; [done|].
  unfold entries at 1. cbn [lru_list lru_items]. rewrite <- (insert_id (lru_items c) k v) at 1 by done. apply entries_use.
Qed.

Lemma list_remove_zlen k l : zlen (list_remove k l) <= zlen l.
Proof. unfold zlen, list_remove. pose proof (length_filter (fun x => x <> k) l). lia. Qed.

Lemma drop_key_ok k c : lru_ok c -> lru_ok (mkLRU (list_remove k (lru_list c)) (delete k (lru_items c)) (lru_cap c)).
Proof.
  intros [Hn Hk Hs Hp]. constructor; cbn; [by apply list.NoDup_filter| | |done].
  - intros k'. rewrite elem_of_list_remove, lookup_delete_is_Some, Hk. naive_solver.
  - pose proof (list_remove_zlen k (lru_list c)). lia.
Qed.

Lemma drop_key_entries k c :
  entries (mkLRU (list_remove k (lru_list c)) (delete k (lru_items c)) (lru_cap c)) = without k (entries c).
Proof.
  unfold entries. cbn [lru_list lru_items]. rewrite <- entries_of_remove. apply entries_of_ext.
  intros k' [Hne _]%elem_of_list_remove. by rewrite lookup_delete_ne by done.
Qed.

(** ** Sequences of operations *)

Inductive lru_op : Type :=
| LAdd (k : K) (v : V)
| LGet (k : K)
| LRemove (k : K)
| LPurge.

(** The answer of an operation: a value for reads, otherwise none. *)
Definition lru_do (op : lru_op) : GM BasicLRU (option V) := fun c =>
  match op with
  | LAdd k v => let? r := lru_Add k v c in Ret (None, snd r)
  | LGet k => lru_Get k c
  | LRemove k => Ret (None, snd (lru_Remove k c))
  | LPurge => Ret (None, lru_Purge c)
  end.

(** The same on the list of what was used last. *)
Definition recent_do (cap : Z) (op : lru_op) (l : list (K * V)) : option V * list (K * V) :=
  match op with
  | LAdd k v => (None, remember cap k v l)
  | LGet k => match (list_to_map l : gmap K V) !! k with Some v => (Some v, use k v l) | None => (None, l) end
  | LRemove k => (None, without k l)
  | LPurge => (None, [])
  end.

Fixpoint lru_run (ops : list lru_op) : GM BasicLRU (list (option V)) :=
  match ops with
  | [] => gret []
  | op :: ops => let* a := lru_do op in let* l := lru_run ops in gret (a :: l)
  end.

Fixpoint recent_run (cap : Z) (ops : list lru_op) (l : list (K * V)) : list (option V) * list (K * V) :=
  match ops with
  | [] => ([], l)
  | op :: ops =>
      let r := recent_do cap op l in
      let r' := recent_run cap ops (snd r) in
      (fst r :: fst r', snd r')
  end.

Lemma lru_do_ok op c : lru_ok c -> exists c',
  lru_do op c = Ret (fst (recent_do (lru_cap c) op (entries c)), c') /\ lru_ok c' /\ lru_cap c' = lru_cap c /\
  entries c' = snd (recent_do (lru_cap c) op (entries c)).
Proof.
  intros Hc. destruct op as [k v|k|k|]; cbn [lru_do recent_do].
  - destruct (lru_Add_ok k v c Hc) as (b & c' & -> & Hok & Hcap & He & _). by exists c'.
  - rewrite entries_lookup by done. destruct (lru_Get_ok k c Hc) as (c' & -> & Hok & Hcap & _ & He).
    exists c'. by destruct (lru_items c !! k).
  - unfold lru_Remove. destruct (lru_items c !! k) as [v|] eqn:E; cbn [fst snd].
    + eexists. split; [reflexivity|]. split; [by apply drop_key_ok|]. split; [done|]. apply drop_key_entries.
    + exists c. split; [done|]. split; [done|]. split; [done|]. by rewrite without_notin.
  - eexists. split; [reflexivity|]. split; [|done]. constructor; cbn; [constructor| | |apply Hc].
    + intros k. rewrite lookup_empty. split; [by intros ?%list_elem_of_In|by intros [? ?]].
    + destruct Hc as [_ _ _ Hp]. unfold zlen. cbn. lia.
Qed.

(** A cache never fails, answers like the list of the entries used last, never holds more
    than its capacity, and forgets only what was not used for longest. *)
Theorem lru_keeps_recent ops capacity :
  exists c, lru_run ops (NewBasicLRU capacity) = Ret (fst (recent_run (Z.max 1 capacity) ops []), c) /\
    entries c = snd (recent_run (Z.max 1 capacity) ops []) /\ lru_Len c <= Z.max 1 capacity.
Proof.
  assert (forall c, lru_ok c -> exists c', lru_run ops c = Ret (fst (recent_run (lru_cap c) ops (entries c)), c') /\
    entries c' = snd (recent_run (lru_cap c) ops (entries c)) /\ lru_Len c' <= lru_cap c) as Hrun.
  { induction ops as [|op ops IH]; intros c Hc.
    - exists c. split_and!; try done. rewrite lru_Len_list by done. apply Hc.
    - destruct (lru_do_ok op c Hc) as (c1 & Hdo & Hok & Hcap & He). destruct (IH c1 Hok) as (c' & H1 & H2 & H3).
      exists c'. cbn [lru_run recent_run]. unfold gbind. rewrite Hdo, H1, <- He, <- Hcap. cbn. done. }
  destruct (Hrun (NewBasicLRU capacity) (NewBasicLRU_ok capacity)) as (c & H1 & H2 & H3). exists c.
  assert (lru_cap (NewBasicLRU capacity) = Z.max 1 capacity) as Hcap.
  { cbn. destruct (capacity <=? 0) eqn:E; zbool; lia. }
  rewrite Hcap in *. done.
Qed.
End lru.
Arguments BasicLRU K V {_ _}.
