(* ===== verification/Rlp.v ===== *)
(** * Recursive length prefix encoding (client/rlp)

    The writers of encode.go and encbuffer.go that put integers, strings and
    list headers, and the splitting functions of raw.go.  The encoders that work
    by reflection on Go types are not modelled.

    The theorems: splitting reads back what the writers put, accepts only the
    canonical form, and never panics. *)

From Stdlib Require Import Strings.Byte.
From S2P Require Import Prelude.

(** ** Writing *)

(** encode.go [intsize]: the number of bytes of [i]. *)
Fixpoint intsize_loop (fuel : nat) (i size : Z) : Z :=
  match fuel with
  | O => size
  | S fuel => let i := Z.shiftr i 8 in if i =? 0 then size else intsize_loop fuel i (size + 1)
  end.
Definition intsize (i : Z) : Z := intsize_loop 8 i 1.

(** encode.go [headsize]. *)
Definition headsize (size : Z) : Z := if size <? 56 then 1 else 1 + intsize size.

(** encode.go [putint]: [i] big-endian without leading zeros. *)
Definition putint (i : Z) : list byte :=
  if i <? 2 ^ 8 then be_bytes 1 i
  else if i <? 2 ^ 16 then be_bytes 2 i
  else if i <? 2 ^ 24 then be_bytes 3 i
  else if i <? 2 ^ 32 then be_bytes 4 i
  else if i <? 2 ^ 40 then be_bytes 5 i
  else if i <? 2 ^ 48 then be_bytes 6 i
  else if i <? 2 ^ 56 then be_bytes 7 i
  else be_bytes 8 i.

(** encode.go [puthead]. *)
Definition puthead (smalltag largetag size : Z) : list byte :=
  if size <? 56 then [byte_of_Z (smalltag + size)]
  else let s := putint size in byte_of_Z (largetag + zlen s) :: s.

(** encbuffer.go [writeUint64]. *)
Definition writeUint64 (i : Z) : list byte :=
  if i =? 0 then [Byte.x80]
  else if i <? 128 then [byte_of_Z i]
  else let s := putint i in byte_of_Z (0x80 + zlen s) :: s.

(** encbuffer.go [encodeStringHeader]. *)
Definition encodeStringHeader (size : Z) : list byte :=
  if size <? 56 then [byte_of_Z (0x80 + size)]
  else let s := putint size in byte_of_Z (0xB7 + zlen s) :: s.

(** encbuffer.go [writeBytes]. *)
Definition writeBytes (b : list byte) : list byte :=
  match b with
  | [x] => if byte_val x <=? 0x7F then [x] else encodeStringHeader 1 ++ b
  | _ => encodeStringHeader (zlen b) ++ b
  end.

(** encode.go [listhead.encode]. *)
Definition listhead_encode (size : Z) : list byte := puthead 0xC0 0xF7 size.

(** raw.go [AppendUint64], without the destination it appends to. *)
Definition AppendUint64 (i : Z) : list byte :=
  if i =? 0 then [Byte.x80]
  else if i <? 128 then [byte_of_Z i]
  else if i <? 2 ^ 8 then Byte.x81 :: be_bytes 1 i
  else if i <? 2 ^ 16 then Byte.x82 :: be_bytes 2 i
  else if i <? 2 ^ 24 then Byte.x83 :: be_bytes 3 i
  else if i <? 2 ^ 32 then Byte.x84 :: be_bytes 4 i
  else if i <? 2 ^ 40 then Byte.x85 :: be_bytes 5 i
  else if i <? 2 ^ 48 then Byte.x86 :: be_bytes 6 i
  else if i <? 2 ^ 56 then Byte.x87 :: be_bytes 7 i
  else Byte.x88 :: be_bytes 8 i.

(** raw.go: sizes of encodings. *)
Definition BytesSize (b : list byte) : Z :=
  match b with
  | [] => 1
  | [x] => if byte_val x <=? 0x7F then 1 else 2
  | _ => headsize (zlen b) + zlen b
  end.
Definition ListSize (contentSize : Z) : Z := u64 (headsize contentSize + contentSize).
Definition IntSize (x : Z) : Z := if x <? 0x80 then 1 else 1 + intsize x.

(** ** Splitting *)

(** decode.go [Kind]; the zero value is [KByte]. *)
Inductive Kind : Type := KByte | KString | KList.

Inductive rlp_error : Type :=
| ErrUnexpectedEOF
| ErrCanonSize
| ErrValueTooLarge
| ErrExpectedString
| ErrExpectedList
| ErrCanonInt
| errUintOverflow.

(** The bytes of a size, shifted to their places and joined by [|]. *)
Fixpoint be_or (l : list byte) : Z :=
  match l with
  | [] => 0
  | [b] => byte_val b
  | b :: l => Z.lor (Z.shiftl (byte_val b) (8 * zlen l)) (be_or l)
  end.

Definition readSize (b : list byte) (slen : Z) : Res (Z * option rlp_error) :=
  if slen >? zlen b then Ret (0, Some ErrUnexpectedEOF)
  else
    let s := if (1 <=? slen) && (slen <=? 8) then be_or (take (Z.to_nat slen) b) else 0 in
    if s <? 56 then Ret (0, Some ErrCanonSize)
    else
      let? b0 := go_index b 0 in
      if byte_val b0 =? 0 then Ret (0, Some ErrCanonSize) else Ret (s, None).

(** [contentsize == 1 && len(buf) > 1 && buf[1] < 128]. *)
Definition short_single (buf : list byte) (contentsize : Z) : Res bool :=
  if (contentsize =? 1) && (zlen buf >? 1)
  then let? b1 := go_index buf 1 in Ret (byte_val b1 <? 128)
  else Ret false.

(** The end of [readKind]: the error, or the check against the input. *)
Definition checkKind (buf : list byte) (k : Kind) (tagsize contentsize : Z) (err : option rlp_error)
    : Kind * Z * Z * option rlp_error :=
  match err with
  | Some err => (KByte, 0, 0, Some err)
  | None =>
      if contentsize >? u64 (zlen buf - tagsize) then (KByte, 0, 0, Some ErrValueTooLarge)
      else (k, tagsize, contentsize, None)
  end.

Definition readKind (buf : list byte) : Res (Kind * Z * Z * option rlp_error) :=
  match buf with
  | [] => Ret (KByte, 0, 0, Some ErrUnexpectedEOF)
  | b :: tail =>
      let b := byte_val b in
      if b <? 0x80 then Ret (checkKind buf KByte 0 1 None)
      else if b <? 0xB8 then
        let contentsize := b - 0x80 in
        let? short := short_single buf contentsize in
        if short : bool then Ret (KByte, 0, 0, Some ErrCanonSize)
        else Ret (checkKind buf KString 1 contentsize None)
      else if b <? 0xC0 then
        let? r := readSize tail (b - 0xB7) in
        Ret (checkKind buf KString (b - 0xB7 + 1) (fst r) (snd r))
      else if b <? 0xF8 then Ret (checkKind buf KList 1 (b - 0xC0) None)
      else
        let? r := readSize tail (b - 0xF7) in
        Ret (checkKind buf KList (b - 0xF7 + 1) (fst r) (snd r))
  end.

Definition Split (b : list byte) : Res (Kind * list byte * list byte * option rlp_error) :=
  let? r := readKind b in
  let '(k, ts, cs, err) := r in
  match err with
  | Some err => Ret (KByte, [], b, Some err)
  | None =>
      let? content := go_slice b ts (u64 (ts + cs)) in
      let? rest := go_slice b (u64 (ts + cs)) (zlen b) in
      Ret (k, content, rest, None)
  end.

Definition SplitString (b : list byte) : Res (list byte * list byte * option rlp_error) :=
  let? r := Split b in
  match r with
  | (_, _, _, Some err) => Ret ([], b, Some err)
  | (KList, _, _, None) => Ret ([], b, Some ErrExpectedString)
  | (_, content, rest, None) => Ret (content, rest, None)
  end.

Definition SplitUint64 (b : list byte) : Res (Z * list byte * option rlp_error) :=
  let? r := SplitString b in
  match r with
  | (_, _, Some err) => Ret (0, b, Some err)
  | (content, rest, None) =>
      match content with
      | [] => Ret (0, rest, None)
      | [x] => if byte_val x =? 0 then Ret (0, b, Some ErrCanonInt) else Ret (byte_val x, rest, None)
      | _ =>
          if zlen content >? 8 then Ret (0, b, Some errUintOverflow)
          else
            let? r := readSize content (zlen content) in
            match r with
            | (_, Some _) => Ret (0, b, Some ErrCanonInt)
            | (x, None) => Ret (x, rest, None)
            end
      end
  end.

Definition SplitList (b : list byte) : Res (list byte * list byte * option rlp_error) :=
  let? r := Split b in
  match r with
  | (_, _, _, Some err) => Ret ([], b, Some err)
  | (KList, content, rest, None) => Ret (content, rest, None)
  | (_, _, _, None) => Ret ([], b, Some ErrExpectedList)
  end.

(** [CountValues]: every value takes at least one byte, so the length of the
    input bounds the iterations. *)
Fixpoint CountValues_loop (fuel : nat) (b : list byte) (i : Z) : Res (Z * option rlp_error) :=
  match b, fuel with
  | [], _ => Ret (i, None)
  | _, O => NoFuel
  | _, S fuel =>
      let? r := readKind b in
      match r with
      | (_, _, _, Some err) => Ret (0, Some err)
      | (_, tagsize, size, None) =>
          let? b := go_slice b (u64 (tagsize + size)) (zlen b) in
          CountValues_loop fuel b (i + 1)
      end
  end.
Definition CountValues (b : list byte) : Res (Z * option rlp_error) := CountValues_loop (length b) b 0.

(** ** Lemmas: integers *)

Lemma length_putint_range i : 0 <= i < two64 -> 1 <= zlen (putint i) <= 8.
Proof.
  intros H. unfold putint, zlen.
  repeat match goal with |- context [if ?b then _ else _] => destruct b end;
    rewrite length_be_bytes; lia.
Qed.

(** [putint] is a big-endian form: it reads back. *)
Lemma putint_be_value i : 0 <= i < two64 -> be_value (putint i) = i.
Proof.
  intros H. unfold putint.
  repeat match goal with |- context [if ?b then _ else _] => destruct b eqn:?; zbool end;
    rewrite be_value_be_bytes; apply Z.mod_small; unfold two64 in *; lia.
Qed.

Lemma be_bytes_be_value bs : be_bytes (length bs) (be_value bs) = bs.
Proof.
  induction bs as [|b bs IH]; [done|]. cbn [length be_bytes]. rewrite be_value_cons.
  pose proof (be_value_bound bs) as Hb. unfold zlen in *. f_equal.
  - rewrite Z.div_add_l, Z.div_small, Z.add_0_r by lia. apply byte_of_Z_val.
  - etrans; [|exact IH]. clear IH Hb. generalize (be_value bs). generalize (length bs).
    intros n v. generalize (byte_val b). intros x.
    assert (forall m k, (m <= n)%nat -> be_bytes m (x * 256 ^ Z.of_nat n + k) = be_bytes m k) as Hgen.
    { induction m as [|m IHm]; intros k Hm; [done|]. cbn [be_bytes]. rewrite IHm by lia. f_equal.
      replace (x * 256 ^ Z.of_nat n) with (x * 256 ^ (Z.of_nat n - Z.of_nat m - 1) * 256 * 256 ^ Z.of_nat m).
      2:{ rewrite <- !Z.mul_assoc. f_equal. rewrite Z.mul_assoc. rewrite (Z.mul_comm _ 256).
          rewrite <- Z.pow_succ_r, <- Z.pow_add_r by lia. f_equal. lia. }
      rewrite Z.div_add_l by lia. unfold byte_of_Z.
      by rewrite Z.add_comm, Z_mod_plus_full. }
    by apply Hgen.
Qed.

(** Without a leading zero it is the only one. *)
Lemma putint_canonical bs :
  1 <= zlen bs <= 8 -> (forall b, head bs = Some b -> byte_val b <> 0) -> putint (be_value bs) = bs.
Proof.
  intros Hlen Hhd. rewrite <- (be_bytes_be_value bs) at 2.
  pose proof (be_value_bound bs) as Hb.
  assert (256 ^ (zlen bs - 1) <= be_value bs) as Hlow.
  { destruct bs as [|b bs]; [done|]. specialize (Hhd b eq_refl). rewrite be_value_cons, zlen_cons.
    replace (zlen bs + 1 - 1) with (zlen bs) by lia.
    pose proof (be_value_bound bs). pose proof (byte_val_range b). nia. }
  unfold zlen in *. revert Hb Hlow. generalize (be_value bs). clear Hhd. generalize dependent (length bs).
  intros n Hn v Hb Hlow.
  assert (n = 1 \/ n = 2 \/ n = 3 \/ n = 4 \/ n = 5 \/ n = 6 \/ n = 7 \/ n = 8)%nat as Hcases by lia.
  unfold putint. destruct_or! Hcases; subst n; cbn in Hb, Hlow;
    repeat match goal with |- context [v <? ?b] => destruct (Z.ltb_spec v b) end; (done || lia).
Qed.

(** A positive number has no leading zero. *)
Lemma putint_head i b : is_u64 i -> 0 < i -> head (putint i) = Some b -> byte_val b <> 0.
Proof.
  unfold is_u64, two64, putint. intros Hi H0.
  repeat match goal with |- context [i <? ?b] => destruct (Z.ltb_spec i b) end;
    cbn [be_bytes head]; intros [= <-]; rewrite byte_val_of_Z;
    (rewrite Z.mod_small; [|split; [apply Z.div_pos; lia|apply Z.div_lt_upper_bound; lia]]);
    intros Hz; apply Z.div_small_iff in Hz; lia.
Qed.

Lemma be_or_value l : be_or l = be_value l.
Proof.
  induction l as [|b l IH]; [done|]. rewrite be_value_cons. destruct l as [|b' l]; [unfold zlen, be_value; cbn; lia|].
  change (be_or (b :: b' :: l)) with (Z.lor (Z.shiftl (byte_val b) (8 * zlen (b' :: l))) (be_or (b' :: l))).
  rewrite IH. pose proof (be_value_bound (b' :: l)) as Hb. pose proof (zlen_nonneg (b' :: l)) as Hz.
  generalize dependent (zlen (b' :: l)). intros n Hb Hn.
  assert (256 ^ n = 2 ^ (8 * n)) as Hp by (rewrite Z.pow_mul_r by lia; done).
  rewrite Hp in *. rewrite Z.shiftl_mul_pow2 by lia.
  assert (Z.land (byte_val b * 2 ^ (8 * n)) (be_value (b' :: l)) = 0) as Hl.
  { apply Z.bits_inj'. intros i Hi. rewrite Z.land_spec, Z.bits_0.
    destruct (Z.lt_ge_cases i (8 * n)).
    - rewrite Z.mul_pow2_bits_low by lia. done.
    - apply andb_false_intro2. destruct (Z.eq_dec (be_value (b' :: l)) 0) as [->|]; [apply Z.bits_0|].
      apply Z.bits_above_log2; [lia|]. apply Z.log2_lt_pow2; [lia|].
      apply (Z.lt_le_trans _ _ _ (proj2 Hb)), Z.pow_le_mono_r; lia. }
  by rewrite <- Z.lxor_lor, <- Z.add_nocarry_lxor by done.
Qed.

(** ** Lemmas: headers *)

Definition header (k : Kind) (c : list byte) : list byte :=
  match k with
  | KByte => []
  | KString => encodeStringHeader (zlen c)
  | KList => listhead_encode (zlen c)
  end.

(** A byte below 128 stands for itself and has no string header. *)
Definition single (c : list byte) : Prop := exists x, c = [x] /\ byte_val x < 128.

Definition kind_ok (k : Kind) (c : list byte) : Prop :=
  match k with KByte => single c | KString => ~ single c | KList => True end.

Lemma go_slice_app {A} (a b c : list A) :
  go_slice (a ++ b ++ c) (zlen a) (zlen a + zlen b) = Ret b.
Proof.
  unfold go_slice. pose proof (zlen_nonneg a). pose proof (zlen_nonneg b). pose proof (zlen_nonneg c).
  rewrite (proj2 (Z.leb_le 0 _)), (proj2 (Z.leb_le (zlen a) _)), (proj2 (Z.leb_le _ (zlen (a ++ _))))
    by (rewrite ?zlen_app; lia). cbn [andb].
  replace (zlen a + zlen b - zlen a) with (zlen b) by lia. unfold zlen. rewrite !Nat2Z.id.
  by rewrite drop_app_length, take_app_length.
Qed.

(** A size that does not fit in the tag. *)
Lemma readSize_iff tail slen s :
  1 <= slen <= 8 -> is_u64 s ->
  readSize tail slen = Ret (s, None) <->
  56 <= s /\ exists rest, tail = putint s ++ rest /\ zlen (putint s) = slen.
Proof.
  intros Hslen Hs. unfold readSize. rewrite (proj2 (Z.leb_le 1 slen)), (proj2 (Z.leb_le slen 8)) by lia.
  cbn [andb]. rewrite be_or_value. split.
  - destruct (slen >? zlen tail) eqn:E1; [done|]. zbool.
    set (l := take _ tail). destruct (be_value l <? 56) eqn:E2; [done|]. zbool.
    destruct (go_index_ok tail 0) as (b0 & -> & Hb0); [lia|]. cbn [res_bind].
    destruct (byte_val b0 =? 0) eqn:E3; [done|]. zbool. intros [= <-].
    assert (zlen l = slen) as Hl by (unfold l, zlen in *; rewrite length_take; lia).
    assert (putint (be_value l) = l) as Hp.
    { apply putint_canonical; [lia|]. intros b Hb.
      destruct tail as [|b' tail]; [done|]. injection Hb0 as ->. unfold l in Hb.
      destruct (Z.to_nat slen) eqn:En; [lia|]. by injection Hb as <-. }
    split; [done|]. exists (drop (Z.to_nat slen) tail). rewrite Hp. unfold l at 1.
    by rewrite take_drop.
  - intros (H56 & rest & -> & Hlen). rewrite zlen_app, Hlen. pose proof (zlen_nonneg rest).
    rewrite Z.gtb_ltb, (proj2 (Z.ltb_ge _ _)) by lia.
    replace (Z.to_nat slen) with (length (putint s)) by (unfold zlen in Hlen; lia).
    rewrite take_app_length, putint_be_value by done. rewrite (proj2 (Z.ltb_ge _ _)) by lia.
    destruct (go_index_ok (putint s ++ rest) 0) as (b0 & -> & Hb0); [rewrite zlen_app; lia|].
    cbn [res_bind]. destruct (byte_val b0 =? 0) eqn:E; [|done]. zbool. exfalso.
    apply (putint_head s b0); [done|lia| |done].
    destruct (putint s); [unfold zlen in Hlen; cbn in Hlen; lia|done].
Qed.

Lemma readSize_ret tail slen :
  1 <= slen <= 8 -> exists s err, readSize tail slen = Ret (s, err) /\ is_u64 s.
Proof.
  intros Hslen. unfold readSize. rewrite (proj2 (Z.leb_le 1 slen)), (proj2 (Z.leb_le slen 8)) by lia.
  cbn [andb]. rewrite be_or_value.
  destruct (slen >? zlen tail) eqn:E1; [by eexists _, _|]. zbool.
  destruct (_ <? 56); [by eexists _, _|].
  destruct (go_index_ok tail 0) as (b0 & -> & _); [lia|]. cbn [res_bind].
  destruct (byte_val b0 =? 0); [by eexists _, _|]. eexists _, _. split; [done|].
  pose proof (be_value_bound (take (Z.to_nat slen) tail)) as Hb. unfold is_u64, two64.
  split; [lia|]. apply (Z.lt_le_trans _ _ _ (proj2 Hb)). change (2 ^ 64) with (256 ^ 8).
  apply Z.pow_le_mono_r; [lia|]. unfold zlen. rewrite length_take. lia.
Qed.

Lemma checkKind_iff buf k0 ts0 cs0 err k ts cs :
  is_u64 (zlen buf - ts0) \/ err <> None ->
  checkKind buf k0 ts0 cs0 err = (k, ts, cs, None) <->
  err = None /\ k = k0 /\ ts = ts0 /\ cs = cs0 /\ cs0 <= zlen buf - ts0.
Proof.
  intros H. unfold checkKind. destruct err as [e|]; [by split; [|intros [? _]]|].
  destruct H as [H|]; [|done]. rewrite u64_small by done.
  destruct (cs0 >? zlen buf - ts0) eqn:E; zbool; split; try done; [lia|by intros [= <- <- <-]|].
  by intros (_ & -> & -> & -> & _).
Qed.

(** Content of [n] bytes at the front. *)
Lemma cut (l : list byte) n : 0 <= n <= zlen l -> exists c r, l = c ++ r /\ zlen c = n.
Proof.
  intros H. exists (take (Z.to_nat n) l), (drop (Z.to_nat n) l). rewrite take_drop. split; [done|].
  unfold zlen in *. rewrite length_take. lia.
Qed.

Definition large_header (base size : Z) : list byte :=
  byte_of_Z (base + zlen (putint size)) :: putint size.

Lemma large_iff base K b tail k ts cs :
  base < byte_val b <= base + 8 -> 0 <= base -> base + 8 < 256 -> zlen (b :: tail) < 2 ^ 63 ->
  (let? r := readSize tail (byte_val b - base) in
   Ret (checkKind (b :: tail) K (byte_val b - base + 1) (fst r) (snd r))) = Ret (k, ts, cs, None) <->
  k = K /\ exists c r, 56 <= zlen c /\ b :: tail = large_header base (zlen c) ++ c ++ r /\
    ts = zlen (large_header base (zlen c)) /\ cs = zlen c.
Proof.
  intros Hb Hb0' Hbase Hlen. unfold large_header.
  destruct (readSize_ret tail (byte_val b - base)) as (s & err & Hr & Hs); [lia|]. rewrite Hr. cbn [res_bind fst snd].
  rewrite zlen_cons in Hlen. pose proof (byte_val_range b). split.
  - intros [= Hc]. destruct err as [e|]; [done|].
    apply readSize_iff in Hr as (H56 & rest & -> & Hl); [|lia|done].
    rewrite zlen_app in Hlen. pose proof (zlen_nonneg rest).
    apply checkKind_iff in Hc as (_ & -> & -> & -> & Hc);
      [|left; rewrite zlen_cons, zlen_app; unfold is_u64, two64; lia].
    rewrite zlen_cons, zlen_app in Hc. destruct (cut rest s) as (c & r & -> & Hcs); [lia|].
    split; [done|]. exists c, r. rewrite !Hcs, zlen_cons, Hl. split_and!; try done; try lia.
    replace (base + (byte_val b - base)) with (byte_val b) by lia. rewrite byte_of_Z_val. done.
  - intros (-> & c & r & H56 & Heq & -> & ->). injection Heq as Hb0 ->.
    rewrite !zlen_app in Hlen. pose proof (zlen_nonneg c). pose proof (zlen_nonneg r).
    pose proof (zlen_nonneg (putint (zlen c))).
    assert (is_u64 (zlen c)) as Hu by (unfold is_u64, two64; lia).
    pose proof (length_putint_range (zlen c) Hu) as Hpl.
    assert (byte_val b = base + zlen (putint (zlen c))) as Hbv.
    { rewrite Hb0, byte_val_of_Z. apply Z.mod_small. lia. }
    replace (byte_val b - base) with (zlen (putint (zlen c))) in * by lia.
    rewrite (proj2 (readSize_iff _ _ (zlen c) Hpl Hu)) in Hr by (split; [done|by eexists]).
    injection Hr as <- <-. f_equal. apply checkKind_iff.
    + left. rewrite zlen_cons, !zlen_app. unfold is_u64, two64. lia.
    + rewrite !zlen_cons, !zlen_app. split_and!; try done; lia.
Qed.

Lemma large_header_range base size :
  0 <= base -> base + 8 < 256 -> is_u64 size ->
  exists b, large_header base size = b :: putint size /\ base < byte_val b <= base + 8.
Proof.
  intros H0 H1 Hs. eexists. split; [done|]. pose proof (length_putint_range size Hs).
  rewrite byte_val_of_Z, Z.mod_small by lia. lia.
Qed.

Definition small_header (base size : Z) : list byte := [byte_of_Z (base + size)].

(** A size in the tag. *)
Lemma small_iff base K b tail k ts cs :
  base <= byte_val b < base + 56 -> 0 <= base -> base + 56 <= 256 -> zlen (b :: tail) < 2 ^ 63 ->
  checkKind (b :: tail) K 1 (byte_val b - base) None = (k, ts, cs, None) <->
  k = K /\ exists c r, zlen c < 56 /\ b :: tail = small_header base (zlen c) ++ c ++ r /\
    ts = zlen (small_header base (zlen c)) /\ cs = zlen c.
Proof.
  intros Hb Hb0 Hbase Hlen. rewrite zlen_cons in Hlen. pose proof (zlen_nonneg tail).
  rewrite checkKind_iff by (left; rewrite zlen_cons; unfold is_u64, two64; lia).
  rewrite zlen_cons. unfold small_header. split.
  - intros (_ & -> & -> & -> & Hc). destruct (cut tail (byte_val b - base)) as (c & r & -> & Hcs); [lia|].
    split; [done|]. exists c, r. rewrite Hcs. split_and!; try done; [lia|].
    replace (base + (byte_val b - base)) with (byte_val b) by lia. by rewrite byte_of_Z_val.
  - intros (-> & c & r & H56 & Heq & -> & ->). injection Heq as Hb1 ->.
    rewrite zlen_app in *. pose proof (zlen_nonneg c). pose proof (zlen_nonneg r).
    assert (byte_val b = base + zlen c) by (rewrite Hb1, byte_val_of_Z; apply Z.mod_small; lia).
    split_and!; try done; lia.
Qed.

Lemma encodeStringHeader_eq n :
  encodeStringHeader n = if n <? 56 then small_header 0x80 n else large_header 0xB7 n.
Proof. done. Qed.

Lemma listhead_encode_eq n :
  listhead_encode n = if n <? 56 then small_header 0xC0 n else large_header 0xF7 n.
Proof. done. Qed.

(** The test of a small string for a byte that should stand for itself. *)
Lemma short_single_eq b tail (n : Z) :
  short_single (b :: tail) n =
    Ret (match tail with x :: _ => (n =? 1) && (byte_val x <? 128) | [] => false end).
Proof.
  unfold short_single. rewrite zlen_cons. destruct tail as [|x tail].
  - unfold zlen. cbn. by rewrite andb_false_r.
  - rewrite zlen_cons. pose proof (zlen_nonneg tail).
    rewrite Z.gtb_ltb, (proj2 (Z.ltb_lt 1 _)), andb_true_r by lia. destruct (n =? 1); [|done].
    destruct (go_index_ok (b :: x :: tail) 1) as (y & -> & Hy); [rewrite !zlen_cons; lia|].
    by injection Hy as ->.
Qed.

Lemma single_app c r :
  zlen c = 1 -> match c ++ r with x :: _ => byte_val x <? 128 | [] => false end = true <-> single c.
Proof.
  intros H. destruct c as [|x [|y c]]; [done| |rewrite !zlen_cons in H; pose proof (zlen_nonneg c); lia].
  cbn. rewrite Z.ltb_lt. split; [by exists x|]. by intros (z & [= <-] & Hz).
Qed.

Lemma single_len c : single c -> zlen c = 1.
Proof. by intros (x & -> & _). Qed.

(** A string in the tag's range is accepted if it is not a single byte. *)
Lemma small_string_iff b tail k ts cs :
  0x80 <= byte_val b < 0xB8 -> zlen (b :: tail) < 2 ^ 63 ->
  (let? short := short_single (b :: tail) (byte_val b - 0x80) in
   if short : bool then Ret (KByte, 0, 0, Some ErrCanonSize)
   else Ret (checkKind (b :: tail) KString 1 (byte_val b - 0x80) None)) = Ret (k, ts, cs, None) <->
  k = KString /\ exists c r, zlen c < 56 /\ ~ single c /\ b :: tail = small_header 0x80 (zlen c) ++ c ++ r /\
    ts = zlen (small_header 0x80 (zlen c)) /\ cs = zlen c.
Proof.
  intros Hb Hlen. rewrite short_single_eq. cbn [res_bind].
  assert (forall c r, b :: tail = small_header 0x80 (zlen c) ++ c ++ r -> zlen c < 56 ->
    match tail with x :: _ => (byte_val b - 0x80 =? 1) && (byte_val x <? 128) | [] => false end = true
      <-> single c) as Hs.
  { intros c r Heq Hc. injection Heq as Hb1 ->. pose proof (zlen_nonneg c).
    assert (byte_val b = 0x80 + zlen c) as -> by (rewrite Hb1, byte_val_of_Z; apply Z.mod_small; lia).
    destruct (Z.eq_dec (zlen c) 1) as [H1|H1].
    - rewrite H1. cbn [Z.add Z.sub Z.eqb]. change (128 + 1 - 128 =? 1) with true. cbn [andb].
      by apply single_app.
    - split; [|intros Hsg; by apply single_len in Hsg].
      replace (0x80 + zlen c - 0x80) with (zlen c) by lia. rewrite (proj2 (Z.eqb_neq _ _) H1).
      by destruct (c ++ r). }
  pose proof (small_iff 0x80 KString b tail k ts cs) as Hiff.
  destruct (match tail with [] => _ | _ => _ end) eqn:Es.
  - split; [done|]. intros (-> & c & r & Hc & Hn & Heq & _). by destruct Hn; apply (Hs c r).
  - split.
    + intros [= H]. apply Hiff in H as (-> & c & r & Hc & Heq & -> & ->); [|lia..|done].
      split; [done|]. exists c, r. split_and!; try done. intros Hsg. by apply (Hs c r) in Hsg.
    + intros (-> & c & r & Hc & Hn & Heq & -> & ->). f_equal. apply Hiff; [lia..|done|].
      split; [done|]. by exists c, r.
Qed.

(** The five forms of a value, told apart by its first byte. *)
Definition form (k : Kind) (c : list byte) (b : byte) : Prop :=
  (k = KByte /\ header k c = [] /\ single c /\ byte_val b < 0x80) \/
  (k = KString /\ header k c = small_header 0x80 (zlen c) /\ ~ single c /\ zlen c < 56 /\
     0x80 <= byte_val b < 0xB8) \/
  (k = KString /\ header k c = large_header 0xB7 (zlen c) /\ 56 <= zlen c /\ 0xB8 <= byte_val b < 0xC0) \/
  (k = KList /\ header k c = small_header 0xC0 (zlen c) /\ zlen c < 56 /\ 0xC0 <= byte_val b < 0xF8) \/
  (k = KList /\ header k c = large_header 0xF7 (zlen c) /\ 56 <= zlen c /\ 0xF8 <= byte_val b).

Lemma small_header_first base (c r : list byte) b tail :
  b :: tail = small_header base (zlen c) ++ c ++ r -> zlen c < 56 -> 0 <= base -> base + 56 <= 256 ->
  byte_val b = base + zlen c.
Proof.
  intros [= -> _] Hc H0 H1. pose proof (zlen_nonneg c). rewrite byte_val_of_Z. apply Z.mod_small. lia.
Qed.

Lemma large_header_first base (c r : list byte) b tail :
  b :: tail = large_header base (zlen c) ++ c ++ r -> zlen c < 2 ^ 63 -> 0 <= base -> base + 8 < 256 ->
  base < byte_val b <= base + 8.
Proof.
  intros Heq Hc H0 H1. pose proof (zlen_nonneg c).
  destruct (large_header_range base (zlen c)) as (b' & Hl & Hb'); [done..|unfold is_u64, two64; lia|].
  rewrite Hl in Heq. by injection Heq as -> _.
Qed.

Lemma header_form k c r b tail :
  b :: tail = header k c ++ c ++ r -> kind_ok k c -> zlen c < 2 ^ 63 -> form k c b.
Proof.
  intros Heq Hk Hc. unfold form. pose proof (zlen_nonneg c). destruct k.
  - left. destruct Hk as (x & -> & Hx). injection Heq as -> _. split_and!; try done. by exists x.
  - right. cbn [header] in *. rewrite encodeStringHeader_eq in *. destruct (zlen c <? 56) eqn:E; zbool.
    + left. apply small_header_first in Heq; [|lia..]. split_and!; try done; lia.
    + right; left. apply large_header_first in Heq; [|lia..]. split_and!; try done; lia.
  - do 3 right. cbn [header] in *. rewrite listhead_encode_eq in *. destruct (zlen c <? 56) eqn:E; zbool.
    + left. apply small_header_first in Heq; [|lia..]. split_and!; try done; lia.
    + right. apply large_header_first in Heq; [|lia..]. split_and!; try done; lia.
Qed.

Lemma ret_inj_iff {A} (a b : A) : Ret a = Ret b <-> a = b.
Proof. split; [by intros [= ->]|by intros ->]. Qed.

Lemma byte_iff b tail k ts cs :
  byte_val b < 0x80 -> zlen (b :: tail) < 2 ^ 63 ->
  checkKind (b :: tail) KByte 0 1 None = (k, ts, cs, None) <->
  k = KByte /\ exists c r, single c /\ b :: tail = c ++ r /\ ts = 0 /\ cs = zlen c.
Proof.
  intros Hb Hlen. rewrite zlen_cons in Hlen. pose proof (zlen_nonneg tail).
  rewrite checkKind_iff by (left; rewrite zlen_cons; unfold is_u64, two64; lia). rewrite zlen_cons. split.
  - intros (_ & -> & -> & -> & _). split; [done|]. exists [b], tail. split_and!; try done. by exists b.
  - intros (-> & c & r & Hs & Heq & -> & ->). rewrite (single_len c Hs). split_and!; try done. lia.
Qed.

(** The two directions of a case of [readKind_iff]. *)
Local Ltac back Hform :=
  let c := fresh in let r := fresh in let Heq := fresh in let Hk := fresh in let Hh := fresh in
  intros (c & r & Heq & Hk & -> & ->);
  destruct (Hform c r Heq Hk) as [(-> & Hh & ? & ?)|[(-> & Hh & ? & ? & ?)|[(-> & Hh & ? & ?)|
    [(-> & Hh & ? & ?)|(-> & Hh & ? & ?)]]]]; try (exfalso; lia);
  rewrite Hh in *; split; [done|]; exists c, r; by split_and!.
Local Ltac forth :=
  let c := fresh in let r := fresh in
  intros (-> & c & r & ?); exists c, r; cbn [header kind_ok];
  rewrite ?encodeStringHeader_eq, ?listhead_encode_eq;
  destruct_and!; repeat case_match; zbool; try (exfalso; lia); by split_and!.

(** [readKind] accepts exactly the canonical values. *)
Lemma readKind_iff buf k ts cs :
  zlen buf < 2 ^ 63 ->
  readKind buf = Ret (k, ts, cs, None) <->
  exists c r, buf = header k c ++ c ++ r /\ kind_ok k c /\ ts = zlen (header k c) /\ cs = zlen c.
Proof.
  intros Hlen. destruct buf as [|b tail].
  { split; [done|]. intros (c & r & Heq & Hk & _). destruct k; cbn in *.
    - by destruct Hk as (x & -> & _).
    - rewrite encodeStringHeader_eq in Heq. by destruct (_ <? 56).
    - rewrite listhead_encode_eq in Heq. by destruct (_ <? 56). }
  cbn [readKind]. cbv zeta. pose proof (byte_val_range b) as Hb.
  assert (forall c r, b :: tail = header k c ++ c ++ r -> kind_ok k c -> form k c b) as Hform.
  { intros c r Heq Hk. eapply header_form; [exact Heq|done|]. rewrite Heq, !zlen_app in Hlen.
    pose proof (zlen_nonneg (header k c)). pose proof (zlen_nonneg r). lia. }
  destruct (byte_val b <? 0x80) eqn:E1; zbool.
  { rewrite ret_inj_iff, byte_iff by done. split; [forth|back Hform]. }
  destruct (byte_val b <? 0xB8) eqn:E2; zbool.
  { rewrite small_string_iff by (done || lia). split; [forth|back Hform]. }
  destruct (byte_val b <? 0xC0) eqn:E3; zbool.
  { rewrite large_iff by (done || lia). split; [|back Hform].
    intros (-> & c & r & Hc & Hrest). exists c, r. cbn [header kind_ok].
    rewrite encodeStringHeader_eq, (proj2 (Z.ltb_ge _ _) Hc). destruct_and!. split_and!; try done. intros Hs%single_len. lia. }
  destruct (byte_val b <? 0xF8) eqn:E4; zbool.
  { rewrite ret_inj_iff, small_iff by (done || lia). split; [forth|back Hform]. }
  rewrite large_iff by (done || lia). split; [forth|back Hform].
Qed.

(** Every input is read or refused, never out of range. *)
Lemma readKind_ret buf : exists r, readKind buf = Ret r.
Proof.
  destruct buf as [|b tail]; [by eexists|]. cbn [readKind]. cbv zeta. pose proof (byte_val_range b).
  destruct (byte_val b <? 0x80) eqn:E1; [by eexists|].
  destruct (byte_val b <? 0xB8) eqn:E2.
  { rewrite short_single_eq. cbn [res_bind]. case_match; by eexists. }
  destruct (byte_val b <? 0xC0) eqn:E3; zbool.
  { destruct (readSize_ret tail (byte_val b - 0xB7)) as (s & err & -> & _); [lia|]. by eexists. }
  destruct (byte_val b <? 0xF8) eqn:E4; zbool; [by eexists|].
  destruct (readSize_ret tail (byte_val b - 0xF7)) as (s & err & -> & _); [lia|]. by eexists.
Qed.

(** ** Lemmas: splitting *)

Lemma Split_app k c r :
  zlen (header k c ++ c ++ r) < 2 ^ 63 -> kind_ok k c ->
  Split (header k c ++ c ++ r) = Ret (k, c, r, None).
Proof.
  intros Hlen Hk. unfold Split.
  rewrite (proj2 (readKind_iff _ k (zlen (header k c)) (zlen c) Hlen)) by by exists c, r.
  cbn [res_bind]. rewrite !zlen_app in Hlen.
  pose proof (zlen_nonneg (header k c)). pose proof (zlen_nonneg c). pose proof (zlen_nonneg r).
  rewrite u64_small by (unfold is_u64, two64; lia).
  rewrite go_slice_app. cbn [res_bind].
  pose proof (go_slice_app (header k c ++ c) r []) as Hs.
  rewrite app_nil_r, <- app_assoc, zlen_app in Hs. rewrite !zlen_app, Z.add_assoc, Hs. done.
Qed.

Lemma Split_inv b k c r :
  zlen b < 2 ^ 63 -> Split b = Ret (k, c, r, None) -> b = header k c ++ c ++ r /\ kind_ok k c.
Proof.
  intros Hlen Hs. unfold Split in Hs.
  destruct (readKind_ret b) as ([[[k' ts] cs] [err|]] & Hr); rewrite Hr in Hs; cbn [res_bind] in Hs; [done|].
  apply readKind_iff in Hr as (c' & r' & -> & Hk & -> & ->); [|done].
  pose proof (Split_app k' c' r' Hlen Hk) as Hs'. unfold Split in Hs'.
  rewrite (proj2 (readKind_iff _ k' (zlen (header k' c')) (zlen c') Hlen)) in Hs' by by exists c', r'.
  cbn [res_bind] in Hs'. rewrite Hs' in Hs. by injection Hs as -> -> ->.
Qed.

Lemma Split_ret b : zlen b < 2 ^ 63 -> exists r, Split b = Ret r.
Proof.
  intros Hlen. unfold Split. destruct (readKind_ret b) as ([[[k ts] cs] [err|]] & Hr).
  { rewrite Hr. by eexists. }
  pose proof Hr as Hr'. apply readKind_iff in Hr' as (c & r & -> & Hk & -> & ->); [|done].
  pose proof (Split_app k c r Hlen Hk) as Hs. unfold Split in Hs. eauto.
Qed.

(** ** Lemmas: strings and integers *)

#[export] Instance single_dec c : Decision (single c).
Proof.
  refine (match c with
          | [x] => if decide (byte_val x < 128) then left _ else right _
          | _ => right _
          end); unfold single; [by intros (? & ? & _)|by exists x| |by intros (? & ? & _)].
  by intros (y & [= <-] & Hy).
Defined.

Definition string_kind (b : list byte) : Kind := if decide (single b) then KByte else KString.

Lemma string_kind_ok b : kind_ok (string_kind b) b.
Proof. unfold string_kind. by case_decide. Qed.

Lemma writeBytes_header b : writeBytes b = header (string_kind b) b ++ b.
Proof.
  unfold string_kind. case_decide as Hs.
  - destruct Hs as (x & -> & Hx). cbn. by rewrite (proj2 (Z.leb_le (byte_val x) 0x7F)) by lia.
  - destruct b as [|x [|y b]]; try done. cbn [writeBytes header]. destruct (byte_val x <=? 0x7F) eqn:E; [|done].
    zbool. destruct Hs. exists x. split; [done|lia].
Qed.

Lemma SplitString_writeBytes_lem b rest :
  zlen (writeBytes b ++ rest) < 2 ^ 63 -> SplitString (writeBytes b ++ rest) = Ret (b, rest, None).
Proof.
  rewrite writeBytes_header, <- app_assoc. intros Hlen. unfold SplitString.
  rewrite Split_app by (done || apply string_kind_ok). cbn [res_bind].
  unfold string_kind. by case_decide.
Qed.

Lemma SplitString_inv b c rest :
  zlen b < 2 ^ 63 -> SplitString b = Ret (c, rest, None) -> b = writeBytes c ++ rest.
Proof.
  intros Hlen Hk. unfold SplitString in Hk.
  destruct (Split b) as [[[[k c'] r'] [e|]]| |] eqn:Hs; cbn [res_bind] in Hk; try discriminate Hk; [by destruct k|].
  apply Split_inv in Hs as [-> Hok]; [|done].
  rewrite writeBytes_header, <- app_assoc. unfold string_kind.
  destruct k; cbn in Hok; [| |done]; injection Hk as -> ->; by case_decide.
Qed.

(** Both integer writers put the content of [putint] as a string. *)
Definition int_content (i : Z) : list byte := if i =? 0 then [] else putint i.

Lemma writeBytes_long c :
  (2 <= length c)%nat -> zlen c < 56 -> writeBytes c = byte_of_Z (0x80 + zlen c) :: c.
Proof.
  intros H2 H56. destruct c as [|x [|y c]]; cbn [length] in H2; [lia..|]. cbn [writeBytes].
  unfold encodeStringHeader. by rewrite (proj2 (Z.ltb_lt _ _) H56).
Qed.

Lemma writeUint64_content i : is_u64 i -> writeUint64 i = writeBytes (int_content i).
Proof.
  intros Hi. unfold writeUint64, int_content. destruct (i =? 0) eqn:E0; [done|]. zbool.
  unfold is_u64, two64 in Hi. destruct (i <? 128) eqn:E1; zbool.
  - unfold putint. rewrite (proj2 (Z.ltb_lt i (2 ^ 8))) by lia. cbn [be_bytes writeBytes].
    change (256 ^ Z.of_nat 0) with 1. rewrite Z.div_1_r, byte_val_of_Z, Z.mod_small by lia.
    by rewrite (proj2 (Z.leb_le i 0x7F)) by lia.
  - destruct (Z.lt_ge_cases i 256) as [H256|H256].
    + unfold putint. rewrite (proj2 (Z.ltb_lt i (2 ^ 8))) by lia. cbn [be_bytes writeBytes].
      change (256 ^ Z.of_nat 0) with 1. rewrite Z.div_1_r, byte_val_of_Z, Z.mod_small by lia.
      by rewrite (proj2 (Z.leb_gt i 0x7F)) by lia.
    + pose proof (length_putint_range i Hi). rewrite writeBytes_long; [done| |lia].
      pose proof (putint_be_value i Hi) as Hv. pose proof (be_value_bound (putint i)) as Hb.
      rewrite Hv in Hb. unfold zlen in *. destruct (length (putint i)) as [|[|n]]; cbn in *; lia.
Qed.

Lemma AppendUint64_write i : is_u64 i -> AppendUint64 i = writeUint64 i.
Proof.
  intros Hi. unfold AppendUint64, writeUint64, putint. repeat case_match; done.
Qed.

Lemma int_content_canonical c :
  zlen c <= 8 -> (forall b, head c = Some b -> byte_val b <> 0) -> int_content (be_value c) = c.
Proof.
  intros Hlen Hhd. unfold int_content. destruct c as [|b c]; [done|].
  rewrite putint_canonical; [|rewrite zlen_cons in *; pose proof (zlen_nonneg c); lia|done].
  destruct (be_value (b :: c) =? 0) eqn:E; [|done]. zbool. exfalso.
  rewrite be_value_cons in E. specialize (Hhd b eq_refl). pose proof (byte_val_range b).
  pose proof (be_value_bound c). pose proof (zlen_nonneg c). assert (0 < 256 ^ zlen c) by (apply Z.pow_pos_nonneg; lia). nia.
Qed.

Lemma SplitUint64_content_ok c i :
  is_u64 i -> c = int_content i ->
  match c with
  | [] => i = 0
  | [x] => byte_val x = i /\ i <> 0
  | _ => zlen c <= 8 /\ readSize c (zlen c) = Ret (i, None)
  end.
Proof.
  unfold int_content. intros Hi ->. destruct (i =? 0) eqn:E; zbool; [done|].
  pose proof (length_putint_range i Hi) as Hl. pose proof (putint_be_value i Hi) as Hv.
  destruct (putint i) as [|x [|y c]] eqn:Hp; [done| |].
  - unfold be_value in Hv. cbn in Hv. lia.
  - split; [lia|]. apply readSize_iff; [lia|done|]. rewrite Hp. split; [|by exists []; rewrite app_nil_r].
    assert (byte_val x <> 0) as Hx by (apply (putint_head i); [done|unfold is_u64 in Hi; lia|by rewrite Hp]).
    rewrite be_value_cons in Hv. pose proof (byte_val_range x). pose proof (be_value_bound (y :: c)).
    assert (256 ^ 1 <= 256 ^ zlen (y :: c)); [|lia || nia].
    apply Z.pow_le_mono_r; [lia|]. rewrite zlen_cons. pose proof (zlen_nonneg c). lia.
Qed.

Lemma SplitUint64_unfold b c rest :
  SplitString b = Ret (c, rest, None) ->
  SplitUint64 b =
    match c with
    | [] => Ret (0, rest, None)
    | [x] => if byte_val x =? 0 then Ret (0, b, Some ErrCanonInt) else Ret (byte_val x, rest, None)
    | _ => if zlen c >? 8 then Ret (0, b, Some errUintOverflow)
           else let? r := readSize c (zlen c) in
                match r with (_, Some _) => Ret (0, b, Some ErrCanonInt) | (x, None) => Ret (x, rest, None) end
    end.
Proof. intros H. unfold SplitUint64. by rewrite H. Qed.

Lemma SplitUint64_write i rest :
  is_u64 i -> zlen (writeUint64 i ++ rest) < 2 ^ 63 ->
  SplitUint64 (writeUint64 i ++ rest) = Ret (i, rest, None).
Proof.
  intros Hi Hlen. rewrite writeUint64_content in * by done.
  erewrite SplitUint64_unfold by by apply SplitString_writeBytes_lem.
  pose proof (SplitUint64_content_ok (int_content i) i Hi eq_refl) as Hc.
  destruct (int_content i) as [|x [|y c]].
  - by rewrite Hc.
  - destruct Hc as [Hx Hnz]. rewrite Hx. by rewrite (proj2 (Z.eqb_neq i 0)).
  - destruct Hc as [Hc ->]. by rewrite Z.gtb_ltb, (proj2 (Z.ltb_ge _ _) Hc).
Qed.

Lemma SplitUint64_inv b i rest :
  zlen b < 2 ^ 63 -> SplitUint64 b = Ret (i, rest, None) -> is_u64 i /\ b = writeUint64 i ++ rest.
Proof.
  intros Hlen Hs. destruct (SplitString b) as [[[c r] [e|]]| |] eqn:Hss;
    try (unfold SplitUint64 in Hs; rewrite Hss in Hs; discriminate Hs).
  rewrite (SplitUint64_unfold b c r Hss) in Hs. apply SplitString_inv in Hss as ->; [|done].
  destruct c as [|x [|y c]].
  - injection Hs as <- <-. by split.
  - destruct (byte_val x =? 0) eqn:E; [discriminate Hs|]. zbool. injection Hs as <- <-.
    pose proof (byte_val_range x) as Hx. assert (is_u64 (byte_val x)) as Hi by (unfold is_u64, two64; lia).
    split; [done|]. rewrite writeUint64_content by done. unfold int_content, putint.
    rewrite (proj2 (Z.eqb_neq _ 0)), (proj2 (Z.ltb_lt _ (2 ^ 8))) by lia. cbn [be_bytes].
    change (256 ^ Z.of_nat 0) with 1. by rewrite Z.div_1_r, byte_of_Z_val.
  - destruct (zlen (x :: y :: c) >? 8) eqn:E; [discriminate Hs|]. zbool.
    assert (2 <= zlen (x :: y :: c)) as H2 by (rewrite !zlen_cons; pose proof (zlen_nonneg c); lia).
    destruct (readSize_ret (x :: y :: c) (zlen (x :: y :: c))) as (s & err & Hr & Hi); [lia|].
    rewrite Hr in Hs. cbn [res_bind] in Hs. destruct err; [discriminate Hs|]. injection Hs as <- <-.
    apply readSize_iff in Hr as (H56 & l & Heq & Hl); [|lia|done].
    split; [done|]. rewrite writeUint64_content by done. unfold int_content.
    rewrite (proj2 (Z.eqb_neq s 0)) by lia.
    assert (l = []) as ->; [|by rewrite Heq, app_nil_r].
    rewrite Heq, zlen_app in Hl. destruct l; [done|]. rewrite zlen_cons in Hl. pose proof (zlen_nonneg l). lia.
Qed.

(** ** Lemmas: sizes *)

Lemma intsize_range i n :
  0 <= n < 8 -> 256 ^ n <= i < 256 ^ (n + 1) -> intsize i = n + 1.
Proof.
  intros Hn Hi. unfold intsize.
  assert (forall k j s, (1 <= k)%nat -> 0 <= j -> j < Z.of_nat k ->
    forall i, 256 ^ j <= i < 256 ^ (j + 1) -> intsize_loop k i s = s + j) as H.
  { induction k as [|k IH]; intros j s Hk Hj Hjk x Hx; [lia|]. cbn [intsize_loop]. cbv zeta.
    rewrite Z.shiftr_div_pow2 by lia. change (2 ^ 8) with 256.
    destruct (Z.eq_dec j 0) as [->|Hj0].
    - rewrite Z.div_small by (change (256 ^ (0 + 1)) with 256 in Hx; lia). cbn. lia.
    - assert (256 ^ (j - 1) <= x / 256 < 256 ^ (j - 1 + 1)) as Hd.
      { replace (256 ^ (j + 1)) with (256 * 256 ^ j) in Hx by (rewrite Z.pow_add_r by lia; lia).
        replace (256 ^ j) with (256 * 256 ^ (j - 1)) in Hx at 1
          by (rewrite <- Z.pow_succ_r by lia; f_equal; lia).
        replace (j - 1 + 1) with j by lia. split; [apply Z.div_le_lower_bound; lia|].
        apply Z.div_lt_upper_bound; lia. }
      assert (0 < 256 ^ (j - 1)) by (apply Z.pow_pos_nonneg; lia).
      rewrite (proj2 (Z.eqb_neq _ 0)) by lia. rewrite (IH (j - 1)); [lia|lia|lia|lia|done]. }
  rewrite (H 8%nat n); lia.
Qed.

Lemma putint_intsize i : 0 < i < two64 -> zlen (putint i) = intsize i.
Proof.
  intros Hi. pose proof (length_putint_range i ltac:(lia)) as Hl.
  rewrite (intsize_range i (zlen (putint i) - 1)); [lia|lia|].
  pose proof (putint_be_value i ltac:(lia)) as Hv. pose proof (be_value_bound (putint i)) as Hb.
  pose proof (putint_head i) as Hh.
  destruct (putint i) as [|b l]; [unfold zlen in Hl; cbn in Hl; lia|]. specialize (Hh b ltac:(unfold is_u64; lia) ltac:(lia) eq_refl).
  rewrite Hv in Hb. replace (zlen (b :: l) - 1 + 1) with (zlen (b :: l)) by lia. split; [|lia]. clear Hb.
  rewrite be_value_cons in Hv. rewrite zlen_cons. replace (zlen l + 1 - 1) with (zlen l) by lia.
  pose proof (be_value_bound l). pose proof (byte_val_range b). nia.
Qed.

Lemma length_encodeStringHeader n : 0 <= n < two64 -> zlen (encodeStringHeader n) = headsize n.
Proof.
  intros Hn. unfold encodeStringHeader, headsize. destruct (n <? 56) eqn:E; [done|]. zbool.
  cbv zeta. rewrite zlen_cons, putint_intsize by lia. lia.
Qed.

Lemma length_listhead_encode n : 0 <= n < two64 -> zlen (listhead_encode n) = headsize n.
Proof.
  intros Hn. unfold listhead_encode, puthead, headsize. destruct (n <? 56) eqn:E; [done|]. zbool.
  cbv zeta. rewrite zlen_cons, putint_intsize by lia. lia.
Qed.

(** ** Theorems *)

(** C37: Splitting accepts exactly the canonical encodings: the content has the
    one header of its kind and length, a single byte below 128 has none, and
    the rest of the input is returned. *)
Theorem Split_canonical b k c rest :
  zlen b < 2 ^ 63 ->
  Split b = Ret (k, c, rest, None) <-> b = header k c ++ c ++ rest /\ kind_ok k c.
Proof.
  intros Hlen. split; [by apply Split_inv|]. intros [-> Hk]. by apply Split_app.
Qed.

(** Decoding an encoded byte string gives back the string and what follows. *)
Theorem SplitString_writeBytes b rest :
  zlen (writeBytes b ++ rest) < 2 ^ 63 ->
  SplitString (writeBytes b ++ rest) = Ret (b, rest, None).
Proof. apply SplitString_writeBytes_lem. Qed.

(** Integers: what [AppendUint64] and [writeUint64] write is the only input
    [SplitUint64] reads the integer from. *)
Theorem SplitUint64_AppendUint64 b i rest :
  zlen b < 2 ^ 63 ->
  SplitUint64 b = Ret (i, rest, None) <->
  is_u64 i /\ b = AppendUint64 i ++ rest /\ AppendUint64 i = writeUint64 i.
Proof.
  intros Hlen. split.
  - intros Hs. apply SplitUint64_inv in Hs as [Hi ->]; [|done]. by rewrite AppendUint64_write.
  - intros (Hi & -> & Hw). rewrite Hw in *. by apply SplitUint64_write.
Qed.

(** The announced sizes are the sizes of the encodings. *)
Theorem encoded_sizes b i :
  zlen b < 2 ^ 63 -> is_u64 i ->
  BytesSize b = zlen (writeBytes b) /\ IntSize i = zlen (writeUint64 i) /\
  headsize i = zlen (listhead_encode i).
Proof.
  intros Hb Hi. split_and!.
  - rewrite writeBytes_header. unfold string_kind, BytesSize. case_decide as Hs.
    + destruct Hs as (x & -> & Hx). by rewrite (proj2 (Z.leb_le _ _)) by lia.
    + cbn [header]. rewrite zlen_app. pose proof (zlen_nonneg b).
      rewrite length_encodeStringHeader by (unfold two64; lia).
      destruct b as [|x [|y b]]; [done| |done]. destruct (byte_val x <=? 0x7F) eqn:E; [|done].
      zbool. destruct Hs. exists x. split; [done|lia].
  - unfold IntSize, writeUint64. destruct (i =? 0) eqn:E0; zbool; [by subst|].
    destruct (i <? 128) eqn:E1; [done|]. zbool. cbv zeta.
    rewrite zlen_cons, putint_intsize by (unfold is_u64 in Hi; lia). lia.
  - by rewrite length_listhead_encode.
Qed.
