(* ===== verification/Crypto.v ===== *)
(** * Hashing and contract addresses (client/crypto/crypto.go)

    Keccak-256 is computed by golang.org/x/crypto/sha3 and is a parameter.  The
    addresses of created contracts are hashes of an RLP list (of the creator and
    its nonce) or of a fixed-width message (CREATE2). *)

From Stdlib Require Import Strings.Byte.
From S2P Require Import Prelude.
From S2P Require Import Common.
From S2P Require Import Rlp.

Class Keccak : Type := { keccak256 : list byte -> Hash }.

(** The idealisation a content-addressed cache relies on: no two programs have
    the same hash, and no hash is zero. *)
Class KeccakLaws (K : Keccak) : Prop := {
  keccak256_inj c1 c2 : keccak256 c1 = keccak256 c2 -> c1 = c2;
  keccak256_nonzero c : keccak256 c <> 0
}.

(** [common.BytesToAddress(h[12:])]: the low 20 bytes of a hash. *)
Definition hash_to_address (h : Hash) : Address := h mod 2 ^ 160.

Section crypto.
Context {K : Keccak}.

Definition CreateAddress (b : Address) (nonce : Z) : Address :=
  let content := writeBytes (address_bytes b) ++ writeUint64 nonce in
  hash_to_address (keccak256 (puthead 0xC0 0xF7 (zlen content) ++ content)).

Definition CreateAddress2 (b : Address) (salt : Hash) (inithash : list byte) : Address :=
  hash_to_address (keccak256 (Byte.xff :: address_bytes b ++ hash_bytes salt ++ inithash)).

(** client/core/vm/evm.go [emptyCodeHash]. *)
Definition emptyCodeHash : Hash := keccak256 [].
End crypto.
