(* ===== verification/Header.v ===== *)
(** * Block headers (client/core/types/block.go)

    The header as the consensus rules and the EVM read it.  The integers a
    decoded header always has ([Difficulty], [Number]) are plain; the fields a
    legacy header lacks are optional. *)

From S2P Require Import Prelude.
From S2P Require Import Common.

Record Header : Type := mkHeader {
  hdr_ParentHash : Hash;
  hdr_UncleHash : Hash;
  hdr_Coinbase : Address;
  hdr_Root : Hash;
  hdr_TxHash : Hash;
  hdr_ReceiptHash : Hash;
  hdr_Bloom : list byte;
  hdr_Difficulty : Z;
  hdr_Number : Z;
  hdr_GasLimit : Z;
  hdr_GasUsed : Z;
  hdr_Time : Z;
  hdr_Extra : list byte;
  hdr_MixDigest : Hash;
  hdr_Nonce : Z;
  hdr_BaseFee : option Z;
  hdr_WithdrawalsHash : option Hash;
  hdr_ExcessDataGas : option Z
}.
