(* ===== verification/StateObject.v ===== *)
(** * State objects, access list and transient storage (client/core/state)

    The data of the state database: accounts in use (state_object.go), the
    access list of a transaction (access_list.go), transient storage
    (transient_storage.go) and the entries of the journal (journal.go).

    The tries and the code store below are the Go interfaces [Trie] and
    [Database] of database.go; the class [Database] lists the reads the state
    database makes.  Snapshots of the trie and the prefetcher are not modelled
    ([snap] and [prefetcher] are nil), they only speed reading up. *)

From Stdlib Require Import Strings.Byte.
From S2P Require Import Prelude.
From S2P Require Import Common.
From S2P Require Import Rlp.
From S2P Require Import Crypto.

(** ** Accounts *)

(** client/core/types/state_account.go; a nil balance or code hash is [None]. *)
Record StateAccount : Type := mkStateAccount {
  acc_Nonce : Z;
  acc_Balance : option Z;
  acc_Root : Hash;
  acc_CodeHash : option Hash
}.

(** client/core/types/hashes.go. *)
Definition EmptyRootHash : Hash := 0x56e81f171bcc55a6ff8345e692c0f86e5b48e01b996cadc001622fb5e363b421.

Abbreviation Storage := (gmap Hash Hash) (only parsing).

(** A [stateObject] without its address (the key it is stored under), the
    back pointer and the handle of the storage trie.  An empty [code] is one
    that has not been loaded: no stored code is empty. *)
Record stateObject : Type := mkObject {
  so_Nonce : Z;
  so_Balance : Z;
  so_Root : Hash;
  so_CodeHash : Hash;
  so_code : list byte;
  originStorage : Storage;
  pendingStorage : Storage;
  dirtyStorage : Storage;
  dirtyCode : bool;
  suicided : bool;
  deleted : bool
}.

Definition so_setBalance (amount : Z) (o : stateObject) : stateObject :=
  mkObject (so_Nonce o) amount (so_Root o) (so_CodeHash o) (so_code o) (originStorage o)
    (pendingStorage o) (dirtyStorage o) (dirtyCode o) (suicided o) (deleted o).

Definition so_setNonce (nonce : Z) (o : stateObject) : stateObject :=
  mkObject nonce (so_Balance o) (so_Root o) (so_CodeHash o) (so_code o) (originStorage o)
    (pendingStorage o) (dirtyStorage o) (dirtyCode o) (suicided o) (deleted o).

Definition so_setCode (codeHash : Hash) (code : list byte) (o : stateObject) : stateObject :=
  mkObject (so_Nonce o) (so_Balance o) (so_Root o) codeHash code (originStorage o)
    (pendingStorage o) (dirtyStorage o) true (suicided o) (deleted o).

Definition so_setState (key value : Hash) (o : stateObject) : stateObject :=
  mkObject (so_Nonce o) (so_Balance o) (so_Root o) (so_CodeHash o) (so_code o) (originStorage o)
    (pendingStorage o) (<[key := value]> (dirtyStorage o)) (dirtyCode o) (suicided o) (deleted o).

Definition so_setSuicided (b : bool) (o : stateObject) : stateObject :=
  mkObject (so_Nonce o) (so_Balance o) (so_Root o) (so_CodeHash o) (so_code o) (originStorage o)
    (pendingStorage o) (dirtyStorage o) (dirtyCode o) b (deleted o).

Definition so_markSuicided : stateObject -> stateObject := so_setSuicided true.

Definition so_setDeleted (o : stateObject) : stateObject :=
  mkObject (so_Nonce o) (so_Balance o) (so_Root o) (so_CodeHash o) (so_code o) (originStorage o)
    (pendingStorage o) (dirtyStorage o) (dirtyCode o) (suicided o) true.

(** The assignments [s.code = code] and [s.originStorage[key] = value] of the
    reading methods. *)
Definition so_cacheCode (code : list byte) (o : stateObject) : stateObject :=
  mkObject (so_Nonce o) (so_Balance o) (so_Root o) (so_CodeHash o) code (originStorage o)
    (pendingStorage o) (dirtyStorage o) (dirtyCode o) (suicided o) (deleted o).

Definition so_cacheState (key value : Hash) (o : stateObject) : stateObject :=
  mkObject (so_Nonce o) (so_Balance o) (so_Root o) (so_CodeHash o) (so_code o)
    (<[key := value]> (originStorage o))
    (pendingStorage o) (dirtyStorage o) (dirtyCode o) (suicided o) (deleted o).

(** [finalise]: the dirty slots become pending ones. *)
Definition so_finalise (o : stateObject) : stateObject :=
  mkObject (so_Nonce o) (so_Balance o) (so_Root o) (so_CodeHash o) (so_code o) (originStorage o)
    (dirtyStorage o ∪ pendingStorage o) ∅ (dirtyCode o) (suicided o) (deleted o).

Definition newObject {K : Keccak} (data : StateAccount) : stateObject :=
  mkObject (acc_Nonce data)
    (match acc_Balance data with Some b => b | None => 0 end)
    (if acc_Root data =? 0 then EmptyRootHash else acc_Root data)
    (match acc_CodeHash data with Some h => h | None => emptyCodeHash end)
    [] ∅ ∅ ∅ false false false.

Definition so_empty {K : Keccak} (o : stateObject) : bool :=
  (so_Nonce o =? 0) && (so_Balance o =? 0) && (so_CodeHash o =? emptyCodeHash).

(** ** What is read from below *)

(** [None] is an error.  [GetStorage] opens the storage trie of the account
    with the given root and reads the encoded value. *)
Class Database : Type := {
  GetAccount : Address -> option (option StateAccount);
  GetStorage : Address -> Hash -> Hash -> option (list byte);
  ContractCode : Hash -> Hash -> option (list byte);
  ContractCodeSize : Hash -> Hash -> option Z
}.

(** Nonces are 64-bit numbers, balances are not negative, the trie with the empty root is empty, code is
    stored under its hash, and byte strings have a length a machine can address. *)
Class DatabaseLaws {K : Keccak} (B : Database) : Prop := {
  GetAccount_nonce a acc : GetAccount a = Some (Some acc) -> is_u64 (acc_Nonce acc);
  GetAccount_balance a acc b : GetAccount a = Some (Some acc) -> acc_Balance acc = Some b -> 0 <= b;
  GetStorage_empty a k : GetStorage a EmptyRootHash k = Some [];
  GetStorage_length a r k enc : GetStorage a r k = Some enc -> zlen enc < 2 ^ 63;
  ContractCode_hash ah h c : ContractCode ah h = Some c -> keccak256 c = h;
  ContractCode_length ah h c : ContractCode ah h = Some c -> zlen c < 2 ^ 60
}.

(** ** The access list *)

Record accessList : Type := mkAccessList {
  addresses : gmap Address Z;
  slots : list (gset Hash)
}.

Definition newAccessList : accessList := mkAccessList ∅ [].

Definition ContainsAddress (al : accessList) (address : Address) : bool :=
  match addresses al !! address with Some _ => true | None => false end.

Definition Contains (al : accessList) (address : Address) (slot : Hash) : Res (bool * bool) :=
  match addresses al !! address with
  | None => Ret (false, false)
  | Some idx =>
      if idx =? -1 then Ret (true, false)
      else let? m := go_index (slots al) idx in Ret (true, bool_decide (slot ∈ m))
  end.

Definition AddAddress (address : Address) : GM accessList bool :=
  fun al =>
    match addresses al !! address with
    | Some _ => Ret (false, al)
    | None => Ret (true, mkAccessList (<[address := -1]> (addresses al)) (slots al))
    end.

Definition AddSlot (address : Address) (slot : Hash) : GM accessList (bool * bool) :=
  fun al =>
    let add (addrPresent : bool) :=
      Ret ((negb addrPresent, true),
           mkAccessList (<[address := zlen (slots al)]> (addresses al)) (slots al ++ [{[slot]}])) in
    match addresses al !! address with
    | None => add false
    | Some idx =>
        if idx =? -1 then add true
        else
          let? slotmap := go_index (slots al) idx in
          if bool_decide (slot ∈ slotmap) then Ret ((false, false), al)
          else
            let? slots' := go_update (slots al) idx ({[slot]} ∪ slotmap) in
            Ret ((false, true), mkAccessList (addresses al) slots')
    end.

Definition DeleteSlot (address : Address) (slot : Hash) : GM accessList unit :=
  fun al =>
    match addresses al !! address with
    | None => Panic PanicAccessList
    | Some idx =>
        let? slotmap := go_index (slots al) idx in
        let slotmap := slotmap ∖ {[slot]} in
        if bool_decide (slotmap = ∅) then
          let? slots' := go_slice (slots al) 0 idx in
          Ret (tt, mkAccessList (<[address := -1]> (addresses al)) slots')
        else
          let? slots' := go_update (slots al) idx slotmap in
          Ret (tt, mkAccessList (addresses al) slots')
    end.

Definition DeleteAddress (address : Address) : GM accessList unit :=
  gput (fun al => mkAccessList (delete address (addresses al)) (slots al)).

(** ** Transient storage *)

Abbreviation transientStorage := (gmap Address Storage) (only parsing).

Definition transient_Set (addr : Address) (key value : Hash) (t : transientStorage) : transientStorage :=
  <[addr := <[key := value]> (default ∅ (t !! addr))]> t.

Definition transient_Get (t : transientStorage) (addr : Address) (key : Hash) : Hash :=
  match t !! addr with
  | None => 0
  | Some s => default 0 (s !! key)
  end.

(** ** Journal entries *)

Inductive journalEntry : Type :=
| createObjectChange (account : Address)
| resetObjectChange (account : Address) (prev : stateObject) (prevdestruct : bool)
| suicideChange (account : Address) (prev : bool) (prevbalance : Z)
| balanceChange (account : Address) (prev : Z)
| nonceChange (account : Address) (prev : Z)
| storageChange (account : Address) (key prevalue : Hash)
| codeChange (account : Address) (prevcode : list byte) (prevhash : Hash)
| refundChange (prev : Z)
| addLogChange (txhash : Hash)
| addPreimageChange (hash : Hash)
| touchChange (account : Address)
| accessListAddAccountChange (address : Address)
| accessListAddSlotChange (address : Address) (slot : Hash)
| transientStorageChange (account : Address) (key prevalue : Hash).

Definition dirtied (e : journalEntry) : option Address :=
  match e with
  | createObjectChange a | suicideChange a _ _ | balanceChange a _ | nonceChange a _
  | storageChange a _ _ | codeChange a _ _ | touchChange a => Some a
  | _ => None
  end.

(** ** Lemmas: the access list *)

(** Every address has no slots (-1) or a non-empty slot map of its own. *)
Record access_ok (al : accessList) : Prop := {
  access_index a i : addresses al !! a = Some i -> i = -1 \/ 0 <= i < zlen (slots al);
  access_nonempty m : m ∈ slots al -> m <> ∅;
  access_own a b i : addresses al !! a = Some i -> addresses al !! b = Some i -> i <> -1 -> a = b
}.

Lemma newAccessList_ok : access_ok newAccessList.
Proof.
  split; cbn; [intros a i; by rewrite lookup_empty|by intros m Hm%elem_of_nil|].
  intros a b i. by rewrite lookup_empty.
Qed.

Lemma AddAddress_spec a al :
  AddAddress a al =
    if ContainsAddress al a then Ret (false, al)
    else Ret (true, mkAccessList (<[a := -1]> (addresses al)) (slots al)).
Proof. unfold AddAddress, ContainsAddress. by destruct (addresses al !! a). Qed.

Lemma AddAddress_access_ok a al :
  access_ok al -> access_ok (mkAccessList (<[a := -1]> (addresses al)) (slots al)).
Proof.
  intros [H1 H2 H3]. split; cbn; [|done|].
  - intros b i. rewrite lookup_insert_Some. intros [[_ <-]|[_ ?]]; [by left|eauto].
  - intros b c i. rewrite !lookup_insert_Some. intros [[_ <-]|[_ ?]] [[_ ?]|[_ ?]]; try done; eauto; congruence.
Qed.

Lemma Contains_ok al a k :
  access_ok al -> exists b, Contains al a k = Ret (ContainsAddress al a, b).
Proof.
  intros [H1 _ _]. unfold Contains, ContainsAddress.
  destruct (addresses al !! a) as [i|] eqn:E; [|by eexists].
  destruct (i =? -1) eqn:Ei; [by eexists|]. zbool. destruct (H1 a i E) as [|Hi]; [done|].
  destruct (go_index_ok (slots al) i Hi) as (m & -> & _). by eexists.
Qed.

(** The list before the last [AddSlot], given whether it added the address. *)
Definition before_slot (addrChange : bool) (a : Address) (al : accessList) : accessList :=
  if addrChange then mkAccessList (<[a := -1]> (addresses al)) (slots al) else al.

Lemma before_slot_delete a al :
  ContainsAddress al a = false -> DeleteAddress a (before_slot true a al) = Ret (tt, al).
Proof.
  unfold ContainsAddress, DeleteAddress, gput. destruct (addresses al !! a) eqn:E; [done|]. intros _.
  cbn. rewrite delete_insert_id by done. by destruct al.
Qed.

(** A new slot map at the end is taken away again. *)
Lemma DeleteSlot_last a k al adds :
  DeleteSlot a k (mkAccessList (<[a := zlen (slots al)]> adds) (slots al ++ [{[k]}])) =
    Ret (tt, mkAccessList (<[a := -1]> adds) (slots al)).
Proof.
  unfold DeleteSlot. cbn [addresses slots]. rewrite lookup_insert_eq. pose proof (zlen_nonneg (slots al)).
  destruct (go_index_ok (slots al ++ [{[k]}]) (zlen (slots al))) as (m & -> & Hm);
    [rewrite zlen_snoc; lia|].
  unfold zlen in Hm. rewrite Nat2Z.id, lookup_app_r, Nat.sub_diag in Hm by done. injection Hm as <-.
  cbn [res_bind]. rewrite bool_decide_true by set_solver. rewrite insert_insert_eq.
  pose proof (go_slice_app [] (slots al) [{[k]}]) as Hs. cbn [app] in Hs.
  change (zlen (@nil (gset Hash)) + zlen (slots al)) with (zlen (slots al)) in Hs.
  change (zlen (@nil (gset Hash))) with 0 in Hs. by rewrite Hs.
Qed.

(** A slot added to a map is deleted from it. *)
Lemma DeleteSlot_same a k al i m :
  addresses al !! a = Some i -> 0 <= i < zlen (slots al) -> slots al !! Z.to_nat i = Some m ->
  m <> ∅ -> k ∉ m ->
  DeleteSlot a k (mkAccessList (addresses al) (<[Z.to_nat i := {[k]} ∪ m]> (slots al))) = Ret (tt, al).
Proof.
  intros Ha Hi Hm Hne Hk. unfold DeleteSlot. cbn [addresses slots]. rewrite Ha.
  assert (zlen (<[Z.to_nat i := {[k]} ∪ m]> (slots al)) = zlen (slots al)) as Hlen
    by (unfold zlen; by rewrite length_insert).
  destruct (go_index_ok (<[Z.to_nat i := {[k]} ∪ m]> (slots al)) i) as (m' & -> & Hm'); [by rewrite Hlen|].
  rewrite list_lookup_insert_eq in Hm' by (unfold zlen in *; lia). injection Hm' as <-. cbn [res_bind].
  assert (({[k]} ∪ m) ∖ {[k]} = m) as -> by set_solver.
  rewrite bool_decide_false by done. rewrite go_update_ok by (by rewrite Hlen). cbn [res_bind].
  rewrite list_insert_insert_eq, list_insert_id by done. by destruct al.
Qed.

(** [AddSlot] keeps the addresses, and undoing what it reports undoes it. *)
Lemma AddSlot_ok a k al :
  access_ok al ->
  exists ac sc al', AddSlot a k al = Ret ((ac, sc), al') /\ access_ok al' /\
    (forall b, ContainsAddress al b = true -> ContainsAddress al' b = true) /\
    (ac = true -> ContainsAddress al a = false /\ sc = true) /\
    (if sc : bool then DeleteSlot a k al' = Ret (tt, before_slot ac a al) else al' = al).
Proof.
  intros [H1 H2 H3]. unfold AddSlot.
  assert (access_ok (mkAccessList (<[a := zlen (slots al)]> (addresses al)) (slots al ++ [{[k]}]))) as Hadd.
  { split; cbn.
    - intros b i. rewrite zlen_snoc. pose proof (zlen_nonneg (slots al)).
      rewrite lookup_insert_Some. intros [[_ <-]|[_ Hi]]; [lia|]. specialize (H1 b i Hi). lia.
    - intros m. rewrite elem_of_app, list_elem_of_singleton. intros [?| ->]; [by apply H2|set_solver].
    - intros b c i. rewrite !lookup_insert_Some. pose proof (zlen_nonneg (slots al)).
      intros [[? <-]|[? Hb]] [[? Hi]|[? Hc]] Hne; [congruence| | |by eapply H3].
      + specialize (H1 c _ Hc). lia.
      + subst i. specialize (H1 b _ Hb). lia. }
  assert (forall b, ContainsAddress al b = true ->
    ContainsAddress (mkAccessList (<[a := zlen (slots al)]> (addresses al)) (slots al ++ [{[k]}])) b = true) as Hc.
  { intros b. unfold ContainsAddress. cbn. destruct (decide (a = b)) as [->|].
    - by rewrite lookup_insert_eq.
    - by rewrite lookup_insert_ne. }
  destruct (addresses al !! a) as [i|] eqn:E.
  - destruct (i =? -1) eqn:Ei; zbool.
    + subst i. eexists false, true, _. split_and!; try done. rewrite DeleteSlot_last. cbn.
      rewrite insert_id by done. by destruct al.
    + destruct (H1 a i E) as [|Hi]; [done|]. destruct (go_index_ok (slots al) i Hi) as (m & -> & Hm). cbn [res_bind].
      case_bool_decide as Hk; [by eexists false, false, al|].
      rewrite go_update_ok by done. cbn [res_bind]. eexists false, true, _. split_and!; try done.
      * split; cbn; [intros b j; unfold zlen; rewrite length_insert; apply H1| |apply H3].
        intros m' [j Hj]%list_elem_of_lookup. apply list_lookup_insert_Some in Hj as [(_ & <- & _)|[_ Hj]]; [set_solver|].
        by eapply H2, list_elem_of_lookup_2.
      * cbn. apply (DeleteSlot_same a k al i m); try done. by eapply H2, list_elem_of_lookup_2.
  - eexists true, true, _. split_and!; try done.
    + intros _. unfold ContainsAddress. by rewrite E.
    + apply DeleteSlot_last.
Qed.

(** ** Lemmas: transient storage *)

Lemma transient_Get_Set t a k v b j :
  transient_Get (transient_Set a k v t) b j =
    if decide (a = b /\ k = j) then v else transient_Get t b j.
Proof.
  unfold transient_Get, transient_Set. destruct (decide (a = b)) as [<-|Ha].
  - rewrite lookup_insert_eq. destruct (decide (k = j)) as [<-|Hk].
    + rewrite lookup_insert_eq. by rewrite decide_True.
    + rewrite lookup_insert_ne by done. rewrite decide_False by (by intros [? ?]).
      destruct (t !! a); [done|]. cbn. by rewrite lookup_empty.
  - rewrite lookup_insert_ne by done. by rewrite decide_False by (by intros [? ?]).
Qed.

(** The slots of an address. *)
Definition slots_of (al : accessList) (a : Address) : gset Hash :=
  match addresses al !! a with
  | Some i => if i =? -1 then ∅ else default ∅ (slots al !! Z.to_nat i)
  | None => ∅
  end.

Lemma Contains_slots_of al a k :
  access_ok al -> Contains al a k = Ret (ContainsAddress al a, bool_decide (k ∈ slots_of al a)).
Proof.
  intros [H1 _ _]. unfold Contains, ContainsAddress, slots_of.
  destruct (addresses al !! a) as [i|] eqn:E; [|by rewrite bool_decide_false by set_solver].
  destruct (i =? -1) eqn:Ei; [by rewrite bool_decide_false by set_solver|]. zbool.
  destruct (H1 a i E) as [|Hi]; [done|]. destruct (go_index_ok (slots al) i Hi) as (m & -> & Hm). cbn. by rewrite Hm.
Qed.

Lemma AddSlot_slots a k al ac sc al' :
  access_ok al -> AddSlot a k al = Ret ((ac, sc), al') ->
  forall b, slots_of al' b = if decide (b = a) then {[k]} ∪ slots_of al a else slots_of al b.
Proof.
  intros Hok. pose proof Hok as [H1 H2 H3]. unfold AddSlot.
  assert (forall b i, b <> a -> addresses al !! b = Some i -> i <> -1 ->
    (slots al ++ [{[k]}]) !! Z.to_nat i = slots al !! Z.to_nat i) as Happ.
  { intros b i _ Hb Hi. destruct (H1 b i Hb) as [|Hi']; [done|]. apply lookup_app_l. unfold zlen in *. lia. }
  assert (slots_of al a = ∅ -> forall b,
    slots_of (mkAccessList (<[a := zlen (slots al)]> (addresses al)) (slots al ++ [{[k]}])) b =
    if decide (b = a) then {[k]} ∪ slots_of al a else slots_of al b) as Hnew.
  { intros He b. unfold slots_of at 1. cbn [addresses slots]. case_decide as Hb.
    - subst b. rewrite lookup_insert_eq, He. rewrite (proj2 (Z.eqb_neq _ _)) by (pose proof (zlen_nonneg (slots al)); lia).
      unfold zlen. rewrite Nat2Z.id, list_lookup_middle by done. set_solver.
    - rewrite lookup_insert_ne by done. unfold slots_of. destruct (addresses al !! b) as [i|] eqn:E; [|done].
      destruct (i =? -1) eqn:Ei; [done|]. zbool. by rewrite (Happ b). }
  destruct (addresses al !! a) as [i|] eqn:E.
  2:{ intros [= <- <- <-]. apply Hnew. unfold slots_of. by rewrite E. }
  destruct (i =? -1) eqn:Ei.
  { intros [= <- <- <-]. apply Hnew. unfold slots_of. by rewrite E, Ei. }
  zbool. destruct (H1 a i E) as [|Hi]; [done|]. destruct (go_index_ok (slots al) i Hi) as (m & -> & Hm). cbn [res_bind].
  assert (slots_of al a = m) as Ha by (unfold slots_of; rewrite E, (proj2 (Z.eqb_neq _ _)), Hm by done; done).
  case_bool_decide as Hk.
  { intros [= <- <- <-] b. case_decide; [|done]. subst b. set_solver. }
  rewrite go_update_ok by done. cbn [res_bind]. intros [= <- <- <-] b. unfold slots_of at 1. cbn [addresses slots].
  case_decide as Hb.
  - subst b. rewrite E, (proj2 (Z.eqb_neq _ _)) by done. rewrite list_lookup_insert_eq by (unfold zlen in *; lia). by rewrite Ha.
  - unfold slots_of. destruct (addresses al !! b) as [j|] eqn:Eb; [|done]. destruct (j =? -1) eqn:Ej; [done|]. zbool.
    destruct (H1 b j Eb) as [|Hj]; [done|]. rewrite list_lookup_insert_ne; [done|].
    intros Hij. apply Hb. eapply (H3 b a j); [done| |done]. rewrite E. f_equal. lia.
Qed.

Lemma AddSlot_addresses a k al ac sc al' :
  access_ok al -> AddSlot a k al = Ret ((ac, sc), al') ->
  ac = negb (ContainsAddress al a) /\
  forall b, ContainsAddress al' b = bool_decide (b = a) || ContainsAddress al b.
Proof.
  intros [H1 _ _]. unfold AddSlot, ContainsAddress.
  assert (forall i b, match (<[a := i]> (addresses al)) !! b with Some _ => true | None => false end =
    bool_decide (b = a) || match addresses al !! b with Some _ => true | None => false end) as Hin.
  { intros i b. destruct (decide (b = a)) as [->|Hb].
    - by rewrite lookup_insert_eq, bool_decide_true.
    - by rewrite lookup_insert_ne, bool_decide_false. }
  destruct (addresses al !! a) as [i|] eqn:E; [|intros [= <- <- <-]; split; [done|apply Hin]].
  destruct (i =? -1) eqn:Ei; [intros [= <- <- <-]; split; [done|apply Hin]|]. zbool. destruct (H1 a i E) as [|Hi]; [done|].
  assert (forall b, match addresses al !! b with Some _ => true | None => false end =
    bool_decide (b = a) || match addresses al !! b with Some _ => true | None => false end) as Hsame.
  { intros b. destruct (decide (b = a)) as [->|Hb]; [by rewrite E, orb_true_r|by rewrite bool_decide_false]. }
  destruct (go_index_ok (slots al) i Hi) as (m & -> & Hm). cbn [res_bind].
  case_bool_decide; [intros [= <- <- <-]; by split|]. rewrite go_update_ok by done. intros [= <- <- <-]. by split.
Qed.

(** ** Theorem *)

(** The access list is a set of addresses and of slots: adding a slot makes
    that slot and its address warm and no other, the invariant of its indexed
    representation is kept, the flags say what was new, and deleting the slot
    again gives the list as it was (up to the address). *)
Theorem AddSlot_correct a k al :
  access_ok al ->
  exists ac sc al', AddSlot a k al = Ret ((ac, sc), al') /\ access_ok al' /\
    (forall b j, Contains al' b j =
       Ret (bool_decide (b = a) || ContainsAddress al b,
            bool_decide (b = a /\ j = k) || bool_decide (j ∈ slots_of al b))) /\
    ac = negb (ContainsAddress al a) /\
    (if sc : bool then DeleteSlot a k al' = Ret (tt, before_slot ac a al) else al' = al).
Proof.
  intros Hok. destruct (AddSlot_ok a k al Hok) as (ac & sc & al' & Ha & Hok' & _ & _ & Hd).
  exists ac, sc, al'. destruct (AddSlot_addresses _ _ _ _ _ _ Hok Ha) as [Hac Hb].
  split_and!; try done. intros b j. rewrite Contains_slots_of, Hb by done.
  rewrite (AddSlot_slots _ _ _ _ _ _ Hok Ha). f_equal. f_equal. case_decide as Hba.
  - subst b. rewrite <- bool_decide_or. apply bool_decide_ext. set_solver.
  - rewrite (bool_decide_false (b = a /\ _)) by (by intros [? _]). done.
Qed.
