(* ===== verification/StateInterface.v ===== *)
(** * The state database as the EVM sees it (client/core/vm/interface.go)

    The EVM works against the Go interface [StateDB].  The class [StateDB]
    lists its methods over an arbitrary type of database states; the class
    [StateDBSpec] states what an implementation promises: no method panics
    (except [SubRefund], whose panic is the one the source writes), a snapshot
    can be reverted to as long as it is live, and reverting restores the state.
    The theorems about the EVM are proved against this interface. *)

From S2P Require Import Prelude.
From S2P Require Import Common.
From S2P Require Import Params.
From S2P Require Import Crypto.

(** client/core/types/log.go: the consensus fields of [Log] and the block
    number the EVM fills in. *)
Record Log : Type := mkLog {
  log_Address : Address;
  log_Topics : list Hash;
  log_Data : list byte;
  log_BlockNumber : Z
}.

(** client/core/types/access_list_tx.go: [AccessList]. *)
Definition AccessList : Type := list (Address * list Hash).

Class StateDB (S : Type) : Type := {
  CreateAccount : Address -> GM S unit;
  SubBalance : Address -> Z -> GM S unit;
  AddBalance : Address -> Z -> GM S unit;
  GetBalance : Address -> GM S Z;
  GetNonce : Address -> GM S Z;
  SetNonce : Address -> Z -> GM S unit;
  GetCodeHash : Address -> GM S Hash;
  GetCode : Address -> GM S (list byte);
  SetCode : Address -> list byte -> GM S unit;
  GetCodeSize : Address -> GM S Z;
  AddRefund : Z -> GM S unit;
  SubRefund : Z -> GM S unit;
  GetRefund : GM S Z;
  GetCommittedState : Address -> Hash -> GM S Hash;
  GetState : Address -> Hash -> GM S Hash;
  SetState : Address -> Hash -> Hash -> GM S unit;
  GetTransientState : Address -> Hash -> GM S Hash;
  SetTransientState : Address -> Hash -> Hash -> GM S unit;
  Suicide : Address -> GM S bool;
  HasSuicided : Address -> GM S bool;
  Exist : Address -> GM S bool;
  Empty : Address -> GM S bool;
  AddressInAccessList : Address -> GM S bool;
  SlotInAccessList : Address -> Hash -> GM S (bool * bool);
  AddAddressToAccessList : Address -> GM S unit;
  AddSlotToAccessList : Address -> Hash -> GM S unit;
  Prepare : Rules -> Address -> Address -> option Address -> list Address -> AccessList -> GM S unit;
  RevertToSnapshot : Z -> GM S unit;
  Snapshot : GM S Z;
  AddLog : Log -> GM S unit;
  AddPreimage : Hash -> list byte -> GM S unit
}.

(** The panic [SubRefund] is written with. *)
Definition refund_panic (p : panic) : Prop := p = PanicRefund.

(** ** The supply

    Balances before and after a run differ by finitely many deltas; the supply
    grew by at most [n] if their sum is at most [n]. *)

Definition delta_at (d : list (Address * Z)) (a : Address) : Z :=
  foldr (fun p acc => (if decide (p.1 = a) then p.2 else 0) + acc) 0 d.

Definition delta_sum (d : list (Address * Z)) : Z := foldr (fun p acc => p.2 + acc) 0 d.

Definition grows_by (n : Z) (f g : Address -> Z) : Prop :=
  exists d, (forall a, g a = f a + delta_at d a) /\ delta_sum d <= n.

Lemma delta_at_cons p d a : delta_at (p :: d) a = (if decide (p.1 = a) then p.2 else 0) + delta_at d a.
Proof. done. Qed.

Lemma delta_sum_cons p d : delta_sum (p :: d) = p.2 + delta_sum d.
Proof. done. Qed.

Lemma delta_at_app d d' a : delta_at (d ++ d') a = delta_at d a + delta_at d' a.
Proof.
  induction d as [|p d IH]; [done|]. rewrite <- app_comm_cons, !delta_at_cons, IH. lia.
Qed.

Lemma delta_sum_app d d' : delta_sum (d ++ d') = delta_sum d + delta_sum d'.
Proof. induction d as [|p d IH]; [done|]. rewrite <- app_comm_cons, !delta_sum_cons, IH. lia. Qed.

Lemma grows_same f g : (forall a, g a = f a) -> grows_by 0 f g.
Proof. intros H. exists []. split; [intros a; rewrite H; unfold delta_at; cbn; lia|done]. Qed.

Lemma grows_one f g a v : (forall b, g b = f b + if decide (a = b) then v else 0) -> grows_by v f g.
Proof. intros H. exists [(a, v)]. split; [intros b; rewrite H, delta_at_cons; cbn; lia|cbn; lia]. Qed.

Lemma grows_trans n m f g h : grows_by n f g -> grows_by m g h -> grows_by (n + m) f h.
Proof.
  intros (d & Hd & Hn) (d' & Hd' & Hm). exists (d ++ d').
  split; [intros a; rewrite Hd', Hd, delta_at_app; lia|rewrite delta_sum_app; lia].
Qed.

Lemma grows_weaken n m f g : n <= m -> grows_by n f g -> grows_by m f g.
Proof. intros Hm (d & Hd & Hn). exists d. split; [done|lia]. Qed.

(** The sum over any list of accounts that contains those that changed. *)
Definition total_of (f : Address -> Z) (l : list Address) : Z := foldr (fun a acc => f a + acc) 0 l.

Lemma total_of_cons f a l : total_of f (a :: l) = f a + total_of f l.
Proof. done. Qed.

Lemma total_of_ext f g l : (forall a, a ∈ l -> f a = g a) -> total_of f l = total_of g l.
Proof.
  induction l as [|b l IH]; intros H; [done|]. rewrite !total_of_cons, H by by left.
  f_equal. apply IH. intros a Ha. apply H. by right.
Qed.

Lemma total_of_add f g l : total_of (fun a => f a + g a) l = total_of f l + total_of g l.
Proof. induction l as [|b l IH]; [done|]. rewrite !total_of_cons, IH. lia. Qed.

Lemma total_of_zero l : total_of (fun _ => 0) l = 0.
Proof. induction l as [|b l IH]; [done|]. by rewrite total_of_cons, IH. Qed.

Lemma total_of_delta (p : Address * Z) l :
  NoDup l -> p.1 ∈ l -> total_of (fun a => if decide (p.1 = a) then p.2 else 0) l = p.2.
Proof.
  induction 1 as [|b l Hb Hl IH]; intros Hp; [by apply elem_of_nil in Hp|]. rewrite total_of_cons. case_decide as Hpb.
  - rewrite (total_of_ext _ (fun _ => 0)), total_of_zero; [lia|]. intros a Ha. rewrite decide_False; [done|].
    intros Hpa. apply Hb. by rewrite <- Hpb, Hpa.
  - apply elem_of_cons in Hp as [Hp|Hp]; [done|]. by rewrite IH.
Qed.

Lemma total_of_delta_at d l : NoDup l -> (forall p, p ∈ d -> p.1 ∈ l) -> total_of (delta_at d) l = delta_sum d.
Proof.
  intros Hl. induction d as [|p d IH]; intros Hd; [apply total_of_zero|].
  rewrite (total_of_ext _ (fun a => (if decide (p.1 = a) then p.2 else 0) + delta_at d a)) by done.
  rewrite total_of_add, total_of_delta, IH; [done| |done|]; intros; apply Hd; [by right|by left].
Qed.

(** What [grows_by] means for sums: over every set of accounts that contains a
    certain finite one, the sum of the balances grew by at most [n]. *)
Lemma grows_total n f g :
  grows_by n f g -> exists l0, forall l, NoDup l -> l0 ⊆ l -> total_of g l <= total_of f l + n.
Proof.
  intros (d & Hd & Hn). exists (map fst d). intros l Hl Hsub.
  rewrite (total_of_ext g (fun a => f a + delta_at d a)), total_of_add, total_of_delta_at; [lia|done| |done].
  intros p Hp. apply Hsub. apply list_elem_of_In, in_map, list_elem_of_In. done.
Qed.

(** ** The laws

    What the EVM relies on.  [sdb_ok] is the implementation's invariant;
    [sdb_evolve n s s'] says that [s'] evolved from [s] without reverting below
    [s], and that the supply grew by at most [n] on the way; [sdb_equiv] relates
    states no query tells apart. *)
Class StateDBSpec (S : Type) {D : StateDB S} {K : Keccak} : Type := {
  sdb_ok : S -> Prop;
  sdb_evolve : Z -> S -> S -> Prop;
  sdb_equiv : S -> S -> Prop;
  in_access_list : S -> Address -> bool;
  code_of : S -> Address -> list byte;
  codehash_of : S -> Address -> Hash;
  balance_at : S -> Address -> Z;
  nonce_at : S -> Address -> Z;
  refund_at : S -> Z;
  tx_at : S -> Hash * Z;

  sdb_ext (s s' : S) : Prop := sdb_evolve 0 s s';
  evolve_refl s : sdb_evolve 0 s s;
  evolve_trans n m s1 s2 s3 : sdb_evolve n s1 s2 -> sdb_evolve m s2 s3 -> sdb_evolve (n + m) s1 s3;
  evolve_weaken n m s s' : n <= m -> sdb_evolve n s s' -> sdb_evolve m s s';
  evolve_supply n s s' : sdb_evolve n s s' -> grows_by n (balance_at s) (balance_at s');
  evolve_tx n s s' : sdb_evolve n s s' -> tx_at s' = tx_at s;
  balance_equiv s s' a : sdb_equiv s s' -> balance_at s a = balance_at s' a;
  nonce_equiv s s' a : sdb_equiv s s' -> nonce_at s a = nonce_at s' a;
  nonce_u64 s a : sdb_ok s -> is_u64 (nonce_at s a);
  refund_equiv s s' : sdb_equiv s s' -> refund_at s = refund_at s';
  refund_u64 s : sdb_ok s -> is_u64 (refund_at s);
  balance_nonneg s a : sdb_ok s -> 0 <= balance_at s a;
  sdb_equiv_equivalence :: Equivalence sdb_equiv;
  access_list_equiv s s' a : sdb_equiv s s' -> in_access_list s a = in_access_list s' a;
  code_of_equiv s s' a : sdb_equiv s s' -> code_of s a = code_of s' a;
  codehash_of_equiv s s' a : sdb_equiv s s' -> codehash_of s a = codehash_of s' a;
  access_list_mono n s s' a : sdb_evolve n s s' -> in_access_list s a = true -> in_access_list s' a = true;
  code_hash_of_code s a : sdb_ok s -> code_of s a = [] \/ codehash_of s a = keccak256 (code_of s a);
  code_size_bound s a : sdb_ok s -> zlen (code_of s a) < 2 ^ 60;

  sdb_mutator {A} (m : GM S A) : Prop :=
    forall s, sdb_ok s ->
      wp no_panic m (fun _ s' => sdb_ok s' /\ sdb_ext s s' /\ forall a, balance_at s' a = balance_at s a) s;
  sdb_getter {A} (m : GM S A) : Prop :=
    forall s, sdb_ok s ->
      wp no_panic m (fun _ s' => sdb_ok s' /\ sdb_ext s s' /\ sdb_equiv s' s) s;

  CreateAccount_ok a : sdb_mutator (CreateAccount a);
  SubBalance_ok a v s :
    sdb_ok s -> 0 <= v <= balance_at s a ->
    wp no_panic (SubBalance a v)
      (fun _ s' => sdb_ok s' /\ sdb_evolve (- v) s s' /\
         forall b, balance_at s' b = balance_at s b + if decide (a = b) then - v else 0) s;
  AddBalance_ok a v s :
    sdb_ok s -> 0 <= v ->
    wp no_panic (AddBalance a v)
      (fun _ s' => sdb_ok s' /\ sdb_evolve v s s' /\
         forall b, balance_at s' b = balance_at s b + if decide (a = b) then v else 0) s;
  Suicide_ok a s :
    sdb_ok s -> wp no_panic (Suicide a) (fun _ s' => sdb_ok s' /\ sdb_evolve (- balance_at s a) s s') s;
  GetBalance_ok a s :
    sdb_ok s ->
    wp no_panic (GetBalance a)
      (fun b s' => b = balance_at s a /\ sdb_ok s' /\ sdb_ext s s' /\ sdb_equiv s' s) s;
  GetRefund_ok s :
    sdb_ok s -> wp no_panic GetRefund (fun r s' => r = refund_at s /\ sdb_ok s' /\ sdb_ext s s' /\ sdb_equiv s' s) s;
  SetNonce_ok a n : is_u64 n -> sdb_mutator (SetNonce a n);
  SetCode_ok a c : zlen c < 2 ^ 60 -> sdb_mutator (SetCode a c);
  GetCodeSize_ok a : sdb_getter (GetCodeSize a);
  AddRefund_ok g : sdb_mutator (AddRefund g);
  GetCommittedState_ok a k : sdb_getter (GetCommittedState a k);
  GetState_ok a k : sdb_getter (GetState a k);
  SetState_ok a k v : sdb_mutator (SetState a k v);
  GetTransientState_ok a k : sdb_getter (GetTransientState a k);
  SetTransientState_ok a k v : sdb_mutator (SetTransientState a k v);
  HasSuicided_ok a : sdb_getter (HasSuicided a);
  Exist_ok a : sdb_getter (Exist a);
  Empty_ok a : sdb_getter (Empty a);
  AddSlotToAccessList_ok a k : sdb_mutator (AddSlotToAccessList a k);
  AddLog_ok l : sdb_mutator (AddLog l);
  AddPreimage_ok h d : sdb_mutator (AddPreimage h d);
  SubRefund_ok g s :
    sdb_ok s -> wp refund_panic (SubRefund g) (fun _ s' => sdb_ok s' /\ sdb_ext s s') s;
  GetNonce_ok a s :
    sdb_ok s ->
    wp no_panic (GetNonce a)
      (fun n s' => n = nonce_at s a /\ sdb_ok s' /\ sdb_ext s s' /\ sdb_equiv s' s) s;
  GetCodeHash_ok a s :
    sdb_ok s ->
    wp no_panic (GetCodeHash a)
      (fun h s' => h = codehash_of s a /\ sdb_ok s' /\ sdb_ext s s' /\ sdb_equiv s' s) s;
  GetCode_ok a s :
    sdb_ok s ->
    wp no_panic (GetCode a)
      (fun c s' => c = code_of s a /\ sdb_ok s' /\ sdb_ext s s' /\ sdb_equiv s' s) s;
  AddressInAccessList_ok a s :
    sdb_ok s ->
    wp no_panic (AddressInAccessList a)
      (fun b s' => b = in_access_list s a /\ sdb_ok s' /\ sdb_ext s s' /\ sdb_equiv s' s) s;
  SlotInAccessList_ok a k s :
    sdb_ok s ->
    wp no_panic (SlotInAccessList a k)
      (fun b s' => b.1 = in_access_list s a /\ sdb_ok s' /\ sdb_ext s s' /\ sdb_equiv s' s) s;
  AddAddressToAccessList_ok a s :
    sdb_ok s ->
    wp no_panic (AddAddressToAccessList a)
      (fun _ s' => in_access_list s' a = true /\ sdb_ok s' /\ sdb_ext s s' /\
         forall b, balance_at s' b = balance_at s b) s;
  (** Not undone by reverting: called before a transaction runs. *)
  Prepare_ok rules sender coinbase dst pre al s :
    sdb_ok s ->
    wp no_panic (Prepare rules sender coinbase dst pre al)
      (fun _ s' => sdb_ok s' /\ (forall b, balance_at s' b = balance_at s b) /\ tx_at s' = tx_at s /\
         (rIsBerlin rules = true -> in_access_list s' sender = true /\
            forall d, dst = Some d -> in_access_list s' d = true)) s;

  Snapshot_ok : sdb_getter Snapshot;
  (** A live snapshot can be reverted to, and that restores the state. *)
  RevertToSnapshot_ok n s id s1 s2 :
    sdb_ok s -> Snapshot s = Ret (id, s1) -> sdb_ok s2 -> sdb_evolve n s1 s2 ->
    wp no_panic (RevertToSnapshot id)
      (fun _ s3 => sdb_ok s3 /\ sdb_equiv s3 s /\ sdb_ext s s3) s2
}.

(** The laws that apply without further conditions. *)
Create HintDb sdb discriminated.
#[export] Hint Resolve CreateAccount_ok SetNonce_ok
  GetCodeSize_ok AddRefund_ok GetCommittedState_ok GetState_ok SetState_ok
  GetTransientState_ok SetTransientState_ok HasSuicided_ok Exist_ok Empty_ok
  AddSlotToAccessList_ok AddLog_ok AddPreimage_ok Snapshot_ok : sdb.

Section interface.
Context {S : Type} {D : StateDB S} {K : Keccak} {SP : StateDBSpec S}.

#[export] Instance sdb_ext_preorder : PreOrder sdb_ext.
Proof.
  split; [intros s; apply evolve_refl|]. intros s1 s2 s3 H1 H2. apply (evolve_trans 0 0 _ _ _ H1 H2).
Qed.

Lemma access_list_ext s s' a : sdb_ext s s' -> in_access_list s a = true -> in_access_list s' a = true.
Proof. apply access_list_mono. Qed.

Lemma GetBalance_getter a : sdb_getter (GetBalance a).
Proof. intros s Hs. eapply wp_mono; [by apply GetBalance_ok|]. by intros b s' (_ & H). Qed.

Lemma AddBalance_zero a : sdb_mutator (AddBalance a 0).
Proof.
  intros s Hs. eapply wp_mono; [by apply AddBalance_ok|]. intros u s' (H1 & H2 & H3). split_and!; try done.
  intros b. rewrite H3. case_decide; lia.
Qed.

(** A transfer within the sender's means. *)
Lemma move_ok a b v s :
  sdb_ok s -> 0 <= v <= balance_at s a ->
  wp no_panic (SubBalance a v ;;; AddBalance b v)
    (fun _ s' => sdb_ok s' /\ sdb_ext s s' /\ forall c, balance_at s' c =
       balance_at s c - (if decide (a = c) then v else 0) + (if decide (b = c) then v else 0)) s.
Proof.
  intros Hs Hv. apply wp_gbind. eapply wp_mono; [by apply SubBalance_ok|]. intros u s1 (Hs1 & Hx1 & Hb1).
  eapply wp_mono; [apply AddBalance_ok; [done|lia]|]. intros u' s2 (Hs2 & Hx2 & Hb2). split; [done|]. split.
  - unfold sdb_ext. replace 0 with (- v + v) by lia. by eapply evolve_trans.
  - intros c. rewrite Hb2, Hb1. repeat case_decide; lia.
Qed.

(** The end of a contract: its balance goes to the beneficiary, or is gone if
    the beneficiary is the contract itself. *)
Lemma retire_ok a b s :
  sdb_ok s ->
  wp no_panic (let* v := GetBalance a in AddBalance b v ;;; Suicide a)
    (fun _ s' => sdb_ok s' /\ sdb_ext s s') s.
Proof.
  intros Hs. apply wp_gbind. eapply wp_mono; [by apply GetBalance_ok|]. intros v s1 (-> & Hs1 & Hx1 & He1).
  pose proof (balance_nonneg s a Hs) as Hn. apply wp_gbind. eapply wp_mono; [by apply AddBalance_ok|].
  intros u s2 (Hs2 & Hx2 & Hb2). eapply wp_mono; [by apply Suicide_ok|]. intros u' s3 (Hs3 & Hx3). split; [done|].
  pose proof (evolve_trans _ _ _ _ _ Hx1 (evolve_trans _ _ _ _ _ Hx2 Hx3)) as H. eapply evolve_weaken; [|exact H].
  rewrite Hb2, (balance_equiv _ _ a He1). case_decide; lia.
Qed.
End interface.

#[export] Hint Resolve GetBalance_getter AddBalance_zero : sdb.
