(* ===== verification/StateStore.v ===== *)
(** * The state database (client/core/state/statedb.go, journal.go)

    The state of [StateDB] as a record and its methods: reading accounts through
    the cache of live objects, the setters with their journal entries, snapshots,
    reverting, and the end of a transaction.  Computing roots and writing to the
    tries ([IntermediateRoot], [Commit]) is not modelled.

    A [*stateObject] is represented by the address it is stored under: the
    methods of a live object read and write the entry of the map. *)

From Stdlib Require Import Strings.Byte.
From S2P Require Import Prelude.
From S2P Require Import Common.
From S2P Require Import Params.
From S2P Require Import Rlp.
From S2P Require Import Crypto.
From S2P Require Import StateInterface.
From S2P Require Import StateObject.

(** A log with the fields [AddLog] fills in. *)
Record TxLog : Type := mkTxLog {
  txlog : Log;
  log_TxHash : Hash;
  log_TxIndex : Z;
  log_Index : Z
}.

Record revision : Type := mkRevision { rev_id : Z; journalIndex : Z }.

(** What [setError] is called for. *)
Inductive db_error : Type :=
| AccountError (addr : Address)
| StorageError (addr : Address) (key : Hash)
| DecodeError (addr : Address) (key : Hash)
| CodeError (codeHash : Hash)
| CodeSizeError (codeHash : Hash).

Record state : Type := mkState {
  stateObjects : gmap Address stateObject;
  stateObjectsPending : gset Address;
  stateObjectsDirty : gset Address;
  stateObjectsDestruct : gset Address;
  dbErr : option db_error;
  refund : Z;
  thash : Hash;
  txIndex : Z;
  logs : gmap Hash (list TxLog);
  logSize : Z;
  preimages : gmap Hash (list byte);
  s_accessList : accessList;
  s_transientStorage : transientStorage;
  entries : list journalEntry;
  dirties : gmap Address Z;
  validRevisions : list revision;
  nextRevisionId : Z
}.

Section setters.
Implicit Types s : state.

Definition set_objects f s : state :=
  mkState (f (stateObjects s)) (stateObjectsPending s) (stateObjectsDirty s) (stateObjectsDestruct s)
    (dbErr s) (refund s) (thash s) (txIndex s) (logs s) (logSize s) (preimages s) (s_accessList s)
    (s_transientStorage s) (entries s) (dirties s) (validRevisions s) (nextRevisionId s).
Definition set_pending f s : state :=
  mkState (stateObjects s) (f (stateObjectsPending s)) (stateObjectsDirty s) (stateObjectsDestruct s)
    (dbErr s) (refund s) (thash s) (txIndex s) (logs s) (logSize s) (preimages s) (s_accessList s)
    (s_transientStorage s) (entries s) (dirties s) (validRevisions s) (nextRevisionId s).
Definition set_dirty f s : state :=
  mkState (stateObjects s) (stateObjectsPending s) (f (stateObjectsDirty s)) (stateObjectsDestruct s)
    (dbErr s) (refund s) (thash s) (txIndex s) (logs s) (logSize s) (preimages s) (s_accessList s)
    (s_transientStorage s) (entries s) (dirties s) (validRevisions s) (nextRevisionId s).
Definition set_destruct f s : state :=
  mkState (stateObjects s) (stateObjectsPending s) (stateObjectsDirty s) (f (stateObjectsDestruct s))
    (dbErr s) (refund s) (thash s) (txIndex s) (logs s) (logSize s) (preimages s) (s_accessList s)
    (s_transientStorage s) (entries s) (dirties s) (validRevisions s) (nextRevisionId s).
Definition set_dbErr e s : state :=
  mkState (stateObjects s) (stateObjectsPending s) (stateObjectsDirty s) (stateObjectsDestruct s)
    e (refund s) (thash s) (txIndex s) (logs s) (logSize s) (preimages s) (s_accessList s)
    (s_transientStorage s) (entries s) (dirties s) (validRevisions s) (nextRevisionId s).
Definition set_refund r s : state :=
  mkState (stateObjects s) (stateObjectsPending s) (stateObjectsDirty s) (stateObjectsDestruct s)
    (dbErr s) r (thash s) (txIndex s) (logs s) (logSize s) (preimages s) (s_accessList s)
    (s_transientStorage s) (entries s) (dirties s) (validRevisions s) (nextRevisionId s).
Definition set_tx h i s : state :=
  mkState (stateObjects s) (stateObjectsPending s) (stateObjectsDirty s) (stateObjectsDestruct s)
    (dbErr s) (refund s) h i (logs s) (logSize s) (preimages s) (s_accessList s)
    (s_transientStorage s) (entries s) (dirties s) (validRevisions s) (nextRevisionId s).
Definition set_logs f n s : state :=
  mkState (stateObjects s) (stateObjectsPending s) (stateObjectsDirty s) (stateObjectsDestruct s)
    (dbErr s) (refund s) (thash s) (txIndex s) (f (logs s)) n (preimages s) (s_accessList s)
    (s_transientStorage s) (entries s) (dirties s) (validRevisions s) (nextRevisionId s).
Definition set_preimages f s : state :=
  mkState (stateObjects s) (stateObjectsPending s) (stateObjectsDirty s) (stateObjectsDestruct s)
    (dbErr s) (refund s) (thash s) (txIndex s) (logs s) (logSize s) (f (preimages s)) (s_accessList s)
    (s_transientStorage s) (entries s) (dirties s) (validRevisions s) (nextRevisionId s).
Definition set_accessList al s : state :=
  mkState (stateObjects s) (stateObjectsPending s) (stateObjectsDirty s) (stateObjectsDestruct s)
    (dbErr s) (refund s) (thash s) (txIndex s) (logs s) (logSize s) (preimages s) al
    (s_transientStorage s) (entries s) (dirties s) (validRevisions s) (nextRevisionId s).
Definition set_transient f s : state :=
  mkState (stateObjects s) (stateObjectsPending s) (stateObjectsDirty s) (stateObjectsDestruct s)
    (dbErr s) (refund s) (thash s) (txIndex s) (logs s) (logSize s) (preimages s) (s_accessList s)
    (f (s_transientStorage s)) (entries s) (dirties s) (validRevisions s) (nextRevisionId s).
Definition set_entries f s : state :=
  mkState (stateObjects s) (stateObjectsPending s) (stateObjectsDirty s) (stateObjectsDestruct s)
    (dbErr s) (refund s) (thash s) (txIndex s) (logs s) (logSize s) (preimages s) (s_accessList s)
    (s_transientStorage s) (f (entries s)) (dirties s) (validRevisions s) (nextRevisionId s).
Definition set_dirties f s : state :=
  mkState (stateObjects s) (stateObjectsPending s) (stateObjectsDirty s) (stateObjectsDestruct s)
    (dbErr s) (refund s) (thash s) (txIndex s) (logs s) (logSize s) (preimages s) (s_accessList s)
    (s_transientStorage s) (entries s) (f (dirties s)) (validRevisions s) (nextRevisionId s).
Definition set_revisions f s : state :=
  mkState (stateObjects s) (stateObjectsPending s) (stateObjectsDirty s) (stateObjectsDestruct s)
    (dbErr s) (refund s) (thash s) (txIndex s) (logs s) (logSize s) (preimages s) (s_accessList s)
    (s_transientStorage s) (entries s) (dirties s) (f (validRevisions s)) (nextRevisionId s).
Definition set_nextRevisionId n s : state :=
  mkState (stateObjects s) (stateObjectsPending s) (stateObjectsDirty s) (stateObjectsDestruct s)
    (dbErr s) (refund s) (thash s) (txIndex s) (logs s) (logSize s) (preimages s) (s_accessList s)
    (s_transientStorage s) (entries s) (dirties s) (validRevisions s) n.
End setters.

(** [New], once the trie is open. *)
Definition state_New : state :=
  mkState ∅ ∅ ∅ ∅ None 0 0 0 ∅ 0 ∅ newAccessList ∅ [] ∅ [] 0.

(** ** The journal *)

Definition ripemd : Address := 3.

(** [j.dirties[addr]++]. *)
Definition journal_dirty (addr : Address) : GM state unit :=
  gput (set_dirties (fun d => <[addr := default 0 (d !! addr) + 1]> d)).

Definition journal_append (entry : journalEntry) : GM state unit :=
  gput (set_entries (fun es => es ++ [entry])) ;;;
  match dirtied entry with Some addr => journal_dirty addr | None => gret tt end.

Section state.
Context {B : Database} {K : Keccak}.

(** ** Live objects *)

Definition setError (err : db_error) : GM state unit :=
  gput (fun s => match dbErr s with None => set_dbErr (Some err) s | Some _ => s end).

Definition setStateObject (addr : Address) (o : stateObject) : GM state unit :=
  gput (set_objects (fun m => <[addr := o]> m)).

(** A write through a [*stateObject]. *)
Definition object (addr : Address) (f : stateObject -> stateObject) : GM state unit :=
  fun s => match stateObjects s !! addr with
           | Some o => setStateObject addr (f o) s
           | None => Panic PanicNil
           end.

Definition getDeletedStateObject (addr : Address) : GM state (option stateObject) :=
  let* objs := gget stateObjects in
  match objs !! addr with
  | Some o => gret (Some o)
  | None =>
      match GetAccount addr with
      | None => setError (AccountError addr) ;;; gret None
      | Some None => gret None
      | Some (Some data) =>
          let o := newObject data in
          setStateObject addr o ;;; gret (Some o)
      end
  end.

Definition getStateObject (addr : Address) : GM state (option stateObject) :=
  let* o := getDeletedStateObject addr in
  match o with
  | Some o => if deleted o then gret None else gret (Some o)
  | None => gret None
  end.

(** The new object and the previous one, if it was not deleted. *)
Definition createObject (addr : Address) : GM state (stateObject * option stateObject) :=
  let* prev := getDeletedStateObject addr in
  let* prevdestruct :=
    match prev with
    | Some _ =>
        let* destruct := gget stateObjectsDestruct in
        let prevdestruct := bool_decide (addr ∈ destruct) in
        (if negb prevdestruct then gput (set_destruct (fun d => {[addr]} ∪ d)) else gret tt) ;;;
        gret prevdestruct
    | None => gret false
    end in
  let newobj := newObject (mkStateAccount 0 None 0 None) in
  journal_append (match prev with
                  | None => createObjectChange addr
                  | Some o => resetObjectChange addr o prevdestruct
                  end) ;;;
  setStateObject addr newobj ;;;
  gret (newobj, match prev with Some o => if deleted o then None else Some o | None => None end).

Definition GetOrNewStateObject (addr : Address) : GM state stateObject :=
  let* o := getStateObject addr in
  match o with
  | Some o => gret o
  | None => let* r := createObject addr in gret (fst r)
  end.

Definition sdb_CreateAccount (addr : Address) : GM state unit :=
  let* r := createObject addr in
  match snd r with
  | Some prev => object addr (so_setBalance (so_Balance prev))
  | None => gret tt
  end.

(** ** Methods of live objects; [o] is the object as just read *)

Definition so_touch (addr : Address) : GM state unit :=
  journal_append (touchChange addr) ;;;
  if bool_decide (addr = ripemd) then journal_dirty addr else gret tt.

Definition so_SetBalance (addr : Address) (o : stateObject) (amount : Z) : GM state unit :=
  journal_append (balanceChange addr (so_Balance o)) ;;;
  object addr (so_setBalance amount).

Definition so_AddBalance (addr : Address) (o : stateObject) (amount : Z) : GM state unit :=
  if amount =? 0 then if so_empty o then so_touch addr else gret tt
  else so_SetBalance addr o (so_Balance o + amount).

Definition so_SubBalance (addr : Address) (o : stateObject) (amount : Z) : GM state unit :=
  if amount =? 0 then gret tt else so_SetBalance addr o (so_Balance o - amount).

Definition so_SetNonce (addr : Address) (o : stateObject) (nonce : Z) : GM state unit :=
  journal_append (nonceChange addr (so_Nonce o)) ;;;
  object addr (so_setNonce nonce).

Definition so_Code (addr : Address) (o : stateObject) : GM state (list byte) :=
  if negb (zlen (so_code o) =? 0) then gret (so_code o)
  else if so_CodeHash o =? emptyCodeHash then gret []
  else
    let* code := match ContractCode (keccak256 (address_bytes addr)) (so_CodeHash o) with
                 | Some code => gret code
                 | None => setError (CodeError (so_CodeHash o)) ;;; gret []
                 end in
    object addr (so_cacheCode code) ;;;
    gret code.

Definition so_CodeSize (addr : Address) (o : stateObject) : GM state Z :=
  if negb (zlen (so_code o) =? 0) then gret (zlen (so_code o))
  else if so_CodeHash o =? emptyCodeHash then gret 0
  else
    match ContractCodeSize (keccak256 (address_bytes addr)) (so_CodeHash o) with
    | Some size => gret size
    | None => setError (CodeSizeError (so_CodeHash o)) ;;; gret 0
    end.

Definition so_SetCode (addr : Address) (o : stateObject) (codeHash : Hash) (code : list byte) : GM state unit :=
  let* prevcode := so_Code addr o in
  journal_append (codeChange addr prevcode (so_CodeHash o)) ;;;
  object addr (so_setCode codeHash code).

(** client/common/types.go [Hash.SetBytes]: long input is cropped from the left. *)
Definition Hash_SetBytes (b : list byte) : Hash :=
  be_value (if zlen b >? 32 then drop (Z.to_nat (zlen b - 32)) b else b).

(** The value of the encoded slot. *)
Definition decodeSlot (addr : Address) (key : Hash) (enc : list byte) : GM state Hash :=
  if zlen enc >? 0 then
    let* r := gpure (Split enc) in
    let '(_, content, _, err) := r in
    match err with Some _ => setError (DecodeError addr key) | None => gret tt end ;;;
    gret (Hash_SetBytes content)
  else gret 0.

Definition so_GetCommittedState (addr : Address) (o : stateObject) (key : Hash) : GM state Hash :=
  match pendingStorage o !! key with
  | Some value => gret value
  | None =>
      match originStorage o !! key with
      | Some value => gret value
      | None =>
          let* destruct := gget stateObjectsDestruct in
          if bool_decide (addr ∈ destruct) then gret 0
          else
            match GetStorage addr (so_Root o) key with
            | None => setError (StorageError addr key) ;;; gret 0
            | Some enc =>
                let* value := decodeSlot addr key enc in
                object addr (so_cacheState key value) ;;;
                gret value
            end
      end
  end.

Definition so_GetState (addr : Address) (o : stateObject) (key : Hash) : GM state Hash :=
  match dirtyStorage o !! key with
  | Some value => gret value
  | None => so_GetCommittedState addr o key
  end.

Definition so_SetState (addr : Address) (o : stateObject) (key value : Hash) : GM state unit :=
  let* prev := so_GetState addr o key in
  if prev =? value then gret tt
  else
    journal_append (storageChange addr key prev) ;;;
    object addr (so_setState key value).

(** ** The methods the EVM calls *)

(** A query of an account, with the answer for a missing one. *)
Definition query {A} (addr : Address) (missing : A) (f : stateObject -> GM state A) : GM state A :=
  let* o := getStateObject addr in
  match o with Some o => f o | None => gret missing end.

Definition sdb_Exist (addr : Address) : GM state bool := query addr false (fun _ => gret true).
Definition sdb_Empty (addr : Address) : GM state bool := query addr true (fun o => gret (so_empty o)).
Definition sdb_GetBalance (addr : Address) : GM state Z := query addr 0 (fun o => gret (so_Balance o)).
Definition sdb_GetNonce (addr : Address) : GM state Z := query addr 0 (fun o => gret (so_Nonce o)).
Definition sdb_GetCode (addr : Address) : GM state (list byte) := query addr [] (so_Code addr).
Definition sdb_GetCodeSize (addr : Address) : GM state Z := query addr 0 (so_CodeSize addr).
Definition sdb_GetCodeHash (addr : Address) : GM state Hash := query addr 0 (fun o => gret (so_CodeHash o)).
Definition sdb_GetState (addr : Address) (key : Hash) : GM state Hash :=
  query addr 0 (fun o => so_GetState addr o key).
Definition sdb_GetCommittedState (addr : Address) (key : Hash) : GM state Hash :=
  query addr 0 (fun o => so_GetCommittedState addr o key).
Definition sdb_HasSuicided (addr : Address) : GM state bool := query addr false (fun o => gret (suicided o)).

(** A change of an account, which is created if it is missing. *)
Definition change {A} (addr : Address) (f : stateObject -> GM state A) : GM state A :=
  let* o := GetOrNewStateObject addr in f o.

Definition sdb_AddBalance (addr : Address) (amount : Z) : GM state unit :=
  change addr (fun o => so_AddBalance addr o amount).
Definition sdb_SubBalance (addr : Address) (amount : Z) : GM state unit :=
  change addr (fun o => so_SubBalance addr o amount).
Definition sdb_SetBalance (addr : Address) (amount : Z) : GM state unit :=
  change addr (fun o => so_SetBalance addr o amount).
Definition sdb_SetNonce (addr : Address) (nonce : Z) : GM state unit :=
  change addr (fun o => so_SetNonce addr o nonce).
Definition sdb_SetCode (addr : Address) (code : list byte) : GM state unit :=
  change addr (fun o => so_SetCode addr o (keccak256 code) code).
Definition sdb_SetState (addr : Address) (key value : Hash) : GM state unit :=
  change addr (fun o => so_SetState addr o key value).

Definition sdb_Suicide (addr : Address) : GM state bool :=
  let* o := getStateObject addr in
  match o with
  | None => gret false
  | Some o =>
      journal_append (suicideChange addr (suicided o) (so_Balance o)) ;;;
      object addr so_markSuicided ;;;
      object addr (so_setBalance 0) ;;;
      gret true
  end.

Definition sdb_AddRefund (gas : Z) : GM state unit :=
  let* r := gget refund in
  journal_append (refundChange r) ;;;
  gput (set_refund (u64 (r + gas))).

Definition sdb_SubRefund (gas : Z) : GM state unit :=
  let* r := gget refund in
  journal_append (refundChange r) ;;;
  if gas >? r then gpanic PanicRefund else gput (set_refund (u64 (r - gas))).

Definition sdb_GetRefund : GM state Z := gget refund.

Definition sdb_GetTransientState (addr : Address) (key : Hash) : GM state Hash :=
  gget (fun s => transient_Get (s_transientStorage s) addr key).

Definition setTransientState (addr : Address) (key value : Hash) : GM state unit :=
  gput (set_transient (transient_Set addr key value)).

Definition sdb_SetTransientState (addr : Address) (key value : Hash) : GM state unit :=
  let* prev := sdb_GetTransientState addr key in
  if prev =? value then gret tt
  else
    journal_append (transientStorageChange addr key prev) ;;;
    setTransientState addr key value.

Definition sdb_AddLog (log : Log) : GM state unit :=
  let* s := gget id in
  journal_append (addLogChange (thash s)) ;;;
  gput (set_logs
    (fun m => <[thash s := default [] (m !! thash s) ++ [mkTxLog log (thash s) (txIndex s) (logSize s)]]> m)
    (u64 (logSize s + 1))).

Definition sdb_AddPreimage (hash : Hash) (preimage : list byte) : GM state unit :=
  let* m := gget preimages in
  match m !! hash with
  | Some _ => gret tt
  | None =>
      journal_append (addPreimageChange hash) ;;;
      gput (set_preimages (fun m => <[hash := preimage]> m))
  end.

Definition on_accessList {A} : GM accessList A -> GM state A := gzoom s_accessList set_accessList.

Definition sdb_AddAddressToAccessList (addr : Address) : GM state unit :=
  let* added := on_accessList (AddAddress addr) in
  if added : bool then journal_append (accessListAddAccountChange addr) else gret tt.

Definition sdb_AddSlotToAccessList (addr : Address) (slot : Hash) : GM state unit :=
  let* mods := on_accessList (AddSlot addr slot) in
  let '(addrMod, slotMod) := mods in
  (if addrMod : bool then journal_append (accessListAddAccountChange addr) else gret tt) ;;;
  (if slotMod : bool then journal_append (accessListAddSlotChange addr slot) else gret tt).

Definition sdb_AddressInAccessList (addr : Address) : GM state bool :=
  gget (fun s => ContainsAddress (s_accessList s) addr).

Definition sdb_SlotInAccessList (addr : Address) (slot : Hash) : GM state (bool * bool) :=
  fun s => gpure (Contains (s_accessList s) addr slot) s.

(** The loops of [Prepare]. *)
Fixpoint add_addresses (l : list Address) : GM accessList unit :=
  match l with
  | [] => gret tt
  | a :: l => AddAddress a ;;; add_addresses l
  end.

Fixpoint add_slots (a : Address) (keys : list Hash) : GM accessList unit :=
  match keys with
  | [] => gret tt
  | k :: keys => AddSlot a k ;;; add_slots a keys
  end.

Fixpoint add_tuples (list : AccessList) : GM accessList unit :=
  match list with
  | [] => gret tt
  | (a, keys) :: list => AddAddress a ;;; add_slots a keys ;;; add_tuples list
  end.

Definition sdb_Prepare (rules : Rules) (sender coinbase : Address) (dst : option Address)
    (precompiles : list Address) (list : AccessList) : GM state unit :=
  (if rIsBerlin rules then
     gput (set_accessList newAccessList) ;;;
     on_accessList (
       AddAddress sender ;;;
       match dst with Some dst => AddAddress dst ;;; gret tt | None => gret tt end ;;;
       add_addresses precompiles ;;;
       add_tuples list ;;;
       if rIsShanghai rules then AddAddress coinbase ;;; gret tt else gret tt)
   else gret tt) ;;;
  gput (set_transient (fun _ => ∅)).

Definition SetTxContext (thash : Hash) (ti : Z) : GM state unit := gput (set_tx thash ti).

(** ** Reverting (journal.go) *)

(** Undoing a change of an account that has to be there. *)
Definition undo_object (addr : Address) (f : stateObject -> stateObject) : GM state unit :=
  let* o := getStateObject addr in
  match o with Some _ => object addr f | None => gpanic PanicNil end.

Definition undo (e : journalEntry) : GM state unit :=
  match e with
  | createObjectChange a =>
      gput (set_objects (fun m => delete a m)) ;;;
      gput (set_dirty (fun d => d ∖ {[a]}))
  | resetObjectChange a prev prevdestruct =>
      setStateObject a prev ;;;
      if negb prevdestruct then gput (set_destruct (fun d => d ∖ {[a]})) else gret tt
  | suicideChange a prev prevbalance =>
      let* o := getStateObject a in
      match o with
      | Some _ => object a (so_setSuicided prev) ;;; object a (so_setBalance prevbalance)
      | None => gret tt
      end
  | touchChange _ => gret tt
  | balanceChange a prev => undo_object a (so_setBalance prev)
  | nonceChange a prev => undo_object a (so_setNonce prev)
  | codeChange a prevcode prevhash => undo_object a (so_setCode prevhash prevcode)
  | storageChange a key prevalue => undo_object a (so_setState key prevalue)
  | transientStorageChange a key prevalue => setTransientState a key prevalue
  | refundChange prev => gput (set_refund prev)
  | addLogChange txhash =>
      let* s := gget id in
      let l := default [] (logs s !! txhash) in
      let n := u64 (logSize s - 1) in
      if zlen l =? 1 then gput (set_logs (fun m => delete txhash m) n)
      else
        let* l := gpure (go_slice l 0 (zlen l - 1)) in
        gput (set_logs (fun m => <[txhash := l]> m) n)
  | addPreimageChange hash => gput (set_preimages (fun m => delete hash m))
  | accessListAddAccountChange a => on_accessList (DeleteAddress a)
  | accessListAddSlotChange a slot => on_accessList (DeleteSlot a slot)
  end.

(** [if j.dirties[addr]--; j.dirties[addr] == 0 { delete(...) }]. *)
Definition drop_dirty (e : journalEntry) : GM state unit :=
  match dirtied e with
  | None => gret tt
  | Some a =>
      gput (set_dirties (fun d =>
        let n := default 0 (d !! a) - 1 in if n =? 0 then delete a d else <[a := n]> d))
  end.

(** Undoing the given entries, the first one first. *)
Fixpoint undo_all (es : list journalEntry) : GM state unit :=
  match es with
  | [] => gret tt
  | e :: es => undo e ;;; drop_dirty e ;;; undo_all es
  end.

(** [journal.revert]: from the last entry down to the one at [snapshot]. *)
Definition journal_revert (snapshot : Z) : GM state unit :=
  let* es := gget entries in
  undo_all (rev (drop (Z.to_nat snapshot) es)) ;;;
  let* es := gpure (go_slice es 0 snapshot) in
  gput (set_entries (fun _ => es)).

Definition sdb_Snapshot : GM state Z :=
  let* id := gget nextRevisionId in
  gput (set_nextRevisionId (id + 1)) ;;;
  let* n := gget (fun s => zlen (entries s)) in
  gput (set_revisions (fun r => r ++ [mkRevision id n])) ;;;
  gret id.

(** Go's [sort.Search]: binary search for the first index at which [f] holds,
    [n] if there is none. *)
Fixpoint Search_loop (fuel : nat) (f : Z -> Res bool) (i j : Z) : Res Z :=
  if i <? j then
    match fuel with
    | O => NoFuel
    | S fuel =>
        let h := (i + j) / 2 in
        let? b := f h in
        if negb b then Search_loop fuel f (h + 1) j else Search_loop fuel f i h
    end
  else Ret i.
Definition sort_Search (n : Z) (f : Z -> Res bool) : Res Z := Search_loop (Z.to_nat n) f 0 n.

Definition sdb_RevertToSnapshot (revid : Z) : GM state unit :=
  let* revs := gget validRevisions in
  let* idx := gpure (sort_Search (zlen revs)
    (fun i => let? r := go_index revs i in Ret (rev_id r >=? revid))) in
  if idx =? zlen revs then gpanic PanicRevision
  else
    let* r := gpure (go_index revs idx) in
    if negb (rev_id r =? revid) then gpanic PanicRevision
    else
      journal_revert (journalIndex r) ;;;
      let* revs := gpure (go_slice revs 0 idx) in
      gput (set_revisions (fun _ => revs)).

(** ** The end of a transaction *)

Definition clearJournalAndRefund : GM state unit :=
  let* es := gget entries in
  (if zlen es >? 0 then
     gput (set_entries (fun _ => [])) ;;; gput (set_dirties (fun _ => ∅)) ;;; gput (set_refund 0)
   else gret tt) ;;;
  gput (set_revisions (fun _ => [])).

(** One iteration of the loop of [Finalise]. *)
Definition finalise_account (deleteEmptyObjects : bool) (addr : Address) (s : state) : state :=
  match stateObjects s !! addr with
  | None => s
  | Some obj =>
      set_dirty (fun d => {[addr]} ∪ d) (set_pending (fun d => {[addr]} ∪ d)
        (if suicided obj || (deleteEmptyObjects && so_empty obj)
         then set_destruct (fun d => {[addr]} ∪ d) (set_objects (fun m => <[addr := so_setDeleted obj]> m) s)
         else set_objects (fun m => <[addr := so_finalise obj]> m) s))
  end.

(** The dirty addresses are visited in an order Go leaves open; [order] is it. *)
Definition sdb_Finalise (order : list Address) (deleteEmptyObjects : bool) : GM state unit :=
  gput (fun s => foldl (fun s addr => finalise_account deleteEmptyObjects addr s) s order) ;;;
  clearJournalAndRefund.

#[export] Instance state_db : StateDB state := {
  CreateAccount := sdb_CreateAccount;
  SubBalance := sdb_SubBalance;
  AddBalance := sdb_AddBalance;
  GetBalance := sdb_GetBalance;
  GetNonce := sdb_GetNonce;
  SetNonce := sdb_SetNonce;
  GetCodeHash := sdb_GetCodeHash;
  GetCode := sdb_GetCode;
  SetCode := sdb_SetCode;
  GetCodeSize := sdb_GetCodeSize;
  AddRefund := sdb_AddRefund;
  SubRefund := sdb_SubRefund;
  GetRefund := sdb_GetRefund;
  GetCommittedState := sdb_GetCommittedState;
  GetState := sdb_GetState;
  SetState := sdb_SetState;
  GetTransientState := sdb_GetTransientState;
  SetTransientState := sdb_SetTransientState;
  Suicide := sdb_Suicide;
  HasSuicided := sdb_HasSuicided;
  Exist := sdb_Exist;
  Empty := sdb_Empty;
  AddressInAccessList := sdb_AddressInAccessList;
  SlotInAccessList := sdb_SlotInAccessList;
  AddAddressToAccessList := sdb_AddAddressToAccessList;
  AddSlotToAccessList := sdb_AddSlotToAccessList;
  Prepare := sdb_Prepare;
  RevertToSnapshot := sdb_RevertToSnapshot;
  Snapshot := sdb_Snapshot;
  AddLog := sdb_AddLog;
  AddPreimage := sdb_AddPreimage
}.
End state.
