(* ===== verification/StateSpec.v ===== *)
(** * The state database meets its interface

    What the queries of a state answer, as functions of the state that ignore
    the caches; the equivalence of states that answer alike; and the proof that
    undoing the entries a method appends to the journal gives back an
    equivalent state.  The instance [state_spec] of [StateDBSpec] is the
    interface the theorems about the EVM are proved against. *)

From Stdlib Require Import Strings.Byte Sorting.Sorted.
From S2P Require Import Prelude.
From S2P Require Import Common.
From S2P Require Import Params.
From S2P Require Import Rlp.
From S2P Require Import Crypto.
From S2P Require Import StateInterface.
From S2P Require Import StateObject.
From S2P Require Import StateStore.

Section spec.
Context {B : Database} {K : Keccak} {KL : KeccakLaws K} {BL : DatabaseLaws B}.

(** ** What queries answer *)

Definition lookup_object (s : state) (a : Address) : option stateObject :=
  match stateObjects s !! a with
  | Some o => Some o
  | None => match GetAccount a with Some (Some data) => Some (newObject data) | _ => None end
  end.

Definition code_view (a : Address) (o : stateObject) : list byte :=
  if negb (zlen (so_code o) =? 0) then so_code o
  else if so_CodeHash o =? emptyCodeHash then []
  else default [] (ContractCode (keccak256 (address_bytes a)) (so_CodeHash o)).

Definition slot_value (enc : list byte) : Hash :=
  if zlen enc >? 0
  then match Split enc with Ret (_, content, _, _) => Hash_SetBytes content | _ => 0 end
  else 0.

Definition committed_view (destruct : gset Address) (a : Address) (o : stateObject) (key : Hash) : Hash :=
  match pendingStorage o !! key with
  | Some v => v
  | None =>
      match originStorage o !! key with
      | Some v => v
      | None =>
          if bool_decide (a ∈ destruct) then 0
          else match GetStorage a (so_Root o) key with Some enc => slot_value enc | None => 0 end
      end
  end.

Definition state_view (destruct : gset Address) (a : Address) (o : stateObject) (key : Hash) : Hash :=
  match dirtyStorage o !! key with
  | Some v => v
  | None => committed_view destruct a o key
  end.

(** Objects no query tells apart. *)
Record obj_equiv (d : gset Address) (a : Address) (o o' : stateObject) : Prop := {
  eq_Nonce : so_Nonce o = so_Nonce o';
  eq_Balance : so_Balance o = so_Balance o';
  eq_Root : so_Root o = so_Root o';
  eq_CodeHash : so_CodeHash o = so_CodeHash o';
  eq_suicided : suicided o = suicided o';
  eq_deleted : deleted o = deleted o';
  eq_code : code_view a o = code_view a o';
  eq_committed k : committed_view d a o k = committed_view d a o' k;
  eq_state k : state_view d a o k = state_view d a o' k
}.

Record state_equiv (s s' : state) : Prop := {
  eq_destruct : stateObjectsDestruct s = stateObjectsDestruct s';
  eq_objects a : option_Forall2 (obj_equiv (stateObjectsDestruct s) a) (lookup_object s a) (lookup_object s' a);
  eq_refund : refund s = refund s';
  eq_thash : thash s = thash s';
  eq_txIndex : txIndex s = txIndex s';
  eq_logs h : default [] (logs s !! h) = default [] (logs s' !! h);
  eq_logSize : logSize s = logSize s';
  eq_preimages : preimages s = preimages s';
  eq_access : s_accessList s = s_accessList s';
  eq_transient a k : transient_Get (s_transientStorage s) a k = transient_Get (s_transientStorage s') a k
}.

#[export] Instance obj_equiv_equivalence d a : Equivalence (obj_equiv d a).
Proof.
  split.
  - intros o. by split.
  - intros o o' []. by split.
  - intros o1 o2 o3 [] []. split; intros; etrans; eauto.
Qed.

#[export] Instance state_equiv_equivalence : Equivalence state_equiv.
Proof.
  split.
  - intros s. by split.
  - intros s s' []. split; try done. intros a. rewrite <- eq_destruct0. by symmetry.
  - intros s1 s2 s3 [] []. split; intros; try (etrans; eauto; fail).
    etrans; [apply eq_objects0|]. rewrite eq_destruct0. apply eq_objects1.
Qed.

(** States with the same data. *)
Lemma state_equiv_same s s' :
  stateObjects s = stateObjects s' -> stateObjectsDestruct s = stateObjectsDestruct s' ->
  refund s = refund s' -> thash s = thash s' -> txIndex s = txIndex s' -> logs s = logs s' ->
  logSize s = logSize s' -> preimages s = preimages s' -> s_accessList s = s_accessList s' ->
  s_transientStorage s = s_transientStorage s' -> state_equiv s s'.
Proof.
  intros H1 H2 H3 H4 H5 H6 H7 H8 H9 H10. split; try done; [|by rewrite H6|by rewrite H10].
  intros a. unfold lookup_object. rewrite H1. reflexivity.
Qed.

(** ** The invariant *)

Definition object_ok (a : Address) (o : stateObject) : Prop :=
  is_u64 (so_Nonce o) /\ (code_view a o = [] \/ so_CodeHash o = keccak256 (code_view a o)) /\
  zlen (code_view a o) < 2 ^ 60.

Definition rev_lt (r r' : revision) : Prop := rev_id r < rev_id r'.

(** The 64-bit counters. *)
Definition counters_ok (s : state) : Prop := is_u64 (logSize s) /\ is_u64 (refund s).

Record state_ok (s : state) : Prop := {
  ok_objects a o : lookup_object s a = Some o -> object_ok a o;
  ok_access : access_ok (s_accessList s);
  ok_counters : counters_ok s;
  ok_rev_id r : r ∈ validRevisions s -> rev_id r < nextRevisionId s;
  ok_rev_sorted : StronglySorted rev_lt (validRevisions s);
  ok_rev_index r : r ∈ validRevisions s -> 0 <= journalIndex r <= zlen (entries s)
}.

(** [s'] evolved from [s] by changes that undoing the new entries undoes. *)
Record state_ext (s s' : state) : Prop := {
  ext_undo : exists es s0, entries s' = entries s ++ es /\
    undo_all (rev es) s' = Ret (tt, s0) /\ state_equiv s0 s;
  ext_revs : exists rs, validRevisions s' = validRevisions s ++ rs /\
    Forall (fun r => nextRevisionId s <= rev_id r) rs;
  ext_next : nextRevisionId s <= nextRevisionId s';
  ext_access a : ContainsAddress (s_accessList s) a = true -> ContainsAddress (s_accessList s') a = true
}.

(** A change of caches only. *)
Record quiet (s s' : state) : Prop := {
  quiet_entries : entries s' = entries s;
  quiet_revs : validRevisions s' = validRevisions s;
  quiet_next : nextRevisionId s' = nextRevisionId s;
  quiet_equiv : state_equiv s' s
}.

#[export] Instance quiet_preorder : PreOrder quiet.
Proof.
  split.
  - intros s. by split.
  - intros s1 s2 s3 [] []. split; try congruence. by etrans.
Qed.

Lemma object_ok_equiv d a o o' : obj_equiv d a o o' -> object_ok a o -> object_ok a o'.
Proof.
  intros [H1 _ _ H2 _ _ H3 _ _] (G1 & G2 & G3). unfold object_ok. by rewrite <- H1, <- H2, <- H3.
Qed.

Lemma ok_objects_equiv s s' :
  state_equiv s' s -> (forall a o, lookup_object s a = Some o -> object_ok a o) ->
  forall a o, lookup_object s' a = Some o -> object_ok a o.
Proof.
  intros He Hok a o Ho. pose proof (eq_objects _ _ He a) as Ha. rewrite Ho in Ha.
  inversion Ha as [o1 o2 Heq E1 E2|]; subst. symmetry in E2. symmetry in Heq. eapply object_ok_equiv; eauto.
Qed.

Lemma state_ok_quiet s s' : quiet s s' -> state_ok s -> state_ok s'.
Proof.
  intros [H1 H2 H3 H4] []. split; rewrite ?H1, ?H2, ?H3; try done.
  - by eapply ok_objects_equiv.
  - by rewrite (eq_access _ _ H4).
  - unfold counters_ok. by rewrite (eq_logSize _ _ H4), (eq_refund _ _ H4).
Qed.

Lemma state_ext_quiet s s' : quiet s s' -> state_ext s s'.
Proof.
  intros [H1 H2 H3 H4]. split.
  - exists [], s'. by rewrite app_nil_r.
  - exists []. by rewrite app_nil_r.
  - lia.
  - intros a. by rewrite (eq_access _ _ H4).
Qed.

(** ** Reading and writing objects *)

Lemma lookup_set_object s a o b :
  lookup_object (set_objects (fun m => <[a := o]> m) s) b = if decide (a = b) then Some o else lookup_object s b.
Proof.
  unfold lookup_object. cbn. destruct (decide (a = b)) as [<-|Hab].
  - by rewrite lookup_insert_eq.
  - by rewrite lookup_insert_ne.
Qed.

Lemma equiv_set_object s1 s2 a o1 o2 :
  state_equiv s1 s2 -> obj_equiv (stateObjectsDestruct s1) a o1 o2 ->
  state_equiv (set_objects (fun m => <[a := o1]> m) s1) (set_objects (fun m => <[a := o2]> m) s2).
Proof.
  intros [] Ho. split; try done. intros b. rewrite !lookup_set_object. case_decide; [|done].
  subst. by apply Some_Forall2.
Qed.

(** Setting the object that is there already. *)
Lemma equiv_set_same s a o :
  lookup_object s a = Some o -> state_equiv (set_objects (fun m => <[a := o]> m) s) s.
Proof.
  intros Ho. split; try reflexivity. intros b. rewrite lookup_set_object. case_decide; [|reflexivity].
  subst. rewrite Ho. reflexivity.
Qed.

Lemma setError_quiet err s : exists s', setError err s = Ret (tt, s') /\ quiet s s' /\ stateObjects s' = stateObjects s.
Proof.
  unfold setError, gput. eexists. split; [done|]. destruct (dbErr s); (split; [|done]); [reflexivity|].
  split; try done; by apply state_equiv_same.
Qed.

Lemma object_eq a f s o :
  stateObjects s !! a = Some o -> object a f s = Ret (tt, set_objects (fun m => <[a := f o]> m) s).
Proof. unfold object. by intros ->. Qed.

Lemma getDeletedStateObject_eq a s :
  exists s', getDeletedStateObject a s = Ret (lookup_object s a, s') /\ quiet s s' /\
    stateObjects s' !! a = lookup_object s a /\
    (forall b, b <> a -> stateObjects s' !! b = stateObjects s !! b).
Proof.
  unfold getDeletedStateObject, gbind, gget. destruct (stateObjects s !! a) as [o|] eqn:Ho.
  { exists s. unfold lookup_object. by rewrite Ho. }
  destruct (GetAccount a) as [[data|]|] eqn:Hg.
  - assert (lookup_object s a = Some (newObject data)) as Hl by (unfold lookup_object; by rewrite Ho, Hg).
    eexists. split; [unfold setStateObject, gput, gret; by rewrite Hl|]. split_and!.
    + split; try done; by apply equiv_set_same.
    + cbn. by rewrite lookup_insert_eq.
    + intros b Hb. cbn. by rewrite lookup_insert_ne.
  - exists s. unfold lookup_object. by rewrite Ho, Hg.
  - destruct (setError_quiet (AccountError a) s) as (s' & -> & Hq & Hs). exists s'.
    unfold lookup_object. rewrite Ho, Hg. rewrite Hs. done.
Qed.

(** The object [getStateObject] returns. *)
Definition live_object (s : state) (a : Address) : option stateObject :=
  match lookup_object s a with
  | Some o => if deleted o then None else Some o
  | None => None
  end.

Lemma live_object_Some s a o :
  live_object s a = Some o <-> lookup_object s a = Some o /\ deleted o = false.
Proof.
  unfold live_object. destruct (lookup_object s a) as [o'|]; [|naive_solver].
  destruct (deleted o') eqn:E; split; [done|by intros [[= ->] ?]; congruence|by intros [= ->]|by intros [[= ->] _]].
Qed.

Lemma getStateObject_eq a s :
  exists s', getStateObject a s = Ret (live_object s a, s') /\ quiet s s' /\
    (forall o, live_object s a = Some o -> stateObjects s' !! a = Some o) /\
    (forall b, b <> a -> stateObjects s' !! b = stateObjects s !! b).
Proof.
  destruct (getDeletedStateObject_eq a s) as (s' & Hg & Hq & Ho & Hb).
  exists s'. unfold getStateObject, gbind. rewrite Hg. split_and!; try done.
  - unfold live_object. by destruct (lookup_object s a) as [o|]; [destruct (deleted o)|].
  - intros o [Hl _]%live_object_Some. congruence.
Qed.

Lemma live_object_equiv s s' a :
  state_equiv s s' ->
  option_Forall2 (obj_equiv (stateObjectsDestruct s) a) (live_object s a) (live_object s' a).
Proof.
  intros He. pose proof (eq_objects _ _ He a) as Ha. unfold live_object.
  inversion Ha as [o1 o2 Heq E1 E2|E1 E2]; [|constructor].
  rewrite (eq_deleted _ _ _ _ Heq). destruct (deleted o2); by constructor.
Qed.

(** ** Objects after a change *)

Lemma obj_equiv_setBalance d a o o' v :
  obj_equiv d a o o' -> obj_equiv d a (so_setBalance v o) (so_setBalance v o').
Proof. by intros []; split. Qed.

Lemma obj_equiv_setNonce d a o o' v :
  obj_equiv d a o o' -> obj_equiv d a (so_setNonce v o) (so_setNonce v o').
Proof. by intros []; split. Qed.

Lemma obj_equiv_setSuicided d a o o' v :
  obj_equiv d a o o' -> obj_equiv d a (so_setSuicided v o) (so_setSuicided v o').
Proof. by intros []; split. Qed.

Lemma obj_equiv_setCode d a o o' h c :
  obj_equiv d a o o' -> obj_equiv d a (so_setCode h c o) (so_setCode h c o').
Proof. by intros []; split. Qed.

Lemma state_view_setState d a o k v j :
  state_view d a (so_setState k v o) j = if decide (k = j) then v else state_view d a o j.
Proof.
  unfold state_view. cbn. destruct (decide (k = j)) as [<-|Hk].
  - by rewrite lookup_insert_eq.
  - by rewrite lookup_insert_ne.
Qed.

Lemma obj_equiv_setState d a o o' k v :
  obj_equiv d a o o' -> obj_equiv d a (so_setState k v o) (so_setState k v o').
Proof.
  intros []; split; try done. intros j. rewrite !state_view_setState. by case_decide.
Qed.

(** ** Undoing respects equivalence *)

Definition simulates (m : GM state unit) : Prop :=
  forall s1 s2 t1, state_equiv s1 s2 -> m s1 = Ret (tt, t1) ->
    exists t2, m s2 = Ret (tt, t2) /\ state_equiv t1 t2.

Lemma simulates_gbind m k : simulates m -> simulates k -> simulates (m ;;; k).
Proof.
  intros Hm Hk s1 s2 t1 He. unfold gbind. destruct (m s1) as [[[] u1]| |] eqn:E; [|done..].
  destruct (Hm _ _ _ He E) as (u2 & -> & He2). by apply Hk.
Qed.

Lemma simulates_gput f :
  (forall s1 s2, state_equiv s1 s2 -> state_equiv (f s1) (f s2)) -> simulates (gput f).
Proof. intros Hf s1 s2 t1 He [= <-]. eexists. split; [done|]. by apply Hf. Qed.

Lemma simulates_gret : simulates (gret tt).
Proof. intros s1 s2 t1 He [= <-]. by eexists. Qed.

(** Changing a live object. *)
Lemma simulates_live a (f : stateObject -> stateObject) (missing : GM state unit) :
  (forall d o o', obj_equiv d a o o' -> obj_equiv d a (f o) (f o')) -> simulates missing ->
  simulates (let* o := getStateObject a in match o with Some _ => object a f | None => missing end).
Proof.
  intros Hf Hm s1 s2 t1 He. unfold gbind.
  destruct (getStateObject_eq a s1) as (u1 & -> & Hq1 & Ho1 & _).
  destruct (getStateObject_eq a s2) as (u2 & -> & Hq2 & Ho2 & _).
  assert (state_equiv u1 u2) as Hu.
  { etrans; [apply Hq1|]. etrans; [exact He|]. symmetry. apply Hq2. }
  pose proof (live_object_equiv _ _ a He) as Hl.
  inversion Hl as [o1 o2 Heq E1 E2|E1 E2].
  - rewrite <- E1 in Ho1. rewrite <- E2 in Ho2. rewrite (object_eq _ _ _ o1) by by apply Ho1.
    intros [= <-]. eexists. split; [by apply object_eq, Ho2|].
    apply equiv_set_object; [done|]. apply Hf. by rewrite (eq_destruct _ _ (quiet_equiv _ _ Hq1)).
  - by apply Hm.
Qed.

Lemma equiv_set_destruct s1 s2 a :
  state_equiv s1 s2 ->
  lookup_object s1 a = lookup_object s2 a ->
  state_equiv (set_destruct (fun d => d ∖ {[a]}) s1) (set_destruct (fun d => d ∖ {[a]}) s2).
Proof.
  intros [] Ha. split; try done; cbn; [by rewrite eq_destruct0|]. intros b.
  change (option_Forall2 (obj_equiv (stateObjectsDestruct s1 ∖ {[a]}) b) (lookup_object s1 b) (lookup_object s2 b)).
  destruct (decide (a = b)) as [<-|Hab]; [rewrite Ha; reflexivity|].
  specialize (eq_objects0 b). inversion eq_objects0 as [o1 o2 Heq E1 E2|E1 E2]; constructor.
  assert (bool_decide (b ∈ stateObjectsDestruct s1 ∖ {[a]}) = bool_decide (b ∈ stateObjectsDestruct s1)) as Hd
    by (apply bool_decide_ext; set_solver).
  assert (forall o k, committed_view (stateObjectsDestruct s1 ∖ {[a]}) b o k
    = committed_view (stateObjectsDestruct s1) b o k) as Hc by (intros o k; unfold committed_view; by rewrite Hd).
  assert (forall o k, state_view (stateObjectsDestruct s1 ∖ {[a]}) b o k
    = state_view (stateObjectsDestruct s1) b o k) as Hs by (intros o k; unfold state_view; by rewrite Hc).
  destruct Heq. split; try done; intros k; by rewrite ?Hc, ?Hs.
Qed.

Lemma object_object a f g s : (object a f ;;; object a g) s = object a (fun o => g (f o)) s.
Proof.
  unfold gbind, object. destruct (stateObjects s !! a) as [o|]; [|done].
  unfold setStateObject, gput. cbn. rewrite lookup_insert_eq. unfold set_objects. cbn.
  by rewrite insert_insert_eq.
Qed.

Lemma simulates_ext m m' : (forall s, m s = m' s) -> simulates m -> simulates m'.
Proof. intros H Hm s1 s2 t1 He. rewrite <- !H. by apply Hm. Qed.

Lemma simulates_access (m : GM accessList unit) : simulates (on_accessList m).
Proof.
  intros s1 s2 t1 He. unfold on_accessList, gzoom. rewrite <- (eq_access _ _ He).
  destruct (m (s_accessList s1)) as [[[] al]| |]; [|done..]. intros [= <-].
  eexists. split; [done|]. by destruct He; split.
Qed.

Lemma simulates_gpanic p : simulates (gpanic p).
Proof. done. Qed.

Lemma equiv_set_logs s1 s2 h l n :
  state_equiv s1 s2 ->
  state_equiv (set_logs (fun m => <[h := l]> m) n s1) (set_logs (fun m => <[h := l]> m) n s2).
Proof.
  intros []. split; try done. intros h'. cbn. destruct (decide (h = h')) as [<-|].
  - by rewrite !lookup_insert_eq.
  - by rewrite !lookup_insert_ne.
Qed.

Lemma equiv_delete_logs s1 s2 h n :
  state_equiv s1 s2 ->
  state_equiv (set_logs (fun m => delete h m) n s1) (set_logs (fun m => delete h m) n s2).
Proof.
  intros []. split; try done. intros h'. cbn. destruct (decide (h = h')) as [<-|].
  - by rewrite !lookup_delete_eq.
  - by rewrite !lookup_delete_ne.
Qed.

Lemma simulates_undo_log h : simulates (undo (addLogChange h)).
Proof.
  intros s1 s2 t1 He. cbn. unfold gbind, gget. cbn [id].
  rewrite <- (eq_logs _ _ He h), <- (eq_logSize _ _ He).
  destruct (zlen _ =? 1).
  { intros [= <-]. eexists. split; [done|]. by apply equiv_delete_logs. }
  unfold gpure. destruct (go_slice _ 0 _) as [l| |]; [|done..]. intros [= <-].
  eexists. split; [done|]. by apply equiv_set_logs.
Qed.

Lemma simulates_undo_create a : simulates (undo (createObjectChange a)).
Proof.
  apply simulates_gbind; apply simulates_gput; intros s1 s2 []; split; try done.
  intros b. specialize (eq_objects0 b). unfold lookup_object in *. cbn.
  destruct (decide (a = b)) as [<-|].
  - rewrite !lookup_delete_eq. reflexivity.
  - by rewrite !lookup_delete_ne.
Qed.

Lemma simulates_undo_reset a prev pd : simulates (undo (resetObjectChange a prev pd)).
Proof.
  intros s1 s2 t1 He. cbn. unfold gbind, setStateObject, gput.
  assert (state_equiv (set_objects (fun m => <[a := prev]> m) s1) (set_objects (fun m => <[a := prev]> m) s2)) as He'.
  { apply equiv_set_object; [done|]. reflexivity. }
  destruct (negb pd); intros [= <-]; eexists; (split; [done|]); [|done].
  apply equiv_set_destruct; [done|]. by rewrite !lookup_set_object, !decide_True by done.
Qed.

Lemma simulates_undo_suicide a prev prevbalance : simulates (undo (suicideChange a prev prevbalance)).
Proof.
  apply (simulates_ext (let* o := getStateObject a in
    match o with
    | Some _ => object a (fun o => so_setBalance prevbalance (so_setSuicided prev o))
    | None => gret tt
    end)).
  - intros s. cbn [undo]. unfold gbind. destruct (getStateObject a s) as [[[o|] s']| |]; [|done..].
    pose proof (object_object a (so_setSuicided prev) (so_setBalance prevbalance) s') as H.
    unfold gbind in H. by rewrite H.
  - apply simulates_live; [|apply simulates_gret].
    intros. by apply obj_equiv_setBalance, obj_equiv_setSuicided.
Qed.

Lemma undo_simulates e : simulates (undo e).
Proof.
  destruct e; first [apply simulates_undo_log | apply simulates_undo_create | apply simulates_undo_reset
    | apply simulates_undo_suicide | apply simulates_access | apply simulates_gret
    | apply simulates_live; [|apply simulates_gpanic]
    | apply simulates_gput];
    auto using obj_equiv_setBalance, obj_equiv_setNonce, obj_equiv_setCode, obj_equiv_setState.
  - by intros s1 s2 []; split.
  - intros s1 s2 []. split; try done. cbn. by rewrite eq_preimages0.
  - intros s1 s2 []. split; try done. intros b k. cbn.
    rewrite !transient_Get_Set. by case_decide.
Qed.

Lemma drop_dirty_eq e s : exists s', drop_dirty e s = Ret (tt, s') /\ quiet s s'.
Proof.
  unfold drop_dirty. destruct (dirtied e); eexists; (split; [done|]); [|reflexivity].
  split; try done; by apply state_equiv_same.
Qed.

Lemma undo_all_simulates es : simulates (undo_all es).
Proof.
  induction es as [|e es IH]; [apply simulates_gret|]. cbn [undo_all].
  apply simulates_gbind; [apply undo_simulates|]. apply simulates_gbind; [|done].
  intros s1 s2 t1 He Ht. destruct (drop_dirty_eq e s1) as (u1 & H1 & Hq1). rewrite H1 in Ht. injection Ht as <-.
  destruct (drop_dirty_eq e s2) as (u2 & H2 & Hq2). exists u2. split; [done|].
  etrans; [apply Hq1|]. etrans; [exact He|]. symmetry. apply Hq2.
Qed.

Lemma undo_all_app es es' s :
  undo_all (es ++ es') s = (undo_all es ;;; undo_all es') s.
Proof.
  revert s. induction es as [|e es IH]; intros s; [done|]. cbn. unfold gbind in *.
  destruct (undo e s) as [[[] s1]| |]; [|done..]. destruct (drop_dirty e s1) as [[[] s2]| |]; [|done..].
  apply IH.
Qed.

#[export] Instance state_ext_preorder : PreOrder state_ext.
Proof.
  split.
  - intros s. apply state_ext_quiet. reflexivity.
  - intros s1 s2 s3 [(es & t & Hes & Hu & He) (rs & Hrs & Hr) Hn Ha]
      [(es' & t' & Hes' & Hu' & He') (rs' & Hrs' & Hr') Hn' Ha'].
    split; [|exists (rs ++ rs')|lia|eauto].
    + destruct (undo_all_simulates (rev es) s2 t' t) as (t2 & Hu2 & He2); [by symmetry|done|].
      exists (es ++ es'), t2. rewrite app_assoc, <- Hes, rev_app_distr, undo_all_app. unfold gbind.
      rewrite Hu'. split_and!; try done. etrans; [symmetry; exact He2|exact He].
    + rewrite app_assoc, <- Hrs. split; [done|]. apply Forall_app. split; [done|].
      revert Hr'. apply Forall_impl. intros r. lia.
Qed.
End spec.
