(* ===== verification/StateSafe.v ===== *)
(** * The methods of the state database

    Every method keeps the invariant; queries only touch caches and answer
    what the views of StateSpec.v say; the changes of every other method are
    undone by the entries it appends; reverting to a live snapshot restores the
    state.  [state_spec] collects them as the instance of the interface. *)

From Stdlib Require Import Strings.Byte Sorting.Sorted.
From S2P Require Import Prelude.
From S2P Require Import Common.
From S2P Require Import Params.
From S2P Require Import Rlp.
From S2P Require Import Crypto.
From S2P Require Import StateInterface.
From S2P Require Import StateObject.
From S2P Require Import StateStore.
From S2P Require Import StateSpec.

Section safe.
Context {B : Database} {K : Keccak} {KL : KeccakLaws K} {BL : DatabaseLaws B}.

(** ** Queries *)

Lemma quiet_destruct s s' : quiet s s' -> stateObjectsDestruct s' = stateObjectsDestruct s.
Proof. intros H. apply (eq_destruct _ _ (quiet_equiv _ _ H)). Qed.

Lemma lookup_stored s a o : stateObjects s !! a = Some o -> lookup_object s a = Some o.
Proof. intros H. unfold lookup_object. by rewrite H. Qed.

(** Replacing a stored object by an equivalent one. *)
Lemma quiet_set_object s a o o' :
  stateObjects s !! a = Some o -> obj_equiv (stateObjectsDestruct s) a o' o ->
  quiet s (set_objects (fun m => <[a := o']> m) s).
Proof.
  intros Ho He. split; try done. etrans; [by apply (equiv_set_object s s a o' o)|].
  by apply equiv_set_same, lookup_stored.
Qed.

(** The object stays in store, up to its caches. *)
Definition still (a : Address) (o : stateObject) (s s' : state) : Prop :=
  quiet s s' /\ exists o', stateObjects s' !! a = Some o' /\ obj_equiv (stateObjectsDestruct s) a o' o.

Lemma still_refl a o s : stateObjects s !! a = Some o -> still a o s s.
Proof. intros H. split; [reflexivity|]. by exists o. Qed.

Lemma still_set a o o' s :
  stateObjects s !! a = Some o -> obj_equiv (stateObjectsDestruct s) a o' o ->
  still a o s (set_objects (fun m => <[a := o']> m) s).
Proof.
  intros Ho He. split; [by eapply quiet_set_object|]. exists o'. cbn. by rewrite lookup_insert_eq.
Qed.

(** Recording an error first. *)
Lemma wp_setError {A} err (k : unit -> GM state A) Q s :
  (forall s', quiet s s' -> stateObjects s' = stateObjects s -> wp no_panic (k tt) Q s') ->
  wp no_panic (gbind (setError err) k) Q s.
Proof.
  intros H. apply wp_gbind. destruct (setError_quiet err s) as (s' & Hs & Hq & Ho).
  unfold wp. rewrite Hs. by apply H.
Qed.

Lemma still_quiet a o s s1 s2 :
  quiet s s1 -> stateObjects s1 !! a = Some o -> still a o s1 s2 -> still a o s s2.
Proof.
  intros Hq Ho [Hq' (o' & Ho' & He)]. split; [by etrans|]. exists o'. by rewrite <- (quiet_destruct _ _ Hq).
Qed.

Lemma so_Code_ok a o s :
  stateObjects s !! a = Some o ->
  wp no_panic (so_Code a o) (fun c s' => c = code_view a o /\ still a o s s') s.
Proof.
  intros Ho. unfold so_Code, code_view.
  destruct (negb (zlen (so_code o) =? 0)) eqn:E; [apply wp_gret; split; [done|by apply still_refl]|].
  destruct (so_CodeHash o =? emptyCodeHash) eqn:Eh; [apply wp_gret; split; [done|by apply still_refl]|].
  set (c := default [] _).
  assert (obj_equiv (stateObjectsDestruct s) a (so_cacheCode c o) o) as He.
  { split; try done. unfold code_view. cbn. rewrite E, Eh. fold c. by destruct (negb (zlen c =? 0)) eqn:Ec. }
  unfold c in *. clear c. apply wp_gbind. destruct (ContractCode _ _) as [code|] eqn:Ec; cbn [default] in *.
  - apply wp_gret, wp_gbind. unfold wp at 1. rewrite (object_eq _ _ _ o Ho). split; [done|]. by apply still_set.
  - apply wp_setError. intros s1 Hq Hs1. rewrite <- Hs1 in Ho. apply wp_gret, wp_gbind. unfold wp at 1.
    rewrite (object_eq _ _ _ o Ho). split; [done|]. apply (still_quiet _ _ _ _ _ Hq Ho), still_set; [done|].
    by rewrite (quiet_destruct _ _ Hq).
Qed.

Lemma so_CodeSize_ok a o s :
  stateObjects s !! a = Some o ->
  wp no_panic (so_CodeSize a o) (fun _ s' => still a o s s') s.
Proof.
  intros Ho. unfold so_CodeSize. repeat case_match; try (by apply wp_gret, still_refl).
  apply wp_setError. intros s1 Hq Hs1. apply wp_gret. apply (still_quiet _ _ _ _ _ Hq); [by rewrite Hs1|].
  apply still_refl. by rewrite Hs1.
Qed.

Lemma decodeSlot_ok a k enc s :
  zlen enc < 2 ^ 63 ->
  wp no_panic (decodeSlot a k enc)
    (fun v s' => v = slot_value enc /\ quiet s s' /\ stateObjects s' = stateObjects s) s.
Proof.
  intros Hlen. unfold decodeSlot, slot_value. destruct (zlen enc >? 0); [|by apply wp_gret].
  destruct (Split_ret enc Hlen) as ([[[k' content] rest] err] & Hs). rewrite Hs.
  apply wp_gbind. eapply wp_gpure; [done|]. destruct err.
  - apply wp_setError. intros s1 Hq Hs1. by apply wp_gret.
  - by apply wp_gbind, wp_gret, wp_gret.
Qed.

Lemma committed_view_cacheState d a o k v j :
  committed_view d a o k = v -> (pendingStorage o !! k = None) ->
  committed_view d a (so_cacheState k v o) j = committed_view d a o j.
Proof.
  intros Hv Hp. unfold committed_view in *. cbn. destruct (pendingStorage o !! j) eqn:Ej; [done|].
  destruct (decide (k = j)) as [<-|Hk].
  - rewrite lookup_insert_eq. by rewrite Hp in Hv.
  - by rewrite lookup_insert_ne.
Qed.

Lemma so_GetCommittedState_ok a o k s :
  stateObjects s !! a = Some o ->
  wp no_panic (so_GetCommittedState a o k)
    (fun v s' => v = committed_view (stateObjectsDestruct s) a o k /\ still a o s s') s.
Proof.
  intros Ho. unfold so_GetCommittedState, committed_view.
  destruct (pendingStorage o !! k) as [v|] eqn:Ep; [apply wp_gret; split; [done|by apply still_refl]|].
  destruct (originStorage o !! k) as [v|] eqn:Eo; [apply wp_gret; split; [done|by apply still_refl]|].
  apply wp_gbind, wp_gget. case_bool_decide as Ed; [apply wp_gret; split; [done|by apply still_refl]|].
  destruct (GetStorage a (so_Root o) k) as [enc|] eqn:Eg.
  - apply wp_gbind. eapply wp_mono; [by apply decodeSlot_ok; eapply GetStorage_length|].
    intros v s1 (-> & Hq & Hs1). rewrite <- Hs1 in Ho. apply wp_gbind. unfold wp at 1.
    rewrite (object_eq _ _ _ o Ho). split; [done|]. apply (still_quiet _ _ _ _ _ Hq Ho), still_set; [done|].
    rewrite (quiet_destruct _ _ Hq).
    assert (forall j, committed_view (stateObjectsDestruct s) a (so_cacheState k (slot_value enc) o) j
      = committed_view (stateObjectsDestruct s) a o j) as Hc.
    { intros j. apply committed_view_cacheState; [|done]. unfold committed_view. by rewrite Ep, Eo, bool_decide_false, Eg. }
    split; try done. intros j. unfold state_view. by rewrite Hc.
  - apply wp_setError. intros s1 Hq Hs1. apply wp_gret. split; [done|].
    apply (still_quiet _ _ _ _ _ Hq); [by rewrite Hs1|]. apply still_refl. by rewrite Hs1.
Qed.

Lemma so_GetState_ok a o k s :
  stateObjects s !! a = Some o ->
  wp no_panic (so_GetState a o k)
    (fun v s' => v = state_view (stateObjectsDestruct s) a o k /\ still a o s s') s.
Proof.
  intros Ho. unfold so_GetState, state_view. destruct (dirtyStorage o !! k).
  - apply wp_gret. split; [done|by apply still_refl].
  - by apply so_GetCommittedState_ok.
Qed.

Lemma query_ok {A} a (missing : A) f s (P : A -> Prop) :
  (forall o s', live_object s a = Some o -> stateObjects s' !! a = Some o -> quiet s s' ->
     wp no_panic (f o) (fun r s2 => P r /\ quiet s' s2) s') ->
  (live_object s a = None -> P missing) ->
  wp no_panic (query a missing f) (fun r s' => P r /\ quiet s s') s.
Proof.
  intros Hf Hm. unfold query. apply wp_gbind.
  destruct (getStateObject_eq a s) as (s1 & Hg & Hq & Ho & _). unfold wp at 1. rewrite Hg.
  destruct (live_object s a) as [o|] eqn:El.
  - eapply wp_mono; [by apply Hf; [|apply Ho|]|]. intros r s2 [Hr Hq2]. split; [done|]. by etrans.
  - apply wp_gret. split; [by apply Hm|done].
Qed.

(** ** Changes *)

Definition mutates {A} (m : GM state A) : Prop :=
  forall s, state_ok s -> wp no_panic m (fun _ s' => state_ok s' /\ state_ext s s') s.

(** The state with the entry appended. *)
Definition appended (e : journalEntry) (s : state) : state :=
  match dirtied e with
  | Some a => set_dirties (fun d => <[a := default 0 (d !! a) + 1]> d) (set_entries (fun es => es ++ [e]) s)
  | None => set_entries (fun es => es ++ [e]) s
  end.

Lemma journal_append_eq e s : journal_append e s = Ret (tt, appended e s).
Proof. unfold journal_append, appended, gbind, gput. by destruct (dirtied e). Qed.

Lemma appended_entries e s : entries (appended e s) = entries s ++ [e].
Proof. unfold appended. by destruct (dirtied e). Qed.

(** The rest of the state is the same. *)
Record same_data (s s' : state) : Prop := {
  data_objects : stateObjects s' = stateObjects s;
  data_destruct : stateObjectsDestruct s' = stateObjectsDestruct s;
  data_refund : refund s' = refund s;
  data_thash : thash s' = thash s;
  data_txIndex : txIndex s' = txIndex s;
  data_logs : logs s' = logs s;
  data_logSize : logSize s' = logSize s;
  data_preimages : preimages s' = preimages s;
  data_access : s_accessList s' = s_accessList s;
  data_transient : s_transientStorage s' = s_transientStorage s;
  data_revs : validRevisions s' = validRevisions s;
  data_next : nextRevisionId s' = nextRevisionId s
}.

Lemma appended_data e s : same_data s (appended e s).
Proof. unfold appended. by destruct (dirtied e); split. Qed.

Lemma same_data_equiv s s' : same_data s s' -> state_equiv s' s.
Proof. intros []. by apply state_equiv_same. Qed.

(** A state after one or two new entries. *)
Lemma ext_undo_list s s' es s0 :
  entries s' = entries s ++ es -> undo_all (rev es) s' = Ret (tt, s0) -> state_equiv s0 s ->
  validRevisions s' = validRevisions s -> nextRevisionId s' = nextRevisionId s ->
  (forall a, ContainsAddress (s_accessList s) a = true -> ContainsAddress (s_accessList s') a = true) ->
  state_ext s s'.
Proof.
  intros He Hu Hq Hr Hn Ha. split; [by exists es, s0| |by rewrite Hn|done].
  exists []. by rewrite app_nil_r.
Qed.

Lemma undo_all_one e s s0 :
  undo e s = Ret (tt, s0) -> exists s1, undo_all [e] s = Ret (tt, s1) /\ state_equiv s1 s0.
Proof.
  intros H. cbn. unfold gbind. rewrite H. destruct (drop_dirty_eq e s0) as (s1 & -> & Hq).
  exists s1. split; [done|]. apply Hq.
Qed.

(** What the invariant needs after a change. *)
Lemma state_ok_grown s s' es :
  state_ok s -> (forall a o, lookup_object s' a = Some o -> object_ok a o) ->
  access_ok (s_accessList s') -> counters_ok s' ->
  entries s' = entries s ++ es -> validRevisions s' = validRevisions s ->
  nextRevisionId s' = nextRevisionId s -> state_ok s'.
Proof.
  intros [] H1 H2 H3 He Hr Hn. split; rewrite ?Hr, ?Hn; try done.
  intros r Hin. rewrite He, zlen_app. pose proof (zlen_nonneg es). specialize (ok_rev_index r Hin). lia.
Qed.

Lemma mutates_one s s' e s0 :
  state_ok s -> (forall a o, lookup_object s' a = Some o -> object_ok a o) ->
  access_ok (s_accessList s') -> counters_ok s' ->
  entries s' = entries s ++ [e] -> validRevisions s' = validRevisions s ->
  nextRevisionId s' = nextRevisionId s ->
  (forall a, ContainsAddress (s_accessList s) a = true -> ContainsAddress (s_accessList s') a = true) ->
  undo e s' = Ret (tt, s0) -> state_equiv s0 s ->
  state_ok s' /\ state_ext s s'.
Proof.
  intros Hok H1 H2 H3 He Hr Hn Ha Hu Hq. split; [by eapply state_ok_grown|].
  destruct (undo_all_one e s' s0 Hu) as (s1 & Hu1 & Hq1).
  eapply ext_undo_list; try done. by etrans.
Qed.

(** A change that leaves the objects, the access list and the logs alone. *)
Lemma mutates_other s s' e s0 :
  state_ok s -> stateObjects s' = stateObjects s -> s_accessList s' = s_accessList s ->
  logSize s' = logSize s -> is_u64 (refund s') -> entries s' = entries s ++ [e] ->
  validRevisions s' = validRevisions s -> nextRevisionId s' = nextRevisionId s -> undo e s' = Ret (tt, s0) -> state_equiv s0 s ->
  state_ok s' /\ state_ext s s'.
Proof.
  intros Hok Ho Ha Hl Hrf He Hr Hn Hu Hq. eapply mutates_one; try done.
  - intros a o. unfold lookup_object. rewrite Ho. apply (ok_objects _ Hok).
  - rewrite Ha. apply (ok_access _ Hok).
  - split; [rewrite Hl; apply (ok_counters _ Hok)|done].
  - by rewrite Ha.
Qed.

(** A changed object, with the entry that undoes the change. *)
Lemma object_change s a o f g e :
  state_ok s -> stateObjects s !! a = Some o -> object_ok a (f o) ->
  (forall s', stateObjects s' !! a = Some (f o) ->
     undo e s' = Ret (tt, set_objects (fun m => <[a := g (f o)]> m) s')) ->
  obj_equiv (stateObjectsDestruct s) a (g (f o)) o ->
  let s' := set_objects (fun m => <[a := f o]> m) (appended e s) in
  state_ok s' /\ state_ext s s'.
Proof.
  intros Hok Ho Hfo Hu He s'. pose proof (appended_data e s) as Hd.
  assert (stateObjects s' !! a = Some (f o)) as Hs' by (unfold s'; cbn; by rewrite lookup_insert_eq).
  eapply mutates_one; [done|..|apply Hu, Hs'|].
  - intros b o'. unfold s'. rewrite lookup_set_object. case_decide; [by intros [= <-]; subst|].
    unfold lookup_object. rewrite (data_objects _ _ Hd). apply (ok_objects _ Hok).
  - unfold s'. cbn. rewrite (data_access _ _ Hd). apply (ok_access _ Hok).
  - unfold s', counters_ok. cbn. rewrite (data_logSize _ _ Hd), (data_refund _ _ Hd). apply (ok_counters _ Hok).
  - unfold s'. cbn. apply appended_entries.
  - unfold s'. cbn. apply Hd.
  - unfold s'. cbn. apply Hd.
  - unfold s'. cbn. by rewrite (data_access _ _ Hd).
  - etrans; [|by apply equiv_set_same, (lookup_stored s a o)].
    etrans; [|apply equiv_set_object; [apply (same_data_equiv _ _ Hd)|]].
    + unfold s', set_objects. cbn. apply state_equiv_same; try done. cbn. by rewrite insert_insert_eq.
    + by rewrite (data_destruct _ _ Hd).
Qed.

Lemma undo_object_eq a g o s :
  stateObjects s !! a = Some o -> deleted o = false ->
  undo_object a g s = Ret (tt, set_objects (fun m => <[a := g o]> m) s).
Proof.
  intros Ho Hd. unfold undo_object, gbind.
  assert (getStateObject a s = Ret (Some o, s)) as ->; [|by apply object_eq].
  unfold getStateObject, getDeletedStateObject, gbind, gget, gret. rewrite Ho. by rewrite Hd.
Qed.

(** The setters of an object: one entry, one write. *)
Lemma journaled_ok a o f g e s :
  state_ok s -> stateObjects s !! a = Some o -> deleted (f o) = false -> object_ok a (f o) ->
  undo e = undo_object a g -> obj_equiv (stateObjectsDestruct s) a (g (f o)) o ->
  wp no_panic (journal_append e ;;; object a f) (fun _ s' => state_ok s' /\ state_ext s s') s.
Proof.
  intros Hok Ho Hdel Hfo Hu He. apply wp_gbind. unfold wp at 1. rewrite journal_append_eq.
  unfold wp. rewrite (object_eq _ _ _ o) by by rewrite (data_objects _ _ (appended_data e s)).
  eapply object_change; try done. intros s' Hs'. rewrite Hu. by apply undo_object_eq.
Qed.

Lemma so_SetBalance_ok a o v s :
  state_ok s -> stateObjects s !! a = Some o -> deleted o = false ->
  wp no_panic (so_SetBalance a o v) (fun _ s' => state_ok s' /\ state_ext s s') s.
Proof.
  intros Hok Ho Hd. eapply journaled_ok; try done.
  apply (ok_objects _ Hok a o). by apply lookup_stored.
Qed.

Lemma so_SetNonce_ok a o n s :
  state_ok s -> stateObjects s !! a = Some o -> deleted o = false -> is_u64 n ->
  wp no_panic (so_SetNonce a o n) (fun _ s' => state_ok s' /\ state_ext s s') s.
Proof.
  intros Hok Ho Hd Hn. eapply journaled_ok; try done.
  destruct (ok_objects _ Hok a o) as (_ & H2 & H3); [by apply lookup_stored|]. by split.
Qed.

Lemma mutates_after {A} (m : GM state A) s s1 :
  state_ext s s1 -> wp no_panic m (fun _ s' => state_ok s' /\ state_ext s1 s') s1 ->
  wp no_panic m (fun _ s' => state_ok s' /\ state_ext s s') s1.
Proof. intros Hx H. eapply wp_mono; [exact H|]. intros r s2 [H1 H2]. split; [done|]. by etrans. Qed.

(** After a query the object is there, possibly with other caches. *)
Lemma still_inv a o s s' :
  still a o s s' -> state_ok s -> deleted o = false ->
  exists o', stateObjects s' !! a = Some o' /\ state_ok s' /\ state_ext s s' /\ deleted o' = false /\
    obj_equiv (stateObjectsDestruct s') a o' o.
Proof.
  intros [Hq (o' & Ho' & He)] Hok Hd. exists o'. split_and!; try done.
  - by eapply state_ok_quiet.
  - by apply state_ext_quiet.
  - by rewrite (eq_deleted _ _ _ _ He).
  - by rewrite (quiet_destruct _ _ Hq).
Qed.

Lemma code_view_setCode_same a o :
  code_view a (so_setCode (so_CodeHash o) (code_view a o) o) = code_view a o.
Proof.
  unfold code_view at 1. cbn. destruct (zlen (code_view a o) =? 0) eqn:E; [|done]. cbn.
  unfold code_view in *. destruct (zlen (so_code o) =? 0) eqn:Ec; cbn in *; [done|].
  by rewrite Ec in E.
Qed.

(** Setting back the code an equivalent object had. *)
Lemma obj_equiv_setCode_back d a o o' h c :
  obj_equiv d a o' o ->
  obj_equiv d a (so_setCode (so_CodeHash o) (code_view a o) (so_setCode h c o')) o'.
Proof.
  intros He. destruct He. split; try done. cbn [code_view].
  transitivity (code_view a (so_setCode (so_CodeHash o) (code_view a o) o)); [done|].
  by rewrite code_view_setCode_same.
Qed.

Lemma so_SetCode_ok a o c s :
  state_ok s -> stateObjects s !! a = Some o -> deleted o = false -> zlen c < 2 ^ 60 ->
  wp no_panic (so_SetCode a o (keccak256 c) c) (fun _ s' => state_ok s' /\ state_ext s s') s.
Proof.
  intros Hok Ho Hd Hc. unfold so_SetCode. apply wp_gbind.
  eapply wp_mono; [by apply so_Code_ok|]. intros code s1 [-> Hst].
  destruct (still_inv _ _ _ _ Hst Hok Hd) as (o1 & Ho1 & Hok1 & Hx & Hd1 & He).
  apply (mutates_after _ _ _ Hx).
  eapply journaled_ok; try done; [|by apply obj_equiv_setCode_back].
  destruct (ok_objects _ Hok1 a o1) as (H1 & _); [by apply lookup_stored|].
  split; [done|]. unfold code_view. cbn. destruct (zlen c =? 0) eqn:E; cbn [negb]; [|by split; [right|]].
  zbool. destruct c; [|rewrite zlen_cons in E; pose proof (zlen_nonneg c); lia].
  unfold emptyCodeHash. rewrite Z.eqb_refl. by split; [left|].
Qed.

Lemma so_SetState_ok a o k v s :
  state_ok s -> stateObjects s !! a = Some o -> deleted o = false ->
  wp no_panic (so_SetState a o k v) (fun _ s' => state_ok s' /\ state_ext s s') s.
Proof.
  intros Hok Ho Hd. unfold so_SetState. apply wp_gbind.
  eapply wp_mono; [by apply so_GetState_ok|]. intros prev s1 [-> Hst].
  pose proof (quiet_destruct _ _ (proj1 Hst)) as Hds.
  destruct (still_inv _ _ _ _ Hst Hok Hd) as (o1 & Ho1 & Hok1 & Hx & Hd1 & He).
  destruct (_ =? v); [by apply wp_gret|].
  apply (mutates_after _ _ _ Hx).
  eapply journaled_ok; try done; [by apply (ok_objects _ Hok1 a o1), lookup_stored|].
  split; try done. intros j. rewrite !state_view_setState. case_decide as Hj; [|done].
  subst. by rewrite <- Hds, <- (eq_state _ _ _ _ He).
Qed.

(** ** Creating accounts *)

Definition fresh : stateObject := newObject (mkStateAccount 0 None 0 None).

Lemma fresh_ok a : object_ok a fresh.
Proof.
  assert (code_view a fresh = []) as Hc 
    by (unfold code_view, fresh; cbn; by rewrite (Z.eqb_refl emptyCodeHash)).
  unfold object_ok. rewrite Hc. by split; [split|split; [left|]].
Qed.

(** [createObject] leaves a state from which the new object can be replaced
    freely: undoing restores the old one. *)
Definition creation (a : Address) (s s' : state) : Prop :=
  forall o, object_ok a o ->
    state_ok (set_objects (fun m => <[a := o]> m) s') /\
    state_ext s (set_objects (fun m => <[a := o]> m) s').

Lemma creation_quiet a s s1 s' : quiet s s1 -> creation a s1 s' -> creation a s s'.
Proof.
  intros Hq Hc o Ho. destruct (Hc o Ho) as [H1 H2]. split; [done|].
  etrans; [by apply state_ext_quiet|done].
Qed.

Lemma creation_of a s s' e :
  state_ok s -> entries s' = entries s ++ [e] -> s_accessList s' = s_accessList s -> logSize s' = logSize s ->
  refund s' = refund s -> validRevisions s' = validRevisions s -> nextRevisionId s' = nextRevisionId s ->
  (forall b, b <> a -> lookup_object s' b = lookup_object s b) ->
  (forall o, exists s0, undo e (set_objects (fun m => <[a := o]> m) s') = Ret (tt, s0) /\ state_equiv s0 s) ->
  creation a s s'.
Proof.
  intros Hok He Ha Hl Hrf Hr Hn Ho Hu o Hoo. destruct (Hu o) as (s0 & Hs0 & Hq).
  eapply mutates_one; try done.
  - intros b o'. rewrite lookup_set_object. case_decide as Hb; [by intros [= <-]; subst|].
    rewrite Ho by congruence. apply (ok_objects _ Hok).
  - cbn. rewrite Ha. apply (ok_access _ Hok).
  - unfold counters_ok. cbn. rewrite Hl, Hrf. apply (ok_counters _ Hok).
  - cbn. by rewrite Ha.
Qed.

(** Without a previous object. *)
Lemma create_new a s :
  state_ok s -> stateObjects s !! a = None -> lookup_object s a = None ->
  creation a s (appended (createObjectChange a) s).
Proof.
  intros Hok Ho Hl. pose proof (appended_data (createObjectChange a) s) as Hd.
  eapply creation_of; try done. intros o. eexists. split; [reflexivity|].
  destruct Hd. apply state_equiv_same; try done. cbn. by rewrite delete_insert_id.
Qed.

(** Over a previous object. *)
Lemma create_over a prev pd s :
  state_ok s -> stateObjects s !! a = Some prev -> bool_decide (a ∈ stateObjectsDestruct s) = pd ->
  creation a s (appended (resetObjectChange a prev pd)
    (if pd then s else set_destruct (fun d => {[a]} ∪ d) s)).
Proof.
  intros Hok Ho Hpd. assert (forall o, <[a := prev]> (<[a := o]> (stateObjects s)) = stateObjects s) as Hm
    by (intros o; by rewrite insert_insert_eq, insert_id).
  destruct pd; eapply creation_of; try done; intros o; eexists; (split; [reflexivity|]);
    apply state_equiv_same; try done; cbn; [apply Hm..|].
  apply bool_decide_eq_false in Hpd. apply leibniz_equiv. set_solver.
Qed.

Lemma createObject_ok a s :
  state_ok s ->
  exists prev s', createObject a s = Ret ((fresh, prev), s') /\ prev = live_object s a /\
    stateObjects s' !! a = Some fresh /\ creation a s s'.
Proof.
  intros Hok. unfold createObject, gbind.
  destruct (getDeletedStateObject_eq a s) as (s1 & -> & Hq & Ho & _).
  pose proof (state_ok_quiet _ _ Hq Hok) as Hok1. unfold live_object. destruct (lookup_object s a) as [prev|] eqn:El.
  - destruct (bool_decide (a ∈ stateObjectsDestruct s1)) eqn:Ed; unfold gget, gret, gput; rewrite Ed; cbn [negb];
      pose proof (create_over a prev _ s1 Hok1 Ho Ed) as Hc; rewrite journal_append_eq; eexists _, _; (split; [reflexivity|]); (split; [done|]);
      (split; [cbn; by rewrite lookup_insert_eq|]); apply (creation_quiet _ _ _ _ Hq);
      intros o Hoo; specialize (Hc o Hoo); unfold set_objects in *; cbn in *; by rewrite insert_insert_eq.
  - assert (lookup_object s1 a = None) as Hl.
    { pose proof (eq_objects _ _ (quiet_equiv _ _ Hq) a) as H. rewrite El in H. by inversion H. }
    pose proof (create_new a s1 Hok1 Ho Hl) as Hc. unfold gget, gret, gput. rewrite journal_append_eq.
    eexists _, _. split; [reflexivity|]. split; [done|]. split; [cbn; by rewrite lookup_insert_eq|].
    apply (creation_quiet _ _ _ _ Hq). intros o Hoo. specialize (Hc o Hoo).
    unfold set_objects in *; cbn in *; by rewrite insert_insert_eq.
Qed.

Lemma set_object_same s a o :
  stateObjects s !! a = Some o -> set_objects (fun m => <[a := o]> m) s = s.
Proof. intros Ho. destruct s. unfold set_objects. cbn in *. by rewrite insert_id. Qed.

Lemma creation_done a s s' :
  creation a s s' -> stateObjects s' !! a = Some fresh -> state_ok s' /\ state_ext s s'.
Proof.
  intros Hc Ho. destruct (Hc fresh (fresh_ok a)) as [H1 H2]. by rewrite set_object_same in H1, H2.
Qed.

(** A change of an account starts from a live object in store. *)
Lemma change_ok a (f : stateObject -> GM state unit) :
  (forall o s, state_ok s -> stateObjects s !! a = Some o -> deleted o = false ->
     wp no_panic (f o) (fun _ s' => state_ok s' /\ state_ext s s') s) ->
  mutates (change a f).
Proof.
  intros Hf s Hok. unfold change. apply wp_gbind. unfold GetOrNewStateObject. apply wp_gbind.
  destruct (getStateObject_eq a s) as (s1 & Hg & Hq & Ho & _). unfold wp at 1. rewrite Hg.
  pose proof (state_ok_quiet _ _ Hq Hok) as Hok1. pose proof (state_ext_quiet _ _ Hq) as Hx1.
  destruct (live_object s a) as [o|] eqn:El.
  - apply wp_gret, (mutates_after _ _ _ Hx1). apply Hf; [done|by apply Ho|].
    by apply live_object_Some in El as [_ ?].
  - apply wp_gbind. destruct (createObject_ok a s1 Hok1) as (prev & s2 & Hc & _ & Ho2 & Hcr).
    unfold wp at 1. rewrite Hc. apply wp_gret. destruct (creation_done _ _ _ Hcr Ho2) as [Hok2 Hx2].
    assert (state_ext s s2) as Hx by by etrans. apply (mutates_after _ _ _ Hx). by apply Hf.
Qed.

Lemma sdb_CreateAccount_ok a : mutates (sdb_CreateAccount a).
Proof.
  intros s Hok. unfold sdb_CreateAccount. apply wp_gbind.
  destruct (createObject_ok a s Hok) as (prev & s' & Hc & Hp & Ho & Hcr). unfold wp at 1. rewrite Hc.
  cbn [snd]. destruct prev as [prev|]; [|by apply wp_gret, (creation_done a)].
  unfold wp. rewrite (object_eq _ _ _ fresh Ho). apply Hcr. apply (fresh_ok a).
Qed.

(** An entry that undoes nothing. *)
Lemma touch_ok a s : state_ok s -> wp no_panic (so_touch a) (fun _ s' => state_ok s' /\ state_ext s s') s.
Proof.
  intros Hok. unfold so_touch. apply wp_gbind. unfold wp at 1. rewrite journal_append_eq.
  case_bool_decide; (eapply mutates_other; [done|..]); try done; first [by apply (ok_counters _ Hok)|by apply state_equiv_same].
Qed.

Lemma sdb_AddBalance_ok a v : mutates (sdb_AddBalance a v).
Proof.
  apply change_ok. intros o s Hok Ho Hd. unfold so_AddBalance. destruct (v =? 0).
  - destruct (so_empty o); [by apply touch_ok|]. by apply wp_gret.
  - by apply so_SetBalance_ok.
Qed.

Lemma sdb_SubBalance_ok a v : mutates (sdb_SubBalance a v).
Proof.
  apply change_ok. intros o s Hok Ho Hd. unfold so_SubBalance. destruct (v =? 0); [by apply wp_gret|].
  by apply so_SetBalance_ok.
Qed.

Lemma sdb_SetBalance_ok a v : mutates (sdb_SetBalance a v).
Proof. apply change_ok. intros o s Hok Ho Hd. by apply so_SetBalance_ok. Qed.

Lemma sdb_SetNonce_ok a n : is_u64 n -> mutates (sdb_SetNonce a n).
Proof. intros Hn. apply change_ok. intros o s Hok Ho Hd. by apply so_SetNonce_ok. Qed.

Lemma sdb_SetCode_ok a c : zlen c < 2 ^ 60 -> mutates (sdb_SetCode a c).
Proof. intros Hc. apply change_ok. intros o s Hok Ho Hd. by apply so_SetCode_ok. Qed.

Lemma sdb_SetState_ok a k v : mutates (sdb_SetState a k v).
Proof. apply change_ok. intros o s Hok Ho Hd. by apply so_SetState_ok. Qed.

Lemma set_object_twice s a o o' :
  set_objects (fun m => <[a := o]> m) (set_objects (fun m => <[a := o']> m) s) = set_objects (fun m => <[a := o]> m) s.
Proof. unfold set_objects. cbn. by rewrite insert_insert_eq. Qed.

Lemma sdb_Suicide_ok a : mutates (sdb_Suicide a).
Proof.
  intros s Hok. unfold sdb_Suicide. apply wp_gbind.
  destruct (getStateObject_eq a s) as (s1 & Hg & Hq & Ho & _). unfold wp at 1. rewrite Hg.
  pose proof (state_ok_quiet _ _ Hq Hok) as Hok1. pose proof (state_ext_quiet _ _ Hq) as Hx1.
  destruct (live_object s a) as [o|] eqn:El; [|by apply wp_gret].
  apply live_object_Some in El as [_ Hd]. specialize (Ho o eq_refl).
  set (e := suicideChange a (suicided o) (so_Balance o)).
  apply wp_gbind. unfold wp at 1. rewrite journal_append_eq.
  apply wp_gbind. unfold wp at 1. rewrite (object_eq _ _ _ o) by by rewrite (data_objects _ _ (appended_data e s1)).
  apply wp_gbind. unfold wp at 1. rewrite (object_eq _ _ _ (so_markSuicided o)) by (cbn; by rewrite lookup_insert_eq).
  apply wp_gret. rewrite set_object_twice.
  destruct (object_change s1 a o (fun o => so_setBalance 0 (so_markSuicided o))
    (fun o' => so_setBalance (so_Balance o) (so_setSuicided (suicided o) o')) e) as [H1 H2]; try done.
  - by apply (ok_objects _ Hok1 a o), lookup_stored.
  - intros s' Hs'. unfold e. cbn [undo]. unfold gbind at 1.
    assert (getStateObject a s' = Ret (Some (so_setBalance 0 (so_markSuicided o)), s')) as ->.
    { unfold getStateObject, getDeletedStateObject, gbind, gget, gret. rewrite Hs'. cbn. by rewrite Hd. }
    by rewrite object_object, (object_eq _ _ _ _ Hs').
  - split; [done|]. by etrans.
Qed.

(** *** Changes outside the objects *)

Lemma sdb_AddRefund_ok g : mutates (sdb_AddRefund g).
Proof.
  intros s Hok. unfold sdb_AddRefund. apply wp_gbind, wp_gget, wp_gbind. unfold wp at 1.
  rewrite journal_append_eq. apply wp_gput. eapply mutates_other; [done|..]; try done; first [apply u64_range|by apply state_equiv_same].
Qed.

Lemma sdb_SubRefund_ok g s :
  state_ok s -> wp refund_panic (sdb_SubRefund g) (fun _ s' => state_ok s' /\ state_ext s s') s.
Proof.
  intros Hok. unfold sdb_SubRefund. apply wp_gbind, wp_gget, wp_gbind. unfold wp at 1.
  rewrite journal_append_eq. destruct (g >? refund s); [by apply wp_gpanic|].
  apply wp_gput. eapply mutates_other; [done|..]; try done; first [apply u64_range|by apply state_equiv_same].
Qed.

Lemma sdb_SetTransientState_ok a k v : mutates (sdb_SetTransientState a k v).
Proof.
  intros s Hok. unfold sdb_SetTransientState, sdb_GetTransientState. apply wp_gbind, wp_gget.
  destruct (_ =? v); [by apply wp_gret|]. apply wp_gbind. unfold wp at 1. rewrite journal_append_eq.
  apply wp_gput. eapply mutates_other; [done|..]; try done; [apply (ok_counters _ Hok)|]. split; try done. intros b j. cbn.
  rewrite !transient_Get_Set. case_decide as Hb; [|done]. by destruct Hb as [-> ->].
Qed.

Lemma sdb_AddPreimage_ok h d : mutates (sdb_AddPreimage h d).
Proof.
  intros s Hok. unfold sdb_AddPreimage. apply wp_gbind, wp_gget. destruct (preimages s !! h) eqn:E; [by apply wp_gret|].
  apply wp_gbind. unfold wp at 1. rewrite journal_append_eq. apply wp_gput.
  eapply mutates_other; [done|..]; try done; [apply (ok_counters _ Hok)|]. apply state_equiv_same; try done. cbn. by rewrite delete_insert_id.
Qed.

Lemma set_logs_back s h l n :
  default [] (logs s !! h) = l -> n = logSize s ->
  state_equiv (set_logs (fun m => <[h := l]> m) n s) s.
Proof.
  intros Hl ->. split; try done. intros h'. cbn. destruct (decide (h = h')) as [<-|].
  - by rewrite lookup_insert_eq.
  - by rewrite lookup_insert_ne.
Qed.

Lemma sdb_AddLog_ok l : mutates (sdb_AddLog l).
Proof.
  intros s Hok. unfold sdb_AddLog. apply wp_gbind, wp_gget, wp_gbind. unfold wp at 1.
  rewrite journal_append_eq. apply wp_gput. cbn [id].
  set (h := thash s). set (old := default [] (logs s !! h)). set (x := mkTxLog _ _ _ _).
  set (s' := set_logs _ _ _). pose proof (appended_data (addLogChange h) s) as Hd.
  assert (default [] (logs s' !! h) = old ++ [x]) as Hl by (unfold s'; cbn; by rewrite lookup_insert_eq).
  assert (u64 (logSize s' - 1) = logSize s) as Hn.
  { unfold s'. cbn [logSize set_logs]. unfold u64. rewrite Zminus_mod_idemp_l.
    replace (logSize s + 1 - 1) with (logSize s) by lia. apply u64_small, (ok_counters _ Hok). }
  assert (entries s' = entries s ++ [addLogChange h]) as He by (unfold s'; cbn; done).
  assert (undo (addLogChange h) s' = Ret (tt, set_logs (fun m =>
    if zlen (old ++ [x]) =? 1 then delete h m else <[h := old]> m) (logSize s) s')) as Hu.
  { cbn [undo]. unfold gbind, gget. cbn [id]. rewrite Hl, Hn. destruct (zlen (old ++ [x]) =? 1); [done|].
    pose proof (go_slice_app [] old [x]) as Hs. cbn [app] in Hs. rewrite zlen_snoc.
    replace (zlen old + 1 - 1) with (zlen (@nil TxLog) + zlen old) by (unfold zlen; cbn; lia).
    unfold gpure. change 0 with (zlen (@nil TxLog)) at 1. by rewrite Hs. }
  split.
  - eapply state_ok_grown; try done; [apply (ok_objects _ Hok)|apply (ok_access _ Hok)|split; [apply u64_range|apply (ok_counters _ Hok)]].
  - destruct (undo_all_one _ _ _ Hu) as (s1 & Hu1 & Hq1). eapply ext_undo_list; try done.
    etrans; [exact Hq1|]. split; try done. intros h'. cbn. rewrite zlen_snoc.
    destruct (zlen old + 1 =? 1) eqn:E; zbool.
    + assert (old = []) as Ho by (destruct old; [done|]; rewrite zlen_cons in E; pose proof (zlen_nonneg old); lia).
      destruct (decide (h = h')) as [<-|]; [by rewrite lookup_delete_eq|]. by rewrite lookup_delete_ne, lookup_insert_ne.
    + destruct (decide (h = h')) as [<-|]; [by rewrite lookup_insert_eq|]. by rewrite !lookup_insert_ne.
Qed.

(** *** The access list *)

Lemma sdb_AddAddressToAccessList_ok a s :
  state_ok s ->
  wp no_panic (sdb_AddAddressToAccessList a)
    (fun _ s' => ContainsAddress (s_accessList s') a = true /\ state_ok s' /\ state_ext s s') s.
Proof.
  intros Hok. unfold sdb_AddAddressToAccessList, on_accessList. apply wp_gbind, wp_gzoom.
  unfold wp at 1. rewrite AddAddress_spec. destruct (ContainsAddress (s_accessList s) a) eqn:E.
  - apply wp_gret. assert (set_accessList (s_accessList s) s = s) as -> by by destruct s. done.
  - unfold wp. rewrite journal_append_eq.
    set (al := mkAccessList _ _). assert (forall b, ContainsAddress (s_accessList s) b = true ->
      ContainsAddress al b = true) as Hm.
    { unfold al, ContainsAddress. cbn. intros b. destruct (decide (a = b)) as [<-|]; [by rewrite lookup_insert_eq|].
      by rewrite lookup_insert_ne. }
    split; [unfold al, ContainsAddress; cbn; by rewrite lookup_insert_eq|].
    eapply (mutates_one s _ (accessListAddAccountChange a)); try done.
    + apply (ok_objects _ Hok).
    + apply AddAddress_access_ok, Hok.
    + apply (ok_counters _ Hok).
    + apply state_equiv_same; try done. cbn. unfold ContainsAddress in E.
      destruct (addresses (s_accessList s) !! a) eqn:Ea; [done|]. rewrite delete_insert_id by done.
      by destruct (s_accessList s).
Qed.

Lemma sdb_AddSlotToAccessList_ok a k : mutates (sdb_AddSlotToAccessList a k).
Proof.
  intros s Hok. unfold sdb_AddSlotToAccessList, on_accessList. apply wp_gbind, wp_gzoom.
  destruct (AddSlot_ok a k (s_accessList s) (ok_access _ Hok)) as (ac & sc & al & Ha & Hal & Hm & Hac & Hu).
  unfold wp at 1. rewrite Ha. destruct sc.
  2:{ subst al. assert (set_accessList (s_accessList s) s = s) as -> by by destruct s.
      destruct ac; [by destruct (Hac eq_refl)|]. by apply wp_gbind, wp_gret, wp_gret. }
  set (s1 := set_accessList al s).
  set (es := (if ac then [accessListAddAccountChange a] else []) ++ [accessListAddSlotChange a k]).
  assert (exists s', ((if ac then journal_append (accessListAddAccountChange a) else gret tt) ;;;
    journal_append (accessListAddSlotChange a k)) s1 = Ret (tt, s') /\ s' = set_entries (fun l => l ++ es) s1)
    as (s' & Hs' & Heq).
  { unfold es. destruct ac; eexists; (split; [reflexivity|]); [|done]. cbn. unfold appended, set_entries. cbn.
    by rewrite <- app_assoc. }
  unfold wp. rewrite Hs'. subst s'. split.
  - eapply (state_ok_grown s _ es); try done; [apply (ok_objects _ Hok)|apply (ok_counters _ Hok)].
  - assert (exists s0, undo_all (rev es) (set_entries (fun l => l ++ es) s1) = Ret (tt, s0) /\
      s0 = set_accessList (s_accessList s) (set_entries (fun l => l ++ es) s1)) as (s0 & Hs0 & ->).
    { unfold es. destruct ac; cbn; unfold gbind, on_accessList, gzoom, DeleteAddress, gput; cbn;
        rewrite Hu; cbn; eexists; (split; [reflexivity|]); [|done].
      unfold set_accessList. cbn. f_equal. destruct (Hac eq_refl) as [Hc _].
      pose proof (before_slot_delete a (s_accessList s) Hc) as Hb. unfold DeleteAddress, gput in Hb.
      by injection Hb as ->. }
    eapply ext_undo_list; try done; by apply state_equiv_same.
Qed.

(** ** Snapshots *)

(** Binary search finds the boundary of a monotone predicate. *)
Lemma Search_loop_spec n f (P : Z -> bool) fuel i j :
  (forall h, 0 <= h < n -> f h = Ret (P h)) ->
  (forall a b, 0 <= a <= b -> b < n -> P a = true -> P b = true) ->
  0 <= i <= j -> j <= n -> j - i <= Z.of_nat fuel ->
  (forall h, 0 <= h < i -> P h = false) -> (forall h, j <= h < n -> P h = true) ->
  exists r, Search_loop fuel f i j = Ret r /\ 0 <= r <= n /\
    (forall h, 0 <= h < r -> P h = false) /\ (forall h, r <= h < n -> P h = true).
Proof.
  intros Hf Hmono. revert i j. induction fuel as [|fuel IH]; intros i j Hij Hjn Hfuel Hlo Hhi; cbn [Search_loop].
  - replace j with i in * by lia. rewrite Z.ltb_irrefl. exists i. by split_and!; try lia.
  - destruct (i <? j) eqn:E; zbool; [|replace j with i in * by lia; exists i; by split_and!; try lia].
    assert (i <= (i + j) / 2 < j) as Hh by (split; [apply Z.div_le_lower_bound; lia|apply Z.div_lt_upper_bound; lia]).
    cbv zeta. rewrite Hf by lia. cbn [res_bind]. destruct (P ((i + j) / 2)) eqn:EP; cbn [negb]; apply IH; try lia.
    + done.
    + intros h Hhr. apply (Hmono ((i + j) / 2)); [lia|lia|done].
    + intros h Hhr. destruct (P h) eqn:EPh; [|done]. by rewrite (Hmono h ((i + j) / 2)) in EP; [|lia|lia|].
    + done.
Qed.

Lemma sorted_lookup (l : list revision) i j r r' :
  StronglySorted rev_lt l -> l !! i = Some r -> l !! j = Some r' -> (i < j)%nat -> rev_id r < rev_id r'.
Proof.
  intros Hs. revert i j. induction Hs as [|x l Hs IH Hx]; intros i j; [done|].
  destruct j as [|j]; [lia|]. destruct i as [|i]; cbn; intros Hi Hj Hij.
  - injection Hi as ->. rewrite Forall_forall in Hx. apply Hx, list_elem_of_In. by eapply list_elem_of_lookup_2.
  - apply (IH i j); [done|done|lia].
Qed.

(** The search for a revision that is there. *)
Lemma find_revision revs k r :
  StronglySorted rev_lt revs -> revs !! k = Some r ->
  sort_Search (zlen revs) (fun i => let? r' := go_index revs i in Ret (rev_id r' >=? rev_id r)) = Ret (Z.of_nat k).
Proof.
  intros Hs Hk. pose proof (lookup_lt_Some _ _ _ Hk) as Hlt. unfold sort_Search.
  set (P := fun i => match revs !! Z.to_nat i with Some r' => rev_id r' >=? rev_id r | None => true end).
  destruct (Search_loop_spec (zlen revs)
    (fun i => let? r' := go_index revs i in Ret (rev_id r' >=? rev_id r)) P
    (Z.to_nat (zlen revs)) 0 (zlen revs)) as (m & -> & Hm & Hlo & Hhi); try (unfold zlen; lia).
  - intros h Hh. destruct (go_index_ok revs h Hh) as (x & -> & Hx). unfold P. by rewrite Hx.
  - intros a b Hab Hb. unfold P.
    destruct (go_index_ok revs a ltac:(lia)) as (x & _ & Hx). destruct (go_index_ok revs b ltac:(lia)) as (y & _ & Hy).
    rewrite Hx, Hy, !Z.geb_leb, !Z.leb_le. intros Hle. destruct (Z.eq_dec a b) as [->|]; [congruence|].
    pose proof (sorted_lookup _ _ _ _ _ Hs Hx Hy ltac:(lia)). lia.
  - f_equal. assert (~ m > Z.of_nat k).
    { intros H. specialize (Hlo (Z.of_nat k) ltac:(lia)). unfold P in Hlo. rewrite Nat2Z.id, Hk in Hlo. zbool. lia. }
    destruct (Z.eq_dec m (Z.of_nat k)) as [|Hne]; [done|]. exfalso.
    unfold zlen in *. specialize (Hhi m ltac:(lia)). unfold P in Hhi.
    destruct (lookup_lt_is_Some_2 revs (Z.to_nat m)) as (x & Hx); [lia|]. rewrite Hx in Hhi.
    rewrite Z.geb_leb, Z.leb_le in Hhi. pose proof (sorted_lookup _ _ _ _ _ Hs Hx Hk ltac:(lia)). lia.
Qed.

(** Undoing leaves the counter of revisions and the transaction alone. *)
Definition marks (s : state) : Z * (Hash * Z) := (nextRevisionId s, (thash s, txIndex s)).

Definition keeps_next (m : GM state unit) : Prop :=
  forall s s', m s = Ret (tt, s') -> marks s' = marks s.

Lemma quiet_marks s s' : quiet s s' -> marks s' = marks s.
Proof. intros [_ _ H He]. unfold marks. by rewrite H, (eq_thash _ _ He), (eq_txIndex _ _ He). Qed.

Lemma keeps_next_gbind m k : keeps_next m -> keeps_next k -> keeps_next (m ;;; k).
Proof.
  intros Hm Hk s s'. unfold gbind. destruct (m s) as [[[] s1]| |] eqn:E; [|done..].
  intros H. rewrite (Hk _ _ H). by apply Hm.
Qed.

Lemma keeps_next_object a f : keeps_next (object a f).
Proof. intros s s'. unfold object. destruct (stateObjects s !! a); [|done]. by intros [= <-]. Qed.

Lemma keeps_next_live a m k :
  keeps_next m -> keeps_next k ->
  keeps_next (let* o := getStateObject a in match o with Some _ => m | None => k end).
Proof.
  intros Hm Hk s s'. unfold gbind. destruct (getStateObject_eq a s) as (s1 & -> & Hq & _).
  rewrite <- (quiet_marks _ _ Hq). destruct (live_object s a); [apply Hm|apply Hk].
Qed.

Lemma undo_keeps_next e : keeps_next (undo e).
Proof.
  destruct e; cbn [undo]; unfold undo_object;
    try (apply keeps_next_live; [first [apply keeps_next_object
      | apply keeps_next_gbind; apply keeps_next_object]|by intros s s'; try intros [= <-]]);
    try (by intros s s' [= <-]).
  - intros s s'. unfold gbind, setStateObject, gput. destruct (negb _); by intros [= <-].
  - intros s s'. unfold gbind, gget, gpure. cbn [id]. destruct (zlen _ =? 1); [by intros [= <-]|].
    destruct (go_slice _ _ _); by try intros [= <-].
  - intros s s'. unfold on_accessList, gzoom. destruct (DeleteSlot _ _ _) as [[[] al]| |]; by try intros [= <-].
Qed.

Lemma undo_all_keeps_next es : keeps_next (undo_all es).
Proof.
  induction es as [|e es IH]; [by intros s s' [= <-]|]. cbn.
  apply keeps_next_gbind; [apply undo_keeps_next|]. apply keeps_next_gbind; [|done].
  intros s s' H. destruct (drop_dirty_eq e s) as (s1 & H1 & Hq). rewrite H1 in H. injection H as <-. by apply quiet_marks.
Qed.

(** States evolve within a transaction. *)
Lemma ext_tx s s' : state_ext s s' -> (thash s', txIndex s') = (thash s, txIndex s).
Proof.
  intros [(es & s0 & _ & Hu & He) _ _ _]. pose proof (undo_all_keeps_next _ _ _ Hu) as Hm.
  injection Hm as _ H1 H2. by rewrite <- H1, <- H2, (eq_thash _ _ He), (eq_txIndex _ _ He).
Qed.

(** The state a snapshot leaves. *)
Definition snapped (s : state) : state :=
  set_revisions (fun r => r ++ [mkRevision (nextRevisionId s) (zlen (entries s))])
    (set_nextRevisionId (nextRevisionId s + 1) s).

Lemma sdb_Snapshot_eq s : sdb_Snapshot s = Ret (nextRevisionId s, snapped s).
Proof. done. Qed.

Lemma snapped_equiv s : state_equiv (snapped s) s.
Proof. by apply state_equiv_same. Qed.

Lemma sorted_snoc l r :
  StronglySorted rev_lt l -> (forall x, x ∈ l -> rev_lt x r) -> StronglySorted rev_lt (l ++ [r]).
Proof.
  induction 1 as [|x l Hs IH Hx]; intros Hr; cbn; [by repeat constructor|]. constructor.
  - apply IH. intros y Hy. apply Hr. by right.
  - apply Forall_app. split; [done|]. constructor; [|done]. apply Hr. by left.
Qed.

Lemma snapped_ok s : state_ok s -> state_ok (snapped s) /\ state_ext s (snapped s).
Proof.
  intros Hok. split.
  - destruct Hok. split; cbn; try done.
    + intros r. rewrite elem_of_app, list_elem_of_singleton. intros [Hr| ->]; [|cbn; lia].
      specialize (ok_rev_id r Hr). lia.
    + by apply sorted_snoc.
    + intros r. rewrite elem_of_app, list_elem_of_singleton. intros [Hr| ->]; [by apply ok_rev_index|].
      cbn. pose proof (zlen_nonneg (entries s)). lia.
  - split; cbn; [|by eexists; split; [done|constructor; [cbn; lia|constructor]]|lia|done].
    exists [], (snapped s). rewrite app_nil_r. by split_and!; try apply snapped_equiv.
Qed.

Lemma go_slice_prefix {A} (a b : list A) : go_slice (a ++ b) 0 (zlen a) = Ret a.
Proof. exact (go_slice_app [] a b). Qed.

(** Reverting to a live snapshot. *)
Lemma sdb_RevertToSnapshot_ok s s2 :
  state_ok s -> state_ok s2 -> state_ext (snapped s) s2 ->
  wp no_panic (sdb_RevertToSnapshot (nextRevisionId s))
    (fun _ s3 => state_ok s3 /\ state_equiv s3 s /\ state_ext s s3) s2.
Proof.
  intros Hok Hok2 [(es & t & Hes & Hu & He) (rs & Hrs & _) Hn _].
  cbn [entries validRevisions nextRevisionId snapped set_revisions set_nextRevisionId] in *.
  rewrite <- app_assoc in Hrs. cbn [app] in Hrs. set (r := mkRevision (nextRevisionId s) (zlen (entries s))) in *.
  assert (validRevisions s2 !! length (validRevisions s) = Some r) as Hr.
  { rewrite Hrs. by apply list_lookup_middle. }
  pose proof (lookup_lt_Some _ _ _ Hr) as Hlt.
  unfold sdb_RevertToSnapshot. apply wp_gbind, wp_gget, wp_gbind.
  change (nextRevisionId s) with (rev_id r) at 1.
  eapply wp_gpure; [apply (find_revision _ _ _ (ok_rev_sorted _ Hok2) Hr)|].
  rewrite (proj2 (Z.eqb_neq _ _)) by (unfold zlen; lia).
  apply wp_gbind. destruct (go_index_ok (validRevisions s2) (Z.of_nat (length (validRevisions s)))) as (x & Hx & Hx');
    [unfold zlen; lia|]. rewrite Nat2Z.id in Hx'. assert (x = r) as -> by congruence.
  eapply wp_gpure; [exact Hx|]. cbn [rev_id r]. rewrite Z.eqb_refl. cbn [negb].
  apply wp_gbind. unfold journal_revert. cbn [journalIndex r]. apply wp_gbind, wp_gget, wp_gbind.
  rewrite Hes. unfold zlen at 1. rewrite Nat2Z.id, drop_app_length. unfold wp at 1. rewrite Hu.
  apply wp_gbind. eapply wp_gpure; [apply go_slice_prefix|]. apply wp_gput, wp_gbind.
  rewrite Hrs. eapply wp_gpure; [apply (go_slice_prefix (validRevisions s))|]. apply wp_gput.
  set (s3 := set_revisions _ _).
  assert (state_equiv s3 s) as He3.
  { etrans; [|apply snapped_equiv]. etrans; [|exact He]. by apply state_equiv_same. }
  assert (nextRevisionId s + 1 <= nextRevisionId s3) as Hn3.
  { unfold s3. cbn. by injection (undo_all_keeps_next _ _ _ Hu) as ->. }
  split_and!; [|done|].
  - destruct Hok. split; cbn; try done.
    + by eapply ok_objects_equiv.
    + change (access_ok (s_accessList s3)). by rewrite (eq_access _ _ He3).
    + change (counters_ok s3). unfold counters_ok. by rewrite (eq_logSize _ _ He3), (eq_refund _ _ He3).
    + intros y Hy. specialize (ok_rev_id y Hy). cbn in Hn3. lia.
  - split.
    + exists [], s3. rewrite app_nil_r. done.
    + exists []. rewrite app_nil_r. done.
    + lia.
    + intros a. by rewrite (eq_access _ _ He3).
Qed.

(** ** The interface *)

Definition state_code_of (s : state) (a : Address) : list byte :=
  match live_object s a with Some o => code_view a o | None => [] end.

Definition state_codehash_of (s : state) (a : Address) : Hash :=
  match live_object s a with Some o => so_CodeHash o | None => 0 end.

Definition state_getter {A} (m : GM state A) (P : A -> Prop) : state -> Prop :=
  fun s => wp no_panic m (fun r s' => P r /\ state_ok s' /\ state_ext s s' /\ state_equiv s' s) s.

Lemma getter_quiet {A} (m : GM state A) P s :
  state_ok s -> wp no_panic m (fun r s' => P r /\ quiet s s') s -> state_getter m P s.
Proof.
  intros Hok H. eapply wp_mono; [exact H|]. intros r s' [Hr Hq].
  split_and!; [done|by eapply state_ok_quiet|by apply state_ext_quiet|apply Hq].
Qed.

Lemma getter_weaken {A} (m : GM state A) P s :
  state_getter m P s -> wp no_panic m (fun r s' => state_ok s' /\ state_ext s s' /\ state_equiv s' s) s.
Proof. intros H. eapply wp_mono; [exact H|]. by intros r s' (_ & ?). Qed.

(** A query that only reads the object. *)
Lemma query_read_ok {A} a (missing : A) f s (P : A -> Prop) :
  state_ok s -> (forall o, live_object s a = Some o -> P (f o)) -> (live_object s a = None -> P missing) ->
  state_getter (query a missing (fun o => gret (f o))) P s.
Proof.
  intros Hok Hf Hm. apply getter_quiet; [done|]. apply query_ok; [|done].
  intros o s' Ho _ _. apply wp_gret. split; [by apply Hf|reflexivity].
Qed.

(** A query through a reading method of the object. *)
Lemma query_still_ok {A} a (missing : A) f s (P : A -> Prop) :
  state_ok s ->
  (forall o s', live_object s a = Some o -> quiet s s' -> stateObjects s' !! a = Some o ->
     wp no_panic (f o) (fun r s2 => P r /\ still a o s' s2) s') ->
  (live_object s a = None -> P missing) ->
  state_getter (query a missing f) P s.
Proof.
  intros Hok Hf Hm. apply getter_quiet; [done|]. apply query_ok; [|done].
  intros o s' Ho Ho' Hq. eapply wp_mono; [by apply Hf|]. intros r s2 [Hr [Hq' _]]. done.
Qed.

Lemma gget_getter {A} (f : state -> A) (P : A -> Prop) s : state_ok s -> P (f s) -> state_getter (gget f) P s.
Proof. intros Hok Hp. apply wp_gget. by split_and!. Qed.

Lemma state_access_mono s s' a :
  state_ext s s' -> ContainsAddress (s_accessList s) a = true -> ContainsAddress (s_accessList s') a = true.
Proof. intros H. apply (ext_access _ _ H). Qed.

Lemma live_equiv_inv s s' a :
  state_equiv s s' ->
  match live_object s a, live_object s' a with
  | Some o, Some o' => so_CodeHash o = so_CodeHash o' /\ code_view a o = code_view a o'
  | None, None => True
  | _, _ => False
  end.
Proof.
  intros He. pose proof (live_object_equiv s s' a He) as H.
  inversion H as [o o' Ho E1 E2|E1 E2]; [|done]. by destruct Ho.
Qed.

Lemma state_code_of_equiv s s' a : state_equiv s s' -> state_code_of s a = state_code_of s' a.
Proof.
  intros He%(live_equiv_inv _ _ a). unfold state_code_of. repeat case_match; try done. apply He.
Qed.

Lemma state_codehash_of_equiv s s' a : state_equiv s s' -> state_codehash_of s a = state_codehash_of s' a.
Proof.
  intros He%(live_equiv_inv _ _ a). unfold state_codehash_of. repeat case_match; try done. apply He.
Qed.

Lemma live_object_ok s a o : state_ok s -> live_object s a = Some o -> object_ok a o.
Proof. intros Hok [Hl _]%live_object_Some. by apply (ok_objects _ Hok). Qed.

Lemma state_code_hash s a :
  state_ok s -> state_code_of s a = [] \/ state_codehash_of s a = keccak256 (state_code_of s a).
Proof.
  intros Hok. unfold state_code_of, state_codehash_of. destruct (live_object s a) as [o|] eqn:E; [|by left].
  apply (live_object_ok _ _ _ Hok E).
Qed.

Lemma state_code_size s a : state_ok s -> zlen (state_code_of s a) < 2 ^ 60.
Proof.
  intros Hok. unfold state_code_of. destruct (live_object s a) as [o|] eqn:E; [|done].
  apply (live_object_ok _ _ _ Hok E).
Qed.

Lemma sdb_GetCode_ok a s :
  state_ok s -> state_getter (sdb_GetCode a) (fun c => c = state_code_of s a) s.
Proof.
  intros Hok. apply query_still_ok; [done| |by intros H; unfold state_code_of; rewrite H].
  intros o s' Ho _ Ho'. unfold state_code_of. rewrite Ho. by apply so_Code_ok.
Qed.

Lemma sdb_GetCodeHash_ok a s :
  state_ok s -> state_getter (sdb_GetCodeHash a) (fun h => h = state_codehash_of s a) s.
Proof. intros Hok. unfold state_codehash_of. apply query_read_ok; [done|by intros o ->|by intros ->]. Qed.

Definition nonce_of (s : state) (a : Address) : Z :=
  match live_object s a with Some o => so_Nonce o | None => 0 end.

Lemma nonce_of_u64 s a : state_ok s -> is_u64 (nonce_of s a).
Proof.
  intros Hok. unfold nonce_of. destruct (live_object s a) as [o|] eqn:Ho; [|done].
  apply (live_object_ok _ _ _ Hok Ho).
Qed.

Lemma sdb_GetNonce_ok a s : state_ok s -> state_getter (sdb_GetNonce a) (fun n => n = nonce_of s a) s.
Proof. intros Hok. unfold nonce_of. apply query_read_ok; [done|by intros o ->|by intros ->]. Qed.

(** What [GetState] and [GetCommittedState] answer. *)
Definition state_of (s : state) (a : Address) (k : Hash) : Hash :=
  match live_object s a with Some o => state_view (stateObjectsDestruct s) a o k | None => 0 end.

Definition committed_of (s : state) (a : Address) (k : Hash) : Hash :=
  match live_object s a with Some o => committed_view (stateObjectsDestruct s) a o k | None => 0 end.

Lemma sdb_GetState_ok a k s :
  state_ok s -> state_getter (sdb_GetState a k) (fun v => v = state_of s a k) s.
Proof.
  intros Hok. apply query_still_ok; [done| |by intros H; unfold state_of; rewrite H].
  intros o s' Ho Hq Ho'. unfold state_of. rewrite Ho, <- (quiet_destruct _ _ Hq). by apply so_GetState_ok.
Qed.

Lemma sdb_GetCommittedState_ok a k s :
  state_ok s -> state_getter (sdb_GetCommittedState a k) (fun v => v = committed_of s a k) s.
Proof.
  intros Hok. apply query_still_ok; [done| |by intros H; unfold committed_of; rewrite H].
  intros o s' Ho Hq Ho'. unfold committed_of. rewrite Ho, <- (quiet_destruct _ _ Hq). by apply so_GetCommittedState_ok.
Qed.

Lemma sdb_GetCodeSize_ok a s : state_ok s -> state_getter (sdb_GetCodeSize a) (fun _ => True) s.
Proof.
  intros Hok. apply query_still_ok; [done| |done]. intros o s' _ _ Ho'.
  eapply wp_mono; [by apply so_CodeSize_ok|]. done.
Qed.

Lemma sdb_SlotInAccessList_ok a k s :
  state_ok s -> state_getter (sdb_SlotInAccessList a k) (fun b => b.1 = ContainsAddress (s_accessList s) a) s.
Proof.
  intros Hok. unfold state_getter, sdb_SlotInAccessList, wp.
  destruct (Contains_ok (s_accessList s) a k (ok_access _ Hok)) as (b & ->). cbn. by split_and!.
Qed.

End safe.
