(* ===== verification/StateTheorems.v ===== *)
(** * Theorems about the state database

    Reverting undoes whole transactions ([script]s: sequences of changes with
    nested, reverted parts); setters and queries agree; balances move as
    [Transfer] of client/core/evm.go says. *)

From Stdlib Require Import Strings.Byte.
From S2P Require Import Prelude.
From S2P Require Import Common.
From S2P Require Import Params.
From S2P Require Import Rlp.
From S2P Require Import Crypto.
From S2P Require Import StateInterface.
From S2P Require Import StateObject.
From S2P Require Import StateStore.
From S2P Require Import StateSpec.
From S2P Require Import StateSafe.

(** ** Scripts *)

Inductive db_op : Type :=
| op_CreateAccount (a : Address)
| op_AddBalance (a : Address) (v : Z)
| op_SubBalance (a : Address) (v : Z)
| op_SetNonce (a : Address) (n : Z)
| op_SetCode (a : Address) (c : list byte)
| op_SetState (a : Address) (k v : Hash)
| op_SetTransientState (a : Address) (k v : Hash)
| op_Suicide (a : Address)
| op_AddRefund (g : Z)
| op_SubRefund (g : Z)
| op_AddLog (l : Log)
| op_AddPreimage (h : Hash) (d : list byte)
| op_AddAddressToAccessList (a : Address)
| op_AddSlotToAccessList (a : Address) (k : Hash)
| op_GetCode (a : Address)
| op_GetState (a : Address) (k : Hash)
| op_Snapshot.

(** A snapshot may be taken and reverted to around any part. *)
Inductive script : Type :=
| done_script
| then_op (o : db_op) (rest : script)
| try_revert (inner rest : script).

Section scripts.
Context {B : Database} {K : Keccak} {KL : KeccakLaws K} {BL : DatabaseLaws B}.

Definition run_op (o : db_op) : GM state unit :=
  match o with
  | op_CreateAccount a => sdb_CreateAccount a
  | op_AddBalance a v => sdb_AddBalance a v
  | op_SubBalance a v => sdb_SubBalance a v
  | op_SetNonce a n => sdb_SetNonce a n
  | op_SetCode a c => sdb_SetCode a c
  | op_SetState a k v => sdb_SetState a k v
  | op_SetTransientState a k v => sdb_SetTransientState a k v
  | op_Suicide a => sdb_Suicide a ;;; gret tt
  | op_AddRefund g => sdb_AddRefund g
  | op_SubRefund g => sdb_SubRefund g
  | op_AddLog l => sdb_AddLog l
  | op_AddPreimage h d => sdb_AddPreimage h d
  | op_AddAddressToAccessList a => sdb_AddAddressToAccessList a
  | op_AddSlotToAccessList a k => sdb_AddSlotToAccessList a k
  | op_GetCode a => sdb_GetCode a ;;; gret tt
  | op_GetState a k => sdb_GetState a k ;;; gret tt
  | op_Snapshot => sdb_Snapshot ;;; gret tt
  end.

Fixpoint run_script (p : script) : GM state unit :=
  match p with
  | done_script => gret tt
  | then_op o rest => run_op o ;;; run_script rest
  | try_revert inner rest =>
      let* id := sdb_Snapshot in
      run_script inner ;;;
      sdb_RevertToSnapshot id ;;;
      run_script rest
  end.

(** Nonces are 64-bit and code has a length. *)
Definition op_wf (o : db_op) : Prop :=
  match o with
  | op_SetNonce _ n => is_u64 n
  | op_SetCode _ c => zlen c < 2 ^ 60
  | _ => True
  end.

Fixpoint script_wf (p : script) : Prop :=
  match p with
  | done_script => True
  | then_op o rest => op_wf o /\ script_wf rest
  | try_revert inner rest => script_wf inner /\ script_wf rest
  end.

Definition evolves (m : GM state unit) : Prop :=
  forall s, state_ok s -> wp refund_panic m (fun _ s' => state_ok s' /\ state_ext s s') s.

Lemma wp_weak {A} (m : GM state A) Q s : wp no_panic m Q s -> wp refund_panic m Q s.
Proof. unfold wp, no_panic. by destruct (m s) as [[a s']| |]. Qed.

Lemma evolves_mutates m : mutates m -> evolves m.
Proof. intros H s Hs. by apply wp_weak, H. Qed.

Lemma evolves_drop {A} (m : GM state A) : mutates m -> evolves (m ;;; gret tt).
Proof.
  intros H s Hs. apply wp_gbind, wp_weak. eapply wp_mono; [by apply H|].
  intros a s' Ha. by apply wp_gret.
Qed.

Lemma getter_mutates {A} (m : GM state A) (P : state -> A -> Prop) :
  (forall s, state_ok s -> state_getter m (P s) s) -> mutates m.
Proof. intros H s Hs. eapply wp_mono; [by apply H|]. by intros a s' (_ & ? & ? & _). Qed.

Lemma run_op_evolves o : op_wf o -> evolves (run_op o).
Proof.
  intros Hwf. destruct o; cbn [run_op]; cbn in Hwf; try apply evolves_drop;
    lazymatch goal with |- evolves (sdb_SubRefund _) => idtac | |- evolves _ => apply evolves_mutates | _ => idtac end.
  - apply sdb_CreateAccount_ok.
  - apply sdb_AddBalance_ok.
  - apply sdb_SubBalance_ok.
  - by apply sdb_SetNonce_ok.
  - by apply sdb_SetCode_ok.
  - apply sdb_SetState_ok.
  - apply sdb_SetTransientState_ok.
  - apply sdb_Suicide_ok.
  - apply sdb_AddRefund_ok.
  - intros s. apply sdb_SubRefund_ok.
  - apply sdb_AddLog_ok.
  - apply sdb_AddPreimage_ok.
  - intros s Hs. eapply wp_mono; [by apply sdb_AddAddressToAccessList_ok|]. by intros u s' (_ & ? & ?).
  - apply sdb_AddSlotToAccessList_ok.
  - by eapply getter_mutates, sdb_GetCode_ok.
  - eapply getter_mutates. intros s Hs. by apply sdb_GetState_ok.
  - intros s Hs. unfold wp. rewrite sdb_Snapshot_eq. by apply snapped_ok.
Qed.

Lemma evolves_gbind m k : evolves m -> evolves k -> evolves (m ;;; k).
Proof.
  intros Hm Hk s Hs. apply wp_gbind. eapply wp_mono; [by apply Hm|]. intros u s1 [Hs1 Hx].
  eapply wp_mono; [by apply Hk|]. intros u' s2 [Hs2 Hx2]. split; [done|]. by etrans.
Qed.

(** A part between a snapshot and the revert to it. *)
Lemma reverted_ok m s :
  evolves m -> state_ok s ->
  wp refund_panic (let* id := sdb_Snapshot in m ;;; sdb_RevertToSnapshot id)
    (fun _ s' => state_ok s' /\ state_equiv s' s /\ state_ext s s') s.
Proof.
  intros Hm Hs. apply wp_gbind. unfold wp at 1. rewrite sdb_Snapshot_eq.
  destruct (snapped_ok s Hs) as [Hs1 Hx1]. apply wp_gbind. eapply wp_mono; [by apply Hm|].
  intros u s2 [Hs2 Hx2]. by apply wp_weak, sdb_RevertToSnapshot_ok.
Qed.

Lemma run_script_evolves p : script_wf p -> evolves (run_script p).
Proof.
  induction p as [|o rest IH|inner IHi rest IHr]; cbn [script_wf run_script].
  - intros _ s Hs. by apply wp_gret.
  - intros [Ho Hr]. apply evolves_gbind; [by apply run_op_evolves|auto].
  - intros [Hi Hr] s Hs. pose proof (reverted_ok (run_script inner) s (IHi Hi) Hs) as H.
    unfold wp, gbind in *. rewrite sdb_Snapshot_eq in *.
    destruct (run_script inner (snapped s)) as [[u s2]|p|]; [|done..].
    destruct (sdb_RevertToSnapshot _ s2) as [[u' s3]|p|]; [|done..].
    destruct H as (Hs3 & _ & Hx3). specialize (IHr Hr s3 Hs3). unfold wp in IHr.
    destruct (run_script rest s3) as [[u'' s4]|p|]; [|done..]. destruct IHr as [Hs4 Hx4].
    split; [done|]. by etrans.
Qed.

(** C28: Reverting to a snapshot restores the state: after any sequence of
    changes, with nested parts of it reverted or not, [RevertToSnapshot] finds
    the revision, does not panic, and every query answers as before. *)
Theorem revert_restores p s :
  state_ok s -> script_wf p ->
  wp refund_panic (let* id := sdb_Snapshot in run_script p ;;; sdb_RevertToSnapshot id)
    (fun _ s' => state_ok s' /\ state_equiv s' s /\ state_ext s s') s.
Proof. intros Hs Hp. by apply reverted_ok; [apply run_script_evolves|]. Qed.
End scripts.

(** ** Setters and queries *)

Section laws.
Context {B : Database} {K : Keccak} {KL : KeccakLaws K} {BL : DatabaseLaws B}.

Definition balance_of (s : state) (a : Address) : Z :=
  match live_object s a with Some o => so_Balance o | None => 0 end.

(** The object a change of [a] starts from. *)
Definition base_object (s : state) (a : Address) : stateObject := default fresh (live_object s a).

Lemma createObject_eq a s :
  exists s', createObject a s = Ret ((fresh, live_object s a), s') /\ stateObjects s' !! a = Some fresh /\
    (forall b, b <> a -> lookup_object s' b = lookup_object s b) /\
    (forall o, lookup_object s a = Some o -> a ∈ stateObjectsDestruct s') /\
    (forall b, b <> a -> b ∈ stateObjectsDestruct s' <-> b ∈ stateObjectsDestruct s).
Proof.
  unfold createObject, gbind. destruct (getDeletedStateObject_eq a s) as (s1 & -> & Hq & Ho & Hb).
  pose proof (quiet_destruct _ _ Hq) as Hd. unfold live_object.
  assert (forall e s2 b, stateObjects s2 = stateObjects s1 -> b <> a ->
    lookup_object (set_objects (fun m => <[a := fresh]> m) (appended e s2)) b = lookup_object s b) as Hl.
  { intros e s2 b Hs2 Hne. rewrite lookup_set_object, decide_False by congruence. unfold lookup_object.
    by rewrite (data_objects _ _ (appended_data e s2)), Hs2, Hb. }
  destruct (lookup_object s a) as [prev|] eqn:El.
  - unfold gget, gret, gput. destruct (bool_decide (a ∈ stateObjectsDestruct s1)) eqn:Ed; cbn [negb];
      rewrite journal_append_eq; eexists; (split; [reflexivity|]);
      (split; [cbn; by rewrite lookup_insert_eq|]); (split; [by intros b Hne; apply Hl|]); cbn; rewrite <- Hd.
    + apply bool_decide_eq_true in Ed. by split.
    + split; [set_solver|]. intros b Hne. set_solver.
  - unfold gget, gret, gput. rewrite journal_append_eq. eexists. split; [reflexivity|].
    split; [cbn; by rewrite lookup_insert_eq|]. split; [by intros b Hne; apply Hl|]. cbn. by rewrite Hd.
Qed.

Lemma GetOrNew_eq a s :
  exists s', GetOrNewStateObject a s = Ret (base_object s a, s') /\
    stateObjects s' !! a = Some (base_object s a) /\
    (forall b, b <> a -> lookup_object s' b = lookup_object s b) /\
    (forall b, b <> a -> b ∈ stateObjectsDestruct s' <-> b ∈ stateObjectsDestruct s) /\
    (live_object s a <> None -> stateObjectsDestruct s' = stateObjectsDestruct s).
Proof.
  unfold GetOrNewStateObject, gbind. destruct (getStateObject_eq a s) as (s1 & -> & Hq & Ho & Hb).
  assert (forall b, b <> a -> lookup_object s1 b = lookup_object s b) as Hl
    by (intros b Hne; unfold lookup_object; by rewrite Hb).
  unfold base_object. destruct (live_object s a) as [o|] eqn:El; cbn [default].
  - exists s1. split_and!; try done; [by apply Ho|by rewrite (quiet_destruct _ _ Hq)|].
    intros _. apply (quiet_destruct _ _ Hq).
  - destruct (createObject_eq a s1) as (s2 & -> & Ho2 & Hl2 & _ & Hd2). exists s2. split_and!; try done.
    + intros b Hne. by rewrite Hl2, Hl.
    + intros b Hne. by rewrite Hd2, (quiet_destruct _ _ Hq).
Qed.

Lemma base_live s a : deleted (base_object s a) = false.
Proof.
  unfold base_object. destruct (live_object s a) eqn:E; [|done]. by apply live_object_Some in E as [_ ?].
Qed.

Lemma base_balance s a : so_Balance (base_object s a) = balance_of s a.
Proof. unfold base_object, balance_of. by destruct (live_object s a). Qed.

(** One object replaced. *)
Lemma live_set_object s a o b :
  deleted o = false ->
  live_object (set_objects (fun m => <[a := o]> m) s) b = if decide (a = b) then Some o else live_object s b.
Proof.
  intros Hd. unfold live_object. rewrite lookup_set_object. case_decide; [|done]. by rewrite Hd.
Qed.

Lemma live_lookup s s' b : lookup_object s' b = lookup_object s b -> live_object s' b = live_object s b.
Proof. unfold live_object. by intros ->. Qed.

Lemma live_appended e s b : live_object (appended e s) b = live_object s b.
Proof. unfold live_object, lookup_object. by rewrite (data_objects _ _ (appended_data e s)). Qed.

(** The journaled setters, as functions on the objects. *)
Lemma journaled_eq a o f e s :
  stateObjects s !! a = Some o ->
  (journal_append e ;;; object a f) s = Ret (tt, set_objects (fun m => <[a := f o]> m) (appended e s)).
Proof.
  intros Ho. unfold gbind. rewrite journal_append_eq. apply object_eq.
  by rewrite (data_objects _ _ (appended_data e s)).
Qed.

(** A change of the balance of one account. *)
Definition balances (m : GM state unit) (f : Address -> Z -> Z) : Prop :=
  forall s, wp no_panic m (fun _ s' => forall b, balance_of s' b = f b (balance_of s b)) s.

Lemma change_balance_by a (f : stateObject -> GM state unit) (g : Z -> Z) :
  (forall o s, stateObjects s !! a = Some o -> deleted o = false ->
     wp no_panic (f o)
       (fun _ s' => forall b, balance_of s' b = balance_of s b + if decide (a = b) then g (so_Balance o) else 0) s) ->
  balances (change a f) (fun b x => x + if decide (a = b) then g x else 0).
Proof.
  intros Hf s. unfold change. apply wp_gbind.
  destruct (GetOrNew_eq a s) as (s1 & Hg & Ho & Hl & _). unfold wp at 1. rewrite Hg.
  eapply wp_mono; [apply Hf; [exact Ho|apply base_live]|]. intros u s2 Hs2 b. cbn beta in Hs2. rewrite Hs2.
  destruct (decide (a = b)) as [<-|Hne].
  - rewrite base_balance. f_equal. rewrite <- (base_balance s). unfold balance_of, live_object.
    by rewrite (lookup_stored _ _ _ Ho), base_live.
  - f_equal. unfold balance_of. by rewrite (live_lookup _ _ _ (Hl b (not_eq_sym Hne))).
Qed.

Lemma change_balance a (f : stateObject -> GM state unit) (v : Z) :
  (forall o s, stateObjects s !! a = Some o -> deleted o = false ->
     wp no_panic (f o) (fun _ s' => forall b, balance_of s' b = balance_of s b + if decide (a = b) then v else 0) s) ->
  balances (change a f) (fun b x => x + if decide (a = b) then v else 0).
Proof. intros H. by apply (change_balance_by a f (fun _ => v)). Qed.

Lemma SetBalance_balance a o v s :
  stateObjects s !! a = Some o -> deleted o = false ->
  wp no_panic (so_SetBalance a o v)
    (fun _ s' => forall b, balance_of s' b = balance_of s b + if decide (a = b) then v - so_Balance o else 0) s.
Proof.
  intros Ho Hd. unfold so_SetBalance, wp. rewrite (journaled_eq _ _ _ _ _ Ho). intros b.
  unfold balance_of at 1. rewrite live_set_object, live_appended by done. case_decide as Hb; [|by rewrite Z.add_0_r].
  subst b. cbn. unfold balance_of, live_object. rewrite (lookup_stored _ _ _ Ho), Hd. lia.
Qed.

Lemma AddBalance_balance a v : balances (sdb_AddBalance a v) (fun b x => x + if decide (a = b) then v else 0).
Proof.
  apply change_balance. intros o s Ho Hd. unfold so_AddBalance. destruct (v =? 0) eqn:E; zbool.
  - subst v. assert (forall s', stateObjects s' = stateObjects s -> forall b,
      balance_of s' b = balance_of s b + if decide (a = b) then 0 else 0) as Hs.
    { intros s' Hs' b. unfold balance_of, live_object, lookup_object. rewrite Hs'. case_decide; by rewrite Z.add_0_r. }
    destruct (so_empty o); [|by apply wp_gret, Hs]. unfold so_touch. apply wp_gbind. unfold wp at 1.
    rewrite journal_append_eq. case_bool_decide; [apply wp_gput|apply wp_gret]; by apply Hs.
  - eapply wp_mono; [by apply SetBalance_balance|]. intros u s' H b. rewrite H. case_decide; lia.
Qed.

Lemma SubBalance_balance a v : balances (sdb_SubBalance a v) (fun b x => x + if decide (a = b) then - v else 0).
Proof.
  apply change_balance. intros o s Ho Hd. unfold so_SubBalance. destruct (v =? 0) eqn:E; zbool.
  - subst v. apply wp_gret. intros b. case_decide; lia.
  - eapply wp_mono; [by apply SetBalance_balance|]. intros u s' H b. rewrite H. case_decide; lia.
Qed.

Lemma sdb_SetBalance_balance a v :
  balances (sdb_SetBalance a v) (fun b x => if decide (a = b) then v else x).
Proof.
  intros s. eapply wp_mono; [apply (change_balance_by a (fun o => so_SetBalance a o v) (fun x => v - x)); intros o s1 Ho Hd; by apply SetBalance_balance|].
  intros u s' H b. rewrite H. case_decide; lia.
Qed.

(** *** Storage *)

Lemma fresh_state d a k : state_view d a fresh k = 0.
Proof.
  unfold state_view, committed_view, fresh, newObject. cbn [dirtyStorage pendingStorage originStorage so_Root acc_Root].
  rewrite !lookup_empty. case_bool_decide; [done|]. change (0 =? 0) with true. cbv iota. by rewrite GetStorage_empty.
Qed.

Lemma state_view_destruct d d' a o k :
  (a ∈ d <-> a ∈ d') -> state_view d a o k = state_view d' a o k.
Proof.
  intros H. unfold state_view, committed_view. by rewrite (bool_decide_ext _ _ H).
Qed.

(** What the storage of [a] reads after a change of [a] has started. *)
Lemma GetOrNew_storage a s s1 :
  stateObjects s1 !! a = Some (base_object s a) ->
  (forall b, b <> a -> lookup_object s1 b = lookup_object s b) ->
  (forall b, b <> a -> b ∈ stateObjectsDestruct s1 <-> b ∈ stateObjectsDestruct s) ->
  (live_object s a <> None -> stateObjectsDestruct s1 = stateObjectsDestruct s) ->
  forall b k, state_of s1 b k = state_of s b k.
Proof.
  intros Ho Hl Hd Hd' b k. unfold state_of. destruct (decide (b = a)) as [->|Hne].
  - unfold live_object at 1. rewrite (lookup_stored _ _ _ Ho), base_live. unfold base_object.
    destruct (live_object s a) as [o|]; cbn [default]; [by rewrite Hd'|apply fresh_state].
  - rewrite (live_lookup _ _ _ (Hl b Hne)). destruct (live_object s b); [|done].
    by apply state_view_destruct, Hd.
Qed.

Lemma state_of_equiv s s' a k : state_equiv s s' -> state_of s a k = state_of s' a k.
Proof.
  intros He. unfold state_of. pose proof (live_object_equiv s s' a He) as H.
  inversion H as [o o' Ho E1 E2|E1 E2]; [|done]. rewrite <- (eq_destruct _ _ He). apply (eq_state _ _ _ _ Ho).
Qed.

Lemma so_SetState_storage a o k v s :
  stateObjects s !! a = Some o -> deleted o = false ->
  wp no_panic (so_SetState a o k v)
    (fun _ s' => forall b j, state_of s' b j = if decide (a = b /\ k = j) then v else state_of s b j) s.
Proof.
  intros Ho Hd. unfold so_SetState. apply wp_gbind. eapply wp_mono; [by apply so_GetState_ok|].
  intros prev s1 [-> [Hq (o' & Ho' & He)]].
  assert (state_of s a k = state_view (stateObjectsDestruct s) a o k) as Hk
    by (unfold state_of, live_object; by rewrite (lookup_stored _ _ _ Ho), Hd).
  destruct (_ =? v) eqn:Ev; zbool.
  - apply wp_gret. intros b j. rewrite (state_of_equiv _ _ b j (quiet_equiv _ _ Hq)).
    case_decide as Hb; [|done]. destruct Hb as [<- <-]. by rewrite Hk.
  - unfold wp. rewrite (journaled_eq _ _ _ _ _ Ho'). intros b j.
    rewrite <- (state_of_equiv _ _ b j (quiet_equiv _ _ Hq)).
    assert (deleted o' = false) as Hd' by by rewrite (eq_deleted _ _ _ _ He).
    unfold state_of. rewrite live_set_object, live_appended by done. cbn [stateObjectsDestruct set_objects].
    rewrite (data_destruct _ _ (appended_data _ _)).
    destruct (decide (a = b)) as [<-|Hne]; [|by rewrite decide_False by (by intros [? ?])].
    rewrite state_view_setState. unfold live_object. rewrite (lookup_stored _ _ _ Ho'), Hd'.
    destruct (decide (k = j)); [by rewrite decide_True|by rewrite decide_False by (by intros [? ?])].
Qed.

(** [SetState] sets its slot and no other: [GetState] then answers the new
    value there and what it answered before everywhere else, for existing,
    deleted and missing accounts. *)
Theorem SetState_GetState a k v s :
  state_ok s ->
  wp no_panic (sdb_SetState a k v)
    (fun _ s' => forall b j, wp no_panic (sdb_GetState b j)
       (fun w _ => w = if decide (a = b /\ k = j) then v else state_of s b j) s') s.
Proof.
  intros Hok.
  assert (wp no_panic (sdb_SetState a k v)
    (fun _ s' => forall b j, state_of s' b j = if decide (a = b /\ k = j) then v else state_of s b j) s) as H.
  { unfold sdb_SetState, change. apply wp_gbind. destruct (GetOrNew_eq a s) as (s1 & Hg & Ho & Hl & Hd & Hd').
    unfold wp at 1. rewrite Hg. eapply wp_mono; [apply so_SetState_storage; [exact Ho|apply base_live]|].
    intros u s2 Hs2 b j. cbn beta in Hs2. rewrite Hs2. by rewrite (GetOrNew_storage a s s1). }
  eapply wp_mono; [apply wp_conj; [exact H|by apply sdb_SetState_ok]|].
  intros u s' [Hs' [Hok' _]] b j. eapply wp_mono; [by apply sdb_GetState_ok|].
  intros w s2 [-> _]. apply Hs'.
Qed.

(** [CreateAccount] carries the balance over and resets the rest: nonce 0,
    no code, and empty storage, also if the old account had some. *)
Theorem CreateAccount_resets a s :
  state_ok s ->
  wp no_panic (sdb_CreateAccount a)
    (fun _ s' => balance_of s' a = balance_of s a /\ nonce_of s' a = 0 /\ state_code_of s' a = [] /\
       state_codehash_of s' a = emptyCodeHash /\ (forall k, state_of s' a k = 0) /\
       (forall k, committed_of s' a k = 0)) s.
Proof.
  intros Hok. unfold sdb_CreateAccount. apply wp_gbind.
  destruct (createObject_eq a s) as (s1 & Hc & Ho & _). unfold wp at 1. rewrite Hc. cbn [snd].
  assert (forall o, deleted o = false -> so_CodeHash o = emptyCodeHash -> so_code o = [] -> so_Nonce o = 0 ->
    (forall k, state_view (stateObjectsDestruct s1) a o k = 0) ->
    (forall k, committed_view (stateObjectsDestruct s1) a o k = 0) -> so_Balance o = balance_of s a ->
    let s' := set_objects (fun m => <[a := o]> m) s1 in
    balance_of s' a = balance_of s a /\ nonce_of s' a = 0 /\ state_code_of s' a = [] /\
    state_codehash_of s' a = emptyCodeHash /\ (forall k, state_of s' a k = 0) /\
    (forall k, committed_of s' a k = 0)) as Hgen.
  { intros o Hd Hh Hcd Hn Hs Hcm Hb s'. unfold balance_of at 1, nonce_of, state_code_of, state_codehash_of, state_of, committed_of.
    unfold s'. rewrite !live_set_object, !decide_True by done. split_and!; try done.
    unfold code_view. rewrite Hcd, Hh. change (zlen (@nil byte) =? 0) with true. cbn [negb].
    by rewrite (Z.eqb_refl emptyCodeHash). }
  assert (forall k, committed_view (stateObjectsDestruct s1) a fresh k = 0) as Hcm.
  { intros k. pose proof (fresh_state (stateObjectsDestruct s1) a k) as H. unfold state_view in H.
    unfold fresh, newObject in H. cbn [dirtyStorage] in H. by rewrite lookup_empty in H. }
  unfold balance_of in *. destruct (live_object s a) as [prev|].
  - unfold wp. rewrite (object_eq _ _ _ fresh Ho). apply Hgen; try done; intros k; apply (fresh_state _ a k).
  - apply wp_gret. rewrite <- (set_object_same s1 a fresh Ho). apply Hgen; try done.
    all: intros k; apply fresh_state.
Qed.
End laws.
