(* ===== verification/StateSupply.v ===== *)
(** * Balances, the access list before a transaction, and the interface

    How every method of the state database changes the balances: only the
    balance setters and [Suicide] do.  With that, the state database implements
    the interface of [StateInterface] (instance [state_spec]). *)

From stdpp Require Import gmap.
From S2P Require Import Prelude.
From S2P Require Import Common.
From S2P Require Import Params.
From S2P Require Import Crypto.
From S2P Require Import StateObject.
From S2P Require Import StateInterface.
From S2P Require Import StateStore.
From S2P Require Import StateSpec.
From S2P Require Import StateSafe.
From S2P Require Import StateTheorems.

Section supply.
Context {B : Database} {K : Keccak} {KL : KeccakLaws K} {BL : DatabaseLaws B}.

(** ** Methods that keep every balance *)

Definition same_balances (s s' : state) : Prop := forall a, balance_of s' a = balance_of s a.

Definition keeps {A} (m : GM state A) : Prop :=
  forall s, state_ok s -> wp no_panic m (fun _ s' => same_balances s s') s.

Lemma balance_of_equiv s s' a : state_equiv s s' -> balance_of s a = balance_of s' a.
Proof.
  intros He. unfold balance_of. pose proof (live_object_equiv s s' a He) as H.
  inversion H as [o o' Ho E1 E2|E1 E2]; [|done]. apply (eq_Balance _ _ _ _ Ho).
Qed.

Lemma nonce_of_equiv s s' a : state_equiv s s' -> nonce_of s a = nonce_of s' a.
Proof.
  intros He. unfold nonce_of. pose proof (live_object_equiv s s' a He) as H.
  inversion H as [o o' Ho E1 E2|E1 E2]; [|done]. apply (eq_Nonce _ _ _ _ Ho).
Qed.

Lemma balance_of_objects s s' a : stateObjects s' = stateObjects s -> balance_of s' a = balance_of s a.
Proof. intros H. unfold balance_of, live_object, lookup_object. by rewrite H. Qed.

Lemma same_balances_objects s s' : stateObjects s' = stateObjects s -> same_balances s s'.
Proof. intros H a. by apply balance_of_objects. Qed.

Lemma keeps_balances {A} (m : GM state A) (f : A -> unit) :
  balances (let* x := m in gret (f x)) (fun _ x => x) -> keeps m.
Proof.
  intros H s _. specialize (H s). unfold wp, gbind, gret in *. by destruct (m s) as [[x s']| |].
Qed.

Lemma journal_entry_balances e s : wp no_panic (journal_append e) (fun _ s' => stateObjects s' = stateObjects s) s.
Proof. unfold wp. rewrite journal_append_eq. apply (data_objects _ _ (appended_data e s)). Qed.

(** A change of one object that keeps its balance. *)
Lemma change_keeps a (f : stateObject -> GM state unit) :
  (forall o s, stateObjects s !! a = Some o -> deleted o = false ->
     wp no_panic (f o) (fun _ s' => same_balances s s') s) -> keeps (change a f).
Proof.
  intros Hf s _. pose proof (change_balance a f 0) as H. eapply wp_mono; [apply H|].
  - intros o s' Ho Hd. eapply wp_mono; [by apply Hf|]. intros u s2 Hs b. rewrite Hs. case_decide; lia.
  - intros u s' Hs b. rewrite Hs. case_decide; lia.
Qed.

Lemma object_keeps a o f e s :
  stateObjects s !! a = Some o -> deleted o = false -> deleted (f o) = false -> so_Balance (f o) = so_Balance o ->
  wp no_panic (journal_append e ;;; object a f) (fun _ s' => same_balances s s') s.
Proof.
  intros Ho Hd Hd' Hb. unfold wp. rewrite (journaled_eq _ _ _ _ _ Ho). intros b. unfold balance_of.
  rewrite live_set_object, live_appended by done. case_decide; [|done]. subst b.
  unfold live_object. by rewrite (lookup_stored _ _ _ Ho), Hd.
Qed.

Lemma SetNonce_keeps a n : keeps (sdb_SetNonce a n).
Proof. apply change_keeps. intros o s Ho Hd. by eapply object_keeps. Qed.

Lemma SetCode_keeps a c : keeps (sdb_SetCode a c).
Proof.
  apply change_keeps. intros o s Ho Hd. unfold so_SetCode. apply wp_gbind.
  eapply wp_mono; [by apply so_Code_ok|]. intros prev s1 [-> [Hq (o' & Ho' & He)]].
  assert (deleted o' = false) as Hd' by by rewrite (eq_deleted _ _ _ _ He).
  eapply wp_mono; [by apply (object_keeps a o')|].
  intros u s2 Hs b. rewrite Hs. symmetry. apply balance_of_equiv. symmetry. apply (quiet_equiv _ _ Hq).
Qed.

Lemma SetState_keeps a k v : keeps (sdb_SetState a k v).
Proof.
  apply change_keeps. intros o s Ho Hd. unfold so_SetState. apply wp_gbind.
  eapply wp_mono; [by apply so_GetState_ok|]. intros prev s1 [-> [Hq (o' & Ho' & He)]].
  assert (same_balances s s1) as Hs1 by (intros b; apply balance_of_equiv, (quiet_equiv _ _ Hq)).
  destruct (_ =? v); [by apply wp_gret|].
  assert (deleted o' = false) as Hd' by by rewrite (eq_deleted _ _ _ _ He).
  eapply wp_mono; [by apply (object_keeps a o')|].
  intros u s2 Hs b. by rewrite Hs.
Qed.

Lemma CreateAccount_keeps a : keeps (sdb_CreateAccount a).
Proof.
  intros s _. unfold sdb_CreateAccount. apply wp_gbind.
  destruct (createObject_eq a s) as (s1 & Hc & Ho & Hl & _). unfold wp at 1. rewrite Hc. cbn [snd].
  assert (forall b o, deleted o = false -> so_Balance o = balance_of s a ->
    balance_of (set_objects (fun m => <[a := o]> m) s1) b = balance_of s b) as Hset.
  { intros b o Hd Hb. unfold balance_of at 1. rewrite live_set_object by done. case_decide as Hab; [by subst b|].
    unfold balance_of. rewrite (live_lookup s s1 b) by (apply Hl; congruence). done. }
  destruct (live_object s a) as [prev|] eqn:El.
  - unfold wp. rewrite (object_eq _ _ _ fresh Ho). intros b. apply Hset; [done|]. unfold balance_of. by rewrite El.
  - apply wp_gret. rewrite <- (set_object_same s1 a fresh Ho). intros b. apply Hset; [done|].
    unfold balance_of. by rewrite El.
Qed.

Lemma AddRefund_keeps g : keeps (sdb_AddRefund g).
Proof.
  intros s _. unfold sdb_AddRefund. apply wp_gbind, wp_gget, wp_gbind.
  eapply wp_mono; [apply journal_entry_balances|]. intros u s1 Hs. apply wp_gput. by apply same_balances_objects.
Qed.

Lemma SetTransientState_keeps a k v : keeps (sdb_SetTransientState a k v).
Proof.
  intros s _. unfold sdb_SetTransientState, sdb_GetTransientState. apply wp_gbind, wp_gget.
  destruct (_ =? v); [by apply wp_gret|]. apply wp_gbind.
  eapply wp_mono; [apply journal_entry_balances|]. intros u s1 Hs. apply wp_gput. by apply same_balances_objects.
Qed.

Lemma AddLog_keeps l : keeps (sdb_AddLog l).
Proof.
  intros s _. unfold sdb_AddLog. apply wp_gbind, wp_gget, wp_gbind.
  eapply wp_mono; [apply journal_entry_balances|]. intros u s1 Hs. apply wp_gput. by apply same_balances_objects.
Qed.

Lemma AddPreimage_keeps h d : keeps (sdb_AddPreimage h d).
Proof.
  intros s _. unfold sdb_AddPreimage. apply wp_gbind, wp_gget. destruct (preimages s !! h); [by apply wp_gret|].
  apply wp_gbind. eapply wp_mono; [apply journal_entry_balances|]. intros u s1 Hs. apply wp_gput.
  by apply same_balances_objects.
Qed.

Lemma AddAddress_keeps a : keeps (sdb_AddAddressToAccessList a).
Proof.
  intros s _. unfold sdb_AddAddressToAccessList, on_accessList. apply wp_gbind, wp_gzoom.
  unfold wp at 1. rewrite AddAddress_spec. destruct (ContainsAddress _ a).
  - apply wp_gret. by apply same_balances_objects.
  - eapply wp_mono; [apply journal_entry_balances|]. intros u s1 Hs. by apply same_balances_objects.
Qed.

Lemma AddSlotTo_keeps a k : keeps (sdb_AddSlotToAccessList a k).
Proof.
  intros s Hok. unfold sdb_AddSlotToAccessList, on_accessList. apply wp_gbind, wp_gzoom.
  destruct (AddSlot_ok a k (s_accessList s) (ok_access _ Hok)) as (ac & sc & al & Ha & _).
  unfold wp at 1. rewrite Ha. apply wp_gbind.
  eapply (wp_mono _ (fun _ s' => stateObjects s' = stateObjects s)).
  { destruct ac; [|by apply wp_gret]. eapply wp_mono; [apply journal_entry_balances|]. by intros u s1 ->. }
  intros u s1 Hs. destruct sc; [|apply wp_gret; by apply same_balances_objects].
  eapply wp_mono; [apply journal_entry_balances|]. intros u' s2 Hs2. apply same_balances_objects. congruence.
Qed.

(** ** Suicide *)

Lemma Suicide_balance a s :
  wp no_panic (sdb_Suicide a)
    (fun _ s' => forall b, balance_of s' b = balance_of s b + if decide (a = b) then - balance_of s a else 0) s.
Proof.
  unfold sdb_Suicide. apply wp_gbind. destruct (getStateObject_eq a s) as (s1 & Hg & Hq & Ho & _).
  unfold wp at 1. rewrite Hg.
  assert (forall b, balance_of s1 b = balance_of s b) as Hb1
    by (intros b; apply balance_of_equiv, (quiet_equiv _ _ Hq)).
  destruct (live_object s a) as [o|] eqn:El.
  2:{ apply wp_gret. intros b. rewrite Hb1. case_decide; [|lia]. unfold balance_of. rewrite El. lia. }
  pose proof El as [_ Hd]%live_object_Some. specialize (Ho o eq_refl).
  apply wp_gbind. unfold wp at 1. rewrite journal_append_eq. set (e := suicideChange _ _ _).
  apply wp_gbind. unfold wp at 1. rewrite (object_eq _ _ _ o) by by rewrite (data_objects _ _ (appended_data e s1)).
  apply wp_gbind. unfold wp at 1. rewrite (object_eq _ _ _ (so_markSuicided o)) by (cbn; by rewrite lookup_insert_eq).
  apply wp_gret. intros b. rewrite set_object_twice. unfold balance_of at 1.
  rewrite live_set_object, live_appended by done. case_decide as Hab.
  - subst b. cbn. lia.
  - fold (balance_of s1 b). rewrite Hb1. lia.
Qed.

(** ** Preparing a transaction *)

Lemma add_addresses_ok l al :
  access_ok al ->
  exists al', add_addresses l al = Ret (tt, al') /\ access_ok al' /\
    forall a, ContainsAddress al a = true -> ContainsAddress al' a = true.
Proof.
  revert al. induction l as [|b l IH]; intros al Hal; cbn [add_addresses]; [by exists al|].
  unfold gbind at 1. rewrite AddAddress_spec. destruct (ContainsAddress al b) eqn:Eb; [by apply IH|].
  destruct (IH _ (AddAddress_access_ok b al Hal)) as (al' & -> & Hal' & Hm). exists al'. split_and!; try done.
  intros a Ha. apply Hm. unfold ContainsAddress in *. cbn.
  destruct (decide (b = a)) as [->|]; [by rewrite lookup_insert_eq|by rewrite lookup_insert_ne].
Qed.

Lemma add_slots_ok a keys al :
  access_ok al ->
  exists al', add_slots a keys al = Ret (tt, al') /\ access_ok al' /\
    forall b, ContainsAddress al b = true -> ContainsAddress al' b = true.
Proof.
  revert al. induction keys as [|k keys IH]; intros al Hal; cbn [add_slots]; [by exists al|].
  unfold gbind at 1. destruct (AddSlot_ok a k al Hal) as (ac & sc & al1 & -> & Hal1 & Hm1 & _).
  destruct (IH al1 Hal1) as (al' & -> & Hal' & Hm). exists al'. split_and!; try done. eauto.
Qed.

Lemma AddAddress_ok b al :
  access_ok al ->
  exists r al', AddAddress b al = Ret (r, al') /\ access_ok al' /\ ContainsAddress al' b = true /\
    forall a, ContainsAddress al a = true -> ContainsAddress al' a = true.
Proof.
  intros Hal. rewrite AddAddress_spec. destruct (ContainsAddress al b) eqn:Eb; [by exists false, al|].
  eexists true, _. split; [done|]. split; [by apply AddAddress_access_ok|]. unfold ContainsAddress in *. cbn.
  split; [by rewrite lookup_insert_eq|]. intros a Ha.
  destruct (decide (b = a)) as [->|]; [by rewrite lookup_insert_eq|by rewrite lookup_insert_ne].
Qed.

Lemma add_tuples_ok l al :
  access_ok al ->
  exists al', add_tuples l al = Ret (tt, al') /\ access_ok al' /\
    forall b, ContainsAddress al b = true -> ContainsAddress al' b = true.
Proof.
  revert al. induction l as [|[a keys] l IH]; intros al Hal; cbn [add_tuples]; [by exists al|].
  unfold gbind at 1. destruct (AddAddress_ok a al Hal) as (r & al1 & -> & Hal1 & _ & Hm1).
  unfold gbind at 1. destruct (add_slots_ok a keys al1 Hal1) as (al2 & -> & Hal2 & Hm2).
  destruct (IH al2 Hal2) as (al' & -> & Hal' & Hm). exists al'. split_and!; try done. eauto.
Qed.

Lemma state_ok_access al s : access_ok al -> state_ok s -> state_ok (set_accessList al s).
Proof. intros Hal []. by split. Qed.

(** Still within the same transaction. *)
Definition same_tx (s s' : state) : Prop := (thash s', txIndex s') = (thash s, txIndex s).

Lemma Prepare_access rules sender coinbase dst pre al s :
  state_ok s ->
  wp no_panic (sdb_Prepare rules sender coinbase dst pre al)
    (fun _ s' => state_ok s' /\ same_balances s s' /\ same_tx s s' /\
       (rIsBerlin rules = true -> ContainsAddress (s_accessList s') sender = true /\
          forall d, dst = Some d -> ContainsAddress (s_accessList s') d = true)) s.
Proof.
  intros Hok. unfold sdb_Prepare. apply wp_gbind.
  eapply (wp_mono _ (fun _ s' => state_ok s' /\ same_balances s s' /\ same_tx s s' /\
       (rIsBerlin rules = true -> ContainsAddress (s_accessList s') sender = true /\
          forall d, dst = Some d -> ContainsAddress (s_accessList s') d = true))).
  2:{ intros u s1 (H1 & H2 & H3 & H4). apply wp_gput. split_and!; [by destruct H1; split| |done|done].
      intros b. rewrite <- H2. by apply balance_of_objects. }
  destruct (rIsBerlin rules); [|by apply wp_gret].
  apply wp_gbind, wp_gput, wp_gzoom. cbn [s_accessList set_accessList].
  destruct (AddAddress_ok sender newAccessList newAccessList_ok) as (r & al1 & H1 & Hal1 & Hc1 & _).
  apply wp_gbind. unfold wp at 1. rewrite H1.
  assert (exists al2, match dst with Some dst => AddAddress dst ;;; gret tt | None => gret tt end al1 = Ret (tt, al2) /\
    access_ok al2 /\ ContainsAddress al2 sender = true /\ forall d, dst = Some d -> ContainsAddress al2 d = true)
    as (al2 & H2 & Hal2 & Hc2 & Hd2).
  { destruct dst as [d|]; [|by exists al1]. destruct (AddAddress_ok d al1 Hal1) as (r2 & al2 & H2 & Hal2 & Hd2 & Hm2).
    exists al2. unfold gbind, gret. rewrite H2. split_and!; try done; [by apply Hm2|by intros ? [= <-]]. }
  apply wp_gbind. unfold wp at 1. rewrite H2.
  destruct (add_addresses_ok pre al2 Hal2) as (al3 & H3 & Hal3 & Hm3). apply wp_gbind. unfold wp at 1. rewrite H3.
  destruct (add_tuples_ok al al3 Hal3) as (al4 & H4 & Hal4 & Hm4). apply wp_gbind. unfold wp at 1. rewrite H4.
  assert (forall al5, access_ok al5 -> (forall a, ContainsAddress al4 a = true -> ContainsAddress al5 a = true) ->
    state_ok (set_accessList al5 (set_accessList newAccessList s)) /\
    same_balances s (set_accessList al5 (set_accessList newAccessList s)) /\
    same_tx s (set_accessList al5 (set_accessList newAccessList s)) /\
    (true = true -> ContainsAddress al5 sender = true /\ forall d, dst = Some d -> ContainsAddress al5 d = true)) as Hend.
  { intros al5 Hal5 Hm5. split_and!; [by apply state_ok_access, state_ok_access, Hok; [|apply newAccessList_ok]|done|done|].
    intros _. split; [by apply Hm5, Hm4, Hm3|]. intros d Hd. apply Hm5, Hm4, Hm3. by apply Hd2. }
  destruct (rIsShanghai rules); [|apply wp_gret; by apply Hend].
  destruct (AddAddress_ok coinbase al4 Hal4) as (r5 & al5 & H5 & Hal5 & _ & Hm5).
  apply wp_gbind. unfold wp at 1. rewrite H5. apply wp_gret. by apply Hend.
Qed.

(** ** The interface *)

Definition solvent (s : state) : Prop := forall a, 0 <= balance_of s a.

Definition state_evolve (n : Z) (s s' : state) : Prop :=
  state_ext s s' /\ grows_by n (balance_of s) (balance_of s').

Lemma evolve_same s s' : state_ext s s' -> same_balances s s' -> state_evolve 0 s s'.
Proof. intros Hx Hb. split; [done|by apply grows_same]. Qed.

Lemma mutator_ok (m : GM state unit) :
  mutates m -> keeps m ->
  forall s, state_ok s /\ solvent s ->
    wp no_panic m (fun _ s' => (state_ok s' /\ solvent s') /\ state_evolve 0 s s' /\ same_balances s s') s.
Proof.
  intros Hm Hk s [Hok Hs]. eapply wp_mono; [apply wp_conj; [by apply Hm|by apply Hk]|].
  intros u s' [[Hok' Hx] Hb]. split_and!; [done| |by apply evolve_same|done]. intros a. rewrite Hb. apply Hs.
Qed.

Lemma getter_ok {A} (m : GM state A) (P : A -> Prop) s :
  state_ok s /\ solvent s -> state_getter m P s ->
  wp no_panic m (fun r s' => P r /\ (state_ok s' /\ solvent s') /\ state_evolve 0 s s' /\ state_equiv s' s) s.
Proof.
  intros [Hok Hs] Hm. eapply wp_mono; [apply Hm|]. intros r s' (HP & Hok' & Hx & He).
  assert (same_balances s s') as Hb by (intros a; by apply balance_of_equiv).
  split_and!; try done; [intros a; rewrite Hb; apply Hs|by apply evolve_same].
Qed.

Lemma getter_ok' {A} (m : GM state A) (P : state -> A -> Prop) :
  (forall s, state_ok s -> state_getter m (P s) s) ->
  forall s, state_ok s /\ solvent s ->
    wp no_panic m (fun _ s' => (state_ok s' /\ solvent s') /\ state_evolve 0 s s' /\ state_equiv s' s) s.
Proof.
  intros Hm s Hs. eapply wp_mono; [apply (getter_ok m (P s)); [done|apply Hm, Hs]|]. by intros r s' (_ & H).
Qed.

(** A change of one balance that leaves it non-negative. *)
Lemma balance_change_ok {A} (m : GM state A) a v s :
  mutates m -> wp no_panic m (fun _ s' => forall b, balance_of s' b = balance_of s b + if decide (a = b) then v else 0) s ->
  state_ok s /\ solvent s -> 0 <= balance_of s a + v ->
  wp no_panic m (fun _ s' => (state_ok s' /\ solvent s') /\ state_evolve v s s' /\
    forall b, balance_of s' b = balance_of s b + if decide (a = b) then v else 0) s.
Proof.
  intros Hm Hb [Hok Hs] Hv. eapply wp_mono; [apply wp_conj; [by apply Hm|exact Hb]|].
  intros u s' [[Hok' Hx] H]. split_and!; try done.
  - intros b. rewrite H. specialize (Hs b). case_decide; [subst b|]; lia.
  - split; [done|by apply (grows_one _ _ a)].
Qed.

Lemma SubRefund_keeps g s :
  wp refund_panic (sdb_SubRefund g) (fun _ s' => same_balances s s') s.
Proof.
  unfold sdb_SubRefund. apply wp_gbind, wp_gget, wp_gbind.
  eapply wp_mono; [apply wp_weak, journal_entry_balances|]. intros u s1 Hs.
  destruct (g >? refund s); [by apply wp_gpanic|]. apply wp_gput. by apply same_balances_objects.
Qed.

Lemma Suicide_evolves a s :
  state_ok s /\ solvent s ->
  wp no_panic (sdb_Suicide a) (fun _ s' => (state_ok s' /\ solvent s') /\ state_evolve (- balance_of s a) s s') s.
Proof.
  intros Hs. eapply wp_mono; [apply (balance_change_ok _ a (- balance_of s a)); try done|].
  - apply sdb_Suicide_ok.
  - apply Suicide_balance.
  - lia.
  - by intros u s' (H1 & H2 & _).
Qed.

Lemma state_GetBalance_ok a s : state_ok s -> state_getter (sdb_GetBalance a) (fun b => b = balance_of s a) s.
Proof. intros Hok. unfold balance_of. apply query_read_ok; [done|by intros o ->|by intros ->]. Qed.

Lemma AddAddress_evolves a s :
  state_ok s /\ solvent s ->
  wp no_panic (sdb_AddAddressToAccessList a)
    (fun _ s' => ContainsAddress (s_accessList s') a = true /\ (state_ok s' /\ solvent s') /\
       state_evolve 0 s s' /\ same_balances s s') s.
Proof.
  intros [Hok Hs]. eapply wp_mono;
    [apply wp_conj; [by apply sdb_AddAddressToAccessList_ok|by apply AddAddress_keeps]|].
  intros u s' [(Hc & Hok' & Hx) Hb]. split_and!; try done; [|by apply evolve_same]. intros b. rewrite Hb. apply Hs.
Qed.

Lemma RevertToSnapshot_evolves n s s2 :
  state_ok s /\ solvent s -> state_ok s2 -> state_evolve n (snapped s) s2 ->
  wp no_panic (sdb_RevertToSnapshot (nextRevisionId s))
    (fun _ s3 => (state_ok s3 /\ solvent s3) /\ state_equiv s3 s /\ state_evolve 0 s s3) s2.
Proof.
  intros [Hok Hs] Hok2 [Hx _]. eapply wp_mono; [by apply sdb_RevertToSnapshot_ok|].
  intros u s3 (Hok3 & He & Hx3). assert (same_balances s s3) as Hb by (intros a; by apply balance_of_equiv).
  split_and!; try done; [|by apply evolve_same]. intros a. rewrite Hb. apply Hs.
Qed.

#[export] Instance state_spec : StateDBSpec state.
Proof.
  refine {|
    sdb_ok s := state_ok s /\ solvent s;
    sdb_evolve := state_evolve;
    sdb_equiv := state_equiv;
    in_access_list s a := ContainsAddress (s_accessList s) a;
    code_of := state_code_of;
    codehash_of := state_codehash_of;
    balance_at := balance_of;
    balance_equiv := balance_of_equiv;
    nonce_at := nonce_of;
    nonce_equiv := nonce_of_equiv;
    refund_at := refund;
    tx_at s := (thash s, txIndex s);
    code_of_equiv := state_code_of_equiv;
    codehash_of_equiv := state_codehash_of_equiv;
    CreateAccount_ok a := mutator_ok _ (sdb_CreateAccount_ok a) (CreateAccount_keeps a);
    SetNonce_ok a n Hn := mutator_ok _ (sdb_SetNonce_ok a n Hn) (SetNonce_keeps a n);
    SetCode_ok a c Hc := mutator_ok _ (sdb_SetCode_ok a c Hc) (SetCode_keeps a c);
    GetCodeSize_ok a := getter_ok' _ _ (sdb_GetCodeSize_ok a);
    AddRefund_ok g := mutator_ok _ (sdb_AddRefund_ok g) (AddRefund_keeps g);
    GetCommittedState_ok a k := getter_ok' _ _ (sdb_GetCommittedState_ok a k);
    GetState_ok a k := getter_ok' _ _ (sdb_GetState_ok a k);
    SetState_ok a k v := mutator_ok _ (sdb_SetState_ok a k v) (SetState_keeps a k v);
    SetTransientState_ok a k v := mutator_ok _ (sdb_SetTransientState_ok a k v) (SetTransientState_keeps a k v);
    AddSlotToAccessList_ok a k := mutator_ok _ (sdb_AddSlotToAccessList_ok a k) (AddSlotTo_keeps a k);
    AddLog_ok l := mutator_ok _ (sdb_AddLog_ok l) (AddLog_keeps l);
    AddPreimage_ok h d := mutator_ok _ (sdb_AddPreimage_ok h d) (AddPreimage_keeps h d);
    GetNonce_ok a s Hs := getter_ok _ _ s Hs (sdb_GetNonce_ok a s (proj1 Hs));
    GetCodeHash_ok a s Hs := getter_ok _ _ s Hs (sdb_GetCodeHash_ok a s (proj1 Hs));
    GetCode_ok a s Hs := getter_ok _ _ s Hs (sdb_GetCode_ok a s (proj1 Hs));
    GetBalance_ok a s Hs := getter_ok _ _ s Hs (state_GetBalance_ok a s (proj1 Hs));
    GetRefund_ok s Hs := getter_ok _ (fun r => r = refund s) s Hs (gget_getter _ _ s (proj1 Hs) eq_refl);
    Suicide_ok := Suicide_evolves;
    AddAddressToAccessList_ok := AddAddress_evolves;
    SlotInAccessList_ok a k s Hs := getter_ok _ _ s Hs (sdb_SlotInAccessList_ok a k s (proj1 Hs))
  |}.
  - intros s. apply evolve_same; [reflexivity|done].
  - intros n m s1 s2 s3 [Hx1 Hg1] [Hx2 Hg2]. split; [by etrans|by eapply grows_trans].
  - intros n m s s' Hnm [Hx Hg]. split; [done|by eapply grows_weaken].
  - by intros n s s' [_ Hg].
  - intros n s s' [Hx _]. by apply ext_tx.
  - intros s a [Hok _]. by apply nonce_of_u64.
  - intros s s' He. by apply eq_refund.
  - intros s [Hok _]. apply (ok_counters _ Hok).
  - by intros s a [_ Hs].
  - intros s s' a He. by rewrite (eq_access _ _ He).
  - intros n s s' a [Hx _]. by apply state_access_mono.
  - intros s a [Hok _]. by apply state_code_hash.
  - intros s a [Hok _]. by apply state_code_size.
  - intros a v s Hs Hv. apply balance_change_ok; [apply sdb_SubBalance_ok|apply SubBalance_balance|done|lia].
  - intros a v s Hs Hv. apply balance_change_ok; [apply sdb_AddBalance_ok|apply AddBalance_balance|done|].
    pose proof (proj2 Hs a). lia.
  - intros a k. apply (getter_ok' _ (fun _ _ => True)). intros s Hok. by apply gget_getter.
  - intros a. apply (getter_ok' _ (fun _ _ => True)). intros s Hok. by apply query_read_ok.
  - intros a. apply (getter_ok' _ (fun _ _ => True)). intros s Hok. by apply query_read_ok.
  - intros a. apply (getter_ok' _ (fun _ _ => True)). intros s Hok. by apply query_read_ok.
  - intros g s [Hok Hs]. eapply wp_mono; [apply wp_conj; [by apply sdb_SubRefund_ok|apply SubRefund_keeps]|].
    intros u s' [[Hok' Hx] Hb]. split_and!; try done; [|by apply evolve_same]. intros a. rewrite Hb. apply Hs.
  - intros a s Hs. apply (getter_ok (AddressInAccessList a) (fun b => b = ContainsAddress (s_accessList s) a)); [done|].
    apply gget_getter; [apply Hs|done].
  - intros rules sender coinbase dst pre al s [Hok Hs]. eapply wp_mono; [by apply Prepare_access|].
    intros u s' (Hok' & Hb & Ht & Hc). split_and!; try done. intros a. rewrite Hb. apply Hs.
  - intros s [Hok Hs]. unfold wp. cbn [Snapshot state_db]. rewrite sdb_Snapshot_eq.
    destruct (snapped_ok s Hok) as [Hok' Hx]. split_and!; [done|by intros a; apply Hs|by apply evolve_same|apply snapped_equiv].
  - intros n s id s1 s2 Hok Hs [Hok2 _] Hx. cbn [Snapshot state_db] in Hs. rewrite sdb_Snapshot_eq in Hs.
    injection Hs as <- <-. by eapply RevertToSnapshot_evolves.
Defined.

(** ** The theorem *)

Lemma state_New_ok : state_ok state_New.
Proof.
  split; cbn; try done.
  - intros a o. unfold lookup_object. cbn. rewrite lookup_empty.
    destruct (GetAccount a) as [[acc|]|] eqn:E; [|done..]. intros [= <-].
    split; [by apply (GetAccount_nonce a acc)|]. unfold code_view. cbn [so_code newObject so_CodeHash].
    change (zlen (@nil byte) =? 0) with true. cbn [negb]. destruct (_ =? emptyCodeHash); [by split; [left|]|].
    destruct (ContractCode _ _) as [c|] eqn:Ec; [|by split; [left|]]. cbn [default].
    split; [right; symmetry; by eapply ContractCode_hash|by eapply ContractCode_length].
  - apply newAccessList_ok.
  - by intros r Hr%elem_of_nil.
  - constructor.
  - by intros r Hr%elem_of_nil.
Qed.

Lemma state_New_solvent : solvent state_New.
Proof.
  intros a. unfold balance_of, live_object, lookup_object. cbn. rewrite lookup_empty.
  destruct (GetAccount a) as [[acc|]|] eqn:E; [|done..]. cbn. destruct (acc_Balance acc) eqn:Eb; [|done].
  by eapply GetAccount_balance.
Qed.

(** C24: The journaled state database implements the interface the EVM is verified
    against: a new one is well-formed and solvent, no method panics on such a one
    (except [SubRefund], as written) or breaks it, snapshots can be reverted to
    with the state as before, and only the balance setters and [Suicide] change
    balances, by what they are told.  The invariant, the equivalence and the
    graded relation "evolved without reverting below, the supply growing by at
    most" of the interface are those of the implementation. *)
Theorem state_refines_StateDB :
  exists SP : StateDBSpec state,
    (forall s, sdb_ok s <-> state_ok s /\ solvent s) /\
    (forall n s s', sdb_evolve n s s' <-> state_ext s s' /\ grows_by n (balance_of s) (balance_of s')) /\
    sdb_equiv = state_equiv /\ balance_at = balance_of /\ sdb_ok state_New.
Proof.
  exists state_spec. split_and!; try done. split; [apply state_New_ok|apply state_New_solvent].
Qed.
End supply.
