(* ===== verification/Finalise.v ===== *)
(** * The end of a transaction (client/core/state/statedb.go, Finalise)

    [sdb_Finalise] of [StateStore] visits the dirty accounts in the order of a Go
    map.  Here: the outcome does not depend on that order; suicided and (if asked)
    empty accounts are gone, every other account answers as before, what was
    written counts as committed, nothing can be reverted any more, and the sum of
    the balances does not grow. *)

From Stdlib Require Import Sorting.Sorted.
From S2P Require Import Prelude.
From S2P Require Import Common.
From S2P Require Import Crypto.
From S2P Require Import StateObject.
From S2P Require Import StateInterface.
From S2P Require Import StateStore.
From S2P Require Import StateSpec.
From S2P Require Import StateSafe.
From S2P Require Import StateTheorems.
From S2P Require Import StateSupply.

Section finalise.
Context {B : Database} {K : Keccak} {KL : KeccakLaws K} {BL : DatabaseLaws B}.
Implicit Types (s : state) (o : stateObject) (a : Address) (order : list Address).

(** ** What happens to an object *)

Definition doomed (b : bool) (o : stateObject) : bool := suicided o || (b && so_empty o).
Definition finalised (b : bool) (o : stateObject) : stateObject :=
  if doomed b o then so_setDeleted o else so_finalise o.

Lemma doomed_finalised b o : doomed b (finalised b o) = doomed b o.
Proof. unfold finalised. by destruct (doomed b o) eqn:E. Qed.

Lemma finalised_twice b o : finalised b (finalised b o) = finalised b o.
Proof.
  unfold finalised at 1. rewrite doomed_finalised. unfold finalised. destruct (doomed b o); [done|].
  unfold so_finalise. cbn. by rewrite map_empty_union.
Qed.

(** ** What happens to the state *)

Record finalised_state (b : bool) (order : list Address) (s s' : state) : Prop := {
  fin_objects a : stateObjects s' !! a =
    if decide (a ∈ order) then finalised b <$> stateObjects s !! a else stateObjects s !! a;
  fin_pending a : a ∈ stateObjectsPending s' <->
    a ∈ stateObjectsPending s \/ (a ∈ order /\ is_Some (stateObjects s !! a));
  fin_dirty a : a ∈ stateObjectsDirty s' <->
    a ∈ stateObjectsDirty s \/ (a ∈ order /\ is_Some (stateObjects s !! a));
  fin_destruct a : a ∈ stateObjectsDestruct s' <->
    a ∈ stateObjectsDestruct s \/ (a ∈ order /\ exists o, stateObjects s !! a = Some o /\ doomed b o = true);
  fin_rest : exists objs pending dirty destruct,
    s' = set_objects (fun _ => objs) (set_pending (fun _ => pending) (set_dirty (fun _ => dirty)
           (set_destruct (fun _ => destruct) s)))
}.

Lemma finalise_account_missing b addr s : stateObjects s !! addr = None -> finalise_account b addr s = s.
Proof. intros H. unfold finalise_account. by rewrite H. Qed.

Lemma finalise_account_objects b addr s a :
  stateObjects (finalise_account b addr s) !! a =
    if decide (a = addr) then finalised b <$> stateObjects s !! a else stateObjects s !! a.
Proof.
  unfold finalise_account, finalised, doomed. destruct (stateObjects s !! addr) as [o|] eqn:E.
  - case_decide as Ha; [subst a; rewrite E; cbn [fmap option_fmap option_map]|];
      destruct (suicided o || _) eqn:Ed; cbn; by rewrite ?lookup_insert_eq, ?Ed, ?lookup_insert_ne.
  - case_decide; [subst a; by rewrite E|done].
Qed.

Lemma finalise_account_sets b addr s a :
  (a ∈ stateObjectsPending (finalise_account b addr s) <->
     a ∈ stateObjectsPending s \/ (a = addr /\ is_Some (stateObjects s !! a))) /\
  (a ∈ stateObjectsDirty (finalise_account b addr s) <->
     a ∈ stateObjectsDirty s \/ (a = addr /\ is_Some (stateObjects s !! a))) /\
  (a ∈ stateObjectsDestruct (finalise_account b addr s) <->
     a ∈ stateObjectsDestruct s \/ (a = addr /\ exists o, stateObjects s !! a = Some o /\ doomed b o = true)).
Proof.
  unfold finalise_account, doomed. destruct (stateObjects s !! addr) as [o|] eqn:E.
  - assert (forall P : Prop, P \/ (a = addr /\ is_Some (stateObjects s !! a)) <-> P \/ a = addr) as Hs.
    { intros P. split; [intros [?|(-> & _)]; auto|]. intros [?| ->]; [auto|]. right. rewrite E. eauto. }
    assert (forall P : Prop, P \/ (a = addr /\ exists o0, stateObjects s !! a = Some o0 /\ suicided o0 || (b && so_empty o0) = true)
      <-> P \/ (a = addr /\ suicided o || (b && so_empty o) = true)) as Hd.
    { intros P. split.
      - intros [?|(-> & o0 & H & Hd)]; [auto|]. rewrite E in H. injection H as ->. auto.
      - intros [?|(-> & Hd)]; [auto|]. right. split; [done|]. by exists o. }
    rewrite !Hs, Hd. destruct (suicided o || _) eqn:Ed; cbn; set_solver.
  - assert (a = addr -> stateObjects s !! a = None) as Hn by by intros ->.
    split_and!; (split; [by left|intros [H|[Ha H]]; [done|]]); rewrite (Hn Ha) in H.
    + by destruct H.
    + by destruct H.
    + by destruct H as (o & ? & _).
Qed.

Lemma finalise_account_rest b addr s : exists objs pending dirty destruct,
  finalise_account b addr s = set_objects (fun _ => objs) (set_pending (fun _ => pending) (set_dirty (fun _ => dirty)
    (set_destruct (fun _ => destruct) s))).
Proof.
  unfold finalise_account. destruct (stateObjects s !! addr) as [o|].
  - destruct (_ || _); do 4 eexists; reflexivity.
  - exists (stateObjects s), (stateObjectsPending s), (stateObjectsDirty s), (stateObjectsDestruct s). by destruct s.
Qed.

Lemma finalise_account_state b addr s : finalised_state b [addr] s (finalise_account b addr s).
Proof.
  assert (forall a, a ∈ [addr] <-> a = addr) as Hin by set_solver.
  split; intros; rewrite ?Hin; try apply finalise_account_sets; [|apply finalise_account_rest].
  rewrite finalise_account_objects. by destruct (decide (a = addr)) as [->|Hn];
    [rewrite decide_True by set_solver|rewrite decide_False by set_solver].
Qed.

Lemma finalised_state_trans b order1 order2 s s1 s2 :
  finalised_state b order1 s s1 -> finalised_state b order2 s1 s2 -> finalised_state b (order1 ++ order2) s s2.
Proof.
  intros H1 H2.
  assert (forall a, is_Some (stateObjects s1 !! a) <-> is_Some (stateObjects s !! a)) as Hsome.
  { intros a. rewrite (fin_objects _ _ _ _ H1). case_decide; [apply fmap_is_Some|done]. }
  assert (forall a, (exists o, stateObjects s1 !! a = Some o /\ doomed b o = true) <->
    (exists o, stateObjects s !! a = Some o /\ doomed b o = true)) as Hdoom.
  { intros a. rewrite (fin_objects _ _ _ _ H1). case_decide; [|done]. split.
    - intros (o & Ho & Hd). apply fmap_Some in Ho as (o' & Ho & ->). exists o'. by rewrite doomed_finalised in Hd.
    - intros (o & -> & Hd). exists (finalised b o). by rewrite doomed_finalised. }
  split.
  - intros a. rewrite (fin_objects _ _ _ _ H2), (fin_objects _ _ _ _ H1).
    rewrite (decide_ext (a ∈ order1 ++ order2) (a ∈ order1 \/ a ∈ order2) _ _ (elem_of_app order1 order2 a)).
    destruct (decide (a ∈ order1)) as [Ha1|Ha1], (decide (a ∈ order2)) as [Ha2|Ha2].
    + rewrite decide_True by by left. destruct (stateObjects s !! a) as [o|]; [|done]. cbn. by rewrite finalised_twice.
    + by rewrite decide_True by by left.
    + by rewrite decide_True by by right.
    + by rewrite decide_False by by intros [?|?].
  - intros a. rewrite (fin_pending _ _ _ _ H2), (fin_pending _ _ _ _ H1), Hsome, elem_of_app. tauto.
  - intros a. rewrite (fin_dirty _ _ _ _ H2), (fin_dirty _ _ _ _ H1), Hsome, elem_of_app. tauto.
  - intros a. rewrite (fin_destruct _ _ _ _ H2), (fin_destruct _ _ _ _ H1), Hdoom, elem_of_app. tauto.
  - destruct (fin_rest _ _ _ _ H1) as (o1 & p1 & d1 & x1 & ->), (fin_rest _ _ _ _ H2) as (o2 & p2 & d2 & x2 & ->).
    by exists o2, p2, d2, x2.
Qed.

Lemma finalise_loop_state b order s :
  finalised_state b order s (foldl (fun s addr => finalise_account b addr s) s order).
Proof.
  revert s. induction order as [|addr order IH]; intros s; cbn [foldl].
  - assert (forall a, a ∈ ([] : list Address) <-> False) as Hin by (intros a; split; [apply not_elem_of_nil|done]).
    split; intros; rewrite ?Hin; try tauto.
    exists (stateObjects s), (stateObjectsPending s), (stateObjectsDirty s), (stateObjectsDestruct s). by destruct s.
  - apply (finalised_state_trans b [addr] order s _ _ (finalise_account_state b addr s) (IH _)).
Qed.

(** The outcome is determined by the set of accounts. *)
Lemma finalised_state_fun b order order' s s1 s2 :
  (forall a, a ∈ order <-> a ∈ order') -> finalised_state b order s s1 -> finalised_state b order' s s2 -> s1 = s2.
Proof.
  intros Ho H1 H2.
  assert (stateObjects s1 = stateObjects s2) as E1.
  { apply map_eq. intros a. rewrite (fin_objects _ _ _ _ H1), (fin_objects _ _ _ _ H2).
    by rewrite (decide_ext (a ∈ order) (a ∈ order') _ _ (Ho a)). }
  assert (stateObjectsPending s1 = stateObjectsPending s2) as E2.
  { apply set_eq. intros a. by rewrite (fin_pending _ _ _ _ H1), (fin_pending _ _ _ _ H2), Ho. }
  assert (stateObjectsDirty s1 = stateObjectsDirty s2) as E3.
  { apply set_eq. intros a. by rewrite (fin_dirty _ _ _ _ H1), (fin_dirty _ _ _ _ H2), Ho. }
  assert (stateObjectsDestruct s1 = stateObjectsDestruct s2) as E4.
  { apply set_eq. intros a. by rewrite (fin_destruct _ _ _ _ H1), (fin_destruct _ _ _ _ H2), Ho. }
  destruct (fin_rest _ _ _ _ H1) as (o1 & p1 & d1 & x1 & R1), (fin_rest _ _ _ _ H2) as (o2 & p2 & d2 & x2 & R2).
  subst s1 s2. cbn in *. by subst.
Qed.

Lemma finalise_order b order order' s :
  (forall a, a ∈ order <-> a ∈ order') -> sdb_Finalise order b s = sdb_Finalise order' b s.
Proof.
  intros Ho. unfold sdb_Finalise, gbind, gput. cbn.
  by rewrite (finalised_state_fun b order order' s _ _ Ho (finalise_loop_state b order s) (finalise_loop_state b order' s)).
Qed.

(** ** What queries answer afterwards *)

(** The account is gone. *)
Definition gone (b : bool) (order : list Address) (s : state) (a : Address) : Prop :=
  a ∈ order /\ exists o, stateObjects s !! a = Some o /\ doomed b o = true.

(** The objects of an account that survives. *)
Record survives (d d' : gset Address) (a : Address) (o o' : stateObject) : Prop := {
  sv_Nonce : so_Nonce o' = so_Nonce o;
  sv_Balance : so_Balance o' = so_Balance o;
  sv_Root : so_Root o' = so_Root o;
  sv_CodeHash : so_CodeHash o' = so_CodeHash o;
  sv_code : code_view a o' = code_view a o;
  sv_suicided : suicided o' = suicided o;
  sv_state k : state_view d' a o' k = state_view d a o k
}.

Lemma committed_view_destruct d d' a o k :
  (a ∈ d <-> a ∈ d') -> committed_view d a o k = committed_view d' a o k.
Proof. intros H. unfold committed_view. by rewrite (bool_decide_ext _ _ H). Qed.

Lemma committed_finalise d a o k : committed_view d a (so_finalise o) k = state_view d a o k.
Proof.
  unfold committed_view, state_view, so_finalise. cbn [pendingStorage originStorage so_Root dirtyStorage].
  rewrite lookup_union. unfold committed_view.
  destruct (dirtyStorage o !! k), (pendingStorage o !! k); done.
Qed.

Lemma state_finalise d a o k : state_view d a (so_finalise o) k = state_view d a o k.
Proof. unfold state_view at 1. cbn [so_finalise dirtyStorage]. rewrite lookup_empty. apply committed_finalise. Qed.

Lemma finalised_live b order s s' a :
  finalised_state b order s s' ->
  match live_object s a with
  | None => live_object s' a = None
  | Some o =>
      (gone b order s a /\ live_object s' a = None) \/
      (~ gone b order s a /\ exists o', live_object s' a = Some o' /\
        survives (stateObjectsDestruct s) (stateObjectsDestruct s') a o o' /\
        (a ∈ order -> forall k, committed_view (stateObjectsDestruct s') a o' k = state_view (stateObjectsDestruct s) a o k))
  end.
Proof.
  intros H. assert (~ gone b order s a -> a ∈ stateObjectsDestruct s' <-> a ∈ stateObjectsDestruct s) as Hd.
  { intros Hg. rewrite (fin_destruct _ _ _ _ H). unfold gone in Hg. tauto. }
  assert (forall o, (~ gone b order s a) -> survives (stateObjectsDestruct s) (stateObjectsDestruct s') a o o) as Hsame.
  { intros o Hg. split; try done. intros k. by apply state_view_destruct, Hd. }
  pose proof (fin_objects _ _ _ _ H a) as Hobj. unfold live_object, lookup_object in *. rewrite Hobj. clear Hobj.
  destruct (stateObjects s !! a) as [o|] eqn:Ho.
  - destruct (decide (a ∈ order)) as [Ha|Ha].
    + cbn. unfold finalised. destruct (doomed b o) eqn:Ed.
      * cbn. destruct (deleted o); [done|]. left. split; [|done]. split; [done|]. by exists o.
      * assert (~ gone b order s a) as Hg by (intros (_ & o2 & Ho2 & Hd2); rewrite Ho in Ho2; congruence).
        cbn [deleted so_finalise]. destruct (deleted o); [done|]. right. split; [done|]. exists (so_finalise o).
        split; [done|]. split.
        -- split; try done. intros k. rewrite state_finalise. by apply state_view_destruct, Hd.
        -- intros _ k. rewrite committed_finalise. by apply state_view_destruct, Hd.
    + assert (~ gone b order s a) as Hg by by intros [? _].
      destruct (deleted o); [done|]. right. split; [done|]. exists o. split; [done|]. split; [by apply Hsame|done].
  - assert (~ gone b order s a) as Hg by (intros (_ & o2 & Ho2 & _); congruence).
    assert ((if decide (a ∈ order) then finalised b <$> None else None) = None) as -> by by case_decide.
    destruct (GetAccount a) as [[data|]|]; [|done..]. cbn [deleted newObject]. right. split; [done|].
    eexists. split; [done|]. split; [by apply Hsame|]. intros _ k.
    rewrite (committed_view_destruct _ (stateObjectsDestruct s)) by by apply Hd. unfold state_view. cbn [newObject dirtyStorage].
    by rewrite lookup_empty.
Qed.

Lemma finalised_balance b order s s' a :
  finalised_state b order s s' ->
  (gone b order s a /\ balance_of s' a = 0) \/ (~ gone b order s a /\ balance_of s' a = balance_of s a).
Proof.
  intros H. pose proof (finalised_live b order s s' a H) as Hl. unfold balance_of.
  destruct (live_object s a) as [o|] eqn:Eo.
  - destruct Hl as [[Hg ->]|(Hg & o' & -> & Hs & _)]; [by left|right; split; [done|apply Hs]].
  - rewrite Hl. assert (Decision (gone b order s a)) as [Hg|Hg]; [|by left|by right].
    unfold gone. destruct (decide (a ∈ order)); [|right; tauto].
    destruct (stateObjects s !! a) as [o|]; [|right; by intros (_ & o & ? & _)].
    destruct (doomed b o) eqn:Ed; [left; eauto|right]. intros (_ & o2 & [= <-] & Hd2). congruence.
Qed.

Lemma finalise_loop_grows b order s :
  solvent s ->
  let s' := foldl (fun s addr => finalise_account b addr s) s order in
  solvent s' /\ grows_by 0 (balance_of s) (balance_of s').
Proof.
  revert s. induction order as [|addr order IH]; intros s Hs; cbn [foldl]; [split; [done|by apply grows_same]|].
  pose proof (fun a => finalised_balance b [addr] s _ a (finalise_account_state b addr s)) as Hb.
  set (s1 := finalise_account b addr s) in *.
  assert (solvent s1) as Hs1 by (intros a; destruct (Hb a) as [[_ ->]|[_ ->]]; [done|apply Hs]).
  destruct (IH s1 Hs1) as [Hs' Hg]. split; [done|]. apply (grows_trans 0 0 _ (balance_of s1)); [|done].
  apply (grows_weaken (balance_of s1 addr - balance_of s addr)).
  { destruct (Hb addr) as [[_ ->]|[_ ->]]; [|lia]. specialize (Hs addr). lia. }
  apply (grows_one _ _ addr). intros a. case_decide as Ha; [subst a; lia|].
  destruct (Hb a) as [[[Hin _] _]|[_ ->]]; [|lia]. apply list_elem_of_singleton in Hin. congruence.
Qed.

(** ** The invariant *)

Lemma finalised_object_ok b order s s' :
  finalised_state b order s s' -> state_ok s -> forall a o, lookup_object s' a = Some o -> object_ok a o.
Proof.
  intros H Hok a o. unfold lookup_object. rewrite (fin_objects _ _ _ _ H). intros Ho.
  assert (exists o0, lookup_object s a = Some o0 /\ so_Nonce o0 = so_Nonce o /\ so_CodeHash o0 = so_CodeHash o /\
    code_view a o0 = code_view a o) as (o0 & Ho0 & E1 & E2 & E3).
  { unfold lookup_object. destruct (stateObjects s !! a) as [o0|]; [|by case_decide; exists o].
    exists o0. case_decide; [|by injection Ho as <-]. cbn in Ho. injection Ho as <-. split; [done|].
    unfold finalised. by destruct (doomed b o0). }
  pose proof (ok_objects _ Hok a o0 Ho0) as Hobj. unfold object_ok in *. by rewrite <- E1, <- E2, <- E3.
Qed.

Lemma clear_eq s :
  exists es d r, clearJournalAndRefund s = Ret (tt, set_revisions (fun _ => []) (set_entries (fun _ => es)
    (set_dirties (fun _ => d) (set_refund r s)))) /\ es = [] /\ (entries s <> [] -> r = 0 /\ d = ∅) /\ (r = 0 \/ r = refund s).
Proof.
  unfold clearJournalAndRefund, gbind, gget. cbn. destruct (zlen (entries s) >? 0) eqn:E; zbool.
  - exists [], ∅, 0. split_and!; auto.
  - exists [], (dirties s), (refund s). destruct (entries s) as [|e es] eqn:Ee.
    + split_and!; [|done|done|by right]. unfold gret, gput. f_equal. f_equal. destruct s. cbn in *. by subst.
    + exfalso. unfold zlen in E. cbn [length] in E. lia.
Qed.

Lemma sdb_Finalise_ok order b s :
  state_ok s -> solvent s ->
  wp no_panic (sdb_Finalise order b) (fun _ s' =>
    state_ok s' /\ solvent s' /\ grows_by 0 (balance_of s) (balance_of s') /\
    entries s' = [] /\ validRevisions s' = [] /\
    exists s1, finalised_state b order s s1 /\ (forall a, live_object s' a = live_object s1 a) /\
      stateObjectsDestruct s' = stateObjectsDestruct s1 /\ logs s' = logs s) s.
Proof.
  intros Hok Hsol. unfold sdb_Finalise. apply wp_gbind, wp_gput.
  pose proof (finalise_loop_state b order s) as Hf. destruct (finalise_loop_grows b order s Hsol) as [Hs1 Hg].
  set (s1 := foldl _ _ _) in *. destruct (fin_rest _ _ _ _ Hf) as (o1 & p1 & d1 & x1 & E1). clearbody s1.
  destruct (clear_eq s1) as (es & d & r & Hc & -> & _ & Hr). unfold wp. rewrite Hc.
  set (s2 := set_revisions _ _).
  assert (forall a, lookup_object s2 a = lookup_object s1 a) as Hl by done.
  split_and!; try done.
  - split; cbn.
    + intros a o Ho. apply (finalised_object_ok b order s s1 Hf Hok a o). by rewrite <- Hl.
    + unfold s2. cbn. rewrite E1. apply (ok_access _ Hok).
    + destruct (ok_counters _ Hok) as [H1 H2]. unfold counters_ok, s2. cbn.
      split; [rewrite E1; exact H1|]. destruct Hr as [->| ->]; [done|rewrite E1; exact H2].
    + by intros rv ?%elem_of_nil.
    + constructor.
    + by intros rv ?%elem_of_nil.
  - exists s1. split_and!; try done. unfold s2. cbn. by rewrite E1.
Qed.
End finalise.
