(* ===== verification/Stack.v ===== *)
(** * The operand stack (client/core/vm/stack.go, stack_table.go)

    The Go slice [data] grows at its end; here the top of the stack is the head
    of the list, so [data[len-1-n]] is the element at index [n].  The pool the
    slices are recycled through ([newstack], [returnStack]) has no effect on the
    contents: [newstack] returns an empty stack. *)

From S2P Require Import Prelude.
From S2P Require Import Params.

Abbreviation Stack := (list Z).

Definition newstack : Stack := [].

Definition stack_push (d : Z) : GM Stack unit := fun st => Ret (tt, d :: st).

Definition stack_pop : GM Stack Z :=
  fun st => match st with x :: st' => Ret (x, st') | [] => Panic PanicIndex end.

Definition stack_len (st : Stack) : Z := zlen st.

(** [swap(n)] exchanges data[len-n] and data[len-1]. *)
Definition stack_swap (n : Z) : GM Stack unit :=
  fun st =>
    match go_index st (n - 1), go_index st 0 with
    | Ret x, Ret top => Ret (tt, <[0%nat := x]> (<[Z.to_nat (n - 1) := top]> st))
    | _, _ => Panic PanicIndex
    end.

(** [dup(n)] pushes data[len-n]. *)
Definition stack_dup (n : Z) : GM Stack unit :=
  fun st =>
    match go_index st (n - 1) with
    | Ret x => Ret (tt, x :: st)
    | Panic p => Panic p
    | NoFuel => NoFuel
    end.

(** [peek] returns a pointer to the top; [stack_peek] reads through it and
    [stack_setTop] writes through it. *)
Definition stack_peek : GM Stack Z :=
  fun st => match st with x :: _ => Ret (x, st) | [] => Panic PanicIndex end.

Definition stack_setTop (d : Z) : GM Stack unit :=
  fun st => match st with _ :: st' => Ret (tt, d :: st') | [] => Panic PanicIndex end.

(** [Back(n)]: the n-th item from the top. *)
Definition stack_Back (st : Stack) (n : Z) : Res Z := go_index st n.

(** ** client/core/vm/stack_table.go *)

Definition maxStack_ (pop push : Z) : Z := StackLimit + pop - push.
Definition minStack_ (pops push : Z) : Z := pops.
Definition minSwapStack (n : Z) : Z := minStack_ n n.
Definition maxSwapStack (n : Z) : Z := maxStack_ n n.
Definition minDupStack (n : Z) : Z := minStack_ n (n + 1).
Definition maxDupStack (n : Z) : Z := maxStack_ n (n + 1).

(** ** Lemmas *)

(** Every item of the stack is a 256-bit value. *)
Definition stack_ok (st : Stack) : Prop := Forall is_u256 st.

Lemma stack_Back_ok st n :
  stack_ok st -> 0 <= n < zlen st -> exists x, stack_Back st n = Ret x /\ is_u256 x.
Proof.
  intros Hst Hn. destruct (go_index_ok st n Hn) as (x & Hx & Hl).
  exists x. split; [done|]. eapply Forall_lookup_1; eauto.
Qed.

Lemma stack_Back_0 x st : stack_Back (x :: st) 0 = Ret x.
Proof.
  unfold stack_Back, go_index. rewrite zlen_cons. pose proof (zlen_nonneg st).
  by rewrite (proj2 (Z.ltb_lt 0 (zlen st + 1))) by lia.
Qed.

Lemma stack_dup_ok n st :
  stack_ok st -> 1 <= n <= zlen st ->
  exists x, stack_dup n st = Ret (tt, x :: st) /\ is_u256 x.
Proof.
  intros Hst Hn. unfold stack_dup.
  destruct (go_index_ok st (n - 1)) as (x & -> & Hl); [lia|].
  exists x. split; [done|]. eapply Forall_lookup_1; eauto.
Qed.

Lemma stack_swap_ok n st :
  stack_ok st -> 1 <= n <= zlen st ->
  exists st', stack_swap n st = Ret (tt, st') /\ stack_ok st' /\ zlen st' = zlen st.
Proof.
  intros Hst Hn. unfold stack_swap.
  destruct (go_index_ok st (n - 1)) as (x & -> & Hx); [lia|].
  destruct (go_index_ok st 0) as (t & -> & Ht); [lia|].
  eexists. split; [done|]. split.
  - apply Forall_insert; [apply Forall_insert; [done|]|]; eapply Forall_lookup_1; eauto.
  - unfold zlen. by rewrite !length_insert.
Qed.

(** [swap] exchanges exactly the two positions it names. *)
Lemma stack_swap_spec n st st' :
  1 <= n -> stack_swap n st = Ret (tt, st') ->
  st' !! 0%nat = st !! Z.to_nat (n - 1) /\
  st' !! Z.to_nat (n - 1) = st !! 0%nat /\
  (forall i, i <> 0%nat -> i <> Z.to_nat (n - 1) -> st' !! i = st !! i).
Proof.
  intros Hn. unfold stack_swap, go_index.
  destruct ((0 <=? n - 1) && (n - 1 <? zlen st)) eqn:E1; [|done].
  destruct (st !! Z.to_nat (n - 1)) as [x|] eqn:Ex; [|done].
  destruct ((0 <=? 0) && (0 <? zlen st)) eqn:E0; [|done].
  change (Z.to_nat 0) with 0%nat.
  destruct (st !! 0%nat) as [t|] eqn:Et; [|done]. intros [= <-]. zbool.
  assert (0 < length st)%nat by (unfold zlen in *; lia).
  assert (Z.to_nat (n - 1) < length st)%nat by (unfold zlen in *; lia).
  split_and!.
  - rewrite list_lookup_insert_eq by (rewrite ?length_insert; lia). congruence.
  - destruct (decide (Z.to_nat (n - 1) = 0%nat)) as [Heq|Hne]; [rewrite Heq in *|].
    + rewrite list_lookup_insert_eq by (rewrite ?length_insert; lia). congruence.
    + rewrite list_lookup_insert_ne by done. by rewrite list_lookup_insert_eq.
  - intros i Hi0 Hi. by rewrite !list_lookup_insert_ne.
Qed.

(** ** Theorem *)

(** SWAP exchanges the top with the item at its depth and leaves the others;
    DUP pushes a copy of the item at its depth; neither can index outside the
    stack when the stack is deep enough. *)
Theorem swap_dup_correct n st :
  1 <= n <= zlen st ->
  (exists st', stack_swap n st = Ret (tt, st') /\ length st' = length st /\
     forall i, st' !! i = st !! (if decide (i = 0%nat) then Z.to_nat (n - 1)
                                else if decide (i = Z.to_nat (n - 1)) then 0%nat else i)) /\
  (exists x, stack_dup n st = Ret (tt, x :: st) /\ st !! Z.to_nat (n - 1) = Some x).
Proof.
  intros Hn. split.
  - assert (exists st', stack_swap n st = Ret (tt, st') /\ length st' = length st) as (st' & Hs & Hl).
    { unfold stack_swap. destruct (go_index_ok st (n - 1)) as (x & -> & _); [lia|].
      destruct (go_index_ok st 0) as (t & -> & _); [lia|]. cbn.
      eexists. split; [reflexivity|]. by rewrite !length_insert. }
    exists st'. split_and!; try done. destruct (stack_swap_spec n st st') as (H1 & H2 & H3); [lia|done|].
    intros i. repeat case_decide; subst; auto.
  - unfold stack_dup. destruct (go_index_ok st (n - 1)) as (x & -> & Hx); [lia|]. by exists x.
Qed.
