(* ===== verification/Memory.v ===== *)
(** * EVM memory (client/core/vm/memory.go, memory_table.go)

    [Memory] is the byte store of a call frame and the gas already paid for its
    size.  The [memory*] functions compute the memory size an instruction
    requires from its stack operands. *)

From Stdlib Require Import Strings.Byte.
From S2P Require Import Prelude.
From S2P Require Import Uint256.
From S2P Require Import Common.
From S2P Require Import Stack.

Record Memory : Type := mkMemory {
  mem_store : list byte;
  lastGasCost : Z
}.

Definition NewMemory : Memory := mkMemory [] 0.

Definition set_store (f : list byte -> list byte) (m : Memory) : Memory :=
  mkMemory (f (mem_store m)) (lastGasCost m).

Definition Memory_Len (m : Memory) : Z := zlen (mem_store m).

(** [m.store[offset:offset+size]], the destination of a copy. *)
Definition store_copy (m : Memory) (offset hi : Z) (value : list byte) : Res Memory :=
  if (0 <=? offset) && (offset <=? hi) && (hi <=? Memory_Len m) then
    Ret (set_store (fun s => copy_at s (Z.to_nat offset) (take (Z.to_nat (hi - offset)) value)) m)
  else Panic PanicIndex.

(** [Set] sets offset + size to value. *)
Definition Memory_Set (offset size : Z) (value : list byte) : GM Memory unit :=
  fun m =>
    if size >? 0 then
      if u64 (offset + size) >? Memory_Len m then Panic PanicMemory
      else
        match store_copy m offset (u64 (offset + size)) value with
        | Ret m' => Ret (tt, m')
        | Panic p => Panic p
        | NoFuel => NoFuel
        end
    else Ret (tt, m).

(** [Set32] writes the 32 bytes of [val], left-padded, at [offset]. *)
Definition Memory_Set32 {U : Uint256} (offset : Z) (val : Z) : GM Memory unit :=
  fun m =>
    if u64 (offset + 32) >? Memory_Len m then Panic PanicMemory
    else
      match store_copy m offset (Memory_Len m) (hash_bytes (u256_Bytes32 val)) with
      | Ret m' => Ret (tt, m')
      | Panic p => Panic p
      | NoFuel => NoFuel
      end.

(** [Resize] extends the memory to [size] with zero bytes. *)
Definition Memory_Resize (size : Z) : GM Memory unit :=
  fun m =>
    if Memory_Len m <? size
    then Ret (tt, set_store (fun s => s ++ replicate (Z.to_nat (size - Memory_Len m)) Byte.x00) m)
    else Ret (tt, m).

(** [GetCopy] and [GetPtr] return the bytes at [offset, offset+size) (of type
    [int64]); the former copies, the latter aliases the store.  No caller
    writes through the alias. *)
Definition Memory_GetCopy (offset size : Z) (m : Memory) : Res (list byte) :=
  if size =? 0 then Ret []
  else if Memory_Len m >? offset then
    if size <? 0 then Panic PanicIndex  (* make([]byte, size) *)
    else
      match go_slice (mem_store m) offset (i64 (offset + size)) with
      | Ret s => Ret s
      | Panic p => Panic p
      | NoFuel => NoFuel
      end
  else Ret [].

Definition Memory_GetPtr (offset size : Z) (m : Memory) : Res (list byte) :=
  if size =? 0 then Ret []
  else if Memory_Len m >? offset then go_slice (mem_store m) offset (i64 (offset + size))
  else Ret [].

(** [scope.Memory.store[off] = b], the direct write of MSTORE8. *)
Definition Memory_setByte (off : Z) (b : byte) : GM Memory unit :=
  fun m =>
    match go_update (mem_store m) off b with
    | Ret s => Ret (tt, mkMemory s (lastGasCost m))
    | Panic p => Panic p
    | NoFuel => NoFuel
    end.

(** ** client/core/vm/memory_table.go *)

Section memory_table.
Context {U : Uint256}.

Definition calcBack (st : Stack) (i j : Z) : Res (Z * bool) :=
  match stack_Back st i, stack_Back st j with
  | Ret off, Ret l => Ret (calcMemSize64 off l)
  | _, _ => Panic PanicIndex
  end.

Definition calcBackWithUint (st : Stack) (i len : Z) : Res (Z * bool) :=
  match stack_Back st i with
  | Ret off => Ret (calcMemSize64WithUint off len)
  | _ => Panic PanicIndex
  end.

Definition memoryKeccak256 (st : Stack) : Res (Z * bool) := calcBack st 0 1.
Definition memoryCallDataCopy (st : Stack) : Res (Z * bool) := calcBack st 0 2.
Definition memoryReturnDataCopy (st : Stack) : Res (Z * bool) := calcBack st 0 2.
Definition memoryCodeCopy (st : Stack) : Res (Z * bool) := calcBack st 0 2.
Definition memoryExtCodeCopy (st : Stack) : Res (Z * bool) := calcBack st 1 3.
Definition memoryMLoad (st : Stack) : Res (Z * bool) := calcBackWithUint st 0 32.
Definition memoryMStore8 (st : Stack) : Res (Z * bool) := calcBackWithUint st 0 1.
Definition memoryMStore (st : Stack) : Res (Z * bool) := calcBackWithUint st 0 32.
Definition memoryCreate (st : Stack) : Res (Z * bool) := calcBack st 1 2.
Definition memoryCreate2 (st : Stack) : Res (Z * bool) := calcBack st 1 2.

(** The larger of two accesses, overflow of either being an overflow. *)
Definition calcMax (x y : Res (Z * bool)) : Res (Z * bool) :=
  match x with
  | Ret (xv, ox) =>
      if ox then Ret (0, true)
      else
        match y with
        | Ret (yv, oy) =>
            if oy then Ret (0, true)
            else if xv >? yv then Ret (xv, false) else Ret (yv, false)
        | r => r
        end
  | r => r
  end.

Definition memoryCall (st : Stack) : Res (Z * bool) := calcMax (calcBack st 5 6) (calcBack st 3 4).
Definition memoryDelegateCall (st : Stack) : Res (Z * bool) := calcMax (calcBack st 4 5) (calcBack st 2 3).
Definition memoryStaticCall (st : Stack) : Res (Z * bool) := calcMax (calcBack st 4 5) (calcBack st 2 3).
Definition memoryReturn (st : Stack) : Res (Z * bool) := calcBack st 0 1.
Definition memoryRevert (st : Stack) : Res (Z * bool) := calcBack st 0 1.
Definition memoryLog (st : Stack) : Res (Z * bool) := calcBack st 0 1.
End memory_table.

(** ** Lemmas *)

(** The largest memory [memoryGasCost] admits. *)
Definition MaxMemory : Z := 0x1FFFFFFFE0.

(** The access [off, off+len) is inside a memory of [n] bytes (an empty access
    always is). *)
Definition covers (n off len : Z) : Prop := len = 0 \/ (0 < len /\ off + len <= n).

Lemma Memory_Len_nonneg m : 0 <= Memory_Len m.
Proof. apply zlen_nonneg. Qed.

Lemma length_store_copy m off hi v m' :
  store_copy m off hi v = Ret m' ->
  Memory_Len m' = Memory_Len m /\ lastGasCost m' = lastGasCost m.
Proof.
  unfold store_copy. destruct (_ && _); [|done]. intros [= <-]. split; [|done].
  unfold Memory_Len, zlen. cbn. by rewrite length_copy_at.
Qed.

Lemma Memory_Set_ok m off size v :
  Memory_Len m <= MaxMemory -> 0 <= off -> 0 <= size -> covers (Memory_Len m) off size ->
  exists m', Memory_Set off size v m = Ret (tt, m') /\
    Memory_Len m' = Memory_Len m /\ lastGasCost m' = lastGasCost m.
Proof.
  intros Hm Ho Hs Hc. unfold Memory_Set, covers, MaxMemory in *.
  destruct (size >? 0) eqn:E; zbool; [|eauto].
  rewrite u64_small by ulia.
  destruct (off + size >? Memory_Len m) eqn:E2; zbool; [lia|].
  destruct (store_copy m off (off + size) v) as [m'|p|] eqn:E3.
  - exists m'. split; [done|]. by eapply length_store_copy.
  - exfalso. unfold store_copy in E3.
    rewrite (proj2 (Z.leb_le 0 off)), (proj2 (Z.leb_le off (off + size))),
      (proj2 (Z.leb_le (off + size) (Memory_Len m))) in E3 by lia. done.
  - unfold store_copy in E3. by destruct (_ && _).
Qed.

Lemma Memory_Set32_ok {U : Uint256} m off v :
  Memory_Len m <= MaxMemory -> 0 <= off -> off + 32 <= Memory_Len m ->
  exists m', Memory_Set32 off v m = Ret (tt, m') /\
    Memory_Len m' = Memory_Len m /\ lastGasCost m' = lastGasCost m.
Proof.
  intros Hm Ho Hc. unfold Memory_Set32, MaxMemory in *. rewrite u64_small by ulia.
  destruct (off + 32 >? Memory_Len m) eqn:E2; zbool; [lia|].
  destruct (store_copy m off (Memory_Len m) (hash_bytes (u256_Bytes32 v))) as [m'|p|] eqn:E3.
  - exists m'. split; [done|]. by eapply length_store_copy.
  - exfalso. unfold store_copy in E3.
    rewrite (proj2 (Z.leb_le 0 off)), (proj2 (Z.leb_le off (Memory_Len m))), Z.leb_refl in E3 by lia.
    done.
  - unfold store_copy in E3. by destruct (_ && _).
Qed.

Lemma Memory_Resize_ok m size :
  exists m', Memory_Resize size m = Ret (tt, m') /\
    Memory_Len m' = Z.max (Memory_Len m) size /\ lastGasCost m' = lastGasCost m.
Proof.
  unfold Memory_Resize. destruct (Memory_Len m <? size) eqn:E; zbool.
  - eexists. split; [done|]. split; [|done].
    unfold Memory_Len in *. cbn. rewrite zlen_app. unfold zlen at 2.
    rewrite length_replicate. lia.
  - eexists. split; [done|]. split; [lia | done].
Qed.

Lemma Memory_GetPtr_ok m off size :
  Memory_Len m <= MaxMemory -> covers (Memory_Len m) off size ->
  (size = 0 \/ 0 <= off) ->
  exists r, Memory_GetPtr off size m = Ret r /\ (size = 0 \/ zlen r = size) /\ zlen r <= MaxMemory.
Proof.
  intros Hm Hc Ho. unfold Memory_GetPtr, covers, MaxMemory in *.
  destruct (size =? 0) eqn:E; zbool.
  { exists []. split; [done|]. split; [by left | vm_compute; congruence]. }
  destruct (Memory_Len m >? off) eqn:E2; zbool; [|lia].
  rewrite i64_small by lia.
  destruct (go_slice_ok (mem_store m) off (off + size)) as (r & Hr & Hl);
    [lia | unfold Memory_Len in *; lia |].
  exists r. split; [done|]. split; [right; lia | unfold Memory_Len in *; lia].
Qed.

Lemma Memory_GetCopy_GetPtr m off size :
  0 <= size -> Memory_GetCopy off size m = Memory_GetPtr off size m.
Proof.
  intros H. unfold Memory_GetCopy, Memory_GetPtr.
  destruct (size =? 0); [done|]. destruct (_ >? off); [|done].
  destruct (size <? 0) eqn:E; zbool; [lia|]. by destruct (go_slice _ _ _).
Qed.

Lemma Memory_setByte_ok m off b :
  0 <= off < Memory_Len m ->
  exists m', Memory_setByte off b m = Ret (tt, m') /\
    Memory_Len m' = Memory_Len m /\ lastGasCost m' = lastGasCost m.
Proof.
  intros H. unfold Memory_setByte. rewrite go_update_ok by done.
  eexists. split; [done|]. split; [|done].
  unfold Memory_Len, zlen. cbn. by rewrite length_insert.
Qed.

(** What is written is read back, and nothing else changes. *)
Lemma store_copy_lookup m off hi v m' :
  store_copy m off hi v = Ret m' -> zlen v = hi - off ->
  mem_store m' = take (Z.to_nat off) (mem_store m) ++ v ++ drop (Z.to_nat hi) (mem_store m).
Proof.
  unfold store_copy. destruct (_ && _) eqn:E; [|done]. intros [= <-] Hv. zbool.
  unfold Memory_Len, zlen in *. cbn [set_store mem_store].
  rewrite (take_ge v) by lia. unfold copy_at.
  rewrite Nat.min_l by lia. rewrite (take_ge v) by lia.
  do 3 f_equal. lia.
Qed.

(** A slice of memory that was [Set] reads back as the value written. *)
Lemma Memory_Set_GetPtr m m' off size v :
  Memory_Len m <= MaxMemory -> is_u64 off -> is_u64 size -> 0 < size -> zlen v = size ->
  Memory_Set off size v m = Ret (tt, m') -> Memory_GetPtr off size m' = Ret v.
Proof.
  intros Hm Ho Hz Hs Hv. unfold Memory_Set.
  destruct (size >? 0) eqn:E; zbool; [|lia].
  destruct (u64 (off + size) >? Memory_Len m) eqn:E2; [done|].
  destruct (store_copy m off (u64 (off + size)) v) as [m''|?|] eqn:E3; [|done..].
  intros [= ->]. unfold MaxMemory in *. zbool.
  pose proof E3 as E4. apply length_store_copy in E4 as [Hl _].
  assert (Hw : u64 (off + size) = off + size).
  { unfold store_copy in E3. destruct (_ && _) eqn:E5; [|done]. zbool.
    destruct (Z.lt_ge_cases (off + size) two64) as [Hlt|Hge]; [apply u64_small; ulia|].
    rewrite u64_add_over in * by done. ulia. }
  rewrite Hw in *. apply store_copy_lookup in E3 as E5; [|lia].
  unfold Memory_GetPtr. destruct (size =? 0) eqn:E6; zbool; [lia|].
  destruct (Memory_Len m' >? off) eqn:E7; zbool; [|lia].
  rewrite i64_small by ulia. unfold go_slice.
  rewrite (proj2 (Z.leb_le 0 off)), (proj2 (Z.leb_le off (off + size))) by ulia.
  rewrite (proj2 (Z.leb_le (off + size) (zlen (mem_store m')))) by (unfold Memory_Len in *; lia).
  cbn [andb]. rewrite E5. f_equal.
  assert (length (take (Z.to_nat off) (mem_store m)) = Z.to_nat off) as Hlen.
  { rewrite length_take. unfold Memory_Len, zlen in *. lia. }
  rewrite drop_app_length' by done. apply take_app_length'.
  unfold zlen in Hv. lia.
Qed.

(** ** Theorem *)

(** Within a memory that covers it, writing a slice succeeds, keeps the size of
    the memory, and reading it back gives the bytes written. *)
Theorem Memory_write_read m off size v :
  Memory_Len m <= MaxMemory -> is_u64 off -> is_u64 size -> 0 < size -> zlen v = size ->
  off + size <= Memory_Len m ->
  exists m', Memory_Set off size v m = Ret (tt, m') /\ Memory_Len m' = Memory_Len m /\
    Memory_GetPtr off size m' = Ret v /\ Memory_GetCopy off size m' = Ret v.
Proof.
  intros Hm Ho Hz Hp Hv Hc. destruct (Memory_Set_ok m off size v) as (m' & Hs & Hl & _); try done.
  - apply Ho.
  - lia.
  - unfold covers. lia.
  - exists m'. rewrite Memory_GetCopy_GetPtr by lia.
    pose proof (Memory_Set_GetPtr m m' off size v Hm Ho Hz Hp Hv Hs). done.
Qed.
