(* ===== verification/Analysis.v ===== *)
(** * JUMPDEST analysis (client/core/vm/analysis.go)

    [codeBitmap] marks, in a bit vector, the bytes of a program that are data
    of a PUSH instruction.  The vector is filled word-wise: [set8] and [set16]
    write whole bytes, [setN] up to seven bits across a byte boundary.  The
    reference [push_data] walks the code one byte at a time; the theorem below
    shows that both agree on every position of the code. *)

From Stdlib Require Import Strings.Byte.
From S2P Require Import Prelude.
From S2P Require Import OpCodes.

Abbreviation bitvec := (list byte).

Definition byte_or (a b : byte) : byte := byte_of_Z (Z.lor (byte_val a) (byte_val b)).
Definition byte_not (a : byte) : byte := byte_of_Z (255 - byte_val a).

(** [bits[i] |= v] and [bits[i] = v]. *)
Definition bits_or (bits : bitvec) (i : Z) (v : byte) : Res bitvec :=
  match go_index bits i with
  | Ret b => go_update bits i (byte_or b v)
  | Panic p => Panic p
  | NoFuel => NoFuel
  end.

Definition bits_set (bits : bitvec) (i : Z) (v : byte) : Res bitvec := go_update bits i v.

Definition set1 (bits : bitvec) (pos : Z) : Res bitvec :=
  bits_or bits (pos / 8) (byte_of_Z (Z.shiftl 1 (pos mod 8))).

Definition setN (flag : Z) (bits : bitvec) (pos : Z) : Res bitvec :=
  let a := Z.shiftl flag (pos mod 8) mod 2 ^ 16 in
  res_bind (bits_or bits (pos / 8) (byte_of_Z a)) (fun bits =>
  let b := byte_of_Z (Z.shiftr a 8) in
  if negb (byte_val b =? 0) then bits_set bits (pos / 8 + 1) b else Ret bits).

Definition set8 (bits : bitvec) (pos : Z) : Res bitvec :=
  let a := byte_of_Z (Z.shiftl 0xFF (pos mod 8)) in
  res_bind (bits_or bits (pos / 8) a) (fun bits =>
  bits_set bits (pos / 8 + 1) (byte_not a)).

Definition set16 (bits : bitvec) (pos : Z) : Res bitvec :=
  let a := byte_of_Z (Z.shiftl 0xFF (pos mod 8)) in
  res_bind (bits_or bits (pos / 8) a) (fun bits =>
  res_bind (bits_set bits (pos / 8 + 1) Byte.xff) (fun bits =>
  bits_set bits (pos / 8 + 2) (byte_not a))).

(** [codeSegment] checks if the position is in a code segment. *)
Definition codeSegment (bits : bitvec) (pos : Z) : Res bool :=
  res_bind (go_index bits (pos / 8)) (fun b =>
  Ret (Z.land (Z.shiftr (byte_val b) (pos mod 8)) 1 =? 0)).

(** The two inner loops: whole groups of 16, then of 8.  [numbits] is at most
    32, so the loops run at most twice and once; the fuel is their bound. *)
Fixpoint set16_loop (fuel : nat) (numbits : Z) (bits : bitvec) (pc : Z) : Res (Z * bitvec * Z) :=
  if numbits >=? 16 then
    match fuel with
    | O => NoFuel
    | S fuel =>
        res_bind (set16 bits pc) (fun bits =>
        set16_loop fuel (numbits - 16) bits (u64 (pc + 16)))
    end
  else Ret (numbits, bits, pc).

Fixpoint set8_loop (fuel : nat) (numbits : Z) (bits : bitvec) (pc : Z) : Res (Z * bitvec * Z) :=
  if numbits >=? 8 then
    match fuel with
    | O => NoFuel
    | S fuel =>
        res_bind (set8 bits pc) (fun bits =>
        set8_loop fuel (numbits - 8) bits (u64 (pc + 8)))
    end
  else Ret (numbits, bits, pc).

(** The final [switch numbits]. *)
Definition set_rest (numbits : Z) (bits : bitvec) (pc : Z) : Res (bitvec * Z) :=
  let fin (r : Res bitvec) := res_bind r (fun bits => Ret (bits, u64 (pc + numbits))) in
  if numbits =? 1 then fin (set1 bits pc)
  else if numbits =? 2 then fin (setN 0x3 bits pc)
  else if numbits =? 3 then fin (setN 0x7 bits pc)
  else if numbits =? 4 then fin (setN 0xF bits pc)
  else if numbits =? 5 then fin (setN 0x1F bits pc)
  else if numbits =? 6 then fin (setN 0x3F bits pc)
  else if numbits =? 7 then fin (setN 0x7F bits pc)
  else Ret (bits, pc).

(** [int8(op)]. *)
Definition int8 (op : OpCode) : Z := let v := byte_val op in if v <? 128 then v else v - 256.

Fixpoint codeBitmapInternal (fuel : nat) (code : list byte) (bits : bitvec) (pc : Z) : Res bitvec :=
  if pc <? zlen code then
    match fuel with
    | O => NoFuel
    | S fuel =>
        res_bind (go_index code pc) (fun op =>
        let pc := u64 (pc + 1) in
        if int8 op <? int8 PUSH1 then codeBitmapInternal fuel code bits pc
        else
          let numbits := byte_val (byte_of_Z (byte_val op - byte_val PUSH1 + 1)) in
          res_bind
            (if numbits >=? 8
             then res_bind (set16_loop 2 numbits bits pc) (fun '(n, bits, pc) => set8_loop 1 n bits pc)
             else Ret (numbits, bits, pc))
            (fun '(n, bits, pc) =>
          res_bind (set_rest n bits pc) (fun '(bits, pc) =>
          codeBitmapInternal fuel code bits pc)))
    end
  else Ret bits.

Definition codeBitmap (code : list byte) : Res bitvec :=
  codeBitmapInternal (length code) code (replicate (length code / 8 + 1 + 4) Byte.x00) 0.

(** ** The reference *)

(** Number of immediate bytes of an instruction. *)
Definition push_size (op : OpCode) : nat :=
  if IsPush op then Z.to_nat (byte_val op - byte_val PUSH1 + 1) else 0.

(** [push_data skip code]: for each byte of [code], whether it is data, the
    first [skip] bytes being data of an instruction before. *)
Fixpoint push_data (skip : nat) (code : list byte) : list bool :=
  match code with
  | [] => []
  | op :: rest =>
      match skip with
      | S k => true :: push_data k rest
      | O => false :: push_data (push_size op) rest
      end
  end.

(** Position [pos] holds an instruction, not the data of one. *)
Definition is_instruction (code : list byte) (pos : nat) : bool :=
  match push_data 0 code !! pos with
  | Some data => negb data
  | None => false
  end.

(** ** Lemmas *)

(** The bit of a vector at a position (false outside). *)
Definition bit (bits : bitvec) (i : Z) : bool :=
  match bits !! Z.to_nat (i / 8) with
  | Some b => Z.testbit (byte_val b) (i mod 8)
  | None => false
  end.

(** [written bits bits' pos k]: the bits [pos, pos+k) were set, all others are
    unchanged. *)
Definition written (bits bits' : bitvec) (pos k : Z) : Prop :=
  length bits' = length bits /\
  forall i, 0 <= i -> bit bits' i = bit bits i || ((pos <=? i) && (i <? pos + k)).

(** All bits from [pos] on are clear. *)
Definition clear_from (bits : bitvec) (pos : Z) : Prop :=
  forall i, pos <= i -> bit bits i = false.

Lemma written_clear bits bits' pos k :
  0 <= pos -> 0 <= k -> clear_from bits pos -> written bits bits' pos k -> clear_from bits' (pos + k).
Proof.
  intros Hp Hk Hc [_ Hw] i Hi. rewrite Hw by lia. rewrite Hc by lia. cbn.
  rewrite (proj2 (Z.ltb_ge i (pos + k))) by lia. by rewrite andb_false_r.
Qed.

Lemma written_trans b0 b1 b2 pos k l :
  0 <= k -> 0 <= l -> written b0 b1 pos k -> written b1 b2 (pos + k) l -> written b0 b2 pos (k + l).
Proof.
  intros Hk Hl [L1 H1] [L2 H2]. split; [congruence|].
  intros i Hi. rewrite H2, H1 by done. rewrite <- orb_assoc. f_equal.
  destruct (Z.leb_spec pos i), (Z.ltb_spec i (pos + k)), (Z.leb_spec (pos + k) i),
    (Z.ltb_spec i (pos + k + l)), (Z.ltb_spec i (pos + (k + l))); cbn; done || lia.
Qed.

Lemma written_0 b pos : written b b pos 0.
Proof.
  split; [done|]. intros i Hi.
  destruct (Z.leb_spec pos i), (Z.ltb_spec i (pos + 0)); cbn; rewrite ?orb_false_r; done || lia.
Qed.

Lemma bits_set_ok bits q v :
  0 <= q < zlen bits -> bits_set bits q v = Ret (<[Z.to_nat q := v]> bits).
Proof. apply go_update_ok. Qed.

Lemma bits_or_ok bits q v :
  0 <= q < zlen bits ->
  exists b, bits !! Z.to_nat q = Some b /\
    bits_or bits q v = Ret (<[Z.to_nat q := byte_or b v]> bits).
Proof.
  intros H. unfold bits_or. destruct (go_index_ok bits q H) as (b & -> & Hb).
  exists b. split; [done|]. by apply go_update_ok.
Qed.

Lemma bit_insert bits q v i :
  0 <= q < zlen bits -> 0 <= i ->
  bit (<[Z.to_nat q := v]> bits) i =
    if i / 8 =? q then Z.testbit (byte_val v) (i mod 8) else bit bits i.
Proof.
  intros Hq Hi. unfold bit. pose proof (Z.div_pos i 8 Hi ltac:(lia)).
  destruct (Z.eqb_spec (i / 8) q) as [->|Hne].
  - rewrite list_lookup_insert_eq; [done|]. unfold zlen in Hq. lia.
  - rewrite list_lookup_insert_ne; [done|]. intros E. apply Hne. lia.
Qed.

Lemma bit_lookup bits q b i :
  bits !! Z.to_nat q = Some b -> i / 8 = q -> bit bits i = Z.testbit (byte_val b) (i mod 8).
Proof. intros Hb <-. unfold bit. by rewrite Hb. Qed.

Lemma testbit_byte_or a b r :
  0 <= r < 8 -> Z.testbit (byte_val (byte_or a b)) r = Z.testbit (byte_val a) r || Z.testbit (byte_val b) r.
Proof.
  intros Hr. unfold byte_or. rewrite byte_val_of_Z.
  change 256 with (2 ^ 8). rewrite Z.mod_pow2_bits_low by lia. apply Z.lor_spec.
Qed.

(** Finite facts about the masks, for each offset in a byte. *)
Ltac eight r := assert (r = 0 \/ r = 1 \/ r = 2 \/ r = 3 \/ r = 4 \/ r = 5 \/ r = 6 \/ r = 7)
  as Height by lia; destruct Height as [->|[->|[->|[->|[->|[->|[->| ->]]]]]]].

Lemma mask_FF p r :
  0 <= p < 8 -> 0 <= r < 8 -> Z.testbit (byte_val (byte_of_Z (Z.shiftl 0xFF p))) r = (p <=? r).
Proof. intros Hp Hr. eight p; eight r; reflexivity. Qed.

Lemma mask_not_FF p r :
  0 <= p < 8 -> 0 <= r < 8 ->
  Z.testbit (byte_val (byte_not (byte_of_Z (Z.shiftl 0xFF p)))) r = (r <? p).
Proof. intros Hp Hr. eight p; eight r; reflexivity. Qed.

Definition flag_of (k : Z) : Z := 2 ^ k - 1.

Lemma mask_lo k p r :
  1 <= k < 8 -> 0 <= p < 8 -> 0 <= r < 8 ->
  Z.testbit (byte_val (byte_of_Z (Z.shiftl (flag_of k) p mod 2 ^ 16))) r = (p <=? r) && (r <? p + k).
Proof. intros Hk Hp Hr. eight k; try lia; eight p; eight r; reflexivity. Qed.

Lemma mask_hi k p r :
  1 <= k < 8 -> 0 <= p < 8 -> 0 <= r < 8 ->
  Z.testbit (byte_val (byte_of_Z (Z.shiftr (Z.shiftl (flag_of k) p mod 2 ^ 16) 8))) r = (r + 8 <? p + k).
Proof. intros Hk Hp Hr. eight k; try lia; eight p; eight r; reflexivity. Qed.

Lemma mask_hi_zero k p :
  1 <= k < 8 -> 0 <= p < 8 ->
  (byte_val (byte_of_Z (Z.shiftr (Z.shiftl (flag_of k) p mod 2 ^ 16) 8)) =? 0) = (p + k <=? 8).
Proof. intros Hk Hp. eight k; try lia; eight p; reflexivity. Qed.

Lemma mask_one p r :
  0 <= p < 8 -> 0 <= r < 8 -> Z.testbit (byte_val (byte_of_Z (Z.shiftl 1 p))) r = (p <=? r) && (r <? p + 1).
Proof. intros Hp Hr. eight p; eight r; reflexivity. Qed.

(** A position and its byte, for case analysis by [lia]. *)
Ltac split_pos pos q p :=
  pose proof (Z.div_mod pos 8 ltac:(lia)); pose proof (Z.mod_pos_bound pos 8 ltac:(lia));
  set (q := pos / 8) in *; set (p := pos mod 8) in *.

Ltac bool_lia :=
  repeat match goal with
  | |- context [Z.leb ?a ?b] => destruct (Z.leb_spec a b)
  | |- context [Z.ltb ?a ?b] => destruct (Z.ltb_spec a b)
  end; cbn; rewrite ?orb_true_r, ?orb_false_r; try done; try lia.

Lemma set1_written bits pos :
  0 <= pos -> pos / 8 < zlen bits ->
  exists bits', set1 bits pos = Ret bits' /\ written bits bits' pos 1.
Proof.
  intros Hp Hlt. pose proof (Z.div_pos pos 8 Hp ltac:(lia)). unfold set1.
  destruct (bits_or_ok bits (pos / 8) (byte_of_Z (Z.shiftl 1 (pos mod 8)))) as (b & Hb & ->); [lia|].
  eexists. split; [done|]. split; [by rewrite length_insert|].
  intros i Hi. rewrite bit_insert by lia.
  split_pos pos q p. split_pos i qi r.
  destruct (Z.eqb_spec qi q) as [Heq|Hne].
  - rewrite testbit_byte_or by lia. rewrite (bit_lookup bits q b i) by done.
    fold r. rewrite mask_one by lia. f_equal. bool_lia.
  - bool_lia.
Qed.

Lemma setN_written k bits pos :
  1 <= k < 8 -> 0 <= pos -> pos / 8 + 1 < zlen bits -> clear_from bits pos ->
  exists bits', setN (flag_of k) bits pos = Ret bits' /\ written bits bits' pos k.
Proof.
  intros Hk Hp Hlt Hc. pose proof (Z.div_pos pos 8 Hp ltac:(lia)). unfold setN.
  destruct (bits_or_ok bits (pos / 8) (byte_of_Z (Z.shiftl (flag_of k) (pos mod 8) mod 2 ^ 16)))
    as (b & Hb & ->); [lia|]. cbn [res_bind].
  rewrite mask_hi_zero by (try lia; apply Z.mod_pos_bound; lia).
  destruct (Z.leb_spec (pos mod 8 + k) 8); cbn [negb].
  - eexists. split; [done|]. split; [by rewrite length_insert|].
    intros i Hi. rewrite bit_insert by lia. split_pos pos q p. split_pos i qi r.
    destruct (Z.eqb_spec qi q) as [Heq|Hne].
    + rewrite testbit_byte_or by lia. rewrite (bit_lookup bits q b i) by done.
      fold r. rewrite mask_lo by lia. f_equal. bool_lia.
    + bool_lia.
  - rewrite bits_set_ok by (unfold zlen in *; rewrite length_insert; lia).
    eexists. split; [done|]. split; [by rewrite !length_insert|].
    intros i Hi. rewrite bit_insert by (unfold zlen in *; rewrite ?length_insert; lia).
    rewrite bit_insert by lia. split_pos pos q p. split_pos i qi r.
    destruct (Z.eqb_spec qi (q + 1)) as [Heq1|Hne1].
    + rewrite mask_hi by lia. rewrite (Hc i) by lia. bool_lia.
    + destruct (Z.eqb_spec qi q) as [Heq|Hne]; [|bool_lia].
      rewrite testbit_byte_or by lia. rewrite (bit_lookup bits q b i) by done.
      fold r. rewrite mask_lo by lia. f_equal. bool_lia.
Qed.

Lemma set8_written bits pos :
  0 <= pos -> pos / 8 + 1 < zlen bits -> clear_from bits pos ->
  exists bits', set8 bits pos = Ret bits' /\ written bits bits' pos 8.
Proof.
  intros Hp Hlt Hc. pose proof (Z.div_pos pos 8 Hp ltac:(lia)). unfold set8.
  destruct (bits_or_ok bits (pos / 8) (byte_of_Z (Z.shiftl 0xFF (pos mod 8)))) as (b & Hb & ->); [lia|].
  cbn [res_bind]. rewrite bits_set_ok by (unfold zlen in *; rewrite length_insert; lia).
  eexists. split; [done|]. split; [by rewrite !length_insert|].
  intros i Hi. rewrite bit_insert by (unfold zlen in *; rewrite ?length_insert; lia).
  rewrite bit_insert by lia. split_pos pos q p. split_pos i qi r.
  destruct (Z.eqb_spec qi (q + 1)) as [Heq1|Hne1].
  - rewrite mask_not_FF by lia. rewrite (Hc i) by lia. bool_lia.
  - destruct (Z.eqb_spec qi q) as [Heq|Hne]; [|bool_lia].
    rewrite testbit_byte_or by lia. rewrite (bit_lookup bits q b i) by done.
    fold r. rewrite mask_FF by lia. f_equal. bool_lia.
Qed.

Lemma set16_written bits pos :
  0 <= pos -> pos / 8 + 2 < zlen bits -> clear_from bits pos ->
  exists bits', set16 bits pos = Ret bits' /\ written bits bits' pos 16.
Proof.
  intros Hp Hlt Hc. pose proof (Z.div_pos pos 8 Hp ltac:(lia)). unfold set16.
  destruct (bits_or_ok bits (pos / 8) (byte_of_Z (Z.shiftl 0xFF (pos mod 8)))) as (b & Hb & ->); [lia|].
  cbn [res_bind]. rewrite bits_set_ok by (unfold zlen in *; rewrite length_insert; lia).
  cbn [res_bind]. rewrite bits_set_ok by (unfold zlen in *; rewrite !length_insert; lia).
  eexists. split; [done|]. split; [by rewrite !length_insert|].
  intros i Hi. rewrite bit_insert by (unfold zlen in *; rewrite ?length_insert; lia).
  rewrite bit_insert by (unfold zlen in *; rewrite ?length_insert; lia).
  rewrite bit_insert by lia. split_pos pos q p. split_pos i qi r.
  destruct (Z.eqb_spec qi (q + 2)) as [Heq2|Hne2].
  - rewrite mask_not_FF by lia. rewrite (Hc i) by lia. bool_lia.
  - destruct (Z.eqb_spec qi (q + 1)) as [Heq1|Hne1].
    + rewrite (Hc i) by lia.
      assert (Z.testbit (byte_val Byte.xff) r = true) as -> by (eight r; reflexivity). bool_lia.
    + destruct (Z.eqb_spec qi q) as [Heq|Hne]; [|bool_lia].
      rewrite testbit_byte_or by lia. rewrite (bit_lookup bits q b i) by done.
      fold r. rewrite mask_FF by lia. f_equal. bool_lia.
Qed.

(** A group of writes: [n] bits from [pos]. *)
Definition writes (r : Res (bitvec * Z)) (bits : bitvec) (pos n : Z) : Prop :=
  exists bits', r = Ret (bits', pos + n) /\ written bits bits' pos n.

Lemma set16_loop_0 fuel n bits pc : n < 16 -> set16_loop fuel n bits pc = Ret (n, bits, pc).
Proof. intros H. destruct fuel; cbn; destruct (n >=? 16) eqn:E; zbool; done || lia. Qed.

Lemma set8_loop_0 fuel n bits pc : n < 8 -> set8_loop fuel n bits pc = Ret (n, bits, pc).
Proof. intros H. destruct fuel; cbn; destruct (n >=? 8) eqn:E; zbool; done || lia. Qed.

Lemma set16_loop_S fuel n bits pc :
  16 <= n -> set16_loop (S fuel) n bits pc =
    res_bind (set16 bits pc) (fun bits => set16_loop fuel (n - 16) bits (u64 (pc + 16))).
Proof. intros H. cbn [set16_loop]. destruct (n >=? 16) eqn:E; zbool; done || lia. Qed.

Lemma set8_loop_S fuel n bits pc :
  8 <= n -> set8_loop (S fuel) n bits pc =
    res_bind (set8 bits pc) (fun bits => set8_loop fuel (n - 8) bits (u64 (pc + 8))).
Proof. intros H. cbn [set8_loop]. destruct (n >=? 8) eqn:E; zbool; done || lia. Qed.

Lemma set_rest_writes n bits pos :
  0 <= n < 8 -> 0 <= pos < 2 ^ 63 -> pos / 8 + 1 < zlen bits -> clear_from bits pos ->
  writes (set_rest n bits pos) bits pos n.
Proof.
  intros Hn Hp Hlt Hc. unfold writes, set_rest.
  destruct (Z.eqb_spec n 1) as [->|H1].
  { destruct (set1_written bits pos) as (b & -> & Hw); [lia..|].
    exists b. cbn. by rewrite u64_small by ulia. }
  assert (n = 0 \/ 2 <= n) as [->|Hn2] by lia.
  { exists bits. cbn. rewrite Z.add_0_r. split; [done | apply written_0]. }
  destruct (setN_written n bits pos) as (b & Hb & Hw); [lia..|done|].
  exists b. rewrite u64_small by ulia. split; [|done].
  eight n; try lia;
    match type of Hb with context [flag_of ?k] =>
      let v := eval vm_compute in (flag_of k) in change (flag_of k) with v in Hb
    end; cbn [Z.eqb Pos.eqb]; by rewrite Hb.
Qed.

Lemma set8_loop_writes n bits pos :
  0 <= n < 16 -> 0 <= pos < 2 ^ 62 -> (pos + 8) / 8 + 1 < zlen bits -> clear_from bits pos ->
  writes (res_bind (set8_loop 1 n bits pos) (fun '(n, bits, pc) => set_rest n bits pc)) bits pos n.
Proof.
  intros Hn Hp Hlt Hc.
  assert ((pos + 8) / 8 = pos / 8 + 1) as Hdiv by (rewrite <- Z.div_add by lia; f_equal; lia).
  destruct (Z.lt_ge_cases n 8).
  { rewrite set8_loop_0 by done. apply set_rest_writes; done || lia. }
  rewrite set8_loop_S by done.
  destruct (set8_written bits pos) as (b & -> & Hw); [lia..|done|]. cbn [res_bind].
  rewrite u64_small by ulia. rewrite set8_loop_0 by lia. cbn [res_bind].
  destruct (set_rest_writes (n - 8) b (pos + 8)) as (b' & -> & Hw'); [lia|lia| | |].
  { unfold zlen in *. destruct Hw as [-> _]. lia. }
  { eapply written_clear; eauto; lia. }
  exists b'. split; [do 2 f_equal; lia|].
  replace n with (8 + (n - 8)) by lia. eapply written_trans; eauto; lia.
Qed.

(** All the writes for one PUSH instruction. *)
Definition push_writes (n : Z) (bits : bitvec) (pc : Z) : Res (bitvec * Z) :=
  res_bind
    (if n >=? 8
     then res_bind (set16_loop 2 n bits pc) (fun '(n, bits, pc) => set8_loop 1 n bits pc)
     else Ret (n, bits, pc))
    (fun '(n, bits, pc) => set_rest n bits pc).

Lemma push_writes_bind {B} n bits pc (k : bitvec * Z -> Res B) :
  res_bind
    (if n >=? 8
     then res_bind (set16_loop 2 n bits pc) (fun '(n, bits, pc) => set8_loop 1 n bits pc)
     else Ret (n, bits, pc))
    (fun '(n, bits, pc) => res_bind (set_rest n bits pc) k) = res_bind (push_writes n bits pc) k.
Proof. unfold push_writes. by destruct (if n >=? 8 then _ else _) as [[[? ?] ?]| |]. Qed.

Lemma push_writes_short n bits pos :
  0 <= n < 16 -> 0 <= pos < 2 ^ 62 -> (pos + 8) / 8 + 1 < zlen bits -> clear_from bits pos ->
  writes (push_writes n bits pos) bits pos n.
Proof.
  intros Hn Hp Hlt Hc. unfold push_writes.
  destruct (n >=? 8) eqn:E; zbool.
  - rewrite set16_loop_0 by lia. cbn [res_bind]. by apply set8_loop_writes.
  - cbn [res_bind]. apply set_rest_writes; [lia|lia| |done].
    pose proof (Z.div_le_mono pos (pos + 8) 8). lia.
Qed.

Lemma push_writes_16 n bits pos :
  16 <= n <= 32 -> 0 <= pos < 2 ^ 62 -> pos / 8 + 2 < zlen bits -> clear_from bits pos ->
  exists b, written bits b pos 16 /\
    res_bind (set16_loop 2 n bits pos) (fun '(n, bits, pc) => set8_loop 1 n bits pc) =
    res_bind (set16_loop 1 (n - 16) b (pos + 16)) (fun '(n, bits, pc) => set8_loop 1 n bits pc).
Proof.
  intros Hn Hp Hlt Hc.
  destruct (set16_written bits pos) as (b & Hb & Hw); [lia..|done|].
  exists b. split; [done|]. rewrite set16_loop_S by lia. rewrite Hb. cbn [res_bind].
  by rewrite u64_small by ulia.
Qed.

Lemma push_writes_ok n bits pos :
  0 <= n <= 32 -> 0 <= pos < 2 ^ 61 -> pos / 8 + 4 < zlen bits -> clear_from bits pos ->
  writes (push_writes n bits pos) bits pos n.
Proof.
  intros Hn Hp Hlt Hc.
  assert (Hd : forall k, (pos + 8 * k) / 8 = pos / 8 + k)
    by (intros; rewrite <- Z.div_add by lia; f_equal; lia).
  pose proof (Hd 1 : (pos + 8) / 8 = _) as Hd1. pose proof (Hd 2 : (pos + 16) / 8 = _) as Hd2.
  pose proof (Hd 3 : (pos + 24) / 8 = _) as Hd3. clear Hd.
  destruct (Z.lt_ge_cases n 16).
  { apply push_writes_short; [lia..|done]. }
  unfold push_writes. destruct (n >=? 8) eqn:E; zbool; [|lia].
  destruct (push_writes_16 n bits pos) as (b & Hw & ->); [lia..|done|].
  assert (zlen b = zlen bits) as Hlen by (unfold zlen; by destruct Hw as [-> _]).
  assert (clear_from b (pos + 16)) as Hcb by (eapply written_clear; eauto; lia).
  destruct (Z.lt_ge_cases n 32).
  - rewrite set16_loop_0 by lia. cbn [res_bind].
    destruct (set8_loop_writes (n - 16) b (pos + 16)) as (b' & -> & Hw'); [lia..| |done|].
    { replace (pos + 16 + 8) with (pos + 24) by lia. lia. }
    exists b'. split; [do 2 f_equal; lia|].
    replace n with (16 + (n - 16)) by lia. eapply written_trans; eauto; lia.
  - assert (n = 32) as -> by lia.
    destruct (set16_written b (pos + 16)) as (b' & Hb' & Hw'); [lia..|done|].
    rewrite set16_loop_S by lia. rewrite Hb'. cbn [res_bind]. rewrite u64_small by ulia.
    rewrite set16_loop_0 by lia. cbn [res_bind].
    rewrite set8_loop_0 by lia. cbn [res_bind].
    exists b'. split.
    { replace (pos + 32) with (pos + 16 + 16) by lia. reflexivity. }
    change 32 with (16 + 16). eapply written_trans; eauto; lia.
Qed.

(** ** The reference, past the data of an instruction *)

Lemma push_data_length k code : length (push_data k code) = length code.
Proof. revert k; induction code as [|op code IH]; intros [|k]; cbn; by rewrite ?IH. Qed.

Lemma push_data_data k code j :
  (j < k)%nat -> (j < length code)%nat -> push_data k code !! j = Some true.
Proof.
  revert k j. induction code as [|op code IH]; intros k j Hj Hl; cbn in Hl; [lia|].
  destruct k as [|k]; [lia|]. destruct j as [|j]; [done|]. cbn. apply IH; lia.
Qed.

Lemma push_data_skip k code j :
  (k <= j)%nat -> push_data k code !! j = push_data 0 (drop k code) !! (j - k)%nat.
Proof.
  revert k j. induction code as [|op code IH]; intros k j Hj; [by rewrite drop_nil|].
  destruct k as [|k].
  - by rewrite Nat.sub_0_r.
  - destruct j as [|j]; [lia|]. cbn [push_data drop lookup list_lookup Nat.sub].
    rewrite <- IH by lia. done.
Qed.

Lemma IsPush_int8 op : IsPush op = negb (int8 op <? int8 PUSH1).
Proof. destruct op; reflexivity. Qed.

Lemma push_numbits op :
  IsPush op = true ->
  byte_val (byte_of_Z (byte_val op - byte_val PUSH1 + 1)) = Z.of_nat (push_size op) /\
  (1 <= push_size op <= 32)%nat.
Proof. destruct op; try discriminate; intros _; split; try reflexivity; cbv; lia. Qed.

Lemma codeBitmapInternal_spec code fuel pc bits :
  zlen code < 2 ^ 60 -> 0 <= pc -> (length code <= fuel + Z.to_nat pc)%nat ->
  length bits = (length code / 8 + 1 + 4)%nat -> clear_from bits pc ->
  exists bits', codeBitmapInternal fuel code bits pc = Ret bits' /\
    length bits' = length bits /\
    (forall i, 0 <= i < pc -> bit bits' i = bit bits i) /\
    (forall j, pc <= j < zlen code ->
       push_data 0 (drop (Z.to_nat pc) code) !! Z.to_nat (j - pc) = Some (bit bits' j)).
Proof.
  intros Hlen. revert pc bits. induction fuel as [|fuel IH]; intros pc bits Hpc Hf Hb Hc;
    cbn [codeBitmapInternal]; destruct (Z.ltb_spec pc (zlen code)) as [Hlt|Hge].
  - unfold zlen in Hlt. lia.
  - exists bits. split_and!; [done..|]. intros j Hj. lia.
  - assert (Hl8 : zlen bits = zlen code / 8 + 5).
    { unfold zlen in *. rewrite Hb. rewrite !Nat2Z.inj_add, Nat2Z.inj_div. lia. }
    destruct (go_index_ok code pc) as (op & -> & Hop); [lia|]. cbn [res_bind].
    rewrite u64_small by ulia.
    assert (Hdrop : drop (Z.to_nat pc) code = op :: drop (Z.to_nat (pc + 1)) code).
    { rewrite (drop_S code op) by done. do 2 f_equal. lia. }
    assert (Hc1 : clear_from bits (pc + 1)) by (intros i Hi; apply Hc; lia).
    pose proof (IsPush_int8 op) as Hip.
    destruct (int8 op <? int8 PUSH1) eqn:E; cbn [negb] in Hip.
    + destruct (IH (pc + 1) bits) as (b' & -> & Hl & H1 & H2); [lia|lia|done|done|].
      exists b'. split_and!; [done|done| |].
      { intros i Hi. apply H1. lia. }
      intros j Hj. rewrite Hdrop. cbn [push_data]. unfold push_size. rewrite Hip.
      destruct (Z.eq_dec j pc) as [->|Hne].
      { rewrite Z.sub_diag. cbn. rewrite H1 by lia. by rewrite Hc by lia. }
      replace (Z.to_nat (j - pc)) with (S (Z.to_nat (j - (pc + 1)))) by lia. cbn. apply H2. lia.
    + destruct (push_numbits op Hip) as [-> Hn]. set (n := push_size op) in *.
      assert (Hw : writes (push_writes (Z.of_nat n) bits (pc + 1)) bits (pc + 1) (Z.of_nat n)).
      { apply push_writes_ok; [lia|lia| |done].
        pose proof (Z.div_le_mono (pc + 1) (zlen code) 8). lia. }
      destruct Hw as (b & Hb' & Hw).
      rewrite push_writes_bind, Hb'. cbn [res_bind]. clear Hb'.
      assert (Hcb : clear_from b (pc + 1 + Z.of_nat n)) by (eapply written_clear; eauto; lia).
      destruct Hw as [Hlb Hw].
      destruct (IH (pc + 1 + Z.of_nat n) b) as (b' & -> & Hl & H1 & H2); [lia|lia|congruence|done|].
      exists b'. split_and!; [done|congruence| |].
      { intros i Hi. rewrite H1 by lia. rewrite Hw by lia. bool_lia. }
      intros j Hj. rewrite Hdrop. cbn [push_data].
      destruct (Z.eq_dec j pc) as [->|Hne].
      { rewrite Z.sub_diag. cbn. rewrite H1, Hw, Hc by lia. f_equal. bool_lia. }
      replace (Z.to_nat (j - pc)) with (S (Z.to_nat (j - (pc + 1)))) by lia. cbn [lookup list_lookup].
      fold n.
      destruct (Z.lt_ge_cases j (pc + 1 + Z.of_nat n)).
      * rewrite push_data_data; [|lia|rewrite length_drop; unfold zlen in *; lia].
        rewrite H1, Hw by lia. f_equal. symmetry. apply orb_true_iff. right. bool_lia.
      * rewrite push_data_skip by lia. rewrite drop_drop.
        replace (Z.to_nat (pc + 1) + n)%nat with (Z.to_nat (pc + 1 + Z.of_nat n)) by lia.
        replace (Z.to_nat (j - (pc + 1)) - n)%nat with (Z.to_nat (j - (pc + 1 + Z.of_nat n))) by lia.
        apply H2. lia.
  - exists bits. split_and!; [done..|]. intros j Hj. lia.
Qed.

Lemma codeSegment_bit bits pos :
  0 <= pos -> pos / 8 < zlen bits -> codeSegment bits pos = Ret (negb (bit bits pos)).
Proof.
  intros Hp Hlt. pose proof (Z.div_pos pos 8 Hp ltac:(lia)). unfold codeSegment.
  destruct (go_index_ok bits (pos / 8)) as (b & -> & Hb); [lia|]. cbn.
  rewrite (bit_lookup bits (pos / 8) b pos) by done. f_equal.
  pose proof (Z.mod_pos_bound pos 8 ltac:(lia)).
  rewrite Z.shiftr_div_pow2 by lia. change 1 with (Z.ones 1). rewrite Z.land_ones by lia.
  rewrite Z.testbit_eqb by lia. change (2 ^ 1) with 2.
  pose proof (Z.mod_pos_bound (byte_val b / 2 ^ (pos mod 8)) 2 ltac:(lia)).
  set (m := (byte_val b / 2 ^ (pos mod 8)) mod 2) in *.
  destruct (Z.eqb_spec m 0), (Z.eqb_spec m 1); done || lia.
Qed.

Lemma clear_from_zeros n : clear_from (replicate n Byte.x00) 0.
Proof.
  intros i _. unfold bit. destruct (replicate n Byte.x00 !! Z.to_nat (i / 8)) as [b|] eqn:E; [|done].
  apply lookup_replicate in E as [-> _]. apply Z.testbit_0_l.
Qed.

(** The analysis terminates without a panic, and its bitmap answers for every
    position of the code exactly as the reference does. *)
Lemma codeBitmap_spec code :
  zlen code < 2 ^ 60 ->
  exists bits, codeBitmap code = Ret bits /\ zlen bits = zlen code / 8 + 5 /\
    forall pos, (pos < length code)%nat ->
      codeSegment bits (Z.of_nat pos) = Ret (is_instruction code pos).
Proof.
  intros Hlen. unfold codeBitmap.
  destruct (codeBitmapInternal_spec code (length code) 0 (replicate (length code / 8 + 1 + 4) Byte.x00))
    as (bits & -> & Hl & _ & H); [done|lia|lia|by rewrite length_replicate|apply clear_from_zeros|].
  rewrite length_replicate in Hl.
  assert (zlen bits = zlen code / 8 + 5) as Hz.
  { unfold zlen in *. rewrite Hl. rewrite !Nat2Z.inj_add, Nat2Z.inj_div. lia. }
  exists bits. split_and!; [done|done|].
  intros pos Hpos. pose proof (Z.div_le_mono (Z.of_nat pos) (zlen code) 8 ltac:(lia) ltac:(unfold zlen; lia)).
  rewrite codeSegment_bit by lia. f_equal. unfold is_instruction.
  specialize (H (Z.of_nat pos) ltac:(unfold zlen; lia)).
  rewrite Z.sub_0_r, Nat2Z.id in H. change (Z.to_nat 0) with 0%nat in H. rewrite drop_0 in H. by rewrite H.
Qed.

(** ** Theorem *)

(** C35: The bitmap of jump destinations, built with byte-wide shifts and with
    eight and sixteen bits at a time, classifies every position of the code the
    way a scan instruction by instruction does: set exactly on the bytes that
    push instructions carry. *)
Theorem codeBitmap_correct code :
  zlen code < 2 ^ 60 ->
  exists bits, codeBitmap code = Ret bits /\
    forall pos, (pos < length code)%nat -> codeSegment bits (Z.of_nat pos) = Ret (is_instruction code pos).
Proof. intros H. destruct (codeBitmap_spec code H) as (bits & Hb & _ & Hc). by exists bits. Qed.
