(* ===== verification/Machine.v ===== *)
(** * The machine state of the EVM

    Contracts (client/core/vm/contract.go), the block and transaction contexts
    and the mutable fields of [EVM] and [EVMInterpreter] (evm.go,
    interpreter.go), the scope of a call frame, and the types of the functions
    in the jump table (jump_table.go).

    Mutable fields live in two records: [EVMState] holds what all frames of a
    transaction share, [Frame] one activation of [Run] on top of it.  Fields
    that are only read during a run are in the class [EVM]. *)

From Stdlib Require Import Strings.Byte.
From S2P Require Import Prelude.
From S2P Require Import Uint256.
From S2P Require Import OpCodes.
From S2P Require Import Common.
From S2P Require Import Params.
From S2P Require Import Crypto.
From S2P Require Import StateInterface.
From S2P Require Import Stack.
From S2P Require Import Memory.
From S2P Require Import Analysis.

(** ** Contracts

    The JUMPDEST analyses are aggregated in Go maps that a contract shares with
    the contracts it calls.  The maps live in a store of the EVM state,
    [jumpdests] is the reference into it. *)

(** A [ContractRef] is an [AccountRef] or the calling [*Contract].  Of the
    latter only fields that are set once are read: its address, its caller, its
    value and its map reference. *)
Inductive ContractRef : Type :=
| AccountRef (addr : Address)
| ParentContract (addr callerAddress : Address) (value : option Z) (jumpdests : nat).

Definition ref_Address (r : ContractRef) : Address :=
  match r with AccountRef a => a | ParentContract a _ _ _ => a end.

Record Contract : Type := mkContract {
  CallerAddress : Address;
  caller : ContractRef;
  self : Address;
  jumpdests : nat;
  analysis : option bitvec;
  Code : list byte;
  CodeHash : Hash;
  CodeAddr : option Address;
  Input : list byte;
  Gas : Z;
  value : option Z             (* *big.Int, None is nil *)
}.

Definition Contract_Address (c : Contract) : Address := self c.
Definition Contract_Caller (c : Contract) : Address := CallerAddress c.

(** The contract as the caller of another one. *)
Definition as_caller (c : Contract) : ContractRef :=
  ParentContract (self c) (CallerAddress c) (value c) (jumpdests c).

Definition set_Gas (g : Z) (c : Contract) : Contract :=
  mkContract (CallerAddress c) (caller c) (self c) (jumpdests c) (analysis c) (Code c)
    (CodeHash c) (CodeAddr c) (Input c) g (value c).

Definition set_analysis (a : bitvec) (c : Contract) : Contract :=
  mkContract (CallerAddress c) (caller c) (self c) (jumpdests c) (Some a) (Code c)
    (CodeHash c) (CodeAddr c) (Input c) (Gas c) (value c).

Definition set_Input (i : list byte) (c : Contract) : Contract :=
  mkContract (CallerAddress c) (caller c) (self c) (jumpdests c) (analysis c) (Code c)
    (CodeHash c) (CodeAddr c) i (Gas c) (value c).

(** [SetCallCode]. *)
Definition SetCallCode (addr : Address) (hash : Hash) (code : list byte) (c : Contract) : Contract :=
  mkContract (CallerAddress c) (caller c) (self c) (jumpdests c) (analysis c) code
    hash (Some addr) (Input c) (Gas c) (value c).

(** [codeAndHash]: creation code, whose hash is 0 until [Hash()] is called. *)
Record codeAndHash : Type := mkCodeAndHash { ch_code : list byte; ch_hash : Hash }.

Definition codeAndHash_Hash {K : Keccak} (c : codeAndHash) : Hash * codeAndHash :=
  let h := if ch_hash c =? 0 then keccak256 (ch_code c) else ch_hash c in
  (h, mkCodeAndHash (ch_code c) h).

Definition SetCodeOptionalHash (addr : Address) (ch : codeAndHash) (c : Contract) : Contract :=
  mkContract (CallerAddress c) (caller c) (self c) (jumpdests c) (analysis c) (ch_code ch)
    (ch_hash ch) (Some addr) (Input c) (Gas c) (value c).

(** [GetOp]: STOP beyond the end of the code. *)
Definition GetOp (c : Contract) (n : Z) : OpCode :=
  if n <? zlen (Code c)
  then match Code c !! Z.to_nat n with Some op => op | None => STOP end
  else STOP.

Definition UseGas (gas : Z) : GM Contract bool :=
  fun c =>
    if Gas c <? gas then Ret (false, c)
    else Ret (true, set_Gas (u64 (Gas c - gas)) c).

(** ** The shared mutable state *)

Record EVMState (S : Type) : Type := mkEVMState {
  evm_StateDB : S;
  depth : Z;
  callGasTemp : Z;
  readOnly : bool;
  returnData : list byte;
  jumpmaps : list (gmap Hash bitvec);
  aborts : nat                 (* how often [abort] has been loaded *)
}.
Arguments mkEVMState {S}.
Arguments evm_StateDB {S}.
Arguments depth {S}.
Arguments callGasTemp {S}.
Arguments readOnly {S}.
Arguments returnData {S}.
Arguments jumpmaps {S}.
Arguments aborts {S}.

(** ** The context of a run *)

Record BlockContext (S : Type) : Type := mkBlockContext {
  CanTransfer : Address -> Z -> GM S bool;
  Transfer : Address -> Address -> Z -> GM S unit;
  GetHash : Z -> Hash;
  Coinbase : Address;
  GasLimit : Z;
  BlockNumber : Z;
  Time : Z;
  Difficulty : Z;
  BaseFee : option Z;
  Random : option Hash
}.
Arguments mkBlockContext {S}.
Arguments CanTransfer {S}.
Arguments Transfer {S}.
Arguments GetHash {S}.
Arguments Coinbase {S}.
Arguments GasLimit {S}.
Arguments BlockNumber {S}.
Arguments Time {S}.
Arguments Difficulty {S}.
Arguments BaseFee {S}.
Arguments Random {S}.

Record TxContext : Type := mkTxContext { Origin : Address; GasPrice : Z }.

(** client/core/vm/interpreter.go [Config], without the tracer: the model is
    the run with a nil [Tracer], which observes and does not change the run. *)
Record Config : Type := mkConfig {
  NoBaseFee : bool;
  EnablePreimageRecording : bool;
  ExtraEips : list Z
}.

(** The fields of [EVM] a run only reads.  [abort] is written by [Cancel],
    possibly from another goroutine: [abort_load n] is what the n-th load of
    the flag returns. *)
Class EVM (S : Type) : Type := mkEVM {
  Context : BlockContext S;
  evm_TxContext : TxContext;
  chainConfig : ChainConfig;
  chainRules : Rules;
  evm_Config : Config;
  abort_load : nat -> bool
}.

(** ** A call frame *)

Record Frame (S : Type) : Type := mkFrame {
  fr_pc : Z;
  fr_stack : Stack;
  fr_mem : Memory;
  fr_contract : Contract;
  fr_evm : EVMState S
}.
Arguments mkFrame {S}.
Arguments fr_pc {S}.
Arguments fr_stack {S}.
Arguments fr_mem {S}.
Arguments fr_contract {S}.
Arguments fr_evm {S}.

(** The types of client/core/vm/jump_table.go. *)
Definition executionFunc (S : Type) : Type := GM (Frame S) (list byte * option error).
Definition gasFunc (S : Type) : Type := Z -> GM (Frame S) (Z * option error).
Definition memorySizeFunc : Type := Stack -> Res (Z * bool).

Record operation (S : Type) : Type := mkOperation {
  execute : executionFunc S;
  constantGas : Z;
  dynamicGas : option (gasFunc S);
  minStack : Z;
  maxStack : Z;
  memorySize : option memorySizeFunc
}.
Arguments mkOperation {S}.
Arguments execute {S}.
Arguments constantGas {S}.
Arguments dynamicGas {S}.
Arguments minStack {S}.
Arguments maxStack {S}.
Arguments memorySize {S}.

(** The entry points of [EVM] an instruction calls: [Call], [CallCode],
    [DelegateCall], [StaticCall] (returned data, left-over gas, error) and
    [Create], [Create2] (which return the address as well). *)
Class Calls (S : Type) : Type := mkCalls {
  evm_Call : ContractRef -> Address -> list byte -> Z -> Z ->
    GM (EVMState S) (list byte * Z * option error);
  evm_CallCode : ContractRef -> Address -> list byte -> Z -> Z ->
    GM (EVMState S) (list byte * Z * option error);
  evm_DelegateCall : ContractRef -> Address -> list byte -> Z ->
    GM (EVMState S) (list byte * Z * option error);
  evm_StaticCall : ContractRef -> Address -> list byte -> Z ->
    GM (EVMState S) (list byte * Z * option error);
  evm_Create : ContractRef -> list byte -> Z -> Z ->
    GM (EVMState S) (list byte * Address * Z * option error);
  evm_Create2 : ContractRef -> list byte -> Z -> Z -> Z ->
    GM (EVMState S) (list byte * Address * Z * option error)
}.

(** ** Access to the parts of the state *)

Section access.
Context {S : Type}.

Definition set_sdb (s : S) (e : EVMState S) : EVMState S :=
  mkEVMState s (depth e) (callGasTemp e) (readOnly e) (returnData e) (jumpmaps e) (aborts e).
Definition set_depth (d : Z) (e : EVMState S) : EVMState S :=
  mkEVMState (evm_StateDB e) d (callGasTemp e) (readOnly e) (returnData e) (jumpmaps e) (aborts e).
Definition set_callGasTemp (g : Z) (e : EVMState S) : EVMState S :=
  mkEVMState (evm_StateDB e) (depth e) g (readOnly e) (returnData e) (jumpmaps e) (aborts e).
Definition set_readOnly (b : bool) (e : EVMState S) : EVMState S :=
  mkEVMState (evm_StateDB e) (depth e) (callGasTemp e) b (returnData e) (jumpmaps e) (aborts e).
Definition set_returnData (d : list byte) (e : EVMState S) : EVMState S :=
  mkEVMState (evm_StateDB e) (depth e) (callGasTemp e) (readOnly e) d (jumpmaps e) (aborts e).
Definition set_jumpmaps (m : list (gmap Hash bitvec)) (e : EVMState S) : EVMState S :=
  mkEVMState (evm_StateDB e) (depth e) (callGasTemp e) (readOnly e) (returnData e) m (aborts e).
Definition set_aborts (n : nat) (e : EVMState S) : EVMState S :=
  mkEVMState (evm_StateDB e) (depth e) (callGasTemp e) (readOnly e) (returnData e) (jumpmaps e) n.

Definition set_pc (pc : Z) (f : Frame S) : Frame S :=
  mkFrame pc (fr_stack f) (fr_mem f) (fr_contract f) (fr_evm f).
Definition set_stack (st : Stack) (f : Frame S) : Frame S :=
  mkFrame (fr_pc f) st (fr_mem f) (fr_contract f) (fr_evm f).
Definition set_mem (m : Memory) (f : Frame S) : Frame S :=
  mkFrame (fr_pc f) (fr_stack f) m (fr_contract f) (fr_evm f).
Definition set_contract (c : Contract) (f : Frame S) : Frame S :=
  mkFrame (fr_pc f) (fr_stack f) (fr_mem f) c (fr_evm f).
Definition set_evm (e : EVMState S) (f : Frame S) : Frame S :=
  mkFrame (fr_pc f) (fr_stack f) (fr_mem f) (fr_contract f) e.

(** Running code of a part. *)
Definition on_stack {A} (m : GM Stack A) : GM (Frame S) A := gzoom fr_stack set_stack m.
Definition on_mem {A} (m : GM Memory A) : GM (Frame S) A := gzoom fr_mem set_mem m.
Definition on_contract {A} (m : GM Contract A) : GM (Frame S) A := gzoom fr_contract set_contract m.
Definition on_evm {A} (m : GM (EVMState S) A) : GM (Frame S) A := gzoom fr_evm set_evm m.
Definition on_sdb {A} (m : GM S A) : GM (EVMState S) A := gzoom evm_StateDB set_sdb m.
Definition sdb {A} (m : GM S A) : GM (Frame S) A := on_evm (on_sdb m).

Definition pop : GM (Frame S) Z := on_stack stack_pop.
Definition peek : GM (Frame S) Z := on_stack stack_peek.
Definition push (x : Z) : GM (Frame S) unit := on_stack (stack_push x).
Definition setTop (x : Z) : GM (Frame S) unit := on_stack (stack_setTop x).
Definition back (n : Z) : GM (Frame S) Z := fun f => gpure (stack_Back (fr_stack f) n) f.
Definition memGetPtr (off size : Z) : GM (Frame S) (list byte) :=
  fun f => gpure (Memory_GetPtr off size (fr_mem f)) f.
Definition memGetCopy (off size : Z) : GM (Frame S) (list byte) :=
  fun f => gpure (Memory_GetCopy off size (fr_mem f)) f.
Definition contract : GM (Frame S) Contract := gget fr_contract.
Definition evm : GM (Frame S) (EVMState S) := gget fr_evm.

(** [evm.abort.Load()]. *)
Definition abort_Load {E : EVM S} : GM (EVMState S) bool :=
  fun e => Ret (abort_load (aborts e), set_aborts (aborts e + 1) e).

(** ** The operations of contract.go that use the shared maps *)

(** A new, empty Go map. *)
Definition new_map : GM (EVMState S) nat :=
  fun e => Ret (length (jumpmaps e), set_jumpmaps (jumpmaps e ++ [∅]) e).

Definition NewContract (caller_ : ContractRef) (object : Address) (value_ : option Z) (gas : Z)
    : GM (EVMState S) Contract :=
  let* m := match caller_ with
            | ParentContract _ _ _ j => gret j
            | AccountRef _ => new_map
            end in
  gret (mkContract (ref_Address caller_) caller_ object m None [] 0 None [] gas value_).

(** [AsDelegate]: the type assertion fails if the caller is not a contract. *)
Definition AsDelegate (c : Contract) : GM (EVMState S) Contract :=
  match caller c with
  | ParentContract _ callerAddress value_ _ =>
      gret (mkContract callerAddress (caller c) (self c) (jumpdests c) (analysis c) (Code c)
              (CodeHash c) (CodeAddr c) (Input c) (Gas c) value_)
  | AccountRef _ => gpanic PanicNil
  end.

(** [isCode]: the local analysis, else the shared one, else a new one. *)
Definition isCode (udest : Z) : GM (Frame S) bool :=
  let* c := contract in
  match analysis c with
  | Some a => gpure (codeSegment a udest)
  | None =>
      if negb (CodeHash c =? 0) then
        let* maps := gget (fun f => jumpmaps (fr_evm f)) in
        match maps !! jumpdests c with
        | None => gpanic PanicNil
        | Some m =>
            let* a := match m !! CodeHash c with
                      | Some a => gret a
                      | None =>
                          let* a := gpure (codeBitmap (Code c)) in
                          on_evm (gput (set_jumpmaps (<[jumpdests c := <[CodeHash c := a]> m]> maps))) ;;;
                          gret a
                      end in
            on_contract (gput (set_analysis a)) ;;;
            gpure (codeSegment a udest)
        end
      else
        let* a := gpure (codeBitmap (Code c)) in
        on_contract (gput (set_analysis a)) ;;;
        gpure (codeSegment a udest)
  end.

Definition validJumpdest {U : Uint256} (dest : Z) : GM (Frame S) bool :=
  let* c := contract in
  let '(udest, overflow) := u256_Uint64WithOverflow dest in
  if overflow || (udest >=? zlen (Code c)) then gret false
  else
    let* op := gpure (go_index (Code c) udest) in
    if negb (bool_decide (op = JUMPDEST)) then gret false
    else isCode udest.
End access.
