(* ===== verification/Invariant.v ===== *)
(** * Invariants of the machine state

    The well-formedness invariant of every part of the machine state, the
    relation "evolved from" between states of one run, and the specifications
    of instructions and of the calls they make.  The files of the gas table, the
    instructions, the jump table, the interpreter and the calls prove that every
    operation meets its specification. *)

From S2P Require Import Prelude.
From S2P Require Import Uint256.
From S2P Require Import OpCodes.
From S2P Require Import Common.
From S2P Require Import Params.
From S2P Require Import Crypto.
From S2P Require Import StateInterface.
From S2P Require Import Stack.
From S2P Require Import Memory.
From S2P Require Import Analysis.
From S2P Require Import Machine.

Section invariant.
Context {S : Type} {D : StateDB S} {K : Keccak} {KL : KeccakLaws K} {SP : StateDBSpec S}.
Context {U : Uint256} {UL : Uint256Laws U}.
Context {E : EVM S}.

Definition berlin : Prop := rIsBerlin chainRules = true.

(** Under EIP-2929 the address is warm. *)
Definition warm (e : EVMState S) (a : Address) : Prop :=
  berlin -> in_access_list (evm_StateDB e) a = true.

(** A shared map only holds analyses of the programs with the hash. *)
Definition map_ok (m : gmap Hash bitvec) : Prop :=
  forall h a, m !! h = Some a -> exists code, keccak256 code = h /\ codeBitmap code = Ret a.

Record evm_ok (e : EVMState S) : Prop := {
  ok_sdb : sdb_ok (evm_StateDB e);
  ok_callGasTemp : is_u64 (callGasTemp e);
  ok_returnData : zlen (returnData e) < 2 ^ 60;
  ok_jumpmaps : forall j m, jumpmaps e !! j = Some m -> map_ok m;
  ok_depth : depth e <= CallCreateDepth + 1
}.

Record evm_ext (e e' : EVMState S) : Prop := {
  ext_sdb : sdb_ext (evm_StateDB e) (evm_StateDB e');
  ext_depth : depth e' = depth e;
  ext_readOnly : readOnly e' = readOnly e;
  ext_jumpmaps : (length (jumpmaps e) <= length (jumpmaps e'))%nat
}.

Record contract_ok (e : EVMState S) (c : Contract) : Prop := {
  ok_Gas : is_u64 (Gas c);
  ok_Code : zlen (Code c) < 2 ^ 60;
  ok_Input : zlen (Input c) < 2 ^ 60;
  ok_analysis : forall a, analysis c = Some a -> codeBitmap (Code c) = Ret a;
  ok_CodeHash : CodeHash c <> 0 -> Code c = [] \/ CodeHash c = keccak256 (Code c);
  ok_jumpdests : (jumpdests c < length (jumpmaps e))%nat;
  ok_value : value c <> None;
  ok_warm : warm e (self c)
}.

(** The fields of a contract a frame never changes. *)
Record contract_same (c c' : Contract) : Prop := {
  same_CallerAddress : CallerAddress c' = CallerAddress c;
  same_caller : caller c' = caller c;
  same_self : self c' = self c;
  same_jumpdests : jumpdests c' = jumpdests c;
  same_Code : Code c' = Code c;
  same_CodeHash : CodeHash c' = CodeHash c;
  same_Input : Input c' = Input c;
  same_value : value c' = value c
}.

(** The total fee of a memory of [w] words. *)
Definition memory_fee (w : Z) : Z := w * MemoryGas + w * w / QuadCoeffDiv.

Record mem_ok (m : Memory) : Prop := {
  ok_Len : Memory_Len m <= MaxMemory;
  ok_words : Memory_Len m mod 32 = 0;
  ok_lastGasCost : lastGasCost m = memory_fee (Memory_Len m / 32)
}.

(** What holds between any two instructions. *)
Record frame_ok (f : Frame S) : Prop := {
  ok_stack : stack_ok (fr_stack f);
  ok_limit : zlen (fr_stack f) <= StackLimit;
  ok_mem : mem_ok (fr_mem f);
  ok_contract : contract_ok (fr_evm f) (fr_contract f);
  ok_evm : evm_ok (fr_evm f);
  ok_pc : is_u64 (fr_pc f)
}.

(** The part of it that also holds when a frame is left with an error. *)
Record frame_done (f f' : Frame S) : Prop := {
  done_same : contract_same (fr_contract f) (fr_contract f');
  done_contract : contract_ok (fr_evm f') (fr_contract f');
  done_evm : evm_ok (fr_evm f');
  done_ext : evm_ext (fr_evm f) (fr_evm f')
}.

(** After an instruction started in [f], whose gas may exceed the one of [f]
    by [slack] (the gas set aside for a call). *)
Definition op_post (slack : Z) (f : Frame S) (r : list byte * option error) (f' : Frame S) : Prop :=
  frame_done f f' /\ zlen r.1 < 2 ^ 60 /\
  Gas (fr_contract f') <= Gas (fr_contract f) + slack /\
  (r.2 = None -> frame_ok f').

(** The instruction [e], which takes [pops] items and leaves [pushes], run
    where its stack requirements and [Pre] hold. *)
Definition exec_ok (e : executionFunc S) (pops pushes : Z) (Pre : Frame S -> Prop)
    (slack : Frame S -> Z) : Prop :=
  forall f, frame_ok f -> pops <= zlen (fr_stack f) ->
    zlen (fr_stack f) - pops + pushes <= StackLimit ->
    fr_pc f < zlen (Code (fr_contract f)) -> Pre f ->
    wp refund_panic (e) (op_post (slack f) f) f.

Definition no_pre (f : Frame S) : Prop := True.
Definition no_slack (f : Frame S) : Z := 0.

(** ** The calls an instruction makes *)

Definition caller_ok (e : EVMState S) (r : ContractRef) : Prop :=
  warm e (ref_Address r) /\
  match r with
  | AccountRef _ => True
  | ParentContract _ _ v j => v <> None /\ (j < length (jumpmaps e))%nat
  end.

Definition is_contract (r : ContractRef) : Prop :=
  match r with AccountRef _ => False | ParentContract _ _ _ _ => True end.

(** After a call with [gas]. *)
Definition call_post (gas : Z) (e : EVMState S) (ret : list byte) (gasLeft : Z) (e' : EVMState S) : Prop :=
  evm_ok e' /\ evm_ext e e' /\ 0 <= gasLeft <= gas /\ zlen ret < 2 ^ 60.

Definition call_pre (dmin gmax gas : Z) (r : ContractRef) (input : list byte) (e : EVMState S) : Prop :=
  evm_ok e /\ dmin <= depth e /\ is_u64 gas /\ gas < gmax /\ caller_ok e r /\ zlen input < 2 ^ 60.

(** What an instruction may rely on when it calls, at depth [dmin] or deeper and
    with less than [gmax] gas. *)
Class CallsSpec (dmin gmax : Z) (C : Calls S) : Prop := {
  Call_ok r a input gas v e :
    call_pre dmin gmax gas r input e -> warm e a -> 0 <= v ->
    wp refund_panic (evm_Call r a input gas v)
      (fun '(ret, gasLeft, _) => call_post gas e ret gasLeft) e;
  CallCode_ok r a input gas v e :
    call_pre dmin gmax gas r input e ->
    wp refund_panic (evm_CallCode r a input gas v)
      (fun '(ret, gasLeft, _) => call_post gas e ret gasLeft) e;
  DelegateCall_ok r a input gas e :
    call_pre dmin gmax gas r input e -> is_contract r ->
    wp refund_panic (evm_DelegateCall r a input gas)
      (fun '(ret, gasLeft, _) => call_post gas e ret gasLeft) e;
  StaticCall_ok r a input gas e :
    call_pre dmin gmax gas r input e -> warm e a ->
    wp refund_panic (evm_StaticCall r a input gas)
      (fun '(ret, gasLeft, _) => call_post gas e ret gasLeft) e;
  Create_ok r code gas v e :
    call_pre dmin gmax gas r code e -> 0 <= v ->
    wp refund_panic (evm_Create r code gas v)
      (fun '(ret, _, gasLeft, _) => call_post gas e ret gasLeft) e;
  Create2_ok r code gas v salt e :
    call_pre dmin gmax gas r code e -> is_u256 salt -> 0 <= v ->
    wp refund_panic (evm_Create2 r code gas v salt)
      (fun '(ret, _, gasLeft, _) => call_post gas e ret gasLeft) e
}.

(** ** Lemmas *)

Lemma wp_no_panic {T A} ok (m : GM T A) Q s : wp no_panic m Q s -> wp ok m Q s.
Proof. unfold wp, no_panic. destruct (m s) as [[a s']| |]; done. Qed.

#[export] Instance evm_ext_preorder : PreOrder evm_ext.
Proof.
  split.
  - intros e. split; done.
  - intros e1 e2 e3 [H1 H2 H3 H4] [G1 G2 G3 G4]. split; [by etrans|congruence|congruence|lia].
Qed.

#[export] Instance contract_same_preorder : PreOrder contract_same.
Proof.
  split.
  - intros c. by split.
  - intros c1 c2 c3 [] []. split; congruence.
Qed.

Lemma warm_ext e e' a : evm_ext e e' -> warm e a -> warm e' a.
Proof. intros He Hw Hb. eapply access_list_ext; [apply He|]. by apply Hw. Qed.

Lemma contract_ok_ext e e' c : evm_ext e e' -> contract_ok e c -> contract_ok e' c.
Proof.
  intros He []. split; try done.
  - pose proof (ext_jumpmaps _ _ He). lia.
  - by eapply warm_ext.
Qed.

Lemma caller_ok_ext e e' r : evm_ext e e' -> caller_ok e r -> caller_ok e' r.
Proof.
  intros He [H1 H2]. split; [by eapply warm_ext|]. pose proof (ext_jumpmaps _ _ He).
  destruct r; [done|]. destruct H2. split; [done|lia].
Qed.

Lemma as_caller_ok e c : contract_ok e c -> caller_ok e (as_caller c).
Proof. intros []. by split. Qed.

Lemma frame_done_refl f : frame_ok f -> frame_done f f.
Proof. intros []. by split. Qed.

Lemma frame_done_trans f1 f2 f3 : frame_done f1 f2 -> frame_done f2 f3 -> frame_done f1 f3.
Proof. intros [] []. split; [by etrans|done|done|by etrans]. Qed.

(** *** Running database code inside a frame *)

Lemma wp_sdb {A} ok (m : GM S A) P Q (f : Frame S) :
  wp ok m P (evm_StateDB (fr_evm f)) ->
  (forall a s', P a s' -> Q a (set_evm (set_sdb s' (fr_evm f)) f)) ->
  wp ok (sdb m) Q f.
Proof.
  intros Hm HQ. unfold sdb, on_evm, on_sdb. do 2 apply wp_gzoom.
  eapply wp_mono; [exact Hm|]. intros a s' H. by apply HQ.
Qed.

Lemma getter_mutator {A} (m : GM S A) : sdb_getter m -> sdb_mutator m.
Proof.
  intros H s Hs. eapply wp_mono; [by apply H|]. intros a s' (? & ? & ?). split_and!; try done.
  intros b. by apply balance_equiv.
Qed.

Lemma SubRefund_wp {T} g (Q : T -> S -> Prop) s m :
  sdb_ok s -> (forall u s', sdb_ok s' -> sdb_ext s s' -> wp refund_panic (m u) Q s') ->
  wp refund_panic (gbind (SubRefund g) m) Q s.
Proof.
  intros Hs Hk. apply wp_gbind. eapply wp_mono; [by apply SubRefund_ok|].
  intros u s' [? ?]. by apply Hk.
Qed.

Lemma evm_ok_sdb e s' : evm_ok e -> sdb_ok s' -> evm_ok (set_sdb s' e).
Proof. by intros [] Hs; split. Qed.

Lemma evm_ext_sdb e s' : sdb_ext (evm_StateDB e) s' -> evm_ext e (set_sdb s' e).
Proof. by intros H; split. Qed.

(** A contract whose gas changed. *)
Lemma contract_ok_Gas e c g : contract_ok e c -> is_u64 g -> contract_ok e (set_Gas g c).
Proof. by intros [] Hg; split. Qed.

Lemma contract_same_Gas c g : contract_same c (set_Gas g c).
Proof. by split. Qed.

(** [UseGas] subtracts, or refuses and leaves the gas alone. *)
Lemma UseGas_spec c gas :
  is_u64 (Gas c) -> is_u64 gas ->
  UseGas gas c = if Gas c <? gas then Ret (false, c) else Ret (true, set_Gas (Gas c - gas) c).
Proof.
  intros Hc Hg. unfold UseGas. destruct (Gas c <? gas) eqn:E1; [done|]. zbool.
  rewrite u64_small; [done|]. unfold is_u64 in *. lia.
Qed.
End invariant.

#[export] Hint Resolve contract_ok_Gas contract_same_Gas : r5.
#[export] Hint Resolve getter_mutator : sdb.
