(* ===== verification/GasTable.v ===== *)
(** * Dynamic gas (client/core/vm/gas.go, gas_table.go, operations_acl.go)

    The gas functions of the jump table.  They charge for memory expansion, for
    copied words, for storage writes (legacy, EIP-1283, EIP-2200, EIP-2929) and
    for calls (the 63/64 rule of EIP-150); some of them change the refund
    counter or the access list, and the call variants leave the gas of the
    callee in [callGasTemp]. *)

From S2P Require Import Prelude.
From S2P Require Import Uint256.
From S2P Require Import OpCodes.
From S2P Require Import Common.
From S2P Require Import Params.
From S2P Require Import Crypto.
From S2P Require Import StateInterface.
From S2P Require Import Stack.
From S2P Require Import Memory.
From S2P Require Import Analysis.
From S2P Require Import Machine.
From S2P Require Import Invariant.

(** ** client/core/vm/gas.go *)

Definition GasQuickStep : Z := 2.
Definition GasFastestStep : Z := 3.
Definition GasFastStep : Z := 5.
Definition GasMidStep : Z := 8.
Definition GasSlowStep : Z := 10.
Definition GasExtStep : Z := 20.

Definition callGas {U : Uint256} (isEip150 : bool) (availableGas base callCost : Z) : Z * option error :=
  let plain :=
    if negb (u256_IsUint64 callCost) then (0, Some ErrGasUintOverflow)
    else (u256_Uint64 callCost, None) in
  if isEip150 then
    let availableGas := u64 (availableGas - base) in
    let gas := u64 (availableGas - availableGas / 64) in
    if negb (u256_IsUint64 callCost) || (gas <? u256_Uint64 callCost) then (gas, None) else plain
  else plain.

(** ** client/core/vm/gas_table.go *)

Definition memoryGasCost (newMemSize : Z) : GM Memory (Z * option error) :=
  fun mem =>
    if newMemSize =? 0 then Ret ((0, None), mem)
    else if newMemSize >? 0x1FFFFFFFE0 then Ret ((0, Some ErrGasUintOverflow), mem)
    else
      let newMemSizeWords := toWordSize newMemSize in
      let newMemSize := u64 (newMemSizeWords * 32) in
      if newMemSize >? Memory_Len mem then
        let square := u64 (newMemSizeWords * newMemSizeWords) in
        let linCoef := u64 (newMemSizeWords * MemoryGas) in
        let quadCoef := square / QuadCoeffDiv in
        let newTotalFee := u64 (linCoef + quadCoef) in
        let fee := u64 (newTotalFee - lastGasCost mem) in
        Ret ((fee, None), mkMemory (mem_store mem) newTotalFee)
      else Ret ((0, None), mem).

Section gas_table.
Context {S : Type} {D : StateDB S} {U : Uint256} {E : EVM S}.

Definition gas_fail (err : error) : GM (Frame S) (Z * option error) := gret (0, Some err).
Definition gas_of (gas : Z) : GM (Frame S) (Z * option error) := gret (gas, None).

(** [gas, overflow := f; if overflow { return 0, ErrGasUintOverflow }]. *)
Definition checked (r : Z * bool) (k : Z -> GM (Frame S) (Z * option error))
    : GM (Frame S) (Z * option error) :=
  let '(gas, overflow) := r in
  if overflow then gas_fail ErrGasUintOverflow else k gas.

(** [gas, err := memoryGasCost(mem, memorySize); if err != nil { return 0, err }]. *)
Definition with_memoryGas (memorySize : Z) (k : Z -> GM (Frame S) (Z * option error))
    : GM (Frame S) (Z * option error) :=
  let* r := on_mem (memoryGasCost memorySize) in
  match r with
  | (_, Some err) => gas_fail err
  | (gas, None) => k gas
  end.

Definition memoryCopierGas (stackpos : Z) : gasFunc S := fun memorySize =>
  with_memoryGas memorySize (fun gas =>
  let* w := back stackpos in
  checked (u256_Uint64WithOverflow w) (fun words =>
  checked (SafeMul (toWordSize words) CopyGas) (fun words =>
  checked (SafeAdd gas words) gas_of))).

Definition gasCallDataCopy : gasFunc S := memoryCopierGas 2.
Definition gasCodeCopy : gasFunc S := memoryCopierGas 2.
Definition gasExtCodeCopy : gasFunc S := memoryCopierGas 3.
Definition gasReturnDataCopy : gasFunc S := memoryCopierGas 2.

Definition contractAddress : GM (Frame S) Address :=
  gget (fun f => Contract_Address (fr_contract f)).

Definition gasSStore : gasFunc S := fun _ =>
  let* y := back 1 in
  let* x := back 0 in
  let* addr := contractAddress in
  let* current := sdb (GetState addr (u256_Bytes32 x)) in
  if rIsPetersburg chainRules || negb (rIsConstantinople chainRules) then
    if (current =? 0) && negb (u256_Sign y =? 0) then gas_of SstoreSetGas
    else if negb (current =? 0) && (u256_Sign y =? 0) then
      sdb (AddRefund SstoreRefundGas) ;;;
      gas_of SstoreClearGas
    else gas_of SstoreResetGas
  else
    let value := u256_Bytes32 y in
    if current =? value then gas_of NetSstoreNoopGas
    else
      let* original := sdb (GetCommittedState addr (u256_Bytes32 x)) in
      if original =? current then
        if original =? 0 then gas_of NetSstoreInitGas
        else
          (if value =? 0 then sdb (AddRefund NetSstoreClearRefund) else gret tt) ;;;
          gas_of NetSstoreCleanGas
      else
        (if negb (original =? 0) then
           if current =? 0 then sdb (SubRefund NetSstoreClearRefund)
           else if value =? 0 then sdb (AddRefund NetSstoreClearRefund) else gret tt
         else gret tt) ;;;
        (if original =? value then
           if original =? 0 then sdb (AddRefund NetSstoreResetClearRefund)
           else sdb (AddRefund NetSstoreResetRefund)
         else gret tt) ;;;
        gas_of NetSstoreDirtyGas.

Definition gasSStoreEIP2200 : gasFunc S := fun _ =>
  let* c := contract in
  if Gas c <=? SstoreSentryGasEIP2200 then gas_fail ErrSentry
  else
    let* y := back 1 in
    let* x := back 0 in
    let* addr := contractAddress in
    let* current := sdb (GetState addr (u256_Bytes32 x)) in
    let value := u256_Bytes32 y in
    if current =? value then gas_of SloadGasEIP2200
    else
      let* original := sdb (GetCommittedState addr (u256_Bytes32 x)) in
      if original =? current then
        if original =? 0 then gas_of SstoreSetGasEIP2200
        else
          (if value =? 0 then sdb (AddRefund SstoreClearsScheduleRefundEIP2200) else gret tt) ;;;
          gas_of SstoreResetGasEIP2200
      else
        (if negb (original =? 0) then
           if current =? 0 then sdb (SubRefund SstoreClearsScheduleRefundEIP2200)
           else if value =? 0 then sdb (AddRefund SstoreClearsScheduleRefundEIP2200) else gret tt
         else gret tt) ;;;
        (if original =? value then
           if original =? 0 then sdb (AddRefund (SstoreSetGasEIP2200 - SloadGasEIP2200))
           else sdb (AddRefund (SstoreResetGasEIP2200 - SloadGasEIP2200))
         else gret tt) ;;;
        gas_of SloadGasEIP2200.

Definition makeGasLog (n : Z) : gasFunc S := fun memorySize =>
  let* size := back 1 in
  checked (u256_Uint64WithOverflow size) (fun requestedSize =>
  with_memoryGas memorySize (fun gas =>
  checked (SafeAdd gas LogGas) (fun gas =>
  checked (SafeAdd gas (u64 (n * LogTopicGas))) (fun gas =>
  checked (SafeMul requestedSize LogDataGas) (fun memorySizeGas =>
  checked (SafeAdd gas memorySizeGas) gas_of))))).

(** The charge per hashed word, of KECCAK256 (operand 1) and CREATE2 (2). *)
Definition gasKeccak256 : gasFunc S := fun memorySize =>
  with_memoryGas memorySize (fun gas =>
  let* w := back 1 in
  checked (u256_Uint64WithOverflow w) (fun wordGas =>
  checked (SafeMul (toWordSize wordGas) Keccak256WordGas) (fun wordGas =>
  checked (SafeAdd gas wordGas) gas_of))).

Definition pureMemoryGascost : gasFunc S := fun memorySize => on_mem (memoryGasCost memorySize).

Definition gasReturn : gasFunc S := pureMemoryGascost.
Definition gasRevert : gasFunc S := pureMemoryGascost.
Definition gasMLoad : gasFunc S := pureMemoryGascost.
Definition gasMStore8 : gasFunc S := pureMemoryGascost.
Definition gasMStore : gasFunc S := pureMemoryGascost.
Definition gasCreate : gasFunc S := pureMemoryGascost.

Definition gasCreate2 : gasFunc S := fun memorySize =>
  with_memoryGas memorySize (fun gas =>
  let* w := back 2 in
  checked (u256_Uint64WithOverflow w) (fun wordGas =>
  checked (SafeMul (toWordSize wordGas) Keccak256WordGas) (fun wordGas =>
  checked (SafeAdd gas wordGas) gas_of))).

Definition gasCreateEip3860 : gasFunc S := fun memorySize =>
  with_memoryGas memorySize (fun gas =>
  let* s := back 2 in
  let '(size, overflow) := u256_Uint64WithOverflow s in
  if overflow || (size >? MaxInitCodeSize) then gas_fail ErrGasUintOverflow
  else
    let moreGas := u64 (InitCodeWordGas * (u64 (size + 31) / 32)) in
    checked (SafeAdd gas moreGas) gas_of).

Definition gasCreate2Eip3860 : gasFunc S := fun memorySize =>
  with_memoryGas memorySize (fun gas =>
  let* s := back 2 in
  let '(size, overflow) := u256_Uint64WithOverflow s in
  if overflow || (size >? MaxInitCodeSize) then gas_fail ErrGasUintOverflow
  else
    let moreGas := u64 ((InitCodeWordGas + Keccak256WordGas) * (u64 (size + 31) / 32)) in
    checked (SafeAdd gas moreGas) gas_of).

Definition gasExpFrontier : gasFunc S := fun _ =>
  let* e := back 1 in
  let expByteLen := (u256_BitLen e + 7) / 8 in
  let gas := u64 (expByteLen * ExpByteFrontier) in
  checked (SafeAdd gas ExpGas) gas_of.

Definition gasExpEIP158 : gasFunc S := fun _ =>
  let* e := back 1 in
  let expByteLen := (u256_BitLen e + 7) / 8 in
  let gas := u64 (expByteLen * ExpByteEIP158) in
  checked (SafeAdd gas ExpGas) gas_of.

(** The common end of the four call variants: set [callGasTemp] and add it. *)
Definition finish_callGas (gas : Z) : GM (Frame S) (Z * option error) :=
  let* c := contract in
  let* callCost := back 0 in
  let '(temp, err) := callGas (rIsEIP150 chainRules) (Gas c) gas callCost in
  on_evm (gput (set_callGasTemp temp)) ;;;
  match err with
  | Some err => gas_fail err
  | None => checked (SafeAdd gas temp) gas_of
  end.

Definition gasCall : gasFunc S := fun memorySize =>
  let* v := back 2 in
  let* a := back 1 in
  let transfersValue := negb (u256_IsZero v) in
  let address := u256_Bytes20 a in
  let* gas :=
    if rIsEIP158 chainRules then
      if transfersValue then
        let* empty := sdb (Empty address) in
        gret (if empty then CallNewAccountGas else 0)
      else gret 0
    else
      let* exists_ := sdb (Exist address) in
      gret (if negb exists_ then CallNewAccountGas else 0) in
  let gas := if transfersValue then u64 (gas + CallValueTransferGas) else gas in
  with_memoryGas memorySize (fun memoryGas =>
  checked (SafeAdd gas memoryGas) finish_callGas).

Definition gasCallCode : gasFunc S := fun memorySize =>
  with_memoryGas memorySize (fun memoryGas =>
  let* v := back 2 in
  let gas := if negb (u256_Sign v =? 0) then CallValueTransferGas else 0 in
  checked (SafeAdd gas memoryGas) finish_callGas).

Definition gasDelegateCall : gasFunc S := fun memorySize =>
  with_memoryGas memorySize finish_callGas.

Definition gasStaticCall : gasFunc S := fun memorySize =>
  with_memoryGas memorySize finish_callGas.

Definition gasSelfdestruct : gasFunc S := fun _ =>
  let* self := contractAddress in
  let* gas :=
    if rIsEIP150 chainRules then
      let* a := back 0 in
      let address := u256_Bytes20 a in
      if rIsEIP158 chainRules then
        let* empty := sdb (Empty address) in
        if empty then
          let* balance := sdb (GetBalance self) in
          gret (if negb (balance =? 0)
                then u64 (SelfdestructGasEIP150 + CreateBySelfdestructGas) else SelfdestructGasEIP150)
        else gret SelfdestructGasEIP150
      else
        let* exists_ := sdb (Exist address) in
        gret (if negb exists_
              then u64 (SelfdestructGasEIP150 + CreateBySelfdestructGas) else SelfdestructGasEIP150)
    else gret 0 in
  let* suicided := sdb (HasSuicided self) in
  (if negb suicided then sdb (AddRefund SelfdestructRefundGas) else gret tt) ;;;
  gas_of gas.

(** ** client/core/vm/operations_acl.go *)

Definition makeGasSStoreFunc (clearingRefund : Z) : gasFunc S := fun _ =>
  let* c := contract in
  if Gas c <=? SstoreSentryGasEIP2200 then gas_fail ErrSentry
  else
    let* y := back 1 in
    let* x := on_stack stack_peek in
    let* addr := contractAddress in
    let slot := u256_Bytes32 x in
    let* current := sdb (GetState addr slot) in
    let* present := sdb (SlotInAccessList addr slot) in
    let '(addrPresent, slotPresent) := present in
    let* cost :=
      if negb slotPresent then
        sdb (AddSlotToAccessList addr slot) ;;;
        (if negb addrPresent then gpanic PanicAccessList else gret ColdSloadCostEIP2929)
      else gret 0 in
    let value := u256_Bytes32 y in
    if current =? value then gas_of (u64 (cost + WarmStorageReadCostEIP2929))
    else
      let* original := sdb (GetCommittedState addr (u256_Bytes32 x)) in
      if original =? current then
        if original =? 0 then gas_of (u64 (cost + SstoreSetGasEIP2200))
        else
          (if value =? 0 then sdb (AddRefund clearingRefund) else gret tt) ;;;
          gas_of (u64 (cost + (SstoreResetGasEIP2200 - ColdSloadCostEIP2929)))
      else
        (if negb (original =? 0) then
           if current =? 0 then sdb (SubRefund clearingRefund)
           else if value =? 0 then sdb (AddRefund clearingRefund) else gret tt
         else gret tt) ;;;
        (if original =? value then
           if original =? 0 then sdb (AddRefund (SstoreSetGasEIP2200 - WarmStorageReadCostEIP2929))
           else sdb (AddRefund ((SstoreResetGasEIP2200 - ColdSloadCostEIP2929) - WarmStorageReadCostEIP2929))
         else gret tt) ;;;
        gas_of (u64 (cost + WarmStorageReadCostEIP2929)).

Definition gasSLoadEIP2929 : gasFunc S := fun _ =>
  let* loc := on_stack stack_peek in
  let slot := u256_Bytes32 loc in
  let* addr := contractAddress in
  let* present := sdb (SlotInAccessList addr slot) in
  if negb (snd present) then
    sdb (AddSlotToAccessList addr slot) ;;;
    gas_of ColdSloadCostEIP2929
  else gas_of WarmStorageReadCostEIP2929.

Definition gasExtCodeCopyEIP2929 : gasFunc S := fun memorySize =>
  let* r := gasExtCodeCopy memorySize in
  match r with
  | (_, Some err) => gas_fail err
  | (gas, None) =>
      let* a := on_stack stack_peek in
      let addr := u256_Bytes20 a in
      let* warm := sdb (AddressInAccessList addr) in
      if negb warm then
        sdb (AddAddressToAccessList addr) ;;;
        checked (SafeAdd gas (ColdAccountAccessCostEIP2929 - WarmStorageReadCostEIP2929)) gas_of
      else gas_of gas
  end.

Definition gasEip2929AccountCheck : gasFunc S := fun _ =>
  let* a := on_stack stack_peek in
  let addr := u256_Bytes20 a in
  let* warm := sdb (AddressInAccessList addr) in
  if negb warm then
    sdb (AddAddressToAccessList addr) ;;;
    gas_of (ColdAccountAccessCostEIP2929 - WarmStorageReadCostEIP2929)
  else gas_of 0.

Definition makeCallVariantGasCallEIP2929 (oldCalculator : gasFunc S) : gasFunc S := fun memorySize =>
  let* a := back 1 in
  let addr := u256_Bytes20 a in
  let* warmAccess := sdb (AddressInAccessList addr) in
  let coldCost := ColdAccountAccessCostEIP2929 - WarmStorageReadCostEIP2929 in
  let* ok :=
    if negb warmAccess then
      sdb (AddAddressToAccessList addr) ;;;
      on_contract (UseGas coldCost)
    else gret true in
  if negb ok then gas_fail ErrOutOfGas
  else
    let* r := oldCalculator memorySize in
    let '(gas, err) := r in
    if warmAccess || bool_decide (is_Some err) then gret (gas, err)
    else
      on_contract (gput (fun c => set_Gas (u64 (Gas c + coldCost)) c)) ;;;
      gas_of (u64 (gas + coldCost)).

Definition makeSelfdestructGasFn (refundsEnabled : bool) : gasFunc S := fun _ =>
  let* a := on_stack stack_peek in
  let address := u256_Bytes20 a in
  let* self := contractAddress in
  let* warm := sdb (AddressInAccessList address) in
  let* gas :=
    if negb warm then
      sdb (AddAddressToAccessList address) ;;;
      gret ColdAccountAccessCostEIP2929
    else gret 0 in
  let* empty := sdb (Empty address) in
  let* gas :=
    if empty then
      let* balance := sdb (GetBalance self) in
      gret (if negb (balance =? 0) then u64 (gas + CreateBySelfdestructGas) else gas)
    else gret gas in
  (if refundsEnabled then
     let* suicided := sdb (HasSuicided self) in
     if negb suicided then sdb (AddRefund SelfdestructRefundGas) else gret tt
   else gret tt) ;;;
  gas_of gas.

Definition gasCallEIP2929 : gasFunc S := makeCallVariantGasCallEIP2929 gasCall.
Definition gasDelegateCallEIP2929 : gasFunc S := makeCallVariantGasCallEIP2929 gasDelegateCall.
Definition gasStaticCallEIP2929 : gasFunc S := makeCallVariantGasCallEIP2929 gasStaticCall.
Definition gasCallCodeEIP2929 : gasFunc S := makeCallVariantGasCallEIP2929 gasCallCode.
Definition gasSelfdestructEIP2929 : gasFunc S := makeSelfdestructGasFn true.
Definition gasSelfdestructEIP3529 : gasFunc S := makeSelfdestructGasFn false.
Definition gasSStoreEIP2929 : gasFunc S := makeGasSStoreFunc SstoreClearsScheduleRefundEIP2200.
Definition gasSStoreEIP3529 : gasFunc S := makeGasSStoreFunc SstoreClearsScheduleRefundEIP3529.
End gas_table.

(** ** Lemmas: memory gas *)

Lemma memory_fee_mono v w : 0 <= v <= w -> 0 <= memory_fee v <= memory_fee w.
Proof.
  intros H. unfold memory_fee, MemoryGas, QuadCoeffDiv.
  assert (v * v <= w * w) by nia.
  pose proof (Z.div_le_mono (v * v) (w * w) 512 ltac:(lia) ltac:(lia)).
  pose proof (Z.div_pos (v * v) 512 ltac:(nia) ltac:(lia)). lia.
Qed.

Lemma memory_fee_bound w : 0 <= w <= 0xFFFFFFFF -> 0 <= memory_fee w < 2 ^ 56.
Proof.
  intros H. split; [pose proof (memory_fee_mono w w ltac:(lia)); lia|].
  eapply Z.le_lt_trans; [apply (memory_fee_mono w 0xFFFFFFFF); lia|].
  vm_compute. reflexivity.
Qed.

(** The memory a gas function leaves behind: the same bytes, paid up to [ms]. *)
Definition paid (ms : Z) (m : Memory) : Memory :=
  mkMemory (mem_store m) (memory_fee (Z.max (Memory_Len m) ms / 32)).

Lemma paid_ok m : mem_ok m -> paid 0 m = m.
Proof.
  intros [H1 H2 H3]. destruct m as [st last]. unfold paid. cbn in *. f_equal.
  rewrite Z.max_l by apply Memory_Len_nonneg. done.
Qed.

(** [memoryGasCost] is the quadratic formula: no step of its 64-bit arithmetic
    wraps, the fee is the difference of the total fees, and the only refusal is
    a size beyond [0x1FFFFFFFE0]. *)
Lemma memoryGasCost_spec ms m :
  mem_ok m -> is_u64 ms -> ms mod 32 = 0 ->
  memoryGasCost ms m =
    if ms >? MaxMemory then Ret ((0, Some ErrGasUintOverflow), m)
    else Ret ((memory_fee (Z.max (Memory_Len m) ms / 32) - memory_fee (Memory_Len m / 32), None),
              paid ms m).
Proof.
  intros [H1 H2 H3] Hms Hdiv. unfold memoryGasCost. pose proof (Memory_Len_nonneg m) as Hl.
  unfold MaxMemory in *.
  destruct (Z.eqb_spec ms 0) as [->|Hnz].
  { cbn [Z.gtb Z.compare]. rewrite Z.max_l by done. rewrite Z.sub_diag.
    unfold paid. rewrite Z.max_l, <- H3 by done. by destruct m. }
  destruct (ms >? 0x1FFFFFFFE0) eqn:E; [done|]. zbool. unfold is_u64, two64 in Hms.
  rewrite toWordSize_spec by ulia.
  assert ((ms + 31) / 32 = ms / 32) as ->.
  { rewrite (Z.div_mod ms 32) at 1 by lia. rewrite Hdiv.
    replace (32 * (ms / 32) + 0 + 31) with (31 + (ms / 32) * 32) by lia.
    rewrite Z.div_add by lia. done. }
  pose proof (Z.div_mod ms 32 ltac:(lia)) as Hd. rewrite Hdiv in Hd.
  set (w := ms / 32) in *. assert (0 <= w <= 0xFFFFFFFF) as Hw by lia.
  rewrite (u64_small (w * 32)) by ulia. replace (w * 32) with ms by lia.
  destruct (ms >? Memory_Len m) eqn:E2; zbool.
  - rewrite Z.max_r by lia. fold w.
    rewrite (u64_small (w * w)) by (unfold is_u64, two64; nia).
    pose proof (memory_fee_bound w Hw) as Hb.
    assert (0 <= Memory_Len m / 32 <= w) as Hlw.
    { split; [apply Z.div_pos; lia|]. apply Z.div_le_mono; lia. }
    pose proof (memory_fee_mono _ _ Hlw) as Hm.
    unfold memory_fee at 1 in Hb. unfold MemoryGas, QuadCoeffDiv in *.
    rewrite (u64_small (w * 3)) by ulia.
    rewrite (u64_small (w * 3 + _)) by (unfold is_u64, two64; unfold memory_fee, MemoryGas, QuadCoeffDiv in Hb; lia).
    change (w * 3 + w * w / 512) with (memory_fee w).
    rewrite H3. rewrite u64_small by (unfold is_u64, two64; lia).
    unfold paid. rewrite Z.max_r by lia. done.
  - rewrite Z.max_l by lia. rewrite Z.sub_diag. unfold paid.
    rewrite Z.max_l, <- H3 by lia. by destruct m.
Qed.

Lemma memory_fee_delta_bound ms m :
  mem_ok m -> 0 <= ms <= MaxMemory ->
  0 <= memory_fee (Z.max (Memory_Len m) ms / 32) - memory_fee (Memory_Len m / 32) < 2 ^ 56.
Proof.
  intros [H1 H2 H3] Hms. unfold MaxMemory in *. pose proof (Memory_Len_nonneg m).
  assert (0 <= Memory_Len m / 32 <= Z.max (Memory_Len m) ms / 32) as Hle.
  { split; [apply Z.div_pos; lia|]. apply Z.div_le_mono; lia. }
  assert (Z.max (Memory_Len m) ms / 32 <= 0xFFFFFFFF) as Hub.
  { change 0xFFFFFFFF with (0x1FFFFFFFE0 / 32). apply Z.div_le_mono; lia. }
  pose proof (memory_fee_mono _ _ Hle).
  pose proof (memory_fee_bound (Z.max (Memory_Len m) ms / 32) ltac:(lia)). lia.
Qed.

(** Paying and then resizing restores the memory invariant. *)
Lemma paid_Resize m ms m' :
  mem_ok m -> 0 <= ms <= MaxMemory -> ms mod 32 = 0 ->
  Memory_Resize ms (paid ms m) = Ret (tt, m') ->
  mem_ok m' /\ Memory_Len m' = Z.max (Memory_Len m) ms.
Proof.
  intros [H1 H2 H3] Hms Hd Hr. destruct (Memory_Resize_ok (paid ms m) ms) as (m'' & Hr' & Hl & Hg).
  rewrite Hr in Hr'. injection Hr' as <-.
  change (Memory_Len (paid ms m)) with (Memory_Len m) in Hl. cbn in Hg.
  split; [|done]. split.
  - lia.
  - rewrite Hl. destruct (Z.max_spec (Memory_Len m) ms) as [[_ ->]|[_ ->]]; done.
  - rewrite Hg, Hl. done.
Qed.

(** ** Lemmas: gas functions *)

Section gas_lemmas.
Context {S : Type} {D : StateDB S} {K : Keccak} {KL : KeccakLaws K} {SP : StateDBSpec S}.
Context {U : Uint256} {UL : Uint256Laws U} {E : EVM S}.

(** Between the steps of a gas function started in [f]: everything but the
    database, [callGasTemp] and the memory's fee is as it was. *)
Record gas_mid (m : Memory) (f f' : Frame S) : Prop := {
  mid_done : frame_done f f';
  mid_pc : fr_pc f' = fr_pc f;
  mid_stack : fr_stack f' = fr_stack f;
  mid_mem : fr_mem f' = m;
  mid_Gas : Gas (fr_contract f') = Gas (fr_contract f)
}.

(** After a gas function: on success the gas is a 64-bit value with [P], the
    memory is paid up to [ms]; on failure the frame can be left. *)
Definition gas_post (ms : Z) (P : Z -> Frame S -> Prop) (f : Frame S)
    (r : Z * option error) (f' : Frame S) : Prop :=
  match r.2 with
  | Some _ => frame_done f f' /\ Gas (fr_contract f') <= Gas (fr_contract f)
  | None => gas_mid (paid ms (fr_mem f)) f f' /\ is_u64 r.1 /\ 0 <= ms <= MaxMemory /\ P r.1 f'
  end.

(** The gas function [g], which reads the [need] topmost items. *)
Definition gas_ok (g : gasFunc S) (need : Z) (P : Frame S -> Z -> Frame S -> Prop) : Prop :=
  forall f ms, frame_ok f -> need <= zlen (fr_stack f) -> is_u64 ms -> ms mod 32 = 0 ->
    wp refund_panic (g ms) (gas_post ms (P f) f) f.

(** The same for a gas function that does not look at the memory size. *)
Definition gas_ok0 (g : gasFunc S) (need : Z) (P : Frame S -> Z -> Frame S -> Prop) : Prop :=
  forall f, frame_ok f -> need <= zlen (fr_stack f) ->
    wp refund_panic (g 0) (gas_post 0 (P f) f) f.

Definition any_gas (f : Frame S) (gas : Z) (f' : Frame S) : Prop := True.
Definition pos_gas (f : Frame S) (gas : Z) (f' : Frame S) : Prop := 0 < gas.

Lemma gas_mid_refl f : frame_ok f -> gas_mid (fr_mem f) f f.
Proof. intros H. split; try done. by apply frame_done_refl. Qed.

Lemma gas_mid_sdb m f f' s' :
  gas_mid m f f' -> sdb_ok s' -> sdb_ext (evm_StateDB (fr_evm f')) s' ->
  gas_mid m f (set_evm (set_sdb s' (fr_evm f')) f').
Proof.
  intros [[H1 H2 H3 H4] Hpc Hst Hm Hg] Hs He. split; try done. cbn.
  assert (evm_ext (fr_evm f') (set_sdb s' (fr_evm f'))) by by apply evm_ext_sdb.
  split; cbn; [done| |by apply evm_ok_sdb|by etrans].
  by eapply contract_ok_ext.
Qed.

Lemma gas_mid_temp m f f' g :
  gas_mid m f f' -> is_u64 g -> gas_mid m f (set_evm (set_callGasTemp g (fr_evm f')) f').
Proof.
  intros [[H1 [] [] []] Hpc Hst Hm Hg] Hs. by split.
Qed.

Lemma wp_gas_sdb {A} (op : GM S A) m f f' Q :
  sdb_mutator op -> gas_mid m f f' ->
  (forall a f'', gas_mid m f f'' -> wp refund_panic (gret (S:=Frame S) a) Q f'') ->
  wp refund_panic (sdb op) Q f'.
Proof.
  intros Hop Hm HQ. eapply wp_sdb.
  - apply wp_no_panic. apply Hop. apply Hm.
  - intros a s' (Hs & He & _). apply (HQ a). by apply gas_mid_sdb.
Qed.

Lemma wp_gas_SubRefund m f f' g Q :
  gas_mid m f f' -> (forall a f'', gas_mid m f f'' -> Q a f'') ->
  wp refund_panic (sdb (SubRefund g)) Q f'.
Proof.
  intros Hm HQ. eapply wp_sdb; [apply SubRefund_ok, Hm|].
  intros a s' [Hs He]. apply HQ. by apply gas_mid_sdb.
Qed.

Lemma wp_back m f f' n Q :
  frame_ok f -> gas_mid m f f' -> 0 <= n < zlen (fr_stack f) ->
  (forall x, stack_Back (fr_stack f) n = Ret x -> is_u256 x -> Q x f') ->
  wp refund_panic (back n) Q f'.
Proof.
  intros Hf Hm Hn HQ. destruct (stack_Back_ok (fr_stack f) n) as (x & Hx & Hr); [apply Hf|done|].
  unfold wp, back, gpure. rewrite (mid_stack _ _ _ Hm), Hx. by apply HQ.
Qed.

Lemma wp_peek m f f' Q :
  frame_ok f -> gas_mid m f f' -> 0 < zlen (fr_stack f) ->
  (forall x, stack_Back (fr_stack f) 0 = Ret x -> is_u256 x -> Q x f') ->
  wp refund_panic (on_stack stack_peek) Q f'.
Proof.
  intros Hf Hm Hn HQ. destruct (stack_Back_ok (fr_stack f) 0) as (x & Hx & Hr); [apply Hf|lia|].
  destruct f' as [pc st mem c e]. unfold on_stack, gzoom, stack_peek, wp. cbn.
  pose proof (mid_stack _ _ _ Hm) as Hs. cbn in Hs. subst st.
  destruct (fr_stack f) as [|y tl] eqn:Est; [done|].
  rewrite stack_Back_0 in Hx. injection Hx as <-. by apply HQ; [rewrite stack_Back_0|].
Qed.

Lemma gas_fail_ok m f f' ms P err :
  gas_mid m f f' -> wp refund_panic (gas_fail err) (gas_post ms P f) f'.
Proof. intros []. apply wp_gret. split; [done|]. cbn. lia. Qed.

Lemma gas_of_ok f f' ms P gas :
  gas_mid (paid ms (fr_mem f)) f f' -> is_u64 gas -> 0 <= ms <= MaxMemory -> P gas f' ->
  wp refund_panic (gas_of gas) (gas_post ms P f) f'.
Proof. intros. apply wp_gret. unfold gas_post. cbn [fst snd]. done. Qed.

Lemma gas_of_ok0 f f' P gas :
  frame_ok f -> gas_mid (fr_mem f) f f' -> is_u64 gas -> P gas f' ->
  wp refund_panic (gas_of gas) (gas_post 0 P f) f'.
Proof.
  intros Hf Hm Hg HP. apply gas_of_ok; [|done|unfold MaxMemory; lia|done].
  rewrite paid_ok by apply Hf. done.
Qed.

Lemma checked_ok m f f' ms P r k :
  gas_mid m f f' ->
  (forall gas, r = (gas, false) -> wp refund_panic (k gas) (gas_post ms P f) f') ->
  wp refund_panic (checked r k) (gas_post ms P f) f'.
Proof.
  intros Hm Hk. destruct r as [gas [|]]; unfold checked; [by apply (gas_fail_ok m) | by apply Hk].
Qed.

(** Charging for memory, as the first step that touches it. *)
Lemma memoryGas_ok f f' ms P k :
  frame_ok f -> gas_mid (fr_mem f) f f' -> is_u64 ms -> ms mod 32 = 0 ->
  (forall gas f'', gas_mid (paid ms (fr_mem f)) f f'' -> evm_ext (fr_evm f') (fr_evm f'') ->
     0 <= gas < 2 ^ 56 -> 0 <= ms <= MaxMemory ->
     wp refund_panic (k gas) (gas_post ms P f) f'') ->
  wp refund_panic (with_memoryGas ms k) (gas_post ms P f) f'.
Proof.
  intros Hf Hm Hms Hd Hk. unfold with_memoryGas. apply wp_gbind. apply wp_gzoom.
  rewrite (mid_mem _ _ _ Hm). unfold wp at 1.
  rewrite memoryGasCost_spec by (done || apply Hf).
  destruct (ms >? MaxMemory) eqn:Em; zbool.
  - apply (gas_fail_ok (fr_mem f)). destruct Hm as [[] ? ? ? ?]. by split.
  - assert (0 <= ms <= MaxMemory) by (unfold is_u64 in *; lia). apply Hk; [|done| |done].
    + destruct Hm as [[] ? ? ? ?]. by split.
    + apply memory_fee_delta_bound; [apply Hf | done].
Qed.

Lemma pureMemoryGascost_ok : gas_ok pureMemoryGascost 0 any_gas.
Proof.
  intros f ms Hf _ Hms Hd.
  assert (wp refund_panic (with_memoryGas ms gas_of) (gas_post ms (any_gas f) f) f) as H.
  { apply memoryGas_ok; [done|by apply gas_mid_refl|done..|].
    intros gas f'' Hm _ Hg Hr. apply gas_of_ok; [done|ulia|done..]. }
  revert H. unfold pureMemoryGascost, with_memoryGas, wp, gbind.
  destruct (on_mem (memoryGasCost ms) f) as [[[gas [err|]] f']|p|] eqn:Er; cbn; try done.
Qed.
End gas_lemmas.

(** ** Lemmas: the gas functions of the table *)

(** One step through the body of a gas function. *)
Ltac gas_step :=
  lazymatch goal with
  | |- wp _ (gbind (back _) _) _ _ =>
      apply wp_gbind; eapply wp_back; [eassumption|eassumption|lia|intros ? ? ?]
  | |- wp _ (gbind (on_stack stack_peek) _) _ _ =>
      apply wp_gbind; eapply wp_peek; [eassumption|eassumption|lia|intros ? ? ?]
  | |- wp _ (gbind (sdb (SubRefund _)) _) _ _ =>
      apply wp_gbind; eapply wp_gas_SubRefund; [eassumption|intros ? ? ?]
  | |- wp _ (gbind (sdb _) _) _ _ =>
      apply wp_gbind; eapply wp_gas_sdb; [solve [eauto with sdb]|eassumption|intros ? ? ?; apply wp_gret]
  | |- wp _ (sdb (SubRefund _)) _ _ => eapply wp_gas_SubRefund; [eassumption|intros ? ? ?]
  | |- wp _ (sdb _) _ _ =>
      eapply wp_gas_sdb; [solve [eauto with sdb]|eassumption|intros ? ? ?; apply wp_gret]
  | |- wp _ (gbind contract _) _ _ => apply wp_gbind, wp_gget
  | |- wp _ (gbind contractAddress _) _ _ => apply wp_gbind, wp_gget
  | |- wp _ (gbind _ _) _ _ => apply wp_gbind
  | |- wp _ (gret _) _ _ => apply wp_gret
  | |- wp _ (if ?b then _ else _) _ _ => destruct b eqn:?
  | |- wp _ (checked _ _) _ _ => eapply checked_ok; [eassumption|intros ? ?]
  | |- wp _ (gas_fail _) _ _ => eapply gas_fail_ok; eassumption
  | |- wp _ (with_memoryGas _ _) _ _ =>
      eapply memoryGas_ok; [eassumption|eassumption|eassumption|eassumption|intros ? ? ? ? ? ?]
  end.

Ltac const_u64 := split; [vm_compute; congruence | reflexivity].

Section gas_functions.
Context {S : Type} {D : StateDB S} {K : Keccak} {KL : KeccakLaws K} {SP : StateDBSpec S}.
Context {U : Uint256} {UL : Uint256Laws U} {E : EVM S}.

Ltac gas_start :=
  intros f Hf Hneed; pose proof (gas_mid_refl f Hf).
Ltac gas_start_ms :=
  intros f ms Hf Hneed Hms Hdiv; pose proof (gas_mid_refl f Hf).

Lemma gasSStore_ok : gas_ok0 gasSStore 2 pos_gas.
Proof.
  gas_start. unfold gasSStore.
  repeat gas_step; eapply gas_of_ok0; try eassumption; first [const_u64 | reflexivity].
Qed.

Lemma gasSStoreEIP2200_ok : gas_ok0 gasSStoreEIP2200 2 pos_gas.
Proof.
  gas_start. unfold gasSStoreEIP2200.
  repeat gas_step; eapply gas_of_ok0; try eassumption; first [const_u64 | reflexivity].
Qed.

Ltac gas_facts :=
  repeat match goal with
  | H : u256_Uint64WithOverflow ?x = (?w, false), Hx : is_u256 ?x |- _ =>
      apply (Uint64WithOverflow_ok x w Hx) in H as [? ?]
  | H : SafeMul _ _ = (_, false) |- _ =>
      apply SafeMul_ok in H as [? ?]; [|solve [assumption | by apply toWordSize_u64]|const_u64]
  | H : SafeAdd _ _ = (_, false) |- _ =>
      apply SafeAdd_ok in H as [? ?]; [|solve [assumption | ulia]|solve [assumption | const_u64 | ulia]]
  end.

Lemma memoryCopierGas_ok n : 0 <= n -> gas_ok (memoryCopierGas n) (n + 1) any_gas.
Proof.
  intros Hn. gas_start_ms. unfold memoryCopierGas.
  repeat gas_step. gas_facts. eapply gas_of_ok; eassumption || done.
Qed.

Lemma makeGasLog_ok n : 0 <= n <= 4 -> gas_ok (makeGasLog n) 2 pos_gas.
Proof.
  intros Hn. gas_start_ms. unfold makeGasLog. repeat gas_step.
  rewrite (u64_small (n * LogTopicGas)) in * by (unfold LogTopicGas; ulia).
  assert (is_u64 (n * LogTopicGas)) by (unfold LogTopicGas; ulia). gas_facts.
  eapply gas_of_ok; try eassumption. unfold pos_gas, is_u64, LogTopicGas, LogGas in *. lia.
Qed.

Lemma gasKeccak256_ok : gas_ok gasKeccak256 2 any_gas.
Proof.
  gas_start_ms. unfold gasKeccak256. repeat gas_step. gas_facts. eapply gas_of_ok; eassumption || done.
Qed.

Lemma gasCreate2_ok : gas_ok gasCreate2 3 any_gas.
Proof.
  gas_start_ms. unfold gasCreate2. repeat gas_step. gas_facts. eapply gas_of_ok; eassumption || done.
Qed.

Lemma initcode_gas_u64 c size :
  0 <= c <= 100 -> is_u64 size -> size <= MaxInitCodeSize -> is_u64 (u64 (c * (u64 (size + 31) / 32))).
Proof. intros. apply u64_range. Qed.

Lemma gasCreateEip3860_ok : gas_ok gasCreateEip3860 3 any_gas.
Proof.
  gas_start_ms. unfold gasCreateEip3860. repeat gas_step.
  destruct (u256_Uint64WithOverflow _) as [size o] eqn:?; repeat gas_step.
  pose proof (u64_range (InitCodeWordGas * (u64 (size + 31) / 32))). gas_facts.
  eapply gas_of_ok; eassumption || done.
Qed.

Lemma gasCreate2Eip3860_ok : gas_ok gasCreate2Eip3860 3 any_gas.
Proof.
  gas_start_ms. unfold gasCreate2Eip3860. repeat gas_step.
  destruct (u256_Uint64WithOverflow _) as [size o] eqn:?; repeat gas_step.
  pose proof (u64_range ((InitCodeWordGas + Keccak256WordGas) * (u64 (size + 31) / 32))). gas_facts.
  eapply gas_of_ok; eassumption || done.
Qed.

Lemma gasExpFrontier_ok : gas_ok0 gasExpFrontier 2 pos_gas.
Proof.
  gas_start. unfold gasExpFrontier. repeat gas_step.
  pose proof (u64_range ((u256_BitLen x + 7) / 8 * ExpByteFrontier)). gas_facts.
  eapply gas_of_ok0; try eassumption. unfold pos_gas, is_u64, ExpGas in *. lia.
Qed.

Lemma gasExpEIP158_ok : gas_ok0 gasExpEIP158 2 pos_gas.
Proof.
  gas_start. unfold gasExpEIP158. repeat gas_step.
  pose proof (u64_range ((u256_BitLen x + 7) / 8 * ExpByteEIP158)). gas_facts.
  eapply gas_of_ok0; try eassumption. unfold pos_gas, is_u64, ExpGas in *. lia.
Qed.

Lemma gasSelfdestruct_ok : gas_ok0 gasSelfdestruct 1 any_gas.
Proof.
  gas_start. unfold gasSelfdestruct.
  repeat gas_step; eapply gas_of_ok0; try eassumption; first [const_u64 | done | case_match; const_u64].
Qed.

(** *** The calls *)

(** The call sends value: its third operand is not zero. *)
Definition sends_value (st : Stack) : bool :=
  match stack_Back st 2 with Ret v => negb (u256_IsZero v) | _ => false end.
Definition sends_nothing (st : Stack) : bool := false.

(** The account a call names. *)
Definition callee (st : Stack) : Address :=
  match stack_Back st 1 with Ret a => u256_Bytes20 a | _ => 0 end.

(** What a call's gas function promises its instruction: the gas of the callee
    and the stipend are covered by the charge. *)
Definition call_covered (sends : Stack -> bool) (f : Frame S) (gas : Z) (f' : Frame S) : Prop :=
  is_u64 (callGasTemp (fr_evm f')) /\
  callGasTemp (fr_evm f') + (if sends (fr_stack f) then CallStipend else 0) <= gas.

(** The EIP-2929 surcharge can be added without wrapping. *)
Definition call_gas (sends : Stack -> bool) (f : Frame S) (gas : Z) (f' : Frame S) : Prop :=
  call_covered sends f gas f' /\
  (rIsEIP150 chainRules = true -> gas + ColdAccountAccessCostEIP2929 < two64).

(** Under EIP-2929 the callee is warm. *)
Definition call_gas_warm (sends : Stack -> bool) (f : Frame S) (gas : Z) (f' : Frame S) : Prop :=
  call_covered sends f gas f' /\ warm (fr_evm f') (callee (fr_stack f)).

(** The 63/64 rule: the gas of the callee, of which there is at least 1/64 of
    2^64 left to 2^64. *)
Lemma callGas_ok eip150 avail base callCost temp :
  is_u64 avail -> is_u64 base -> is_u256 callCost ->
  callGas eip150 avail base callCost = (temp, None) ->
  is_u64 temp /\ (eip150 = true -> temp <= 63 * 2 ^ 58).
Proof.
  intros Ha Hb Hc. unfold callGas. rewrite IsUint64_spec, Uint64_spec by done.
  pose proof (u64_range (avail - base)) as Hr. set (av := u64 (avail - base)) in *.
  assert (av - av / 64 <= 63 * 2 ^ 58 /\ 0 <= av - av / 64) as [Hg Hg0].
  { unfold is_u64, two64 in Hr. pose proof (Z.div_mod av 64 ltac:(lia)).
    pose proof (Z.mod_pos_bound av 64 ltac:(lia)). lia. }
  rewrite (u64_small (av - av / 64)) by (unfold is_u64, two64; lia).
  destruct eip150; [destruct (_ || _) eqn:Eo|].
  - intros [= <-]. unfold is_u64, two64. split; [lia|intros _; lia].
  - apply orb_false_iff in Eo as [Eo1 Eo2]. rewrite Eo1. zbool. intros [= <-]. split; [apply u64_range|]. intros _. lia.
  - destruct (negb _) eqn:En; [done|]. intros [= <-]. split; [apply u64_range|done].
Qed.

Lemma finish_callGas_ok f f' ms gas (sends : Stack -> bool) :
  frame_ok f -> gas_mid (paid ms (fr_mem f)) f f' -> 0 < zlen (fr_stack f) ->
  0 <= ms <= MaxMemory -> (if sends (fr_stack f) then CallStipend else 0) <= gas < 2 ^ 57 ->
  wp refund_panic (finish_callGas gas) (gas_post ms (call_gas sends f) f) f'.
Proof.
  intros Hf Hm Hst Hms Hgas. unfold finish_callGas. repeat gas_step.
  destruct (callGas _ _ _ _) as [temp err] eqn:Ecg. repeat gas_step.
  assert (is_u64 gas) as Hg by (destruct (sends (fr_stack f)); unfold is_u64, two64, CallStipend in *; lia).
  assert (is_u64 temp) as Ht.
  { destruct err; [|by eapply callGas_ok; [apply Hm| | |exact Ecg]].
    unfold callGas in Ecg. repeat case_match; simplify_eq; const_u64. }
  apply (gas_mid_temp _ _ _ temp) in Hm as Hm'; [|done].
  apply wp_gzoom, wp_gput.
  destruct err as [err|]; [by eapply gas_fail_ok|]. repeat gas_step. gas_facts.
  eapply gas_of_ok; try eassumption. subst. split; [split; [done|]|].
  - change (callGasTemp _) with temp. lia.
  - intros He. apply callGas_ok in Ecg as [_ Ht']; [|apply Hm|done..].
    specialize (Ht' He). unfold two64, ColdAccountAccessCostEIP2929. lia.
Qed.

Lemma IsZero_Sign v : is_u256 v -> negb (u256_Sign v =? 0) = negb (u256_IsZero v).
Proof.
  intros Hv. rewrite IsZero_spec, Sign_spec by done. f_equal. unfold is_u256, two256, signed256 in *.
  destruct (v <? 2 ^ 255) eqn:E1; zbool; destruct (v =? 0) eqn:E2; zbool; subst; try done;
    apply Z.eqb_neq; unfold two256; lia.
Qed.

Ltac small_gas :=
  repeat match goal with H : SafeAdd _ _ = (_, false) |- _ =>
    apply SafeAdd_ok in H as [? ?]; [|ulia|ulia] end;
  unfold CallStipend, CallNewAccountGas, CallValueTransferGas in *; subst; lia.

Lemma gasCall_ok : gas_ok gasCall 3 (call_gas sends_value).
Proof.
  gas_start_ms. unfold gasCall. do 2 gas_step.
  assert (sends_value (fr_stack f) = negb (u256_IsZero x)) as Hs.
  { unfold sends_value. by match goal with H : stack_Back _ 2 = _ |- _ => rewrite H end. }
  apply wp_gbind.
  assert (forall base f', gas_mid (fr_mem f) f f' -> 0 <= base <= CallNewAccountGas ->
    wp refund_panic
      (with_memoryGas ms (fun memoryGas =>
         checked (SafeAdd (if negb (u256_IsZero x) then u64 (base + CallValueTransferGas) else base)
                    memoryGas) finish_callGas))
      (gas_post ms (call_gas sends_value f) f) f') as Hrest.
  { intros base f' Hm Hb. do 2 gas_step. unfold CallNewAccountGas, CallValueTransferGas in *.
    apply finish_callGas_ok; [done..|lia|done|]. rewrite Hs.
    destruct (negb (u256_IsZero x)); [rewrite u64_small in * by ulia|]; small_gas. }
  repeat first [eapply Hrest; [eassumption|] | gas_step].
  all: repeat case_match; unfold CallNewAccountGas; lia.
Qed.

Lemma gasCallCode_ok : gas_ok gasCallCode 3 (call_gas sends_value).
Proof.
  gas_start_ms. unfold gasCallCode. do 2 gas_step.
  assert (sends_value (fr_stack f) = negb (u256_IsZero x)) as Hs.
  { unfold sends_value. by match goal with H : stack_Back _ 2 = _ |- _ => rewrite H end. }
  rewrite IsZero_Sign by done. gas_step. unfold CallValueTransferGas in *.
  apply finish_callGas_ok; [done..|lia|done|]. rewrite Hs.
  destruct (negb (u256_IsZero x)); small_gas.
Qed.

Lemma gasDelegateCall_ok : gas_ok gasDelegateCall 2 (call_gas sends_nothing).
Proof.
  gas_start_ms. unfold gasDelegateCall. gas_step.
  apply finish_callGas_ok; [done..|lia|done|]. unfold sends_nothing. lia.
Qed.

Lemma gasStaticCall_ok : gas_ok gasStaticCall 2 (call_gas sends_nothing).
Proof.
  gas_start_ms. unfold gasStaticCall. gas_step.
  apply finish_callGas_ok; [done..|lia|done|]. unfold sends_nothing. lia.
Qed.

(** Before EIP-2929 no warmth is promised. *)
Lemma call_gas_cold sends g need :
  rIsBerlin chainRules = false -> gas_ok g need (call_gas sends) -> gas_ok g need (call_gas_warm sends).
Proof.
  intros Hb Hg f ms Hf Hn Hms Hd. eapply wp_mono; [by apply Hg|].
  intros [gas [err|]] f'; unfold gas_post; cbn; [done|].
  intros (? & ? & ? & [? ?]). do 4 (split; [done|]).
  intros Hbl. unfold berlin in Hbl. congruence.
Qed.

(** *** Access lists *)

Lemma wp_gas_in_list m f f' a Q :
  gas_mid m f f' ->
  (forall b f'', b = in_access_list (evm_StateDB (fr_evm f')) a -> gas_mid m f f'' ->
     sdb_ext (evm_StateDB (fr_evm f')) (evm_StateDB (fr_evm f'')) -> Q b f'') ->
  wp refund_panic (sdb (AddressInAccessList a)) Q f'.
Proof.
  intros Hm HQ. eapply wp_sdb; [apply wp_no_panic, AddressInAccessList_ok, Hm|].
  intros b s' (Hb & Hs & He & _). apply HQ; [done|by apply gas_mid_sdb|done].
Qed.

Lemma wp_gas_slot_in_list m f f' a k Q :
  gas_mid m f f' ->
  (forall b f'', b.1 = in_access_list (evm_StateDB (fr_evm f')) a -> gas_mid m f f'' -> Q b f'') ->
  wp refund_panic (sdb (SlotInAccessList a k)) Q f'.
Proof.
  intros Hm HQ. eapply wp_sdb; [apply wp_no_panic, SlotInAccessList_ok, Hm|].
  intros b s' (Hb & Hs & He & _). apply HQ; [done|by apply gas_mid_sdb].
Qed.

Lemma wp_gas_add_to_list m f f' a Q :
  gas_mid m f f' ->
  (forall u f'', in_access_list (evm_StateDB (fr_evm f'')) a = true -> gas_mid m f f'' -> Q u f'') ->
  wp refund_panic (sdb (AddAddressToAccessList a)) Q f'.
Proof.
  intros Hm HQ. eapply wp_sdb; [apply wp_no_panic, AddAddressToAccessList_ok, Hm|].
  intros b s' (Hb & Hs & He & _). apply HQ; [done|by apply gas_mid_sdb].
Qed.

Ltac acl_step :=
  lazymatch goal with
  | |- wp _ (gbind (sdb (AddressInAccessList _)) _) _ _ =>
      apply wp_gbind; eapply wp_gas_in_list; [eassumption|intros ? ? ? ? ?]
  | |- wp _ (gbind (sdb (SlotInAccessList _ _)) _) _ _ =>
      apply wp_gbind; eapply wp_gas_slot_in_list; [eassumption|intros [? ?] ? ? ?]
  | |- wp _ (gbind (sdb (AddAddressToAccessList _)) _) _ _ =>
      apply wp_gbind; eapply wp_gas_add_to_list; [eassumption|intros ? ? ? ?]
  | _ => gas_step
  end.

Lemma gasEip2929AccountCheck_ok : gas_ok0 gasEip2929AccountCheck 1 any_gas.
Proof.
  gas_start. unfold gasEip2929AccountCheck.
  repeat acl_step; eapply gas_of_ok0; try eassumption; first [const_u64 | done].
Qed.

Lemma gasSLoadEIP2929_ok : gas_ok0 gasSLoadEIP2929 1 pos_gas.
Proof.
  gas_start. unfold gasSLoadEIP2929.
  repeat acl_step; eapply gas_of_ok0; try eassumption; first [const_u64 | reflexivity].
Qed.

Lemma makeSelfdestructGasFn_ok b : gas_ok0 (makeSelfdestructGasFn b) 1 any_gas.
Proof.
  gas_start. unfold makeSelfdestructGasFn.
  repeat acl_step; eapply gas_of_ok0; try eassumption; first [const_u64 | done | case_match; const_u64].
Qed.

(** The "impossible case" of the source is impossible: the contract that
    executes SSTORE is warm. *)
Lemma makeGasSStoreFunc_ok r : berlin -> gas_ok0 (makeGasSStoreFunc r) 2 pos_gas.
Proof.
  intros Hb. gas_start. unfold makeGasSStoreFunc. do 2 acl_step; [repeat acl_step|]. do 6 acl_step.
  assert (b = true) as ->.
  { match goal with H : (b, _).1 = _ |- _ => cbn in H; rewrite H end.
    match goal with H : gas_mid _ f f'' |- _ => destruct H as [[Hsame Hc _ _] _ _ _ _] end.
    unfold Contract_Address. rewrite <- (same_self _ _ Hsame). by apply Hc. }
  cbn [negb].
  repeat acl_step; eapply gas_of_ok0; try eassumption; first [const_u64 | reflexivity].
Qed.

Lemma gasExtCodeCopyEIP2929_ok : gas_ok gasExtCodeCopyEIP2929 4 any_gas.
Proof.
  gas_start_ms. unfold gasExtCodeCopyEIP2929. apply wp_gbind.
  eapply wp_mono; [by apply (memoryCopierGas_ok 3)|].
  intros [gas [err|]] f'; unfold gas_post at 1; cbn [fst snd].
  - intros [? ?]. apply wp_gret. done.
  - intros (? & ? & ? & _). repeat acl_step; gas_facts; eapply gas_of_ok; eassumption || done.
Qed.

Lemma gas_mid_frame_ok f f' : frame_ok f -> gas_mid (fr_mem f) f f' -> frame_ok f'.
Proof.
  intros [] [[] Hpc Hst Hm Hg]. split; try done; by rewrite ?Hpc, ?Hst, ?Hm.
Qed.

Lemma gas_mid_trans m m' f f1 f2 : gas_mid m f f1 -> gas_mid m' f1 f2 -> gas_mid m' f f2.
Proof.
  intros [] []. split; [by eapply frame_done_trans|congruence|congruence|done|congruence].
Qed.

(** Changing the gas of the contract. *)
Lemma frame_done_Gas f f' g :
  frame_done f f' -> is_u64 g -> frame_done f (set_contract (set_Gas g (fr_contract f')) f').
Proof.
  intros [] Hg. split; cbn; [|by apply contract_ok_Gas|done|done].
  etrans; [done|]. apply contract_same_Gas.
Qed.

Lemma frame_ok_Gas f g :
  frame_ok f -> is_u64 g -> frame_ok (set_contract (set_Gas g (fr_contract f)) f).
Proof. intros [] Hg. split; try done. cbn. by apply contract_ok_Gas. Qed.

(** The end of the cold case: the surcharge goes back to the contract and into
    the gas to charge, without wrapping. *)
Lemma cold_call_post sends ms f f2 gas err f4 :
  let cold := ColdAccountAccessCostEIP2929 - WarmStorageReadCostEIP2929 in
  let f3 := set_contract (set_Gas (Gas (fr_contract f2) - cold) (fr_contract f2)) f2 in
  rIsEIP150 chainRules = true -> gas_mid (fr_mem f) f f2 ->
  in_access_list (evm_StateDB (fr_evm f2)) (callee (fr_stack f)) = true ->
  cold <= Gas (fr_contract f2) ->
  gas_post ms (call_gas sends f3) f3 (gas, err) f4 ->
  wp refund_panic
    (if bool_decide (is_Some err) then gret (gas, err)
     else
       on_contract (gput (fun c => set_Gas (u64 (Gas c + cold)) c)) ;;;
       gas_of (u64 (gas + cold)))
    (gas_post ms (call_gas_warm sends f) f) f4.
Proof.
  intros cold f3 Heip Hm2 Hin Hcold. assert (cold = 2500) as Hc by reflexivity.
  pose proof (ok_Gas _ _ (done_contract _ _ (mid_done _ _ _ Hm2))) as Hu2.
  assert (is_u64 (Gas (fr_contract f2) - cold)) as Hu3 by (unfold is_u64 in *; lia).
  assert (frame_done f f3) as Hd3 by by apply frame_done_Gas; [apply Hm2|].
  assert (Gas (fr_contract f3) = Gas (fr_contract f2) - cold) as Hg3 by done.
  pose proof (mid_Gas _ _ _ Hm2) as Hg2. unfold gas_post at 1. cbn [fst snd].
  destruct err as [err|].
  - intros [Hd4 Hg4]. cbn. split; [by eapply frame_done_trans|]. lia.
  - intros ([Hd4 Hpc4 Hst4 Hm4 Hg4] & Hu & Hms & [Htemp Hle] & Hroom). specialize (Hroom Heip).
    cbn [is_Some bool_decide]. apply wp_gbind, wp_gzoom, wp_gput.
    assert (u64 (Gas (fr_contract f4) + cold) = Gas (fr_contract f)) as Hgf.
    { rewrite u64_small; [lia|]. unfold is_u64 in *. lia. }
    unfold ColdAccountAccessCostEIP2929 in Hroom.
    assert (is_u64 (gas + cold)) as Hgc by (unfold is_u64 in *; lia).
    rewrite Hgf, (u64_small (gas + cold)) by done. apply gas_of_ok; [|done..|].
    + split; cbn; [|by rewrite Hpc4; apply Hm2|by rewrite Hst4; apply Hm2| |done].
      * apply frame_done_Gas; [by eapply frame_done_trans|]. rewrite <- Hg2. done.
      * rewrite Hm4. unfold f3. cbn. by rewrite (mid_mem _ _ _ Hm2).
    + split; [split; [done|]|].
      * cbn. change (fr_stack f3) with (fr_stack f2) in Hle.
        rewrite (mid_stack _ _ _ Hm2) in Hle. cbn in *. lia.
      * intros _. eapply access_list_ext; [apply Hd4|done].
Qed.

Lemma makeCallVariantGasCallEIP2929_ok sends old need :
  berlin -> rIsEIP150 chainRules = true -> 2 <= need ->
  gas_ok old need (call_gas sends) ->
  gas_ok (makeCallVariantGasCallEIP2929 old) need (call_gas_warm sends).
Proof.
  intros Hb Heip Hneed2 Hold. gas_start_ms. unfold makeCallVariantGasCallEIP2929. acl_step.
  assert (u256_Bytes20 x = callee (fr_stack f)) as ->.
  { unfold callee. by match goal with H : stack_Back _ 1 = _ |- _ => rewrite H end. }
  apply wp_gbind. eapply wp_gas_in_list; [done|]. intros w f1 Hw Hm1 He1.
  apply wp_gbind. destruct w; cbn [negb].
  - apply wp_gret, wp_gbind. pose proof (mid_stack _ _ _ Hm1) as Hst1.
    eapply wp_mono; [apply Hold; [by eapply gas_mid_frame_ok|by rewrite Hst1|done..]|].
    intros [gas err] f2 Hpost. cbn [orb]. apply wp_gret.
    revert Hpost. unfold gas_post, call_gas_warm, call_gas, call_covered. cbn [fst snd]. rewrite Hst1, (mid_mem _ _ _ Hm1).
    destruct err as [err|].
    + intros [Hd Hg]. rewrite <- (mid_Gas _ _ _ Hm1). split; [|done].
      eapply frame_done_trans; [apply Hm1|done].
    + intros (Hm2 & Hu & Hms' & HP & _). split; [by eapply gas_mid_trans|]. do 3 (split; [done|]).
      intros _. eapply access_list_ext; [etrans; [exact He1|apply Hm2]|]. by rewrite <- Hw.
  - apply wp_gbind. eapply wp_gas_add_to_list; [done|]. intros _ f2 Hin Hm2.
    apply wp_gzoom. unfold wp at 1. rewrite UseGas_spec by (apply Hm2 || const_u64).
    destruct (Gas (fr_contract f2) <? _) eqn:Eg; cbn [negb].
    { assert (set_contract (fr_contract f2) f2 = f2) as -> by by destruct f2.
      eapply gas_fail_ok. exact Hm2. }
    set (cold := ColdAccountAccessCostEIP2929 - WarmStorageReadCostEIP2929) in *.
    assert (cold = 2500) as Hcold by reflexivity. zbool.
    pose proof (ok_Gas _ _ (done_contract _ _ (mid_done _ _ _ Hm2))) as Hu2.
    assert (is_u64 (Gas (fr_contract f2) - cold)) as Hu3 by (unfold is_u64 in *; lia).
    set (f3 := set_contract _ f2). pose proof (mid_stack _ _ _ Hm2) as Hst2.
    apply wp_gbind. eapply wp_mono.
    { apply Hold; [by apply frame_ok_Gas; [eapply gas_mid_frame_ok|]|by cbn; rewrite Hst2|done..]. }
    intros [gas err] f4 Hpost. by apply (cold_call_post _ _ _ f2).
Qed.
End gas_functions.

(** ** Theorems *)

(** Memory is charged by its size in words: what an expansion costs is the
    difference of the total fees before and after (linear plus quadratic), it is
    never negative and fits 64 bits, nothing is charged for memory that is
    there, and sizes beyond the limit are refused. *)
Theorem memoryGasCost_correct ms m :
  mem_ok m -> is_u64 ms -> ms mod 32 = 0 ->
  exists cost err m', memoryGasCost ms m = Ret ((cost, err), m') /\ mem_store m' = mem_store m /\
    (err <> None <-> MaxMemory < ms) /\
    (err = None -> cost = memory_fee (Z.max (Memory_Len m) ms / 32) - memory_fee (Memory_Len m / 32) /\
       is_u64 cost /\ (ms <= Memory_Len m -> cost = 0)).
Proof.
  intros Hm Hu Ha. rewrite memoryGasCost_spec by done. destruct (ms >? MaxMemory) eqn:E; zbool.
  - by eexists _, _, _.
  - eexists _, _, _. split; [done|]. split; [by unfold paid; repeat case_match|].
    split; [split; [done|lia]|]. intros _. split; [done|].
    split; [|intros Hle; rewrite Z.max_l by done; lia].
    pose proof (memory_fee_delta_bound ms m Hm). unfold is_u64, two64 in *. lia.
Qed.

(** The gas passed on to a call is at most all but one 64th of what is left
    after the call's own cost (EIP-150), or exactly the requested amount where
    that is less; before EIP-150 the requested amount has to fit 64 bits. *)
Theorem callGas_correct {U : Uint256} {UL : Uint256Laws U} avail base callCost :
  is_u64 avail -> is_u64 base -> is_u256 callCost -> base <= avail ->
  callGas true avail base callCost =
    (Z.min callCost ((avail - base) - (avail - base) / 64), None) /\
  callGas false avail base callCost =
    (if two64 <=? callCost then (0, Some ErrGasUintOverflow) else (callCost, None)).
Proof.
  intros Ha Hb [Hc0 Hc] Hle. unfold callGas. rewrite IsUint64_spec, Uint64_spec by done. fold (u64 callCost).
  set (av := avail - base). assert (0 <= av < two64) as Hav by (unfold av, is_u64 in *; lia).
  assert (0 <= av / 64 <= av) as Hq by (split; [apply Z.div_pos|apply Z.div_le_upper_bound]; lia).
  rewrite (u64_small av), (u64_small (av - av / 64)) by (unfold is_u64; lia).
  destruct (callCost <? two64) eqn:E; zbool; cbn [negb orb].
  - rewrite (u64_small callCost) by done. split; [|by rewrite (proj2 (Z.leb_gt _ _))].
    destruct (_ <? callCost) eqn:E2; zbool; f_equal; lia.
  - split; [f_equal; lia|]. by rewrite (proj2 (Z.leb_le _ _)).
Qed.
