(* ===== verification/Instructions.v ===== *)
(** * Instructions (client/core/vm/instructions.go and the opcodes of eips.go)

    One definition per [op*] function of the source, over the call frame.  The
    instructions that call other contracts use the entry points of [Calls]. *)

From Stdlib Require Import Strings.Byte.
From S2P Require Import Prelude.
From S2P Require Import Uint256.
From S2P Require Import OpCodes.
From S2P Require Import Common.
From S2P Require Import Params.
From S2P Require Import Crypto.
From S2P Require Import StateInterface.
From S2P Require Import Stack.
From S2P Require Import Memory.
From S2P Require Import Analysis.
From S2P Require Import Machine.
From S2P Require Import Invariant.

Section instructions.
Context {S : Type} {D : StateDB S} {U : Uint256} {K : Keccak} {E : EVM S} {C : Calls S}.

(** [return nil, nil] and [return nil, err]. *)
Definition done_nil : executionFunc S := gret ([], None).
Definition fail_with (err : error) : executionFunc S := gret ([], Some err).

(** ** Arithmetic, comparison and bit operations *)

Definition opAdd : executionFunc S := let* x := pop in let* y := peek in setTop (u256_Add x y) ;;; done_nil.
Definition opSub : executionFunc S := let* x := pop in let* y := peek in setTop (u256_Sub x y) ;;; done_nil.
Definition opMul : executionFunc S := let* x := pop in let* y := peek in setTop (u256_Mul x y) ;;; done_nil.
Definition opDiv : executionFunc S := let* x := pop in let* y := peek in setTop (u256_Div x y) ;;; done_nil.
Definition opSdiv : executionFunc S := let* x := pop in let* y := peek in setTop (u256_SDiv x y) ;;; done_nil.
Definition opMod : executionFunc S := let* x := pop in let* y := peek in setTop (u256_Mod x y) ;;; done_nil.
Definition opSmod : executionFunc S := let* x := pop in let* y := peek in setTop (u256_SMod x y) ;;; done_nil.
Definition opExp : executionFunc S :=
  let* base := pop in let* exponent := peek in setTop (u256_Exp base exponent) ;;; done_nil.
Definition opSignExtend : executionFunc S :=
  let* back := pop in let* num := peek in setTop (u256_ExtendSign num back) ;;; done_nil.
Definition opNot : executionFunc S := let* x := peek in setTop (u256_Not x) ;;; done_nil.

(** [if b { y.SetOne() } else { y.Clear() }]. *)
Definition u256_of_bool (b : bool) : Z := if b then u256_SetOne else u256_Clear.

Definition opLt : executionFunc S :=
  let* x := pop in let* y := peek in setTop (u256_of_bool (u256_Lt x y)) ;;; done_nil.
Definition opGt : executionFunc S :=
  let* x := pop in let* y := peek in setTop (u256_of_bool (u256_Gt x y)) ;;; done_nil.
Definition opSlt : executionFunc S :=
  let* x := pop in let* y := peek in setTop (u256_of_bool (u256_Slt x y)) ;;; done_nil.
Definition opSgt : executionFunc S :=
  let* x := pop in let* y := peek in setTop (u256_of_bool (u256_Sgt x y)) ;;; done_nil.
Definition opEq : executionFunc S :=
  let* x := pop in let* y := peek in setTop (u256_of_bool (u256_Eq x y)) ;;; done_nil.
Definition opIszero : executionFunc S :=
  let* x := peek in setTop (u256_of_bool (u256_IsZero x)) ;;; done_nil.
Definition opAnd : executionFunc S := let* x := pop in let* y := peek in setTop (u256_And x y) ;;; done_nil.
Definition opOr : executionFunc S := let* x := pop in let* y := peek in setTop (u256_Or x y) ;;; done_nil.
Definition opXor : executionFunc S := let* x := pop in let* y := peek in setTop (u256_Xor x y) ;;; done_nil.
Definition opByte : executionFunc S :=
  let* th := pop in let* val := peek in setTop (u256_Byte val th) ;;; done_nil.

Definition opAddmod : executionFunc S :=
  let* x := pop in let* y := pop in let* z := peek in
  setTop (if u256_IsZero z then u256_Clear else u256_AddMod x y z) ;;; done_nil.
Definition opMulmod : executionFunc S :=
  let* x := pop in let* y := pop in let* z := peek in setTop (u256_MulMod x y z) ;;; done_nil.

Definition opSHL : executionFunc S :=
  let* shift := pop in let* value := peek in
  setTop (if u256_LtUint64 shift 256 then u256_Lsh value (u256_Uint64 shift) else u256_Clear) ;;;
  done_nil.
Definition opSHR : executionFunc S :=
  let* shift := pop in let* value := peek in
  setTop (if u256_LtUint64 shift 256 then u256_Rsh value (u256_Uint64 shift) else u256_Clear) ;;;
  done_nil.
Definition opSAR : executionFunc S :=
  let* shift := pop in let* value := peek in
  (if u256_GtUint64 shift 256 then
     setTop (if u256_Sign value >=? 0 then u256_Clear else u256_SetAllOne)
   else setTop (u256_SRsh value (u256_Uint64 shift))) ;;;
  done_nil.

(** ** Hashing and environment *)

Definition opKeccak256 : executionFunc S :=
  let* offset := pop in let* size := peek in
  let* data := memGetPtr (i64 (u256_Uint64 offset)) (i64 (u256_Uint64 size)) in
  let hash := keccak256 data in
  (if EnablePreimageRecording evm_Config then sdb (AddPreimage hash data) else gret tt) ;;;
  setTop (u256_SetBytes (hash_bytes hash)) ;;;
  done_nil.

Definition opAddress : executionFunc S :=
  let* c := contract in push (u256_SetBytes (address_bytes (Contract_Address c))) ;;; done_nil.

Definition opBalance : executionFunc S :=
  let* slot := peek in
  let* balance := sdb (GetBalance (u256_Bytes20 slot)) in
  setTop (u256_FromBig balance) ;;; done_nil.

Definition opOrigin : executionFunc S :=
  push (u256_SetBytes (address_bytes (Origin evm_TxContext))) ;;; done_nil.

Definition opCaller : executionFunc S :=
  let* c := contract in push (u256_SetBytes (address_bytes (Contract_Caller c))) ;;; done_nil.

(** [push] of [uint256.FromBig(v)]: a nil [*big.Int] is dereferenced. *)
Definition pushBig (v : option Z) : executionFunc S :=
  match v with
  | Some v => push (u256_FromBig v) ;;; done_nil
  | None => gpanic PanicNil
  end.

Definition opCallValue : executionFunc S := let* c := contract in pushBig (value c).

Definition opCallDataLoad : executionFunc S :=
  let* x := peek in
  let '(offset, overflow) := u256_Uint64WithOverflow x in
  (if negb overflow then
     let* c := contract in
     let* data := gpure (getData (Input c) offset 32) in
     setTop (u256_SetBytes data)
   else setTop u256_Clear) ;;;
  done_nil.

Definition opCallDataSize : executionFunc S :=
  let* c := contract in push (u256_SetUint64 (zlen (Input c))) ;;; done_nil.

Definition memSet (offset size : Z) (v : list byte) : GM (Frame S) unit := on_mem (Memory_Set offset size v).

Definition opCallDataCopy : executionFunc S :=
  let* memOffset := pop in let* dataOffset := pop in let* length := pop in
  let '(dataOffset64, overflow) := u256_Uint64WithOverflow dataOffset in
  let dataOffset64 := if overflow then 0xffffffffffffffff else dataOffset64 in
  let memOffset64 := u256_Uint64 memOffset in
  let length64 := u256_Uint64 length in
  let* c := contract in
  let* data := gpure (getData (Input c) dataOffset64 length64) in
  memSet memOffset64 length64 data ;;;
  done_nil.

Definition opReturnDataSize : executionFunc S :=
  let* e := evm in push (u256_SetUint64 (zlen (returnData e))) ;;; done_nil.

Definition opReturnDataCopy : executionFunc S :=
  let* memOffset := pop in let* dataOffset := pop in let* length := pop in
  let '(offset64, overflow) := u256_Uint64WithOverflow dataOffset in
  if overflow then fail_with ErrReturnDataOutOfBounds
  else
    let end_ := u256_Add dataOffset length in
    let '(end64, overflow) := u256_Uint64WithOverflow end_ in
    let* e := evm in
    if overflow || (zlen (returnData e) <? end64) then fail_with ErrReturnDataOutOfBounds
    else
      let* data := gpure (go_slice (returnData e) offset64 end64) in
      memSet (u256_Uint64 memOffset) (u256_Uint64 length) data ;;;
      done_nil.

Definition opExtCodeSize : executionFunc S :=
  let* slot := peek in
  let* size := sdb (GetCodeSize (u256_Bytes20 slot)) in
  setTop (u256_SetUint64 size) ;;; done_nil.

Definition opCodeSize : executionFunc S :=
  let* c := contract in push (u256_SetUint64 (zlen (Code c))) ;;; done_nil.

Definition opCodeCopy : executionFunc S :=
  let* memOffset := pop in let* codeOffset := pop in let* length := pop in
  let '(uint64CodeOffset, overflow) := u256_Uint64WithOverflow codeOffset in
  let uint64CodeOffset := if overflow then 0xffffffffffffffff else uint64CodeOffset in
  let* c := contract in
  let* codeCopy := gpure (getData (Code c) uint64CodeOffset (u256_Uint64 length)) in
  memSet (u256_Uint64 memOffset) (u256_Uint64 length) codeCopy ;;;
  done_nil.

Definition opExtCodeCopy : executionFunc S :=
  let* a := pop in let* memOffset := pop in let* codeOffset := pop in let* length := pop in
  let '(uint64CodeOffset, overflow) := u256_Uint64WithOverflow codeOffset in
  let uint64CodeOffset := if overflow then 0xffffffffffffffff else uint64CodeOffset in
  let addr := u256_Bytes20 a in
  let* code := sdb (GetCode addr) in
  let* codeCopy := gpure (getData code uint64CodeOffset (u256_Uint64 length)) in
  memSet (u256_Uint64 memOffset) (u256_Uint64 length) codeCopy ;;;
  done_nil.

Definition opExtCodeHash : executionFunc S :=
  let* slot := peek in
  let address := u256_Bytes20 slot in
  let* empty := sdb (Empty address) in
  (if empty then setTop u256_Clear
   else
     let* h := sdb (GetCodeHash address) in
     setTop (u256_SetBytes (hash_bytes h))) ;;;
  done_nil.

Definition opGasprice : executionFunc S := push (u256_FromBig (GasPrice evm_TxContext)) ;;; done_nil.

Definition opBlockhash : executionFunc S :=
  let* num := peek in
  let '(num64, overflow) := u256_Uint64WithOverflow num in
  if overflow then setTop u256_Clear ;;; done_nil
  else
    let upper := u64 (BlockNumber Context) in
    let lower := if upper <? 257 then 0 else u64 (upper - 256) in
    (if (num64 >=? lower) && (num64 <? upper)
     then setTop (u256_SetBytes (hash_bytes (GetHash Context num64)))
     else setTop u256_Clear) ;;;
    done_nil.

Definition opCoinbase : executionFunc S := push (u256_SetBytes (address_bytes (Coinbase Context))) ;;; done_nil.
Definition opTimestamp : executionFunc S := push (u256_SetUint64 (Time Context)) ;;; done_nil.
Definition opNumber : executionFunc S := push (u256_FromBig (BlockNumber Context)) ;;; done_nil.
Definition opDifficulty : executionFunc S := push (u256_FromBig (Difficulty Context)) ;;; done_nil.

Definition opRandom : executionFunc S :=
  match Random Context with
  | Some r => push (u256_SetBytes (hash_bytes r)) ;;; done_nil
  | None => gpanic PanicNil
  end.

Definition opGasLimit : executionFunc S := push (u256_SetUint64 (GasLimit Context)) ;;; done_nil.

(** ** Stack, memory, storage and flow *)

Definition opPop : executionFunc S := let* _ := pop in done_nil.

Definition opMload : executionFunc S :=
  let* v := peek in
  let* data := memGetPtr (i64 (u256_Uint64 v)) 32 in
  setTop (u256_SetBytes data) ;;; done_nil.

Definition opMstore : executionFunc S :=
  let* mStart := pop in let* val := pop in
  on_mem (Memory_Set32 (u256_Uint64 mStart) val) ;;; done_nil.

Definition opMstore8 : executionFunc S :=
  let* off := pop in let* val := pop in
  on_mem (Memory_setByte (u256_Uint64 off) (byte_of_Z (u256_Uint64 val))) ;;; done_nil.

Definition opSload : executionFunc S :=
  let* loc := peek in
  let* c := contract in
  let* val := sdb (GetState (Contract_Address c) (u256_Bytes32 loc)) in
  setTop (u256_SetBytes (hash_bytes val)) ;;; done_nil.

Definition opSstore : executionFunc S :=
  let* e := evm in
  if readOnly e then fail_with ErrWriteProtection
  else
    let* loc := pop in let* val := pop in
    let* c := contract in
    sdb (SetState (Contract_Address c) (u256_Bytes32 loc) (u256_Bytes32 val)) ;;; done_nil.

Definition setPc (pc : Z) : GM (Frame S) unit := gput (set_pc pc).

Definition opJump : executionFunc S :=
  let* aborted := on_evm abort_Load in
  if aborted then fail_with errStopToken
  else
    let* pos := pop in
    let* valid := validJumpdest pos in
    if negb valid then fail_with ErrInvalidJump
    else setPc (u64 (u256_Uint64 pos - 1)) ;;; done_nil.

Definition opJumpi : executionFunc S :=
  let* aborted := on_evm abort_Load in
  if aborted then fail_with errStopToken
  else
    let* pos := pop in let* cond := pop in
    if negb (u256_IsZero cond) then
      let* valid := validJumpdest pos in
      if negb valid then fail_with ErrInvalidJump
      else setPc (u64 (u256_Uint64 pos - 1)) ;;; done_nil
    else done_nil.

Definition opJumpdest : executionFunc S := done_nil.

Definition opPc : executionFunc S :=
  let* pc := gget fr_pc in push (u256_SetUint64 pc) ;;; done_nil.
Definition opMsize : executionFunc S :=
  let* n := gget (fun f => Memory_Len (fr_mem f)) in push (u256_SetUint64 n) ;;; done_nil.
Definition opGas : executionFunc S :=
  let* c := contract in push (u256_SetUint64 (Gas c)) ;;; done_nil.

(** ** Creating and calling contracts *)

(** [scope.Contract.Gas += returnGas]. *)
Definition addGas (g : Z) : GM (Frame S) unit :=
  on_contract (gput (fun c => set_Gas (u64 (Gas c + g)) c)).

Definition setReturnData (d : list byte) : GM (Frame S) unit := on_evm (gput (set_returnData d)).

(** [if suberr == ErrExecutionReverted { ... }] at the end of both creations. *)
Definition create_return (res : list byte) (suberr : option error) : executionFunc S :=
  if bool_decide (suberr = Some ErrExecutionReverted) then
    setReturnData res ;;; gret (res, None)
  else setReturnData [] ;;; done_nil.

Definition opCreate : executionFunc S :=
  let* e := evm in
  if readOnly e then fail_with ErrWriteProtection
  else
    let* value := pop in
    let* offset := pop in let* size := pop in
    let* input := memGetCopy (i64 (u256_Uint64 offset)) (i64 (u256_Uint64 size)) in
    let* c := contract in
    let gas := Gas c in
    let gas := if rIsEIP150 chainRules then u64 (gas - gas / 64) else gas in
    let* _ := on_contract (UseGas gas) in
    let bigVal := if u256_IsZero value then 0 else u256_ToBig value in
    let* r := on_evm (evm_Create (as_caller c) input gas bigVal) in
    let '(res, addr, returnGas, suberr) := r in
    push (if rIsHomestead chainRules && bool_decide (suberr = Some ErrCodeStoreOutOfGas)
          then u256_Clear
          else if bool_decide (is_Some suberr) && negb (bool_decide (suberr = Some ErrCodeStoreOutOfGas))
          then u256_Clear
          else u256_SetBytes (address_bytes addr)) ;;;
    addGas returnGas ;;;
    create_return res suberr.

Definition opCreate2 : executionFunc S :=
  let* e := evm in
  if readOnly e then fail_with ErrWriteProtection
  else
    let* endowment := pop in
    let* offset := pop in let* size := pop in
    let* salt := pop in
    let* input := memGetCopy (i64 (u256_Uint64 offset)) (i64 (u256_Uint64 size)) in
    let* c := contract in
    let gas := Gas c in
    let gas := u64 (gas - gas / 64) in
    let* _ := on_contract (UseGas gas) in
    let bigEndowment := if u256_IsZero endowment then 0 else u256_ToBig endowment in
    let* r := on_evm (evm_Create2 (as_caller c) input gas bigEndowment salt) in
    let '(res, addr, returnGas, suberr) := r in
    push (if bool_decide (is_Some suberr) then u256_Clear else u256_SetBytes (address_bytes addr)) ;;;
    addGas returnGas ;;;
    create_return res suberr.

(** The common end of the four calls: push the status, copy the returned data
    into memory, take back the gas. *)
Definition call_return (retOffset retSize : Z) (r : list byte * Z * option error) : executionFunc S :=
  let '(ret, returnGas, err) := r in
  push (if bool_decide (is_Some err) then u256_Clear else u256_SetOne) ;;;
  (if bool_decide (err = None) || bool_decide (err = Some ErrExecutionReverted)
   then memSet (u256_Uint64 retOffset) (u256_Uint64 retSize) ret else gret tt) ;;;
  addGas returnGas ;;;
  setReturnData ret ;;;
  gret (ret, None).

Definition opCall : executionFunc S :=
  let* _ := pop in
  let* gas := gget (fun f => callGasTemp (fr_evm f)) in
  let* addr := pop in let* value := pop in
  let* inOffset := pop in let* inSize := pop in
  let* retOffset := pop in let* retSize := pop in
  let toAddr := u256_Bytes20 addr in
  let* args := memGetPtr (i64 (u256_Uint64 inOffset)) (i64 (u256_Uint64 inSize)) in
  let* e := evm in
  if readOnly e && negb (u256_IsZero value) then fail_with ErrWriteProtection
  else
    let gas := if negb (u256_IsZero value) then u64 (gas + CallStipend) else gas in
    let bigVal := if negb (u256_IsZero value) then u256_ToBig value else 0 in
    let* c := contract in
    let* r := on_evm (evm_Call (as_caller c) toAddr args gas bigVal) in
    call_return retOffset retSize r.

Definition opCallCode : executionFunc S :=
  let* _ := pop in
  let* gas := gget (fun f => callGasTemp (fr_evm f)) in
  let* addr := pop in let* value := pop in
  let* inOffset := pop in let* inSize := pop in
  let* retOffset := pop in let* retSize := pop in
  let toAddr := u256_Bytes20 addr in
  let* args := memGetPtr (i64 (u256_Uint64 inOffset)) (i64 (u256_Uint64 inSize)) in
  let gas := if negb (u256_IsZero value) then u64 (gas + CallStipend) else gas in
  let bigVal := if negb (u256_IsZero value) then u256_ToBig value else 0 in
  let* c := contract in
  let* r := on_evm (evm_CallCode (as_caller c) toAddr args gas bigVal) in
  call_return retOffset retSize r.

Definition opDelegateCall : executionFunc S :=
  let* _ := pop in
  let* gas := gget (fun f => callGasTemp (fr_evm f)) in
  let* addr := pop in
  let* inOffset := pop in let* inSize := pop in
  let* retOffset := pop in let* retSize := pop in
  let toAddr := u256_Bytes20 addr in
  let* args := memGetPtr (i64 (u256_Uint64 inOffset)) (i64 (u256_Uint64 inSize)) in
  let* c := contract in
  let* r := on_evm (evm_DelegateCall (as_caller c) toAddr args gas) in
  call_return retOffset retSize r.

Definition opStaticCall : executionFunc S :=
  let* _ := pop in
  let* gas := gget (fun f => callGasTemp (fr_evm f)) in
  let* addr := pop in
  let* inOffset := pop in let* inSize := pop in
  let* retOffset := pop in let* retSize := pop in
  let toAddr := u256_Bytes20 addr in
  let* args := memGetPtr (i64 (u256_Uint64 inOffset)) (i64 (u256_Uint64 inSize)) in
  let* c := contract in
  let* r := on_evm (evm_StaticCall (as_caller c) toAddr args gas) in
  call_return retOffset retSize r.

(** ** Ending a frame *)

Definition opReturn : executionFunc S :=
  let* offset := pop in let* size := pop in
  let* ret := memGetPtr (i64 (u256_Uint64 offset)) (i64 (u256_Uint64 size)) in
  gret (ret, Some errStopToken).

Definition opRevert : executionFunc S :=
  let* offset := pop in let* size := pop in
  let* ret := memGetPtr (i64 (u256_Uint64 offset)) (i64 (u256_Uint64 size)) in
  setReturnData ret ;;;
  gret (ret, Some ErrExecutionReverted).

Definition opUndefined : executionFunc S :=
  let* c := contract in
  let* pc := gget fr_pc in
  let* op := gpure (go_index (Code c) pc) in
  fail_with (ErrInvalidOpCode op).

Definition opStop : executionFunc S := fail_with errStopToken.

Definition opSelfdestruct : executionFunc S :=
  let* e := evm in
  if readOnly e then fail_with ErrWriteProtection
  else
    let* beneficiary := pop in
    let* c := contract in
    let* balance := sdb (GetBalance (Contract_Address c)) in
    sdb (AddBalance (u256_Bytes20 beneficiary) balance) ;;;
    let* _ := sdb (Suicide (Contract_Address c)) in
    fail_with errStopToken.

(** ** Families of instructions *)

Fixpoint pop_topics (size : nat) : GM (Frame S) (list Hash) :=
  match size with
  | O => gret []
  | Datatypes.S n =>
      let* addr := pop in
      let* rest := pop_topics n in
      gret (u256_Bytes32 addr :: rest)
  end.

Definition makeLog (size : nat) : executionFunc S :=
  let* e := evm in
  if readOnly e then fail_with ErrWriteProtection
  else
    let* mStart := pop in let* mSize := pop in
    let* topics := pop_topics size in
    let* d := memGetCopy (i64 (u256_Uint64 mStart)) (i64 (u256_Uint64 mSize)) in
    let* c := contract in
    sdb (AddLog (mkLog (Contract_Address c) topics d (u64 (BlockNumber Context)))) ;;;
    done_nil.

Definition opPush1 : executionFunc S :=
  let* c := contract in
  let codeLen := zlen (Code c) in
  let* pc := gget fr_pc in
  let pc := u64 (pc + 1) in
  setPc pc ;;;
  if pc <? codeLen then
    let* b := gpure (go_index (Code c) pc) in
    push (u256_SetUint64 (byte_val b)) ;;; done_nil
  else push u256_Clear ;;; done_nil.

Definition makePush (size pushByteSize : Z) : executionFunc S :=
  let* c := contract in
  let codeLen := zlen (Code c) in
  let* pc := gget fr_pc in
  let startMin := if i64 (u64 (pc + 1)) <? codeLen then i64 (u64 (pc + 1)) else codeLen in
  let endMin := if startMin + pushByteSize <? codeLen then startMin + pushByteSize else codeLen in
  let* data := gpure (go_slice (Code c) startMin endMin) in
  push (u256_SetBytes (RightPadBytes data pushByteSize)) ;;;
  setPc (u64 (pc + size)) ;;;
  done_nil.

Definition makeDup (size : Z) : executionFunc S := on_stack (stack_dup size) ;;; done_nil.
Definition makeSwap (size : Z) : executionFunc S := on_stack (stack_swap (size + 1)) ;;; done_nil.

(** ** client/core/vm/eips.go *)

Definition opSelfBalance : executionFunc S :=
  let* c := contract in
  let* balance := sdb (GetBalance (Contract_Address c)) in
  push (u256_FromBig balance) ;;; done_nil.

Definition opChainID : executionFunc S := pushBig (ChainID chainConfig).

Definition opTload : executionFunc S :=
  let* loc := peek in
  let* c := contract in
  let* val := sdb (GetTransientState (Contract_Address c) (u256_Bytes32 loc)) in
  setTop (u256_SetBytes (hash_bytes val)) ;;; done_nil.

Definition opTstore : executionFunc S :=
  let* e := evm in
  if readOnly e then fail_with ErrWriteProtection
  else
    let* loc := pop in let* val := pop in
    let* c := contract in
    sdb (SetTransientState (Contract_Address c) (u256_Bytes32 loc) (u256_Bytes32 val)) ;;; done_nil.

Definition opBaseFee : executionFunc S := pushBig (BaseFee Context).
Definition opPush0 : executionFunc S := push 0 ;;; done_nil.
End instructions.

(** ** Lemmas: running an instruction

    The instructions are run symbolically on an explicit frame; each lemma below
    is one step. *)

Section steps.
Context {S : Type} {D : StateDB S} {K : Keccak} {KL : KeccakLaws K} {SP : StateDBSpec S}.
Context {U : Uint256} {UL : Uint256Laws U} {E : EVM S}.
Context {A : Type} (Q : A -> Frame S -> Prop).
Implicit Types (e : EVMState S) (c : Contract) (m : Memory) (st : Stack).

Lemma step_pop x k pc st m c e :
  wp refund_panic (k x) Q (mkFrame pc st m c e) ->
  wp refund_panic (gbind pop k) Q (mkFrame pc (x :: st) m c e).
Proof. done. Qed.

Lemma step_peek x k pc st m c e :
  wp refund_panic (k x) Q (mkFrame pc (x :: st) m c e) ->
  wp refund_panic (gbind peek k) Q (mkFrame pc (x :: st) m c e).
Proof. done. Qed.

Lemma step_setTop x y k pc st m c e :
  wp refund_panic (k tt) Q (mkFrame pc (y :: st) m c e) ->
  wp refund_panic (gbind (setTop y) k) Q (mkFrame pc (x :: st) m c e).
Proof. done. Qed.

Lemma step_push y k pc st m c e :
  wp refund_panic (k tt) Q (mkFrame pc (y :: st) m c e) ->
  wp refund_panic (gbind (push y) k) Q (mkFrame pc st m c e).
Proof. done. Qed.

Lemma step_setPc pc' k pc st m c e :
  wp refund_panic (k tt) Q (mkFrame pc' st m c e) ->
  wp refund_panic (gbind (setPc pc') k) Q (mkFrame pc st m c e).
Proof. done. Qed.

Lemma step_gpure {B} (r : Res B) b k f :
  r = Ret b -> wp refund_panic (k b) Q f -> wp refund_panic (gbind (gpure r) k) Q f.
Proof. by intros ->. Qed.

Lemma step_memGetPtr off size d k pc st m c e :
  Memory_GetPtr off size m = Ret d ->
  wp refund_panic (k d) Q (mkFrame pc st m c e) ->
  wp refund_panic (gbind (memGetPtr off size) k) Q (mkFrame pc st m c e).
Proof. unfold wp, gbind, memGetPtr, gpure. cbn [fr_mem]. by intros ->. Qed.

Lemma step_memGetCopy off size d k pc st m c e :
  Memory_GetCopy off size m = Ret d ->
  wp refund_panic (k d) Q (mkFrame pc st m c e) ->
  wp refund_panic (gbind (memGetCopy off size) k) Q (mkFrame pc st m c e).
Proof. unfold wp, gbind, memGetCopy, gpure. cbn [fr_mem]. by intros ->. Qed.

Lemma step_on_mem {B} (op : GM Memory B) b m' k pc st m c e :
  op m = Ret (b, m') ->
  wp refund_panic (k b) Q (mkFrame pc st m' c e) ->
  wp refund_panic (gbind (on_mem op) k) Q (mkFrame pc st m c e).
Proof. unfold wp, gbind, on_mem, gzoom. cbn [fr_mem]. by intros ->. Qed.

Lemma step_on_stack {B} (op : GM Stack B) b st' k pc st m c e :
  op st = Ret (b, st') ->
  wp refund_panic (k b) Q (mkFrame pc st' m c e) ->
  wp refund_panic (gbind (on_stack op) k) Q (mkFrame pc st m c e).
Proof. unfold wp, gbind, on_stack, gzoom. cbn [fr_stack]. by intros ->. Qed.

Lemma step_sdb {B} (op : GM S B) k pc st m c e :
  evm_ok e -> sdb_mutator op ->
  (forall b e', evm_ok e' -> evm_ext e e' -> wp refund_panic (k b) Q (mkFrame pc st m c e')) ->
  wp refund_panic (gbind (sdb op) k) Q (mkFrame pc st m c e).
Proof.
  intros He Hop Hk. apply wp_gbind. eapply wp_sdb; [apply wp_no_panic, Hop, He|].
  intros b s' (Hs & Hx & _). apply Hk; [by apply evm_ok_sdb|by apply evm_ext_sdb].
Qed.

(** The end of a contract. *)
Lemma step_retire a b (k : bool -> GM (Frame S) A) pc st m c e :
  evm_ok e ->
  (forall u e', evm_ok e' -> evm_ext e e' -> wp refund_panic (k u) Q (mkFrame pc st m c e')) ->
  wp refund_panic (let* v := sdb (GetBalance a) in sdb (AddBalance b v) ;;; gbind (sdb (Suicide a)) k)
    Q (mkFrame pc st m c e).
Proof.
  intros He Hk.
  enough (wp refund_panic (gbind (sdb (let* v := GetBalance a in AddBalance b v ;;; Suicide a)) k)
    Q (mkFrame pc st m c e)) as Hw.
  { revert Hw. unfold wp, gbind, sdb, on_evm, on_sdb, gzoom. cbn [fr_evm].
    destruct (GetBalance a (evm_StateDB e)) as [[v s1]| |]; [|done..]. cbn.
    destruct (AddBalance b v s1) as [[u s2]| |]; [|done..]. cbn. by destruct (Suicide a s2) as [[b' s3]| |]. }
  apply wp_gbind. eapply wp_sdb; [apply wp_no_panic, retire_ok, He|].
  intros u s' [Hs Hx]. apply Hk; [by apply evm_ok_sdb|by apply evm_ext_sdb].
Qed.

Lemma step_GetCode a k pc st m c e :
  evm_ok e ->
  (forall code e', zlen code < 2 ^ 60 -> evm_ok e' -> evm_ext e e' ->
     wp refund_panic (k code) Q (mkFrame pc st m c e')) ->
  wp refund_panic (gbind (sdb (GetCode a)) k) Q (mkFrame pc st m c e).
Proof.
  intros He Hk. apply wp_gbind. eapply wp_sdb; [apply wp_no_panic, GetCode_ok, He|].
  intros code s' (-> & Hs & Hx & _).
  apply Hk; [apply code_size_bound, He|by apply evm_ok_sdb|by apply evm_ext_sdb].
Qed.

Lemma step_GetCodeHash a k pc st m c e :
  evm_ok e ->
  (forall h e', evm_ok e' -> evm_ext e e' -> wp refund_panic (k h) Q (mkFrame pc st m c e')) ->
  wp refund_panic (gbind (sdb (GetCodeHash a)) k) Q (mkFrame pc st m c e).
Proof.
  intros He Hk. apply wp_gbind. eapply wp_sdb; [apply wp_no_panic, GetCodeHash_ok, He|].
  intros h s' (_ & Hs & Hx & _). apply Hk; [by apply evm_ok_sdb|by apply evm_ext_sdb].
Qed.

Lemma step_gret {B} (b : B) k f :
  wp refund_panic (k b) Q f -> wp refund_panic (gbind (gret b) k) Q f.
Proof. done. Qed.

Lemma step_gget {B} (g : Frame S -> B) k f :
  wp refund_panic (k (g f)) Q f -> wp refund_panic (gbind (gget g) k) Q f.
Proof. done. Qed.

Lemma step_assoc {B B'} (m : GM (Frame S) B) (k : B -> GM (Frame S) B') (k' : B' -> GM (Frame S) A) f :
  wp refund_panic (gbind m (fun b => gbind (k b) k')) Q f ->
  wp refund_panic (gbind (gbind m k) k') Q f.
Proof. unfold wp, gbind. by destruct (m f) as [[b s']| |]. Qed.

Lemma step_if {B} (b : bool) (m1 m2 : GM (Frame S) B) k f :
  (b = true -> wp refund_panic (gbind m1 k) Q f) -> (b = false -> wp refund_panic (gbind m2 k) Q f) ->
  wp refund_panic (gbind (if b then m1 else m2) k) Q f.
Proof. destruct b; auto. Qed.
End steps.

Section op_ends.
Context {S : Type} {D : StateDB S} {K : Keccak} {KL : KeccakLaws K} {SP : StateDBSpec S}.
Context {U : Uint256} {UL : Uint256Laws U} {E : EVM S}.
Implicit Types (e : EVMState S) (c : Contract) (m : Memory) (st : Stack).

(** The end of an instruction that changed at most the gas of the contract. *)
Lemma op_end_gas slack pc st m c e pc' st' m' g e' ret err :
  frame_ok (mkFrame pc st m c e) -> evm_ok e' -> evm_ext e e' -> zlen ret < 2 ^ 60 ->
  0 <= g <= Gas c + slack -> Gas c + slack < two64 ->
  (err = None -> stack_ok st' /\ zlen st' <= StackLimit /\ mem_ok m' /\ is_u64 pc') ->
  op_post slack (mkFrame pc st m c e) (ret, err) (mkFrame pc' st' m' (set_Gas g c) e').
Proof.
  intros [Hst Hl Hm Hc He Hpc] He' Hext Hret Hg Hslack Hok. cbn in *.
  assert (contract_ok e' (set_Gas g c)).
  { apply contract_ok_Gas; [by eapply contract_ok_ext|]. unfold is_u64. lia. }
  split; [split; try done; apply contract_same_Gas|]. split; [done|]. split; [cbn; lia|].
  intros Herr. destruct (Hok Herr) as (? & ? & ? & ?). by split.
Qed.

(** The end of an instruction that left the contract alone. *)
Lemma op_end pc st m c e pc' st' m' e' ret err :
  frame_ok (mkFrame pc st m c e) -> evm_ok e' -> evm_ext e e' -> zlen ret < 2 ^ 60 ->
  (err = None -> stack_ok st' /\ zlen st' <= StackLimit /\ mem_ok m' /\ is_u64 pc') ->
  op_post 0 (mkFrame pc st m c e) (ret, err) (mkFrame pc' st' m' c e').
Proof.
  intros Hf. pose proof (ok_Gas _ _ (ok_contract _ Hf)) as [H1 H2]. cbn in *.
  replace (op_post 0 (mkFrame pc st m c e) (ret, err) (mkFrame pc' st' m' c e')) with
    (op_post 0 (mkFrame pc st m c e) (ret, err) (mkFrame pc' st' m' (set_Gas (Gas c) c) e'))
    by by destruct c.
  intros. apply op_end_gas; try done; lia.
Qed.

Lemma op_post_mono s1 s2 f r f' : s1 <= s2 -> op_post s1 f r f' -> op_post s2 f r f'.
Proof. intros Hs (? & ? & ? & ?). split_and!; try done. lia. Qed.

Lemma nil_short : zlen (@nil byte) < 2 ^ 60.
Proof. reflexivity. Qed.
End op_ends.
#[export] Hint Resolve nil_short : r5.

(** [op_start] opens an [exec_ok] goal and takes [n] items off the stack. *)
Ltac op_split :=
  let Hst := fresh "Hst" in
  match goal with
  | Hf : frame_ok (mkFrame ?pc ?st ?m ?c ?e) |- _ =>
      pose proof (ok_stack _ Hf) as Hst; pose proof (ok_limit _ Hf);
      pose proof (ok_mem _ Hf); pose proof (ok_contract _ Hf);
      pose proof (ok_evm _ Hf); pose proof (ok_pc _ Hf);
      cbn [fr_stack fr_mem fr_contract fr_evm fr_pc] in *;
      unfold stack_ok in Hst;
      repeat match goal with H : Forall is_u256 (_ :: _) |- _ =>
        apply Forall_cons_1 in H; destruct H end;
      rewrite ?zlen_cons in *
  end.

Tactic Notation "op_start" int_or_var(n) :=
  intros [pc st m c e] Hf Hpops Hpush Hcode Hpre;
  cbn [fr_stack fr_mem fr_contract fr_evm fr_pc] in Hpops, Hpush, Hcode;
  do n (destruct st as [|?x st]; [exfalso; unfold zlen in Hpops; cbn in Hpops; lia|]);
  op_split.

Ltac ex_step :=
  lazymatch goal with
  | |- wp _ (gbind pop _) _ _ => apply step_pop
  | |- wp _ (gbind peek _) _ _ => apply step_peek
  | |- wp _ (gbind (setTop _) _) _ _ => apply step_setTop
  | |- wp _ (gbind (push _) _) _ _ => apply step_push
  | |- wp _ (gbind (setPc _) _) _ _ => apply step_setPc
  | |- wp _ (gbind contract _) _ _ => apply step_gget; cbn [fr_contract]
  | |- wp _ (gbind evm _) _ _ => apply step_gget; cbn [fr_evm]
  | |- wp _ (gbind (gget _) _) _ _ =>
      apply step_gget; cbn [fr_stack fr_mem fr_contract fr_evm fr_pc]
  | |- wp _ (gbind (gret _) _) _ _ => apply step_gret
  | |- wp _ (gbind (gbind _ _) _) _ _ => apply step_assoc
  | |- wp _ (gbind (sdb (GetCode _)) _) _ _ =>
      apply step_GetCode; [assumption|intros ?code ?e' ? ? ?]
  | |- wp _ (gbind (sdb (GetCodeHash _)) _) _ _ =>
      apply step_GetCodeHash; [assumption|intros ?h ?e' ? ?]
  | |- wp _ (gbind (sdb _) _) _ _ =>
      apply step_sdb; [assumption|solve [eauto with sdb]|intros ?b ?e' ? ?]
  | |- wp _ (gbind (if _ then _ else _) _) _ _ => apply step_if; intros
  | |- wp _ (if ?b then _ else _) _ _ => destruct b eqn:?
  | |- wp _ done_nil _ _ => unfold done_nil
  | |- wp _ (fail_with _) _ _ => unfold fail_with
  end.

Ltac ext_trans :=
  solve [reflexivity | assumption | etrans; eassumption
        | etrans; [eassumption|]; etrans; eassumption
        | etrans; [eassumption|]; etrans; [eassumption|]; etrans; eassumption].

(** Ends an instruction that leaves the contract alone. *)
Ltac op_finish :=
  apply wp_gret; apply op_end;
  [assumption | assumption | ext_trans | auto with r5
  | first [discriminate | intros _; split_and!;
      [unfold stack_ok; repeat (apply Forall_cons_2); repeat case_match; eauto with r5
      | rewrite ?zlen_cons in *; lia | try assumption | try assumption]]].

(** ** Lemmas: memory operands *)

Section memory_operands.
Context {S : Type} {U : Uint256} {UL : Uint256Laws U}.
Implicit Types (m : Memory) (f : Frame S).

(** The memory covers the access whose offset and length are items [i] and [j]
    of the stack, or whose length is fixed. *)
Definition covers_at (i j : nat) f : Prop :=
  forall off len, fr_stack f !! i = Some off -> fr_stack f !! j = Some len ->
    covers (Memory_Len (fr_mem f)) off len.
Definition covers_fixed (i : nat) (len : Z) f : Prop :=
  forall off, fr_stack f !! i = Some off -> covers (Memory_Len (fr_mem f)) off len.

Lemma Uint64_small x : 0 <= x < 2 ^ 63 -> u256_Uint64 x = x /\ i64 (u256_Uint64 x) = x.
Proof.
  intros H. rewrite Uint64_spec by (unfold is_u256, two256; lia).
  rewrite u64_small by (unfold is_u64, two64; lia). split; [done|]. by apply i64_small.
Qed.

Lemma covers_small m off len :
  mem_ok m -> is_u256 off -> is_u256 len -> covers (Memory_Len m) off len ->
  len = 0 \/ (0 <= off < 2 ^ 37 /\ 0 < len < 2 ^ 37 /\ off + len <= Memory_Len m).
Proof.
  intros [Hm _ _] Ho Hl [->|[H1 H2]]; [by left|right]. unfold is_u256, MaxMemory in *. lia.
Qed.

Lemma GetPtr_covered m off len :
  mem_ok m -> is_u256 off -> is_u256 len -> covers (Memory_Len m) off len ->
  exists d, Memory_GetPtr (i64 (u256_Uint64 off)) (i64 (u256_Uint64 len)) m = Ret d /\
    zlen d < 2 ^ 60.
Proof.
  intros Hm Ho Hl Hc. destruct (covers_small _ _ _ Hm Ho Hl Hc) as [->|(H1 & H2 & H3)].
  - destruct (Uint64_small 0) as [_ ->]; [lia|]. exists []. done.
  - destruct (Uint64_small off) as [_ ->]; [lia|]. destruct (Uint64_small len) as [_ ->]; [lia|].
    destruct (Memory_GetPtr_ok m off len) as (d & Hd & _ & Hb); [apply Hm|done|lia|].
    exists d. split; [done|]. unfold MaxMemory in Hb. lia.
Qed.

Lemma GetCopy_covered m off len :
  mem_ok m -> is_u256 off -> is_u256 len -> covers (Memory_Len m) off len ->
  exists d, Memory_GetCopy (i64 (u256_Uint64 off)) (i64 (u256_Uint64 len)) m = Ret d /\
    zlen d < 2 ^ 60.
Proof.
  intros Hm Ho Hl Hc. rewrite Memory_GetCopy_GetPtr; [by apply GetPtr_covered|].
  destruct (covers_small _ _ _ Hm Ho Hl Hc) as [->|(H1 & H2 & H3)].
  - destruct (Uint64_small 0) as [_ ->]; lia.
  - destruct (Uint64_small len) as [_ ->]; lia.
Qed.

Lemma mem_ok_same m m' :
  mem_ok m -> Memory_Len m' = Memory_Len m -> lastGasCost m' = lastGasCost m -> mem_ok m'.
Proof. intros [] H1 H2. split; congruence. Qed.

Lemma Set_covered m off len v :
  mem_ok m -> is_u256 off -> is_u256 len -> covers (Memory_Len m) off len ->
  exists m', Memory_Set (u256_Uint64 off) (u256_Uint64 len) v m = Ret (tt, m') /\ mem_ok m'.
Proof.
  intros Hm Ho Hl Hc.
  assert (exists m', Memory_Set (u256_Uint64 off) (u256_Uint64 len) v m = Ret (tt, m') /\
    Memory_Len m' = Memory_Len m /\ lastGasCost m' = lastGasCost m) as (m' & Hs & H1 & H2).
  { pose proof (Uint64_range off Ho) as [? _]. pose proof (Uint64_range len Hl) as [? _].
    apply Memory_Set_ok; [apply Hm|done|done|].
    destruct (covers_small _ _ _ Hm Ho Hl Hc) as [->|(H1 & H2 & H3)].
    - left. by destruct (Uint64_small 0) as [-> _].
    - destruct (Uint64_small off) as [-> _]; [lia|]. by destruct (Uint64_small len) as [-> _]; [lia|]. }
  exists m'. split; [done|]. by eapply mem_ok_same.
Qed.

(** Copied data of the length the memory covers. *)
Lemma getData_covered m data start off len :
  mem_ok m -> zlen data < 2 ^ 60 -> is_u64 start -> is_u256 off -> is_u256 len ->
  covers (Memory_Len m) off len -> exists d, getData data start (u256_Uint64 len) = Ret d.
Proof.
  intros Hm Hd Hs Ho Hl Hc.
  assert (0 <= u256_Uint64 len < 2 ^ 63) as Hsz.
  { destruct (covers_small _ _ _ Hm Ho Hl Hc) as [->|(H1 & H2 & H3)].
    - destruct (Uint64_small 0) as [-> _]; lia.
    - destruct (Uint64_small len) as [-> _]; lia. }
  destruct (getData_ok data start (u256_Uint64 len)) as (d & H & _); [lia|done|done|]. by exists d.
Qed.
End memory_operands.

Section exec.
Context {S : Type} {D : StateDB S} {K : Keccak} {KL : KeccakLaws K} {SP : StateDBSpec S}.
Context {U : Uint256} {UL : Uint256Laws U} {E : EVM S} {C : Calls S}.

(** Instructions that only use the stack and the database. *)
Tactic Notation "simple_op" int_or_var(n) reference(op) := op_start n; unfold op; repeat ex_step; op_finish.

Lemma u256_of_bool_range b : is_u256 (u256_of_bool b).
Proof. destruct b; unfold u256_of_bool; eauto with r5. Qed.
Hint Resolve u256_of_bool_range : r5.

Lemma opAdd_ok : exec_ok opAdd 2 1 no_pre no_slack.
Proof. simple_op 2 opAdd. Qed.
Lemma opSub_ok : exec_ok opSub 2 1 no_pre no_slack.
Proof. simple_op 2 opSub. Qed.
Lemma opMul_ok : exec_ok opMul 2 1 no_pre no_slack.
Proof. simple_op 2 opMul. Qed.
Lemma opDiv_ok : exec_ok opDiv 2 1 no_pre no_slack.
Proof. simple_op 2 opDiv. Qed.
Lemma opSdiv_ok : exec_ok opSdiv 2 1 no_pre no_slack.
Proof. simple_op 2 opSdiv. Qed.
Lemma opMod_ok : exec_ok opMod 2 1 no_pre no_slack.
Proof. simple_op 2 opMod. Qed.
Lemma opSmod_ok : exec_ok opSmod 2 1 no_pre no_slack.
Proof. simple_op 2 opSmod. Qed.
Lemma opExp_ok : exec_ok opExp 2 1 no_pre no_slack.
Proof. simple_op 2 opExp. Qed.
Lemma opSignExtend_ok : exec_ok opSignExtend 2 1 no_pre no_slack.
Proof. simple_op 2 opSignExtend. Qed.
Lemma opNot_ok : exec_ok opNot 1 1 no_pre no_slack.
Proof. simple_op 1 opNot. Qed.
Lemma opLt_ok : exec_ok opLt 2 1 no_pre no_slack.
Proof. simple_op 2 opLt. Qed.
Lemma opGt_ok : exec_ok opGt 2 1 no_pre no_slack.
Proof. simple_op 2 opGt. Qed.
Lemma opSlt_ok : exec_ok opSlt 2 1 no_pre no_slack.
Proof. simple_op 2 opSlt. Qed.
Lemma opSgt_ok : exec_ok opSgt 2 1 no_pre no_slack.
Proof. simple_op 2 opSgt. Qed.
Lemma opEq_ok : exec_ok opEq 2 1 no_pre no_slack.
Proof. simple_op 2 opEq. Qed.
Lemma opIszero_ok : exec_ok opIszero 1 1 no_pre no_slack.
Proof. simple_op 1 opIszero. Qed.
Lemma opAnd_ok : exec_ok opAnd 2 1 no_pre no_slack.
Proof. simple_op 2 opAnd. Qed.
Lemma opOr_ok : exec_ok opOr 2 1 no_pre no_slack.
Proof. simple_op 2 opOr. Qed.
Lemma opXor_ok : exec_ok opXor 2 1 no_pre no_slack.
Proof. simple_op 2 opXor. Qed.
Lemma opByte_ok : exec_ok opByte 2 1 no_pre no_slack.
Proof. simple_op 2 opByte. Qed.
Lemma opAddmod_ok : exec_ok opAddmod 3 1 no_pre no_slack.
Proof. simple_op 3 opAddmod. Qed.
Lemma opMulmod_ok : exec_ok opMulmod 3 1 no_pre no_slack.
Proof. simple_op 3 opMulmod. Qed.
Lemma opSHL_ok : exec_ok opSHL 2 1 no_pre no_slack.
Proof. simple_op 2 opSHL. Qed.
Lemma opSHR_ok : exec_ok opSHR 2 1 no_pre no_slack.
Proof. simple_op 2 opSHR. Qed.
Lemma opSAR_ok : exec_ok opSAR 2 1 no_pre no_slack.
Proof. simple_op 2 opSAR. Qed.

Lemma opAddress_ok : exec_ok opAddress 0 1 no_pre no_slack.
Proof. simple_op 0 opAddress. Qed.
Lemma opBalance_ok : exec_ok opBalance 1 1 no_pre no_slack.
Proof. simple_op 1 opBalance. Qed.
Lemma opOrigin_ok : exec_ok opOrigin 0 1 no_pre no_slack.
Proof. simple_op 0 opOrigin. Qed.
Lemma opCaller_ok : exec_ok opCaller 0 1 no_pre no_slack.
Proof. simple_op 0 opCaller. Qed.
Lemma opCallDataSize_ok : exec_ok opCallDataSize 0 1 no_pre no_slack.
Proof. simple_op 0 opCallDataSize. Qed.
Lemma opReturnDataSize_ok : exec_ok opReturnDataSize 0 1 no_pre no_slack.
Proof. simple_op 0 opReturnDataSize. Qed.
Lemma opExtCodeSize_ok : exec_ok opExtCodeSize 1 1 no_pre no_slack.
Proof. simple_op 1 opExtCodeSize. Qed.
Lemma opCodeSize_ok : exec_ok opCodeSize 0 1 no_pre no_slack.
Proof. simple_op 0 opCodeSize. Qed.
Lemma opExtCodeHash_ok : exec_ok opExtCodeHash 1 1 no_pre no_slack.
Proof. simple_op 1 opExtCodeHash. Qed.
Lemma opGasprice_ok : exec_ok opGasprice 0 1 no_pre no_slack.
Proof. simple_op 0 opGasprice. Qed.
Lemma opCoinbase_ok : exec_ok opCoinbase 0 1 no_pre no_slack.
Proof. simple_op 0 opCoinbase. Qed.
Lemma opTimestamp_ok : exec_ok opTimestamp 0 1 no_pre no_slack.
Proof. simple_op 0 opTimestamp. Qed.
Lemma opNumber_ok : exec_ok opNumber 0 1 no_pre no_slack.
Proof. simple_op 0 opNumber. Qed.
Lemma opDifficulty_ok : exec_ok opDifficulty 0 1 no_pre no_slack.
Proof. simple_op 0 opDifficulty. Qed.
Lemma opGasLimit_ok : exec_ok opGasLimit 0 1 no_pre no_slack.
Proof. simple_op 0 opGasLimit. Qed.
Lemma opPop_ok : exec_ok opPop 1 0 no_pre no_slack.
Proof. simple_op 1 opPop. Qed.
Lemma opSload_ok : exec_ok opSload 1 1 no_pre no_slack.
Proof. simple_op 1 opSload. Qed.
Lemma opSstore_ok : exec_ok opSstore 2 0 no_pre no_slack.
Proof. simple_op 2 opSstore. Qed.
Lemma opJumpdest_ok : exec_ok opJumpdest 0 0 no_pre no_slack.
Proof. simple_op 0 opJumpdest. Qed.
Lemma opPc_ok : exec_ok opPc 0 1 no_pre no_slack.
Proof. simple_op 0 opPc. Qed.
Lemma opMsize_ok : exec_ok opMsize 0 1 no_pre no_slack.
Proof. simple_op 0 opMsize. Qed.
Lemma opGas_ok : exec_ok opGas 0 1 no_pre no_slack.
Proof. simple_op 0 opGas. Qed.
Lemma opStop_ok : exec_ok opStop 0 0 no_pre no_slack.
Proof. simple_op 0 opStop. Qed.
Lemma opSelfdestruct_ok : exec_ok opSelfdestruct 1 0 no_pre no_slack.
Proof.
  op_start 1. unfold opSelfdestruct. do 2 ex_step; [ex_step; op_finish|]. do 2 ex_step.
  apply step_retire; [done|]. intros u e' ? ?. ex_step. op_finish.
Qed.
Lemma opSelfBalance_ok : exec_ok opSelfBalance 0 1 no_pre no_slack.
Proof. simple_op 0 opSelfBalance. Qed.
Lemma opTload_ok : exec_ok opTload 1 1 no_pre no_slack.
Proof. simple_op 1 opTload. Qed.
Lemma opTstore_ok : exec_ok opTstore 2 0 no_pre no_slack.
Proof. simple_op 2 opTstore. Qed.
Lemma opPush0_ok : exec_ok opPush0 0 1 no_pre no_slack.
Proof. simple_op 0 opPush0. Qed.

Lemma opCallValue_ok : exec_ok opCallValue 0 1 no_pre no_slack.
Proof.
  op_start 0. unfold opCallValue, pushBig. repeat ex_step.
  destruct (value c) eqn:Ev; [|by destruct (ok_value _ _ H1)]. repeat ex_step. op_finish.
Qed.

Lemma opChainID_ok : is_Some (ChainID chainConfig) -> exec_ok opChainID 0 1 no_pre no_slack.
Proof. intros [i Hi]. op_start 0. unfold opChainID, pushBig. rewrite Hi. repeat ex_step. op_finish. Qed.

Lemma opBaseFee_ok : is_Some (BaseFee Context) -> exec_ok opBaseFee 0 1 no_pre no_slack.
Proof. intros [i Hi]. op_start 0. unfold opBaseFee, pushBig. rewrite Hi. repeat ex_step. op_finish. Qed.

Lemma opRandom_ok : is_Some (Random Context) -> exec_ok opRandom 0 1 no_pre no_slack.
Proof. intros [i Hi]. op_start 0. unfold opRandom. rewrite Hi. repeat ex_step. op_finish. Qed.

Lemma opBlockhash_ok : exec_ok opBlockhash 1 1 no_pre no_slack.
Proof.
  op_start 1. unfold opBlockhash. ex_step. destruct (u256_Uint64WithOverflow x) as [n o].
  repeat ex_step; op_finish.
Qed.

Lemma opCallDataLoad_ok : exec_ok opCallDataLoad 1 1 no_pre no_slack.
Proof.
  op_start 1. unfold opCallDataLoad. ex_step.
  destruct (u256_Uint64WithOverflow x) as [n o] eqn:Eo. repeat ex_step; [|op_finish].
  zbool. subst o. apply Uint64WithOverflow_ok in Eo as [_ Hn]; [|done].
  destruct (getData_ok (Input c) n 32) as (d & Hd & _); [pose proof (ok_Input _ _ H1); lia|done|lia|].
  eapply step_gpure; [exact Hd|]. repeat ex_step. op_finish.
Qed.

(** *** Copies *)

(** The offset of a copy, clamped where it does not fit. *)
Lemma clamp_u64 x n o :
  is_u256 x -> u256_Uint64WithOverflow x = (n, o) -> is_u64 (if o then 0xffffffffffffffff else n).
Proof.
  intros Hx Ho. destruct o; [split; [lia|reflexivity]|]. by apply (Uint64WithOverflow_ok x) in Ho as [_ ?].
Qed.

(** Any copy ends by writing the data into covered memory. *)
Lemma copy_end pc0 st0 m c e pc st e' off len v :
  frame_ok (mkFrame pc0 st0 m c e) -> evm_ok e' -> evm_ext e e' -> is_u64 pc ->
  stack_ok st -> zlen st <= StackLimit ->
  is_u256 off -> is_u256 len -> covers (Memory_Len m) off len ->
  wp refund_panic (gbind (memSet (u256_Uint64 off) (u256_Uint64 len) v) (fun _ => done_nil))
    (op_post 0 (mkFrame pc0 st0 m c e)) (mkFrame pc st m c e').
Proof.
  intros Hf He' Hext Hpc Hst Hl Ho Hn Hc.
  destruct (Set_covered m off len v (ok_mem _ Hf) Ho Hn Hc) as (m' & Hs & Hm').
  eapply step_on_mem; [exact Hs|]. apply wp_gret. by apply op_end.
Qed.

Ltac copy_finish :=
  apply copy_end;
  first [assumption | ext_trans | lia
        | match goal with H : covers_at _ _ _ |- _ => by apply H end].

Lemma opCallDataCopy_ok : exec_ok opCallDataCopy 3 0 (covers_at 0 2) no_slack.
Proof.
  op_start 3. unfold opCallDataCopy. do 3 ex_step.
  destruct (u256_Uint64WithOverflow x0) as [n o] eqn:Eo. apply clamp_u64 in Eo; [|done]. repeat ex_step.
  destruct (getData_covered m (Input c) (if o then 0xffffffffffffffff else n) x x1) as [d Hd];
    try done; [apply H1|by apply Hpre|].
  eapply step_gpure; [exact Hd|]. copy_finish.
Qed.

Lemma opCodeCopy_ok : exec_ok opCodeCopy 3 0 (covers_at 0 2) no_slack.
Proof.
  op_start 3. unfold opCodeCopy. do 3 ex_step.
  destruct (u256_Uint64WithOverflow x0) as [n o] eqn:Eo. apply clamp_u64 in Eo; [|done]. repeat ex_step.
  destruct (getData_covered m (Code c) (if o then 0xffffffffffffffff else n) x x1) as [d Hd];
    try done; [apply H1|by apply Hpre|].
  eapply step_gpure; [exact Hd|]. copy_finish.
Qed.

Lemma opExtCodeCopy_ok : exec_ok opExtCodeCopy 4 0 (covers_at 1 3) no_slack.
Proof.
  op_start 4. unfold opExtCodeCopy. do 4 ex_step.
  destruct (u256_Uint64WithOverflow x1) as [n o] eqn:Eo. apply clamp_u64 in Eo; [|done]. repeat ex_step.
  destruct (getData_covered m code (if o then 0xffffffffffffffff else n) x0 x2) as [d Hd];
    try done; [by apply Hpre|].
  eapply step_gpure; [exact Hd|]. copy_finish.
Qed.

Lemma opReturnDataCopy_ok : exec_ok opReturnDataCopy 3 0 (covers_at 0 2) no_slack.
Proof.
  op_start 3. unfold opReturnDataCopy. do 3 ex_step.
  destruct (u256_Uint64WithOverflow x0) as [n o] eqn:Eo. ex_step; [ex_step; op_finish|].
  destruct (u256_Uint64WithOverflow (u256_Add x0 x1)) as [n2 o2] eqn:Eo2. do 2 ex_step; [ex_step; op_finish|].
  subst o. apply orb_false_iff in Heqb0 as [-> Hlen]. zbool.
  apply Uint64WithOverflow_ok in Eo as [-> Hn]; [|done].
  apply Uint64WithOverflow_ok in Eo2 as [-> Hn2]; [|eauto with r5].
  assert (covers (Memory_Len m) x x1) as Hcov by by apply Hpre.
  assert (0 <= x1 < 2 ^ 37) as Hx1.
  { destruct (covers_small m x x1) as [->|(? & ? & ?)]; try done; lia. }
  rewrite Add_spec in * by done. unfold is_u64, two64 in Hn.
  rewrite Z.mod_small in * by (unfold two256; lia).
  destruct (go_slice_ok (returnData e) x0 (x0 + x1)) as (d & Hd & _); [lia|lia|].
  eapply step_gpure; [exact Hd|]. copy_finish.
Qed.

(** *** Memory *)

Lemma opKeccak256_ok : exec_ok opKeccak256 2 1 (covers_at 0 1) no_slack.
Proof.
  op_start 2. unfold opKeccak256. repeat ex_step.
  destruct (GetPtr_covered m x x0) as (d & Hd & _); try done; [by apply Hpre|].
  eapply step_memGetPtr; [exact Hd|]. repeat ex_step; op_finish.
Qed.

Lemma opMload_ok : exec_ok opMload 1 1 (covers_fixed 0 32) no_slack.
Proof.
  op_start 1. unfold opMload. repeat ex_step.
  destruct (GetPtr_covered m x 32) as (d & Hd & _); try done; [by apply Hpre|].
  destruct (Uint64_small 32) as [_ H32]; [lia|]. rewrite H32 in Hd.
  eapply step_memGetPtr; [exact Hd|]. repeat ex_step; op_finish.
Qed.

Lemma opMstore_ok : exec_ok opMstore 2 0 (covers_fixed 0 32) no_slack.
Proof.
  op_start 2. unfold opMstore. repeat ex_step.
  destruct (Hpre x eq_refl) as [?|[_ Hc]]; [done|]. cbn [fr_mem] in Hc. pose proof (ok_Len _ H0).
  unfold is_u256, MaxMemory in *. destruct (Uint64_small x) as [-> _]; [lia|].
  destruct (Memory_Set32_ok m x x0) as (m' & Hm & Hl & Hg); [done|lia|done|].
  eapply step_on_mem; [exact Hm|]. pose proof (mem_ok_same m m' H0 Hl Hg). repeat ex_step. op_finish.
Qed.

Lemma opMstore8_ok : exec_ok opMstore8 2 0 (covers_fixed 0 1) no_slack.
Proof.
  op_start 2. unfold opMstore8. repeat ex_step.
  destruct (Hpre x eq_refl) as [?|[_ Hc]]; [done|]. cbn [fr_mem] in Hc. pose proof (ok_Len _ H0).
  unfold is_u256, MaxMemory in *. destruct (Uint64_small x) as [-> _]; [lia|].
  destruct (Memory_setByte_ok m x (byte_of_Z (u256_Uint64 x0))) as (m' & Hm & Hl & Hg); [lia|].
  eapply step_on_mem; [exact Hm|]. pose proof (mem_ok_same m m' H0 Hl Hg). repeat ex_step. op_finish.
Qed.

Lemma opReturn_ok : exec_ok opReturn 2 0 (covers_at 0 1) no_slack.
Proof.
  op_start 2. unfold opReturn. repeat ex_step.
  destruct (GetPtr_covered m x x0) as (d & Hd & Hl); try done; [by apply Hpre|].
  eapply step_memGetPtr; [exact Hd|]. op_finish.
Qed.

Lemma evm_ok_returnData e d : evm_ok e -> zlen d < 2 ^ 60 -> evm_ok (set_returnData d e).
Proof. by intros [] Hd; split. Qed.

Lemma evm_ext_returnData e e' d : evm_ext e e' -> evm_ext e (set_returnData d e').
Proof. by intros []; split. Qed.

Lemma opRevert_ok : exec_ok opRevert 2 0 (covers_at 0 1) no_slack.
Proof.
  op_start 2. unfold opRevert. repeat ex_step.
  destruct (GetPtr_covered m x x0) as (d & Hd & Hl); try done; [by apply Hpre|].
  eapply step_memGetPtr; [exact Hd|].
  change (wp refund_panic (gret (d, Some ErrExecutionReverted))
    (op_post 0 (mkFrame pc (x :: x0 :: st) m c e)) (mkFrame pc st m c (set_returnData d e))).
  apply wp_gret, op_end; try done. by apply evm_ok_returnData.
Qed.

(** *** Jumps *)

(** The analysis of the contract's code, local, shared or new, answers for
    every position of the code; storing it keeps the invariants. *)
Lemma isCode_ok pc st m c e udest (Q : bool -> Frame S -> Prop) :
  contract_ok e c -> evm_ok e -> 0 <= udest < zlen (Code c) ->
  (forall c' e', contract_same c c' -> Gas c' = Gas c -> contract_ok e' c' -> evm_ok e' ->
     evm_ext e e' -> Q (is_instruction (Code c) (Z.to_nat udest)) (mkFrame pc st m c' e')) ->
  wp refund_panic (isCode udest) Q (mkFrame pc st m c e).
Proof.
  intros Hc He Hu HQ. unfold isCode. apply wp_gbind, wp_gget. cbn [fr_contract].
  destruct (codeBitmap_spec (Code c)) as (bits & Hb & _ & Hspec); [apply Hc|].
  specialize (Hspec (Z.to_nat udest) ltac:(unfold zlen in *; lia)). rewrite Z2Nat.id in Hspec by lia.
  destruct (analysis c) as [a|] eqn:Ea.
  { rewrite (ok_analysis _ _ Hc _ Ea) in Hb. injection Hb as ->.
    eapply wp_gpure; [exact Hspec|]. by apply HQ. }
  assert (contract_ok e (set_analysis bits c)) as Hc'.
  { destruct Hc; split; try done. intros a [= <-]. done. }
  assert (contract_same c (set_analysis bits c)) as Hs by done.
  destruct (negb (CodeHash c =? 0)) eqn:Eh; zbool.
  - apply wp_gbind, wp_gget. cbn [fr_evm].
    destruct (lookup_lt_is_Some_2 (jumpmaps e) (jumpdests c)) as [mp Hmp]; [apply Hc|]. rewrite Hmp.
    destruct (ok_CodeHash _ _ Hc Eh) as [Hnil|Hkec]; [unfold zlen in Hu; rewrite Hnil in Hu; cbn in Hu; lia|]. pose proof (ok_jumpmaps _ He _ _ Hmp) as Hok.
    destruct (mp !! CodeHash c) as [a|] eqn:Ea2.
    + destruct (Hok _ _ Ea2) as (code & Hk & Hb'). rewrite Hkec in Hk.
      apply keccak256_inj in Hk as ->. rewrite Hb in Hb'. injection Hb' as <-.
      apply step_gret. eapply wp_gpure; [exact Hspec|]. by apply HQ.
    + apply step_assoc. eapply step_gpure; [exact Hb|].
      set (e' := set_jumpmaps (<[jumpdests c := <[CodeHash c := bits]> mp]> (jumpmaps e)) e).
      assert (evm_ext e e') as Hext.
      { split; try done. cbn. by rewrite length_insert. }
      assert (evm_ok e') as He'.
      { destruct He; split; try done. cbn. intros j m' Hj.
        destruct (decide (j = jumpdests c)) as [->|Hne].
        - rewrite list_lookup_insert_eq in Hj by (by apply lookup_lt_Some in Hmp). injection Hj as <-.
          intros h a. destruct (decide (h = CodeHash c)) as [->|Hh].
          + rewrite lookup_insert_eq. intros [= <-]. by exists (Code c).
          + rewrite lookup_insert_ne by done. apply Hok.
        - rewrite list_lookup_insert_ne in Hj by done. eauto. }
      change (wp refund_panic (gpure (codeSegment bits udest)) Q
        (mkFrame pc st m (set_analysis bits c) e')).
      eapply wp_gpure; [exact Hspec|]. apply HQ; try done. by eapply contract_ok_ext.
  - eapply step_gpure; [exact Hb|].
    change (wp refund_panic (gpure (codeSegment bits udest)) Q
      (mkFrame pc st m (set_analysis bits c) e)).
    eapply wp_gpure; [exact Hspec|]. by apply HQ.
Qed.

Lemma validJumpdest_ok pc st m c e dest (Q : bool -> Frame S -> Prop) :
  contract_ok e c -> evm_ok e -> is_u256 dest ->
  (forall b c' e', (b = true -> Code c !! Z.to_nat dest = Some JUMPDEST /\
                      is_instruction (Code c) (Z.to_nat dest) = true) ->
     contract_same c c' -> Gas c' = Gas c -> contract_ok e' c' -> evm_ok e' -> evm_ext e e' ->
     Q b (mkFrame pc st m c' e')) ->
  wp refund_panic (validJumpdest dest) Q (mkFrame pc st m c e).
Proof.
  intros Hc He Hd HQ. unfold validJumpdest. apply wp_gbind, wp_gget. cbn [fr_contract].
  destruct (u256_Uint64WithOverflow dest) as [u o] eqn:Eo.
  destruct (o || (u >=? zlen (Code c))) eqn:Eb; [by apply wp_gret, HQ|].
  apply orb_false_iff in Eb as [-> Hlt]. zbool. apply Uint64WithOverflow_ok in Eo as [-> [Hu _]]; [|done].
  destruct (go_index_ok (Code c) dest) as (op & Hop & Hl); [lia|].
  eapply step_gpure; [exact Hop|].
  destruct (negb (bool_decide (op = JUMPDEST))) eqn:Ej; [by apply wp_gret, HQ|]. zbool.
  apply bool_decide_eq_true in Ej as ->. apply isCode_ok; [done..|]. intros c' e' ? ? ? ? ?.
  by apply HQ.
Qed.

(** The end of a jump. *)
Lemma jump_end pc0 st0 m c e pc st e1 dest :
  frame_ok (mkFrame pc0 st0 m c e) -> evm_ok e1 -> evm_ext e e1 -> is_u64 pc -> stack_ok st ->
  zlen st <= StackLimit -> is_u256 dest ->
  wp refund_panic
    (let* valid := validJumpdest dest in
     if negb valid then fail_with ErrInvalidJump
     else setPc (u64 (u256_Uint64 dest - 1)) ;;; done_nil)
    (op_post 0 (mkFrame pc0 st0 m c e)) (mkFrame pc st m c e1).
Proof.
  intros Hf He1 Hext Hpc Hst Hl Hd. pose proof Hf as [_ _ Hm Hc _ _]. cbn in Hm, Hc.
  apply wp_gbind, validJumpdest_ok; [by eapply contract_ok_ext|done..|].
  intros b c' e' Hb Hs Hg Hc' He' Hext'.
  assert (frame_done (mkFrame pc0 st0 m c e) (mkFrame pc st m c' e')) as Hdone.
  { split; try done. cbn. by etrans. }
  assert (frame_done (mkFrame pc0 st0 m c e)
    (mkFrame (u64 (u256_Uint64 dest - 1)) st m c' e')) as Hdone' by by destruct Hdone.
  destruct b; cbn [negb].
  - apply step_setPc, wp_gret. split; [done|]. split; [done|]. split; [cbn; lia|]. intros _.
    split; try done. apply u64_range.
  - apply wp_gret. split; [done|]. split; [done|]. split; [cbn; lia|]. done.
Qed.

Lemma abort_step pc st m c e (k : bool -> executionFunc S) Q :
  evm_ok e ->
  (forall b e', evm_ok e' -> evm_ext e e' -> wp refund_panic (k b) Q (mkFrame pc st m c e')) ->
  wp refund_panic (gbind (on_evm abort_Load) k) Q (mkFrame pc st m c e).
Proof.
  intros [] Hk. change (wp refund_panic (k (abort_load (aborts e))) Q
    (mkFrame pc st m c (set_aborts (aborts e + 1) e))). by apply Hk.
Qed.

Lemma opJump_ok : exec_ok opJump 1 0 no_pre no_slack.
Proof.
  op_start 1. unfold opJump. apply abort_step; [done|]. intros b e' ? ?. destruct b; [ex_step; op_finish|].
  ex_step. apply jump_end; try assumption; lia.
Qed.

Lemma opJumpi_ok : exec_ok opJumpi 2 0 no_pre no_slack.
Proof.
  op_start 2. unfold opJumpi. apply abort_step; [done|]. intros b e' ? ?. destruct b; [ex_step; op_finish|].
  do 3 ex_step; [apply jump_end; try assumption; lia|]. ex_step. op_finish.
Qed.

(** *** Ends, logs, pushes *)

Lemma opUndefined_ok : exec_ok opUndefined 0 0 no_pre no_slack.
Proof.
  op_start 0. unfold opUndefined. repeat ex_step.
  destruct (go_index_ok (Code c) pc) as (op & Hop & _); [unfold is_u64 in *; lia|].
  eapply step_gpure; [exact Hop|]. ex_step. op_finish.
Qed.

Lemma pop_topics_ok n pc st m c e (Q : list Hash -> Frame S -> Prop) :
  stack_ok st -> Z.of_nat n <= zlen st ->
  (forall ts, Q ts (mkFrame pc (drop n st) m c e)) ->
  wp refund_panic (pop_topics n) Q (mkFrame pc st m c e).
Proof.
  revert st Q. induction n as [|n IH]; intros st Q Hst Hn HQ; cbn [pop_topics].
  { apply wp_gret, HQ. }
  destruct st as [|x st]; [unfold zlen in Hn; cbn in Hn; lia|]. rewrite zlen_cons in Hn.
  apply step_pop, wp_gbind, IH; [by apply Forall_cons_1 in Hst as [_ ?]|lia|].
  intros ts. apply wp_gret, HQ.
Qed.

Lemma makeLog_ok n : exec_ok (makeLog n) (2 + Z.of_nat n) 0 (covers_at 0 1) no_slack.
Proof.
  op_start 2. unfold makeLog. do 2 ex_step; [ex_step; op_finish|]. do 2 ex_step.
  apply wp_gbind, pop_topics_ok; [done|lia|]. intros ts.
  destruct (GetCopy_covered m x x0) as (d & Hd & _); try done; [by apply Hpre|].
  eapply step_memGetCopy; [exact Hd|]. repeat ex_step. apply wp_gret, op_end; try done.
  intros _. split; [by apply Forall_drop|]. split; [|done].
  unfold zlen in *. rewrite length_drop. lia.
Qed.

Lemma opPush1_ok : exec_ok opPush1 0 1 no_pre no_slack.
Proof.
  op_start 0. unfold opPush1. pose proof (u64_range (pc + 1)). do 4 ex_step.
  - zbool. destruct (go_index_ok (Code c) (u64 (pc + 1))) as (b & Hb & _); [unfold is_u64 in *; lia|].
    eapply step_gpure; [exact Hb|]. repeat ex_step. op_finish.
  - repeat ex_step. op_finish.
Qed.

(** PUSHn takes the next bytes of the code, as many as there are. *)
Lemma makePush_ok n k : 0 <= k -> exec_ok (makePush n k) 0 1 no_pre no_slack.
Proof.
  intros Hk. op_start 0. unfold makePush. repeat ex_step. pose proof (u64_range (pc + n)).
  pose proof (ok_Code _ _ H1) as Hlen. unfold is_u64 in *.
  rewrite (u64_small (pc + 1)) by ulia. rewrite i64_small by lia.
  set (lo := if pc + 1 <? zlen (Code c) then pc + 1 else zlen (Code c)).
  assert (0 <= lo <= zlen (Code c)) by (unfold lo; case_match; zbool; lia).
  set (hi := if lo + k <? zlen (Code c) then lo + k else zlen (Code c)).
  assert (lo <= hi <= zlen (Code c)) by (unfold hi; case_match; zbool; lia).
  destruct (go_slice_ok (Code c) lo hi) as (d & Hd & _); [lia|lia|].
  eapply step_gpure; [exact Hd|]. repeat ex_step. op_finish.
Qed.

Lemma makeDup_ok n : 1 <= n -> exec_ok (makeDup n) n (n + 1) no_pre no_slack.
Proof.
  intros Hn. op_start 0. unfold makeDup. destruct (stack_dup_ok n st) as (x & Hx & Hr); [done|lia|].
  eapply step_on_stack; [exact Hx|]. ex_step. op_finish.
Qed.

Lemma makeSwap_ok n : 1 <= n -> exec_ok (makeSwap n) (n + 1) (n + 1) no_pre no_slack.
Proof.
  intros Hn. op_start 0. unfold makeSwap.
  destruct (stack_swap_ok (n + 1) st) as (st' & Hx & Hs & Hl); [done|lia|].
  eapply step_on_stack; [exact Hx|]. ex_step.
  apply wp_gret, op_end; try done. intros _. split_and!; [done|lia|done..].
Qed.
End exec.

(** ** Lemmas: creations and calls *)

Section exec_calls.
Context {S : Type} {D : StateDB S} {K : Keccak} {KL : KeccakLaws K} {SP : StateDBSpec S}.
Context {U : Uint256} {UL : Uint256Laws U} {E : EVM S} {C : Calls S}.
Context {dmin gmax : Z} {CS : CallsSpec dmin gmax C}.

(** The depth and gas bounds the frame's calls are promised for. *)
Definition bounds_ok (f : Frame S) : Prop := dmin <= depth (fr_evm f) /\ Gas (fr_contract f) < gmax.

Lemma addGas_ret_ok pc0 st0 m0 c0 e0 pc st m c e g d ret slack :
  frame_ok (mkFrame pc0 st0 m0 c0 e0) -> evm_ok e -> evm_ext e0 e ->
  (exists g0, c = set_Gas g0 c0 /\ 0 <= g0 /\ g0 + g <= Gas c0 + slack) -> 0 <= g ->
  Gas c0 + slack < two64 -> zlen ret < 2 ^ 60 -> zlen d < 2 ^ 60 ->
  stack_ok st -> zlen st <= StackLimit -> mem_ok m -> is_u64 pc ->
  wp refund_panic (addGas g ;;; setReturnData d ;;; gret (ret, None))
    (op_post slack (mkFrame pc0 st0 m0 c0 e0)) (mkFrame pc st m c e).
Proof.
  intros Hf He Hext (g0 & -> & Hg0 & Hle) Hg Hs Hret Hd Hst Hl Hm Hpc.
  change (op_post slack (mkFrame pc0 st0 m0 c0 e0) (ret, None)
    (mkFrame pc st m (set_Gas (u64 (g0 + g)) c0) (set_returnData d e))).
  rewrite u64_small by (unfold is_u64; lia).
  apply op_end_gas; try done; [by apply evm_ok_returnData|by apply evm_ext_returnData|lia].
Qed.

Lemma call_return_ok pc0 st0 m c e0 pc st e ro rs ret gasLeft err slack :
  frame_ok (mkFrame pc0 st0 m c e0) -> evm_ok e -> evm_ext e0 e ->
  0 <= gasLeft <= slack -> Gas c + slack < two64 -> zlen ret < 2 ^ 60 ->
  stack_ok st -> zlen st + 1 <= StackLimit -> is_u64 pc ->
  is_u256 ro -> is_u256 rs -> covers (Memory_Len m) ro rs ->
  wp refund_panic (call_return ro rs (ret, gasLeft, err))
    (op_post slack (mkFrame pc0 st0 m c e0)) (mkFrame pc st m c e).
Proof.
  intros Hf He Hext Hg Hs Hret Hst Hl Hpc Hro Hrs Hc. unfold call_return. apply step_push.
  assert (exists g0, c = set_Gas g0 c /\ 0 <= g0 /\ g0 + gasLeft <= Gas c + slack) as Hex.
  { exists (Gas c). pose proof (ok_Gas _ _ (ok_contract _ Hf)) as [? _]. cbn in *.
    split; [by destruct c|]. lia. }
  assert (stack_ok ((if bool_decide (is_Some err) then u256_Clear else u256_SetOne) :: st)) as Hst'.
  { apply Forall_cons_2; [case_match; eauto with r5|done]. }
  ex_step.
  - destruct (Set_covered m ro rs ret (ok_mem _ Hf) Hro Hrs Hc) as (m' & Hm & Hm').
    eapply step_on_mem; [exact Hm|]. apply addGas_ret_ok; try done; rewrite ?zlen_cons; lia.
  - ex_step. apply addGas_ret_ok; try done; try apply Hf; rewrite ?zlen_cons; lia.
Qed.

(** Running a call in the frame. *)
Lemma step_call {A} (m0 : GM (EVMState S) A) (P : A -> EVMState S -> Prop) k Q pc st m c e :
  wp refund_panic m0 P e ->
  (forall a e', P a e' -> wp refund_panic (k a) Q (mkFrame pc st m c e')) ->
  wp refund_panic (gbind (on_evm m0) k) (Q : list byte * option error -> Frame S -> Prop) (mkFrame pc st m c e).
Proof.
  intros Hm Hk. apply wp_gbind, wp_gzoom. eapply wp_mono; [exact Hm|]. intros a e' HP. by apply Hk.
Qed.

Definition call_slack (sends : Stack -> bool) (f : Frame S) : Z :=
  callGasTemp (fr_evm f) + (if sends (fr_stack f) then CallStipend else 0).

(** What the gas function of a call has established. *)
Definition call_ready (sends : Stack -> bool) (f : Frame S) : Prop :=
  bounds_ok f /\ is_u64 (callGasTemp (fr_evm f)) /\
  Gas (fr_contract f) + call_slack sends f < two64 /\ call_slack sends f < gmax.

Definition callee_warm (f : Frame S) : Prop :=
  forall a, fr_stack f !! 1%nat = Some a -> warm (fr_evm f) (u256_Bytes20 a).

Definition call7_pre (f : Frame S) : Prop :=
  call_ready (fun st => negb (u256_IsZero (nth 2 st 0))) f /\ callee_warm f /\
  covers_at 3 4 f /\ covers_at 5 6 f.
Definition call6_pre (f : Frame S) : Prop :=
  call_ready (fun _ => false) f /\ callee_warm f /\ covers_at 2 3 f /\ covers_at 4 5 f.

Definition slack7 : Frame S -> Z := call_slack (fun st => negb (u256_IsZero (nth 2 st 0))).
Definition slack6 : Frame S -> Z := call_slack (fun _ => false).

(** The value a call or creation sends is not negative. *)
Lemma call_value x : is_u256 x -> 0 <= (if negb (u256_IsZero x) then u256_ToBig x else 0).
Proof. intros Hx. destruct (negb _); [rewrite ToBig_spec by done; apply Hx|done]. Qed.

Lemma create_value x : is_u256 x -> 0 <= (if u256_IsZero x then 0 else u256_ToBig x).
Proof. intros Hx. pose proof (call_value x Hx). by destruct (u256_IsZero x). Qed.

Lemma stipend_u64 temp b :
  is_u64 temp -> temp + (if b : bool then CallStipend else 0) < two64 ->
  (if b then u64 (temp + CallStipend) else temp) = temp + (if b then CallStipend else 0).
Proof.
  intros Ht Hs. destruct b; [|lia]. apply u64_small. unfold is_u64, CallStipend in *. lia.
Qed.

(** Up to the call: decode the operands, read the input. *)
Ltac to_memory :=
  repeat lazymatch goal with
  | |- wp _ (gbind (memGetPtr _ _) _) _ _ => fail
  | |- wp _ (gbind (memGetCopy _ _) _) _ _ => fail
  | _ => ex_step end.
Ltac open_call Hpre :=
  destruct Hpre as (((Hd & Hg) & Ht & Hs & Hslack) & Hw & Hc1 & Hc2);
  unfold call_slack in Hs, Hslack; cbn in Hs, Hslack, Hd, Hg, Ht.
Ltac read_args m off size Hc :=
  let d := fresh "d" in let Hd := fresh "Hargs" in
  destruct (GetPtr_covered m off size) as (d & Hd & ?); try done; [by apply Hc|];
  eapply step_memGetPtr; [exact Hd|].
Ltac pre_call :=
  unfold call_pre, is_u64 in *; split_and!; try done; try lia; by apply as_caller_ok.
Ltac finish_call Hc :=
  let ret := fresh "ret" in let gl := fresh "gl" in let er := fresh "er" in
  intros [[ret gl] er] ? (? & ? & ? & ?);
  apply call_return_ok; try done;
  first [unfold slack7, slack6, call_slack; cbn [fr_evm fr_stack nth]; lia | by apply Hc].

Lemma opCall_ok : exec_ok opCall 7 1 call7_pre slack7.
Proof.
  op_start 7. unfold opCall. to_memory. open_call Hpre. read_args m x2 x3 Hc1.
  pose proof (ok_Gas _ _ H1) as [? _].
  assert (0 <= callGasTemp e + (if negb (u256_IsZero x1) then CallStipend else 0)) as Hnn.
  { unfold is_u64, CallStipend in *. case_match; lia. }
  do 2 ex_step; [ex_step; apply wp_gret; eapply op_post_mono; [exact Hnn|by apply op_end]|].
  rewrite stipend_u64 by (done || lia). ex_step.
  eapply step_call; [apply Call_ok; [pre_call|by apply Hw|by apply call_value]|]. finish_call Hc2.
Qed.

Lemma opCallCode_ok : exec_ok opCallCode 7 1 call7_pre slack7.
Proof.
  op_start 7. unfold opCallCode. to_memory. open_call Hpre. read_args m x2 x3 Hc1.
  pose proof (ok_Gas _ _ H1) as [? _].
  assert (0 <= callGasTemp e + (if negb (u256_IsZero x1) then CallStipend else 0)) as Hnn.
  { unfold is_u64, CallStipend in *. case_match; lia. }
  rewrite stipend_u64 by (done || lia). ex_step.
  eapply step_call; [apply CallCode_ok; pre_call|]. finish_call Hc2.
Qed.

Lemma opDelegateCall_ok : exec_ok opDelegateCall 6 1 call6_pre slack6.
Proof.
  op_start 6. unfold opDelegateCall. to_memory. open_call Hpre. read_args m x1 x2 Hc1.
  pose proof (ok_Gas _ _ H1) as [? _]. ex_step.
  eapply step_call; [apply DelegateCall_ok; [pre_call|done]|]. finish_call Hc2.
Qed.

Lemma opStaticCall_ok : exec_ok opStaticCall 6 1 call6_pre slack6.
Proof.
  op_start 6. unfold opStaticCall. to_memory. open_call Hpre. read_args m x1 x2 Hc1.
  pose proof (ok_Gas _ _ H1) as [? _]. ex_step.
  eapply step_call; [apply StaticCall_ok; [pre_call|by apply Hw]|]. finish_call Hc2.
Qed.

(** *** Creations *)

Definition create_pre (f : Frame S) : Prop := bounds_ok f /\ covers_at 1 2 f.

(** The end of a creation, with [gas] set aside for it. *)
Lemma create_end pc0 st0 m c e0 pc st e gas gasLeft x res suberr :
  frame_ok (mkFrame pc0 st0 m c e0) -> evm_ok e -> evm_ext e0 e ->
  0 <= gasLeft <= gas -> gas <= Gas c -> zlen res < 2 ^ 60 ->
  stack_ok st -> zlen st + 1 <= StackLimit -> is_u64 pc -> is_u256 x ->
  wp refund_panic (push x ;;; addGas gasLeft ;;; create_return res suberr)
    (op_post 0 (mkFrame pc0 st0 m c e0)) (mkFrame pc st m (set_Gas (Gas c - gas) c) e).
Proof.
  intros Hf He Hext Hl Hg Hret Hst Hlim Hpc Hx. apply step_push.
  pose proof (ok_Gas _ _ (ok_contract _ Hf)) as Hu. cbn in Hu. unfold is_u64 in Hu.
  assert (stack_ok (x :: st)) by by apply Forall_cons_2.
  pose proof (ok_mem _ Hf). pose proof (zlen_cons x st).
  unfold create_return. case_match.
  - apply addGas_ret_ok; try done; [|lia..]. exists (Gas c - gas). split; [done|]. lia.
  - apply addGas_ret_ok; try done; [|lia..]. exists (Gas c - gas). split; [done|]. lia.
Qed.

Lemma sixty_four g : 0 <= g < two64 -> 0 <= g - g / 64 <= g /\ u64 (g - g / 64) = g - g / 64.
Proof.
  intros H. assert (0 <= g - g / 64 <= g) as Hg.
  { pose proof (Z.div_mod g 64 ltac:(lia)). pose proof (Z.mod_pos_bound g 64 ltac:(lia)). lia. }
  split; [done|]. apply u64_small. unfold is_u64. lia.
Qed.

(** Setting aside gas of which there is enough. *)
Lemma step_UseGas g k Q pc st m c e :
  0 <= g <= Gas c -> Gas c < two64 ->
  wp refund_panic (k true) Q (mkFrame pc st m (set_Gas (Gas c - g) c) e) ->
  wp refund_panic (gbind (on_contract (UseGas g)) k)
    (Q : list byte * option error -> Frame S -> Prop) (mkFrame pc st m c e).
Proof.
  intros Hg Hc Hk. apply wp_gbind, wp_gzoom. unfold wp at 1. cbn [fr_contract].
  rewrite UseGas_spec by (unfold is_u64; lia). by rewrite (proj2 (Z.ltb_ge (Gas c) g)) by lia.
Qed.

Lemma opCreate_ok : exec_ok opCreate 3 1 create_pre no_slack.
Proof.
  op_start 3. unfold opCreate. do 2 ex_step; [ex_step; op_finish|]. to_memory.
  destruct Hpre as [[Hd Hg] Hc1]. cbn in Hd, Hg. pose proof (ok_Gas _ _ H1) as Hgas.
  destruct (GetCopy_covered m x0 x1) as (d & Hd1 & ?); try done; [by apply Hc1|].
  eapply step_memGetCopy; [exact Hd1|]. ex_step.
  destruct (sixty_four (Gas c) Hgas) as [H64 ->].
  set (gas := if rIsEIP150 chainRules then _ else _).
  assert (0 <= gas <= Gas c) as Hle by (unfold gas, is_u64 in *; case_match; lia). clearbody gas.
  unfold is_u64 in Hgas. apply step_UseGas; [lia|lia|].
  eapply step_call.
  { apply Create_ok; [|by apply create_value]. unfold call_pre, is_u64.
    split_and!; try done; try lia. by apply as_caller_ok. }
  intros [[[ret addr] gl] er] ? (? & ? & ? & ?).
  apply create_end; try done; try lia. repeat case_match; eauto with r5.
Qed.

Lemma opCreate2_ok : exec_ok opCreate2 4 1 create_pre no_slack.
Proof.
  op_start 4. unfold opCreate2. do 2 ex_step; [ex_step; op_finish|]. to_memory.
  destruct Hpre as [[Hd Hg] Hc1]. cbn in Hd, Hg. pose proof (ok_Gas _ _ H1) as Hgas.
  destruct (GetCopy_covered m x0 x1) as (d & Hd1 & ?); try done; [by apply Hc1|].
  eapply step_memGetCopy; [exact Hd1|]. ex_step.
  destruct (sixty_four (Gas c) Hgas) as [H64 ->].
  unfold is_u64 in Hgas. apply step_UseGas; [lia|lia|].
  eapply step_call.
  { apply Create2_ok; [|done|by apply create_value]. unfold call_pre, is_u64.
    split_and!; try done; try lia. by apply as_caller_ok. }
  intros [[[ret addr] gl] er] ? (? & ? & ? & ?).
  apply create_end; try done; try lia. repeat case_match; eauto with r5.
Qed.
End exec_calls.

(** ** Theorem *)

Section jumps.
Context {S : Type} {D : StateDB S} {K : Keccak} {KL : KeccakLaws K} {SP : StateDBSpec S}.
Context {U : Uint256} {UL : Uint256Laws U} {E : EVM S} {C : Calls S}.

(** [f] continues at the instruction [dest], a JUMPDEST that is not the operand
    of a push (the program counter is one before it, for the increment). *)
Definition jumped (f f' : Frame S) (dest : Z) : Prop :=
  fr_pc f' = u64 (dest - 1) /\ 0 <= dest < zlen (Code (fr_contract f)) /\
  Code (fr_contract f) !! Z.to_nat dest = Some JUMPDEST /\
  is_instruction (Code (fr_contract f)) (Z.to_nat dest) = true.

Lemma jump_lands pc0 pc st0 st m c e e1 dest :
  contract_ok e1 c -> evm_ok e1 -> is_u256 dest ->
  wp refund_panic
    (let* valid := validJumpdest dest in
     if negb valid then fail_with ErrInvalidJump
     else setPc (u64 (u256_Uint64 dest - 1)) ;;; done_nil)
    (fun r f' => r.2 = Some ErrInvalidJump \/ r.2 = None /\ jumped (mkFrame pc0 st0 m c e) f' dest)
    (mkFrame pc st m c e1).
Proof.
  intros Hc He Hd. apply wp_gbind, validJumpdest_ok; [done..|]. intros b c' e' Hb Hs Hg Hc' He' Hx.
  destruct b; cbn [negb]; [|apply wp_gret; by left]. apply step_setPc, wp_gret. right. split; [done|].
  destruct (Hb eq_refl) as [Hj Hi]. pose proof (lookup_lt_Some _ _ _ Hj) as Hlt.
  pose proof (ok_Code _ _ Hc) as Hlen. unfold jumped. cbn. rewrite Uint64_spec by done. fold (u64 dest).
  assert (0 <= dest < zlen (Code c)) as Hr by (destruct Hd; unfold zlen; lia).
  split_and!; try done; try lia. f_equal. rewrite u64_small; [done|]. unfold is_u64, two64. lia.
Qed.

(** A jump, taken or conditional, either fails with [ErrInvalidJump], stops
    because the run was cancelled, falls through, or lands on a JUMPDEST of the
    program at the start of an instruction, never inside the data of a push. *)
Theorem jumps_land f :
  frame_ok f -> 2 <= zlen (fr_stack f) ->
  (forall dest, head (fr_stack f) = Some dest ->
   wp refund_panic opJump (fun r f' =>
     r.2 = Some errStopToken \/ r.2 = Some ErrInvalidJump \/ r.2 = None /\ jumped f f' dest) f) /\
  (forall dest cond, take 2 (fr_stack f) = [dest; cond] ->
   wp refund_panic opJumpi (fun r f' =>
     r.2 = Some errStopToken \/ r.2 = Some ErrInvalidJump \/
     r.2 = None /\ (if cond =? 0 then fr_pc f' = fr_pc f else jumped f f' dest)) f).
Proof.
  intros [Hst _ _ Hc He _] Hlen. destruct f as [pc st m c e]. cbn in *.
  destruct st as [|x [|y st]]; try (exfalso; unfold zlen in *; cbn in *; lia).
  unfold stack_ok in Hst. apply Forall_cons_1 in Hst as [Hx [Hy _]%Forall_cons_1]. split.
  - intros dest [= <-]. unfold opJump. apply abort_step; [done|]. intros b e' He' Hx'. destruct b; [apply wp_gret; by left|].
    apply step_pop. eapply wp_mono; [apply (jump_lands pc _ (x :: y :: st) _ _ _ e); try done; by eapply contract_ok_ext|]. auto.
  - intros dest cond [= <- <-]. unfold opJumpi. apply abort_step; [done|]. intros b e' He' Hx'. destruct b; [apply wp_gret; by left|].
    do 2 apply step_pop. rewrite IsZero_spec by done. destruct (y =? 0) eqn:Ey; cbn [negb]; [apply wp_gret; auto|].
    eapply wp_mono; [apply (jump_lands pc _ (x :: y :: st) _ _ _ e); try done; by eapply contract_ok_ext|]. intros r f' [H|H]; auto.
Qed.
End jumps.
