(* ===== verification/JumpTable.v ===== *)
(** * The jump table (client/core/vm/jump_table.go, jump_table_export.go, eips.go)

    A [JumpTable] has an optional operation (a pointer, [None] is nil) for each
    of the 256 opcodes.  The instruction set of a fork is built from the one of
    the previous fork, starting from the Frontier table; every constructor
    builds fresh operations, so a table is a value here.  [copyJumpTable] is what
    keeps that true when [NewEVMInterpreter] activates extra EIPs. *)

From Stdlib Require Import Strings.Byte.
From S2P Require Import Prelude.
From S2P Require Import Uint256.
From S2P Require Import OpCodes.
From S2P Require Import Common.
From S2P Require Import Params.
From S2P Require Import Crypto.
From S2P Require Import StateInterface.
From S2P Require Import Stack.
From S2P Require Import Memory.
From S2P Require Import Analysis.
From S2P Require Import Machine.
From S2P Require Import Invariant.
From S2P Require Import GasTable.
From S2P Require Import Instructions.

Section jump_table.
Context {S : Type} {D : StateDB S} {U : Uint256} {K : Keccak} {E : EVM S} {C : Calls S}.

Definition JumpTable : Type := list (option (operation S)).

Definition op_index (op : OpCode) : nat := Z.to_nat (byte_val op).

(** [jt[op] = &operation{...}]. *)
Definition set_op (op : OpCode) (o : operation S) (jt : JumpTable) : JumpTable :=
  <[op_index op := Some o]> jt.

(** An assignment to a field of [jt[op]]. *)
Definition alter_op (f : operation S -> operation S) (op : OpCode) (jt : JumpTable) : Res JumpTable :=
  match jt !! op_index op with
  | Some (Some o) => Ret (<[op_index op := Some (f o)]> jt)
  | _ => Panic PanicNil
  end.

Definition with_constantGas (g : Z) (o : operation S) : operation S :=
  mkOperation (execute o) g (dynamicGas o) (minStack o) (maxStack o) (memorySize o).
Definition with_dynamicGas (g : gasFunc S) (o : operation S) : operation S :=
  mkOperation (execute o) (constantGas o) (Some g) (minStack o) (maxStack o) (memorySize o).

(** [validate]: every slot is set, and memory size implies dynamic gas. *)
Definition valid_slot (o : option (operation S)) : bool :=
  match o with
  | None => false
  | Some o => negb (bool_decide (is_Some (memorySize o)) && negb (bool_decide (is_Some (dynamicGas o))))
  end.
Definition validate (jt : JumpTable) : Res JumpTable :=
  if forallb valid_slot jt then Ret jt else Panic PanicInvalidTable.

(** ** The Frontier table *)

(** STOP to BYTE. *)
Definition frontier_entries_1 : list (OpCode * operation S) :=
  [ (STOP, mkOperation opStop 0 None (minStack_ 0 0) (maxStack_ 0 0) None);
    (ADD, mkOperation opAdd GasFastestStep None (minStack_ 2 1) (maxStack_ 2 1) None);
    (MUL, mkOperation opMul GasFastStep None (minStack_ 2 1) (maxStack_ 2 1) None);
    (SUB, mkOperation opSub GasFastestStep None (minStack_ 2 1) (maxStack_ 2 1) None);
    (DIV, mkOperation opDiv GasFastStep None (minStack_ 2 1) (maxStack_ 2 1) None);
    (SDIV, mkOperation opSdiv GasFastStep None (minStack_ 2 1) (maxStack_ 2 1) None);
    (MOD, mkOperation opMod GasFastStep None (minStack_ 2 1) (maxStack_ 2 1) None);
    (SMOD, mkOperation opSmod GasFastStep None (minStack_ 2 1) (maxStack_ 2 1) None);
    (ADDMOD, mkOperation opAddmod GasMidStep None (minStack_ 3 1) (maxStack_ 3 1) None);
    (MULMOD, mkOperation opMulmod GasMidStep None (minStack_ 3 1) (maxStack_ 3 1) None);
    (EXP, mkOperation opExp 0 (Some gasExpFrontier) (minStack_ 2 1) (maxStack_ 2 1) None);
    (SIGNEXTEND, mkOperation opSignExtend GasFastStep None (minStack_ 2 1) (maxStack_ 2 1) None);
    (LT, mkOperation opLt GasFastestStep None (minStack_ 2 1) (maxStack_ 2 1) None);
    (GT, mkOperation opGt GasFastestStep None (minStack_ 2 1) (maxStack_ 2 1) None);
    (SLT, mkOperation opSlt GasFastestStep None (minStack_ 2 1) (maxStack_ 2 1) None);
    (SGT, mkOperation opSgt GasFastestStep None (minStack_ 2 1) (maxStack_ 2 1) None);
    (EQ, mkOperation opEq GasFastestStep None (minStack_ 2 1) (maxStack_ 2 1) None);
    (ISZERO, mkOperation opIszero GasFastestStep None (minStack_ 1 1) (maxStack_ 1 1) None);
    (AND, mkOperation opAnd GasFastestStep None (minStack_ 2 1) (maxStack_ 2 1) None);
    (XOR, mkOperation opXor GasFastestStep None (minStack_ 2 1) (maxStack_ 2 1) None);
    (OR, mkOperation opOr GasFastestStep None (minStack_ 2 1) (maxStack_ 2 1) None);
    (NOT, mkOperation opNot GasFastestStep None (minStack_ 1 1) (maxStack_ 1 1) None);
    (BYTE, mkOperation opByte GasFastestStep None (minStack_ 2 1) (maxStack_ 2 1) None) ].

(** KECCAK256 to MLOAD. *)
Definition frontier_entries_2 : list (OpCode * operation S) :=
  [ (KECCAK256, mkOperation opKeccak256 Keccak256Gas (Some gasKeccak256) (minStack_ 2 1) (maxStack_ 2 1) (Some memoryKeccak256));
    (ADDRESS, mkOperation opAddress GasQuickStep None (minStack_ 0 1) (maxStack_ 0 1) None);
    (BALANCE, mkOperation opBalance BalanceGasFrontier None (minStack_ 1 1) (maxStack_ 1 1) None);
    (ORIGIN, mkOperation opOrigin GasQuickStep None (minStack_ 0 1) (maxStack_ 0 1) None);
    (CALLER, mkOperation opCaller GasQuickStep None (minStack_ 0 1) (maxStack_ 0 1) None);
    (CALLVALUE, mkOperation opCallValue GasQuickStep None (minStack_ 0 1) (maxStack_ 0 1) None);
    (CALLDATALOAD, mkOperation opCallDataLoad GasFastestStep None (minStack_ 1 1) (maxStack_ 1 1) None);
    (CALLDATASIZE, mkOperation opCallDataSize GasQuickStep None (minStack_ 0 1) (maxStack_ 0 1) None);
    (CALLDATACOPY, mkOperation opCallDataCopy GasFastestStep (Some gasCallDataCopy) (minStack_ 3 0) (maxStack_ 3 0) (Some memoryCallDataCopy));
    (CODESIZE, mkOperation opCodeSize GasQuickStep None (minStack_ 0 1) (maxStack_ 0 1) None);
    (CODECOPY, mkOperation opCodeCopy GasFastestStep (Some gasCodeCopy) (minStack_ 3 0) (maxStack_ 3 0) (Some memoryCodeCopy));
    (GASPRICE, mkOperation opGasprice GasQuickStep None (minStack_ 0 1) (maxStack_ 0 1) None);
    (EXTCODESIZE, mkOperation opExtCodeSize ExtcodeSizeGasFrontier None (minStack_ 1 1) (maxStack_ 1 1) None);
    (EXTCODECOPY, mkOperation opExtCodeCopy ExtcodeCopyBaseFrontier (Some gasExtCodeCopy) (minStack_ 4 0) (maxStack_ 4 0) (Some memoryExtCodeCopy));
    (BLOCKHASH, mkOperation opBlockhash GasExtStep None (minStack_ 1 1) (maxStack_ 1 1) None);
    (COINBASE, mkOperation opCoinbase GasQuickStep None (minStack_ 0 1) (maxStack_ 0 1) None);
    (TIMESTAMP, mkOperation opTimestamp GasQuickStep None (minStack_ 0 1) (maxStack_ 0 1) None);
    (NUMBER, mkOperation opNumber GasQuickStep None (minStack_ 0 1) (maxStack_ 0 1) None);
    (DIFFICULTY, mkOperation opDifficulty GasQuickStep None (minStack_ 0 1) (maxStack_ 0 1) None);
    (GASLIMIT, mkOperation opGasLimit GasQuickStep None (minStack_ 0 1) (maxStack_ 0 1) None);
    (POP, mkOperation opPop GasQuickStep None (minStack_ 1 0) (maxStack_ 1 0) None);
    (MLOAD, mkOperation opMload GasFastestStep (Some gasMLoad) (minStack_ 1 1) (maxStack_ 1 1) (Some memoryMLoad)) ].

(** MSTORE to PUSH13. *)
Definition frontier_entries_3 : list (OpCode * operation S) :=
  [ (MSTORE, mkOperation opMstore GasFastestStep (Some gasMStore) (minStack_ 2 0) (maxStack_ 2 0) (Some memoryMStore));
    (MSTORE8, mkOperation opMstore8 GasFastestStep (Some gasMStore8) (minStack_ 2 0) (maxStack_ 2 0) (Some memoryMStore8));
    (SLOAD, mkOperation opSload SloadGasFrontier None (minStack_ 1 1) (maxStack_ 1 1) None);
    (SSTORE, mkOperation opSstore 0 (Some gasSStore) (minStack_ 2 0) (maxStack_ 2 0) None);
    (JUMP, mkOperation opJump GasMidStep None (minStack_ 1 0) (maxStack_ 1 0) None);
    (JUMPI, mkOperation opJumpi GasSlowStep None (minStack_ 2 0) (maxStack_ 2 0) None);
    (PC, mkOperation opPc GasQuickStep None (minStack_ 0 1) (maxStack_ 0 1) None);
    (MSIZE, mkOperation opMsize GasQuickStep None (minStack_ 0 1) (maxStack_ 0 1) None);
    (GAS, mkOperation opGas GasQuickStep None (minStack_ 0 1) (maxStack_ 0 1) None);
    (JUMPDEST, mkOperation opJumpdest JumpdestGas None (minStack_ 0 0) (maxStack_ 0 0) None);
    (PUSH1, mkOperation opPush1 GasFastestStep None (minStack_ 0 1) (maxStack_ 0 1) None);
    (PUSH2, mkOperation (makePush 2 2) GasFastestStep None (minStack_ 0 1) (maxStack_ 0 1) None);
    (PUSH3, mkOperation (makePush 3 3) GasFastestStep None (minStack_ 0 1) (maxStack_ 0 1) None);
    (PUSH4, mkOperation (makePush 4 4) GasFastestStep None (minStack_ 0 1) (maxStack_ 0 1) None);
    (PUSH5, mkOperation (makePush 5 5) GasFastestStep None (minStack_ 0 1) (maxStack_ 0 1) None);
    (PUSH6, mkOperation (makePush 6 6) GasFastestStep None (minStack_ 0 1) (maxStack_ 0 1) None);
    (PUSH7, mkOperation (makePush 7 7) GasFastestStep None (minStack_ 0 1) (maxStack_ 0 1) None);
    (PUSH8, mkOperation (makePush 8 8) GasFastestStep None (minStack_ 0 1) (maxStack_ 0 1) None);
    (PUSH9, mkOperation (makePush 9 9) GasFastestStep None (minStack_ 0 1) (maxStack_ 0 1) None);
    (PUSH10, mkOperation (makePush 10 10) GasFastestStep None (minStack_ 0 1) (maxStack_ 0 1) None);
    (PUSH11, mkOperation (makePush 11 11) GasFastestStep None (minStack_ 0 1) (maxStack_ 0 1) None);
    (PUSH12, mkOperation (makePush 12 12) GasFastestStep None (minStack_ 0 1) (maxStack_ 0 1) None);
    (PUSH13, mkOperation (makePush 13 13) GasFastestStep None (minStack_ 0 1) (maxStack_ 0 1) None) ].

(** PUSH14 to DUP5. *)
Definition frontier_entries_4 : list (OpCode * operation S) :=
  [ (PUSH14, mkOperation (makePush 14 14) GasFastestStep None (minStack_ 0 1) (maxStack_ 0 1) None);
    (PUSH15, mkOperation (makePush 15 15) GasFastestStep None (minStack_ 0 1) (maxStack_ 0 1) None);
    (PUSH16, mkOperation (makePush 16 16) GasFastestStep None (minStack_ 0 1) (maxStack_ 0 1) None);
    (PUSH17, mkOperation (makePush 17 17) GasFastestStep None (minStack_ 0 1) (maxStack_ 0 1) None);
    (PUSH18, mkOperation (makePush 18 18) GasFastestStep None (minStack_ 0 1) (maxStack_ 0 1) None);
    (PUSH19, mkOperation (makePush 19 19) GasFastestStep None (minStack_ 0 1) (maxStack_ 0 1) None);
    (PUSH20, mkOperation (makePush 20 20) GasFastestStep None (minStack_ 0 1) (maxStack_ 0 1) None);
    (PUSH21, mkOperation (makePush 21 21) GasFastestStep None (minStack_ 0 1) (maxStack_ 0 1) None);
    (PUSH22, mkOperation (makePush 22 22) GasFastestStep None (minStack_ 0 1) (maxStack_ 0 1) None);
    (PUSH23, mkOperation (makePush 23 23) GasFastestStep None (minStack_ 0 1) (maxStack_ 0 1) None);
    (PUSH24, mkOperation (makePush 24 24) GasFastestStep None (minStack_ 0 1) (maxStack_ 0 1) None);
    (PUSH25, mkOperation (makePush 25 25) GasFastestStep None (minStack_ 0 1) (maxStack_ 0 1) None);
    (PUSH26, mkOperation (makePush 26 26) GasFastestStep None (minStack_ 0 1) (maxStack_ 0 1) None);
    (PUSH27, mkOperation (makePush 27 27) GasFastestStep None (minStack_ 0 1) (maxStack_ 0 1) None);
    (PUSH28, mkOperation (makePush 28 28) GasFastestStep None (minStack_ 0 1) (maxStack_ 0 1) None);
    (PUSH29, mkOperation (makePush 29 29) GasFastestStep None (minStack_ 0 1) (maxStack_ 0 1) None);
    (PUSH30, mkOperation (makePush 30 30) GasFastestStep None (minStack_ 0 1) (maxStack_ 0 1) None);
    (PUSH31, mkOperation (makePush 31 31) GasFastestStep None (minStack_ 0 1) (maxStack_ 0 1) None);
    (PUSH32, mkOperation (makePush 32 32) GasFastestStep None (minStack_ 0 1) (maxStack_ 0 1) None);
    (DUP1, mkOperation (makeDup 1) GasFastestStep None (minDupStack 1) (maxDupStack 1) None);
    (DUP2, mkOperation (makeDup 2) GasFastestStep None (minDupStack 2) (maxDupStack 2) None);
    (DUP3, mkOperation (makeDup 3) GasFastestStep None (minDupStack 3) (maxDupStack 3) None);
    (DUP4, mkOperation (makeDup 4) GasFastestStep None (minDupStack 4) (maxDupStack 4) None);
    (DUP5, mkOperation (makeDup 5) GasFastestStep None (minDupStack 5) (maxDupStack 5) None) ].

(** DUP6 to SWAP13. *)
Definition frontier_entries_5 : list (OpCode * operation S) :=
  [ (DUP6, mkOperation (makeDup 6) GasFastestStep None (minDupStack 6) (maxDupStack 6) None);
    (DUP7, mkOperation (makeDup 7) GasFastestStep None (minDupStack 7) (maxDupStack 7) None);
    (DUP8, mkOperation (makeDup 8) GasFastestStep None (minDupStack 8) (maxDupStack 8) None);
    (DUP9, mkOperation (makeDup 9) GasFastestStep None (minDupStack 9) (maxDupStack 9) None);
    (DUP10, mkOperation (makeDup 10) GasFastestStep None (minDupStack 10) (maxDupStack 10) None);
    (DUP11, mkOperation (makeDup 11) GasFastestStep None (minDupStack 11) (maxDupStack 11) None);
    (DUP12, mkOperation (makeDup 12) GasFastestStep None (minDupStack 12) (maxDupStack 12) None);
    (DUP13, mkOperation (makeDup 13) GasFastestStep None (minDupStack 13) (maxDupStack 13) None);
    (DUP14, mkOperation (makeDup 14) GasFastestStep None (minDupStack 14) (maxDupStack 14) None);
    (DUP15, mkOperation (makeDup 15) GasFastestStep None (minDupStack 15) (maxDupStack 15) None);
    (DUP16, mkOperation (makeDup 16) GasFastestStep None (minDupStack 16) (maxDupStack 16) None);
    (SWAP1, mkOperation (makeSwap 1) GasFastestStep None (minSwapStack 2) (maxSwapStack 2) None);
    (SWAP2, mkOperation (makeSwap 2) GasFastestStep None (minSwapStack 3) (maxSwapStack 3) None);
    (SWAP3, mkOperation (makeSwap 3) GasFastestStep None (minSwapStack 4) (maxSwapStack 4) None);
    (SWAP4, mkOperation (makeSwap 4) GasFastestStep None (minSwapStack 5) (maxSwapStack 5) None);
    (SWAP5, mkOperation (makeSwap 5) GasFastestStep None (minSwapStack 6) (maxSwapStack 6) None);
    (SWAP6, mkOperation (makeSwap 6) GasFastestStep None (minSwapStack 7) (maxSwapStack 7) None);
    (SWAP7, mkOperation (makeSwap 7) GasFastestStep None (minSwapStack 8) (maxSwapStack 8) None);
    (SWAP8, mkOperation (makeSwap 8) GasFastestStep None (minSwapStack 9) (maxSwapStack 9) None);
    (SWAP9, mkOperation (makeSwap 9) GasFastestStep None (minSwapStack 10) (maxSwapStack 10) None);
    (SWAP10, mkOperation (makeSwap 10) GasFastestStep None (minSwapStack 11) (maxSwapStack 11) None);
    (SWAP11, mkOperation (makeSwap 11) GasFastestStep None (minSwapStack 12) (maxSwapStack 12) None);
    (SWAP12, mkOperation (makeSwap 12) GasFastestStep None (minSwapStack 13) (maxSwapStack 13) None);
    (SWAP13, mkOperation (makeSwap 13) GasFastestStep None (minSwapStack 14) (maxSwapStack 14) None) ].

(** SWAP14 to SELFDESTRUCT. *)
Definition frontier_entries_6 : list (OpCode * operation S) :=
  [ (SWAP14, mkOperation (makeSwap 14) GasFastestStep None (minSwapStack 15) (maxSwapStack 15) None);
    (SWAP15, mkOperation (makeSwap 15) GasFastestStep None (minSwapStack 16) (maxSwapStack 16) None);
    (SWAP16, mkOperation (makeSwap 16) GasFastestStep None (minSwapStack 17) (maxSwapStack 17) None);
    (LOG0, mkOperation (makeLog 0) 0 (Some (makeGasLog 0)) (minStack_ 2 0) (maxStack_ 2 0) (Some memoryLog));
    (LOG1, mkOperation (makeLog 1) 0 (Some (makeGasLog 1)) (minStack_ 3 0) (maxStack_ 3 0) (Some memoryLog));
    (LOG2, mkOperation (makeLog 2) 0 (Some (makeGasLog 2)) (minStack_ 4 0) (maxStack_ 4 0) (Some memoryLog));
    (LOG3, mkOperation (makeLog 3) 0 (Some (makeGasLog 3)) (minStack_ 5 0) (maxStack_ 5 0) (Some memoryLog));
    (LOG4, mkOperation (makeLog 4) 0 (Some (makeGasLog 4)) (minStack_ 6 0) (maxStack_ 6 0) (Some memoryLog));
    (CREATE, mkOperation opCreate CreateGas (Some gasCreate) (minStack_ 3 1) (maxStack_ 3 1) (Some memoryCreate));
    (CALL, mkOperation opCall CallGasFrontier (Some gasCall) (minStack_ 7 1) (maxStack_ 7 1) (Some memoryCall));
    (CALLCODE, mkOperation opCallCode CallGasFrontier (Some gasCallCode) (minStack_ 7 1) (maxStack_ 7 1) (Some memoryCall));
    (RETURN, mkOperation opReturn 0 (Some gasReturn) (minStack_ 2 0) (maxStack_ 2 0) (Some memoryReturn));
    (SELFDESTRUCT, mkOperation opSelfdestruct 0 (Some gasSelfdestruct) (minStack_ 1 0) (maxStack_ 1 0) None) ].

Definition frontier_entries : list (OpCode * operation S) :=
  frontier_entries_1 ++ frontier_entries_2 ++ frontier_entries_3 ++
  frontier_entries_4 ++ frontier_entries_5 ++ frontier_entries_6.

(** The composite literal, slots not named are nil. *)
Definition table_of (entries : list (OpCode * operation S)) : JumpTable :=
  fold_right (fun e jt => set_op (fst e) (snd e) jt) (replicate 256 None) entries.

Definition undefined_operation : operation S :=
  mkOperation opUndefined 0 None 0 (maxStack_ 0 0) None.

(** [for i, entry := range tbl { if entry == nil { ... } }]. *)
Definition fill_undefined (jt : JumpTable) : JumpTable :=
  map (fun o => match o with None => Some undefined_operation | Some o => Some o end) jt.

Definition newFrontierInstructionSet : Res JumpTable :=
  validate (fill_undefined (table_of frontier_entries)).

(** ** The activation of EIPs (eips.go) *)

Definition enable1884 (jt : JumpTable) : Res JumpTable :=
  let? jt := alter_op (with_constantGas SloadGasEIP1884) SLOAD jt in
  let? jt := alter_op (with_constantGas BalanceGasEIP1884) BALANCE jt in
  let? jt := alter_op (with_constantGas ExtcodeHashGasEIP1884) EXTCODEHASH jt in
  Ret (set_op SELFBALANCE (mkOperation opSelfBalance GasFastStep None (minStack_ 0 1) (maxStack_ 0 1) None) jt).

Definition enable1344 (jt : JumpTable) : Res JumpTable :=
  Ret (set_op CHAINID (mkOperation opChainID GasQuickStep None (minStack_ 0 1) (maxStack_ 0 1) None) jt).

Definition enable2200 (jt : JumpTable) : Res JumpTable :=
  let? jt := alter_op (with_constantGas SloadGasEIP2200) SLOAD jt in
  alter_op (with_dynamicGas gasSStoreEIP2200) SSTORE jt.

Definition enable2929 (jt : JumpTable) : Res JumpTable :=
  let? jt := alter_op (with_dynamicGas gasSStoreEIP2929) SSTORE jt in
  let? jt := alter_op (with_constantGas 0) SLOAD jt in
  let? jt := alter_op (with_dynamicGas gasSLoadEIP2929) SLOAD jt in
  let? jt := alter_op (with_constantGas WarmStorageReadCostEIP2929) EXTCODECOPY jt in
  let? jt := alter_op (with_dynamicGas gasExtCodeCopyEIP2929) EXTCODECOPY jt in
  let? jt := alter_op (with_constantGas WarmStorageReadCostEIP2929) EXTCODESIZE jt in
  let? jt := alter_op (with_dynamicGas gasEip2929AccountCheck) EXTCODESIZE jt in
  let? jt := alter_op (with_constantGas WarmStorageReadCostEIP2929) EXTCODEHASH jt in
  let? jt := alter_op (with_dynamicGas gasEip2929AccountCheck) EXTCODEHASH jt in
  let? jt := alter_op (with_constantGas WarmStorageReadCostEIP2929) BALANCE jt in
  let? jt := alter_op (with_dynamicGas gasEip2929AccountCheck) BALANCE jt in
  let? jt := alter_op (with_constantGas WarmStorageReadCostEIP2929) CALL jt in
  let? jt := alter_op (with_dynamicGas gasCallEIP2929) CALL jt in
  let? jt := alter_op (with_constantGas WarmStorageReadCostEIP2929) CALLCODE jt in
  let? jt := alter_op (with_dynamicGas gasCallCodeEIP2929) CALLCODE jt in
  let? jt := alter_op (with_constantGas WarmStorageReadCostEIP2929) STATICCALL jt in
  let? jt := alter_op (with_dynamicGas gasStaticCallEIP2929) STATICCALL jt in
  let? jt := alter_op (with_constantGas WarmStorageReadCostEIP2929) DELEGATECALL jt in
  let? jt := alter_op (with_dynamicGas gasDelegateCallEIP2929) DELEGATECALL jt in
  let? jt := alter_op (with_constantGas SelfdestructGasEIP150) SELFDESTRUCT jt in
  alter_op (with_dynamicGas gasSelfdestructEIP2929) SELFDESTRUCT jt.

Definition enable3529 (jt : JumpTable) : Res JumpTable :=
  let? jt := alter_op (with_dynamicGas gasSStoreEIP3529) SSTORE jt in
  alter_op (with_dynamicGas gasSelfdestructEIP3529) SELFDESTRUCT jt.

Definition enable3198 (jt : JumpTable) : Res JumpTable :=
  Ret (set_op BASEFEE (mkOperation opBaseFee GasQuickStep None (minStack_ 0 1) (maxStack_ 0 1) None) jt).

Definition enable1153 (jt : JumpTable) : Res JumpTable :=
  Ret (set_op TSTORE
         (mkOperation opTstore WarmStorageReadCostEIP2929 None (minStack_ 2 0) (maxStack_ 2 0) None)
      (set_op TLOAD
         (mkOperation opTload WarmStorageReadCostEIP2929 None (minStack_ 1 1) (maxStack_ 1 1) None) jt)).

Definition enable3855 (jt : JumpTable) : Res JumpTable :=
  Ret (set_op PUSH0 (mkOperation opPush0 GasQuickStep None (minStack_ 0 1) (maxStack_ 0 1) None) jt).

Definition enable3860 (jt : JumpTable) : Res JumpTable :=
  let? jt := alter_op (with_dynamicGas gasCreateEip3860) CREATE jt in
  alter_op (with_dynamicGas gasCreate2Eip3860) CREATE2 jt.

(** The map [activators] and [EnableEIP]: [None] is "undefined eip". *)
Definition activators (eipNum : Z) : option (JumpTable -> Res JumpTable) :=
  if eipNum =? 3855 then Some enable3855
  else if eipNum =? 3860 then Some enable3860
  else if eipNum =? 3529 then Some enable3529
  else if eipNum =? 3198 then Some enable3198
  else if eipNum =? 2929 then Some enable2929
  else if eipNum =? 2200 then Some enable2200
  else if eipNum =? 1884 then Some enable1884
  else if eipNum =? 1344 then Some enable1344
  else if eipNum =? 1153 then Some enable1153
  else None.

Definition EnableEIP (eipNum : Z) (jt : JumpTable) : option (Res JumpTable) :=
  match activators eipNum with
  | None => None
  | Some enablerFn => Some (enablerFn jt)
  end.

Definition ValidEip (eipNum : Z) : bool := bool_decide (is_Some (activators eipNum)).

(** ** The instruction sets *)

Definition newHomesteadInstructionSet : Res JumpTable :=
  let? jt := newFrontierInstructionSet in
  validate (set_op DELEGATECALL
    (mkOperation opDelegateCall CallGasFrontier (Some gasDelegateCall) (minStack_ 6 1) (maxStack_ 6 1)
       (Some memoryDelegateCall)) jt).

Definition newTangerineWhistleInstructionSet : Res JumpTable :=
  let? jt := newHomesteadInstructionSet in
  let? jt := alter_op (with_constantGas BalanceGasEIP150) BALANCE jt in
  let? jt := alter_op (with_constantGas ExtcodeSizeGasEIP150) EXTCODESIZE jt in
  let? jt := alter_op (with_constantGas SloadGasEIP150) SLOAD jt in
  let? jt := alter_op (with_constantGas ExtcodeCopyBaseEIP150) EXTCODECOPY jt in
  let? jt := alter_op (with_constantGas CallGasEIP150) CALL jt in
  let? jt := alter_op (with_constantGas CallGasEIP150) CALLCODE jt in
  let? jt := alter_op (with_constantGas CallGasEIP150) DELEGATECALL jt in
  validate jt.

Definition newSpuriousDragonInstructionSet : Res JumpTable :=
  let? jt := newTangerineWhistleInstructionSet in
  let? jt := alter_op (with_dynamicGas gasExpEIP158) EXP jt in
  validate jt.

Definition newByzantiumInstructionSet : Res JumpTable :=
  let? jt := newSpuriousDragonInstructionSet in
  let jt := set_op STATICCALL
    (mkOperation opStaticCall CallGasEIP150 (Some gasStaticCall) (minStack_ 6 1) (maxStack_ 6 1)
       (Some memoryStaticCall)) jt in
  let jt := set_op RETURNDATASIZE
    (mkOperation opReturnDataSize GasQuickStep None (minStack_ 0 1) (maxStack_ 0 1) None) jt in
  let jt := set_op RETURNDATACOPY
    (mkOperation opReturnDataCopy GasFastestStep (Some gasReturnDataCopy) (minStack_ 3 0) (maxStack_ 3 0)
       (Some memoryReturnDataCopy)) jt in
  let jt := set_op REVERT
    (mkOperation opRevert 0 (Some gasRevert) (minStack_ 2 0) (maxStack_ 2 0) (Some memoryRevert)) jt in
  validate jt.

Definition newConstantinopleInstructionSet : Res JumpTable :=
  let? jt := newByzantiumInstructionSet in
  let jt := set_op SHL (mkOperation opSHL GasFastestStep None (minStack_ 2 1) (maxStack_ 2 1) None) jt in
  let jt := set_op SHR (mkOperation opSHR GasFastestStep None (minStack_ 2 1) (maxStack_ 2 1) None) jt in
  let jt := set_op SAR (mkOperation opSAR GasFastestStep None (minStack_ 2 1) (maxStack_ 2 1) None) jt in
  let jt := set_op EXTCODEHASH
    (mkOperation opExtCodeHash ExtcodeHashGasConstantinople None (minStack_ 1 1) (maxStack_ 1 1) None) jt in
  let jt := set_op CREATE2
    (mkOperation opCreate2 Create2Gas (Some gasCreate2) (minStack_ 4 1) (maxStack_ 4 1)
       (Some memoryCreate2)) jt in
  validate jt.

Definition newIstanbulInstructionSet : Res JumpTable :=
  let? jt := newConstantinopleInstructionSet in
  let? jt := enable1344 jt in
  let? jt := enable1884 jt in
  let? jt := enable2200 jt in
  validate jt.

Definition newBerlinInstructionSet : Res JumpTable :=
  let? jt := newIstanbulInstructionSet in
  let? jt := enable2929 jt in
  validate jt.

Definition newLondonInstructionSet : Res JumpTable :=
  let? jt := newBerlinInstructionSet in
  let? jt := enable3529 jt in
  let? jt := enable3198 jt in
  validate jt.

Definition newMergeInstructionSet : Res JumpTable :=
  let? jt := newLondonInstructionSet in
  validate (set_op PREVRANDAO
    (mkOperation opRandom GasQuickStep None (minStack_ 0 1) (maxStack_ 0 1) None) jt).

Definition newShanghaiInstructionSet : Res JumpTable :=
  let? jt := newMergeInstructionSet in
  let? jt := enable3855 jt in
  let? jt := enable3860 jt in
  validate jt.

(** [copyJumpTable]: a table of copies of the operations. *)
Definition copyJumpTable (source : JumpTable) : JumpTable := map (fun o => o) source.

(** ** jump_table_export.go *)

Inductive lookup_error : Type := PragueNotDefined | CancunNotDefined.

Definition LookupInstructionSet (rules : Rules) : Res (JumpTable * option lookup_error) :=
  let with_err (err : option lookup_error) (t : Res JumpTable) := let? jt := t in Ret (jt, err) in
  if rIsPrague rules then with_err (Some PragueNotDefined) newShanghaiInstructionSet
  else if rIsCancun rules then with_err (Some CancunNotDefined) newShanghaiInstructionSet
  else if rIsShanghai rules then with_err None newShanghaiInstructionSet
  else if rIsMerge rules then with_err None newMergeInstructionSet
  else if rIsLondon rules then with_err None newLondonInstructionSet
  else if rIsBerlin rules then with_err None newBerlinInstructionSet
  else if rIsIstanbul rules then with_err None newIstanbulInstructionSet
  else if rIsConstantinople rules then with_err None newConstantinopleInstructionSet
  else if rIsByzantium rules then with_err None newByzantiumInstructionSet
  else if rIsEIP158 rules then with_err None newSpuriousDragonInstructionSet
  else if rIsEIP150 rules then with_err None newTangerineWhistleInstructionSet
  else if rIsHomestead rules then with_err None newHomesteadInstructionSet
  else with_err None newFrontierInstructionSet.

Definition operation_Stack (op : operation S) : Z * Z := (minStack op, maxStack op).

Definition HasCost (op : operation S) : bool :=
  bool_decide (is_Some (dynamicGas op)) || negb (constantGas op =? 0).
End jump_table.
Arguments JumpTable : clear implicits.
