(* ===== verification/Interpreter.v ===== *)
(** * The interpreter (client/core/vm/interpreter.go)

    [NewEVMInterpreter] selects the jump table of the rules in force and enables
    the extra EIPs of the configuration.  [run_operation] is the body of the main
    loop of [Run] for one operation (static gas, memory size, dynamic gas, memory
    expansion, execution), [loop] the main loop, [Run] the function with its
    bookkeeping of depth, read-only flag and return data.  The fuel of [loop]
    bounds the number of instructions; every instruction that continues the loop
    consumes gas, so more fuel than gas is enough. *)

From Stdlib Require Import Strings.Byte.
From S2P Require Import Prelude.
From S2P Require Import Uint256.
From S2P Require Import OpCodes.
From S2P Require Import Common.
From S2P Require Import Params.
From S2P Require Import Crypto.
From S2P Require Import StateInterface.
From S2P Require Import Stack.
From S2P Require Import Memory.
From S2P Require Import Analysis.
From S2P Require Import Machine.
From S2P Require Import Invariant.
From S2P Require Import GasTable.
From S2P Require Import Instructions.
From S2P Require Import JumpTable.

Section interpreter.
Context {S : Type} {D : StateDB S} {U : Uint256} {K : Keccak} {E : EVM S} {C : Calls S}.

(** The table of the rules in force. *)
Definition select_table : Res (JumpTable S) :=
  if rIsShanghai chainRules then newShanghaiInstructionSet
  else if rIsMerge chainRules then newMergeInstructionSet
  else if rIsLondon chainRules then newLondonInstructionSet
  else if rIsBerlin chainRules then newBerlinInstructionSet
  else if rIsIstanbul chainRules then newIstanbulInstructionSet
  else if rIsConstantinople chainRules then newConstantinopleInstructionSet
  else if rIsByzantium chainRules then newByzantiumInstructionSet
  else if rIsEIP158 chainRules then newSpuriousDragonInstructionSet
  else if rIsEIP150 chainRules then newTangerineWhistleInstructionSet
  else if rIsHomestead chainRules then newHomesteadInstructionSet
  else newFrontierInstructionSet.

(** The loop over [evm.Config.ExtraEips]: the EIPs that are known are enabled
    and kept, the others dropped. *)
Fixpoint enable_extra (eips : list Z) (jt : JumpTable S) : Res (JumpTable S * list Z) :=
  match eips with
  | [] => Ret (jt, [])
  | eip :: eips =>
      match EnableEIP eip jt with
      | None => enable_extra eips jt
      | Some r =>
          let? jt := r in
          let? r := enable_extra eips jt in
          let '(jt, extraEips) := r in
          Ret (jt, eip :: extraEips)
      end
  end.

Definition NewEVMInterpreter : Res (JumpTable S * list Z) :=
  let? table := select_table in
  let table := if (0 <? zlen (ExtraEips evm_Config)) then copyJumpTable table else table in
  enable_extra (ExtraEips evm_Config) table.

(** The memory size an operation needs, rounded up to words. *)
Definition required_memory (o : operation S) : GM (Frame S) (Z * option error) :=
  match memorySize o with
  | None => gret (0, None)
  | Some memSizeFn =>
      let* r := (fun f => gpure (memSizeFn (fr_stack f)) f) in
      let '(memSize, overflow) := r in
      if overflow then gret (0, Some ErrGasUintOverflow)
      else
        let '(memorySize, overflow) := SafeMul (toWordSize memSize) 32 in
        if overflow then gret (0, Some ErrGasUintOverflow) else gret (memorySize, None)
  end.

Definition run_operation (o : operation S) : executionFunc S :=
  let* paid := on_contract (UseGas (constantGas o)) in
  if negb paid then fail_with ErrOutOfGas
  else
    match dynamicGas o with
    | None => execute o
    | Some gasFn =>
        let* r := required_memory o in
        match r with
        | (_, Some err) => fail_with err
        | (memorySize, None) =>
            let* r := gasFn memorySize in
            let '(dynamicCost, err) := r in
            match err with
            | Some _ => fail_with ErrOutOfGas
            | None =>
                let* paid := on_contract (UseGas dynamicCost) in
                if negb paid then fail_with ErrOutOfGas
                else
                  (if memorySize >? 0 then on_mem (Memory_Resize memorySize) else gret tt) ;;;
                  execute o
            end
        end
    end.

(** One iteration of the main loop, up to [pc++]. *)
Definition step (jt : JumpTable S) : executionFunc S :=
  let* c := contract in
  let* pc := gget fr_pc in
  let op := GetOp c pc in
  match jt !! op_index op with
  | Some (Some operation) =>
      let* sLen := gget (fun f => stack_len (fr_stack f)) in
      if sLen <? minStack operation then fail_with (ErrStackUnderflow sLen (minStack operation))
      else if sLen >? maxStack operation then fail_with (ErrStackOverflow sLen (maxStack operation))
      else run_operation operation
  | _ => gpanic PanicNil
  end.

Fixpoint loop (jt : JumpTable S) (fuel : nat) : executionFunc S :=
  match fuel with
  | O => fun _ => NoFuel
  | Datatypes.S fuel =>
      let* r := step jt in
      match r with
      | (res, Some err) => gret (res, Some err)
      | (_, None) => gput (fun f => set_pc (u64 (fr_pc f + 1)) f) ;;; loop jt fuel
      end
  end.

(** The frame of a contract, run to its end: the contract as it ends up, the
    returned data and the error, the stop token cleared. *)
Definition run_frame (jt : JumpTable S) (fuel : nat) (c : Contract)
    : GM (EVMState S) (Contract * list byte * option error) :=
  fun e =>
    match loop jt fuel (mkFrame 0 newstack NewMemory c e) with
    | Ret ((res, err), f) =>
        Ret ((fr_contract f, res, if bool_decide (err = Some errStopToken) then None else err), fr_evm f)
    | Panic p => Panic p
    | NoFuel => NoFuel
    end.

Definition Run (jt : JumpTable S) (fuel : nat) (c : Contract) (input : list byte) (readOnly_ : bool)
    : GM (EVMState S) (Contract * list byte * option error) :=
  gput (fun e => set_depth (depth e + 1) e) ;;;
  let* e := gget (fun e => e) in
  let setsReadOnly := readOnly_ && negb (readOnly e) in
  (if setsReadOnly then gput (set_readOnly true) else gret tt) ;;;
  gput (set_returnData []) ;;;
  let* r := if zlen (Code c) =? 0 then gret (c, [], None) else run_frame jt fuel (set_Input input c) in
  (if setsReadOnly then gput (set_readOnly false) else gret tt) ;;;
  gput (fun e => set_depth (depth e - 1) e) ;;;
  gret r.
End interpreter.

(** ** Lemmas: one operation *)

Section operations.
Context {S : Type} {D : StateDB S} {K : Keccak} {KL : KeccakLaws K} {SP : StateDBSpec S}.
Context {U : Uint256} {UL : Uint256Laws U} {E : EVM S} {C : Calls S}.
Context {dmin gmax : Z}.
Implicit Types (f : Frame S) (e : executionFunc S) (o : operation S).

(** After one iteration of the loop: as after an instruction, and the gas never
    grows; if the loop goes on, it shrinks. *)
Definition run_post (f : Frame S) (r : list byte * option error) (f' : Frame S) : Prop :=
  frame_done f f' /\ zlen r.1 < 2 ^ 60 /\ Gas (fr_contract f') <= Gas (fr_contract f) /\
  (r.2 = None -> frame_ok f' /\ Gas (fr_contract f') < Gas (fr_contract f)).

(** An operation that can be run wherever its stack bounds hold. *)
Record operation_ok (o : operation S) : Prop := {
  op_valid : valid_slot (Some o) = true;
  op_run f : frame_ok f -> bounds_ok (dmin:=dmin) (gmax:=gmax) f ->
    minStack o <= zlen (fr_stack f) <= maxStack o ->
    fr_pc f < zlen (Code (fr_contract f)) ->
    wp refund_panic (run_operation o) (run_post f) f
}.

(** An instruction that always ends the frame. *)
Definition stops (e : executionFunc S) : Prop := forall f r f', e f = Ret (r, f') -> r.2 <> None.

Lemma stops_gret r : r.2 <> None -> stops (gret r).
Proof. by intros Hr f r' f' [= <- <-]. Qed.

Lemma stops_gbind {A} (m : GM (Frame S) A) k : (forall a, stops (k a)) -> stops (gbind m k).
Proof.
  intros Hk f r f'. unfold gbind. destruct (m f) as [[a s]| |]; [|done..]. apply Hk.
Qed.

Lemma wp_stops e Q f : stops e -> wp refund_panic e Q f ->
  wp refund_panic e (fun r f' => Q r f' /\ r.2 <> None) f.
Proof.
  intros Hs. unfold wp. destruct (e f) as [[r f']| |] eqn:He; [|done..]. eauto.
Qed.

Lemma run_post_fail f f' err :
  frame_done f f' -> Gas (fr_contract f') <= Gas (fr_contract f) -> run_post f ([], Some err) f'.
Proof. intros. by split_and!. Qed.

(** The static charge. *)
Lemma step_static o f (Q : list byte * option error -> Frame S -> Prop) k :
  frame_ok f -> is_u64 (constantGas o) ->
  (forall err, Q ([], Some err) f) ->
  (let f0 := set_contract (set_Gas (Gas (fr_contract f) - constantGas o) (fr_contract f)) f in
   frame_ok f0 -> frame_done f f0 -> constantGas o <= Gas (fr_contract f) -> wp refund_panic k Q f0) ->
  wp refund_panic
    (let* paid := on_contract (UseGas (constantGas o)) in
     if negb paid then fail_with ErrOutOfGas else k) Q f.
Proof.
  intros Hf Hg Hfail Hk. pose proof (ok_Gas _ _ (ok_contract _ Hf)) as Hu.
  apply wp_gbind, wp_gzoom. unfold wp at 1. rewrite UseGas_spec by done.
  destruct (Gas (fr_contract f) <? constantGas o) eqn:Eg; cbn [negb]; zbool.
  - assert (set_contract (fr_contract f) f = f) as -> by by destruct f. apply wp_gret, Hfail.
  - assert (is_u64 (Gas (fr_contract f) - constantGas o)) by (unfold is_u64 in *; lia).
    apply Hk; [by apply frame_ok_Gas| |done]. apply frame_done_Gas; [by apply frame_done_refl|done].
Qed.

Lemma run_post_from f f0 slack r f' cg :
  frame_done f f0 -> Gas (fr_contract f0) + slack <= Gas (fr_contract f) - cg -> 0 <= cg ->
  op_post slack f0 r f' -> (r.2 = None -> 0 < cg) -> run_post f r f'.
Proof.
  intros Hd Hg Hcg (Hd' & Hr & Hg' & Hok) Hpos.
  split; [by eapply frame_done_trans|]. split; [done|]. split; [lia|].
  intros Hn. split; [by apply Hok|]. specialize (Hpos Hn). lia.
Qed.

(** *** Operations with static gas only *)

Lemma static_ok e cg pops pushes :
  is_u64 cg -> exec_ok e pops pushes no_pre no_slack -> 0 < cg \/ stops e ->
  operation_ok (mkOperation e cg None pops (StackLimit + pops - pushes) None).
Proof.
  intros Hcg He Hpos. split; [done|]. intros f Hf Hb Hst Hpc. cbn in Hst. unfold run_operation.
  apply step_static; [done|done|intros err; apply run_post_fail; [by apply frame_done_refl|done]|].
  intros f0 Hf0 Hd Hle. cbn [constantGas dynamicGas execute] in *.
  assert (wp refund_panic e (op_post 0 f0) f0) as H.
  { apply He; try done; cbn; lia. }
  destruct Hpos as [Hpos|Hstop].
  - eapply wp_mono; [exact H|]. intros r f' Hp. apply (run_post_from f f0 0 r f' cg); try done; cbn; lia.
  - apply (wp_stops _ _ _ Hstop) in H. eapply wp_mono; [exact H|]. intros r f' [Hp Hn].
    unfold is_u64 in Hcg. apply (run_post_from f f0 0 r f' cg); try done; cbn; lia.
Qed.

(** *** Operations with dynamic gas *)

(** The memory-size function [fn], which reads the [need] topmost items: a
    memory of the size it returns meets [R]. *)
Definition memsize_ok (fn : memorySizeFunc) (need : Z) (R : Stack -> Z -> Prop) : Prop :=
  forall st, stack_ok st -> need <= zlen st ->
    exists sz overflow, fn st = Ret (sz, overflow) /\
      (overflow = false -> is_u64 sz /\ forall n, sz <= n -> R st n).

(** The gas part of an operation: with or without memory. *)
Definition charge_ok (mfn : option memorySizeFunc) (g : gasFunc S) (pops : Z)
    (R : Stack -> Z -> Prop) (P : Frame S -> Z -> Frame S -> Prop) : Prop :=
  match mfn with
  | Some fn => memsize_ok fn pops R /\ gas_ok g pops P
  | None => gas_ok0 g pops P
  end.

(** The frame in which the instruction runs, after its gas function. *)
Definition charged (f1 : Frame S) (gas : Z) (m : Memory) : Frame S :=
  mkFrame (fr_pc f1) (fr_stack f1) m
    (set_Gas (Gas (fr_contract f1) - gas) (fr_contract f1)) (fr_evm f1).

Lemma required_memory_ok mfn g pops R P o f (Q : Z * option error -> Frame S -> Prop) :
  charge_ok mfn g pops R P -> memorySize o = mfn -> frame_ok f -> pops <= zlen (fr_stack f) ->
  (forall err, Q (0, Some err) f) ->
  (forall ms, is_u64 ms -> ms mod 32 = 0 -> wp refund_panic (g ms) (gas_post ms (P f) f) f ->
     (mfn <> None -> forall n, ms <= n -> R (fr_stack f) n) -> (mfn = None -> ms = 0) ->
     Q (ms, None) f) ->
  wp refund_panic (required_memory o) Q f.
Proof.
  intros Hch Hmfn Hf Hst Hfail Hk. unfold required_memory. rewrite Hmfn. destruct mfn as [fn|].
  - destruct Hch as [Hfn Hg].
    destruct (Hfn (fr_stack f)) as (sz & ov & Hsz & Hok); [apply Hf|done|].
    unfold wp, gbind, gpure. rewrite Hsz. destruct ov; [apply Hfail|]. destruct (Hok eq_refl) as [Hu HR].
    destruct (SafeMul (toWordSize sz) 32) as [ms ov] eqn:Em. destruct ov; [apply Hfail|].
    apply SafeMul_ok in Em as [-> Hms]; [|by apply toWordSize_u64|const_u64].
    assert ((toWordSize sz * 32) mod 32 = 0) as Hmod by by apply Z.mod_mul.
    apply Hk; [done|done| | |done].
    + by apply Hg.
    + intros _ n Hn. apply HR. pose proof (toWordSize_le sz Hu). lia.
  - apply wp_gret, Hk; [const_u64|done| |done|done]. by apply Hch.
Qed.

Lemma dynamic_ok e cg g pops pushes mfn R P Pre slack :
  is_u64 cg -> charge_ok mfn g pops R P -> exec_ok e pops pushes Pre slack ->
  (forall f0 f1 gas m, frame_ok f0 -> bounds_ok (dmin:=dmin) (gmax:=gmax) f0 ->
     pops <= zlen (fr_stack f0) -> frame_done f0 f1 ->
     fr_stack f1 = fr_stack f0 -> Gas (fr_contract f1) = Gas (fr_contract f0) ->
     0 <= gas <= Gas (fr_contract f0) -> P f0 gas f1 ->
     (mfn <> None -> R (fr_stack f0) (Memory_Len m)) -> mem_ok m ->
     let f2 := charged f1 gas m in
     Pre f2 /\ 0 <= slack f2 <= gas /\ (0 < cg \/ slack f2 < gas \/ stops e)) ->
  operation_ok (mkOperation e cg (Some g) pops (StackLimit + pops - pushes) mfn).
Proof.
  intros Hcg Hch He Hbridge. split; [by destruct mfn|]. intros f Hf Hb Hst Hpc. cbn in Hst.
  unfold run_operation.
  apply step_static; [done|done|intros err; apply run_post_fail; [by apply frame_done_refl|done]|].
  intros f0 Hf0 Hd0 Hle. cbn [constantGas dynamicGas execute] in *.
  assert (Gas (fr_contract f0) = Gas (fr_contract f) - cg) as Hg0 by done.
  assert (bounds_ok (dmin:=dmin) (gmax:=gmax) f0) as Hb0.
  { destruct Hb as [? ?]. unfold is_u64 in Hcg. split; [done|rewrite Hg0; lia]. }
  assert (fr_stack f0 = fr_stack f) as Hst0 by done.
  assert (fr_pc f0 = fr_pc f) as Hpc0 by done.
  assert (Code (fr_contract f0) = Code (fr_contract f)) as Hcode0 by done.
  clearbody f0. rewrite <- Hst0 in Hst. rewrite <- Hcode0, <- Hpc0 in Hpc.
  apply wp_gbind. eapply (required_memory_ok mfn g pops R P); try done; [lia| |].
  { intros err. apply wp_gret, run_post_fail; [done|]. unfold is_u64 in Hcg. lia. }
  intros ms Hms Hmod Hgas HR Hms0. apply wp_gbind. eapply wp_mono; [exact Hgas|].
  intros [gas [err|]] f1; unfold gas_post; cbn [fst snd].
  { intros [Hd1 Hg1]. apply wp_gret, run_post_fail; [by eapply frame_done_trans|].
    unfold is_u64 in Hcg. lia. }
  intros ([Hd1 Hpc1 Hst1 Hm1 Hg1] & Hu & Hmsr & HP).
  pose proof (done_contract _ _ Hd1) as Hc1. pose proof (ok_Gas _ _ Hc1) as Hgu.
  apply wp_gbind, wp_gzoom. unfold wp at 1. rewrite UseGas_spec by done.
  destruct (Gas (fr_contract f1) <? gas) eqn:Eg; cbn [negb]; zbool.
  { assert (set_contract (fr_contract f1) f1 = f1) as -> by by destruct f1.
    apply wp_gret, run_post_fail; [by eapply frame_done_trans|]. unfold is_u64 in Hcg. lia. }
  destruct (Memory_Resize_ok (paid ms (fr_mem f0)) ms) as (m & Hres & _).
  destruct (paid_Resize (fr_mem f0) ms m) as [Hmok Hlen]; [apply Hf0|done|done|done|].
  set (f2 := charged f1 gas m).
  assert (wp refund_panic (e) (fun r f' => run_post f r f') f2) as Hexec.
  { destruct (Hbridge f0 f1 gas m) as (HPre & Hslack & Hpos); try done; [lia|..].
    { unfold is_u64 in Hu. lia. }
    { intros Hn. apply HR; [done|]. lia. }
    assert (is_u64 (Gas (fr_contract f1) - gas)) as Hu2 by (unfold is_u64 in *; lia).
    assert (frame_done f f2) as Hd2.
    { eapply frame_done_trans; [exact Hd0|]. destruct (frame_done_Gas f0 f1 _ Hd1 Hu2). by split. }
    assert (frame_ok f2) as Hf2.
    { destruct Hf0. split; cbn; rewrite ?Hst1, ?Hpc1; try done; [by apply contract_ok_Gas|apply Hd1]. }
    assert (wp refund_panic e (op_post (slack f2) f2) f2) as H.
    { apply He; try done; cbn; rewrite ?Hst1, ?Hpc1; cbn; [lia|lia|].
      rewrite (same_Code _ _ (done_same _ _ Hd1)). done. }
    assert (Gas (fr_contract f2) = Gas (fr_contract f1) - gas) as Hgf2 by done.
    fold f2 in Hslack, Hpos.
    assert (forall r f', op_post (slack f2) f2 r f' -> (r.2 = None -> 0 < cg + (gas - slack f2)) ->
      run_post f r f') as Hfin.
    { intros r f' Hp Hpos'. unfold is_u64 in Hcg.
      apply (run_post_from f f2 (slack f2) r f' (cg + (gas - slack f2))); try done; lia. }
    unfold is_u64 in Hcg. destruct Hpos as [Hpos|[Hpos|Hstop]].
    - eapply wp_mono; [exact H|]. intros r f' Hp. apply Hfin; [done|]. intros _. lia.
    - eapply wp_mono; [exact H|]. intros r f' Hp. apply Hfin; [done|]. intros _. lia.
    - apply (wp_stops _ _ _ Hstop) in H. eapply wp_mono; [exact H|]. intros r f' [Hp Hn]. by apply Hfin. }
  destruct (ms >? 0) eqn:Epos; zbool.
  - apply wp_gbind, wp_gzoom. unfold wp at 1. cbn [fr_mem set_contract]. rewrite Hm1, Hres. exact Hexec.
  - apply wp_gbind, wp_gret. assert (ms = 0) as -> by (unfold is_u64 in Hms; lia).
    assert (m = fr_mem f1) as Hm0.
    { rewrite Hm1, paid_ok by apply Hf0. rewrite paid_ok in Hres by apply Hf0.
      unfold Memory_Resize in Hres. rewrite (proj2 (Z.ltb_ge _ 0)) in Hres by apply Memory_Len_nonneg.
      by injection Hres as <-. }
    unfold f2, charged in Hexec. rewrite Hm0 in Hexec. by destruct f1.
Qed.
End operations.
