(* ===== verification/TableOk.v ===== *)
(** * Every operation of every jump table is safe

    The instruction sets are computed; each of their 256 operations is matched
    with the lemmas of its instruction, its gas function and its memory-size
    function.  The result, [NewEVMInterpreter_ok], is what the main loop relies
    on. *)

From Stdlib Require Import Strings.Byte.
From S2P Require Import Prelude.
From S2P Require Import Uint256.
From S2P Require Import OpCodes.
From S2P Require Import Common.
From S2P Require Import Params.
From S2P Require Import Crypto.
From S2P Require Import StateInterface.
From S2P Require Import Stack.
From S2P Require Import Memory.
From S2P Require Import Analysis.
From S2P Require Import Machine.
From S2P Require Import Invariant.
From S2P Require Import GasTable.
From S2P Require Import Instructions.
From S2P Require Import JumpTable.
From S2P Require Import Interpreter.

(** ** Memory-size functions *)

Section memsize.
Context {U : Uint256} {UL : Uint256Laws U}.

(** A memory of [n] bytes covers the access with offset and length at [i], [j]. *)
Definition req_at (i j : nat) (st : Stack) (n : Z) : Prop :=
  forall off len, st !! i = Some off -> st !! j = Some len -> covers n off len.
Definition req_fixed (i : nat) (l : Z) (st : Stack) (n : Z) : Prop :=
  forall off, st !! i = Some off -> covers n off l.

Lemma Back_lookup st (i : nat) :
  stack_ok st -> Z.of_nat i < zlen st ->
  exists x, stack_Back st (Z.of_nat i) = Ret x /\ st !! i = Some x /\ is_u256 x.
Proof.
  intros Hst Hi. destruct (stack_Back_ok st (Z.of_nat i)) as (x & Hx & Hr); [done|lia|].
  exists x. split; [done|]. split; [|done]. unfold stack_Back, go_index in Hx.
  rewrite Nat2Z.id in Hx. destruct (_ && _); [|done]. destruct (st !! i); congruence.
Qed.

Lemma calcBack_ok (i j : nat) need :
  Z.of_nat i < need -> Z.of_nat j < need ->
  memsize_ok (fun st => calcBack st (Z.of_nat i) (Z.of_nat j)) need (req_at i j).
Proof.
  intros Hi Hj st Hst Hn.
  destruct (Back_lookup st i) as (off & Ho & Hlo & Hro); [done|lia|].
  destruct (Back_lookup st j) as (len & Hl & Hll & Hrl); [done|lia|].
  unfold calcBack. rewrite Ho, Hl. destruct (calcMemSize64 off len) as [sz ov] eqn:Ec.
  exists sz, ov. split; [done|]. intros ->. apply calcMemSize64_ok in Ec as [Hu Hc]; [|done..].
  split; [done|]. intros n Hle off' len' Ho' Hl'. simplify_eq. unfold covers. unfold is_u256 in Hrl. lia.
Qed.

Lemma calcMemSize64WithUint_ok off l sz :
  is_u256 off -> 0 < l < two64 -> calcMemSize64WithUint off l = (sz, false) ->
  is_u64 sz /\ sz = off + l.
Proof.
  intros Ho Hl. unfold calcMemSize64WithUint. destruct (l =? 0) eqn:E; zbool; [lia|].
  destruct (u256_Uint64WithOverflow off) as [o ov] eqn:Eo. destruct ov; [done|].
  apply Uint64WithOverflow_ok in Eo as [-> Hu]; [|done]. intros [= <- Hlt]. zbool. unfold is_u64 in *.
  destruct (Z.lt_ge_cases (off + l) two64); [rewrite u64_small by (unfold is_u64; lia); lia|].
  rewrite u64_add_over in Hlt by (unfold is_u64; lia). lia.
Qed.

Lemma calcBackWithUint_ok (i : nat) l need :
  Z.of_nat i < need -> 0 < l < two64 ->
  memsize_ok (fun st => calcBackWithUint st (Z.of_nat i) l) need (req_fixed i l).
Proof.
  intros Hi Hl st Hst Hn. destruct (Back_lookup st i) as (off & Ho & Hlo & Hro); [done|lia|].
  unfold calcBackWithUint. rewrite Ho. destruct (calcMemSize64WithUint off l) as [sz ov] eqn:Ec.
  exists sz, ov. split; [done|]. intros ->. apply calcMemSize64WithUint_ok in Ec as [Hu Hc]; [|done..].
  split; [done|]. intros n Hle off' Ho'. simplify_eq. right. lia.
Qed.

Lemma calcMax_ok f g need R1 R2 :
  memsize_ok f need R1 -> memsize_ok g need R2 ->
  memsize_ok (fun st => calcMax (f st) (g st)) need (fun st n => R1 st n /\ R2 st n).
Proof.
  intros Hf Hg st Hst Hn. destruct (Hf st Hst Hn) as (sx & ox & Ex & Hx).
  destruct (Hg st Hst Hn) as (sy & oy & Ey & Hy). rewrite Ex, Ey. unfold calcMax.
  destruct ox; [by eexists _, _|]. destruct oy; [by eexists _, _|].
  destruct (Hx eq_refl) as [Hux HRx], (Hy eq_refl) as [Huy HRy].
  destruct (sx >? sy) eqn:E; zbool.
  - exists sx, false. split; [done|]. intros _. split; [done|]. intros n Hle. split; [auto|]. apply HRy. lia.
  - exists sy, false. split; [done|]. intros _. split; [done|]. intros n Hle. split; [apply HRx; lia|auto].
Qed.

Lemma memoryKeccak256_ok : memsize_ok memoryKeccak256 2 (req_at 0 1).
Proof. apply (calcBack_ok 0 1); lia. Qed.
Lemma memoryCallDataCopy_ok : memsize_ok memoryCallDataCopy 3 (req_at 0 2).
Proof. apply (calcBack_ok 0 2); lia. Qed.
Lemma memoryReturnDataCopy_ok : memsize_ok memoryReturnDataCopy 3 (req_at 0 2).
Proof. apply (calcBack_ok 0 2); lia. Qed.
Lemma memoryCodeCopy_ok : memsize_ok memoryCodeCopy 3 (req_at 0 2).
Proof. apply (calcBack_ok 0 2); lia. Qed.
Lemma memoryExtCodeCopy_ok : memsize_ok memoryExtCodeCopy 4 (req_at 1 3).
Proof. apply (calcBack_ok 1 3); lia. Qed.
Lemma memoryMLoad_ok : memsize_ok memoryMLoad 1 (req_fixed 0 32).
Proof. apply (calcBackWithUint_ok 0 32); [lia|done]. Qed.
Lemma memoryMStore8_ok : memsize_ok memoryMStore8 2 (req_fixed 0 1).
Proof. apply (calcBackWithUint_ok 0 1); [lia|done]. Qed.
Lemma memoryMStore_ok : memsize_ok memoryMStore 2 (req_fixed 0 32).
Proof. apply (calcBackWithUint_ok 0 32); [lia|done]. Qed.
Lemma memoryCreate_ok : memsize_ok memoryCreate 3 (req_at 1 2).
Proof. apply (calcBack_ok 1 2); lia. Qed.
Lemma memoryCreate2_ok : memsize_ok memoryCreate2 4 (req_at 1 2).
Proof. apply (calcBack_ok 1 2); lia. Qed.
Lemma memoryReturn_ok : memsize_ok memoryReturn 2 (req_at 0 1).
Proof. apply (calcBack_ok 0 1); lia. Qed.
Lemma memoryRevert_ok : memsize_ok memoryRevert 2 (req_at 0 1).
Proof. apply (calcBack_ok 0 1); lia. Qed.
Lemma memoryLog_ok need : 2 <= need -> memsize_ok memoryLog need (req_at 0 1).
Proof. intros. apply (calcBack_ok 0 1); lia. Qed.
Lemma memoryCall_ok :
  memsize_ok memoryCall 7 (fun st n => req_at 5 6 st n /\ req_at 3 4 st n).
Proof. apply calcMax_ok; [apply (calcBack_ok 5 6)|apply (calcBack_ok 3 4)]; lia. Qed.
Lemma memoryDelegateCall_ok :
  memsize_ok memoryDelegateCall 6 (fun st n => req_at 4 5 st n /\ req_at 2 3 st n).
Proof. apply calcMax_ok; [apply (calcBack_ok 4 5)|apply (calcBack_ok 2 3)]; lia. Qed.
Lemma memoryStaticCall_ok :
  memsize_ok memoryStaticCall 6 (fun st n => req_at 4 5 st n /\ req_at 2 3 st n).
Proof. apply calcMax_ok; [apply (calcBack_ok 4 5)|apply (calcBack_ok 2 3)]; lia. Qed.
End memsize.

(** ** The shapes of operations *)

Section shapes.
Context {S : Type} {D : StateDB S} {K : Keccak} {KL : KeccakLaws K} {SP : StateDBSpec S}.
Context {U : Uint256} {UL : Uint256Laws U} {E : EVM S} {C : Calls S}.
Context {dmin gmax : Z} {CS : CallsSpec dmin gmax C}.
Abbreviation op_ok := (operation_ok (dmin:=dmin) (gmax:=gmax)).

Lemma gas_ok_need g need need' P : gas_ok g need P -> need <= need' -> gas_ok g need' P.
Proof. intros Hg Hn f ms ? ? ? ?. apply Hg; try done. lia. Qed.

Lemma static_op e cg mn mx pops pushes :
  exec_ok e pops pushes no_pre no_slack -> is_u64 cg -> 0 < cg \/ stops e ->
  mn = pops -> mx = StackLimit + pops - pushes ->
  op_ok (mkOperation e cg None mn mx None).
Proof. intros ? ? ? -> ->. by apply static_ok. Qed.

Lemma memory_op e cg g fn mn mx pops pushes need R P (Pre : Frame S -> Prop) :
  exec_ok e pops pushes Pre no_slack ->
  gas_ok g need P -> memsize_ok fn pops R ->
  (forall f, R (fr_stack f) (Memory_Len (fr_mem f)) -> Pre f) -> need <= pops -> is_u64 cg ->
  0 < cg \/ (forall f gas f', P f gas f' -> 0 < gas) \/ stops e ->
  mn = pops -> mx = StackLimit + pops - pushes ->
  op_ok (mkOperation e cg (Some g) mn mx (Some fn)).
Proof.
  intros He Hg Hfn HPre Hn Hcg Hpos -> ->. eapply (dynamic_ok e cg g pops pushes (Some fn) R P); [done| |done|].
  - split; [done|]. by eapply gas_ok_need.
  - intros f0 f1 gas m Hf0 _ _ Hd Hst HGas Hgas HP HR Hm. cbn zeta.
    split; [apply HPre; cbn; rewrite Hst; by apply HR|]. unfold no_slack. split; [lia|].
    destruct Hpos as [?|[Hp|?]]; [by left| |by right; right]. right; left. by eapply Hp.
Qed.

Lemma dynamic_op e cg g mn mx pops pushes P :
  exec_ok e pops pushes no_pre no_slack ->
  gas_ok0 g pops P -> is_u64 cg ->
  0 < cg \/ (forall f gas f', P f gas f' -> 0 < gas) \/ stops e ->
  mn = pops -> mx = StackLimit + pops - pushes ->
  op_ok (mkOperation e cg (Some g) mn mx None).
Proof.
  intros He Hg Hcg Hpos -> ->. eapply (dynamic_ok e cg g pops pushes None (fun _ _ => True) P); [done..|].
  intros f0 f1 gas m Hf0 _ _ Hd Hst HGas Hgas HP HR Hm. cbn. split; [done|]. unfold no_slack. split; [lia|].
  destruct Hpos as [?|[Hp|?]]; [by left| |by right; right]. right; left. by eapply Hp.
Qed.

(** EXP and the storage and account reads read more than they need to. *)
Lemma gas_ok0_need g need need' P : gas_ok0 g need P -> need <= need' -> gas_ok0 g need' P.
Proof. intros Hg Hn f ? ?. apply Hg; [done|lia]. Qed.

Lemma create_op e cg g fn mn mx pops need P :
  exec_ok e pops 1 (create_pre (dmin:=dmin) (gmax:=gmax)) no_slack ->
  gas_ok g need P -> memsize_ok fn pops (req_at 1 2) -> need <= pops -> is_u64 cg -> 0 < cg ->
  mn = pops -> mx = StackLimit + pops - 1 ->
  op_ok (mkOperation e cg (Some g) mn mx (Some fn)).
Proof.
  intros He Hg Hfn Hn Hcg Hpos -> ->. eapply (dynamic_ok e cg g pops 1 (Some fn) (req_at 1 2) P); [done| |done|].
  - split; [done|]. by eapply gas_ok_need.
  - intros f0 f1 gas m Hf0 [Hb1 Hb2] _ Hd Hst HGas Hgas HP HR Hm. cbn.
    split; [|unfold no_slack; split; [lia|by left]]. split.
    + split; cbn; [rewrite (ext_depth _ _ (done_ext _ _ Hd)); done|lia].
    + unfold covers_at. cbn. rewrite Hst. by apply HR.
Qed.

Lemma sends_value_nth st :
  stack_ok st -> 2 < zlen st -> sends_value st = negb (u256_IsZero (nth 2 st 0)).
Proof.
  intros Hst Hn. destruct (Back_lookup st 2) as (x & Hx & Hl & _); [done|lia|].
  unfold sends_value. change 2 with (Z.of_nat 2). rewrite Hx.
  destruct st as [|? [|? [|? ?]]]; try done. cbn in Hl. by injection Hl as ->.
Qed.

Lemma callee_lookup st a :
  stack_ok st -> st !! 1%nat = Some a -> callee st = u256_Bytes20 a.
Proof.
  intros Hst Ha. destruct (Back_lookup st 1) as (x & Hx & Hl & _); [done| |].
  { apply lookup_lt_Some in Ha. unfold zlen. lia. }
  unfold callee. change 1 with (Z.of_nat 1). rewrite Hx. congruence.
Qed.

(** The bridge from a call's gas function to its instruction. *)
Lemma call_bridge sends sends' f0 f1 gas m :
  frame_ok f0 -> bounds_ok (dmin:=dmin) (gmax:=gmax) f0 -> frame_done f0 f1 ->
  fr_stack f1 = fr_stack f0 -> Gas (fr_contract f1) = Gas (fr_contract f0) ->
  0 <= gas <= Gas (fr_contract f0) -> call_gas_warm sends f0 gas f1 ->
  sends' (fr_stack f0) = sends (fr_stack f0) ->
  let f2 := charged f1 gas m in
  call_ready (dmin:=dmin) (gmax:=gmax) sends' f2 /\ callee_warm f2 /\ 0 <= call_slack sends' f2 <= gas.
Proof.
  intros Hf0 [Hb1 Hb2] Hd Hst HGas Hgas [[Ht Hle] Hw] Hs f2.
  pose proof (ok_Gas _ _ (ok_contract _ Hf0)) as Hu.
  assert (call_slack sends' f2 = callGasTemp (fr_evm f1) + (if sends (fr_stack f0) then CallStipend else 0))
    as Hsl.
  { unfold call_slack, f2. cbn. by rewrite Hst, Hs. }
  assert (0 <= call_slack sends' f2 <= gas) as Hbound.
  { rewrite Hsl. split; [|done]. unfold is_u64, CallStipend in *. case_match; lia. }
  unfold is_u64 in *. split; [|split; [|done]].
  - split; [split; cbn; [by rewrite (ext_depth _ _ (done_ext _ _ Hd))|lia]|].
    split; [done|]. cbn. split; [lia|]. lia.
  - intros a Ha. cbn in *. rewrite Hst in Ha. rewrite <- (callee_lookup (fr_stack f0)); [done|apply Hf0|done].
Qed.

Lemma call7_op e cg g mn mx need :
  exec_ok e 7 1 (call7_pre (dmin:=dmin) (gmax:=gmax)) slack7 ->
  gas_ok g need (call_gas_warm sends_value) -> need <= 7 -> is_u64 cg -> 0 < cg ->
  mn = 7 -> mx = StackLimit + 7 - 1 -> op_ok (mkOperation e cg (Some g) mn mx (Some memoryCall)).
Proof.
  intros He Hg Hn Hcg Hpos -> ->.
  eapply (dynamic_ok e cg g 7 1 (Some memoryCall)); [done| |done|].
  - split; [apply memoryCall_ok|by eapply gas_ok_need].
  - intros f0 f1 gas m Hf0 Hb Hlen Hd Hst HGas Hgas HP HR Hm. cbn zeta.
    destruct (call_bridge sends_value (fun st => negb (u256_IsZero (nth 2 st 0))) f0 f1 gas m)
      as (H1 & H2 & H3); try done.
    { symmetry. apply sends_value_nth; [apply Hf0|lia]. }
    destruct (HR ltac:(done)) as [HR1 HR2]. split; [|split; [done|by left]].
    split_and!; try done; unfold covers_at; cbn; by rewrite Hst.
Qed.

Lemma call6_op e cg g fn mn mx need :
  exec_ok e 6 1 (call6_pre (dmin:=dmin) (gmax:=gmax)) slack6 ->
  memsize_ok fn 6 (fun st n => req_at 4 5 st n /\ req_at 2 3 st n) ->
  gas_ok g need (call_gas_warm sends_nothing) -> need <= 6 -> is_u64 cg -> 0 < cg ->
  mn = 6 -> mx = StackLimit + 6 - 1 -> op_ok (mkOperation e cg (Some g) mn mx (Some fn)).
Proof.
  intros He Hfn Hg Hn Hcg Hpos -> ->.
  eapply (dynamic_ok e cg g 6 1 (Some fn)); [done| |done|].
  - split; [exact Hfn|by eapply gas_ok_need].
  - intros f0 f1 gas m Hf0 Hb Hlen Hd Hst HGas Hgas HP HR Hm. cbn zeta.
    destruct (call_bridge sends_nothing (fun _ => false) f0 f1 gas m) as (H1 & H2 & H3); try done.
    destruct (HR ltac:(done)) as [HR1 HR2]. split; [|split; [done|by left]].
    split_and!; try done; unfold covers_at; cbn; by rewrite Hst.
Qed.

(** The instructions that end the frame. *)
Lemma stops_opStop : stops (S:=S) opStop.
Proof. by apply stops_gret. Qed.
Lemma stops_opUndefined : stops (S:=S) opUndefined.
Proof. repeat (apply stops_gbind; intros). by apply stops_gret. Qed.
Lemma stops_opReturn : stops (S:=S) opReturn.
Proof. repeat (apply stops_gbind; intros). by apply stops_gret. Qed.
Lemma stops_opRevert : stops (S:=S) opRevert.
Proof. repeat (apply stops_gbind; intros). by apply stops_gret. Qed.
Lemma stops_opSelfdestruct : stops (S:=S) opSelfdestruct.
Proof.
  apply stops_gbind. intros e. case_match; [by apply stops_gret|].
  repeat (apply stops_gbind; intros). by apply stops_gret.
Qed.
End shapes.

(** ** The instruction sets

    [compute_table] evaluates a constructor to the list of its 256 operations,
    leaving the instructions, gas and memory-size functions folded. *)

Create HintDb evm.
#[export] Hint Resolve opAdd_ok opSub_ok opMul_ok opDiv_ok opSdiv_ok opMod_ok opSmod_ok opExp_ok opSignExtend_ok
  opNot_ok opLt_ok opGt_ok opSlt_ok opSgt_ok opEq_ok opIszero_ok opAnd_ok opOr_ok opXor_ok
  opByte_ok opAddmod_ok opMulmod_ok opSHL_ok opSHR_ok opSAR_ok opKeccak256_ok opAddress_ok
  opBalance_ok opOrigin_ok opCaller_ok opCallValue_ok opCallDataLoad_ok opCallDataSize_ok
  opCallDataCopy_ok opReturnDataSize_ok opReturnDataCopy_ok opExtCodeSize_ok opCodeSize_ok
  opCodeCopy_ok opExtCodeCopy_ok opExtCodeHash_ok opGasprice_ok opBlockhash_ok opCoinbase_ok
  opTimestamp_ok opNumber_ok opDifficulty_ok opRandom_ok opGasLimit_ok opPop_ok opMload_ok
  opMstore_ok opMstore8_ok opSload_ok opSstore_ok opJump_ok opJumpi_ok opJumpdest_ok opPc_ok
  opMsize_ok opGas_ok opCreate_ok opCreate2_ok opCall_ok opCallCode_ok opDelegateCall_ok
  opStaticCall_ok opReturn_ok opRevert_ok opUndefined_ok opStop_ok opSelfdestruct_ok makeLog_ok
  opPush1_ok makePush_ok makeDup_ok makeSwap_ok opSelfBalance_ok opChainID_ok opTload_ok
  opTstore_ok opBaseFee_ok opPush0_ok : evm.
#[export] Hint Resolve memoryCopierGas_ok gasSStore_ok gasSStoreEIP2200_ok makeGasLog_ok gasKeccak256_ok
  pureMemoryGascost_ok gasCreate2_ok gasCreateEip3860_ok gasCreate2Eip3860_ok gasExpFrontier_ok
  gasExpEIP158_ok gasCall_ok gasCallCode_ok gasDelegateCall_ok gasStaticCall_ok
  gasSelfdestruct_ok makeGasSStoreFunc_ok gasSLoadEIP2929_ok gasExtCodeCopyEIP2929_ok
  gasEip2929AccountCheck_ok makeCallVariantGasCallEIP2929_ok makeSelfdestructGasFn_ok : evm.
#[export] Hint Resolve memoryKeccak256_ok memoryCallDataCopy_ok memoryReturnDataCopy_ok memoryCodeCopy_ok
  memoryExtCodeCopy_ok memoryMLoad_ok memoryMStore8_ok memoryMStore_ok memoryCreate_ok
  memoryCreate2_ok memoryCall_ok memoryDelegateCall_ok memoryStaticCall_ok memoryReturn_ok
  memoryRevert_ok memoryLog_ok : evm.
#[export] Hint Resolve stops_opStop stops_opUndefined stops_opReturn stops_opRevert
  stops_opSelfdestruct : evm.
#[export] Hint Extern 1 (_ <= _) => lia : evm.

Ltac compute_table :=
  cbv -[
    opAdd opSub opMul opDiv opSdiv opMod opSmod opExp opSignExtend opNot opLt opGt opSlt opSgt
    opEq opIszero opAnd opOr opXor opByte opAddmod opMulmod opSHL opSHR opSAR opKeccak256
    opAddress opBalance opOrigin opCaller opCallValue opCallDataLoad opCallDataSize
    opCallDataCopy opReturnDataSize opReturnDataCopy opExtCodeSize opCodeSize opCodeCopy
    opExtCodeCopy opExtCodeHash opGasprice opBlockhash opCoinbase opTimestamp opNumber
    opDifficulty opRandom opGasLimit opPop opMload opMstore opMstore8 opSload opSstore opJump
    opJumpi opJumpdest opPc opMsize opGas opCreate opCreate2 opCall opCallCode opDelegateCall
    opStaticCall opReturn opRevert opUndefined opStop opSelfdestruct makeLog opPush1 makePush
    makeDup makeSwap opSelfBalance opChainID opTload opTstore opBaseFee opPush0 memoryCopierGas
    gasSStore gasSStoreEIP2200 makeGasLog gasKeccak256 pureMemoryGascost gasCreate2
    gasCreateEip3860 gasCreate2Eip3860 gasExpFrontier gasExpEIP158 gasCall gasCallCode
    gasDelegateCall gasStaticCall gasSelfdestruct makeGasSStoreFunc gasSLoadEIP2929
    gasExtCodeCopyEIP2929 gasEip2929AccountCheck makeCallVariantGasCallEIP2929
    makeSelfdestructGasFn memoryKeccak256 memoryCallDataCopy memoryReturnDataCopy memoryCodeCopy
    memoryExtCodeCopy memoryMLoad memoryMStore8 memoryMStore memoryCreate memoryCreate2
    memoryCall memoryDelegateCall memoryStaticCall memoryReturn memoryRevert memoryLog
    two64 two256].

Ltac op_positive :=
  first [left; reflexivity | right; left; intros ? ? ? Hp; exact Hp | right; right; solve [eauto 1 with evm]].

Ltac solve_op :=
  lazymatch goal with
  | |- operation_ok (mkOperation _ _ None _ _ None) =>
      eapply static_op; [solve [eauto 3 with evm] | const_u64
        | first [left; reflexivity | right; solve [eauto 1 with evm]] | reflexivity | reflexivity]
  | |- operation_ok (mkOperation opCreate _ _ _ _ _) =>
      eapply create_op; [apply opCreate_ok|solve [eauto 3 with evm]|solve [eauto 3 with evm]|lia
        |const_u64|reflexivity|reflexivity|reflexivity]
  | |- operation_ok (mkOperation opCreate2 _ _ _ _ _) =>
      eapply create_op; [apply opCreate2_ok|solve [eauto 3 with evm]|solve [eauto 3 with evm]|lia
        |const_u64|reflexivity|reflexivity|reflexivity]
  | |- operation_ok (mkOperation _ _ _ _ _ (Some memoryCall)) =>
      eapply call7_op; [solve [eauto 3 with evm]|call_gas_side|lia|const_u64|reflexivity|reflexivity|reflexivity]
  | |- operation_ok (mkOperation _ _ _ _ _ (Some memoryDelegateCall)) =>
      eapply call6_op; [solve [eauto 3 with evm]|solve [eauto 3 with evm]|call_gas_side|lia|const_u64
        |reflexivity|reflexivity|reflexivity]
  | |- operation_ok (mkOperation _ _ _ _ _ (Some memoryStaticCall)) =>
      eapply call6_op; [solve [eauto 3 with evm]|solve [eauto 3 with evm]|call_gas_side|lia|const_u64
        |reflexivity|reflexivity|reflexivity]
  | |- operation_ok (mkOperation _ _ (Some _) _ _ (Some _)) =>
      eapply memory_op; [solve [eauto 3 with evm]|solve [eauto 3 with evm]|solve [eauto 3 with evm]
        |intros ? HR; exact HR|lia|const_u64|op_positive|reflexivity|reflexivity]
  | |- operation_ok (mkOperation _ _ (Some _) _ _ None) =>
      eapply dynamic_op; [solve [eauto 3 with evm]|solve [eauto 3 with evm]
        |const_u64|op_positive|reflexivity|reflexivity]
  end
with call_gas_side :=
  first [ apply call_gas_cold; [assumption|solve [eauto 3 with evm]]
        | eapply makeCallVariantGasCallEIP2929_ok; [| | |solve [eauto 3 with evm]];
          [assumption|assumption|lia]].

Section tables.
Context {S : Type} {D : StateDB S} {K : Keccak} {KL : KeccakLaws K} {SP : StateDBSpec S}.
Context {U : Uint256} {UL : Uint256Laws U} {E : EVM S} {C : Calls S}.
Context {dmin gmax : Z} {CS : CallsSpec dmin gmax C}.
Abbreviation op_ok := (operation_ok (dmin:=dmin) (gmax:=gmax)).

Definition slot_ok (o : option (operation S)) : Prop :=
  match o with Some o => op_ok o | None => False end.

(** A complete table of safe operations, with STOP at 0. *)
Definition table_ok (jt : JumpTable S) : Prop :=
  length jt = 256%nat /\ Forall slot_ok jt /\
  jt !! 0%nat = Some (Some (mkOperation opStop 0 None 0 StackLimit None)).

Definition table_built (r : Res (JumpTable S)) : Prop := exists jt, r = Ret jt /\ table_ok jt.

Ltac solve_table :=
  eexists; split; [compute_table; reflexivity|];
  split; [reflexivity|]; split; [|reflexivity];
  repeat (apply Forall_cons_2; [unfold slot_ok; solve_op|]); apply Forall_nil_2.

Lemma frontier_table : rIsBerlin chainRules = false -> table_built newFrontierInstructionSet.
Proof. intros Hb. solve_table. Qed.

Lemma homestead_table : rIsBerlin chainRules = false -> table_built newHomesteadInstructionSet.
Proof. intros Hb. solve_table. Qed.

Lemma tangerine_table : rIsBerlin chainRules = false -> table_built newTangerineWhistleInstructionSet.
Proof. intros Hb. solve_table. Qed.

Lemma spurious_table : rIsBerlin chainRules = false -> table_built newSpuriousDragonInstructionSet.
Proof. intros Hb. solve_table. Qed.

Lemma byzantium_table : rIsBerlin chainRules = false -> table_built newByzantiumInstructionSet.
Proof. intros Hb. solve_table. Qed.

Lemma constantinople_table : rIsBerlin chainRules = false -> table_built newConstantinopleInstructionSet.
Proof. intros Hb. solve_table. Qed.

Lemma istanbul_table :
  rIsBerlin chainRules = false -> is_Some (ChainID chainConfig) -> table_built newIstanbulInstructionSet.
Proof. intros Hb Hid. solve_table. Qed.

(** From Berlin on, calls and storage accesses are metered by EIP-2929, whose
    surcharge relies on EIP-150. *)
Section berlin_tables.
Hypothesis Hberlin : berlin.
Hypothesis Heip150 : rIsEIP150 chainRules = true.
Hypothesis Hchain : is_Some (ChainID chainConfig).

Lemma berlin_table : table_built newBerlinInstructionSet.
Proof using All. solve_table. Qed.

Lemma london_table : is_Some (BaseFee Context) -> table_built newLondonInstructionSet.
Proof using All. intros Hfee. solve_table. Qed.

Lemma merge_table :
  is_Some (BaseFee Context) -> is_Some (Random Context) -> table_built newMergeInstructionSet.
Proof using All. intros Hfee Hrandom. solve_table. Qed.

Lemma shanghai_table :
  is_Some (BaseFee Context) -> is_Some (Random Context) -> table_built newShanghaiInstructionSet.
Proof using All. intros Hfee Hrandom. solve_table. Qed.
End berlin_tables.
End tables.
