(* ===== verification/Evm.v ===== *)
(** * Calls and creations (client/core/vm/evm.go)

    [Call], [CallCode], [DelegateCall], [StaticCall], [create], [Create] and
    [Create2] over the state of the EVM, given the function that runs a contract;
    [evm_calls] ties the knot between them and the interpreter.  Its first
    argument bounds the nesting of calls ([CallCreateDepth] + 2 is enough, deeper
    calls fail with [ErrDepth]), its second the instructions per frame. *)

From Stdlib Require Import Strings.Byte.
From S2P Require Import Prelude.
From S2P Require Import Uint256.
From S2P Require Import OpCodes.
From S2P Require Import Common.
From S2P Require Import Params.
From S2P Require Import Precompiles.
From S2P Require Import Crypto.
From S2P Require Import StateInterface.
From S2P Require Import Stack.
From S2P Require Import Memory.
From S2P Require Import Analysis.
From S2P Require Import Machine.
From S2P Require Import Invariant.
From S2P Require Import GasTable.
From S2P Require Import Instructions.
From S2P Require Import JumpTable.
From S2P Require Import Interpreter.
From S2P Require Import TableOk.

Section evm.
Context {S : Type} {D : StateDB S} {U : Uint256} {K : Keccak} {R : PrecompileRun} {E : EVM S}.

(** Results of the calls. *)
Definition call_result : Type := list byte * Z * option error.
Definition create_result : Type := list byte * Address * Z * option error.

Definition precompile (addr : Address) : option PrecompiledContract := active_table chainRules !! addr.

Section calls.
(** The interpreter: runs a contract on an input, read-only or not. *)
Variable run : Contract -> list byte -> bool -> GM (EVMState S) (Contract * list byte * option error).

(** The common end of the calls: an error reverts to the snapshot and, unless
    it is a revert, consumes the gas. *)
Definition revert_on_error (snapshot : Z) (r : call_result) : GM (EVMState S) call_result :=
  let '(ret, gas, err) := r in
  match err with
  | None => gret (ret, gas, None)
  | Some err =>
      on_sdb (RevertToSnapshot snapshot) ;;;
      gret (ret, if bool_decide (err = ErrExecutionReverted) then gas else 0, Some err)
  end.

(** [ret, err = evm.interpreter.Run(...); gas = contract.Gas]. *)
Definition run_contract (c : Contract) (input : list byte) (readOnly_ : bool) : GM (EVMState S) call_result :=
  let* r := run c input readOnly_ in
  let '(c, ret, err) := r in
  gret (ret, Gas c, err).

(** The part of [Call] after the transfer: a precompile, no code, or a run. *)
Definition call_body (p : option PrecompiledContract) (caller : ContractRef) (addr : Address)
    (input : list byte) (gas value : Z) : GM (EVMState S) call_result :=
  match p with
  | Some p => gpure (RunPrecompiledContract p input gas)
  | None =>
      let* code := on_sdb (GetCode addr) in
      if zlen code =? 0 then gret ([], gas, None)
      else
        let* c := NewContract caller addr (Some value) gas in
        let* hash := on_sdb (GetCodeHash addr) in
        run_contract (SetCallCode addr hash code c) input false
  end.

(** The part of the other calls after the snapshot: they run a contract
    made by [new] with the code at [addr], even if it is empty. *)
Definition code_body (addr : Address) (input : list byte) (gas : Z) (readOnly_ : bool)
    (new : GM (EVMState S) Contract) : GM (EVMState S) call_result :=
  match precompile addr with
  | Some p => gpure (RunPrecompiledContract p input gas)
  | None =>
      let* c := new in
      let* hash := on_sdb (GetCodeHash addr) in
      let* code := on_sdb (GetCode addr) in
      run_contract (SetCallCode addr hash code c) input readOnly_
  end.

Definition Call (caller : ContractRef) (addr : Address) (input : list byte) (gas value : Z)
    : GM (EVMState S) call_result :=
  let* d := gget depth in
  if d >? CallCreateDepth then gret ([], gas, Some ErrDepth)
  else
    let* enough :=
      if negb (value =? 0) then on_sdb (CanTransfer Context (ref_Address caller) value) else gret true in
    if negb enough then gret ([], gas, Some ErrInsufficientBalance)
    else
      let* snapshot := on_sdb Snapshot in
      let p := precompile addr in
      let* exists_ := on_sdb (Exist addr) in
      if negb exists_ && (negb (bool_decide (is_Some p)) && rIsEIP158 chainRules && (value =? 0))
      then gret ([], gas, None)
      else
        (if negb exists_ then on_sdb (CreateAccount addr) else gret tt) ;;;
        on_sdb (Transfer Context (ref_Address caller) addr value) ;;;
        let* r := call_body p caller addr input gas value in
        revert_on_error snapshot r.

Definition CallCode (caller : ContractRef) (addr : Address) (input : list byte) (gas value : Z)
    : GM (EVMState S) call_result :=
  let* d := gget depth in
  if d >? CallCreateDepth then gret ([], gas, Some ErrDepth)
  else
    let* enough := on_sdb (CanTransfer Context (ref_Address caller) value) in
    if negb enough then gret ([], gas, Some ErrInsufficientBalance)
    else
      let* snapshot := on_sdb Snapshot in
      let* r := code_body addr input gas false (NewContract caller (ref_Address caller) (Some value) gas) in
      revert_on_error snapshot r.

Definition DelegateCall (caller : ContractRef) (addr : Address) (input : list byte) (gas : Z)
    : GM (EVMState S) call_result :=
  let* d := gget depth in
  if d >? CallCreateDepth then gret ([], gas, Some ErrDepth)
  else
    let* snapshot := on_sdb Snapshot in
    let* r := code_body addr input gas false
      (let* c := NewContract caller (ref_Address caller) None gas in AsDelegate c) in
    revert_on_error snapshot r.

Definition StaticCall (caller : ContractRef) (addr : Address) (input : list byte) (gas : Z)
    : GM (EVMState S) call_result :=
  let* d := gget depth in
  if d >? CallCreateDepth then gret ([], gas, Some ErrDepth)
  else
    let* snapshot := on_sdb Snapshot in
    on_sdb (AddBalance addr 0) ;;;
    let* r := code_body addr input gas true (NewContract caller addr (Some 0) gas) in
    revert_on_error snapshot r.

(** The checks on the code a creation returns, and the charge for storing it:
    the contract as charged and the error. *)
Definition deploy (address : Address) (c : Contract) (ret : list byte) (err : option error)
    : GM (EVMState S) (Contract * option error) :=
  let err :=
    if bool_decide (err = None) && rIsEIP158 chainRules && (zlen ret >? MaxCodeSize)
    then Some ErrMaxCodeSizeExceeded else err in
  let err :=
    if bool_decide (err = None) && bool_decide (head ret = Some Byte.xef) && rIsLondon chainRules
    then Some ErrInvalidCode else err in
  match err with
  | Some err => gret (c, Some err)
  | None =>
      let createDataGas := u64 (zlen ret * CreateDataGas) in
      let* r := gpure (UseGas createDataGas c) in
      let '(paid, c) := r in
      if paid : bool then on_sdb (SetCode address ret) ;;; gret (c, None)
      else gret (c, Some ErrCodeStoreOutOfGas)
  end.

(** The end of a creation: revert and consume the gas on an error, except for
    a Frontier creation that cannot pay for its code. *)
Definition create_revert (snapshot : Z) (c : Contract) (err : option error) : GM (EVMState S) Contract :=
  match err with
  | Some err =>
      if rIsHomestead chainRules || negb (bool_decide (err = ErrCodeStoreOutOfGas)) then
        on_sdb (RevertToSnapshot snapshot) ;;;
        if negb (bool_decide (err = ErrExecutionReverted)) then
          let* r := gpure (UseGas (Gas c) c) in gret (snd r)
        else gret c
      else gret c
  | None => gret c
  end.

(** The part of a creation after the collision check. *)
Definition create_account (caller : ContractRef) (ch : codeAndHash) (gas value : Z) (address : Address)
    : GM (EVMState S) create_result :=
  let* snapshot := on_sdb Snapshot in
  on_sdb (CreateAccount address) ;;;
  (if rIsEIP158 chainRules then on_sdb (SetNonce address 1) else gret tt) ;;;
  on_sdb (Transfer Context (ref_Address caller) address value) ;;;
  let* c := NewContract caller address (Some value) gas in
  let* r := run (SetCodeOptionalHash address ch c) [] false in
  let '(c, ret, err) := r in
  let* r := deploy address c ret err in
  let '(c, err) := r in
  let* c := create_revert snapshot c err in
  gret (ret, address, Gas c, err).

Definition create (caller : ContractRef) (ch : codeAndHash) (gas value : Z) (address : Address)
    : GM (EVMState S) create_result :=
  let* d := gget depth in
  if d >? CallCreateDepth then gret ([], 0, gas, Some ErrDepth)
  else
    let* enough := on_sdb (CanTransfer Context (ref_Address caller) value) in
    if negb enough then gret ([], 0, gas, Some ErrInsufficientBalance)
    else
      let* nonce := on_sdb (GetNonce (ref_Address caller)) in
      if u64 (nonce + 1) <? nonce then gret ([], 0, gas, Some ErrNonceUintOverflow)
      else
        on_sdb (SetNonce (ref_Address caller) (u64 (nonce + 1))) ;;;
        (if rIsBerlin chainRules then on_sdb (AddAddressToAccessList address) else gret tt) ;;;
        let* contractHash := on_sdb (GetCodeHash address) in
        let* nonce' := on_sdb (GetNonce address) in
        if negb (nonce' =? 0) || (negb (contractHash =? 0) && negb (contractHash =? emptyCodeHash))
        then gret ([], 0, 0, Some ErrContractAddressCollision)
        else create_account caller ch gas value address.

Definition Create (caller : ContractRef) (code : list byte) (gas value : Z) : GM (EVMState S) create_result :=
  let* nonce := on_sdb (GetNonce (ref_Address caller)) in
  create caller (mkCodeAndHash code 0) gas value (CreateAddress (ref_Address caller) nonce).

Definition Create2 (caller : ContractRef) (code : list byte) (gas endowment salt : Z)
    : GM (EVMState S) create_result :=
  let '(hash, ch) := codeAndHash_Hash (mkCodeAndHash code 0) in
  create caller ch gas endowment
    (CreateAddress2 (ref_Address caller) (u256_Bytes32 salt) (hash_bytes hash)).

Definition calls_of : Calls S := mkCalls S Call CallCode DelegateCall StaticCall Create Create2.
End calls.

(** No call at all: the nesting bound is used up. *)
Definition no_calls : Calls S :=
  let none {A} : GM (EVMState S) A := fun _ => NoFuel in
  mkCalls S (fun _ _ _ _ _ => none) (fun _ _ _ _ _ => none) (fun _ _ _ _ => none)
    (fun _ _ _ _ => none) (fun _ _ _ _ => none) (fun _ _ _ _ _ => none).

(** The interpreter of an EVM whose instructions call [C]. *)
Definition interpreter (C : Calls S) (fuel : nat) (c : Contract) (input : list byte) (readOnly_ : bool)
    : GM (EVMState S) (Contract * list byte * option error) :=
  let* table := gpure NewEVMInterpreter in
  Run (fst table) fuel c input readOnly_.

Fixpoint evm_calls (n fuel : nat) : Calls S :=
  match n with
  | O => no_calls
  | Datatypes.S n => calls_of (interpreter (evm_calls n fuel) fuel)
  end.
End evm.
