(* ===== verification/Safety.v ===== *)
(** * Safety and termination of the EVM

    [loop_ok] and [Run_ok] lift the safety of single operations to the
    interpreter; [calls_spec] shows that the calls meet the interface the
    instructions were proved against, and [evm_calls_spec] closes the recursion by
    induction on the nesting of calls.  The theorems about the program follow:
    calls return (with enough fuel), never panic, never create gas, and restore
    the state when they fail. *)

From Stdlib Require Import Strings.Byte.
From S2P Require Import Prelude.
From S2P Require Import Uint256.
From S2P Require Import OpCodes.
From S2P Require Import Common.
From S2P Require Import Params.
From S2P Require Import Precompiles.
From S2P Require Import Crypto.
From S2P Require Import StateInterface.
From S2P Require Import Stack.
From S2P Require Import Memory.
From S2P Require Import Analysis.
From S2P Require Import Machine.
From S2P Require Import Invariant.
From S2P Require Import GasTable.
From S2P Require Import Instructions.
From S2P Require Import JumpTable.
From S2P Require Import Interpreter.
From S2P Require Import TableOk.
From S2P Require Import Evm.

(** ** The interpreter *)

Section run.
Context {S : Type} {D : StateDB S} {K : Keccak} {KL : KeccakLaws K} {SP : StateDBSpec S}.
Context {U : Uint256} {UL : Uint256Laws U} {E : EVM S} {C : Calls S}.
Context {dmin gmax : Z} {CS : CallsSpec dmin gmax C}.
Context {jt : JumpTable S} (Hjt : table_ok (dmin:=dmin) (gmax:=gmax) jt).

Lemma table_lookup op :
  exists o, jt !! op_index op = Some (Some o) /\ operation_ok (dmin:=dmin) (gmax:=gmax) o.
Proof using Hjt.
  destruct Hjt as (Hlen & Hall & _).
  assert (op_index op < length jt)%nat as Hlt.
  { rewrite Hlen. unfold op_index. pose proof (byte_val_range op). lia. }
  apply lookup_lt_is_Some_2 in Hlt as [o Ho]. pose proof (Forall_lookup_1 _ _ _ _ Hall Ho) as Hok.
  destruct o as [o|]; [|done]. by exists o.
Qed.

Lemma GetOp_outside c pc : zlen (Code c) <= pc -> GetOp c pc = STOP.
Proof. intros H. unfold GetOp. by rewrite (proj2 (Z.ltb_ge pc (zlen (Code c)))). Qed.

(** Beyond the end of the code the frame stops. *)
Lemma step_outside f :
  frame_ok f -> zlen (Code (fr_contract f)) <= fr_pc f ->
  wp refund_panic (step jt) (run_post f) f.
Proof using Hjt.
  intros Hf Hpc. apply wp_gbind, wp_gget, wp_gbind, wp_gget. rewrite GetOp_outside by done.
  destruct Hjt as (_ & _ & Hstop). cbv zeta. change (op_index STOP) with 0%nat. rewrite Hstop.
  apply wp_gbind, wp_gget. cbn [minStack maxStack]. unfold stack_len.
  pose proof (ok_limit _ Hf). pose proof (zlen_nonneg (fr_stack f)).
  rewrite (proj2 (Z.ltb_ge _ 0)), Z.gtb_ltb, (proj2 (Z.ltb_ge _ _)) by lia.
  unfold run_operation. apply step_static; [done|const_u64| |].
  - intros err. by apply run_post_fail; [apply frame_done_refl|].
  - intros f0 Hf0 Hd Hle. cbn [dynamicGas execute]. apply wp_gret, run_post_fail; [done|]. cbn. lia.
Qed.

Lemma step_ok f :
  frame_ok f -> bounds_ok (dmin:=dmin) (gmax:=gmax) f -> wp refund_panic (step jt) (run_post f) f.
Proof using Hjt.
  intros Hf Hb. destruct (Z.lt_ge_cases (fr_pc f) (zlen (Code (fr_contract f)))) as [Hpc|Hpc];
    [|by apply step_outside].
  apply wp_gbind, wp_gget, wp_gbind, wp_gget. cbv zeta.
  destruct (table_lookup (GetOp (fr_contract f) (fr_pc f))) as (o & -> & Ho).
  apply wp_gbind, wp_gget. unfold stack_len.
  destruct (zlen (fr_stack f) <? minStack o) eqn:E1.
  { apply wp_gret, run_post_fail; [by apply frame_done_refl|done]. }
  destruct (zlen (fr_stack f) >? maxStack o) eqn:E2.
  { apply wp_gret, run_post_fail; [by apply frame_done_refl|done]. }
  zbool. by apply Ho.
Qed.

(** After the main loop, which ends with an error or the stop token. *)
Definition loop_post (f : Frame S) (r : list byte * option error) (f' : Frame S) : Prop :=
  frame_done f f' /\ zlen r.1 < 2 ^ 60 /\ Gas (fr_contract f') <= Gas (fr_contract f) /\ r.2 <> None.

Lemma loop_ok fuel f :
  frame_ok f -> bounds_ok (dmin:=dmin) (gmax:=gmax) f -> Gas (fr_contract f) < Z.of_nat fuel ->
  wp refund_panic (loop jt fuel) (loop_post f) f.
Proof using Hjt.
  revert f. induction fuel as [|fuel IH]; intros f Hf Hb Hfuel.
  { pose proof (ok_Gas _ _ (ok_contract _ Hf)) as [? _]. lia. }
  cbn [loop]. apply wp_gbind. eapply wp_mono; [by apply step_ok|].
  intros [res [err|]] f' (Hd & Hr & Hg & Hgo); cbn [snd fst] in *.
  { apply wp_gret. by split_and!. }
  destruct (Hgo eq_refl) as [Hf' Hlt]. apply wp_gbind, wp_gput.
  set (f2 := set_pc _ f').
  assert (frame_ok f2) as Hf2 by (destruct Hf'; split; try done; apply u64_range).
  assert (frame_done f f2) as Hd2 by by destruct Hd.
  eapply wp_mono; [apply IH; [done| |cbn; lia]|].
  - destruct Hb as [Hb1 Hb2]. split; cbn; [|lia]. rewrite (ext_depth _ _ (done_ext _ _ Hd)). done.
  - intros r f'' (Hd' & Hr' & Hg' & Hn). split_and!; try done; [by eapply frame_done_trans|]. cbn in *. lia.
Qed.

(** What a run of a contract leaves behind. *)
Definition run_done (e : EVMState S) (c : Contract) (r : Contract * list byte * option error)
    (e' : EVMState S) : Prop :=
  evm_ok e' /\ evm_ext e e' /\ zlen r.1.2 < 2 ^ 60 /\
  0 <= Gas r.1.1 <= Gas c /\ contract_ok e' r.1.1 /\ self r.1.1 = self c.

Lemma frame_start c e :
  contract_ok e c -> evm_ok e -> frame_ok (mkFrame 0 newstack NewMemory c e).
Proof. intros Hc He. split; cbn; try done. constructor. Qed.

Lemma run_frame_ok fuel c e :
  contract_ok e c -> evm_ok e -> dmin <= depth e -> Gas c < gmax -> Gas c < Z.of_nat fuel ->
  wp refund_panic (run_frame jt fuel c) (run_done e c) e.
Proof using Hjt.
  intros Hc He Hd Hg Hfuel.
  pose proof (loop_ok fuel (mkFrame 0 newstack NewMemory c e) (frame_start _ _ Hc He)) as H.
  specialize (H ltac:(by split) Hfuel). unfold wp, run_frame in *.
  destruct (loop jt fuel _) as [[[res err] f]|p|]; [|done..].
  destruct H as (Hdone & Hr & Hgas & Hn). cbn [fst snd fr_contract fr_evm] in *.
  pose proof (ok_Gas _ _ (done_contract _ _ Hdone)) as [? _].
  by split_and!; try done; apply Hdone.
Qed.

Lemma evm_ok_depth e d : evm_ok e -> d <= CallCreateDepth + 1 -> evm_ok (set_depth d e).
Proof. by intros [] Hd; split. Qed.

Lemma evm_ok_readOnly e b : evm_ok e -> evm_ok (set_readOnly b e).
Proof. by intros []; split. Qed.

(** [Run] is safe, and gives depth and read-only flag back. *)
Lemma Run_ok fuel c input ro e :
  contract_ok e c -> evm_ok e -> zlen input < 2 ^ 60 ->
  dmin <= depth e + 1 -> depth e <= CallCreateDepth -> Gas c < gmax -> Gas c < Z.of_nat fuel ->
  wp refund_panic (Run jt fuel c input ro) (run_done e c) e.
Proof using Hjt.
  intros Hc He Hin Hd Hd2 Hg Hfuel. unfold Run. apply wp_gbind, wp_gput, wp_gbind, wp_gget.
  set (sets := ro && negb _).
  set (e1 := set_returnData [] (if sets then set_readOnly true (set_depth (depth e + 1) e)
                                else set_depth (depth e + 1) e)).
  assert (evm_ok e1) as He1.
  { unfold e1. apply evm_ok_returnData; [|done].
    destruct sets; [apply evm_ok_readOnly|]; apply evm_ok_depth; try done; lia. }
  assert (contract_ok e1 (set_Input input c)) as Hc1.
  { unfold e1. destruct Hc; destruct sets; split; done. }
  assert (depth e1 = depth e + 1) as Hdep by (unfold e1; by destruct sets).
  assert (readOnly e1 = if sets then true else readOnly e) as Hro by (unfold e1; by destruct sets).
  assert (sets = true -> readOnly e = false) as Hsets.
  { unfold sets. intros Hs. apply andb_true_iff in Hs as [_ Hs]. by apply negb_true_iff in Hs. }
  assert (evm_StateDB e1 = evm_StateDB e /\ jumpmaps e1 = jumpmaps e) as [Hs1 Hj1]
    by (unfold e1; by destruct sets).
  apply wp_gbind.
  assert (wp refund_panic (if sets then gput (set_readOnly true) else gret tt)
    (fun _ s' => set_returnData [] s' = e1) (set_depth (depth e + 1) e)) as Hset by by destruct sets.
  eapply wp_mono; [exact Hset|]. intros u s' Hs'. apply wp_gbind, wp_gput. rewrite Hs'. clear Hs' Hset s' u.
  clearbody e1. apply wp_gbind.
  assert (wp refund_panic (if zlen (Code c) =? 0 then gret (c, [], None) else run_frame jt fuel (set_Input input c))
    (run_done e1 (set_Input input c)) e1) as Hrun.
  { destruct (zlen (Code c) =? 0); [|apply run_frame_ok; try done; lia]. apply wp_gret.
    pose proof (ok_Gas _ _ Hc) as [? _]. unfold run_done. cbn. split_and!; try done.
    destruct Hc; split; try done; [by rewrite Hj1|]. unfold warm in *. by rewrite Hs1. }
  eapply wp_mono; [exact Hrun|]. intros [[c2 ret] err] e2 (He2 & Hext & Hret & Hgas & Hc2 & Hself).
  cbn [fst snd] in *. destruct Hext as [Hx1 Hx2 Hx3 Hx4]. rewrite Hs1 in Hx1. rewrite Hj1 in Hx4.
  apply wp_gbind.
  destruct sets; [apply wp_gput|apply wp_gret]; apply wp_gbind, wp_gput, wp_gret; unfold run_done; cbn [fst snd];
    (split; [apply evm_ok_depth; [done || by apply evm_ok_readOnly|cbn; lia]|]);
    (split; [split; cbn; [done|lia|first [by rewrite (Hsets eq_refl)|congruence]|done]|]);
    (split; [done|]); (split; [exact Hgas|]); (split; [destruct Hc2; by split|exact Hself]).
Qed.
End run.

(** ** The calls *)

(** What the context of a run has to provide: the transfer functions are
    database code, one asks for the sender's means and the other moves no more,
    the forks are in order, and the values the opcodes of a fork read are there. *)
Class EVMSpec {S : Type} {D : StateDB S} {K : Keccak} {SP : StateDBSpec S} (E : EVM S) : Prop := {
  env_ExtraEips : ExtraEips evm_Config = [];
  env_CanTransfer a v s :
    sdb_ok s ->
    wp no_panic (CanTransfer Context a v)
      (fun b s' => b = (v <=? balance_at s a) /\ sdb_ok s' /\ sdb_ext s s' /\ sdb_equiv s' s) s;
  env_Transfer a b v s :
    sdb_ok s -> 0 <= v <= balance_at s a ->
    wp no_panic (Transfer Context a b v) (fun _ s' => sdb_ok s' /\ sdb_ext s s') s;
  env_berlin : rIsBerlin chainRules = true -> rIsEIP150 chainRules = true;
  env_london : rIsLondon chainRules = true -> rIsBerlin chainRules = true;
  env_merge : rIsMerge chainRules = true -> rIsLondon chainRules = true /\ is_Some (Random Context);
  env_shanghai : rIsShanghai chainRules = true -> rIsMerge chainRules = true;
  env_ChainID : is_Some (ChainID chainConfig);
  env_BaseFee : rIsLondon chainRules = true -> is_Some (BaseFee Context)
}.

Section calls.
Context {S : Type} {D : StateDB S} {K : Keccak} {KL : KeccakLaws K} {SP : StateDBSpec S}.
Context {U : Uint256} {UL : Uint256Laws U} {R : PrecompileRun} {RL : PrecompileRunLaws R}.
Context {E : EVM S} {ES : EVMSpec E}.

(** The interpreter's table is built and safe. *)
Lemma NewEVMInterpreter_built dmin gmax (C : Calls S) {CS : CallsSpec dmin gmax C} :
  exists jt, NewEVMInterpreter = Ret (jt, []) /\ table_ok (dmin:=dmin) (gmax:=gmax) jt.
Proof.
  assert (table_built (dmin:=dmin) (gmax:=gmax) select_table) as (jt & Hjt & Hok).
  { pose proof env_ChainID as Hid. unfold select_table.
    destruct (rIsShanghai chainRules) eqn:E1.
    { destruct (env_merge (env_shanghai E1)) as [Hl Hr]. pose proof (env_london Hl) as Hb.
      by apply shanghai_table; [|apply env_berlin| |apply env_BaseFee|]. }
    destruct (rIsMerge chainRules) eqn:E2.
    { destruct (env_merge E2) as [Hl Hr]. pose proof (env_london Hl) as Hb.
      by apply merge_table; [|apply env_berlin| |apply env_BaseFee|]. }
    destruct (rIsLondon chainRules) eqn:E3.
    { pose proof (env_london E3) as Hb. by apply london_table; [|apply env_berlin| |apply env_BaseFee]. }
    destruct (rIsBerlin chainRules) eqn:E4; [by apply berlin_table; [|apply env_berlin|]|].
    repeat case_match; auto using istanbul_table, constantinople_table, byzantium_table, spurious_table,
      tangerine_table, homestead_table, frontier_table. }
  exists jt. split; [|done]. unfold NewEVMInterpreter. rewrite Hjt, env_ExtraEips. done.
Qed.

(** The interpreter as the calls see it. *)
Definition run_spec (dmin gmax : Z)
    (run : Contract -> list byte -> bool -> GM (EVMState S) (Contract * list byte * option error)) : Prop :=
  forall c input ro e, contract_ok e c -> evm_ok e -> zlen input < 2 ^ 60 ->
    dmin <= depth e -> depth e <= CallCreateDepth -> Gas c < gmax ->
    wp refund_panic (run c input ro) (run_done e c) e.

Lemma interpreter_spec dmin (fuel : nat) (C : Calls S) {CS : CallsSpec (dmin + 1) (Z.of_nat fuel) C} :
  run_spec dmin (Z.of_nat fuel) (interpreter C fuel).
Proof.
  intros c input ro e Hc He Hin Hd Hd2 Hg. unfold interpreter.
  destruct (NewEVMInterpreter_built (dmin + 1) (Z.of_nat fuel) C) as (jt & Hnew & Hjt).
  apply wp_gbind. eapply wp_gpure; [exact Hnew|]. cbn [fst].
  apply (Run_ok (dmin:=dmin + 1) (gmax:=Z.of_nat fuel)); try done. lia.
Qed.

(** *** Steps of a call *)

(** The account has at least [v]. *)
Definition affords (e : EVMState S) (a : Address) (v : Z) : Prop := v <= balance_at (evm_StateDB e) a.

(** A step that leaves every balance alone. *)
Definition kept (e e' : EVMState S) : Prop :=
  forall a, balance_at (evm_StateDB e') a = balance_at (evm_StateDB e) a.

Lemma affords_kept e e' a v : kept e e' -> affords e a v -> affords e' a v.
Proof. intros Hk. unfold affords. by rewrite Hk. Qed.

Lemma evm_step {A B} (op : GM S A) (k : A -> GM (EVMState S) B) Q e :
  evm_ok e -> sdb_mutator op ->
  (forall b e', evm_ok e' -> evm_ext e e' -> kept e e' -> wp refund_panic (k b) Q e') ->
  wp refund_panic (gbind (on_sdb op) k) Q e.
Proof.
  intros He Hop Hk. apply wp_gbind, wp_gzoom. apply wp_no_panic.
  eapply wp_mono; [apply Hop, He|]. intros b s' (Hs & Hx & Hb).
  apply Hk; [by apply evm_ok_sdb|by apply evm_ext_sdb|exact Hb].
Qed.

(** The states of two points of a run hold the same data. *)
Definition evm_equiv (e e' : EVMState S) : Prop := sdb_equiv (evm_StateDB e) (evm_StateDB e').

Lemma equiv_kept e e' : evm_equiv e' e -> kept e e'.
Proof. intros H a. by apply balance_equiv. Qed.

Lemma evm_step_CanTransfer {B} a v (k : bool -> GM (EVMState S) B) Q e :
  evm_ok e ->
  (forall b e', evm_ok e' -> evm_ext e e' -> evm_equiv e' e -> (b = true -> affords e' a v) ->
     wp refund_panic (k b) Q e') ->
  wp refund_panic (gbind (on_sdb (CanTransfer Context a v)) k) Q e.
Proof using ES.
  intros He Hk. apply wp_gbind, wp_gzoom. apply wp_no_panic.
  eapply wp_mono; [apply env_CanTransfer, He|]. intros b s' (-> & Hs & Hx & Heq).
  apply Hk; [by apply evm_ok_sdb|by apply evm_ext_sdb|done|].
  intros Hbt. unfold affords. cbn. rewrite (balance_equiv _ _ a Heq). by apply Z.leb_le.
Qed.

(** Nothing is checked for a transfer of nothing. *)
Lemma evm_step_enough {B} a v (k : bool -> GM (EVMState S) B) Q e :
  evm_ok e ->
  (forall b e', evm_ok e' -> evm_ext e e' -> evm_equiv e' e -> (b = true -> affords e' a v) ->
     wp refund_panic (k b) Q e') ->
  wp refund_panic (gbind (if negb (v =? 0) then on_sdb (CanTransfer Context a v) else gret true) k) Q e.
Proof using ES.
  intros He Hk. destruct (v =? 0) eqn:Ev; cbn [negb]; [|by apply evm_step_CanTransfer]. zbool. subst v.
  apply wp_gbind, wp_gret, Hk; [done|done|unfold evm_equiv; reflexivity|].
  intros _. apply balance_nonneg, He.
Qed.

Lemma evm_step_Transfer {B} a b v (k : unit -> GM (EVMState S) B) Q e :
  evm_ok e -> 0 <= v -> affords e a v ->
  (forall u e', evm_ok e' -> evm_ext e e' -> wp refund_panic (k u) Q e') ->
  wp refund_panic (gbind (on_sdb (Transfer Context a b v)) k) Q e.
Proof using ES.
  intros He Hv Ha Hk. apply wp_gbind, wp_gzoom. apply wp_no_panic.
  eapply wp_mono; [by apply env_Transfer; [apply He|split]|]. intros u s' [Hs Hx].
  apply Hk; [by apply evm_ok_sdb|by apply evm_ext_sdb].
Qed.

Lemma evm_step_getter {A B} (op : GM S A) (k : A -> GM (EVMState S) B) Q e :
  evm_ok e -> sdb_getter op ->
  (forall b e', evm_ok e' -> evm_ext e e' -> evm_equiv e' e -> wp refund_panic (k b) Q e') ->
  wp refund_panic (gbind (on_sdb op) k) Q e.
Proof.
  intros He Hop Hk. apply wp_gbind, wp_gzoom. apply wp_no_panic.
  eapply wp_mono; [apply Hop, He|]. intros b s' (Hs & Hx & Heq).
  apply Hk; [by apply evm_ok_sdb|by apply evm_ext_sdb|done].
Qed.

Lemma evm_step_Snapshot {B} (k : Z -> GM (EVMState S) B) Q e :
  evm_ok e ->
  (forall id e', evm_ok e' -> evm_ext e e' -> evm_equiv e' e ->
     Snapshot (evm_StateDB e) = Ret (id, evm_StateDB e') ->
     wp refund_panic (k id) Q e') ->
  wp refund_panic (gbind (on_sdb Snapshot) k) Q e.
Proof.
  intros He Hk. apply wp_gbind, wp_gzoom. pose proof (Snapshot_ok _ (ok_sdb _ He)) as H.
  unfold wp in *. destruct (Snapshot (evm_StateDB e)) as [[id s1]| |] eqn:Es; [|done..].
  destruct H as (Hs & Hx & Heq). apply Hk; [by apply evm_ok_sdb|by apply evm_ext_sdb|done|done].
Qed.

Lemma evm_step_GetCode {B} a (k : list byte -> GM (EVMState S) B) Q e :
  evm_ok e ->
  (forall e', evm_ok e' -> evm_ext e e' -> evm_equiv e' e ->
     wp refund_panic (k (code_of (evm_StateDB e) a)) Q e') ->
  wp refund_panic (gbind (on_sdb (GetCode a)) k) Q e.
Proof.
  intros He Hk. apply wp_gbind, wp_gzoom. apply wp_no_panic.
  eapply wp_mono; [apply GetCode_ok, He|]. intros c s' (-> & Hs & Hx & Heq).
  apply Hk; [by apply evm_ok_sdb|by apply evm_ext_sdb|done].
Qed.

Lemma evm_step_GetCodeHash {B} a (k : Hash -> GM (EVMState S) B) Q e :
  evm_ok e ->
  (forall e', evm_ok e' -> evm_ext e e' -> evm_equiv e' e ->
     wp refund_panic (k (codehash_of (evm_StateDB e) a)) Q e') ->
  wp refund_panic (gbind (on_sdb (GetCodeHash a)) k) Q e.
Proof.
  intros He Hk. apply wp_gbind, wp_gzoom. apply wp_no_panic.
  eapply wp_mono; [apply GetCodeHash_ok, He|]. intros c s' (-> & Hs & Hx & Heq).
  apply Hk; [by apply evm_ok_sdb|by apply evm_ext_sdb|done].
Qed.

Lemma evm_step_GetNonce {B} a (k : Z -> GM (EVMState S) B) Q e :
  evm_ok e ->
  (forall n e', is_u64 n -> evm_ok e' -> evm_ext e e' -> evm_equiv e' e -> wp refund_panic (k n) Q e') ->
  wp refund_panic (gbind (on_sdb (GetNonce a)) k) Q e.
Proof.
  intros He Hk. apply wp_gbind, wp_gzoom. apply wp_no_panic.
  eapply wp_mono; [apply GetNonce_ok, He|]. intros n s' (-> & Hs & Hx & Heq).
  apply Hk; [apply nonce_u64, He|by apply evm_ok_sdb|by apply evm_ext_sdb|done].
Qed.

(** A new contract: its map exists, its value is the one given. *)
Lemma evm_step_NewContract {B} r obj v gas (k : Contract -> GM (EVMState S) B) Q e :
  evm_ok e -> caller_ok e r ->
  (forall j e', evm_ok e' -> evm_ext e e' -> evm_equiv e' e -> (j < length (jumpmaps e'))%nat ->
     wp refund_panic (k (mkContract (ref_Address r) r obj j None [] 0 None [] gas v)) Q e') ->
  wp refund_panic (gbind (NewContract r obj v gas) k) Q e.
Proof.
  intros He [Hw Hr] Hk. apply wp_gbind. unfold NewContract. apply wp_gbind. destruct r as [a|a ca va j].
  - set (e' := set_jumpmaps (jumpmaps e ++ [∅]) e).
    assert (evm_ok e') as He'.
    { destruct He; split; try done. cbn. intros j m Hj. apply lookup_snoc_Some in Hj as [[_ Hj]|[_ <-]];
        [eauto|]. intros h b. by rewrite lookup_empty. }
    change (wp refund_panic (k (mkContract a (AccountRef a) obj (length (jumpmaps e)) None [] 0 None [] gas v)) Q e').
    apply Hk; [done| |unfold evm_equiv; reflexivity|cbn; rewrite length_app; cbn; lia].
    split; try done. cbn. rewrite length_app. lia.
  - apply wp_gret, wp_gret, Hk; [done|done|unfold evm_equiv; reflexivity|apply Hr].
Qed.

(** A contract whose code comes from the database. *)
Lemma contract_ok_code e r obj j gas v code hash addr :
  (j < length (jumpmaps e))%nat -> is_u64 gas -> v <> None -> warm e obj ->
  zlen code < 2 ^ 60 -> (hash <> 0 -> code = [] \/ hash = keccak256 code) ->
  contract_ok e (mkContract (ref_Address r) r obj j None code hash addr [] gas v).
Proof. intros. by split. Qed.

(** *** After a call *)

(** A failed call restores the state; unless it was refused or reverted, it
    has consumed its gas. *)
Definition failed_clean (e : EVMState S) (gasLeft : Z) (err : option error) (e' : EVMState S) : Prop :=
  forall x, err = Some x ->
    evm_equiv e' e /\
    (gasLeft = 0 \/ x = ErrExecutionReverted \/ x = ErrDepth \/ x = ErrInsufficientBalance).

Definition call_strong (gas : Z) (e : EVMState S) (r : call_result) (e' : EVMState S) : Prop :=
  let '(ret, gasLeft, err) := r in
  call_post gas e ret gasLeft e' /\ failed_clean e gasLeft err e'.

Lemma call_post_intro gas e ret gl e' :
  evm_ok e' -> evm_ext e e' -> 0 <= gl <= gas -> zlen ret < 2 ^ 60 -> call_post gas e ret gl e'.
Proof. intros. by split; [|split; [|split]]. Qed.

Lemma call_strong_mono gas e0 e r e' :
  evm_ext e0 e -> evm_equiv e e0 -> call_strong gas e r e' -> call_strong gas e0 r e'.
Proof.
  destruct r as [[ret gl] err]. intros Hx Heq [(H1 & H2 & H3 & H4) Hf].
  split; [apply call_post_intro; try done; by etrans|]. intros x Hxe. destruct (Hf x Hxe) as [Heq' Hg].
  split; [|done]. unfold evm_equiv in *. by etrans.
Qed.

(** Left at once, with the gas it was given. *)
Lemma call_refused gas e err :
  evm_ok e -> 0 <= gas -> (err = None \/ err = Some ErrDepth \/ err = Some ErrInsufficientBalance) ->
  call_strong gas e ([], gas, err) e.
Proof.
  intros He Hg Herr. split; [by apply call_post_intro; try lia|]. intros x ->.
  split; [unfold evm_equiv; reflexivity|]. right; right. destruct Herr as [?|[[= ->]|[= ->]]]; auto. done.
Qed.

Lemma revert_on_error_ok e id e1 e2 gas ret gasLeft err :
  evm_ok e -> Snapshot (evm_StateDB e) = Ret (id, evm_StateDB e1) -> evm_ext e e1 ->
  call_post gas e1 ret gasLeft e2 ->
  wp refund_panic (revert_on_error id (ret, gasLeft, err)) (call_strong gas e) e2.
Proof.
  intros He Hs Hx1 (He2 & Hx2 & Hg & Hr). unfold revert_on_error. destruct err as [err|].
  - apply wp_gbind, wp_gzoom. apply wp_no_panic.
    eapply wp_mono; [eapply RevertToSnapshot_ok; [apply He|exact Hs|apply He2|apply Hx2]|].
    intros _ s3 (Hs3 & Heq & Hx3). apply wp_gret.
    assert (evm_ext e (set_sdb s3 e2)) as Hx.
    { destruct Hx1, Hx2; split; cbn; [done|congruence|congruence|lia]. }
    split; [apply call_post_intro; try done; [by apply evm_ok_sdb|case_match; lia]|].
    intros x [= ->]. split; [done|]. case_match; [|by left]. right; left. by eapply bool_decide_eq_true_1.
  - apply wp_gret. split; [|done]. apply call_post_intro; try done; by etrans.
Qed.

(** *** The bodies of the calls *)

Context {dmin gmax : Z}.
Variable run : Contract -> list byte -> bool -> GM (EVMState S) (Contract * list byte * option error).
Context (Hrun : run_spec dmin gmax run).

(** The result of running a contract, or a precompile, or nothing. *)
Definition body_post (gas : Z) (e : EVMState S) (r : call_result) (e' : EVMState S) : Prop :=
  call_post gas e r.1.1 r.1.2 e'.

Lemma run_contract_ok c input ro e0 e :
  evm_ext e0 e -> contract_ok e c -> evm_ok e -> zlen input < 2 ^ 60 ->
  dmin <= depth e -> depth e <= CallCreateDepth -> Gas c < gmax ->
  wp refund_panic (run_contract run c input ro) (body_post (Gas c) e0) e.
Proof using Hrun.
  intros Hx Hc He Hin Hd Hd2 Hg. unfold run_contract. apply wp_gbind.
  eapply wp_mono; [by apply Hrun|]. intros [[c' ret] err] e' (He' & Hx' & Hr & Hgas & _). apply wp_gret.
  apply call_post_intro; try done; by etrans.
Qed.

Lemma precompile_body_ok p input gas e0 e :
  evm_ext e0 e -> evm_ok e -> zlen input < 2 ^ 60 -> is_u64 gas ->
  wp refund_panic (gpure (RunPrecompiledContract p input gas)) (body_post gas e0) e.
Proof.
  intros Hx He Hin Hg.
  destruct (RunPrecompiledContract_ok p input gas Hin Hg) as (ret & gl & err & Hp & Hgl & Hr).
  eapply wp_gpure; [exact Hp|]. by apply call_post_intro.
Qed.

(** The end of every call, after its body. *)
Lemma call_end {gas} (body : GM (EVMState S) call_result) e id e1 e2 :
  evm_ok e -> Snapshot (evm_StateDB e) = Ret (id, evm_StateDB e1) -> evm_ext e e1 ->
  wp refund_panic body (body_post gas e1) e2 ->
  wp refund_panic (let* r := body in revert_on_error id r) (call_strong gas e) e2.
Proof.
  intros He Hs Hx Hbody. apply wp_gbind. eapply wp_mono; [exact Hbody|].
  intros [[ret gl] err] e3 Hpost. by eapply revert_on_error_ok.
Qed.

Lemma depth_ext e e' : evm_ext e e' -> depth e' = depth e.
Proof. by intros []. Qed.

Lemma code_hash_ok e1 e2 a :
  evm_ok e1 -> evm_equiv e2 e1 ->
  code_of (evm_StateDB e1) a = [] \/ codehash_of (evm_StateDB e2) a = keccak256 (code_of (evm_StateDB e1) a).
Proof. intros He1 H21. rewrite (codehash_of_equiv _ _ a H21). apply code_hash_of_code, He1. Qed.

Lemma call_body_ok p r a input gas v e :
  call_pre dmin gmax gas r input e -> depth e <= CallCreateDepth -> warm e a ->
  wp refund_panic (call_body run p r a input gas v) (body_post gas e) e.
Proof using Hrun RL KL.
  intros (He & Hd & Hg & Hgm & Hr & Hin) Hd2 Hw. pose proof Hg as [Hg0 _]. unfold call_body.
  destruct p as [p|]; [by apply precompile_body_ok|].
  apply evm_step_GetCode; [done|]. intros e1 He1 Hx1 Hq1.
  destruct (zlen _ =? 0); [apply wp_gret, call_post_intro; [done|done|cbn; lia|done]|].
  apply evm_step_NewContract; [done|by eapply caller_ok_ext|]. intros j e2 He2 Hx2 Hq2 Hj.
  apply evm_step_GetCodeHash; [done|]. intros e3 He3 Hx3 Hq3.
  assert (evm_ext e e3) as Hx by (do 2 (etrans; [eassumption|]); done).
  apply (run_contract_ok (mkContract _ _ _ _ _ _ _ _ _ gas _)); try done.
  - apply contract_ok_code; try done.
    + pose proof (ext_jumpmaps _ _ Hx3). cbn. lia.
    + by eapply warm_ext.
    + apply code_size_bound, He.
    + intros _. destruct (code_hash_ok e e2 a He) as [H|H]; [|by left|by right].
      unfold evm_equiv in *. by etrans.
  - by rewrite (ext_depth _ _ Hx).
  - by rewrite (ext_depth _ _ Hx).
Qed.

(** What the constructors of the other calls' contracts give. *)
Definition new_ok (gas : Z) (e : EVMState S) (c : Contract) (e' : EVMState S) : Prop :=
  evm_ok e' /\ evm_ext e e' /\ evm_equiv e' e /\ Gas c = gas /\ Input c = [] /\ analysis c = None /\
  (jumpdests c < length (jumpmaps e'))%nat /\ value c <> None /\ warm e' (self c).

Lemma code_body_ok a input gas ro new e :
  evm_ok e -> zlen input < 2 ^ 60 -> is_u64 gas -> gas < gmax ->
  dmin <= depth e -> depth e <= CallCreateDepth ->
  wp refund_panic new (new_ok gas e) e ->
  wp refund_panic (code_body run a input gas ro new) (body_post gas e) e.
Proof using Hrun RL KL.
  intros He Hin Hg Hgm Hd Hd2 Hnew. unfold code_body.
  destruct (precompile a) as [p|]; [by apply precompile_body_ok|].
  apply wp_gbind. eapply wp_mono; [exact Hnew|].
  intros c e1 (He1 & Hx1 & Hq1 & <- & HI & HA & Hj & Hv & Hw).
  apply evm_step_GetCodeHash; [done|]. intros e2 He2 Hx2 Hq2.
  apply evm_step_GetCode; [done|]. intros e3 He3 Hx3 Hq3.
  assert (evm_ext e e3) as Hx by (do 2 (etrans; [eassumption|]); done).
  apply (run_contract_ok (SetCallCode a _ _ c)); try done.
  - split; cbn; try done.
    + apply code_size_bound, He2.
    + by rewrite HI.
    + by rewrite HA.
    + intros _. apply code_hash_ok; [done|]. unfold evm_equiv in *. by symmetry.
    + pose proof (ext_jumpmaps _ _ Hx2). pose proof (ext_jumpmaps _ _ Hx3). lia.
    + eapply warm_ext; [|exact Hw]. by etrans.
  - by rewrite (ext_depth _ _ Hx).
  - by rewrite (ext_depth _ _ Hx).
Qed.

Lemma NewContract_new r obj v gas e :
  evm_ok e -> caller_ok e r -> warm e obj ->
  wp refund_panic (NewContract r obj (Some v) gas) (new_ok gas e) e.
Proof.
  intros He Hr Hw. apply wp_gbind_gret.
  apply evm_step_NewContract; [done..|]. intros j e' He' Hx Hq Hj. apply wp_gret.
  by split_and!; cbn; try done; eapply warm_ext.
Qed.

Lemma AsDelegate_new r gas e :
  evm_ok e -> caller_ok e r -> is_contract r ->
  wp refund_panic (let* c := NewContract r (ref_Address r) None gas in AsDelegate c) (new_ok gas e) e.
Proof.
  intros He Hr Hc. apply evm_step_NewContract; [done..|]. intros j e' He' Hx Hq Hj.
  destruct r as [|a ca v j']; [done|]. apply wp_gret. destruct Hr as [Hw [Hv _]].
  split_and!; try done. by eapply warm_ext.
Qed.

(** *** The calls *)

Lemma evm_step_if {A B} (b : bool) (op : GM S A) (x : A) (k : A -> GM (EVMState S) B) Q e :
  evm_ok e -> sdb_mutator op ->
  (forall y e', evm_ok e' -> evm_ext e e' -> kept e e' -> wp refund_panic (k y) Q e') ->
  wp refund_panic (gbind (if b then on_sdb op else gret x) k) Q e.
Proof. intros He Hop Hk. destruct b; [by apply evm_step|]. by apply wp_gbind, wp_gret, Hk. Qed.

Lemma call_pre_ext gas r input e e' :
  evm_ok e' -> evm_ext e e' -> call_pre dmin gmax gas r input e -> call_pre dmin gmax gas r input e'.
Proof.
  intros He' Hx (He & Hd & Hg & Hgm & Hr & Hin).
  split; [done|]. split; [by rewrite (ext_depth _ _ Hx)|]. repeat (split; [done|]).
  split; [by eapply caller_ok_ext|done].
Qed.

(** A call of the state [e0] continues as a call of an equivalent state. *)
Lemma strong_from {A} gas e0 e (m : GM (EVMState S) A) (f : A -> call_result) :
  evm_ext e0 e -> evm_equiv e e0 ->
  wp refund_panic m (fun r => call_strong gas e (f r)) e ->
  wp refund_panic m (fun r => call_strong gas e0 (f r)) e.
Proof. intros Hx Hq H. eapply wp_mono; [exact H|]. intros r e' Hr. by eapply call_strong_mono. Qed.

Lemma Call_strong r a input gas v e :
  call_pre dmin gmax gas r input e -> warm e a -> 0 <= v ->
  wp refund_panic (Call run r a input gas v) (call_strong gas e) e.
Proof using Hrun ES RL KL.
  intros Hpre Hw Hv. pose proof Hpre as (He & Hd & [Hg _] & _). unfold Call.
  apply wp_gbind, wp_gget. destruct (depth e >? CallCreateDepth) eqn:Ed; zbool.
  { apply wp_gret, call_refused; auto. }
  apply evm_step_enough; [done|]. intros b e0 He0 Hx0 Hq0 Ha0.
  apply (strong_from gas e e0 _ id); [done..|].
  destruct b; cbn [negb]; [specialize (Ha0 eq_refl)|apply wp_gret, call_refused; auto].
  apply evm_step_Snapshot; [done|]. intros id e1 He1 Hx1 Hq1 Hs.
  apply evm_step_getter; [done|apply Exist_ok|]. intros ex e2 He2 Hx2 Hq2.
  destruct (_ && _).
  { apply wp_gret, (call_strong_mono gas e0 e2); [by etrans|unfold evm_equiv in *; by etrans|].
    apply call_refused; auto. }
  apply evm_step_if; [done|apply CreateAccount_ok|]. intros u e3 He3 Hx3 Hk3.
  apply evm_step_Transfer; [done|done|by eauto 10 using affords_kept, equiv_kept|]. intros u' e4 He4 Hx4.
  assert (evm_ext e1 e4) as Hx14 by (do 2 (etrans; [eassumption|]); done).
  assert (evm_ext e e4) as Hx by (do 2 (etrans; [eassumption|]); done).
  apply (call_end _ e0 id e1); try done. eapply wp_mono.
  - apply call_body_ok; [by eapply call_pre_ext| |by eapply warm_ext]. rewrite (ext_depth _ _ Hx). lia.
  - intros r' e' (H1 & H2 & H3 & H4). apply call_post_intro; try done. by etrans.
Qed.

(** The common part of the three other calls. *)
Lemma code_call_strong {new} a input gas ro id e e1 e2 :
  evm_ok e -> Snapshot (evm_StateDB e) = Ret (id, evm_StateDB e1) -> evm_ext e e1 ->
  evm_ok e2 -> evm_ext e1 e2 -> zlen input < 2 ^ 60 -> is_u64 gas -> gas < gmax ->
  dmin <= depth e -> depth e <= CallCreateDepth ->
  wp refund_panic new (new_ok gas e2) e2 ->
  wp refund_panic (let* r := code_body run a input gas ro new in revert_on_error id r)
    (call_strong gas e) e2.
Proof using Hrun RL KL.
  intros He Hs Hx He2 Hx2 Hin Hg Hgm Hd Hd2 Hnew.
  assert (depth e2 = depth e) as Hdep by (apply depth_ext; by etrans).
  apply (call_end _ e id e1); try done. eapply wp_mono; [apply code_body_ok; try done; by rewrite Hdep|].
  intros r' e' (H1 & H2 & H3 & H4). apply call_post_intro; try done. by etrans.
Qed.

Lemma CallCode_strong r a input gas v e :
  call_pre dmin gmax gas r input e ->
  wp refund_panic (CallCode run r a input gas v) (call_strong gas e) e.
Proof using Hrun ES RL KL.
  intros (He & Hd & Hg & Hgm & Hr & Hin). pose proof Hg as [Hg0 _]. unfold CallCode.
  apply wp_gbind, wp_gget. destruct (depth e >? CallCreateDepth) eqn:Ed; zbool.
  { apply wp_gret, call_refused; auto. }
  apply evm_step_CanTransfer; [done|]. intros b e0 He0 Hx0 Hq0 _.
  apply (strong_from gas e e0 _ id); [done..|].
  destruct (negb b); [apply wp_gret, call_refused; auto|].
  apply evm_step_Snapshot; [done|]. intros id e1 He1 Hx1 Hq1 Hs.
  assert (evm_ext e e1) as Hx by by etrans.
  apply (code_call_strong _ _ _ _ _ e0 e1 e1); try done; rewrite ?(depth_ext _ _ Hx0); try done.
  pose proof (caller_ok_ext _ _ _ Hx Hr) as Hr1. by apply NewContract_new; [..|apply Hr1].
Qed.

Lemma DelegateCall_strong r a input gas e :
  call_pre dmin gmax gas r input e -> is_contract r ->
  wp refund_panic (DelegateCall run r a input gas) (call_strong gas e) e.
Proof using Hrun ES RL KL.
  intros (He & Hd & Hg & Hgm & Hr & Hin) Hc. pose proof Hg as [Hg0 _]. unfold DelegateCall.
  apply wp_gbind, wp_gget. destruct (depth e >? CallCreateDepth) eqn:Ed; zbool.
  { apply wp_gret, call_refused; auto. }
  apply evm_step_Snapshot; [done|]. intros id e1 He1 Hx1 Hq1 Hs.
  apply (code_call_strong _ _ _ _ _ e e1 e1); try done.
  by apply AsDelegate_new; [|eapply caller_ok_ext|].
Qed.

Lemma StaticCall_strong r a input gas e :
  call_pre dmin gmax gas r input e -> warm e a ->
  wp refund_panic (StaticCall run r a input gas) (call_strong gas e) e.
Proof using Hrun ES RL KL.
  intros (He & Hd & Hg & Hgm & Hr & Hin) Hw. pose proof Hg as [Hg0 _]. unfold StaticCall.
  apply wp_gbind, wp_gget. destruct (depth e >? CallCreateDepth) eqn:Ed; zbool.
  { apply wp_gret, call_refused; auto. }
  apply evm_step_Snapshot; [done|]. intros id e1 He1 Hx1 Hq1 Hs.
  apply evm_step; [done|apply AddBalance_zero|]. intros u e2 He2 Hx2 _.
  assert (evm_ext e e2) as Hx by by etrans.
  apply (code_call_strong _ _ _ _ _ e e1 e2); try done.
  by apply NewContract_new; [|eapply caller_ok_ext|eapply warm_ext].
Qed.

(** *** Creations *)

(** A creation that fails keeps the gas only if it was refused, reverted or
    could not pay for its code before Homestead. *)
Definition create_strong (gas : Z) (e : EVMState S) (r : create_result) (e' : EVMState S) : Prop :=
  let '(ret, _, gasLeft, err) := r in
  call_post gas e ret gasLeft e' /\
  forall x, err = Some x ->
    gasLeft = 0 \/ x = ErrExecutionReverted \/ x = ErrDepth \/ x = ErrInsufficientBalance \/
    x = ErrNonceUintOverflow \/ (x = ErrCodeStoreOutOfGas /\ rIsHomestead chainRules = false).

Definition deploy_post (c : Contract) (ret : list byte) (err : option error) (e : EVMState S)
    (r : Contract * option error) (e' : EVMState S) : Prop :=
  evm_ok e' /\ evm_ext e e' /\ 0 <= Gas r.1 <= Gas c /\ (err <> None -> r.2 = err) /\ is_u64 (Gas r.1).

Lemma deploy_ok a c ret err e :
  evm_ok e -> is_u64 (Gas c) -> zlen ret < 2 ^ 60 ->
  wp refund_panic (deploy a c ret err) (deploy_post c ret err e) e.
Proof.
  intros He [Hg1 Hg2] Hr. unfold deploy. cbv zeta.
  set (err1 := if bool_decide (err = None) && rIsEIP158 chainRules && _ then _ else err).
  set (err2 := if bool_decide (err1 = None) && _ && _ then _ else err1).
  assert (err <> None -> err2 = err) as Herr.
  { intros H. assert (err1 = err) as H1 by (unfold err1; by rewrite (bool_decide_eq_false_2 _ H)).
    unfold err2. rewrite H1. by rewrite (bool_decide_eq_false_2 _ H). }
  clearbody err2. clear err1. destruct err2 as [x|].
  { apply wp_gret. by split_and!; cbn; try done; lia. }
  assert (err = None) as -> by (destruct err; [by specialize (Herr ltac:(done))|done]).
  apply wp_gbind. rewrite (UseGas_spec c _ (conj Hg1 Hg2) (u64_range _)).
  pose proof (u64_range (zlen ret * CreateDataGas)) as [Hc1 Hc2].
  destruct (Gas c <? _) eqn:E1; zbool; (eapply wp_gpure; [reflexivity|]).
  { apply wp_gret. by split_and!; cbn; try done; lia. }
  apply evm_step; [done|by apply SetCode_ok|]. intros u e' He' Hx _. apply wp_gret.
  by split_and!; cbn; try done; unfold is_u64; lia.
Qed.

Lemma UseGas_all c : is_u64 (Gas c) -> UseGas (Gas c) c = Ret (true, set_Gas 0 c).
Proof. intros Hg. rewrite UseGas_spec by done. by rewrite Z.ltb_irrefl, Z.sub_diag. Qed.

Lemma create_revert_ok e id e1 e2 c ret addr gas err :
  evm_ok e -> Snapshot (evm_StateDB e) = Ret (id, evm_StateDB e1) -> evm_ext e e1 ->
  evm_ok e2 -> evm_ext e1 e2 -> 0 <= Gas c <= gas -> is_u64 (Gas c) -> zlen ret < 2 ^ 60 ->
  wp refund_panic
    (let* c := create_revert id c err in gret (ret, addr, Gas c, err)) (create_strong gas e) e2.
Proof.
  intros He Hs Hx1 He2 Hx2 Hg Hgu Hr. apply wp_gbind. unfold create_revert.
  assert (forall g s3, 0 <= g <= gas -> sdb_ok s3 -> sdb_ext (evm_StateDB e) s3 ->
    call_post gas e ret g (set_sdb s3 e2)) as Hrev.
  { intros g s3 H1 H2 H3. apply call_post_intro; try done; [by apply evm_ok_sdb|].
    destruct Hx1, Hx2; split; cbn; [done|congruence|congruence|lia]. }
  destruct err as [x|]; [|apply wp_gret, wp_gret; split; [|done]; apply call_post_intro; try done; by etrans].
  destruct (_ || _) eqn:E1.
  - apply wp_gbind, wp_gzoom. apply wp_no_panic.
    eapply wp_mono; [eapply RevertToSnapshot_ok; [apply He|exact Hs|apply He2|apply Hx2]|].
    intros u s3 (Hs3 & Heq & Hx3). destruct (bool_decide (x = ErrExecutionReverted)) eqn:Hx; cbn [negb].
    + apply bool_decide_eq_true_1 in Hx as ->.
      apply wp_gret, wp_gret. split; [by apply Hrev|]. intros y [= <-]. auto.
    + apply wp_gbind. eapply wp_gpure; [by apply UseGas_all|]. apply wp_gret, wp_gret.
      split; [apply Hrev; cbn; try done; lia|]. cbn. auto.
  - apply orb_false_iff in E1 as [Eh Ex]. apply negb_false_iff in Ex.
    apply bool_decide_eq_true_1 in Ex as ->.
    apply wp_gret, wp_gret. split; [apply call_post_intro; try done; by etrans|]. intros y [= <-]. auto 7.
Qed.

Definition ch_ok (ch : codeAndHash) : Prop :=
  zlen (ch_code ch) < 2 ^ 60 /\ (ch_hash ch <> 0 -> ch_hash ch = keccak256 (ch_code ch)).

Lemma create_account_ok r ch gas v a e :
  call_pre dmin gmax gas r (ch_code ch) e -> depth e <= CallCreateDepth -> warm e a -> ch_ok ch ->
  0 <= v -> affords e (ref_Address r) v ->
  wp refund_panic (create_account run r ch gas v a) (create_strong gas e) e.
Proof using Hrun ES RL KL.
  intros (He & Hd & Hg & Hgm & Hr & Hin) Hd2 Hw [Hc1 Hc2] Hv Ha. unfold create_account.
  apply evm_step_Snapshot; [done|]. intros id e1 He1 Hx1 Hq1 Hs.
  apply evm_step; [done|apply CreateAccount_ok|]. intros u1 e2 He2 Hx2 Hk2.
  apply evm_step_if; [done|by apply SetNonce_ok|]. intros u2 e3 He3 Hx3 Hk3.
  apply evm_step_Transfer; [done|done|by eauto 10 using affords_kept, equiv_kept|]. intros u3 e4 He4 Hx4.
  assert (evm_ext e1 e4) as Hx14 by (do 2 (etrans; [eassumption|]); done).
  assert (evm_ext e e4) as Hx by by etrans.
  apply evm_step_NewContract; [done|by eapply caller_ok_ext|]. intros j e5 He5 Hx5 Hq5 Hj.
  assert (evm_ext e e5) as Hx05 by by etrans.
  apply wp_gbind. eapply wp_mono.
  { apply (Hrun (SetCodeOptionalHash a ch (mkContract _ _ _ _ _ _ _ _ _ gas _))); try done.
    - split; cbn; try done; [intros H; right; by apply Hc2|]. by eapply warm_ext.
    - by rewrite (depth_ext _ _ Hx05).
    - by rewrite (depth_ext _ _ Hx05). }
  intros [[c ret] err] e6 (He6 & Hx6 & Hret & Hgas & Hc & Hself). cbn [fst snd Gas SetCodeOptionalHash] in *.
  apply wp_gbind. eapply wp_mono; [apply deploy_ok; [done|apply Hc|done]|].
  intros [c' err'] e7 (He7 & Hx7 & Hg7 & _ & Hu). cbn [fst snd] in *.
  apply (create_revert_ok e id e1); try done; [|lia].
  do 3 (etrans; [eassumption|]). done.
Qed.

Lemma create_ok r ch gas v a e :
  call_pre dmin gmax gas r (ch_code ch) e -> ch_ok ch -> 0 <= v ->
  wp refund_panic (create run r ch gas v a) (create_strong gas e) e.
Proof using Hrun ES RL KL.
  intros Hpre Hch Hv. pose proof Hpre as (He & Hd & [Hg _] & _). unfold create.
  apply wp_gbind, wp_gget. destruct (depth e >? CallCreateDepth) eqn:Ed; zbool.
  { apply wp_gret. split; [by apply call_post_intro; try lia|]. intros x [= <-]. auto. }
  apply evm_step_CanTransfer; [done|]. intros b e1 He1 Hx1 Hq1 Ha1. destruct b; cbn [negb]; [specialize (Ha1 eq_refl)|].
  2:{ apply wp_gret. split; [by apply call_post_intro; try lia|]. intros x [= <-]. auto. }
  apply evm_step_GetNonce; [done|]. intros n e2 Hn He2 Hx2 Hq2. destruct (u64 _ <? n).
  { apply wp_gret. split; [apply call_post_intro; try done; by etrans|]. intros x [= <-]. auto 7. }
  apply evm_step; [done|apply SetNonce_ok, u64_range|]. intros u3 e3 He3 Hx3 Hk3.
  assert (evm_ext e e3) as H03 by (do 2 (etrans; [eassumption|]); done).
  apply wp_gbind. eapply (wp_mono _ (fun (_ : unit) e' => evm_ok e' /\ evm_ext e e' /\ kept e3 e' /\ warm e' a)).
  { destruct (rIsBerlin chainRules) eqn:Eb.
    - apply wp_gzoom, wp_no_panic. eapply wp_mono; [apply AddAddressToAccessList_ok, He3|].
      intros u4 s4 (Hin & Hs4 & Hx4 & Hb4). split_and!; [by apply evm_ok_sdb| |exact Hb4|by intros _].
      etrans; [exact H03|by apply evm_ext_sdb].
    - apply wp_gret. split_and!; try done. intros Hb. unfold berlin in Hb. by rewrite Eb in Hb. }
  intros u4 e4 (He4 & Hx4 & Hk4 & Hw4).
  apply evm_step_GetCodeHash; [done|]. intros e5 He5 Hx5 Hq5.
  apply evm_step_GetNonce; [done|]. intros n' e6 Hn' He6 Hx6 Hq6.
  assert (evm_ext e4 e6) as H46 by by etrans. assert (evm_ext e e6) as H06 by by etrans.
  destruct (_ || _).
  { apply wp_gret. split; [by apply call_post_intro; try lia|]. auto. }
  eapply wp_mono; [apply create_account_ok; try done|].
  - by eapply call_pre_ext.
  - rewrite (depth_ext _ _ H06). lia.
  - by apply (warm_ext e4).
  - by eauto 12 using affords_kept, equiv_kept.
  - intros [[[ret addr] gl] err] e7 [(H1 & H2 & H3 & H4) H5]. split; [|done].
    apply call_post_intro; try done. by etrans.
Qed.

Lemma Create_strong r code gas v e :
  call_pre dmin gmax gas r code e -> 0 <= v ->
  wp refund_panic (Create run r code gas v) (create_strong gas e) e.
Proof using Hrun ES RL KL.
  intros Hpre Hv. pose proof Hpre as (He & Hd & Hg & Hgm & Hr & Hin). unfold Create.
  apply evm_step_GetNonce; [done|]. intros n e1 Hn He1 Hx1 Hq1.
  eapply wp_mono; [apply create_ok; [by eapply call_pre_ext|by split|done]|].
  intros [[[ret addr] gl] err] e7 [(H1 & H2 & H3 & H4) H5]. split; [|done].
  apply call_post_intro; try done. by etrans.
Qed.

Lemma Create2_strong r code gas v salt e :
  call_pre dmin gmax gas r code e -> 0 <= v ->
  wp refund_panic (Create2 run r code gas v salt) (create_strong gas e) e.
Proof using Hrun ES RL KL.
  intros Hpre Hv. unfold Create2. cbn. apply create_ok; [done| |done].
  split; [apply Hpre|done].
Qed.

(** The calls over a safe interpreter meet the interface of the instructions. *)
Lemma calls_spec : CallsSpec dmin gmax (calls_of run).
Proof using Hrun ES RL KL.
  split; cbn [calls_of evm_Call evm_CallCode evm_DelegateCall evm_StaticCall evm_Create evm_Create2]; intros.
  - eapply wp_mono; [by apply Call_strong|]. by intros [[? ?] ?] ? [? ?].
  - eapply wp_mono; [by apply CallCode_strong|]. by intros [[? ?] ?] ? [? ?].
  - eapply wp_mono; [by apply DelegateCall_strong|]. by intros [[? ?] ?] ? [? ?].
  - eapply wp_mono; [by apply StaticCall_strong|]. by intros [[? ?] ?] ? [? ?].
  - eapply wp_mono; [by apply Create_strong|]. by intros [[[? ?] ?] ?] ? [? ?].
  - eapply wp_mono; [by apply Create2_strong|]. by intros [[[? ?] ?] ?] ? [? ?].
Qed.
End calls.

Section knot.
Context {S : Type} {D : StateDB S} {K : Keccak} {KL : KeccakLaws K} {SP : StateDBSpec S}.
Context {U : Uint256} {UL : Uint256Laws U} {R : PrecompileRun} {RL : PrecompileRunLaws R}.
Context {E : EVM S} {ES : EVMSpec E}.

(** At depth [dmin] the nesting [n] suffices. *)
Lemma evm_calls_spec n fuel :
  CallsSpec (CallCreateDepth + 2 - Z.of_nat n) (Z.of_nat fuel) (evm_calls n fuel).
Proof.
  induction n as [|n IH].
  - split; intros; exfalso; repeat match goal with H : call_pre _ _ _ _ _ _ |- _ => destruct H as (He & Hd & _) end;
      pose proof (ok_depth _ He); lia.
  - cbn [evm_calls]. apply calls_spec. apply interpreter_spec.
    replace (CallCreateDepth + 2 - Z.of_nat (Datatypes.S n) + 1) with (CallCreateDepth + 2 - Z.of_nat n) by lia.
    done.
Qed.

(** No call is possible at the deepest level. *)
Lemma no_depth gmax gas r input (e : EVMState S) :
  ~ call_pre (CallCreateDepth + 2 - Z.of_nat 0) gmax gas r input e.
Proof. intros (He & Hd & _). pose proof (ok_depth _ He). lia. Qed.

Lemma evm_run_spec n fuel :
  run_spec (CallCreateDepth + 1 - Z.of_nat n) (Z.of_nat fuel) (interpreter (evm_calls n fuel) fuel).
Proof.
  apply interpreter_spec.
  replace (CallCreateDepth + 1 - Z.of_nat n + 1) with (CallCreateDepth + 2 - Z.of_nat n) by lia.
  apply evm_calls_spec.
Qed.

Lemma evm_run_spec_S n fuel :
  run_spec (CallCreateDepth + 2 - Z.of_nat (Datatypes.S n)) (Z.of_nat fuel) (interpreter (evm_calls n fuel) fuel).
Proof.
  replace (CallCreateDepth + 2 - Z.of_nat (Datatypes.S n)) with (CallCreateDepth + 1 - Z.of_nat n) by lia.
  apply evm_run_spec.
Qed.

(** ** Theorems

    Calls nested [n] deep and frames of [fuel] instructions: [call_pre] asks for
    a depth at which [n] is enough and for less gas than [fuel].  At depth 0,
    [n = CallCreateDepth + 2 = 1026] is enough for every call. *)

(** C18: A call returns, with enough fuel, and never panics (except for the
    panic [SubRefund] is written with): it keeps the invariants of the EVM, gives
    depth and read-only flag back, leaves at most the gas it got, and if it
    fails the state is as before and the gas is gone unless the call was
    refused or reverted. *)
Theorem Call_safe n fuel r a input gas v e :
  call_pre (CallCreateDepth + 2 - Z.of_nat n) (Z.of_nat fuel) gas r input e -> warm e a -> 0 <= v ->
  wp refund_panic (@evm_Call S (evm_calls n fuel) r a input gas v) (call_strong gas e) e.
Proof.
  intros Hpre Hw Hv. destruct n as [|n]; [by destruct (no_depth _ _ _ _ _ Hpre)|].
  by apply (Call_strong _ (evm_run_spec_S n fuel)).
Qed.

(** The same for [CallCode], [DelegateCall] (called by a contract, as its
    only caller does) and [StaticCall]. *)
Theorem code_calls_safe n fuel r a input gas v e :
  call_pre (CallCreateDepth + 2 - Z.of_nat n) (Z.of_nat fuel) gas r input e ->
  is_contract r -> warm e a ->
  let C := evm_calls n fuel in
  wp refund_panic (@evm_CallCode S C r a input gas v) (call_strong gas e) e /\
  wp refund_panic (@evm_DelegateCall S C r a input gas) (call_strong gas e) e /\
  wp refund_panic (@evm_StaticCall S C r a input gas) (call_strong gas e) e.
Proof.
  intros Hpre Hr Hw. destruct n as [|n]; [by destruct (no_depth _ _ _ _ _ Hpre)|].
  pose proof (evm_run_spec_S n fuel) as Hrun. split_and!.
  - by apply (CallCode_strong _ Hrun).
  - by apply (DelegateCall_strong _ Hrun).
  - by apply (StaticCall_strong _ Hrun).
Qed.

(** Creations return and never panic; they leave at most the gas they got,
    and none if they fail, unless they were refused, reverted, or (before
    Homestead) could not pay for storing the code. *)
Theorem creations_safe n fuel r code gas v salt e :
  call_pre (CallCreateDepth + 2 - Z.of_nat n) (Z.of_nat fuel) gas r code e -> 0 <= v ->
  let C := evm_calls n fuel in
  wp refund_panic (@evm_Create S C r code gas v) (create_strong gas e) e /\
  wp refund_panic (@evm_Create2 S C r code gas v salt) (create_strong gas e) e.
Proof.
  intros Hpre Hv. destruct n as [|n]; [by destruct (no_depth _ _ _ _ _ Hpre)|].
  pose proof (evm_run_spec_S n fuel) as Hrun. split.
  - by apply (Create_strong _ Hrun).
  - by apply (Create2_strong _ Hrun).
Qed.

(** C27: No call and no creation makes ether: there is a finite set of accounts
    such that the sum of the balances over no set that contains it has grown,
    whether the call succeeded or not.  (It may shrink: a contract that destroys
    itself in its own favour burns its balance.) *)
Theorem calls_create_no_ether n fuel r a input gas v salt e :
  call_pre (CallCreateDepth + 2 - Z.of_nat n) (Z.of_nat fuel) gas r input e -> warm e a -> 0 <= v ->
  let C := evm_calls n fuel in
  let no_more (e' : EVMState S) := exists l0, forall l, NoDup l -> l0 ⊆ l ->
    total_of (balance_at (evm_StateDB e')) l <= total_of (balance_at (evm_StateDB e)) l in
  wp refund_panic (@evm_Call S C r a input gas v) (fun _ e' => no_more e') e /\
  wp refund_panic (@evm_Create S C r input gas v) (fun _ e' => no_more e') e /\
  wp refund_panic (@evm_Create2 S C r input gas v salt) (fun _ e' => no_more e') e.
Proof.
  intros Hpre Hw Hv C no_more. destruct n as [|n]; [by destruct (no_depth _ _ _ _ _ Hpre)|].
  pose proof (evm_run_spec_S n fuel) as Hrun.
  assert (forall e', evm_ext e e' -> no_more e') as Hmore.
  { intros e' Hx. destruct (grows_total _ _ _ (evolve_supply _ _ _ (ext_sdb _ _ Hx))) as [l0 Hl0].
    exists l0. intros l Hl Hsub. specialize (Hl0 l Hl Hsub). lia. }
  split_and!; (eapply wp_mono; [first [by apply (Call_strong _ Hrun)|by apply (Create_strong _ Hrun)|
    by apply (Create2_strong _ Hrun)]|]).
  - intros [[ret gl] err] e' [(_ & Hx & _) _]. by apply Hmore.
  - intros [[[ret addr] gl] err] e' [(_ & Hx & _) _]. by apply Hmore.
  - intros [[[ret addr] gl] err] e' [(_ & Hx & _) _]. by apply Hmore.
Qed.


(** C33: Under every set of rules the interpreter's table is built, has an
    operation for each of the 256 opcodes, and every one of them meets its
    specification: its stack bounds keep the stack within 1024 items, memory is
    large enough for its accesses, and it costs gas if it does not stop. *)
Theorem interpreter_table_safe n fuel :
  exists jt, NewEVMInterpreter (C:=evm_calls n fuel) = Ret (jt, []) /\
    table_ok (dmin:=CallCreateDepth + 2 - Z.of_nat n) (gmax:=Z.of_nat fuel) jt.
Proof. apply NewEVMInterpreter_built, evm_calls_spec. Qed.
End knot.
