(* ===== verification/Encoding.v ===== *)
(** * RLP of structured values (client/rlp/encbuffer.go)

    Integers of any size, lists, and the values made of strings and lists: two
    different values never have the same encoding, so that a hash of an encoding
    commits to the value. *)

From Stdlib Require Import Strings.Byte.
From S2P Require Import Prelude.
From S2P Require Import Common.
From S2P Require Import Precompiles.
From S2P Require Import Rlp.
From S2P Require Import Crypto.

(** ** Integers *)

(** [x.Uint64()]: the low word of the absolute value. *)
Definition big_Uint64 (x : Z) : Z := u64 (Z.abs x).

(** [x.Bits()]: the words of the absolute value, the lowest first. *)
Fixpoint big_words (n : nat) (x : Z) : list Z :=
  match n with
  | O => []
  | S n => if x =? 0 then [] else x mod two64 :: big_words n (x / two64)
  end.
Definition big_Bits (x : Z) : list Z := big_words (Z.to_nat (big_BitLen x / 64 + 1)) (Z.abs x).

(** The inner loop: at most [j] bytes of the word [d] in front of [index]. *)
Fixpoint put_word (j index : nat) (d : Z) (buf : list byte) : nat * list byte :=
  match j, index with
  | S j, S index => put_word j index (Z.shiftr d 8) (<[index := byte_of_Z d]> buf)
  | _, _ => (index, buf)
  end.

Fixpoint put_words (ds : list Z) (index : nat) (buf : list byte) : list byte :=
  match ds with
  | [] => buf
  | d :: ds => let '(index, buf) := put_word 8 index d buf in put_words ds index buf
  end.

Definition writeBigInt (i : Z) : list byte :=
  let bitlen := big_BitLen i in
  if bitlen <=? 64 then writeUint64 (big_Uint64 i)
  else
    let length := Z.shiftr (Z.land (bitlen + 7) (-8)) 3 in
    encodeStringHeader length ++ put_words (big_Bits i) (Z.to_nat length) (replicate (Z.to_nat length) Byte.x00).

(** [list]/[listEnd]: a list of values already encoded. *)
Definition write_list (content : list byte) : list byte := listhead_encode (zlen content) ++ content.

(** [rlpHash] and [prefixedRlpHash] of client/core/types/hashing.go. *)
Definition rlpHash {K : Keccak} (enc : list byte) : Hash := keccak256 enc.
Definition prefixedRlpHash {K : Keccak} (prefix : Z) (enc : list byte) : Hash := keccak256 (byte_of_Z prefix :: enc).

(** ** Values *)

Inductive item : Type :=
| Str (b : list byte)
| Lst (l : list item).

Fixpoint encode_item (i : item) : list byte :=
  match i with
  | Str b => writeBytes b
  | Lst l => write_list (concat (map encode_item l))
  end.

(** The shortest big-endian form of an integer. *)
Definition int_bytes (i : Z) : list byte := be_bytes (Z.to_nat ((big_BitLen i + 7) / 8)) (Z.abs i).
Definition int_item (i : Z) : item := Str (int_bytes i).

(** ** Lemmas: big-endian bytes *)

Lemma be_bytes_app m n z : be_bytes (m + n) z = be_bytes m (z / 256 ^ Z.of_nat n) ++ be_bytes n z.
Proof.
  induction m as [|m IH]; [done|]. cbn [be_bytes plus]. rewrite IH. cbn [app]. f_equal. f_equal.
  rewrite Z.div_div by (try apply Z.pow_nonzero; lia). f_equal. rewrite Nat2Z.inj_add, Z.pow_add_r by lia. lia.
Qed.

Lemma be_bytes_snoc n z : be_bytes (S n) z = be_bytes n (z / 256) ++ [byte_of_Z z].
Proof.
  replace (S n) with (n + 1)%nat by lia. rewrite be_bytes_app. f_equal. cbn [be_bytes].
  change (256 ^ Z.of_nat 0) with 1. by rewrite Z.div_1_r.
Qed.

Lemma byte_of_Z_mod z : byte_of_Z (z mod 256) = byte_of_Z z.
Proof. apply byte_val_inj. rewrite !byte_val_of_Z. apply Z.mod_mod. lia. Qed.

Lemma be_bytes_mod n z w : z mod 256 ^ Z.of_nat n = w mod 256 ^ Z.of_nat n -> be_bytes n z = be_bytes n w.
Proof.
  intros H. rewrite <- (be_bytes_be_value (be_bytes n z)), <- (be_bytes_be_value (be_bytes n w)).
  by rewrite !length_be_bytes, !be_value_be_bytes, H.
Qed.

Lemma put_word_spec j index d buf :
  (index <= length buf)%nat ->
  put_word j index d buf =
    ((index - j)%nat, take (index - j) buf ++ be_bytes (Nat.min j index) d ++ drop index buf).
Proof.
  revert index d buf. induction j as [|j IH]; intros index d buf Hi; cbn [put_word].
  { rewrite Nat.sub_0_r. cbn. by rewrite take_drop. }
  destruct index as [|index]; [by rewrite take_0, drop_0|].
  rewrite IH by (rewrite length_insert; lia). cbn [Nat.sub Nat.min]. f_equal.
  rewrite take_insert_ge by lia. f_equal. rewrite be_bytes_snoc, <- app_assoc.
  rewrite Z.shiftr_div_pow2 by lia. change (2 ^ 8) with 256. f_equal.
  rewrite (drop_S _ (byte_of_Z d) index) by (apply list_lookup_insert_eq; lia).
  by rewrite drop_insert_lt by lia.
Qed.

(** The value of a list of words. *)
Definition words_value (ds : list Z) : Z := foldr (fun d acc => d + two64 * acc) 0 ds.

Lemma words_value_cons d ds : words_value (d :: ds) = d + two64 * words_value ds.
Proof. done. Qed.

Lemma put_words_spec ds index buf :
  (index <= length buf)%nat -> (index <= 8 * length ds)%nat -> Forall is_u64 ds ->
  put_words ds index buf = be_bytes index (words_value ds) ++ drop index buf.
Proof.
  intros Hi Hl Hds. revert index buf Hi Hl. induction Hds as [|d ds Hd Hds IH]; intros index buf Hi Hl.
  { cbn in Hl. replace index with 0%nat by lia. done. }
  cbn [put_words length] in *. rewrite put_word_spec by done. cbn iota beta.
  rewrite IH; [|rewrite !length_app, length_take, length_be_bytes, length_drop; lia|lia].
  rewrite words_value_cons. destruct (Nat.le_gt_cases index 8) as [H8|H8].
  - replace (index - 8)%nat with 0%nat by lia. cbn [be_bytes app]. rewrite drop_0, take_0. cbn [app].
    rewrite (Nat.min_r 8 index) by lia. f_equal. apply be_bytes_mod.
    replace two64 with (256 ^ Z.of_nat (8 - index) * 256 ^ Z.of_nat index).
    2:{ rewrite <- Z.pow_add_r by lia. change two64 with (256 ^ 8). f_equal. lia. }
    replace (d + 256 ^ Z.of_nat (8 - index) * 256 ^ Z.of_nat index * words_value ds)
      with (d + (256 ^ Z.of_nat (8 - index) * words_value ds) * 256 ^ Z.of_nat index) by lia.
    symmetry. apply Z.mod_add. apply Z.pow_nonzero; lia.
  - rewrite Nat.min_l by lia. rewrite app_assoc.
    rewrite (drop_app_le (take _ _ ++ _)).
    2:{ rewrite length_app, length_take, length_be_bytes. lia. }
    rewrite drop_app_length' by (rewrite length_take; lia). rewrite app_assoc. f_equal.
    replace index with ((index - 8) + 8)%nat at 2 by lia. rewrite be_bytes_app. unfold is_u64 in Hd.
    change (256 ^ Z.of_nat 8) with two64. f_equal.
    + rewrite Z.mul_comm, Z.div_add, (Z.div_small d) by (unfold two64 in *; lia). by rewrite Z.add_0_l.
    + apply be_bytes_mod. change (256 ^ Z.of_nat 8) with two64. rewrite (Z.mul_comm two64), Z.mod_add by done. done.
Qed.

(** ** Lemmas: integers *)

Lemma big_words_value n x : 0 <= x < two64 ^ Z.of_nat n -> words_value (big_words n x) = x /\ Forall is_u64 (big_words n x).
Proof.
  revert x. induction n as [|n IH]; intros x Hx.
  { change (two64 ^ Z.of_nat 0) with 1 in Hx. cbn. split; [lia|constructor]. }
  cbn [big_words]. destruct (x =? 0) eqn:E; zbool; [by subst|].
  replace (Z.of_nat (S n)) with (Z.of_nat n + 1) in Hx by lia. rewrite Z.pow_add_r in Hx by lia.
  replace (two64 ^ 1) with two64 in Hx by lia.
  destruct (IH (x / two64)) as [H1 H2].
  { split; [apply Z.div_pos; unfold two64; lia|]. apply Z.div_lt_upper_bound; [unfold two64; lia|]. lia. }
  rewrite words_value_cons, H1. split.
  - pose proof (Z.div_mod x two64 ltac:(unfold two64; lia)). lia.
  - constructor; [apply u64_range|done].
Qed.

Lemma length_big_words n x : (Z.of_nat (length (big_words n x)) < Z.of_nat n ->
  0 <= x -> x < two64 ^ Z.of_nat (length (big_words n x))).
Proof.
  revert x. induction n as [|n IH]; intros x Hl Hx; [cbn in Hl; lia|]. cbn [big_words] in *.
  destruct (x =? 0) eqn:E; zbool; [subst; done|]. cbn [length] in *.
  replace (Z.of_nat (S (length (big_words n (x / two64))))) with (Z.of_nat (length (big_words n (x / two64))) + 1) by lia.
  rewrite Z.pow_add_r by lia. replace (two64 ^ 1) with two64 by lia.
  specialize (IH (x / two64) ltac:(lia) ltac:(apply Z.div_pos; unfold two64; lia)).
  pose proof (Z.mul_succ_div_gt x two64 ltac:(unfold two64; lia)). unfold two64 in *. nia.
Qed.

(** The number of bytes of an integer. *)
Definition byte_len (i : Z) : Z := (big_BitLen i + 7) / 8.

Lemma big_BitLen_bounds i : i <> 0 -> 1 <= big_BitLen i /\ 2 ^ (big_BitLen i - 1) <= Z.abs i < 2 ^ big_BitLen i.
Proof.
  intros Hi. unfold big_BitLen. rewrite (proj2 (Z.eqb_neq _ _) Hi). pose proof (Z.log2_nonneg (Z.abs i)).
  pose proof (Z.log2_spec (Z.abs i) ltac:(lia)). split; [lia|].
  by replace (Z.log2 (Z.abs i) + 1 - 1) with (Z.log2 (Z.abs i)) by lia.
Qed.

Lemma pow256 n : 0 <= n -> 256 ^ n = 2 ^ (8 * n).
Proof. intros H. by rewrite Z.pow_mul_r by lia. Qed.

Lemma byte_len_bounds i : i <> 0 -> 1 <= byte_len i /\ 256 ^ (byte_len i - 1) <= Z.abs i < 256 ^ byte_len i.
Proof.
  intros Hi. destruct (big_BitLen_bounds i Hi) as [H1 H2]. unfold byte_len.
  pose proof (Z.div_mod (big_BitLen i + 7) 8 ltac:(lia)). pose proof (Z.mod_pos_bound (big_BitLen i + 7) 8 ltac:(lia)).
  set (n := (big_BitLen i + 7) / 8) in *. rewrite !pow256 by lia. split; [lia|]. split.
  - etrans; [|apply H2]. apply Z.pow_le_mono_r; lia.
  - eapply Z.lt_le_trans; [apply H2|]. apply Z.pow_le_mono_r; lia.
Qed.

Lemma byte_len_unique i n : i <> 0 -> 256 ^ (n - 1) <= Z.abs i < 256 ^ n -> 1 <= n -> byte_len i = n.
Proof.
  intros Hi Hn H1. destruct (byte_len_bounds i Hi) as [H2 H3].
  destruct (Z.lt_trichotomy (byte_len i) n) as [Hlt|[?|Hlt]]; [exfalso|done|exfalso].
  - pose proof (Z.pow_le_mono_r 256 (byte_len i) (n - 1)). lia.
  - pose proof (Z.pow_le_mono_r 256 n (byte_len i - 1)). lia.
Qed.

Lemma int_bytes_value i : be_value (int_bytes i) = Z.abs i.
Proof.
  unfold int_bytes. fold (byte_len i). rewrite be_value_be_bytes. destruct (Z.eq_dec i 0) as [->|Hi]; [done|].
  destruct (byte_len_bounds i Hi) as [H1 H2]. rewrite Z2Nat.id by lia. apply Z.mod_small. lia.
Qed.

Lemma int_bytes_content i : Z.abs i < two64 -> int_bytes i = int_content (Z.abs i).
Proof.
  intros Hi. unfold int_content. destruct (Z.eq_dec i 0) as [->|Hi0]; [done|].
  rewrite (proj2 (Z.eqb_neq (Z.abs i) 0)) by lia.
  assert (is_u64 (Z.abs i)) as Hu by (unfold is_u64; lia).
  pose proof (length_putint_range _ Hu) as Hl. pose proof (putint_be_value _ Hu) as Hv.
  assert (byte_len i = zlen (putint (Z.abs i))) as Hn.
  { apply byte_len_unique; [done| |lia]. destruct (putint (Z.abs i)) as [|b l] eqn:El; [unfold zlen in Hl; cbn in Hl; lia|].
    pose proof (putint_head (Z.abs i) b Hu ltac:(lia)) as Hh. rewrite El in Hh. specialize (Hh eq_refl).
    rewrite be_value_cons in Hv. pose proof (be_value_bound l). pose proof (byte_val_range b).
    rewrite zlen_cons. replace (zlen l + 1 - 1) with (zlen l) by lia. pose proof (zlen_nonneg l).
    rewrite Z.pow_add_r by lia. replace (256 ^ 1) with 256 by lia. nia. }
  unfold int_bytes. fold (byte_len i). rewrite Hn. unfold zlen. rewrite Nat2Z.id.
  rewrite <- Hv at 2. apply be_bytes_be_value.
Qed.

(** An integer is written as the string of its shortest form. *)
Lemma writeBigInt_bytes i : writeBigInt i = writeBytes (int_bytes i).
Proof.
  unfold writeBigInt. destruct (big_BitLen i <=? 64) eqn:E; zbool.
  - assert (Z.abs i < two64) as Hi.
    { destruct (Z.eq_dec i 0) as [->|Hi]; [done|]. destruct (big_BitLen_bounds i Hi) as [H1 H2].
      pose proof (Z.pow_le_mono_r 2 (big_BitLen i) 64). unfold two64. lia. }
    unfold big_Uint64. rewrite u64_small by (unfold is_u64; lia). rewrite writeUint64_content by (unfold is_u64; lia).
    by rewrite int_bytes_content.
  - assert (i <> 0) as Hi by (intros ->; cbn in E; lia). destruct (big_BitLen_bounds i Hi) as [H1 H2].
    assert (Z.shiftr (Z.land (big_BitLen i + 7) (-8)) 3 = byte_len i) as ->.
    { rewrite Z.shiftr_land. change (Z.shiftr (-8) 3) with (-1). rewrite Z.land_m1_r, Z.shiftr_div_pow2 by lia. done. }
    assert (8 < byte_len i) as Hlen.
    { unfold byte_len. assert (9 <= (big_BitLen i + 7) / 8); [|lia]. apply Z.div_le_lower_bound; lia. }
    assert (0 <= Z.abs i < two64 ^ Z.of_nat (Z.to_nat (big_BitLen i / 64 + 1))) as Hw.
    { split; [lia|]. eapply Z.lt_le_trans; [apply H2|]. pose proof (Z.div_pos (big_BitLen i) 64 ltac:(lia) ltac:(lia)).
      rewrite Z2Nat.id by lia. change two64 with (2 ^ 64). rewrite <- Z.pow_mul_r by lia. apply Z.pow_le_mono_r; [lia|].
      pose proof (Z.mul_succ_div_gt (big_BitLen i) 64 ltac:(lia)). lia. }
    destruct (big_words_value _ _ Hw) as [Hv Hf]. fold (big_Bits i) in Hv, Hf.
    rewrite put_words_spec; [|rewrite length_replicate; lia| |done].
    2:{ assert (Z.abs i < two64 ^ Z.of_nat (length (big_Bits i))) as Hb.
        { unfold big_Bits. set (n := Z.to_nat (big_BitLen i / 64 + 1)) in *.
          destruct (decide (Z.of_nat (length (big_words n (Z.abs i))) < Z.of_nat n)) as [Hl|Hl]; [by apply length_big_words; [|lia]|].
          eapply Z.lt_le_trans; [apply Hw|]. apply Z.pow_le_mono_r; [done|]. lia. }
        destruct (byte_len_bounds i Hi) as [_ Hbl].
        assert (byte_len i - 1 < 8 * Z.of_nat (length (big_Bits i))) as Hlt.
        { apply (Z.pow_lt_mono_r_iff 256); [lia|lia|]. change two64 with (256 ^ 8) in Hb. rewrite <- Z.pow_mul_r in Hb by lia. lia. }
        lia. }
    rewrite drop_ge by (rewrite length_replicate; lia). rewrite app_nil_r, Hv.
    assert (zlen (int_bytes i) = byte_len i) as Hz by (unfold zlen, int_bytes; rewrite length_be_bytes; fold (byte_len i); lia).
    replace (encodeStringHeader (byte_len i)) with (encodeStringHeader (zlen (int_bytes i))) by by rewrite Hz.
    change (be_bytes (Z.to_nat (byte_len i)) (Z.abs i)) with (int_bytes i).
    unfold zlen in Hz. destruct (int_bytes i) as [|x [|y l]]; [cbn in Hz; lia..|]. done.
Qed.

(** ** Lemmas: values *)

Lemma item_nested_ind (P : item -> Prop) :
  (forall b, P (Str b)) -> (forall l, Forall P l -> P (Lst l)) -> forall i, P i.
Proof.
  intros Hs Hl. fix IH 1. intros [b|l]; [apply Hs|apply Hl].
  induction l as [|i l IHl]; constructor; [apply IH|exact IHl].
Qed.

Definition item_kind (i : item) : Kind := match i with Str b => string_kind b | Lst _ => KList end.
Definition item_content (i : item) : list byte :=
  match i with Str b => b | Lst l => concat (map encode_item l) end.

Lemma encode_item_header i : encode_item i = header (item_kind i) (item_content i) ++ item_content i.
Proof. destruct i; [apply writeBytes_header|done]. Qed.

Lemma item_kind_ok i : kind_ok (item_kind i) (item_content i).
Proof. destruct i; [apply string_kind_ok|done]. Qed.

Lemma string_kind_not_list b : string_kind b <> KList.
Proof. unfold string_kind. by case_decide. Qed.

Lemma encode_item_nonempty i : encode_item i <> [].
Proof.
  rewrite encode_item_header. destruct i as [b|l]; cbn [item_kind item_content header].
  - unfold string_kind. case_decide as Hs; [destruct Hs as (x & -> & _); done|].
    cbn [header]. unfold encodeStringHeader. by case_match.
  - unfold listhead_encode, puthead. by case_match.
Qed.

Lemma Split_item i r : zlen (encode_item i ++ r) < 2 ^ 63 ->
  Split (encode_item i ++ r) = Ret (item_kind i, item_content i, r, None).
Proof.
  rewrite encode_item_header, <- app_assoc. intros Hl. apply Split_app; [done|apply item_kind_ok].
Qed.

(** The encoding is a prefix code. *)
Lemma encode_item_prefix a : forall b r s,
  zlen (encode_item a ++ r) < 2 ^ 63 -> encode_item a ++ r = encode_item b ++ s -> a = b /\ r = s.
Proof.
  induction a as [x|l IH] using item_nested_ind; intros b r s Hl Heq.
  all: pose proof (Split_item _ _ Hl) as H1; rewrite Heq in H1, Hl;
    rewrite (Split_item _ _ Hl) in H1; injection H1 as Hk Hc ->; split; [|done].
  - destruct b as [y|l']; [by f_equal|]. symmetry in Hk. by destruct (string_kind_not_list x).
  - destruct b as [y|l']; [by destruct (string_kind_not_list y)|]. f_equal. cbn [item_content] in Hc.
    assert (zlen (concat (map encode_item l)) < 2 ^ 63) as Hl2.
    { rewrite encode_item_header in Hl. cbn [item_content] in Hl. rewrite Hc, !zlen_app in Hl.
      pose proof (zlen_nonneg (header (item_kind (Lst l')) (concat (map encode_item l)))). pose proof (zlen_nonneg r). lia. }
    clear - IH Hc Hl2. revert l' Hc. induction IH as [|i l Hi HF IHl]; intros l' Hc; destruct l' as [|i' l']; cbn in Hc.
    + done.
    + apply (f_equal length) in Hc. rewrite length_app in Hc. cbn in Hc.
      pose proof (encode_item_nonempty i'). destruct (encode_item i'); [done|]. cbn in Hc. lia.
    + apply (f_equal length) in Hc. rewrite length_app in Hc. cbn in Hc.
      pose proof (encode_item_nonempty i). destruct (encode_item i); [done|]. cbn in Hc. lia.
    + cbn in Hl2. destruct (Hi i' _ _ Hl2 (eq_sym Hc)) as [-> Hr]. f_equal. apply IHl; [|by symmetry].
      rewrite zlen_app in Hl2. pose proof (zlen_nonneg (encode_item i')). lia.
Qed.

Lemma encodeStringHeader_len n : 0 <= n < two64 -> zlen (encodeStringHeader n) <= 9.
Proof.
  intros Hn. rewrite length_encodeStringHeader by done. unfold headsize. case_match; [lia|].
  zbool. rewrite <- putint_intsize by lia. pose proof (length_putint_range n Hn). lia.
Qed.

Lemma listhead_len n : 0 <= n < two64 -> zlen (listhead_encode n) <= 9.
Proof.
  intros Hn. rewrite length_listhead_encode by done. unfold headsize. case_match; [lia|].
  zbool. rewrite <- putint_intsize by lia. pose proof (length_putint_range n Hn). lia.
Qed.

Lemma writeBytes_len b : zlen b < two64 -> zlen (writeBytes b) <= zlen b + 9.
Proof.
  intros Hb. rewrite writeBytes_header, zlen_app. pose proof (zlen_nonneg b). unfold string_kind.
  case_decide; cbn [header]; [rewrite zlen_nil; lia|]. pose proof (encodeStringHeader_len (zlen b)). lia.
Qed.

Lemma concat_cons_len {A} (a : list A) l : zlen (concat (a :: l)) = zlen a + zlen (concat l).
Proof. apply zlen_app. Qed.

Lemma write_list_len c : zlen c < two64 -> zlen (write_list c) <= zlen c + 9.
Proof.
  intros Hc. unfold write_list. rewrite zlen_app. pose proof (zlen_nonneg c). pose proof (listhead_len (zlen c)). lia.
Qed.

Lemma SplitList_item l r : zlen (encode_item (Lst l) ++ r) < 2 ^ 63 ->
  SplitList (encode_item (Lst l) ++ r) = Ret (concat (map encode_item l), r, None).
Proof. intros H. unfold SplitList. by rewrite Split_item. Qed.

Lemma readKind_item i r : zlen (encode_item i ++ r) < 2 ^ 63 ->
  exists ts, readKind (encode_item i ++ r) = Ret (item_kind i, ts, zlen (item_content i), None) /\
    ts + zlen (item_content i) = zlen (encode_item i).
Proof.
  intros H. rewrite encode_item_header, <- app_assoc in H |- *. eexists. split.
  - apply readKind_iff; [done|]. exists (item_content i), r. split; [done|]. split; [apply item_kind_ok|]. by split.
  - by rewrite zlen_app.
Qed.

Lemma CountValues_items l : zlen (concat (map encode_item l)) < 2 ^ 63 ->
  CountValues (concat (map encode_item l)) = Ret (Z.of_nat (length l), None).
Proof.
  intros Hl. unfold CountValues. replace (Z.of_nat (length l)) with (0 + Z.of_nat (length l)) by lia. generalize 0 as n.
  assert (forall fuel, (length (concat (map encode_item l)) <= fuel)%nat -> forall n,
    CountValues_loop fuel (concat (map encode_item l)) n = Ret (n + Z.of_nat (length l), None)) as H; [|by apply H].
  induction l as [|i l IH]; intros fuel Hf n.
  { destruct fuel; cbn; by rewrite Z.add_0_r. }
  cbn [map concat] in *. rewrite zlen_app in Hl. rewrite length_app in Hf.
  pose proof (zlen_nonneg (encode_item i)). pose proof (zlen_nonneg (concat (map encode_item l))).
  pose proof (encode_item_nonempty i) as Hne. destruct fuel as [|fuel].
  { destruct (encode_item i); [done|cbn in Hf; lia]. }
  destruct (readKind_item i (concat (map encode_item l))) as (ts & Hr & Hts); [rewrite zlen_app; lia|].
  destruct (encode_item i ++ concat (map encode_item l)) as [|x b] eqn:E.
  { apply app_eq_nil in E as [? _]. done. }
  cbn [CountValues_loop]. rewrite <- E in *. rewrite Hr. cbn [res_bind].
  rewrite u64_small by (unfold is_u64, two64; lia). rewrite Hts.
  pose proof (go_slice_app (encode_item i) (concat (map encode_item l)) []) as Hs. rewrite app_nil_r, <- zlen_app in Hs. rewrite Hs.
  cbn [res_bind]. rewrite IH; [cbn [length]; do 2 f_equal; lia|lia|].
  destruct (encode_item i); [done|]. cbn in Hf. lia.
Qed.

Lemma int_bytes_inj i j : 0 <= i -> 0 <= j -> int_bytes i = int_bytes j -> i = j.
Proof. intros Hi Hj H. pose proof (int_bytes_value i). pose proof (int_bytes_value j). rewrite H in *. lia. Qed.

Lemma Str_inj a b : Str a = Str b -> a = b.
Proof. by intros [= ->]. Qed.

Lemma Lst_inj a b : Lst a = Lst b -> a = b.
Proof. by intros [= ->]. Qed.

Lemma int_item_inj i j : 0 <= i -> 0 <= j -> int_item i = int_item j -> i = j.
Proof. intros Hi Hj H%Str_inj. by apply int_bytes_inj. Qed.

Lemma hash_bytes_inj h h' : 0 <= h < 2 ^ 256 -> 0 <= h' < 2 ^ 256 -> hash_bytes h = hash_bytes h' -> h = h'.
Proof.
  intros Hh Hh' H. apply (f_equal be_value) in H. unfold hash_bytes in H. rewrite !be_value_be_bytes in H.
  change (256 ^ Z.of_nat 32) with (2 ^ 256) in H. by rewrite !Z.mod_small in H by lia.
Qed.

Lemma address_bytes_inj a b : 0 <= a < 2 ^ 160 -> 0 <= b < 2 ^ 160 -> address_bytes a = address_bytes b -> a = b.
Proof.
  intros Ha Hb H. apply (f_equal be_value) in H. unfold address_bytes in H. rewrite !be_value_be_bytes in H.
  change (256 ^ Z.of_nat 20) with (2 ^ 160) in H. by rewrite !Z.mod_small in H by lia.
Qed.

(** ** Theorems *)

(** An integer of any size is written as the string of its shortest big-endian
    form: reading it back gives the bytes, and they are the absolute value. *)
Theorem writeBigInt_roundtrip i rest :
  zlen (writeBigInt i ++ rest) < 2 ^ 63 ->
  exists bs, SplitString (writeBigInt i ++ rest) = Ret (bs, rest, None) /\ be_value bs = Z.abs i /\
    head bs <> Some Byte.x00.
Proof.
  rewrite writeBigInt_bytes. intros Hl. exists (int_bytes i).
  split; [by apply SplitString_writeBytes_lem|]. split; [apply int_bytes_value|].
  destruct (Z.eq_dec i 0) as [->|Hi]; [done|]. destruct (byte_len_bounds i Hi) as [H1 H2].
  destruct (int_bytes i) as [|b l] eqn:E; [done|]. intros [= ->].
  pose proof (int_bytes_value i) as Hv. rewrite E, be_value_cons in Hv. cbn in Hv.
  assert (zlen l = byte_len i - 1) as Hz.
  { apply (f_equal length) in E. unfold int_bytes in E. rewrite length_be_bytes in E. fold (byte_len i) in E.
    cbn in E. unfold zlen. lia. }
  pose proof (be_value_bound l). rewrite Hz in *. lia.
Qed.

(** Encodings are unambiguous: values of strings and nested lists with the same
    encoding, whatever follows it, are the same. *)
Theorem encode_item_injective a b r s :
  zlen (encode_item a ++ r) < 2 ^ 63 -> encode_item a ++ r = encode_item b ++ s -> a = b /\ r = s.
Proof. apply encode_item_prefix. Qed.
