(* ===== verification/RlpStream.v ===== *)
(** * Decoding RLP from a stream (client/rlp/decode.go)

    The stream that decoders read values from, one after the other and list by list,
    over a reader of bytes in memory; the decoders of the types a header, an account or a
    stored receipt is made of. *)

From Stdlib Require Import Strings.Byte.
From S2P Require Import Prelude.
From S2P Require Import Common.
From S2P Require Import Rlp.

Inductive stream_error : Type :=
| EOL
| IoEOF
| RlpErr (err : rlp_error)
| ErrElemTooLarge
| ErrMoreThanOneValue
| errNotInList
| errNotAtEOL
| errUint256Large
| InvalidBoolean
| InputTooLong
| InputTooShort
| TooFewElements
| InvalidReceiptStatus.

(** [Stream]; the innermost list comes first on the stack, and [None] for the kind
    means that no value is ahead. *)
Record Stream : Type := mkStream {
  s_input : list byte;
  s_remaining : Z;
  s_size : Z;
  s_kinderr : option stream_error;
  s_stack : list Z;
  s_kind : option Kind;
  s_byteval : byte;
  s_limited : bool
}.

Definition set_input (x : list byte) (s : Stream) : Stream :=
  mkStream x (s_remaining s) (s_size s) (s_kinderr s) (s_stack s) (s_kind s) (s_byteval s) (s_limited s).
Definition set_remaining (x : Z) (s : Stream) : Stream :=
  mkStream (s_input s) x (s_size s) (s_kinderr s) (s_stack s) (s_kind s) (s_byteval s) (s_limited s).
Definition set_ahead (k : option Kind) (size : Z) (err : option stream_error) (s : Stream) : Stream :=
  mkStream (s_input s) (s_remaining s) size err (s_stack s) k (s_byteval s) (s_limited s).
Definition set_stack (x : list Z) (s : Stream) : Stream :=
  mkStream (s_input s) (s_remaining s) (s_size s) (s_kinderr s) x (s_kind s) (s_byteval s) (s_limited s).
Definition set_kind (x : option Kind) (s : Stream) : Stream :=
  mkStream (s_input s) (s_remaining s) (s_size s) (s_kinderr s) (s_stack s) x (s_byteval s) (s_limited s).
Definition set_byteval (x : byte) (s : Stream) : Stream :=
  mkStream (s_input s) (s_remaining s) (s_size s) (s_kinderr s) (s_stack s) (s_kind s) x (s_limited s).

(** [Reset] on a reader of these bytes, whose length is the input limit. *)
Definition stream_Reset (b : list byte) : Stream := mkStream b (zlen b) 0 None [] None Byte.x00 true.

(** A decoder gives a value or an error. *)
Definition decoder (A : Type) : Type := GM Stream (A + stream_error).

Definition sbind {A B} (m : decoder A) (k : A -> decoder B) : decoder B :=
  let* r := m in match r with inl a => k a | inr e => gret (inr e) end.
Definition sret {A} (a : A) : decoder A := gret (inl a).
Definition serr {A} (e : stream_error) : decoder A := gret (inr e).

Notation "'let!' x ':=' m 'in' k" := (sbind m (fun x => k))
  (at level 10, x pattern, m at level 100, k at level 200) : go_scope.

(** [listLimit]: what is left of the innermost list. *)
Definition listLimit (s : Stream) : option Z := head (s_stack s).

Definition set_limit (z : Z) (s : Stream) : Stream :=
  set_stack (match s_stack s with [] => [] | _ :: l => z :: l end) s.

(** [willRead]. *)
Definition willRead (n : Z) : decoder unit :=
  gput (set_kind None) ;;;
  let* limit := gget listLimit in
  let! _ := match limit with
            | Some limit => if n >? limit then serr ErrElemTooLarge else gput (set_limit (limit - n)) ;;; sret tt
            | None => sret tt
            end in
  let* limited := gget s_limited in
  if limited : bool then
    let* remaining := gget s_remaining in
    if n >? remaining then serr (RlpErr ErrValueTooLarge) else gput (set_remaining (remaining - n)) ;;; sret tt
  else sret tt.

Definition stream_readByte : decoder byte :=
  let! _ := willRead 1 in
  let* input := gget s_input in
  match input with
  | [] => serr (RlpErr ErrUnexpectedEOF)
  | b :: rest => gput (set_input rest) ;;; sret b
  end.

(** [readFull] of [n] bytes. *)
Definition readFull (n : Z) : decoder (list byte) :=
  let! _ := willRead n in
  let* input := gget s_input in
  gput (set_input (drop (Z.to_nat n) input)) ;;;
  if zlen input <? n then serr (RlpErr ErrUnexpectedEOF) else sret (take (Z.to_nat n) input).

(** [readUint] of a size in bytes. *)
Definition stream_readUint (size : Z) : decoder Z :=
  if size =? 0 then gput (set_kind None) ;;; sret 0
  else if size =? 1 then let! b := stream_readByte in sret (byte_val b)
  else if size >? 8 then gpanic PanicIndex
  else
    let! buffer := readFull size in
    let* b0 := gpure (go_index buffer 0) in
    if byte_val b0 =? 0 then serr (RlpErr ErrCanonSize) else sret (be_value buffer).

(** The kind, the size and the error [readKind] returns. *)
Definition stream_readKind : GM Stream (Kind * Z * option stream_error) :=
  let* b := stream_readByte in
  match b with
  | inr err =>
      let* stack := gget s_stack in
      let err := match stack, err with
                 | [], RlpErr ErrUnexpectedEOF | [], RlpErr ErrValueTooLarge => IoEOF
                 | _, _ => err
                 end in
      gret (KByte, 0, Some err)
  | inl b =>
      gput (set_byteval Byte.x00) ;;;
      let long (k : Kind) (n : Z) :=
        let* size := stream_readUint n in
        gret (match size with
              | inr err => (k, 0, Some err)
              | inl size => (k, size, if size <? 56 then Some (RlpErr ErrCanonSize) else None)
              end) in
      let v := byte_val b in
      if v <? 0x80 then gput (set_byteval b) ;;; gret (KByte, 0, None)
      else if v <? 0xB8 then gret (KString, v - 0x80, None)
      else if v <? 0xC0 then long KString (v - 0xB7)
      else if v <? 0xF8 then gret (KList, v - 0xC0, None)
      else long KList (v - 0xF7)
  end.

(** [Kind]: the value ahead, from its header or as it is known already. *)
Definition stream_Kind : decoder (Kind * Z) :=
  let answer (k : Kind) (size : Z) (err : option stream_error) : decoder (Kind * Z) :=
    match err with Some err => serr err | None => sret (k, size) end in
  let* kind := gget s_kind in
  match kind with
  | Some k =>
      let* size := gget s_size in
      let* err := gget s_kinderr in
      answer k size err
  | None =>
      let* limit := gget listLimit in
      if bool_decide (limit = Some 0) then serr EOL
      else
        let* r := stream_readKind in
        let '(k, size, err) := r in
        let* limited := gget s_limited in
        let* remaining := gget s_remaining in
        let err := match err with
                   | Some err => Some err
                   | None =>
                       if match limit with Some limit => size >? limit | None => false end then Some ErrElemTooLarge
                       else if limited && (size >? remaining) then Some (RlpErr ErrValueTooLarge)
                       else None
                   end in
        gput (set_ahead (Some k) size err) ;;;
        answer k size err
  end.

(** ** Values *)

(** The content of a string, and the check on single bytes. *)
Definition read_string (size : Z) : decoder (list byte) :=
  let! b := readFull size in
  if size =? 1 then
    let* b0 := gpure (go_index b 0) in
    if byte_val b0 <? 128 then serr (RlpErr ErrCanonSize) else sret b
  else sret b.

Definition stream_Bytes : decoder (list byte) :=
  let! ks := stream_Kind in
  match fst ks with
  | KByte =>
      gput (set_kind None) ;;;
      let* b := gget s_byteval in
      sret [b]
  | KString => read_string (snd ks)
  | KList => serr (RlpErr ErrExpectedString)
  end.

(** [uint]. *)
Definition stream_uint (maxbits : Z) : decoder Z :=
  let! ks := stream_Kind in
  let size := snd ks in
  match fst ks with
  | KByte =>
      let* b := gget s_byteval in
      if byte_val b =? 0 then serr (RlpErr ErrCanonInt)
      else gput (set_kind None) ;;; sret (byte_val b)
  | KString =>
      if size >? maxbits / 8 then serr (RlpErr errUintOverflow)
      else
        let* v := stream_readUint size in
        match v with
        | inr (RlpErr ErrCanonSize) => serr (RlpErr ErrCanonInt)
        | inr err => serr err
        | inl v => if (size >? 0) && (v <? 128) then serr (RlpErr ErrCanonSize) else sret v
        end
  | KList => serr (RlpErr ErrExpectedString)
  end.

Definition stream_Uint64 : decoder Z := stream_uint 64.

(** [Bool]. *)
Definition stream_Bool : decoder bool :=
  let! num := stream_uint 8 in
  if num =? 0 then sret false else if num =? 1 then sret true else serr InvalidBoolean.

(** [List] and [ListEnd]. *)
Definition stream_List : decoder Z :=
  let! ks := stream_Kind in
  match fst ks with
  | KList =>
      let size := snd ks in
      let* limit := gget listLimit in
      (match limit with Some limit => gput (set_limit (u64 (limit - size))) | None => gret tt end) ;;;
      gput (fun s => set_stack (size :: s_stack s) s) ;;;
      gput (fun s => set_ahead None 0 (s_kinderr s) s) ;;;
      sret size
  | _ => serr (RlpErr ErrExpectedList)
  end.

Definition stream_ListEnd : decoder unit :=
  let* limit := gget listLimit in
  match limit with
  | None => serr errNotInList
  | Some limit =>
      if limit >? 0 then serr errNotAtEOL
      else
        gput (fun s => set_stack (tail (s_stack s)) s) ;;;
        gput (fun s => set_ahead None 0 (s_kinderr s) s) ;;;
        sret tt
  end.

Definition MoreDataInList : GM Stream bool :=
  let* limit := gget listLimit in
  gret (match limit with Some limit => limit >? 0 | None => false end).

(** The bytes of a big integer, without leading zeros. *)
Definition big_bytes (b : list byte) : decoder Z :=
  match b with
  | b0 :: _ => if byte_val b0 =? 0 then serr (RlpErr ErrCanonInt) else sret (be_value b)
  | [] => sret 0
  end.

(** [decodeBigInt]. *)
Definition stream_decodeBigInt : decoder Z :=
  let! ks := stream_Kind in
  let size := snd ks in
  match fst ks with
  | KList => serr (RlpErr ErrExpectedString)
  | KByte =>
      let* b := gget s_byteval in
      gput (set_kind None) ;;;
      big_bytes [b]
  | KString =>
      if size =? 0 then gput (set_kind None) ;;; big_bytes []
      else if size <=? 32 then let! b := read_string size in big_bytes b
      else let! b := readFull size in big_bytes b
  end.

(** [ReadUint256]. *)
Definition ReadUint256 : decoder Z :=
  let! ks := stream_Kind in
  let size := snd ks in
  match fst ks with
  | KList => serr (RlpErr ErrExpectedString)
  | KByte =>
      let* b := gget s_byteval in
      gput (set_kind None) ;;;
      big_bytes [b]
  | KString =>
      if size =? 0 then gput (set_kind None) ;;; big_bytes []
      else if size <=? 32 then let! b := read_string size in big_bytes b
      else serr errUint256Large
  end.

(** [decodeByteArray] for an array of [n] bytes. *)
Definition decodeByteArray (n : Z) : decoder (list byte) :=
  let! ks := stream_Kind in
  let size := snd ks in
  match fst ks with
  | KByte =>
      if n =? 0 then serr InputTooLong
      else if n >? 1 then serr InputTooShort
      else
        let* b := gget s_byteval in
        gput (set_kind None) ;;;
        sret [b]
  | KString =>
      if n <? size then serr InputTooLong
      else if n >? size then serr InputTooShort
      else read_string size
  | KList => serr (RlpErr ErrExpectedString)
  end.

(** [Raw]: a value with its header. *)
Definition stream_Raw : decoder (list byte) :=
  let! ks := stream_Kind in
  let size := snd ks in
  match fst ks with
  | KByte =>
      gput (set_kind None) ;;;
      let* b := gget s_byteval in
      sret [b]
  | KString => let! b := readFull size in sret (puthead 0x80 0xB7 size ++ b)
  | KList => let! b := readFull size in sret (puthead 0xC0 0xF7 size ++ b)
  end.

(** ** Structures and whole inputs *)

(** A field of a structure ([makeStructDecoder]): reaching the end of the list is an
    error, for an optional field the reason to leave it and all after it out. *)
Definition field {A} (d : decoder A) : decoder A :=
  let* r := d in match r with inr EOL => serr TooFewElements | r => gret r end.

Definition optional_field {A} (more : bool) (d : decoder A) : decoder (option A) :=
  if more then
    let* r := d in
    match r with inr EOL => sret None | inr e => serr e | inl a => sret (Some a) end
  else sret None.

Definition struct {A} (fields : decoder A) : decoder A :=
  let! _ := stream_List in
  let! a := fields in
  let! _ := stream_ListEnd in
  sret a.

(** [decodeSliceElems]: elements up to the end of the list.  Every element takes a byte,
    so the size of the list bounds their number. *)
Fixpoint decodeSliceElems {A} (fuel : nat) (elemdec : decoder A) : decoder (list A) :=
  match fuel with
  | O => fun _ => NoFuel
  | Datatypes.S fuel =>
      let* r := elemdec in
      match r with
      | inr EOL => sret []
      | inr e => serr e
      | inl a => let! rest := decodeSliceElems fuel elemdec in sret (a :: rest)
      end
  end.

(** [decodeListSlice]. *)
Definition decodeListSlice {A} (elemdec : decoder A) : decoder (list A) :=
  let! size := stream_List in
  if size =? 0 then let! _ := stream_ListEnd in sret []
  else
    let! elems := decodeSliceElems (Datatypes.S (Z.to_nat size)) elemdec in
    let! _ := stream_ListEnd in
    sret elems.

(** [DecodeBytes]: one value and nothing after it. *)
Definition DecodeBytes {A} (d : decoder A) (b : list byte) : Res (A + stream_error) :=
  let? r := d (stream_Reset b) in
  match r with
  | (inl a, s) => Ret (if zlen (s_input s) >? 0 then inr ErrMoreThanOneValue else inl a)
  | (inr err, _) => Ret (inr err)
  end.
