(* ===== verification/TrieKeys.v ===== *)
(** * Keys of Merkle Patricia tries (client/trie/encoding.go)

    The three encodings of a key: bytes, one hex digit per byte with a terminator
    ([16]) if a value is at the key, and the compact form nodes are stored with. *)

From Stdlib Require Import Strings.Byte.
From S2P Require Import Prelude.

#[export] Instance byte_countable : Countable byte.
Proof. refine (inj_countable Byte.to_N Byte.of_N _). intros b. apply Byte.of_to_N. Defined.

Definition hasTerm (s : list byte) : bool :=
  match list.last s with Some b => byte_val b =? 16 | None => false end.

(** The digits, two by two, into a buffer of half their length. *)
Fixpoint decodeNibbles (nibbles : list byte) : Res (list byte) :=
  match nibbles with
  | [] => Ret []
  | [_] => Panic PanicIndex
  | hi :: lo :: nibbles =>
      let? bytes := decodeNibbles nibbles in
      Ret (byte_of_Z (Z.lor (Z.shiftl (byte_val hi) 4) (byte_val lo)) :: bytes)
  end.

Definition hexToCompact (hex : list byte) : Res (list byte) :=
  let terminator := if hasTerm hex then 1 else 0 in
  let hex := if hasTerm hex then take (length hex - 1) hex else hex in
  let flag := Z.shiftl terminator 5 in
  if Z.land (zlen hex) 1 =? 1 then
    let? first := go_index hex 0 in
    let? bytes := decodeNibbles (drop 1 hex) in
    Ret (byte_of_Z (Z.lor (Z.lor flag (Z.shiftl 1 4)) (byte_val first)) :: bytes)
  else
    let? bytes := decodeNibbles hex in
    Ret (byte_of_Z flag :: bytes).

(** The loop of [hexToCompactInPlace], in the buffer that holds the digits. *)
Fixpoint compact_loop (n : nat) (bi ni : Z) (hex : list byte) : Res (list byte) :=
  match n with
  | O => Ret hex
  | S n =>
      let? hi := go_index hex ni in
      let? lo := go_index hex (ni + 1) in
      let? hex := go_update hex bi (byte_of_Z (Z.lor (Z.shiftl (byte_val hi) 4) (byte_val lo))) in
      compact_loop n (bi + 1) (ni + 2) hex
  end.

(** [hexToCompactInPlace]: the length of the compact key, and the buffer. *)
Definition hexToCompactInPlace (hex : list byte) : Res (Z * list byte) :=
  let term := hasTerm hex in
  let hexLen := if term then zlen hex - 1 else zlen hex in
  let firstByte := if term then Z.shiftl 1 5 else 0 in
  let binLen := hexLen / 2 + 1 in
  let odd := Z.land hexLen 1 =? 1 in
  let? firstByte :=
    (if odd then let? first := go_index hex 0 in Ret (Z.lor (Z.lor firstByte (Z.shiftl 1 4)) (byte_val first))
     else Ret firstByte) in
  let? hex := compact_loop (Z.to_nat (hexLen / 2)) 1 (if odd then 1 else 0) hex in
  let? hex := go_update hex 0 (byte_of_Z firstByte) in
  Ret (binLen, hex).

Definition keybytesToHex (str : list byte) : list byte :=
  concat (map (fun b => [byte_of_Z (byte_val b / 16); byte_of_Z (byte_val b mod 16)]) str) ++ [Byte.x10].

Definition compactToHex (compact : list byte) : list byte :=
  match compact with
  | [] => []
  | _ =>
      let base := keybytesToHex compact in
      let first := byte_val (nth 0 base Byte.x00) in
      let base := if first <? 2 then take (length base - 1) base else base in
      let chop := 2 - Z.land first 1 in
      drop (Z.to_nat chop) base
  end.

Definition hexToKeybytes (hex : list byte) : Res (list byte) :=
  let hex := if hasTerm hex then take (length hex - 1) hex else hex in
  if negb (Z.land (zlen hex) 1 =? 0) then Panic PanicTrie
  else decodeNibbles hex.

Fixpoint prefixLen (a b : list byte) : nat :=
  match a, b with
  | x :: a, y :: b => if Byte.eqb x y then S (prefixLen a b) else 0
  | _, _ => 0
  end.

(** ** Lemmas: digits *)

Definition nibble (b : byte) : Prop := byte_val b < 16.
Abbreviation nibbles := (Forall nibble).

(** The two digits of each byte. *)
Definition digits (str : list byte) : list byte :=
  concat (map (fun b => [byte_of_Z (byte_val b / 16); byte_of_Z (byte_val b mod 16)]) str).

Lemma lor_nibble hi lo : 0 <= lo < 16 -> Z.lor (Z.shiftl hi 4) lo = hi * 16 + lo.
Proof.
  intros Hlo. rewrite Z.shiftl_mul_pow2 by lia. change (2 ^ 4) with 16.
  rewrite <- Z.add_nocarry_lor; [done|]. apply Z.bits_inj'. intros n Hn. rewrite Z.land_spec, Z.bits_0.
  destruct (Z.lt_ge_cases n 4).
  - replace (hi * 16) with (Z.shiftl hi 4) by (rewrite Z.shiftl_mul_pow2 by lia; done).
    by rewrite Z.shiftl_spec_low.
  - rewrite (Z.bits_above_log2 lo); [apply andb_false_r|lia|].
    destruct (Z.eq_dec lo 0) as [->|]; [change (Z.log2 0) with 0; lia|]. pose proof (Z.log2_lt_pow2 lo 4 ltac:(lia)).
    change (2 ^ 4) with 16 in *. lia.
Qed.

Lemma digits_nibbles str : nibbles (digits str).
Proof.
  induction str as [|b str IH]; [constructor|]. cbn [digits map concat app]. pose proof (byte_val_range b).
  constructor; [|constructor; [|exact IH]]; unfold nibble; rewrite byte_val_of_Z.
  - rewrite Z.mod_small; [apply Z.div_lt_upper_bound; lia|]. split; [apply Z.div_pos; lia|apply Z.div_lt_upper_bound; lia].
  - pose proof (Z.mod_pos_bound (byte_val b) 16). rewrite Z.mod_small; lia.
Qed.

Lemma digits_app a b : digits (a ++ b) = digits a ++ digits b.
Proof. unfold digits. by rewrite map_app, concat_app. Qed.

Lemma digits_cons b str : digits (b :: str) = byte_of_Z (byte_val b / 16) :: byte_of_Z (byte_val b mod 16) :: digits str.
Proof. done. Qed.

Lemma length_digits str : length (digits str) = (2 * length str)%nat.
Proof. induction str as [|b str IH]; [done|]. rewrite digits_cons. cbn [length]. lia. Qed.

Lemma decode_pair b :
  byte_of_Z (Z.lor (Z.shiftl (byte_val (byte_of_Z (byte_val b / 16))) 4) (byte_val (byte_of_Z (byte_val b mod 16)))) = b.
Proof.
  pose proof (byte_val_range b). pose proof (Z.mod_pos_bound (byte_val b) 16 ltac:(lia)).
  assert (0 <= byte_val b / 16 < 16) by (split; [apply Z.div_pos; lia|apply Z.div_lt_upper_bound; lia]).
  rewrite !byte_val_of_Z, !Z.mod_small by lia. rewrite lor_nibble by lia.
  pose proof (Z.div_mod (byte_val b) 16 ltac:(lia)). replace (byte_val b / 16 * 16 + byte_val b mod 16) with (byte_val b) by lia.
  apply byte_of_Z_val.
Qed.

Lemma decodeNibbles_digits str : decodeNibbles (digits str) = Ret str.
Proof. induction str as [|b str IH]; [done|]. rewrite digits_cons. cbn [decodeNibbles]. by rewrite IH, decode_pair. Qed.

(** Digits of even length are those of bytes. *)
Lemma even_digits ns : nibbles ns -> Nat.Even (length ns) -> exists str, ns = digits str.
Proof.
  intros Hn [m Hm]. revert ns Hn Hm. induction m as [|m IH]; intros ns Hn Hm.
  { exists []. by destruct ns. }
  destruct ns as [|x [|y ns]]; cbn in Hm; try lia.
  apply list.Forall_cons in Hn as [Hx [Hy Hn]%list.Forall_cons]. destruct (IH ns Hn ltac:(lia)) as [str ->].
  pose proof (byte_val_range x). pose proof (byte_val_range y). unfold nibble in *.
  exists (byte_of_Z (byte_val x * 16 + byte_val y) :: str). rewrite digits_cons, byte_val_of_Z, Z.mod_small by lia.
  rewrite Z.div_add_l, Z.div_small, Z.add_0_r by lia.
  replace ((byte_val x * 16 + byte_val y) mod 16) with (byte_val y) by (rewrite Z.add_comm, Z.mod_add, Z.mod_small; lia).
  by rewrite !byte_of_Z_val.
Qed.

Lemma keybytesToHex_digits str : keybytesToHex str = digits str ++ [Byte.x10].
Proof. done. Qed.

Lemma keybytesToHex_inj a b : keybytesToHex a = keybytesToHex b -> a = b.
Proof.
  rewrite !keybytesToHex_digits. intros H%app_inv_tail. pose proof (decodeNibbles_digits a) as Ha.
  rewrite H, decodeNibbles_digits in Ha. congruence.
Qed.

Lemma keybytesToHex_len a : length (keybytesToHex a) = (2 * length a + 1)%nat.
Proof. rewrite keybytesToHex_digits, length_app, length_digits. done. Qed.

Lemma hasTerm_snoc ns b : hasTerm (ns ++ [b]) = (byte_val b =? 16).
Proof. unfold hasTerm. by rewrite last_snoc. Qed.

Lemma hasTerm_nibbles ns : nibbles ns -> hasTerm ns = false.
Proof.
  intros Hn. unfold hasTerm. destruct (list.last ns) as [b|] eqn:E; [|done].
  apply last_Some in E as [l ->]. apply Forall_app in Hn as [_ Hb]. apply list.Forall_cons in Hb as [Hb _]. unfold nibble in Hb.
  apply Z.eqb_neq. lia.
Qed.

(** A key in hex: digits, and the terminator if [term]. *)
Definition hex_key (term : bool) (ns : list byte) : list byte := ns ++ (if term then [Byte.x10] else []).

Lemma hasTerm_hex term ns : nibbles ns -> hasTerm (hex_key term ns) = term.
Proof.
  intros Hn. unfold hex_key. destruct term; [by rewrite hasTerm_snoc|]. rewrite app_nil_r. by apply hasTerm_nibbles.
Qed.

Lemma cut_hex term ns : nibbles ns ->
  (if hasTerm (hex_key term ns) then take (length (hex_key term ns) - 1) (hex_key term ns) else hex_key term ns) = ns.
Proof.
  intros Hn. rewrite hasTerm_hex by done. unfold hex_key. destruct term; [|by rewrite app_nil_r].
  rewrite length_app. cbn [length]. rewrite Nat.add_sub. by rewrite take_app_length.
Qed.

Lemma land_one n : Z.land n 1 = n mod 2.
Proof. change 1 with (Z.ones 1). rewrite Z.land_ones by lia. done. Qed.

(** The compact form of a key. *)
Definition compact_flag (term odd : bool) : Z := (if term then 32 else 0) + (if odd then 16 else 0).

Definition compact_of (term : bool) (ns : list byte) : list byte :=
  match decodeNibbles (if Nat.odd (length ns) then drop 1 ns else ns) with
  | Ret bytes =>
      byte_of_Z (compact_flag term (Nat.odd (length ns)) + if Nat.odd (length ns) then byte_val (nth 0 ns Byte.x00) else 0) :: bytes
  | _ => []
  end.

(** Digits are those of bytes, with one in front if their number is odd. *)
Lemma nibbles_cases ns : nibbles ns ->
  (Nat.odd (length ns) = false /\ exists str, ns = digits str) \/
  (Nat.odd (length ns) = true /\ exists x str, ns = x :: digits str /\ nibble x).
Proof.
  intros Hn. destruct (Nat.odd (length ns)) eqn:E.
  - right. split; [done|]. destruct ns as [|x ns]; [done|]. apply list.Forall_cons in Hn as [Hx Hn].
    destruct (even_digits ns Hn) as [str ->]; [|by eauto]. apply Nat.even_spec. cbn [length] in E.
    by rewrite Nat.odd_succ in E.
  - left. split; [done|]. apply even_digits; [done|]. apply Nat.even_spec. by rewrite <- Nat.negb_odd, E.
Qed.

Lemma zlen_odd {A} (l : list A) : (Z.land (zlen l) 1 =? 1) = Nat.odd (length l).
Proof.
  rewrite land_one. unfold zlen. destruct (Nat.odd (length l)) eqn:E.
  - apply Nat.odd_spec in E as [m ->]. apply Z.eqb_eq. replace (Z.of_nat (2 * m + 1)) with (1 + Z.of_nat m * 2) by lia.
    by rewrite Z.mod_add.
  - assert (Nat.even (length l) = true) as [m ->]%Nat.even_spec by by rewrite <- Nat.negb_odd, E.
    apply Z.eqb_neq. replace (Z.of_nat (2 * m)) with (Z.of_nat m * 2) by lia. by rewrite Z.mod_mul.
Qed.

Lemma hexToCompact_ok term ns : nibbles ns -> hexToCompact (hex_key term ns) = Ret (compact_of term ns).
Proof.
  intros Hn. unfold hexToCompact. rewrite cut_hex, hasTerm_hex, zlen_odd by done. unfold compact_of, compact_flag.
  destruct (nibbles_cases ns Hn) as [[Ho [str ->]]|[Ho (x & str & -> & Hx)]]; rewrite Ho.
  - rewrite decodeNibbles_digits. cbn [res_bind]. by destruct term.
  - cbn [drop nth]. rewrite !drop_0, decodeNibbles_digits.
    assert (go_index (x :: digits str) 0 = Ret x) as -> by done. cbn [res_bind].
    do 3 f_equal. pose proof (byte_val_range x). unfold nibble in Hx.
    assert (forall f, f = 0 \/ f = 1 -> Z.lor (Z.lor (Z.shiftl f 5) (Z.shiftl 1 4)) (byte_val x) = f * 32 + 16 + byte_val x) as Hf.
    { intros f Hf. replace (f * 32 + 16 + byte_val x) with ((f * 2 + 1) * 16 + byte_val x) by lia.
      rewrite <- lor_nibble by lia. f_equal. by destruct Hf as [->| ->]. }
    rewrite Hf by (destruct term; lia). by destruct term.
Qed.

Lemma compact_of_first term ns : nibbles ns -> exists f bytes,
  compact_of term ns = f :: bytes /\
  byte_val f = compact_flag term (Nat.odd (length ns)) + (if Nat.odd (length ns) then byte_val (nth 0 ns Byte.x00) else 0) /\
  ns = (if Nat.odd (length ns) then [nth 0 ns Byte.x00] else []) ++ digits bytes.
Proof.
  intros Hn. unfold compact_of. destruct (nibbles_cases ns Hn) as [[Ho [str ->]]|[Ho (x & str & -> & Hx)]]; rewrite Ho.
  - rewrite decodeNibbles_digits. eexists _, str. split; [done|]. split; [|done]. rewrite byte_val_of_Z. by destruct term.
  - cbn [drop nth]. rewrite !drop_0, decodeNibbles_digits. eexists _, str. split; [done|]. split; [|done].
    pose proof (byte_val_range x). unfold nibble in Hx. unfold compact_flag. rewrite byte_val_of_Z, Z.mod_small; [done|]. destruct term; lia.
Qed.

Lemma compactToHex_ok term ns : nibbles ns -> compactToHex (compact_of term ns) = hex_key term ns.
Proof.
  intros Hn. destruct (compact_of_first term ns Hn) as (f & bytes & -> & Hf & Hns).
  unfold compactToHex. rewrite keybytesToHex_digits, digits_cons. cbn [app nth length].
  set (o := Nat.odd (length ns)) in *. set (d := if o then byte_val (nth 0 ns Byte.x00) else 0) in *.
  assert (0 <= d < 16) as Hd.
  { unfold d. destruct o eqn:Eo; [|lia]. destruct ns as [|x ns]; [done|]. apply list.Forall_cons in Hn as [Hx _].
    pose proof (byte_val_range x). unfold nibble in Hx. cbn. lia. }
  assert (byte_val f / 16 = (if term then 2 else 0) + (if o then 1 else 0) /\ byte_val f mod 16 = d) as [Hdiv Hmod].
  { rewrite Hf. unfold compact_flag.
    replace ((if term then 32 else 0) + (if o then 16 else 0) + d) with (((if term then 2 else 0) + (if o then 1 else 0)) * 16 + d) by (destruct term, o; lia).
    split; [rewrite Z.div_add_l, Z.div_small by lia; lia|]. rewrite Z.add_comm, Z.mod_add, Z.mod_small by lia. done. }
  rewrite Hdiv, Hmod. rewrite byte_val_of_Z.
  assert (((if term then 2 else 0) + (if o then 1 else 0)) mod 256 = (if term then 2 else 0) + (if o then 1 else 0)) as ->
    by (destruct term, o; done).
  assert (((if term then 2 else 0) + (if o then 1 else 0) <? 2) = negb term) as -> by (destruct term, o; done).
  assert (Z.to_nat (2 - Z.land ((if term then 2 else 0) + (if o then 1 else 0)) 1) = if o then 1%nat else 2%nat) as ->
    by (destruct term, o; done).
  unfold hex_key. destruct term; cbn [negb].
  - rewrite Hns at 1. unfold d. destruct o; cbn [drop app]; [|done]. by rewrite byte_of_Z_val.
  - rewrite length_app. cbn [length]. rewrite app_nil_r. rewrite Hns at 1. unfold d.
    replace (S (S (length (digits bytes) + 1)) - 1)%nat with (S (S (length (digits bytes)))) by lia.
    destruct o; cbn [take drop app]; rewrite take_app_length; [|done]. by rewrite byte_of_Z_val.
Qed.

Lemma compact_of_inj term term' ns ns' : nibbles ns -> nibbles ns' ->
  compact_of term ns = compact_of term' ns' -> term = term' /\ ns = ns'.
Proof.
  intros Hn Hn' H. apply (f_equal compactToHex) in H. rewrite !compactToHex_ok in H by done.
  pose proof (f_equal hasTerm H) as Ht. rewrite !hasTerm_hex in Ht by done. subst term'. split; [done|].
  unfold hex_key in H. by apply app_inv_tail in H.
Qed.

Lemma length_compact_of term ns : nibbles ns -> length (compact_of term ns) = S (length ns / 2).
Proof.
  intros Hn. destruct (compact_of_first term ns Hn) as (f & bytes & -> & _ & Hns). cbn [length]. f_equal.
  rewrite Hns, length_app, length_digits. destruct (Nat.odd _); cbn [length].
  - replace (1 + 2 * length bytes)%nat with (1 + length bytes * 2)%nat by lia. by rewrite Nat.div_add.
  - replace (0 + 2 * length bytes)%nat with (length bytes * 2)%nat by lia. by rewrite Nat.div_mul.
Qed.

(** ** Lemmas: the conversion in place *)

Lemma compact_loop_ok bs tail : forall (bi ni : nat) hex,
  drop ni hex = digits bs ++ tail -> (bi <= ni + 1)%nat ->
  exists hex', compact_loop (length bs) (Z.of_nat bi) (Z.of_nat ni) hex = Ret hex' /\ length hex' = length hex /\
    take bi hex' = take bi hex /\ take (length bs) (drop bi hex') = bs.
Proof.
  induction bs as [|b bs IH]; intros bi ni hex Hd Hle; cbn [length compact_loop]; [by exists hex|].
  rewrite digits_cons in Hd. cbn [app] in Hd.
  assert (length hex = ni + 2 + (length (digits bs) + length tail))%nat as Hlen.
  { apply (f_equal length) in Hd. rewrite length_drop in Hd. cbn [length] in Hd. rewrite length_app in Hd. lia. }
  assert (hex !! ni = Some (byte_of_Z (byte_val b / 16)) /\ hex !! (ni + 1)%nat = Some (byte_of_Z (byte_val b mod 16))) as [H0 H1].
  { split; [rewrite <- (Nat.add_0_r ni)|]; rewrite <- lookup_drop; by rewrite Hd. }
  assert (go_index hex (Z.of_nat ni) = Ret (byte_of_Z (byte_val b / 16))) as ->.
  { destruct (go_index_ok hex (Z.of_nat ni)) as (x & -> & Hx); [unfold zlen; lia|]. rewrite Nat2Z.id in Hx. congruence. }
  assert (go_index hex (Z.of_nat ni + 1) = Ret (byte_of_Z (byte_val b mod 16))) as ->.
  { destruct (go_index_ok hex (Z.of_nat ni + 1)) as (x & -> & Hx); [unfold zlen; lia|].
    replace (Z.to_nat (Z.of_nat ni + 1)) with (ni + 1)%nat in Hx by lia. congruence. }
  cbn [res_bind]. rewrite decode_pair. rewrite go_update_ok by (unfold zlen; lia). cbn [res_bind]. rewrite Nat2Z.id.
  destruct (IH (S bi) (ni + 2)%nat (<[bi:=b]> hex)) as (hex' & He & Hl & Hpre & Hbs).
  - rewrite drop_insert_lt by lia. rewrite <- (drop_drop hex 2 ni), Hd. done.
  - lia.
  - exists hex'. split_and!.
    + replace (Z.of_nat bi + 1) with (Z.of_nat (S bi)) by lia. by replace (Z.of_nat ni + 2) with (Z.of_nat (ni + 2)) by lia.
    + by rewrite Hl, length_insert.
    + apply (f_equal (take bi)) in Hpre. rewrite !take_take, !Nat.min_l in Hpre by lia. rewrite Hpre.
      by rewrite take_insert_ge by lia.
    + assert (hex' !! bi = Some b) as Hb.
      { rewrite <- (lookup_take_lt _ (S bi)) by lia. rewrite Hpre, lookup_take_lt by lia. apply list_lookup_insert_eq. lia. }
      rewrite (drop_S _ _ _ Hb). cbn [take]. by rewrite Hbs.
Qed.

Lemma zlen_half {A} (l : list A) : Z.to_nat (zlen l / 2) = (length l / 2)%nat.
Proof. unfold zlen. change 2 with (Z.of_nat 2). by rewrite <- Nat2Z.inj_div, Nat2Z.id. Qed.

Lemma hexToCompactInPlace_ok term ns : nibbles ns -> hex_key term ns <> [] ->
  exists buf, hexToCompactInPlace (hex_key term ns) = Ret (zlen (compact_of term ns), buf) /\
    take (length (compact_of term ns)) buf = compact_of term ns.
Proof.
  intros Hn Hne. unfold hexToCompactInPlace. rewrite hasTerm_hex by done.
  assert ((if term then zlen (hex_key term ns) - 1 else zlen (hex_key term ns)) = zlen ns) as ->.
  { unfold hex_key. rewrite zlen_app. destruct term; [|rewrite zlen_nil; lia]. change (zlen [Byte.x10]) with 1. lia. }
  rewrite zlen_odd, zlen_half.
  assert (zlen ns / 2 + 1 = zlen (compact_of term ns)) as ->.
  { unfold zlen. rewrite length_compact_of by done. change 2 with (Z.of_nat 2). rewrite <- Nat2Z.inj_div. lia. }
  destruct (compact_of_first term ns Hn) as (f & bytes & Hc & Hf & Hns). rewrite Hc. set (o := Nat.odd (length ns)) in *.
  assert (length bytes = length ns / 2)%nat as Hlb.
  { pose proof (length_compact_of term ns Hn) as Hl. rewrite Hc in Hl. by injection Hl. }
  rewrite <- Hlb. set (b0 := byte_val (nth 0 ns Byte.x00)) in *.
  assert ((if o then let? first := go_index (hex_key term ns) 0 in
      Ret (Z.lor (Z.lor (if term then Z.shiftl 1 5 else 0) (Z.shiftl 1 4)) (byte_val first))
    else Ret (if term then Z.shiftl 1 5 else 0)) = Ret (byte_val f)) as ->.
  { rewrite Hf. unfold compact_flag. destruct o; [|by destruct term]. cbn [app] in Hns. unfold hex_key, b0. rewrite Hns. cbn [app nth].
    assert (nibble (nth 0 ns Byte.x00)) as Hx by (rewrite Hns in Hn; by apply list.Forall_cons in Hn as [? _]).
    change (go_index _ 0) with (Ret (nth 0 ns Byte.x00)). cbn [res_bind]. pose proof (byte_val_range (nth 0 ns Byte.x00)) as Hr.
    unfold nibble in Hx. revert Hx Hr. generalize (byte_val (nth 0 ns Byte.x00)). intros d Hx Hr. f_equal.
    replace ((if term then 32 else 0) + 16 + d) with (((if term then 2 else 0) + 1) * 16 + d) by (destruct term; lia).
    rewrite <- lor_nibble by lia. f_equal. by destruct term. }
  cbn [res_bind]. destruct (compact_loop_ok bytes (if term then [Byte.x10] else []) 1 (if o then 1 else 0) (hex_key term ns)) as (buf & He & Hl & _ & Hb).
  { unfold hex_key. rewrite Hns. by destruct o. }
  { destruct o; lia. }
  change (Z.of_nat 1) with 1 in He. replace (Z.of_nat (if o then 1 else 0)) with (if o then 1 else 0) in He by by destruct o.
  rewrite He. cbn [res_bind]. destruct buf as [|b buf]; [by destruct (hex_key term ns)|].
  rewrite go_update_ok by (rewrite zlen_cons; pose proof (zlen_nonneg buf); lia). cbn [res_bind]. eexists. split; [done|].
  cbn [length take]. change (Z.to_nat 0) with 0%nat. cbn [insert list_insert take]. rewrite byte_of_Z_val.
  f_equal. cbn [drop] in Hb. by rewrite drop_0 in Hb.
Qed.

(** ** Lemmas: common prefixes *)

Lemma byte_eqb_eq a b : Byte.eqb a b = true <-> a = b.
Proof. split; [apply Byte.byte_dec_bl|apply Byte.byte_dec_lb]. Qed.

Lemma prefixLen_split a b : exists p a' b', a = p ++ a' /\ b = p ++ b' /\ prefixLen a b = length p /\
  match a', b' with x :: _, y :: _ => x <> y | _, _ => True end.
Proof.
  revert b. induction a as [|x a IH]; intros b; [by exists [], [], b|].
  destruct b as [|y b]; [by exists [], (x :: a), []|]. cbn [prefixLen]. destruct (Byte.eqb x y) eqn:E.
  - apply byte_eqb_eq in E as ->. destruct (IH b) as (p & a' & b' & -> & -> & Hl & Hd).
    exists (y :: p), a', b'. cbn. by rewrite Hl.
  - exists [], (x :: a), (y :: b). split_and!; try done. intros ->.
    assert (Byte.eqb y y = true) by by apply byte_eqb_eq. congruence.
Qed.

Lemma prefixLen_app p a b : prefixLen (p ++ a) (p ++ b) = (length p + prefixLen a b)%nat.
Proof.
  induction p as [|x p IH]; [done|]. cbn [app prefixLen length]. rewrite (proj2 (byte_eqb_eq x x)) by done. by rewrite IH.
Qed.

Lemma prefixLen_le a b : (prefixLen a b <= length a)%nat /\ (prefixLen a b <= length b)%nat.
Proof.
  destruct (prefixLen_split a b) as (p & a' & b' & -> & -> & -> & _). rewrite !length_app. lia.
Qed.

(** The second string is a prefix of the first. *)
Lemma prefixLen_full a b : prefixLen a b = length b <-> exists r, a = b ++ r.
Proof.
  split.
  - destruct (prefixLen_split a b) as (p & a' & b' & -> & -> & -> & _). rewrite length_app. intros H.
    destruct b'; [|cbn in H; lia]. rewrite app_nil_r. by exists a'.
  - intros [r ->]. rewrite <- (app_nil_r b) at 2. rewrite prefixLen_app. destruct r; cbn; lia.
Qed.

(** ** Theorem *)

(** Keys survive their encodings: any digits have a compact form, with or without a
    terminator, which gives the digits and the terminator back and which the
    conversion in place computes too; and the bytes of a key come back from its digits. *)
Theorem trie_keys_roundtrip term ns str : nibbles ns ->
  (exists c, hexToCompact (hex_key term ns) = Ret c /\ compactToHex c = hex_key term ns /\
     (hex_key term ns <> [] -> exists buf, hexToCompactInPlace (hex_key term ns) = Ret (zlen c, buf) /\ take (length c) buf = c)) /\
  hexToKeybytes (keybytesToHex str) = Ret str.
Proof.
  intros Hn. split.
  - exists (compact_of term ns). split; [by apply hexToCompact_ok|]. split; [by apply compactToHex_ok|].
    by apply hexToCompactInPlace_ok.
  - unfold hexToKeybytes. rewrite keybytesToHex_digits. change (digits str ++ [Byte.x10]) with (hex_key true (digits str)).
    rewrite cut_hex by apply digits_nibbles. rewrite land_one. unfold zlen. rewrite length_digits.
    replace (Z.of_nat (2 * length str)) with (Z.of_nat (length str) * 2) by lia. rewrite Z.mod_mul by lia.
    apply decodeNibbles_digits.
Qed.
