(* ===== verification/TrieTree.v ===== *)
(** * Canonical tries

    Tries as pure trees, without flags and with nothing left in a database.  The
    canonical tree of a map is unique, so that what is computed from the tree of a
    map, its hash above all, does not depend on how the map came about. *)

From Stdlib Require Import Strings.Byte.
From S2P Require Import Prelude.
From S2P Require Import TrieKeys.

Inductive tree : Type :=
| TNil
| TValue (v : list byte)
| TShort (k : list byte) (t : tree)
| TFull (ts : list tree).

Lemma tree_nested_ind (P : tree -> Prop) :
  P TNil -> (forall v, P (TValue v)) -> (forall k t, P t -> P (TShort k t)) -> (forall ts, Forall P ts -> P (TFull ts)) ->
  forall t, P t.
Proof.
  intros Hn Hv Hs Hf. fix IH 1. intros [|v|k t|ts]; [exact Hn|apply Hv|apply Hs, IH|].
  apply Hf. induction ts as [|t ts IHt]; constructor; [apply IH|exact IHt].
Qed.

#[export] Instance tnil_dec t : Decision (t = TNil).
Proof. destruct t; [by left|by right..]. Defined.

(** The slot of a digit, and the digit of a slot. *)
Definition slot (x : byte) : nat := Z.to_nat (byte_val x).
Definition digit (i : nat) : byte := byte_of_Z (Z.of_nat i).

(** The values of a tree, under the rest of their keys. *)
Inductive has : tree -> list byte -> list byte -> Prop :=
| has_value v : has (TValue v) [] v
| has_short k t key v : has t key v -> has (TShort k t) (k ++ key) v
| has_full ts x t key v : ts !! slot x = Some t -> has t key v -> has (TFull ts) (x :: key) v.

(** The trees an implementation may build: no short node leads to another, full
    nodes have two children at least, the terminator ends every key. *)
Inductive canon : tree -> Prop :=
| canon_leaf ns v : nibbles ns -> v <> [] -> canon (TShort (ns ++ [Byte.x10]) (TValue v))
| canon_ext k ts : nibbles k -> k <> [] -> canon (TFull ts) -> canon (TShort k (TFull ts))
| canon_full ts :
    length ts = 17%nat ->
    (forall i t, ts !! i = Some t -> (i < 16)%nat -> t <> TNil -> canon t) ->
    (forall t, ts !! 16%nat = Some t -> t <> TNil -> exists v, t = TValue v /\ v <> []) ->
    (exists i j ti tj, i <> j /\ ts !! i = Some ti /\ ts !! j = Some tj /\ ti <> TNil /\ tj <> TNil) ->
    canon (TFull ts).

(** ** Lemmas: slots *)

Lemma slot_digit i : (i < 256)%nat -> slot (digit i) = i.
Proof. intros Hi. unfold slot, digit. rewrite byte_val_of_Z, Z.mod_small by lia. apply Nat2Z.id. Qed.

Lemma digit_slot x : digit (slot x) = x.
Proof.
  unfold slot, digit. pose proof (byte_val_range x). rewrite Z2Nat.id by lia. apply byte_of_Z_val.
Qed.

Lemma slot_inj x y : slot x = slot y -> x = y.
Proof. intros H. by rewrite <- (digit_slot x), H, digit_slot. Qed.

Lemma slot_nibble x : nibble x <-> (slot x < 16)%nat.
Proof. unfold nibble, slot. pose proof (byte_val_range x). lia. Qed.

Lemma slot_term x : slot x = 16%nat <-> x = Byte.x10.
Proof. split; [intros H; apply slot_inj; by rewrite H|by intros ->]. Qed.

(** ** Lemmas: keys *)

Definition hexterm (k : list byte) : Prop := exists ns, nibbles ns /\ k = ns ++ [Byte.x10].

Lemma hexterm_cons x k : hexterm (x :: k) <-> (nibble x /\ hexterm k) \/ (x = Byte.x10 /\ k = []).
Proof.
  split.
  - intros ([|y ns] & Hn & He); cbn in He; injection He as -> ->; [by right|].
    apply list.Forall_cons in Hn as [Hy Hn]. left. split; [done|by exists ns].
  - intros [[Hx (ns & Hn & ->)]|[-> ->]]; [exists (x :: ns); split; [by constructor|done]|by exists []].
Qed.

Lemma hexterm_nil : ~ hexterm [].
Proof. intros ([|y ns] & _ & He); discriminate. Qed.

Lemma term_not_nibble : ~ nibble Byte.x10.
Proof. by unfold nibble. Qed.

Lemma hexterm_app p k : nibbles p -> hexterm (p ++ k) <-> hexterm k.
Proof.
  intros Hp. induction Hp as [|x p Hx Hp IH]; [done|]. cbn [app]. rewrite hexterm_cons, IH. split; [|by left].
  intros [[_ ?]|[-> _]]; [done|]. by destruct term_not_nibble.
Qed.

Lemma hexterm_prefix p k : hexterm (p ++ k) -> k <> [] -> nibbles p /\ hexterm k.
Proof.
  intros H Hk. induction p as [|x p IH]; [by split; [constructor|]|]. cbn [app] in H.
  apply hexterm_cons in H as [[Hx H]|[-> H]].
  - destruct (IH H) as [? ?]. split; [by constructor|done].
  - apply app_eq_nil in H as [_ ->]. done.
Qed.

(** No key is a proper prefix of another. *)
Lemma hexterm_not_prefix k r : hexterm k -> hexterm (k ++ r) -> r = [].
Proof.
  intros Hk H. destruct r as [|y r]; [done|]. apply hexterm_prefix in H as [Hn _]; [|done].
  destruct Hk as (ns & _ & ->). apply Forall_app in Hn as [_ Hn]. apply list.Forall_cons in Hn as [Hn _].
  by destruct term_not_nibble.
Qed.

(** ** Lemmas: values *)

Lemma has_nil k v : ~ has TNil k v.
Proof. inversion 1. Qed.

Lemma has_value_inv v k w : has (TValue v) k w <-> k = [] /\ w = v.
Proof. split; [by inversion 1|intros [-> ->]; constructor]. Qed.

Lemma has_short_inv k t key v : has (TShort k t) key v <-> exists r, key = k ++ r /\ has t r v.
Proof. split; [inversion 1; subst; by eauto|intros (r & -> & H); by constructor]. Qed.

Lemma has_full_inv ts key v : has (TFull ts) key v <-> exists x t r, key = x :: r /\ ts !! slot x = Some t /\ has t r v.
Proof. split; [inversion 1; subst; by eauto 6|intros (x & t & r & -> & ? & ?); by econstructor]. Qed.

Lemma has_short_app k t r v : has (TShort k t) (k ++ r) v <-> has t r v.
Proof.
  rewrite has_short_inv. split; [by intros (r' & ->%app_inv_head & H)|by eauto].
Qed.

Lemma has_full_cons ts x r v : has (TFull ts) (x :: r) v <-> exists t, ts !! slot x = Some t /\ has t r v.
Proof. rewrite has_full_inv. split; [intros (y & t & r' & [= <- <-] & ?); by eauto|intros (t & ?); by eauto 6]. Qed.

Lemma has_leaf k v : has (TShort k (TValue v)) k v.
Proof. rewrite <- (app_nil_r k) at 2. apply has_short, has_value. Qed.

Lemma has_fun t k v w : has t k v -> has t k w -> v = w.
Proof.
  intros H. revert w. induction H as [v|k t key v H IH|ts x t key v Hx H IH]; intros w Hw.
  - by apply has_value_inv in Hw as [_ ->].
  - apply has_short_app in Hw. by apply IH.
  - apply has_full_cons in Hw as (t' & Hx' & Hw). apply IH. congruence.
Qed.

(** What a child of a full node may be. *)
Definition child_ok (i : nat) (t : tree) : Prop :=
  t = TNil \/ (i < 16)%nat /\ canon t \/ i = 16%nat /\ exists v, t = TValue v /\ v <> [].

Lemma canon_child ts i t : canon (TFull ts) -> ts !! i = Some t -> child_ok i t.
Proof.
  intros Hc Ht. inversion Hc as [| |? Hlen Hchild Hval _]; subst. pose proof (lookup_lt_Some _ _ _ Ht).
  destruct (decide (t = TNil)) as [->|Hn]; [by left|]. right.
  destruct (decide (i = 16%nat)) as [->|]; [right|left]; [split; [done|]; by apply Hval|split; [lia|]].
  apply (Hchild i); [done|lia|done].
Qed.

Lemma canon_not_nil t : canon t -> t <> TNil.
Proof. by destruct 1. Qed.

Lemma two_values ts : canon (TFull ts) ->
  (forall i t, ts !! i = Some t -> (i < 16)%nat -> t <> TNil -> exists k v, has t k v) ->
  exists x y k1 k2 v1 v2, x <> y /\ has (TFull ts) (x :: k1) v1 /\ has (TFull ts) (y :: k2) v2.
Proof.
  intros Hc Hhas. inversion Hc as [| |? Hlen Hchild Hval (i & j & ti & tj & Hij & Hi & Hj & Hni & Hnj)]; subst.
  assert (forall i t, ts !! i = Some t -> t <> TNil -> exists k v, has (TFull ts) (digit i :: k) v) as H.
  { intros n t Hn Ht. pose proof (lookup_lt_Some _ _ _ Hn).
    assert (exists k v, has t k v) as (k & v & Hv).
    { destruct (decide (n = 16%nat)) as [->|]; [|apply (Hhas n); [done|lia|done]].
      destruct (Hval _ Hn Ht) as (v & -> & _). exists [], v. constructor. }
    exists k, v. apply has_full_cons. exists t. by rewrite slot_digit by lia. }
  destruct (H _ _ Hi Hni) as (k1 & v1 & H1), (H _ _ Hj Hnj) as (k2 & v2 & H2).
  exists (digit i), (digit j), k1, k2, v1, v2. split_and!; [|done..]. intros He.
  apply (f_equal slot) in He. pose proof (lookup_lt_Some _ _ _ Hi). pose proof (lookup_lt_Some _ _ _ Hj).
  rewrite !slot_digit in He by lia. done.
Qed.

Lemma canon_has t : canon t -> exists k v, has t k v.
Proof.
  induction 1 as [ns v Hk Hv|k ts Hk Hne Hc (key & v & IH)|ts Hlen Hchild IH Hval Htwo].
  - exists (ns ++ [Byte.x10]), v. apply has_leaf.
  - exists (k ++ key), v. by constructor.
  - destruct (two_values ts) as (x & _ & k & _ & v & _ & _ & H & _); [by constructor|done|by eauto].
Qed.

Lemma canon_two ts : canon (TFull ts) ->
  exists x y k1 k2 v1 v2, x <> y /\ has (TFull ts) (x :: k1) v1 /\ has (TFull ts) (y :: k2) v2.
Proof.
  intros Hc. apply two_values; [done|]. intros i t Ht Hi Hn. apply canon_has.
  destruct (canon_child _ _ _ Hc Ht) as [?|[[_ ?]|[-> _]]]; [done|done|lia].
Qed.

(** Keys are digits with a terminator. *)
Lemma canon_key t k v : canon t -> has t k v -> hexterm k /\ v <> [].
Proof.
  intros Hc. revert k v. induction Hc as [ns w Hk Hw|p ts Hk Hne Hc IH|ts Hlen Hchild IH Hval Htwo]; intros k v H.
  - apply has_short_inv in H as (r & -> & H). apply has_value_inv in H as [-> ->]. rewrite app_nil_r.
    split; [|done]. exists ns. done.
  - apply has_short_inv in H as (r & -> & H). destruct (IH _ _ H). split; [|done]. apply hexterm_app; done.
  - apply has_full_inv in H as (x & t & r & -> & Hx & H). pose proof (lookup_lt_Some _ _ _ Hx).
    assert (t <> TNil) as Ht by (intros ->; by apply has_nil in H).
    destruct (decide (slot x = 16%nat)) as [E|E].
    + rewrite E in Hx. destruct (Hval _ Hx Ht) as (w & -> & Hw). apply has_value_inv in H as [-> ->].
      split; [|done]. apply hexterm_cons. right. split; [by apply slot_term|done].
    + destruct (IH _ _ Hx ltac:(lia) Ht _ _ H). split; [|done]. apply hexterm_cons. left. split; [apply slot_nibble; lia|done].
Qed.

(** A tree with two first digits is a full node. *)
Lemma canon_heads t x y k1 k2 v1 v2 : canon t -> has t (x :: k1) v1 -> has t (y :: k2) v2 -> x <> y -> exists ts, t = TFull ts.
Proof.
  intros Hc H1 H2 Hne. destruct Hc as [ns v Hk Hv|k ts Hk Hkne Hc|ts]; [| |by eexists].
  - apply has_short_inv in H1 as (r1 & He1 & H1), H2 as (r2 & He2 & H2). apply has_value_inv in H1 as [-> _], H2 as [-> _]. congruence.
  - apply has_short_inv in H1 as (r1 & He1 & H1), H2 as (r2 & He2 & H2). destruct k as [|z k]; [done|]. cbn in *. congruence.
Qed.

(** ** The tree of a map is unique *)

Lemma prefix_of_full p ts q t : canon (TFull ts) -> canon (TShort (p ++ q) t) -> q <> [] ->
  (forall k v, has (TShort p (TFull ts)) k v -> has (TShort (p ++ q) t) k v) -> False.
Proof.
  intros Hc _ Hq H. destruct (canon_two ts Hc) as (x & y & k1 & k2 & v1 & v2 & Hne & H1 & H2).
  apply (has_short p), H, has_short_inv in H1 as (r1 & He1 & _).
  apply (has_short p), H, has_short_inv in H2 as (r2 & He2 & _).
  rewrite <- !app_assoc in He1, He2. apply app_inv_head in He1, He2. destruct q as [|z q]; [done|]. cbn in *. congruence.
Qed.

Lemma canon_unique t1 t2 : canon t1 -> canon t2 -> (forall k v, has t1 k v <-> has t2 k v) -> t1 = t2.
Proof.
  intros H1. revert t2. induction H1 as [ns v Hk Hv|k1 ts1 Hk Hne Hc1 IH|ts1 Hlen Hchild IH Hval Htwo]; intros t2 H2 Heq.
  - assert (forall k w, has t2 k w -> k = ns ++ [Byte.x10] /\ w = v) as Hone.
    { intros k w Hw. apply Heq, has_short_inv in Hw as (r & -> & Hw). apply has_value_inv in Hw as [-> ->]. by rewrite app_nil_r. }
    inversion H2 as [ns2 v2 Hk2 Hv2|k2 ts2 Hk2 Hne2 Hc2|]; subst.
    + destruct (Hone (ns2 ++ [Byte.x10]) v2) as [-> ->]; [|done].
      apply has_leaf.
    + destruct (canon_two ts2 Hc2) as (x & y & q1 & q2 & w1 & w2 & Hxy & Hx & Hy).
      apply (has_short k2), Hone in Hx as [Hx _]. apply (has_short k2), Hone in Hy as [Hy _].
      rewrite <- Hy in Hx. apply app_inv_head in Hx. congruence.
    + destruct (canon_two ts H2) as (x & y & q1 & q2 & w1 & w2 & Hxy & Hx & Hy).
      apply Hone in Hx as [Hx _], Hy as [Hy _]. congruence.
  - inversion H2 as [ns2 v2 Hk2 Hv2|k2 ts2 Hk2 Hne2 Hc2|]; subst.
    + destruct (canon_two ts1 Hc1) as (x & y & q1 & q2 & w1 & w2 & Hxy & Hx & Hy).
      apply (has_short k1), Heq, has_short_inv in Hx as (r1 & Hx & R1). apply (has_short k1), Heq, has_short_inv in Hy as (r2 & Hy & R2).
      apply has_value_inv in R1 as [-> _], R2 as [-> _]. rewrite <- Hy in Hx. apply app_inv_head in Hx. congruence.
    + destruct (prefixLen_split k1 k2) as (p & a & b & -> & -> & _ & Hab).
      assert (a = [] \/ b = []) as Hor.
      { destruct a as [|x a]; [by left|]. destruct b as [|y b]; [by right|]. exfalso.
        destruct (canon_has _ Hc1) as (q & w & Hq). apply (has_short (p ++ x :: a)), Heq, has_short_inv in Hq as (r & He & _).
        rewrite <- !app_assoc in He. apply app_inv_head in He. cbn in He. congruence. }
      assert (a = [] /\ b = []) as [-> ->].
      { destruct Hor as [->| ->].
        - split; [done|]. destruct b as [|y b]; [done|]. exfalso. rewrite app_nil_r in *.
          eapply (prefix_of_full p ts1 (y :: b)); [done|exact H2|done|]. intros k v Hv. by apply Heq.
        - split; [|done]. destruct a as [|x a]; [done|]. exfalso. rewrite app_nil_r in *.
          apply (prefix_of_full p ts2 (x :: a) (TFull ts1)); [done|by constructor|done|]. intros k v Hv. by apply Heq. }
      rewrite app_nil_r in *. f_equal. apply IH; [done|]. intros k v. rewrite <- (has_short_app p (TFull ts1)), <- (has_short_app p (TFull ts2)). apply Heq.
    + destruct (canon_two ts H2) as (x & y & q1 & q2 & w1 & w2 & Hxy & Hx & Hy). apply Heq in Hx, Hy.
      destruct (canon_heads _ _ _ _ _ _ _ (canon_ext _ _ Hk Hne Hc1) Hx Hy Hxy) as [ts' [=]].
  - assert (canon (TFull ts1)) as H1 by by constructor.
    destruct (canon_two ts1 H1) as (x & y & q1 & q2 & w1 & w2 & Hxy & Hx & Hy). apply Heq in Hx, Hy.
    destruct (canon_heads _ _ _ _ _ _ _ H2 Hx Hy Hxy) as [ts2 ->]. clear x y q1 q2 w1 w2 Hxy Hx Hy.
    inversion H2 as [| |? Hlen2 Hchild2 Hval2 _]; subst. f_equal. apply (list_eq_same_length _ _ 17%nat); [exact Hlen2|exact Hlen|].
    intros i u1 u2 Hi Hu1 Hu2.
    assert (forall k v, has u1 k v <-> has u2 k v) as Hu.
    { intros k v. specialize (Heq (digit i :: k) v). rewrite !has_full_cons, !slot_digit in Heq by lia. split; intros Hv.
      - destruct Heq as [Heq _]. destruct Heq as (t & Ht & Hv'); [by eauto|]. congruence.
      - destruct Heq as [_ Heq]. destruct Heq as (t & Ht & Hv'); [by eauto|]. congruence. }
    destruct (canon_child _ _ _ H1 Hu1) as [->|[[Hi1 Hu1c]|[-> (v & -> & _)]]].
    + destruct (canon_child _ _ _ H2 Hu2) as [->|[[Hi2 Hu2c]|[-> (v & -> & _)]]]; [done| |].
      * destruct (canon_has _ Hu2c) as (k & v & Hv). apply Hu in Hv. by apply has_nil in Hv.
      * destruct (has_nil [] v). apply Hu. constructor.
    + apply (IH i); [done|lia|by apply canon_not_nil| |done].
      destruct (canon_child _ _ _ H2 Hu2) as [->|[[Hi2 Hu2c]|[-> _]]]; [|done|lia].
      destruct (canon_has _ Hu1c) as (k & v & Hv). apply Hu in Hv. by apply has_nil in Hv.
    + destruct (canon_child _ _ _ H2 Hu2) as [->|[[Hi2 Hu2c]|[_ (w & -> & _)]]]; [|lia|].
      * destruct (has_nil [] v). apply Hu. constructor.
      * f_equal. assert (has (TValue w) [] v) as Hv by (apply Hu; constructor). by apply has_value_inv in Hv as [_ ->].
Qed.

(** ** Changing a tree *)

(** [k] is the rest of a key at the tree [t]. *)
Definition sub (t : tree) (k : list byte) : Prop :=
  (k = [] /\ (t = TNil \/ exists v, t = TValue v /\ v <> [])) \/ (hexterm k /\ (t = TNil \/ canon t)).

Definition sets (t : tree) (k v : list byte) (t' : tree) : Prop :=
  forall k' v', has t' k' v' <-> (k' = k /\ v' = v) \/ (k' <> k /\ has t k' v').
Definition drops (t : tree) (k : list byte) (t' : tree) : Prop :=
  forall k' v', has t' k' v' <-> k' <> k /\ has t k' v'.

Lemma sets_nil k v : sets TNil k v (TShort k (TValue v)).
Proof.
  intros k' w. split.
  - intros (r & -> & [-> ->]%has_value_inv)%has_short_inv. rewrite app_nil_r. by left.
  - intros [[-> ->]|[_ []%has_nil]]. apply has_leaf.
Qed.

(** A short node, or its child if nothing of the key is left. *)
Definition cons_short (k : list byte) (t : tree) : tree := match k with [] => t | _ => TShort k t end.

(** A short node in front of a tree, merged with it if that is one too. *)
Definition join (k : list byte) (t : tree) : tree := match t with TShort k' t' => TShort (k ++ k') t' | _ => TShort k t end.

Definition no_children : list tree := replicate 17 TNil.

(** The branch where two keys part. *)
Definition fork (x : byte) (tx : tree) (y : byte) (ty : tree) : tree :=
  TFull (<[slot y := ty]> (<[slot x := tx]> no_children)).

Lemma has_cons_short k t r v : has (cons_short k t) r v <-> has (TShort k t) r v.
Proof.
  destruct k as [|x k]; [|done]. cbn [cons_short]. rewrite <- (app_nil_l r) at 2. by rewrite has_short_app.
Qed.

Lemma has_join k t r v : has (join k t) r v <-> has (TShort k t) r v.
Proof.
  destruct t as [|w|k' t|ts]; try done. cbn [join]. rewrite !has_short_inv. split.
  - intros (r' & -> & H). exists (k' ++ r'). rewrite <- app_assoc. split; [done|by constructor].
  - intros (r' & -> & H). apply has_short_inv in H as (r2 & -> & H). exists r2. by rewrite app_assoc.
Qed.

Lemma canon_join k t : nibbles k -> k <> [] -> canon t -> canon (join k t).
Proof.
  intros Hk Hne Hc. destruct Hc as [ns v Hn Hv|k' ts Hk' Hne' Hc|ts]; cbn [join].
  - rewrite app_assoc. constructor; [by apply Forall_app|done].
  - constructor; [by apply Forall_app|by destruct k|done].
  - apply canon_ext; [done|done|by constructor].
Qed.

(** *** Short nodes *)

Lemma canon_short_inv k t : canon (TShort k t) ->
  (exists ns v, k = ns ++ [Byte.x10] /\ nibbles ns /\ t = TValue v /\ v <> []) \/
  (nibbles k /\ k <> [] /\ exists ts, t = TFull ts /\ canon t).
Proof. inversion 1; subst; [left; by eauto 8|right; by eauto]. Qed.

Lemma sub_short k0 t k : canon (TShort k0 t) -> hexterm (k0 ++ k) -> sub t k.
Proof.
  intros Hc Hk. apply canon_short_inv in Hc as [(ns & v & -> & Hn & -> & Hv)|(Hn & Hne & ts & -> & Hc)].
  - left. split; [|by eauto]. apply hexterm_not_prefix in Hk; [done|by exists ns].
  - right. split; [by apply (hexterm_app k0)|by right].
Qed.

Lemma sets_short k0 t k v t' : sets t k v t' -> sets (TShort k0 t) (k0 ++ k) v (TShort k0 t').
Proof.
  intros H k' v'. rewrite !has_short_inv. split.
  - intros (r & -> & Hr). apply H in Hr as [[-> ->]|[Hne Hr]]; [by left|]. right. split; [by intros ?%app_inv_head|by eauto].
  - intros [[-> ->]|[Hne (r & -> & Hr)]]; eexists; (split; [done|]); apply H; [by left|right]. split; [by intros ->|done].
Qed.

Lemma drops_short k0 t k t' : drops t k t' -> drops (TShort k0 t) (k0 ++ k) (TShort k0 t').
Proof.
  intros H k' v'. rewrite !has_short_inv. split.
  - intros (r & -> & Hr). apply H in Hr as [Hne Hr]. split; [by intros ?%app_inv_head|by eauto].
  - intros [Hne (r & -> & Hr)]; eexists; (split; [done|]); apply H. split; [by intros ->|done].
Qed.

Lemma full_stays ts k v t' : canon (TFull ts) -> sets (TFull ts) k v t' -> canon t' -> exists ts', t' = TFull ts'.
Proof.
  intros Hc Hs Hc'. destruct (canon_two ts Hc) as (x & y & k1 & k2 & v1 & v2 & Hxy & Hx & Hy).
  assert (forall q w, has (TFull ts) q w -> exists w', has t' q w') as Hkeep.
  { intros q w Hq. destruct (decide (q = k)) as [->|]; [exists v|exists w]; apply Hs; [by left|by right]. }
  destruct (Hkeep _ _ Hx) as (w1 & Hw1), (Hkeep _ _ Hy) as (w2 & Hw2).
  exact (canon_heads _ _ _ _ _ _ _ Hc' Hw1 Hw2 Hxy).
Qed.

Lemma short_set k0 t k v t' : canon (TShort k0 t) -> hexterm (k0 ++ k) -> v <> [] -> sub t' k -> sets t k v t' ->
  canon (TShort k0 t').
Proof.
  intros Hc Hk Hv Hsub Hs. assert (t' <> TNil) as Hnil.
  { intros ->. destruct (has_nil k v). apply Hs. by left. }
  apply canon_short_inv in Hc as [(ns & w & -> & Hn & -> & Hw)|(Hn & Hne & ts & -> & Hc)].
  - apply hexterm_not_prefix in Hk as ->; [|by exists ns].
    destruct Hsub as [[_ [?|(u & -> & Hu)]]|[[]%hexterm_nil _]]; [done|]. by constructor.
  - apply hexterm_app in Hk; [|done]. destruct Hsub as [[-> _]|[_ [?|Hc']]]; [by apply hexterm_nil in Hk|done|].
    destruct (full_stays ts k v t' Hc Hs Hc') as [ts' ->]. by constructor.
Qed.

(** *** Full nodes *)

Lemma full_length ts : canon (TFull ts) -> length ts = 17%nat.
Proof. by inversion 1. Qed.

Lemma sub_full ts x k : canon (TFull ts) -> hexterm (x :: k) -> exists t, ts !! slot x = Some t /\ sub t k.
Proof.
  intros Hc Hk. pose proof (full_length _ Hc). apply hexterm_cons in Hk as [[Hx Hk]|[-> ->]].
  - apply slot_nibble in Hx. destruct (lookup_lt_is_Some_2 ts (slot x)) as [t Ht]; [lia|]. exists t. split; [done|].
    right. split; [done|]. destruct (canon_child _ _ _ Hc Ht) as [?|[[_ ?]|[? _]]]; [by left|by right|lia].
  - destruct (lookup_lt_is_Some_2 ts 16) as [t Ht]; [lia|]. exists t. split; [done|]. left. split; [done|].
    destruct (canon_child _ _ _ Hc Ht) as [?|[[? _]|[_ ?]]]; [by left|lia|by right].
Qed.

Lemma child_sub i t k : child_ok i t -> (i < 17)%nat -> t <> TNil -> sub t k -> (i < 16)%nat /\ canon t \/ i = 16%nat /\ exists v, t = TValue v /\ v <> [].
Proof. by intros [?|?]. Qed.

Lemma full_insert ts x k t' : canon (TFull ts) -> hexterm (x :: k) -> sub t' k -> t' <> TNil -> canon (TFull (<[slot x := t']> ts)).
Proof.
  intros Hc Hk Hsub Hnil. pose proof Hc as Hc0. inversion Hc as [| |? Hlen Hchild Hval (i & j & ti & tj & Hij & Hi & Hj & Hni & Hnj)]; subst.
  assert ((slot x < 16)%nat /\ canon t' \/ slot x = 16%nat /\ exists v, t' = TValue v /\ v <> []) as Hx.
  { apply hexterm_cons in Hk as [[Hx Hk]|[-> ->]].
    - left. apply slot_nibble in Hx. split; [done|]. destruct Hsub as [[-> _]|[_ [?|?]]]; [by apply hexterm_nil in Hk|done|done].
    - right. split; [done|]. destruct Hsub as [[_ [?|?]]|[H _]]; [done|done|by destruct hexterm_nil]. }
  assert (slot x < length ts)%nat as Hlt by lia.
  assert (forall n t, ts !! n = Some t -> t <> TNil -> exists t2, <[slot x := t']> ts !! n = Some t2 /\ t2 <> TNil) as Hkeep.
  { intros n t Hn Ht. destruct (decide (slot x = n)) as [<-|Hne]; [exists t'; by rewrite list_lookup_insert_eq|].
    exists t. by rewrite list_lookup_insert_ne. }
  destruct (Hkeep _ _ Hi Hni) as (ti' & Hi' & Hni'), (Hkeep _ _ Hj Hnj) as (tj' & Hj' & Hnj'). constructor.
  - by rewrite length_insert.
  - intros n t Hn Hn16 Ht. apply list_lookup_insert_Some in Hn as [(E & <- & _)|[_ Hn]]; [destruct Hx as [[_ ?]|[? _]]; [done|lia]|by eapply Hchild].
  - intros t Hn Ht. apply list_lookup_insert_Some in Hn as [(E & <- & _)|[_ Hn]]; [destruct Hx as [[? _]|[_ ?]]; [lia|done]|by apply Hval].
  - by exists i, j, ti', tj'.
Qed.

Lemma has_full_insert ts x t' y r v : (slot x < length ts)%nat ->
  has (TFull (<[slot x := t']> ts)) (y :: r) v <-> if decide (y = x) then has t' r v else has (TFull ts) (y :: r) v.
Proof.
  intros Hx. rewrite !has_full_cons. case_decide as E.
  - subst y. rewrite list_lookup_insert_eq by done. split; [intros (t & Ht & H); by injection Ht as <-|intros H; by exists t'].
  - rewrite list_lookup_insert_ne by (intros Hs; apply E; symmetry; by apply slot_inj). by rewrite has_full_cons.
Qed.

Lemma sets_full ts x t k v t' : ts !! slot x = Some t -> sets t k v t' -> sets (TFull ts) (x :: k) v (TFull (<[slot x := t']> ts)).
Proof.
  intros Ht H k' v'. pose proof (lookup_lt_Some _ _ _ Ht) as Hlt. destruct k' as [|y k'].
  { split; [|intros [[? _]|[_ Hf]]; [done|]]; [intros Hf|]; apply has_full_inv in Hf as (? & ? & ? & ? & _); discriminate. }
  rewrite has_full_insert by done. case_decide as E.
  - subst y. unfold sets in H. rewrite H, has_full_cons. split.
    + intros [[-> ->]|[Hne Hh]]; [by left|right; split; [congruence|by eauto]].
    + intros [[[= ->] ->]|[Hne (t2 & Ht2 & Hh)]]; [by left|]. right. split; [congruence|]. congruence.
  - split; [intros Hh; right; split; [congruence|done]|]. by intros [[? _]|[_ ?]]; [congruence|].
Qed.

Lemma drops_full ts x t k t' : ts !! slot x = Some t -> drops t k t' -> drops (TFull ts) (x :: k) (TFull (<[slot x := t']> ts)).
Proof.
  intros Ht H k' v'. pose proof (lookup_lt_Some _ _ _ Ht) as Hlt. destruct k' as [|y k'].
  { split; [|intros [_ Hf]]; [intros Hf|]; apply has_full_inv in Hf as (? & ? & ? & ? & _); discriminate. }
  rewrite has_full_insert by done. case_decide as E.
  - subst y. unfold drops in H. rewrite H, has_full_cons. split.
    + intros [Hne Hh]. split; [congruence|by eauto].
    + intros [Hne (t2 & Ht2 & Hh)]. split; congruence.
  - split; [intros Hh; split; [congruence|done]|by intros [_ ?]].
Qed.

(** *** Forks *)

(** What is left of a short node behind the digit [x] of its key. *)
Lemma short_rest p x a c : canon (TShort (p ++ x :: a) c) ->
  nibbles p /\ ((slot x < 16)%nat /\ canon (cons_short a c) \/ slot x = 16%nat /\ exists v, cons_short a c = TValue v /\ v <> []).
Proof.
  intros Hc. apply canon_short_inv in Hc as [(ns & v & Hk & Hn & -> & Hv)|(Hn & Hne & ts & -> & Hc)].
  - assert (hexterm (p ++ x :: a)) as Ht by (rewrite Hk; by exists ns). apply hexterm_prefix in Ht as [Hp Ht]; [|done].
    split; [done|]. apply hexterm_cons in Ht as [[Hx (ms & Hm & ->)]|[-> ->]].
    + left. split; [by apply slot_nibble|]. destruct (ms ++ [Byte.x10]) as [|z l] eqn:E; [by destruct ms|].
      cbn [cons_short]. rewrite <- E. by constructor.
    + right. split; [done|]. by exists v.
  - apply Forall_app in Hn as [Hp Ha]. apply list.Forall_cons in Ha as [Hx Ha]. split; [done|]. left.
    split; [by apply slot_nibble|]. destruct a as [|z a]; [done|]. cbn [cons_short]. by constructor.
Qed.

Lemma fork_canon x tx y ty : x <> y ->
  ((slot x < 16)%nat /\ canon tx \/ slot x = 16%nat /\ exists v, tx = TValue v /\ v <> []) ->
  ((slot y < 16)%nat /\ canon ty \/ slot y = 16%nat /\ exists v, ty = TValue v /\ v <> []) -> canon (fork x tx y ty).
Proof.
  intros Hne Hx Hy. assert (slot x <> slot y) as Hs by (intros ?; apply Hne; by apply slot_inj).
  assert (slot x < length no_children)%nat as Hlx by (unfold no_children; rewrite length_replicate; lia).
  assert (slot y < length (<[slot x := tx]> no_children))%nat as Hly by (rewrite length_insert; unfold no_children; rewrite length_replicate; lia).
  assert (forall n t, <[slot y := ty]> (<[slot x := tx]> no_children) !! n = Some t -> t <> TNil ->
    (slot y = n /\ ty = t) \/ (slot x = n /\ tx = t)) as Hlook.
  { intros n t Hn Ht. apply list_lookup_insert_Some in Hn as [(E & <- & _)|[_ Hn]]; [by left|].
    apply list_lookup_insert_Some in Hn as [(E & <- & _)|[_ Hn]]; [by right|].
    apply lookup_replicate in Hn as [-> _]. done. }
  constructor.
  - by rewrite !length_insert.
  - intros n t Hn Hlt Ht. destruct (Hlook n t Hn Ht) as [[E <-]|[E <-]].
    + destruct Hy as [[_ ?]|[? _]]; [done|lia].
    + destruct Hx as [[_ ?]|[? _]]; [done|lia].
  - intros t Hn Ht. destruct (Hlook _ t Hn Ht) as [[E <-]|[E <-]].
    + destruct Hy as [[? _]|[_ ?]]; [lia|done].
    + destruct Hx as [[? _]|[_ ?]]; [lia|done].
  - exists (slot x), (slot y), tx, ty. split; [done|]. split.
    { rewrite list_lookup_insert_ne by done. by apply list_lookup_insert_eq. }
    split; [by apply list_lookup_insert_eq|]. split.
    + destruct Hx as [[_ ?]|[_ (v & -> & _)]]; [by apply canon_not_nil|done].
    + destruct Hy as [[_ ?]|[_ (v & -> & _)]]; [by apply canon_not_nil|done].
Qed.

Lemma has_fork x tx y ty k v : x <> y -> (slot x < 17)%nat -> (slot y < 17)%nat ->
  has (fork x tx y ty) k v <-> (exists r, k = x :: r /\ has tx r v) \/ (exists r, k = y :: r /\ has ty r v).
Proof.
  intros Hne Hx Hy. unfold fork. destruct k as [|z k].
  { split; [intros H; apply has_full_inv in H as (? & ? & ? & ? & _); discriminate|by intros [(r & ? & _)|(r & ? & _)]]. }
  rewrite has_full_insert by (rewrite length_insert; unfold no_children; by rewrite length_replicate).
  destruct (decide (z = y)) as [->|Hzy].
  { split; [intros H; right; by eauto|]. intros [(r & [= ->] & _)|(r & [= ->] & H)]; [done|done]. }
  rewrite has_full_insert by (unfold no_children; by rewrite length_replicate). destruct (decide (z = x)) as [->|Hzx].
  - split; [intros H; left; by eauto|]. intros [(r & [= ->] & H)|(r & [= ->] & _)]; [done|done].
  - split.
    + intros H. apply has_full_cons in H as (t & Ht & Hh). apply lookup_replicate in Ht as [-> _]. by apply has_nil in Hh.
    + by intros [(r & [= -> ->] & H)|(r & [= -> ->] & H)].
Qed.

(** Setting a key that leaves a short node in the middle. *)
Lemma fork_ok p x a c y b v :
  canon (TShort (p ++ x :: a) c) -> hexterm (p ++ y :: b) -> v <> [] -> x <> y ->
  let t' := cons_short p (fork x (cons_short a c) y (cons_short b (TValue v))) in
  canon t' /\ sets (TShort (p ++ x :: a) c) (p ++ y :: b) v t'.
Proof.
  intros Hc Hk Hv Hne. destruct (short_rest _ _ _ _ Hc) as [Hp Hx].
  apply hexterm_prefix in Hk as [_ Hk]; [|done].
  assert ((slot y < 16)%nat /\ canon (cons_short b (TValue v)) \/ slot y = 16%nat /\ exists w, cons_short b (TValue v) = TValue w /\ w <> []) as Hy.
  { apply hexterm_cons in Hk as [[Hy (ms & Hm & ->)]|[-> ->]]; [left|right; split; [done|by exists v]].
    split; [by apply slot_nibble|]. destruct (ms ++ [Byte.x10]) as [|z l] eqn:E; [by destruct ms|]. cbn [cons_short]. rewrite <- E. by constructor. }
  pose proof (fork_canon x _ y _ Hne Hx Hy) as Hf. split.
  { destruct p as [|z p]; [done|]. cbn [cons_short]. by apply canon_ext. }
  intros k' v'. rewrite has_cons_short, has_short_inv.
  assert (slot x < 17 /\ slot y < 17)%nat as [Hsx Hsy] by (split; [destruct Hx as [[? _]|[? _]]; lia|destruct Hy as [[? _]|[? _]]; lia]).
  split.
  - intros (r & -> & H). apply has_fork in H as [(r' & -> & H)|(r' & -> & H)]; [| |done..].
    + right. split; [intros E; apply app_inv_head in E; congruence|]. apply has_cons_short, has_short_inv in H as (r2 & -> & H).
      replace (p ++ x :: a ++ r2) with ((p ++ x :: a) ++ r2) by by rewrite <- app_assoc. by apply has_short_app.
    + left. apply has_cons_short, has_short_inv in H as (r2 & -> & H). apply has_value_inv in H as [-> ->]. by rewrite app_nil_r.
  - intros [[-> ->]|[Hk' H]].
    + exists (y :: b). split; [done|]. apply has_fork; [done..|]. right. exists b. split; [done|]. apply has_cons_short, has_leaf.
    + apply has_short_inv in H as (r & -> & H). exists (x :: a ++ r). split; [by rewrite <- app_assoc|].
      apply has_fork; [done..|]. left. exists (a ++ r). split; [done|]. by apply has_cons_short, has_short_app.
Qed.

(** *** Removing the last child but one *)

Lemma has_single ts i t : length ts = 17%nat -> ts !! i = Some t -> (forall j t', ts !! j = Some t' -> j <> i -> t' = TNil) ->
  forall k v, has (TFull ts) k v <-> has (TShort [digit i] t) k v.
Proof.
  intros Hlen Hi Ho k v. pose proof (lookup_lt_Some _ _ _ Hi). rewrite has_full_inv, has_short_inv. split.
  - intros (x & u & r & -> & Hx & H'). destruct (decide (slot x = i)) as [<-|Hne].
    + exists r. rewrite digit_slot. split; [done|congruence].
    + rewrite (Ho _ _ Hx Hne) in H'. by apply has_nil in H'.
  - intros (r & -> & H'). exists (digit i), t, r. rewrite slot_digit by lia. done.
Qed.

Lemma canon_single i t : child_ok i t -> t <> TNil -> canon (join [digit i] t).
Proof.
  intros [?|[[Hi Hc]|[-> (v & -> & Hv)]]] Hne; [done| |].
  - apply canon_join; [|done..]. constructor; [|constructor]. apply slot_nibble. rewrite slot_digit; lia.
  - cbn [join]. by apply (canon_leaf []).
Qed.

Lemma full_delete ts x t t' i j ti tj : canon (TFull ts) -> ts !! slot x = Some t -> child_ok (slot x) t' -> 
  i <> j -> <[slot x := t']> ts !! i = Some ti -> <[slot x := t']> ts !! j = Some tj -> ti <> TNil -> tj <> TNil ->
  canon (TFull (<[slot x := t']> ts)).
Proof.
  intros Hc Ht Hok Hij Hi Hj Hni Hnj. pose proof (full_length _ Hc). constructor.
  - by rewrite length_insert.
  - intros n u Hn Hlt Hu. apply list_lookup_insert_Some in Hn as [(E & <- & _)|[_ Hn]].
    + subst n. destruct Hok as [?|[[_ ?]|[? _]]]; [done|done|lia].
    + destruct (canon_child _ _ _ Hc Hn) as [?|[[_ ?]|[? _]]]; [done|done|lia].
  - intros u Hn Hu. apply list_lookup_insert_Some in Hn as [(E & <- & _)|[_ Hn]].
    + destruct Hok as [?|[[? _]|[_ ?]]]; [done|lia|done].
    + destruct (canon_child _ _ _ Hc Hn) as [?|[[? _]|[_ ?]]]; [done|lia|done].
  - by exists i, j, ti, tj.
Qed.
