(* ===== verification/TrieNode.v ===== *)
(** * Nodes of Merkle Patricia tries (client/trie/node.go, node_enc.go, hasher.go)

    Nodes as they are held in memory, their encoding and decoding, and the hasher
    that collapses a node and its children to their hashes. *)

From Stdlib Require Import Strings.Byte.
From S2P Require Import Prelude.
From S2P Require Import Common.
From S2P Require Import Rlp.
From S2P Require Import Crypto.
From S2P Require Import Encoding.
From S2P Require Import TrieKeys.

(** ** Nodes *)

(** The hash of a node if it is known, and whether the node is to be written. *)
Record nodeFlag : Type := mkFlag { flag_hash : option (list byte); flag_dirty : bool }.

Inductive node : Type :=
| nilNode
| fullNode (Children : list node) (flags : nodeFlag)
| shortNode (Key : list byte) (Val : node) (flags : nodeFlag)
| hashNode (h : list byte)
| valueNode (v : list byte).

(** Nodes by structural induction, children included. *)
Lemma node_nested_ind (P : node -> Prop) :
  P nilNode -> (forall cs fl, Forall P cs -> P (fullNode cs fl)) -> (forall k v fl, P v -> P (shortNode k v fl)) ->
  (forall h, P (hashNode h)) -> (forall v, P (valueNode v)) -> forall n, P n.
Proof.
  intros Hn Hf Hs Hh Hv. fix IH 1. intros [|cs fl|k v fl|h|v]; [exact Hn| |apply Hs, IH|apply Hh|apply Hv].
  apply Hf. induction cs as [|c cs IHc]; constructor; [apply IH|exact IHc].
Qed.

(** [cache]; calling it on nil panics. *)
Definition node_cache (n : node) : Res (option (list byte) * bool) :=
  match n with
  | nilNode => Panic PanicNil
  | fullNode _ fl | shortNode _ _ fl => Ret (flag_hash fl, flag_dirty fl)
  | hashNode _ | valueNode _ => Ret (None, true)
  end.

(** [common.BytesToHash]: the last 32 bytes. *)
Definition BytesToHash (b : list byte) : Hash := be_value (drop (length b - 32) b).

(** ** Encoding *)

(** [encode]; a nil child is an empty string. *)
Fixpoint node_encode (n : node) : list byte :=
  match n with
  | nilNode => writeBytes []
  | fullNode cs _ => write_list (concat (map node_encode cs))
  | shortNode k v _ => write_list (writeBytes k ++ node_encode v)
  | hashNode h => writeBytes h
  | valueNode v => writeBytes v
  end.

(** ** Decoding *)

Inductive decode_error : Type :=
| ErrUnexpectedEOF
| RlpError (err : rlp_error)
| InvalidElements (count : Z)
| OversizedEmbedded (size : Z)
| InvalidStringSize (size : Z).

Definition hashLen : Z := 32.

Section decode.
(** The decoder of an embedded node. *)
Context (decode : list byte -> Res (node + decode_error)).

Definition decodeRef (buf : list byte) : Res ((node * list byte) + decode_error) :=
  let? r := Split buf in
  match r with
  | (_, _, _, Some err) => Ret (inr (RlpError err))
  | (kind, val, rest, None) =>
      match kind with
      | KList =>
          let size := zlen buf - zlen rest in
          if size >? hashLen then Ret (inr (OversizedEmbedded size))
          else
            let? r := decode buf in
            Ret (match r with inl n => inl (n, rest) | inr err => inr err end)
      | KString =>
          if zlen val =? 0 then Ret (inl (nilNode, rest))
          else if zlen val =? 32 then Ret (inl (hashNode val, rest))
          else Ret (inr (InvalidStringSize (zlen val)))
      | KByte => Ret (inr (InvalidStringSize (zlen val)))
      end
  end.

Definition decodeShort (hash : option (list byte)) (elems : list byte) : Res (node + decode_error) :=
  let? r := SplitString elems in
  match r with
  | (_, _, Some err) => Ret (inr (RlpError err))
  | (kbuf, rest, None) =>
      let flag := mkFlag hash false in
      let key := compactToHex kbuf in
      if hasTerm key then
        let? r := SplitString rest in
        match r with
        | (_, _, Some err) => Ret (inr (RlpError err))
        | (val, _, None) => Ret (inl (shortNode key (valueNode val) flag))
        end
      else
        let? r := decodeRef rest in
        Ret (match r with inl (n, _) => inl (shortNode key n flag) | inr err => inr err end)
  end.

(** The loop over the sixteen children, and what is left of the input. *)
Fixpoint decode_children (count : nat) (elems : list byte) : Res ((list node * list byte) + decode_error) :=
  match count with
  | O => Ret (inl ([], elems))
  | S count =>
      let? r := decodeRef elems in
      match r with
      | inr err => Ret (inr err)
      | inl (cld, rest) =>
          let? r := decode_children count rest in
          Ret (match r with inl (cs, rest) => inl (cld :: cs, rest) | inr err => inr err end)
      end
  end.

Definition decodeFull (hash : option (list byte)) (elems : list byte) : Res (node + decode_error) :=
  let? r := decode_children 16 elems in
  match r with
  | inr err => Ret (inr err)
  | inl (cs, elems) =>
      let? r := SplitString elems in
      match r with
      | (_, _, Some err) => Ret (inr (RlpError err))
      | (val, _, None) =>
          Ret (inl (fullNode (cs ++ [if zlen val >? 0 then valueNode val else nilNode]) (mkFlag hash false)))
      end
  end.
End decode.

(** [decodeNodeUnsafe].  An embedded node is shorter than the node around it. *)
Fixpoint decode_fuel (fuel : nat) (hash : option (list byte)) (buf : list byte) : Res (node + decode_error) :=
  match fuel with
  | O => NoFuel
  | S fuel =>
      if zlen buf =? 0 then Ret (inr ErrUnexpectedEOF)
      else
        let? r := SplitList buf in
        match r with
        | (_, _, Some err) => Ret (inr (RlpError err))
        | (elems, _, None) =>
            let? c := CountValues elems in
            let c := fst c in
            if c =? 2 then decodeShort (decode_fuel fuel None) hash elems
            else if c =? 17 then decodeFull (decode_fuel fuel None) hash elems
            else Ret (inr (InvalidElements c))
        end
  end.

Definition decodeNode (hash : option (list byte)) (buf : list byte) : Res (node + decode_error) :=
  decode_fuel (S (length buf)) hash buf.

Definition mustDecodeNode (hash : option (list byte)) (buf : list byte) : Res node :=
  let? r := decodeNode hash buf in
  match r with inl n => Ret n | inr _ => Panic PanicTrie end.

(** ** The hasher *)

Section hasher.
Context {K : Keccak}.

Definition hashData (data : list byte) : list byte := hash_bytes (keccak256 data).

(** [shortnodeToHash], [fullnodeToHash]: small nodes stay inside their parent. *)
Definition nodeToHash (n : node) (force : bool) : node :=
  let enc := node_encode n in
  if (zlen enc <? 32) && negb force then n else hashNode (hashData enc).

Definition set_flag_hash (h : option (list byte)) (n : node) : node :=
  match n with
  | fullNode cs fl => fullNode cs (mkFlag h (flag_dirty fl))
  | shortNode k v fl => shortNode k v (mkFlag h (flag_dirty fl))
  | n => n
  end.

(** The flags of the cached copy once the hash is known. *)
Definition cached_with (hashed cached : node) : node :=
  set_flag_hash (match hashed with hashNode hn => Some hn | _ => None end) cached.

Section children.
Context (hash : node -> Res (node * node)).

(** [hashFullNodeChildren]: the collapsed children and the cached ones; the
    seventeenth is left as it is. *)
Fixpoint hash_children (i : Z) (cs : list node) : Res (list node * list node) :=
  match cs with
  | [] => Ret ([], [])
  | c :: cs =>
      let? r := (if i <? 16 then match c with nilNode => Ret (valueNode [], nilNode) | _ => hash c end else Ret (c, c)) in
      let? rs := hash_children (i + 1) cs in
      Ret (fst r :: fst rs, snd r :: snd rs)
  end.
End children.

(** [hash]: the hash of the node (or the node, if small), and the node with the hash
    in its flags. *)
Fixpoint hasher_hash (n : node) (force : bool) : Res (node * node) :=
  let? c := node_cache n in
  match fst c with
  | Some h => Ret (hashNode h, n)
  | None =>
      match n with
      | shortNode k v fl =>
          let? ck := hexToCompact k in
          let? r := (match v with fullNode _ _ | shortNode _ _ _ => hasher_hash v false | _ => Ret (v, v) end) in
          let hashed := nodeToHash (shortNode ck (fst r) fl) force in
          Ret (hashed, cached_with hashed (shortNode k (snd r) fl))
      | fullNode cs fl =>
          let? r := hash_children (fun c => hasher_hash c false) 0 cs in
          let hashed := nodeToHash (fullNode (fst r) fl) force in
          Ret (hashed, cached_with hashed (fullNode (snd r) fl))
      | _ => Ret (n, n)
      end
  end.

(** [proofHash]: the collapsed node, and its hash if it is not small. *)
Definition proofHash (original : node) : Res (node * node) :=
  match original with
  | shortNode k v fl =>
      let? ck := hexToCompact k in
      let? r := (match v with fullNode _ _ | shortNode _ _ _ => hasher_hash v false | _ => Ret (v, v) end) in
      let sn := shortNode ck (fst r) fl in
      Ret (sn, nodeToHash sn false)
  | fullNode cs fl =>
      let? r := hash_children (fun c => hasher_hash c false) 0 cs in
      let fn := fullNode (fst r) fl in
      Ret (fn, nodeToHash fn false)
  | n => Ret (n, n)
  end.
End hasher.
