(* ===== verification/TrieStore.v ===== *)
(** * Tries in memory and in the database

    The encoding and the hash of a canonical tree, what it means for a tree to be
    stored, and the relation between the nodes an implementation holds, some of them
    only by their hash, and the tree they stand for. *)

From Stdlib Require Import Strings.Byte.
From S2P Require Import Prelude.
From S2P Require Import Common.
From S2P Require Import Rlp.
From S2P Require Import Crypto.
From S2P Require Import Encoding.
From S2P Require Import TrieKeys.
From S2P Require Import TrieTree.
From S2P Require Import TrieNode.

(** ** The encoding of a tree *)

Definition compact (k : list byte) : list byte := match hexToCompact k with Ret c => c | _ => [] end.

Definition short_or_full (t : tree) : bool := match t with TShort _ _ | TFull _ => true | _ => false end.

Section encoding.
Context {K : Keccak}.

(** A subtree in its parent: small ones as they are, others by their hash. *)
Definition collapse (t : tree) (i : item) : item :=
  if short_or_full t && negb (zlen (encode_item i) <? 32) then Str (hashData (encode_item i)) else i.

Fixpoint tree_item (t : tree) : item :=
  match t with
  | TNil => Str []
  | TValue v => Str v
  | TShort k t => Lst [Str (compact k); collapse t (tree_item t)]
  | TFull ts => Lst (map (fun t => collapse t (tree_item t)) ts)
  end.

Definition tree_enc (t : tree) : list byte := encode_item (tree_item t).
Definition tree_hash (t : tree) : list byte := hashData (tree_enc t).
Definition tree_ref (t : tree) : item := collapse t (tree_item t).

(** ** Sizes *)

Definition small (t : tree) : Prop := forall k v, has t k v -> zlen k <= 2 ^ 58 /\ zlen v <= 2 ^ 58.

Lemma small_short k t : small (TShort k t) -> small t.
Proof.
  intros H key v Hv. destruct (H (k ++ key) v) as [H1 H2]; [by constructor|]. rewrite zlen_app in H1.
  pose proof (zlen_nonneg k). split; [lia|done].
Qed.

Lemma small_child ts i t : small (TFull ts) -> (length ts <= 256)%nat -> ts !! i = Some t -> small t.
Proof.
  intros H Hlen Ht key v Hv. pose proof (lookup_lt_Some _ _ _ Ht).
  destruct (H (digit i :: key) v) as [H1 H2]; [apply has_full_cons; exists t; by rewrite slot_digit by lia|].
  rewrite zlen_cons in H1. split; [lia|done].
Qed.

Lemma length_hashData b : length (hashData b) = 32%nat.
Proof. unfold hashData, hash_bytes. apply length_be_bytes. Qed.

Lemma compact_ok k : (exists term ns, nibbles ns /\ k = hex_key term ns) ->
  hexToCompact k = Ret (compact k) /\ compactToHex (compact k) = k /\ zlen (compact k) <= zlen k + 1.
Proof.
  intros (term & ns & Hn & ->). unfold compact. rewrite hexToCompact_ok by done. split; [done|].
  split; [by apply compactToHex_ok|]. unfold zlen. rewrite length_compact_of by done. unfold hex_key. rewrite length_app.
  assert (length ns / 2 <= length ns)%nat by (apply Nat.Div0.div_le_upper_bound; lia). lia.
Qed.

Lemma canon_short_key k t : canon (TShort k t) -> exists term ns, nibbles ns /\ k = hex_key term ns.
Proof.
  intros [(ns & v & -> & Hn & _)|(Hn & _)]%canon_short_inv; [by exists true, ns|]. exists false, k.
  split; [done|]. unfold hex_key. by rewrite app_nil_r.
Qed.

Lemma short_key_len k t : canon (TShort k t) -> small (TShort k t) -> zlen k <= 2 ^ 58.
Proof.
  intros Hc Hs. destruct (canon_has _ Hc) as (key & v & Hv). destruct (Hs _ _ Hv) as [H _].
  apply has_short_inv in Hv as (r & -> & _). rewrite zlen_app in H. pose proof (zlen_nonneg r). lia.
Qed.

Lemma ref_len t : canon t -> zlen (encode_item (tree_ref t)) <= 33.
Proof.
  intros Hc. unfold tree_ref, collapse. destruct (zlen (encode_item (tree_item t)) <? 32) eqn:E; zbool.
  - rewrite andb_false_r. lia.
  - rewrite andb_true_r. assert (short_or_full t = true) as -> by by destruct Hc. cbn [encode_item].
    pose proof (length_hashData (encode_item (tree_item t))) as Hl. destruct (hashData _) as [|x [|y l]]; try done.
    unfold zlen in *. cbn [writeBytes]. rewrite length_app. unfold encodeStringHeader, zlen. rewrite Hl. done.
Qed.

Lemma value_len v : zlen v <= 2 ^ 58 -> zlen (encode_item (Str v)) <= 2 ^ 58 + 9.
Proof. intros Hv. pose proof (writeBytes_len v ltac:(unfold two64; lia)). cbn [encode_item]. lia. Qed.

Lemma concat_map_len {A} (f : A -> list byte) (l : list A) n : 0 <= n -> (forall x, x ∈ l -> zlen (f x) <= n) ->
  zlen (concat (map f l)) <= n * Z.of_nat (length l).
Proof.
  intros Hn. induction l as [|x l IH]; intros H; [cbn [length map concat]; rewrite zlen_nil; lia|]. cbn [map length]. rewrite concat_cons_len.
  pose proof (H x ltac:(by left)). pose proof (IH (fun y Hy => H y (list_elem_of_further _ _ _ Hy))). lia.
Qed.

Lemma child_len i t : child_ok i t -> small t -> zlen (encode_item (tree_ref t)) <= 2 ^ 58 + 9.
Proof.
  intros [->|[[_ Hc]|[_ (v & -> & _)]]] Hs; [by vm_compute|pose proof (ref_len t Hc); lia|].
  apply value_len. by destruct (Hs [] v (has_value v)).
Qed.

Lemma tree_len t : canon t -> small t -> zlen (tree_enc t) < 2 ^ 63.
Proof.
  intros Hc Hs. unfold tree_enc. destruct t as [|v|k t|ts]; [inversion Hc..| |].
  - pose proof (short_key_len _ _ Hc Hs) as Hk. destruct (compact_ok k (canon_short_key _ _ Hc)) as (_ & _ & Hl).
    cbn [tree_item encode_item map concat]. fold (tree_ref t). rewrite app_nil_r.
    pose proof (writeBytes_len (compact k) ltac:(unfold two64; lia)).
    assert (zlen (encode_item (tree_ref t)) <= 2 ^ 58 + 9).
    { apply canon_short_inv in Hc as [(ns & v & _ & _ & -> & _)|(_ & _ & ts & -> & Hc)].
      - apply value_len. by destruct (small_short _ _ Hs [] v (has_value v)).
      - pose proof (ref_len _ Hc). lia. }
    pose proof (write_list_len (writeBytes (compact k) ++ encode_item (tree_ref t))) as Hw. rewrite zlen_app in Hw.
    unfold two64 in Hw. lia.
  - pose proof (full_length _ Hc) as Hlen. cbn [tree_item encode_item]. rewrite map_map.
    pose proof (concat_map_len (fun x => encode_item (tree_ref x)) ts (2 ^ 58 + 9) ltac:(lia)) as Hcl.
    assert (zlen (concat (map (fun x => encode_item (tree_ref x)) ts)) <= (2 ^ 58 + 9) * Z.of_nat (length ts)) as Hb.
    { apply Hcl. intros x Hx. apply list_elem_of_lookup in Hx as [i Hx]. apply (child_len i); [by eapply canon_child|].
      eapply small_child; [done|lia|done]. }
    rewrite Hlen in Hb. unfold tree_ref in Hb at 1. pose proof (write_list_len (concat (map (fun x => encode_item (collapse x (tree_item x))) ts))) as Hw.
    unfold two64, tree_ref in *. lia.
Qed.
End encoding.

(** ** Trees in the database *)

(** [Reader.NodeBlob], for one trie; [None] is an error. *)
Class NodeStore : Type := { NodeBlob : list byte -> Hash -> option (list byte) }.

Section stored.
Context {K : Keccak} {N : NodeStore}.

(** A node that is not embedded is found under its path and its hash. *)
Definition kept (p : list byte) (t : tree) : Prop :=
  32 <= zlen (tree_enc t) -> NodeBlob p (BytesToHash (tree_hash t)) = Some (tree_enc t).

(** Everything below a node is. *)
Inductive kids : list byte -> tree -> Prop :=
| kids_leaf p k v : kids p (TShort k (TValue v))
| kids_ext p k ts : kept (p ++ k) (TFull ts) -> kids (p ++ k) (TFull ts) -> kids p (TShort k (TFull ts))
| kids_full p ts :
    (forall i t, ts !! i = Some t -> (i < 16)%nat -> t <> TNil -> kept (p ++ [digit i]) t) ->
    (forall i t, ts !! i = Some t -> (i < 16)%nat -> t <> TNil -> kids (p ++ [digit i]) t) ->
    kids p (TFull ts).

Definition stored (p : list byte) (t : tree) : Prop :=
  NodeBlob p (BytesToHash (tree_hash t)) = Some (tree_enc t) /\ kids p t.

(** The hash in a node's flags is its own, and only the root's is known if it is
    small; a clean node is stored, on its own or inside its parent. *)
Definition flag_ok (root : bool) (p : list byte) (fl : nodeFlag) (t : tree) : Prop :=
  match flag_hash fl with
  | Some h => h = tree_hash t /\ (root = true \/ 32 <= zlen (tree_enc t)) /\ (flag_dirty fl = false -> stored p t)
  | None => flag_dirty fl = true \/ root = false /\ zlen (tree_enc t) < 32
  end.

(** The hashes of all nodes are known that have one: the root and those that are not
    embedded. *)
Definition flag_known (root : bool) (fl : nodeFlag) (t : tree) : Prop :=
  flag_hash fl <> None <-> root = true \/ 32 <= zlen (tree_enc t).

Inductive sealed : bool -> node -> tree -> Prop :=
| sealed_nil root : sealed root nilNode TNil
| sealed_value root v : sealed root (valueNode v) (TValue v)
| sealed_hash root h t : sealed root (hashNode h) t
| sealed_short root k n t fl : sealed false n t -> flag_known root fl (TShort k t) -> sealed root (shortNode k n fl) (TShort k t)
| sealed_full root ns ts fl :
    (forall i n t, ns !! i = Some n -> ts !! i = Some t -> sealed false n t) ->
    flag_known root fl (TFull ts) -> sealed root (fullNode ns fl) (TFull ts).

(** The nodes at path [p] stand for the tree; below a node whose hash is known, so are
    all hashes. *)
Inductive loads : bool -> list byte -> node -> tree -> Prop :=
| loads_nil root p : loads root p nilNode TNil
| loads_value root p v : loads root p (valueNode v) (TValue v)
| loads_short root p k n t fl :
    loads false (p ++ k) n t -> flag_ok root p fl (TShort k t) -> (flag_hash fl <> None -> sealed false n t) ->
    loads root p (shortNode k n fl) (TShort k t)
| loads_full root p ns ts fl :
    length ns = length ts ->
    (forall i n t, ns !! i = Some n -> ts !! i = Some t -> loads false (p ++ [digit i]) n t) ->
    flag_ok root p fl (TFull ts) ->
    (flag_hash fl <> None -> forall i n t, ns !! i = Some n -> ts !! i = Some t -> sealed false n t) ->
    loads root p (fullNode ns fl) (TFull ts)
| loads_hash root p t :
    short_or_full t = true -> stored p t -> root = true \/ 32 <= zlen (tree_enc t) -> loads root p (hashNode (tree_hash t)) t.

Lemma flag_ok_new root p t : flag_ok root p (mkFlag None true) t.
Proof. by left. Qed.

Lemma flag_ok_embedded p t : zlen (tree_enc t) < 32 -> flag_ok false p (mkFlag None false) t.
Proof. intros H. by right. Qed.

(** ** Decoding what is stored *)

Section decoding.
Context (decode : list byte -> Res (node + decode_error)).

(** The decoder given is right on small encodings of the tree. *)
Definition decodes (p : list byte) (t : tree) : Prop := forall rest,
  zlen (tree_enc t) < 32 -> zlen (tree_enc t ++ rest) < 2 ^ 63 ->
  exists n, decode (tree_enc t ++ rest) = Ret (inl n) /\ loads false p n t /\ sealed false n t.

Lemma decodeRef_nil rest : zlen (encode_item (Str []) ++ rest) < 2 ^ 63 ->
  decodeRef decode (encode_item (Str []) ++ rest) = Ret (inl (nilNode, rest)).
Proof. intros Hl. unfold decodeRef. rewrite Split_item by done. done. Qed.

Lemma decodeRef_ok p t rest : canon t -> kept p t -> kids p t -> decodes p t ->
  zlen (encode_item (tree_ref t) ++ rest) < 2 ^ 63 ->
  exists n, decodeRef decode (encode_item (tree_ref t) ++ rest) = Ret (inl (n, rest)) /\ loads false p n t /\ sealed false n t.
Proof.
  intros Hc Hkept Hkids Hdec Hl. unfold decodeRef. rewrite Split_item by done. cbn [res_bind].
  assert (short_or_full t = true) as Hsf by by destruct Hc. unfold tree_ref, collapse in *. rewrite Hsf in *.
  destruct (zlen (encode_item (tree_item t)) <? 32) eqn:E; zbool; cbn [andb negb] in *.
  - fold (tree_enc t) in *. assert (item_kind (tree_item t) = KList) as -> by (destruct t as [| | |]; by inversion Hc).
    assert ((zlen (tree_enc t ++ rest) - zlen rest >? hashLen) = false) as ->.
    { rewrite zlen_app, Z.gtb_ltb. apply Z.ltb_ge. unfold hashLen. lia. }
    destruct (Hdec rest E Hl) as (n & -> & Hn). cbn [res_bind]. by exists n.
  - fold (tree_enc t) in *. change (hashData (tree_enc t)) with (tree_hash t) in *. cbn [item_kind item_content].
    pose proof (length_hashData (tree_enc t)) as Hh. change (hashData (tree_enc t)) with (tree_hash t) in Hh.
    assert (string_kind (tree_hash t) = KString) as ->.
    { unfold string_kind. rewrite decide_False; [done|]. intros (x & Hx & _). by rewrite Hx in Hh. }
    unfold zlen at 1 2. rewrite Hh. cbn. exists (hashNode (tree_hash t)). split; [done|]. split; [|constructor]. apply loads_hash; [done| |by right].
    split; [by apply Hkept|done].
Qed.

Lemma decode_children_ok p us : forall (start : nat) rest,
  (start + length us <= 16)%nat ->
  (forall i t, us !! i = Some t -> child_ok (start + i) t) ->
  (forall i t, us !! i = Some t -> t <> TNil ->
     let q := p ++ [digit (start + i)] in kept q t /\ kids q t /\ decodes q t) ->
  zlen (concat (map (fun t => encode_item (tree_ref t)) us) ++ rest) < 2 ^ 63 ->
  exists ns, decode_children decode (length us) (concat (map (fun t => encode_item (tree_ref t)) us) ++ rest) = Ret (inl (ns, rest)) /\
    length ns = length us /\
    forall i n t, ns !! i = Some n -> us !! i = Some t -> loads false (p ++ [digit (start + i)]) n t /\ sealed false n t.
Proof.
  induction us as [|u us IH]; intros start rest Hlen Hok Hst Hz; cbn [length decode_children map concat] in *.
  { exists []. by split_and!. }
  rewrite <- app_assoc in Hz |- *. pose proof (Hok 0%nat u eq_refl) as Hu. rewrite Nat.add_0_r in Hu.
  assert (exists n, decodeRef decode (encode_item (tree_ref u) ++ concat (map (fun t => encode_item (tree_ref t)) us) ++ rest) =
    Ret (inl (n, concat (map (fun t => encode_item (tree_ref t)) us) ++ rest)) /\ loads false (p ++ [digit start]) n u /\ sealed false n u) as (n & -> & Hn).
  { destruct (decide (u = TNil)) as [->|Hne].
    - exists nilNode. split; [by apply decodeRef_nil|split; constructor].
    - destruct (Hst 0%nat u eq_refl Hne) as (H1 & H2 & H3). rewrite Nat.add_0_r in H1, H2, H3.
      apply decodeRef_ok; [|done..]. destruct Hu as [?|[[_ ?]|[? _]]]; [done|done|lia]. }
  cbn [res_bind]. destruct (IH (S start) rest) as (ns & -> & Hl & Hns).
  - lia.
  - intros i t Hi. replace (S start + i)%nat with (start + S i)%nat by lia. by apply Hok.
  - intros i t Hi Hne. replace (S start + i)%nat with (start + S i)%nat by lia. by apply Hst.
  - rewrite (zlen_app (encode_item (tree_ref u))) in Hz. pose proof (zlen_nonneg (encode_item (tree_ref u))). lia.
  - cbn [res_bind]. exists (n :: ns). split; [done|]. split; [cbn; lia|]. intros [|i] n' t Hn' Ht; cbn in Hn', Ht.
    + rewrite Nat.add_0_r. congruence.
    + replace (start + S i)%nat with (S start + i)%nat by lia. by apply Hns.
Qed.
End decoding.

Lemma tree_enc_short k t : tree_enc (TShort k t) = encode_item (Lst [Str (compact k); tree_ref t]).
Proof. done. Qed.

Lemma tree_enc_full ts : tree_enc (TFull ts) = encode_item (Lst (map tree_ref ts)).
Proof. done. Qed.

Definition not_hash (n : node) : Prop := match n with hashNode _ => False | _ => True end.

Lemma enc_not_empty t rest : (zlen (tree_enc t ++ rest) =? 0) = false.
Proof.
  apply Z.eqb_neq. rewrite zlen_app. pose proof (encode_item_nonempty (tree_item t)) as He. fold (tree_enc t) in He.
  destruct (tree_enc t) as [|x l]; [done|]. rewrite zlen_cons. pose proof (zlen_nonneg rest). pose proof (zlen_nonneg l). lia.
Qed.

Lemma content_lt l : (length (concat (map encode_item l)) < length (encode_item (Lst l)))%nat.
Proof.
  cbn [encode_item]. unfold write_list. rewrite length_app. unfold listhead_encode, puthead. case_match; cbn; lia.
Qed.

Lemma tree_ref_value v : tree_ref (TValue v) = Str v.
Proof. done. Qed.

Lemma embedded_fuel t i l : i = tree_item t -> zlen (tree_enc t) < 32 -> tree_ref t ∈ l ->
  (length (tree_enc t) < length (encode_item (Lst l)))%nat.
Proof.
  intros -> Hs Hin. pose proof (content_lt l). assert (length (encode_item (tree_ref t)) <= length (concat (map encode_item l)))%nat.
  { apply list_elem_of_split in Hin as (l1 & l2 & ->). rewrite map_app, concat_app, length_app. cbn [map concat]. rewrite length_app. lia. }
  unfold tree_ref, collapse in *. fold (tree_enc t) in *. rewrite (proj2 (Z.ltb_lt _ _) Hs), andb_false_r in *. unfold tree_enc in *. lia.
Qed.

Lemma embedded_known t : zlen (tree_enc t) < 32 -> @None (list byte) <> None <-> false = true \/ 32 <= zlen (tree_enc t).
Proof. intros H. split; [done|]. intros [?|?]; [done|lia]. Qed.

Lemma decode_ok t : canon t -> small t -> forall root p hash rest fuel,
  kids p t -> flag_ok root p (mkFlag hash false) t -> (length (tree_enc t) < fuel)%nat -> zlen (tree_enc t ++ rest) < 2 ^ 63 ->
  (hash <> None <-> root = true \/ 32 <= zlen (tree_enc t)) ->
  exists n, decode_fuel fuel hash (tree_enc t ++ rest) = Ret (inl n) /\ loads root p n t /\ not_hash n /\ sealed root n t.
Proof.
  intros Hc. induction Hc as [ns v Hn Hv|k ts Hk Hne Hc IH|ts Hlen Hchild IH Hval Htwo]; intros Hs root p hash rest fuel Hkids Hfl Hfuel Hz Hkn;
    (destruct fuel as [|fuel]; [lia|]); cbn [decode_fuel].
  all: rewrite enc_not_empty.
  - rewrite tree_enc_short in Hz |- *. rewrite SplitList_item by done. cbn [res_bind map concat].
    rewrite tree_ref_value, app_nil_r.
    pose proof (content_lt [Str (compact (ns ++ [Byte.x10])); Str v]) as Hlt.
    set (elems := encode_item (Str (compact (ns ++ [Byte.x10]))) ++ encode_item (Str v)).
    assert (zlen elems < 2 ^ 63) as Hel.
    { unfold elems. rewrite zlen_app in Hz. pose proof (zlen_nonneg rest). cbn [map concat] in Hlt. rewrite app_nil_r in Hlt.
      rewrite tree_ref_value in Hz. unfold zlen in *. lia. }
    pose proof (CountValues_items [Str (compact (ns ++ [Byte.x10])); Str v]) as Hcv. cbn [map concat] in Hcv. rewrite app_nil_r in Hcv.
    unfold elems in *. clear elems. rewrite Hcv by done. cbn [res_bind fst length]. change (Z.of_nat 2 =? 2) with true. cbv iota. unfold decodeShort.
    destruct (compact_ok (ns ++ [Byte.x10])) as (_ & Hch & _); [by exists true, ns|].
    cbn [encode_item] in *. rewrite SplitString_writeBytes_lem by done. cbn [res_bind]. rewrite Hch, hasTerm_snoc. change (byte_val Byte.x10 =? 16) with true. cbv iota.
    pose proof (SplitString_writeBytes_lem v []) as Hsv. rewrite app_nil_r in Hsv. cbn [encode_item] in *. rewrite zlen_app in Hel.
    pose proof (zlen_nonneg (writeBytes (compact (ns ++ [Byte.x10])))). rewrite Hsv by lia. cbn [res_bind].
    eexists. split; [reflexivity|]. split; [|split; [done|constructor; [constructor|done]]]. apply loads_short; [constructor|done|constructor].
  - rewrite tree_enc_short in Hz |- *. rewrite SplitList_item by done. cbn [res_bind map concat]. rewrite app_nil_r.
    pose proof (content_lt [Str (compact k); tree_ref (TFull ts)]) as Hlt. cbn [map concat] in Hlt. rewrite app_nil_r in Hlt.
    assert (zlen (encode_item (Str (compact k)) ++ encode_item (tree_ref (TFull ts))) < 2 ^ 63) as Hel.
    { rewrite zlen_app in Hz. pose proof (zlen_nonneg rest). unfold zlen in *. lia. }
    pose proof (CountValues_items [Str (compact k); tree_ref (TFull ts)]) as Hcv. cbn [map concat] in Hcv. rewrite app_nil_r in Hcv.
    rewrite Hcv by done. cbn [res_bind fst length]. change (Z.of_nat 2 =? 2) with true. cbv iota. unfold decodeShort.
    destruct (compact_ok k) as (_ & Hch & _); [exists false, k; unfold hex_key; by rewrite app_nil_r|].
    cbn [encode_item] in *. rewrite SplitString_writeBytes_lem by done. cbn [res_bind]. rewrite Hch, hasTerm_nibbles by done.
    pose proof Hel as Hel2. rewrite zlen_app in Hel2. pose proof (zlen_nonneg (writeBytes (compact k))).
    inversion Hkids as [|p' k' ts' Hkept Hkids'|]; subst.
    destruct (decodeRef_ok (decode_fuel fuel None) (p ++ k) (TFull ts) []) as (n & Hd & Hl & Hse); [done..| |by rewrite app_nil_r; lia|].
    { intros rest' Hs' Hz'. edestruct (IH (small_short _ _ Hs)) as (n & Hd & Hl & _ & Hse); [..|by exists n]; [done|by apply flag_ok_embedded| |done|by apply embedded_known].
      pose proof (embedded_fuel (TFull ts) _ [Str (compact k); tree_ref (TFull ts)] eq_refl Hs' ltac:(by right; left)) as Hf.
      rewrite tree_enc_short in Hfuel. lia. }
    rewrite app_nil_r in Hd. rewrite Hd. cbn [res_bind]. eexists. split; [reflexivity|]. split; [by apply loads_short|]. split; [done|]. by constructor.
  - assert (canon (TFull ts)) as Hct by by constructor.
    rewrite tree_enc_full in Hz, Hfuel |- *. rewrite SplitList_item by done. cbn [res_bind].
    pose proof (content_lt (map tree_ref ts)) as Hlt.
    assert (zlen (concat (map encode_item (map tree_ref ts))) < 2 ^ 63) as Hel.
    { rewrite zlen_app in Hz. pose proof (zlen_nonneg rest). unfold zlen in *. lia. }
    rewrite CountValues_items by done. cbn [res_bind fst]. rewrite length_map, Hlen. change (Z.of_nat 17 =? 2) with false. change (Z.of_nat 17 =? 17) with true.
    cbv iota. unfold decodeFull.
    destruct (lookup_lt_is_Some_2 ts 16) as [last Hlast]; [lia|].
    pose proof (take_drop_middle ts 16 last Hlast) as Hts. rewrite (drop_ge ts 17) in Hts by lia.
    assert (length (take 16 ts) = 16%nat) as Hl16 by (rewrite length_take; lia).
    rewrite map_map in Hel |- *.
    assert (concat (map (fun x => encode_item (tree_ref x)) ts) =
      concat (map (fun x => encode_item (tree_ref x)) (take 16 ts)) ++ encode_item (tree_ref last)) as Hcat.
    { transitivity (concat (map (fun x => encode_item (tree_ref x)) (take 16 ts ++ [last]))); [by rewrite Hts|].
      rewrite map_app, concat_app. cbn [map concat]. by rewrite app_nil_r. }
    rewrite Hcat in Hel |- *. inversion Hkids as [| |p' ts' Hkept Hkids']; subst.
    destruct (decode_children_ok (decode_fuel fuel None) p (take 16 ts) 0 (encode_item (tree_ref last))) as (cs & Hd & Hl & Hcs).
    + lia.
    + intros i t Hi. apply lookup_take_Some in Hi as [Hi _]. by apply (canon_child ts).
    + intros i t Hi Hne. apply lookup_take_Some in Hi as [Hi Hlt16]. cbn [Nat.add]. split_and!; [by apply Hkept|by apply Hkids'|].
      intros rest' Hs' Hz'. edestruct (IH i t Hi Hlt16 Hne) as (n & Hd & Hl & _ & Hse); [..|by exists n]; [eapply small_child; [done|lia|done]|by apply Hkids'|by apply flag_ok_embedded| |done|by apply embedded_known].
      pose proof (embedded_fuel t _ (map tree_ref ts) eq_refl Hs' ltac:(apply list_elem_of_In, in_map, list_elem_of_In, list_elem_of_lookup; by exists i)). lia.
    + done.
    + rewrite Hl16 in Hd. rewrite Hd. cbn [res_bind].
      assert (exists v, tree_ref last = Str v /\ last = if zlen v >? 0 then TValue v else TNil) as (v & Hr & Hv).
      { destruct (canon_child _ _ _ Hct Hlast) as [->|[[? _]|[_ (v & -> & Hv)]]]; [by exists []|lia|]. exists v. split; [done|].
        assert (zlen v >? 0 = true) as ->; [|done]. rewrite Z.gtb_ltb. apply Z.ltb_lt. destruct v; [done|]. rewrite zlen_cons.
        pose proof (zlen_nonneg v). lia. }
      rewrite Hr in Hel |- *. cbn [encode_item] in Hel |- *. pose proof (SplitString_writeBytes_lem v []) as Hsv. rewrite app_nil_r in Hsv.
      rewrite zlen_app in Hel. pose proof (zlen_nonneg (concat (map (fun x => encode_item (tree_ref x)) (take 16 ts)))).
      rewrite Hsv by lia. cbn [res_bind]. eexists. split; [reflexivity|].
      set (ns := cs ++ [if zlen v >? 0 then valueNode v else nilNode]).
      assert (forall i n t, ns !! i = Some n -> ts !! i = Some t -> loads false (p ++ [digit i]) n t /\ sealed false n t) as Hns.
      { intros i n t Hi Ht. destruct (decide (i < 16)%nat).
        - unfold ns in Hi. rewrite lookup_app_l in Hi by lia. apply (Hcs i); [done|]. by rewrite lookup_take_lt.
        - pose proof (lookup_lt_Some _ _ _ Ht). assert (i = 16%nat) as -> by lia. unfold ns in Hi. rewrite lookup_app_r in Hi by lia.
          rewrite Hl, Hl16 in Hi. cbn in Hi. injection Hi as <-. assert (t = last) as -> by congruence. rewrite Hv.
          destruct (zlen v >? 0); split; constructor. }
      split; [|split; [done|constructor; [|done]; intros i n t Hi Ht; by apply (Hns i)]].
      apply loads_full; [|intros i n t Hi Ht; by apply Hns|done|intros _ i n t Hi Ht; by apply (Hns i)].
      unfold ns. rewrite length_app, Hl, Hl16. cbn. lia.
Qed.
End stored.
