(* ===== verification/Trie.v ===== *)
(** * Merkle Patricia tries (client/trie/trie.go, tracer.go, trie_reader.go)

    Reading, writing and deleting keys of a trie whose nodes are loaded from a
    database as they are needed, with the tracer of what was loaded, inserted and
    deleted.  Every step down either follows a non-empty part of the key or loads a
    node, so twice the length of the key bounds the depth of the recursion. *)

From Stdlib Require Import Strings.Byte.
From S2P Require Import Prelude.
From S2P Require Import Common.
From S2P Require Import Rlp.
From S2P Require Import Crypto.
From S2P Require Import StateObject.
From S2P Require Import Encoding.
From S2P Require Import TrieKeys.
From S2P Require Import TrieTree.
From S2P Require Import TrieNode.
From S2P Require Import TrieStore.

(** ** The tracer *)

Record tracer : Type := mkTracer {
  tr_inserts : gset (list byte);
  tr_deletes : gset (list byte);
  tr_accessList : gmap (list byte) (list byte)
}.

Definition newTracer : tracer := mkTracer ∅ ∅ ∅.

Definition onRead (path val : list byte) (t : tracer) : tracer :=
  mkTracer (tr_inserts t) (tr_deletes t) (<[path := val]> (tr_accessList t)).

Definition onInsert (path : list byte) (t : tracer) : tracer :=
  if bool_decide (path ∈ tr_deletes t) then mkTracer (tr_inserts t) (tr_deletes t ∖ {[path]}) (tr_accessList t)
  else mkTracer (tr_inserts t ∪ {[path]}) (tr_deletes t) (tr_accessList t).

Definition onDelete (path : list byte) (t : tracer) : tracer :=
  if bool_decide (path ∈ tr_inserts t) then mkTracer (tr_inserts t ∖ {[path]}) (tr_deletes t) (tr_accessList t)
  else mkTracer (tr_inserts t) (tr_deletes t ∪ {[path]}) (tr_accessList t).

(** ** Loading nodes *)

Inductive trie_error : Type := MissingNodeError (path : list byte) (hash : Hash).

Definition newFlag : nodeFlag := mkFlag None true.

(** Code that can fail: the error, or the result. *)
Definition tbind {A B} (m : GM tracer (A + trie_error)) (k : A -> GM tracer (B + trie_error)) : GM tracer (B + trie_error) :=
  let* r := m in match r with inl a => k a | inr err => gret (inr err) end.
Definition tret {A} (a : A) : GM tracer (A + trie_error) := gret (inl a).

Section trie.
Context {N : NodeStore}.

(** [trieReader.nodeBlob]. *)
Definition nodeBlob (path : list byte) (hash : Hash) : list byte + trie_error :=
  match NodeBlob path hash with
  | Some blob => if zlen blob =? 0 then inr (MissingNodeError path hash) else inl blob
  | None => inr (MissingNodeError path hash)
  end.

Definition resolveAndTrack (n prefix : list byte) : GM tracer (node + trie_error) :=
  match nodeBlob prefix (BytesToHash n) with
  | inr err => gret (inr err)
  | inl blob =>
      gput (onRead prefix blob) ;;;
      let* rn := gpure (mustDecodeNode (Some n) blob) in
      tret rn
  end.

Definition resolve (n : node) (prefix : list byte) : GM tracer (node + trie_error) :=
  match n with hashNode h => resolveAndTrack h prefix | n => tret n end.

(** ** Get

    The value (nil if there is none), the node with what was loaded, and whether
    something was. *)

Fixpoint trie_get (fuel : nat) (origNode : node) (key : list byte) (pos : nat) : GM tracer ((option (list byte) * node * bool) + trie_error) :=
  match fuel with
  | O => fun _ => NoFuel
  | S fuel =>
      match origNode with
      | nilNode => tret (None, nilNode, false)
      | valueNode v => tret (Some v, origNode, false)
      | shortNode nkey nval fl =>
          if bool_decide (length key - pos < length nkey)%nat || negb (bool_decide (nkey = take (length nkey) (drop pos key)))
          then tret (None, origNode, false)
          else
            tbind (trie_get fuel nval key (pos + length nkey)) (fun '(value, newnode, didResolve) =>
              tret (value, if didResolve : bool then shortNode nkey newnode fl else origNode, didResolve))
      | fullNode cs fl =>
          let* x := gpure (go_index key (Z.of_nat pos)) in
          let* child := gpure (go_index cs (byte_val x)) in
          tbind (trie_get fuel child key (pos + 1)) (fun '(value, newnode, didResolve) =>
            if didResolve : bool then
              let* cs := gpure (go_update cs (byte_val x) newnode) in
              tret (value, fullNode cs fl, didResolve)
            else tret (value, origNode, didResolve))
      | hashNode h =>
          tbind (resolveAndTrack h (take pos key)) (fun child =>
            tbind (trie_get fuel child key pos) (fun '(value, newnode, _) => tret (value, newnode, true)))
      end
  end.

(** ** Insert *)

Definition new_branch : list node := replicate 17 nilNode.

Fixpoint trie_insert (fuel : nat) (n : node) (prefix key : list byte) (value : node) : GM tracer ((bool * node) + trie_error) :=
  match fuel with
  | O => fun _ => NoFuel
  | S fuel =>
      match key with
      | [] =>
          match n with
          | valueNode v =>
              match value with
              | valueNode v' => tret (negb (bool_decide (v = v')), value)
              | _ => gpanic PanicTrie
              end
          | _ => tret (true, value)
          end
      | key0 :: key' =>
          match n with
          | shortNode nkey nval fl =>
              let matchlen := prefixLen key nkey in
              if bool_decide (matchlen = length nkey) then
                tbind (trie_insert fuel nval (prefix ++ take matchlen key) (drop matchlen key) value) (fun '(dirty, nn) =>
                  tret (if dirty : bool then (true, shortNode nkey nn newFlag) else (false, n)))
              else
                let* x := gpure (go_index nkey (Z.of_nat matchlen)) in
                tbind (trie_insert fuel nilNode (prefix ++ take (matchlen + 1) nkey) (drop (matchlen + 1) nkey) nval) (fun '(_, nx) =>
                let* branch := gpure (go_update new_branch (byte_val x) nx) in
                let* y := gpure (go_index key (Z.of_nat matchlen)) in
                tbind (trie_insert fuel nilNode (prefix ++ take (matchlen + 1) key) (drop (matchlen + 1) key) value) (fun '(_, ny) =>
                let* branch := gpure (go_update branch (byte_val y) ny) in
                if bool_decide (matchlen = 0%nat) then tret (true, fullNode branch newFlag)
                else
                  gput (onInsert (prefix ++ take matchlen key)) ;;;
                  tret (true, shortNode (take matchlen key) (fullNode branch newFlag) newFlag)))
          | fullNode cs fl =>
              let* child := gpure (go_index cs (byte_val key0)) in
              tbind (trie_insert fuel child (prefix ++ [key0]) key' value) (fun '(dirty, nn) =>
                if dirty : bool then
                  let* cs := gpure (go_update cs (byte_val key0) nn) in
                  tret (true, fullNode cs newFlag)
                else tret (false, n))
          | nilNode =>
              gput (onInsert prefix) ;;;
              tret (true, shortNode key value newFlag)
          | hashNode h =>
              tbind (resolveAndTrack h prefix) (fun rn =>
              tbind (trie_insert fuel rn prefix key value) (fun '(dirty, nn) =>
                tret (if dirty : bool then (true, nn) else (false, rn))))
          | valueNode _ => gpanic PanicTrie
          end
      end
  end.

(** ** Delete *)

Definition is_nil (n : node) : bool := match n with nilNode => true | _ => false end.

(** The loop that looks for the only child left: its index, [-1] without one, [-2]
    with more. *)
Fixpoint single_child (i pos : Z) (cs : list node) : Z :=
  match cs with
  | [] => pos
  | c :: cs =>
      if is_nil c then single_child (i + 1) pos cs
      else if pos =? -1 then single_child (i + 1) i cs
      else -2
  end.

Fixpoint trie_delete (fuel : nat) (n : node) (prefix key : list byte) : GM tracer ((bool * node) + trie_error) :=
  match fuel with
  | O => fun _ => NoFuel
  | S fuel =>
      match n with
      | shortNode nkey nval fl =>
          let matchlen := prefixLen key nkey in
          if bool_decide (matchlen < length nkey)%nat then tret (false, n)
          else if bool_decide (matchlen = length key) then
            gput (onDelete prefix) ;;;
            tret (true, nilNode)
          else
            tbind (trie_delete fuel nval (prefix ++ take (length nkey) key) (drop (length nkey) key)) (fun '(dirty, child) =>
              if dirty : bool then
                match child with
                | shortNode ckey cval _ =>
                    gput (onDelete (prefix ++ nkey)) ;;;
                    tret (true, shortNode (nkey ++ ckey) cval newFlag)
                | _ => tret (true, shortNode nkey child newFlag)
                end
              else tret (false, n))
      | fullNode cs fl =>
          let* key0 := gpure (go_index key 0) in
          let* c := gpure (go_index cs (byte_val key0)) in
          tbind (trie_delete fuel c (prefix ++ [key0]) (drop 1 key)) (fun '(dirty, nn) =>
            if dirty : bool then
              let* cs := gpure (go_update cs (byte_val key0) nn) in
              if negb (is_nil nn) then tret (true, fullNode cs newFlag)
              else
                let pos := single_child 0 (-1) cs in
                if pos >=? 0 then
                  let* child := gpure (go_index cs pos) in
                  let one_nibble := tret (true, shortNode [byte_of_Z pos] child newFlag) in
                  if negb (pos =? 16) then
                    tbind (resolve child (prefix ++ [byte_of_Z pos])) (fun cnode =>
                      match cnode with
                      | shortNode ckey cval _ =>
                          gput (onDelete (prefix ++ [byte_of_Z pos])) ;;;
                          tret (true, shortNode (byte_of_Z pos :: ckey) cval newFlag)
                      | _ => one_nibble
                      end)
                  else one_nibble
                else tret (true, fullNode cs newFlag)
            else tret (false, n))
      | valueNode _ => tret (true, nilNode)
      | nilNode => tret (false, nilNode)
      | hashNode h =>
          tbind (resolveAndTrack h prefix) (fun rn =>
          tbind (trie_delete fuel rn prefix key) (fun '(dirty, nn) =>
            tret (if dirty : bool then (true, nn) else (false, rn))))
      end
  end.

(** ** The trie *)

Record Trie : Type := mkTrie { trie_root : node; trie_unhashed : Z; trie_tracer : tracer }.

Definition trie_fuel (k : list byte) : nat := (2 * length k + 2)%nat.

(** Running an operation with the tracer of the trie. *)
Definition on_tracer {A} (m : GM tracer A) : GM Trie A :=
  gzoom trie_tracer (fun tr t => mkTrie (trie_root t) (trie_unhashed t) tr) m.
Definition set_root (n : node) (t : Trie) : Trie := mkTrie n (trie_unhashed t) (trie_tracer t).
Definition add_unhashed (t : Trie) : Trie := mkTrie (trie_root t) (trie_unhashed t + 1) (trie_tracer t).

Definition Trie_Get (key : list byte) : GM Trie (option (list byte) + trie_error) :=
  let k := keybytesToHex key in
  let* root := gget trie_root in
  let* r := on_tracer (trie_get (trie_fuel k) root k 0) in
  match r with
  | inl (value, newroot, didResolve) =>
      (if didResolve : bool then gput (set_root newroot) else gret tt) ;;;
      gret (inl value)
  | inr err => gret (inr err)
  end.

(** [Update]; the result is the error. *)
Definition Trie_Update (key value : list byte) : GM Trie (option trie_error) :=
  gput add_unhashed ;;;
  let k := keybytesToHex key in
  let* root := gget trie_root in
  let* r := on_tracer (if negb (zlen value =? 0) then trie_insert (trie_fuel k) root [] k (valueNode value)
                       else trie_delete (trie_fuel k) root [] k) in
  match r with
  | inl (_, n) => gput (set_root n) ;;; gret None
  | inr err => gret (Some err)
  end.

Definition Trie_Delete (key : list byte) : GM Trie (option trie_error) :=
  gput add_unhashed ;;;
  let k := keybytesToHex key in
  let* root := gget trie_root in
  let* r := on_tracer (trie_delete (trie_fuel k) root [] k) in
  match r with
  | inl (_, n) => gput (set_root n) ;;; gret None
  | inr err => gret (Some err)
  end.

(** [New] with the root hash [root]. *)
Definition Trie_New (root : Hash) : Res (Trie + trie_error) :=
  let t := mkTrie nilNode 0 newTracer in
  if negb (root =? 0) && negb (root =? EmptyRootHash) then
    match resolveAndTrack (hash_bytes root) [] (trie_tracer t) with
    | Ret (inl n, tr) => Ret (inl (mkTrie n 0 tr))
    | Ret (inr err, _) => Ret (inr err)
    | Panic p => Panic p
    | NoFuel => NoFuel
    end
  else Ret (inl t).
End trie.

(** [Hash]: hash the root, and keep the node with what was hashed.  With more than a
    hundred changes the children of the root are hashed in parallel, each into its
    own slot. *)
Definition Trie_Hash {K : Keccak} : GM Trie Hash :=
  let* root := gget trie_root in
  match root with
  | nilNode => gret EmptyRootHash
  | _ =>
      let* r := gpure (hasher_hash root true) in
      let '(hashed, cached) := r in
      gput (fun t => mkTrie cached 0 (trie_tracer t)) ;;;
      match hashed with
      | hashNode h => gret (BytesToHash h)
      | _ => gpanic PanicTrie
      end
  end.

(** [Reset]. *)
Definition Trie_Reset : GM Trie unit := gput (fun _ => mkTrie nilNode 0 newTracer).
