(* ===== verification/TrieSpec.v ===== *)
(** * The operations of tries on the trees they stand for

    Reading, inserting and deleting at nodes that stand for a canonical tree: what
    they answer, and that the nodes they return stand for the canonical tree of the
    changed map, whatever was loaded from the database meanwhile. *)

From Stdlib Require Import Strings.Byte.
From S2P Require Import Prelude.
From S2P Require Import Common.
From S2P Require Import Rlp.
From S2P Require Import Crypto.
From S2P Require Import Encoding.
From S2P Require Import TrieKeys.
From S2P Require Import TrieTree.
From S2P Require Import TrieNode.
From S2P Require Import TrieStore.
From S2P Require Import Trie.

(** Code that returns a result, without an error. *)
Definition twp {A} (m : GM tracer (A + trie_error)) (Q : A -> tracer -> Prop) (s : tracer) : Prop :=
  wp no_panic m (fun r s' => match r with inl a => Q a s' | inr _ => False end) s.

Lemma twp_tret {A} (a : A) (Q : A -> tracer -> Prop) s : Q a s -> twp (tret a) Q s.
Proof. intros H. by apply wp_gret. Qed.

Lemma twp_tbind {A B} (m : GM tracer (A + trie_error)) (k : A -> GM tracer (B + trie_error)) Q s :
  twp m (fun a s' => twp (k a) Q s') s -> twp (tbind m k) Q s.
Proof.
  intros H. apply wp_gbind. eapply wp_mono; [exact H|]. by intros [a|err] s'.
Qed.

Lemma twp_gbind {A B} (m : GM tracer A) (k : A -> GM tracer (B + trie_error)) Q s :
  wp no_panic m (fun a s' => twp (k a) Q s') s -> twp (gbind m k) Q s.
Proof. intros H. by apply wp_gbind. Qed.

Lemma twp_gpure {A B} (r : Res A) a (k : A -> GM tracer (B + trie_error)) Q s :
  r = Ret a -> twp (k a) Q s -> twp (gbind (gpure r) k) Q s.
Proof. intros -> H. exact H. Qed.

Lemma twp_mono {A} (m : GM tracer (A + trie_error)) (P Q : A -> tracer -> Prop) s :
  twp m P s -> (forall a s', P a s' -> Q a s') -> twp m Q s.
Proof. intros H HPQ. eapply wp_mono; [exact H|]. intros [a|err] s'; [apply HPQ|done]. Qed.

Lemma go_index_lookup {A} (l : list A) (i : nat) x : l !! i = Some x -> go_index l (Z.of_nat i) = Ret x.
Proof.
  intros H. pose proof (lookup_lt_Some _ _ _ H). destruct (go_index_ok l (Z.of_nat i)) as (y & -> & Hy); [unfold zlen; lia|].
  rewrite Nat2Z.id in Hy. congruence.
Qed.

Lemma go_index_slot {A} (l : list A) b x : l !! slot b = Some x -> go_index l (byte_val b) = Ret x.
Proof.
  intros H. pose proof (byte_val_range b). replace (byte_val b) with (Z.of_nat (slot b)) by (unfold slot; lia). by apply go_index_lookup.
Qed.

Lemma go_update_slot {A} (l : list A) b x : (slot b < length l)%nat -> go_update l (byte_val b) x = Ret (<[slot b := x]> l).
Proof. intros H. pose proof (byte_val_range b). apply go_update_ok. unfold zlen, slot in *. lia. Qed.

Section spec.
Context {K : Keccak} {N : NodeStore}.

Definition hash_steps (n : node) : nat := match n with hashNode _ => 2 | _ => 1 end.

Lemma resolve_ok root p t tr : canon t -> small t -> stored p t -> root = true \/ 32 <= zlen (tree_enc t) ->
  twp (resolveAndTrack (tree_hash t) p) (fun n _ => loads root p n t /\ not_hash n /\ sealed root n t) tr.
Proof.
  intros Hc Hs Hst Hr. unfold resolveAndTrack, nodeBlob. rewrite (proj1 Hst). pose proof (enc_not_empty t []) as He. rewrite app_nil_r in He. rewrite He.
  apply twp_gbind, wp_gput. pose proof (tree_len t Hc Hs) as Hz.
  destruct (decode_ok t Hc Hs root p (Some (tree_hash t)) [] (S (length (tree_enc t)))) as (n & Hd & Hl & Hn & Hse).
  - apply Hst.
  - done.
  - lia.
  - by rewrite app_nil_r.
  - by split.
  - rewrite app_nil_r in Hd. apply (twp_gpure _ n); [|by apply twp_tret].
    unfold mustDecodeNode, decodeNode. by rewrite Hd.
Qed.

Lemma sub_hash t k : short_or_full t = true -> sub t k -> canon t.
Proof. by intros Hs [[_ [->|(v & -> & _)]]|[_ [->|?]]]. Qed.

Lemma loads_nil_iff root p n t : loads root p n t -> n = nilNode <-> t = TNil.
Proof. by destruct 1 as [| | | |root p t Hs _]; [..|split; [|intros ->]]. Qed.

(** ** Get *)

Lemma trie_get_ok fuel : forall root origNode t key pos tr,
  loads root (take pos key) origNode t -> sub t (drop pos key) -> small t -> (pos <= length key)%nat ->
  (2 * (length key - pos) + hash_steps origNode <= fuel)%nat ->
  twp (trie_get fuel origNode key pos)
    (fun '(value, newnode, _) _ => (forall v, value = Some v <-> has t (drop pos key) v) /\ loads root (take pos key) newnode t /\
       (sealed root origNode t -> sealed root newnode t)) tr.
Proof.
  induction fuel as [|fuel IH]; intros root n t key pos tr Hl Hsub Hs Hpos Hf; [destruct n; cbn in Hf; lia|].
  cbn [trie_get]. inversion Hl as [r p|r p v|r p k c t' fl Hc Hfl Hse|r p ns ts fl Hlen Hns Hfl Hse|r p t' Hsf Hst Hbig]; subst.
  - apply twp_tret. split; [|done]. intros v. split; [done|]. by intros ?%has_nil.
  - apply twp_tret. split; [|done]. intros w. rewrite has_value_inv. destruct Hsub as [[-> _]|[Hk [?|Hc]]]; [|done|inversion Hc].
    split; [by intros [= <-]|by intros [_ ->]].
  - assert (canon (TShort k t')) as Hct by (destruct Hsub as [[_ [?|(? & ? & _)]]|[_ [?|?]]]; done).
    destruct (bool_decide _ || _) eqn:E.
    + apply twp_tret. split; [|done]. intros v. split; [done|]. intros (r & Hr & _)%has_short_inv. exfalso.
      apply (f_equal length) in Hr as Hlr. rewrite length_drop, length_app in Hlr.
      rewrite bool_decide_eq_false_2, orb_false_l, Hr, take_app_length in E by lia. by rewrite bool_decide_eq_true_2 in E.
    + apply orb_false_iff in E as [E1 E2]. apply bool_decide_eq_false_1 in E1. apply negb_false_iff, bool_decide_eq_true_1 in E2.
      assert (drop pos key = k ++ drop (pos + length k) key) as Hd.
      { rewrite <- (take_drop (length k) (drop pos key)) at 1. rewrite <- E2. by rewrite drop_drop. }
      assert (take (pos + length k) key = take pos key ++ k) as Ht by (rewrite <- take_take_drop; by rewrite <- E2).
      rewrite Hd in Hsub. apply twp_tbind. eapply twp_mono.
      * apply (IH false c t' key (pos + length k)%nat); [by rewrite Ht| |by eapply small_short|lia|].
        { eapply sub_short; [done|]. destruct Hsub as [[_ [?|(? & ? & _)]]|[? _]]; done. }
        assert (k <> []) as Hk0 by (apply canon_short_inv in Hct as [(ns & v & -> & _)|(_ & ? & _)]; [by destruct ns|done]).
        destruct k; [done|]. cbn [length] in *. destruct c; cbn [hash_steps] in *; lia.
      * intros [[v n'] b] tr' (Hv & Hn' & Hsn). apply twp_tret. rewrite Hd. split; [intros w; rewrite has_short_app; apply Hv|].
        destruct b; [|done]. split; [apply loads_short; [by rewrite <- Ht|done|by auto]|].
        inversion 1; subst. constructor; auto.
  - assert (canon (TFull ts)) as Hct by (destruct Hsub as [[_ [?|(? & ? & _)]]|[_ [?|?]]]; done).
    assert (hexterm (drop pos key)) as Hk by (destruct Hsub as [[_ [?|(? & ? & _)]]|[? _]]; done).
    destruct (drop pos key) as [|x k] eqn:Hd; [by apply hexterm_nil in Hk|].
    assert (key !! pos = Some x) as Hx by (rewrite <- (Nat.add_0_r pos), <- lookup_drop, Hd; done).
    assert (drop (pos + 1) key = k) as Hd1 by (rewrite <- drop_drop, Hd; done).
    assert (take (pos + 1) key = take pos key ++ [x]) as Ht1 by (rewrite Nat.add_1_r; by apply take_S_r).
    pose proof (lookup_lt_Some _ _ _ Hx). destruct (sub_full ts x k Hct Hk) as (t & Ht & Hsubt).
    pose proof (full_length _ Hct) as Hl17. pose proof (lookup_lt_Some _ _ _ Ht).
    destruct (lookup_lt_is_Some_2 ns (slot x)) as [c Hc]; [lia|].
    apply (twp_gpure _ x); [by apply go_index_lookup|]. apply (twp_gpure _ c); [by apply go_index_slot|].
    pose proof (Hns _ _ _ Hc Ht) as Hlc. rewrite digit_slot in Hlc. apply twp_tbind. eapply twp_mono.
    + apply (IH false c t key (pos + 1)%nat); [by rewrite Ht1|by rewrite Hd1|eapply small_child; [done|lia|done]|lia|].
      destruct c; cbn [hash_steps] in *; lia.
    + rewrite Hd1, Ht1. intros [[v n'] b] tr' (Hv & Hn' & Hsn).
      assert (forall w, v = Some w <-> has (TFull ts) (x :: k) w) as Hv'.
      { intros w. rewrite Hv, has_full_cons. split; [by eauto|]. intros (t2 & Ht2 & ?). congruence. }
      destruct b; [|by apply twp_tret].
      apply (twp_gpure _ (<[slot x := n']> ns)); [apply go_update_slot; lia|]. apply twp_tret. split; [done|].
      assert ((forall i m u, ns !! i = Some m -> ts !! i = Some u -> sealed false m u) ->
        forall i m u, <[slot x := n']> ns !! i = Some m -> ts !! i = Some u -> sealed false m u) as Hkeep.
      { intros Hall i m u Hm Hu. apply list_lookup_insert_Some in Hm as [(<- & <- & _)|[_ Hm]]; [|by apply (Hall i)].
        assert (u = t) as -> by congruence. apply Hsn. by apply (Hall (slot x)). }
      split; [apply loads_full; [by rewrite length_insert| |done|intros Hfk; exact (Hkeep (Hse Hfk))]|inversion 1; subst; constructor; [by apply Hkeep|done]]. intros i m u Hm Hu.
      apply list_lookup_insert_Some in Hm as [(<- & <- & _)|[_ Hm]]; [|by apply (Hns i)].
      rewrite digit_slot. assert (u = t) as -> by congruence. done.
  - assert (canon t) as Hct by by eapply sub_hash.
    apply twp_tbind. eapply twp_mono; [by apply (resolve_ok root)|]. intros n tr' (Hln & Hnh & Hsen).
    apply twp_tbind. eapply twp_mono.
    + apply (IH root n t key pos); [done..|]. destruct n; cbn [hash_steps] in *; try lia. done.
    + intros [[v n'] b] tr2 (Hv & Hn' & Hsn). apply twp_tret. split_and!; auto.
Qed.

(** ** Insert *)

Lemma loads_new_short root p k n t : loads false (p ++ k) n t -> loads root p (shortNode k n newFlag) (TShort k t).
Proof. intros H. apply loads_short; [done|apply flag_ok_new|done]. Qed.

Lemma insert_nil_ok fuel prefix key c tc tr : loads false (prefix ++ key) c tc ->
  twp (trie_insert (S fuel) nilNode prefix key c) (fun '(_, n) _ => loads false prefix n (cons_short key tc)) tr.
Proof.
  intros Hc. cbn [trie_insert]. destruct key as [|x key]; [apply twp_tret; by rewrite app_nil_r in Hc|].
  apply twp_gbind, wp_gput, twp_tret. by apply loads_new_short.
Qed.

Lemma loads_fork root p x nx tx y ny ty : x <> y -> loads false (p ++ [x]) nx tx -> loads false (p ++ [y]) ny ty ->
  loads root p (fullNode (<[slot y := ny]> (<[slot x := nx]> new_branch)) newFlag) (fork x tx y ty).
Proof.
  intros Hne Hx Hy. apply loads_full; [|intros i n t Hn Ht|apply flag_ok_new|done].
  { rewrite !length_insert. unfold new_branch, no_children. by rewrite !length_replicate. }
  apply list_lookup_insert_Some in Hn as [(<- & <- & _)|[Hi Hn]].
  { rewrite digit_slot. apply list_lookup_insert_Some in Ht as [(_ & <- & _)|[? _]]; done. }
  rewrite list_lookup_insert_ne in Ht by done. apply list_lookup_insert_Some in Hn as [(<- & <- & _)|[Hi' Hn]].
  { rewrite digit_slot. apply list_lookup_insert_Some in Ht as [(_ & <- & _)|[? _]]; done. }
  rewrite list_lookup_insert_ne in Ht by done. apply lookup_replicate in Hn as [-> _], Ht as [-> _]. constructor.
Qed.

(** Where a key leaves a short node. *)
Lemma split_keys key k c : canon (TShort k c) -> hexterm key -> prefixLen key k <> length k ->
  exists p x a y b, k = p ++ x :: a /\ key = p ++ y :: b /\ x <> y /\ prefixLen key k = length p.
Proof.
  intros Hc Hk Hm. destruct (prefixLen_split key k) as (p & b & a & -> & -> & Hl & Hd). rewrite Hl in Hm.
  destruct a as [|x a]; [rewrite app_nil_r in Hm; done|]. destruct b as [|y b].
  - exfalso. rewrite app_nil_r in Hk. destruct (short_rest _ _ _ _ Hc) as [Hp _]. destruct Hk as (ns & _ & ->).
    apply Forall_app in Hp as [_ Hp]. apply list.Forall_cons in Hp as [Hp _]. by destruct term_not_nibble.
  - exists p, x, a, y, b. done.
Qed.

Lemma take_snoc_middle {A} (p : list A) x a : take (length p + 1) (p ++ x :: a) = p ++ [x].
Proof. rewrite take_app_add'; [|done]. by rewrite ?take_0. Qed.

Lemma drop_snoc_middle {A} (p : list A) x a : drop (length p + 1) (p ++ x :: a) = a.
Proof. by rewrite drop_app_add'. Qed.

Lemma canon_hexterm_leaf k v : hexterm k -> v <> [] -> canon (TShort k (TValue v)).
Proof. intros (ns & Hn & ->) Hv. by constructor. Qed.

Definition insert_post (root : bool) (prefix : list byte) (t : tree) (key v : list byte) (r : bool * node) (_ : tracer) : Prop :=
  exists t', loads root prefix (snd r) t' /\ sub t' key /\ sets t key v t' /\ t' <> TNil /\ (fst r = false -> t' = t).

(** Splitting a short node. *)
Lemma insert_split_ok fuel root prefix p x a c tc y b v tr :
  canon (TShort (p ++ x :: a) tc) -> hexterm (p ++ y :: b) -> v <> [] -> x <> y ->
  loads false (prefix ++ p ++ x :: a) c tc -> small tc ->
  twp (tbind (trie_insert (S fuel) nilNode (prefix ++ take (length p + 1) (p ++ x :: a)) (drop (length p + 1) (p ++ x :: a)) c) (fun '(_, nx) =>
       let* branch := gpure (go_update new_branch (byte_val x) nx) in
       let* y' := gpure (go_index (p ++ y :: b) (Z.of_nat (length p))) in
       tbind (trie_insert (S fuel) nilNode (prefix ++ take (length p + 1) (p ++ y :: b)) (drop (length p + 1) (p ++ y :: b)) (valueNode v)) (fun '(_, ny) =>
       let* branch := gpure (go_update branch (byte_val y') ny) in
       if bool_decide (length p = 0%nat) then tret (true, fullNode branch newFlag)
       else
         gput (onInsert (prefix ++ take (length p) (p ++ y :: b))) ;;;
         tret (true, shortNode (take (length p) (p ++ y :: b)) (fullNode branch newFlag) newFlag))))
    (insert_post root prefix (TShort (p ++ x :: a) tc) (p ++ y :: b) v) tr.
Proof.
  intros Hct Hkey Hv Hne Hc Hs. rewrite !take_snoc_middle, !drop_snoc_middle, take_app_length.
  destruct (short_rest _ _ _ _ Hct) as [_ Hx].
  destruct (fork_ok _ _ _ _ _ _ v Hct Hkey Hv Hne) as [Hcan Hsets].
  assert (slot x < 17)%nat as Hsx by (destruct Hx as [[? _]|[? _]]; lia).
  assert (slot y < 17)%nat as Hsy.
  { apply hexterm_prefix in Hkey as [_ Hkey]; [|done]. apply hexterm_cons in Hkey as [[Hy%slot_nibble _]|[-> _]]; [lia|by vm_compute; lia]. }
  apply twp_tbind. eapply twp_mono; [apply (insert_nil_ok _ _ _ c tc)|].
  { rewrite <- !app_assoc. exact Hc. }
  intros [d1 nx] tr1 Hnx. apply (twp_gpure _ (<[slot x := nx]> new_branch)).
  { apply go_update_slot. unfold new_branch. by rewrite length_replicate. }
  apply (twp_gpure _ y); [apply go_index_lookup; by rewrite lookup_app_r, Nat.sub_diag by lia|].
  apply twp_tbind. eapply twp_mono; [apply (insert_nil_ok _ _ _ (valueNode v) (TValue v)); constructor|].
  intros [d2 ny] tr2 Hny. apply (twp_gpure _ (<[slot y := ny]> (<[slot x := nx]> new_branch))).
  { apply go_update_slot. rewrite length_insert. unfold new_branch. by rewrite length_replicate. }
  rewrite app_assoc in Hnx, Hny. pose proof (loads_fork false (prefix ++ p) x nx _ y ny _ Hne Hnx Hny) as Hf.
  assert (sub (cons_short p (fork x (cons_short a tc) y (cons_short b (TValue v)))) (p ++ y :: b)) as Hsub.
  { right. split; [done|by right]. }
  case_bool_decide as Hp.
  - apply twp_tret. destruct p; [|done]. cbn [cons_short app] in *. rewrite app_nil_r in Hnx, Hny. eexists. split; [by apply loads_fork|].
    split_and!; [exact Hsub|exact Hsets|by apply canon_not_nil|done].
  - apply twp_gbind, wp_gput, twp_tret. eexists. split; [apply loads_new_short; exact Hf|].
    assert (cons_short p (fork x (cons_short a tc) y (cons_short b (TValue v))) = TShort p (fork x (cons_short a tc) y (cons_short b (TValue v)))) as Heq
      by by destruct p. rewrite Heq in *. split_and!; [exact Hsub|exact Hsets|done|done].
Qed.

Lemma trie_insert_ok fuel : forall root n t prefix key v tr,
  loads root prefix n t -> sub t key -> small t -> v <> [] -> (2 * length key + hash_steps n <= fuel)%nat ->
  twp (trie_insert fuel n prefix key (valueNode v)) (insert_post root prefix t key v) tr.
Proof.
  induction fuel as [|fuel IH]; intros root n t prefix key v tr Hl Hsub Hs Hv Hf; [destruct n; cbn in Hf; lia|].
  cbn [trie_insert]. destruct key as [|key0 key'].
  { destruct Hsub as [[_ Ht]|[H _]]; [|by destruct hexterm_nil].
    assert (insert_post root prefix t [] v (true, valueNode v) tr) as Hpost.
    { exists (TValue v). split; [constructor|]. split; [left; by eauto|]. split; [|done]. intros k w. rewrite has_value_inv.
      destruct Ht as [->|(u & -> & _)].
      - split; [intros [-> ->]; by left|]. by intros [[-> ->]|[_ []%has_nil]].
      - rewrite has_value_inv. split; [intros [-> ->]; by left|]. by intros [[-> ->]|[Hne [? _]]]. }
    destruct Ht as [->|(u & -> & Hu)]; inversion Hl as [|? ? ? | | |? ? ? Hsf]; subst; try done.
    apply twp_tret. case_bool_decide as E; cbn [negb]; [|exact Hpost]. subst u.
    exists (TValue v). split; [constructor|]. split; [left; by eauto|]. split; [|done]. intros k w. rewrite has_value_inv. tauto. }
  set (key := key0 :: key') in *. assert (hexterm key) as Hk by (destruct Hsub as [[? _]|[? _]]; done).
  inversion Hl as [r p|r p u|r p k c t' fl Hc Hfl Hse|r p ns ts fl Hlen Hns Hfl Hse|r p t' Hsf Hst Hbig]; subst.
  - apply twp_gbind, wp_gput, twp_tret. exists (TShort key (TValue v)). split; [apply loads_new_short; constructor|].
    pose proof (canon_hexterm_leaf key v Hk Hv) as Hcl. split; [right; by eauto|]. split; [|done]. intros k' w. split.
    + intros (r & -> & H)%has_short_inv. apply has_value_inv in H as [-> ->]. rewrite app_nil_r. by left.
    + intros [[-> ->]|[_ []%has_nil]]. apply has_leaf.
  - destruct Hsub as [[? _]|[_ [?|Hcv]]]; [done|done|inversion Hcv].
  - assert (canon (TShort k t')) as Hct by (destruct Hsub as [[? _]|[_ [?|?]]]; done).
    case_bool_decide as Em.
    + apply prefixLen_full in Em as Ek. destruct Ek as [k1 Ek]. rewrite Em, Ek, take_app_length, drop_app_length.
      rewrite Ek in Hk, Hf. assert (k <> []) as Hk0 by (apply canon_short_inv in Hct as [(ns & w & -> & _)|(_ & ? & _)]; [by destruct ns|done]).
      apply twp_tbind. eapply twp_mono.
      * apply (IH false c t' (prefix ++ k) k1); [done|by eapply sub_short|by eapply small_short|done|].
        rewrite length_app in Hf. destruct k; [done|]. cbn [length] in *. destruct c; cbn [hash_steps] in *; lia.
      * intros [d nn] tr' (t2 & Hl2 & Hsub2 & Hset & Hnil & Hd). cbn [fst snd] in *. apply twp_tret.
        exists (TShort k t2). pose proof (short_set k t' k1 v t2 Hct Hk Hv Hsub2 Hset) as Hc2.
        assert (sub (TShort k t2) (k ++ k1)) by (right; by eauto).
        destruct d; cbn [fst snd].
        -- split; [by apply loads_new_short|]. split; [done|]. split; [by apply sets_short|]. done.
        -- rewrite (Hd eq_refl) in *. split; [done|]. split; [done|]. split; [by apply sets_short|]. done.
    + destruct (split_keys key k t' Hct Hk Em) as (p & x & a & y & b & -> & Ek & Hne & Hm). rewrite Hm. clearbody key. subst key.
      apply (twp_gpure _ x); [apply go_index_lookup; by rewrite lookup_app_r, Nat.sub_diag by lia|].
      destruct fuel as [|fuel]; [rewrite length_app in Hf; cbn in Hf; lia|].
      by apply insert_split_ok; [..|eapply small_short].
  - assert (canon (TFull ts)) as Hct by (destruct Hsub as [[? _]|[_ [?|?]]]; done).
    destruct (sub_full ts key0 key' Hct Hk) as (t & Ht & Hsubt).
    pose proof (full_length _ Hct) as Hl17. pose proof (lookup_lt_Some _ _ _ Ht).
    destruct (lookup_lt_is_Some_2 ns (slot key0)) as [c Hc]; [lia|].
    apply (twp_gpure _ c); [by apply go_index_slot|].
    pose proof (Hns _ _ _ Hc Ht) as Hlc. rewrite digit_slot in Hlc. apply twp_tbind. eapply twp_mono.
    + apply (IH false c t (prefix ++ [key0]) key'); [done|done|eapply small_child; [done|lia|done]|done|].
      unfold key in Hf. cbn [length] in Hf. destruct c; cbn [hash_steps] in *; lia.
    + intros [d nn] tr' (t2 & Hl2 & Hsub2 & Hset & Hnil & Hd). cbn [fst snd] in *.
      pose proof (full_insert ts key0 key' t2 Hct Hk Hsub2 Hnil) as Hc2. pose proof (sets_full ts key0 t key' v t2 Ht Hset) as Hset2.
      destruct d.
      * apply (twp_gpure _ (<[slot key0 := nn]> ns)); [apply go_update_slot; lia|]. apply twp_tret.
        exists (TFull (<[slot key0 := t2]> ts)). cbn [fst snd]. split; [|split; [right; by eauto|by split]].
        apply loads_full; [by rewrite !length_insert| |apply flag_ok_new|done]. intros i m u Hm Hu.
        apply list_lookup_insert_Some in Hm as [(<- & <- & _)|[Hi Hm]].
        { rewrite digit_slot. rewrite list_lookup_insert_eq in Hu by lia. by injection Hu as <-. }
        rewrite list_lookup_insert_ne in Hu by done. by apply (Hns i).
      * apply twp_tret. exists (TFull ts). cbn [fst snd]. rewrite (Hd eq_refl) in *. rewrite list_insert_id in Hset2 by done.
        split; [done|]. split; [right; by eauto|]. by split.
  - assert (canon t) as Hct by by eapply sub_hash.
    apply twp_tbind. eapply twp_mono; [by apply (resolve_ok root)|]. intros n tr' (Hln & Hnh & Hsen).
    apply twp_tbind. eapply twp_mono.
    + apply (IH root n t prefix key); [done..|]. destruct n; cbn [hash_steps] in *; try lia. done.
    + intros [d nn] tr2 (t2 & Hl2 & Hsub2 & Hset & Hnil & Hd). cbn [fst snd] in *. apply twp_tret. exists t2.
      destruct d; cbn [fst snd]; [by split_and!|]. rewrite (Hd eq_refl) in *. by split_and!.
Qed.

(** ** Delete *)

Definition all_nil (cs : list node) : Prop := forall j c, cs !! j = Some c -> c = nilNode.

Lemma all_nil_cons c cs : c = nilNode -> all_nil cs -> all_nil (c :: cs).
Proof. intros Hc H [|j] d Hd; cbn in Hd; [congruence|by eapply H]. Qed.

Lemma is_nil_true c : is_nil c = true <-> c = nilNode.
Proof. by destruct c. Qed.

Lemma single_child_found cs : forall i pos, 0 <= pos ->
  single_child i pos cs = pos /\ all_nil cs \/
  single_child i pos cs = -2 /\ exists j c, cs !! j = Some c /\ c <> nilNode.
Proof.
  induction cs as [|c cs IH]; intros i pos Hp; cbn [single_child]; [left; split; [done|intros j c H; by rewrite lookup_nil in H]|].
  destruct (is_nil c) eqn:E.
  - apply is_nil_true in E. destruct (IH (i + 1) pos Hp) as [[-> H]|[-> (j & d & Hj & Hd)]].
    + left. split; [done|by apply all_nil_cons].
    + right. split; [done|]. by exists (S j), d.
  - rewrite (proj2 (Z.eqb_neq pos (-1))) by lia. right. split; [done|]. exists 0%nat, c. split; [done|]. intros ->. done.
Qed.

Lemma single_child_ok cs : forall i, 0 <= i ->
  single_child i (-1) cs = -1 /\ all_nil cs \/
  (exists j c, single_child i (-1) cs = i + Z.of_nat j /\ cs !! j = Some c /\ c <> nilNode /\
     forall j' c', cs !! j' = Some c' -> j' <> j -> c' = nilNode) \/
  (single_child i (-1) cs = -2 /\ exists j j' c c', j <> j' /\ cs !! j = Some c /\ cs !! j' = Some c' /\ c <> nilNode /\ c' <> nilNode).
Proof.
  induction cs as [|c cs IH]; intros i Hi; cbn [single_child]; [left; split; [done|intros j c H; by rewrite lookup_nil in H]|].
  destruct (is_nil c) eqn:E.
  - apply is_nil_true in E. destruct (IH (i + 1)) as [[-> H]|[(j & d & -> & Hj & Hd & Ho)|[-> (j & j' & d & d' & Hne & Hj & Hj' & Hd & Hd')]]]; [lia| | |].
    + left. split; [done|by apply all_nil_cons].
    + right. left. exists (S j), d. split; [lia|]. split; [done|]. split; [done|]. intros [|j'] d' Hj' Hne; cbn in Hj'; [congruence|].
      apply (Ho j' d'); [done|congruence].
    + right. right. split; [done|]. exists (S j), (S j'), d, d'. split_and!; try done. congruence.
  - change (-1 =? -1) with true. cbv iota. assert (c <> nilNode) as Hc by (intros ->; done).
    destruct (single_child_found cs (i + 1) i Hi) as [[-> H]|[-> (j & d & Hj & Hd)]].
    + right. left. exists 0%nat, c. split; [lia|]. split; [done|]. split; [done|]. intros [|j'] d' Hj' Hne; [done|]. by eapply H.
    + right. right. split; [done|]. by exists 0%nat, (S j), c, d.
Qed.

Definition delete_post (root : bool) (prefix : list byte) (t : tree) (key : list byte) (r : bool * node) (_ : tracer) : Prop :=
  exists t', loads root prefix (snd r) t' /\ sub t' key /\ drops t key t' /\ (fst r = false -> t' = t) /\ (fst r = true -> not_hash (snd r)).

Lemma drops_absent t key : (forall v, ~ has t key v) -> drops t key t.
Proof.
  intros H k v. split; [|by intros [_ ?]]. intros Hv. split; [|done]. intros ->. by eapply H.
Qed.

Lemma drops_ext t t' key t2 : (forall k v, has t k v <-> has t2 k v) -> drops t' key t -> drops t' key t2.
Proof. intros H Hd k v. rewrite <- H. apply Hd. Qed.

Lemma full_remains ts k t' : canon (TFull ts) -> drops (TFull ts) k t' -> t' <> TNil.
Proof.
  intros Hc Hd ->. destruct (canon_two ts Hc) as (x & y & k1 & k2 & v1 & v2 & Hne & H1 & H2).
  destruct (decide (x :: k1 = k)) as [<-|E1].
  - apply (has_nil (y :: k2) v2), Hd. split; [congruence|done].
  - apply (has_nil (x :: k1) v1), Hd. by split.
Qed.

(** The node of a short tree, merged with the short node in front of it. *)
Lemma loads_join root p k n t : loads false (p ++ k) n t -> not_hash n -> canon t ->
  match n with
  | shortNode k' n' _ => loads root p (shortNode (k ++ k') n' newFlag) (join k t)
  | _ => loads root p (shortNode k n newFlag) (join k t)
  end.
Proof.
  intros Hl Hn Hc. inversion Hl as [| |r p' k' n' t' fl Hl' Hfl Hse|r p' ns ts fl Hlen Hns Hfl Hse|]; subst; cbn [join]; try done.
  - inversion Hc.
  - inversion Hc.
  - apply loads_new_short. by rewrite app_assoc.
  - by apply loads_new_short.
Qed.

Lemma hexterm_not_nibbles k : hexterm k -> ~ nibbles k.
Proof.
  intros (ns & _ & ->) H. apply Forall_app in H as [_ H]. apply list.Forall_cons in H as [H _]. by destruct term_not_nibble.
Qed.

(** Collapsing a full node once a child is gone. *)
Lemma collapse_ok root prefix ns ts x key nn tr :
  canon (TFull ts) -> small (TFull ts) -> hexterm (x :: key) -> length ns = length ts ->
  (forall i n t, ns !! i = Some n -> ts !! i = Some t -> loads false (prefix ++ [digit i]) n t) ->
  (exists t t', ts !! slot x = Some t /\ loads false (prefix ++ [x]) nn t' /\ sub t' key /\ drops t key t') ->
  twp (let* cs := gpure (go_update ns (byte_val x) nn) in
       if negb (is_nil nn) then tret (true, fullNode cs newFlag)
       else
         let pos := single_child 0 (-1) cs in
         if pos >=? 0 then
           let* child := gpure (go_index cs pos) in
           let one_nibble := tret (true, shortNode [byte_of_Z pos] child newFlag) in
           if negb (pos =? 16) then
             tbind (resolve child (prefix ++ [byte_of_Z pos])) (fun cnode =>
               match cnode with
               | shortNode ckey cval _ =>
                   gput (onDelete (prefix ++ [byte_of_Z pos])) ;;;
                   tret (true, shortNode (byte_of_Z pos :: ckey) cval newFlag)
               | _ => one_nibble
               end)
           else one_nibble
         else tret (true, fullNode cs newFlag))
    (delete_post root prefix (TFull ts) (x :: key)) tr.
Proof.
  intros Hct Hs Hk Hlen Hns (t & t' & Ht & Hl & Hsub & Hd).
  pose proof (full_length _ Hct) as Hl17. pose proof (lookup_lt_Some _ _ _ Ht) as Hlt.
  apply (twp_gpure _ (<[slot x := nn]> ns)); [apply go_update_slot; lia|].
  pose proof (drops_full ts x t key t' Ht Hd) as Hdf. set (cs := <[slot x := nn]> ns). set (us := <[slot x := t']> ts) in *.
  assert (forall i n u, cs !! i = Some n -> us !! i = Some u -> loads false (prefix ++ [digit i]) n u) as Hcs.
  { intros i n u Hn Hu. apply list_lookup_insert_Some in Hn as [(<- & <- & _)|[Hi Hn]].
    - unfold us in Hu. rewrite list_lookup_insert_eq in Hu by done. injection Hu as <-. by rewrite digit_slot.
    - unfold us in Hu. rewrite list_lookup_insert_ne in Hu by done. by apply Hns. }
  assert (length cs = 17%nat /\ length us = 17%nat) as [Hlc Hlu] by (unfold cs, us; rewrite !length_insert; lia).
  assert (forall i, (i < 17)%nat -> exists n u, cs !! i = Some n /\ us !! i = Some u) as Hboth.
  { intros i Hi. destruct (lookup_lt_is_Some_2 cs i) as [n Hn]; [lia|]. destruct (lookup_lt_is_Some_2 us i) as [u Hu]; [lia|]. by eauto. }
  assert (forall i n u, cs !! i = Some n -> us !! i = Some u -> n = nilNode <-> u = TNil) as Hnil.
  { intros i n u Hn Hu. eapply loads_nil_iff. by apply Hcs. }
  assert (child_ok (slot x) t') as Hok.
  { apply hexterm_cons in Hk as [[Hx%slot_nibble Hk]|[-> ->]].
    - destruct Hsub as [[-> _]|[_ [->|?]]]; [by apply hexterm_nil in Hk|by left|right; left; by split].
    - destruct Hsub as [[_ [->|?]]|[H _]]; [by left|right; right; by split|by destruct hexterm_nil]. }
  assert (loads root prefix (fullNode cs newFlag) (TFull us)) as Hfull by (apply loads_full; [lia|done|apply flag_ok_new|done]).
  assert (forall i j n m, i <> j -> cs !! i = Some n -> cs !! j = Some m -> n <> nilNode -> m <> nilNode ->
    delete_post root prefix (TFull ts) (x :: key) (true, fullNode cs newFlag) tr) as Hstay.
  { intros i j n m Hij Hi Hj Hn Hm. exists (TFull us). split; [done|]. split; [|by split_and!].
    right. split; [done|]. right. destruct (Hboth i) as (n' & u & Hn' & Hu); [apply lookup_lt_Some in Hi; lia|].
    destruct (Hboth j) as (m' & w & Hm' & Hw); [apply lookup_lt_Some in Hj; lia|].
    apply (full_delete ts x t t' i j u w); try done; [by rewrite <- (Hnil i n u)|by rewrite <- (Hnil j m w)]. }
  destruct (is_nil nn) eqn:Enil; cbn [negb].
  2:{ apply twp_tret. assert (nn <> nilNode) as Hnn by (intros ->; done).
      inversion Hct as [| |? _ _ _ (i & j & ti & tj & Hij & Hi & Hj & Hni & Hnj)]; subst.
      assert (exists n, n <> slot x /\ exists c, cs !! n = Some c /\ c <> nilNode) as (n & Hnx & c & Hc & Hcn).
      { assert (forall m u, m <> slot x -> ts !! m = Some u -> u <> TNil -> exists c, cs !! m = Some c /\ c <> nilNode) as Hoth.
        { intros m u Hm Hu Hun. destruct (Hboth m) as (c & u' & Hc & Hu'); [apply lookup_lt_Some in Hu; lia|]. exists c. split; [done|].
          rewrite (Hnil m c u') by done. unfold us in Hu'. rewrite list_lookup_insert_ne in Hu' by done. congruence. }
        destruct (decide (i = slot x)) as [->|Hix]; [exists j|exists i]; (split; [done|]); by eauto. }
      apply (Hstay (slot x) n nn c); try done. apply list_lookup_insert_eq. lia. }
  apply is_nil_true in Enil. subst nn.
  destruct (single_child_ok cs 0 ltac:(lia)) as [[_ Hall]|[(j & c & -> & Hc & Hcn & Ho)|[-> (j & j' & c & c' & Hne & Hc & Hc' & Hcn & Hcn')]]].
  - exfalso. apply (full_remains ts (x :: key) (TFull us) Hct Hdf).
    exfalso. destruct (canon_two ts Hct) as (y & z & k1 & k2 & v1 & v2 & Hyz & H1 & H2).
    assert (forall k v, ~ has (TFull us) k v) as Hno.
    { intros k v (w & u & r & -> & Hw & Hh)%has_full_inv. destruct (Hboth (slot w)) as (n & u' & Hn & Hu'); [apply lookup_lt_Some in Hw; lia|].
      assert (u' = u) as -> by congruence. rewrite (proj1 (Hnil _ _ _ Hn Hw)) in Hh by by eapply Hall. by apply has_nil in Hh. }
    destruct (decide (y :: k1 = x :: key)) as [E|E].
    + apply (Hno (z :: k2) v2), Hdf. split; [congruence|done].
    + apply (Hno (y :: k1) v1), Hdf. by split.
  - rewrite Z.add_0_l. rewrite (proj2 (Z.geb_le (Z.of_nat j) 0)) by lia. pose proof (lookup_lt_Some _ _ _ Hc) as Hj.
    destruct (Hboth j ltac:(lia)) as (c0 & u & Hc0 & Hu). assert (c0 = c) as -> by congruence.
    apply (twp_gpure _ c); [by apply go_index_lookup|]. change (byte_of_Z (Z.of_nat j)) with (digit j).
    pose proof (Hcs _ _ _ Hc Hu) as Hlcu.
    assert (u <> TNil) as Hun by (by rewrite <- (Hnil j c u)).
    assert (child_ok j u) as Hcu.
    { unfold us in Hu. apply list_lookup_insert_Some in Hu as [(<- & <- & _)|[_ Hu]]; [done|by apply (canon_child ts)]. }
    pose proof (canon_single j u Hcu Hun) as Hcj.
    assert (drops (TFull ts) (x :: key) (join [digit j] u)) as Hdj.
    { eapply drops_ext; [|exact Hdf]. intros k v. rewrite has_join. apply has_single; [lia|done|].
      intros j' u' Hu' Hne. destruct (Hboth j') as (n' & u2 & Hn' & Hu2); [apply lookup_lt_Some in Hu'; lia|].
      apply (Hnil j' n' u'); [done|done|]. by eapply Ho. }
    assert (sub (join [digit j] u) (x :: key)) as Hsj by (right; split; [done|by right]).
    destruct (Z.of_nat j =? 16) eqn:E16; zbool; cbn [negb].
    + apply twp_tret. exists (join [digit j] u). split; [|by split_and!].
      destruct Hcu as [?|[[? _]|[_ (v & -> & _)]]]; [done|lia|]. cbn [join]. by apply loads_new_short.
    + assert (canon u) as Hcan by (destruct Hcu as [?|[[_ ?]|[-> _]]]; [done|done|lia]).
      apply twp_tbind. apply (twp_mono _ (fun n _ => loads false (prefix ++ [digit j]) n u /\ not_hash n)).
      { destruct c as [|cs' fl|k' v' fl|h|v]; try (by apply twp_tret). inversion Hlcu as [| | | |? ? ? Hsf Hst Hbig]; subst.
        cbn [resolve]. eapply twp_mono; [apply (resolve_ok false _ u); [done| |done|done]|by intros n tr' (? & ? & _)]. intros k v Hv.
        assert (has (TFull us) (digit j :: k) v) as Hfv by (apply has_full_cons; exists u; by rewrite slot_digit by lia).
        apply Hdf in Hfv as [_ Hfv]. destruct (Hs _ _ Hfv) as [Hz ?]. rewrite zlen_cons in Hz. split; [lia|done]. }
      intros n tr' [Hln Hnh]. pose proof (loads_join root prefix [digit j] n u Hln Hnh Hcan) as Hj2.
      destruct n as [|cs' fl|k' v' fl|h|v]; cbn [app] in Hj2.
      * inversion Hln; subst. done.
      * apply twp_tret. exists (join [digit j] u). split; [|by split_and!]. 
        inversion Hln as [| | |? ? ? us' ? ? ? ? ?|]; subst. cbn [join snd]. by apply loads_new_short.
      * apply twp_gbind, wp_gput, twp_tret. exists (join [digit j] u). by split_and!.
      * done.
      * inversion Hln; subst. inversion Hcan.
  - change (-2 >=? 0) with false. cbv iota. apply twp_tret. by apply (Hstay j j' c c').
Qed.

Lemma trie_delete_ok fuel : forall root n t prefix key tr,
  loads root prefix n t -> sub t key -> small t -> (2 * length key + hash_steps n <= fuel)%nat ->
  twp (trie_delete fuel n prefix key) (delete_post root prefix t key) tr.
Proof.
  induction fuel as [|fuel IH]; intros root n t prefix key tr Hl Hsub Hs Hf; [destruct n; cbn in Hf; lia|].
  cbn [trie_delete].
  inversion Hl as [r p|r p u|r p k c t' fl Hc Hfl Hse|r p ns ts fl Hlen Hns Hfl Hse|r p t' Hsf Hst Hbig]; subst.
  - apply twp_tret. exists TNil. split; [constructor|]. split; [destruct Hsub as [[? _]|[? _]]; [left|right]; (split; [done|]); by left|].
    split; [|done]. apply drops_absent. intros v. apply has_nil.
  - apply twp_tret. exists TNil. split; [constructor|]. assert (key = []) as ->.
    { destruct Hsub as [[? _]|[_ [?|Hc]]]; [done|done|inversion Hc]. }
    split; [left; split; [done|by left]|]. split; [|done]. intros k v. rewrite has_value_inv. split; [by intros ?%has_nil|by intros [? [? _]]].
  - assert (canon (TShort k t')) as Hct by (destruct Hsub as [[_ [?|(? & ? & _)]]|[_ [?|?]]]; done).
    assert (hexterm key) as Hk by (destruct Hsub as [[_ [?|(? & ? & _)]]|[? _]]; done).
    destruct (prefixLen_le key k) as [_ Hle]. case_bool_decide as E1.
    { apply twp_tret. exists (TShort k t'). split; [done|]. split; [done|]. split; [|done]. apply drops_absent.
      intros v (r & -> & _)%has_short_inv. rewrite (proj2 (prefixLen_full (k ++ r) k)) in E1 by eauto. lia. }
    assert (prefixLen key k = length k) as Em by lia. apply prefixLen_full in Em as Ek. destruct Ek as [k1 ->].
    rewrite Em, take_app_length, drop_app_length. case_bool_decide as E2.
    + rewrite length_app in E2. destruct k1; [|cbn in E2; lia]. rewrite app_nil_r in *.
      apply twp_gbind, wp_gput, twp_tret. exists TNil. split; [constructor|]. split; [right; split; [done|by left]|]. split; [|done].
      apply canon_short_inv in Hct as [(ns & w & -> & Hn & -> & Hw)|(Hn & _)]; [|by destruct (hexterm_not_nibbles k)].
      intros k' v. split; [by intros ?%has_nil|]. intros [Hne (r & -> & [-> _]%has_value_inv)%has_short_inv]. by rewrite app_nil_r in Hne.
    + assert (k1 <> []) as Hk1 by (intros ->; rewrite app_nil_r in E2; done).
      assert (canon (TShort k t')) as Hct' by done.
      apply canon_short_inv in Hct as [(ns & w & -> & Hn & -> & Hw)|(Hn & Hne & ts & -> & Hct)].
      { exfalso. apply Hk1. apply (hexterm_not_prefix (ns ++ [Byte.x10])); [by exists ns|done]. }
      pose proof Hk as Hkk. apply hexterm_app in Hkk; [|done]. apply twp_tbind. eapply twp_mono.
      * apply (IH false c (TFull ts) (prefix ++ k) k1); [done|right; by eauto|by eapply small_short|].
        rewrite length_app in Hf. destruct k; [done|]. cbn [length] in *. destruct c; cbn [hash_steps] in *; lia.
      * intros [d child] tr' (t2 & Hl2 & Hsub2 & Hd & Hfalse & Htrue). cbn [fst snd] in *.
        destruct d.
        -- assert (canon t2) as Hc2.
           { destruct Hsub2 as [[-> _]|[_ [?|?]]]; [done| |done]. by destruct (full_remains ts k1 t2). }
           assert (delete_post root prefix (TShort k (TFull ts)) (k ++ k1)
             (true, match child with shortNode ckey cval _ => shortNode (k ++ ckey) cval newFlag | _ => shortNode k child newFlag end) tr') as Hp.
           { assert (drops (TShort k (TFull ts)) (k ++ k1) (join k t2)) as Hdj.
             { apply (drops_ext (TShort k t2)); [|by apply drops_short]. intros k' v. by rewrite has_join. }
             exists (join k t2). cbn [fst snd]. pose proof (loads_join root prefix k child t2 Hl2 (Htrue eq_refl) Hc2) as Hj.
             split; [by destruct child|]. split; [right; split; [done|right; by apply canon_join]|]. split; [done|]. split; [done|by destruct child]. }
           destruct child as [|cs' fl'|ckey cval fl'|h|v]; by apply twp_tret.
        -- rewrite (Hfalse eq_refl) in *. apply twp_tret. exists (TShort k (TFull ts)). split; [done|]. split; [right; by eauto|]. split; [|done].
           by apply drops_short.
  - assert (canon (TFull ts)) as Hct by (destruct Hsub as [[_ [?|(? & ? & _)]]|[_ [?|?]]]; done).
    assert (hexterm key) as Hk by (destruct Hsub as [[_ [?|(? & ? & _)]]|[? _]]; done).
    destruct key as [|x key]; [by apply hexterm_nil in Hk|].
    destruct (sub_full ts x key Hct Hk) as (t & Ht & Hsubt).
    pose proof (full_length _ Hct) as Hl17. pose proof (lookup_lt_Some _ _ _ Ht).
    destruct (lookup_lt_is_Some_2 ns (slot x)) as [c Hc]; [lia|].
    apply (twp_gpure _ x); [done|]. apply (twp_gpure _ c); [by apply go_index_slot|].
    pose proof (Hns _ _ _ Hc Ht) as Hlc. rewrite digit_slot in Hlc. cbn [drop]. rewrite drop_0. apply twp_tbind. eapply twp_mono.
    + apply (IH false c t (prefix ++ [x]) key); [done|done|eapply small_child; [done|lia|done]|].
      cbn [length] in Hf. destruct c; cbn [hash_steps] in *; lia.
    + intros [d nn] tr' (t2 & Hl2 & Hsub2 & Hd & Hfalse & Htrue). cbn [fst snd] in *. destruct d.
      * apply (collapse_ok root prefix ns ts x key nn); try done. by exists t, t2.
      * rewrite (Hfalse eq_refl) in *. apply twp_tret. exists (TFull ts). split; [done|]. split; [right; by eauto|]. split; [|done].
        pose proof (drops_full ts x t key t Ht Hd) as Hdf. by rewrite list_insert_id in Hdf.
  - assert (canon t) as Hct by by eapply sub_hash.
    apply twp_tbind. eapply twp_mono; [by apply (resolve_ok root)|]. intros n tr' (Hln & Hnh & Hsen).
    apply twp_tbind. eapply twp_mono.
    + apply (IH root n t prefix key); [done..|]. destruct n; cbn [hash_steps] in *; try lia. done.
    + intros [d nn] tr2 (t2 & Hl2 & Hsub2 & Hd & Hfalse & Htrue). cbn [fst snd] in *. apply twp_tret. exists t2.
      destruct d; cbn [fst snd]; [by split_and!|]. rewrite (Hfalse eq_refl) in *. by split_and!.
Qed.
End spec.
