(* ===== verification/TrieHash.v ===== *)
(** * The hash of a trie

    Hashing the nodes of a trie gives the hash of the tree they stand for, and nodes
    that stand for it still, with their hashes cached. *)

From Stdlib Require Import Strings.Byte.
From S2P Require Import Prelude.
From S2P Require Import Common.
From S2P Require Import Rlp.
From S2P Require Import Crypto.
From S2P Require Import Encoding.
From S2P Require Import TrieKeys.
From S2P Require Import TrieTree.
From S2P Require Import TrieNode.
From S2P Require Import TrieStore.

Section hashing.
Context {K : Keccak} {N : NodeStore}.

(** What the hasher makes of a node. *)
Definition hashes (hash : node -> bool -> Res (node * node)) (b : bool) (p : list byte) (n : node) (t : tree) : Prop :=
  exists hashed cached, hash n b = Ret (hashed, cached) /\
    node_encode hashed = encode_item (if b then Str (tree_hash t) else tree_ref t) /\
    (b = true -> hashed = hashNode (tree_hash t)) /\ loads b p cached t /\ sealed b cached t.

Lemma tree_ref_big t : short_or_full t = true -> 32 <= zlen (tree_enc t) -> tree_ref t = Str (tree_hash t).
Proof.
  intros Hs Hb. unfold tree_ref, collapse. fold (tree_enc t). rewrite Hs, (proj2 (Z.ltb_ge _ _) Hb). done.
Qed.

Lemma tree_ref_small t : zlen (tree_enc t) < 32 -> tree_ref t = tree_item t.
Proof. intros Hb. unfold tree_ref, collapse. fold (tree_enc t). by rewrite (proj2 (Z.ltb_lt _ _) Hb), andb_false_r. Qed.

Lemma flag_set b p fl t h : flag_hash fl = None -> flag_ok b p fl t ->
  (h = Some (tree_hash t) /\ (b = true \/ 32 <= zlen (tree_enc t))) \/ (h = None /\ b = false /\ zlen (tree_enc t) < 32) ->
  flag_ok b p (mkFlag h (flag_dirty fl)) t.
Proof.
  unfold flag_ok. intros -> Hf Hh. cbn [flag_hash flag_dirty]. destruct Hh as [[-> Hb]|(-> & -> & Hs)]; [|by right].
  split; [done|]. split; [done|]. intros Hd. destruct Hf as [?|[-> Hs]]; [congruence|]. destruct Hb; [done|lia].
Qed.

(** The last step: a collapsed node with the right encoding. *)
Lemma nodeToHash_ok b p fl t n cached : canon t -> node_encode n = tree_enc t -> flag_hash fl = None -> flag_ok b p fl t ->
  (forall h, flag_ok b p (mkFlag h (flag_dirty fl)) t -> loads b p (set_flag_hash h cached) t) ->
  (forall h, flag_known b (mkFlag h (flag_dirty fl)) t -> sealed b (set_flag_hash h cached) t) ->
  not_hash n ->
  let hashed := nodeToHash n b in
  node_encode hashed = encode_item (if b then Str (tree_hash t) else tree_ref t) /\
  (b = true -> hashed = hashNode (tree_hash t)) /\ loads b p (cached_with hashed cached) t /\ sealed b (cached_with hashed cached) t.
Proof.
  intros Hc Hn Hh Hf Hl Hs Hnh. assert (short_or_full t = true) as Hsf by by destruct Hc.
  assert (forall h, (h = Some (tree_hash t) /\ (b = true \/ 32 <= zlen (tree_enc t))) \/ (h = None /\ b = false /\ zlen (tree_enc t) < 32) ->
    loads b p (set_flag_hash h cached) t /\ sealed b (set_flag_hash h cached) t) as Hset.
  { intros h Hd. split; [by apply Hl, (flag_set _ _ _ _ _ Hh Hf)|]. apply Hs. unfold flag_known. cbn [flag_hash].
    destruct Hd as [[-> ?]|(-> & -> & ?)]; (split; [intros; try done|done || (intros [?|?]; [done|lia])]). }
  unfold nodeToHash. rewrite Hn. destruct (zlen (tree_enc t) <? 32) eqn:E; zbool; cbn [andb negb].
  - destruct b; cbn [negb].
    + split; [done|]. split; [done|]. apply Hset. left. by auto.
    + rewrite tree_ref_small by done. split; [done|]. split; [done|].
      replace (cached_with n cached) with (set_flag_hash None cached) by by destruct n.
      apply Hset. by right.
  - split; [|split; [done|apply Hset; left; by auto]]. destruct b; [done|]. by rewrite tree_ref_big.
Qed.

Lemma hash_children_ok hash p ts : forall (start : nat) ns,
  length ns = length ts -> (start + length ts <= 17)%nat ->
  (forall i n t, ns !! i = Some n -> ts !! i = Some t -> child_ok (start + i) t /\ loads false (p ++ [digit (start + i)]) n t) ->
  (forall i n t, ns !! i = Some n -> ts !! i = Some t -> canon t -> (start + i < 16)%nat ->
     hashes (fun n _ => hash n) false (p ++ [digit (start + i)]) n t) ->
  exists hs cs, hash_children hash (Z.of_nat start) ns = Ret (hs, cs) /\
    concat (map node_encode hs) = concat (map encode_item (map tree_ref ts)) /\ length cs = length ts /\
    forall i n t, cs !! i = Some n -> ts !! i = Some t -> loads false (p ++ [digit (start + i)]) n t /\ sealed false n t.
Proof.
  induction ts as [|t ts IH]; intros start [|n ns] Hlen H17 Hok Hhash; try done; cbn [length] in *.
  { exists [], []. by split_and!. }
  destruct (Hok 0%nat n t eq_refl eq_refl) as [Ht Hl]. pose proof (Hhash 0%nat n t eq_refl eq_refl) as Hh.
  rewrite Nat.add_0_r in *.
  assert (exists h c, (if Z.of_nat start <? 16 then match n with nilNode => Ret (valueNode [], nilNode) | _ => hash n end else Ret (n, n)) = Ret (h, c) /\
    node_encode h = encode_item (tree_ref t) /\ loads false (p ++ [digit start]) c t /\ sealed false c t) as (h & c & Hr & He & Hc).
  { destruct Ht as [->|[[Hs Hct]|[-> (v & -> & _)]]].
    - inversion Hl as [| | | |? ? ? Hsf]; subst; [|done].
      destruct (Z.of_nat start <? 16); do 2 eexists; (split; [reflexivity|]); (split; [reflexivity|]); split; constructor.
    - destruct (Hh Hct Hs) as (h & c & Hr & He & _ & Hc). exists h, c. assert (Z.of_nat start <? 16 = true) as -> by (apply Z.ltb_lt; lia).
      split; [|done]. destruct n; try done. inversion Hl; subst. inversion Hct.
    - inversion Hl as [|? ? ?| | |? ? ? Hsf]; subst; [|done]. do 2 eexists. split; [reflexivity|]. split; [reflexivity|]. split; constructor. }
  cbn [hash_children]. rewrite Hr. cbn [res_bind]. replace (Z.of_nat start + 1) with (Z.of_nat (S start)) by lia.
  destruct (IH (S start) ns) as (hs & cs & -> & Hes & Hlc & Hcs); [lia|lia| | |].
  - intros i m u Hm Hu. replace (S start + i)%nat with (start + S i)%nat by lia. by apply Hok.
  - intros i m u Hm Hu. replace (S start + i)%nat with (start + S i)%nat by lia. by apply Hhash.
  - cbn [res_bind fst snd]. exists (h :: hs), (c :: cs). split; [done|]. cbn [map concat length]. split; [by rewrite He, Hes|].
    split; [by rewrite Hlc|]. intros [|i] m u Hm Hu; cbn in Hm, Hu.
    + rewrite Nat.add_0_r. congruence.
    + replace (start + S i)%nat with (S start + i)%nat by lia. by apply Hcs.
Qed.

(** A node that stands for a canonical tree is a hash, has its hash cached, or is one
    the hasher looks into. *)
Lemma hashes_known b p n t : canon t -> loads b p n t ->
  (match n with
   | shortNode _ _ fl | fullNode _ fl => flag_hash fl = None -> flag_ok b p fl t -> hashes hasher_hash b p n t
   | _ => True
   end) -> hashes hasher_hash b p n t.
Proof.
  intros Hc Hl H. assert (short_or_full t = true) as Hsf by by destruct Hc.
  assert (forall fl, flag_ok b p fl t -> (flag_hash fl = None -> flag_ok b p fl t -> hashes hasher_hash b p n t) ->
    (forall h, flag_hash fl = Some h -> hasher_hash n b = Ret (hashNode h, n) /\ (flag_known b fl t -> sealed b n t)) -> hashes hasher_hash b p n t) as Hfl.
  { intros fl Hf Hnone Hsome. destruct (flag_hash fl) as [h|] eqn:E; [|by apply Hnone]. exists (hashNode h), n. rewrite (proj1 (Hsome h eq_refl)).
    unfold flag_ok in Hf. rewrite E in Hf. destruct Hf as (-> & Hb & _). split; [done|].
    split; [destruct b; [done|]; destruct Hb as [?|Hb']; [done|]; by rewrite tree_ref_big|]. split; [done|]. split; [done|].
    apply (Hsome (tree_hash t) eq_refl). unfold flag_known. by rewrite E. }
  inversion Hl as [r q|r q u|r q k c t' fl Hcc Hf Hse|r q ns ts fl Hlen Hns Hf Hse|r q t' _ Hst Hbig]; subst; try (by inversion Hc).
  - apply (Hfl fl Hf H). intros h Hh. cbn [hasher_hash node_cache res_bind fst]. rewrite Hh. split; [done|].
    constructor; [apply Hse; by rewrite Hh|done].
  - apply (Hfl fl Hf H). intros h Hh. cbn [hasher_hash node_cache res_bind fst]. rewrite Hh. split; [done|].
    constructor; [apply Hse; by rewrite Hh|done].
  - exists (hashNode (tree_hash t)), (hashNode (tree_hash t)). split; [done|]. split; [|split; [done|split; [done|constructor]]].
    destruct b; [done|]. destruct Hbig as [?|Hb]; [done|]. by rewrite tree_ref_big.
Qed.

Lemma hashes_short b p k c t fl : canon (TShort k t) -> loads b p (shortNode k c fl) (TShort k t) ->
  flag_hash fl = None -> flag_ok b p fl (TShort k t) -> loads false (p ++ k) c t ->
  (canon t -> hashes hasher_hash false (p ++ k) c t) -> hashes hasher_hash b p (shortNode k c fl) (TShort k t).
Proof.
  intros Hc Hl Hh Hf Hlc IH. destruct (compact_ok k (canon_short_key _ _ Hc)) as (Hck & _ & _).
  assert (exists h c', match c with fullNode _ _ | shortNode _ _ _ => hasher_hash c false | _ => Ret (c, c) end = Ret (h, c') /\
    node_encode h = encode_item (tree_ref t) /\ loads false (p ++ k) c' t /\ sealed false c' t) as (h & c' & Hr & He & Hc').
  { apply canon_short_inv in Hc as [(ns & v & -> & _ & -> & _)|(_ & _ & ts & -> & Hct)].
    - inversion Hlc as [|? ? ?| | |? ? ? Hsf]; subst; [|done]. do 2 eexists. split; [reflexivity|]. split; [reflexivity|]. split; constructor.
    - destruct (IH Hct) as (h & c' & Hr & He & _ & Hc').
      exists h, c'. inversion Hlc; by subst. }
  unfold hashes. cbn [hasher_hash node_cache res_bind fst]. rewrite Hh, Hck. cbn [res_bind]. rewrite Hr. cbn [res_bind fst snd].
  do 2 eexists. split; [reflexivity|]. apply (nodeToHash_ok b p fl); try done.
  - cbn [node_encode]. rewrite He. unfold tree_enc. cbn [tree_item encode_item map concat]. by rewrite app_nil_r.
  - intros h' Hf'. apply loads_short; [apply Hc'|done|intros _; apply Hc'].
  - intros h' Hk. constructor; [apply Hc'|done].
Qed.

Lemma hashes_full b p ns ts fl : canon (TFull ts) -> loads b p (fullNode ns fl) (TFull ts) ->
  flag_hash fl = None -> flag_ok b p fl (TFull ts) -> length ns = length ts ->
  (forall i n t, ns !! i = Some n -> ts !! i = Some t -> loads false (p ++ [digit i]) n t) ->
  (forall i n t, ns !! i = Some n -> ts !! i = Some t -> canon t -> (i < 16)%nat -> hashes hasher_hash false (p ++ [digit i]) n t) ->
  hashes hasher_hash b p (fullNode ns fl) (TFull ts).
Proof.
  intros Hc Hl Hh Hf Hlen Hns IH. unfold hashes. cbn [hasher_hash node_cache res_bind fst]. rewrite Hh.
  destruct (hash_children_ok (fun c => hasher_hash c false) p ts 0 ns) as (hs & cs & Hr & He & Hlc & Hcs).
  - done.
  - rewrite (full_length _ Hc). lia.
  - intros i n t Hn Ht. split; [by apply (canon_child ts)|by apply (Hns i)].
  - intros i n t Hn Ht Hct Hi. by apply (IH i).
  - change (Z.of_nat 0) with 0 in Hr. rewrite Hr. cbn [res_bind fst snd]. do 2 eexists. split; [reflexivity|]. apply (nodeToHash_ok b p fl); try done.
    + cbn [node_encode]. by rewrite He.
    + intros h' Hf'. apply loads_full; [done| |done|]; [|intros _]; intros i n t Hi Ht; by apply (Hcs i).
    + intros h' Hk. constructor; [|done]. intros i n t Hi Ht; by apply (Hcs i).
Qed.

Lemma hasher_hash_ok t : canon t -> forall b p n, loads b p n t -> hashes hasher_hash b p n t.
Proof.
  intros Hc. induction Hc as [ns v Hn Hv|k ts Hk Hne Hc IH|ts Hlen Hchild IH Hval Htwo]; intros b p n Hl.
  - pose proof (canon_leaf ns v Hn Hv) as Hc. apply hashes_known; [done..|].
    destruct n; try done; inversion Hl; subst. intros Hh Hf. apply hashes_short; try done. by inversion 1.
  - pose proof (canon_ext k ts Hk Hne Hc) as Hck. apply hashes_known; [done..|].
    destruct n; try done; inversion Hl; subst. intros Hh Hf. apply hashes_short; try done. intros _. by apply IH.
  - assert (canon (TFull ts)) as Hc by by constructor. apply hashes_known; [done..|].
    destruct n as [|cs fl| | |]; try done; inversion Hl; subst. intros Hh Hf. apply hashes_full; try done.
    intros i n t Hn Ht Hct Hi. apply (IH i t); [done|done|by apply canon_not_nil|]. by eauto.
Qed.

(** ** Collisions *)

(** The encodings that are hashed below a node, and those hashed for a tree. *)
Fixpoint hashed_below (t : tree) : list (list byte) :=
  let child t := (if short_or_full t && negb (zlen (tree_enc t) <? 32) then [tree_enc t] else []) ++ hashed_below t in
  match t with
  | TShort _ t => child t
  | TFull ts => concat (map child ts)
  | _ => []
  end.

Definition hashed_child (t : tree) : list (list byte) :=
  (if short_or_full t && negb (zlen (tree_enc t) <? 32) then [tree_enc t] else []) ++ hashed_below t.

Definition hashed_data (t : tree) : list (list byte) := tree_enc t :: hashed_below t.

(** Keccak does not collide on these inputs. *)
Definition no_collision (l : list (list byte)) : Prop :=
  forall x y, x ∈ l -> y ∈ l -> hashData x = hashData y -> x = y.

Lemma no_collision_sub l l' : l' ⊆ l -> no_collision l -> no_collision l'.
Proof. intros Hs H x y Hx Hy. apply H; by apply Hs. Qed.

Lemma hashed_child_below ts i t : ts !! i = Some t -> hashed_child t ⊆ hashed_below (TFull ts).
Proof.
  intros Ht x Hx. cbn [hashed_below]. apply list_elem_of_In, in_concat. exists (hashed_child t).
  split; [|by apply list_elem_of_In]. apply in_map. apply list_elem_of_In, list_elem_of_lookup. by exists i.
Qed.

Lemma hashed_child_self t : short_or_full t = true -> 32 <= zlen (tree_enc t) -> tree_enc t ∈ hashed_child t.
Proof. intros Hs Hb. unfold hashed_child. rewrite Hs, (proj2 (Z.ltb_ge _ _) Hb). by left. Qed.

Lemma hashed_below_child t : hashed_below t ⊆ hashed_child t.
Proof. intros x Hx. apply elem_of_app. by right. Qed.

Lemma app_sub {A} (l1 l2 l1' l2' : list A) : l1 ⊆ l1' -> l2 ⊆ l2' -> l1 ++ l2 ⊆ l1' ++ l2'.
Proof. intros H1 H2 x [Hx|Hx]%elem_of_app; apply elem_of_app; auto. Qed.

Lemma enc_inj t u : zlen (tree_enc t) < 2 ^ 63 -> tree_enc t = tree_enc u -> tree_item t = tree_item u.
Proof.
  intros Hl He. unfold tree_enc in *. destruct (encode_item_prefix (tree_item t) (tree_item u) [] []) as [? _]; rewrite ?app_nil_r; done.
Qed.

Lemma item_canon t : canon t -> exists l, tree_item t = Lst l.
Proof. destruct 1; cbn [tree_item]; by eexists. Qed.

(** Equal references are to equal items. *)
Lemma ref_item t u : canon t -> canon u -> small t -> no_collision (hashed_child t ++ hashed_child u) ->
  tree_ref t = tree_ref u -> tree_item t = tree_item u.
Proof.
  intros Ht Hu Hs Hnc. pose proof (tree_len t Ht Hs) as Hl. destruct (item_canon t Ht) as [lt Et], (item_canon u Hu) as [lu Eu].
  assert (short_or_full t = true /\ short_or_full u = true) as [Hst Hsu] by by destruct Ht, Hu.
  pose proof (hashed_child_self t Hst) as Mt. pose proof (hashed_child_self u Hsu) as Mu.
  unfold tree_ref, collapse. rewrite Hst, Hsu. fold (tree_enc t) (tree_enc u).
  destruct (zlen (tree_enc t) <? 32) eqn:Zt; destruct (zlen (tree_enc u) <? 32) eqn:Zu; cbn [andb negb]; [done|by rewrite Et|by rewrite Eu|].
  zbool. intros He%Str_inj. apply enc_inj; [done|]. apply Hnc; [apply elem_of_app; auto..|exact He].
Qed.

Lemma child_ref_inj i t u : child_ok i t -> child_ok i u ->
  (canon t -> canon u -> tree_ref t = tree_ref u -> t = u) -> tree_ref t = tree_ref u -> t = u.
Proof.
  assert (forall t, canon t -> tree_ref t <> Str []) as Hne.
  { intros w Hw. destruct (item_canon w Hw) as [l El]. unfold tree_ref, collapse. rewrite El. destruct (_ && _); [|done].
    intros He%Str_inj. pose proof (length_hashData (encode_item (Lst l))) as Hl. by rewrite He in Hl. }
  intros Ht Hu H He. destruct Ht as [->|[[Hi Ht]|[-> (v & -> & Hv)]]], Hu as [->|[[Hi' Hu]|[Hi' (w & -> & Hw)]]]; try lia; try done.
  - by destruct (Hne u Hu).
  - by injection He as <-.
  - by destruct (Hne t Ht).
  - by apply H.
  - by injection He as ->.
  - by injection He as ->.
Qed.

(** The item of a tree determines it, as long as Keccak does not collide. *)
Lemma tree_item_inj t : canon t -> small t -> forall u, canon u -> no_collision (hashed_below t ++ hashed_below u) ->
  tree_item t = tree_item u -> t = u.
Proof.
  assert (forall k c k' c', canon (TShort k c) -> canon (TShort k' c') -> compact k = compact k' -> k = k') as Hkey.
  { intros k c k' c' Hc Hc' He. destruct (compact_ok k (canon_short_key _ _ Hc)) as (_ & <- & _).
    destruct (compact_ok k' (canon_short_key _ _ Hc')) as (_ & <- & _). by rewrite He. }
  intros Hc. induction Hc as [ns v Hn Hv|k ts Hk Hne Hc IH|ts Hlen Hchild IH Hval Htwo]; intros Hs u Hu Hnc He.
  - pose proof (canon_leaf ns v Hn Hv) as Hc. destruct u as [| |k' c'|us]; try by inversion Hu.
    + cbn [tree_item] in He. injection He as Hck Hr. pose proof (Hkey _ _ _ _ Hc Hu Hck) as <-.
      apply canon_short_inv in Hu as [(ns' & v' & _ & _ & -> & _)|(Hn' & _)]; [by injection Hr as ->|].
      apply Forall_app in Hn' as [_ Hn']. apply list.Forall_cons in Hn' as [Hn' _]. by destruct term_not_nibble.
    + cbn [tree_item] in He. injection He as He. apply (f_equal length) in He. rewrite length_map, (full_length _ Hu) in He. done.
  - pose proof (canon_ext k ts Hk Hne Hc) as Hck. destruct u as [| |k' c'|us]; try by inversion Hu.
    + cbn [tree_item] in He. injection He as Hckk Hr. pose proof (Hkey _ _ _ _ Hck Hu Hckk) as <-. f_equal.
      apply canon_short_inv in Hu as [(ns & v & -> & Hn & _)|(_ & _ & us & -> & Hcu)].
      { apply Forall_app in Hk as [_ Hk]. apply list.Forall_cons in Hk as [Hk _]. by destruct term_not_nibble. }
      apply small_short in Hs. apply IH; [done|done| |].
      * eapply no_collision_sub; [|exact Hnc]. change (hashed_below (TShort k (TFull ts))) with (hashed_child (TFull ts)).
        change (hashed_below (TShort k (TFull us))) with (hashed_child (TFull us)). apply app_sub; apply hashed_below_child.
      * by apply ref_item.
    + cbn [tree_item] in He. injection He as He. apply (f_equal length) in He. rewrite length_map, (full_length _ Hu) in He. done.
  - assert (canon (TFull ts)) as Hc by by constructor. destruct u as [| |k' c'|us]; try by inversion Hu.
    + cbn [tree_item] in He. injection He as He. apply (f_equal length) in He. rewrite length_map, Hlen in He. done.
    + cbn [tree_item] in He. injection He as He. f_equal. apply (list_eq_same_length _ _ 17%nat); [by apply full_length|done|].
      intros i x y Hi Hx Hy. pose proof (f_equal (lookup i) He) as Hxy.
      change (map (fun t => collapse t (tree_item t)) ts) with (map tree_ref ts) in Hxy.
      change (map (fun t => collapse t (tree_item t)) us) with (map tree_ref us) in Hxy.
      rewrite (list_lookup_fmap tree_ref ts i : map tree_ref ts !! i = _) in Hxy.
      rewrite (list_lookup_fmap tree_ref us i : map tree_ref us !! i = _), Hx, Hy in Hxy. injection Hxy as Hxy.
      apply (child_ref_inj i); [by apply (canon_child ts)|by apply (canon_child us)| |done]. intros Hcx Hcy Hr.
      assert (small x) as Hsx by (eapply small_child; [done|lia|done]).
      pose proof (hashed_child_below _ _ _ Hx) as Hbx. pose proof (hashed_child_below _ _ _ Hy) as Hby.
      assert (no_collision (hashed_child x ++ hashed_child y)) as Hnxy.
      { eapply no_collision_sub; [|exact Hnc]. by apply app_sub. }
      destruct (decide (i = 16%nat)) as [->|].
      { destruct (Hval _ Hx (canon_not_nil _ Hcx)) as (v & -> & _). inversion Hcx. }
      apply (IH i); [done|lia|by apply canon_not_nil|done|done| |by apply ref_item].
      eapply no_collision_sub; [|exact Hnxy]. apply app_sub; apply hashed_below_child.
Qed.

Lemma tree_hash_inj t u : canon t -> canon u -> small t -> no_collision (hashed_data t ++ hashed_data u) ->
  tree_hash t = tree_hash u -> t = u.
Proof.
  intros Ht Hu Hs Hnc He. apply tree_item_inj; [done..| |].
  - eapply no_collision_sub; [|exact Hnc]. apply app_sub; intros x Hx; by right.
  - apply enc_inj; [by apply tree_len|]. apply Hnc; [apply elem_of_app; left; by left|apply elem_of_app; right; by left|exact He].
Qed.
End hashing.
