(* ===== verification/TrieMap.v ===== *)
(** * Tries as maps

    What the trie promises: it behaves as a finite map from keys to values that are
    not empty, and its hash is a commitment to that map. *)

From Stdlib Require Import Strings.Byte.
From S2P Require Import Prelude.
From S2P Require Import Common.
From S2P Require Import Rlp.
From S2P Require Import Crypto.
From S2P Require Import StateObject.
From S2P Require Import Encoding.
From S2P Require Import TrieKeys.
From S2P Require Import TrieTree.
From S2P Require Import TrieNode.
From S2P Require Import TrieStore.
From S2P Require Import Trie.
From S2P Require Import TrieSpec.
From S2P Require Import TrieHash.

Abbreviation contents := (gmap (list byte) (list byte)).

(** ** The tree of a map *)

Definition tree_of (t : tree) (m : contents) : Prop :=
  (t = TNil \/ canon t) /\ forall k v, has t k v <-> exists key, k = keybytesToHex key /\ m !! key = Some v.

(** No key or value is longer than the longest slice: a bound on the sizes of the
    encodings. *)
Definition fits (key value : list byte) : Prop := zlen key < 2 ^ 56 /\ zlen value <= 2 ^ 58.
Definition all_fit (m : contents) : Prop := forall key value, m !! key = Some value -> fits key value.

Lemma tree_of_empty : tree_of TNil ∅.
Proof.
  split; [by left|]. intros k v. split; [by intros ?%has_nil|]. intros (key & _ & H). by rewrite lookup_empty in H.
Qed.

Lemma tree_of_has t m key v : tree_of t m -> has t (keybytesToHex key) v <-> m !! key = Some v.
Proof.
  intros [_ H]. rewrite H. split; [|by eauto]. by intros (key' & ->%keybytesToHex_inj & Hv).
Qed.

Lemma tree_of_value t m key v : tree_of t m -> m !! key = Some v -> v <> [].
Proof.
  intros Ht Hv. apply (tree_of_has _ _ _ _ Ht) in Hv. destruct Ht as [[->|Hc] _]; [by apply has_nil in Hv|].
  by apply canon_key in Hv as [_ ?].
Qed.

Lemma tree_of_unique t t' m : tree_of t m -> tree_of t' m -> t = t'.
Proof.
  intros [Ht Hh] [Ht' Hh']. assert (forall k v, has t k v <-> has t' k v) as He by (intros k v; by rewrite Hh, Hh').
  destruct Ht as [->|Hc], Ht' as [->|Hc']; [done| | |by apply canon_unique].
  - destruct (canon_has _ Hc') as (k & v & Hv). apply He in Hv. by apply has_nil in Hv.
  - destruct (canon_has _ Hc) as (k & v & Hv). apply He in Hv. by apply has_nil in Hv.
Qed.

Lemma tree_of_map t m m' : tree_of t m -> tree_of t m' -> m = m'.
Proof.
  intros H H'. apply map_eq. intros key. apply option_eq. intros v. by rewrite <- (tree_of_has _ _ _ _ H), <- (tree_of_has _ _ _ _ H').
Qed.

Lemma tree_of_nil m : tree_of TNil m -> m = ∅.
Proof. intros H. by apply (tree_of_map TNil _ _ H), tree_of_empty. Qed.

Lemma hexterm_key key : hexterm (keybytesToHex key).
Proof. rewrite keybytesToHex_digits. exists (digits key). split; [apply digits_nibbles|done]. Qed.

Lemma tree_of_sub t m key : tree_of t m -> sub t (keybytesToHex key).
Proof. intros [Ht _]. right. split; [apply hexterm_key|done]. Qed.

Lemma sub_canon t key : sub t (keybytesToHex key) -> t = TNil \/ canon t.
Proof. intros [[H _]|[_ ?]]; [|done]. pose proof (hexterm_key key) as Hk. rewrite H in Hk. by apply hexterm_nil in Hk. Qed.

Lemma tree_of_insert t m key v t' : tree_of t m -> sets t (keybytesToHex key) v t' -> sub t' (keybytesToHex key) ->
  tree_of t' (<[key := v]> m).
Proof.
  intros [Ht Hh] Hs Hsub. split; [by eapply sub_canon|]. intros k w. unfold sets in Hs. rewrite Hs, Hh. split.
  - intros [[-> ->]|[Hne (key' & -> & Hk)]]; [exists key; by rewrite lookup_insert_eq|].
    exists key'. split; [done|]. rewrite lookup_insert_ne; [done|]. intros ->. done.
  - intros (key' & -> & Hk). apply lookup_insert_Some in Hk as [[<- <-]|[Hne Hk]]; [by left|]. right.
    split; [by intros ->%keybytesToHex_inj|by eauto].
Qed.

Lemma tree_of_singleton key v : v <> [] -> tree_of (TShort (keybytesToHex key) (TValue v)) (<[key := v]> ∅).
Proof.
  intros Hv. assert (canon (TShort (keybytesToHex key) (TValue v))) as Hc.
  { rewrite keybytesToHex_digits. constructor; [apply digits_nibbles|done]. }
  apply (tree_of_insert TNil); [apply tree_of_empty|apply sets_nil|]. right. split; [apply hexterm_key|by right].
Qed.

Lemma tree_of_delete t m key t' : tree_of t m -> drops t (keybytesToHex key) t' -> sub t' (keybytesToHex key) ->
  tree_of t' (delete key m).
Proof.
  intros [Ht Hh] Hs Hsub. split; [by eapply sub_canon|]. intros k w. unfold drops in Hs. rewrite Hs, Hh. split.
  - intros [Hne (key' & -> & Hk)]. exists key'. split; [done|]. rewrite lookup_delete_ne; [done|]. intros ->. done.
  - intros (key' & -> & Hk). apply lookup_delete_Some in Hk as [Hne Hk]. split; [by intros ->%keybytesToHex_inj|by eauto].
Qed.

Lemma tree_of_small t m : tree_of t m -> all_fit m -> small t.
Proof.
  intros [_ Hh] Hf k v Hv. apply Hh in Hv as (key & -> & Hk). apply Hf in Hk as [H1 H2]. split; [|done].
  unfold zlen in *. rewrite keybytesToHex_len. lia.
Qed.

Lemma all_fit_insert m key v : all_fit m -> fits key v -> all_fit (<[key := v]> m).
Proof. intros Hm Hf k w [[<- <-]|[_ Hk]]%lookup_insert_Some; [done|by apply Hm]. Qed.

Lemma all_fit_delete m key : all_fit m -> all_fit (delete key m).
Proof. intros Hm k w [_ Hk]%lookup_delete_Some. by apply Hm. Qed.

(** ** The root hash of a map *)

Section root.
Context {K : Keccak}.

Definition tree_root (t : tree) : Hash := match t with TNil => EmptyRootHash | _ => BytesToHash (tree_hash t) end.

Definition root_of (m : contents) (h : Hash) : Prop := exists t, tree_of t m /\ h = tree_root t.

Lemma root_of_unique m h h' : root_of m h -> root_of m h' -> h = h'.
Proof. intros (t & Ht & ->) (t' & Ht' & ->). by rewrite (tree_of_unique _ _ _ Ht Ht'). Qed.

Lemma BytesToHash_32 b : length b = 32%nat -> BytesToHash b = be_value b.
Proof. intros Hl. unfold BytesToHash. by rewrite Hl, drop_0. Qed.

Lemma hash_bytes_32 b : length b = 32%nat -> hash_bytes (BytesToHash b) = b.
Proof. intros Hl. rewrite BytesToHash_32 by done. unfold hash_bytes. rewrite <- Hl. apply be_bytes_be_value. Qed.

Lemma BytesToHash_inj a b : length a = 32%nat -> length b = 32%nat -> BytesToHash a = BytesToHash b -> a = b.
Proof. intros Ha Hb H. by rewrite <- (hash_bytes_32 a Ha), <- (hash_bytes_32 b Hb), H. Qed.

Lemma tree_root_canon t : canon t -> tree_root t = BytesToHash (tree_hash t).
Proof. by destruct 1. Qed.

(** What is hashed for the map, and the input whose hash is the empty root. *)
Definition committed (m : contents) (l : list (list byte)) : Prop :=
  exists t, tree_of t m /\ l = match t with TNil => [] | _ => hashed_data t end.

Lemma committed_singleton key v : v <> [] -> committed (<[key := v]> ∅) [tree_enc (TShort (keybytesToHex key) (TValue v))].
Proof. intros Hv. eexists. split; [by apply tree_of_singleton|done]. Qed.

Lemma no_collision_same x : no_collision ([x] ++ [x]).
Proof. intros a b Ha Hb _. set_solver. Qed.

(** A root is that of one map only, as long as no two nodes of the two tries collide
    and no node has the hash of the empty trie. *)
Lemma root_of_inj m m' h l l' : root_of m h -> root_of m' h -> all_fit m -> committed m l -> committed m' l' ->
  no_collision (l ++ l') -> (forall x, x ∈ l ++ l' -> BytesToHash (hashData x) <> EmptyRootHash) -> m = m'.
Proof.
  intros (t & Ht & ->) (t' & Ht' & Hr) Hf (u & Hu & ->) (u' & Hu' & ->) Hnc Hne.
  rewrite (tree_of_unique u t m) in * by done. rewrite (tree_of_unique u' t' m') in * by done. clear u u' Hu Hu'.
  assert (t = t') as <-; [|by eapply tree_of_map].
  pose proof (tree_of_small _ _ Ht Hf) as Hs. destruct Ht as [[->|Hc] _], Ht' as [[->|Hc'] _]; [done| | |].
  - rewrite (tree_root_canon t') in Hr by done. exfalso. apply (Hne (tree_enc t')); [|done]. destruct Hc'; by left.
  - rewrite (tree_root_canon t) in Hr by done. exfalso. apply (Hne (tree_enc t)); [|done]. apply elem_of_app. left. destruct Hc; by left.
  - rewrite (tree_root_canon t), (tree_root_canon t') in Hr by done. apply tree_hash_inj; [done..| |].
    + by destruct Hc, Hc'.
    + apply BytesToHash_inj; [apply length_hashData..|done].
Qed.
End root.

(** ** Operations *)

Inductive trie_op : Type := OpGet (key : list byte) | OpUpdate (key value : list byte) | OpDelete (key : list byte) | OpHash.

Inductive trie_answer : Type := AnsValue (v : option (list byte)) | AnsDone | AnsHash (h : Hash) | AnsError (err : trie_error).

Section map.
Context {K : Keccak} {N : NodeStore}.

Definition run_op (o : trie_op) : GM Trie trie_answer :=
  match o with
  | OpGet key => let* r := Trie_Get key in gret (match r with inl v => AnsValue v | inr err => AnsError err end)
  | OpUpdate key value => let* r := Trie_Update key value in gret (match r with None => AnsDone | Some err => AnsError err end)
  | OpDelete key => let* r := Trie_Delete key in gret (match r with None => AnsDone | Some err => AnsError err end)
  | OpHash => let* h := Trie_Hash in gret (AnsHash h)
  end.

Fixpoint run_ops (os : list trie_op) : GM Trie (list trie_answer) :=
  match os with
  | [] => gret []
  | o :: os => let* a := run_op o in let* l := run_ops os in gret (a :: l)
  end.

(** What a map answers: values, no errors, and its root. *)
Definition put (key value : list byte) (m : contents) : contents :=
  if bool_decide (value = []) then delete key m else <[key := value]> m.

Definition next (o : trie_op) (m : contents) : contents :=
  match o with
  | OpUpdate key value => put key value m
  | OpDelete key => delete key m
  | _ => m
  end.

Definition answers (m : contents) (o : trie_op) (a : trie_answer) : Prop :=
  match o with
  | OpGet key => a = AnsValue (m !! key)
  | OpUpdate _ _ | OpDelete _ => a = AnsDone
  | OpHash => exists h, a = AnsHash h /\ root_of m h
  end.

Fixpoint answers_all (m : contents) (os : list trie_op) (l : list trie_answer) : Prop :=
  match os, l with
  | [], [] => True
  | o :: os, a :: l => answers m o a /\ answers_all (next o m) os l
  | _, _ => False
  end.

Definition op_fits (o : trie_op) : Prop := match o with OpUpdate key value => fits key value | _ => True end.

Definition trie_rep (T : Trie) (m : contents) : Prop := (exists t, loads true [] (trie_root T) t /\ tree_of t m) /\ all_fit m.

(** ** Lemmas *)

Lemma fuel_enough n k : (2 * length k + hash_steps n <= trie_fuel k)%nat.
Proof. unfold trie_fuel. destruct n; cbn [hash_steps]; lia. Qed.

Lemma Trie_New_empty root : root = 0 \/ root = EmptyRootHash -> exists T, Trie_New root = Ret (inl T) /\ trie_rep T ∅.
Proof.
  intros Hr. eexists. split.
  - unfold Trie_New. destruct Hr as [->| ->]; reflexivity.
  - split; [exists TNil; split; [constructor|apply tree_of_empty]|]. intros k v H. by rewrite lookup_empty in H.
Qed.

Lemma Trie_New_stored t m root : tree_of t m -> all_fit m -> t <> TNil -> stored [] t -> root = tree_root t ->
  root <> 0 -> root <> EmptyRootHash -> exists T, Trie_New root = Ret (inl T) /\ trie_rep T m.
Proof.
  intros Ht Hf Hn Hst -> H0 He. destruct Ht as [[?|Hc] Hh]; [done|]. assert (tree_of t m) as Ht by (split; [by right|done]).
  rewrite (tree_root_canon t Hc) in *. unfold Trie_New.
  rewrite (proj2 (Z.eqb_neq _ _) H0), (proj2 (Z.eqb_neq _ _) He). cbn [negb andb trie_tracer].
  pose proof (resolve_ok true [] t newTracer Hc (tree_of_small _ _ Ht Hf) Hst (or_introl eq_refl)) as Hr.
  rewrite (hash_bytes_32 (tree_hash t)) by apply length_hashData.
  unfold twp, wp in Hr. destruct (resolveAndTrack _ _ _) as [[[n|err] tr]| |]; try done.
  destruct Hr as [Hl _]. eexists. split; [reflexivity|]. split; [|done]. by exists t.
Qed.

(** An operation under the tracer, then what the trie does with its result. *)
Lemma wp_tracer {A B} (m : GM tracer (A + trie_error)) (k : A + trie_error -> GM Trie B) (P : A -> tracer -> Prop) Q T :
  twp m P (trie_tracer T) ->
  (forall a tr, P a tr -> wp no_panic (k (inl a)) Q (mkTrie (trie_root T) (trie_unhashed T) tr)) ->
  wp no_panic (gbind (on_tracer m) k) Q T.
Proof.
  intros Hm Hk. apply wp_gbind, wp_gzoom. eapply wp_mono; [exact Hm|]. intros [a|err] tr H; [by apply Hk|done].
Qed.

Definition returns_rep {A} (P : A -> Prop) (m : contents) (a : A) (T : Trie) : Prop := P a /\ trie_rep T m.

Lemma Trie_Get_ok T m key : trie_rep T m ->
  wp no_panic (Trie_Get key) (returns_rep (fun r => r = inl (m !! key)) m) T.
Proof.
  intros [(t & Hl & Ht) Hf]. unfold Trie_Get. apply wp_gbind, wp_gget. eapply wp_tracer.
  { apply (trie_get_ok _ true (trie_root T) t (keybytesToHex key) 0); [by rewrite take_0|rewrite drop_0; by eapply tree_of_sub|by eapply tree_of_small|lia|].
    rewrite Nat.sub_0_r. apply fuel_enough. }
  intros [[value newroot] didResolve] tr (Hv & Hn & _). rewrite drop_0 in Hv. rewrite take_0 in Hn.
  assert (value = m !! key) as -> by (apply option_eq; intros v; rewrite Hv; by apply tree_of_has).
  apply wp_gbind. destruct didResolve; [apply wp_gput|apply wp_gret]; apply wp_gret; (split; [done|]); split; [|done| |done]; exists t; done.
Qed.

Lemma trie_insert_rep T m key v (k : (bool * node) + trie_error -> GM Trie (option trie_error)) :
  trie_rep T m -> v <> [] -> fits key v -> (forall d n, k (inl (d, n)) = (gput (set_root n) ;;; gret None)) ->
  wp no_panic (gbind (on_tracer (trie_insert (trie_fuel (keybytesToHex key)) (trie_root T) [] (keybytesToHex key) (valueNode v))) k)
    (returns_rep (fun r => r = None) (<[key := v]> m)) T.
Proof.
  intros [(t & Hl & Ht) Hf] Hv Hfits Hk. eapply wp_tracer.
  { apply (trie_insert_ok _ true (trie_root T) t [] (keybytesToHex key) v); [done|by eapply tree_of_sub|by eapply tree_of_small|done|apply fuel_enough]. }
  intros [d n] tr (t' & Hl' & Hsub & Hset & _ & _). rewrite Hk. apply wp_gbind, wp_gput, wp_gret. split; [done|].
  split; [|by apply all_fit_insert]. exists t'. split; [done|]. by eapply tree_of_insert.
Qed.

Lemma trie_delete_rep T m key (k : (bool * node) + trie_error -> GM Trie (option trie_error)) :
  trie_rep T m -> (forall d n, k (inl (d, n)) = (gput (set_root n) ;;; gret None)) ->
  wp no_panic (gbind (on_tracer (trie_delete (trie_fuel (keybytesToHex key)) (trie_root T) [] (keybytesToHex key))) k)
    (returns_rep (fun r => r = None) (delete key m)) T.
Proof.
  intros [(t & Hl & Ht) Hf] Hk. eapply wp_tracer.
  { apply (trie_delete_ok _ true (trie_root T) t [] (keybytesToHex key)); [done|by eapply tree_of_sub|by eapply tree_of_small|apply fuel_enough]. }
  intros [d n] tr (t' & Hl' & Hsub & Hset & _). rewrite Hk. apply wp_gbind, wp_gput, wp_gret. split; [done|].
  split; [|by apply all_fit_delete]. exists t'. split; [done|]. by eapply tree_of_delete.
Qed.

Lemma Trie_Delete_ok T m key : trie_rep T m ->
  wp no_panic (Trie_Delete key) (returns_rep (fun r => r = None) (delete key m)) T.
Proof.
  intros H. unfold Trie_Delete. apply wp_gbind, wp_gput, wp_gbind, wp_gget. by apply trie_delete_rep.
Qed.

Lemma Trie_Update_ok T m key value : trie_rep T m -> fits key value ->
  wp no_panic (Trie_Update key value) (returns_rep (fun r => r = None) (put key value m)) T.
Proof.
  intros H Hf. unfold Trie_Update, put. apply wp_gbind, wp_gput, wp_gbind, wp_gget. destruct value as [|x value].
  - rewrite bool_decide_eq_true_2 by done. by apply trie_delete_rep.
  - rewrite bool_decide_eq_false_2 by done. assert ((zlen (x :: value) =? 0) = false) as ->.
    { apply Z.eqb_neq. rewrite zlen_cons. pose proof (zlen_nonneg value). lia. }
    by apply trie_insert_rep.
Qed.

Lemma Trie_Hash_ok T m : trie_rep T m -> wp no_panic Trie_Hash (returns_rep (root_of m) m) T.
Proof.
  intros [(t & Hl & Ht) Hf]. unfold Trie_Hash. apply wp_gbind, wp_gget. destruct (decide (t = TNil)) as [->|Hne].
  - assert (trie_root T = nilNode) as -> by by apply (loads_nil_iff _ _ _ _ Hl). apply wp_gret.
    split; [exists TNil; done|]. split; [|done]. by exists TNil.
  - destruct Ht as [[?|Hc] Hh]; [done|]. assert (tree_of t m) as Ht by (split; [by right|done]).
    destruct (hasher_hash_ok t Hc true [] _ Hl) as (hashed & cached & Hr & _ & Hhash & Hl' & _). specialize (Hhash eq_refl).
    assert (trie_root T <> nilNode) as Hn by (intros He; by apply (loads_nil_iff _ _ _ _ Hl) in He).
    assert (wp no_panic (let* r := gpure (hasher_hash (trie_root T) true) in
      let '(hashed, cached) := r in
      gput (fun t => mkTrie cached 0 (trie_tracer t)) ;;;
      match hashed with hashNode h => gret (BytesToHash h) | _ => gpanic PanicTrie end) (returns_rep (root_of m) m) T) as H.
    { rewrite Hr, Hhash. apply wp_gbind, (wp_gpure _ _ _ _ eq_refl), wp_gbind, wp_gput, wp_gret. split.
      - exists t. split; [done|]. by rewrite tree_root_canon.
      - split; [|done]. by exists t. }
    by destruct (trie_root T).
Qed.

Lemma run_op_ok T m o : trie_rep T m -> op_fits o -> wp no_panic (run_op o) (returns_rep (answers m o) (next o m)) T.
Proof.
  intros H Hf. destruct o as [key|key value|key|]; cbn [run_op]; apply wp_gbind; (eapply wp_mono; [first
    [by apply (Trie_Get_ok _ m)|by apply (Trie_Update_ok _ m)|by apply (Trie_Delete_ok _ m)|by apply (Trie_Hash_ok _ m)]|]).
  - intros r T' [-> Hr]. by apply wp_gret.
  - intros r T' [-> Hr]. by apply wp_gret.
  - intros r T' [-> Hr]. by apply wp_gret.
  - intros h T' [Hh Hr]. apply wp_gret. split; [by exists h|done].
Qed.

Lemma run_ops_ok os : forall T m, trie_rep T m -> Forall op_fits os ->
  wp no_panic (run_ops os) (returns_rep (answers_all m os) (fold_left (fun m o => next o m) os m)) T.
Proof.
  induction os as [|o os IH]; intros T m H Hf; cbn [run_ops fold_left].
  - by apply wp_gret.
  - apply list.Forall_cons in Hf as [Ho Hf]. apply wp_gbind. eapply wp_mono; [by apply run_op_ok|]. intros a T' [Ha HT'].
    apply wp_gbind. eapply wp_mono; [by apply IH|]. intros l T2 [Hl HT2]. apply wp_gret. split; [|done]. by cbn.
Qed.
End map.

(** ** Theorems *)

(** C8: A trie behaves as a finite map: whatever is read, written, deleted and hashed, in
    any order, and whatever part of it is in memory, nothing panics or runs out of
    steps, no node is missing, every read gives the map's value, and every hash is the
    root of the map at that point. *)
Theorem trie_refines_map {K : Keccak} {N : NodeStore} T m os :
  trie_rep T m -> Forall op_fits os ->
  exists answers T', run_ops os T = Ret (answers, T') /\ answers_all m os answers /\
    trie_rep T' (fold_left (fun m o => next o m) os m).
Proof. intros H Hf. by destruct (wp_returns _ _ _ (run_ops_ok os T m H Hf)) as (l & T' & Hr & Hl & HT'); exists l, T'. Qed.

(** C15: The root hash depends on the contents only: two tries with the same keys and
    values have the same hash, however they came about, whatever is cached in their
    nodes, and whatever databases they are read from. *)
Theorem trie_root_canonical {K : Keccak} (N N' : NodeStore) T T' m :
  trie_rep (N := N) T m -> trie_rep (N := N') T' m ->
  exists h U U', Trie_Hash T = Ret (h, U) /\ Trie_Hash T' = Ret (h, U') /\
    trie_rep (N := N) U m /\ trie_rep (N := N') U' m.
Proof.
  intros H H'. destruct (wp_returns _ _ _ (Trie_Hash_ok (N := N) T m H)) as (h & U & Hr & Hh & HU).
  destruct (wp_returns _ _ _ (Trie_Hash_ok (N := N') T' m H')) as (h' & U' & Hr' & Hh' & HU').
  exists h, U, U'. rewrite Hr'. by rewrite (root_of_unique _ _ _ Hh' Hh).
Qed.

(** C20: The root hash commits to the contents: two tries with the same hash have the same
    keys and values, unless two of the node encodings hashed for them collide, or one
    of them has the hash that stands for the empty trie. *)
Theorem trie_root_commits {K : Keccak} (N N' : NodeStore) T T' m m' l l' h U U' :
  trie_rep (N := N) T m -> trie_rep (N := N') T' m' ->
  Trie_Hash T = Ret (h, U) -> Trie_Hash T' = Ret (h, U') ->
  committed m l -> committed m' l' -> no_collision (l ++ l') ->
  (forall x, x ∈ l ++ l' -> BytesToHash (hashData x) <> EmptyRootHash) -> m = m'.
Proof.
  intros H H' Hr Hr' Hl Hl' Hnc Hne.
  destruct (wp_returns _ _ _ (Trie_Hash_ok (N := N) T m H)) as (h1 & U1 & Hr1 & Hh & _).
  destruct (wp_returns _ _ _ (Trie_Hash_ok (N := N') T' m' H')) as (h2 & U2 & Hr2 & Hh' & _).
  rewrite Hr in Hr1. rewrite Hr' in Hr2. injection Hr1 as <- <-. injection Hr2 as <- <-.
  exact (root_of_inj m m' h l l' Hh Hh' (proj2 H) Hl Hl' Hnc Hne).
Qed.
