(* ===== verification/TrieCommit.v ===== *)
(** * Committing a trie (client/trie/committer.go, nodeset.go)

    The dirty nodes of a trie are collected, replaced by their hashes, and handed to
    the database; the trie is opened again from there. *)

From Stdlib Require Import Strings.Byte.
From S2P Require Import Prelude.
From S2P Require Import Common.
From S2P Require Import Rlp.
From S2P Require Import Crypto.
From S2P Require Import StateObject.
From S2P Require Import Encoding.
From S2P Require Import TrieKeys.
From S2P Require Import TrieNode.
From S2P Require Import Trie.

(** ** Nodes in the memory of the database (client/trie/database.go) *)

(** [rawShortNode], [rawFullNode], and the nodes they share with the trie; [rawNil] is
    the nil interface: an empty child of a branch, and the node of the meta root.  The blob
    [rawNode] is left out: a [cachedNode] never holds one, since [Database.insert] is
    given what [simplifyNode] makes, and [simplifyNode] makes none; the two places that
    make one are in the stack trie, which encodes it at once. *)
Inductive rawtrie : Type :=
| rawNil
| rawShortNode (Key : list byte) (Val : rawtrie)
| rawFullNode (Children : list rawtrie)
| rawHashNode (h : list byte)
| rawValueNode (v : list byte).

(** [nodeToBytes], of a node that is not nil; a nil child or value in a node is the empty
    string (client/trie/node_enc.go).  A nil node at the top is a panic of the callers, in
    [cachedNode_rlp] (NodeDatabase.v). *)
Fixpoint nodeToBytes (n : rawtrie) : list byte :=
  match n with
  | rawNil => writeBytes []
  | rawShortNode k v => write_list (writeBytes k ++ nodeToBytes v)
  | rawFullNode cs => write_list (concat (map nodeToBytes cs))
  | rawHashNode h => writeBytes h
  | rawValueNode v => writeBytes v
  end.

(** The hashes in a node. *)
Fixpoint forGatherChildren (n : rawtrie) : list Hash :=
  match n with
  | rawShortNode _ v => forGatherChildren v
  | rawFullNode cs => concat (take 16 (map forGatherChildren cs))
  | rawHashNode h => [BytesToHash h]
  | rawValueNode _ | rawNil => []
  end.

Section lists.
Context {A B : Type} (f : A -> Res B).

Fixpoint map_res (l : list A) : Res (list B) :=
  match l with
  | [] => Ret []
  | x :: l => let? y := f x in let? l := map_res l in Ret (y :: l)
  end.

(** On the first [n] elements. *)
Fixpoint map_res_first (n : nat) (l : list A) : Res (list B) :=
  match l with
  | [] => Ret []
  | x :: l =>
      match n with
      | O => Ret []
      | S n => let? y := f x in let? l := map_res_first n l in Ret (y :: l)
      end
  end.
End lists.

Fixpoint simplifyNode (n : node) : Res rawtrie :=
  match n with
  | shortNode k v _ => let? v := simplifyNode v in Ret (rawShortNode k v)
  | fullNode cs _ =>
      let? cs := map_res (fun c => match c with nilNode => Ret rawNil | _ => simplifyNode c end) cs in
      Ret (rawFullNode cs)
  | valueNode v => Ret (rawValueNode v)
  | hashNode h => Ret (rawHashNode h)
  | nilNode => Panic PanicTrie
  end.

Fixpoint estimateSize (n : node) : Res Z :=
  match n with
  | shortNode k v _ => let? s := estimateSize v in Ret (3 + zlen k + s)
  | fullNode cs _ =>
      let? ss := map_res_first (fun c => match c with nilNode => Ret 1 | _ => estimateSize c end) 16 cs in
      Ret (fold_left Z.add ss 3)
  | valueNode v => Ret (1 + zlen v)
  | hashNode h => Ret (1 + zlen h)
  | nilNode => Panic PanicTrie
  end.

(** ** Sets of nodes *)

(** A node handed over; a deleted one has the zero hash. *)
Record memoryNode : Type := mkMemoryNode { mn_hash : Hash; mn_size : Z; mn_node : rawtrie }.

Definition isDeleted (n : memoryNode) : bool := mn_hash n =? 0.

Record NodeSet : Type := mkNodeSet {
  ns_owner : Hash;
  ns_nodes : gmap (list byte) memoryNode;
  ns_leaves : list (list byte * Hash);
  ns_updates : Z;
  ns_deletes : Z;
  ns_accessList : gmap (list byte) (list byte)
}.

Definition NewNodeSet (owner : Hash) (accessList : gmap (list byte) (list byte)) : NodeSet :=
  mkNodeSet owner ∅ [] 0 0 accessList.

Definition markUpdated (path : list byte) (n : memoryNode) (s : NodeSet) : NodeSet :=
  mkNodeSet (ns_owner s) (<[path := n]> (ns_nodes s)) (ns_leaves s) (ns_updates s + 1) (ns_deletes s) (ns_accessList s).

Definition markDeleted (path : list byte) (s : NodeSet) : NodeSet :=
  mkNodeSet (ns_owner s) (<[path := mkMemoryNode 0 0 rawNil]> (ns_nodes s)) (ns_leaves s) (ns_updates s) (ns_deletes s + 1) (ns_accessList s).

Definition addLeaf (blob : list byte) (parent : Hash) (s : NodeSet) : NodeSet :=
  mkNodeSet (ns_owner s) (ns_nodes s) (ns_leaves s ++ [(blob, parent)]) (ns_updates s) (ns_deletes s) (ns_accessList s).

(** [Size]. *)
Definition NodeSet_Size (s : NodeSet) : Z * Z := (ns_updates s, ns_deletes s).

(** [markDeletions]: only paths that were read from the database. *)
Definition markDeletions (t : tracer) (s : NodeSet) : NodeSet :=
  fold_left (fun s path => match ns_accessList s !! path with None => s | Some _ => markDeleted path s end)
    (elements (tr_deletes t)) s.

(** One set per trie. *)
Definition MergedNodeSet : Type := gmap Hash NodeSet.

(** [Merge]; [None] is the error of a second set for a trie. *)
Definition MergedNodeSet_Merge (other : NodeSet) (set : MergedNodeSet) : option MergedNodeSet :=
  match set !! ns_owner other with
  | Some _ => None
  | None => Some (<[ns_owner other := other]> set)
  end.

(** ** The committer *)

Section committer.
Context (collectLeaf : bool).

Definition collect_leaf (n : node) (nhash : Hash) (s : NodeSet) : NodeSet :=
  match n with
  | shortNode _ (valueNode val) _ => if collectLeaf then addLeaf val nhash s else s
  | _ => s
  end.

(** [store]: nodes without a hash stay in their parent. *)
Definition committer_store (path : list byte) (n : node) : GM NodeSet node :=
  let* c := gpure (node_cache n) in
  match fst c with
  | None =>
      let* s := gget id in
      (match ns_accessList s !! path with Some _ => gput (markDeleted path) | None => gret tt end) ;;;
      gret n
  | Some hash =>
      let* size := gpure (estimateSize n) in
      let* sn := gpure (simplifyNode n) in
      let nhash := BytesToHash hash in
      gput (markUpdated path (mkMemoryNode nhash (size mod 2 ^ 16) sn)) ;;;
      gput (collect_leaf n nhash) ;;;
      gret (hashNode hash)
  end.

Section children.
Context (commit : list byte -> node -> GM NodeSet node).

(** [commitChildren]. *)
Fixpoint commit_children (i : nat) (path : list byte) (cs : list node) : GM NodeSet (list node) :=
  match cs with
  | [] => gret []
  | c :: cs =>
      let* c := (if (i <? 16)%nat then
                   match c with
                   | nilNode => gret nilNode
                   | hashNode hn => gret (hashNode hn)
                   | _ => commit (path ++ [byte_of_Z (Z.of_nat i)]) c
                   end
                 else gret c) in
      let* cs := commit_children (S i) path cs in
      gret (c :: cs)
  end.
End children.

Fixpoint committer_commit (path : list byte) (n : node) : GM NodeSet node :=
  let* c := gpure (node_cache n) in
  match c with
  | (Some hash, false) => gret (hashNode hash)
  | _ =>
      match n with
      | shortNode k v fl =>
          let* v := (match v with fullNode _ _ => committer_commit (path ++ k) v | _ => gret v end) in
          let* ck := gpure (hexToCompact k) in
          committer_store path (shortNode ck v fl)
      | fullNode cs fl =>
          let* cs := commit_children committer_commit 0 path cs in
          committer_store path (fullNode cs fl)
      | hashNode h => gret n
      | _ => gpanic PanicTrie
      end
  end.

(** [Commit]. *)
Definition committer_Commit (n : node) : GM NodeSet (list byte) :=
  let* n := committer_commit [] n in
  match n with hashNode h => gret h | _ => gpanic PanicTrie end.
End committer.

(** [Trie.Commit]: the root hash, and the nodes to write ([None] for a clean trie).
    The trie is not used afterwards. *)
Definition Trie_Commit {K : Keccak} (owner : Hash) (collectLeaf : bool) : GM Trie (Hash * option NodeSet) :=
  let* tr := gget trie_tracer in
  let nodes := markDeletions tr (NewNodeSet owner (tr_accessList tr)) in
  let reset := fun t => mkTrie (trie_root t) (trie_unhashed t) newTracer in
  let* root := gget trie_root in
  match root with
  | nilNode => gput reset ;;; gret (EmptyRootHash, Some nodes)
  | _ =>
      let* rootHash := Trie_Hash in
      let* root := gget trie_root in
      let* c := gpure (node_cache root) in
      let '(hashedNode, dirty) := c in
      if negb dirty then
        gput (set_root (hashNode (default [] hashedNode))) ;;;
        gput reset ;;;
        gret (rootHash, None)
      else
        let* r := gpure (committer_Commit collectLeaf root nodes) in
        let '(h, nodes) := r in
        gput (set_root (hashNode h)) ;;;
        gput reset ;;;
        gret (rootHash, Some nodes)
  end.
