(* ===== verification/CommitSpec.v ===== *)
(** * What committing a trie keeps

    After a commit every node of the trie is in the set that is handed over or was in
    the database before, under its path and hash: a trie opened with the root hash
    from a database with both has the same contents. *)

From Stdlib Require Import Strings.Byte.
From S2P Require Import Prelude.
From S2P Require Import Common.
From S2P Require Import Rlp.
From S2P Require Import Crypto.
From S2P Require Import StateObject.
From S2P Require Import Encoding.
From S2P Require Import TrieKeys.
From S2P Require Import TrieTree.
From S2P Require Import TrieNode.
From S2P Require Import TrieStore.
From S2P Require Import Trie.
From S2P Require Import TrieSpec.
From S2P Require Import TrieHash.
From S2P Require Import TrieMap.
From S2P Require Import TrieCommit.

(** ** Nodes that can be stored *)

Definition storable (n : node) (r : rawtrie) : Prop :=
  simplifyNode n = Ret r /\ nodeToBytes r = node_encode n /\ exists z, estimateSize n = Ret z.

Lemma storable_value v : storable (valueNode v) (rawValueNode v).
Proof. split_and!; try done. by eexists. Qed.

Lemma storable_hash h : storable (hashNode h) (rawHashNode h).
Proof. split_and!; try done. by eexists. Qed.

Lemma storable_short k v r fl : storable v r -> storable (shortNode k v fl) (rawShortNode k r).
Proof.
  intros (Hr & He & z & Hz). unfold storable. cbn [simplifyNode estimateSize nodeToBytes node_encode]. rewrite Hr, Hz, He. split_and!; try done. by eexists.
Qed.

Lemma storable_full cs rs fl : Forall2 (fun c r => (c = nilNode /\ r = rawNil) \/ storable c r) cs rs -> storable (fullNode cs fl) (rawFullNode rs).
Proof.
  intros Hcs. unfold storable. cbn [simplifyNode estimateSize nodeToBytes node_encode].
  assert (map_res (fun c => match c with nilNode => Ret rawNil | _ => simplifyNode c end) cs = Ret rs /\ map nodeToBytes rs = map node_encode cs) as [-> ->].
  { induction Hcs as [|c r cs rs Hc Hcs [Hr He]]; [done|]. cbn [map_res map].
    assert (match c with nilNode => Ret rawNil | _ => simplifyNode c end = Ret r /\ nodeToBytes r = node_encode c) as [-> ->].
    { destruct Hc as [[-> ->]|(Hrc & Her & _)]; [done|]. by destruct c. }
    cbn [res_bind]. by rewrite Hr, He. }
  assert (forall n, exists ss, map_res_first (fun c => match c with nilNode => Ret 1 | _ => estimateSize c end) n cs = Ret ss) as Hs.
  { induction Hcs as [|c r cs rs Hc Hcs IH]; intros [|n]; cbn [map_res_first]; try by eexists.
    destruct (IH n) as (ss & ->). assert (exists z, match c with nilNode => Ret 1 | _ => estimateSize c end = Ret z) as (z & ->).
    { destruct Hc as [[-> _]|(_ & _ & z & Hz)]; [by eexists|]. exists z. by destruct c. }
    by eexists. }
  destruct (Hs 16%nat) as (ss & ->). split_and!; try done. by eexists.
Qed.

(** ** What is kept *)

Section kept.
Context {K : Keccak}.

(** A tree that is a node of its own: the root, and what is not embedded. *)
Definition apart (root : bool) (t : tree) : bool := root || (short_or_full t && negb (zlen (tree_enc t) <? 32)).

(** The node of a tree as the database has it, and what stands for it in its parent. *)
Fixpoint tree_raw (t : tree) : rawtrie :=
  let raw t := if apart false t then rawHashNode (tree_hash t) else tree_raw t in
  match t with
  | TNil => rawNil
  | TValue v => rawValueNode v
  | TShort k t => rawShortNode (compact k) (raw t)
  | TFull ts => rawFullNode (map raw ts)
  end.

Definition raw_at (root : bool) (t : tree) : rawtrie := if apart root t then rawHashNode (tree_hash t) else tree_raw t.

(** The trees in a tree that are nodes of their own. *)
Fixpoint trees_below (t : tree) : list tree :=
  let trees t := (if apart false t then [t] else []) ++ trees_below t in
  match t with
  | TShort _ t => trees t
  | TFull ts => concat (map trees ts)
  | _ => []
  end.

Definition trees_at (root : bool) (t : tree) : list tree := (if apart root t then [t] else []) ++ trees_below t.

Lemma apart_spec root t : short_or_full t = true -> apart root t = true <-> root = true \/ 32 <= zlen (tree_enc t).
Proof.
  intros H. unfold apart. rewrite H, orb_true_iff, andb_true_l, negb_true_iff, Z.ltb_ge. done.
Qed.

Lemma raw_at_enc root t : nodeToBytes (tree_raw t) = tree_enc t ->
  nodeToBytes (raw_at root t) = encode_item (if root then Str (tree_hash t) else tree_ref t).
Proof.
  intros H. unfold raw_at, apart. destruct root; [done|]. cbn [orb]. unfold tree_ref, collapse. fold (tree_enc t). by destruct (short_or_full t && _).
Qed.

Lemma tree_raw_enc t : nodeToBytes (tree_raw t) = tree_enc t.
Proof.
  revert t. fix IH 1. intros [|v|k t|ts]; [done..| |].
  - rewrite tree_enc_short. change (tree_raw (TShort k t)) with (rawShortNode (compact k) (raw_at false t)). cbn [nodeToBytes encode_item map concat].
    by rewrite (raw_at_enc false t (IH t)), app_nil_r.
  - rewrite tree_enc_full. change (tree_raw (TFull ts)) with (rawFullNode (map (raw_at false) ts)). cbn [nodeToBytes encode_item].
    do 2 f_equal. induction ts as [|t ts IHts]; [done|]. cbn [map]. by rewrite (raw_at_enc false t (IH t)), IHts.
Qed.

Lemma trees_child ts i t : ts !! i = Some t -> trees_at false t ⊆ trees_below (TFull ts).
Proof.
  intros Ht x Hx. cbn [trees_below]. apply list_elem_of_In, in_concat. exists (trees_at false t).
  split; [|by apply list_elem_of_In]. apply in_map. apply list_elem_of_In, list_elem_of_lookup. by exists i.
Qed.

Lemma trees_at_below root t : trees_below t ⊆ trees_at root t.
Proof. intros x Hx. apply elem_of_app. by right. Qed.

(** A node that was in the database, or that is handed over at or below a path. *)
Definition found (N : NodeStore) (s : NodeSet) (p : list byte) (c : Hash) : Prop :=
  (exists q, is_Some (NodeBlob (NodeStore:=N) q c)) \/
  exists q mn, p `prefix_of` q /\ ns_nodes s !! q = Some mn /\ isDeleted mn = false /\ mn_hash mn = c.

Lemma found_prefix N s p q c : p `prefix_of` q -> found N s q c -> found N s p c.
Proof. intros H [?|(q' & mn & Hq & Hr)]; [by left|right]. exists q', mn. split; [by etrans|done]. Qed.

Lemma found_same N s s' p c : (forall q, p `prefix_of` q -> ns_nodes s' !! q = ns_nodes s !! q) -> found N s p c -> found N s' p c.
Proof. intros H [?|(q' & mn & Hq & Hr & Hm)]; [by left|right]. exists q', mn. split; [done|]. by rewrite H. Qed.

Context (collectLeaf : bool).

(** The value of a leaf. *)
Definition leaf_value (r : rawtrie) : option (list byte) :=
  match r with rawShortNode _ (rawValueNode v) => Some v | _ => None end.

(** Paths at or below a path, and those below it only. *)
Definition upward (p q : list byte) : Prop := p `prefix_of` q.
Definition strictly (p q : list byte) : Prop := p `prefix_of` q /\ q <> p.
Implicit Types (P Q : list byte -> Prop).

(** A leaf in a set at one of these paths. *)
Definition leaf_at P (s : NodeSet) (blob : list byte) (parent : Hash) : Prop :=
  exists q mn, P q /\ ns_nodes s !! q = Some mn /\ isDeleted mn = false /\ mn_hash mn = parent /\ leaf_value (mn_node mn) = Some blob.

(** When leaves are collected, those of the new nodes are, and no others. *)
Record collects P (s s' : NodeSet) : Prop := {
  co_owner : ns_owner s' = ns_owner s;
  co_grow : forall l, l ∈ ns_leaves s -> l ∈ ns_leaves s';
  co_new : forall blob parent, (blob, parent) ∈ ns_leaves s' ->
    (blob, parent) ∈ ns_leaves s \/ (collectLeaf = true /\ leaf_at P s' blob parent);
  co_all : collectLeaf = true -> forall q mn blob, ns_nodes s' !! q = Some mn -> isDeleted mn = false ->
    leaf_value (mn_node mn) = Some blob -> ns_nodes s !! q = Some mn \/ (blob, mn_hash mn) ∈ ns_leaves s'
}.

(** What is handed over: nodes of the tree, below which their references are found. *)
Definition hands_nodes (N : NodeStore) (l : list tree) P (s s' : NodeSet) : Prop :=
  forall q mn, ns_nodes s' !! q = Some mn -> isDeleted mn = false -> ns_nodes s !! q = Some mn \/
    (P q /\ exists u, u ∈ l /\ mn_hash mn = BytesToHash (tree_hash u) /\ mn_node mn = tree_raw u /\
      forall c, c ∈ forGatherChildren (tree_raw u) -> exists x, found N s' (q ++ [x]) c).

Definition hands (N : NodeStore) (l : list tree) P (s s' : NodeSet) : Prop := hands_nodes N l P s s' /\ collects P s s'.

Lemma collects_same P s : collects P s s.
Proof. split; [done|done|by left|by left]. Qed.

Lemma hands_same N l P s : hands N l P s s.
Proof. split; [intros q mn Hq _; by left|apply collects_same]. Qed.

Lemma leaf_at_mono P Q s s' blob parent : (forall q, Q q -> P q /\ ns_nodes s' !! q = ns_nodes s !! q) ->
  leaf_at Q s blob parent -> leaf_at P s' blob parent.
Proof. intros H (q & mn & Hq & Hn & Hr). destruct (H q Hq) as [HP Hs]. exists q, mn. split; [done|]. by rewrite Hs. Qed.

Lemma collects_up P Q s s' : (forall q, Q q -> P q) -> collects Q s s' -> collects P s s'.
Proof.
  intros H []. split; [done|done| |done]. intros blob parent Hin. destruct (co_new0 blob parent Hin) as [?|[? ?]]; [by left|right].
  split; [done|]. eapply leaf_at_mono; [|done]. auto.
Qed.

Lemma collects_trans P Q s s1 s' : collects Q s s1 -> collects P s1 s' ->
  (forall q, Q q -> P q /\ ns_nodes s' !! q = ns_nodes s1 !! q) -> collects P s s'.
Proof.
  intros [o1 g1 n1 a1] [o2 g2 n2 a2] Hs. split; [congruence|auto| |].
  - intros blob parent Hin. destruct (n2 _ _ Hin) as [H|?]; [|by right]. destruct (n1 _ _ H) as [?|[? ?]]; [by left|right].
    split; [done|]. by eapply leaf_at_mono.
  - intros Hc q mn blob Hq Hd Hl. destruct (a2 Hc q mn blob Hq Hd Hl) as [Hq1|?]; [|by right].
    destruct (a1 Hc q mn blob Hq1 Hd Hl) as [?|Hin]; [by left|right]. by apply g2.
Qed.

(** A database with everything of another one. *)
Definition extends (N N' : NodeStore) : Prop := forall p h b, NodeBlob (NodeStore:=N) p h = Some b -> NodeBlob (NodeStore:=N') p h = Some b.

(** A database with the nodes of a set below a path. *)
Definition provides (N' : NodeStore) (p : list byte) (s : NodeSet) : Prop :=
  forall q mn, p `prefix_of` q -> ns_nodes s !! q = Some mn -> isDeleted mn = false ->
    NodeBlob (NodeStore:=N') q (mn_hash mn) = Some (nodeToBytes (mn_node mn)).

Lemma provides_at N' p q s h size r b : provides N' p s -> p `prefix_of` q -> ns_nodes s !! q = Some (mkMemoryNode h size r) ->
  isDeleted (mkMemoryNode h size r) = false -> nodeToBytes r = b -> NodeBlob (NodeStore:=N') q h = Some b.
Proof. intros H Hp Hq Hd <-. apply (H q _ Hp Hq Hd). Qed.

Lemma kept_mono (N N' : NodeStore) p t : extends N N' -> kept (N:=N) p t -> kept (N:=N') p t.
Proof. intros H Hk Hb. by apply H, Hk. Qed.

Lemma kids_mono (N N' : NodeStore) p t : extends N N' -> kids (N:=N) p t -> kids (N:=N') p t.
Proof.
  intros H. induction 1 as [p k v|p k ts Hk Hkids IH|p ts Hk Hkids IH].
  - constructor.
  - constructor; [by apply (kept_mono N)|done].
  - constructor; [|by eauto]. intros i t Ht Hi Hne. apply (kept_mono N N'); by eauto.
Qed.

Lemma stored_mono (N N' : NodeStore) p t : extends N N' -> stored (N:=N) p t -> stored (N:=N') p t.
Proof. intros H [Hs Hk]. split; [by apply H|by apply (kids_mono N)]. Qed.

(** No hash of the nodes is zero: zero marks deleted nodes. *)
Definition no_zero (l : list (list byte)) : Prop := forall x, x ∈ l -> BytesToHash (hashData x) <> 0.

(** What committing the nodes of a tree gives. *)
Definition commits (N : NodeStore) (root : bool) (p : list byte) (t : tree) (s : NodeSet) (n' : node) (s' : NodeSet) : Prop :=
  (root = true -> n' = hashNode (tree_hash t)) /\ storable n' (raw_at root t) /\
  (forall q, ~ p `prefix_of` q -> ns_nodes s' !! q = ns_nodes s !! q) /\
  hands N (trees_at root t) (upward p) s s' /\ (forall c, c ∈ forGatherChildren (raw_at root t) -> found N s' p c) /\
  forall N', extends N N' -> provides N' p s' ->
    (root = true \/ 32 <= zlen (tree_enc t) -> NodeBlob (NodeStore:=N') p (BytesToHash (tree_hash t)) = Some (tree_enc t)) /\ kids (N:=N') p t.

Lemma commits_stored N root p t s : stored (N:=N) p t -> root = true \/ 32 <= zlen (tree_enc t) -> short_or_full t = true ->
  commits N root p t s (hashNode (tree_hash t)) s.
Proof.
  intros Hst Hb Hsf. assert (raw_at root t = rawHashNode (tree_hash t)) as Hraw by (unfold raw_at; by rewrite (proj2 (apart_spec root t Hsf))).
  split; [done|]. rewrite Hraw. split; [apply storable_hash|]. split; [done|]. split; [apply hands_same|]. split.
  { intros c ->%list_elem_of_singleton. left. exists p. destruct Hst as [-> _]. by eexists. }
  intros N' Hext _. destruct (stored_mono N N' p t Hext Hst) as [H1 H2]. by split.
Qed.

Definition commit_ok (commit : list byte -> node -> GM NodeSet node) (N : NodeStore) (root : bool) (p : list byte) (n : node) (t : tree) : Prop :=
  forall s, exists n' s', commit p n s = Ret (n', s') /\ commits N root p t s n' s'.

Lemma prefix_digit p i j q : (p ++ [digit i]) `prefix_of` q -> (p ++ [digit j]) `prefix_of` q -> digit i = digit j.
Proof. intros [a ->] [b Hb]. rewrite <- !app_assoc in Hb. apply app_inv_head in Hb. by injection Hb. Qed.

Lemma digit_inj i j : (i < 256)%nat -> (j < 256)%nat -> digit i = digit j -> i = j.
Proof. intros Hi Hj H. apply (f_equal slot) in H. by rewrite !slot_digit in H by lia. Qed.

(** ** Storing a node *)

(** The leaves once a node is stored. *)
Definition leaves_with (r : rawtrie) (h : Hash) (ls : list (list byte * Hash)) : list (list byte * Hash) :=
  match leaf_value r with Some v => if collectLeaf then ls ++ [(v, h)] else ls | None => ls end.

Lemma collect_leaf_leaves n r h s : simplifyNode n = Ret r -> ns_leaves (collect_leaf collectLeaf n h s) = leaves_with r h (ns_leaves s).
Proof.
  unfold leaves_with. destruct n as [|cs fl|k c fl|h'|v]; cbn [simplifyNode collect_leaf]; try (by intros [= <-]).
  - destruct (map_res _ cs); [|done..]. by intros [= <-].
  - destruct c as [|cs fl'|k' c fl'|h'|v]; cbn [simplifyNode]; [done| | |by intros [= <-]|].
    + destruct (map_res _ cs); [|done..]. by intros [= <-].
    + destruct (simplifyNode c); [|done..]. by intros [= <-].
    + intros [= <-]. cbn. by destruct collectLeaf.
Qed.

Lemma store_ok root p t n s fl : short_or_full t = true -> storable n (tree_raw t) ->
  node_cache n = Ret (flag_hash fl, flag_dirty fl) -> flag_known root fl t -> (flag_hash fl <> None -> flag_hash fl = Some (tree_hash t)) ->
  exists n' s', committer_store collectLeaf p n s = Ret (n', s') /\
    (root = true -> n' = hashNode (tree_hash t)) /\ storable n' (raw_at root t) /\
    (forall q, q <> p -> ns_nodes s' !! q = ns_nodes s !! q) /\ ns_owner s' = ns_owner s /\
    if apart root t then
      ns_leaves s' = leaves_with (tree_raw t) (BytesToHash (tree_hash t)) (ns_leaves s) /\
      exists size, ns_nodes s' !! p = Some (mkMemoryNode (BytesToHash (tree_hash t)) size (tree_raw t))
    else ns_leaves s' = ns_leaves s /\ forall mn, ns_nodes s' !! p = Some mn -> isDeleted mn = false -> ns_nodes s !! p = Some mn.
Proof.
  intros Hsf (Hr & He & z & Hz) Hcache Hkn Hhash. unfold committer_store, raw_at. pose proof (apart_spec root t Hsf) as Hap.
  unfold gbind at 1, gpure at 1. rewrite Hcache. cbn [fst]. unfold flag_known in Hkn. destruct (flag_hash fl) as [h|].
  - assert (h = tree_hash t) as -> by (injection (Hhash ltac:(done)) as ->; done).
    unfold gbind, gpure, gput, gret. rewrite Hz, Hr. do 2 eexists. split; [reflexivity|].
    rewrite (proj2 Hap) by by apply Hkn. split; [done|]. split; [apply storable_hash|].
    assert (forall s, ns_nodes (collect_leaf collectLeaf n (BytesToHash (tree_hash t)) s) = ns_nodes s) as Hcl.
    { intros s'. unfold collect_leaf. repeat case_match; done. }
    rewrite Hcl. cbn [markUpdated ns_nodes]. split; [intros q Hq; by rewrite lookup_insert_ne|]. split; [unfold collect_leaf; by repeat case_match|].
    split; [by rewrite (collect_leaf_leaves n (tree_raw t)) by done|]. eexists. by rewrite lookup_insert_eq.
  - assert (apart root t = false) as Haf by (apply not_true_iff_false; intros Hb%Hap; by apply Hkn in Hb). rewrite Haf.
    assert (root = false) as -> by by apply orb_false_iff in Haf as [? _].
    unfold gbind, gget, gret. destruct (ns_accessList (id s) !! p).
    + cbn. do 2 eexists. split; [reflexivity|]. split; [done|]. split; [split_and!; by eauto|]. cbn [markDeleted ns_nodes].
      split; [intros q Hq; by rewrite lookup_insert_ne|]. split; [done|]. split; [done|]. intros mn. rewrite lookup_insert_eq. by intros [= <-].
    + do 2 eexists. split; [reflexivity|]. split; [done|]. split; [split_and!; by eauto|]. done.
Qed.

Lemma child_digit p i : (p ++ [digit i]) `prefix_of` (p ++ [digit i]).
Proof. by exists []; rewrite app_nil_r. Qed.

Lemma provides_same N' p s s' : (forall q, p `prefix_of` q -> ns_nodes s' !! q = ns_nodes s !! q) -> provides N' p s' -> provides N' p s.
Proof. intros Hs H q mn Hq Hn. apply H; [done|]. by rewrite Hs. Qed.

Lemma hands_below N l l' P Q s s' : l ⊆ l' -> (forall q, Q q -> P q) -> hands N l Q s s' -> hands N l' P s s'.
Proof.
  intros Hl Hp [H Hc]. split; [|by eapply collects_up]. intros q mn Hq Hd.
  destruct (H q mn Hq Hd) as [?|(Hpq & u & Hu & Hr)]; [by left|right]. split; [by apply Hp|]. exists u. split; [by apply Hl|done].
Qed.

(** The new nodes of one step stay what they are in steps elsewhere. *)
Lemma hands_trans N l1 l2 P p1 s s1 s' : hands N l1 (upward p1) s s1 -> hands N l2 P s1 s' -> (forall q, p1 `prefix_of` q -> P q) ->
  (forall q, p1 `prefix_of` q -> ns_nodes s' !! q = ns_nodes s1 !! q) -> hands N (l1 ++ l2) P s s'.
Proof.
  intros [H1 Hc1] [H2 Hc2] Hp Hs. split; [|eapply collects_trans; [done..|]; by auto]. intros q mn Hq Hd.
  destruct (H2 q mn Hq Hd) as [Hq1|(Hpq & u & Hu & Hr)].
  - destruct (H1 q mn Hq1 Hd) as [?|(Hpq & u & Hu & Hh & Hn & Hc)]; [by left|right]. split; [by apply Hp|]. exists u.
    split; [apply elem_of_app; by left|]. split_and!; [done..|]. intros c Hcr. destruct (Hc c Hcr) as [x Hx]. exists x. eapply found_same; [|exact Hx].
    intros q' Hq'. apply Hs. etrans; [exact Hpq|]. etrans; [by exists [x]|done].
  - right. split; [done|]. exists u. split; [apply elem_of_app; by right|done].
Qed.

Lemma strictly_more p x k q : (p ++ x :: k) `prefix_of` q -> strictly p q.
Proof.
  intros [r ->]. split; [exists (x :: k ++ r); by rewrite <- app_assoc|]. rewrite <- app_assoc. intros H.
  apply (f_equal length) in H. rewrite length_app in H. cbn in H. lia.
Qed.

(** Committing one child of a full node. *)
Definition child_commits (N : NodeStore) (i : nat) (p : list byte) (t : tree) (s : NodeSet) (c : node) (s1 : NodeSet) : Prop :=
  ((c = nilNode /\ raw_at false t = rawNil) \/ storable c (raw_at false t)) /\
  (forall q, ((i < 16)%nat -> ~ (p ++ [digit i]) `prefix_of` q) -> ns_nodes s1 !! q = ns_nodes s !! q) /\
  ((16 <= i)%nat -> s1 = s) /\
  hands N (trees_at false t) (upward (p ++ [digit i])) s s1 /\
  ((i < 16)%nat -> forall c, c ∈ forGatherChildren (raw_at false t) -> found N s1 (p ++ [digit i]) c) /\
  forall N', extends N N' -> ((i < 16)%nat -> provides N' (p ++ [digit i]) s1) -> (i < 16)%nat -> t <> TNil ->
    kept (N:=N') (p ++ [digit i]) t /\ kids (N:=N') (p ++ [digit i]) t.

Lemma commit_child_ok commit N p t n (i : nat) s : child_ok i t -> loads (N:=N) false (p ++ [digit i]) n t ->
  (canon t -> (i < 16)%nat -> commit_ok commit N false (p ++ [digit i]) n t) ->
  exists c s1, (if (i <? 16)%nat then match n with nilNode => gret nilNode | hashNode hn => gret (hashNode hn)
      | _ => commit (p ++ [byte_of_Z (Z.of_nat i)]) n end else gret n) s = Ret (c, s1) /\ child_commits N i p t s c s1.
Proof.
  intros Ht Hl Hc. destruct Ht as [->|[[Hs Hct]|[-> (v & -> & _)]]].
  - inversion Hl as [| | | |? ? ? Hsf]; subst; [|done]. exists nilNode, s. split; [by destruct (i <? 16)%nat|]. split; [by left|]. split; [done|]. split; [done|].
    split; [apply hands_same|]. split; [intros _ c Hcr; by apply elem_of_nil in Hcr|done].
  - rewrite (proj2 (Nat.ltb_lt _ _) Hs). change (byte_of_Z (Z.of_nat i)) with (digit i).
    assert (exists c s1, match n with nilNode => gret nilNode | hashNode hn => gret (hashNode hn) | _ => commit (p ++ [digit i]) n end s = Ret (c, s1) /\
      commits N false (p ++ [digit i]) t s c s1) as (c & s1 & Hr & _ & Hst & Hout & Hh & Hf & Hkeep).
    { destruct (Hc Hct Hs s) as (c & s1 & Hr & Hcs). destruct n as [| | |h|]; try by exists c, s1.
      - inversion Hl; subst. inversion Hct.
      - inversion Hl as [| | | |? ? ? Hsf Hst Hbig]; subst. exists (hashNode (tree_hash t)), s. split; [done|]. by apply commits_stored. }
    exists c, s1. split; [done|]. split; [by right|]. split; [intros q Hq; by apply Hout, Hq|]. split; [lia|]. split; [done|]. split; [done|].
    intros N' Hext Hprov _ _. destruct (Hkeep N' Hext (Hprov Hs)) as [H1 H2]. split; [|done]. intros Hb. apply H1. by right.
  - inversion Hl as [|? ? ?| | |? ? ? Hsf]; subst; [|done]. exists (valueNode v), s. split; [done|].
    split; [right; apply storable_value|]. split; [done|]. split; [done|]. split; [apply hands_same|]. split; intros; lia.
Qed.

Lemma commit_children_ok commit N p ts : forall (start : nat) ns s,
  length ns = length ts -> (start + length ts = 17)%nat ->
  (forall i n t, ns !! i = Some n -> ts !! i = Some t -> child_ok (start + i) t /\ loads (N:=N) false (p ++ [digit (start + i)]) n t) ->
  (forall i n t, ns !! i = Some n -> ts !! i = Some t -> canon t -> (start + i < 16)%nat ->
     commit_ok commit N false (p ++ [digit (start + i)]) n t) ->
  exists cs s', commit_children commit start p ns s = Ret (cs, s') /\
    Forall2 (fun c r => (c = nilNode /\ r = rawNil) \/ storable c r) cs (map (raw_at false) ts) /\
    (forall q, (forall i, (start <= i < 16)%nat -> ~ (p ++ [digit i]) `prefix_of` q) -> ns_nodes s' !! q = ns_nodes s !! q) /\
    hands N (concat (map (trees_at false) ts)) (strictly p) s s' /\
    (forall i t, ts !! i = Some t -> (start + i < 16)%nat -> forall c, c ∈ forGatherChildren (raw_at false t) -> found N s' (p ++ [digit (start + i)]) c) /\
    forall N', extends N N' -> (forall i, (start <= i < 16)%nat -> provides N' (p ++ [digit i]) s') ->
      forall i t, ts !! i = Some t -> (start + i < 16)%nat -> t <> TNil ->
        kept (N:=N') (p ++ [digit (start + i)]) t /\ kids (N:=N') (p ++ [digit (start + i)]) t.
Proof.
  induction ts as [|t ts IH]; intros start [|n ns] s Hlen H17 Hok Hcom; try done; cbn [length] in *.
  { exists [], s. split_and!; try done. apply hands_same. }
  destruct (Hok 0%nat n t eq_refl eq_refl) as [Ht Hl]. pose proof (Hcom 0%nat n t eq_refl eq_refl) as Hc. rewrite Nat.add_0_r in *.
  destruct (commit_child_ok commit N p t n start s Ht Hl Hc) as (c & s1 & Hr & Hstc & Hout1 & Hsame1 & Hh1 & Hf1 & Hkeep1).
  cbn [commit_children]. unfold gbind at 1. rewrite Hr.
  destruct (IH (S start) ns s1) as (cs & s' & Hrs & Hsts & Hout & Hh & Hf & Hkeep); [lia|lia| | |].
  - intros i m u Hm Hu. replace (S start + i)%nat with (start + S i)%nat by lia. by apply Hok.
  - intros i m u Hm Hu. replace (S start + i)%nat with (start + S i)%nat by lia. by apply Hcom.
  - assert ((start < 16)%nat -> forall q, (p ++ [digit start]) `prefix_of` q -> ns_nodes s' !! q = ns_nodes s1 !! q) as Hsame.
    { intros Hs q Hq. apply Hout. intros j Hj Hq'. pose proof (prefix_digit _ _ _ _ Hq Hq') as Hd. apply digit_inj in Hd; lia. }
    unfold gbind, gret. rewrite Hrs. exists (c :: cs), s'. split; [done|]. cbn [map concat]. split; [by constructor|]. split.
    { intros q Hq. rewrite Hout; [apply Hout1|]; intros; apply Hq; lia. }
    split.
    { destruct (decide (start < 16)%nat) as [Hs|Hs]; [apply (hands_trans N _ _ _ (p ++ [digit start]) s s1); [done|done|intros q; apply strictly_more|by apply Hsame]|].
      rewrite <- (Hsame1 ltac:(lia)). eapply hands_below; [|by intros q Hq; exact Hq|exact Hh]. intros u Hu. apply elem_of_app. by right. }
    split.
    { intros [|i] u Hu Hi d Hd.
      - injection Hu as <-. rewrite Nat.add_0_r in *. apply (found_same N s1); [by apply Hsame|by apply Hf1].
      - replace (start + S i)%nat with (S start + i)%nat by lia. apply (Hf i u); [done|lia|done]. }
    intros N' Hext Hprov [|i] u Hu Hi Hne.
    + injection Hu as <-. rewrite Nat.add_0_r in *. apply Hkeep1; [done| |done|done]. intros Hs. eapply provides_same; [|apply Hprov; lia].
      intros q Hq. by apply Hsame.
    + replace (start + S i)%nat with (S start + i)%nat by lia. apply Hkeep; [done| |done|lia|done]. intros j Hj. apply Hprov. lia.
Qed.

(** Zero hashes of the nodes below and of the node itself. *)
Lemma no_zero_sub l l' : l ⊆ l' -> no_zero l' -> no_zero l.
Proof. intros Hs H x Hx. by apply H, Hs. Qed.

Section commit.
Context (N : NodeStore).

(** A node that is clean is a hash for its parent; the others are looked into. *)
Lemma commit_known root p n t : canon t -> loads (N:=N) root p n t ->
  (match n with
   | shortNode _ _ fl | fullNode _ fl => flag_ok (N:=N) root p fl t -> (flag_hash fl = None \/ flag_dirty fl = true) ->
       commit_ok (committer_commit collectLeaf) N root p n t
   | _ => True
   end) -> commit_ok (committer_commit collectLeaf) N root p n t.
Proof.
  intros Hc Hl H. assert (short_or_full t = true) as Hsf by by destruct Hc.
  assert (forall fl, flag_ok (N:=N) root p fl t ->
    (flag_ok (N:=N) root p fl t -> (flag_hash fl = None \/ flag_dirty fl = true) -> commit_ok (committer_commit collectLeaf) N root p n t) ->
    (forall h, flag_hash fl = Some h -> flag_dirty fl = false -> forall s, committer_commit collectLeaf p n s = Ret (hashNode h, s)) ->
    commit_ok (committer_commit collectLeaf) N root p n t) as Hfl.
  { intros fl Hf Hlook Hsome. destruct (flag_hash fl) as [h|] eqn:E; [|by apply Hlook; [|left]].
    destruct (flag_dirty fl) eqn:Ed; [by apply Hlook; [|right]|]. unfold flag_ok in Hf. rewrite E, Ed in Hf. destruct Hf as (-> & Hb & Hst).
    intros s. exists (hashNode (tree_hash t)), s. split; [by apply Hsome|]. apply commits_stored; [by apply Hst|done|done]. }
  inversion Hl as [r q|r q u|r q k c t' fl Hcc Hf Hse|r q ns ts fl Hlen Hns Hf Hse|r q t' _ Hst Hbig]; subst; try (by inversion Hc).
  - apply (Hfl fl Hf H). intros h Hh Hd s. cbn [committer_commit node_cache]. unfold gbind, gpure. by rewrite Hh, Hd.
  - apply (Hfl fl Hf H). intros h Hh Hd s. cbn [committer_commit node_cache]. unfold gbind, gpure. by rewrite Hh, Hd.
  - intros s. exists (hashNode (tree_hash t)), s. split; [done|]. by apply commits_stored.
Qed.

Definition no_zero_at (root : bool) (t : tree) : Prop :=
  (root = true \/ 32 <= zlen (tree_enc t) -> BytesToHash (tree_hash t) <> 0) /\ no_zero (hashed_below t).

Lemma no_zero_child t : short_or_full t = true -> no_zero (hashed_child t) -> no_zero_at false t.
Proof.
  intros Hsf H. split.
  - intros [?|Hb]; [done|]. apply (H (tree_enc t)). by apply hashed_child_self.
  - intros x Hx. apply H. by apply hashed_below_child.
Qed.

Lemma flag_own root p fl t : flag_ok (N:=N) root p fl t -> flag_hash fl <> None -> flag_hash fl = Some (tree_hash t).
Proof. unfold flag_ok. destruct (flag_hash fl); [|done]. by intros [-> _]. Qed.

Lemma ext_ne {A} (p k q : list A) : k <> [] -> (p ++ k) `prefix_of` q -> q <> p.
Proof.
  intros Hk [r ->] H. rewrite <- app_assoc in H. apply (f_equal length) in H. rewrite !length_app in H. destruct k; [done|]. cbn in H. lia.
Qed.

(** What is found below a path is found there when the node at the path is stored. *)
Lemma found_stored s s' p q x c : (forall q, q <> p -> ns_nodes s' !! q = ns_nodes s !! q) -> p `prefix_of` q ->
  found N s (q ++ [x]) c -> found N s' (q ++ [x]) c.
Proof.
  intros H [r ->]. apply found_same. intros q' Hq'. apply H. apply (ext_ne p (r ++ [x])); [by destruct r|]. by rewrite app_assoc.
Qed.

(** The leaves once the node at the path itself is stored, or kept in its parent. *)
Lemma collects_stored p s0 s s' r h size : collects (strictly p) s0 s -> (forall q, q <> p -> ns_nodes s' !! q = ns_nodes s !! q) ->
  ns_nodes s' !! p = Some (mkMemoryNode h size r) -> isDeleted (mkMemoryNode h size r) = false ->
  ns_leaves s' = leaves_with r h (ns_leaves s) -> ns_owner s' = ns_owner s -> collects (upward p) s0 s'.
Proof.
  intros [o g n a] Hout Hp Hd Hl Ho.
  assert (forall l, l ∈ ns_leaves s -> l ∈ ns_leaves s') as Hgrow.
  { intros l Hin. rewrite Hl. unfold leaves_with. repeat case_match; [apply elem_of_app; by left|done..]. }
  assert (forall blob parent, leaf_at (strictly p) s blob parent -> leaf_at (upward p) s' blob parent) as Hkeep.
  { intros blob parent. apply leaf_at_mono. intros q [Hq Hne]. split; [done|by apply Hout]. }
  split; [congruence|by auto| |].
  - intros blob parent Hin. assert ((blob, parent) ∈ ns_leaves s \/ (collectLeaf = true /\ leaf_value r = Some blob /\ parent = h)) as [Hold|(Hc & Hv & ->)].
    { rewrite Hl in Hin. unfold leaves_with in Hin. destruct (leaf_value r) as [v|]; [|by left]. destruct collectLeaf; [|by left].
      apply elem_of_app in Hin as [?|Hin]; [by left|right]. by apply list_elem_of_singleton in Hin as [= -> ->]. }
    + destruct (n _ _ Hold) as [?|[? ?]]; [by left|right]. split; [done|by apply Hkeep].
    + right. split; [done|]. exists p, (mkMemoryNode h size r). by split_and!.
  - intros Hc q mn blob Hq Hdn Hv. destruct (decide (q = p)) as [->|Hne].
    + right. rewrite Hp in Hq. injection Hq as <-. cbn in Hv |- *. rewrite Hl. unfold leaves_with. rewrite Hv, Hc. apply elem_of_app. right. by left.
    + rewrite Hout in Hq by done. destruct (a Hc q mn blob Hq Hdn Hv) as [?|?]; [by left|right]. by apply Hgrow.
Qed.

Lemma collects_kept p s0 s s' : collects (strictly p) s0 s -> (forall q, q <> p -> ns_nodes s' !! q = ns_nodes s !! q) ->
  ns_leaves s' = ns_leaves s -> ns_owner s' = ns_owner s ->
  (forall mn, ns_nodes s' !! p = Some mn -> isDeleted mn = false -> ns_nodes s !! p = Some mn) -> collects (upward p) s0 s'.
Proof.
  intros [o g n a] Hout Hl Ho Hp. split; rewrite ?Hl; [congruence|done| |].
  - intros blob parent Hin. destruct (n _ _ Hin) as [?|[? ?]]; [by left|right]. split; [done|]. eapply leaf_at_mono; [|done].
    intros q [Hq Hne]. split; [done|by apply Hout].
  - intros Hc q mn blob Hq Hd Hv. apply (a Hc q mn blob); [|done|done]. destruct (decide (q = p)) as [->|Hne]; [by apply Hp|by rewrite <- Hout].
Qed.

(** The last step: storing the collapsed node, given what is below it. *)
Lemma finish_commit root p t n fl s0 s : canon t -> storable n (tree_raw t) ->
  match n with shortNode _ _ fl' | fullNode _ fl' => fl' = fl | _ => False end ->
  flag_known root fl t -> (flag_hash fl <> None -> flag_hash fl = Some (tree_hash t)) -> no_zero_at root t ->
  hands N (trees_below t) (strictly p) s0 s -> (forall c, c ∈ forGatherChildren (tree_raw t) -> exists x, found N s (p ++ [x]) c) ->
  exists n' s', committer_store collectLeaf p n s = Ret (n', s') /\
    (root = true -> n' = hashNode (tree_hash t)) /\ storable n' (raw_at root t) /\
    (forall q, q <> p -> ns_nodes s' !! q = ns_nodes s !! q) /\
    hands N (trees_at root t) (upward p) s0 s' /\ (forall c, c ∈ forGatherChildren (raw_at root t) -> found N s' p c) /\
    forall N', provides N' p s' -> root = true \/ 32 <= zlen (tree_enc t) ->
      NodeBlob (NodeStore:=N') p (BytesToHash (tree_hash t)) = Some (tree_enc t).
Proof.
  intros Hc Hst Hn Hk Hh Hz Hhands Hrefs. assert (short_or_full t = true) as Hsf by by destruct Hc. pose proof (apart_spec root t Hsf) as Hap.
  destruct (store_ok root p t n s fl Hsf Hst) as (n' & s' & Hr & Hroot & Hst' & Hout & Hown & Hput); [by destruct n; subst|done|done|].
  exists n', s'. split; [done|]. split; [done|]. split; [done|]. split; [done|].
  assert (forall q u, p `prefix_of` q -> (forall c, c ∈ forGatherChildren (tree_raw u) -> exists x, found N s (q ++ [x]) c) ->
    forall c, c ∈ forGatherChildren (tree_raw u) -> exists x, found N s' (q ++ [x]) c) as Hup.
  { intros q u Hq H c Hcr. destruct (H c Hcr) as [x Hx]. exists x. by apply (found_stored s s' p). }
  destruct Hhands as [Hhands Hcol].
  assert (forall q mn, ns_nodes s !! q = Some mn -> isDeleted mn = false -> ns_nodes s0 !! q = Some mn \/
    (p `prefix_of` q /\ exists u, u ∈ trees_at root t /\ mn_hash mn = BytesToHash (tree_hash u) /\ mn_node mn = tree_raw u /\
      forall c, c ∈ forGatherChildren (tree_raw u) -> exists x, found N s' (q ++ [x]) c)) as Hold.
  { intros q mn Hq Hd. destruct (Hhands q mn Hq Hd) as [?|([Hpq _] & u & Hu & H1 & H2 & H3)]; [by left|right]. split; [done|]. exists u.
    split; [by apply trees_at_below|]. split_and!; [done..|]. by apply Hup. }
  destruct (apart root t) eqn:E.
  - destruct Hput as [Hleaves [size Hput]]. assert (isDeleted (mkMemoryNode (BytesToHash (tree_hash t)) size (tree_raw t)) = false) as Hnd.
    { unfold isDeleted. cbn [mn_hash]. apply Z.eqb_neq, (proj1 Hz). by apply Hap. }
    split; [split; [|by apply (collects_stored p s0 s s' (tree_raw t) (BytesToHash (tree_hash t)) size)]|split].
    + intros q mn Hq Hd. destruct (decide (q = p)) as [->|Hne]; [|apply Hold; [by rewrite <- Hout|done]]. rewrite Hput in Hq. injection Hq as <-. right.
      split; [done|]. exists t. split; [unfold trees_at; rewrite E; by left|]. split_and!; [done..|]. by apply (Hup p t).
    + intros c Hcr. unfold raw_at in Hcr. rewrite E in Hcr. apply list_elem_of_singleton in Hcr as ->. right.
      exists p, (mkMemoryNode (BytesToHash (tree_hash t)) size (tree_raw t)). by split_and!.
    + intros N' Hprov _. exact (provides_at N' p p s' _ size _ _ Hprov (reflexivity p) Hput Hnd (tree_raw_enc t)).
  - destruct Hput as [Hleaves Hput]. split; [split; [|by apply (collects_kept p s0 s s')]|split].
    + intros q mn Hq Hd. apply Hold; [|done]. destruct (decide (q = p)) as [->|Hne]; [by apply Hput|by rewrite <- Hout].
    + intros c Hcr. unfold raw_at in Hcr. rewrite E in Hcr. destruct (Hup p t ltac:(done) Hrefs c Hcr) as [x Hx]. eapply found_prefix; [|exact Hx]. by exists [x].
    + intros N' _ Hb%Hap. done.
Qed.

Lemma dirty_body {A} fl (f : list byte -> A) (g : A) : flag_hash fl = None \/ flag_dirty fl = true ->
  match (flag_hash fl, flag_dirty fl) with (Some h, false) => f h | _ => g end = g.
Proof. intros [->| ->]; [done|by destruct (flag_hash fl)]. Qed.

(** The child of a short node: a value, a hash, or a full node. *)
Lemma commit_short_child root p k c t fl s : canon (TShort k t) -> loads (N:=N) root p (shortNode k c fl) (TShort k t) ->
  loads (N:=N) false (p ++ k) c t -> (canon t -> commit_ok (committer_commit collectLeaf) N false (p ++ k) c t) ->
  exists c' s1, match c with fullNode _ _ => committer_commit collectLeaf (p ++ k) c | _ => gret c end s = Ret (c', s1) /\
    storable c' (raw_at false t) /\ (forall q, ~ p `prefix_of` q -> ns_nodes s1 !! q = ns_nodes s !! q) /\
    hands N (trees_below (TShort k t)) (strictly p) s s1 /\
    (forall d, d ∈ forGatherChildren (tree_raw (TShort k t)) -> exists x, found N s1 (p ++ [x]) d) /\
    forall N', extends N N' -> provides N' (p ++ k) s1 -> kids (N:=N') p (TShort k t).
Proof.
  intros Hc _ Hl IH. apply canon_short_inv in Hc as [(ns & v & -> & _ & -> & _)|(_ & Hne & ts & -> & Hct)].
  - inversion Hl as [|? ? ?| | |? ? ? Hsf]; subst; [|done]. exists (valueNode v), s. split_and!; try done; [apply storable_value|apply hands_same| |].
    + intros d Hd. by apply elem_of_nil in Hd.
    + intros. constructor.
  - destruct k as [|x k]; [done|]. assert ((p ++ [x]) `prefix_of` (p ++ x :: k)) as Hpx by (exists k; by rewrite <- app_assoc).
    assert (p `prefix_of` (p ++ x :: k)) as Hpk by by eexists.
    assert (forall c' s1, commits N false (p ++ x :: k) (TFull ts) s c' s1 -> storable c' (raw_at false (TFull ts)) /\
      (forall q, ~ p `prefix_of` q -> ns_nodes s1 !! q = ns_nodes s !! q) /\ hands N (trees_below (TShort (x :: k) (TFull ts))) (strictly p) s s1 /\
      (forall d, d ∈ forGatherChildren (tree_raw (TShort (x :: k) (TFull ts))) -> exists y, found N s1 (p ++ [y]) d) /\
      forall N', extends N N' -> provides N' (p ++ x :: k) s1 -> kids (N:=N') p (TShort (x :: k) (TFull ts))) as Hgo.
    { intros c' s1 (_ & Hst & Hout & Hh & Hf & Hkeep). split; [done|]. split; [intros q Hq; apply Hout; intros Hq'; apply Hq; by etrans|].
      split; [eapply hands_below; [|intros q; apply strictly_more|exact Hh]; done|]. split; [intros d Hd; exists x; eapply found_prefix; [exact Hpx|by apply Hf]|].
      intros N' Hext Hprov. destruct (Hkeep N' Hext Hprov) as [H1 H2]. constructor; [|done]. intros Hb. apply H1. by right. }
    inversion Hl as [| | |? ? ns' ? fl' Hlen Hns Hfl' Hse'|? ? ? Hsf Hst Hbig]; subst.
    + destruct (IH Hct s) as (c' & s1 & Hr & Hcs). exists c', s1. split; [done|by apply Hgo].
    + exists (hashNode (tree_hash (TFull ts))), s. split; [done|]. apply Hgo. by apply commits_stored.
Qed.

Lemma commit_short root p k c t fl : canon (TShort k t) -> loads (N:=N) root p (shortNode k c fl) (TShort k t) -> sealed root (shortNode k c fl) (TShort k t) ->
  flag_ok (N:=N) root p fl (TShort k t) -> flag_hash fl = None \/ flag_dirty fl = true ->
  loads (N:=N) false (p ++ k) c t -> no_zero_at root (TShort k t) ->
  (canon t -> commit_ok (committer_commit collectLeaf) N false (p ++ k) c t) ->
  commit_ok (committer_commit collectLeaf) N root p (shortNode k c fl) (TShort k t).
Proof.
  intros Hc Hl0 Hse Hf Hd Hl Hz IH s. destruct (compact_ok k (canon_short_key _ _ Hc)) as (Hck & _ & _).
  assert (flag_known root fl (TShort k t)) as Hk by by inversion Hse. pose proof (flag_own _ _ _ _ Hf) as Hown.
  destruct (commit_short_child root p k c t fl s Hc Hl0 Hl IH) as (c' & s1 & Hr & Hst & Hout & Hh & Hfd & Hkeep).
  destruct (finish_commit root p (TShort k t) (shortNode (compact k) c' fl) fl s s1 Hc) as (n' & s' & Hrs & Hroot & Hst' & Hout' & Hh' & Hfd' & Hput);
    [by apply (storable_short _ _ (raw_at false t))|done|done|done|done|done|done|].
  exists n', s'. split.
  { cbn [committer_commit node_cache]. unfold gbind, gpure. rewrite (dirty_body fl _ _ Hd). unfold gbind in *. rewrite Hr, Hck. exact Hrs. }
  split; [done|]. split; [done|]. split; [|split; [done|split; [done|]]].
  - intros q Hq. rewrite Hout'; [by apply Hout|]. intros ->. apply Hq. by exists []; rewrite app_nil_r.
  - intros N' Hext Hprov. split; [by apply Hput|]. apply Hkeep; [done|]. assert (k <> []) as Hkne.
    { apply canon_short_inv in Hc as [(ns & v & -> & _)|(_ & ? & _)]; [by destruct ns|done]. }
    eapply provides_same; [|intros q mn Hq; apply Hprov; destruct Hq as [r ->]; exists (k ++ r); by rewrite app_assoc].
    intros q Hq. apply Hout'. by apply (ext_ne p k).
Qed.

Lemma gather_full rs d : d ∈ forGatherChildren (rawFullNode rs) -> exists i r, rs !! i = Some r /\ (i < 16)%nat /\ d ∈ forGatherChildren r.
Proof.
  cbn [forGatherChildren]. intros (l & Hl & Hd)%list_elem_of_In%in_concat. apply list_elem_of_In, list_elem_of_lookup in Hl as [i Hi].
  apply lookup_take_Some in Hi as [Hi Hlt]. rewrite (list_lookup_fmap forGatherChildren rs i : map forGatherChildren rs !! i = _) in Hi.
  destruct (rs !! i) as [r|] eqn:E; [|done]. injection Hi as <-. exists i, r. by rewrite list_elem_of_In.
Qed.

Lemma commit_full root p ns ts fl : canon (TFull ts) -> sealed root (fullNode ns fl) (TFull ts) ->
  flag_ok (N:=N) root p fl (TFull ts) -> flag_hash fl = None \/ flag_dirty fl = true -> length ns = length ts ->
  (forall i n t, ns !! i = Some n -> ts !! i = Some t -> loads (N:=N) false (p ++ [digit i]) n t) -> no_zero_at root (TFull ts) ->
  (forall i n t, ns !! i = Some n -> ts !! i = Some t -> canon t -> (i < 16)%nat ->
     commit_ok (committer_commit collectLeaf) N false (p ++ [digit i]) n t) ->
  commit_ok (committer_commit collectLeaf) N root p (fullNode ns fl) (TFull ts).
Proof.
  intros Hc Hse Hf Hd Hlen Hl Hz IH s. assert (flag_known root fl (TFull ts)) as Hk by by inversion Hse. pose proof (flag_own _ _ _ _ Hf) as Hown.
  pose proof (full_length _ Hc) as Hl17.
  destruct (commit_children_ok (committer_commit collectLeaf) N p ts 0 ns s) as (cs & s1 & Hr & Hst & Hout & Hh & Hfd & Hkeep).
  - done.
  - lia.
  - intros i n t Hn Ht. split; [by apply (canon_child ts)|by apply Hl].
  - intros i n t Hn Ht Hct Hi. by apply IH.
  - destruct (finish_commit root p (TFull ts) (fullNode cs fl) fl s s1 Hc) as (n' & s' & Hrs & Hroot & Hst' & Hout' & Hh' & Hfd' & Hput);
      [by apply storable_full|done|done|done|done|done| |].
    { intros d Hdr. change (tree_raw (TFull ts)) with (rawFullNode (map (raw_at false) ts)) in Hdr. apply gather_full in Hdr as (i & r & Hi & Hlt & Hdr). rewrite (list_lookup_fmap (raw_at false) ts i : map (raw_at false) ts !! i = _) in Hi.
      destruct (ts !! i) as [t|] eqn:E; [|done]. injection Hi as <-. exists (digit i). by apply (Hfd i t). }
    exists n', s'. split.
    { cbn [committer_commit node_cache]. unfold gbind, gpure. rewrite (dirty_body fl _ _ Hd). unfold gbind in *. rewrite Hr. exact Hrs. }
    split; [done|]. split; [done|]. split; [|split; [done|split; [done|]]].
    + intros q Hq. rewrite Hout'; [|intros ->; apply Hq; by exists []; rewrite app_nil_r]. apply Hout. intros i _ [r ->]. apply Hq.
      exists (digit i :: r). by rewrite <- app_assoc.
    + intros N' Hext Hprov. split; [by apply Hput|].
      assert (forall i t, ts !! i = Some t -> (0 + i < 16)%nat -> t <> TNil -> kept (N:=N') (p ++ [digit (0 + i)]) t /\ kids (N:=N') (p ++ [digit (0 + i)]) t) as Hkids.
      { apply Hkeep; [done|]. intros i Hi. eapply provides_same; [|intros q mn Hq; apply Hprov; destruct Hq as [r ->]; exists (digit i :: r); by rewrite <- app_assoc].
        intros q Hq. apply Hout'. by apply (ext_ne p [digit i]). }
      constructor; intros i t Ht Hi Hne; by apply (Hkids i t).
Qed.

Lemma committer_commit_ok t : canon t -> forall root p n, loads (N:=N) root p n t -> sealed root n t -> no_zero_at root t ->
  commit_ok (committer_commit collectLeaf) N root p n t.
Proof.
  intros Hc. induction Hc as [ns v Hn Hv|k ts Hk Hne Hc IH|ts Hlen Hchild IH Hval Htwo]; intros root p n Hl Hse Hz.
  - pose proof (canon_leaf ns v Hn Hv) as Hc. apply commit_known; [done..|].
    destruct n; try done; inversion Hl; subst. intros Hf Hd. apply commit_short; try done. by inversion 1.
  - pose proof (canon_ext k ts Hk Hne Hc) as Hck. apply commit_known; [done..|].
    destruct n; try done; inversion Hl; subst. intros Hf Hd. apply commit_short; try done. intros _. apply IH; [done|by inversion Hse|].
    apply no_zero_child; [done|]. apply Hz.
  - assert (canon (TFull ts)) as Hc by by constructor. apply commit_known; [done..|].
    destruct n as [|cs fl| | |]; try done; inversion Hl as [| | |? ? ? ? ? Hlc Hlk ? ?|]; subst. intros Hf Hd. apply commit_full; try done.
    intros i n t Hn Ht Hct Hi. apply (IH i t); [done|done|by apply canon_not_nil|by apply Hlk|inversion Hse as [| | | |? ? ? ? Hall ?]; subst; by apply (Hall i)|].
    apply no_zero_child; [by destruct Hct|]. eapply no_zero_sub; [by apply (hashed_child_below ts i)|]. apply Hz.
Qed.
End commit.
End kept.

(** ** Committing and opening again *)

Section reopen.
Context {K : Keccak}.

Lemma Trie_Hash_run (N : NodeStore) T m t : loads (N:=N) true [] (trie_root T) t -> tree_of t m -> t <> TNil ->
  exists cached, Trie_Hash T = Ret (tree_root t, mkTrie cached 0 (trie_tracer T)) /\ loads (N:=N) true [] cached t /\ sealed true cached t.
Proof.
  intros Hl [[?|Hc] Hh] Hne; [done|]. destruct (hasher_hash_ok t Hc true [] _ Hl) as (hashed & cached & Hr & _ & Hhash & Hl' & Hs).
  exists cached. split; [|done]. assert (trie_root T <> nilNode) as Hn by (intros He; by apply (loads_nil_iff _ _ _ _ Hl) in He).
  unfold Trie_Hash, gbind, gget. rewrite tree_root_canon by done.
  destruct (trie_root T) eqn:E; [done|..]; unfold gpure; rewrite Hr, (Hhash eq_refl); reflexivity.
Qed.

Definition handed (N' : NodeStore) (set : option NodeSet) : Prop := match set with Some s => provides N' [] s | None => True end.

(** The leaves that were collected are those of the nodes in the set. *)
Record collected (collectLeaf : bool) (s : NodeSet) : Prop := {
  cd_leaf : forall blob parent, (blob, parent) ∈ ns_leaves s -> collectLeaf = true /\ leaf_at (upward []) s blob parent;
  cd_node : collectLeaf = true -> forall q mn blob, ns_nodes s !! q = Some mn -> isDeleted mn = false ->
    leaf_value (mn_node mn) = Some blob -> (blob, mn_hash mn) ∈ ns_leaves s
}.

(** A set that is handed over has nodes of the tree whose references are found, below
    them in the set or in the database, the root is found, and the leaves are collected. *)
Definition set_of (N : NodeStore) (collectLeaf : bool) (t : tree) (set : option NodeSet) : Prop :=
  match set with
  | Some s =>
      (forall q mn, ns_nodes s !! q = Some mn -> isDeleted mn = false ->
        exists u, u ∈ trees_at true t /\ mn_hash mn = BytesToHash (tree_hash u) /\ mn_node mn = tree_raw u /\
          forall c, c ∈ forGatherChildren (tree_raw u) -> exists x, found N s (q ++ [x]) c) /\
      (t <> TNil -> found N s [] (tree_root t)) /\ collected collectLeaf s
  | None => stored (N:=N) [] t
  end.

Lemma markDeletions_deleted tr owner al q mn : ns_nodes (markDeletions tr (NewNodeSet owner al)) !! q = Some mn -> isDeleted mn = true.
Proof.
  unfold markDeletions. assert (forall q mn, ns_nodes (NewNodeSet owner al) !! q = Some mn -> isDeleted mn = true) as H0 by done. revert H0.
  generalize (NewNodeSet owner al) as s. revert q mn. induction (elements (tr_deletes tr)) as [|path l IH]; intros q mn s Hs; cbn [fold_left]; [by apply Hs|].
  apply IH. destruct (ns_accessList s !! path); [|done]. cbn. intros q' mn'. rewrite lookup_insert_Some. intros [[_ <-]|[_ ?]]; [done|by apply (Hs q')].
Qed.

(** The set is that of the trie. *)
Definition owned (owner : Hash) (set : option NodeSet) : Prop := match set with Some s => ns_owner s = owner | None => True end.

Lemma markDeletions_owner tr owner al : ns_owner (markDeletions tr (NewNodeSet owner al)) = owner.
Proof.
  unfold markDeletions. assert (ns_owner (NewNodeSet owner al) = owner) as H by done. revert H. generalize (NewNodeSet owner al) as s.
  induction (elements (tr_deletes tr)) as [|q l IH]; intros s Hs; [done|]. cbn [fold_left]. apply IH. by destruct (ns_accessList s !! q).
Qed.

Lemma markDeletions_leaves tr owner al : ns_leaves (markDeletions tr (NewNodeSet owner al)) = [].
Proof.
  unfold markDeletions. assert (ns_leaves (NewNodeSet owner al) = []) as H by done. revert H. generalize (NewNodeSet owner al) as s.
  induction (elements (tr_deletes tr)) as [|q l IH]; intros s Hs; [done|]. cbn [fold_left]. apply IH. by destruct (ns_accessList s !! q).
Qed.

Lemma Trie_Commit_ok (N : NodeStore) owner collectLeaf T m l :
  trie_rep (N:=N) T m -> committed m l -> no_zero l -> (forall x, x ∈ l -> BytesToHash (hashData x) <> EmptyRootHash) ->
  exists t h set T', Trie_Commit owner collectLeaf T = Ret ((h, set), T') /\ tree_of t m /\ h = tree_root t /\ (set_of N collectLeaf t set /\ owned owner set) /\
    forall N', extends N N' -> handed N' set -> exists T2, Trie_New (N:=N') h = Ret (inl T2) /\ trie_rep (N:=N') T2 m.
Proof.
  intros [(t & Hl & Ht) Hf] (u & Hu & ->) Hz He. rewrite (tree_of_unique _ _ _ Hu Ht) in *. clear u Hu.
  unfold Trie_Commit, gbind at 1 2, gget at 1 2. set (nodes := markDeletions _ _).
  destruct (decide (t = TNil)) as [->|Hne].
  - assert (trie_root T = nilNode) as -> by by apply (loads_nil_iff _ _ _ _ Hl). exists TNil. do 3 eexists. split; [reflexivity|].
    split; [done|]. split; [done|]. split; [split; [|apply markDeletions_owner]; split; [|split; [done|]]|].
    { intros q mn Hq Hd. apply markDeletions_deleted in Hq. congruence. }
    { split; [intros blob parent Hin; unfold nodes in Hin; rewrite markDeletions_leaves in Hin; by apply elem_of_nil in Hin|].
      intros _ q mn blob Hq Hd. apply markDeletions_deleted in Hq. congruence. }
    intros N' _ _. apply tree_of_nil in Ht as ->. apply Trie_New_empty. by right.
  - assert (trie_root T <> nilNode) as Hn by (intros Hn; by apply (loads_nil_iff _ _ _ _ Hl) in Hn).
    destruct (Trie_Hash_run N T m t Hl Ht Hne) as (cached & Hh & Hl' & Hs).
    pose proof Ht as [[?|Hc] _]; [done|].
    assert (tree_root t <> 0 /\ tree_root t <> EmptyRootHash) as [Hr0 Hre].
    { rewrite tree_root_canon by done. destruct t; [done|inversion Hc|..]; split; (apply Hz || apply He); by left. }
    assert (forall N' , stored (N:=N') [] t -> exists T2, Trie_New (N:=N') (tree_root t) = Ret (inl T2) /\ trie_rep (N:=N') T2 m) as Hopen.
    { intros N' Hst. by apply (Trie_New_stored (N:=N') t m). }
    assert (no_zero_at true t) as Hza.
    { split; [intros _; rewrite <- tree_root_canon by done; done|]. eapply no_zero_sub; [|exact Hz]. destruct t; try done; intros x Hx; by right. }
    assert (exists h set T', (let* rootHash := Trie_Hash in
      let* root := gget trie_root in
      let* c := gpure (node_cache root) in
      let '(hashedNode, dirty) := c in
      if negb dirty then
        gput (set_root (hashNode (default [] hashedNode))) ;;;
        gput (fun t => mkTrie (trie_root t) (trie_unhashed t) newTracer) ;;;
        gret (rootHash, None)
      else
        let* r := gpure (committer_Commit collectLeaf root nodes) in
        let '(h, nodes) := r in
        gput (set_root (hashNode h)) ;;;
        gput (fun t => mkTrie (trie_root t) (trie_unhashed t) newTracer) ;;;
        gret (rootHash, Some nodes)) T = Ret ((h, set), T') /\ h = tree_root t /\ (set_of N collectLeaf t set /\ owned owner set) /\
      forall N', extends N N' -> handed N' set -> exists T2, Trie_New (N:=N') h = Ret (inl T2) /\ trie_rep (N:=N') T2 m) as Hmain.
    { unfold gbind at 1. rewrite Hh. unfold gbind at 1, gget at 1. cbn [trie_root].
      destruct (committer_commit_ok collectLeaf N t Hc true [] cached Hl' Hs Hza nodes) as (n' & s' & Hr & Hn' & _ & _ & [Hhands [Howner _ Hnew Hall]] & Hfound & Hkeep).
      pose proof (Hn' eq_refl) as ->.
      assert (committer_Commit collectLeaf cached nodes = Ret (tree_hash t, s')) as Hcommit by (unfold committer_Commit, gbind; by rewrite Hr).
      assert (exists h d, node_cache cached = Ret (h, d) /\ (d = false -> stored (N:=N) [] t)) as (h & d & Hcache & Hclean).
      { inversion Hl' as [| |r p k n2 t2 fl Hlc Hfl Hse|r p ns ts fl Hlen Hns Hfl Hse|]; subst; try done; cbn [node_cache]; do 2 eexists; (split; [reflexivity|]);
          try done; intros Hd; inversion Hs as [| | |? ? ? ? ? ? Hk|? ? ? ? ? Hk]; subst; unfold flag_ok in Hfl; destruct (flag_hash fl) eqn:Ef;
          try (by apply Hfl); exfalso; apply (proj2 Hk); [by left|done|by left|done]. }
      unfold gbind at 1, gpure at 1. rewrite Hcache. destruct d; cbn [negb].
      - unfold gbind at 1, gpure at 1. rewrite Hcommit. do 3 eexists. split; [reflexivity|]. split; [done|]. split.
        { split; [|cbn; rewrite Howner; apply markDeletions_owner]. split; [intros q mn Hq Hd; destruct (Hhands q mn Hq Hd) as [Hold|[_ ?]]; [apply markDeletions_deleted in Hold; congruence|done]|].
          split; [intros _; apply Hfound; rewrite tree_root_canon by done; by left|]. split.
          - intros blob parent Hin. destruct (Hnew _ _ Hin) as [Hold|?]; [|done]. unfold nodes in Hold. rewrite markDeletions_leaves in Hold.
            by apply elem_of_nil in Hold.
          - intros Hcl q mn blob Hq Hd Hv. destruct (Hall Hcl q mn blob Hq Hd Hv) as [Hold|?]; [|done].
            apply markDeletions_deleted in Hold. congruence. }
        intros N' Hext Hprov. apply Hopen. destruct (Hkeep N' Hext Hprov) as [H1 H2]. split; [|done]. apply H1. by left.
      - do 3 eexists. split; [reflexivity|]. split; [done|]. split; [split; [by apply Hclean|done]|]. intros N' Hext _. apply Hopen. apply (stored_mono N); auto. }
    exists t. destruct Hmain as (h & set & T' & Hr & Hmain). exists h, set, T'. split; [by destruct (trie_root T)|by split].
Qed.
End reopen.

(** C14: What is committed can be opened again: committing a trie gives the root hash of its
    contents and a set of nodes, and from any database that holds these nodes, beside
    what it held before, the trie opened with the root hash has the same contents.
    The hashes of the nodes must not be zero, which marks deleted nodes, nor that of
    the empty trie. *)
Theorem commit_reopens {K : Keccak} (N : NodeStore) owner collectLeaf T m l :
  trie_rep (N:=N) T m -> committed m l -> no_zero l -> (forall x, x ∈ l -> BytesToHash (hashData x) <> EmptyRootHash) ->
  exists h set T', Trie_Commit owner collectLeaf T = Ret ((h, set), T') /\ root_of m h /\
    forall N', extends N N' -> handed N' set -> exists T2, Trie_New (N:=N') h = Ret (inl T2) /\ trie_rep (N:=N') T2 m.
Proof.
  intros HT Hl Hz He. destruct (Trie_Commit_ok N owner collectLeaf T m l HT Hl Hz He) as (t & h & set & T' & Hr & Ht & -> & _ & Hopen).
  exists (tree_root t), set, T'. split; [done|]. split; [by exists t|done].
Qed.
