(* ===== verification/StackTrie.v ===== *)
(** * Stack tries (client/trie/stacktrie.go)

    A trie that takes its keys in increasing order and keeps only the path to the last
    of them: a subtree that is complete is replaced by its hash at once. *)

From Stdlib Require Import Strings.Byte.
From S2P Require Import Prelude.
From S2P Require Import Common.
From S2P Require Import Rlp.
From S2P Require Import Crypto.
From S2P Require Import StateObject.
From S2P Require Import Encoding.
From S2P Require Import TrieKeys.
From S2P Require Import TrieNode.

(** ** Data *)

(** The values of [nodeType]. *)
Definition emptyNode : Z := 0.
Definition branchNode : Z := 1.
Definition extNode : Z := 2.
Definition leafNode : Z := 3.
Definition hashedNode : Z := 4.

(** The owner and the write function are the same for all nodes of a trie; nodes are
    taken from the pool as [Reset] left them. *)
Inductive StackTrie : Type :=
| mkStack (nodeType : Z) (val key : list byte) (children : list (option StackTrie)).

Definition st_type (st : StackTrie) : Z := let 'mkStack ty _ _ _ := st in ty.
Definition st_val (st : StackTrie) : list byte := let 'mkStack _ v _ _ := st in v.
Definition st_key (st : StackTrie) : list byte := let 'mkStack _ _ k _ := st in k.
Definition st_children (st : StackTrie) : list (option StackTrie) := let 'mkStack _ _ _ cs := st in cs.

Definition no_stacks : list (option StackTrie) := replicate 16 None.

Definition NewStackTrie : StackTrie := mkStack emptyNode [] [] no_stacks.

Definition newLeaf (key val : list byte) : StackTrie := mkStack leafNode val key no_stacks.
Definition newExt (key : list byte) (child : StackTrie) : StackTrie :=
  mkStack extNode [] key (<[0%nat := Some child]> no_stacks).

(** [Reset]. *)
Definition StackTrie_Reset (_ : StackTrie) : StackTrie := NewStackTrie.

(** ** Nodes as they are encoded *)

Inductive rawnode : Type :=
| rawNode (blob : list byte)
| rawHash (h : list byte)
| rawValue (v : list byte).

Definition rawnode_encode (n : rawnode) : list byte :=
  match n with
  | rawNode b => b
  | rawHash h => writeBytes h
  | rawValue v => writeBytes v
  end.

(** [rawFullNode.encode]: an absent child is an empty string. *)
Definition rawFullNode_encode (cs : list (option rawnode)) : list byte :=
  write_list (concat (map (fun c => match c with Some c => rawnode_encode c | None => writeBytes [] end) cs)).

(** [rawShortNode.encode]. *)
Definition rawShortNode_encode (key : list byte) (v : option rawnode) : list byte :=
  write_list (writeBytes key ++ match v with Some v => rawnode_encode v | None => writeBytes [] end).

(** ** Hashing *)

(** A node handed to the write function: path, hash and encoding. *)
Definition written : Type := list byte * Hash * list byte.

Section hashing.
Context {K : Keccak} (writeFn : bool).

(** What a parent keeps of a hashed child. *)
Definition raw_child (child : StackTrie) : rawnode :=
  if zlen (st_val child) <? 32 then rawNode (st_val child) else rawHash (st_val child).

(** The last steps of [hashRec]. *)
Definition seal (encodedNode path : list byte) (children : list (option StackTrie)) (ws : list written) : StackTrie * list written :=
  if zlen encodedNode <? 32 then (mkStack hashedNode encodedNode [] children, ws)
  else
    let h := hashData encodedNode in
    (mkStack hashedNode h [] children, ws ++ (if writeFn then [(path, BytesToHash h, encodedNode)] else [])).

Section children.
Context (hashRec : list byte -> StackTrie -> Res (StackTrie * list written)).

(** The loop over the children of a branch: the nodes and what is written. *)
Fixpoint hash_stacks (i : nat) (path : list byte) (cs : list (option StackTrie)) : Res (list (option rawnode) * list written) :=
  match cs with
  | [] => Ret ([], [])
  | None :: cs =>
      let? r := hash_stacks (S i) path cs in
      Ret (Some (rawValue []) :: fst r, snd r)
  | Some child :: cs =>
      let? c := hashRec (path ++ [byte_of_Z (Z.of_nat i)]) child in
      let? r := hash_stacks (S i) path cs in
      Ret (Some (raw_child (fst c)) :: fst r, snd c ++ snd r)
  end.
End children.

Fixpoint hashRec (path : list byte) (st : StackTrie) : Res (StackTrie * list written) :=
  let 'mkStack ty val key children := st in
  if ty =? hashedNode then Ret (st, [])
  else if ty =? emptyNode then Ret (mkStack hashedNode (hash_bytes EmptyRootHash) [] children, [])
  else if ty =? branchNode then
    let? r := hash_stacks hashRec 0 path children in
    Ret (seal (rawFullNode_encode (fst r ++ [None])) path (map (fun _ => None) children) (snd r))
  else if ty =? extNode then
    match children with
    | Some child :: rest =>
        let? c := hashRec (path ++ key) child in
        let? ck := hexToCompact key in
        Ret (seal (rawShortNode_encode ck (Some (raw_child (fst c)))) path (None :: rest) (snd c))
    | _ => Panic PanicNil
    end
  else if ty =? leafNode then
    let? ck := hexToCompact (key ++ [Byte.x10]) in
    Ret (seal (rawShortNode_encode ck (Some (rawValue val))) path children [])
  else Panic PanicTrie.

(** ** Insertion *)

(** [getDiffIndex] on the key of the node, or a panic if the key given ends first. *)
Fixpoint getDiffIndex (stkey key : list byte) : Res nat :=
  match stkey with
  | [] => Ret 0%nat
  | nibble :: stkey =>
      match key with
      | [] => Panic PanicIndex
      | x :: key => if Byte.eqb nibble x then (let? d := getDiffIndex stkey key in Ret (S d)) else Ret 0%nat
      end
  end.

(** "Unresolve elder siblings": the loop down from [i - 1] to the first child there is. *)
Fixpoint hash_elder (i : nat) (prefix : list byte) (cs : list (option StackTrie)) : Res (list (option StackTrie) * list written) :=
  match i with
  | O => Ret (cs, [])
  | S i =>
      let? c := go_index cs (Z.of_nat i) in
      match c with
      | None => hash_elder i prefix cs
      | Some child =>
          if negb (st_type child =? hashedNode) then
            let? r := hashRec (prefix ++ [byte_of_Z (Z.of_nat i)]) child in
            Ret (<[i := Some (fst r)]> cs, snd r)
          else Ret (cs, [])
      end
  end.

(** A branch that takes the place of a short node, below what is left of its key if
    there is something. *)
Definition split_node (val key : list byte) (children : list (option StackTrie)) (diffidx : nat) (origIdx newIdx : byte)
    (n o : StackTrie) : Res StackTrie :=
  let? p := (if bool_decide (diffidx = 0%nat) then go_update children 0 None else Ret no_stacks) in
  let? p := go_update p (byte_val origIdx) (Some n) in
  let? p := go_update p (byte_val newIdx) (Some o) in
  if bool_decide (diffidx = 0%nat) then Ret (mkStack branchNode val [] p)
  else
    let? cs := go_update children 0 (Some (mkStack branchNode [] [] p)) in
    Ret (mkStack extNode val (take diffidx key) cs).

Fixpoint insert (fuel : nat) (key value prefix : list byte) (st : StackTrie) : Res (StackTrie * list written) :=
  match fuel with
  | O => NoFuel
  | S fuel =>
      let 'mkStack ty val stkey children := st in
      if ty =? branchNode then
        let? idx := go_index key 0 in
        let? r := hash_elder (Z.to_nat (byte_val idx)) prefix children in
        let '(children, ws) := r in
        let? c := go_index children (byte_val idx) in
        match c with
        | None => let? cs := go_update children (byte_val idx) (Some (newLeaf (drop 1 key) value)) in Ret (mkStack ty val stkey cs, ws)
        | Some child =>
            let? r := insert fuel (drop 1 key) value (prefix ++ [idx]) child in
            let? cs := go_update children (byte_val idx) (Some (fst r)) in
            Ret (mkStack ty val stkey cs, ws ++ snd r)
        end
      else if ty =? extNode then
        let? diffidx := getDiffIndex stkey key in
        match children with
        | Some child :: rest =>
            if bool_decide (diffidx = length stkey) then
              let? r := insert fuel (drop diffidx key) value (prefix ++ take diffidx key) child in
              Ret (mkStack ty val stkey (Some (fst r) :: rest), snd r)
            else
              let? n := (if bool_decide (diffidx < length stkey - 1)%nat
                         then hashRec (prefix ++ take (diffidx + 1) stkey) (newExt (drop (diffidx + 1) stkey) child)
                         else hashRec (prefix ++ stkey) child) in
              let? origIdx := go_index stkey (Z.of_nat diffidx) in
              let? newIdx := go_index key (Z.of_nat diffidx) in
              let? st := split_node val stkey children diffidx origIdx newIdx (fst n) (newLeaf (drop (diffidx + 1) key) value) in
              Ret (st, snd n)
        | _ => Panic PanicNil
        end
      else if ty =? leafNode then
        let? diffidx := getDiffIndex stkey key in
        if bool_decide (length stkey <= diffidx)%nat then Panic PanicTrie
        else
          let? origIdx := go_index stkey (Z.of_nat diffidx) in
          let? n := hashRec (prefix ++ take (diffidx + 1) stkey) (newLeaf (drop (diffidx + 1) stkey) val) in
          let? newIdx := go_index key (Z.of_nat diffidx) in
          let? st := split_node [] stkey children diffidx origIdx newIdx (fst n) (newLeaf (drop (diffidx + 1) key) value) in
          Ret (st, snd n)
      else if ty =? emptyNode then Ret (mkStack leafNode value key children, [])
      else Panic PanicTrie
  end.

(** ** The operations *)

(** [Update]: the key without its terminator. *)
Definition StackTrie_Update (key value : list byte) (st : StackTrie) : Res (StackTrie * list written) :=
  let k := keybytesToHex key in
  if zlen value =? 0 then Panic PanicTrie
  else insert (length k) (take (length k - 1) k) value [] st.

(** [Hash]: the root is hashed even if it is small. *)
Definition StackTrie_Hash (st : StackTrie) : Res (StackTrie * Hash * list written) :=
  let? r := hashRec [] st in
  let '(st, ws) := r in
  if zlen (st_val st) =? 32 then Ret (st, BytesToHash (st_val st), ws)
  else Ret (st, BytesToHash (hashData (st_val st)), ws).
End hashing.

Inductive stack_error : Type := ErrCommitDisabled.

(** [Commit]: the root is written even if it is small. *)
Definition StackTrie_Commit {K : Keccak} (writeFn : bool) (st : StackTrie) : Res (StackTrie * list written * (Hash + stack_error)) :=
  if negb writeFn then Ret (st, [], inr ErrCommitDisabled)
  else
    let? r := hashRec writeFn [] st in
    let '(st, ws) := r in
    if zlen (st_val st) =? 32 then Ret (st, ws, inl (BytesToHash (st_val st)))
    else
      let h := BytesToHash (hashData (st_val st)) in
      Ret (st, ws ++ [([], h, st_val st)], inl h).
