(* ===== verification/StackSpec.v ===== *)
(** * What stack tries compute

    A stack trie stands for the canonical tree of what was inserted, so its hash is the
    root of that map, as for any other trie. *)

From Stdlib Require Import Strings.Byte.
From S2P Require Import Prelude.
From S2P Require Import Common.
From S2P Require Import Rlp.
From S2P Require Import Crypto.
From S2P Require Import StateObject.
From S2P Require Import Encoding.
From S2P Require Import TrieKeys.
From S2P Require Import TrieTree.
From S2P Require Import TrieNode.
From S2P Require Import TrieStore.
From S2P Require Import Trie.
From S2P Require Import TrieSpec.
From S2P Require Import TrieHash.
From S2P Require Import TrieMap.
From S2P Require Import StackTrie.

(** ** The order of keys *)

(** One key is before another, and neither is a prefix of the other. *)
Fixpoint before (a b : list byte) : Prop :=
  match a, b with
  | x :: a, y :: b => byte_val x < byte_val y \/ (x = y /\ before a b)
  | _, _ => False
  end.

Lemma before_nil b : ~ before [] b.
Proof. intros []. Qed.

Lemma before_short k r key : before (k ++ r) key ->
  (exists key', key = k ++ key' /\ before r key') \/
  (exists p x a y b, k = p ++ x :: a /\ key = p ++ y :: b /\ byte_val x < byte_val y).
Proof.
  revert key. induction k as [|x k IH]; intros key H; [left; by exists key|].
  destruct key as [|y key]; [done|]. destruct H as [H|[-> H]].
  - right. exists [], x, k, y, key. done.
  - destruct (IH _ H) as [(key' & -> & H')|(p & z & a & w & b & -> & -> & Hlt)].
    + left. by exists key'.
    + right. exists (y :: p), z, a, w, b. done.
Qed.

Lemma byte_lt_ne x y : byte_val x < byte_val y -> x <> y.
Proof. intros H ->. lia. Qed.

Lemma getDiffIndex_split p x a y b : x <> y -> getDiffIndex (p ++ x :: a) (p ++ y :: b) = Ret (length p).
Proof.
  intros Hne. induction p as [|z p IH]; cbn [app getDiffIndex length].
  - destruct (Byte.eqb x y) eqn:E; [by apply byte_eqb_eq in E|done].
  - rewrite (proj2 (byte_eqb_eq z z) eq_refl), IH. done.
Qed.

Lemma getDiffIndex_prefix k key : getDiffIndex k (k ++ key) = Ret (length k).
Proof.
  induction k as [|z k IH]; [done|]. cbn [app getDiffIndex length]. rewrite (proj2 (byte_eqb_eq z z) eq_refl), IH. done.
Qed.

(** ** The tree a stack trie stands for *)

Section spec.
Context {K : Keccak} (writeFn : bool).

Definition hashed_val (t : tree) : list byte := if zlen (tree_enc t) <? 32 then tree_enc t else tree_hash t.

Inductive stands : StackTrie -> tree -> Prop :=
| stands_hashed t k cs : stands (mkStack hashedNode (hashed_val t) k cs) t
| stands_leaf v ns : stands (mkStack leafNode v ns no_stacks) (TShort (ns ++ [Byte.x10]) (TValue v))
| stands_ext v k c ts : stands c (TFull ts) -> stands (mkStack extNode v k (<[0%nat := Some c]> no_stacks)) (TShort k (TFull ts))
| stands_branch v k cs ts :
    length cs = 16%nat -> ts !! 16%nat = Some TNil ->
    (forall i t, cs !! i = Some None -> ts !! i = Some t -> t = TNil) ->
    (forall i c t, cs !! i = Some (Some c) -> ts !! i = Some t -> t <> TNil) ->
    (forall i c t, cs !! i = Some (Some c) -> ts !! i = Some t -> stands c t) ->
    stands (mkStack branchNode v k cs) (TFull ts).

(** The way to the last key is not hashed. *)
Inductive is_open : StackTrie -> Prop :=
| open_leaf v k cs : is_open (mkStack leafNode v k cs)
| open_ext v k c cs : is_open c -> is_open (mkStack extNode v k (Some c :: cs))
| open_branch v k cs :
    (forall i c, cs !! i = Some (Some c) -> (forall j c', cs !! j = Some (Some c') -> (j <= i)%nat) -> is_open c) ->
    is_open (mkStack branchNode v k cs).

Definition is_hashed (st : StackTrie) (t : tree) : Prop := exists k cs, st = mkStack hashedNode (hashed_val t) k cs.

Lemma raw_child_ok st t : canon t -> is_hashed st t -> rawnode_encode (raw_child st) = encode_item (tree_ref t).
Proof.
  intros Hc (k & cs & ->). unfold raw_child, hashed_val. cbn [st_val]. assert (short_or_full t = true) as Hs by by destruct Hc.
  destruct (zlen (tree_enc t) <? 32) eqn:E.
  - rewrite E. zbool. cbn [rawnode_encode]. by rewrite tree_ref_small.
  - zbool. unfold zlen at 1. unfold tree_hash at 1. rewrite length_hashData. change (Z.of_nat 32 <? 32) with false. cbn [rawnode_encode].
    by rewrite tree_ref_big.
Qed.

Lemma seal_ok t path cs ws : exists st' ws', seal writeFn (tree_enc t) path cs ws = (st', ws') /\ is_hashed st' t.
Proof.
  unfold seal. pose proof (eq_refl : hashed_val t = if zlen (tree_enc t) <? 32 then tree_enc t else tree_hash t) as Hv.
  destruct (zlen (tree_enc t) <? 32); do 2 eexists; (split; [reflexivity|]); do 2 eexists; by rewrite Hv.
Qed.

Definition hashes_to (hash : list byte -> StackTrie -> Res (StackTrie * list written)) (st : StackTrie) (t : tree) : Prop :=
  forall path, exists st' ws, hash path st = Ret (st', ws) /\ is_hashed st' t.

Lemma hash_stacks_ok hash path ts : forall cs i,
  length cs = length ts ->
  (forall j t, cs !! j = Some None -> ts !! j = Some t -> t = TNil) ->
  (forall j c t, cs !! j = Some (Some c) -> ts !! j = Some t -> canon t /\ hashes_to hash c t) ->
  exists ns ws, hash_stacks hash i path cs = Ret (ns, ws) /\
    concat (map (fun c => match c with Some c => rawnode_encode c | None => writeBytes [] end) ns) =
    concat (map encode_item (map tree_ref ts)).
Proof.
  induction ts as [|t ts IH]; intros [|c cs] i Hlen Hnone Hsome; try done; [by do 2 eexists|].
  cbn [length] in Hlen. destruct (IH cs (S i)) as (ns & ws & Hr & He); [lia| | |].
  - intros j. apply (Hnone (S j)).
  - intros j. apply (Hsome (S j)).
  - cbn [hash_stacks map concat]. destruct c as [c|].
    + destruct (Hsome 0%nat c t eq_refl eq_refl) as [Hc Hh]. destruct (Hh (path ++ [byte_of_Z (Z.of_nat i)])) as (st' & ws' & -> & Hst).
      cbn [res_bind]. rewrite Hr. cbn [res_bind fst snd]. do 2 eexists. split; [reflexivity|]. cbn [map concat].
      by rewrite (raw_child_ok _ t), He.
    + rewrite (Hnone 0%nat t eq_refl eq_refl), Hr. cbn [res_bind fst snd]. do 2 eexists. split; [reflexivity|]. cbn [map concat]. by rewrite He.
Qed.

Ltac sealed t :=
  match goal with |- context [seal _ _ ?path ?cs ?ws] => destruct (seal_ok t path cs ws) as (? & ? & -> & ?); by do 2 eexists end.

Lemma hashRec_ok st t : stands st t -> canon t -> hashes_to (hashRec writeFn) st t.
Proof.
  induction 1 as [t k cs|v ns|v k c ts Hst IH|v k cs ts Hlen H16 Hnone Hsome Hst IH]; intros Hc path; cbn [hashRec].
  - change (hashedNode =? hashedNode) with true. cbv iota. do 2 eexists. split; [reflexivity|]. by do 2 eexists.
  - change (leafNode =? hashedNode) with false. change (leafNode =? emptyNode) with false. change (leafNode =? branchNode) with false.
    change (leafNode =? extNode) with false. change (leafNode =? leafNode) with true. cbv iota.
    destruct (compact_ok _ (canon_short_key _ _ Hc)) as (-> & _ & _). cbn [res_bind].
    assert (rawShortNode_encode (compact (ns ++ [Byte.x10])) (Some (rawValue v)) = tree_enc (TShort (ns ++ [Byte.x10]) (TValue v))) as ->.
    { unfold rawShortNode_encode. cbn [rawnode_encode]. rewrite tree_enc_short, tree_ref_value. cbn [encode_item map concat]. by rewrite app_nil_r. }
    sealed (TShort (ns ++ [Byte.x10]) (TValue v)).
  - change (extNode =? hashedNode) with false. change (extNode =? emptyNode) with false. change (extNode =? branchNode) with false.
    change (extNode =? extNode) with true. cbv iota. change (<[0%nat := Some c]> no_stacks) with (Some c :: replicate 15 None).
    destruct (compact_ok _ (canon_short_key _ _ Hc)) as (Hck & _ & _).
    apply canon_short_inv in Hc as [(ms & w & _ & _ & ? & _)|(_ & _ & us & [= <-] & Hc)]; [done|].
    destruct (IH Hc (path ++ k)) as (st' & ws & -> & Hst'). cbn [res_bind]. rewrite Hck. cbn [res_bind fst snd].
    assert (rawShortNode_encode (compact k) (Some (raw_child st')) = tree_enc (TShort k (TFull ts))) as ->.
    { unfold rawShortNode_encode. rewrite (raw_child_ok _ (TFull ts)) by done. rewrite tree_enc_short. cbn [encode_item map concat]. by rewrite app_nil_r. }
    sealed (TShort k (TFull ts)).
  - change (branchNode =? hashedNode) with false. change (branchNode =? emptyNode) with false. change (branchNode =? branchNode) with true. cbv iota.
    pose proof (full_length _ Hc) as Hl17. pose proof (take_drop_middle ts 16 TNil H16) as Hts. rewrite (drop_ge ts 17) in Hts by lia.
    destruct (hash_stacks_ok (hashRec writeFn) path (take 16 ts) cs 0) as (rs & ws & -> & He).
    + rewrite length_take. lia.
    + intros j t Hj [Ht _]%lookup_take_Some. by apply (Hnone j).
    + intros j c t Hj [Ht Hj16]%lookup_take_Some. pose proof (Hsome j c t Hj Ht).
      destruct (canon_child _ _ _ Hc Ht) as [?|[[_ Hct]|[? _]]]; [done| |lia]. split; [done|]. by apply (IH j c t).
    + cbn [res_bind fst snd].
      assert (rawFullNode_encode (rs ++ [None]) = tree_enc (TFull ts)) as ->.
      { unfold rawFullNode_encode. rewrite map_app, concat_app, He, tree_enc_full. cbn [encode_item]. rewrite <- Hts at 2.
        rewrite !map_app, concat_app. done. }
      sealed (TFull ts).
Qed.

(** ** Insertion *)

(** Children that stand for the subtrees. *)
Definition children_ok (cs : list (option StackTrie)) (ts : list tree) : Prop :=
  length cs = 16%nat /\ ts !! 16%nat = Some TNil /\
  (forall i t, cs !! i = Some None -> ts !! i = Some t -> t = TNil) /\
  (forall i c t, cs !! i = Some (Some c) -> ts !! i = Some t -> t <> TNil /\ stands c t).

Lemma children_branch v k cs ts : children_ok cs ts <-> stands (mkStack branchNode v k cs) (TFull ts).
Proof.
  split.
  - intros (Hl & H16 & Hn & Hs). constructor; [done|done|done|intros i c t Hc Ht; by destruct (Hs i c t Hc Ht)..].
  - inversion 1; subst. split_and!; [done|done|done|]. by eauto.
Qed.

Lemma children_insert cs ts i c t : children_ok cs ts -> (i < 16)%nat -> t <> TNil -> stands c t ->
  children_ok (<[i := Some c]> cs) (<[i := t]> ts).
Proof.
  intros (Hl & H16 & Hn & Hs) Hi Hne Hc. pose proof (lookup_lt_Some _ _ _ H16). split_and!.
  - by rewrite length_insert.
  - rewrite list_lookup_insert_ne; [done|lia].
  - intros j u Hj Hu. apply list_lookup_insert_Some in Hj as [(_ & ? & _)|[Hij Hj]]; [done|].
    rewrite list_lookup_insert_ne in Hu by done. by apply (Hn j).
  - intros j d u Hj Hu. apply list_lookup_insert_Some in Hj as [(<- & [= <-] & _)|[Hij Hj]].
    + rewrite list_lookup_insert_eq in Hu by lia. injection Hu as <-. done.
    + rewrite list_lookup_insert_ne in Hu by done. by apply (Hs j).
Qed.

Lemma children_none : children_ok no_stacks no_children.
Proof.
  split_and!; [done|done| |].
  - intros i t _ Ht. by apply lookup_replicate in Ht as [-> _].
  - intros i c t Hc _. by apply lookup_replicate in Hc as [? _].
Qed.

Lemma hash_elder_ok n prefix cs ts : canon (TFull ts) -> (n <= 16)%nat -> children_ok cs ts ->
  exists cs' ws, hash_elder writeFn n prefix cs = Ret (cs', ws) /\ children_ok cs' ts /\
    (forall j, (n <= j)%nat -> cs' !! j = cs !! j) /\ (forall j c, cs' !! j = Some (Some c) -> exists d, cs !! j = Some (Some d)).
Proof.
  intros Hc Hn Hok. induction n as [|n IH]; [exists cs, []; split_and!; eauto|]. cbn [hash_elder]. pose proof Hok as (Hl & H16 & _ & Hs).
  destruct (lookup_lt_is_Some_2 cs n) as [o Ho]; [lia|]. rewrite (go_index_lookup cs n o Ho). cbn [res_bind]. destruct o as [c|].
  - destruct (negb (st_type c =? hashedNode)); [|exists cs, []; split_and!; eauto].
    destruct (lookup_lt_is_Some_2 ts n) as [t Ht]; [rewrite (full_length _ Hc); lia|]. destruct (Hs n c t Ho Ht) as [Hne Hst].
    assert (canon t) as Hct by (destruct (canon_child _ _ _ Hc Ht) as [?|[[_ ?]|[? _]]]; [done|done|lia]).
    destruct (hashRec_ok c t Hst Hct (prefix ++ [byte_of_Z (Z.of_nat n)])) as (st' & ws & -> & k & cs' & ->). cbn [res_bind fst snd].
    do 2 eexists. split; [reflexivity|]. split; [|split].
    + rewrite <- (list_insert_id ts n t Ht). apply children_insert; [done|lia|done|constructor].
    + intros j Hj. rewrite list_lookup_insert_ne; [done|lia].
    + intros j d [(<- & _ & _)|[_ Hj]]%list_lookup_insert_Some; by eauto.
  - destruct IH as (cs' & ws & Hr & Hok' & Hge & Hsome); [lia|]. exists cs', ws. split_and!; [done|done| |done].
    intros j Hj. apply Hge. lia.
Qed.

Lemma new_leaf_stands ns v : stands (newLeaf ns v) (TShort (ns ++ [Byte.x10]) (TValue v)).
Proof. constructor. Qed.

Lemma cons_short_term b v : cons_short (b ++ [Byte.x10]) (TValue v) = TShort (b ++ [Byte.x10]) (TValue v).
Proof. by destruct b. Qed.

Lemma split_ok val stk p x y children n o tx ty : take (length p) stk = p ->
  length children = 16%nat -> (forall v, <[0%nat := v]> children = <[0%nat := v]> no_stacks) ->
  byte_val x < byte_val y -> byte_val y < 16 -> stands n tx -> tx <> TNil -> stands o ty -> ty <> TNil -> is_open o ->
  exists st, split_node val stk children (length p) x y n o = Ret st /\
    stands st (cons_short p (fork x tx y ty)) /\ is_open st.
Proof.
  intros Hstk Hl Hz Hxy Hy Hn Hnx Ho Hny Hop. pose proof (byte_val_range x). set (cs := <[slot y := Some o]> (<[slot x := Some n]> no_stacks)).
  assert (slot x < 16 /\ slot y < 16)%nat as [Hsx Hsy] by (unfold slot; lia).
  assert (forall v k, stands (mkStack branchNode v k cs) (fork x tx y ty) /\ is_open (mkStack branchNode v k cs)) as Hbr.
  { intros v k. split.
    - apply children_branch. apply children_insert; [|done|done|done]. apply children_insert; [apply children_none|done|done|done].
    - constructor. intros i c Hi Hmax. apply list_lookup_insert_Some in Hi as [(_ & [= <-] & _)|[Hne Hi]]; [done|].
      assert (cs !! slot y = Some (Some o)) as Hyo by (apply list_lookup_insert_eq; rewrite length_insert; done).
      apply Hmax in Hyo. apply list_lookup_insert_Some in Hi as [(<- & _ & _)|[_ Hi]]; [unfold slot in *; lia|].
      by apply lookup_replicate in Hi as [? _]. }
  unfold split_node.
  assert ((if bool_decide (length p = 0%nat) then go_update children 0 None else Ret no_stacks) = Ret no_stacks) as ->.
  { case_bool_decide; [|done]. rewrite go_update_ok by (unfold zlen; rewrite Hl; lia). change (Z.to_nat 0) with 0%nat. by rewrite Hz. }
  cbn [res_bind]. rewrite go_update_slot by done. cbn [res_bind]. rewrite go_update_slot by (rewrite length_insert; done). cbn [res_bind].
  fold cs. case_bool_decide as Hp.
  - destruct p; [|done]. eexists. split; [reflexivity|]. apply Hbr.
  - rewrite go_update_ok by (unfold zlen; rewrite Hl; lia). cbn [res_bind]. change (Z.to_nat 0) with 0%nat.
    rewrite Hz, Hstk. eexists. split; [reflexivity|]. assert (cons_short p (fork x tx y ty) = TShort p (fork x tx y ty)) as -> by by destruct p.
    split; [constructor|apply open_ext]; apply Hbr.
Qed.

(** All keys of the tree are before the key. *)
Definition below (t : tree) (key : list byte) : Prop := forall ns v, has t (ns ++ [Byte.x10]) v -> before ns key.

Definition inserted (t : tree) (key value : list byte) (r : Res (StackTrie * list written)) : Prop :=
  exists st' ws t', r = Ret (st', ws) /\ stands st' t' /\ is_open st' /\ canon t' /\ sets t (key ++ [Byte.x10]) value t'.

Lemma hexterm_nibbles key : nibbles key -> hexterm (key ++ [Byte.x10]).
Proof. by exists key. Qed.

Lemma split_inserted val stk p x a c y b value children n ws : take (length p) stk = p ->
  canon (TShort (p ++ x :: a) c) -> nibbles (p ++ y :: b) -> value <> [] -> byte_val x < byte_val y ->
  length children = 16%nat -> (forall v, <[0%nat := v]> children = <[0%nat := v]> no_stacks) ->
  stands n (cons_short a c) ->
  inserted (TShort (p ++ x :: a) c) (p ++ y :: b) value
    (let? st := split_node val stk children (length p) x y n (newLeaf b value) in Ret (st, ws)).
Proof.
  intros Hstk Hc Hn Hv Hxy Hl Hz Hst.
  destruct (fork_ok p x a c y (b ++ [Byte.x10]) value Hc) as [Hcan Hset].
  { change (y :: b ++ [Byte.x10]) with ((y :: b) ++ [Byte.x10]). rewrite app_assoc. by apply hexterm_nibbles. }
  { done. }
  { by apply byte_lt_ne. }
  rewrite cons_short_term in Hcan, Hset. destruct (short_rest _ _ _ _ Hc) as [_ Hx].
  assert (byte_val y < 16) as Hy by (apply Forall_app in Hn as [_ Hn]; by apply list.Forall_cons in Hn as [Hn _]).
  assert (cons_short a c <> TNil) as Hne by (destruct Hx as [[_ ?]|[_ (w & -> & _)]]; [by apply canon_not_nil|done]).
  destruct (split_ok val stk p x y children n (newLeaf b value) _ _ Hstk Hl Hz Hxy Hy Hst Hne (new_leaf_stands b value)) as (st & -> & Hs & Ho).
  { done. }
  { constructor. }
  cbn [res_bind]. exists st, ws. eexists. split; [done|]. split; [exact Hs|]. split; [done|]. split; [done|].
  by rewrite <- app_assoc.
Qed.

(** Where a key behind all keys of a short node leaves it. *)
Lemma below_split k t key : canon (TShort k t) -> below (TShort k t) key ->
  (exists key', key = k ++ key' /\ (exists ts, t = TFull ts) /\ below t key') \/
  (exists p x a y b, k = p ++ x :: a /\ key = p ++ y :: b /\ byte_val x < byte_val y /\ (forall ns, k = ns ++ [Byte.x10] -> exists a', ns = p ++ x :: a' /\ a = a' ++ [Byte.x10])).
Proof.
  intros Hc Hb. pose proof Hc as Hc0. apply canon_short_inv in Hc as [(ns & v & -> & Hn & -> & Hv)|(Hn & Hne & ts & -> & Hc)].
  - right. assert (before (ns ++ []) key) as H by (rewrite app_nil_r; apply (Hb ns v), has_leaf).
    apply before_short in H as [(key' & _ & []%before_nil)|(p & x & a & y & b & -> & -> & Hlt)].
    exists p, x, (a ++ [Byte.x10]), y, b. rewrite <- app_assoc. split_and!; [done|done|done|].
    intros ns' He. exists a. split; [|done]. assert ((p ++ x :: a) ++ [Byte.x10] = ns' ++ [Byte.x10]) as He2 by (rewrite <- He, <- app_assoc; done).
    by apply app_inj_tail in He2 as [<- _].
  - assert (forall r v, has (TFull ts) (r ++ [Byte.x10]) v -> before (k ++ r) key) as H.
    { intros r v Hv. apply (Hb _ v). rewrite <- app_assoc. by constructor. }
    destruct (canon_has _ Hc) as (r & v & Hv). destruct (canon_key _ _ _ Hc Hv) as [(ns & _ & ->) _].
    destruct (before_short k ns key (H _ _ Hv)) as [(key' & -> & _)|(p & x & a & y & b & -> & -> & Hlt)].
    + left. exists key'. split; [done|]. split; [by exists ts|]. intros r w Hw. specialize (H r w Hw).
      clear -H. induction k as [|z k IH]; [done|]. destruct H as [H|[_ H]]; [lia|by apply IH].
    + right. exists p, x, a, y, b. split_and!; [done|done|done|]. intros ns' He. exfalso. rewrite He in Hn.
      apply Forall_app in Hn as [_ Hn]. apply list.Forall_cons in Hn as [Hn _]. by destruct term_not_nibble.
Qed.

Lemma branch_inserted fuel key value prefix v k cs ts :
  (forall key value prefix st t, stands st t -> is_open st -> canon t -> below t key -> nibbles key -> value <> [] ->
     (length key < fuel)%nat -> inserted t key value (insert writeFn fuel key value prefix st)) ->
  children_ok cs ts -> is_open (mkStack branchNode v k cs) -> canon (TFull ts) -> below (TFull ts) key -> nibbles key -> value <> [] ->
  (length key < S fuel)%nat -> inserted (TFull ts) key value (insert writeFn (S fuel) key value prefix (mkStack branchNode v k cs)).
Proof.
  intros IH Hok Hop Hc Hb Hn Hv Hf. cbn [insert]. change (branchNode =? branchNode) with true. cbv iota.
  destruct key as [|x key].
  { exfalso. destruct (canon_has _ Hc) as (r & w & Hw). destruct (canon_key _ _ _ Hc Hw) as [(ns & _ & ->) _].
    specialize (Hb ns w Hw). by destruct ns. }
  apply list.Forall_cons in Hn as [Hx Hn]. pose proof (proj1 (slot_nibble x) Hx) as Hsx.
  assert (hexterm (x :: key ++ [Byte.x10])) as Hk by (apply hexterm_cons; left; split; [done|by apply hexterm_nibbles]).
  change (go_index (x :: key) 0) with (Ret x). cbn [res_bind]. change (Z.to_nat (byte_val x)) with (slot x).
  destruct (hash_elder_ok (slot x) prefix cs ts Hc ltac:(lia) Hok) as (cs' & ws & -> & Hok' & Hge & Hsome). cbn [res_bind].
  pose proof Hok' as (Hl & H16 & Hnone & Hst). pose proof (full_length _ Hc) as Hl17.
  destruct (lookup_lt_is_Some_2 cs' (slot x)) as [o Ho]; [lia|]. destruct (lookup_lt_is_Some_2 ts (slot x)) as [t Ht]; [lia|].
  rewrite (go_index_slot _ _ _ Ho). cbn [res_bind]. pose proof (Hge (slot x) ltac:(lia)) as Hcx. rewrite Ho in Hcx. symmetry in Hcx.
  assert (forall j c, cs' !! j = Some (Some c) -> (j <= slot x)%nat) as Hmax.
  { intros j c Hj. pose proof (lookup_lt_Some _ _ _ Hj). destruct (lookup_lt_is_Some_2 ts j) as [u Hu]; [lia|].
    destruct (Hst j c u Hj Hu) as [Hne _]. destruct (canon_child _ _ _ Hc Hu) as [?|[[_ Hcu]|[? _]]]; [done| |lia].
    destruct (canon_has _ Hcu) as (r & w & Hw). destruct (canon_key _ _ _ Hcu Hw) as [(ns & _ & ->) _].
    assert (before (digit j :: ns) (x :: key)) as [Hlt|[Heq _]].
    { apply (Hb _ w). apply has_full_cons. exists u. by rewrite slot_digit by lia. }
    - rewrite <- (slot_digit j) by lia. unfold slot in *. lia.
    - rewrite <- (slot_digit j) by lia. by rewrite Heq. }
  assert (forall c t' ws', stands c t' -> is_open c -> t' <> TNil -> sub t' (key ++ [Byte.x10]) -> sets t (key ++ [Byte.x10]) value t' ->
    inserted (TFull ts) (x :: key) value (let? cs := go_update cs' (byte_val x) (Some c) in Ret (mkStack branchNode v k cs, ws'))) as Hdone.
  { intros c t' ws' Hc' Hop' Hne Hsub Hset. rewrite go_update_slot by lia. cbn [res_bind].
    exists (mkStack branchNode v k (<[slot x := Some c]> cs')), ws', (TFull (<[slot x := t']> ts)). split; [done|]. split.
    { apply children_branch. apply children_insert; [done|lia|done|done]. }
    split.
    { constructor. intros i d Hi Hmx. apply list_lookup_insert_Some in Hi as [(_ & [= <-] & _)|[Hne' Hi]]; [done|].
      assert (<[slot x := Some c]> cs' !! slot x = Some (Some c)) as Hsx' by (apply list_lookup_insert_eq; lia).
      apply Hmx in Hsx'. apply Hmax in Hi. lia. }
    split; [by apply (full_insert ts x (key ++ [Byte.x10]))|]. by apply (sets_full ts x t). }
  change (drop 1 (x :: key)) with key.
  destruct o as [c|].
  - destruct (Hst _ _ _ Ho Ht) as [Hne Hct]. destruct (canon_child _ _ _ Hc Ht) as [?|[[_ Hcan]|[? _]]]; [done| |lia].
    assert (is_open c) as Hopc.
    { inversion Hop as [| |? ? ? Hall]; subst. apply (Hall (slot x) c Hcx). intros j d Hj.
      destruct (decide (j <= slot x)%nat) as [|Hgt]; [done|]. rewrite <- Hge in Hj by lia. by eapply Hmax. }
    destruct (IH key value (prefix ++ [x]) c t) as (st' & ws' & t' & -> & Hs' & Ho' & Hc' & Hset); [done|done|done| |done|done|cbn in Hf; lia|].
    { intros ns w Hw. assert (before (x :: ns) (x :: key)) as [Hlt|[_ ?]]; [|lia|done]. apply (Hb _ w). apply has_full_cons. by exists t. }
    cbn [res_bind fst snd]. apply (Hdone st' t'); [done|done|by apply canon_not_nil| |done].
    right. split; [by apply hexterm_nibbles|by right].
  - rewrite (Hnone _ _ Ho Ht) in *. eapply Hdone; [apply new_leaf_stands|constructor|done| |apply sets_nil].
    right. split; [by apply hexterm_nibbles|right]. by constructor.
Qed.

Lemma fresh_none : forall v : option StackTrie, <[0%nat := v]> no_stacks = <[0%nat := v]> no_stacks.
Proof. done. Qed.

Lemma insert_ok fuel : forall key value prefix st t, stands st t -> is_open st -> canon t -> below t key -> nibbles key -> value <> [] ->
  (length key < fuel)%nat -> inserted t key value (insert writeFn fuel key value prefix st).
Proof.
  induction fuel as [|fuel IH]; intros key value prefix st t Hst Hop Hc Hb Hn Hv Hf; [lia|].
  inversion Hst as [t0 k cs|v ns|v k c ts Hcst|v k cs ts Hlen H16 Hnone Hsome Hkids]; subst; [by inversion Hop|..].
  - cbn [insert newLeaf]. change (leafNode =? branchNode) with false. change (leafNode =? extNode) with false.
    change (leafNode =? leafNode) with true. cbv iota.
    destruct (below_split _ _ _ Hc Hb) as [(key' & -> & (us & [=]) & _)|(p & x & a & y & b & Hk & -> & Hlt & Hns)].
    destruct (Hns ns eq_refl) as (a' & -> & ->). rewrite getDiffIndex_split by by apply byte_lt_ne. cbn [res_bind].
    rewrite bool_decide_eq_false_2 by (rewrite length_app; cbn; lia). rewrite (go_index_lookup (p ++ x :: a') (length p) x) by (by rewrite lookup_app_r, Nat.sub_diag by lia).
    cbn [res_bind]. rewrite !drop_snoc_middle, take_snoc_middle.
    assert (TShort ((p ++ x :: a') ++ [Byte.x10]) (TValue v) = TShort (p ++ x :: a' ++ [Byte.x10]) (TValue v)) as Ht by (by rewrite <- app_assoc).
    rewrite Ht in *. pose proof (new_leaf_stands a' v) as Hl. rewrite <- cons_short_term in Hl.
    assert (canon (cons_short (a' ++ [Byte.x10]) (TValue v))) as Hcl.
    { destruct (short_rest _ _ _ _ Hc) as [_ [[_ ?]|[_ (w & Hw & _)]]]; [done|]. by destruct a'. }
    destruct (hashRec_ok _ _ Hl Hcl (prefix ++ p ++ [x])) as (n & ws & -> & kk & cs & ->). cbn [res_bind fst snd].
    rewrite (go_index_lookup (p ++ y :: b) (length p) y) by (by rewrite lookup_app_r, Nat.sub_diag by lia). cbn [res_bind].
    apply (split_inserted [] (p ++ x :: a') p x (a' ++ [Byte.x10]) (TValue v)); try done; [apply take_app_length|constructor].
  - cbn [insert]. change (extNode =? branchNode) with false. change (extNode =? extNode) with true. cbv iota.
    change (<[0%nat := Some c]> no_stacks) with (Some c :: replicate 15 None).
    pose proof Hc as Hcc. apply canon_short_inv in Hcc as [(ms & w & _ & _ & ? & _)|(Hk & Hkne & us & [= <-] & Hct)]; [done|].
    destruct (below_split _ _ _ Hc Hb) as [(key' & -> & _ & Hb')|(p & x & a & y & b & -> & -> & Hlt & _)].
    + rewrite getDiffIndex_prefix. cbn [res_bind]. rewrite bool_decide_eq_true_2, drop_app_length, take_app_length by done.
      apply Forall_app in Hn as [_ Hn]. rewrite length_app in Hf. assert (length k <> 0%nat) by by destruct k.
      destruct (IH key' value (prefix ++ k) c (TFull ts)) as (st' & ws & t' & -> & Hs' & Ho' & Hc' & Hset); try done; [by inversion Hop|lia|].
      cbn [res_bind fst snd]. destruct (full_stays ts _ _ _ Hct Hset Hc') as [ts' ->].
      exists (mkStack extNode v k (Some st' :: replicate 15 None)), ws, (TShort k (TFull ts')).
      split_and!; [done|by apply (stands_ext v k st')|by constructor|by constructor|]. rewrite <- app_assoc. by apply sets_short.
    + rewrite getDiffIndex_split by by apply byte_lt_ne. cbn [res_bind].
      rewrite bool_decide_eq_false_2 by (rewrite length_app; cbn; lia). rewrite take_snoc_middle, !drop_snoc_middle.
      destruct (short_rest _ _ _ _ Hc) as [_ [[_ Hca]|[_ (w & Hw & _)]]]; [|by destruct a].
      assert (exists n ws, (if bool_decide (length p < length (p ++ x :: a) - 1)%nat
         then hashRec writeFn (prefix ++ p ++ [x]) (newExt a c) else hashRec writeFn (prefix ++ p ++ x :: a) c) = Ret (n, ws) /\
         stands n (cons_short a (TFull ts))) as (n & ws & -> & Hns).
      { assert (forall st path, stands st (cons_short a (TFull ts)) -> exists n ws, hashRec writeFn path st = Ret (n, ws) /\ stands n (cons_short a (TFull ts))) as Hh.
        { intros st path Hs. destruct (hashRec_ok _ _ Hs Hca path) as (n & ws & Hr & kk & cs & ->). do 2 eexists. split; [exact Hr|constructor]. }
        destruct a as [|z a].
        - rewrite bool_decide_eq_false_2 by (rewrite length_app; cbn; lia). by apply Hh.
        - rewrite bool_decide_eq_true_2 by (rewrite length_app; cbn; lia). apply Hh. by constructor. }
      cbn [res_bind fst snd]. rewrite (go_index_lookup (p ++ x :: a) (length p) x) by (by rewrite lookup_app_r, Nat.sub_diag by lia).
      cbn [res_bind]. rewrite (go_index_lookup (p ++ y :: b) (length p) y) by (by rewrite lookup_app_r, Nat.sub_diag by lia). cbn [res_bind].
      apply (split_inserted v (p ++ x :: a) p x a (TFull ts)); try done; [apply take_app_length].
  - apply branch_inserted; try done. by apply (children_branch v k).
Qed.
End spec.

(** ** The trie *)

Section tries.
Context {K : Keccak}.

Definition stack_rep (st : StackTrie) (m : contents) : Prop :=
  exists t, tree_of t m /\ ((t = TNil /\ st = NewStackTrie) \/ (canon t /\ stands st t /\ is_open st)).

(** The key is after all keys of the map, and no prefix of one or the other way around. *)
Definition after_all (m : contents) (key : list byte) : Prop :=
  forall key' v, m !! key' = Some v -> before (digits key') (digits key).

Lemma stack_rep_new : stack_rep NewStackTrie ∅.
Proof. exists TNil. split; [apply tree_of_empty|by left]. Qed.

Lemma StackTrie_Update_ok writeFn st m key value : stack_rep st m -> after_all m key -> value <> [] ->
  exists st' ws, StackTrie_Update writeFn key value st = Ret (st', ws) /\ stack_rep st' (<[key := value]> m).
Proof.
  intros (t & Ht & Hst) Ha Hv. unfold StackTrie_Update. destruct value as [|b value]; [done|].
  assert ((zlen (b :: value) =? 0) = false) as -> by (apply Z.eqb_neq; rewrite zlen_cons; pose proof (zlen_nonneg value); lia).
  rewrite keybytesToHex_digits, length_app. cbn [length]. rewrite Nat.add_sub, take_app_length.
  assert (forall t', sets t (digits key ++ [Byte.x10]) (b :: value) t' -> canon t' -> tree_of t' (<[key := b :: value]> m)) as Hnext.
  { intros t' Hset Hc. rewrite <- keybytesToHex_digits in Hset. apply (tree_of_insert t m); [done|done|]. right. split; [apply hexterm_key|by right]. }
  destruct Hst as [[-> ->]|(Hc & Hs & Ho)].
  - rewrite Nat.add_1_r. cbn [insert NewStackTrie]. change (emptyNode =? branchNode) with false. change (emptyNode =? extNode) with false.
    change (emptyNode =? leafNode) with false. change (emptyNode =? emptyNode) with true. cbv iota. do 2 eexists. split; [reflexivity|].
    assert (canon (TShort (digits key ++ [Byte.x10]) (TValue (b :: value)))) as Hc by (constructor; [apply digits_nibbles|done]).
    exists (TShort (digits key ++ [Byte.x10]) (TValue (b :: value))). split; [apply Hnext; [apply sets_nil|done]|]. right. split_and!; [done|constructor|constructor].
  - destruct (insert_ok writeFn (length (digits key) + 1) (digits key) (b :: value) [] st t) as (st' & ws & t' & -> & Hs' & Ho' & Hc' & Hset);
      [done|done|done| |apply digits_nibbles|done|lia|].
    { intros ns v Hv'. pose proof (proj2 Ht) as Hh. apply Hh in Hv' as (key' & He & Hk). rewrite keybytesToHex_digits in He. apply app_inj_tail in He as [-> _].
      by apply (Ha key' v). }
    exists st', ws. split; [done|]. exists t'. split; [by apply Hnext|by right].
Qed.

Lemma StackTrie_Hash_ok writeFn st m : stack_rep st m ->
  exists st' h ws, StackTrie_Hash writeFn st = Ret (st', h, ws) /\ root_of m h.
Proof.
  intros (t & Ht & Hst). unfold StackTrie_Hash. destruct Hst as [[-> ->]|(Hc & Hs & Ho)].
  - exists (mkStack hashedNode (hash_bytes EmptyRootHash) [] no_stacks), EmptyRootHash, []. split; [by vm_compute|]. by exists TNil.
  - destruct (hashRec_ok writeFn st t Hs Hc []) as (st' & ws & -> & k & cs & ->). cbn [res_bind st_val].
    exists (mkStack hashedNode (hashed_val t) k cs), (BytesToHash (tree_hash t)), ws. split; [|exists t; split; [done|by rewrite tree_root_canon]].
    unfold hashed_val. destruct (zlen (tree_enc t) <? 32) eqn:E; zbool.
    + by rewrite (proj2 (Z.eqb_neq (zlen (tree_enc t)) 32)) by lia.
    + unfold tree_hash at 1. unfold zlen at 1. by rewrite length_hashData.
Qed.
End tries.
