(* ===== verification/CoreEvm.v ===== *)
(** * The EVM's environment (client/core/evm.go, client/core/vm/evm.go)

    The context of a block the EVM runs in, the transfer functions over the
    state database, the lookup of ancestor hashes with its cache, and the
    construction of an EVM. *)

From S2P Require Import Prelude.
From S2P Require Import Uint256.
From S2P Require Import Common.
From S2P Require Import Params.
From S2P Require Import Precompiles.
From S2P Require Import Crypto.
From S2P Require Import StateInterface.
From S2P Require Import Header.
From S2P Require Import StateObject.
From S2P Require Import StateStore.
From S2P Require Import StateSpec.
From S2P Require Import StateSafe.
From S2P Require Import StateTheorems.
From S2P Require Import StateSupply.
From S2P Require Import Stack.
From S2P Require Import Memory.
From S2P Require Import Analysis.
From S2P Require Import Machine.
From S2P Require Import Invariant.
From S2P Require Import Evm.
From S2P Require Import Safety.

(** client/core/evm.go [ChainContext]: the author the consensus engine finds in
    a header (its error is ignored) and the stored headers. *)
Class ChainContext : Type := {
  Author : Header -> Address;
  GetHeader : Hash -> Z -> option Header
}.

(** ** Transfers *)

Section transfers.
Context {S : Type} {D : StateDB S}.

Definition core_CanTransfer (addr : Address) (amount : Z) : GM S bool :=
  let* b := GetBalance addr in gret (amount <=? b).

Definition core_Transfer (sender recipient : Address) (amount : Z) : GM S unit :=
  SubBalance sender amount ;;; AddBalance recipient amount.
End transfers.

(** ** Ancestor hashes

    The closure [GetHashFn] returns keeps a cache of the hashes of the parent,
    the grandparent and so on; [GetHash_call] is one call of it. *)

Section hashes.
Context {CC : ChainContext}.

Fixpoint GetHash_loop (fuel : nat) (n : Z) (cache : list Hash) (lastKnownHash : Hash) (lastKnownNumber : Z)
    : Res (Hash * list Hash) :=
  match fuel with
  | O => NoFuel
  | S fuel =>
      match GetHeader lastKnownHash lastKnownNumber with
      | None => Ret (0, cache)
      | Some header =>
          let cache := cache ++ [hdr_ParentHash header] in
          let lastKnownHash := hdr_ParentHash header in
          let lastKnownNumber := u64 (u64 (hdr_Number header) - 1) in
          if n =? lastKnownNumber then Ret (lastKnownHash, cache)
          else GetHash_loop fuel n cache lastKnownHash lastKnownNumber
      end
  end.

(** As much fuel as there are blocks. *)
Definition GetHash_call (ref : Header) (n : Z) : GM (list Hash) Hash :=
  fun cache =>
    let number := u64 (hdr_Number ref) in
    if number <=? n then Ret (0, cache)
    else
      let cache := if zlen cache =? 0 then cache ++ [hdr_ParentHash ref] else cache in
      let idx := u64 (u64 (number - n) - 1) in
      if idx <? zlen cache then let? h := go_index cache idx in Ret (h, cache)
      else
        let? lastKnownHash := go_index cache (zlen cache - 1) in
        let lastKnownNumber := u64 (number - zlen cache) in
        GetHash_loop (Z.to_nat number) n cache lastKnownHash lastKnownNumber.

(** The function as the EVM uses it, with the cache out of sight
    ([GetHash_cache] below: its contents do not matter). *)
Definition GetHashFn (ref : Header) (n : Z) : Hash :=
  match GetHash_call ref n [] with Ret (h, _) => h | _ => 0 end.
End hashes.

(** ** Contexts and EVMs *)

Section contexts.
Context {S : Type} {D : StateDB S} {CC : ChainContext}.

Definition NewEVMBlockContext (header : Header) (author : option Address) : BlockContext S :=
  {| CanTransfer := core_CanTransfer;
     Transfer := core_Transfer;
     GetHash := GetHashFn header;
     Coinbase := match author with None => Author header | Some a => a end;
     GasLimit := hdr_GasLimit header;
     BlockNumber := hdr_Number header;
     Time := hdr_Time header;
     Difficulty := hdr_Difficulty header;
     BaseFee := hdr_BaseFee header;
     Random := if hdr_Difficulty header =? 0 then Some (hdr_MixDigest header) else None |}.

(** [NewEVM], without the interpreter it also builds: that one is built at the
    start of a run here ([Evm.interpreter]). *)
Definition NewEVM (blockCtx : BlockContext S) (txCtx : TxContext) (chainConfig : ChainConfig)
    (config : Config) (abort : nat -> bool) : EVM S :=
  mkEVM S blockCtx txCtx chainConfig
    (config_Rules chainConfig (BlockNumber blockCtx) (bool_decide (is_Some (Random blockCtx))) (Time blockCtx))
    config abort.
End contexts.

(** ** Ancestor hashes: what a lookup answers *)

(** The stored header of a number has this number. *)
Class ChainLaws (CC : ChainContext) : Prop :=
  GetHeader_number h n header : GetHeader h n = Some header -> hdr_Number header = n.

Section ancestors.
Context {CC : ChainContext} {CL : ChainLaws CC}.
Context (ref : Header) (Href : is_u64 (hdr_Number ref)).

(** The hash of the [k]-th ancestor of [ref]; the parent is ancestor 0. *)
Fixpoint ancestor (k : nat) : option Hash :=
  match k with
  | O => Some (hdr_ParentHash ref)
  | Datatypes.S k =>
      match ancestor k with
      | None => None
      | Some h => option_map hdr_ParentHash (GetHeader h (hdr_Number ref - 1 - Z.of_nat k))
      end
  end.

Definition cache_ok (cache : list Hash) : Prop :=
  forall i h, cache !! i = Some h -> ancestor i = Some h.

Lemma cache_ok_snoc cache h : cache_ok cache -> ancestor (length cache) = Some h -> cache_ok (cache ++ [h]).
Proof using.
  intros Hc Hh i x. rewrite lookup_app. destruct (cache !! i) eqn:E; [intros [= <-]; by apply Hc|].
  apply lookup_ge_None in E. destruct (i - length cache)%nat eqn:Ei; cbn; [|done].
  intros [= <-]. by replace i with (length cache) by lia.
Qed.

Lemma ancestor_none i j : ancestor i = None -> (i <= j)%nat -> ancestor j = None.
Proof using. intros Hi. induction 1 as [|j Hj IH]; [done|]. cbn. by rewrite IH. Qed.

Lemma GetHash_loop_ok fuel n cache last :
  is_u64 n -> cache_ok cache -> ancestor (length cache - 1) = Some last -> (0 < length cache)%nat ->
  n < hdr_Number ref - zlen cache -> hdr_Number ref - zlen cache - n <= Z.of_nat fuel ->
  exists h cache', GetHash_loop fuel n cache last (hdr_Number ref - zlen cache) = Ret (h, cache') /\
    cache_ok cache' /\ h = default 0 (ancestor (Z.to_nat (hdr_Number ref - 1 - n))).
Proof using CL Href.
  revert cache last. induction fuel as [|fuel IH]; intros cache last Hn Hc Hl Hpos Hlt Hf; [lia|].
  cbn [GetHash_loop]. assert (ancestor (length cache) =
    option_map hdr_ParentHash (GetHeader last (hdr_Number ref - zlen cache))) as Ha.
  { destruct (length cache) as [|k] eqn:E; [lia|]. cbn [ancestor]. replace (S k - 1)%nat with k in Hl by lia.
    rewrite Hl. unfold zlen. rewrite E. do 2 f_equal. lia. }
  destruct (GetHeader last _) as [header|] eqn:Eh.
  2:{ eexists 0, cache. split_and!; try done. rewrite (ancestor_none (length cache)); [done..|].
      unfold zlen in *. lia. }
  rewrite (GetHeader_number _ _ _ Eh). cbn [option_map] in Ha.
  pose proof (zlen_nonneg cache) as Hz.
  rewrite (u64_small (_ - zlen cache)), u64_small by (unfold is_u64 in *; lia).
  pose proof (cache_ok_snoc cache _ Hc Ha) as Hc'.
  destruct (n =? _) eqn:E; zbool.
  - eexists _, _. split_and!; [done..|]. replace (Z.to_nat _) with (length cache) by (unfold zlen in E; lia). by rewrite Ha.
  - replace (hdr_Number ref - zlen cache - 1) with (hdr_Number ref - zlen (cache ++ [hdr_ParentHash header]))
      by (rewrite zlen_snoc; lia).
    apply IH; try done; rewrite ?zlen_snoc, ?length_app; cbn [length]; try lia.
    by replace (length cache + 1 - 1)%nat with (length cache) by lia.
Qed.

(** A lookup answers the hash of the ancestor with the number asked for, or zero
    where there is none, and keeps the cache right. *)
Lemma GetHash_call_ok n cache :
  is_u64 n -> cache_ok cache ->
  exists h cache', GetHash_call ref n cache = Ret (h, cache') /\ cache_ok cache' /\
    h = if n <? hdr_Number ref then default 0 (ancestor (Z.to_nat (hdr_Number ref - 1 - n))) else 0.
Proof using CL Href.
  intros Hn Hc. unfold GetHash_call. rewrite (u64_small _ Href).
  destruct (_ <=? n) eqn:E; zbool.
  { eexists _, _. split_and!; [done..|]. by rewrite (proj2 (Z.ltb_ge _ _)). }
  rewrite (proj2 (Z.ltb_lt n _)) by done.
  rewrite (u64_small (_ - n)), (u64_small (_ - 1)) by (unfold is_u64 in *; lia).
  set (cache' := if zlen cache =? 0 then _ else cache).
  assert (cache_ok cache' /\ (0 < length cache')%nat) as [Hc' Hpos].
  { unfold cache'. destruct cache as [|x cache].
    2:{ rewrite zlen_cons. pose proof (zlen_nonneg cache). rewrite (proj2 (Z.eqb_neq _ 0)) by lia. cbn. split; [done|lia]. }
    rewrite zlen_nil. cbn [Z.eqb app length]. split; [|lia]. intros i h. by destruct i; [intros [= <-]|destruct i]. }
  clearbody cache'. destruct (_ <? zlen cache') eqn:E'; zbool.
  - destruct (go_index_ok cache' (hdr_Number ref - n - 1)) as (h & Hh & Hh'); [lia|]. rewrite Hh. cbn.
    eexists _, _. split_and!; [done..|]. replace (hdr_Number ref - 1 - n) with (hdr_Number ref - n - 1) by lia.
    by rewrite (Hc' _ _ Hh').
  - destruct (go_index_ok cache' (zlen cache' - 1)) as (h & Hh & Hh'); [unfold zlen; lia|]. rewrite Hh. cbn [res_bind].
    rewrite u64_small by (unfold is_u64 in *; unfold zlen in *; lia).
    apply GetHash_loop_ok; try done; [|unfold is_u64, zlen in *; lia..].
    apply Hc'. rewrite <- Hh'. f_equal. unfold zlen. lia.
Qed.

(** The cache does not matter. *)
Lemma GetHash_cache n cache :
  is_u64 n -> cache_ok cache ->
  exists cache', GetHash_call ref n cache = Ret (GetHashFn ref n, cache') /\ cache_ok cache'.
Proof using CL Href.
  intros Hn Hc. destruct (GetHash_call_ok n cache Hn Hc) as (h & c & -> & H & Hh). exists c.
  destruct (GetHash_call_ok n [] Hn) as (h' & c' & H' & _ & Hh'); [by intros i x|].
  unfold GetHashFn. rewrite H'. by rewrite Hh', Hh.
Qed.
End ancestors.

(** ** The environment meets what the EVM relies on *)

Section environment.
Context {S : Type} {D : StateDB S} {K : Keccak} {SP : StateDBSpec S} {CC : ChainContext}.

Lemma core_CanTransfer_ok a v s :
  sdb_ok s ->
  wp no_panic (core_CanTransfer (S:=S) a v)
    (fun b s' => b = (v <=? balance_at s a) /\ sdb_ok s' /\ sdb_ext s s' /\ sdb_equiv s' s) s.
Proof.
  intros Hs. unfold core_CanTransfer. apply wp_gbind. eapply wp_mono; [by apply GetBalance_ok|].
  intros b s' (-> & H). by apply wp_gret.
Qed.

Lemma core_Transfer_ok a b v s :
  sdb_ok s -> 0 <= v <= balance_at s a ->
  wp no_panic (core_Transfer (S:=S) a b v) (fun _ s' => sdb_ok s' /\ sdb_ext s s') s.
Proof.
  intros Hs Hv. eapply wp_mono; [by apply move_ok|]. by intros u s' (H1 & H2 & _).
Qed.

(** The forks of a configuration in their order, up to the merge, which this
    chain never reaches. *)
Record config_ok (c : ChainConfig) (header : Header) : Prop := {
  config_ChainID : is_Some (ChainID c);
  config_berlin : IsBerlin c (hdr_Number header) = true -> IsEIP150 c (hdr_Number header) = true;
  config_london : IsLondon c (hdr_Number header) = true -> IsBerlin c (hdr_Number header) = true;
  config_shanghai : IsShanghai c (hdr_Time header) = false;
  config_BaseFee : IsLondon c (hdr_Number header) = true -> is_Some (hdr_BaseFee header);
  config_work : hdr_Difficulty header <> 0
}.

Lemma NewEVM_spec header author txCtx c config abort :
  config_ok c header -> ExtraEips config = [] ->
  EVMSpec (NewEVM (S:=S) (NewEVMBlockContext header author) txCtx c config abort).
Proof.
  intros [] He. split; cbn [NewEVM evm_Config Context chainRules chainConfig config_Rules rIsBerlin rIsEIP150
    rIsLondon rIsMerge rIsShanghai NewEVMBlockContext CanTransfer Transfer BaseFee Random BlockNumber Time];
    rewrite ?(proj2 (Z.eqb_neq _ _) config_work0); try done.
  - apply core_CanTransfer_ok.
  - apply core_Transfer_ok.
  - by rewrite config_shanghai0.
Qed.

(** On the main network every header mined by work will do. *)
Lemma mainnet_config_ok header : 0 <= hdr_Number header -> hdr_Difficulty header <> 0 -> config_ok MainnetChainConfig header.
Proof.
  intros Hn Hd. pose proof (proj2 (Z.leb_le _ _) Hn) as H.
  split; try done; cbn; by rewrite ?H.
Qed.
End environment.

(** ** Theorems *)

(** Looking up an ancestor's hash always ends, without a panic, and answers
    the hash of the ancestor with that number, or zero for the block itself,
    later numbers and ancestors that are not stored; what earlier lookups left in
    the cache does not change any answer. *)
Theorem GetHashFn_correct {CC : ChainContext} {CL : ChainLaws CC} ref n cache :
  is_u64 (hdr_Number ref) -> is_u64 n -> cache_ok ref cache ->
  GetHashFn ref n =
    (if n <? hdr_Number ref then default 0 (ancestor ref (Z.to_nat (hdr_Number ref - 1 - n))) else 0) /\
  exists cache', GetHash_call ref n cache = Ret (GetHashFn ref n, cache') /\ cache_ok ref cache'.
Proof.
  intros Hr Hn Hc. split; [|by apply GetHash_cache].
  destruct (GetHash_call_ok ref Hr n [] Hn) as (h & c & Hh & _ & Heq); [by intros i x|].
  unfold GetHashFn. by rewrite Hh.
Qed.

Definition total (s : state) {B : Database} {K : Keccak} (l : list Address) : Z :=
  foldr (fun a acc => balance_of s a + acc) 0 l.

Lemma total_shift {B : Database} {K : Keccak} s s' a v l :
  NoDup l -> (forall c, balance_of s' c = balance_of s c + if decide (a = c) then v else 0) ->
  total s' l = total s l + if decide (a ∈ l) then v else 0.
Proof.
  intros Hl Hs. induction Hl as [|c l Hc Hl IH].
  - rewrite decide_False by (by intros ?%elem_of_nil). done.
  - unfold total in *. cbn [foldr]. rewrite Hs, IH. destruct (decide (a = c)) as [->|Hac].
    + rewrite (decide_False (P := c ∈ l)) by done. rewrite decide_True by by left. lia.
    + destruct (decide (a ∈ l)).
      * rewrite (decide_True (P := a ∈ c :: l)) by by right. lia.
      * rewrite (decide_False (P := a ∈ c :: l)) by (rewrite elem_of_cons; tauto). lia.
Qed.

(** A transfer moves exactly the amount: it is taken from the sender, given
    to the recipient (the two may be the same account), no other balance
    changes, and the sum over any set of accounts that contains both is kept. *)
Theorem Transfer_conserves {B : Database} {K : Keccak} {KL : KeccakLaws K} {BL : DatabaseLaws B} a b v s :
  state_ok s ->
  wp no_panic (core_Transfer a b v) (fun _ s' =>
    state_ok s' /\
    (forall c, balance_of s' c =
       balance_of s c - (if decide (a = c) then v else 0) + (if decide (b = c) then v else 0)) /\
    (forall l, NoDup l -> a ∈ l -> b ∈ l -> total s' l = total s l)) s.
Proof.
  intros Hs. unfold core_Transfer. apply wp_gbind.
  eapply wp_mono; [apply wp_conj; [by apply sdb_SubBalance_ok|apply SubBalance_balance]|].
  intros u s1 [[Hs1 _] H1].
  eapply wp_mono; [apply wp_conj; [by apply sdb_AddBalance_ok|apply AddBalance_balance]|].
  intros u' s2 [[Hs2 _] H2]. split; [done|]. split.
  - intros c. rewrite H2, H1. repeat case_decide; lia.
  - intros l Hl Ha Hb. rewrite (total_shift s1 s2 b v) by done. rewrite (total_shift s s1 a (- v)) by done.
    rewrite !decide_True by done. lia.
Qed.

(** C2: On the main network, in a block mined by work, a message call with an
    empty interpreter before it, from a warm account to a warm account, runs to an
    end, whatever the code and whatever the state, if that is well formed and without
    negative balances (and the input is below 2^60 bytes); the only panic it can raise is that of
    [SubRefund], when the state was entered with slots written in the same
    transaction but without the refunds they have earned.  If it ends, no balance is
    negative, the sum of the balances has not grown, the gas left is between zero
    and the gas given, and a call that fails leaves the state as it was. *)
Theorem mainnet_call_safe {B : Database} {K : Keccak} {KL : KeccakLaws K} {BL : DatabaseLaws B}
    {U : Uint256} {UL : Uint256Laws U} {R : PrecompileRun} {RL : PrecompileRunLaws R} {CC : ChainContext}
    header author txCtx abort s from a input gas v :
  state_ok s -> solvent s -> 0 <= hdr_Number header -> hdr_Difficulty header <> 0 ->
  is_u64 gas -> zlen input < 2 ^ 60 -> 0 <= v ->
  ContainsAddress (s_accessList s) from = true -> ContainsAddress (s_accessList s) a = true ->
  let E := NewEVM (NewEVMBlockContext header author) txCtx MainnetChainConfig (mkConfig false false []) abort in
  let C := evm_calls (E:=E) 1026 (Datatypes.S (Z.to_nat gas)) in
  wp refund_panic (@evm_Call state C (AccountRef from) a input gas v)
    (fun r e' => state_ok (evm_StateDB e') /\ solvent (evm_StateDB e') /\
       grows_by 0 (balance_of s) (balance_of (evm_StateDB e')) /\ 0 <= r.1.2 <= gas /\
       (r.2 <> None -> state_equiv (evm_StateDB e') s))
    (mkEVMState s 0 0 false [] [] 0).
Proof.
  intros Hs Hsol Hn Hd Hg Hi Hv Hf Ha E C.
  pose proof (NewEVM_spec header author txCtx MainnetChainConfig (mkConfig false false []) abort
    (mainnet_config_ok header Hn Hd) eq_refl) as ES.
  assert (evm_ok (mkEVMState s 0 0 false [] [] 0)) as He by by split; cbn; try done; intros j m; rewrite lookup_nil.
  eapply wp_mono; [apply (Call_safe 1026 (Datatypes.S (Z.to_nat gas)))|].
  - unfold call_pre, caller_ok, warm. split_and!; try done. unfold is_u64 in *. lia.
  - by intros _.
  - done.
  - intros [[ret gl] err] e' [(He' & Hx & Hgl & _) Hclean]. split; [apply He'|]. split; [apply He'|].
    split; [exact (evolve_supply 0 _ _ (ext_sdb _ _ Hx))|]. split; [done|].
    cbn. destruct err as [err|]; [|done]. intros _. apply (Hclean err eq_refl).
Qed.
