(* ===== verification/Transaction.v ===== *)
(** * Transactions (client/core/types)

    The three kinds of transaction data and their accessors (tx_legacy.go,
    tx_access_list.go, tx_dynamic_fee.go), the transaction itself and what it
    pays (transaction.go).  A [*big.Int] of transaction data is an integer: the
    constructors and the decoder leave none of them nil. *)

From S2P Require Import Prelude.
From S2P Require Import Common.
From S2P Require Import Precompiles.
From S2P Require Import StateInterface.
From S2P Require Import Encoding.

(** client/common/math/big.go *)
Definition BigMin (x y : Z) : Z := if x >? y then y else x.
Definition BigMax (x y : Z) : Z := if x <? y then y else x.

(** [AccessList.StorageKeys]. *)
Fixpoint StorageKeys_from (sum : Z) (al : AccessList) : Z :=
  match al with
  | [] => sum
  | tuple :: al => StorageKeys_from (sum + zlen (snd tuple)) al
  end.
Definition StorageKeys (al : AccessList) : Z := StorageKeys_from 0 al.

(** ** Transaction data *)

Definition LegacyTxType : Z := 0.
Definition AccessListTxType : Z := 1.
Definition DynamicFeeTxType : Z := 2.

Record LegacyTx : Type := mkLegacyTx {
  lt_Nonce : Z;
  lt_GasPrice : Z;
  lt_Gas : Z;
  lt_To : option Address;
  lt_Value : Z;
  lt_Data : list byte;
  lt_V : Z;
  lt_R : Z;
  lt_S : Z
}.

Record AccessListTx : Type := mkAccessListTx {
  at_ChainID : Z;
  at_Nonce : Z;
  at_GasPrice : Z;
  at_Gas : Z;
  at_To : option Address;
  at_Value : Z;
  at_Data : list byte;
  at_AccessList : AccessList;
  at_V : Z;
  at_R : Z;
  at_S : Z
}.

Record DynamicFeeTx : Type := mkDynamicFeeTx {
  dt_ChainID : Z;
  dt_Nonce : Z;
  dt_GasTipCap : Z;
  dt_GasFeeCap : Z;
  dt_Gas : Z;
  dt_To : option Address;
  dt_Value : Z;
  dt_Data : list byte;
  dt_AccessList : AccessList;
  dt_V : Z;
  dt_R : Z;
  dt_S : Z
}.

Inductive TxData : Type :=
| TxLegacy (tx : LegacyTx)
| TxAccessList (tx : AccessListTx)
| TxDynamicFee (tx : DynamicFeeTx).

(** [deriveChainId] of transaction_signing.go: the chain a protected legacy
    signature is for. *)

Definition deriveChainId (v : Z) : Z :=
  if big_BitLen v <=? 64 then
    let v := big_Uint64 v in
    if (v =? 27) || (v =? 28) then 0 else u64 (v - 35) / 2
  else (v - 35) / 2.

Definition txType (d : TxData) : Z :=
  match d with TxLegacy _ => LegacyTxType | TxAccessList _ => AccessListTxType | TxDynamicFee _ => DynamicFeeTxType end.
Definition chainID (d : TxData) : Z :=
  match d with TxLegacy t => deriveChainId (lt_V t) | TxAccessList t => at_ChainID t | TxDynamicFee t => dt_ChainID t end.
(** A legacy transaction has none. *)
Definition accessList_ (d : TxData) : option AccessList :=
  match d with TxLegacy t => None | TxAccessList t => Some (at_AccessList t) | TxDynamicFee t => Some (dt_AccessList t) end.
Definition data (d : TxData) : list byte :=
  match d with TxLegacy t => lt_Data t | TxAccessList t => at_Data t | TxDynamicFee t => dt_Data t end.
Definition gas (d : TxData) : Z :=
  match d with TxLegacy t => lt_Gas t | TxAccessList t => at_Gas t | TxDynamicFee t => dt_Gas t end.
Definition gasPrice (d : TxData) : Z :=
  match d with TxLegacy t => lt_GasPrice t | TxAccessList t => at_GasPrice t | TxDynamicFee t => dt_GasFeeCap t end.
Definition gasTipCap (d : TxData) : Z :=
  match d with TxLegacy t => lt_GasPrice t | TxAccessList t => at_GasPrice t | TxDynamicFee t => dt_GasTipCap t end.
Definition gasFeeCap (d : TxData) : Z :=
  match d with TxLegacy t => lt_GasPrice t | TxAccessList t => at_GasPrice t | TxDynamicFee t => dt_GasFeeCap t end.
Definition value_ (d : TxData) : Z :=
  match d with TxLegacy t => lt_Value t | TxAccessList t => at_Value t | TxDynamicFee t => dt_Value t end.
Definition nonce (d : TxData) : Z :=
  match d with TxLegacy t => lt_Nonce t | TxAccessList t => at_Nonce t | TxDynamicFee t => dt_Nonce t end.
Definition to (d : TxData) : option Address :=
  match d with TxLegacy t => lt_To t | TxAccessList t => at_To t | TxDynamicFee t => dt_To t end.

Definition effectiveGasPrice (d : TxData) (baseFee : option Z) : Z :=
  match d with
  | TxLegacy t => lt_GasPrice t
  | TxAccessList t => at_GasPrice t
  | TxDynamicFee t =>
      match baseFee with
      | None => dt_GasFeeCap t
      | Some baseFee =>
          let tip := dt_GasFeeCap t - baseFee in
          let tip := if tip >? dt_GasTipCap t then dt_GasTipCap t else tip in
          tip + baseFee
      end
  end.

Definition rawSignatureValues (d : TxData) : Z * Z * Z :=
  match d with
  | TxLegacy t => (lt_V t, lt_R t, lt_S t)
  | TxAccessList t => (at_V t, at_R t, at_S t)
  | TxDynamicFee t => (dt_V t, dt_R t, dt_S t)
  end.

Definition setSignatureValues (chainID v r s : Z) (d : TxData) : TxData :=
  match d with
  | TxLegacy t => TxLegacy (mkLegacyTx (lt_Nonce t) (lt_GasPrice t) (lt_Gas t) (lt_To t) (lt_Value t) (lt_Data t) v r s)
  | TxAccessList t =>
      TxAccessList (mkAccessListTx chainID (at_Nonce t) (at_GasPrice t) (at_Gas t) (at_To t) (at_Value t)
        (at_Data t) (at_AccessList t) v r s)
  | TxDynamicFee t =>
      TxDynamicFee (mkDynamicFeeTx chainID (dt_Nonce t) (dt_GasTipCap t) (dt_GasFeeCap t) (dt_Gas t) (dt_To t)
        (dt_Value t) (dt_Data t) (dt_AccessList t) v r s)
  end.

(** ** Transactions

    The data and the time the transaction was first seen.  The cached hash, size
    and sender are not part of the model (the sender's cache is in TxSigning). *)

Record Transaction : Type := mkTransaction {
  tx_inner : TxData;
  tx_time : Z
}.

Definition Type_ (tx : Transaction) : Z := txType (tx_inner tx).
Definition ChainId (tx : Transaction) : Z := chainID (tx_inner tx).
Definition tx_Data (tx : Transaction) : list byte := data (tx_inner tx).
Definition tx_AccessList (tx : Transaction) : option AccessList := accessList_ (tx_inner tx).
Definition tx_Gas (tx : Transaction) : Z := gas (tx_inner tx).
Definition tx_GasPrice (tx : Transaction) : Z := gasPrice (tx_inner tx).
Definition tx_GasTipCap (tx : Transaction) : Z := gasTipCap (tx_inner tx).
Definition tx_GasFeeCap (tx : Transaction) : Z := gasFeeCap (tx_inner tx).
Definition tx_Value (tx : Transaction) : Z := value_ (tx_inner tx).
Definition tx_Nonce (tx : Transaction) : Z := nonce (tx_inner tx).
Definition tx_To (tx : Transaction) : option Address := to (tx_inner tx).
Definition tx_Cost (tx : Transaction) : Z := tx_GasPrice tx * tx_Gas tx + tx_Value tx.
Definition RawSignatureValues (tx : Transaction) : Z * Z * Z := rawSignatureValues (tx_inner tx).

(** [x.Cmp(y)]. *)
Definition big_Cmp (x y : Z) : Z := if x <? y then -1 else if x =? y then 0 else 1.

Definition GasFeeCapCmp (tx other : Transaction) : Z := big_Cmp (gasFeeCap (tx_inner tx)) (gasFeeCap (tx_inner other)).
Definition GasFeeCapIntCmp (tx : Transaction) (other : Z) : Z := big_Cmp (gasFeeCap (tx_inner tx)) other.
Definition GasTipCapCmp (tx other : Transaction) : Z := big_Cmp (gasTipCap (tx_inner tx)) (gasTipCap (tx_inner other)).
Definition GasTipCapIntCmp (tx : Transaction) (other : Z) : Z := big_Cmp (gasTipCap (tx_inner tx)) other.

(** The tip, and whether the error [ErrGasFeeCapTooLow] comes with it. *)
Definition EffectiveGasTip (tx : Transaction) (baseFee : option Z) : Z * bool :=
  match baseFee with
  | None => (tx_GasTipCap tx, false)
  | Some baseFee =>
      (BigMin (tx_GasTipCap tx) (tx_GasFeeCap tx - baseFee), big_Cmp (tx_GasFeeCap tx) baseFee =? -1)
  end.

Definition EffectiveGasTipValue (tx : Transaction) (baseFee : option Z) : Z := fst (EffectiveGasTip tx baseFee).

Definition EffectiveGasTipCmp (tx other : Transaction) (baseFee : option Z) : Z :=
  match baseFee with
  | None => GasTipCapCmp tx other
  | Some _ => big_Cmp (EffectiveGasTipValue tx baseFee) (EffectiveGasTipValue other baseFee)
  end.

Definition EffectiveGasTipIntCmp (tx : Transaction) (other : Z) (baseFee : option Z) : Z :=
  match baseFee with
  | None => GasTipCapIntCmp tx other
  | Some _ => big_Cmp (EffectiveGasTipValue tx baseFee) other
  end.

(** ** Lemmas *)

Lemma BigMin_min x y : BigMin x y = Z.min x y.
Proof. unfold BigMin. case_match; zbool; lia. Qed.

Lemma BigMax_max x y : BigMax x y = Z.max x y.
Proof. unfold BigMax. case_match; zbool; lia. Qed.

Lemma StorageKeys_from_sum sum al : StorageKeys_from sum al = sum + StorageKeys al.
Proof.
  unfold StorageKeys. revert sum. induction al as [|[a ks] al IH]; intros sum; cbn [StorageKeys_from]; [lia|].
  rewrite IH, (IH (0 + _)). lia.
Qed.

Lemma StorageKeys_nonneg al : 0 <= StorageKeys al.
Proof.
  induction al as [|[a ks] al IH]; [done|]. unfold StorageKeys. cbn [StorageKeys_from].
  rewrite StorageKeys_from_sum. pose proof (zlen_nonneg ks). cbn [snd]. lia.
Qed.

(** The price at which the gas is bought is made of the base fee and the tip. *)
Lemma effective_price_split tx baseFee :
  effectiveGasPrice (tx_inner tx) (Some baseFee) =
    match tx_inner tx with
    | TxDynamicFee _ => EffectiveGasTipValue tx (Some baseFee) + baseFee
    | _ => tx_GasPrice tx
    end.
Proof.
  unfold EffectiveGasTipValue, EffectiveGasTip, effectiveGasPrice, tx_GasTipCap, tx_GasFeeCap, tx_GasPrice.
  destruct (tx_inner tx); cbn [fst gasTipCap gasFeeCap gasPrice]; [done..|].
  unfold BigMin. repeat case_match; zbool; lia.
Qed.
