(* ===== verification/Blocks.v ===== *)
(** * Headers and blocks (client/core/types/block.go, gen_header_rlp.go, hashing.go)

    The encoding and the hash of a header, the sanity checks on it, the parts of a
    block, and the order in which the lists of a block are put into a trie. *)

From Stdlib Require Import Strings.Byte Sorting.Sorted.
From S2P Require Import Prelude.
From S2P Require Import Common.
From S2P Require Import Precompiles.
From S2P Require Import Rlp.
From S2P Require Import Crypto.
From S2P Require Import Header.
From S2P Require Import Encoding.
From S2P Require Import Transaction.

(** ** The encoding of a header *)

Definition EmptyString : list byte := [Byte.x80].

(** [*Header.EncodeRLP]: the encoding, or [rlp.ErrNegativeBigInt].  The field
    [ExcessDataGas] is not written. *)
Definition Header_EncodeRLP (obj : Header) : option (list byte) :=
  if hdr_Difficulty obj <? 0 then None
  else if hdr_Number obj <? 0 then None
  else
    let fixed :=
      writeBytes (hash_bytes (hdr_ParentHash obj)) ++ writeBytes (hash_bytes (hdr_UncleHash obj)) ++
      writeBytes (address_bytes (hdr_Coinbase obj)) ++ writeBytes (hash_bytes (hdr_Root obj)) ++
      writeBytes (hash_bytes (hdr_TxHash obj)) ++ writeBytes (hash_bytes (hdr_ReceiptHash obj)) ++
      writeBytes (hdr_Bloom obj) ++ writeBigInt (hdr_Difficulty obj) ++ writeBigInt (hdr_Number obj) ++
      writeUint64 (hdr_GasLimit obj) ++ writeUint64 (hdr_GasUsed obj) ++ writeUint64 (hdr_Time obj) ++
      writeBytes (hdr_Extra obj) ++ writeBytes (hash_bytes (hdr_MixDigest obj)) ++
      writeBytes (be_bytes 8 (hdr_Nonce obj)) in
    let _tmp1 := negb (bool_decide (hdr_BaseFee obj = None)) in
    let _tmp2 := negb (bool_decide (hdr_WithdrawalsHash obj = None)) in
    let base :=
      if _tmp1 || _tmp2 then
        match hdr_BaseFee obj with
        | None => Some EmptyString
        | Some b => if b <? 0 then None else Some (writeBigInt b)
        end
      else Some [] in
    match base with
    | None => None
    | Some base =>
        let withdrawals :=
          match hdr_WithdrawalsHash obj with
          | None => []
          | Some h => writeBytes (hash_bytes h)
          end in
        Some (write_list (fixed ++ base ++ withdrawals))
    end.

Section blocks.
Context {K : Keccak}.

(** [Header.Hash]: an encoding error leaves nothing to hash. *)
Definition Header_Hash (h : Header) : Hash := rlpHash (default [] (Header_EncodeRLP h)).

(** The encoding of the empty list is hashed. *)
Definition EmptyUncleHash : Hash := rlpHash (write_list []).

Definition encode_headers (hs : list Header) : option (list byte) :=
  option_map (fun l => write_list (concat l)) (mapM Header_EncodeRLP hs).

Definition CalcUncleHash (uncles : list Header) : Hash :=
  if zlen uncles =? 0 then EmptyUncleHash else rlpHash (default [] (encode_headers uncles)).

(** ** Sanity checks *)

Inductive sanity_error : Type :=
| TooLargeNumber
| TooLargeDifficulty
| TooLargeExtra
| TooLargeBaseFee.

Definition Header_SanityCheck (h : Header) : option sanity_error :=
  if negb ((0 <=? hdr_Number h) && (big_BitLen (hdr_Number h) <=? 64)) then Some TooLargeNumber
  else if big_BitLen (hdr_Difficulty h) >? 80 then Some TooLargeDifficulty
  else if zlen (hdr_Extra h) >? 100 * 1024 then Some TooLargeExtra
  else
    match hdr_BaseFee h with
    | Some b => if big_BitLen b >? 256 then Some TooLargeBaseFee else None
    | None => None
    end.

(** The root of the empty trie, of which the other empty roots are copies. *)
Definition EmptyRootHash : Hash := 0x56e81f171bcc55a6ff8345e692c0f86e5b48e01b996cadc001622fb5e363b421.
Definition EmptyTxsHash : Hash := 0x56e81f171bcc55a6ff8345e692c0f86e5b48e01b996cadc001622fb5e363b421.
Definition EmptyReceiptsHash : Hash := 0x56e81f171bcc55a6ff8345e692c0f86e5b48e01b996cadc001622fb5e363b421.
Definition EmptyWithdrawalsHash : Hash := 0x56e81f171bcc55a6ff8345e692c0f86e5b48e01b996cadc001622fb5e363b421.

Definition EmptyBody (h : Header) : bool :=
  match hdr_WithdrawalsHash h with
  | None => (hdr_TxHash h =? EmptyTxsHash) && (hdr_UncleHash h =? EmptyUncleHash)
  | Some w => (hdr_TxHash h =? EmptyTxsHash) && (hdr_UncleHash h =? EmptyUncleHash) && (w =? EmptyWithdrawalsHash)
  end.

Definition EmptyReceipts (h : Header) : bool := hdr_ReceiptHash h =? EmptyReceiptsHash.

(** ** Blocks *)

Record Withdrawal : Type := mkWithdrawal {
  wd_Index : Z;
  wd_Validator : Z;
  wd_Address : Address;
  wd_Amount : Z
}.

Record Block : Type := mkBlock {
  blk_header : Header;
  blk_uncles : list Header;
  blk_transactions : list Transaction;
  blk_withdrawals : option (list Withdrawal)
}.

Definition NumberU64 (b : Block) : Z := big_Uint64 (hdr_Number (blk_header b)).
Definition Block_Hash (b : Block) : Hash := Header_Hash (blk_header b).
Definition NewBlockWithHeader (h : Header) : Block := mkBlock h [] [] None.
Definition WithSeal (b : Block) (h : Header) : Block :=
  mkBlock h (blk_uncles b) (blk_transactions b) (blk_withdrawals b).
Definition WithBody (b : Block) (txs : list Transaction) (uncles : list Header) : Block :=
  mkBlock (blk_header b) uncles txs None.
Definition WithWithdrawals (b : Block) (w : option (list Withdrawal)) : Block :=
  match w with
  | Some w => mkBlock (blk_header b) (blk_uncles b) (blk_transactions b) (Some w)
  | None => b
  end.

(** The parent's hash, read from an encoded header; zero if it is malformed. *)
Definition HeaderParentHashFromRLP (header : list byte) : Res Hash :=
  let? r := SplitList header in
  match r with
  | (_, _, Some _) => Ret 0
  | (listContent, _, None) =>
      let? r := SplitString listContent in
      match r with
      | (_, _, Some _) => Ret 0
      | (parentHash, _, None) => if negb (zlen parentHash =? 32) then Ret 0 else Ret (be_value parentHash)
      end
  end.
End blocks.

(** ** The trie of a list

    The hasher is a parameter; the list is given by the encodings of its elements. *)

Class TrieHasher (T : Type) : Type := {
  hasher_Reset : T;
  hasher_Update : list byte -> list byte -> T -> Res T;
  hasher_Hash : T -> Res Hash
}.

(** The indices in the order of the three loops. *)
Definition derive_order (n : nat) : list nat :=
  seq 1 (Nat.min (n - 1) 0x7f) ++ (if (0 <? n)%nat then [0%nat] else []) ++ seq 0x80 (n - 0x80).

Definition derive_updates (values : list (list byte)) : list (list byte * list byte) :=
  map (fun i => (AppendUint64 (Z.of_nat i), nth i values [])) (derive_order (length values)).

Fixpoint update_all {T} {H : TrieHasher T} (l : list (list byte * list byte)) (t : T) : Res T :=
  match l with
  | [] => Ret t
  | (k, v) :: l => let? t := hasher_Update k v t in update_all l t
  end.

Definition DeriveSha {T} {H : TrieHasher T} (values : list (list byte)) : Res Hash :=
  let? t := update_all (derive_updates values) hasher_Reset in
  hasher_Hash t.

(** ** Lemmas: the order of keys *)

(** The order of byte strings. *)
Fixpoint bytes_lt (a b : list byte) : Prop :=
  match a, b with
  | [], [] => False
  | [], _ :: _ => True
  | _ :: _, [] => False
  | x :: a, y :: b => byte_val x < byte_val y \/ (x = y /\ bytes_lt a b)
  end.

Lemma be_bytes_lt n i j : 0 <= i < j -> j < 256 ^ Z.of_nat n -> bytes_lt (be_bytes n i) (be_bytes n j).
Proof.
  revert i j. induction n as [|n IH]; intros i j Hij Hj; [change (256 ^ Z.of_nat 0) with 1 in Hj; lia|].
  cbn [be_bytes bytes_lt]. rewrite !byte_val_of_Z. set (p := 256 ^ Z.of_nat n).
  assert (0 < p) as Hp by (apply Z.pow_pos_nonneg; lia).
  assert (256 ^ Z.of_nat (S n) = p * 256) as Hs.
  { replace (Z.of_nat (S n)) with (Z.of_nat n + 1) by lia. rewrite Z.pow_add_r by lia. unfold p. lia. }
  assert (forall z, 0 <= z < p * 256 -> 0 <= z / p < 256) as Hr.
  { intros z Hz. split; [apply Z.div_pos; lia|apply Z.div_lt_upper_bound; lia]. }
  pose proof (Hr i ltac:(lia)). pose proof (Hr j ltac:(lia)). rewrite !Z.mod_small by lia.
  pose proof (Z.div_le_mono i j p Hp ltac:(lia)).
  destruct (Z.eq_dec (i / p) (j / p)) as [He|]; [right|left; lia]. split; [by rewrite He|].
  rewrite (be_bytes_mod n i (i mod p)), (be_bytes_mod n j (j mod p)) by (unfold p; rewrite Z.mod_mod by lia; done).
  pose proof (Z.div_mod i p ltac:(lia)). pose proof (Z.div_mod j p ltac:(lia)).
  pose proof (Z.mod_pos_bound i p Hp). pose proof (Z.mod_pos_bound j p Hp).
  apply IH; [rewrite He in *; lia|]. fold p. lia.
Qed.

(** The key of an index. *)
Lemma key_small i : 1 <= i < 128 -> AppendUint64 i = [byte_of_Z i].
Proof.
  intros Hi. unfold AppendUint64. rewrite (proj2 (Z.eqb_neq i 0)) by lia. by rewrite (proj2 (Z.ltb_lt i 128)) by lia.
Qed.

Lemma key_large i : 128 <= i < two64 ->
  AppendUint64 i = byte_of_Z (0x80 + byte_len i) :: be_bytes (Z.to_nat (byte_len i)) i /\ 1 <= byte_len i <= 8.
Proof.
  intros Hi. assert (is_u64 i) as Hu by (unfold is_u64; lia). rewrite AppendUint64_write by done. unfold writeUint64.
  rewrite (proj2 (Z.eqb_neq i 0)), (proj2 (Z.ltb_ge i 128)) by lia.
  pose proof (int_bytes_content i ltac:(lia)) as Hc. unfold int_content in Hc. rewrite Z.abs_eq in Hc by lia.
  rewrite (proj2 (Z.eqb_neq i 0)) in Hc by lia. unfold int_bytes in Hc. fold (byte_len i) in Hc. rewrite Z.abs_eq in Hc by lia.
  pose proof (length_putint_range i Hu) as Hl. rewrite <- Hc in *. unfold zlen in *. rewrite length_be_bytes in *.
  destruct (byte_len_bounds i ltac:(lia)) as [H1 _]. rewrite Z2Nat.id in * by lia. done.
Qed.

Lemma byte_len_mono i j : 0 < i <= j -> byte_len i <= byte_len j.
Proof.
  intros Hij. destruct (byte_len_bounds i ltac:(lia)) as [H1 H2]. destruct (byte_len_bounds j ltac:(lia)) as [H3 H4].
  destruct (Z.le_gt_cases (byte_len i) (byte_len j)) as [|Hgt]; [done|exfalso].
  pose proof (Z.pow_le_mono_r 256 (byte_len j) (byte_len i - 1)). lia.
Qed.

Lemma keys_large_lt i j : 128 <= i < j -> j < two64 -> bytes_lt (AppendUint64 i) (AppendUint64 j).
Proof.
  intros Hij Hj. destruct (key_large i ltac:(lia)) as [-> Hi]. destruct (key_large j ltac:(lia)) as [-> Hlj].
  pose proof (byte_len_mono i j ltac:(lia)). cbn [bytes_lt]. rewrite !byte_val_of_Z, !Z.mod_small by lia.
  destruct (Z.eq_dec (byte_len i) (byte_len j)) as [He|]; [right|left; lia]. rewrite He. split; [done|].
  apply be_bytes_lt; [lia|]. destruct (byte_len_bounds j ltac:(lia)) as [_ Hb]. rewrite Z2Nat.id by lia. lia.
Qed.

Lemma seq_sorted a n (P : nat -> nat -> Prop) :
  (forall i j, (a <= i < j)%nat -> (j < a + n)%nat -> P i j) -> StronglySorted P (seq a n).
Proof.
  revert a. induction n as [|n IH]; intros a H; [constructor|]. cbn. constructor.
  - apply IH. intros i j Hi Hj. apply H; lia.
  - apply List.Forall_forall. intros i Hi%in_seq. apply H; lia.
Qed.

Lemma sorted_app {A} (R : A -> A -> Prop) l k :
  StronglySorted R l -> StronglySorted R k -> (forall x y, In x l -> In y k -> R x y) -> StronglySorted R (l ++ k).
Proof.
  induction 1 as [|x l Hl IH Hx]; intros Hk H; [done|]. cbn. constructor.
  - apply IH; [done|]. intros a b Ha Hb. apply H; [by right|done].
  - apply Forall_app. split; [done|]. apply List.Forall_forall. intros b Hb. apply H; [by left|done].
Qed.

Lemma StronglySorted_map {A B} (f : A -> B) (R : B -> B -> Prop) l :
  StronglySorted (fun a b => R (f a) (f b)) l -> StronglySorted R (map f l).
Proof. induction 1 as [|x l Hl IH Hx]; cbn; constructor; [done|]. by apply Forall_map. Qed.

(** ** Lemmas: the encoding of a header *)

Definition opt_item (o : option (list byte)) : list item := match o with Some b => [Str b] | None => [] end.

(** The value a header is encoded as. *)
Definition header_item (h : Header) : item :=
  Lst ([Str (hash_bytes (hdr_ParentHash h)); Str (hash_bytes (hdr_UncleHash h)); Str (address_bytes (hdr_Coinbase h));
    Str (hash_bytes (hdr_Root h)); Str (hash_bytes (hdr_TxHash h)); Str (hash_bytes (hdr_ReceiptHash h));
    Str (hdr_Bloom h); int_item (hdr_Difficulty h); int_item (hdr_Number h); int_item (hdr_GasLimit h);
    int_item (hdr_GasUsed h); int_item (hdr_Time h); Str (hdr_Extra h); Str (hash_bytes (hdr_MixDigest h));
    Str (be_bytes 8 (hdr_Nonce h))] ++
    (match hdr_BaseFee h, hdr_WithdrawalsHash h with
     | Some b, None => [int_item b]
     | Some b, Some w => [int_item b; Str (hash_bytes w)]
     | None, Some w => [Str []; Str (hash_bytes w)]
     | None, None => []
     end)).

Record header_wf (h : Header) : Prop := {
  wf_ParentHash : 0 <= hdr_ParentHash h < 2 ^ 256;
  wf_UncleHash : 0 <= hdr_UncleHash h < 2 ^ 256;
  wf_Coinbase : 0 <= hdr_Coinbase h < 2 ^ 160;
  wf_Root : 0 <= hdr_Root h < 2 ^ 256;
  wf_TxHash : 0 <= hdr_TxHash h < 2 ^ 256;
  wf_ReceiptHash : 0 <= hdr_ReceiptHash h < 2 ^ 256;
  wf_Bloom : zlen (hdr_Bloom h) = 256;
  wf_Difficulty : 0 <= hdr_Difficulty h < 2 ^ 256;
  wf_Number : is_u64 (hdr_Number h);
  wf_GasLimit : is_u64 (hdr_GasLimit h);
  wf_GasUsed : is_u64 (hdr_GasUsed h);
  wf_Time : is_u64 (hdr_Time h);
  wf_Extra : zlen (hdr_Extra h) < 2 ^ 60;
  wf_MixDigest : 0 <= hdr_MixDigest h < 2 ^ 256;
  wf_Nonce : is_u64 (hdr_Nonce h);
  wf_BaseFee : forall b, hdr_BaseFee h = Some b -> 0 <= b < 2 ^ 256;
  wf_WithdrawalsHash : forall w, hdr_WithdrawalsHash h = Some w -> 0 <= w < 2 ^ 256
}.

Lemma writeUint64_item i : is_u64 i -> writeUint64 i = encode_item (int_item i).
Proof.
  intros Hi. cbn [encode_item int_item]. rewrite int_bytes_content by (unfold is_u64 in *; lia).
  unfold is_u64 in Hi. rewrite Z.abs_eq by lia. by apply writeUint64_content.
Qed.

Lemma writeBigInt_item i : writeBigInt i = encode_item (int_item i).
Proof. apply writeBigInt_bytes. Qed.

Lemma Header_EncodeRLP_item h : header_wf h -> Header_EncodeRLP h = Some (encode_item (header_item h)).
Proof.
  intros []. unfold Header_EncodeRLP, header_item.
  rewrite (proj2 (Z.ltb_ge (hdr_Difficulty h) 0)), (proj2 (Z.ltb_ge (hdr_Number h) 0)) by ulia.
  rewrite !writeBigInt_item, !writeUint64_item by done. cbn [encode_item]. rewrite map_app, concat_app.
  destruct (hdr_BaseFee h) as [b|] eqn:Eb, (hdr_WithdrawalsHash h) as [w|] eqn:Ew;
    rewrite ?(bool_decide_eq_true_2 (None = None)), ?bool_decide_eq_false_2 by done; cbn [negb orb];
    try (specialize (wf_BaseFee0 b eq_refl); rewrite (proj2 (Z.ltb_ge b 0)) by lia; rewrite writeBigInt_item);
    do 2 f_equal; cbn [map concat encode_item app]; rewrite ?app_nil_r, <- ?app_assoc; reflexivity.
Qed.

(** Sizes: an encoding is a little longer than its content. *)
Lemma int_item_len i : 0 <= i < 2 ^ 256 -> zlen (encode_item (int_item i)) <= 41.
Proof.
  intros Hi. cbn [encode_item int_item].
  assert (zlen (int_bytes i) <= 32) as Hl.
  { unfold zlen, int_bytes. rewrite length_be_bytes. fold (byte_len i). destruct (Z.eq_dec i 0) as [->|Hi0]; [done|].
    destruct (byte_len_bounds i Hi0) as [H1 H2]. rewrite Z2Nat.id by lia.
    destruct (Z.le_gt_cases (byte_len i) 32) as [|Hgt]; [done|exfalso].
    pose proof (Z.pow_le_mono_r 256 32 (byte_len i - 1)). lia. }
  pose proof (writeBytes_len (int_bytes i) ltac:(unfold two64; lia)). lia.
Qed.

Lemma be_item_len n z : Z.of_nat n <= 256 -> zlen (encode_item (Str (be_bytes n z))) <= 265.
Proof.
  intros Hn. cbn [encode_item]. assert (zlen (be_bytes n z) = Z.of_nat n) as Hl by (unfold zlen; by rewrite length_be_bytes).
  pose proof (writeBytes_len (be_bytes n z) ltac:(unfold two64; lia)). lia.
Qed.

Lemma header_encoding_len h : header_wf h -> zlen (encode_item (header_item h)) < 2 ^ 62.
Proof.
  intros []. unfold header_item. cbn [encode_item]. unfold write_list. rewrite zlen_app, map_app, concat_app.
  set (tail := concat (map encode_item (match hdr_BaseFee h with Some _ => _ | None => _ end))).
  assert (zlen tail <= 400) as Ht.
  { unfold tail. destruct (hdr_BaseFee h) as [b|], (hdr_WithdrawalsHash h) as [w|]; cbn [map]; rewrite ?concat_cons_len;
      cbn [concat]; rewrite ?zlen_nil; unfold hash_bytes; try done;
      try (pose proof (int_item_len b (wf_BaseFee0 b eq_refl))); try (pose proof (be_item_len 32 w)); lia. }
  clearbody tail. cbn [map].
  pose proof (be_item_len 32 (hdr_ParentHash h) ltac:(lia)). pose proof (be_item_len 32 (hdr_UncleHash h) ltac:(lia)).
  pose proof (be_item_len 20 (hdr_Coinbase h) ltac:(lia)). pose proof (be_item_len 32 (hdr_Root h) ltac:(lia)).
  pose proof (be_item_len 32 (hdr_TxHash h) ltac:(lia)). pose proof (be_item_len 32 (hdr_ReceiptHash h) ltac:(lia)).
  pose proof (be_item_len 32 (hdr_MixDigest h) ltac:(lia)). pose proof (be_item_len 8 (hdr_Nonce h) ltac:(lia)).
  pose proof (int_item_len (hdr_Difficulty h) ltac:(lia)).
  pose proof (int_item_len (hdr_Number h) ltac:(ulia)). pose proof (int_item_len (hdr_GasLimit h) ltac:(ulia)).
  pose proof (int_item_len (hdr_GasUsed h) ltac:(ulia)). pose proof (int_item_len (hdr_Time h) ltac:(ulia)).
  pose proof (writeBytes_len (hdr_Bloom h) ltac:(unfold two64; lia)).
  pose proof (writeBytes_len (hdr_Extra h) ltac:(unfold two64; lia)).
  unfold hash_bytes, address_bytes. set (c := concat _ ++ tail).
  assert (zlen c <= 2 ^ 61) as Hc.
  { unfold c. rewrite zlen_app, !concat_cons_len. cbn [concat]. rewrite zlen_nil.
    change (encode_item (Str (hdr_Bloom h))) with (writeBytes (hdr_Bloom h)).
    change (encode_item (Str (hdr_Extra h))) with (writeBytes (hdr_Extra h)). lia. }
  pose proof (zlen_nonneg c). pose proof (listhead_len (zlen c) ltac:(unfold two64; lia)). lia.
Qed.

(** A header without the field its encoding leaves out. *)
Definition without_excess (h : Header) : Header :=
  mkHeader (hdr_ParentHash h) (hdr_UncleHash h) (hdr_Coinbase h) (hdr_Root h) (hdr_TxHash h) (hdr_ReceiptHash h)
    (hdr_Bloom h) (hdr_Difficulty h) (hdr_Number h) (hdr_GasLimit h) (hdr_GasUsed h) (hdr_Time h) (hdr_Extra h)
    (hdr_MixDigest h) (hdr_Nonce h) (hdr_BaseFee h) (hdr_WithdrawalsHash h) None.

Lemma be_bytes_inj n i j :
  0 <= i < 256 ^ Z.of_nat n -> 0 <= j < 256 ^ Z.of_nat n -> be_bytes n i = be_bytes n j -> i = j.
Proof.
  intros Hi Hj H. apply (f_equal be_value) in H. rewrite !be_value_be_bytes in H. by rewrite !Z.mod_small in H by lia.
Qed.

(** The optional fields are told apart, except a base fee of zero from no base
    fee where there is a withdrawals hash. *)
Lemma optional_fields_inj h h' : header_wf h -> header_wf h' ->
  (hdr_WithdrawalsHash h <> None -> hdr_BaseFee h <> None) ->
  (hdr_WithdrawalsHash h' <> None -> hdr_BaseFee h' <> None) ->
  (match hdr_BaseFee h, hdr_WithdrawalsHash h with
     | Some b, None => [int_item b]
     | Some b, Some w => [int_item b; Str (hash_bytes w)]
     | None, Some w => [Str []; Str (hash_bytes w)]
     | None, None => []
   end) =
  (match hdr_BaseFee h', hdr_WithdrawalsHash h' with
     | Some b, None => [int_item b]
     | Some b, Some w => [int_item b; Str (hash_bytes w)]
     | None, Some w => [Str []; Str (hash_bytes w)]
     | None, None => []
   end) ->
  hdr_BaseFee h = hdr_BaseFee h' /\ hdr_WithdrawalsHash h = hdr_WithdrawalsHash h'.
Proof.
  intros [] [] Hf Hf' Heq.
  destruct (hdr_WithdrawalsHash h) as [w|], (hdr_WithdrawalsHash h') as [w'|];
    destruct (hdr_BaseFee h) as [b|], (hdr_BaseFee h') as [b'|];
    try (by destruct Hf); try (by destruct Hf'); try done;
    apply (inj2 cons) in Heq as [H1 H2].
  - apply (inj2 cons) in H2 as [H2 _]. apply int_item_inj in H1; [|by apply wf_BaseFee0|by apply wf_BaseFee1].
    apply Str_inj, hash_bytes_inj in H2; [by subst|by apply wf_WithdrawalsHash0|by apply wf_WithdrawalsHash1].
  - apply int_item_inj in H1; [by subst|by apply wf_BaseFee0|by apply wf_BaseFee1].
Qed.

Lemma header_item_inj h h' : header_wf h -> header_wf h' ->
  (hdr_WithdrawalsHash h <> None -> hdr_BaseFee h <> None) ->
  (hdr_WithdrawalsHash h' <> None -> hdr_BaseFee h' <> None) ->
  header_item h = header_item h' -> without_excess h = without_excess h'.
Proof.
  intros Hwf Hwf' Hf Hf' Heq%Lst_inj. cbn [app] in Heq.
  do 15 (apply (inj2 cons) in Heq as [? Heq]).
  destruct (optional_fields_inj h h' Hwf Hwf' Hf Hf' Heq) as [Hb Hw]. clear Heq Hf Hf'. destruct Hwf, Hwf'.
  repeat match goal with
  | H : Str (hash_bytes _) = Str (hash_bytes _) |- _ => apply Str_inj, hash_bytes_inj in H; [|done..]
  | H : Str (address_bytes _) = _ |- _ => apply Str_inj, address_bytes_inj in H; [|done..]
  | H : int_item _ = int_item _ |- _ => apply int_item_inj in H; [|ulia..]
  | H : Str (be_bytes 8 _) = _ |- _ => apply Str_inj, (be_bytes_inj 8) in H; [|change (256 ^ Z.of_nat 8) with two64; ulia..]
  | H : Str _ = Str _ |- _ => apply Str_inj in H
  end.
  unfold without_excess. f_equal; assumption.
Qed.

(** ** Theorems *)

(** C36: A header's hash commits to every field but [ExcessDataGas], which is left out
    of the encoding: two well-formed headers have the same hash if and only if they
    agree on all the others.  (A header with a withdrawals hash is taken to have a
    base fee, as all of them have: an absent one is encoded like zero.) *)
Theorem Header_Hash_commits {K : Keccak} {KL : KeccakLaws K} h h' :
  header_wf h -> header_wf h' ->
  (hdr_WithdrawalsHash h <> None -> hdr_BaseFee h <> None) ->
  (hdr_WithdrawalsHash h' <> None -> hdr_BaseFee h' <> None) ->
  Header_Hash h = Header_Hash h' <-> without_excess h = without_excess h'.
Proof.
  intros Hwf Hwf' Hf Hf'. split.
  - unfold Header_Hash, rlpHash. rewrite !Header_EncodeRLP_item by done. cbn [default from_option id].
    intros H%keccak256_inj. apply header_item_inj; [done..|].
    pose proof (header_encoding_len h Hwf). eapply (encode_item_prefix _ _ [] []); rewrite !app_nil_r; [lia|done].
  - intros H. assert (forall x, Header_Hash x = Header_Hash (without_excess x)) as Hx by done.
    by rewrite (Hx h), (Hx h'), H.
Qed.

(** The parent's hash read from the encoding of a header is the header's parent
    hash. *)
Theorem HeaderParentHash_roundtrip h enc :
  header_wf h -> Header_EncodeRLP h = Some enc -> HeaderParentHashFromRLP enc = Ret (hdr_ParentHash h).
Proof.
  intros Hwf Henc. rewrite Header_EncodeRLP_item in Henc by done. apply (inj Some) in Henc as <-.
  pose proof (header_encoding_len h Hwf) as Hl. unfold HeaderParentHashFromRLP, SplitList.
  pose proof (Split_item (header_item h) []) as Hs. rewrite app_nil_r in Hs. rewrite Hs by lia.
  cbn [res_bind]. change (item_kind (header_item h)) with KList. cbv iota beta. cbn [res_bind].
  assert (exists rest, item_content (header_item h) = writeBytes (hash_bytes (hdr_ParentHash h)) ++ rest) as [rest Hc]
    by (eexists; reflexivity).
  rewrite encode_item_header, zlen_app, Hc in Hl. rewrite Hc.
  rewrite SplitString_writeBytes_lem.
  2:{ pose proof (zlen_nonneg (header (item_kind (header_item h)) (writeBytes (hash_bytes (hdr_ParentHash h)) ++ rest))). lia. }
  cbn [res_bind]. assert (zlen (hash_bytes (hdr_ParentHash h)) = 32) as -> by (unfold zlen, hash_bytes; by rewrite length_be_bytes).
  cbn [negb Z.eqb]. unfold hash_bytes. rewrite be_value_be_bytes. f_equal. apply Z.mod_small. apply Hwf.
Qed.

(** The trie of a list gets every element once, and in strictly increasing order
    of the keys, as the hasher of [DeriveSha] requires. *)
Theorem DeriveSha_sorted (values : list (list byte)) :
  zlen values < two64 ->
  StronglySorted bytes_lt (map fst (derive_updates values)) /\
  map snd (derive_updates values) ≡ₚ values /\
  forall i v, values !! i = Some v -> (AppendUint64 (Z.of_nat i), v) ∈ derive_updates values.
Proof.
  intros Hl. unfold zlen in Hl. set (n := length values) in *.
  assert (derive_order n ≡ₚ seq 0 n) as Hperm.
  { unfold derive_order. destruct n as [|n]; [done|]. cbn [Nat.sub Nat.ltb Nat.leb]. rewrite Nat.sub_0_r.
    change (seq 0 (S n)) with (0%nat :: seq 1 n). rewrite Permutation_app_swap_app. cbn [app]. constructor.
    destruct (Nat.le_gt_cases n 127).
    - rewrite Nat.min_l by lia. replace (n - 127)%nat with 0%nat by lia. cbn [seq]. by rewrite app_nil_r.
    - rewrite Nat.min_r by lia. replace n with (127 + (n - 127))%nat at 2 by lia. by rewrite seq_app. }
  split; [|split].
  - unfold derive_updates. rewrite map_map. cbn [fst]. apply StronglySorted_map.
    fold n. unfold derive_order. clearbody n. apply sorted_app; [|apply sorted_app|].
    + apply seq_sorted. intros i j Hi Hj. rewrite !key_small by lia. left. rewrite !byte_val_of_Z, !Z.mod_small by lia. lia.
    + destruct (0 <? n)%nat; repeat constructor.
    + apply seq_sorted. intros i j Hi Hj. apply keys_large_lt; lia.
    + intros x y Hx Hy%in_seq. destruct (0 <? n)%nat; [|by destruct Hx]. destruct Hx as [<-|[]].
      destruct (key_large (Z.of_nat y)) as [-> Hb]; [lia|]. left. change (byte_val Byte.x80) with 0x80.
      rewrite byte_val_of_Z, Z.mod_small by lia. lia.
    + intros x y Hx%in_seq Hy%in_app_or. rewrite key_small by lia. destruct Hy as [Hy|Hy%in_seq].
      * destruct (0 <? n)%nat; [|by destruct Hy]. destruct Hy as [<-|[]]. left.
        change (byte_val Byte.x80) with 0x80. rewrite byte_val_of_Z, Z.mod_small by lia. lia.
      * destruct (key_large (Z.of_nat y)) as [-> Hb]; [lia|]. left. rewrite !byte_val_of_Z, !Z.mod_small by lia. lia.
  - unfold derive_updates. rewrite map_map. cbn [snd]. fold n. rewrite (Permutation_map _ Hperm).
    unfold n. clear. induction values as [|v values IH]; [done|]. cbn [length seq map nth]. constructor.
    by rewrite <- seq_shift, map_map.
  - intros i v Hv. apply list_elem_of_In. unfold derive_updates. fold n.
    rewrite <- (nth_lookup_Some values i [] v Hv).
    apply (in_map (fun i => (AppendUint64 (Z.of_nat i), nth i values []))).
    apply list_elem_of_In. rewrite Hperm. apply list_elem_of_In, in_seq. apply lookup_lt_Some in Hv. lia.
Qed.
