(* ===== verification/StreamSpec.v ===== *)
(** * What decoding from a stream accepts

    Each decoder of RlpStream.v read as a relation between the bytes that are left of the
    innermost list, the value, and what is left after it: a decoder gives a value exactly
    when the list goes on with the canonical encoding of that value. *)

From Stdlib Require Import Strings.Byte.
From S2P Require Import Prelude.
From S2P Require Import Common.
From S2P Require Import Rlp.
From S2P Require Import Precompiles.
From S2P Require Import Encoding.
From S2P Require Import RlpStream.

#[export] Instance Kind_eq_dec : EqDecision Kind.
Proof. solve_decision. Defined.
#[export] Instance rlp_error_eq_dec : EqDecision rlp_error.
Proof. solve_decision. Defined.
#[export] Instance stream_error_eq_dec : EqDecision stream_error.
Proof. solve_decision. Defined.

(** ** Where a stream is *)

(** The lists around the current position: none at the top, or the sizes left of those
    outside the innermost one. *)
Definition frame : Type := option (list Z).

Definition stack_at (f : frame) (l : list byte) : list Z :=
  match f with None => [] | Some outer => zlen l :: outer end.

(** [l] is left of the innermost list, [tail] follows it, and no header was read ahead. *)
Record at_list (f : frame) (l tail : list byte) (s : Stream) : Prop := {
  at_input : s_input s = l ++ tail;
  at_stack : s_stack s = stack_at f l;
  at_remaining : s_remaining s = zlen (l ++ tail);
  at_limited : s_limited s = true;
  at_kind : s_kind s = None;
  at_top : f = None -> tail = [];
  at_small : zlen (l ++ tail) < 2 ^ 62
}.

(** The same after a header: a value of this kind and size comes next. *)
Record at_value (f : frame) (k : Kind) (size : Z) (l tail : list byte) (s : Stream) : Prop := {
  av_at : at_list f l tail (set_kind None s);
  av_kind : s_kind s = Some k;
  av_size : s_size s = size;
  av_err : s_kinderr s = None
}.

Notation run d s Q := (wp no_panic d Q s) (only parsing).

Lemma run_bind {A B} (m : decoder A) (k : A -> decoder B) s Q :
  run m s (fun r s' => match r with inl a => run (k a) s' Q | inr e => Q (inr e) s' end) ->
  run (sbind m k) s Q.
Proof. intros H. apply wp_gbind. eapply wp_mono; [exact H|]. by intros [a|e] s'. Qed.

Lemma run_mono {A} (m : decoder A) s (P Q : A + stream_error -> Stream -> Prop) :
  run m s P -> (forall r s', P r s' -> Q r s') -> run m s Q.
Proof. apply wp_mono. Qed.

(** [run_step] goes one step into a decoder. *)
Ltac run_step :=
  lazymatch goal with
  | |- wp _ (sbind _ _) _ _ => apply run_bind
  | |- wp _ (sret _) _ _ => apply wp_gret
  | |- wp _ (serr _) _ _ => apply wp_gret
  | _ => wp_step
  end.
Ltac run_steps := repeat (run_step; cbn).

(** ** Lemmas: reading bytes *)

(** [willRead] takes [n] bytes off the limits. *)
Lemma willRead_run f l tail n s :
  0 <= n -> at_list f l tail (set_kind None s) ->
  run (willRead n) s (fun r s' =>
    match r with
    | inl _ => n <= zlen l /\ s_input s' = l ++ tail /\ s_remaining s' = zlen (l ++ tail) - n /\
        s_stack s' = match f with None => [] | Some outer => zlen l - n :: outer end /\
        s_limited s' = true /\ s_kind s' = None /\ s_byteval s' = s_byteval s
    | inr e => zlen l < n /\ e <> EOL
    end).
Proof.
  intros Hn []. destruct s as [input remaining size err stack kind bv lim]. cbn in *. subst.
  unfold willRead. pose proof (zlen_nonneg tail). pose proof (zlen_app l tail).
  destruct f as [outer|]; cbn [stack_at] in *; run_steps; zbool; try done; try lia.
  all: specialize (at_top0 eq_refl); subst tail; rewrite zlen_nil in *; split_and!; done || lia.
Qed.

(** Reading [n] bytes takes them from the innermost list, if it has them. *)
Lemma readFull_run f l tail n s :
  0 <= n -> at_list f l tail (set_kind None s) ->
  run (readFull n) s (fun r s' =>
    match r with
    | inl c => s_byteval s' = s_byteval s /\ exists l', l = c ++ l' /\ zlen c = n /\ at_list f l' tail s'
    | inr e => zlen l < n /\ e <> EOL
    end).
Proof.
  intros Hn Hat. unfold readFull. apply run_bind. eapply run_mono; [by apply willRead_run|].
  intros [_|e] s' H; [|done]. destruct H as (Hle & Hi & Hr & Hst & Hlim & Hk & Hbv). run_steps.
  all: pose proof (zlen_nonneg tail); pose proof (zlen_app l tail); rewrite Hi in *; destruct Hat; cbn in *.
  { zbool. lia. }
  destruct (cut l n) as (c & l' & -> & <-); [lia|]. pose proof (zlen_app c l').
  assert (Z.to_nat (zlen c) = length c) as -> by (unfold zlen; lia). rewrite <- app_assoc, take_app_length, drop_app_length.
  split; [done|]. exists l'. split; [done|]. split; [done|]. pose proof (zlen_app l' tail).
  constructor; cbn; try done; [|lia..]. rewrite Hst. destruct f; cbn [stack_at]; [|done]. f_equal. lia.
Qed.

Lemma readByte_run f l tail s :
  at_list f l tail (set_kind None s) ->
  run stream_readByte s (fun r s' =>
    match r with
    | inl b => s_byteval s' = s_byteval s /\ exists l', l = b :: l' /\ at_list f l' tail s'
    | inr e => l = [] /\ e <> EOL
    end).
Proof.
  intros Hat. unfold stream_readByte. apply run_bind. eapply run_mono; [by apply willRead_run|].
  intros [_|e] s' H.
  2:{ destruct H as [Hl He]. split; [|done]. destruct l; [done|]. rewrite zlen_cons in Hl. pose proof (zlen_nonneg l). lia. }
  destruct H as (Hle & Hi & Hr & Hst & Hlim & Hk & Hbv). run_step. run_step. rewrite Hi.
  destruct l as [|b l]; [unfold zlen in Hle; cbn in Hle; lia|]. cbn [app]. run_steps.
  split; [done|]. exists l. split; [done|]. destruct Hat; cbn in *. rewrite zlen_cons in *.
  constructor; cbn; try done; [|lia..]. rewrite Hst. destruct f; cbn [stack_at]; [|done]. f_equal. lia.
Qed.

(** Leading zeros are refused where there is more than one byte. *)
Definition canonical (c : list byte) : Prop := forall b, head c = Some b -> byte_val b <> 0.

Lemma readUint_run f l tail n s :
  0 <= n <= 8 -> at_list f l tail (set_kind None s) ->
  run (stream_readUint n) s (fun r s' =>
    match r with
    | inl v => exists c l', l = c ++ l' /\ zlen c = n /\ v = be_value c /\ at_list f l' tail s' /\ (n <> 1 -> canonical c)
    | inr e => e <> EOL /\ forall c l', l = c ++ l' -> zlen c = n -> ~ canonical c
    end).
Proof.
  intros Hn Hat. unfold stream_readUint. assert (forall e : stream_error, zlen l < n /\ e <> EOL ->
    e <> EOL /\ forall c l', l = c ++ l' -> zlen c = n -> ~ canonical c) as Hshort.
  { intros e [Hl He]. split; [done|]. intros c l' -> Hc. rewrite zlen_app in Hl. pose proof (zlen_nonneg l'). lia. }
  destruct (n =? 0) eqn:E0; zbool; [|destruct (n =? 1) eqn:E1; zbool; [|destruct (n >? 8) eqn:E8; zbool; [lia|]]].
  - run_steps. exists [], l. split_and!; try done.
  - apply run_bind. eapply run_mono; [by apply readByte_run|]. intros [b|e] s' H; [|apply Hshort; destruct H as [-> ?]; rewrite zlen_nil; split; [lia|done]].
    destruct H as (_ & l' & -> & Hat'). run_steps. exists [b], l'. split_and!; try done.
  - apply run_bind. eapply run_mono; [apply readFull_run; [lia|done]|]. intros [c|e] s' H; [|by apply Hshort].
    destruct H as (_ & l' & -> & Hc & Hat'). destruct c as [|b c]; [by rewrite zlen_nil in Hc; lia|].
    destruct (go_index_ok (b :: c) 0) as (b0 & Hi & Hb0); [lia|]. injection Hb0 as ->. rewrite Hi.
    apply wp_gbind. cbn. destruct (byte_val b0 =? 0) eqn:Eb; zbool; run_steps.
    + split; [done|]. intros c' r Heq Hc' Hcan. destruct c' as [|b' c']; [by rewrite zlen_nil in Hc'; lia|].
      injection Heq as -> _. by apply (Hcan b').
    + exists (b0 :: c), l'. split_and!; try done. by intros _ b [= <-].
Qed.

(** A size that takes bytes of its own. *)
Lemma long_run base k f b l tail s :
  0 <= base -> base + 8 < 256 -> base < byte_val b <= base + 8 -> at_list f l tail s ->
  run (let* size := stream_readUint (byte_val b - base) in
       gret (match size with
             | inr err => (k, 0, Some err)
             | inl size => (k, size, if size <? 56 then Some (RlpErr ErrCanonSize) else None)
             end)) s (fun (r : Kind * Z * option stream_error) s' =>
    fst (fst r) = k /\
    match snd r with
    | None => exists l', b :: l = large_header base (snd (fst r)) ++ l' /\ 56 <= snd (fst r) < two64 /\ at_list f l' tail s'
    | Some e => e <> EOL /\ forall size r, 56 <= size < two64 -> b :: l <> large_header base size ++ r
    end).
Proof.
  intros H0 H1 Hb Hat. apply wp_gbind. eapply wp_mono; [apply (readUint_run f l tail)|].
  { lia. }
  { destruct Hat; by constructor. }
  assert (forall size r, 56 <= size < two64 -> b :: l = large_header base size ++ r ->
    l = putint size ++ r /\ zlen (putint size) = byte_val b - base /\ canonical (putint size)) as Hform.
  { intros size r Hs [= Hb' ->]. pose proof (length_putint_range size ltac:(lia)).
    split; [done|]. rewrite Hb', byte_val_of_Z, Z.mod_small by lia. split; [lia|].
    intros x. apply putint_head; [unfold is_u64; lia|lia]. }
  intros [v|e] s' H; apply wp_gret; cbn; (split; [done|]).
  - destruct H as (c & l' & -> & Hc & -> & Hat' & Hcan).
    assert (be_value c < two64) as Hv.
    { pose proof (be_value_bound c) as Hv. pose proof (Z.pow_le_mono_r 256 (zlen c) 8 ltac:(lia) ltac:(lia)).
      change (256 ^ 8) with two64 in *. lia. }
    assert (forall size, 56 <= size < two64 -> putint size = c -> be_value c = size) as Hval.
    { intros size Hs <-. apply putint_be_value. lia. }
    destruct (be_value c <? 56) eqn:E; zbool.
    + split; [done|]. intros size r Hs Heq. destruct (Hform size r Hs Heq) as (Hl & Hz & _).
      apply app_inj_1 in Hl as [Hl _]; [|unfold zlen in *; lia]. specialize (Hval size Hs (eq_sym Hl)). lia.
    + exists l'. assert (putint (be_value c) = c) as Hp.
      { apply putint_canonical; [lia|]. destruct (Z.eq_dec (byte_val b - base) 1) as [H1'|H1']; [|by apply Hcan].
        rewrite H1' in Hc. destruct c as [|x [|y c]]; [done| |rewrite !zlen_cons in Hc; pose proof (zlen_nonneg c); lia].
        intros ? [= <-]. unfold be_value in E. cbn in E. lia. }
      split_and!; try done. unfold large_header. rewrite Hp, Hc. cbn [app].
      replace (base + (byte_val b - base)) with (byte_val b) by lia. by rewrite byte_of_Z_val.
  - destruct H as [He Hno]. split; [done|]. intros size r Hs Heq.
    destruct (Hform size r Hs Heq) as (Hl & Hz & Hcan). by apply (Hno _ _ Hl Hz).
Qed.

Definition head_of (k : Kind) (size : Z) : list byte :=
  match k with KByte => [] | KString => encodeStringHeader size | KList => listhead_encode size end.

(** After a header of this kind and size, [l'] is left of [l]. *)
Definition headed (k : Kind) (size : Z) (bv : byte) (l l' : list byte) : Prop :=
  match k with
  | KByte => size = 0 /\ l = bv :: l' /\ byte_val bv < 128
  | _ => l = head_of k size ++ l'
  end.

Lemma header_nonempty k c r : kind_ok k c -> header k c ++ c ++ r <> [].
Proof.
  destruct k; [intros (x & -> & _); done|intros _..].
  - cbn [header]. rewrite encodeStringHeader_eq. by case_match.
  - cbn [header]. rewrite listhead_encode_eq. by case_match.
Qed.

Lemma at_list_len f l tail s : at_list f l tail s -> zlen l < 2 ^ 62.
Proof. intros []. rewrite zlen_app in at_small0. pose proof (zlen_nonneg tail). lia. Qed.

Lemma at_list_byteval f l tail s x : at_list f l tail s -> at_list f l tail (set_byteval x s).
Proof. intros []. by constructor. Qed.

Lemma at_list_ready f l tail s : at_list f l tail s -> at_list f l tail (set_kind None s).
Proof. intros []. by constructor. Qed.

Lemma readKind_run f l tail s :
  at_list f l tail s ->
  run stream_readKind s (fun (r : Kind * Z * option stream_error) s' =>
    let '(k, size, err) := r in
    match err with
    | None => exists l', at_list f l' tail s' /\ 0 <= size < two64 /\ headed k size (s_byteval s') l l'
    | Some e => e <> EOL /\ forall k c r, kind_ok k c -> l <> header k c ++ c ++ r
    end).
Proof.
  intros Hat. unfold stream_readKind. apply wp_gbind. eapply wp_mono; [by apply readByte_run, at_list_ready|].
  intros [b|e] s' H.
  2:{ destruct H as [-> He]. run_steps. split; [|intros k c r Hk Heq; by apply (header_nonempty k c r)].
      destruct (s_stack s'); [|done]. by destruct e as [| |[]| | | | | | | | | |]. }
  destruct H as (_ & l' & -> & Hat'). apply wp_gbind, wp_gput.
  assert (forall k c r, kind_ok k c -> b :: l' = header k c ++ c ++ r -> form k c b) as Hform.
  { intros k c r Hk Heq. eapply header_form; [done..|]. pose proof (at_list_len _ _ _ _ Hat) as Hlen.
    rewrite Heq, !zlen_app in Hlen. pose proof (zlen_nonneg (header k c)). pose proof (zlen_nonneg r). lia. }
  destruct (byte_val b <? 128) eqn:E1; zbool.
  { run_steps. exists l'. split_and!; try done. by apply at_list_byteval, at_list_byteval. }
  assert (forall base, [byte_of_Z (base + (byte_val b - base))] = [b]) as Hb.
  { intros base. replace (base + (byte_val b - base)) with (byte_val b) by lia. by rewrite byte_of_Z_val. }
  pose proof (byte_val_range b). destruct (byte_val b <? 184) eqn:E2; zbool.
  { apply wp_gret. exists l'. split; [by apply at_list_byteval|]. split; [unfold two64; lia|]. cbn.
    rewrite encodeStringHeader_eq, (proj2 (Z.ltb_lt _ _)) by lia. unfold small_header. by rewrite Hb. }
  destruct (byte_val b <? 192) eqn:E3; zbool; [|destruct (byte_val b <? 248) eqn:E4; zbool].
  2:{ apply wp_gret. exists l'. split; [by apply at_list_byteval|]. split; [unfold two64; lia|]. cbn.
    rewrite listhead_encode_eq, (proj2 (Z.ltb_lt _ _)) by lia. unfold small_header. by rewrite Hb. }
  all: cbv zeta; eapply wp_mono; [eapply long_run with (f := f) (l := l') (tail := tail) (b := b); [lia..|by apply at_list_byteval]|].
  all: intros [[k size] [e|]] s1 [Hk H2]; cbn in Hk, H2; subst k.
  1,3: destruct H2 as [He Hno]; split; [done|]; intros k c r Hk Heq; pose proof (Hform k c r Hk Heq) as Hf;
    pose proof (at_list_len _ _ _ _ Hat) as Hlen; rewrite Heq, !zlen_app in Hlen; pose proof (zlen_nonneg (header k c));
    pose proof (zlen_nonneg r); unfold form in Hf; destruct_or! Hf; destruct_and! Hf; try lia;
    apply (Hno (zlen c) (c ++ r)); [unfold two64; lia|]; rewrite Heq; match goal with E : header _ _ = _ |- _ => by rewrite E end.
  all: destruct H2 as (l1 & Hl & Hs & Hat1); exists l1; split; [done|]; split; [lia|]; cbn;
    rewrite ?encodeStringHeader_eq, ?listhead_encode_eq, (proj2 (Z.ltb_ge _ _)) by lia; done.
Qed.

(** The first byte tells the headers of strings and lists apart, and where they end. *)
Lemma head_of_first k n l : k <> KByte -> 0 <= n < two64 ->
  exists b l1, head_of k n ++ l = b :: l1 /\
    let tag := match k with KList => 0xC0 | _ => 0x80 end in
    (n < 56 /\ byte_val b = tag + n /\ l1 = l) \/
    (56 <= n /\ byte_val b = tag + 55 + zlen (putint n) /\ l1 = putint n ++ l /\ 1 <= zlen (putint n) <= 8).
Proof.
  intros Hk Hn. pose proof (length_putint_range n Hn) as Hp.
  assert (forall tag, 0 <= tag -> tag + 64 <= 256 -> exists b l1,
    (if n <? 56 then small_header tag n else large_header (tag + 55) n) ++ l = b :: l1 /\
    ((n < 56 /\ byte_val b = tag + n /\ l1 = l) \/
    (56 <= n /\ byte_val b = tag + 55 + zlen (putint n) /\ l1 = putint n ++ l /\ 1 <= zlen (putint n) <= 8))) as H.
  { intros tag H0 H1. destruct (n <? 56) eqn:E; zbool; eexists _, _; (split; [reflexivity|]);
      rewrite byte_val_of_Z, Z.mod_small by lia; [left|right]; split_and!; done || lia. }
  destruct k; [done|apply (H 0x80)|apply (H 0xC0)]; lia.
Qed.

Lemma head_of_inj k k' n n' l l' :
  k <> KByte -> k' <> KByte -> 0 <= n < two64 -> 0 <= n' < two64 ->
  head_of k n ++ l = head_of k' n' ++ l' -> k = k' /\ n = n' /\ l = l'.
Proof.
  intros Hk Hk' Hn Hn' Heq.
  destruct (head_of_first k n l Hk Hn) as (b & l1 & H & Hc). destruct (head_of_first k' n' l' Hk' Hn') as (b' & l1' & H' & Hc').
  rewrite H, H' in Heq. injection Heq as -> ->. clear H H'. cbn zeta in Hc, Hc'.
  assert (forall x y, zlen (putint n) = zlen (putint n') -> putint n ++ x = putint n' ++ y -> n = n' /\ x = y) as Hinj.
  { intros x y Hz Hxy. apply app_inj_1 in Hxy as [Hp ->]; [|unfold zlen in Hz; lia]. split; [|done].
    rewrite <- (putint_be_value n), <- (putint_be_value n') by done. by rewrite Hp. }
  destruct k, k'; try done; destruct Hc as [(H1 & H2 & H3)|(H1 & H2 & H3 & H4)], Hc' as [(H1' & H2' & H3')|(H1' & H2' & H3' & H4')]; try lia;
    (split; [done|]); try (split; [lia|congruence]).
  all: subst l1'; apply Hinj; [lia|done].
Qed.

(** A header of the list is the header of a value at its front. *)
Lemma headed_value k size bv l l' k' c r :
  headed k size bv l l' -> 0 <= size < two64 -> zlen l < 2 ^ 62 -> kind_ok k' c -> l = header k' c ++ c ++ r ->
  k = k' /\ match k with KByte => c = [bv] /\ r = l' | _ => size = zlen c /\ l' = c ++ r end.
Proof.
  intros Hh Hs Hl Hk Heq. assert (0 <= zlen c < two64) as Hc.
  { rewrite Heq, !zlen_app in Hl. pose proof (zlen_nonneg (header k' c)). pose proof (zlen_nonneg r). pose proof (zlen_nonneg c). unfold two64. lia. }
  assert (forall b l1, b :: l1 = l -> k' = KByte -> c = [b] /\ r = l1 /\ byte_val b < 128) as Hbyte.
  { intros b l1 <- ->. destruct Hk as (x & -> & Hx). by injection Heq as -> ->. }
  destruct (decide (k = KByte)) as [->|Hkb].
  - destruct Hh as (-> & -> & Hx). destruct (decide (k' = KByte)) as [->|Hkb'].
    { destruct (Hbyte _ _ eq_refl eq_refl) as (-> & -> & _). done. }
    destruct (head_of_first k' (zlen c) (c ++ r) Hkb' Hc) as (b & l1 & H & Hcase).
    change (head_of k' (zlen c)) with (match k' with KByte => [] | KString => encodeStringHeader (zlen c) | KList => listhead_encode (zlen c) end) in H.
    fold (header k' c) in H. rewrite <- Heq in H. injection H as <- <-. cbn zeta in Hcase. destruct k'; [done|lia..].
  - assert (l = head_of k size ++ l') as Hl1 by (by destruct k).
    destruct (decide (k' = KByte)) as [->|Hkb'].
    { destruct (head_of_first k size l' Hkb Hs) as (b & l1 & H & Hcase). rewrite <- Hl1 in H.
      destruct (Hbyte b l1 (eq_sym H) eq_refl) as (_ & _ & Hb). cbn zeta in Hcase. destruct k; [done|lia..]. }
    rewrite Heq in Hl1. destruct (head_of_inj k' k (zlen c) size (c ++ r) l') as (-> & <- & ->); [done..|exact Hl1|].
    split; [done|]. by destruct k.
Qed.

(** A header leaves a shorter list, and a value fits only in what is left of it. *)
Lemma headed_len k size bv l l' : headed k size bv l l' -> zlen l' < zlen l.
Proof.
  destruct k; cbn.
  - intros (_ & -> & _). rewrite zlen_cons. lia.
  - intros ->. rewrite encodeStringHeader_eq. case_match; unfold small_header, large_header; rewrite ?zlen_app, ?zlen_cons, ?zlen_nil;
      pose proof (zlen_nonneg (putint size)); lia.
  - intros ->. rewrite listhead_encode_eq. case_match; unfold small_header, large_header; rewrite ?zlen_app, ?zlen_cons, ?zlen_nil;
      pose proof (zlen_nonneg (putint size)); lia.
Qed.

(** The error of a decoder: the end of the list is reported exactly when nothing is left
    of it, and then nothing was read. *)
Definition fails (f : frame) (l tail : list byte) (e : stream_error) (s' : Stream) : Prop :=
  (e = EOL <-> l = [] /\ f <> None) /\ (e = EOL -> at_list f l tail s').

Lemma fails_other f l tail e s' : e <> EOL -> ~ (l = [] /\ f <> None) -> fails f l tail e s'.
Proof. intros He Hl. split; [by split|done]. Qed.

Lemma Kind_run f l tail s :
  at_list f l tail s ->
  run stream_Kind s (fun (r : Kind * Z + stream_error) s' =>
    match r with
    | inl (k, size) => exists l', at_value f k size l' tail s' /\ headed k size (s_byteval s') l l' /\
        0 <= size < two64 /\ (f = None -> size <= zlen l')
    | inr e => fails f l tail e s' /\ forall k c r, kind_ok k c -> l <> header k c ++ c ++ r
    end).
Proof.
  intros Hat. unfold stream_Kind. run_step. run_step. rewrite (at_kind _ _ _ _ Hat). run_step. run_step.
  assert (listLimit s = match f with None => None | Some _ => Some (zlen l) end) as Hlim.
  { unfold listLimit. rewrite (at_stack _ _ _ _ Hat). by destruct f. }
  rewrite Hlim. case_bool_decide as H0.
  { destruct f; [|done]. injection H0 as H0. destruct l; [|rewrite zlen_cons in H0; pose proof (zlen_nonneg l); lia].
    run_step. split; [split; [by split|done]|]. intros k c r Hk Heq. by apply (header_nonempty k c r). }
  assert (forall e s', e <> EOL -> fails f l tail e s') as HEOL.
  { intros e s' He. apply fails_other; [done|]. intros [-> Hf]. destruct f; [|done]. by destruct H0. }
  run_step. eapply wp_mono; [by apply readKind_run|]. intros [[k size] err] s1 H.
  run_step. run_step. run_step. run_step. run_step. run_step.
  destruct err as [e|]; [destruct H as [He Hno]; run_step; split; [by apply HEOL|done]|].
  destruct H as (l' & Hat' & Hs & Hh). pose proof (headed_len _ _ _ _ _ Hh) as Hlen.
  assert (forall e s', e <> EOL -> zlen l' < size -> fails f l tail e s' /\
    forall k c r, kind_ok k c -> l <> header k c ++ c ++ r) as Hbig.
  { intros e s' He Hl. split; [by apply HEOL|]. intros k' c r Hk Heq.
    destruct (headed_value _ _ _ _ _ _ _ _ Hh Hs (at_list_len _ _ _ _ Hat) Hk Heq) as [<- Hv].
    destruct k; [destruct Hh as [-> _]; pose proof (zlen_nonneg l'); lia|destruct Hv as [-> ->]..];
      rewrite zlen_app in Hl; pose proof (zlen_nonneg r); lia. }
  destruct (match (match f with None => None | Some _ => Some (zlen l) end) with Some limit => size >? limit | None => false end) eqn:E1.
  { run_step. apply Hbig; [done|]. destruct f; [|done]. zbool. lia. }
  destruct (s_limited s1 && (size >? s_remaining s1)) eqn:E2; run_step.
  { apply Hbig; [done|]. rewrite (at_remaining _ _ _ _ Hat'), zlen_app in E2. pose proof (zlen_nonneg tail). zbool. lia. }
  exists l'. split; [|split_and!; try done]; try lia.
  - destruct Hat'. by constructor; [constructor|..].
  - intros ->. rewrite (at_limited _ _ _ _ Hat'), (at_remaining _ _ _ _ Hat'), (at_top _ _ _ _ Hat' eq_refl), app_nil_r in E2.
    cbn in E2. zbool. lia.
Qed.

(** ** Exact decoders *)

(** The decoder gives [a] and leaves [l'] of the list [l] exactly when [R l a l'], never
    panics, and reports the end of the list exactly when nothing is left of it. *)
Definition exact {A} (d : decoder A) (R : list byte -> A -> list byte -> Prop) : Prop :=
  forall f l tail s, at_list f l tail s ->
    run d s (fun r s' =>
      match r with
      | inl a => exists l', R l a l' /\ at_list f l' tail s'
      | inr e => fails f l tail e s' /\ forall a l', ~ R l a l'
      end).

(** What a string decoder accepts: the strings [g] takes. *)
Definition reads_string {A} (g : list byte -> option A) (l : list byte) (a : A) (l' : list byte) : Prop :=
  exists c, l = writeBytes c ++ l' /\ g c = Some a.

Definition headed_string {A} (g : list byte -> option A) (d : Z -> decoder A) : Prop :=
  forall f l tail s size, 0 <= size < two64 -> at_value f KString size l tail s ->
    run (d size) s (fun r s' =>
      match r with
      | inl a => exists c l', l = c ++ l' /\ zlen c = size /\ ~ single c /\ g c = Some a /\ at_list f l' tail s'
      | inr e => e <> EOL /\ forall c l', l = c ++ l' -> zlen c = size -> ~ single c -> g c = None
      end).

Definition headed_byte {A} (g : list byte -> option A) (d : Z -> decoder A) : Prop :=
  forall f l tail s size, byte_val (s_byteval s) < 128 -> at_value f KByte size l tail s ->
    run (d size) s (fun r s' =>
      match r with
      | inl a => g [s_byteval s] = Some a /\ at_list f l tail s'
      | inr e => e <> EOL /\ g [s_byteval s] = None
      end).

Lemma string_kind_single c : single c -> string_kind c = KByte.
Proof. intros H. unfold string_kind. by case_decide. Qed.

Lemma string_kind_long c : ~ single c -> string_kind c = KString.
Proof. intros H. unfold string_kind. by case_decide. Qed.

Lemma string_exact {A} (g : list byte -> option A) (body : Kind * Z -> decoder A) :
  headed_byte g (fun size => body (KByte, size)) ->
  headed_string g (fun size => body (KString, size)) ->
  (forall size, body (KList, size) = serr (RlpErr ErrExpectedString)) ->
  exact (sbind stream_Kind body) (reads_string g).
Proof.
  intros Hbyte Hstr Hlist f l tail s Hat. apply run_bind. eapply run_mono; [by apply Kind_run|].
  pose proof (at_list_len _ _ _ _ Hat) as Hlen.
  intros [[k size]|e] s1 H.
  2:{ destruct H as [He Hno]. split; [done|]. intros a l' (c & -> & _). apply (Hno (string_kind c) c l'); [apply string_kind_ok|].
      by rewrite app_assoc, <- writeBytes_header. }
  destruct H as (l1 & Hav & Hh & Hs & _).
  assert (forall e s', e <> EOL -> fails f l tail e s') as HEOL.
  { intros e s' He. apply fails_other; [done|]. intros [-> _]. pose proof (headed_len _ _ _ _ _ Hh). rewrite zlen_nil in *. pose proof (zlen_nonneg l1). lia. }
  assert (forall c r, l = writeBytes c ++ r -> l = header (string_kind c) c ++ c ++ r) as Hw.
  { intros c r ->. by rewrite app_assoc, <- writeBytes_header. }
  destruct k.
  - destruct Hh as (-> & -> & Hx). eapply run_mono; [by apply (Hbyte f l1 tail)|]. intros [a|e] s2 H; cbn in H.
    + destruct H as [Ha Hat2]. exists l1. split; [|done]. exists [s_byteval s1]. split; [|done].
      rewrite writeBytes_header, string_kind_single; [done|by eexists].
    + destruct H as [He Hg]. split; [by apply HEOL|]. intros a l' (c & Hc & Ha).
      destruct (headed_value KByte 0 (s_byteval s1) (s_byteval s1 :: l1) l1 _ _ _ ltac:(by split_and!) Hs Hlen (string_kind_ok c) (Hw c l' Hc)) as (_ & -> & _).
      congruence.
  - eapply run_mono; [by apply (Hstr f l1 tail)|]. intros [a|e] s2 H; cbn in H.
    + destruct H as (c & l' & -> & <- & Hns & Ha & Hat2). exists l'. split; [|done]. exists c. split; [|done].
      rewrite writeBytes_header, string_kind_long, <- app_assoc by done. exact Hh.
    + destruct H as [He Hg]. split; [by apply HEOL|]. intros a l' (c & Hc & Ha).
      destruct (headed_value KString size Byte.x00 _ l1 _ _ _ Hh Hs Hlen (string_kind_ok c) (Hw c l' Hc)) as (Hk & Hz & Hl1).
      assert (~ single c) as Hns by (intros Hsg; by rewrite string_kind_single in Hk).
      rewrite (Hg c l' Hl1 (eq_sym Hz) Hns) in Ha. done.
  - rewrite Hlist. apply wp_gret. split; [by apply HEOL|]. intros a l' (c & Hc & Ha).
    destruct (headed_value KList size Byte.x00 _ l1 _ _ _ Hh Hs Hlen (string_kind_ok c) (Hw c l' Hc)) as [Hk _].
    by apply (string_kind_not_list c).
Qed.

(** ** The decoders of strings *)

Definition array_of (n : Z) (c : list byte) : option (list byte) := if zlen c =? n then Some c else None.
Definition big_of (c : list byte) : option Z :=
  match c with b :: _ => if byte_val b =? 0 then None else Some (be_value c) | [] => Some 0 end.
Definition uint_of (maxbits : Z) (c : list byte) : option Z := if zlen c <=? maxbits / 8 then big_of c else None.

Lemma read_string_run f l tail n s :
  0 <= n -> at_list f l tail (set_kind None s) ->
  run (read_string n) s (fun r s' =>
    match r with
    | inl c => exists l', l = c ++ l' /\ zlen c = n /\ ~ single c /\ at_list f l' tail s'
    | inr e => e <> EOL /\ forall c l', l = c ++ l' -> zlen c = n -> single c
    end).
Proof.
  intros Hn Hat. unfold read_string. apply run_bind. eapply run_mono; [by apply readFull_run|]. intros [c|e] s1 H.
  2:{ destruct H as [Hl He]. split; [done|]. intros c l' -> Hc. rewrite zlen_app in Hl. pose proof (zlen_nonneg l'). lia. }
  destruct H as (_ & l' & -> & Hc & Hat1).
  assert (forall c' l1, c ++ l' = c' ++ l1 -> zlen c' = n -> c' = c) as Hinj.
  { intros c' l1 Heq Hc'. apply app_inj_1 in Heq as [<- _]; [done|]. unfold zlen in *. lia. }
  destruct (n =? 1) eqn:E; zbool.
  - destruct c as [|b [|b' c]]; [by rewrite zlen_nil in Hc; lia| |rewrite !zlen_cons in Hc; pose proof (zlen_nonneg c); lia].
    apply wp_gbind, (wp_gpure _ b); [done|]. destruct (byte_val b <? 128) eqn:Eb; zbool; run_steps.
    + split; [done|]. intros c' l1 Heq Hc'. rewrite (Hinj c' l1) by done. by exists b.
    + exists l'. split_and!; try done. intros (x & [= <-] & Hx). lia.
  - run_steps. exists l'. split_and!; try done. intros Hsg%single_len. lia.
Qed.

Lemma at_value_ready f k size l tail s : at_value f k size l tail s -> at_list f l tail (set_kind None s).
Proof. by intros []. Qed.

#[export] Hint Resolve at_value_ready at_list_ready : r5.

Lemma Bytes_exact : exact stream_Bytes (reads_string Some).
Proof.
  apply string_exact; [..|done].
  - intros f l tail s size Hx Hav. cbn [fst snd]. run_steps. split; [done|]. by eapply at_value_ready.
  - intros f l tail s size Hs Hav. cbn [fst snd]. eapply run_mono; [apply read_string_run; [lia|eauto with r5]|].
    intros [c|e] s1 H; [destruct H as (l' & -> & Hc & Hns & Hat1); by exists c, l'|]. destruct H as [He Hno].
    split; [done|]. intros c l' Hl Hc Hns. by destruct Hns; apply (Hno c l').
Qed.

Lemma array_exact n : 0 <= n -> exact (decodeByteArray n) (reads_string (array_of n)).
Proof.
  intros Hn. apply string_exact; [..|done].
  - intros f l tail s size Hx Hav. unfold array_of. cbn [fst snd].
    change (zlen [s_byteval s]) with 1. destruct (n =? 0) eqn:E0; zbool; [|destruct (n >? 1) eqn:E1; zbool].
    1,2: rewrite (proj2 (Z.eqb_neq 1 n)) by lia; by run_steps.
    rewrite (proj2 (Z.eqb_eq 1 n)) by lia. run_steps. split; [done|]. by eapply at_value_ready.
  - intros f l tail s size Hs Hav. unfold array_of. cbn [fst snd].
    destruct (n <? size) eqn:E0; zbool; [|destruct (n >? size) eqn:E1; zbool].
    1,2: run_step; split; [done|]; intros c l' _ Hc _; by rewrite (proj2 (Z.eqb_neq (zlen c) n)) by lia.
    eapply run_mono; [apply read_string_run; [lia|eauto with r5]|].
    intros [c|e] s1 H.
    + destruct H as (l' & -> & Hc & Hns & Hat1). exists c, l'. rewrite (proj2 (Z.eqb_eq (zlen c) n)) by lia. done.
    + destruct H as [He Hno]. split; [done|]. intros c l' Hl Hc Hns. by destruct Hns; apply (Hno c l').
Qed.

Lemma big_bytes_run c s Q :
  match big_of c with Some v => Q (inl v) s | None => Q (inr (RlpErr ErrCanonInt)) s end -> run (big_bytes c) s Q.
Proof. unfold big_of, big_bytes. destruct c as [|b c]; [done|]. by destruct (byte_val b =? 0). Qed.

Lemma BigInt_exact : exact stream_decodeBigInt (reads_string big_of).
Proof.
  apply string_exact; [..|done].
  - intros f l tail s size Hx Hav. cbn [fst snd]. do 4 run_step. apply big_bytes_run. cbn [s_byteval set_kind].
    destruct (big_of _); [split; [done|by eapply at_value_ready]|done].
  - intros f l tail s size Hs Hav. cbn [fst snd].
    assert (forall (d : decoder (list byte)),
      run d s (fun r s' => match r with
        | inl c => exists l', l = c ++ l' /\ zlen c = size /\ ~ single c /\ at_list f l' tail s'
        | inr e => e <> EOL /\ forall c l', l = c ++ l' -> zlen c = size -> single c end) ->
      run (let! b := d in big_bytes b) s (fun r s' => match r with
        | inl a => exists c l', l = c ++ l' /\ zlen c = size /\ ~ single c /\ big_of c = Some a /\ at_list f l' tail s'
        | inr e => e <> EOL /\ forall c l', l = c ++ l' -> zlen c = size -> ~ single c -> big_of c = None end)) as Hd.
    { intros d Hd. apply run_bind. eapply run_mono; [exact Hd|]. intros [c|e] s1 H.
      - destruct H as (l' & -> & Hc & Hns & Hat1). apply big_bytes_run. destruct (big_of c) as [v|] eqn:Ev; [by exists c, l'|].
        split; [done|]. intros c' l1 Heq Hc' _. apply app_inj_1 in Heq as [<- _]; [done|]. unfold zlen in *. lia.
      - destruct H as [He Hno]. split; [done|]. intros c l' Hl Hc Hns. by destruct Hns; apply (Hno c l'). }
    destruct (size =? 0) eqn:E0; zbool; [|destruct (size <=? 32) eqn:E1; zbool].
    + run_step. run_step. apply big_bytes_run. cbn. exists [], l. split_and!; try done; [by intros (x & ? & _)|by eapply at_value_ready].
    + apply Hd, read_string_run; [lia|eauto with r5].
    + apply Hd. eapply run_mono; [apply readFull_run; [lia|eauto with r5]|]. intros [c|e] s1 H.
      * destruct H as (_ & l' & -> & Hc & Hat1). exists l'. split_and!; try done. intros Hsg%single_len. lia.
      * destruct H as [Hl He]. split; [done|]. intros c l' -> Hc. rewrite zlen_app in Hl. pose proof (zlen_nonneg l'). lia.
Qed.

Lemma big_of_canonical c : canonical c -> big_of c = Some (be_value c).
Proof. destruct c as [|b c]; [done|]. intros H. cbn. by rewrite (proj2 (Z.eqb_neq _ _) (H b eq_refl)). Qed.

Lemma big_of_zeros c : ~ canonical c -> big_of c = None.
Proof.
  intros H. destruct c as [|b c]; [by destruct H|]. cbn. destruct (byte_val b =? 0) eqn:E; [done|]. zbool.
  by destruct H; intros b' [= <-].
Qed.

(** Two bytes and more without a leading zero are at least 256. *)
Lemma be_value_large c : canonical c -> 2 <= zlen c -> 128 <= be_value c.
Proof.
  destruct c as [|b [|b' c]]; rewrite ?zlen_cons, ?zlen_nil; [lia..|]. intros Hc _. specialize (Hc b eq_refl).
  pose proof (byte_val_range b). rewrite be_value_cons, zlen_cons. pose proof (be_value_bound (b' :: c)). pose proof (zlen_nonneg c).
  rewrite Z.pow_add_r by lia. pose proof (Z.pow_pos_nonneg 256 (zlen c) ltac:(lia) ltac:(lia)). nia.
Qed.

Lemma Uint_exact maxbits : 8 <= maxbits <= 64 -> exact (stream_uint maxbits) (reads_string (uint_of maxbits)).
Proof.
  intros Hm. assert (1 <= maxbits / 8 <= 8) as Hm8.
  { split; [apply Z.div_le_lower_bound; lia|]. assert (maxbits / 8 < 9); [apply Z.div_lt_upper_bound; lia|lia]. }
  apply string_exact; [..|done].
  - intros f l tail s size Hx Hav. cbn [fst snd]. unfold uint_of. change (zlen [s_byteval s]) with 1.
    rewrite (proj2 (Z.leb_le _ _)) by lia. cbn [big_of]. run_step. run_step.
    destruct (byte_val (s_byteval s) =? 0) eqn:E; run_steps; [done|]. split; [done|]. by eapply at_value_ready.
  - intros f l tail s size Hs Hav. cbn [fst snd]. unfold uint_of. destruct (size >? maxbits / 8) eqn:E; zbool.
    { run_step. split; [done|]. intros c l' _ Hc _. by rewrite (proj2 (Z.leb_gt _ _)) by lia. }
    apply wp_gbind. eapply wp_mono; [apply readUint_run; [lia|eauto with r5]|]. intros [v|e] s1 H.
    2:{ destruct H as [He Hno]. assert (forall e', e' <> EOL -> e' <> EOL /\ forall c l', l = c ++ l' -> zlen c = size -> ~ single c ->
          (if zlen c <=? maxbits / 8 then big_of c else None) = None) as Hbad.
        { intros e' He'. split; [done|]. intros c l' Hl Hc _. rewrite big_of_zeros by (by eapply Hno). by case_match. }
        destruct e as [| |[]| | | | | | | | | |]; apply wp_gret, Hbad; done. }
    destruct H as (c & l' & -> & Hc & -> & Hat1 & Hcan).
    destruct ((size >? 0) && (be_value c <? 128)) eqn:E2; run_step.
    + split; [done|]. zbool. intros c' l1 Heq Hc' Hns. apply app_inj_1 in Heq as [<- _]; [|unfold zlen in *; lia]. exfalso.
      destruct (Z.eq_dec size 1) as [->|H1].
      * destruct c as [|b [|b' c]]; [by rewrite zlen_nil in Hc| |rewrite !zlen_cons in Hc; pose proof (zlen_nonneg c); lia].
        apply Hns. exists b. split; [done|]. unfold be_value in *. cbn in *. lia.
      * pose proof (be_value_large c (Hcan H1)). lia.
    + exists c, l'. split; [done|]. split; [done|]. rewrite (proj2 (Z.leb_le _ _)) by lia.
      assert (size = 1 -> exists b, c = [b] /\ 128 <= byte_val b) as H1.
      { intros ->. destruct c as [|b [|b' c]]; [by rewrite zlen_nil in Hc| |rewrite !zlen_cons in Hc; pose proof (zlen_nonneg c); lia].
        exists b. split; [done|]. cbn in E2. zbool. unfold be_value in *. cbn in *. lia. }
      split_and!; [|apply big_of_canonical|done].
      * intros Hsg. destruct H1 as (b & -> & Hb); [by apply single_len in Hsg; lia|]. destruct Hsg as (x & [= <-] & Hx). lia.
      * destruct (Z.eq_dec size 1) as [->|Hn1]; [|by apply Hcan]. destruct H1 as (b & -> & Hb); [done|]. intros ? [= <-]. lia.
Qed.

(** ** Fields and structures *)

(** Inside a list, the decoder gives [a] and leaves [l'] of [l] exactly when [R l a l']. *)
Definition accepts {A} (d : decoder A) (R : list byte -> A -> list byte -> Prop) : Prop :=
  forall outer l tail s, at_list (Some outer) l tail s ->
    run d s (fun r s' =>
      match r with
      | inl a => exists l', R l a l' /\ at_list (Some outer) l' tail s'
      | inr _ => forall a l', ~ R l a l'
      end).

Definition functional {A} (R : list byte -> A -> list byte -> Prop) : Prop :=
  forall l a l1 b l2, zlen l < 2 ^ 62 -> R l a l1 -> R l b l2 -> a = b /\ l1 = l2.

Definition followed {A B} (R1 : list byte -> A -> list byte -> Prop) (R2 : A -> list byte -> B -> list byte -> Prop)
    (l : list byte) (b : B) (l' : list byte) : Prop :=
  exists a l1, R1 l a l1 /\ R2 a l1 b l'.

Definition leaves {A} (a : A) (l : list byte) (b : A) (l' : list byte) : Prop := b = a /\ l' = l.

Definition reads_optional {A} (more : bool) (R : list byte -> A -> list byte -> Prop)
    (l : list byte) (o : option A) (l' : list byte) : Prop :=
  match o with
  | Some a => more = true /\ R l a l'
  | None => (more = true -> l = []) /\ l' = l
  end.

Lemma reads_string_len {A} (g : list byte -> option A) l a l' : reads_string g l a l' -> zlen l' < zlen l.
Proof.
  intros (c & -> & _). rewrite zlen_app. pose proof (encode_item_nonempty (Str c)) as H. cbn [encode_item] in H.
  destruct (writeBytes c); [done|]. rewrite zlen_cons. pose proof (zlen_nonneg l). lia.
Qed.

Lemma reads_string_functional {A} (g : list byte -> option A) : functional (reads_string g).
Proof.
  intros l a l1 b l2 Hl (c & -> & Ha) (c' & Heq & Hb).
  destruct (encode_item_prefix (Str c) (Str c') l1 l2) as [[= ->] ->]; [cbn [encode_item]; lia|exact Heq|]. split; congruence.
Qed.

Lemma reads_optional_functional {A} more (g : list byte -> option A) : functional (reads_optional more (reads_string g)).
Proof.
  intros l [a|] l1 [b|] l2 Hl; cbn.
  - intros [_ H1] [_ H2]. by destruct (reads_string_functional g l a l1 b l2 Hl H1 H2) as [-> ->].
  - intros [-> H1%reads_string_len] [H2 _]. rewrite H2, zlen_nil in H1 by done. pose proof (zlen_nonneg l1). lia.
  - intros [H2 _] [-> H1%reads_string_len]. rewrite H2, zlen_nil in H1 by done. pose proof (zlen_nonneg l2). lia.
  - by intros [_ ->] [_ ->].
Qed.

Lemma followed_functional {A B} (R1 : list byte -> A -> list byte -> Prop) (R2 : A -> list byte -> B -> list byte -> Prop) :
  functional R1 -> (forall l a l1, R1 l a l1 -> zlen l1 <= zlen l) -> (forall a, functional (R2 a)) -> functional (followed R1 R2).
Proof.
  intros H1 Hs H2 l a l1 b l2 Hl (x & m & Hx & Ha) (y & m' & Hy & Hb).
  destruct (H1 _ _ _ _ _ Hl Hx Hy) as [<- <-]. pose proof (Hs _ _ _ Hx). apply (H2 x m); [lia|done..].
Qed.

Lemma leaves_functional {A} (a : A) : functional (leaves a).
Proof. intros l x l1 y l2 _ [-> ->] [-> ->]. done. Qed.

Lemma exact_map {A B} (d : decoder A) (g : list byte -> option A) (h : A -> B) :
  exact d (reads_string g) -> exact (let! a := d in sret (h a)) (reads_string (fun c => option_map h (g c))).
Proof.
  intros H f l tail s Hat. apply run_bind. eapply run_mono; [by apply H|]. intros [a|e] s1 H1.
  - destruct H1 as (l' & (c & -> & Hc) & Hat1). run_step. exists l'. split; [|done]. exists c. by rewrite Hc.
  - destruct H1 as [He Hno]. split; [done|]. intros b l' (c & -> & Hb). destruct (g c) as [a|] eqn:E; [|done].
    apply (Hno a l'). by exists c.
Qed.

Lemma accepts_ret {A} (a : A) : accepts (sret a) (leaves a).
Proof. intros outer l tail s Hat. run_step. by exists l. Qed.

Lemma accepts_bind {A B} (m : decoder A) (k : A -> decoder B) R1 R2 :
  accepts m R1 -> functional R1 -> (forall a, accepts (k a) (R2 a)) -> accepts (sbind m k) (followed R1 R2).
Proof.
  intros Hm Hf Hk outer l tail s Hat. apply run_bind. eapply run_mono; [by apply Hm|]. intros [a|e] s1 H.
  - destruct H as (l1 & Ha & Hat1). eapply run_mono; [by apply Hk|]. intros [b|e] s2 H.
    + destruct H as (l' & Hb & Hat2). exists l'. split; [|done]. by exists a, l1.
    + intros b l' (a' & l1' & Ha' & Hb).
      destruct (Hf _ _ _ _ _ (at_list_len _ _ _ _ Hat) Ha Ha') as [<- <-]. by apply (H b l').
  - intros b l' (a & l1 & Ha & _). by apply (H a l1).
Qed.

Lemma accepts_field {A} (d : decoder A) R : exact d R -> accepts (field d) R.
Proof.
  intros H outer l tail s Hat. unfold field. apply wp_gbind. eapply wp_mono; [by apply (H (Some outer))|].
  intros [a|e] s1 H1; [by run_step|]. destruct H1 as [_ Hno]. by destruct e; run_step.
Qed.

Lemma accepts_optional {A} more (d : decoder A) (g : list byte -> option A) :
  exact d (reads_string g) -> accepts (optional_field more d) (reads_optional more (reads_string g)).
Proof.
  intros H outer l tail s Hat. unfold optional_field. destruct more; [|run_step; by exists l].
  apply wp_gbind. eapply wp_mono; [by apply (H (Some outer))|]. intros [a|e] s1 H1.
  - destruct H1 as (l' & Ha & Hat1). run_step. by exists l'.
  - destruct H1 as [[He1 He2] Hno]. assert (e <> EOL -> forall o l', ~ reads_optional true (reads_string g) l o l') as Hnone.
    { intros He [a|] l'; [by intros [_ Ha]; apply (Hno a l')|]. intros [Hl _]. apply He, He1. split; [by apply Hl|done]. }
    destruct (decide (e = EOL)) as [->|He]; [|by destruct e; run_step; try apply Hnone].
    run_step. exists l. split; [|by apply He2]. split; [|done]. intros _. by apply He1.
Qed.

Lemma at_list_Reset b : zlen b < 2 ^ 62 -> at_list None b [] (stream_Reset b).
Proof. intros H. by constructor; cbn; rewrite ?app_nil_r. Qed.

(** Opening a list at the top. *)
Lemma List_run b :
  zlen b < 2 ^ 62 ->
  run stream_List (stream_Reset b) (fun r s' =>
    match r with
    | inl _ => exists c rest, b = write_list c ++ rest /\ at_list (Some []) c rest s'
    | inr _ => forall c rest, b <> write_list c ++ rest
    end).
Proof.
  intros Hb. unfold stream_List. apply run_bind. eapply run_mono; [by apply Kind_run, at_list_Reset|].
  assert (forall c rest, write_list c ++ rest = header KList c ++ c ++ rest) as Hw by (intros; unfold write_list; by rewrite <- app_assoc).
  intros [[k size]|e] s1 H.
  2:{ destruct H as [_ Hno]. intros c rest. rewrite Hw. by apply Hno. }
  destruct H as (l1 & Hav & Hh & Hs & Htop). cbn [fst snd].
  assert (k <> KList -> forall c rest, b <> write_list c ++ rest) as Hother.
  { intros Hk c rest Heq. rewrite Hw in Heq. by destruct (headed_value _ _ _ _ _ _ _ _ Hh Hs Hb (I : kind_ok KList c) Heq) as [? _]. }
  destruct k; [run_step; by apply Hother..|].
  destruct (cut l1 size) as (c & rest & -> & <-); [split; [lia|by apply Htop]|].
  destruct Hav as [[Hi Hst Hr Hlim _ _ Hsm] _ _ _]. cbn in Hi, Hst, Hr, Hlim. rewrite app_nil_r in Hi, Hr, Hsm.
  do 2 run_step. unfold listLimit. rewrite Hst. run_steps. exists c, rest. split; [rewrite Hw; exact Hh|].
  constructor; cbn; try done. by rewrite Hst.
Qed.

Lemma write_list_inj c r c' r' :
  zlen (write_list c ++ r) < 2 ^ 62 -> write_list c ++ r = write_list c' ++ r' -> c = c' /\ r = r'.
Proof.
  unfold write_list. rewrite <- !app_assoc. intros Hl Heq.
  assert (forall x y, zlen (listhead_encode (zlen x) ++ x ++ y) < 2 ^ 63 ->
    Split (header KList x ++ x ++ y) = Ret (KList, x, y, None)) as HS by (intros x y Hx; by apply Split_app).
  pose proof (HS c r ltac:(lia)) as H1. pose proof (HS c' r') as H2. cbn [header] in *. rewrite <- Heq in H2.
  rewrite H1 in H2. by injection (H2 ltac:(lia)) as -> ->.
Qed.

(** Decoding a structure from bytes never panics, and succeeds exactly on the list of
    what its fields accept, with nothing left in the list or after it. *)
Lemma DecodeBytes_struct {A} (d : decoder A) R b :
  accepts d R -> functional R -> zlen b < 2 ^ 62 ->
  (exists r, DecodeBytes (struct d) b = Ret r) /\
  forall a, DecodeBytes (struct d) b = Ret (inl a) <-> exists c, b = write_list c /\ R c a [].
Proof.
  intros Hd HR Hb.
  assert (run (struct d) (stream_Reset b) (fun r s' =>
    match r with
    | inl a => exists c rest, b = write_list c ++ rest /\ R c a [] /\ s_input s' = rest
    | inr _ => forall c a rest, b = write_list c ++ rest -> ~ R c a []
    end)) as H.
  { unfold struct. apply run_bind. eapply run_mono; [by apply List_run|]. intros [n|e] s1 H.
    2:{ intros c a rest Heq. by destruct (H c rest). }
    destruct H as (c & rest & -> & Hat). apply run_bind. eapply run_mono; [by apply Hd|].
    assert (forall c' a' rest', write_list c ++ rest = write_list c' ++ rest' -> R c' a' [] -> R c a' []) as Hc.
    { intros c' a' rest' Heq Ha'. by destruct (write_list_inj _ _ _ _ Hb Heq) as [-> ->]. }
    intros [a|e] s2 H; [|by intros c' a' rest' Heq Ha'; apply (H a' []), (Hc c' a' rest')].
    destruct H as (l' & Ha & [Hi Hst Hr _ _ _ _]). unfold stream_ListEnd. do 3 run_step. unfold listLimit. rewrite Hst.
    cbn [stack_at head]. destruct (zlen l' >? 0) eqn:E; zbool.
    - run_step. intros c' a' rest' Heq Ha'. specialize (Hc c' a' rest' Heq Ha').
      destruct (HR _ _ _ _ _ (at_list_len _ _ _ _ Hat) Ha Hc) as [_ Hnil]. subst; by unfold zlen in E.
    - destruct l'; [|rewrite zlen_cons in E; pose proof (zlen_nonneg l'); lia]. run_steps. exists c, rest.
      split_and!; done. }
  apply wp_returns in H as ([a|e] & s' & Hrun & H); unfold DecodeBytes; rewrite Hrun; cbn [res_bind].
  - split; [by eexists|]. destruct H as (c & rest & -> & Ha & ->). intros a'.
    destruct (zlen rest >? 0) eqn:E; zbool.
    + split; [done|]. intros (c' & Heq & Ha'). rewrite <- (app_nil_r (write_list c')) in Heq.
      destruct (write_list_inj _ _ _ _ Hb Heq) as [_ Hnil]. subst; by unfold zlen in E.
    + destruct rest; [|rewrite zlen_cons in E; pose proof (zlen_nonneg rest); lia]. rewrite app_nil_r in *. split.
      * intros [= <-]. by exists c.
      * intros (c' & Heq & Ha'). destruct (write_list_inj c [] c' []) as [<- _]; [by rewrite app_nil_r|by rewrite !app_nil_r|].
        rewrite <- (app_nil_r (write_list c)) in Hb. unfold write_list in Hb. rewrite !zlen_app in Hb.
        destruct (HR c a [] a' []) as [-> _]; try done. pose proof (zlen_nonneg (listhead_encode (zlen c))). rewrite zlen_nil in Hb. lia.
  - split; [by eexists|]. intros a. split; [done|]. intros (c & -> & Ha). by destruct (H c a [] ltac:(by rewrite app_nil_r)).
Qed.

(** ** Lists within lists *)

(** The decoder takes [enc] off the front of what is left, wherever it is, and gives [a]. *)
Definition consumes {A} (d : decoder A) (enc : list byte) (a : A) : Prop :=
  forall f l tail s, at_list f (enc ++ l) tail s -> run d s (fun r s' => r = inl a /\ at_list f l tail s').

(** The same for all that is left of a list. *)
Definition finishes {A} (d : decoder A) (c : list byte) (a : A) : Prop :=
  forall outer tail s, at_list (Some outer) c tail s -> run d s (fun r s' => r = inl a /\ at_list (Some outer) [] tail s').

(** At the end of a list the decoder says so and stays there. *)
Definition stops {A} (d : decoder A) : Prop :=
  forall outer tail s, at_list (Some outer) [] tail s -> run d s (fun r s' => r = inr EOL /\ at_list (Some outer) [] tail s').

Lemma exact_consumes {A} (d : decoder A) R enc a :
  exact d R -> functional R -> (forall l, R (enc ++ l) a l) -> consumes d enc a.
Proof.
  intros Hd Hf Ha f l tail s Hat. eapply run_mono; [by apply Hd|]. intros [a'|e] s' H.
  - destruct H as (l' & H & Hat'). by destruct (Hf _ _ _ _ _ (at_list_len _ _ _ _ Hat) H (Ha l)) as [-> ->].
  - destruct H as [_ Hno]. by destruct (Hno a l).
Qed.

Lemma exact_stops {A} (d : decoder A) (g : list byte -> option A) : exact d (reads_string g) -> stops d.
Proof.
  intros Hd outer tail s Hat. eapply run_mono; [by apply Hd|]. intros [a|e] s' H.
  - destruct H as (l' & H%reads_string_len & _). rewrite zlen_nil in H. pose proof (zlen_nonneg l'). lia.
  - destruct H as [[He1 He2] _]. assert (e = EOL) as -> by (by apply He1). split; [done|by apply He2].
Qed.

Lemma finishes_ret {A} (a : A) : finishes (sret a) [] a.
Proof. intros outer tail s Hat. by run_step. Qed.

Lemma finishes_field {A B} (d : decoder A) (k : A -> decoder B) enc c a b :
  consumes d enc a -> finishes (k a) c b -> finishes (sbind (field d) k) (enc ++ c) b.
Proof.
  intros Hd Hk outer tail s Hat. apply run_bind. unfold field. apply wp_gbind.
  eapply wp_mono; [by apply (Hd (Some outer))|]. intros r s' [-> Hat']. run_step. by apply Hk.
Qed.

Lemma List_open f c l tail s :
  at_list f (write_list c ++ l) tail s ->
  run stream_List s (fun r s' => r = inl (zlen c) /\ at_list (Some (stack_at f l)) c (l ++ tail) s').
Proof.
  intros Hat. unfold stream_List. apply run_bind. eapply run_mono; [by apply Kind_run|].
  assert (write_list c ++ l = header KList c ++ c ++ l) as Hw by (unfold write_list; by rewrite <- app_assoc).
  intros [[k size]|e] s1 H; [|by destruct H as [_ Hno]; destruct (Hno KList c l)].
  destruct H as (l1 & Hav & Hh & Hs & _).
  destruct (headed_value _ _ _ _ _ KList c l Hh Hs (at_list_len _ _ _ _ Hat) I Hw) as [-> [-> ->]]. cbn [fst snd].
  pose proof (at_list_len _ _ _ _ Hat) as Hlen. destruct Hav as [[Hi Hst Hr Hlim _ Htop Hsm] _ _ _]. cbn in Hi, Hst, Hr, Hlim.
  pose proof (zlen_nonneg l) as H0. pose proof (zlen_nonneg tail). pose proof (zlen_nonneg c). rewrite !zlen_app in Hsm.
  assert (u64 (zlen (c ++ l) - zlen c) = zlen l) as Hu.
  { rewrite zlen_app, u64_small; [lia|]. unfold is_u64, two64. lia. }
  do 2 run_step. unfold listLimit. rewrite Hst. destruct f as [outer|]; cbn [stack_at head].
  all: run_steps; (split; [done|]); constructor; cbn; rewrite ?Hst, ?Hu, ?app_assoc, ?zlen_app; try done.
  all: by rewrite Hr, !zlen_app.
Qed.

Lemma ListEnd_close f l tail s :
  at_list (Some (stack_at f l)) [] (l ++ tail) s -> (f = None -> tail = []) ->
  run stream_ListEnd s (fun r s' => r = inl tt /\ at_list f l tail s').
Proof.
  intros [Hi Hst Hr Hlim _ _ Hsm] Htop. unfold stream_ListEnd. do 2 run_step. unfold listLimit. rewrite Hst. cbn.
  run_steps. split; [done|]. constructor; cbn; try done. by rewrite Hst.
Qed.

(** A list whose content is read to the end. *)
Lemma list_consumes {A} (body : Z -> decoder A) c a :
  finishes (body (zlen c)) c a ->
  consumes (let! size := stream_List in let! x := body size in let! _ := stream_ListEnd in sret x) (write_list c) a.
Proof.
  intros Hb f l tail s Hat. pose proof (at_top _ _ _ _ Hat) as Htop. apply run_bind. eapply run_mono; [by apply List_open|].
  intros r s1 [-> Hat1]. apply run_bind. eapply run_mono; [by apply Hb|]. intros r s2 [-> Hat2].
  apply run_bind. eapply run_mono; [by apply ListEnd_close|]. intros r s3 [-> Hat3]. by run_step.
Qed.

Lemma List_stops : stops stream_List.
Proof.
  intros outer tail s Hat. unfold stream_List. apply run_bind. eapply run_mono; [by apply Kind_run|].
  intros [[k size]|e] s1 H.
  - destruct H as (l1 & _ & Hh & _). pose proof (headed_len _ _ _ _ _ Hh). rewrite zlen_nil in *. pose proof (zlen_nonneg l1). lia.
  - destruct H as [[He1 He2] _]. assert (e = EOL) as -> by (by apply He1). split; [done|by apply He2].
Qed.

Lemma stops_bind {A B} (d : decoder A) (k : A -> decoder B) : stops d -> stops (sbind d k).
Proof. intros Hd outer tail s Hat. apply run_bind. eapply run_mono; [by apply Hd|]. by intros r s' [-> Hat']. Qed.

(** *** Structures and slices *)

Lemma struct_consumes {A} (fields : decoder A) c a : finishes fields c a -> consumes (struct fields) (write_list c) a.
Proof. apply (list_consumes (fun _ => fields)). Qed.

Lemma struct_stops {A} (fields : decoder A) : stops (struct fields).
Proof. apply stops_bind, List_stops. Qed.

Lemma consumes_map {A B} (d : decoder A) (h : A -> B) enc a : consumes d enc a -> consumes (let! x := d in sret (h x)) enc (h a).
Proof.
  intros Hd f l tail s Hat. apply run_bind. eapply run_mono; [by apply Hd|]. intros r s' [-> Hat']. by run_step.
Qed.

Lemma SliceElems_finishes {A} (elemdec : decoder A) (enc : A -> list byte) xs fuel :
  stops elemdec -> Forall (fun x => consumes elemdec (enc x) x) xs -> (length xs < fuel)%nat ->
  finishes (decodeSliceElems fuel elemdec) (concat (map enc xs)) xs.
Proof.
  intros Hstop Hxs. revert fuel. induction Hxs as [|x xs Hx Hxs IH]; intros [|fuel] Hfuel outer tail s Hat; cbn [length] in Hfuel; try lia.
  - cbn [decodeSliceElems]. apply wp_gbind. eapply wp_mono; [by apply Hstop|]. intros r s' [-> Hat']. by run_step.
  - cbn [decodeSliceElems]. apply wp_gbind. eapply wp_mono; [by apply (Hx (Some outer) (concat (map enc xs)))|].
    intros r s1 [-> Hat1]. apply run_bind. eapply run_mono; [apply (IH fuel); [lia|done]|]. intros r s2 [-> Hat2]. by run_step.
Qed.

Lemma concat_count {A} (enc : A -> list byte) xs : (forall x, enc x <> []) -> Z.of_nat (length xs) <= zlen (concat (map enc xs)).
Proof.
  intros H. induction xs as [|x xs IH]; [done|]. cbn [map concat length]. rewrite zlen_app. specialize (H x).
  destruct (enc x); [done|]. rewrite zlen_cons. pose proof (zlen_nonneg l). lia.
Qed.

Lemma ListSlice_consumes {A} (elemdec : decoder A) (enc : A -> list byte) xs :
  stops elemdec -> (forall x, enc x <> []) -> Forall (fun x => consumes elemdec (enc x) x) xs ->
  consumes (decodeListSlice elemdec) (write_list (concat (map enc xs))) xs.
Proof.
  intros Hstop Hne Hxs. pose proof (concat_count enc xs Hne) as Hcount. unfold decodeListSlice.
  intros f l tail s Hat. apply run_bind. eapply run_mono; [by apply List_open|]. intros r s1 [-> Hat1].
  pose proof (at_top _ _ _ _ Hat) as Htop. set (c := concat _) in *. destruct (zlen c =? 0) eqn:E; zbool.
  - destruct xs; [|cbn [length] in Hcount; lia]. apply run_bind. eapply run_mono; [by apply ListEnd_close|].
    intros r s2 [-> Hat2]. by run_step.
  - assert (length xs < Datatypes.S (Z.to_nat (zlen c)))%nat as Hfuel by lia.
    apply run_bind. eapply run_mono; [exact (SliceElems_finishes elemdec enc xs _ Hstop Hxs Hfuel _ _ _ Hat1)|]. intros r s2 [-> Hat2].
    apply run_bind. eapply run_mono; [by apply ListEnd_close|]. intros r s3 [-> Hat3]. by run_step.
Qed.

Lemma DecodeBytes_consumes {A} (d : decoder A) b a : consumes d b a -> zlen b < 2 ^ 62 -> DecodeBytes d b = Ret (inl a).
Proof.
  intros Hd Hb. pose proof (Hd None [] [] (stream_Reset b)) as H. rewrite app_nil_r in H.
  specialize (H (at_list_Reset b Hb)). apply wp_returns in H as (r & s' & Hrun & -> & Hat).
  unfold DecodeBytes. rewrite Hrun. cbn [res_bind]. by rewrite (at_input _ _ _ _ Hat).
Qed.
