(* ===== verification/ChainKeys.v ===== *)
(** * The keys of the chain database (client/core/rawdb/schema.go)

    How block numbers and hashes are put together to keys, and that keys of different
    items never meet: every key says what it is the key of. *)

From Stdlib Require Import Strings.Byte Strings.String.
From S2P Require Import Prelude.
From S2P Require Import Common.
From S2P Require Import Precompiles.
From S2P Require Import Crypto.
From S2P Require Import Encoding.
From S2P Require Import Blocks.

Definition bytes (s : string) : list byte := list_byte_of_string s.

Definition databaseVersionKey := bytes "DatabaseVersion".
Definition headHeaderKey := bytes "LastHeader".
Definition headBlockKey := bytes "LastBlock".
Definition headFastBlockKey := bytes "LastFast".
Definition headFinalizedBlockKey := bytes "LastFinalized".
Definition lastPivotKey := bytes "LastPivot".
Definition fastTrieProgressKey := bytes "TrieSync".
Definition snapshotDisabledKey := bytes "SnapshotDisabled".
Definition SnapshotRootKey := bytes "SnapshotRoot".
Definition snapshotJournalKey := bytes "SnapshotJournal".
Definition snapshotGeneratorKey := bytes "SnapshotGenerator".
Definition snapshotRecoveryKey := bytes "SnapshotRecovery".
Definition snapshotSyncStatusKey := bytes "SnapshotSyncStatus".
Definition skeletonSyncStatusKey := bytes "SkeletonSyncStatus".
Definition txIndexTailKey := bytes "TransactionIndexTail".
Definition fastTxLookupLimitKey := bytes "FastTransactionLookupLimit".
Definition badBlockKey := bytes "InvalidBlock".
Definition uncleanShutdownKey := bytes "unclean-shutdown".
Definition transitionStatusKey := bytes "eth2-transition".

Definition headerPrefix := bytes "h".
Definition headerTDSuffix := bytes "t".
Definition headerHashSuffix := bytes "n".
Definition headerNumberPrefix := bytes "H".
Definition blockBodyPrefix := bytes "b".
Definition blockReceiptsPrefix := bytes "r".
Definition txLookupPrefix := bytes "l".
Definition bloomBitsPrefix := bytes "B".
Definition SnapshotAccountPrefix := bytes "a".
Definition SnapshotStoragePrefix := bytes "o".
Definition CodePrefix := bytes "c".
Definition skeletonHeaderPrefix := bytes "S".
Definition trieNodeAccountPrefix := bytes "A".
Definition trieNodeStoragePrefix := bytes "O".
Definition PreimagePrefix := bytes "secure-key-".
Definition configPrefix := bytes "ethereum-config-".
Definition genesisPrefix := bytes "ethereum-genesis-".

Definition encodeBlockNumber (number : Z) : list byte := be_bytes 8 number.

Definition headerKeyPrefix (number : Z) : list byte := headerPrefix ++ encodeBlockNumber number.
Definition headerKey (number : Z) (hash : Hash) : list byte := (headerPrefix ++ encodeBlockNumber number) ++ hash_bytes hash.
Definition headerTDKey (number : Z) (hash : Hash) : list byte := headerKey number hash ++ headerTDSuffix.
Definition headerHashKey (number : Z) : list byte := (headerPrefix ++ encodeBlockNumber number) ++ headerHashSuffix.
Definition headerNumberKey (hash : Hash) : list byte := headerNumberPrefix ++ hash_bytes hash.
Definition blockBodyKey (number : Z) (hash : Hash) : list byte := (blockBodyPrefix ++ encodeBlockNumber number) ++ hash_bytes hash.
Definition blockReceiptsKey (number : Z) (hash : Hash) : list byte :=
  (blockReceiptsPrefix ++ encodeBlockNumber number) ++ hash_bytes hash.
Definition txLookupKey (hash : Hash) : list byte := txLookupPrefix ++ hash_bytes hash.
Definition accountSnapshotKey (hash : Hash) : list byte := SnapshotAccountPrefix ++ hash_bytes hash.
Definition storageSnapshotKey (accountHash storageHash : Hash) : list byte :=
  (SnapshotStoragePrefix ++ hash_bytes accountHash) ++ hash_bytes storageHash.
Definition storageSnapshotsKey (accountHash : Hash) : list byte := SnapshotStoragePrefix ++ hash_bytes accountHash.

(** [bloomBitsKey]: ten zero bytes, over which the bit and the section are written. *)
Definition bloomBitsKey (bit section : Z) (hash : Hash) : list byte :=
  let key := (bloomBitsPrefix ++ replicate 10 Byte.x00) ++ hash_bytes hash in
  let key := copy_at key 1 (be_bytes 2 bit) in
  copy_at key 3 (be_bytes 8 section).

Definition skeletonHeaderKey (number : Z) : list byte := skeletonHeaderPrefix ++ encodeBlockNumber number.
Definition preimageKey (hash : Hash) : list byte := PreimagePrefix ++ hash_bytes hash.
Definition codeKey (hash : Hash) : list byte := CodePrefix ++ hash_bytes hash.

Definition IsCodeKey (key : list byte) : bool * list byte :=
  if bool_decide (take (length CodePrefix) key = CodePrefix) && (zlen key =? 32 + zlen CodePrefix)
  then (true, drop (length CodePrefix) key) else (false, []).

Definition configKey (hash : Hash) : list byte := configPrefix ++ hash_bytes hash.
Definition genesisStateSpecKey (hash : Hash) : list byte := genesisPrefix ++ hash_bytes hash.
Definition accountTrieNodeKey (path : list byte) : list byte := trieNodeAccountPrefix ++ path.
Definition storageTrieNodeKey (accountHash : Hash) (path : list byte) : list byte :=
  (trieNodeStoragePrefix ++ hash_bytes accountHash) ++ path.

(** ** What a key is the key of *)

Inductive item_key : Type :=
| IKMark (name : list byte)
| IKHeader (number : Z) (hash : Hash)
| IKTD (number : Z) (hash : Hash)
| IKCanonical (number : Z)
| IKNumber (hash : Hash)
| IKBody (number : Z) (hash : Hash)
| IKReceipts (number : Z) (hash : Hash)
| IKTxLookup (hash : Hash)
| IKBloomBits (bit section : Z) (hash : Hash)
| IKAccount (hash : Hash)
| IKStorage (accountHash storageHash : Hash)
| IKCode (hash : Hash)
| IKSkeleton (number : Z)
| IKAccountNode (path : list byte)
| IKStorageNode (accountHash : Hash) (path : list byte)
| IKPreimage (hash : Hash)
| IKConfig (hash : Hash)
| IKGenesis (hash : Hash).

Definition mark_names : list (list byte) :=
  [databaseVersionKey; headHeaderKey; headBlockKey; headFastBlockKey; headFinalizedBlockKey; lastPivotKey;
   fastTrieProgressKey; snapshotDisabledKey; SnapshotRootKey; snapshotJournalKey; snapshotGeneratorKey;
   snapshotRecoveryKey; snapshotSyncStatusKey; skeletonSyncStatusKey; txIndexTailKey; fastTxLookupLimitKey;
   badBlockKey; uncleanShutdownKey; transitionStatusKey].

Definition key_of (k : item_key) : list byte :=
  match k with
  | IKMark name => name
  | IKHeader n h => headerKey n h
  | IKTD n h => headerTDKey n h
  | IKCanonical n => headerHashKey n
  | IKNumber h => headerNumberKey h
  | IKBody n h => blockBodyKey n h
  | IKReceipts n h => blockReceiptsKey n h
  | IKTxLookup h => txLookupKey h
  | IKBloomBits b s h => bloomBitsKey b s h
  | IKAccount h => accountSnapshotKey h
  | IKStorage a s => storageSnapshotKey a s
  | IKCode h => codeKey h
  | IKSkeleton n => skeletonHeaderKey n
  | IKAccountNode p => accountTrieNodeKey p
  | IKStorageNode a p => storageTrieNodeKey a p
  | IKPreimage h => preimageKey h
  | IKConfig h => configKey h
  | IKGenesis h => genesisStateSpecKey h
  end.

Definition is_hash (h : Hash) : Prop := 0 <= h < 2 ^ 256.

(** Numbers fit their width, hashes theirs. *)
Definition item_wf (k : item_key) : Prop :=
  match k with
  | IKMark name => name ∈ mark_names
  | IKHeader n h | IKTD n h | IKBody n h | IKReceipts n h => is_u64 n /\ is_hash h
  | IKCanonical n | IKSkeleton n => is_u64 n
  | IKNumber h | IKTxLookup h | IKAccount h | IKCode h | IKPreimage h | IKConfig h | IKGenesis h => is_hash h
  | IKStorageNode h _ => is_hash h
  | IKBloomBits b s h => 0 <= b < 2 ^ 16 /\ is_u64 s /\ is_hash h
  | IKStorage a s => is_hash a /\ is_hash s
  | IKAccountNode _ => True
  end.

(** ** Lemmas: telling keys apart *)

Definition kind_id (k : item_key) : nat :=
  match k with
  | IKMark _ => 0 | IKHeader _ _ => 1 | IKTD _ _ => 2 | IKCanonical _ => 3 | IKNumber _ => 4 | IKBody _ _ => 5
  | IKReceipts _ _ => 6 | IKTxLookup _ => 7 | IKBloomBits _ _ _ => 8 | IKAccount _ => 9 | IKStorage _ _ => 10
  | IKCode _ => 11 | IKSkeleton _ => 12 | IKAccountNode _ => 13 | IKStorageNode _ _ => 14 | IKPreimage _ => 15
  | IKConfig _ => 16 | IKGenesis _ => 17
  end%nat.

(** The first byte and the length of the keys of a kind. *)
Definition kind_shapes : list (byte * nat * nat) :=
  [(Byte.x68, 41, 1); (Byte.x68, 42, 2); (Byte.x68, 10, 3); (Byte.x48, 33, 4); (Byte.x62, 41, 5); (Byte.x72, 41, 6);
   (Byte.x6c, 33, 7); (Byte.x42, 43, 8); (Byte.x61, 33, 9); (Byte.x6f, 65, 10); (Byte.x63, 33, 11); (Byte.x53, 9, 12);
   (Byte.x73, 43, 15); (Byte.x65, 48, 16); (Byte.x65, 49, 17)]%nat.

Definition kind_of_key (key : list byte) : nat :=
  match key with
  | [] => 0
  | b :: _ =>
      if Byte.eqb b Byte.x41 then 13
      else if Byte.eqb b Byte.x4f then 14
      else match List.find (fun e => Byte.eqb b (fst (fst e)) && (length key =? snd (fst e))%nat) kind_shapes with
           | Some e => snd e
           | None => 0
           end
  end%nat.

Lemma bloomBitsKey_eq bit section hash :
  bloomBitsKey bit section hash = ((bloomBitsPrefix ++ be_bytes 2 bit) ++ be_bytes 8 section) ++ hash_bytes hash.
Proof. reflexivity. Qed.

Lemma kind_of_key_of k : item_wf k -> kind_of_key (key_of k) = kind_id k.
Proof.
  destruct k; cbn [item_wf key_of kind_id]; intros Hwf; try reflexivity.
  unfold mark_names in Hwf. repeat (apply elem_of_cons in Hwf as [->|Hwf]; [reflexivity|]). by apply elem_of_nil in Hwf.
Qed.

Lemma hash_key_inj p h h' : is_hash h -> is_hash h' -> p ++ hash_bytes h = p ++ hash_bytes h' -> h = h'.
Proof. intros H H' Heq. apply app_inv_head in Heq. by apply hash_bytes_inj. Qed.

Lemma number_key_inj p n n' : is_u64 n -> is_u64 n' -> p ++ be_bytes 8 n = p ++ be_bytes 8 n' -> n = n'.
Proof. intros H H' Heq. apply app_inv_head in Heq. by apply be_bytes_inj in Heq. Qed.

Lemma suffix_inj (l l' s s' : list byte) : length s = length s' -> l ++ s = l' ++ s' -> l = l' /\ s = s'.
Proof. intros Hs Heq. by apply app_inj_2 in Heq. Qed.

Lemma numbered_key_inj p n h n' h' :
  is_u64 n -> is_hash h -> is_u64 n' -> is_hash h' ->
  (p ++ encodeBlockNumber n) ++ hash_bytes h = (p ++ encodeBlockNumber n') ++ hash_bytes h' -> n = n' /\ h = h'.
Proof.
  intros Hn Hh Hn' Hh' Heq. apply suffix_inj in Heq as [H1 H2]; [|by unfold hash_bytes; rewrite !length_be_bytes].
  split; [by eapply number_key_inj|by apply hash_bytes_inj].
Qed.

(** ** Theorems *)

(** Keys of different items are different: no item of the database overwrites another. *)
Theorem schema_injective k k' : item_wf k -> item_wf k' -> key_of k = key_of k' -> k = k'.
Proof.
  intros Hk Hk' Heq. pose proof (kind_of_key_of k Hk) as H1. pose proof (kind_of_key_of k' Hk') as H2.
  rewrite Heq, H2 in H1. destruct k, k'; try discriminate H1; clear H1 H2; cbn [item_wf key_of] in *; destruct_and?.
  all: rewrite ?bloomBitsKey_eq in Heq; unfold headerTDKey, storageSnapshotKey, storageTrieNodeKey, headerHashKey in Heq.
  all: try (f_equal; by eapply hash_key_inj).
  all: try (edestruct numbered_key_inj as [? ?]; [| | | |exact Heq|]; [done..|]; by f_equal).
  all: try (f_equal; by eapply number_key_inj).
  all: try by subst.
  - apply suffix_inj in Heq as [Heq _]; [|done]. edestruct numbered_key_inj as [? ?]; [| | | |exact Heq|]; [done..|]. by f_equal.
  - apply suffix_inj in Heq as [Heq _]; [|done]. f_equal. by eapply number_key_inj.
  - apply suffix_inj in Heq as [Heq Hh]; [|by unfold hash_bytes; rewrite !length_be_bytes].
    apply suffix_inj in Heq as [Hb Hs]; [|by rewrite !length_be_bytes]. apply app_inv_head in Hb.
    apply be_bytes_inj in Hb; [|done..]. apply be_bytes_inj in Hs; [|done..]. apply hash_bytes_inj in Hh; [|done..]. by subst.
  - apply suffix_inj in Heq as [Ha Hs]; [|by unfold hash_bytes; rewrite !length_be_bytes].
    apply hash_bytes_inj in Hs; [|done..]. f_equal; [|done]. by eapply hash_key_inj.
  - apply app_inv_head in Heq. by subst.
  - rewrite <- !app_assoc in Heq. apply app_inv_head in Heq. apply app_inj_1 in Heq as [Ha ->]; [|by unfold hash_bytes; rewrite !length_be_bytes].
    apply hash_bytes_inj in Ha; [|done..]. by subst.
Qed.
