(* ===== verification/Decoding.v ===== *)
(** * Decoding headers and accounts (client/core/types/block.go, state_account.go)

    The decoders the reflection of [makeDecoder] puts together for these structures,
    field by field, on streams of bytes.  They give a value exactly on the bytes its
    encoder writes for it: encoding and decoding are inverse to each other, and no other
    bytes are accepted. *)

From Stdlib Require Import Strings.Byte.
From S2P Require Import Prelude.
From S2P Require Import Common.
From S2P Require Import Precompiles.
From S2P Require Import Rlp.
From S2P Require Import Crypto.
From S2P Require Import Header.
From S2P Require Import StateObject.
From S2P Require Import Encoding.
From S2P Require Import RlpStream.
From S2P Require Import Blocks.
From S2P Require Import StreamSpec.

Definition decodeHash : decoder Hash := let! b := decodeByteArray 32 in sret (be_value b).
Definition decodeAddress : decoder Address := let! b := decodeByteArray 20 in sret (be_value b).

(** [StateAccount]: nonce, balance, root and code hash. *)
Definition decode_account : decoder (Z * Z * Hash * list byte) :=
  struct (
    let! Nonce := field stream_Uint64 in
    let! Balance := field stream_decodeBigInt in
    let! Root := field decodeHash in
    let! CodeHash := field stream_Bytes in
    sret (Nonce, Balance, Root, CodeHash)).

(** [Header]; the last three fields are optional. *)
Definition decode_header : decoder Header :=
  struct (
    let! ParentHash := field decodeHash in
    let! UncleHash := field decodeHash in
    let! Coinbase := field decodeAddress in
    let! Root := field decodeHash in
    let! TxHash := field decodeHash in
    let! ReceiptHash := field decodeHash in
    let! Bloom := field (decodeByteArray 256) in
    let! Difficulty := field stream_decodeBigInt in
    let! Number := field stream_decodeBigInt in
    let! GasLimit := field stream_Uint64 in
    let! GasUsed := field stream_Uint64 in
    let! Time := field stream_Uint64 in
    let! Extra := field stream_Bytes in
    let! MixDigest := field decodeHash in
    let! Nonce := field (decodeByteArray 8) in
    let! BaseFee := optional_field true stream_decodeBigInt in
    let! WithdrawalsHash := optional_field (bool_decide (is_Some BaseFee)) decodeHash in
    let! ExcessDataGas := optional_field (bool_decide (is_Some WithdrawalsHash)) stream_decodeBigInt in
    sret (mkHeader ParentHash UncleHash Coinbase Root TxHash ReceiptHash Bloom Difficulty Number GasLimit GasUsed Time
      Extra MixDigest (be_value Nonce) BaseFee WithdrawalsHash ExcessDataGas)).

(** ** Lemmas: the strings of the fields *)

Lemma array_of_iff n c a : array_of n c = Some a <-> zlen a = n /\ c = a.
Proof. unfold array_of. destruct (zlen c =? n) eqn:E; zbool; (split; [intros [= <-] || done|intros [? ->]]; done || lia). Qed.

Lemma word_of_iff n c h :
  option_map be_value (array_of (Z.of_nat n) c) = Some h <-> 0 <= h < 256 ^ Z.of_nat n /\ c = be_bytes n h.
Proof.
  split.
  - destruct (array_of (Z.of_nat n) c) as [a|] eqn:E; [|done]. apply array_of_iff in E as [Hl ->]. intros [= <-].
    pose proof (be_value_bound a) as Hb. rewrite Hl in Hb. split; [done|].
    replace n with (length a) by (unfold zlen in Hl; lia). by rewrite be_bytes_be_value.
  - intros [Hh ->]. assert (array_of (Z.of_nat n) (be_bytes n h) = Some (be_bytes n h)) as ->.
    { apply array_of_iff. split; [|done]. unfold zlen. by rewrite length_be_bytes. }
    cbn. rewrite be_value_be_bytes, Z.mod_small by done. done.
Qed.

Lemma be_value_zero_head b c : byte_val b <> 0 -> 256 ^ zlen c <= be_value (b :: c).
Proof.
  intros Hb. rewrite be_value_cons. pose proof (byte_val_range b). pose proof (be_value_bound c).
  assert (0 <= 256 ^ zlen c) by (apply Z.pow_nonneg; lia). nia.
Qed.

Lemma int_bytes_canonical v : canonical (int_bytes v).
Proof.
  intros b Hb H0. destruct (Z.eq_dec v 0) as [->|Hv]; [done|]. destruct (byte_len_bounds v Hv) as [H1 H2].
  pose proof (int_bytes_value v) as Hval. assert (length (int_bytes v) = Z.to_nat (byte_len v)) as Hl by apply length_be_bytes.
  destruct (int_bytes v) as [|b' l]; [done|]. injection Hb as ->. rewrite be_value_cons, H0 in Hval. pose proof (be_value_bound l).
  cbn in Hl. replace (byte_len v - 1) with (zlen l) in H2 by (unfold zlen; lia). lia.
Qed.

Lemma big_of_iff c v : big_of c = Some v <-> 0 <= v /\ c = int_bytes v.
Proof.
  split.
  - destruct c as [|b c]; [by intros [= <-]|]. cbn [big_of]. destruct (byte_val b =? 0) eqn:E; [done|]. zbool. intros [= <-].
    pose proof (be_value_bound (b :: c)) as Hb. split; [lia|]. pose proof (be_value_zero_head b c E) as Hlow. rewrite zlen_cons in Hb.
    pose proof (zlen_nonneg c). pose proof (Z.pow_pos_nonneg 256 (zlen c) ltac:(lia) ltac:(lia)).
    unfold int_bytes. fold (byte_len (be_value (b :: c))).
    rewrite (byte_len_unique _ (zlen c + 1)); [|lia| |lia].
    2:{ rewrite Z.abs_eq by lia. replace (zlen c + 1 - 1) with (zlen c) by lia. lia. }
    rewrite Z.abs_eq by lia. replace (Z.to_nat (zlen c + 1)) with (length (b :: c)) by (unfold zlen; cbn; lia).
    by rewrite be_bytes_be_value.
  - intros [Hv ->]. rewrite big_of_canonical, int_bytes_value, Z.abs_eq by (apply int_bytes_canonical || lia). done.
Qed.

Lemma uint_of_iff c v : uint_of 64 c = Some v <-> is_u64 v /\ c = int_bytes v.
Proof.
  unfold uint_of. change (64 / 8) with 8. split.
  - destruct (zlen c <=? 8) eqn:E; [|done]. zbool. intros Hc. assert (v = be_value c) as Hv.
    { apply big_of_iff in Hc as [Hv ->]. rewrite int_bytes_value. lia. }
    apply big_of_iff in Hc as [H0 Hc]. split; [|done]. pose proof (be_value_bound c).
    pose proof (Z.pow_le_mono_r 256 (zlen c) 8 ltac:(lia) E). change (256 ^ 8) with two64 in *. unfold is_u64. lia.
  - intros [Hv ->]. unfold is_u64 in Hv. rewrite (proj2 (Z.leb_le (zlen (int_bytes v)) 8)); [apply big_of_iff; split; [lia|done]|].
    rewrite int_bytes_content by lia. rewrite Z.abs_eq by lia. unfold int_content. destruct (v =? 0); [by rewrite zlen_nil|].
    apply length_putint_range. lia.
Qed.

(** ** Accounts *)

(** [*StateAccount.EncodeRLP] (gen_account_rlp.go), of its four fields. *)
Definition StateAccount_EncodeRLP (Nonce : Z) (Balance : option Z) (Root : Hash) (CodeHash : list byte) : option (list byte) :=
  let rest := writeBytes (hash_bytes Root) ++ writeBytes CodeHash in
  match Balance with
  | None => Some (write_list (writeUint64 Nonce ++ EmptyString ++ rest))
  | Some Balance =>
      if Balance <? 0 then None else Some (write_list (writeUint64 Nonce ++ writeBigInt Balance ++ rest))
  end.

Definition reads_hash : list byte -> Hash -> list byte -> Prop := reads_string (fun c => option_map be_value (array_of 32 c)).
Definition reads_big : list byte -> Z -> list byte -> Prop := reads_string big_of.
Definition reads_uint : list byte -> Z -> list byte -> Prop := reads_string (uint_of 64).

Lemma decodeHash_exact : exact decodeHash reads_hash.
Proof. apply exact_map, array_exact. lia. Qed.

Lemma decodeAddress_exact : exact decodeAddress (reads_string (fun c => option_map be_value (array_of 20 c))).
Proof. apply exact_map, array_exact. lia. Qed.

Lemma Uint64_exact : exact stream_Uint64 reads_uint.
Proof. apply Uint_exact. lia. Qed.

Lemma reads_string_shorter {A} (g : list byte -> option A) l a l' : reads_string g l a l' -> zlen l' <= zlen l.
Proof. intros H%reads_string_len. lia. Qed.

#[export] Hint Resolve decodeHash_exact decodeAddress_exact Uint64_exact BigInt_exact Bytes_exact : r5.
#[export] Hint Extern 1 (exact (decodeByteArray _) _) => apply array_exact; lia : r5.
#[export] Hint Resolve reads_string_functional reads_string_shorter leaves_functional accepts_ret : r5.

Lemma accepts_field_then {A B} (d : decoder A) (k : A -> decoder B) g R :
  exact d (reads_string g) -> (forall a, accepts (k a) (R a) /\ functional (R a)) ->
  accepts (sbind (field d) k) (followed (reads_string g) R) /\ functional (followed (reads_string g) R).
Proof.
  intros Hd Hk. split.
  - apply accepts_bind; [by apply accepts_field|eauto with r5|apply Hk].
  - apply followed_functional; [eauto with r5..|apply Hk].
Qed.

Lemma accepts_optional_then {A B} more (d : decoder A) (k : option A -> decoder B) g R :
  exact d (reads_string g) -> (forall o, accepts (k o) (R o) /\ functional (R o)) ->
  accepts (sbind (optional_field more d) k) (followed (reads_optional more (reads_string g)) R) /\
  functional (followed (reads_optional more (reads_string g)) R).
Proof.
  intros Hd Hk. split.
  - apply accepts_bind; [by apply accepts_optional|apply reads_optional_functional|apply Hk].
  - apply followed_functional; [apply reads_optional_functional| |apply Hk]. intros l [a|] l1; cbn; [|by intros [_ ->]].
    intros [_ H%reads_string_len]. lia.
Qed.

(** [fields] composes the relations of the fields of a structure. *)
Ltac fields :=
  repeat first
    [ apply accepts_field_then; [by eauto with r5|intros ?]
    | apply accepts_optional_then; [by eauto with r5|intros ?]
    | split; [apply accepts_ret|apply leaves_functional] ].

Lemma reads_string_iff {A} (g : list byte -> option A) (ok : A -> Prop) enc l a l' :
  (forall c, g c = Some a <-> ok a /\ c = enc a) -> reads_string g l a l' <-> ok a /\ l = writeBytes (enc a) ++ l'.
Proof.
  intros H. split.
  - intros (c & -> & Hc). by apply H in Hc as [? ->].
  - intros [Ha ->]. exists (enc a). split; [done|]. by apply H.
Qed.

Lemma reads_hash_iff l h l' : reads_hash l h l' <-> 0 <= h < 2 ^ 256 /\ l = writeBytes (hash_bytes h) ++ l'.
Proof. apply (reads_string_iff _ (fun h => 0 <= h < 2 ^ 256) hash_bytes). intros c. apply (word_of_iff 32). Qed.

Lemma reads_big_iff l v l' : reads_big l v l' <-> 0 <= v /\ l = writeBigInt v ++ l'.
Proof. rewrite writeBigInt_bytes. apply (reads_string_iff _ (fun v => 0 <= v) int_bytes). intros c. apply big_of_iff. Qed.

Lemma reads_uint_iff l v l' : reads_uint l v l' <-> is_u64 v /\ l = writeUint64 v ++ l'.
Proof.
  etrans; [apply (reads_string_iff _ is_u64 int_bytes); intros c; apply uint_of_iff|].
  split; intros [Hv ->]; (split; [done|]); by rewrite writeUint64_item.
Qed.

Lemma reads_bytes_iff l v l' : reads_string Some l v l' <-> l = writeBytes v ++ l'.
Proof. split; [by intros (c & -> & [= ->])|]. intros ->. by exists v. Qed.

Lemma reads_address_iff l a l' :
  reads_string (fun c => option_map be_value (array_of 20 c)) l a l' <-> 0 <= a < 2 ^ 160 /\ l = writeBytes (address_bytes a) ++ l'.
Proof. apply (reads_string_iff _ (fun a => 0 <= a < 2 ^ 160) address_bytes). intros c. apply (word_of_iff 20). Qed.

Lemma reads_array_iff n l a l' : reads_string (array_of n) l a l' <-> zlen a = n /\ l = writeBytes a ++ l'.
Proof. apply (reads_string_iff _ (fun a => zlen a = n) id). intros c. apply array_of_iff. Qed.

(** [read_fields] takes what fields read apart, [write_fields] puts it together. *)
Ltac read_field H :=
  first [apply reads_uint_iff in H as [? ->] | apply reads_big_iff in H as [? ->] | apply reads_hash_iff in H as [? ->]
        | apply reads_address_iff in H as [? ->] | apply reads_array_iff in H as [? ->] | apply reads_bytes_iff in H as ->].
Ltac read_fields :=
  repeat match goal with
  | H : followed (reads_string _) _ _ _ _ |- _ =>
      let H1 := fresh in destruct H as (? & ? & H1 & H); read_field H1
  | H : leaves _ _ _ _ |- _ => destruct H as [H <-]
  end.
Ltac write_field :=
  first [apply reads_uint_iff; split; [|reflexivity] | apply reads_big_iff; split; [|reflexivity]
        | apply reads_hash_iff; split; [|reflexivity] | apply reads_address_iff; split; [|reflexivity]
        | apply reads_array_iff; split; [|reflexivity] | apply reads_bytes_iff; reflexivity].
Ltac write_fields :=
  repeat match goal with
  | |- followed (reads_string _) _ _ _ _ => eexists _, _; split; [write_field; try assumption|]
  | |- leaves _ _ _ _ => split; [try reflexivity|reflexivity]
  end.

Lemma struct_exact {A} (d : decoder A) R (content : A -> list byte -> Prop) b :
  accepts d R /\ functional R -> (forall a c, R c a [] <-> content a c) -> zlen b < 2 ^ 62 ->
  (exists r, DecodeBytes (struct d) b = Ret r) /\
  forall a, DecodeBytes (struct d) b = Ret (inl a) <-> exists c, content a c /\ b = write_list c.
Proof.
  intros [Hd HR] Hc Hb. destruct (DecodeBytes_struct d R b Hd HR Hb) as [Hret H]. split; [done|]. intros a. rewrite H.
  split; [intros (c & -> & H1%Hc); by exists c|intros (c & H1%Hc & ->); by exists c].
Qed.

(** Encoding and decoding accounts are inverse to each other: decoding never panics, and
    gives an account exactly on the bytes that encode it. *)
Theorem StateAccount_roundtrip b :
  zlen b < 2 ^ 62 ->
  (exists r, DecodeBytes decode_account b = Ret r) /\
  forall Nonce Balance Root CodeHash,
    DecodeBytes decode_account b = Ret (inl (Nonce, Balance, Root, CodeHash)) <->
    is_u64 Nonce /\ 0 <= Root < 2 ^ 256 /\ StateAccount_EncodeRLP Nonce (Some Balance) Root CodeHash = Some b.
Proof.
  intros Hb. set (content := fun (a : Z * Z * Hash * list byte) c => let '(Nonce, Balance, Root, CodeHash) := a in
    is_u64 Nonce /\ 0 <= Balance /\ 0 <= Root < 2 ^ 256 /\
    c = writeUint64 Nonce ++ writeBigInt Balance ++ writeBytes (hash_bytes Root) ++ writeBytes CodeHash).
  assert ((exists r, DecodeBytes decode_account b = Ret r) /\
    forall a, DecodeBytes decode_account b = Ret (inl a) <-> exists c, content a c /\ b = write_list c) as [Hret H].
  { eapply struct_exact; [fields| |done]. intros [[[Nonce Balance] Root] CodeHash] c. cbv beta. split.
    - intros H. read_fields. injection H as -> -> -> ->. rewrite app_nil_r. done.
    - intros (H1 & H2 & H3 & ->). rewrite <- (app_nil_r (writeBytes CodeHash)). write_fields. }
  split; [done|]. intros Nonce Balance Root CodeHash. rewrite H. unfold StateAccount_EncodeRLP. split.
  - intros (c & (H1 & H2 & H3 & ->) & ->). by rewrite (proj2 (Z.ltb_ge Balance 0)) by lia.
  - intros (H1 & H3 & H4). destruct (Balance <? 0) eqn:E; [done|]. zbool. injection H4 as <-. by eexists.
Qed.

(** ** Headers *)

(** The values a decoded header can have: every later optional field comes with those
    before it. *)
Record header_decodable (h : Header) : Prop := {
  hd_ParentHash : 0 <= hdr_ParentHash h < 2 ^ 256;
  hd_UncleHash : 0 <= hdr_UncleHash h < 2 ^ 256;
  hd_Coinbase : 0 <= hdr_Coinbase h < 2 ^ 160;
  hd_Root : 0 <= hdr_Root h < 2 ^ 256;
  hd_TxHash : 0 <= hdr_TxHash h < 2 ^ 256;
  hd_ReceiptHash : 0 <= hdr_ReceiptHash h < 2 ^ 256;
  hd_Bloom : zlen (hdr_Bloom h) = 256;
  hd_Difficulty : 0 <= hdr_Difficulty h;
  hd_Number : 0 <= hdr_Number h;
  hd_GasLimit : is_u64 (hdr_GasLimit h);
  hd_GasUsed : is_u64 (hdr_GasUsed h);
  hd_Time : is_u64 (hdr_Time h);
  hd_MixDigest : 0 <= hdr_MixDigest h < 2 ^ 256;
  hd_Nonce : is_u64 (hdr_Nonce h);
  hd_BaseFee : forall b, hdr_BaseFee h = Some b -> 0 <= b;
  hd_WithdrawalsHash : forall w, hdr_WithdrawalsHash h = Some w -> 0 <= w < 2 ^ 256 /\ is_Some (hdr_BaseFee h);
  hd_ExcessDataGas : forall e, hdr_ExcessDataGas h = Some e -> 0 <= e /\ is_Some (hdr_WithdrawalsHash h)
}.

(** The content of the list of a header, with the data gas. *)
Definition header_fixed (h : Header) (rest : list byte) : list byte :=
  writeBytes (hash_bytes (hdr_ParentHash h)) ++ writeBytes (hash_bytes (hdr_UncleHash h)) ++
  writeBytes (address_bytes (hdr_Coinbase h)) ++ writeBytes (hash_bytes (hdr_Root h)) ++
  writeBytes (hash_bytes (hdr_TxHash h)) ++ writeBytes (hash_bytes (hdr_ReceiptHash h)) ++
  writeBytes (hdr_Bloom h) ++ writeBigInt (hdr_Difficulty h) ++ writeBigInt (hdr_Number h) ++
  writeUint64 (hdr_GasLimit h) ++ writeUint64 (hdr_GasUsed h) ++ writeUint64 (hdr_Time h) ++
  writeBytes (hdr_Extra h) ++ writeBytes (hash_bytes (hdr_MixDigest h)) ++
  writeBytes (be_bytes 8 (hdr_Nonce h)) ++ rest.

Definition optional_content (BaseFee : option Z) (WithdrawalsHash : option Hash) (ExcessDataGas : option Z) : list byte :=
  match BaseFee, WithdrawalsHash, ExcessDataGas with
  | None, _, _ => []
  | Some b, None, _ => writeBigInt b
  | Some b, Some w, None => writeBigInt b ++ writeBytes (hash_bytes w)
  | Some b, Some w, Some e => writeBigInt b ++ writeBytes (hash_bytes w) ++ writeBigInt e
  end.

Definition header_optional (h : Header) : list byte :=
  optional_content (hdr_BaseFee h) (hdr_WithdrawalsHash h) (hdr_ExcessDataGas h).

Definition header_content (h : Header) (c : list byte) : Prop :=
  header_decodable h /\ c = header_fixed h (header_optional h).

Lemma Header_EncodeRLP_content h : header_decodable h -> hdr_ExcessDataGas h = None ->
  Header_EncodeRLP h = Some (write_list (header_fixed h (header_optional h))).
Proof.
  intros [] He. unfold Header_EncodeRLP, header_fixed, header_optional, optional_content. rewrite He.
  rewrite (proj2 (Z.ltb_ge (hdr_Difficulty h) 0)), (proj2 (Z.ltb_ge (hdr_Number h) 0)) by lia.
  destruct (hdr_BaseFee h) as [b|], (hdr_WithdrawalsHash h) as [w|];
    rewrite ?(bool_decide_eq_true_2 (None = None)), ?bool_decide_eq_false_2 by done; cbn [negb orb];
    try (specialize (hd_BaseFee0 b eq_refl); rewrite (proj2 (Z.ltb_ge b 0)) by lia);
    try (by destruct (hd_WithdrawalsHash0 w eq_refl) as [_ [? ?]]);
    do 2 f_equal; rewrite <- ?app_assoc, ?app_nil_r; reflexivity.
Qed.

Lemma optional_fields_iff (mk : option Z -> option Hash -> option Z -> Header) l h :
  followed (reads_optional true reads_big) (fun o =>
    followed (reads_optional (bool_decide (is_Some o)) reads_hash) (fun o0 =>
      followed (reads_optional (bool_decide (is_Some o0)) reads_big) (fun o1 => leaves (mk o o0 o1)))) l h [] <->
  exists b w e, h = mk b w e /\ l = optional_content b w e /\
    (forall x, b = Some x -> 0 <= x) /\
    (forall y, w = Some y -> 0 <= y < 2 ^ 256 /\ is_Some b) /\
    (forall z, e = Some z -> 0 <= z /\ is_Some w).
Proof.
  split.
  - intros (b & l1 & Hb & w & l2 & Hw & e & l3 & He & -> & <-). exists b, w, e. split; [done|].
    destruct b as [b|]; cbn [reads_optional is_Some] in Hb.
    2:{ destruct Hb as [Hl ->]. rewrite bool_decide_eq_false_2 in Hw by (by intros [? ?]).
      destruct w as [w|]; [by destruct Hw|]. rewrite bool_decide_eq_false_2 in He by (by intros [? ?]).
      destruct e as [e|]; [by destruct He|]. split_and!; try done. by apply Hl. }
    destruct Hb as [_ [Hb ->]%reads_big_iff]. rewrite bool_decide_eq_true_2 in Hw by by eexists.
    destruct w as [w|]; cbn [reads_optional] in Hw.
    2:{ destruct Hw as [Hl ->]. rewrite bool_decide_eq_false_2 in He by (by intros [? ?]).
      destruct e as [e|]; [by destruct He|]. rewrite Hl, app_nil_r by done. split_and!; try done. by intros x [= <-]. }
    destruct Hw as [_ [Hw ->]%reads_hash_iff]. rewrite bool_decide_eq_true_2 in He by by eexists.
    destruct e as [e|]; cbn [reads_optional] in He.
    + destruct He as [_ [He ->]%reads_big_iff]. rewrite app_nil_r. split; [done|].
      split_and!; [by intros ? [= <-]|intros ? [= <-]; split; [done|by eexists]..].
    + destruct He as [_ <-]. rewrite app_nil_r. split; [done|].
      split_and!; [by intros ? [= <-]|intros ? [= <-]; split; [done|by eexists]|done].
  - intros (b & w & e & -> & -> & Hb & Hw & He). exists b. destruct b as [b|].
    2:{ destruct w as [w|]; [by destruct (Hw w eq_refl) as [_ [? ?]]|]. destruct e as [e|]; [by destruct (He e eq_refl) as [_ [? ?]]|].
      exists []. split; [by split|]. exists None, []. split; [by split|]. exists None, []. split; [by split|]. by split. }
    specialize (Hb b eq_refl). destruct w as [w|].
    2:{ destruct e as [e|]; [by destruct (He e eq_refl) as [_ [? ?]]|].
      exists []. split; [split; [done|]; apply reads_big_iff; by rewrite app_nil_r|].
      exists None, []. split; [by split|]. exists None, []. split; [by split|]. by split. }
    destruct (Hw w eq_refl) as [Hw1 _]. destruct e as [e|].
    + destruct (He e eq_refl) as [He1 _]. eexists. split; [split; [done|]; apply reads_big_iff; split; [done|reflexivity]|].
      exists (Some w). eexists. split; [split; [done|]; apply reads_hash_iff; split; [done|reflexivity]|].
      exists (Some e), []. split; [|by split]. split; [done|]. apply reads_big_iff. by rewrite app_nil_r.
    + eexists. split; [split; [done|]; apply reads_big_iff; split; [done|reflexivity]|].
      exists (Some w), []. split; [split; [done|]; apply reads_hash_iff; by rewrite app_nil_r|].
      exists None, []. split; [by split|]. by split.
Qed.

Lemma nonce_bytes n : zlen n = 8 -> be_bytes 8 (be_value n) = n /\ is_u64 (be_value n).
Proof.
  intros Hn. pose proof (be_value_bound n) as Hb. rewrite Hn in Hb. split; [|exact Hb].
  replace 8%nat with (length n) by (unfold zlen in Hn; lia). apply be_bytes_be_value.
Qed.

Lemma decode_header_exact b :
  zlen b < 2 ^ 62 ->
  (exists r, DecodeBytes decode_header b = Ret r) /\
  forall h, DecodeBytes decode_header b = Ret (inl h) <-> exists c, header_content h c /\ b = write_list c.
Proof.
  intros Hb. eapply struct_exact; [|cbv beta|done].
  { fields. }
  intros h c. split.
  - intros H. read_fields. apply optional_fields_iff in H as (o & w & e & -> & -> & Ho & Hw & He).
    match goal with Hn : zlen ?n = 8 |- _ =>
      destruct (nonce_bytes n Hn) as [Hnonce Hu]; assert (writeBytes n = writeBytes (be_bytes 8 (be_value n))) as -> by (by rewrite Hnonce) end.
    split; [by constructor|reflexivity].
  - intros [[] ->]. unfold header_fixed. write_fields; [|].
    + unfold zlen. by rewrite length_be_bytes.
    + apply optional_fields_iff. exists (hdr_BaseFee h), (hdr_WithdrawalsHash h), (hdr_ExcessDataGas h). split_and!; try done.
      rewrite be_value_be_bytes, Z.mod_small by done. by destruct h.
Qed.

(** C10: Decoding a header never panics, whatever the bytes are; and it gives a header without
    data gas exactly on the bytes that the header is encoded as, so that encoding and
    decoding are inverse to each other and no header has two encodings. *)
Theorem Header_roundtrip b :
  zlen b < 2 ^ 62 ->
  (exists r, DecodeBytes decode_header b = Ret r) /\
  forall h, hdr_ExcessDataGas h = None ->
    DecodeBytes decode_header b = Ret (inl h) <-> header_decodable h /\ Header_EncodeRLP h = Some b.
Proof.
  intros Hb. destruct (decode_header_exact b Hb) as [Hret H]. split; [done|]. intros h He. rewrite H. split.
  - intros (c & [Hd ->] & ->). split; [done|]. by apply Header_EncodeRLP_content.
  - intros [Hd Henc]. rewrite Header_EncodeRLP_content in Henc by done. injection Henc as <-. by eexists.
Qed.

(** With data gas the two are not inverse: the bytes decode, but the header they decode to
    is encoded, and hashed, as other bytes: those of the header without data gas. *)
Theorem Header_data_gas_lost b h :
  zlen b < 2 ^ 61 -> DecodeBytes decode_header b = Ret (inl h) -> hdr_ExcessDataGas h <> None ->
  exists enc, Header_EncodeRLP h = Some enc /\ enc <> b /\ DecodeBytes decode_header enc = Ret (inl (without_excess h)).
Proof.
  intros Hb H He. destruct (decode_header_exact b ltac:(lia)) as [_ Hiff]. apply Hiff in H as (c & [Hd ->] & ->).
  set (h' := without_excess h). assert (header_decodable h') as Hd' by (destruct Hd; by constructor).
  assert (Header_EncodeRLP h = Some (write_list (header_fixed h (header_optional h')))) as Henc
    by exact (Header_EncodeRLP_content h' Hd' eq_refl).
  destruct (hdr_ExcessDataGas h) as [e|] eqn:Ee; [|done]. destruct (hd_ExcessDataGas h Hd e Ee) as [_ [w Hw]].
  destruct (hd_WithdrawalsHash h Hd w Hw) as [_ [f Hf]].
  assert (header_optional h = header_optional h' ++ writeBigInt e) as Ho.
  { unfold header_optional, h'. cbn [without_excess hdr_BaseFee hdr_WithdrawalsHash hdr_ExcessDataGas].
    rewrite Ee, Hw, Hf. cbn [optional_content]. by rewrite <- app_assoc. }
  assert (header_fixed h (header_optional h) = header_fixed h (header_optional h') ++ writeBigInt e) as Hc
    by (rewrite Ho; unfold header_fixed; by rewrite <- !app_assoc).
  pose proof (encode_item_nonempty (int_item e)) as Hne. rewrite <- writeBigInt_item in Hne.
  eexists. split; [exact Henc|]. rewrite Hc in Hb. set (c' := header_fixed h (header_optional h')) in *.
  unfold write_list in Hb. rewrite !zlen_app in Hb. pose proof (zlen_nonneg c'). pose proof (zlen_nonneg (writeBigInt e)).
  pose proof (zlen_nonneg (listhead_encode (zlen c' + zlen (writeBigInt e)))).
  pose proof (write_list_len c' ltac:(unfold two64; lia)). split.
  - rewrite Hc. intros Heq. destruct (write_list_inj c' [] (c' ++ writeBigInt e) []) as [Hcc _];
      [rewrite app_nil_r; lia|by rewrite !app_nil_r|]. rewrite <- (app_nil_r c') in Hcc at 1. apply app_inv_head in Hcc. by symmetry in Hcc.
  - apply decode_header_exact; [lia|]. exists c'. split; [|done]. by split.
Qed.
