(* ===== verification/NodeDatabase.v ===== *)
(** * The database of trie nodes (client/trie/database.go)

    Trie nodes are kept in memory, counted by their references and listed by age,
    until they are dropped, flushed oldest first, or committed to disk. *)

From Stdlib Require Import Strings.Byte.
From stdpp Require Import sorting.
From S2P Require Import Prelude.
From S2P Require Import Common.
From S2P Require Import StateObject.
From S2P Require Import Rlp.
From S2P Require Import Crypto.
From S2P Require Import TrieKeys.
From S2P Require Import TrieNode.
From S2P Require Import TrieCommit.
From S2P Require Import RlpStream.
From S2P Require Import Decoding.

(** ** What lies below *)

(** The cache of clean nodes (fastcache), which may drop what it was given. *)
Class CleanCache (C : Type) : Type := {
  cache_Get : C -> Hash -> option (list byte);
  cache_Set : C -> Hash -> list byte -> C
}.

Class CleanCacheLaws {C} (CC : CleanCache C) : Prop := {
  cache_Get_Set c h b h' b' : cache_Get (cache_Set c h b) h' = Some b' -> (h' = h /\ b' = b) \/ cache_Get c h' = Some b'
}.

(** The trie nodes on disk. *)
Abbreviation diskdb := (gmap Hash (list byte)) (only parsing).

(** A batch of writes in their order; [ValueSize] counts keys and values. *)
Definition Batch : Type := list (Hash * list byte).
Definition ValueSize (b : Batch) : Z := fold_right (fun e acc => 32 + zlen (snd e) + acc) 0 b.
Definition IdealBatchSize : Z := 100 * 1024.

(** Whether the disk takes a batch; it takes all of it or nothing. *)
Class DiskWriter : Type := { disk_accepts : diskdb -> Batch -> bool }.

(** The order in which a map of hashes is iterated. *)
Class HashOrder : Type := { hash_order : gset Hash -> list Hash }.
Class HashOrderLaws (HO : HashOrder) : Prop := { hash_order_perm X : hash_order X ≡ₚ elements X }.

(** ** Nodes in memory *)

Definition uint16 (z : Z) : Z := z mod 2 ^ 16.
Definition uint32 (z : Z) : Z := z mod 2 ^ 32.

Record cachedNode : Type := mkCached {
  cn_node : rawtrie;
  cn_size : Z;
  cn_parents : Z;
  cn_children : option (gmap Hash Z);
  cn_flushPrev : Hash;
  cn_flushNext : Hash
}.

Definition set_parents (z : Z) (n : cachedNode) : cachedNode :=
  mkCached (cn_node n) (cn_size n) z (cn_children n) (cn_flushPrev n) (cn_flushNext n).
Definition set_children (cs : gmap Hash Z) (n : cachedNode) : cachedNode :=
  mkCached (cn_node n) (cn_size n) (cn_parents n) (Some cs) (cn_flushPrev n) (cn_flushNext n).
Definition set_flushPrev (h : Hash) (n : cachedNode) : cachedNode :=
  mkCached (cn_node n) (cn_size n) (cn_parents n) (cn_children n) h (cn_flushNext n).
Definition set_flushNext (h : Hash) (n : cachedNode) : cachedNode :=
  mkCached (cn_node n) (cn_size n) (cn_parents n) (cn_children n) (cn_flushPrev n) h.

(** The size of the structure on a 64-bit machine. *)
Definition cachedNodeSize : Z := 96.
Definition cachedNodeChildrenSize : Z := 48.
Definition HashLength : Z := 32.

(** [rlp]; the meta root has no node to encode. *)
Definition cachedNode_rlp (n : cachedNode) : Res (list byte) :=
  match cn_node n with rawNil => Panic PanicNil | node => Ret (nodeToBytes node) end.

(** [forChilds]: the children added by [Reference], then those in the node. *)
Definition forChilds {HO : HashOrder} (n : cachedNode) : list Hash :=
  match cn_children n with Some cs => hash_order (dom cs) | None => [] end ++ forGatherChildren (cn_node n).

(** [expandNode]. *)
Fixpoint expandNode (hash : option (list byte)) (n : rawtrie) : Res node :=
  match n with
  | rawShortNode k v => let? v := expandNode None v in Ret (shortNode (compactToHex k) v (mkFlag hash false))
  | rawFullNode cs =>
      let? cs := map_res (fun c => match c with rawNil => Ret nilNode | _ => expandNode None c end) cs in
      Ret (fullNode cs (mkFlag hash false))
  | rawValueNode v => Ret (valueNode v)
  | rawHashNode h => Ret (hashNode h)
  | rawNil => Panic PanicTrie
  end.

(** [obj]. *)
Definition cachedNode_obj (hash : Hash) (n : cachedNode) : Res node := expandNode (Some (hash_bytes hash)) (cn_node n).

(** ** The database *)

Record Database {C : Type} : Type := mkDatabase {
  db_disk : diskdb;
  db_cleans : option C;
  db_dirties : gmap Hash cachedNode;
  db_oldest : Hash;
  db_newest : Hash;
  db_gcnodes : Z;
  db_gcsize : Z;
  db_flushnodes : Z;
  db_flushsize : Z;
  db_dirtiesSize : Z;
  db_childrenSize : Z
}.
Arguments Database : clear implicits.

Section database.
Context {C : Type} {CC : CleanCache C} {W : DiskWriter} {HO : HashOrder}.
Notation DB := (Database C).

Definition set_disk (x : diskdb) (d : DB) : DB :=
  mkDatabase C x (db_cleans d) (db_dirties d) (db_oldest d) (db_newest d) (db_gcnodes d) (db_gcsize d) (db_flushnodes d) (db_flushsize d) (db_dirtiesSize d) (db_childrenSize d).
Definition set_cleans (x : option C) (d : DB) : DB :=
  mkDatabase C (db_disk d) x (db_dirties d) (db_oldest d) (db_newest d) (db_gcnodes d) (db_gcsize d) (db_flushnodes d) (db_flushsize d) (db_dirtiesSize d) (db_childrenSize d).
Definition set_dirties (x : gmap Hash cachedNode) (d : DB) : DB :=
  mkDatabase C (db_disk d) (db_cleans d) x (db_oldest d) (db_newest d) (db_gcnodes d) (db_gcsize d) (db_flushnodes d) (db_flushsize d) (db_dirtiesSize d) (db_childrenSize d).
Definition set_oldest (x : Hash) (d : DB) : DB :=
  mkDatabase C (db_disk d) (db_cleans d) (db_dirties d) x (db_newest d) (db_gcnodes d) (db_gcsize d) (db_flushnodes d) (db_flushsize d) (db_dirtiesSize d) (db_childrenSize d).
Definition set_newest (x : Hash) (d : DB) : DB :=
  mkDatabase C (db_disk d) (db_cleans d) (db_dirties d) (db_oldest d) x (db_gcnodes d) (db_gcsize d) (db_flushnodes d) (db_flushsize d) (db_dirtiesSize d) (db_childrenSize d).
Definition add_gc (nodes size : Z) (d : DB) : DB :=
  mkDatabase C (db_disk d) (db_cleans d) (db_dirties d) (db_oldest d) (db_newest d) (u64 (db_gcnodes d + nodes)) (db_gcsize d + size) (db_flushnodes d) (db_flushsize d) (db_dirtiesSize d) (db_childrenSize d).
Definition add_flush (nodes size : Z) (d : DB) : DB :=
  mkDatabase C (db_disk d) (db_cleans d) (db_dirties d) (db_oldest d) (db_newest d) (db_gcnodes d) (db_gcsize d) (u64 (db_flushnodes d + nodes)) (db_flushsize d + size) (db_dirtiesSize d) (db_childrenSize d).
Definition reset_statistics (d : DB) : DB :=
  mkDatabase C (db_disk d) (db_cleans d) (db_dirties d) (db_oldest d) (db_newest d) 0 0 0 0 (db_dirtiesSize d) (db_childrenSize d).
Definition add_dirtiesSize (z : Z) (d : DB) : DB :=
  mkDatabase C (db_disk d) (db_cleans d) (db_dirties d) (db_oldest d) (db_newest d) (db_gcnodes d) (db_gcsize d) (db_flushnodes d) (db_flushsize d) (db_dirtiesSize d + z) (db_childrenSize d).
Definition add_childrenSize (z : Z) (d : DB) : DB :=
  mkDatabase C (db_disk d) (db_cleans d) (db_dirties d) (db_oldest d) (db_newest d) (db_gcnodes d) (db_gcsize d) (db_flushnodes d) (db_flushsize d) (db_dirtiesSize d) (db_childrenSize d + z).

(** [NewDatabaseWithConfig]: only the meta root, without a node. *)
Definition NewDatabase (disk : diskdb) (cleans : option C) : DB :=
  mkDatabase C disk cleans {[ 0 := mkCached rawNil 0 0 (Some ∅) 0 0 ]} 0 0 0 0 0 0 0 0.

(** [db.dirties[h]] where a missing entry is a nil pointer that is dereferenced. *)
Definition dirty (h : Hash) : GM DB cachedNode :=
  let* m := gget db_dirties in
  match m !! h with Some n => gret n | None => gpanic PanicNil end.

Definition put_dirty (h : Hash) (n : cachedNode) : GM DB unit := gput (fun d => set_dirties (<[h := n]> (db_dirties d)) d).

Definition on_dirty (h : Hash) (f : cachedNode -> cachedNode) : GM DB unit :=
  let* n := dirty h in put_dirty h (f n).

(** *** Inserting and linking *)

(** [if c := db.dirties[child]; c != nil { c.parents++ }] for all children. *)
Fixpoint count_children (hs : list Hash) (m : gmap Hash cachedNode) : gmap Hash cachedNode :=
  match hs with
  | [] => m
  | h :: hs =>
      count_children hs (match m !! h with Some c => <[h := set_parents (uint32 (cn_parents c + 1)) c]> m | None => m end)
  end.

(** The size is added in the 16 bits of the entry's size. *)
Definition db_insert (hash : Hash) (size : Z) (node : rawtrie) : GM DB unit :=
  let* m := gget db_dirties in
  match m !! hash with
  | Some _ => gret tt
  | None =>
      let* newest := gget db_newest in
      let entry := mkCached node (uint16 size) 0 None newest 0 in
      gput (fun d => set_dirties (count_children (forChilds entry) (db_dirties d)) d) ;;;
      put_dirty hash entry ;;;
      let* oldest := gget db_oldest in
      (if oldest =? 0 then gput (set_oldest hash) else on_dirty newest (set_flushNext hash)) ;;;
      gput (set_newest hash) ;;;
      gput (add_dirtiesSize (uint16 (HashLength + cn_size entry)))
  end.

(** The last steps of [reference]. *)
Definition link_child (child parent : Hash) : GM DB unit :=
  on_dirty child (fun n => set_parents (uint32 (cn_parents n + 1)) n) ;;;
  let* p := dirty parent in
  let cs := default ∅ (cn_children p) in
  let count := uint16 (default 0 (cs !! child) + 1) in
  put_dirty parent (set_children (<[child := count]> cs) p) ;;;
  if count =? 1 then gput (add_childrenSize (HashLength + 2)) else gret tt.

Definition reference (child parent : Hash) : GM DB unit :=
  let* m := gget db_dirties in
  match m !! child with
  | None => gret tt
  | Some _ =>
      let* p := dirty parent in
      match cn_children p with
      | None =>
          put_dirty parent (set_children ∅ p) ;;;
          gput (add_childrenSize cachedNodeChildrenSize) ;;;
          link_child child parent
      | Some cs =>
          if bool_decide (is_Some (cs !! child)) && negb (parent =? 0) then gret tt
          else link_child child parent
      end
  end.

Definition Reference (child parent : Hash) : GM DB unit := reference child parent.

(** *** Dropping references *)

(** A node leaves the flush list. *)
Definition unlink (hash : Hash) (node : cachedNode) : GM DB unit :=
  let* oldest := gget db_oldest in
  let* newest := gget db_newest in
  if hash =? oldest then
    gput (set_oldest (cn_flushNext node)) ;;;
    on_dirty (cn_flushNext node) (set_flushPrev 0)
  else if hash =? newest then
    gput (set_newest (cn_flushPrev node)) ;;;
    on_dirty (cn_flushPrev node) (set_flushNext 0)
  else
    on_dirty (cn_flushPrev node) (set_flushNext (cn_flushNext node)) ;;;
    on_dirty (cn_flushNext node) (set_flushPrev (cn_flushPrev node)).

(** The parent's count of a child goes down. *)
Definition drop_child (child parent : Hash) : GM DB unit :=
  let* p := dirty parent in
  match cn_children p with
  | None => gret tt
  | Some cs =>
      let count := default 0 (cs !! child) in
      if count >? 0 then
        if uint16 (count - 1) =? 0 then
          put_dirty parent (set_children (delete child cs) p) ;;;
          gput (add_childrenSize (- (HashLength + 2)))
        else put_dirty parent (set_children (<[child := uint16 (count - 1)]> cs) p)
      else gret tt
  end.

Section cascade.
Context (dereference : Hash -> Hash -> GM DB unit).

Fixpoint dereference_all (children : list Hash) (parent : Hash) : GM DB unit :=
  match children with
  | [] => gret tt
  | h :: hs => dereference h parent ;;; dereference_all hs parent
  end.
End cascade.

Fixpoint dereference (fuel : nat) (child parent : Hash) : GM DB unit :=
  match fuel with
  | O => fun _ => NoFuel
  | S fuel =>
      drop_child child parent ;;;
      let* m := gget db_dirties in
      match m !! child with
      | None => gret tt
      | Some node =>
          let node := if cn_parents node >? 0 then set_parents (cn_parents node - 1) node else node in
          put_dirty child node ;;;
          if cn_parents node =? 0 then
            unlink child node ;;;
            dereference_all (dereference fuel) (forChilds node) child ;;;
            gput (fun d => set_dirties (delete child (db_dirties d)) d) ;;;
            gput (add_dirtiesSize (- (HashLength + cn_size node))) ;;;
            match cn_children node with Some _ => gput (add_childrenSize (- cachedNodeChildrenSize)) | None => gret tt end
          else gret tt
      end
  end.

(** [len(db.dirties)]. *)
Definition dirty_count (d : DB) : Z := Z.of_nat (base.size (db_dirties d)).

(** A chain of references through nodes in memory is no longer than their number. *)
Definition db_fuel (d : DB) : nat := S (base.size (db_dirties d)).

Definition Dereference (root : Hash) : GM DB unit :=
  if root =? 0 then gret tt
  else
    let* fuel := gget db_fuel in
    let* nodes := gget dirty_count in
    let* storage := gget db_dirtiesSize in
    dereference fuel root 0 ;;;
    gput (fun d => add_gc (nodes - dirty_count d) (storage - db_dirtiesSize d) d).

(** *** Writing to disk *)

Inductive disk_error : Type := ErrDiskWrite.

(** [batch.Write]: whether it went well. *)
Definition batch_Write (batch : Batch) : GM DB bool :=
  let* disk := gget db_disk in
  if disk_accepts disk batch then
    gput (set_disk (fold_left (fun m e => <[fst e := snd e]> m) batch disk)) ;;; gret true
  else gret false.

(** What the children of a node take. *)
Definition children_memory (n : cachedNode) : Z :=
  match cn_children n with
  | Some cs => cachedNodeChildrenSize + Z.of_nat (base.size cs) * (HashLength + 2)
  | None => 0
  end.

(** [len(n.children)]. *)
Definition children_len (n : cachedNode) : Z :=
  match cn_children n with Some cs => Z.of_nat (base.size cs) | None => 0 end.

(** [Size], of the nodes. *)
Definition db_Size : GM DB Z :=
  let* d := gget id in
  let* metaroot := dirty 0 in
  gret (db_dirtiesSize d + db_childrenSize d + (dirty_count d - 1) * cachedNodeSize - children_len metaroot * (HashLength + 2)).

(** The first loop of [Cap]: where in the flush list it stops, and the rest of the
    batch. *)
Fixpoint cap_flush (fuel : nat) (limit size : Z) (oldest : Hash) (batch : Batch) : GM DB ((Hash * Batch) + disk_error) :=
  match fuel with
  | O => fun _ => NoFuel
  | S fuel =>
      if (size >? limit) && negb (oldest =? 0) then
        let* node := dirty oldest in
        let* rlp := gpure (cachedNode_rlp node) in
        let batch := batch ++ [(oldest, rlp)] in
        let* batch := (if ValueSize batch >=? IdealBatchSize then
                         let* ok := batch_Write batch in gret (if ok : bool then Some [] else None)
                       else gret (Some batch)) in
        match batch with
        | None => gret (inr ErrDiskWrite)
        | Some batch =>
            cap_flush fuel limit (size - (HashLength + cn_size node + cachedNodeSize) - children_memory node) (cn_flushNext node) batch
        end
      else gret (inl (oldest, batch))
  end.

(** The second loop: what was flushed is forgotten. *)
Fixpoint cap_clear (fuel : nat) (oldest : Hash) : GM DB unit :=
  match fuel with
  | O => fun _ => NoFuel
  | S fuel =>
      let* first := gget db_oldest in
      if first =? oldest then gret tt
      else
        let* node := dirty first in
        gput (fun d => set_dirties (delete first (db_dirties d)) d) ;;;
        gput (set_oldest (cn_flushNext node)) ;;;
        gput (add_dirtiesSize (- (HashLength + cn_size node))) ;;;
        gput (add_childrenSize (- children_memory node)) ;;;
        cap_clear fuel oldest
  end.

(** [Cap], without preimages. *)
Definition Cap (limit : Z) : GM DB (option disk_error) :=
  let* fuel := gget db_fuel in
  let* nodes := gget dirty_count in
  let* storage := gget db_dirtiesSize in
  let* size := db_Size in
  let* oldest := gget db_oldest in
  let* r := cap_flush fuel limit size oldest [] in
  match r with
  | inr err => gret (Some err)
  | inl (oldest, batch) =>
      let* ok := batch_Write batch in
      if negb ok then gret (Some ErrDiskWrite)
      else
        cap_clear fuel oldest ;;;
        let* first := gget db_oldest in
        (if negb (first =? 0) then on_dirty first (set_flushPrev 0) else gret tt) ;;;
        gput (fun d => add_flush (nodes - dirty_count d) (storage - db_dirtiesSize d) d) ;;;
        gret None
  end.

(** *** Committing *)

(** [cleaner.Put]: a node that was written leaves the memory. *)
Definition cleaner_Put (hash : Hash) (rlp : list byte) : GM DB unit :=
  let* m := gget db_dirties in
  match m !! hash with
  | None => gret tt
  | Some node =>
      unlink hash node ;;;
      gput (fun d => set_dirties (delete hash (db_dirties d)) d) ;;;
      gput (add_dirtiesSize (- (HashLength + cn_size node))) ;;;
      gput (add_childrenSize (- children_memory node)) ;;;
      gput (fun d => set_cleans (option_map (fun c => cache_Set c hash rlp) (db_cleans d)) d)
  end.

(** [batch.Replay] with the cleaner. *)
Fixpoint batch_Replay (batch : Batch) : GM DB unit :=
  match batch with
  | [] => gret tt
  | (hash, rlp) :: batch => cleaner_Put hash rlp ;;; batch_Replay batch
  end.

Section commit_all.
Context (commit : Hash -> Batch -> GM DB (Batch + disk_error)).

Fixpoint commit_all (hashes : list Hash) (batch : Batch) : GM DB (Batch + disk_error) :=
  match hashes with
  | [] => gret (inl batch)
  | h :: hs =>
      let* r := commit h batch in
      match r with
      | inl batch => commit_all hs batch
      | inr err => gret (inr err)
      end
  end.
End commit_all.

(** [commit]: the children first. *)
Fixpoint commit (fuel : nat) (hash : Hash) (batch : Batch) : GM DB (Batch + disk_error) :=
  match fuel with
  | O => fun _ => NoFuel
  | S fuel =>
      let* m := gget db_dirties in
      match m !! hash with
      | None => gret (inl batch)
      | Some node =>
          let* r := commit_all (commit fuel) (forChilds node) batch in
          match r with
          | inr err => gret (inr err)
          | inl batch =>
              let* rlp := gpure (cachedNode_rlp node) in
              let batch := batch ++ [(hash, rlp)] in
              if ValueSize batch >=? IdealBatchSize then
                let* ok := batch_Write batch in
                if negb ok then gret (inr ErrDiskWrite)
                else batch_Replay batch ;;; gret (inl [])
              else gret (inl batch)
          end
      end
  end.

(** [Commit], without preimages. *)
Definition Commit (node : Hash) : GM DB (option disk_error) :=
  let* fuel := gget db_fuel in
  let* r := commit fuel node [] in
  match r with
  | inr err => gret (Some err)
  | inl batch =>
      let* ok := batch_Write batch in
      if negb ok then gret (Some ErrDiskWrite)
      else
        batch_Replay batch ;;;
        gput reset_statistics ;;;
        gret None
  end.

(** *** Sets of nodes *)

Fixpoint bytes_leb (a b : list byte) : bool :=
  match a, b with
  | [], _ => true
  | _ :: _, [] => false
  | x :: a, y :: b => (byte_val x <? byte_val y) || (Byte.eqb x y && bytes_leb a b)
  end.

(** Paths in descending order. *)
Definition path_after (a b : list byte * memoryNode) : Prop := bytes_leb (fst b) (fst a) = true.
#[export] Instance path_after_dec : RelDecision path_after.
Proof. intros a b. unfold path_after. apply bool_eq_dec. Defined.

(** [forEachWithOrder]. *)
Definition descending (s : NodeSet) : list (list byte * memoryNode) :=
  merge_sort path_after (map_to_list (ns_nodes s)).

Fixpoint insert_nodes (l : list (list byte * memoryNode)) : GM DB unit :=
  match l with
  | [] => gret tt
  | (_, n) :: l =>
      (if isDeleted n then gret tt else db_insert (mn_hash n) (mn_size n) (mn_node n)) ;;;
      insert_nodes l
  end.

Fixpoint insert_sets (l : list NodeSet) : GM DB unit :=
  match l with
  | [] => gret tt
  | s :: l => insert_nodes (descending s) ;;; insert_sets l
  end.

(** The accounts among the leaves are linked with their storage. *)
Fixpoint link_leaves (l : list (list byte * Hash)) : GM DB (option stream_error) :=
  match l with
  | [] => gret None
  | (blob, parent) :: l =>
      let* account := gpure (DecodeBytes decode_account blob) in
      match account with
      | inr err => gret (Some err)
      | inl (_, _, root, _) =>
          (if negb (root =? EmptyRootHash) then reference root parent else gret tt) ;;;
          link_leaves l
      end
  end.

(** The sets in the order they are inserted: the account trie last. *)
Definition update_order (nodes : MergedNodeSet) : list NodeSet :=
  omap (fun o => nodes !! o) (hash_order (dom (delete (0 : Hash) nodes))) ++ option_list (nodes !! (0 : Hash)).

(** [Update]. *)
Definition Update (nodes : MergedNodeSet) : GM DB (option stream_error) :=
  insert_sets (update_order nodes) ;;;
  match nodes !! (0 : Hash) with
  | Some set => link_leaves (ns_leaves set)
  | None => gret None
  end.

(** *** Reading *)

(** [Node]: a node as it is encoded; the error is that there is none. *)
Definition db_Node (hash : Hash) : GM DB (option (list byte)) :=
  if hash =? 0 then gret None
  else
    let* cleans := gget db_cleans in
    match cleans ≫= (fun c => cache_Get c hash) with
    | Some enc => gret (Some enc)
    | None =>
        let* m := gget db_dirties in
        match m !! hash with
        | Some dirty => let* rlp := gpure (cachedNode_rlp dirty) in gret (Some rlp)
        | None =>
            let* disk := gget db_disk in
            match disk !! hash with
            | Some enc =>
                if zlen enc =? 0 then gret None
                else
                  gput (fun d => set_cleans (option_map (fun c => cache_Set c hash enc) (db_cleans d)) d) ;;;
                  gret (Some enc)
            | None => gret None
            end
        end
    end.

(** [node]: a node as it is held in a trie; [None] is nil. *)
Definition db_node (hash : Hash) : GM DB (option node) :=
  let* cleans := gget db_cleans in
  match cleans ≫= (fun c => cache_Get c hash) with
  | Some enc => let* n := gpure (mustDecodeNode (Some (hash_bytes hash)) enc) in gret (Some n)
  | None =>
      let* m := gget db_dirties in
      match m !! hash with
      | Some dirty => let* n := gpure (cachedNode_obj hash dirty) in gret (Some n)
      | None =>
          let* disk := gget db_disk in
          match disk !! hash with
          | None => gret None
          | Some enc =>
              gput (fun d => set_cleans (option_map (fun c => cache_Set c hash enc) (db_cleans d)) d) ;;;
              let* n := gpure (mustDecodeNode (Some (hash_bytes hash)) enc) in gret (Some n)
          end
      end
  end.

(** [Nodes]: the hashes in memory. *)
Definition db_Nodes (d : DB) : list Hash := filter (fun h => h <> 0) (hash_order (dom (db_dirties d))).
End database.
