(* ===== verification/NodeGraph.v ===== *)
(** * The graph of trie nodes and the flush list

    What the database of trie nodes is verified against: nodes named by their hashes
    and the references between them, counted with multiplicity; the flush list as a
    doubly linked list in a map.

    The invariant: every node in memory is in the flush list after the nodes it refers
    to, unless those are on disk; a node that is not on disk has at least as many parents
    as there are references to it; the disk has everything its nodes refer to. *)

From Stdlib Require Import Strings.Byte.
From S2P Require Import Prelude.
From S2P Require Import Common.
From S2P Require Import Rlp.
From S2P Require Import TrieNode.
From S2P Require Import TrieCommit.
From S2P Require Import NodeDatabase.

(** ** Counting *)

(** How often an element occurs. *)
Definition times (h : Hash) (l : list Hash) : nat := length (filter (fun x => x = h) l).

Lemma times_nil h : times h [] = 0%nat.
Proof. done. Qed.

Lemma times_cons h x l : times h (x :: l) = ((if decide (x = h) then 1 else 0) + times h l)%nat.
Proof. unfold times. rewrite filter_cons. by case_decide. Qed.

Lemma times_app h a b : times h (a ++ b) = (times h a + times h b)%nat.
Proof. unfold times. by rewrite list.filter_app, length_app. Qed.

Lemma times_perm h a b : a ≡ₚ b -> times h a = times h b.
Proof. intros H. unfold times. by rewrite H. Qed.

Lemma times_elem h l : h ∈ l <-> (0 < times h l)%nat.
Proof.
  induction l as [|x l IH]; [split; [by intros ?%elem_of_nil|cbn; lia]|].
  rewrite elem_of_cons, times_cons, IH. case_decide; split; intros H'; try (destruct H'; congruence || lia); try (left; congruence); right; lia.
Qed.

Lemma times_length h l : (times h l <= length l)%nat.
Proof. apply length_filter. Qed.

(** ** Order in a list *)

(** [a] comes before [b]. *)
Definition older (L : list Hash) (a b : Hash) : Prop := exists l1 l2, L = l1 ++ b :: l2 /\ a ∈ l1.

Lemma older_elem L a b : older L a b -> a ∈ L /\ b ∈ L.
Proof. intros (l1 & l2 & -> & H). split; apply elem_of_app; [by left|right; by left]. Qed.

Lemma older_snoc L a b x : older L a b -> older (L ++ [x]) a b.
Proof. intros (l1 & l2 & -> & H). exists l1, (l2 ++ [x]). by rewrite <- app_assoc. Qed.

Lemma older_last L a x : a ∈ L -> older (L ++ [x]) a x.
Proof. intros H. by exists L, []. Qed.

Lemma older_remove l1 x l2 a b : older (l1 ++ x :: l2) a b -> a <> x -> b <> x -> older (l1 ++ l2) a b.
Proof.
  intros (k1 & k2 & He & Ha) Hax Hbx. apply app_eq_app in He as [l [[-> He]|[-> He]]].
  - destruct l as [|y l]; [by injection He as ->|]. injection He as -> He. exists k1, (l ++ l2). rewrite <- app_assoc. done.
  - destruct l as [|y l]; [by injection He as ->|]. injection He as -> ->. exists (l1 ++ l), k2. rewrite <- app_assoc. split; [done|].
    apply elem_of_app. apply elem_of_app in Ha as [Ha|[->|Ha]%elem_of_cons]; [by left|done|by right].
Qed.

Lemma older_head x L a : NoDup (x :: L) -> ~ older (x :: L) a x.
Proof.
  intros [Hx _]%list.NoDup_cons (l1 & l2 & He & Ha). destruct l1 as [|y l1]; [by apply elem_of_nil in Ha|].
  injection He as -> ->. apply Hx, elem_of_app. right. by left.
Qed.

(** Of a part that comes first. *)
Lemma older_prefix F R a b : NoDup (F ++ b :: R) -> older (F ++ b :: R) a b -> a ∈ F.
Proof.
  intros Hnd (l1 & l2 & He & Ha). apply app_eq_app in He as [l [[-> He]|[-> He]]].
  - destruct l as [|y l]; [rewrite app_nil_r; done|]. injection He as -> He. apply elem_of_app. by left.
  - destruct l as [|y l]; [by rewrite app_nil_r in Ha|]. injection He as -> ->. exfalso.
    apply list.NoDup_app in Hnd as (_ & _ & Hnd). apply list.NoDup_cons in Hnd as [Hn _]. apply Hn, elem_of_app. right. by left.
Qed.

(** ** The flush list *)

(** The nodes [L] are linked, the first one back to [pr] (to anything, if there is
    none) and the last one on to [nx]. *)
Fixpoint dlist (m : gmap Hash cachedNode) (pr : option Hash) (L : list Hash) (nx : Hash) : Prop :=
  match L with
  | [] => True
  | h :: L' =>
      exists n, m !! h = Some n /\ (forall p, pr = Some p -> cn_flushPrev n = p) /\ cn_flushNext n = default nx (head L') /\
        dlist m (Some h) L' nx
  end.

Definition last_or (pr : option Hash) (L : list Hash) : option Hash := match list.last L with Some h => Some h | None => pr end.

Lemma last_or_cons pr h L : last_or pr (h :: L) = last_or (Some h) L.
Proof. unfold last_or. rewrite last_cons. by destruct (list.last L). Qed.

Lemma dlist_app m a : forall pr b nx, dlist m pr (a ++ b) nx <-> dlist m pr a (default nx (head b)) /\ dlist m (last_or pr a) b nx.
Proof.
  induction a as [|h a IH]; intros pr b nx; cbn [app dlist]; [by unfold last_or; cbn; tauto|]. setoid_rewrite IH. rewrite last_or_cons.
  assert (default nx (head (a ++ b)) = default (default nx (head b)) (head a)) as -> by by destruct a.
  split; [intros (n & H1 & H2 & H3 & H4 & H5)|intros ((n & H1 & H2 & H3 & H4) & H5)]; [split; [|done]|]; exists n; tauto.
Qed.

(** Links are read from the entries of the list only. *)
Definition same_links (n n' : cachedNode) : Prop := cn_flushPrev n' = cn_flushPrev n /\ cn_flushNext n' = cn_flushNext n.

Lemma dlist_frame m m' L : forall pr nx,
  (forall h n, h ∈ L -> m !! h = Some n -> exists n', m' !! h = Some n' /\ same_links n n') -> dlist m pr L nx -> dlist m' pr L nx.
Proof.
  induction L as [|h L IH]; intros pr nx H; [done|]. cbn [dlist]. intros (n & Hn & Hp & Hx & Hd).
  destruct (H h n ltac:(by left) Hn) as (n' & Hn' & H1 & H2). exists n'. rewrite H1, H2. split_and!; [done..|]. apply IH; [|done].
  intros h' k Hh'. apply H. by right.
Qed.

Lemma dlist_other m L pr nx h n : h ∉ L -> dlist m pr L nx -> dlist (<[h := n]> m) pr L nx.
Proof.
  intros Hh. apply dlist_frame. intros h' n' Hh' Hl. exists n'. rewrite lookup_insert_ne by set_solver. by split.
Qed.

Lemma dlist_delete m L pr nx h : h ∉ L -> dlist m pr L nx -> dlist (delete h m) pr L nx.
Proof.
  intros Hh. apply dlist_frame. intros h' n' Hh' Hl. exists n'. rewrite lookup_delete_ne by set_solver. by split.
Qed.

(** The first node gets another predecessor. *)
Lemma dlist_set_prev m h L p pr n nx : h ∉ L -> m !! h = Some n -> dlist m pr (h :: L) nx ->
  dlist (<[h := set_flushPrev p n]> m) (Some p) (h :: L) nx.
Proof.
  intros Hh Hn. cbn [dlist]. intros (n' & Hn' & _ & Hx & Hd). rewrite Hn in Hn'. injection Hn' as <-.
  exists (set_flushPrev p n). rewrite lookup_insert_eq. split_and!; [done|by intros ? [= ->]|done|]. by apply dlist_other.
Qed.

(** The last node gets another successor. *)
Lemma dlist_set_next m h L x pr n nx : h ∉ L -> m !! h = Some n -> dlist m pr (L ++ [h]) nx ->
  dlist (<[h := set_flushNext x n]> m) pr (L ++ [h]) x.
Proof.
  intros Hh Hn. rewrite !dlist_app. intros [H1 (n' & Hn' & Hp & _)]. rewrite Hn in Hn'. injection Hn' as <-. split.
  - by apply dlist_other.
  - exists (set_flushNext x n). rewrite lookup_insert_eq. by split_and!.
Qed.

Lemma dlist_any_prev m pr L nx : dlist m pr L nx -> dlist m None L nx.
Proof. destruct L as [|h L]; [done|]. intros (n & Hn & _ & H). by exists n. Qed.

Lemma dlist_entry m pr L1 h L2 nx : dlist m pr (L1 ++ h :: L2) nx ->
  exists n, m !! h = Some n /\ (forall p, last_or pr L1 = Some p -> cn_flushPrev n = p) /\ cn_flushNext n = default nx (head L2).
Proof. rewrite dlist_app. intros [_ (n & Hn & Hp & Hx & _)]. by exists n. Qed.

(** The nodes there are, by their hashes: what they are, the roots of the storage tries
    of the accounts in them, and a measure of their height. *)
Class NodeUniverse : Type := {
  content : Hash -> rawtrie;
  storage : Hash -> list Hash;
  height : Hash -> nat
}.

(** What a node refers to. *)
Definition refs {U : NodeUniverse} (h : Hash) : list Hash := forGatherChildren (content h) ++ storage h.

(** References are to smaller nodes, and no hash is zero. *)
Class NodeUniverseLaws (U : NodeUniverse) : Prop := {
  refs_height h c : c ∈ refs h -> (height c < height h)%nat;
  refs_nonzero h c : c ∈ refs h -> c <> 0;
  content_node h : content h <> rawNil
}.

(** What can be reached by references. *)
Inductive reachable {U : NodeUniverse} (r : Hash) : Hash -> Prop :=
| reachable_self : reachable r r
| reachable_ref h c : reachable r h -> c ∈ refs h -> reachable r c.

Section invariant.
Context {C : Type} {CC : CleanCache C} {HO : HashOrder} {U : NodeUniverse}.
Notation DB := (Database C).

Definition on_disk (d : DB) (h : Hash) : Prop := is_Some (db_disk d !! h).

(** The children of an entry. *)
Definition kids_of (m : gmap Hash cachedNode) (h : Hash) : list Hash :=
  match m !! h with Some n => forChilds n | None => [] end.

(** The references from the nodes of the list. *)
Definition uses (m : gmap Hash cachedNode) (L : list Hash) (h : Hash) : nat := times h (L ≫= kids_of m).

(** The flush list is [L]; the nodes of [D] have left it and are about to go. *)
Record shaped (d : DB) (L D : list Hash) : Prop := {
  sh_nodup : NoDup (0 :: L ++ D);
  sh_dom : forall h, is_Some (db_dirties d !! h) <-> h ∈ 0 :: L ++ D;
  sh_list : dlist (db_dirties d) None L 0;
  sh_oldest : db_oldest d = default 0 (head L);
  sh_newest : forall h, list.last L = Some h -> db_newest d = h;
  sh_meta : exists n cs, db_dirties d !! (0 : Hash) = Some n /\ cn_children n = Some cs
}.

(** References from outside are in [owed]; [late] lists references to storage tries
    that are still to be counted; no node has more than [spent] parents. *)
Record counted (d : DB) (L : list Hash) (owed : Hash -> nat) (late : list (Hash * Hash)) (spent : Z) : Prop := {
  ct_node : forall h n, h ∈ L -> db_dirties d !! h = Some n ->
    cn_node n = content h /\ forall cs c k, cn_children n = Some cs -> cs !! c = Some k -> c ∈ storage h /\ k = 1;
  ct_parents : forall h n, h ∈ L -> db_dirties d !! h = Some n -> 0 <= cn_parents n <= spent;
  ct_old : forall h c, h ∈ L -> c ∈ refs h ->
    on_disk d c \/ (older L c h /\ (c ∈ kids_of (db_dirties d) h \/ (h, c) ∈ late));
  ct_count : forall h n, h ∈ L -> db_dirties d !! h = Some n ->
    on_disk d h \/ Z.of_nat (uses (db_dirties d) L h + owed h) <= cn_parents n;
  ct_owed : forall h, (0 < owed h)%nat -> h ∈ L \/ on_disk d h;
  ct_disk : forall h b, db_disk d !! h = Some b -> b = nodeToBytes (content h) /\ forall c, c ∈ refs h -> on_disk d c;
  ct_clean : forall c h b, db_cleans d = Some c -> cache_Get c h = Some b -> db_disk d !! h = Some b
}.

(** A node in memory is encoded as it was put there. *)
Lemma entry_rlp `{!NodeUniverseLaws U} d L owed late spent h n :
  counted d L owed late spent -> h ∈ L -> db_dirties d !! h = Some n -> cachedNode_rlp n = Ret (nodeToBytes (content h)).
Proof.
  intros Hc Hh Hn. unfold cachedNode_rlp. rewrite (proj1 (ct_node _ _ _ _ _ Hc h n Hh Hn)).
  pose proof (content_node h) as Hnil. by destruct (content h).
Qed.

(** ** Entries *)

(** What is counted of an entry. *)
Definition tally (n : cachedNode) : rawtrie * Z * option (gmap Hash Z) := (cn_node n, cn_parents n, cn_children n).

Definition same_tally (m m' : gmap Hash cachedNode) (L : list Hash) : Prop :=
  forall h, h ∈ L -> tally <$> m' !! h = tally <$> m !! h.

Lemma tally_forChilds n n' : tally n = tally n' -> forChilds n = forChilds n'.
Proof. unfold tally, forChilds. by intros [= -> _ ->]. Qed.

Lemma same_tally_kids m m' L h : same_tally m m' L -> h ∈ L -> kids_of m' h = kids_of m h.
Proof.
  intros H Hh. specialize (H h Hh). unfold kids_of. destruct (m' !! h), (m !! h); cbn in H; try done. apply tally_forChilds. congruence.
Qed.

Lemma bind_ext_in (f g : Hash -> list Hash) L : (forall h, h ∈ L -> f h = g h) -> (L ≫= f) = (L ≫= g).
Proof.
  induction L as [|x L IH]; intros H; [done|]. rewrite !bind_cons, (H x) by by left. f_equal. apply IH. intros h Hh. apply H. by right.
Qed.

Lemma same_tally_uses m m' L h : same_tally m m' L -> uses m' L h = uses m L h.
Proof. intros H. unfold uses. f_equal. apply bind_ext_in. intros x Hx. by apply (same_tally_kids _ _ L). Qed.

Lemma same_tally_entry m m' L h n' : same_tally m m' L -> h ∈ L -> m' !! h = Some n' ->
  exists n, m !! h = Some n /\ tally n = tally n'.
Proof.
  intros H Hh Hn. specialize (H h Hh). rewrite Hn in H. destruct (m !! h) as [n|] eqn:E; [|done]. exists n. split; [done|]. cbn in H. congruence.
Qed.

Lemma same_tally_other m L h n : h ∉ L -> same_tally m (<[h := n]> m) L.
Proof. intros Hh x Hx. by rewrite lookup_insert_ne by set_solver. Qed.

Lemma same_tally_put m L h n n' : m !! h = Some n -> tally n' = tally n -> same_tally m (<[h := n']> m) L.
Proof. intros Hn Ht x Hx. destruct (decide (x = h)) as [->|Hne]; [rewrite lookup_insert_eq, Hn; cbn; congruence|by rewrite lookup_insert_ne]. Qed.

Lemma same_tally_delete m L h : h ∉ L -> same_tally m (delete h m) L.
Proof. intros Hh x Hx. by rewrite lookup_delete_ne by set_solver. Qed.

Lemma same_tally_trans m1 m2 m3 L : same_tally m1 m2 L -> same_tally m2 m3 L -> same_tally m1 m3 L.
Proof. intros H1 H2 x Hx. by rewrite (H2 x Hx), (H1 x Hx). Qed.

Lemma counted_tally d d' L owed late spent : same_tally (db_dirties d) (db_dirties d') L -> db_disk d' = db_disk d ->
  db_cleans d' = db_cleans d -> counted d L owed late spent -> counted d' L owed late spent.
Proof.
  intros Ht Hd Hc []. split; unfold on_disk in *; rewrite ?Hd, ?Hc; try done.
  - intros h n' Hh Hn'. destruct (same_tally_entry _ _ _ _ _ Ht Hh Hn') as (n & Hn & [= E1 E2 E3]). rewrite <- E1, <- E3. by apply ct_node0.
  - intros h n' Hh Hn'. destruct (same_tally_entry _ _ _ _ _ Ht Hh Hn') as (n & Hn & [= E1 E2 E3]). rewrite <- E2. by apply (ct_parents0 h).
  - intros h c Hh Hcr. rewrite (same_tally_kids _ _ L) by done. by apply ct_old0.
  - intros h n' Hh Hn'. destruct (same_tally_entry _ _ _ _ _ Ht Hh Hn') as (n & Hn & [= E1 E2 E3]). rewrite <- E2, (same_tally_uses _ _ _ _ Ht). by apply ct_count0.
Qed.

(** Less may be owed, and more may be spent. *)
Lemma counted_weaken d L owed owed' late late' spent spent' : (forall h, (owed' h <= owed h)%nat) -> late ⊆ late' -> spent <= spent' ->
  counted d L owed late spent -> counted d L owed' late' spent'.
Proof.
  intros Ho Hl Hs []. split; try done.
  - intros h n Hh Hn. specialize (ct_parents0 h n Hh Hn). lia.
  - intros h c Hh Hc. destruct (ct_old0 h c Hh Hc) as [?|[? [?|?]]]; [by left|right; split; [done|by left]|right; split; [done|right; by apply Hl]].
  - intros h n Hh Hn. specialize (Ho h). destruct (ct_count0 h n Hh Hn); [by left|right; lia].
  - intros h Hh. apply ct_owed0. specialize (Ho h). lia.
Qed.

(** The children of an entry are references of its node. *)
Lemma kids_refs {HOL : HashOrderLaws HO} d L owed late spent h c : counted d L owed late spent -> h ∈ L ->
  c ∈ kids_of (db_dirties d) h -> c ∈ refs h.
Proof.
  intros Hc Hh. unfold kids_of. destruct (db_dirties d !! h) as [n|] eqn:E; [|by intros ?%elem_of_nil].
  destruct (ct_node _ _ _ _ _ Hc h n Hh E) as [Hn Hcs]. unfold forChilds, refs. rewrite Hn, !elem_of_app. intros [H|H]; [right|by left].
  destruct (cn_children n) as [cs|]; [|by apply elem_of_nil in H]. rewrite hash_order_perm, elem_of_elements, elem_of_dom in H.
  destruct H as [k Hk]. by apply (Hcs cs c k).
Qed.

(** ** Dropping a node from the list *)

Lemma uses_remove m l1 x l2 h : uses m (l1 ++ x :: l2) h = (uses m (l1 ++ l2) h + times h (kids_of m x))%nat.
Proof. unfold uses. rewrite !bind_app, bind_cons, !times_app. lia. Qed.

Lemma uses_elem m L x c : x ∈ L -> c ∈ kids_of m x -> (0 < uses m L c)%nat.
Proof. intros Hx Hc. unfold uses. apply times_elem, list_elem_of_bind. by exists x. Qed.

(** A node that is on disk, or that nothing refers to, may leave the list; its own
    references are owed for a while. *)
Lemma counted_remove {HOL : HashOrderLaws HO} d l1 x l2 owed spent : NoDup (l1 ++ x :: l2) -> counted d (l1 ++ x :: l2) owed [] spent ->
  on_disk d x \/ (uses (db_dirties d) (l1 ++ x :: l2) x + owed x = 0)%nat ->
  counted d (l1 ++ l2) (fun h => times h (kids_of (db_dirties d) x) + owed h)%nat [] spent.
Proof.
  intros Hnd Hc Hx. pose proof (fun c => kids_refs d _ owed [] spent x c Hc) as Hkr. destruct Hc as [c1 c2 c3 c4 c5 c6 c7].
  assert (forall h, h ∈ l1 ++ l2 -> h ∈ l1 ++ x :: l2) as Hin by (intros h; rewrite !elem_of_app, elem_of_cons; tauto).
  assert (x ∈ l1 ++ x :: l2) as Hxl by (apply elem_of_app; right; by left).
  assert (forall h, h ∈ l1 ++ x :: l2 -> h <> x -> h ∈ l1 ++ l2) as Hin' by (intros h; rewrite !elem_of_app, elem_of_cons; tauto).
  assert (x ∉ l1 ++ l2) as Hxn by (rewrite <- Permutation_middle in Hnd; by apply list.NoDup_cons in Hnd as [? _]).
  split; try done.
  - intros h n Hh Hn. apply c1; auto.
  - intros h n Hh Hn. apply (c2 h); auto.
  - intros h c Hh Hcr. destruct (c3 h c (Hin h Hh) Hcr) as [?|[Ho [Hk|?]]]; [by left| |by apply elem_of_nil in H].
    destruct (decide (c = x)) as [->|Hne].
    + left. destruct Hx as [?|Hx]; [done|]. exfalso. pose proof (uses_elem _ _ _ _ (Hin h Hh) Hk). lia.
    + right. split; [|by left]. apply (older_remove l1 x l2); [done|done|]. intros ->. done.
  - intros h n Hh Hn. destruct (c4 h n (Hin h Hh) Hn) as [?|Hle]; [by left|right]. rewrite uses_remove in Hle. lia.
  - intros h Hh. destruct (decide (h = x)) as [->|Hne].
    + right. destruct Hx as [?|Hx]; [done|]. destruct (decide (x ∈ kids_of (db_dirties d) x)) as [Hk|Hk].
      * pose proof (uses_elem _ _ _ _ Hxl Hk). lia.
      * rewrite times_elem in Hk. lia.
    + destruct (decide (h ∈ kids_of (db_dirties d) x)) as [Hk|Hk].
      * destruct (c3 x h Hxl (Hkr h Hxl Hk)) as [?|[Ho _]]; [by right|]. left. apply Hin'; [by apply (older_elem _ _ _ Ho)|done].
      * rewrite times_elem in Hk. destruct (c5 h ltac:(lia)); [left; by apply Hin'|by right].
Qed.
End invariant.
