(* ===== verification/NodeRemoval.v ===== *)
(** * Nodes that leave the memory: dereferencing *)

From Stdlib Require Import Strings.Byte.
From S2P Require Import Prelude.
From S2P Require Import Common.
From S2P Require Import Rlp.
From S2P Require Import TrieNode.
From S2P Require Import TrieCommit.
From S2P Require Import NodeDatabase.
From S2P Require Import NodeGraph.

Section removal.
Context {C : Type} {CC : CleanCache C} {HO : HashOrder} {HOL : HashOrderLaws HO} {U : NodeUniverse} {UL : NodeUniverseLaws U}.
Notation DB := (Database C).
Implicit Types (d : DB) (L D : list Hash) (h c hash child parent root x : Hash).

(** Entries keep what is counted, the disk and the cache stay. *)
Definition quiet (d d' : DB) : Prop :=
  (forall h, tally <$> db_dirties d' !! h = tally <$> db_dirties d !! h) /\ db_disk d' = db_disk d /\ db_cleans d' = db_cleans d.

Lemma quiet_refl d : quiet d d.
Proof. done. Qed.

Lemma quiet_trans d1 d2 d3 : quiet d1 d2 -> quiet d2 d3 -> quiet d1 d3.
Proof. intros (H1 & H2 & H3) (H4 & H5 & H6). split_and!; [intros h; by rewrite H4|congruence..]. Qed.

Lemma quiet_counted d d' L owed late spent : quiet d d' -> counted d L owed late spent -> counted d' L owed late spent.
Proof. intros (H1 & H2 & H3). apply counted_tally; [by intros h _|done..]. Qed.

Lemma quiet_put (d d' : DB) h n n' : db_dirties d !! h = Some n -> db_dirties d' = <[h := n']> (db_dirties d) -> tally n' = tally n ->
  db_disk d' = db_disk d -> db_cleans d' = db_cleans d -> quiet d d'.
Proof.
  intros Hn Hd Ht H1 H2. split_and!; [|done..]. intros x. rewrite Hd.
  destruct (decide (x = h)) as [->|Hne]; [rewrite lookup_insert_eq, Hn; cbn; congruence|by rewrite lookup_insert_ne].
Qed.

Lemma wp_dirty (Q : cachedNode -> DB -> Prop) d h n : db_dirties d !! h = Some n -> Q n d -> wp no_panic (dirty h) Q d.
Proof. intros Hn HQ. unfold dirty. apply wp_gbind, wp_gget. by rewrite Hn. Qed.

Lemma wp_on_dirty (Q : unit -> DB -> Prop) (d : DB) h f n : db_dirties d !! h = Some n ->
  Q tt (set_dirties (<[h := f n]> (db_dirties d)) d) -> wp no_panic (on_dirty h f) Q d.
Proof. intros Hn HQ. unfold on_dirty. apply wp_gbind, (wp_dirty _ _ _ n Hn). done. Qed.

(** The next links of the neighbours. *)
Lemma shaped_entry (d : DB) L D (h : Hash) : shaped d L D -> h ∈ 0 :: L ++ D -> exists n, db_dirties d !! h = Some n.
Proof. intros Hs Hh. by apply (sh_dom _ _ _ Hs). Qed.

(** Entries change, the links along the list are the new ones. *)
Lemma shaped_links (d d' : DB) L D L' D' : shaped d L D -> NoDup (0 :: L' ++ D') -> (forall h, h ∈ L' ++ D' <-> h ∈ L ++ D) ->
  (forall h, is_Some (db_dirties d' !! h) <-> is_Some (db_dirties d !! h)) ->
  (forall n, db_dirties d !! (0 : Hash) = Some n -> exists n', db_dirties d' !! (0 : Hash) = Some n' /\ (is_Some (cn_children n) -> is_Some (cn_children n'))) ->
  dlist (db_dirties d') None L' 0 -> db_oldest d' = default 0 (head L') -> (forall h, list.last L' = Some h -> db_newest d' = h) ->
  shaped d' L' D'.
Proof.
  intros [s1 s2 s3 s4 s5 (n & cs & Hn & Hcs)] Hnd Hin Hdom Hmeta Hl Ho Hw. split; try done.
  - intros h. rewrite Hdom, s2, !elem_of_cons, Hin. done.
  - destruct (Hmeta n Hn) as (n' & Hn' & Hc). rewrite Hcs in Hc. destruct (Hc ltac:(by eexists)) as [cs' Hcs']. by exists n', cs'.
Qed.

Lemma lookup_insert_some (m : gmap Hash cachedNode) h n n' : m !! h = Some n ->
  forall x, is_Some (<[h := n']> m !! x) <-> is_Some (m !! x).
Proof. intros Hn x. destruct (decide (x = h)) as [->|Hne]; [rewrite lookup_insert_eq, Hn; split; by eexists|by rewrite lookup_insert_ne]. Qed.

Lemma insert_meta (m : gmap Hash cachedNode) h n0 n1 (n : cachedNode) : m !! h = Some n0 -> cn_children n1 = cn_children n0 ->
  m !! (0 : Hash) = Some n -> exists n', <[h := n1]> m !! (0 : Hash) = Some n' /\ (is_Some (cn_children n) -> is_Some (cn_children n')).
Proof.
  intros Hn Hc H0. destruct (decide (h = 0)) as [->|Hne]; [exists n1; rewrite lookup_insert_eq, Hc; pose proof (eq_trans (eq_sym Hn) H0) as [= <-]; done|].
  exists n. by rewrite lookup_insert_ne.
Qed.

Lemma nodup_move (L1 : list Hash) x L2 D : NoDup (0 :: (L1 ++ x :: L2) ++ D) -> NoDup (0 :: (L1 ++ L2) ++ x :: D).
Proof.
  apply NoDup_Permutation_proper. constructor. rewrite <- !app_assoc. f_equiv. cbn. symmetry. apply Permutation_middle.
Qed.

Lemma elem_move (L1 : list Hash) x L2 D h : h ∈ (L1 ++ L2) ++ x :: D <-> h ∈ (L1 ++ x :: L2) ++ D.
Proof. set_solver. Qed.

Lemma unlink_ok d L1 x L2 D node : shaped d (L1 ++ x :: L2) D -> db_dirties d !! x = Some node ->
  wp no_panic (unlink x node) (fun _ d' => shaped d' (L1 ++ L2) (x :: D) /\ quiet d d') d.
Proof.
  intros Hs Hx. pose proof Hs as [s1 s2 s3 s4 s5 _]. pose proof (nodup_move _ _ _ _ s1) as Hnd. pose proof (dlist_entry _ _ _ _ _ _ s3) as (n & Hn & Hp & Hnx).
  rewrite Hx in Hn. injection Hn as <-. unfold unlink. apply wp_gbind, wp_gget, wp_gbind, wp_gget. rewrite s4.
  assert (forall h, h ∈ L1 ++ L2 -> h <> x) as Hne.
  { intros h Hh ->. apply list.NoDup_cons in Hnd as [_ Hnd]. apply list.NoDup_app in Hnd as (_ & Hd & _). apply (Hd x Hh). by left. }
  assert (0 <> x) as H0x by (intros <-; apply list.NoDup_cons in s1 as [Hz _]; apply Hz, elem_of_app; left; apply elem_of_app; right; by left).
  destruct L1 as [|a L1 _] using rev_ind.
  - cbn [app head default from_option]. rewrite Z.eqb_refl. apply wp_gbind, wp_gput.
    assert (exists ny, db_dirties d !! cn_flushNext node = Some ny) as [ny Hy].
    { rewrite Hnx. apply (shaped_entry _ _ _ _ Hs). destruct L2; [by left|]. right. apply elem_of_app. left. right. by left. }
    apply (wp_on_dirty _ _ _ _ ny); [done|]. cbn. split; [|by eapply quiet_put].
    cbn [app dlist] in s3. destruct s3 as (n' & Hn' & _ & _ & s3). rewrite Hx in Hn'. injection Hn' as <-.
    apply (shaped_links d _ (x :: L2) D); cbn; try done.
    + intros h. by rewrite (elem_move [] x L2 D).
    + by apply lookup_insert_some with ny.
    + intros n H0. by apply insert_meta with ny.
    + destruct L2 as [|y L2]; [done|]. cbn in Hnx. rewrite Hnx in *. apply (dlist_any_prev _ (Some 0)). apply (dlist_set_prev _ _ _ _ (Some x)); try done.
      apply list.NoDup_cons in Hnd as [_ Hnd]. cbn in Hnd. apply list.NoDup_cons in Hnd as [Hnd _]. set_solver.
    + intros h Hh. apply s5. cbn. destruct L2; [done|exact Hh].
  - assert ((x =? default 0 (head ((L1 ++ [a]) ++ x :: L2))) = false) as ->.
    { apply Z.eqb_neq. intros He. apply (Hne (default 0 (head ((L1 ++ [a]) ++ x :: L2)))); [|done]. destruct L1; cbn; [by left|by left]. }
    assert (cn_flushPrev node = a) as Ha by (apply Hp; unfold last_or; by rewrite last_snoc).
    assert (exists na, db_dirties d !! a = Some na) as [na Hna].
    { apply (shaped_entry _ _ _ _ Hs). right. apply elem_of_app. left. apply elem_of_app. left. apply elem_of_app. right. by left. }
    assert (a ∉ L1 /\ a ∉ L2) as [Ha1 Ha2].
    { apply list.NoDup_cons in Hnd as [_ Hnd]. apply list.NoDup_app in Hnd as (Hnd & _). rewrite <- app_assoc in Hnd. cbn in Hnd.
      rewrite <- Permutation_middle in Hnd. apply list.NoDup_cons in Hnd as [Hnd _]. set_solver. }
    rewrite dlist_app in s3. destruct s3 as [d1 (n' & Hn' & _ & _ & d2)]. rewrite Hx in Hn'. injection Hn' as <-. cbn [head default from_option] in d1.
    destruct L2 as [|y L2].
    + assert (db_newest d = x) as -> by (apply s5; by rewrite last_snoc). rewrite Z.eqb_refl, Ha. apply wp_gbind, wp_gput.
      apply (wp_on_dirty _ _ _ _ na); [done|]. cbn. split; [|by eapply quiet_put].
      apply (shaped_links d _ ((L1 ++ [a]) ++ [x]) D); cbn; try done.
      * intros h. by rewrite (elem_move _ x [] D).
      * by apply lookup_insert_some with na.
      * intros n H0. by apply insert_meta with na.
      * rewrite app_nil_r. by apply (dlist_set_next _ _ _ _ _ _ x).
      * rewrite s4, app_nil_r. by destruct L1.
      * intros h. rewrite app_nil_r, last_snoc. congruence.
    + assert ((x =? db_newest d) = false) as ->.
      { apply Z.eqb_neq. destruct (list.last (y :: L2)) as [w|] eqn:Ew; [|by apply last_None in Ew]. rewrite (s5 w); [|by rewrite last_app, last_cons, Ew].
        intros ->. apply (Hne w); [|done]. apply elem_of_app. right. by apply last_Some_elem_of. }
      cbn in Hnx. rewrite Ha, Hnx. apply wp_gbind, (wp_on_dirty _ _ _ _ na); [done|].
      assert (a <> y) as Hay by (intros ->; apply Ha2; by left).
      assert (exists ny, db_dirties d !! y = Some ny) as [ny Hy].
      { apply (shaped_entry _ _ _ _ Hs). right. apply elem_of_app. left. apply elem_of_app. right. right. by left. }
      apply (wp_on_dirty _ _ _ _ ny); [cbn; by rewrite lookup_insert_ne|]. cbn.
      assert (y ∉ L1 ++ [a] /\ y ∉ L2) as [Hy1 Hy2].
      { apply list.NoDup_cons in Hnd as [_ Hnd]. apply list.NoDup_app in Hnd as (Hnd & _). rewrite <- Permutation_middle in Hnd.
        apply list.NoDup_cons in Hnd as [Hnd _]. set_solver. }
      split.
      * apply (shaped_links d _ ((L1 ++ [a]) ++ x :: y :: L2) D); cbn; try done.
        -- intros h. by rewrite (elem_move _ x (y :: L2) D).
        -- intros h. rewrite (lookup_insert_some _ y ny); [|by rewrite lookup_insert_ne]. by apply lookup_insert_some with na.
        -- intros n H0. destruct (insert_meta _ a na (set_flushNext y na) n Hna eq_refl H0) as (n1 & H1 & C1).
           destruct (insert_meta _ y ny (set_flushPrev a ny) n1 ltac:(by rewrite lookup_insert_ne) eq_refl H1) as (n2 & H2 & C2). exists n2. split; auto.
        -- apply dlist_app. cbn [head default from_option]. split.
           ++ apply dlist_other; [done|]. by apply (dlist_set_next _ _ _ _ _ _ x).
           ++ unfold last_or. rewrite last_snoc. apply (dlist_set_prev _ _ _ _ (Some x)); [done|by rewrite lookup_insert_ne|].
              apply dlist_other; [|done]. set_solver.
        -- rewrite s4. by destruct L1.
        -- intros h Hh. apply s5. rewrite last_app in Hh |- *. rewrite last_cons. destruct (list.last (y :: L2)) eqn:E; [done|by apply last_None in E].
      * apply (quiet_trans _ (set_dirties (<[a := set_flushNext y na]> (db_dirties d)) d)); [by apply (quiet_put _ _ a na (set_flushNext y na))|].
        apply (quiet_put _ _ y ny (set_flushPrev a ny)); try done. cbn. by rewrite lookup_insert_ne.
Qed.

(** ** Dropping references *)

Definition owe (l : list Hash) (owed : Hash -> nat) (h : Hash) : nat := (times h l + owed h)%nat.

(** The nodes of [L] and the disk are as they were. *)
Definition keeps (d d' : DB) (L : list Hash) : Prop :=
  same_tally (db_dirties d) (db_dirties d') L /\ db_disk d' = db_disk d /\ db_cleans d' = db_cleans d.

Lemma keeps_counted d d' L owed late spent : keeps d d' L -> counted d L owed late spent -> counted d' L owed late spent.
Proof. intros (H1 & H2 & H3). by apply counted_tally. Qed.

(** Entries that are not in the list change their children. *)
Lemma shaped_children (d d' : DB) L D h n n' : shaped d L D -> h ∉ L -> db_dirties d !! h = Some n -> db_dirties d' = <[h := n']> (db_dirties d) ->
  is_Some (cn_children n') -> db_oldest d' = db_oldest d -> db_newest d' = db_newest d -> shaped d' L D.
Proof.
  intros Hs Hh Hn Hd Hc Ho Hw. pose proof Hs as [s1 s2 s3 s4 s5 s6]. apply (shaped_links d d' L D); rewrite ?Hd, ?Ho, ?Hw; try done.
  - by apply lookup_insert_some with n.
  - intros n0 H0. destruct (decide (h = 0)) as [->|Hne]; [exists n'; by rewrite lookup_insert_eq|exists n0; by rewrite lookup_insert_ne].
  - by apply dlist_other.
Qed.

(** An entry keeps its links. *)
Lemma shaped_put (d d' : DB) L D h n n' : shaped d L D -> db_dirties d !! h = Some n -> db_dirties d' = <[h := n']> (db_dirties d) ->
  same_links n n' -> (is_Some (cn_children n) -> is_Some (cn_children n')) -> db_oldest d' = db_oldest d -> db_newest d' = db_newest d -> shaped d' L D.
Proof.
  intros Hs Hn Hd Hl Hc Ho Hw. pose proof Hs as [s1 s2 s3 s4 s5 s6]. apply (shaped_links d d' L D); rewrite ?Hd, ?Ho, ?Hw; try done.
  - by apply lookup_insert_some with n.
  - intros n0 H0. destruct (decide (h = 0)) as [->|Hne]; [exists n'; rewrite lookup_insert_eq; pose proof (eq_trans (eq_sym Hn) H0) as [= <-]; done|exists n0; by rewrite lookup_insert_ne].
  - apply (dlist_frame (db_dirties d)); [|done]. intros x k _ Hk. destruct (decide (x = h)) as [->|Hne].
    + rewrite Hn in Hk. injection Hk as <-. exists n'. by rewrite lookup_insert_eq.
    + exists k. by rewrite lookup_insert_ne.
Qed.

Lemma drop_child_ok d L D child parent : shaped d L D -> parent ∈ 0 :: D ->
  wp no_panic (drop_child child parent) (fun _ d' => shaped d' L D /\ keeps d d' L) d.
Proof.
  intros Hs Hp. assert (parent ∉ L) as HpL.
  { intros HpL. pose proof (sh_nodup _ _ _ Hs) as Hnd. apply list.NoDup_cons in Hnd as [H0 Hnd]. apply list.NoDup_app in Hnd as (_ & Hnd & _). set_solver. }
  destruct (shaped_entry d L D parent Hs ltac:(set_solver)) as [n Hn].
  unfold drop_child. apply wp_gbind, (wp_dirty _ _ _ n Hn). destruct (cn_children n) as [cs|] eqn:Ecs; [|by split].
  assert (forall cs', shaped (set_dirties (<[parent := set_children cs' n]> (db_dirties d)) d) L D /\
    keeps d (set_dirties (<[parent := set_children cs' n]> (db_dirties d)) d) L) as Hput.
  { intros cs'. split; [by eapply shaped_children|]. split_and!; [by apply same_tally_other|done..]. }
  destruct (_ >? 0); [|by split]. destruct (_ =? 0).
  - apply wp_gbind, wp_gput, wp_gput. destruct (Hput (delete child cs)) as [[] ?]. by split.
  - apply wp_gput, Hput.
Qed.

(** One reference less, and one parent less. *)
Lemma kids_of_put (m : gmap Hash cachedNode) h n n' x : m !! h = Some n -> forChilds n' = forChilds n ->
  kids_of (<[h := n']> m) x = kids_of m x.
Proof.
  intros Hn Hf. unfold kids_of. destruct (decide (x = h)) as [->|Hne]; [by rewrite lookup_insert_eq, Hn|by rewrite lookup_insert_ne].
Qed.

Definition less_parents (n : cachedNode) : cachedNode := if cn_parents n >? 0 then set_parents (cn_parents n - 1) n else n.

Lemma less_parents_same n : cn_node (less_parents n) = cn_node n /\ cn_children (less_parents n) = cn_children n /\ same_links n (less_parents n).
Proof. unfold less_parents. by destruct (_ >? 0). Qed.

Lemma counted_less (d d' : DB) L owed spent child n : counted d L (owe [child] owed) [] spent -> child ∈ L -> db_dirties d !! child = Some n ->
  db_dirties d' = <[child := less_parents n]> (db_dirties d) -> db_disk d' = db_disk d -> db_cleans d' = db_cleans d ->
  counted d' L owed [] spent.
Proof.
  intros Hc Hin Hn Hd H1 H2. destruct (less_parents_same n) as (Ln & Lc & _).
  assert (forChilds (less_parents n) = forChilds n) as Hf by (unfold forChilds; by rewrite Ln, Lc).
  assert (forall h n', h ∈ L -> db_dirties d' !! h = Some n' ->
    exists n0, db_dirties d !! h = Some n0 /\ cn_node n' = cn_node n0 /\ cn_children n' = cn_children n0 /\
      (0 <= cn_parents n0 -> 0 <= cn_parents n' <= cn_parents n0 /\ (0 < cn_parents n0 -> h <> child \/ cn_parents n' = cn_parents n0 - 1) /\ (h <> child -> cn_parents n' = cn_parents n0))) as He.
  { intros h n' Hh. rewrite Hd. destruct (decide (h = child)) as [->|Hne].
    - rewrite lookup_insert_eq. intros [= <-]. exists n. split; [done|]. split; [done|]. split; [done|]. unfold less_parents.
      rewrite Z.gtb_ltb. destruct (0 <? cn_parents n) eqn:E; zbool; cbn; intros Hge; (split; [lia|split; [intros ?; first [lia|by right]|done]]).
    - rewrite lookup_insert_ne by done. intros Hn'. exists n'. split_and!; try done. intros ?. split; [lia|split; [by left|done]]. }
  assert (forall h, kids_of (db_dirties d') h = kids_of (db_dirties d) h) as Hk by (intros h; rewrite Hd; by apply (kids_of_put _ _ n)).
  assert (forall h, uses (db_dirties d') L h = uses (db_dirties d) L h) as Hu by (intros h; unfold uses; f_equal; by apply bind_ext_in).
  destruct Hc as [c1 c2 c3 c4 c5 c6 c7]. split; unfold on_disk in *; rewrite ?H1, ?H2; try done.
  - intros h n' Hh Hn'. destruct (He h n' Hh Hn') as (n0 & Hn0 & -> & -> & _). by apply c1.
  - intros h n' Hh Hn'. destruct (He h n' Hh Hn') as (n0 & Hn0 & _ & _ & Hp). pose proof (c2 h n0 Hh Hn0). destruct Hp; lia.
  - intros h c Hh Hcr. rewrite Hk. by apply c3.
  - intros h n' Hh Hn'. destruct (He h n' Hh Hn') as (n0 & Hn0 & _ & _ & Hp). rewrite Hu. pose proof (c2 h n0 Hh Hn0) as Hr.
    destruct (Hp ltac:(lia)) as (Hp1 & Hp2 & Hp3). destruct (c4 h n0 Hh Hn0) as [?|Hle]; [by left|right]. unfold owe in Hle. rewrite times_cons, times_nil in Hle.
    destruct (decide (child = h)) as [->|Hne]; [destruct (Hp2 ltac:(lia)) as [?|?]; [done|lia]|rewrite Hp3 by done; lia].
  - intros h Hh. apply c5. unfold owe. lia.
Qed.

(** A node whose entry is deleted was about to go. *)
Lemma shaped_delete (d d' : DB) L x D : shaped d L (x :: D) -> db_dirties d' = delete x (db_dirties d) ->
  db_oldest d' = db_oldest d -> db_newest d' = db_newest d -> shaped d' L D /\ x ∉ L.
Proof.
  intros [s1 s2 s3 s4 s5 (n & cs & Hn & Hcs)] Hd Ho Hw.
  assert (x ∉ 0 :: L ++ D) as Hx by (rewrite <- Permutation_middle in s1; rewrite Permutation_swap in s1; by apply list.NoDup_cons in s1 as [? _]).
  assert (x ∉ L) as HxL by set_solver. split; [|done]. split; rewrite ?Hd, ?Ho, ?Hw; try done.
  - rewrite <- Permutation_middle in s1; rewrite Permutation_swap in s1; by apply list.NoDup_cons in s1 as [_ ?].
  - intros h. destruct (decide (h = x)) as [->|Hne]; [rewrite lookup_delete_eq; split; [by intros []|done]|rewrite lookup_delete_ne by done; rewrite s2; set_solver].
  - by apply dlist_delete.
  - exists n, cs. split; [|done]. rewrite lookup_delete_ne; [done|]. intros ->. apply Hx. by left.
Qed.

Definition dropped (d : DB) (L D : list Hash) (owed : Hash -> nat) (spent : Z) (d' : DB) : Prop :=
  exists L', shaped d' L' D /\ counted d' L' owed [] spent /\ L' `sublist_of` L /\ db_disk d' = db_disk d /\ db_cleans d' = db_cleans d.

Lemma dereference_all_ok (deref : Hash -> Hash -> GM DB unit) D parent owed spent (bound : nat) hs : forall d L,
  (forall d L owed child, shaped d L D -> counted d L (owe [child] owed) [] spent -> child <> 0 -> (forall x, x ∈ D -> (height child < height x)%nat) ->
     (length L <= bound)%nat -> wp no_panic (deref child parent) (fun _ => dropped d L D owed spent) d) ->
  shaped d L D -> counted d L (owe hs owed) [] spent -> (forall h, h ∈ hs -> h <> 0 /\ forall x, x ∈ D -> (height h < height x)%nat) ->
  (length L <= bound)%nat -> wp no_panic (dereference_all deref hs parent) (fun _ => dropped d L D owed spent) d.
Proof.
  induction hs as [|h hs IH]; intros d L Hd Hs Hc Hh Hl; cbn [dereference_all].
  { exists L. split_and!; try done. }
  apply wp_gbind. eapply wp_mono.
  - apply (Hd d L (owe hs owed) h); try done; [|apply Hh; by left..].
    apply (counted_weaken d L (owe (h :: hs) owed) _ [] _ spent); [|done|lia|done]. intros x. unfold owe. rewrite !times_cons, times_nil. lia.
  - intros _ d1 (L1 & Hs1 & Hc1 & Hsub & Hdisk & Hcl). eapply wp_mono.
    + apply (IH d1 L1); try done; [intros x Hx; apply Hh; by right|]. pose proof (sublist_length _ _ Hsub). lia.
    + intros _ d2 (L2 & Hs2 & Hc2 & Hsub2 & Hdisk2 & Hcl2). exists L2. split_and!; try congruence; [done..|by etrans].
Qed.

Lemma dereference_ok fuel : forall d L D owed spent child parent,
  shaped d L D -> counted d L (owe [child] owed) [] spent -> parent ∈ 0 :: D -> child <> 0 ->
  (forall x, x ∈ D -> (height child < height x)%nat) -> (length L < fuel)%nat ->
  wp no_panic (dereference fuel child parent) (fun _ => dropped d L D owed spent) d.
Proof.
  induction fuel as [|fuel IH]; intros d L D owed spent child parent Hs Hc Hp H0 Hht Hf; [lia|]. cbn [dereference].
  apply wp_gbind. eapply wp_mono; [by apply (drop_child_ok d L D)|]. intros _ d1 [Hs1 Hk1]. pose proof (keeps_counted _ _ _ _ _ _ Hk1 Hc) as Hc1.
  destruct Hk1 as (_ & Hdisk1 & Hcl1). apply wp_gbind, wp_gget. destruct (db_dirties d1 !! child) as [n|] eqn:En.
  2: { exists L. split_and!; try done. apply (counted_weaken d1 L (owe [child] owed) _ [] _ spent); [unfold owe; lia|done|lia|done]. }
  assert (child ∈ L) as HcL.
  { assert (child ∈ 0 :: L ++ D) as Hin by (apply (sh_dom _ _ _ Hs1); by eexists). rewrite elem_of_cons, elem_of_app in Hin.
    destruct Hin as [?|[?|Hin]]; [done|done|]. specialize (Hht _ Hin). lia. }
  apply wp_gbind, wp_gput. fold (less_parents n). set (d2 := set_dirties (<[child := less_parents n]> (db_dirties d1)) d1).
  destruct (less_parents_same n) as (Ln & Lc & Ll).
  assert (shaped d2 L D) as Hs2.
  { pose proof Hs1 as [s1 s2 s3 s4 s5 s6]. apply (shaped_links d1 d2 L D); try done; cbn.
    - by apply lookup_insert_some with n.
    - intros n0 Hn0. exists n0. by rewrite lookup_insert_ne by done.
    - apply (dlist_frame (db_dirties d1)); [|done]. intros h k _ Hk. destruct (decide (h = child)) as [->|Hne].
      + rewrite En in Hk. injection Hk as <-. exists (less_parents n). by rewrite lookup_insert_eq.
      + exists k. by rewrite lookup_insert_ne. }
  assert (counted d2 L owed [] spent) as Hc2 by by eapply (counted_less d1 d2 L owed spent child n).
  assert (db_dirties d2 !! child = Some (less_parents n)) as En2 by (cbn; by rewrite lookup_insert_eq).
  destruct (cn_parents (less_parents n) =? 0) eqn:Ez; zbool; [|by exists L; split_and!].
  assert (on_disk d2 child \/ (uses (db_dirties d2) L child + owed child = 0)%nat) as Hfree.
  { destruct (ct_count _ _ _ _ _ Hc2 child _ HcL En2); [by left|right; lia]. }
  apply list_elem_of_split in HcL as (L1 & L2 & ->). apply wp_gbind. eapply wp_mono; [by apply (unlink_ok d2 L1 child L2 D)|].
  intros _ d3 [Hs3 Hq]. pose proof (counted_remove d2 L1 child L2 owed spent) as Hc3.
  assert (forall h, h ∈ forChilds (less_parents n) -> h ∈ refs child) as Hrefs.
  { intros h Hh. apply (kids_refs d2 (L1 ++ child :: L2) owed [] spent); [done|apply elem_of_app; right; by left|]. unfold kids_of. by rewrite En2. }
  assert (NoDup (L1 ++ child :: L2)) as Hnd by (pose proof (sh_nodup _ _ _ Hs2) as Hnd; apply list.NoDup_cons in Hnd as [_ Hnd]; by apply list.NoDup_app in Hnd as [? _]).
  specialize (Hc3 Hnd Hc2 Hfree). unfold kids_of in Hc3. rewrite En2 in Hc3. apply (quiet_counted _ _ _ _ _ _ Hq) in Hc3. destruct Hq as (_ & Hdisk3 & Hcl3).
  change (db_disk d2) with (db_disk d1) in Hdisk3. change (db_cleans d2) with (db_cleans d1) in Hcl3.
  rewrite length_app in Hf. cbn [length] in Hf. apply wp_gbind. eapply wp_mono.
  - apply (dereference_all_ok (dereference fuel) (child :: D) child owed spent (length (L1 ++ L2)) _ d3 (L1 ++ L2)); [|done|done| |done].
    + intros d' L' owed' c' Hs' Hc' H0' Hht' Hl'. apply IH; [done|done|right; by left|done|done|]. rewrite length_app in Hl'. lia.
    + intros h Hh. apply Hrefs in Hh. pose proof (refs_height _ _ Hh) as Hlt. split; [by apply (refs_nonzero child)|]. intros x [->|Hx]%elem_of_cons; [done|].
      specialize (Hht x Hx). lia.
  - intros _ d4 (L' & Hs4 & Hc4 & Hsub & Hdisk4 & Hcl4). apply wp_gbind, wp_gput, wp_gbind, wp_gput.
    assert (dropped d (L1 ++ child :: L2) D owed spent (add_dirtiesSize (- (HashLength + cn_size (less_parents n))) (set_dirties (delete child (db_dirties d4)) d4))) as Hdone.
    { destruct (shaped_delete d4 (set_dirties (delete child (db_dirties d4)) d4) L' child D Hs4) as [[] HxL]; try done. exists L'.
      split; [by split|]. split; [|split; [|cbn; split; congruence]].
      - apply (counted_tally d4); try done. by apply same_tally_delete.
      - etrans; [done|]. apply sublist_app; [done|]. by apply sublist_cons. }
    destruct (cn_children (less_parents n)); [|done]. apply wp_gput. destruct Hdone as (L0 & [] & [] & ? & ? & ?). exists L0. by split_and!.
Qed.
End removal.
