(* ===== verification/NodeInsertion.v ===== *)
(** * Nodes that enter the memory: inserting and referencing *)

From Stdlib Require Import Strings.Byte.
From S2P Require Import Prelude.
From S2P Require Import Common.
From S2P Require Import Rlp.
From S2P Require Import TrieNode.
From S2P Require Import TrieCommit.
From S2P Require Import NodeDatabase.
From S2P Require Import NodeGraph.
From S2P Require Import NodeRemoval.

Section insertion.
Context {C : Type} {CC : CleanCache C} {HO : HashOrder} {HOL : HashOrderLaws HO} {U : NodeUniverse} {UL : NodeUniverseLaws U}.
Notation DB := (Database C).
Implicit Types (d : DB) (L D : list Hash) (h c hash child parent root x : Hash).

(** ** Counting parents *)

Definition more_parents (k : nat) (n : cachedNode) : cachedNode := Nat.iter k (fun n => set_parents (uint32 (cn_parents n + 1)) n) n.

Lemma more_parents_same k n : cn_node (more_parents k n) = cn_node n /\ cn_children (more_parents k n) = cn_children n /\ same_links n (more_parents k n).
Proof. induction k as [|k IH]; [done|]. exact IH. Qed.

Lemma more_parents_value k n : 0 <= cn_parents n -> cn_parents n + Z.of_nat k < 2 ^ 32 -> cn_parents (more_parents k n) = cn_parents n + Z.of_nat k.
Proof.
  intros H0. induction k as [|k IH]; intros Hk; [cbn; lia|]. change (more_parents (S k) n) with (set_parents (uint32 (cn_parents (more_parents k n) + 1)) (more_parents k n)).
  cbn [cn_parents set_parents]. rewrite IH by lia. unfold uint32. rewrite Z.mod_small by lia. lia.
Qed.

Lemma more_parents_shift k n : more_parents k (set_parents (uint32 (cn_parents n + 1)) n) = more_parents (S k) n.
Proof. unfold more_parents. by rewrite Nat.iter_succ_r. Qed.

Lemma count_children_lookup hs : forall m x, count_children hs m !! x = more_parents (times x hs) <$> m !! x.
Proof.
  induction hs as [|h hs IH]; intros m x; cbn [count_children]; [by destruct (m !! x)|]. rewrite IH, times_cons.
  destruct (m !! h) as [n|] eqn:En.
  - destruct (decide (h = x)) as [->|Hne].
    + rewrite lookup_insert_eq, En. cbn [fmap option_fmap option_map]. f_equal. apply more_parents_shift.
    + by rewrite lookup_insert_ne by done.
  - case_decide as He; [|done]. subst. by rewrite En.
Qed.

(** ** Inserting a node *)

Lemma uses_snoc m L x h : uses m (L ++ [x]) h = (uses m L h + times h (kids_of m x))%nat.
Proof. unfold uses. rewrite bind_app, times_app, bind_cons. cbn. by rewrite app_nil_r. Qed.

Lemma uses_ext m m' L h : (forall x, x ∈ L -> kids_of m' x = kids_of m x) -> uses m' L h = uses m L h.
Proof. intros H. unfold uses. f_equal. by apply bind_ext_in. Qed.

(** Nothing refers to a node that is not there. *)
Lemma uses_absent d L owed late spent h : counted d L owed late spent -> h ∉ L -> ~ on_disk d h -> uses (db_dirties d) L h = 0%nat.
Proof.
  intros Hc Hh Hd. destruct (decide (uses (db_dirties d) L h = 0%nat)) as [|Hu]; [done|exfalso].
  assert (h ∈ L ≫= kids_of (db_dirties d)) as Hin by (apply times_elem; unfold uses in Hu; lia).
  apply list_elem_of_bind in Hin as (x & Hx & HxL). destruct (ct_old _ _ _ _ _ Hc x h HxL) as [?|[Ho _]]; [by eapply kids_refs|done|].
  by apply older_elem in Ho as [? _].
Qed.

Definition storage_refs (h : Hash) : list (Hash * Hash) := map (pair h) (storage h).

(** An entry keeps all that is counted but gets [k] parents more. *)
Definition entry_more (k : nat) (n n' : cachedNode) : Prop :=
  cn_node n' = cn_node n /\ cn_children n' = cn_children n /\ (0 <= cn_parents n -> cn_parents n + Z.of_nat k < 2 ^ 32 -> cn_parents n' = cn_parents n + Z.of_nat k).

Lemma counted_insert d d' L owed late spent hash : counted d L owed late spent -> hash ∉ L ->
  (forall c, c ∈ refs hash -> c ∈ L \/ on_disk d c) -> 0 <= spent -> spent + Z.of_nat (length (forGatherChildren (content hash))) < 2 ^ 32 ->
  (forall h n', h ∈ L -> db_dirties d' !! h = Some n' -> exists n, db_dirties d !! h = Some n /\ entry_more (times h (forGatherChildren (content hash))) n n') ->
  (forall h, h ∈ L -> is_Some (db_dirties d !! h) -> is_Some (db_dirties d' !! h)) -> (forall h, h ∈ L -> is_Some (db_dirties d !! h)) ->
  (exists n, db_dirties d' !! hash = Some n /\ cn_node n = content hash /\ cn_parents n = 0 /\ cn_children n = None) ->
  db_disk d' = db_disk d -> db_cleans d' = db_cleans d ->
  counted d' (L ++ [hash]) owed (late ++ storage_refs hash) (spent + Z.of_nat (length (forGatherChildren (content hash)))).
Proof.
  intros Hc Hh Href Hsp Hb He Hsome Hall (ne & Hne & En & Ep & Ec) H1 H2. pose proof Hc as [c1 c2 c3 c4 c5 c6 c7].
  set (g := forGatherChildren (content hash)) in *.
  assert (forall x, x ∈ L -> kids_of (db_dirties d') x = kids_of (db_dirties d) x) as Hk.
  { intros x Hx. unfold kids_of. destruct (Hsome x Hx (Hall x Hx)) as [n' Hn']. destruct (He x n' Hx Hn') as (n & Hn & E1 & E2 & _). rewrite Hn, Hn'. unfold forChilds. by rewrite E1, E2. }
  assert (kids_of (db_dirties d') hash = g) as Hkh by (unfold kids_of; rewrite Hne; unfold forChilds; by rewrite Ec, En).
  assert (forall h, uses (db_dirties d') (L ++ [hash]) h = (uses (db_dirties d) L h + times h g)%nat) as Hu by (intros h; by rewrite uses_snoc, Hkh, (uses_ext (db_dirties d))).
  assert (forall h, h ∈ L ++ [hash] -> h ∈ L \/ h = hash) as Hcase by (intros h; rewrite elem_of_app, list_elem_of_singleton; tauto).
  assert (forall h, (times h g <= length g)%nat) as Htl by (intros h; apply times_length).
  split; unfold on_disk in *; rewrite ?H1, ?H2; try done.
  - intros h n' [Hx| ->]%Hcase Hn'.
    + destruct (He h n' Hx Hn') as (n & Hn & -> & -> & _). by apply c1.
    + assert (n' = ne) as -> by congruence. split; [done|]. intros cs c k. by rewrite Ec.
  - intros h n' [Hx| ->]%Hcase Hn'.
    + destruct (He h n' Hx Hn') as (n & Hn & _ & _ & Hp). pose proof (c2 h n Hx Hn). specialize (Htl h). rewrite Hp by lia. lia.
    + assert (n' = ne) as -> by congruence. rewrite Ep. lia.
  - intros h c [Hx| ->]%Hcase Hcr.
    + rewrite Hk by done. destruct (c3 h c Hx Hcr) as [?|[Ho [?|Hl]]]; [by left|right; split; [by apply older_snoc|by left]|right; split; [by apply older_snoc|right; apply elem_of_app; by left]].
    + destruct (Href c Hcr) as [HcL|?]; [right|by left]. split; [by apply older_last|]. rewrite Hkh. unfold refs in Hcr. apply elem_of_app in Hcr as [?|Hs]; [by left|right].
      apply elem_of_app. right. unfold storage_refs. apply list_elem_of_In, in_map, list_elem_of_In. done.
  - intros h n' [Hx| ->]%Hcase Hn'; rewrite Hu.
    + destruct (He h n' Hx Hn') as (n & Hn & _ & _ & Hp). pose proof (c2 h n Hx Hn). specialize (Htl h). rewrite Hp by lia.
      destruct (c4 h n Hx Hn); [by left|right; lia].
    + destruct (decide (is_Some (db_disk d !! hash))) as [?|Hnd]; [by left|right]. rewrite (uses_absent d L owed late spent) by done.
      assert (times hash g = 0%nat) as ->.
      { destruct (decide (times hash g = 0%nat)) as [|Ht]; [done|exfalso]. assert (hash ∈ refs hash) as Hr by (unfold refs; apply elem_of_app; left; apply times_elem; fold g; lia).
        apply refs_height in Hr. lia. }
      assert (owed hash = 0%nat) as ->.
      { destruct (decide (owed hash = 0%nat)) as [|Ho]; [done|exfalso]. destruct (c5 hash ltac:(lia)); done. }
      assert (n' = ne) as -> by congruence. lia.
  - intros h Ho. destruct (c5 h Ho); [left; apply elem_of_app; by left|by right].
Qed.

Definition inserted (d : DB) (L : list Hash) (owed : Hash -> nat) (late : list (Hash * Hash)) (spent : Z) (hash : Hash) (d' : DB) : Prop :=
  exists L', shaped d' L' [] /\ counted d' L' owed (late ++ storage_refs hash) (spent + Z.of_nat (length (forGatherChildren (content hash)))) /\
    (forall h, h ∈ L' <-> h ∈ L \/ h = hash) /\ db_disk d' = db_disk d /\ db_cleans d' = db_cleans d.

Lemma shaped_not_dirty (d : DB) L D (h : Hash) : shaped d L D -> db_dirties d !! h = None -> h ∉ L.
Proof. intros Hs Hn Hh. destruct (shaped_entry d L D h Hs ltac:(set_solver)) as [n Hn']. congruence. Qed.

Lemma shaped_dirty (d : DB) L (h : Hash) n : shaped d L [] -> h <> 0 -> db_dirties d !! h = Some n -> h ∈ L.
Proof.
  intros Hs H0 Hn. assert (h ∈ 0 :: L ++ []) as Hin by (apply (sh_dom _ _ _ Hs); by eexists). rewrite app_nil_r in Hin. by apply elem_of_cons in Hin as [?|?].
Qed.

Lemma shaped_nonzero (d : DB) L D (h : Hash) : shaped d L D -> h ∈ L -> h <> 0.
Proof. intros Hs Hh ->. pose proof (sh_nodup _ _ _ Hs) as Hnd. apply list.NoDup_cons in Hnd as [H0 _]. set_solver. Qed.

Lemma db_insert_ok d L owed late spent hash size : shaped d L [] -> counted d L owed late spent -> hash <> 0 ->
  (forall c, c ∈ refs hash -> c ∈ L \/ on_disk d c) -> 0 <= spent -> spent + Z.of_nat (length (forGatherChildren (content hash))) < 2 ^ 32 ->
  wp no_panic (db_insert hash size (content hash)) (fun _ => inserted d L owed late spent hash) d.
Proof.
  intros Hs Hc H0 Href Hsp Hb. set (g := forGatherChildren (content hash)) in *. unfold db_insert. apply wp_gbind, wp_gget.
  destruct (db_dirties d !! hash) as [n0|] eqn:E0.
  { apply wp_gret. exists L. split; [done|]. split; [|split; [|done]].
    - apply (counted_weaken d L owed _ late _ spent); [done|by apply list_subseteq_app_l|fold g; lia|done].
    - intros h. pose proof (shaped_dirty d L hash n0 Hs H0 E0). split; [by left|by intros [?| ->]]. }
  pose proof (shaped_not_dirty _ _ _ _ Hs E0) as HhL. apply wp_gbind, wp_gget, wp_gbind, wp_gput, wp_gbind, wp_gput. cbn [forChilds cn_children cn_node app].
  set (entry := mkCached (content hash) (uint16 size) 0 None (db_newest d) 0). set (m1 := count_children g (db_dirties d)).
  change (forChilds entry) with ([] ++ g). cbn [app]. fold m1.
  apply wp_gbind, wp_gget. cbn [db_oldest set_dirties db_dirties].
  assert (forall x, x <> hash -> <[hash := entry]> m1 !! x = more_parents (times x g) <$> db_dirties d !! x) as Hlook.
  { intros x Hx. rewrite lookup_insert_ne by done. apply count_children_lookup. }
  pose proof Hs as [s1 s2 s3 s4 s5 s6].
  assert (dlist (<[hash := entry]> m1) None L 0) as Hd1.
  { apply dlist_other; [done|]. apply (dlist_frame (db_dirties d)); [|done]. intros h n Hh Hn. exists (more_parents (times h g) n).
    unfold m1. rewrite count_children_lookup, Hn. split; [done|]. apply more_parents_same. }
  assert (NoDup (0 :: (L ++ [hash]) ++ [])) as Hnd.
  { rewrite app_nil_r in s1 |- *. apply list.NoDup_cons in s1 as [Hz Hnd]. apply list.NoDup_cons. split; [set_solver|].
    apply list.NoDup_app. split; [done|]. split; [set_solver|]. apply NoDup_singleton. }
  assert (forall m : gmap Hash cachedNode, (forall x : Hash, x <> hash -> exists f, m !! x = f <$> db_dirties d !! x /\ (forall n, cn_children (f n) = cn_children n)) -> is_Some (m !! hash) ->
    (forall h, is_Some (m !! h) <-> h ∈ 0 :: (L ++ [hash]) ++ []) /\ (exists n cs, m !! (0 : Hash) = Some n /\ cn_children n = Some cs)) as Hdom.
  { intros m Hm Hhash. split.
    - intros h. destruct (decide (h = hash)) as [->|Hne]; [split; [set_solver|done]|]. destruct (Hm h Hne) as (f & -> & _). rewrite fmap_is_Some, s2. set_solver.
    - destruct s6 as (n & cs & Hn & Hcs). destruct (Hm (0 : Hash) (not_eq_sym H0)) as (f & Hf & Hch). exists (f n), cs. rewrite Hf, Hn, Hch. done. }
  assert (forall (m : gmap Hash cachedNode) (nw : Hash) (dd : DB), (forall x : Hash, x <> hash -> x ∈ L -> exists f, m !! x = f <$> db_dirties d !! x /\ forall n, entry_more (times x g) n (f n)) -> m !! hash = Some entry ->
    db_dirties dd = m -> db_disk dd = db_disk d -> db_cleans dd = db_cleans d -> nw = hash ->
    counted dd (L ++ [hash]) owed (late ++ storage_refs hash) (spent + Z.of_nat (length g))) as Hct.
  { intros m nw dd Hm Hhash Hdd H1 H2 _. apply (counted_insert d dd L owed late spent hash); rewrite ?Hdd; try done.
    - intros h n' Hh Hn'. destruct (Hm h ltac:(by intros ->) Hh) as (f & Hf & Hmore). rewrite Hf in Hn'.
      destruct (db_dirties d !! h) as [n|]; [|done]. injection Hn' as <-. by exists n.
    - intros h Hh [n Hn]. destruct (Hm h ltac:(by intros ->) Hh) as (f & -> & _). rewrite Hn. by eexists.
    - intros h Hh. destruct (shaped_entry d L [] h Hs ltac:(set_solver)) as [n Hn]. rewrite Hn. by eexists.
    - by exists entry. }
  assert (forall k n, entry_more k n (more_parents k n)) as Hem.
  { intros k n. destruct (more_parents_same k n) as (? & ? & _). split_and!; [done|done|]. apply more_parents_value. }
  destruct L as [|w L _] using rev_ind.
  - rewrite s4. cbn [head default from_option]. rewrite Z.eqb_refl. apply wp_gbind, wp_gput, wp_gbind, wp_gput, wp_gput. cbn. exists [hash].
    destruct (Hdom (<[hash := entry]> m1)) as [Hdom1 Hmeta1].
    { intros x Hx. exists (more_parents (times x g)). split; [by apply Hlook|]. intros n. apply more_parents_same. }
    { rewrite lookup_insert_eq. by eexists. }
    split_and!; try done.
    + split; cbn; try done.
      * exists entry. rewrite lookup_insert_eq. by split_and!.
      * by intros h [= ->].
    + apply (Hct (<[hash := entry]> m1) hash); try done; [by intros x _ ?%elem_of_nil|by rewrite lookup_insert_eq].
    + set_solver.
  - assert (default 0 (head (L ++ [w])) =? 0 = false) as Hoz.
    { apply Z.eqb_neq. assert (default 0 (head (L ++ [w])) ∈ L ++ [w]) as Hin by (destruct L; [by left|by left]). intros He. rewrite He in Hin.
      by apply (shaped_nonzero d _ _ _ Hs Hin). }
    rewrite s4, Hoz. assert (db_newest d = w) as Hw by (apply s5; by rewrite last_snoc).
    assert (w <> hash) as Hwh by (intros ->; apply HhL; set_solver).
    destruct (shaped_entry d (L ++ [w]) [] w Hs ltac:(set_solver)) as [nw Hnw].
    assert (<[hash := entry]> m1 !! w = Some (more_parents (times w g) nw)) as Hmw by (rewrite Hlook, Hnw by done; done).
    apply wp_gbind. rewrite Hw. apply (wp_on_dirty _ _ _ _ (more_parents (times w g) nw)); [exact Hmw|]. apply wp_gbind, wp_gput, wp_gput. cbn.
    set (m2 := <[w := _]> _). exists ((L ++ [w]) ++ [hash]).
    assert (m2 !! hash = Some entry) as Hm2 by (unfold m2; by rewrite lookup_insert_ne, lookup_insert_eq).
    assert (w ∉ L) as HwL.
    { rewrite app_nil_r in s1. apply list.NoDup_cons in s1 as [_ Hnd']. apply list.NoDup_app in Hnd' as (_ & Hd & _). intros Hin. by apply (Hd w Hin), list_elem_of_singleton. }
    assert (forall x : Hash, x <> hash -> exists f, m2 !! x = f <$> db_dirties d !! x /\ (forall n, entry_more (times x g) n (f n) /\ cn_children (f n) = cn_children n)) as Hf2.
    { intros x Hx. destruct (decide (x = w)) as [->|Hxw].
      - exists (fun n => set_flushNext hash (more_parents (times w g) n)). unfold m2. rewrite lookup_insert_eq, Hnw. split; [done|]. intros n. destruct (Hem (times w g) n) as (? & ? & ?). by split.
      - exists (more_parents (times x g)). unfold m2. rewrite lookup_insert_ne by done. split; [by apply Hlook|]. intros n. split; [done|]. apply more_parents_same. }
    destruct (Hdom m2) as [Hdom2 Hmeta2].
    { intros x Hx. destruct (Hf2 x Hx) as (f & Hf & Hp). exists f. split; [done|]. intros n. apply Hp. }
    { by eexists. }
    split_and!; try done.
    + split; cbn; try done.
      * apply dlist_app. split; [unfold m2; apply (dlist_set_next _ _ _ _ _ _ 0); [done|done|exact Hd1]|].
        exists entry. rewrite Hm2. unfold last_or. rewrite last_snoc. split_and!; try done. intros p [= <-]. exact Hw.
      * rewrite s4. by destruct L.
      * intros h. rewrite last_snoc. by intros [= ->].
    + apply (Hct m2 hash); cbn; try done. intros x Hx _. destruct (Hf2 x Hx) as (f & Hf & Hp). exists f. split; [done|]. intros n. apply Hp.
    + intros h. rewrite (elem_of_app (L ++ [w])), list_elem_of_singleton. done.
Qed.

(** ** Referencing *)

(** The late reference has been counted, or is to a node on disk. *)
Definition without (p : Hash * Hash) (late : list (Hash * Hash)) : list (Hash * Hash) := filter (fun q => q <> p) late.

Lemma without_elem p q late : q ∈ without p late <-> q ∈ late /\ q <> p.
Proof. unfold without. rewrite list_elem_of_filter. tauto. Qed.

Definition linked (d : DB) (L : list Hash) (owed : Hash -> nat) (late : list (Hash * Hash)) (spent : Z) (d' : DB) : Prop :=
  shaped d' L [] /\ counted d' L owed late spent /\ db_disk d' = db_disk d /\ db_cleans d' = db_cleans d.

(** A reference that is counted already, or need not be. *)
Lemma counted_without d L owed late spent parent child : counted d L owed late spent ->
  on_disk d child \/ child ∈ kids_of (db_dirties d) parent -> counted d L owed (without (parent, child) late) spent.
Proof.
  intros [c1 c2 c3 c4 c5 c6 c7] H. split; try done. intros h c Hh Hcr. destruct (c3 h c Hh Hcr) as [?|[Ho [?|Hl]]]; [by left|right; split; [done|by left]|].
  destruct (decide ((h, c) = (parent, child))) as [[= -> ->]|Hne]; [destruct H; [by left|right; split; [done|by left]]|].
  right. split; [done|right]. by apply without_elem.
Qed.

Lemma entry_ne d L owed late spent child parent : counted d L owed late spent -> child ∈ storage parent -> child <> parent.
Proof. intros _ Hs ->. assert (parent ∈ refs parent) as Hr by (unfold refs; apply elem_of_app; by right). apply refs_height in Hr. lia. Qed.

(** The tally after a child was linked to its parent. *)
Lemma counted_link (d d' : DB) L owed late spent (child parent : Hash) nc np cs : counted d L owed late spent -> NoDup L -> 0 <= spent -> spent + 1 < 2 ^ 32 ->
  child ∈ L -> parent ∈ L -> child ∈ storage parent -> db_dirties d !! child = Some nc -> db_dirties d !! parent = Some np ->
  cs = default ∅ (cn_children np) -> cs !! child = None ->
  (forall x, x ∈ L -> x <> child -> x <> parent -> db_dirties d' !! x = db_dirties d !! x) ->
  db_dirties d' !! child = Some (set_parents (cn_parents nc + 1) nc) ->
  db_dirties d' !! parent = Some (set_children (<[child := 1]> cs) np) ->
  db_disk d' = db_disk d -> db_cleans d' = db_cleans d -> counted d' L owed (without (parent, child) late) (spent + 1).
Proof.
  intros Hc Hnd Hsp Hb HcL HpL Hst Hnc Hnp Hcs Hnone Ho Hc' Hp' H1 H2. pose proof (entry_ne _ _ _ _ _ _ _ Hc Hst) as Hne. pose proof Hc as [c1 c2 c3 c4 c5 c6 c7].
  assert (forall x, x ∈ L -> x <> parent -> kids_of (db_dirties d') x = kids_of (db_dirties d) x) as Hk.
  { intros x Hx Hxp. unfold kids_of. destruct (decide (x = child)) as [->|Hxc]; [by rewrite Hc', Hnc|by rewrite Ho]. }
  assert (kids_of (db_dirties d') parent ≡ₚ child :: kids_of (db_dirties d) parent) as Hkp.
  { unfold kids_of. rewrite Hp', Hnp. unfold forChilds. cbn [cn_children set_children cn_node]. rewrite app_comm_cons. f_equiv.
    rewrite hash_order_perm, dom_insert, elements_union_singleton; [|rewrite not_elem_of_dom; exact Hnone]. f_equiv. subst cs.
    destruct (cn_children np) as [cs|]; cbn; [by rewrite hash_order_perm|]. by rewrite dom_empty, elements_empty. }
  assert (forall h, uses (db_dirties d') L h = (uses (db_dirties d) L h + times h [child])%nat) as Hu.
  { intros h. apply list_elem_of_split in HpL as (L1 & L2 & ->). rewrite !uses_remove. rewrite (uses_ext (db_dirties d) (db_dirties d') (L1 ++ L2)).
    - rewrite (times_perm _ _ _ Hkp), (times_cons h child (kids_of _ _)), times_cons, times_nil. lia.
    - rewrite <- Permutation_middle in Hnd. apply list.NoDup_cons in Hnd as [Hpn _]. intros x Hx. apply Hk; [|by intros ->].
      rewrite elem_of_app, elem_of_cons. rewrite elem_of_app in Hx. tauto. }
  assert (forall h n', h ∈ L -> db_dirties d' !! h = Some n' -> exists n, db_dirties d !! h = Some n /\ cn_node n' = cn_node n /\
    cn_parents n' = cn_parents n + Z.of_nat (times h [child]) /\ (h <> parent -> cn_children n' = cn_children n)) as He.
  { intros h n' Hh Hn'. rewrite times_cons, times_nil. destruct (decide (h = child)) as [->|Hhc]; [|destruct (decide (h = parent)) as [->|Hhp]].
    - rewrite Hc' in Hn'. injection Hn' as <-. exists nc. rewrite decide_True by done. split_and!; try done; cbn; try lia.
    - rewrite Hp' in Hn'. injection Hn' as <-. exists np. rewrite decide_False by done. split_and!; try done; cbn; try lia.
    - rewrite Ho in Hn' by done. exists n'. rewrite decide_False by congruence. split_and!; try done; cbn; try lia. }
  apply counted_without.
  - split; unfold on_disk in *; rewrite ?H1, ?H2; try done.
    + intros h n' Hh Hn'. destruct (He h n' Hh Hn') as (n & Hn & -> & _ & Hch). destruct (c1 h n Hh Hn) as [Hnode Hks]. split; [done|].
      destruct (decide (h = parent)) as [->|Hhp]; [|rewrite Hch by done; exact Hks]. rewrite Hp' in Hn'. injection Hn' as <-. cbn [cn_children set_children].
      assert (n = np) as -> by congruence. intros cs' c k [= <-]. rewrite lookup_insert_Some. intros [[<- <-]|[_ Hl]]; [done|].
      destruct (cn_children np) as [cs0|]; cbn in Hcs; subst cs; [by apply (Hks cs0)|by rewrite lookup_empty in Hl].
    + intros h n' Hh Hn'. destruct (He h n' Hh Hn') as (n & Hn & _ & -> & _). pose proof (c2 h n Hh Hn). rewrite times_cons, times_nil. case_decide; lia.
    + intros h c Hh Hcr. destruct (c3 h c Hh Hcr) as [?|[Hod [Hkid|?]]]; [by left| |right; split; [done|by right]]. right. split; [done|left].
      destruct (decide (h = parent)) as [->|Hhp]; [rewrite Hkp; by right|by rewrite Hk].
    + intros h n' Hh Hn'. destruct (He h n' Hh Hn') as (n & Hn & _ & -> & _). rewrite Hu. destruct (c4 h n Hh Hn); [by left|right; lia].
  - right. rewrite Hkp. by left.
Qed.

Lemma reference_late_ok d L owed late spent child parent : shaped d L [] -> counted d L owed late spent -> parent ∈ L -> child ∈ storage parent ->
  0 <= spent -> spent + 1 < 2 ^ 32 ->
  wp no_panic (reference child parent) (fun _ => linked d L owed (without (parent, child) late) (spent + 1)) d.
Proof.
  intros Hs Hc HpL Hst Hsp Hb. pose proof (entry_ne _ _ _ _ _ _ _ Hc Hst) as Hne. pose proof (shaped_nonzero _ _ _ _ Hs HpL) as Hp0.
  assert (child ∈ refs parent) as Hr by (unfold refs; apply elem_of_app; by right). pose proof (refs_nonzero _ _ Hr) as Hc0.
  unfold reference. apply wp_gbind, wp_gget. destruct (db_dirties d !! child) as [nc|] eqn:Enc.
  2: { split; [done|]. split; [|done]. apply (counted_weaken d L owed _ (without (parent, child) late) _ spent); [done|done|lia|]. apply counted_without; [done|]. left.
    destruct (ct_old _ _ _ _ _ Hc parent child HpL Hr) as [?|[Ho _]]; [done|]. apply older_elem in Ho as [Ho _]. by apply (shaped_not_dirty _ _ _ _ Hs) in Enc. }
  pose proof (shaped_dirty _ _ _ _ Hs Hc0 Enc) as HcL. destruct (shaped_entry d L [] parent Hs ltac:(set_solver)) as [np Enp].
  apply wp_gbind, (wp_dirty _ _ _ np Enp). pose proof (ct_parents _ _ _ _ _ Hc child nc HcL Enc) as Hpar.
  assert (NoDup L) as Hnd by (pose proof (sh_nodup _ _ _ Hs) as Hnd; rewrite app_nil_r in Hnd; by apply list.NoDup_cons in Hnd as [_ ?]).
  assert (forall d1 np1 cs1, cn_children np1 = Some cs1 -> cs1 = default ∅ (cn_children np) -> cs1 !! child = None -> (forall cs, set_children cs np1 = set_children cs np) ->
    db_dirties d1 !! parent = Some np1 -> (forall x, x <> parent -> db_dirties d1 !! x = db_dirties d !! x) -> shaped d1 L [] -> db_disk d1 = db_disk d -> db_cleans d1 = db_cleans d ->
    wp no_panic (link_child child parent) (fun _ => linked d L owed (without (parent, child) late) (spent + 1)) d1) as Hlink.
  { intros d1 np1 cs1 Hcs1 Hdef Hnone Hset Hp1 Ho1 Hs1 Hd1 Hcl1. unfold link_child.
    apply wp_gbind, (wp_on_dirty _ _ _ _ nc); [by rewrite Ho1|]. apply wp_gbind, (wp_dirty _ _ _ np1); [cbn; by rewrite lookup_insert_ne|].
    rewrite Hcs1. cbn [default from_option id]. rewrite Hnone. cbn [default from_option id]. change (uint16 (0 + 1)) with 1. rewrite Hset.
    assert (uint32 (cn_parents nc + 1) = cn_parents nc + 1) as -> by (unfold uint32; apply Z.mod_small; lia).
    apply wp_gbind, wp_gput. set (d2 := set_dirties _ _). assert (linked d L owed (without (parent, child) late) (spent + 1) d2) as Hl.
    { split.
      - eapply (shaped_links d1 d2 L [] L []); cbn; try done; try apply Hs1.
        + intros h. rewrite (lookup_insert_some _ parent np1) by (by rewrite lookup_insert_ne). apply (lookup_insert_some _ child nc). by rewrite Ho1.
        + intros n H0. exists n. by rewrite !lookup_insert_ne.
        + apply (dlist_frame (db_dirties d1)); [|apply Hs1]. intros h n Hh Hn. destruct (decide (h = parent)) as [->|Hhp]; [|destruct (decide (h = child)) as [->|Hhc]].
          * rewrite lookup_insert_eq. eexists. split; [done|]. rewrite <- Hset. assert (n = np1) as -> by congruence. done.
          * rewrite lookup_insert_ne, lookup_insert_eq by done. eexists. split; [done|]. rewrite Ho1 in Hn by done. assert (n = nc) as -> by congruence. done.
          * rewrite !lookup_insert_ne by done. by exists n.
      - split; [|done]. apply (counted_link d d2 L owed late spent child parent nc np cs1); try done; cbn.
        + intros x Hx Hxc Hxp. rewrite !lookup_insert_ne by done. by apply Ho1.
        + by rewrite lookup_insert_ne, lookup_insert_eq.
        + by rewrite lookup_insert_eq. }
    destruct (1 =? 1); [|done]. apply wp_gput. destruct Hl as ([] & [] & ? & ?). by split_and!. }
  destruct (cn_children np) as [cs|] eqn:Ecs.
  - destruct (bool_decide (is_Some (cs !! child)) && negb (parent =? 0)) eqn:Eb.
    + apply andb_true_iff in Eb as [[k Hk]%bool_decide_eq_true_1 _]. split; [done|]. split; [|done].
      apply (counted_weaken d L owed _ (without (parent, child) late) _ spent); [done|done|lia|]. apply counted_without; [done|]. right. unfold kids_of. rewrite Enp. unfold forChilds. rewrite Ecs.
      apply elem_of_app. left. rewrite hash_order_perm, elem_of_elements, elem_of_dom. by eexists.
    + assert (cs !! child = None) as Hnone.
      { apply andb_false_iff in Eb as [Hb1%bool_decide_eq_false_1|Hb2%negb_false_iff%Z.eqb_eq]; [|done]. by apply eq_None_not_Some. }
      by apply (Hlink d np cs).
  - apply wp_gbind, wp_gput, wp_gbind, wp_gput. apply (Hlink _ (set_children ∅ np) ∅); try done; cbn.
    + by rewrite lookup_insert_eq.
    + intros x Hx. by rewrite lookup_insert_ne.
    + destruct (shaped_put d (set_dirties (<[parent := set_children ∅ np]> (db_dirties d)) d) L [] parent np (set_children ∅ np)); done.
Qed.

(** *** From outside *)

Lemma counted_owe (d d' : DB) L owed spent (root : Hash) : counted d L owed [] spent -> root ∈ L \/ on_disk d root -> 0 <= spent -> spent + 1 < 2 ^ 32 ->
  (forall h n', h ∈ L -> db_dirties d' !! h = Some n' ->
    exists n, db_dirties d !! h = Some n /\ cn_node n' = cn_node n /\ cn_children n' = cn_children n /\ cn_parents n' = cn_parents n + Z.of_nat (times h [root])) ->
  (forall h, h ∈ L -> is_Some (db_dirties d !! h) -> is_Some (db_dirties d' !! h)) -> (forall h, h ∈ L -> is_Some (db_dirties d !! h)) ->
  db_disk d' = db_disk d -> db_cleans d' = db_cleans d -> counted d' L (owe [root] owed) [] (spent + 1).
Proof.
  intros [c1 c2 c3 c4 c5 c6 c7] Hr Hsp Hb He Hsome Hall H1 H2.
  assert (forall x, x ∈ L -> kids_of (db_dirties d') x = kids_of (db_dirties d) x) as Hk.
  { intros x Hx. unfold kids_of. destruct (Hsome x Hx (Hall x Hx)) as [n' Hn']. destruct (He x n' Hx Hn') as (n & Hn & E1 & E2 & _). rewrite Hn, Hn'. unfold forChilds. by rewrite E1, E2. }
  split; unfold on_disk in *; rewrite ?H1, ?H2; try done.
  - intros h n' Hh Hn'. destruct (He h n' Hh Hn') as (n & Hn & -> & -> & _). by apply c1.
  - intros h n' Hh Hn'. destruct (He h n' Hh Hn') as (n & Hn & _ & _ & ->). pose proof (c2 h n Hh Hn). rewrite times_cons, times_nil. case_decide; lia.
  - intros h c Hh Hc. rewrite Hk by done. by apply c3.
  - intros h n' Hh Hn'. destruct (He h n' Hh Hn') as (n & Hn & _ & _ & ->). rewrite (uses_ext (db_dirties d)) by done. unfold owe. destruct (c4 h n Hh Hn); [by left|right; lia].
  - intros h Ho. unfold owe in Ho. rewrite times_cons, times_nil in Ho. case_decide as Hd; [by subst|]. apply c5. lia.
Qed.

Lemma reference_root_ok d L owed spent root : shaped d L [] -> counted d L owed [] spent -> root <> 0 -> root ∈ L \/ on_disk d root ->
  0 <= spent -> spent + 1 < 2 ^ 32 ->
  wp no_panic (reference root 0) (fun _ => linked d L (owe [root] owed) [] (spent + 1)) d.
Proof.
  intros Hs Hc H0 Hav Hsp Hb. unfold reference. apply wp_gbind, wp_gget. destruct (db_dirties d !! root) as [n|] eqn:En.
  2: { split; [done|]. split; [|done]. apply (counted_owe d d L owed spent root); try done.
    - intros h n' Hh Hn'. exists n'. split_and!; try done. rewrite times_cons, times_nil, decide_False; [lia|]. intros ->. congruence.
    - intros h Hh. destruct (shaped_entry d L [] h Hs ltac:(set_solver)) as [n Hn]. by eexists. }
  pose proof (shaped_dirty _ _ _ _ Hs H0 En) as HrL. destruct (sh_meta _ _ _ Hs) as (n0 & cs & En0 & Ecs).
  apply wp_gbind, (wp_dirty _ _ (0 : Hash) n0 En0). rewrite Ecs. rewrite Z.eqb_refl, andb_false_r. pose proof (ct_parents _ _ _ _ _ Hc root n HrL En) as Hpar.
  unfold link_child. apply wp_gbind, (wp_on_dirty _ _ _ _ n En), wp_gbind, (wp_dirty _ _ (0 : Hash) n0); [cbn; by rewrite lookup_insert_ne|].
  rewrite Ecs. cbn [default from_option id]. apply wp_gbind, wp_gput. set (count := uint16 _). set (d1 := set_dirties _ _).
  assert (uint32 (cn_parents n + 1) = cn_parents n + 1) as Hu by (unfold uint32; apply Z.mod_small; lia).
  assert (linked d L (owe [root] owed) [] (spent + 1) d1) as Hl.
  { split.
    - unfold d1. eapply (shaped_put (set_dirties (<[root := set_parents (uint32 (cn_parents n + 1)) n]> (db_dirties d)) d) _ L [] (0 : Hash) n0 (set_children (<[root := count]> cs) n0)); try done; [|cbn; by rewrite lookup_insert_ne].
      by apply (shaped_put d _ L [] root n (set_parents (uint32 (cn_parents n + 1)) n)).
    - split; [|done]. apply (counted_owe d d1 L owed spent root); try done.
      + intros h n' Hh. unfold d1. cbn [db_dirties set_dirties]. rewrite lookup_insert_ne by (intros <-; by apply (shaped_nonzero _ _ _ _ Hs Hh)).
        rewrite (times_cons h root), times_nil. destruct (decide (root = h)) as [<-|Hne].
        * rewrite lookup_insert_eq. intros [= <-]. exists n. split_and!; try done; cbn; lia.
        * rewrite lookup_insert_ne by done. intros Hn'. exists n'. split_and!; try done; cbn; lia.
      + intros h Hh Hs'. cbn. rewrite lookup_insert_ne by (intros <-; by apply (shaped_nonzero _ _ _ _ Hs Hh)). by apply (lookup_insert_some _ root n).
      + intros h Hh. destruct (shaped_entry d L [] h Hs ltac:(set_solver)) as [k Hk]. by eexists. }
  destruct (count =? 1); [|done]. apply wp_gput. destruct Hl as ([] & [] & ? & ?). by split_and!.
Qed.
End insertion.
