(* ===== verification/NodeFlush.v ===== *)
(** * Nodes that are written to disk: capping and committing

    Writing the oldest nodes until the memory is small enough, and writing everything
    below a root. *)

From Stdlib Require Import Strings.Byte.
From S2P Require Import Prelude.
From S2P Require Import Common.
From S2P Require Import Rlp.
From S2P Require Import TrieNode.
From S2P Require Import TrieCommit.
From S2P Require Import NodeDatabase.
From S2P Require Import NodeGraph.
From S2P Require Import NodeRemoval.
From S2P Require Import NodeInsertion.

Section flush.
Context {C : Type} {CC : CleanCache C} {CCL : CleanCacheLaws CC} {W : DiskWriter} {HO : HashOrder} {HOL : HashOrderLaws HO}
  {U : NodeUniverse} {UL : NodeUniverseLaws U}.
Notation DB := (Database C).
Implicit Types (d : DB) (L D : list Hash) (h c hash child parent root x : Hash) (batch : Batch).

(** ** Batches *)

Definition written d batch h : Prop := on_disk d h \/ h ∈ map fst batch.

(** A batch of nodes whose references are in it or on disk. *)
Definition batch_ok d batch : Prop := forall h b, (h, b) ∈ batch ->
  h <> 0 /\ b = nodeToBytes (content h) /\ forall c, c ∈ refs h -> written d batch c.

Lemma written_app d batch e h : written d batch h -> written d (batch ++ e) h.
Proof. intros [?|H]; [by left|right]. rewrite map_app. apply elem_of_app. by left. Qed.

Lemma batch_ok_nil d : batch_ok d [].
Proof. by intros h b ?%elem_of_nil. Qed.

Lemma batch_ok_snoc d batch h : batch_ok d batch -> h <> 0 -> (forall c, c ∈ refs h -> written d batch c) ->
  batch_ok d (batch ++ [(h, nodeToBytes (content h))]).
Proof.
  intros Hb H0 Hr h' b [Hin|[= -> ->]%list_elem_of_singleton]%elem_of_app.
  - destruct (Hb h' b Hin) as (? & ? & Hc). split_and!; [done|done|]. intros c Hcr. by apply written_app, Hc.
  - split_and!; [done|done|]. intros c Hcr. by apply written_app, Hr.
Qed.

Lemma fold_insert_lookup batch : forall (m : diskdb) h b, fold_left (fun m e => <[fst e := snd e]> m) batch m !! h = Some b ->
  (h, b) ∈ batch \/ m !! h = Some b.
Proof.
  induction batch as [|[k v] batch IH]; intros m h b; cbn [fold_left fst snd]; [by right|]. intros [Hin|Hm]%IH; [left; by right|].
  apply lookup_insert_Some in Hm as [[-> ->]|[_ Hm]]; [left; by left|by right].
Qed.

Lemma fold_insert_some batch : forall (m : diskdb) h, is_Some (fold_left (fun m e => <[fst e := snd e]> m) batch m !! h) <->
  is_Some (m !! h) \/ h ∈ map fst batch.
Proof.
  induction batch as [|[k v] batch IH]; intros m h; cbn [fold_left map fst snd]; [rewrite elem_of_nil; tauto|]. rewrite IH, elem_of_cons.
  destruct (decide (h = k)) as [->|Hne]; [rewrite lookup_insert_eq; split; [tauto|intros _; left; by eexists]|rewrite lookup_insert_ne by done; tauto].
Qed.

(** Only the disk differs. *)
Definition only_disk d d' : Prop := exists m, d' = set_disk m d.

Lemma only_disk_shaped d d' L D : only_disk d d' -> shaped d L D -> shaped d' L D.
Proof. intros [m ->] []. by split. Qed.

Lemma only_disk_trans d1 d2 d3 : only_disk d1 d2 -> only_disk d2 d3 -> only_disk d1 d3.
Proof. intros [m ->] [m' ->]. by exists m'. Qed.

(** More nodes on disk, with what they refer to. *)
Lemma counted_grow d d' L owed late spent batch : counted d L owed late spent -> batch_ok d batch ->
  d' = set_disk (fold_left (fun m e => <[fst e := snd e]> m) batch (db_disk d)) d -> counted d' L owed late spent.
Proof.
  intros [c1 c2 c3 c4 c5 c6 c7] Hb ->. assert (forall h, on_disk (set_disk (fold_left (fun m e => <[fst e := snd e]> m) batch (db_disk d)) d) h <-> written d batch h) as Hon.
  { intros h. apply fold_insert_some. }
  assert (forall h b, fold_left (fun m e => <[fst e := snd e]> m) batch (db_disk d) !! h = Some b -> b = nodeToBytes (content h) /\ forall c, c ∈ refs h -> written d batch c) as Hd.
  { intros h b [Hin|Hm]%fold_insert_lookup; [by apply (Hb h b)|]. destruct (c6 h b Hm) as [? Hc]. split; [done|]. intros c Hcr. left. by apply Hc. }
  split; try done.
  - intros h c Hh Hcr. rewrite Hon. destruct (c3 h c Hh Hcr); [left; by left|by right].
  - intros h n Hh Hn. rewrite Hon. destruct (c4 h n Hh Hn); [left; by left|by right].
  - intros h Hh. rewrite Hon. destruct (c5 h Hh); [by left|right; by left].
  - intros h b Hh. destruct (Hd h b Hh) as [? Hc]. split; [done|]. intros c Hcr. by apply Hon, Hc.
  - intros c h b Hcl Hg. specialize (c7 c h b Hcl Hg). cbn. assert (is_Some (fold_left (fun m e => <[fst e := snd e]> m) batch (db_disk d) !! h)) as [b' Hb'].
    { apply fold_insert_some. left. by eexists. }
    rewrite Hb'. destruct (Hd h b' Hb') as [-> _], (c6 h b c7) as [-> _]. done.
Qed.

Lemma batch_Write_ok d L owed late spent batch : counted d L owed late spent -> batch_ok d batch ->
  wp no_panic (batch_Write batch) (fun ok d' => only_disk d d' /\ counted d' L owed late spent /\
    (forall h, on_disk d h -> on_disk d' h) /\ (ok = true -> forall h, written d batch h -> on_disk d' h)) d.
Proof.
  intros Hc Hb. unfold batch_Write. apply wp_gbind, wp_gget. destruct (disk_accepts _ _).
  - apply wp_gbind, wp_gput, wp_gret. assert (forall h, written d batch h -> on_disk (set_disk (fold_left (fun m e => <[fst e := snd e]> m) batch (db_disk d)) d) h) as Hw.
    { intros h. apply fold_insert_some. }
    split; [by eexists|]. split; [by eapply counted_grow|]. split; [intros h Hh; apply Hw; by left|done].
  - apply wp_gret. split; [exists (db_disk d); by destruct d|]. done.
Qed.

(** ** Committing *)

(** What stays, is on disk. *)
Definition moved d L d' L' : Prop := L' `sublist_of` L /\ (forall h, h ∈ L -> h ∈ L' \/ on_disk d' h) /\ (forall h, on_disk d h -> on_disk d' h).

Lemma moved_refl d L : moved d L d L.
Proof. split; [done|]. split; [by left|done]. Qed.

Lemma moved_trans d L d1 L1 d2 L2 : moved d L d1 L1 -> moved d1 L1 d2 L2 -> moved d L d2 L2.
Proof.
  intros (H1 & H2 & H3) (H4 & H5 & H6). split; [by etrans|]. split; [|auto]. intros h Hh. destruct (H2 h Hh) as [Hh1|Hh1]; [by apply H5|right; by apply H6].
Qed.

Lemma cleaner_Put_ok d L owed spent hash : shaped d L [] -> counted d L owed [] spent -> on_disk d hash -> hash <> 0 ->
  wp no_panic (cleaner_Put hash (nodeToBytes (content hash))) (fun _ d' => exists L', shaped d' L' [] /\ counted d' L' owed [] spent /\ moved d L d' L' /\ db_disk d' = db_disk d) d.
Proof.
  intros Hs Hc Hd H0. unfold cleaner_Put. apply wp_gbind, wp_gget. destruct (db_dirties d !! hash) as [n|] eqn:En.
  2: { exists L. split_and!; try done. apply moved_refl. }
  pose proof (shaped_dirty _ _ _ _ Hs H0 En) as HL. pose proof (sh_nodup _ _ _ Hs) as Hnd. rewrite app_nil_r in Hnd. apply list.NoDup_cons in Hnd as [_ Hnd].
  apply list_elem_of_split in HL as (L1 & L2 & ->). pose proof (counted_remove d L1 hash L2 owed spent Hnd Hc (or_introl Hd)) as Hc1.
  apply wp_gbind. eapply wp_mono; [by apply (unlink_ok d L1 hash L2 [])|]. intros _ d1 [Hs1 Hq]. apply (quiet_counted _ _ _ _ _ _ Hq) in Hc1. destruct Hq as (_ & Hd1 & Hcl1).
  apply wp_gbind, wp_gput, wp_gbind, wp_gput, wp_gbind, wp_gput, wp_gput. cbn.
  destruct (shaped_delete d1 (set_dirties (delete hash (db_dirties d1)) d1) (L1 ++ L2) hash [] Hs1) as [[] HxL]; try done.
  assert (counted (set_dirties (delete hash (db_dirties d1)) d1) (L1 ++ L2) owed [] spent) as [k1 k2 k3 k4 k5 k6 k7].
  { apply (counted_weaken _ _ (fun h => times h (kids_of (db_dirties d) hash) + owed h)%nat _ [] _ spent); [intros h; lia|done|lia|].
    apply (counted_tally d1); try done. by apply same_tally_delete. }
  exists (L1 ++ L2). split; [by split|]. split.
  - split; try done. cbn. intros cl h b Hcl Hg. rewrite Hcl1 in Hcl. destruct (db_cleans d) as [c0|] eqn:Ec; [|done]. cbn in Hcl. injection Hcl as <-.
    apply cache_Get_Set in Hg as [[-> ->]|Hg]; [|apply (k7 c0); [by cbn; rewrite Hcl1|done]].
    rewrite Hd1. destruct Hd as [b Hb]. rewrite Hb. by rewrite (proj1 (ct_disk _ _ _ _ _ Hc hash b Hb)).
  - unfold moved, on_disk in *. cbn. rewrite Hd1. split; [|done]. split; [apply sublist_app; [done|by apply sublist_cons]|]. split; [|done].
    intros h. rewrite !elem_of_app, elem_of_cons. intros [?|[->|?]]; [left; by left|by right|left; by right].
Qed.

Lemma batch_Replay_ok batch : forall d L owed spent, shaped d L [] -> counted d L owed [] spent ->
  (forall h b, (h, b) ∈ batch -> h <> 0 /\ on_disk d h /\ b = nodeToBytes (content h)) ->
  wp no_panic (batch_Replay batch) (fun _ d' => exists L', shaped d' L' [] /\ counted d' L' owed [] spent /\ moved d L d' L' /\ db_disk d' = db_disk d) d.
Proof.
  induction batch as [|[h b] batch IH]; intros d L owed spent Hs Hc Hb; cbn [batch_Replay].
  { exists L. split_and!; try done. apply moved_refl. }
  destruct (Hb h b ltac:(by left)) as (H0 & Hd & ->). apply wp_gbind. eapply wp_mono; [by apply (cleaner_Put_ok d L owed spent)|].
  intros _ d1 (L1 & Hs1 & Hc1 & Hm1 & Hd1). eapply wp_mono.
  - apply (IH d1 L1 owed spent); try done. intros h' b' Hin. destruct (Hb h' b' ltac:(by right)) as (? & ? & ?). split_and!; try done. unfold on_disk. by rewrite Hd1.
  - intros _ d2 (L2 & Hs2 & Hc2 & Hm2 & Hd2). exists L2. split_and!; [done|done|by eapply moved_trans|congruence].
Qed.

(** The state and the batch after committing some nodes. *)
Definition committed_to d L owed spent batch (hs : list Hash) (r : Batch + disk_error) d' : Prop :=
  exists L', shaped d' L' [] /\ counted d' L' owed [] spent /\ moved d L d' L' /\
    match r with
    | inl batch' => batch_ok d' batch' /\ (forall h, written d batch h -> written d' batch' h) /\
        forall h, h ∈ hs -> h ∈ L \/ written d batch h -> written d' batch' h
    | inr _ => True
    end.

(** Writing the batch and forgetting its nodes. *)
Lemma write_replay_ok d L owed spent batch : shaped d L [] -> counted d L owed [] spent -> batch_ok d batch ->
  wp no_panic (let* ok := batch_Write batch in if negb ok then gret (inr ErrDiskWrite) else batch_Replay batch ;;; gret (inl []))
    (committed_to d L owed spent batch (map fst batch)) d.
Proof.
  intros Hs Hc Hb. apply wp_gbind. eapply wp_mono; [by apply (batch_Write_ok d L owed [] spent)|].
  intros ok d1 (Hod & Hc1 & Hmono & Hok). pose proof (only_disk_shaped _ _ _ _ Hod Hs) as Hs1. destruct ok; cbn [negb].
  - apply wp_gbind. eapply wp_mono.
    + apply (batch_Replay_ok batch d1 L owed spent); try done. intros h b Hin. destruct (Hb h b Hin) as (? & ? & _). split_and!; [done| |done].
      apply Hok; [done|]. right. apply list_elem_of_In, in_map_iff. exists (h, b). split; [done|]. by apply list_elem_of_In.
    + intros _ d2 (L2 & Hs2 & Hc2 & Hm2 & Hd2). apply wp_gret. exists L2. split_and!; try done.
      * apply (moved_trans d L d1 L); [|done]. split; [done|]. split; [by left|done].
      * apply batch_ok_nil.
      * intros h Hh. left. unfold on_disk in *. rewrite Hd2. by apply Hok.
      * intros h Hh _. left. unfold on_disk in *. rewrite Hd2. apply Hok; [done|by right].
  - apply wp_gret. exists L. split_and!; try done. split; [done|]. split; [by left|done].
Qed.

Lemma commit_all_ok (commit : Hash -> Batch -> GM DB (Batch + disk_error)) (P : Hash -> Prop) L0 hs : forall d L owed spent batch,
  (forall d L batch h, P h -> shaped d L [] -> counted d L owed [] spent -> batch_ok d batch -> L ⊆ L0 ->
     wp no_panic (commit h batch) (committed_to d L owed spent batch [h]) d) ->
  (forall h, h ∈ hs -> P h) -> shaped d L [] -> counted d L owed [] spent -> batch_ok d batch -> L ⊆ L0 ->
  wp no_panic (commit_all commit hs batch) (committed_to d L owed spent batch hs) d.
Proof.
  induction hs as [|h hs IH]; intros d L owed spent batch Hcm HP Hs Hc Hb HL0; cbn [commit_all].
  { exists L. split_and!; try done; [apply moved_refl|by intros h ?%elem_of_nil]. }
  apply wp_gbind. eapply wp_mono; [apply (Hcm d L batch h); try done; apply HP; by left|].
  intros r d1 (L1 & Hs1 & Hc1 & Hm1 & Hr). destruct r as [batch1|err]; [|by exists L1]. destruct Hr as (Hb1 & Hw1 & Hh1).
  eapply wp_mono; [apply (IH d1 L1 owed spent batch1); try done; [intros h' Hh'; apply HP; by right|]|].
  { etrans; [|exact HL0]. intros x Hx. by apply (elem_of_sublist _ _ _ Hx), Hm1. }
  intros r d2 (L2 & Hs2 & Hc2 & Hm2 & Hr). exists L2. split_and!; [done|done|by eapply moved_trans|]. destruct r as [batch2|err]; [|done].
  destruct Hr as (Hb2 & Hw2 & Hh2). split; [done|]. split; [auto|]. intros h' [->|Hh']%elem_of_cons Hav.
  - apply Hw2, Hh1; [by left|done].
  - apply Hh2; [done|]. destruct Hav as [HL|Hwr]; [|right; auto]. destruct (proj1 (proj2 Hm1) h' HL) as [?|?]; [by left|right; by left].
Qed.

Lemma commit_ok fuel : forall d L owed spent hash batch V L0, shaped d L [] -> counted d L owed [] spent -> batch_ok d batch -> hash <> 0 ->
  L ⊆ L0 -> NoDup V -> V ⊆ L0 -> (forall v, v ∈ V -> (height hash < height v)%nat) -> (length L0 < fuel + length V)%nat ->
  wp no_panic (commit fuel hash batch) (committed_to d L owed spent batch [hash]) d.
Proof.
  induction fuel as [|fuel IH]; intros d L owed spent hash batch V L0 Hs Hc Hb H0 HL HV HVL Hht Hf.
  { pose proof (submseteq_length _ _ (NoDup_submseteq _ _ HV HVL)). lia. }
  cbn [commit]. apply wp_gbind, wp_gget. destruct (db_dirties d !! hash) as [n|] eqn:En.
  2: { apply wp_gret. exists L. split_and!; try done; [apply moved_refl|]. intros h ->%list_elem_of_singleton [Hin|?]; [|done].
    exfalso. by apply (shaped_not_dirty _ _ _ _ Hs) in En. }
  pose proof (shaped_dirty _ _ _ _ Hs H0 En) as HhL.
  assert (forChilds n = kids_of (db_dirties d) hash) as Hk by (unfold kids_of; by rewrite En).
  apply wp_gbind. eapply wp_mono.
  - apply (commit_all_ok (commit fuel) (fun h => h <> 0 /\ (height h < height hash)%nat) L0 _ d L owed spent batch); try done.
    + intros d' L' batch' h [Hn0 Hlt] Hs' Hc' Hb' HL'. apply (IH d' L' owed spent h batch' (hash :: V) L0); try done.
      * apply list.NoDup_cons. split; [|done]. intros Hin. specialize (Hht _ Hin). lia.
      * intros x [->|Hx]%elem_of_cons; [by apply HL|by apply HVL].
      * intros v [->|Hv]%elem_of_cons; [done|]. specialize (Hht v Hv). lia.
      * cbn [length]. lia.
    + intros h Hh. rewrite Hk in Hh. apply (kids_refs d L owed [] spent hash) in Hh; [|done..]. split; [by apply (refs_nonzero hash)|by apply refs_height].
  - intros r d1 (L1 & Hs1 & Hc1 & Hm1 & Hr). destruct r as [batch1|err]; [|apply wp_gret; by exists L1]. destruct Hr as (Hb1 & Hw1 & Hh1).
    apply wp_gbind, (wp_gpure _ (nodeToBytes (content hash))); [exact (entry_rlp _ _ _ _ _ _ _ Hc HhL En)|].
    assert (batch_ok d1 (batch1 ++ [(hash, nodeToBytes (content hash))])) as Hb2.
    { apply batch_ok_snoc; [done|done|]. intros c Hcr. destruct (ct_old _ _ _ _ _ Hc hash c HhL Hcr) as [Hd|[Ho [Hkid|?]]]; [|apply Hh1; [by rewrite Hk|]|by apply elem_of_nil in H].
      - apply Hw1. by left.
      - left. apply older_elem in Ho. tauto. }
    assert (forall d' batch', (forall h, written d1 (batch1 ++ [(hash, nodeToBytes (content hash))]) h -> written d' batch' h) ->
      (forall h, written d batch h -> written d' batch' h) /\ (forall h, h ∈ [hash] -> h ∈ L \/ written d batch h -> written d' batch' h)) as Hfin.
    { intros d' batch' Hmono. split; [intros h Hh; by apply Hmono, written_app, Hw1|]. intros h ->%list_elem_of_singleton _. apply Hmono. right. rewrite map_app. apply elem_of_app. right. by left. }
    destruct (ValueSize _ >=? IdealBatchSize).
    + eapply wp_mono; [by apply (write_replay_ok d1 L1 owed spent)|]. intros r d2 (L2 & Hs2 & Hc2 & Hm2 & Hr). exists L2.
      split_and!; [done|done|by eapply moved_trans|]. destruct r as [batch2|err]; [|done]. destruct Hr as (Hb3 & Hw3 & _). split; [done|]. by apply Hfin.
    + apply wp_gret. exists L1. do 3 (split; [done|]). split; [done|]. by apply Hfin.
Qed.

Lemma dirty_length d L : shaped d L [] -> (length L < db_fuel d)%nat.
Proof.
  intros Hs. unfold db_fuel. assert (length L <= size (dom (db_dirties d)))%nat as Hle; [|rewrite size_dom in Hle; lia].
  pose proof (sh_nodup _ _ _ Hs) as Hnd. rewrite app_nil_r in Hnd. apply list.NoDup_cons in Hnd as [_ Hnd].
  rewrite <- (size_list_to_set (C := gset Hash) L Hnd). apply subseteq_size. intros h. rewrite elem_of_list_to_set, elem_of_dom. intros Hh.
  apply (sh_dom _ _ _ Hs). set_solver.
Qed.

Lemma Commit_ok d L owed spent root : shaped d L [] -> counted d L owed [] spent -> root <> 0 ->
  wp no_panic (Commit root) (fun err d' => exists L', shaped d' L' [] /\ counted d' L' owed [] spent /\ moved d L d' L' /\
    (err = None -> root ∈ L \/ on_disk d root -> on_disk d' root)) d.
Proof.
  intros Hs Hc H0. unfold Commit. apply wp_gbind, wp_gget, wp_gbind. eapply wp_mono.
  { apply (commit_ok _ d L owed spent root [] [] L); try done; [apply batch_ok_nil|by apply list.NoDup_nil|by intros v ?%elem_of_nil|by intros v ?%elem_of_nil|]. pose proof (dirty_length _ _ Hs). cbn [length]. lia. }
  intros r d1 (L1 & Hs1 & Hc1 & Hm1 & Hr). destruct r as [batch|err]; [|apply wp_gret; exists L1; by split_and!]. destruct Hr as (Hb & Hw & Hh).
  apply wp_gbind. eapply wp_mono; [by apply (batch_Write_ok d1 L1 owed [] spent batch)|].
  intros ok d2 (Hod & Hc2 & Hmono & Hok). pose proof (only_disk_shaped _ _ _ _ Hod Hs1) as Hs2.
  assert (moved d1 L1 d2 L1) as Hm2 by (split; [done|]; split; [by left|done]). destruct ok; cbn [negb].
  - apply wp_gbind. eapply wp_mono.
    + apply (batch_Replay_ok batch d2 L1 owed spent); try done. intros h b Hin. destruct (Hb h b Hin) as (? & ? & _). split_and!; [done| |done].
      apply Hok; [done|]. right. apply list_elem_of_In, in_map_iff. exists (h, b). split; [done|]. by apply list_elem_of_In.
    + intros _ d3 (L3 & Hs3 & Hc3 & Hm3 & Hd3). apply wp_gbind, wp_gput, wp_gret. exists L3. split; [by destruct Hs3|]. split; [by destruct Hc3|].
      split; [|intros _ Hav; unfold on_disk in *; cbn; rewrite Hd3; apply Hok; [done|]; apply Hh; [by left|]; destruct Hav; [by left|right; by left]].
      pose proof (moved_trans _ _ _ _ _ _ Hm1 (moved_trans _ _ _ _ _ _ Hm2 Hm3)) as Hm. exact Hm.
  - apply wp_gret. exists L1. split_and!; try done. by eapply moved_trans.
Qed.
End flush.

Section cap.
Context {C : Type} {CC : CleanCache C} {CCL : CleanCacheLaws CC} {W : DiskWriter} {HO : HashOrder} {HOL : HashOrderLaws HO}
  {U : NodeUniverse} {UL : NodeUniverseLaws U}.
Notation DB := (Database C).
Implicit Types (d : DB) (L D F G R : list Hash) (h c hash child parent root x : Hash) (batch : Batch).

(** ** Memory *)

(** What an entry takes. *)
Definition node_memory (n : cachedNode) : Z := HashLength + cn_size n + cachedNodeSize + children_memory n.

Definition memory_of (m : gmap Hash cachedNode) (G : list Hash) : Z :=
  foldr (fun h acc => match m !! h with Some n => node_memory n | None => 0 end + acc) 0 G.

#[global] Arguments memory_of : simpl never.

(** [Size]. *)
Definition memory d : Z :=
  db_dirtiesSize d + db_childrenSize d + (dirty_count d - 1) * cachedNodeSize -
  match db_dirties d !! (0 : Hash) with Some n => children_len n | None => 0 end * (HashLength + 2).

Lemma db_Size_ok d L D : shaped d L D -> db_Size d = Ret (memory d, d).
Proof.
  intros Hs. destruct (sh_meta _ _ _ Hs) as (n & cs & Hn & _). unfold db_Size, gbind, gget, dirty, gbind, gget, gret, memory. cbn [id]. by rewrite Hn.
Qed.

Lemma memory_of_ext m m' G : (forall h, h ∈ G -> m' !! h = m !! h) -> memory_of m' G = memory_of m G.
Proof.
  unfold memory_of. induction G as [|h G IH]; intros H; [done|]. cbn. rewrite (H h) by by left. f_equal. apply IH. intros x Hx. apply H. by right.
Qed.

Lemma memory_of_cons m x n G : m !! x = Some n -> memory_of m (x :: G) = node_memory n + memory_of m G.
Proof. intros H. unfold memory_of. cbn [foldr]. by rewrite H. Qed.

(** ** The first loop *)

Lemma cap_flush_ok fuel : forall d F R owed spent limit size oldest batch,
  shaped d (F ++ R) [] -> counted d (F ++ R) owed [] spent -> batch_ok d batch -> (forall h, h ∈ F -> written d batch h) ->
  oldest = default 0 (head R) -> (length R < fuel)%nat ->
  wp no_panic (cap_flush fuel limit size oldest batch) (fun r d' => only_disk d d' /\ counted d' (F ++ R) owed [] spent /\
    (forall h, on_disk d h -> on_disk d' h) /\
    match r with
    | inl (oldest', batch') => exists G R', R = G ++ R' /\ oldest' = default 0 (head R') /\ batch_ok d' batch' /\
        (forall h, h ∈ F ++ G -> written d' batch' h) /\ (size - memory_of (db_dirties d) G <= limit \/ R' = [])
    | inr _ => True
    end) d.
Proof.
  induction fuel as [|fuel IH]; intros d F R owed spent limit size oldest batch Hs Hc Hb HF Ho Hf; [lia|]. cbn [cap_flush].
  assert (only_disk d d) as Hrefl by (exists (db_disk d); by destruct d).
  assert (forall h, h ∈ F ++ [] -> written d batch h) as HF0 by (intros h; rewrite app_nil_r; apply HF).
  destruct (size >? limit) eqn:Es; rewrite Z.gtb_ltb in Es; zbool; cbn [andb].
  2: { apply wp_gret. do 3 (split; [done|]). exists [], R. split_and!; try done. left. unfold memory_of. cbn. lia. }
  destruct R as [|x R]; cbn [head default from_option id] in Ho; subst oldest.
  { rewrite Z.eqb_refl. apply wp_gret. do 3 (split; [done|]). exists [], []. split_and!; try done. by right. }
  assert (x ∈ F ++ x :: R) as HxL by set_solver. pose proof (shaped_nonzero _ _ _ _ Hs HxL) as Hx0.
  rewrite (proj2 (Z.eqb_neq x 0)) by done. cbn [negb]. destruct (shaped_entry d _ [] x Hs ltac:(set_solver)) as [n Hn].
  apply wp_gbind, (wp_dirty _ _ _ n Hn). pose proof (sh_nodup _ _ _ Hs) as Hnd. rewrite app_nil_r in Hnd. apply list.NoDup_cons in Hnd as [_ Hnd].
  apply wp_gbind, (wp_gpure _ (nodeToBytes (content x))); [exact (entry_rlp _ _ _ _ _ _ _ Hc HxL Hn)|].
  assert (batch_ok d (batch ++ [(x, nodeToBytes (content x))])) as Hb1.
  { apply batch_ok_snoc; [done|done|]. intros c Hcr. destruct (ct_old _ _ _ _ _ Hc x c HxL Hcr) as [?|[Hold _]]; [by left|]. by apply HF, (older_prefix F R c x). }
  assert (cn_flushNext n = default 0 (head R)) as Hnext.
  { destruct (dlist_entry _ _ _ _ _ _ (sh_list _ _ _ Hs)) as (n' & Hn' & _ & Hx). by pose proof (eq_trans (eq_sym Hn) Hn') as [= <-]. }
  assert (forall h, h ∈ F ++ [x] -> written d (batch ++ [(x, nodeToBytes (content x))]) h) as HF1.
  { intros h [Hh|Hh]%elem_of_app; [by apply written_app, HF|]. apply list_elem_of_singleton in Hh as ->. right. rewrite map_app. apply elem_of_app. right. by left. }
  assert (forall d1 batch1 sz, sz = size - (HashLength + cn_size n + cachedNodeSize) - children_memory n -> only_disk d d1 -> counted d1 (F ++ x :: R) owed [] spent -> (forall h, on_disk d h -> on_disk d1 h) -> batch_ok d1 batch1 ->
    (forall h, h ∈ F ++ [x] -> written d1 batch1 h) ->
    wp no_panic (cap_flush fuel limit sz (cn_flushNext n) batch1)
      (fun r d' => only_disk d d' /\ counted d' (F ++ x :: R) owed [] spent /\ (forall h, on_disk d h -> on_disk d' h) /\
        match r with
        | inl (oldest', batch') => exists G R', x :: R = G ++ R' /\ oldest' = default 0 (head R') /\ batch_ok d' batch' /\
            (forall h, h ∈ F ++ G -> written d' batch' h) /\ (size - memory_of (db_dirties d) G <= limit \/ R' = [])
        | inr _ => True
        end) d1) as Hgo.
  { intros d1 batch1 sz Hsz Hod Hc1 Hmono Hb2 HF2. assert (F ++ x :: R = (F ++ [x]) ++ R) as He by by rewrite <- app_assoc. rewrite He in Hc1 |- *.
    eapply wp_mono; [apply (IH d1 (F ++ [x]) R owed spent); try done; [rewrite <- He; by eapply only_disk_shaped|cbn in Hf; lia]|].
    intros r d2 (Hod2 & Hc2 & Hmono2 & Hr). split; [by eapply only_disk_trans|]. split; [done|]. split; [auto|]. destruct r as [[oldest' batch']|]; [|done].
    destruct Hr as (G & R' & -> & Ho' & Hb3 & HF3 & Hsize). exists (x :: G), R'. split; [done|]. split; [done|]. split; [done|].
    split; [intros h Hh; apply HF3; by rewrite <- app_assoc|]. destruct Hsize as [Hsize|?]; [left|by right]. destruct Hod as [mm ->]. rewrite (memory_of_cons _ _ _ _ Hn). unfold node_memory. cbn in Hsize. lia. }
  destruct (ValueSize _ >=? IdealBatchSize).
  - apply wp_gbind, wp_gbind. eapply wp_mono; [by apply (batch_Write_ok d (F ++ x :: R) owed [] spent)|]. intros ok d1 (Hod & Hc1 & Hmono & Hok). apply wp_gret. destruct ok; [|by apply wp_gret].
    apply Hgo; try done; [apply batch_ok_nil|]. intros h Hh. left. by apply Hok, HF1.
  - apply wp_gbind, wp_gret. by apply Hgo.
Qed.

(** ** The second loop *)

(** The first node of the list is forgotten. *)
Lemma shaped_pop (d d' : DB) x L : shaped d (x :: L) [] -> db_dirties d' = delete x (db_dirties d) ->
  db_oldest d' = default 0 (head L) -> db_newest d' = db_newest d -> shaped d' L [].
Proof.
  intros [s1 s2 s3 s4 s5 (n & cs & Hn & Hcs)] Hd Ho Hw. rewrite app_nil_r in s1. rewrite Permutation_swap in s1. apply list.NoDup_cons in s1 as [Hx Hnd].
  split; rewrite ?Hd, ?Ho, ?Hw, ?app_nil_r; try done.
  - intros h. destruct (decide (h = x)) as [->|Hne]; [rewrite lookup_delete_eq; split; [by intros []|done]|rewrite lookup_delete_ne by done; rewrite s2; set_solver].
  - apply dlist_delete; [set_solver|]. destruct s3 as (n' & _ & _ & _ & s3). by eapply dlist_any_prev.
  - intros h Hh. apply s5. rewrite last_cons, Hh. done.
  - exists n, cs. split; [|done]. rewrite lookup_delete_ne; [done|]. intros ->. apply Hx. by left.
Qed.

Lemma cap_clear_ok fuel : forall d G R owed spent, shaped d (G ++ R) [] -> counted d (G ++ R) owed [] spent -> (forall h, h ∈ G -> on_disk d h) ->
  (length G < fuel)%nat ->
  wp no_panic (cap_clear fuel (default 0 (head R))) (fun _ d' => shaped d' R [] /\ counted d' R owed [] spent /\ db_disk d' = db_disk d /\
    memory d' = memory d - memory_of (db_dirties d) G) d.
Proof.
  induction fuel as [|fuel IH]; intros d G R owed spent Hs Hc HG Hf; [lia|]. cbn [cap_clear]. apply wp_gbind, wp_gget. rewrite (sh_oldest _ _ _ Hs).
  destruct G as [|x G].
  - cbn [app]. rewrite Z.eqb_refl. apply wp_gret. split_and!; try done. unfold memory_of. cbn. lia.
  - cbn [app head default from_option id] in *. assert (x ∈ x :: G ++ R) as HxL by by left. pose proof (shaped_nonzero _ _ _ _ Hs HxL) as Hx0.
    pose proof (sh_nodup _ _ _ Hs) as Hnd. rewrite app_nil_r in Hnd. apply list.NoDup_cons in Hnd as [_ Hnd].
    rewrite (proj2 (Z.eqb_neq x _)). 2: { destruct R as [|y R]; [done|]. cbn. intros ->. apply list.NoDup_cons in Hnd as [Hn _]. apply Hn, elem_of_app. right. by left. }
    destruct (shaped_entry d _ [] x Hs ltac:(set_solver)) as [n Hn]. apply wp_gbind, (wp_dirty _ _ _ n Hn), wp_gbind, wp_gput, wp_gbind, wp_gput, wp_gbind, wp_gput, wp_gbind, wp_gput. cbn.
    assert (cn_flushNext n = default 0 (head (G ++ R))) as Hnext.
    { destruct (sh_list _ _ _ Hs) as (n' & Hn' & _ & Hx & _). by pose proof (eq_trans (eq_sym Hn) Hn') as [= <-]. }
    match goal with |- wp _ _ _ ?e => set (d' := e) end.
    assert (x ∉ G ++ R) as HxGR by (by apply list.NoDup_cons in Hnd as [? _]).
    pose proof (counted_remove d [] x (G ++ R) owed spent Hnd Hc (or_introl (HG x ltac:(by left)))) as Hc1. cbn [app] in Hc1.
    eapply wp_mono.
    + apply (IH d' G R owed spent).
      * by apply (shaped_pop d d' x (G ++ R)).
      * apply (counted_weaken d' _ (fun h => times h (kids_of (db_dirties d) x) + owed h)%nat _ [] _ spent); [intros h; lia|done|lia|].
        apply (counted_tally d); try done. by apply same_tally_delete.
      * intros h Hh. apply HG. by right.
      * cbn in Hf. lia.
    + intros _ d2 (Hs2 & Hc2 & Hd2 & Hm2). split_and!; try done. rewrite Hm2, (memory_of_cons _ _ _ _ Hn).
      assert (memory_of (db_dirties d') G = memory_of (db_dirties d) G) as ->.
      { apply memory_of_ext. intros h Hh. cbn. rewrite lookup_delete_ne; [done|]. intros ->. apply HxGR, elem_of_app. by left. }
      unfold memory. cbn. rewrite lookup_delete_ne by done. unfold dirty_count, node_memory. cbn.
      assert (Z.of_nat (size (db_dirties d)) = Z.of_nat (size (delete x (db_dirties d))) + 1) as Hsz.
      { rewrite <- (insert_delete_id (db_dirties d) x n Hn) at 1. rewrite map_size_insert_None by by rewrite lookup_delete_eq. lia. }
      lia.
Qed.

Lemma Cap_ok d L owed spent limit : shaped d L [] -> counted d L owed [] spent ->
  wp no_panic (Cap limit) (fun err d' => exists L', shaped d' L' [] /\ counted d' L' owed [] spent /\ moved d L d' L' /\
    (err = None -> memory d' <= limit \/ L' = [])) d.
Proof.
  intros Hs Hc. unfold Cap. do 3 apply wp_gbind, wp_gget. apply wp_gbind. unfold wp at 1. rewrite (db_Size_ok _ _ _ Hs). apply wp_gbind, wp_gget, wp_gbind.
  pose proof (dirty_length _ _ Hs) as Hlen. eapply wp_mono; [apply (cap_flush_ok _ d [] L owed spent); try done; [apply batch_ok_nil|by intros h ?%elem_of_nil|by apply Hs]|].
  intros r d1 (Hod & Hc1 & Hmono & Hr). pose proof (only_disk_shaped _ _ _ _ Hod Hs) as Hs1.
  destruct r as [[oldest batch]|err]; [|apply wp_gret; exists L; split_and!; [done|done| |done]; split; [done|split; [by left|done]]].
  destruct Hr as (G & R & -> & -> & Hb & HG & Hsize). apply wp_gbind. eapply wp_mono; [by apply (batch_Write_ok d1 (G ++ R) owed [] spent batch)|].
  intros ok d2 (Hod2 & Hc2 & Hmono2 & Hok). pose proof (only_disk_shaped _ _ _ _ Hod2 Hs1) as Hs2. pose proof (only_disk_trans _ _ _ Hod Hod2) as Hod3.
  destruct ok; cbn [negb].
  2: { apply wp_gret. exists (G ++ R). split_and!; [done|done| |done]. split; [done|]. split; [by left|auto]. }
  apply wp_gbind. eapply wp_mono.
  { apply (cap_clear_ok _ d2 G R owed spent); try done; [intros h Hh; by apply Hok, HG|]. rewrite length_app in Hlen. lia. }
  intros _ d3 (Hs3 & Hc3 & Hd3 & Hm3). apply wp_gbind, wp_gget.
  assert (memory_of (db_dirties d2) G = memory_of (db_dirties d) G /\ memory d2 = memory d) as [E1 E2] by (destruct Hod3 as [mm ->]; done).
  assert (forall d4 : DB, shaped d4 R [] -> quiet d3 d4 -> memory d4 = memory d3 ->
    exists L', shaped (add_flush (dirty_count d - dirty_count d4) (db_dirtiesSize d - db_dirtiesSize d4) d4) L' [] /\
      counted (add_flush (dirty_count d - dirty_count d4) (db_dirtiesSize d - db_dirtiesSize d4) d4) L' owed [] spent /\
      moved d (G ++ R) (add_flush (dirty_count d - dirty_count d4) (db_dirtiesSize d - db_dirtiesSize d4) d4) L' /\
      (@None disk_error = None -> memory (add_flush (dirty_count d - dirty_count d4) (db_dirtiesSize d - db_dirtiesSize d4) d4) <= limit \/ L' = [])) as Hend.
  { intros d4 Hs4 Hq Hm4. pose proof (quiet_counted _ _ _ _ _ _ Hq Hc3) as Hc4. destruct Hq as (_ & Hd4 & _). exists R. split; [by destruct Hs4|]. split; [by destruct Hc4|]. split.
    - unfold moved, on_disk in *. cbn. rewrite Hd4, Hd3. split; [by apply sublist_inserts_l|]. split; [|auto]. intros h [Hh|Hh]%elem_of_app; [right; by apply Hok, HG, Hh|by left].
    - intros _. destruct Hsize as [Hsize|?]; [left|by right]. change (memory (add_flush _ _ d4)) with (memory d4). rewrite Hm4, Hm3, E1, E2. lia. }
  rewrite (sh_oldest _ _ _ Hs3). destruct R as [|y R]; cbn [head default from_option id].
  - rewrite Z.eqb_refl. cbn [negb]. apply wp_gbind, wp_gret, wp_gbind, wp_gput, wp_gret. by apply Hend.
  - assert (y <> 0) as Hy0 by (apply (shaped_nonzero d3 (y :: R) [] y Hs3); by left). rewrite (proj2 (Z.eqb_neq y 0)) by done. cbn [negb].
    destruct (shaped_entry d3 (y :: R) [] y Hs3 ltac:(set_solver)) as [ny Hny].
    apply wp_gbind, (wp_on_dirty _ _ _ _ ny Hny), wp_gbind, wp_gput, wp_gret. apply Hend.
    + pose proof (sh_nodup _ _ _ Hs3) as Hnd. apply list.NoDup_cons in Hnd as [_ Hnd]. cbn in Hnd. apply list.NoDup_cons in Hnd as [Hyn _]. rewrite app_nil_r in Hyn.
      pose proof Hs3 as [s1 s2 s3 s4 s5 s6]. apply (shaped_links d3 _ (y :: R) [] (y :: R) []); try done; cbn [set_dirties put_dirty db_dirties db_oldest].
      * by apply lookup_insert_some with ny.
      * intros n H0. by apply insert_meta with ny.
      * apply (dlist_any_prev _ (Some (0 : Hash))). by apply (dlist_set_prev _ _ _ _ None).
    + by apply (quiet_put _ _ y ny (set_flushPrev 0 ny)).
    + unfold memory. cbn. rewrite lookup_insert_ne by done. unfold dirty_count. cbn. by rewrite map_size_insert_Some by exact (ex_intro _ ny Hny).
Qed.
End cap.
