(* ===== verification/NodeUpdate.v ===== *)
(** * Inserting sets of nodes, and reading nodes *)

From Stdlib Require Import Strings.Byte.
From stdpp Require Import sorting.
From S2P Require Import Prelude.
From S2P Require Import Common.
From S2P Require Import Rlp.
From S2P Require Import StateObject.
From S2P Require Import Encoding.
From S2P Require Import TrieNode.
From S2P Require Import TrieCommit.
From S2P Require Import RlpStream.
From S2P Require Import Decoding.
From S2P Require Import NodeDatabase.
From S2P Require Import NodeGraph.
From S2P Require Import NodeRemoval.
From S2P Require Import NodeInsertion.

(** ** What a set must be like *)

(** The nodes of the sets that are inserted, in their order. *)
Definition handed_over {HO : HashOrder} (nodes : MergedNodeSet) : list memoryNode :=
  filter (fun n => isDeleted n = false) (map snd (concat (map descending (update_order nodes)))).

(** The leaves of the account trie. *)
Definition leaves_of (nodes : MergedNodeSet) : list (list byte * Hash) :=
  match nodes !! (0 : Hash) with Some s => ns_leaves s | None => [] end.

Definition account_root (blob : list byte) : option Hash :=
  match DecodeBytes decode_account blob with Ret (inl (_, _, root, _)) => Some root | _ => None end.

(** The sets fit: the nodes are known under their hashes, what they refer to is
    there or comes first, and the leaves are the accounts with their storage. *)
Record fits {HO : HashOrder} {U : NodeUniverse} (there : Hash -> Prop) (nodes : MergedNodeSet) : Prop := {
  fits_node : forall n, n ∈ handed_over nodes -> mn_node n = content (mn_hash n);
  fits_refs : forall l1 n l2, handed_over nodes = l1 ++ n :: l2 ->
    forall c, c ∈ refs (mn_hash n) -> there c \/ c ∈ map mn_hash l1;
  fits_leaf : forall blob parent, (blob, parent) ∈ leaves_of nodes ->
    exists root, account_root blob = Some root /\
      (root = EmptyRootHash \/ (root ∈ storage parent /\ parent ∈ map mn_hash (handed_over nodes)));
  fits_storage : forall n c, n ∈ handed_over nodes -> c ∈ storage (mn_hash n) ->
    c <> EmptyRootHash /\ exists blob, (blob, mn_hash n) ∈ leaves_of nodes /\ account_root blob = Some c
}.

(** The references that inserting the sets counts. *)
Definition node_weight (n : memoryNode) : Z := Z.of_nat (length (forGatherChildren (mn_node n))).
Definition nodes_weight (l : list memoryNode) : Z := foldr (fun n acc => node_weight n + acc) 0 l.
Definition update_weight {HO : HashOrder} (nodes : MergedNodeSet) : Z :=
  nodes_weight (handed_over nodes) + zlen (leaves_of nodes).

Lemma nodes_weight_cons n l : nodes_weight (n :: l) = node_weight n + nodes_weight l.
Proof. done. Qed.

Lemma nodes_weight_nonneg l : 0 <= nodes_weight l.
Proof. unfold nodes_weight, node_weight. induction l as [|n l IH]; cbn; lia. Qed.

Section update.
Context {C : Type} {CC : CleanCache C} {CCL : CleanCacheLaws CC} {W : DiskWriter} {HO : HashOrder} {HOL : HashOrderLaws HO}
  {U : NodeUniverse} {UL : NodeUniverseLaws U}.
Notation DB := (Database C).
Implicit Types (d : DB) (L : list Hash) (h c hash child parent root : Hash).

(** *** Inserting the nodes *)

(** All sets are one list of nodes. *)
Fixpoint insert_list (l : list memoryNode) : GM DB unit :=
  match l with
  | [] => gret tt
  | n :: l => db_insert (mn_hash n) (mn_size n) (mn_node n) ;;; insert_list l
  end.

Lemma insert_list_app l1 l2 d : insert_list (l1 ++ l2) d = (insert_list l1 ;;; insert_list l2) d.
Proof.
  revert d. induction l1 as [|n l1 IH]; intros d; [done|]. cbn [app insert_list]. unfold gbind in *. destruct (db_insert _ _ _ d) as [[[] d1]| |]; [|done..].
  by rewrite IH.
Qed.

Lemma insert_nodes_list l : forall d, insert_nodes l d = insert_list (filter (fun n => isDeleted n = false) (map snd l)) d.
Proof.
  induction l as [|[p n] l IH]; intros d; [done|]. cbn [insert_nodes map snd]. rewrite filter_cons. unfold gbind. destruct (isDeleted n) eqn:E.
  - rewrite decide_False by done. unfold gret. apply IH.
  - rewrite decide_True by done. cbn [insert_list]. unfold gbind. destruct (db_insert _ _ _ d) as [[[] d1]| |]; [apply IH|done..].
Qed.

Lemma insert_sets_list l : forall d, insert_sets l d = insert_list (filter (fun n => isDeleted n = false) (map snd (concat (map descending l)))) d.
Proof.
  induction l as [|s l IH]; intros d; [done|]. cbn [insert_sets map concat]. rewrite map_app, list.filter_app, insert_list_app. unfold gbind.
  rewrite insert_nodes_list. destruct (insert_list _ d) as [[[] d1]| |]; [apply IH|done..].
Qed.

(** The storage references of the nodes of a list. *)
Definition all_storage (l : list memoryNode) : list (Hash * Hash) := concat (map (fun n => storage_refs (mn_hash n)) l).

Definition insert_listed d L owed late spent (l : list memoryNode) (d' : DB) : Prop :=
  exists L', shaped d' L' [] /\ counted d' L' owed (late ++ all_storage l) (spent + nodes_weight l) /\
    (forall h, h ∈ L' <-> h ∈ L \/ h ∈ map mn_hash l) /\ db_disk d' = db_disk d /\ db_cleans d' = db_cleans d.

Lemma insert_list_ok l : forall d L owed late spent, shaped d L [] -> counted d L owed late spent ->
  (forall n, n ∈ l -> isDeleted n = false /\ mn_node n = content (mn_hash n)) ->
  (forall l1 n l2, l = l1 ++ n :: l2 -> forall c, c ∈ refs (mn_hash n) -> (c ∈ L \/ on_disk d c) \/ c ∈ map mn_hash l1) ->
  0 <= spent -> spent + nodes_weight l < 2 ^ 32 ->
  wp no_panic (insert_list l) (fun _ => insert_listed d L owed late spent l) d.
Proof.
  induction l as [|n l IH]; intros d L owed late spent Hs Hc Hn Hr Hsp Hb; cbn [insert_list].
  { apply wp_gret. exists L. split; [done|]. unfold all_storage. cbn. rewrite app_nil_r, Z.add_0_r. split; [done|]. split; [|done].
    intros h. rewrite elem_of_nil. tauto. }
  destruct (Hn n ltac:(by left)) as [Hdel Hnode]. rewrite nodes_weight_cons in Hb. unfold node_weight in Hb.
  pose proof (nodes_weight_nonneg l) as Hw. rewrite Hnode in Hb |- *. apply wp_gbind. eapply wp_mono.
  { apply (db_insert_ok d L owed late spent); [done|done|by apply Z.eqb_neq| |done|lia].
    intros c Hcr. destruct (Hr [] n l eq_refl c Hcr) as [H|H]; [done|by apply elem_of_nil in H]. }
  intros _ d1 (L1 & Hs1 & Hc1 & HL1 & Hd1 & Hcl1). eapply wp_mono.
  - apply (IH d1 L1 owed (late ++ storage_refs (mn_hash n)) (spent + Z.of_nat (length (forGatherChildren (content (mn_hash n)))))); [done|done| | |lia|lia].
    + intros m Hm. apply Hn. by right.
    + intros l1 m l2 -> c Hcr. destruct (Hr (n :: l1) m l2 eq_refl c Hcr) as [[?|?]|Hin].
      * left. left. apply HL1. by left.
      * left. right. unfold on_disk in *. by rewrite Hd1.
      * cbn [map] in Hin. apply elem_of_cons in Hin as [->|?]; [left; left; apply HL1; by right|by right].
  - intros _ d2 (L2 & Hs2 & Hc2 & HL2 & Hd2 & Hcl2). exists L2. split; [done|]. split.
    + rewrite nodes_weight_cons. unfold all_storage, node_weight. cbn [map concat]. by rewrite Hnode, app_assoc, Z.add_assoc.
    + split; [|by rewrite Hd2, Hcl2]. intros h. rewrite HL2, HL1. cbn [map]. rewrite elem_of_cons. tauto.
Qed.

(** *** Linking accounts with their storage *)

(** What is still to be counted after the leaves. *)
Definition after_leaves (l : list (list byte * Hash)) (late : list (Hash * Hash)) : list (Hash * Hash) :=
  fold_left (fun late '(blob, parent) =>
    match account_root blob with
    | Some root => if root =? EmptyRootHash then late else without (parent, root) late
    | None => late
    end) l late.

Lemma after_leaves_sub l : forall late, after_leaves l late ⊆ late.
Proof.
  induction l as [|[blob parent] l IH]; intros late; [done|]. cbn [after_leaves fold_left]. fold (after_leaves l).
  etrans; [apply IH|]. destruct (account_root blob); [|done]. destruct (_ =? _); [done|]. intros q. by intros [? _]%without_elem.
Qed.

(** All that some leaf names is gone. *)
Lemma after_leaves_covered l parent root : forall late,
  (exists blob, (blob, parent) ∈ l /\ account_root blob = Some root) -> root <> EmptyRootHash -> (parent, root) ∉ after_leaves l late.
Proof.
  induction l as [|[blob p] l IH]; intros late (b & Hin & Hb) Hne; [by apply elem_of_nil in Hin|]. cbn [after_leaves fold_left]. fold (after_leaves l).
  apply elem_of_cons in Hin as [[= -> ->]|Hin]; [|apply IH; eauto]. rewrite Hb, (proj2 (Z.eqb_neq root _)) by done.
  intros [_ Hq]%after_leaves_sub%without_elem. done.
Qed.

Lemma account_root_run blob root : account_root blob = Some root ->
  exists Nonce Balance CodeHash, DecodeBytes decode_account blob = Ret (inl (Nonce, Balance, root, CodeHash)).
Proof.
  unfold account_root. destruct (DecodeBytes decode_account blob) as [[[[[nonce balance] r] code]|]| |]; try done. intros [= ->]. by do 3 eexists.
Qed.

Lemma link_leaves_ok l : forall d L owed late spent, shaped d L [] -> counted d L owed late spent ->
  (forall blob parent, (blob, parent) ∈ l -> exists root, account_root blob = Some root /\
     (root = EmptyRootHash \/ (root ∈ storage parent /\ parent ∈ L))) ->
  0 <= spent -> spent + zlen l < 2 ^ 32 ->
  wp no_panic (link_leaves l) (fun r d' => r = None /\ linked d L owed (after_leaves l late) (spent + zlen l) d') d.
Proof.
  induction l as [|[blob parent] l IH]; intros d L owed late spent Hs Hc Hl Hsp Hb; cbn [link_leaves].
  { apply wp_gret. split; [done|]. rewrite Z.add_0_r. done. }
  destruct (Hl blob parent ltac:(by left)) as (root & Hroot & Hst). destruct (account_root_run _ _ Hroot) as (nonce & balance & code & Hrun).
  cbn [after_leaves fold_left]. fold (after_leaves l). rewrite Hroot. rewrite zlen_cons in *. pose proof (zlen_nonneg l) as Hzl.
  apply wp_gbind, (wp_gpure _ _ _ _ Hrun), wp_gbind.
  assert (wp no_panic (if negb (root =? EmptyRootHash) then reference root parent else gret tt)
    (fun _ => linked d L owed (if root =? EmptyRootHash then late else without (parent, root) late) (spent + 1)) d) as Hstep.
  { destruct (root =? EmptyRootHash) eqn:E; cbn [negb]; zbool.
    - apply wp_gret. split; [done|]. split; [|done]. apply (counted_weaken d L owed _ late _ spent); [done|done|lia|done].
    - destruct Hst as [?|[Hst Hp]]; [done|]. apply reference_late_ok; [done..|lia]. }
  eapply wp_mono; [exact Hstep|]. intros _ d1 (Hs1 & Hc1 & Hd1 & Hcl1). eapply wp_mono.
  - apply (IH d1 L owed (if root =? EmptyRootHash then late else without (parent, root) late) (spent + 1)); [done|done| |lia|lia].
    intros b p Hin. apply Hl. by right.
  - intros r d2 (-> & Hs2 & Hc2 & Hd2 & Hcl2). split; [done|]. split; [done|]. rewrite Hd2, Hcl2.
    replace (spent + (zlen l + 1)) with (spent + 1 + zlen l) by lia. done.
Qed.

(** ** [Update] *)

Definition updated d L owed spent (nodes : MergedNodeSet) (d' : DB) : Prop :=
  exists L', shaped d' L' [] /\ counted d' L' owed [] (spent + update_weight nodes) /\
    (forall h, h ∈ L' <-> h ∈ L \/ h ∈ map mn_hash (handed_over nodes)) /\ db_disk d' = db_disk d.

Lemma all_storage_elem l parent c : (parent, c) ∈ all_storage l -> exists n, n ∈ l /\ mn_hash n = parent /\ c ∈ storage parent.
Proof.
  unfold all_storage. intros (x & Hx & Hin)%list_elem_of_In%in_concat. apply in_map_iff in Hx as (n & <- & Hn). apply in_map_iff in Hin as (c' & [= <- <-] & Hc).
  exists n. by rewrite !list_elem_of_In.
Qed.

Lemma Update_ok d L owed spent nodes : shaped d L [] -> counted d L owed [] spent -> fits (fun h => h ∈ L \/ on_disk d h) nodes ->
  0 <= spent -> spent + update_weight nodes < 2 ^ 32 ->
  wp no_panic (Update nodes) (fun r d' => r = None /\ updated d L owed spent nodes d') d.
Proof.
  intros Hs Hc [fn fr fl fs] Hsp Hb. unfold update_weight in Hb. pose proof (nodes_weight_nonneg (handed_over nodes)) as Hw. pose proof (zlen_nonneg (leaves_of nodes)) as Hz.
  assert (Update nodes = (insert_sets (update_order nodes) ;;; link_leaves (leaves_of nodes))) as -> by (unfold Update, leaves_of; destruct (nodes !! (0 : Hash)); reflexivity).
  apply wp_gbind. unfold wp at 1. rewrite insert_sets_list. fold (handed_over nodes). eapply wp_mono.
  - apply (insert_list_ok (handed_over nodes) d L owed [] spent); [done|done| |exact fr|done|lia]. intros n Hn. split; [|by apply fn].
    unfold handed_over in Hn. by apply list_elem_of_filter in Hn as [? _].
  - intros _ d1 (L1 & Hs1 & Hc1 & HL1 & Hd1 & Hcl1). cbn [app] in Hc1. eapply wp_mono.
    + apply (link_leaves_ok (leaves_of nodes) d1 L1 owed (all_storage (handed_over nodes)) (spent + nodes_weight (handed_over nodes))); [done|done| |lia|lia].
      intros blob parent Hin. destruct (fl blob parent Hin) as (root & Hr & Hor). exists root. split; [done|]. destruct Hor as [?|[? ?]]; [by left|right]. split; [done|].
      apply HL1. by right.
    + intros r d2 (-> & Hs2 & Hc2 & Hd2 & _). split; [done|]. exists L1. split; [done|]. split; [|split; [done|by rewrite Hd2]].
      assert (after_leaves (leaves_of nodes) (all_storage (handed_over nodes)) = []) as Hnil.
      { apply elem_of_nil_inv. intros [parent c] Hin. destruct (all_storage_elem _ _ _ (after_leaves_sub _ _ _ Hin)) as (n & Hn & <- & Hcs).
        destruct (fs n c Hn Hcs) as (Hne & blob & Hbl & Hr). by apply (after_leaves_covered (leaves_of nodes) (mn_hash n) c (all_storage (handed_over nodes))); eauto. }
      rewrite Hnil in Hc2. unfold update_weight. by rewrite Z.add_assoc.
Qed.

(** ** Reading *)

Lemma write_list_nonempty b : write_list b <> [].
Proof. unfold write_list, listhead_encode, puthead. by case_match. Qed.

Lemma writeBytes_nonempty b : writeBytes b <> [].
Proof. unfold writeBytes, encodeStringHeader, puthead. repeat case_match; done. Qed.

Lemma nodeToBytes_nonempty n : zlen (nodeToBytes n) =? 0 = false.
Proof.
  apply Z.eqb_neq. intros H. assert (nodeToBytes n <> []) as Hne by (destruct n; cbn [nodeToBytes]; (apply writeBytes_nonempty || apply write_list_nonempty)).
  destruct (nodeToBytes n); [done|]. rewrite zlen_cons in H. pose proof (zlen_nonneg l). lia.
Qed.

(** A node is found if it is in memory or on disk, and as it was put there; reading it
    changes nothing but the cache. *)
Lemma db_Node_ok d L owed spent h : shaped d L [] -> counted d L owed [] spent -> h <> 0 ->
  wp no_panic (db_Node h) (fun r d' => match r with Some b => (h ∈ L \/ on_disk d h) /\ b = nodeToBytes (content h) | None => ~ (h ∈ L \/ on_disk d h) end /\
    shaped d' L [] /\ counted d' L owed [] spent /\ db_disk d' = db_disk d) d.
Proof.
  intros Hs Hc H0. unfold db_Node. rewrite (proj2 (Z.eqb_neq h 0)) by done. apply wp_gbind, wp_gget.
  destruct (db_cleans d ≫= (fun cl : C => cache_Get cl h)) as [enc|] eqn:Ec.
  { apply wp_gret. split; [|done]. destruct (db_cleans d) as [c|] eqn:Ecl; [|done]. cbn in Ec. pose proof (ct_clean _ _ _ _ _ Hc c h enc Ecl Ec) as Hd.
    destruct (ct_disk _ _ _ _ _ Hc h enc Hd) as [-> _]. split; [right; by eexists|done]. }
  apply wp_gbind, wp_gget. destruct (db_dirties d !! h) as [n|] eqn:En.
  { pose proof (shaped_dirty _ _ _ _ Hs H0 En) as HL. apply wp_gbind, (wp_gpure _ (nodeToBytes (content h))); [exact (entry_rlp _ _ _ _ _ _ _ Hc HL En)|].
    apply wp_gret. split; [|done]. split; [by left|done]. }
  pose proof (shaped_not_dirty _ _ _ _ Hs En) as HL. apply wp_gbind, wp_gget. destruct (db_disk d !! h) as [enc|] eqn:Ed.
  2: { apply wp_gret. split; [|done]. unfold on_disk. rewrite Ed. by intros [?|[? ?]]. }
  destruct (ct_disk _ _ _ _ _ Hc h enc Ed) as [-> _]. rewrite nodeToBytes_nonempty. apply wp_gbind, wp_gput, wp_gret.
  split; [split; [right; by eexists|done]|]. split; [by destruct Hs|]. split; [|done].
  destruct Hc as [c1 c2 c3 c4 c5 c6 c7]. split; try done. intros c h' b'. cbn. destruct (db_cleans d) as [c0|]; [|done]. cbn. intros [= <-].
  intros [[-> ->]|Hg]%cache_Get_Set; [done|by apply (c7 c0)].
Qed.
End update.
