(* ===== verification/NodeSpec.v ===== *)
(** * What the database of trie nodes promises

    A database is used by a sequence of operations. As long as sets of nodes fit, what
    is referenced is there, and nothing is dereferenced more often than it was
    referenced, no operation panics, everything that can be reached from a root that is
    held can be read, and the disk is closed under references at any time. *)

From Stdlib Require Import Strings.Byte.
From stdpp Require Import sorting.
From S2P Require Import Prelude.
From S2P Require Import Common.
From S2P Require Import Rlp.
From S2P Require Import StateObject.
From S2P Require Import TrieNode.
From S2P Require Import TrieCommit.
From S2P Require Import RlpStream.
From S2P Require Import NodeDatabase.
From S2P Require Import NodeGraph.
From S2P Require Import NodeRemoval.
From S2P Require Import NodeInsertion.
From S2P Require Import NodeFlush.
From S2P Require Import NodeUpdate.

(** ** Operations *)

(** The operations of the chain on the database. *)
Inductive db_op : Type :=
| DbUpdate (nodes : MergedNodeSet)
| DbReference (root : Hash)
| DbDereference (root : Hash)
| DbCap (limit : Z)
| DbCommit (root : Hash)
| DbNode (hash : Hash).

Inductive db_answer : Type :=
| DbDone
| DbUpdated (err : option stream_error)
| DbWritten (err : option disk_error)
| DbFound (enc : option (list byte)).

Section spec.
Context {C : Type} {CC : CleanCache C} {CCL : CleanCacheLaws CC} {W : DiskWriter} {HO : HashOrder} {HOL : HashOrderLaws HO}
  {U : NodeUniverse} {UL : NodeUniverseLaws U}.
Notation DB := (Database C).
Implicit Types (d : DB) (L : list Hash) (h c hash child parent root r x : Hash) (held : Hash -> nat).

Definition db_step (op : db_op) : GM DB db_answer :=
  match op with
  | DbUpdate nodes => let* err := Update nodes in gret (DbUpdated err)
  | DbReference root => Reference root 0 ;;; gret DbDone
  | DbDereference root => Dereference root ;;; gret DbDone
  | DbCap limit => let* err := Cap limit in gret (DbWritten err)
  | DbCommit root => let* err := Commit root in gret (DbWritten err)
  | DbNode hash => let* enc := db_Node hash in gret (DbFound enc)
  end.

(** How often a root is held after an operation. *)
Definition held_after (op : db_op) held (h : Hash) : nat :=
  match op with
  | DbReference root => (if decide (h = root) then S (held h) else held h)%nat
  | DbDereference root => (if decide (h = root) then pred (held h) else held h)%nat
  | _ => held h
  end.

(** The references an operation counts. *)
Definition op_weight (op : db_op) : Z :=
  match op with DbUpdate nodes => update_weight nodes | DbReference _ => 1 | _ => 0 end.

(** A node that is in memory or on disk. *)
Definition available d h : Prop := h <> 0 /\ (is_Some (db_dirties d !! h) \/ on_disk d h).

(** What a caller has to see to. *)
Definition admissible d held (op : db_op) : Prop :=
  match op with
  | DbUpdate nodes => fits (available d) nodes
  | DbReference root => available d root
  | DbDereference root => (0 < held root)%nat
  | DbCommit root => root <> 0
  | DbCap _ | DbNode _ => True
  end.

(** ** The states of a database *)

(** A disk of known nodes that has what they refer to. *)
Definition disk_closed (disk : diskdb) : Prop :=
  forall h b, disk !! h = Some b -> b = nodeToBytes (content h) /\ forall c, c ∈ refs h -> is_Some (disk !! c).

(** The states after a number of admissible operations, beginning with what is on
    disk and an empty memory; the references that were counted are fewer than a
    32-bit counter can hold. *)
Inductive reached (disk : diskdb) (cleans : option C) : DB -> (Hash -> nat) -> Z -> Prop :=
| reached_new : reached disk cleans (NewDatabase disk cleans) (fun _ => O) 0
| reached_step d held spent op a d' : reached disk cleans d held spent -> admissible d held op ->
    spent + op_weight op < 2 ^ 32 -> db_step op d = Ret (a, d') ->
    reached disk cleans d' (held_after op held) (spent + op_weight op).

(** A disk to begin with, and a cache that does not contradict it. *)
Definition good_start (disk : diskdb) (cleans : option C) : Prop :=
  disk_closed disk /\ forall cl h b, cleans = Some cl -> cache_Get cl h = Some b -> disk !! h = Some b.

(** The invariant. *)
Definition valid d held (spent : Z) : Prop :=
  0 <= spent /\ (forall r, (0 < held r)%nat -> r <> 0) /\ exists L, shaped d L [] /\ counted d L held [] spent.

(** ** Operations keep the invariant *)

Lemma available_shaped d L h : shaped d L [] -> available d h <-> h <> 0 /\ (h ∈ L \/ on_disk d h).
Proof.
  intros Hs. unfold available. rewrite (sh_dom _ _ _ Hs), app_nil_r, elem_of_cons. tauto.
Qed.

Lemma fits_mono (P Q : Hash -> Prop) nodes : (forall h, P h -> Q h) -> fits P nodes -> fits Q nodes.
Proof. intros H []. split; try done. intros l1 n l2 He c Hc. destruct (fits_refs l1 n l2 He c Hc); [left; by apply H|by right]. Qed.

Lemma held_owe root held h : held_after (DbReference root) held h = owe [root] held h.
Proof.
  unfold owe. rewrite times_cons, times_nil. cbn [held_after]. destruct (decide (h = root)) as [->|Hne]; [by rewrite decide_True|]. by rewrite decide_False by congruence.
Qed.

Lemma owe_held root held h : (0 < held root)%nat -> owe [root] (held_after (DbDereference root) held) h = held h.
Proof.
  intros H. unfold owe. rewrite times_cons, times_nil. cbn [held_after]. destruct (decide (h = root)) as [->|Hne]; [rewrite decide_True by done; lia|].
  by rewrite decide_False by congruence.
Qed.

Lemma update_weight_nonneg nodes : 0 <= update_weight nodes.
Proof. unfold update_weight. pose proof (nodes_weight_nonneg (handed_over nodes)). pose proof (zlen_nonneg (leaves_of nodes)). lia. Qed.

Lemma Dereference_ok d L owed spent root : shaped d L [] -> counted d L (owe [root] owed) [] spent -> root <> 0 ->
  wp no_panic (Dereference root) (fun _ => dropped d L [] owed spent) d.
Proof.
  intros Hs Hc H0. unfold Dereference. rewrite (proj2 (Z.eqb_neq root 0)) by done. do 3 apply wp_gbind, wp_gget. apply wp_gbind. eapply wp_mono.
  - apply (dereference_ok _ d L [] owed spent root 0); [done|done|by left|done|by intros x ?%elem_of_nil|by apply dirty_length].
  - intros _ d1 (L1 & [] & [] & HL & Hd & Hcl). apply wp_gput. exists L1. done.
Qed.

(** What an operation answers, and what it does to the nodes. *)
Definition step_ok d (op : db_op) (a : db_answer) (d' : DB) : Prop :=
  (forall h, on_disk d h -> on_disk d' h) /\
  match op, a with
  | DbUpdate nodes, DbUpdated err =>
      err = None /\ forall h, available d h \/ h ∈ map mn_hash (handed_over nodes) -> available d' h
  | DbReference _, DbDone => forall h, available d h -> available d' h
  | DbDereference _, DbDone => forall h, available d' h -> available d h
  | DbCap limit, DbWritten err =>
      (forall h, available d h -> available d' h) /\
      (err = None -> memory d' <= limit \/ forall h, h <> 0 -> db_dirties d' !! h = None)
  | DbCommit root, DbWritten err =>
      (forall h, available d h -> available d' h) /\ (err = None -> available d root -> on_disk d' root)
  | DbNode hash, DbFound enc =>
      match enc with
      | Some b => available d hash /\ b = nodeToBytes (content hash)
      | None => ~ available d hash
      end
  | _, _ => False
  end.

Lemma moved_available d L d' L' h : shaped d L [] -> shaped d' L' [] -> moved d L d' L' -> available d h -> available d' h.
Proof.
  intros Hs Hs' (_ & H1 & H2). rewrite (available_shaped d L h Hs), (available_shaped d' L' h Hs'). intros [H0 [Hh|Hh]]; split; try done; [by apply H1|right; by apply H2].
Qed.

Lemma valid_step d held spent op : valid d held spent -> admissible d held op -> spent + op_weight op < 2 ^ 32 ->
  wp no_panic (db_step op) (fun a d' => valid d' (held_after op held) (spent + op_weight op) /\ step_ok d op a d') d.
Proof.
  intros (Hsp & Hh0 & L & Hs & Hc) Ha Hw. destruct op as [nodes|root|root|limit|root|hash]; cbn [db_step op_weight] in *; apply wp_gbind.
  - pose proof (update_weight_nonneg nodes) as Hn. eapply wp_mono.
    + apply (Update_ok d L held spent nodes); [done|done| |lia|lia]. eapply fits_mono; [|exact Ha]. intros h [_ Hh]%(available_shaped d L h Hs). done.
    + intros err d' (-> & L' & Hs' & Hc' & HL' & Hd'). apply wp_gret. split; [split; [lia|]; split; [done|]; by exists L'|].
      unfold step_ok, on_disk. rewrite Hd'. split; [done|]. split; [done|]. intros h Hh. apply (available_shaped d' L' h Hs'). unfold on_disk. rewrite Hd', HL'.
      destruct Hh as [Hh|Hh]; [apply (available_shaped d L h Hs) in Hh as [H0 Hh]; tauto|]. split; [|tauto]. apply (shaped_nonzero d' L' [] h Hs'), HL'. by right.
  - destruct (proj1 (available_shaped d L root Hs) Ha) as [H0 Hav]. eapply wp_mono; [by apply (reference_root_ok d L held spent root)|].
    intros _ d' (Hs' & Hc' & Hd' & _). apply wp_gret. split.
    + split; [lia|]. split; [intros r; cbn; destruct (decide (r = root)) as [->|]; [done|apply Hh0]|]. exists L. split; [done|].
      apply (counted_weaken d' L (owe [root] held) _ [] _ (spent + 1)); [intros h; by rewrite held_owe|done|lia|done].
    + unfold step_ok, on_disk. rewrite Hd'. split; [done|]. intros h. rewrite (available_shaped d L h Hs), (available_shaped d' L h Hs'). unfold on_disk. by rewrite Hd'.
  - eapply wp_mono.
    + apply (Dereference_ok d L (held_after (DbDereference root) held) spent root); [done| |by apply Hh0].
      apply (counted_weaken d L held _ [] _ spent); [intros h; by rewrite owe_held|done|lia|done].
    + intros _ d' (L' & Hs' & Hc' & HL' & Hd' & _). apply wp_gret. rewrite Z.add_0_r. split.
      * split; [lia|]. split; [intros r; cbn; destruct (decide (r = root)); [subst; intros; apply Hh0; lia|apply Hh0]|]. by exists L'.
      * unfold step_ok, on_disk. rewrite Hd'. split; [done|]. intros h. rewrite (available_shaped d L h Hs), (available_shaped d' L' h Hs'). unfold on_disk. rewrite Hd'.
        intros [H0 [Hh|Hh]]; [|tauto]. split; [done|left]. by eapply elem_of_sublist.
  - eapply wp_mono; [by apply (Cap_ok d L held spent limit)|]. intros err d' (L' & Hs' & Hc' & Hm & Hsize). apply wp_gret. rewrite Z.add_0_r.
    split; [split; [lia|]; split; [done|]; by exists L'|]. split; [apply Hm|]. split; [intros h; by apply (moved_available d L d' L' h)|].
    intros He. destruct (Hsize He) as [?| ->]; [by left|right]. intros h H0. destruct (db_dirties d' !! h) eqn:E; [|done].
    pose proof (shaped_dirty _ _ _ _ Hs' H0 E) as Hin. by apply elem_of_nil in Hin.
  - eapply wp_mono; [by apply (Commit_ok d L held spent root)|]. intros err d' (L' & Hs' & Hc' & Hm & Hdone). apply wp_gret. rewrite Z.add_0_r.
    split; [split; [lia|]; split; [done|]; by exists L'|]. split; [apply Hm|]. split; [intros h; by apply (moved_available d L d' L' h)|].
    intros He [_ Hav]%(available_shaped d L root Hs). by apply Hdone.
  - rewrite Z.add_0_r. destruct (decide (hash = 0)) as [->|H0].
    + apply wp_gret, wp_gret. split; [split; [lia|]; split; [done|]; by exists L|]. split; [done|]. by intros [? _].
    + eapply wp_mono; [by apply (db_Node_ok d L held spent hash)|]. intros enc d' (He & Hs' & Hc' & Hd'). apply wp_gret.
      split; [split; [lia|]; split; [done|]; by exists L|]. split; [unfold on_disk; by rewrite Hd'|].
      destruct enc as [b|]; rewrite (available_shaped d L hash Hs); [destruct He; by split_and!|tauto].
Qed.

(** ** Every state that is reached *)

Lemma valid_new disk cleans : good_start disk cleans -> valid (NewDatabase disk cleans) (fun _ => O) 0.
Proof.
  intros [Hd Hcl]. split; [done|]. split; [intros r Hr; lia|]. exists []. split.
  - split; cbn; try done.
    + apply list.NoDup_singleton.
    + intros h. rewrite list_elem_of_singleton, lookup_singleton_is_Some. by split; congruence.
    + by eexists _, _.
  - split; cbn; try done; intros h; try (by intros ? ?%elem_of_nil); try (by intros ?%elem_of_nil); try lia.
    all: try by apply Hcl.
Qed.

Lemma reached_valid disk cleans d held spent : good_start disk cleans -> reached disk cleans d held spent -> valid d held spent.
Proof.
  intros Hg. induction 1 as [|d held spent op a d' Hr IH Ha Hw Hrun]; [by apply valid_new|].
  pose proof (valid_step d held spent op IH Ha Hw) as Hs. unfold wp in Hs. rewrite Hrun in Hs. apply Hs.
Qed.

(** Every admissible operation leads on. *)
Lemma reached_next disk cleans d held spent op : good_start disk cleans -> reached disk cleans d held spent -> admissible d held op ->
  spent + op_weight op < 2 ^ 32 ->
  exists a d', db_step op d = Ret (a, d') /\ step_ok d op a d' /\ reached disk cleans d' (held_after op held) (spent + op_weight op).
Proof.
  intros Hg Hr Ha Hw. destruct (wp_returns _ _ _ (valid_step d held spent op (reached_valid _ _ _ _ _ Hg Hr) Ha Hw)) as (a & d' & He & _ & Hok).
  exists a, d'. split; [done|]. split; [done|]. by apply (reached_step disk cleans d held spent op a d').
Qed.

(** What refers to something that is available, refers to what is available. *)
Lemma valid_refs d held spent h c : valid d held spent -> available d h -> c ∈ refs h -> available d c.
Proof.
  intros (_ & _ & L & Hs & Hc). rewrite (available_shaped d L h Hs), (available_shaped d L c Hs). intros [H0 [Hh|[b Hb]]] Hcr; split; try by eapply refs_nonzero.
  - destruct (ct_old _ _ _ _ _ Hc h c Hh Hcr) as [?|[Ho _]]; [by right|left]. by apply (older_elem _ _ _ Ho).
  - right. by apply (ct_disk _ _ _ _ _ Hc h b Hb).
Qed.

Lemma valid_reachable d held spent r h : valid d held spent -> available d r -> reachable r h -> available d h.
Proof. intros Hv Hr. induction 1 as [|h c _ IH Hc]; [done|]. by apply (valid_refs d held spent h c). Qed.

Lemma valid_held d held spent r : valid d held spent -> (0 < held r)%nat -> available d r.
Proof. intros (_ & H0 & L & Hs & Hc) Hr. apply (available_shaped d L r Hs). split; [by apply H0|]. by apply (ct_owed _ _ _ _ _ Hc). Qed.

Lemma valid_Node d held spent h : valid d held spent -> available d h -> exists d', db_Node h d = Ret (Some (nodeToBytes (content h)), d').
Proof.
  intros (_ & _ & L & Hs & Hc) Ha. pose proof (proj1 (available_shaped d L h Hs) Ha) as [H0 HL].
  destruct (wp_returns _ _ _ (db_Node_ok d L held spent h Hs Hc H0)) as (enc & d' & Hr & He & _). rewrite Hr. destruct enc as [b|]; [|done].
  destruct He as [_ ->]. by exists d'.
Qed.

Lemma valid_disk d held spent r h : valid d held spent -> on_disk d r -> reachable r h -> db_disk d !! h = Some (nodeToBytes (content h)).
Proof.
  intros (_ & _ & L & _ & Hc) Hr Hh. assert (on_disk d h) as [b Hb].
  { induction Hh as [|h c _ IH Hcr]; [done|]. destruct IH as [b Hb]. by apply (ct_disk _ _ _ _ _ Hc h b Hb). }
  rewrite Hb. f_equal. apply (ct_disk _ _ _ _ _ Hc h b Hb).
Qed.

(** A database that is opened again, with what is on disk. *)
Lemma valid_restart d held spent : valid d held spent -> valid (NewDatabase (db_disk d) None) (fun _ => O) 0.
Proof.
  intros (_ & _ & L & _ & Hc). apply valid_new. split; [|done]. intros h b Hb. by apply (ct_disk _ _ _ _ _ Hc).
Qed.

(** ** Disks that take every batch *)

Definition accepting : Prop := forall disk batch, disk_accepts disk batch = true.

Lemma batch_Write_accepted batch d ok d' : accepting -> batch_Write batch d = Ret (ok, d') -> ok = true.
Proof. intros Ha. unfold batch_Write, gbind, gget. rewrite Ha. unfold gput, gret. by intros [= <- _]. Qed.

Lemma gbind_Ret {A B} (m : GM DB A) (k : A -> GM DB B) d b d' : gbind m k d = Ret (b, d') -> exists a d1, m d = Ret (a, d1) /\ k a d1 = Ret (b, d').
Proof. unfold gbind. destruct (m d) as [[a d1]| |]; [|done..]. intros H. by exists a, d1. Qed.

Lemma cap_flush_accepted fuel limit : accepting -> forall size oldest batch d res d', cap_flush fuel limit size oldest batch d = Ret (res, d') -> exists y, res = inl y.
Proof.
  intros Ha. induction fuel as [|fuel IH]; intros size oldest batch d res d'; [done|]. cbn [cap_flush]. destruct (_ && _); [|intros [= <- _]; by eexists].
  intros (n & d1 & _ & H)%gbind_Ret. apply gbind_Ret in H as (rlp & d1' & _ & H). apply gbind_Ret in H as (b & d2 & Hb & H). destruct (ValueSize _ >=? IdealBatchSize); [|injection Hb as <- <-; by apply IH in H].
  apply gbind_Ret in Hb as (ok & d3 & Hw & Hok). apply (batch_Write_accepted _ _ _ _ Ha) in Hw as ->. injection Hok as <- <-. by apply IH in H.
Qed.

Lemma Cap_accepted limit d err d' : accepting -> Cap limit d = Ret (err, d') -> err = None.
Proof.
  intros Ha. unfold Cap. do 5 (intros (? & ? & _ & H)%gbind_Ret; revert H). intros ([[oldest batch]|e] & d1 & Hf & H)%gbind_Ret.
  - apply gbind_Ret in H as (ok & d2 & Hw & H). apply (batch_Write_accepted _ _ _ _ Ha) in Hw as ->. cbn [negb] in H.
    do 4 (let a := fresh in let e := fresh in apply gbind_Ret in H as (a & e & _ & H)). by injection H as <- _.
  - by destruct (cap_flush_accepted _ _ Ha _ _ _ _ _ _ Hf) as [y Hy].
Qed.

Lemma commit_all_accepted f hs : (forall h batch d res d', f h batch d = Ret (res, d') -> exists y : Batch, res = inl y) ->
  forall batch d res d', commit_all (C:=C) f hs batch d = Ret (res, d') -> exists y, res = inl y.
Proof.
  intros Hf. induction hs as [|h hs IH]; intros batch d res d'; cbn [commit_all]; [intros [= <- _]; by eexists|].
  intros (r1 & d1 & H1 & H)%gbind_Ret. destruct (Hf _ _ _ _ _ H1) as [x ->]. by apply IH in H.
Qed.

Lemma commit_accepted fuel : accepting -> forall h batch d res d', commit fuel h batch d = Ret (res, d') -> exists y, res = inl y.
Proof.
  intros Ha. induction fuel as [|fuel IH]; intros h batch d res d'; [done|]. cbn [commit]. intros (m & d1 & _ & H)%gbind_Ret.
  destruct (m !! h); [|injection H as <- _; by eexists]. apply gbind_Ret in H as (r1 & d2 & H1 & H). destruct (commit_all_accepted _ _ IH _ _ _ _ H1) as [x ->].
  apply gbind_Ret in H as (rlp & d2' & _ & H).
  destruct (ValueSize _ >=? IdealBatchSize); [|injection H as <- _; by eexists]. apply gbind_Ret in H as (ok & d3 & Hw & H).
  apply (batch_Write_accepted _ _ _ _ Ha) in Hw as ->. cbn [negb] in H. apply gbind_Ret in H as (? & ? & _ & H). injection H as <- _. by eexists.
Qed.

Lemma Commit_accepted root d err d' : accepting -> Commit root d = Ret (err, d') -> err = None.
Proof.
  intros Ha. unfold Commit. intros (? & ? & _ & H)%gbind_Ret. apply gbind_Ret in H as (res & d1 & H1 & H). destruct (commit_accepted _ Ha _ _ _ _ _ H1) as [y ->].
  apply gbind_Ret in H as (ok & d2 & Hw & H). apply (batch_Write_accepted _ _ _ _ Ha) in Hw as ->. cbn [negb] in H.
  do 2 (let a := fresh in let e := fresh in apply gbind_Ret in H as (a & e & _ & H)). by injection H as <- _.
Qed.

(** ** The properties *)

(** C11: The database never fails as long as its callers keep to [admissible], for the
    operations before and for this one: an update hands over sets that fit together, a
    root is available when it is referenced and held when it is dereferenced, the zero hash
    is not committed (it is the meta root, whose encoding dereferences nil), and fewer
    than 2^32 references are made.  Then whatever was updated, referenced, dereferenced,
    capped, committed and read, the operation neither dereferences a missing node nor runs on
    for ever, and does what it is for: an update makes its nodes available, nothing but a
    dereference makes a node unavailable, and reading gives exactly the nodes that are
    available, even when the disk refuses a batch. *)
Theorem node_database_safe disk cleans d held spent op : good_start disk cleans -> reached disk cleans d held spent ->
  admissible d held op -> spent + op_weight op < 2 ^ 32 ->
  exists a d', db_step op d = Ret (a, d') /\ step_ok d op a d'.
Proof.
  intros Hg Hr Ha Hw. destruct (reached_next disk cleans d held spent op Hg Hr Ha Hw) as (a & d' & He & Hok & _). by exists a, d'.
Qed.

(** C12: The state of a held root can be read: as long as a root is referenced more often
    than it is dereferenced, every node that is reached from it is found, with its
    own encoding, whatever has been dropped, flushed and committed meanwhile. *)
Theorem held_root_readable disk cleans d held spent r h : good_start disk cleans -> reached disk cleans d held spent ->
  (0 < held r)%nat -> reachable r h -> exists d', db_Node h d = Ret (Some (nodeToBytes (content h)), d').
Proof.
  intros Hg Hr Hh Hrh. pose proof (reached_valid _ _ _ _ _ Hg Hr) as Hv. apply (valid_Node d held spent h Hv).
  apply (valid_reachable d held spent r h Hv); [|done]. by apply (valid_held d held spent r Hv).
Qed.

(** C13: The disk never has half a trie: at any moment, in the middle of the flushes and
    commits too, everything that is reached from a node on disk is on disk, so that a
    database opened again from the disk alone finds it. *)
Theorem disk_survives_restart disk cleans d held spent r h : good_start disk cleans -> reached disk cleans d held spent ->
  on_disk d r -> reachable r h -> h <> 0 -> exists d', db_Node h (NewDatabase (db_disk d) (@None C)) = Ret (Some (nodeToBytes (content h)), d').
Proof.
  intros Hg Hr Hd Hrh H0. pose proof (reached_valid _ _ _ _ _ Hg Hr) as Hv. apply (valid_Node _ _ _ h (valid_restart d held spent Hv)).
  split; [done|right]. unfold on_disk. cbn. rewrite (valid_disk d held spent r h Hv Hd Hrh). by eexists.
Qed.

(** C21: A commit reaches the disk: when the disk takes what it is given, committing a
    root that is available succeeds, and everything that is reached from the root
    is on disk afterwards. *)
Theorem Commit_persists disk cleans d held spent root : good_start disk cleans -> reached disk cleans d held spent ->
  accepting -> available d root ->
  exists d', Commit root d = Ret (None, d') /\ forall h, reachable root h -> db_disk d' !! h = Some (nodeToBytes (content h)).
Proof.
  intros Hg Hr Hacc Hav. pose proof (reached_valid _ _ _ _ _ Hg Hr) as (Hsp & H0 & L & Hs & Hc).
  destruct (proj1 (available_shaped d L root Hs) Hav) as [Hr0 HL].
  destruct (wp_returns _ _ _ (Commit_ok d L held spent root Hs Hc Hr0)) as (err & d' & He & L' & Hs' & Hc' & _ & Hdone).
  rewrite He. pose proof (Commit_accepted root d err d' Hacc He) as ->. exists d'. split; [done|]. intros h Hh.
  apply (valid_disk d' held spent root h); [|by apply Hdone|done]. split; [done|]. split; [done|]. by exists L'.
Qed.

(** C22: Capping frees the memory: when the disk takes what it is given, the database is
    no larger than the limit afterwards or has no node in memory, and every node that
    was available still is. *)
Theorem Cap_frees_memory disk cleans d held spent limit : good_start disk cleans -> reached disk cleans d held spent -> accepting ->
  exists d', Cap limit d = Ret (None, d') /\ (forall h, available d h -> available d' h) /\
    ((exists size, db_Size d' = Ret (size, d') /\ size <= limit) \/ forall h, h <> 0 -> db_dirties d' !! h = None).
Proof.
  intros Hg Hr Hacc. pose proof (reached_valid _ _ _ _ _ Hg Hr) as (Hsp & H0 & L & Hs & Hc).
  destruct (wp_returns _ _ _ (Cap_ok d L held spent limit Hs Hc)) as (err & d' & He & L' & Hs' & Hc' & Hm & Hsize).
  rewrite He. pose proof (Cap_accepted limit d err d' Hacc He) as ->. exists d'. split; [done|]. split; [intros h; by apply (moved_available d L d' L' h)|].
  destruct (Hsize eq_refl) as [?| ->]; [left; exists (memory d'); split; [by apply (db_Size_ok d' L' [])|done]|right].
  intros h Hh. destruct (db_dirties d' !! h) eqn:E; [|done]. pose proof (shaped_dirty _ _ _ _ Hs' Hh E) as Hin. by apply elem_of_nil in Hin.
Qed.
End spec.
