(* ===== verification/NodeTrie.v ===== *)
(** * Tries in the database of trie nodes

    The nodes that committing a trie hands over can be inserted as they come, and a
    trie whose root is held can be opened from the database at any time; so can the
    storage tries that the leaves of an account trie refer to. *)

From Stdlib Require Import Strings.Byte.
From stdpp Require Import sorting.
From S2P Require Import Prelude.
From S2P Require Import Common.
From S2P Require Import Rlp.
From S2P Require Import Crypto.
From S2P Require Import StateObject.
From S2P Require Import Encoding.
From S2P Require Import TrieKeys.
From S2P Require Import TrieTree.
From S2P Require Import TrieNode.
From S2P Require Import TrieStore.
From S2P Require Import Trie.
From S2P Require Import TrieHash.
From S2P Require Import TrieMap.
From S2P Require Import TrieCommit.
From S2P Require Import CommitSpec.
From S2P Require Import RlpStream.
From S2P Require Import StreamSpec.
From S2P Require Import Decoding.
From S2P Require Import NodeDatabase.
From S2P Require Import NodeGraph.
From S2P Require Import NodeUpdate.
From S2P Require Import NodeSpec.

(** ** The order of paths *)

Lemma bytes_leb_refl a : bytes_leb a a = true.
Proof. induction a as [|x a IH]; [done|]. cbn [bytes_leb]. rewrite IH, andb_true_r, orb_true_iff. right. by apply Byte.byte_dec_lb. Qed.

Lemma bytes_leb_cons x a y b : bytes_leb (x :: a) (y :: b) = true <-> byte_val x < byte_val y \/ (x = y /\ bytes_leb a b = true).
Proof.
  cbn [bytes_leb]. rewrite orb_true_iff, andb_true_iff, Z.ltb_lt. split; (intros [?|[H ?]]; [by left|right; split; [|done]]).
  - by apply Byte.byte_dec_bl.
  - by apply Byte.byte_dec_lb.
Qed.

Lemma bytes_leb_prefix a b : a `prefix_of` b -> bytes_leb a b = true.
Proof. intros [k ->]. induction a as [|x a IH]; [done|]. cbn [app]. apply bytes_leb_cons. by right. Qed.

Lemma bytes_leb_antisym a : forall b, bytes_leb a b = true -> bytes_leb b a = true -> a = b.
Proof.
  induction a as [|x a IH]; intros [|y b]; try done. rewrite !bytes_leb_cons. intros [H1|[-> H1]] [H2|[H2 H3]]; try lia; [by subst; lia|]. f_equal. by apply IH.
Qed.

Lemma bytes_leb_trans a : forall b c, bytes_leb a b = true -> bytes_leb b c = true -> bytes_leb a c = true.
Proof.
  induction a as [|x a IH]; intros [|y b] [|z c]; try done. rewrite !bytes_leb_cons. intros [H1|[-> H1]] [H2|[-> H2]]; try (left; lia).
  right. split; [done|]. by apply (IH b).
Qed.

Lemma bytes_leb_total a : forall b, bytes_leb a b = true \/ bytes_leb b a = true.
Proof.
  induction a as [|x a IH]; intros [|y b]; [by left|by left|by right|]. rewrite !bytes_leb_cons.
  destruct (Z.lt_trichotomy (byte_val x) (byte_val y)) as [?|[Heq|?]]; [by left; left| |by right; left].
  assert (x = y) as -> by (by apply byte_val_inj). destruct (IH b); [left|right]; right; by split.
Qed.

#[export] Instance path_after_trans : Transitive path_after.
Proof. intros a b c H1 H2. unfold path_after in *. by apply (bytes_leb_trans _ (fst b)). Qed.

#[export] Instance path_after_total : Total path_after.
Proof. intros a b. unfold path_after. destruct (bytes_leb_total (fst a) (fst b)); [by right|by left]. Qed.

(** Below a node in a set comes before it. *)
Lemma descending_before s l1 q n l2 q' n' : descending s = l1 ++ (q, n) :: l2 -> ns_nodes s !! q' = Some n' ->
  q `prefix_of` q' -> q <> q' -> (q', n') ∈ l1.
Proof.
  intros He Hq' Hp Hne. assert (StronglySorted path_after (descending s)) as Hs by (apply StronglySorted_merge_sort; apply _).
  assert ((q', n') ∈ descending s) as Hin by (unfold descending; by rewrite merge_sort_Permutation, elem_of_map_to_list).
  rewrite He in Hs, Hin. apply elem_of_app in Hin as [?|Hin]; [done|]. exfalso. apply Hne. apply bytes_leb_antisym; [by apply bytes_leb_prefix|].
  apply elem_of_cons in Hin as [[= -> ->]|Hin]; [apply bytes_leb_refl|]. apply StronglySorted_app_1_r in Hs. apply StronglySorted_inv in Hs as [_ Hs].
  rewrite list.Forall_forall in Hs. by apply (Hs (q', n')).
Qed.

Lemma descending_elem s q n : (q, n) ∈ descending s <-> ns_nodes s !! q = Some n.
Proof. unfold descending. by rewrite merge_sort_Permutation, elem_of_map_to_list. Qed.

(** ** The leaves of a tree *)

Section leaves.
Context {K : Keccak}.
Implicit Types (t u : tree).

(** A leaf that is a node of its own holds a value of the tree. *)
Lemma leaf_has t ks v : canon t -> forall root, TShort ks (TValue v) ∈ trees_at root t -> exists k, has t k v.
Proof.
  induction 1 as [ns w Hn Hw|k ts Hk Hne Hc IH|ts Hlen Hchild IH Hval Htwo]; intros root Hin;
    (apply elem_of_app in Hin as [Hin|Hin]; [destruct (apart root _); [apply list_elem_of_singleton in Hin|by apply elem_of_nil in Hin]|]).
  - injection Hin as -> ->. exists (ns ++ [Byte.x10]). apply has_leaf.
  - by apply elem_of_nil in Hin.
  - done.
  - destruct (IH false Hin) as [r Hr]. exists (k ++ r). by apply has_short_app.
  - done.
  - apply list_elem_of_In, in_concat in Hin as (l & (t & <- & Ht)%in_map_iff & Hin). apply list_elem_of_In in Hin.
    apply list_elem_of_In, list_elem_of_lookup in Ht as [i Hi]. pose proof (lookup_lt_Some _ _ _ Hi) as Hlt.
    destruct (canon_child ts i t ltac:(by constructor) Hi) as [->|[[Hi16 Hct]|[-> (w & -> & _)]]]; [by apply elem_of_nil in Hin| |by apply elem_of_nil in Hin].
    destruct (IH i t Hi Hi16 (canon_not_nil t Hct) false Hin) as [r Hr]. exists (digit i :: r). apply has_full_cons. exists t.
    by rewrite slot_digit by lia.
Qed.

(** All keys of the tree are as long as one another. *)
Definition level t : Prop := forall k v k' v', has t k v -> has t k' v' -> length k = length k'.

Lemma level_no_value ts v : canon (TFull ts) -> level (TFull ts) -> ts !! 16%nat = Some (TValue v) -> False.
Proof.
  intros Hc Hl Hv. destruct (canon_two ts Hc) as (x & y & k1 & k2 & v1 & v2 & Hxy & H1 & H2).
  assert (has (TFull ts) [digit 16] v) as H by (apply has_full_cons; exists (TValue v); split; [by rewrite slot_digit by lia|constructor]).
  assert (forall z k w, has (TFull ts) (z :: k) w -> z = Byte.x10) as Hz; [|by apply Hxy; rewrite (Hz _ _ _ H1), (Hz _ _ _ H2)].
  intros z k w Hk. pose proof (Hl _ _ _ _ H Hk) as He. destruct k; [|done].
  by destruct (canon_key _ _ _ Hc Hk) as [[[_ ?%hexterm_nil]|[? _]]%hexterm_cons _].
Qed.

(** Where keys are as long as one another, a value whose leaf is not embedded is in a
    node of its own. *)
Lemma has_leaf_node t v : canon t -> level t -> (forall ks, 32 <= zlen (tree_enc (TShort ks (TValue v)))) -> forall root k, has t k v ->
  exists ks, TShort ks (TValue v) ∈ trees_at root t.
Proof.
  intros Hc Hl Hbig. induction Hc as [ns w Hn Hw|k0 ts Hk Hne Hc IH|ts Hlen Hchild IH Hval Htwo]; intros root k H.
  - apply has_short_inv in H as (r & -> & [-> ->]%has_value_inv). exists (ns ++ [Byte.x10]). apply elem_of_app. left.
    rewrite (proj2 (apart_spec root (TShort (ns ++ [Byte.x10]) (TValue w)) eq_refl)) by (right; apply Hbig). by left.
  - apply has_short_inv in H as (r & -> & H). destruct (IH) with (root := false) (k := r) as [ks Hks]; [|done|].
    { intros k1 v1 k2 v2 H1 H2. pose proof (Hl (k0 ++ k1) v1 (k0 ++ k2) v2 (proj2 (has_short_app _ _ _ _) H1) (proj2 (has_short_app _ _ _ _) H2)) as He.
      rewrite !length_app in He. lia. }
    exists ks. apply elem_of_app. by right.
  - assert (canon (TFull ts)) as Hc by by constructor. apply has_full_inv in H as (x & t & r & -> & Hx & H).
    assert (t <> TNil) as Ht by (intros ->; by apply has_nil in H).
    destruct (canon_child ts (slot x) t Hc Hx) as [?|[[Hi Hct]|[E (w & -> & _)]]]; [done| |rewrite E in Hx; by destruct (level_no_value ts w Hc Hl)].
    destruct (IH (slot x) t Hx Hi Ht) with (root := false) (k := r) as [ks Hks]; [|done|].
    { intros k1 v1 k2 v2 H1 H2. assert (forall k' v', has t k' v' -> has (TFull ts) (x :: k') v') as Hup by (intros; apply has_full_cons; by exists t).
      pose proof (Hl _ _ _ _ (Hup _ _ H1) (Hup _ _ H2)) as He. by injection He. }
    exists ks. apply elem_of_app. right. by apply (trees_child ts (slot x) t).
Qed.

Lemma tree_leaf_value u v : leaf_value (tree_raw u) = Some v -> exists ks, u = TShort ks (TValue v).
Proof.
  destruct u as [|w|k t|ts]; try done. change (tree_raw (TShort k t)) with (rawShortNode (compact k) (raw_at false t)). unfold raw_at.
  destruct (apart false t); [done|]. destruct t; try done. cbn. intros [= ->]. by exists k.
Qed.

Lemma write_list_longer c : zlen c <= zlen (write_list c).
Proof. unfold write_list. rewrite zlen_app. pose proof (zlen_nonneg (listhead_encode (zlen c))). lia. Qed.

Lemma writeBytes_longer c : zlen c <= zlen (writeBytes c).
Proof. rewrite writeBytes_header, zlen_app. pose proof (zlen_nonneg (header (string_kind c) c)). lia. Qed.

Lemma middle_longer (x y z : list byte) n : n <= zlen y -> n <= zlen (x ++ y ++ z).
Proof. rewrite !zlen_app. pose proof (zlen_nonneg x). pose proof (zlen_nonneg z). lia. Qed.

Lemma account_large v r : zlen v < 2 ^ 62 -> account_root v = Some r -> 32 <= zlen v.
Proof.
  intros Hv. unfold account_root. destruct (DecodeBytes decode_account v) as [[[[[n b] root] code]|err]| |] eqn:E; try done. intros _.
  apply (proj2 (StateAccount_roundtrip v Hv)) in E as (_ & _ & E). clear Hv. revert E. unfold StateAccount_EncodeRLP.
  destruct (b <? 0); [done|]. intros E. apply (inj Some) in E as <-. etrans; [|apply write_list_longer]. rewrite app_assoc. apply middle_longer.
  etrans; [|apply writeBytes_longer]. unfold zlen, hash_bytes. by rewrite length_be_bytes.
Qed.

(** An account is too large to be embedded. *)
Lemma account_leaf_large v r ks : zlen v < 2 ^ 62 -> account_root v = Some r -> 32 <= zlen (tree_enc (TShort ks (TValue v))).
Proof.
  intros Hv Hr. etrans; [by apply (account_large v r)|]. clear Hv Hr. rewrite tree_enc_short. cbn [encode_item map concat].
  etrans; [|apply write_list_longer]. unfold tree_ref, collapse. cbn [short_or_full andb tree_item encode_item].
  apply middle_longer. apply writeBytes_longer.
Qed.
End leaves.

Section tries.
Context {K : Keccak} {C : Type} {CC : CleanCache C} {CCL : CleanCacheLaws CC} {W : DiskWriter} {HO : HashOrder} {HOL : HashOrderLaws HO}
  {U : NodeUniverse} {UL : NodeUniverseLaws U}.
Notation DB := (Database C).
Implicit Types (d : DB) (h c owner : Hash) (held : Hash -> nat) (t u : tree).

(** [hashReader.NodeBlob]: the nodes a trie reads. *)
Definition hashReader_NodeBlob d : NodeStore :=
  {| NodeBlob _ hash := match db_Node hash d with Ret (blob, _) => blob | _ => None end |}.

(** The storage trie of the account in a leaf, where leaves are accounts. *)
Definition storage_roots (collectLeaf : bool) (r : rawtrie) : list Hash :=
  match leaf_value r with
  | Some v =>
      if collectLeaf then match account_root v with Some root => if root =? EmptyRootHash then [] else [root] | None => [] end else []
  | None => []
  end.

(** The nodes of a tree are known under their hashes, and with them the storage tries of
    the accounts, if it is the account trie. *)
Definition known (collectLeaf : bool) u : Prop :=
  content (BytesToHash (tree_hash u)) = tree_raw u /\ storage (BytesToHash (tree_hash u)) = storage_roots collectLeaf (tree_raw u).
Definition knows (collectLeaf : bool) t : Prop := forall u, u ∈ trees_at true t -> known collectLeaf u.

Lemma storage_roots_elem cl r c : c ∈ storage_roots cl r <->
  cl = true /\ exists v, leaf_value r = Some v /\ account_root v = Some c /\ c <> EmptyRootHash.
Proof.
  unfold storage_roots. split.
  - destruct (leaf_value r) as [v|]; [|by intros ?%elem_of_nil]. destruct cl; [|by intros ?%elem_of_nil].
    destruct (account_root v) as [root|] eqn:E; [|by intros ?%elem_of_nil]. destruct (root =? EmptyRootHash) eqn:Ee; [by intros ?%elem_of_nil|].
    zbool. intros ->%list_elem_of_singleton. split; [done|]. by exists v.
  - intros (-> & v & -> & -> & Hc). rewrite (proj2 (Z.eqb_neq _ _) Hc). by left.
Qed.

Lemma reader_available d held spent p h : valid d held spent -> available d h -> NodeBlob (NodeStore:=hashReader_NodeBlob d) p h = Some (nodeToBytes (content h)).
Proof. intros Hv Ha. cbn. by destruct (valid_Node d held spent h Hv Ha) as [d' ->]. Qed.

Lemma reader_found d held spent p h : valid d held spent -> is_Some (NodeBlob (NodeStore:=hashReader_NodeBlob d) p h) -> available d h.
Proof.
  intros (_ & _ & L & Hs & Hc) [b Hb]. cbn in Hb. destruct (decide (h = 0)) as [->|H0]; [done|].
  destruct (wp_returns _ _ _ (db_Node_ok d L held spent h Hs Hc H0)) as (enc & d' & Hr & He & _). rewrite Hr in Hb. subst enc.
  apply (available_shaped d L h Hs). split; [done|apply He].
Qed.

(** ** A root that is there can be opened *)

Section opening.
Context (cl : bool).

Definition known_below t : Prop := forall u, u ∈ trees_below t -> known cl u.

Lemma refs_known u c : content (BytesToHash (tree_hash u)) = tree_raw u -> c ∈ forGatherChildren (tree_raw u) -> c ∈ refs (BytesToHash (tree_hash u)).
Proof. intros He Hc. unfold refs. rewrite He. apply elem_of_app. by left. Qed.

Lemma child_available d held spent p t : valid d held spent -> short_or_full t = true ->
  (forall u, u ∈ trees_at false t -> known cl u) ->
  (forall c, c ∈ forGatherChildren (raw_at false t) -> available d c) ->
  kept (N:=hashReader_NodeBlob d) p t /\ (forall c, c ∈ forGatherChildren (tree_raw t) -> available d c).
Proof.
  intros Hv Hsf Hk Ha. pose proof (apart_spec false t Hsf) as Hap. unfold raw_at in Ha. unfold trees_at in Hk. destruct (apart false t).
  - destruct (Hk t ltac:(by left)) as [Hct _]. assert (available d (BytesToHash (tree_hash t))) as Hh by (apply Ha; by left). split.
    + intros _. rewrite (reader_available d held spent p _ Hv Hh), Hct, tree_raw_enc. done.
    + intros c Hc. apply (valid_refs d held spent _ c Hv Hh). by apply refs_known.
  - split; [|done]. intros Hb. exfalso. assert (false = true) as Hf by (apply Hap; by right). done.
Qed.

Lemma gather_child ts i t c : ts !! i = Some t -> (i < 16)%nat -> c ∈ forGatherChildren (raw_at false t) -> c ∈ forGatherChildren (tree_raw (TFull ts)).
Proof.
  intros Ht Hi Hc. change (tree_raw (TFull ts)) with (rawFullNode (map (raw_at false) ts)). cbn [forGatherChildren].
  apply list_elem_of_In, in_concat. exists (forGatherChildren (raw_at false t)). rewrite <- !list_elem_of_In. split; [|done].
  apply list_elem_of_lookup. exists i. rewrite lookup_take_lt by done. rewrite !list_lookup_fmap, Ht. done.
Qed.

Lemma kids_available d held spent t : valid d held spent -> canon t -> forall p, known_below t ->
  (forall c, c ∈ forGatherChildren (tree_raw t) -> available d c) -> kids (N:=hashReader_NodeBlob d) p t.
Proof.
  intros Hv Hc. induction Hc as [ns v Hn Hw|k ts Hk Hne Hc IH|ts Hlen Hchild IH Hval Htwo]; intros p Hkn Ha.
  - constructor.
  - destruct (child_available d held spent (p ++ k) (TFull ts) Hv eq_refl Hkn Ha) as [H1 H2]. constructor; [done|]. apply IH; [|done].
    intros u Hu. apply Hkn. by apply (trees_at_below false (TFull ts)).
  - assert (forall i t, ts !! i = Some t -> (i < 16)%nat -> t <> TNil -> kept (N:=hashReader_NodeBlob d) (p ++ [digit i]) t /\
      (forall c, c ∈ forGatherChildren (tree_raw t) -> available d c)) as Hch.
    { intros i t Ht Hi Hnil. apply (child_available d held spent); [done|by destruct (Hchild i t Ht Hi Hnil)| |].
      - intros u Hu. apply Hkn. by apply (trees_child ts i t Ht).
      - intros c Hcr. apply Ha. by apply (gather_child ts i t). }
    constructor; [intros i t Ht Hi Hnil; by apply (Hch i t)|]. intros i t Ht Hi Hnil. apply (IH i t); [done..| |by apply (Hch i t)].
    intros u Hu. apply Hkn. by apply (trees_child ts i t Ht), trees_at_below.
Qed.

Lemma root_stored d held spent t : valid d held spent -> canon t -> knows cl t -> available d (BytesToHash (tree_hash t)) ->
  stored (N:=hashReader_NodeBlob d) [] t.
Proof.
  intros Hv Hc Hk Ha. destruct (Hk t ltac:(by left)) as [Hct _]. split.
  - rewrite (reader_available d held spent [] _ Hv Ha), Hct, tree_raw_enc. done.
  - apply (kids_available d held spent t Hv Hc); [intros u Hu; apply Hk; by right|]. intros c Hcr. apply (valid_refs d held spent _ c Hv Ha). by apply refs_known.
Qed.

(** Everything of a tree is reached from its root, accounts with their storage tries. *)
Lemma child_reachable t r h : short_or_full t = true -> (forall u, u ∈ trees_at false t -> known cl u) -> reachable r h ->
  (forall c, c ∈ forGatherChildren (raw_at false t) -> c ∈ refs h) ->
  (forall h', reachable r h' -> (forall c, c ∈ forGatherChildren (tree_raw t) -> c ∈ refs h') ->
     forall u, u ∈ trees_below t -> reachable r (BytesToHash (tree_hash u))) ->
  forall u, u ∈ trees_at false t -> reachable r (BytesToHash (tree_hash u)).
Proof.
  intros Hsf Hk Hr Ha IH u Hu. unfold raw_at in Ha. unfold trees_at in Hk, Hu. destruct (apart false t); [|by apply (IH h)].
  assert (reachable r (BytesToHash (tree_hash t))) as Ht by (apply (reachable_ref r h); [done|apply Ha; by left]).
  apply elem_of_app in Hu as [->%list_elem_of_singleton|Hu]; [done|]. apply (IH (BytesToHash (tree_hash t))); [done| |done].
  intros c Hc. apply refs_known; [|done]. apply Hk. by left.
Qed.

Lemma below_reachable t r : canon t -> forall h, known_below t -> reachable r h -> (forall c, c ∈ forGatherChildren (tree_raw t) -> c ∈ refs h) ->
  forall u, u ∈ trees_below t -> reachable r (BytesToHash (tree_hash u)).
Proof.
  induction 1 as [ns v Hn Hw|k ts Hk Hne Hc IH|ts Hlen Hchild IH Hval Htwo]; intros h Hkn Hr Ha u Hu.
  - by apply elem_of_nil in Hu.
  - apply (child_reachable (TFull ts) r h); [done|exact Hkn|done|exact Ha| |exact Hu]. intros h' Hr' Ha' u' Hu'. apply (IH h'); [|done..].
    intros x Hx. apply Hkn. by apply (trees_at_below false (TFull ts)).
  - apply list_elem_of_In, in_concat in Hu as (l & (t & <- & Ht)%in_map_iff & Hu). apply list_elem_of_In in Hu.
    apply list_elem_of_In, list_elem_of_lookup in Ht as [i Hi]. pose proof (lookup_lt_Some _ _ _ Hi) as Hlt.
    destruct (canon_child ts i t ltac:(by constructor) Hi) as [->|[[Hi16 Hct]|[-> (w & -> & _)]]]; [by apply elem_of_nil in Hu| |by apply elem_of_nil in Hu].
    assert (forall x, x ∈ trees_at false t -> known cl x) as Hkt by (intros x Hx; apply Hkn; by apply (trees_child ts i t)).
    apply (child_reachable t r h); [by destruct Hct|done|done| | |done].
    + intros c Hcr. apply Ha. by apply (gather_child ts i t).
    + intros h' Hr' Ha' u' Hu'. apply (IH i t Hi Hi16 (canon_not_nil t Hct) h'); [|done..]. intros x Hx. by apply Hkt, trees_at_below.
Qed.

Lemma tree_reachable t u : canon t -> knows cl t -> u ∈ trees_at true t -> reachable (BytesToHash (tree_hash t)) (BytesToHash (tree_hash u)).
Proof.
  intros Hc Hk Hu. apply elem_of_app in Hu as [Hu|Hu]; [cbn in Hu; apply list_elem_of_singleton in Hu as ->; constructor|].
  apply (below_reachable t _ Hc (BytesToHash (tree_hash t))); [intros x Hx; apply Hk; by right|constructor| |done].
  intros c Hcr. apply refs_known; [|done]. apply Hk. by left.
Qed.

End opening.

(** ** Sets that are handed over can be inserted *)

Definition hand (s : NodeSet) : list memoryNode := filter (fun n => isDeleted n = false) (map snd (descending s)).

Lemma handed_over_concat nodes : handed_over nodes = concat (map hand (update_order nodes)).
Proof.
  unfold handed_over. induction (update_order nodes) as [|s l IH]; [done|]. cbn [map concat]. by rewrite map_app, list.filter_app, IH.
Qed.

Lemma update_order_elem nodes s : s ∈ update_order nodes <-> exists o, nodes !! o = Some s.
Proof.
  unfold update_order. rewrite elem_of_app, list_elem_of_omap. split.
  - intros [(o & _ & Ho)|Hs]; [by exists o|]. exists 0. destruct (nodes !! (0 : Hash)); [|by apply elem_of_nil in Hs].
    by apply list_elem_of_singleton in Hs as ->.
  - intros (o & Ho). destruct (decide (o = 0)) as [->|Hne]; [right; rewrite Ho; by left|left]. exists o. split; [|done].
    rewrite hash_order_perm, elem_of_elements. apply (elem_of_dom (M:=gmap Hash)). exists s.
    exact (eq_trans (lookup_delete_ne (M:=gmap Hash) nodes (0 : Hash) o (not_eq_sym Hne)) Ho).
Qed.

(** The account trie comes last. *)
Lemma update_order_account s (others : MergedNodeSet) : others !! (0 : Hash) = None ->
  update_order (<[(0 : Hash) := s]> others) = update_order others ++ [s].
Proof.
  intros H0. unfold update_order. assert ((<[(0 : Hash) := s]> others) !! (0 : Hash) = Some s) as -> by apply (lookup_insert_eq (M:=gmap Hash)).
  rewrite H0. cbn [option_list]. rewrite app_nil_r. f_equal.
  assert (delete (0 : Hash) (<[(0 : Hash) := s]> others) = delete (0 : Hash) others) as -> by apply (delete_insert_eq (M:=gmap Hash)).
  assert (forall l : list Hash, (forall o, o ∈ l -> o <> 0) ->
    omap (fun o => (<[(0 : Hash) := s]> others) !! o) l = omap (fun o => others !! o) l) as Hl.
  { induction l as [|o l IH]; intros Ho; [done|]. cbn [omap list_omap].
    assert ((<[(0 : Hash) := s]> others) !! o = others !! o) as ->.
    { apply (lookup_insert_ne (M:=gmap Hash)). intros <-. by apply (Ho 0 ltac:(by left)). }
    rewrite IH; [done|]. intros x Hx. apply Ho. by right. }
  apply Hl. intros o Ho. rewrite hash_order_perm, elem_of_elements in Ho. apply (elem_of_dom (M:=gmap Hash)) in Ho as [x Hx].
  intros ->. pose proof (eq_trans (eq_sym Hx) (lookup_delete_eq (M:=gmap Hash) others (0 : Hash))). done.
Qed.

Lemma concat_split {A B} (f : A -> list B) L : forall l1 n l2, concat (map f L) = l1 ++ n :: l2 ->
  exists L1 x L2 a b, L = L1 ++ x :: L2 /\ f x = a ++ n :: b /\ l1 = concat (map f L1) ++ a.
Proof.
  induction L as [|x L IH]; intros l1 n l2; cbn [map concat]; [by destruct l1|]. intros He. apply app_eq_inv in He as [(k & Hf & Hk)|(k & -> & Hk)].
  - destruct k as [|n' k].
    + cbn [app] in Hk. destruct (IH [] n l2 (eq_sym Hk)) as (L1 & y & L2 & a & b & -> & Hy & Hnil).
      exists (x :: L1), y, L2, a, b. split; [done|]. split; [done|]. cbn [map concat]. rewrite <- app_assoc, <- Hnil, Hf. by rewrite !app_nil_r.
    + injection Hk as <- Hk. by exists [], x, L, l1, k.
  - destruct (IH k n l2 Hk) as (L1 & y & L2 & a & b & -> & Hy & ->). exists (x :: L1), y, L2, a, b. cbn [map concat]. by rewrite <- app_assoc.
Qed.

(** A position in what is handed over is a position in the paths. *)
Lemma filter_snd_split (l : list (list byte * memoryNode)) : forall l1 n l2, filter (fun n => isDeleted n = false) (map snd l) = l1 ++ n :: l2 ->
  exists k1 q k2, l = k1 ++ (q, n) :: k2 /\ l1 = filter (fun n => isDeleted n = false) (map snd k1).
Proof.
  induction l as [|[q m] l IH]; intros l1 n l2; cbn [map snd]; [by destruct l1|]. rewrite filter_cons. destruct (decide (isDeleted m = false)) as [Hd|Hd].
  - destruct l1 as [|x l1]; cbn [app]; intros [= -> He].
    + by exists [], q, l.
    + destruct (IH _ _ _ He) as (k1 & q' & k2 & -> & ->). exists ((q, x) :: k1), q', k2. split; [done|]. cbn [map snd]. rewrite filter_cons. by rewrite decide_True.
  - intros He. destruct (IH _ _ _ He) as (k1 & q' & k2 & -> & ->). exists ((q, m) :: k1), q', k2. split; [done|]. cbn [map snd]. rewrite filter_cons. by rewrite decide_False.
Qed.

Lemma hand_elem s n : n ∈ hand s <-> isDeleted n = false /\ exists q, ns_nodes s !! q = Some n.
Proof.
  unfold hand. rewrite list_elem_of_filter. split; intros [Hd Hn]; (split; [done|]).
  - apply list_elem_of_In, in_map_iff in Hn as ([q n'] & <- & Hin). exists q. by apply descending_elem, list_elem_of_In.
  - destruct Hn as [q Hq]. apply list_elem_of_In, in_map_iff. exists (q, n). split; [done|]. by apply list_elem_of_In, descending_elem.
Qed.

Lemma handed_elem nodes n : n ∈ handed_over nodes <-> exists o s, nodes !! o = Some s /\ n ∈ hand s.
Proof.
  rewrite handed_over_concat, list_elem_of_In, in_concat. split.
  - intros (l & (s & <- & Hs)%in_map_iff & Hn). apply list_elem_of_In, update_order_elem in Hs as (o & Ho). exists o, s. by rewrite list_elem_of_In.
  - intros (o & s & Ho & Hn). exists (hand s). split; [|by apply list_elem_of_In]. apply in_map, list_elem_of_In, update_order_elem. by exists o.
Qed.

(** The set of one trie. *)
Section one_set.
Context (d : DB) (held : Hash -> nat) (spent : Z) (cl : bool) (t : tree) (s : NodeSet).
Context (Hv : valid d held spent) (Hk : knows cl t) (Hset : set_of (hashReader_NodeBlob d) cl t (Some s)).

Lemma set_node n : n ∈ hand s -> exists u, u ∈ trees_at true t /\ mn_hash n = BytesToHash (tree_hash u) /\ mn_node n = tree_raw u.
Proof using Hset.
  intros (Hd & q & Hq)%hand_elem. destruct Hset as [Hs _]. destruct (Hs q n Hq Hd) as (u & Hu & H1 & H2 & _). by exists u.
Qed.

Lemma set_known n : n ∈ hand s -> mn_node n = content (mn_hash n) /\ storage (mn_hash n) = storage_roots cl (mn_node n).
Proof using Hset Hk. intros (u & Hu & -> & ->)%set_node. destruct (Hk u Hu) as [-> ->]. done. Qed.

(** What a node refers to in its trie is there or comes before it. *)
Lemma set_refs a n b c : hand s = a ++ n :: b -> c ∈ forGatherChildren (mn_node n) -> available d c \/ c ∈ map mn_hash a.
Proof using CCL HOL UL Hset Hv.
  intros He Hc. destruct (filter_snd_split _ _ _ _ He) as (k1 & q & k2 & Hsp & ->).
  assert (n ∈ hand s) as [Hd _]%hand_elem by (rewrite He; apply elem_of_app; right; by left).
  assert (ns_nodes s !! q = Some n) as Hq by (apply descending_elem; rewrite Hsp; apply elem_of_app; right; by left).
  destruct Hset as [Hs _]. destruct (Hs q n Hq Hd) as (u & Hu & _ & Hr & Hf). rewrite Hr in Hc.
  destruct (Hf c Hc) as (x & [[p Hp]|(q' & n' & Hpq & Hq' & Hd' & <-)]); [left; by apply (reader_found d held spent p)|right].
  assert ((q', n') ∈ k1) as Hin.
  { apply (descending_before s k1 q n k2); [done|done|etrans; [|exact Hpq]; by exists [x]|]. intros <-. by apply (ext_ne q [x] q). }
  apply list_elem_of_In, in_map, list_elem_of_In, list_elem_of_filter. split; [done|]. apply list_elem_of_In, in_map_iff. exists (q', n').
  split; [done|]. by apply list_elem_of_In.
Qed.

Lemma set_root : t <> TNil -> available d (tree_root t) \/ tree_root t ∈ map mn_hash (hand s).
Proof using CCL HOL UL Hset Hv.
  intros Ht. destruct Hset as (_ & Hr & _). destruct (Hr Ht) as [[q Hq]|(q & mn & _ & Hq & Hd & <-)]; [left; by apply (reader_found d held spent q)|right].
  apply list_elem_of_In, in_map, list_elem_of_In, hand_elem. split; [done|by exists q].
Qed.
End one_set.

(** *** Storage tries *)

(** Sets that committing storage tries gives. *)
Definition storage_sets d (others : MergedNodeSet) : Prop :=
  forall o s, others !! o = Some s -> o <> 0 /\ exists t, knows false t /\ set_of (hashReader_NodeBlob d) false t (Some s).

Lemma storage_none n : storage_roots false n = [].
Proof. unfold storage_roots. by destruct (leaf_value n). Qed.

Lemma refs_known_node d held spent cl t s n c : knows cl t -> set_of (hashReader_NodeBlob d) cl t (Some s) -> n ∈ hand s -> valid d held spent ->
  c ∈ refs (mn_hash n) -> c ∈ forGatherChildren (mn_node n) \/ c ∈ storage_roots cl (mn_node n).
Proof. intros Hk Hs Hn Hv Hc. destruct (set_known d cl t s Hk Hs n Hn) as [He Hst]. unfold refs in Hc. rewrite <- He, Hst in Hc. by apply elem_of_app in Hc. Qed.

Lemma storage_fits d held spent others : valid d held spent -> storage_sets d others -> fits (available d) others.
Proof.
  intros Hv Ho. split.
  - intros n (o & s & Hs & Hn)%handed_elem. destruct (Ho o s Hs) as (_ & t & Hk & Hset). by apply (set_known d false t s Hk Hset).
  - intros l1 n l2 He c Hc. rewrite handed_over_concat in He. destruct (concat_split _ _ _ _ _ He) as (L1 & s & L2 & a & b & HL & Hs & ->).
    assert (s ∈ update_order others) as (o & Hos)%update_order_elem by (rewrite HL; apply elem_of_app; right; by left).
    destruct (Ho o s Hos) as (_ & t & Hk & Hset). assert (n ∈ hand s) as Hn by (rewrite Hs; apply elem_of_app; right; by left).
    apply (refs_known_node d held spent false t s n c Hk Hset Hn Hv) in Hc as [Hc|Hc]; [|rewrite storage_none in Hc; by apply elem_of_nil in Hc].
    destruct (set_refs d held spent false t s Hv Hset a n b c Hs Hc) as [?|Hin]; [by left|right]. rewrite map_app. apply elem_of_app. by right.
  - intros blob parent. unfold leaves_of. destruct (others !! (0 : Hash)) as [s|] eqn:E; [by destruct (Ho 0 s E)|by intros ?%elem_of_nil].
  - intros n c (o & s & Hs & Hn)%handed_elem Hc. destruct (Ho o s Hs) as (_ & t & Hk & Hset).
    destruct (set_known d false t s Hk Hset n Hn) as [_ Hst]. rewrite Hst, storage_none in Hc. by apply elem_of_nil in Hc.
Qed.

(** *** The account trie *)

(** The values of the account trie are accounts; a storage trie is in the database or is
    handed over with it.  The keys are hashes. *)
Record accounts_in d (others : MergedNodeSet) (m : contents) : Prop := {
  ai_root : forall k v, m !! k = Some v -> exists r, account_root v = Some r /\
    (r = EmptyRootHash \/ available d r \/ r ∈ map mn_hash (handed_over others));
  ai_keys : forall k v k' v', m !! k = Some v -> m !! k' = Some v' -> length k = length k'
}.

Lemma leaf_account d others m t u v : tree_of t m -> accounts_in d others m -> u ∈ trees_at true t -> leaf_value (tree_raw u) = Some v ->
  exists r, account_root v = Some r /\ (r = EmptyRootHash \/ available d r \/ r ∈ map mn_hash (handed_over others)).
Proof.
  intros [[->|Hc] Ht] Ha Hu Hv.
  - apply elem_of_app in Hu as [Hu|Hu]; [cbn in Hu; by apply list_elem_of_singleton in Hu as ->|by apply elem_of_nil in Hu].
  - apply tree_leaf_value in Hv as [ks ->]. destruct (leaf_has t ks v Hc true Hu) as [k Hk]. apply Ht in Hk as (key & _ & Hkey).
    by apply (ai_root _ _ _ Ha key).
Qed.

Lemma account_fits d held spent t m s others : valid d held spent -> storage_sets d others -> others !! (0 : Hash) = None ->
  tree_of t m -> knows true t -> set_of (hashReader_NodeBlob d) true t (Some s) -> accounts_in d others m ->
  fits (available d) (<[(0 : Hash) := s]> others).
Proof.
  intros Hv Ho H0 Ht Hk Hset Ha. pose proof (storage_fits d held spent others Hv Ho) as Hfo. set (nodes := <[(0 : Hash) := s]> others).
  assert (nodes !! (0 : Hash) = Some s) as Hns by apply (lookup_insert_eq (M:=gmap Hash)).
  assert (handed_over nodes = handed_over others ++ hand s) as Hho.
  { rewrite !handed_over_concat. unfold nodes. rewrite update_order_account by done. rewrite map_app, concat_app. cbn [map concat]. by rewrite app_nil_r. }
  assert (forall k n l2 c, hand s = k ++ n :: l2 -> c ∈ refs (mn_hash n) -> available d c \/ c ∈ map mn_hash (handed_over others ++ k)) as Href.
  { intros k n l2 c He Hc. assert (n ∈ hand s) as Hn by (rewrite He; apply elem_of_app; right; by left). rewrite map_app, elem_of_app.
    apply (refs_known_node d held spent true t s n c Hk Hset Hn Hv) in Hc as [Hc|(_ & v & Hval & Hrt & Hne)%storage_roots_elem].
    - destruct (set_refs d held spent true t s Hv Hset k n l2 c He Hc); tauto.
    - destruct (set_node d true t s Hset n Hn) as (u & Hu & _ & Hr). rewrite Hr in Hval.
      destruct (leaf_account d others m t u v Ht Ha Hu Hval) as (r & Hr' & Hcase). assert (r = c) as -> by congruence. tauto. }
  split.
  - intros n. rewrite Hho. intros [Hn|Hn]%elem_of_app; [by apply Hfo|]. by apply (set_known d true t s Hk Hset).
  - intros l1 n l2 He c Hc. rewrite Hho in He. apply app_eq_inv in He as [(k & Hf & Hsplit)|(k & -> & Hsplit)].
    + destruct k as [|n' k].
      * cbn [app] in Hsplit. rewrite app_nil_r in Hf. subst l1. pose proof (Href [] n l2 c (eq_sym Hsplit) Hc) as Hr. by rewrite app_nil_r in Hr.
      * injection Hsplit as <- _. by apply (fits_refs _ _ Hfo l1 n k).
    + by apply (Href k n l2).
  - intros blob parent. unfold leaves_of. rewrite Hns. intros Hin. destruct Hset as (Hs & _ & Hl & _).
    destruct (Hl _ _ Hin) as (_ & q & mn & _ & Hq & Hd & <- & Hval). destruct (Hs q mn Hq Hd) as (u & Hu & Hh & Hr & _). rewrite Hr in Hval.
    destruct (leaf_account d others m t u blob Ht Ha Hu Hval) as (r & Hrt & _). exists r. split; [done|].
    destruct (decide (r = EmptyRootHash)) as [->|Hne]; [by left|right]. split.
    + rewrite Hh, (proj2 (Hk u Hu)). apply storage_roots_elem. split; [done|]. by exists blob.
    + rewrite Hho, map_app. apply elem_of_app. right. apply list_elem_of_In, in_map, list_elem_of_In, hand_elem. split; [done|by exists q].
  - intros n c. rewrite Hho. intros [Hn|Hn]%elem_of_app Hc; [by destruct (fits_storage _ _ Hfo n c Hn Hc) as (_ & blob & Hb & _); unfold leaves_of in Hb; rewrite H0 in Hb; apply elem_of_nil in Hb|].
    destruct (set_known d true t s Hk Hset n Hn) as [_ Hst]. rewrite Hst in Hc. apply storage_roots_elem in Hc as (_ & v & Hval & Hrt & Hne).
    split; [done|]. exists v. split; [|done]. unfold leaves_of. rewrite Hns. apply hand_elem in Hn as (Hd & q & Hq).
    destruct Hset as (_ & _ & _ & Hall). by apply (Hall eq_refl q).
Qed.

(** ** The whole way *)

(** The set of the trie is merged with those of the tries committed before, as
    [StateDB.Commit] does. *)
Definition merged (set : option NodeSet) (others : MergedNodeSet) : option MergedNodeSet :=
  match set with Some s => MergedNodeSet_Merge s others | None => Some others end.

Lemma merged_ok d held spent owner t m set others : valid d held spent -> storage_sets d others -> others !! owner = None ->
  tree_of t m -> knows (owner =? 0) t -> set_of (hashReader_NodeBlob d) (owner =? 0) t set -> owned owner set ->
  (owner = 0 -> accounts_in d others m) ->
  exists nodes, merged set others = Some nodes /\ fits (available d) nodes /\ (owner <> 0 -> storage_sets d nodes) /\
    (t <> TNil -> available d (tree_root t) \/ tree_root t ∈ map mn_hash (handed_over nodes)) /\
    forall c, c ∈ map mn_hash (handed_over others) -> c ∈ map mn_hash (handed_over nodes).
Proof.
  intros Hv Ho Hn Ht Hk Hset Hown Ha. destruct set as [s|]; cbn [merged].
  2:{ exists others. split; [done|]. split; [by apply (storage_fits d held spent)|]. split; [done|]. split; [|done]. intros Hne. left.
      destruct Ht as [[?|Hct] _]; [done|]. rewrite tree_root_canon by done. destruct Hset as [Hs _].
      apply (reader_found d held spent []); [done|]. by eexists. }
  unfold MergedNodeSet_Merge. cbn in Hown. rewrite Hown, Hn. exists (<[owner := s]> others). split; [done|].
  assert (forall c, c ∈ map mn_hash (handed_over others) -> c ∈ map mn_hash (handed_over (<[owner := s]> others))) as Hmono.
  { intros c Hc. apply list_elem_of_In, in_map_iff in Hc as (n & <- & Hc). apply list_elem_of_In, handed_elem in Hc as (o & s' & Hs & Hns).
    apply list_elem_of_In, in_map, list_elem_of_In, handed_elem. exists o, s'. split; [|done].
    assert (owner <> o) as Hoo by (intros <-; pose proof (eq_trans (eq_sym Hn) Hs); done).
    exact (eq_trans (lookup_insert_ne (M:=gmap Hash) others owner o s Hoo) Hs). }
  assert (t <> TNil -> available d (tree_root t) \/ tree_root t ∈ map mn_hash (handed_over (<[owner := s]> others))) as Hroot.
  { intros Hne. destruct (set_root d held spent (owner =? 0) t s Hv Hset Hne) as [?|Hin]; [by left|right].
    apply list_elem_of_In, in_map_iff in Hin as (n & <- & Hin). apply list_elem_of_In, in_map, list_elem_of_In, handed_elem. exists owner, s.
    split; [apply (lookup_insert_eq (M:=gmap Hash))|by apply list_elem_of_In]. }
  destruct (decide (owner = 0)) as [->|Hne].
  - split; [|by split_and!]. apply (account_fits d held spent t m s others); try done. by apply Ha.
  - rewrite (proj2 (Z.eqb_neq owner 0) Hne) in *. assert (storage_sets d (<[owner := s]> others)) as Hos.
    { intros o s' Hs. destruct (decide (owner = o)) as [<-|Hoo].
      - assert (s = s') as <- by (pose proof (eq_trans (eq_sym (lookup_insert_eq (M:=gmap Hash) others owner s)) Hs) as H; by injection H). split; [done|]. by exists t.
      - apply (Ho o). exact (eq_trans (eq_sym (lookup_insert_ne (M:=gmap Hash) others owner o s Hoo)) Hs). }
    split; [by apply (storage_fits d held spent)|by split_and!].
Qed.

(** A trie whose root is there opens. *)
Lemma open_available d held spent cl t m : valid d held spent -> tree_of t m -> t <> TNil -> all_fit m -> knows cl t ->
  available d (tree_root t) -> tree_root t <> EmptyRootHash ->
  exists T, Trie_New (N:=hashReader_NodeBlob d) (tree_root t) = Ret (inl T) /\ trie_rep (N:=hashReader_NodeBlob d) T m.
Proof.
  intros Hv Ht Hne Hf Hk Hav He. pose proof Ht as [[?|Hct] _]; [done|]. pose proof (proj1 Hav) as H0.
  apply (Trie_New_stored (N:=hashReader_NodeBlob d) t m); try done. apply (root_stored cl d held spent); [done|done|done|].
  by rewrite <- tree_root_canon.
Qed.

(** The storage trie of an account of a trie that is there is there. *)
Lemma account_storage d held spent t m key v r : valid d held spent -> tree_of t m -> all_fit m -> knows true t ->
  (forall k v k' v', m !! k = Some v -> m !! k' = Some v' -> length k = length k') ->
  available d (tree_root t) -> m !! key = Some v -> account_root v = Some r -> r <> EmptyRootHash -> available d r.
Proof.
  intros Hv Ht Hf Hk Hkeys Hav Hm Hr Hne. pose proof Ht as [[->|Hct] Hhas].
  { apply tree_of_nil in Ht as ->. by rewrite lookup_empty in Hm. }
  assert (forall ks, 32 <= zlen (tree_enc (TShort ks (TValue v)))) as Hbig.
  { intros ks. apply (account_leaf_large v r); [|done]. destruct (Hf key v Hm). lia. }
  assert (level t) as Hlev.
  { intros k1 v1 k2 v2 H1 H2. apply Hhas in H1 as (key1 & -> & H1), H2 as (key2 & -> & H2). rewrite !keybytesToHex_len.
    by rewrite (Hkeys _ _ _ _ H1 H2). }
  destruct (has_leaf_node t v Hct Hlev Hbig true (keybytesToHex key)) as [ks Hu]; [apply Hhas; by exists key|].
  pose proof (tree_reachable true t _ Hct Hk Hu) as Hreach. rewrite tree_root_canon in Hav by done.
  pose proof (valid_reachable d held spent _ _ Hv Hav Hreach) as Hleaf. apply (valid_refs d held spent _ r Hv Hleaf).
  unfold refs. apply elem_of_app. right. rewrite (proj2 (Hk _ Hu)). apply storage_roots_elem. split; [done|]. by exists v.
Qed.

(** C7: A committed trie stays in the database as long as its root is held, the account trie
    (owner zero, which collects its leaves) like a storage trie.  The set of nodes that
    committing the trie hands over is merged with the sets of storage tries committed
    before, as [StateDB.Commit] does; the merged sets can be inserted, given, for the
    account trie, that its values are accounts with keys of one length, each with a storage
    trie that is empty, in the database, or handed over with it.  The database has the
    root then, and whatever is done with the database afterwards, while the root is held,
    or when it has reached the disk, the trie opens with the root hash and has the contents
    it had when it was committed, and so does the storage trie of each of its accounts.
    Each hash stands for one node ([content]) and no node of the trie hashes to zero or to
    the empty root; the operations keep to [admissible], and fewer than 2^32 references
    are made. *)
Theorem committed_trie_survives disk cleans d held spent owner T m l others :
  good_start disk cleans -> reached disk cleans d held spent -> trie_rep (N:=hashReader_NodeBlob d) T m ->
  committed m l -> no_zero l -> (forall x, x ∈ l -> BytesToHash (hashData x) <> EmptyRootHash) ->
  (forall t, tree_of t m -> knows (owner =? 0) t) ->
  storage_sets d others -> others !! owner = None -> (owner = 0 -> accounts_in d others m) ->
  exists h set T' nodes, Trie_Commit owner (owner =? 0) T = Ret ((h, set), T') /\ root_of m h /\ merged set others = Some nodes /\
    admissible d held (DbUpdate nodes) /\ (owner <> 0 -> storage_sets d nodes) /\
    (m <> ∅ -> available d h \/ h ∈ map mn_hash (handed_over nodes)) /\
    (m <> ∅ -> spent + update_weight nodes < 2 ^ 32 -> exists d', Update nodes d = Ret (None, d') /\ available d' h) /\
    forall d' held' spent', reached disk cleans d' held' spent' -> (0 < held' h)%nat \/ on_disk d' h /\ h <> 0 ->
      (exists T2, Trie_New (N:=hashReader_NodeBlob d') h = Ret (inl T2) /\ trie_rep (N:=hashReader_NodeBlob d') T2 m) /\
      (owner = 0 -> forall k v r m', m !! k = Some v -> account_root v = Some r -> root_of m' r -> r <> EmptyRootHash -> all_fit m' ->
         (forall t, tree_of t m' -> knows false t) ->
         exists T2, Trie_New (N:=hashReader_NodeBlob d') r = Ret (inl T2) /\ trie_rep (N:=hashReader_NodeBlob d') T2 m').
Proof.
  intros Hg Hr HT Hl Hz He Hk Ho Hn Ha. pose proof (reached_valid _ _ _ _ _ Hg Hr) as Hv.
  destruct (Trie_Commit_ok (hashReader_NodeBlob d) owner (owner =? 0) T m l HT Hl Hz He) as (t & h & set & T' & Hc & Ht & -> & [Hset Hown] & _).
  pose proof (Hk t Ht) as Hkt.
  destruct (merged_ok d held spent owner t m set others Hv Ho Hn Ht Hkt Hset Hown Ha) as (nodes & Hm & Hfits & Hos & Hroot & _).
  exists (tree_root t), set, T', nodes. split; [done|]. split; [by exists t|]. split; [done|]. split; [done|]. split; [done|].
  assert (m <> ∅ -> t <> TNil) as Hnil by (intros Hne ->; by apply tree_of_nil in Ht).
  split; [by auto|]. split.
  - intros Hne Hw. destruct (wp_returns _ _ _ (valid_step d held spent (DbUpdate nodes) Hv Hfits Hw)) as (a & d' & Hrun & _ & _ & Hok).
    cbn [db_step] in Hrun. unfold gbind in Hrun. destruct (Update _ d) as [[err d1]| |]; [|done..]. injection Hrun as <- <-. destruct Hok as [-> Hav].
    exists d1. split; [done|]. by apply Hav, Hroot, Hnil.
  - intros d2 held2 spent2 Hr2 Hh. pose proof (reached_valid _ _ _ _ _ Hg Hr2) as Hv2. destruct HT as [_ Hf].
    destruct (decide (t = TNil)) as [->|Hne].
    { apply tree_of_nil in Ht as ->. split; [apply Trie_New_empty; by right|]. intros _ k v r m' Hkv. by rewrite lookup_empty in Hkv. }
    assert (available d2 (tree_root t)) as Hav by (destruct Hh as [Hh|[Hd H0]]; [by apply (valid_held d2 held2 spent2)|by split; [|right]]).
    split.
    + apply (open_available d2 held2 spent2 (owner =? 0)); try done. pose proof Ht as [[?|Hct] _]; [done|].
      destruct Hl as (t' & Ht' & ->). rewrite (tree_of_unique _ _ _ Ht' Ht) in *. rewrite tree_root_canon by done.
      destruct t; [done|inversion Hct|..]; apply He; by left.
    + intros -> k v r m' Hkv Hrt (t' & Ht' & ->) Hre Hf' Hk'. apply (open_available d2 held2 spent2 false t' m'); try done; [|by apply Hk'|].
      * intros ->. by apply Hre.
      * apply (account_storage d2 held2 spent2 t m k v); try done. by apply Ha.
Qed.
End tries.
