(* ===== verification/ChainStore.v ===== *)
(** * Items of the chain database (client/core/rawdb/accessors_chain.go, accessors_indexes.go)

    Reading and writing headers, total difficulties, the hashes of the canonical chain and
    the markers of its head.  The key-value store is a map of byte strings; writers add to
    a batch.  Old items may have been moved to the freezer, which readers ask first. *)

From Stdlib Require Import Strings.Byte.
From stdpp Require Import sorting.
From S2P Require Import Prelude.
From S2P Require Import Common.
From S2P Require Import Precompiles.
From S2P Require Import Rlp.
From S2P Require Import Crypto.
From S2P Require Import Header.
From S2P Require Import Encoding.
From S2P Require Import RlpStream.
From S2P Require Import TrieKeys.
From S2P Require Import TrieNode.
From S2P Require Import NodeDatabase.
From S2P Require Import Blocks.
From S2P Require Import Decoding.
From S2P Require Import ChainKeys.

(** ** The store *)

Definition kvstore : Type := gmap (list byte) (list byte).

Inductive kv_op : Type :=
| KvPut (key value : list byte)
| KvDelete (key : list byte).

Definition kv_batch : Type := list kv_op.

Definition kv_apply (db : kvstore) (op : kv_op) : kvstore :=
  match op with KvPut k v => <[k := v]> db | KvDelete k => delete k db end.

(** The operations of a batch take effect in their order. *)
Definition kv_write (b : kv_batch) (db : kvstore) : kvstore := foldl kv_apply db b.

Inductive ancient_table : Type :=
| ChainFreezerHeaderTable
| ChainFreezerHashTable
| ChainFreezerBodiesTable
| ChainFreezerReceiptTable
| ChainFreezerDifficultyTable.

(** The freezer: an item of a table, or an error. *)
Class AncientStore : Type := { Ancient : ancient_table -> Z -> option (list byte) }.

(** [rlp.Decode] from a reader of bytes: one value, whatever follows it. *)
Definition Decode {A} (d : decoder A) (b : list byte) : Res (option A) :=
  let? r := d (stream_Reset b) in
  match fst r with inl a => Ret (Some a) | inr _ => Ret None end.

(** The order in which a store is iterated. *)
Definition bytes_le (a b : list byte) : Prop := bytes_leb a b = true.
#[export] Instance bytes_le_dec : RelDecision bytes_le.
Proof. intros a b. unfold bytes_le. apply _. Defined.

Section chain_store.
Context {K : Keccak} {AS : AncientStore}.

(** [Get], without its error. *)
Definition kv_Get (key : list byte) (db : kvstore) : list byte := default [] (db !! key).

Definition ancient_data (t : ancient_table) (number : Z) : list byte := default [] (Ancient t number).

(** ** Canonical hashes *)

Definition ReadCanonicalHash (number : Z) (db : kvstore) : Hash :=
  let data := ancient_data ChainFreezerHashTable number in
  let data := if zlen data =? 0 then kv_Get (headerHashKey number) db else data in
  BytesToHash data.

Definition WriteCanonicalHash (hash : Hash) (number : Z) (b : kv_batch) : kv_batch :=
  b ++ [KvPut (headerHashKey number) (hash_bytes hash)].
Definition DeleteCanonicalHash (number : Z) (b : kv_batch) : kv_batch := b ++ [KvDelete (headerHashKey number)].

(** [ReadAllHashes]: the keys with the prefix of the number in ascending order, those of
    the length of a header's key. *)
Definition ReadAllHashes (number : Z) (db : kvstore) : list Hash :=
  let prefix := headerKeyPrefix number in
  let keys := merge_sort bytes_le (map fst (map_to_list db)) in
  let keys := filter (fun k => take (length prefix) k = prefix) keys in
  omap (fun key => if zlen key =? zlen prefix + 32
                   then Some (BytesToHash (drop (length key - 32) key)) else None) keys.

(** ** Numbers and heads *)

Definition ReadHeaderNumber (hash : Hash) (db : kvstore) : option Z :=
  let data := kv_Get (headerNumberKey hash) db in
  if negb (zlen data =? 8) then None else Some (be_value data).
Definition WriteHeaderNumber (hash : Hash) (number : Z) (b : kv_batch) : kv_batch :=
  b ++ [KvPut (headerNumberKey hash) (encodeBlockNumber number)].
Definition DeleteHeaderNumber (hash : Hash) (b : kv_batch) : kv_batch := b ++ [KvDelete (headerNumberKey hash)].

Definition read_mark (key : list byte) (db : kvstore) : Hash :=
  let data := kv_Get key db in
  if zlen data =? 0 then 0 else BytesToHash data.

Definition ReadHeadHeaderHash : kvstore -> Hash := read_mark headHeaderKey.
Definition WriteHeadHeaderHash (hash : Hash) (b : kv_batch) : kv_batch := b ++ [KvPut headHeaderKey (hash_bytes hash)].
Definition ReadHeadBlockHash : kvstore -> Hash := read_mark headBlockKey.
Definition WriteHeadBlockHash (hash : Hash) (b : kv_batch) : kv_batch := b ++ [KvPut headBlockKey (hash_bytes hash)].
Definition ReadHeadFastBlockHash : kvstore -> Hash := read_mark headFastBlockKey.
Definition WriteHeadFastBlockHash (hash : Hash) (b : kv_batch) : kv_batch :=
  b ++ [KvPut headFastBlockKey (hash_bytes hash)].
Definition ReadFinalizedBlockHash : kvstore -> Hash := read_mark headFinalizedBlockKey.
Definition WriteFinalizedBlockHash (hash : Hash) (b : kv_batch) : kv_batch :=
  b ++ [KvPut headFinalizedBlockKey (hash_bytes hash)].

Definition ReadLastPivotNumber (db : kvstore) : Res (option Z) :=
  let data := kv_Get lastPivotKey db in
  if zlen data =? 0 then Ret None
  else
    let? r := DecodeBytes stream_Uint64 data in
    match r with inl pivot => Ret (Some pivot) | inr _ => Ret None end.
Definition WriteLastPivotNumber (pivot : Z) (b : kv_batch) : kv_batch := b ++ [KvPut lastPivotKey (writeUint64 pivot)].

Definition read_number (key : list byte) (db : kvstore) : option Z :=
  let data := kv_Get key db in
  if negb (zlen data =? 8) then None else Some (be_value data).

Definition ReadTxIndexTail : kvstore -> option Z := read_number txIndexTailKey.
Definition WriteTxIndexTail (number : Z) (b : kv_batch) : kv_batch := b ++ [KvPut txIndexTailKey (encodeBlockNumber number)].
Definition ReadFastTxLookupLimit : kvstore -> option Z := read_number fastTxLookupLimitKey.
Definition WriteFastTxLookupLimit (number : Z) (b : kv_batch) : kv_batch :=
  b ++ [KvPut fastTxLookupLimitKey (encodeBlockNumber number)].

(** ** Headers *)

Definition isCanon (number : Z) (hash : Hash) : bool :=
  match Ancient ChainFreezerHashTable number with
  | None => false
  | Some h => bool_decide (h = hash_bytes hash)
  end.

Definition ReadHeaderRLP (hash : Hash) (number : Z) (db : kvstore) : list byte :=
  let data := ancient_data ChainFreezerHeaderTable number in
  if (zlen data >? 0) && (keccak256 data =? hash) then data else kv_Get (headerKey number hash) db.

Definition HasHeader (hash : Hash) (number : Z) (db : kvstore) : bool :=
  if isCanon number hash then true else bool_decide (is_Some (db !! headerKey number hash)).

Definition ReadHeader (hash : Hash) (number : Z) (db : kvstore) : Res (option Header) :=
  let data := ReadHeaderRLP hash number db in
  if zlen data =? 0 then Ret None else Decode decode_header data.

(** [WriteHeader]; a header that cannot be encoded ends the program ([log.Crit]). *)
Definition WriteHeader (header : Header) (b : kv_batch) : Res kv_batch :=
  let hash := Header_Hash header in
  let number := big_Uint64 (hdr_Number header) in
  let b := WriteHeaderNumber hash number b in
  match Header_EncodeRLP header with
  | None => Panic PanicCrit
  | Some data => Ret (b ++ [KvPut (headerKey number hash) data])
  end.

Definition deleteHeaderWithoutNumber (hash : Hash) (number : Z) (b : kv_batch) : kv_batch :=
  b ++ [KvDelete (headerKey number hash)].
Definition DeleteHeader (hash : Hash) (number : Z) (b : kv_batch) : kv_batch :=
  deleteHeaderWithoutNumber hash number b ++ [KvDelete (headerNumberKey hash)].

(** ** Total difficulties *)

Definition ReadTdRLP (hash : Hash) (number : Z) (db : kvstore) : list byte :=
  if isCanon number hash then ancient_data ChainFreezerDifficultyTable number
  else kv_Get (headerTDKey number hash) db.

Definition ReadTd (hash : Hash) (number : Z) (db : kvstore) : Res (option Z) :=
  let data := ReadTdRLP hash number db in
  if zlen data =? 0 then Ret None else Decode stream_decodeBigInt data.

Definition WriteTd (hash : Hash) (number td : Z) (b : kv_batch) : Res kv_batch :=
  if td <? 0 then Panic PanicCrit else Ret (b ++ [KvPut (headerTDKey number hash) (writeBigInt td)]).

Definition DeleteTd (hash : Hash) (number : Z) (b : kv_batch) : kv_batch := b ++ [KvDelete (headerTDKey number hash)].

(** ** Bodies, as they are encoded *)

Definition ReadBodyRLP (hash : Hash) (number : Z) (db : kvstore) : list byte :=
  if isCanon number hash then ancient_data ChainFreezerBodiesTable number else kv_Get (blockBodyKey number hash) db.

Definition ReadCanonicalBodyRLP (number : Z) (db : kvstore) : list byte :=
  let data := ancient_data ChainFreezerBodiesTable number in
  if zlen data >? 0 then data
  else kv_Get (blockBodyKey number (BytesToHash (kv_Get (headerHashKey number) db))) db.

Definition WriteBodyRLP (hash : Hash) (number : Z) (rlp : list byte) (b : kv_batch) : kv_batch :=
  b ++ [KvPut (blockBodyKey number hash) rlp].

Definition HasBody (hash : Hash) (number : Z) (db : kvstore) : bool :=
  if isCanon number hash then true else bool_decide (is_Some (db !! blockBodyKey number hash)).

Definition DeleteBody (hash : Hash) (number : Z) (b : kv_batch) : kv_batch := b ++ [KvDelete (blockBodyKey number hash)].

(** ** Lookup entries of transactions *)

(** [LegacyTxLookupEntry]. *)
Definition decode_LegacyTxLookupEntry : decoder (Hash * Z * Z) :=
  struct (
    let! BlockHash := field decodeHash in
    let! BlockIndex := field stream_Uint64 in
    let! Index := field stream_Uint64 in
    sret (BlockHash, BlockIndex, Index)).

Definition ReadTxLookupEntry (hash : Hash) (db : kvstore) : Res (option Z) :=
  let data := kv_Get (txLookupKey hash) db in
  if zlen data =? 0 then Ret None
  else if zlen data <? 32 then Ret (Some (big_Uint64 (be_value data)))
  else if zlen data =? 32 then Ret (ReadHeaderNumber (BytesToHash data) db)
  else
    let? r := DecodeBytes decode_LegacyTxLookupEntry data in
    match r with inl (_, BlockIndex, _) => Ret (Some BlockIndex) | inr _ => Ret None end.

Definition writeTxLookupEntry (hash : Hash) (numberBytes : list byte) (b : kv_batch) : kv_batch :=
  b ++ [KvPut (txLookupKey hash) numberBytes].
Definition WriteTxLookupEntries (number : Z) (hashes : list Hash) (b : kv_batch) : kv_batch :=
  foldl (fun b hash => writeTxLookupEntry hash (int_bytes number) b) b hashes.
Definition DeleteTxLookupEntry (hash : Hash) (b : kv_batch) : kv_batch := b ++ [KvDelete (txLookupKey hash)].
Definition DeleteTxLookupEntries (hashes : list Hash) (b : kv_batch) : kv_batch :=
  foldl (fun b hash => DeleteTxLookupEntry hash b) b hashes.

(** ** Ancestors and the head *)

(** The parent of a header. *)
Definition read_parent (h : Header) (db : kvstore) : Res (option Header) :=
  ReadHeader (hdr_ParentHash h) (u64 (big_Uint64 (hdr_Number h) - 1)) db.

Fixpoint step_down (fuel : nat) (h : Header) (n : Z) (db : kvstore) : Res (option Header) :=
  if negb (big_Uint64 (hdr_Number h) >? n) then Ret (Some h)
  else
    match fuel with
    | O => NoFuel
    | S fuel =>
        let? p := read_parent h db in
        match p with None => Ret None | Some h => step_down fuel h n db end
    end.

Fixpoint step_both (fuel : nat) (a b : Header) (db : kvstore) : Res (option Header) :=
  if Header_Hash a =? Header_Hash b then Ret (Some a)
  else
    match fuel with
    | O => NoFuel
    | S fuel =>
        let? p := read_parent a db in
        match p with
        | None => Ret None
        | Some a =>
            let? p := read_parent b db in
            match p with None => Ret None | Some b => step_both fuel a b db end
        end
    end.

(** [FindCommonAncestor]: the longer branch steps down to the height of the other, then
    both until they meet. *)
Definition FindCommonAncestor (a b : Header) (db : kvstore) : Res (option Header) :=
  let fuel := Z.to_nat (big_Uint64 (hdr_Number a) + big_Uint64 (hdr_Number b) + 1) in
  let? a := step_down fuel a (big_Uint64 (hdr_Number b)) db in
  match a with
  | None => Ret None
  | Some a =>
      let? b := step_down fuel b (big_Uint64 (hdr_Number a)) db in
      match b with
      | None => Ret None
      | Some b => step_both fuel a b db
      end
  end.

Definition ReadHeadHeader (db : kvstore) : Res (option Header) :=
  let headHeaderHash := ReadHeadHeaderHash db in
  if headHeaderHash =? 0 then Ret None
  else
    match ReadHeaderNumber headHeaderHash db with
    | None => Ret None
    | Some headHeaderNumber => ReadHeader headHeaderHash headHeaderNumber db
    end.

(** ** The genesis block *)

(** [WriteChainConfig], the configuration being encoded. *)
Definition WriteChainConfig (hash : Hash) (json : list byte) (b : kv_batch) : kv_batch := b ++ [KvPut (configKey hash) json].

(** What [Genesis.Commit] writes: total difficulty, body and header, no receipts, and the
    block as the head of everything. *)
Definition Commit_writes (body json : list byte) (header : Header) : Res kv_batch :=
  let hash := Header_Hash header in
  let number := big_Uint64 (hdr_Number header) in
  let? b := WriteTd hash number (hdr_Difficulty header) [] in
  let? b := WriteHeader header (WriteBodyRLP hash number body b) in
  let b := b ++ [KvPut (blockReceiptsKey number hash) (write_list [])] in
  let b := WriteHeadBlockHash hash (WriteCanonicalHash hash number b) in
  Ret (WriteChainConfig hash json (WriteHeadHeaderHash hash (WriteHeadFastBlockHash hash b))).
End chain_store.
