(* ===== verification/HeaderChain.v ===== *)
(** * The chain of headers (client/core/headerchain.go, forkchoice.go)

    Storing headers, choosing between branches, and moving the canonical chain: the
    mapping from numbers to hashes and the head.  The random choice between two heads of
    one height, the answers of [procInterrupt] and whether the disk takes a batch come
    from outside. *)

From Stdlib Require Import Strings.Byte.
From S2P Require Import Prelude.
From S2P Require Import Common.
From S2P Require Import Params.
From S2P Require Import Crypto.
From S2P Require Import Header.
From S2P Require Import Encoding.
From S2P Require Import Lru.
From S2P Require Import Blocks.
From S2P Require Import ChainStore.

(** Whether the disk takes a batch; it takes all of it or nothing. *)
Class KvDisk : Type := { kv_accepts : kvstore -> kv_batch -> bool }.

Definition headerCacheLimit : Z := 512.
Definition tdCacheLimit : Z := 1024.
Definition numberCacheLimit : Z := 2048.

(** [procInterrupt] gives the listed answers, and false afterwards. *)
Record HeaderChain : Type := mkHC {
  hc_config : ChainConfig;
  hc_chainDb : kvstore;
  hc_genesisHeader : Header;
  hc_currentHeader : Header;
  hc_currentHeaderHash : Hash;
  hc_headerCache : BasicLRU Hash Header;
  hc_tdCache : BasicLRU Hash Z;
  hc_numberCache : BasicLRU Hash Z;
  hc_interrupts : list bool
}.

Definition hc_set_db (x : kvstore) (c : HeaderChain) : HeaderChain :=
  mkHC (hc_config c) x (hc_genesisHeader c) (hc_currentHeader c) (hc_currentHeaderHash c) (hc_headerCache c) (hc_tdCache c)
    (hc_numberCache c) (hc_interrupts c).
Definition hc_set_genesis (x : Header) (c : HeaderChain) : HeaderChain :=
  mkHC (hc_config c) (hc_chainDb c) x (hc_currentHeader c) (hc_currentHeaderHash c) (hc_headerCache c) (hc_tdCache c)
    (hc_numberCache c) (hc_interrupts c).
Definition hc_set_current (h : Header) (hash : Hash) (c : HeaderChain) : HeaderChain :=
  mkHC (hc_config c) (hc_chainDb c) (hc_genesisHeader c) h hash (hc_headerCache c) (hc_tdCache c)
    (hc_numberCache c) (hc_interrupts c).
Definition hc_set_headers (x : BasicLRU Hash Header) (c : HeaderChain) : HeaderChain :=
  mkHC (hc_config c) (hc_chainDb c) (hc_genesisHeader c) (hc_currentHeader c) (hc_currentHeaderHash c) x (hc_tdCache c)
    (hc_numberCache c) (hc_interrupts c).
Definition hc_set_tds (x : BasicLRU Hash Z) (c : HeaderChain) : HeaderChain :=
  mkHC (hc_config c) (hc_chainDb c) (hc_genesisHeader c) (hc_currentHeader c) (hc_currentHeaderHash c) (hc_headerCache c) x
    (hc_numberCache c) (hc_interrupts c).
Definition hc_set_numbers (x : BasicLRU Hash Z) (c : HeaderChain) : HeaderChain :=
  mkHC (hc_config c) (hc_chainDb c) (hc_genesisHeader c) (hc_currentHeader c) (hc_currentHeaderHash c) (hc_headerCache c)
    (hc_tdCache c) x (hc_interrupts c).
Definition hc_set_interrupts (x : list bool) (c : HeaderChain) : HeaderChain :=
  mkHC (hc_config c) (hc_chainDb c) (hc_genesisHeader c) (hc_currentHeader c) (hc_currentHeaderHash c) (hc_headerCache c)
    (hc_tdCache c) (hc_numberCache c) x.

Inductive hc_error : Type :=
| ErrNoGenesis
| HcUnknownAncestor
| HcAborted
| HcMissingParent
| HcMissingTd
| HcDisk
| HcNonContiguous
| HcBannedHash
| HcEngine.

Inductive WriteStatus : Type := NonStatTy | CanonStatTy | SideStatTy.

(** [ForkChoice]: which headers were mined here, and the outcome of [Float64() < 0.5]. *)
Record ForkChoice : Type := mkForkChoice {
  fc_preserve : option (Header -> bool);
  fc_coin : bool
}.

Section header_chain.
Context {K : Keccak} {AS : AncientStore} {W : KvDisk}.

Definition HC (A : Type) : Type := GM HeaderChain A.

Definition on_headers {A} : GM (BasicLRU Hash Header) A -> HC A := gzoom hc_headerCache hc_set_headers.
Definition on_tds {A} : GM (BasicLRU Hash Z) A -> HC A := gzoom hc_tdCache hc_set_tds.
Definition on_numbers {A} : GM (BasicLRU Hash Z) A -> HC A := gzoom hc_numberCache hc_set_numbers.

(** [batch.Write]: whether it succeeded. *)
Definition hc_Write (b : kv_batch) : HC bool :=
  let* db := gget hc_chainDb in
  if kv_accepts db b then gput (hc_set_db (kv_write b db)) ;;; gret true else gret false.

(** [log.Crit] when the disk fails. *)
Definition hc_WriteCrit (b : kv_batch) : HC unit :=
  let* ok := hc_Write b in
  if ok : bool then gret tt else gpanic PanicCrit.

Definition hc_procInterrupt : HC bool :=
  let* l := gget hc_interrupts in
  match l with
  | [] => gret false
  | b :: l => gput (hc_set_interrupts l) ;;; gret b
  end.

(** ** Reading *)

Definition hc_GetBlockNumber (hash : Hash) : HC (option Z) :=
  let* cached := on_numbers (lru_Get hash) in
  match cached with
  | Some number => gret (Some number)
  | None =>
      let* number := gget (fun c => ReadHeaderNumber hash (hc_chainDb c)) in
      match number with
      | Some n => on_numbers (lru_Add hash n) ;;; gret (Some n)
      | None => gret None
      end
  end.

Definition hc_GetTd (hash : Hash) (number : Z) : HC (option Z) :=
  let* cached := on_tds (lru_Get hash) in
  match cached with
  | Some td => gret (Some td)
  | None =>
      let* db := gget hc_chainDb in
      let* td := gpure (ReadTd hash number db) in
      match td with
      | None => gret None
      | Some td => on_tds (lru_Add hash td) ;;; gret (Some td)
      end
  end.

Definition hc_GetHeader (hash : Hash) (number : Z) : HC (option Header) :=
  let* cached := on_headers (lru_Get hash) in
  match cached with
  | Some header => gret (Some header)
  | None =>
      let* db := gget hc_chainDb in
      let* header := gpure (ReadHeader hash number db) in
      match header with
      | None => gret None
      | Some header => on_headers (lru_Add hash header) ;;; gret (Some header)
      end
  end.

Definition hc_GetHeaderByHash (hash : Hash) : HC (option Header) :=
  let* number := hc_GetBlockNumber hash in
  match number with
  | None => gret None
  | Some number => hc_GetHeader hash number
  end.

Definition hc_HasHeader (hash : Hash) (number : Z) : HC bool :=
  let* c := gget id in
  if lru_Contains hash (hc_numberCache c) || lru_Contains hash (hc_headerCache c) then gret true
  else gret (HasHeader hash number (hc_chainDb c)).

Definition hc_GetHeaderByNumber (number : Z) : HC (option Header) :=
  let* hash := gget (fun c => ReadCanonicalHash number (hc_chainDb c)) in
  if hash =? 0 then gret None else hc_GetHeader hash number.

Definition hc_GetCanonicalHash (number : Z) : HC Hash := gget (fun c => ReadCanonicalHash number (hc_chainDb c)).

(** ** The fork choice *)

(** [ReorgNeeded]. *)
Definition ReorgNeeded (f : ForkChoice) (current extern : Header) : HC (bool + hc_error) :=
  let* localTD := hc_GetTd (Header_Hash current) (big_Uint64 (hdr_Number current)) in
  let* externTd := hc_GetTd (Header_Hash extern) (big_Uint64 (hdr_Number extern)) in
  match localTD, externTd with
  | Some localTD, Some externTd =>
      let* config := gget hc_config in
      if match TerminalTotalDifficulty config with Some ttd => ttd <=? externTd | None => false end then gret (inl true)
      else if hdr_Number current =? hdr_Number extern then gret (inl false)
      else if externTd >? localTD then gret (inl true)
      else if externTd <? localTD then gret (inl false)
      else
        let externNum := big_Uint64 (hdr_Number extern) in
        let localNum := big_Uint64 (hdr_Number current) in
        gret (inl (
          if externNum <? localNum then true
          else if externNum =? localNum then
            let preserve h := match fc_preserve f with Some p => p h | None => false end in
            negb (preserve current) && (preserve extern || fc_coin f)
          else false))
  | _, _ => gret (inr HcMissingTd)
  end.

(** ** Moving the canonical chain *)

(** The entries above the new head, up to the first gap. *)
Fixpoint reorg_delete (fuel : nat) (i : Z) (batch : kv_batch) : HC kv_batch :=
  let* hash := hc_GetCanonicalHash i in
  if hash =? 0 then gret batch
  else
    match fuel with
    | O => fun _ => NoFuel
    | S fuel => reorg_delete fuel (u64 (i + 1)) (DeleteCanonicalHash i batch)
    end.

(** The entries below the new headers, down to where the branches meet. *)
Fixpoint reorg_link (fuel : nat) (header : Header) (headNumber : Z) (headHash : Hash) (batch : kv_batch)
    : HC (kv_batch + hc_error) :=
  let* canonical := hc_GetCanonicalHash headNumber in
  if canonical =? headHash then gret (inl batch)
  else
    let batch := WriteCanonicalHash headHash headNumber batch in
    if headNumber =? 0 then gret (inl batch)
    else
      match fuel with
      | O => fun _ => NoFuel
      | S fuel =>
          let headHash := hdr_ParentHash header in
          let headNumber := u64 (big_Uint64 (hdr_Number header) - 1) in
          let* parent := hc_GetHeader headHash headNumber in
          match parent with
          | None => gret (inr HcMissingParent)
          | Some header => reorg_link fuel header headNumber headHash batch
          end
      end.

(** The new headers: each is known by the hash its successor refers to. *)
Fixpoint reorg_extend (headers : list Header) (batch : kv_batch) : kv_batch :=
  match headers with
  | [] => batch
  | header :: rest =>
      let hash := match rest with next :: _ => hdr_ParentHash next | [] => Header_Hash header end in
      let num := big_Uint64 (hdr_Number header) in
      reorg_extend rest (WriteHeadHeaderHash hash (WriteCanonicalHash hash num batch))
  end.

(** The number of entries bounds the first loop, the number of the header the second. *)
Definition hc_fuel (c : HeaderChain) : nat := S (size (hc_chainDb c)).

Definition Reorg (headers : list Header) : HC (unit + hc_error) :=
  match headers with
  | [] => gret (inl tt)
  | first :: _ =>
      let last := List.last headers first in
      let* currentHash := gget hc_currentHeaderHash in
      let* batch :=
        if negb (hdr_ParentHash first =? currentHash) then
          let* fuel := gget hc_fuel in
          let* batch := reorg_delete fuel (u64 (big_Uint64 (hdr_Number last) + 1)) [] in
          let headNumber := big_Uint64 (hdr_Number first) in
          reorg_link (S (Z.to_nat headNumber)) first headNumber (Header_Hash first) batch
        else gret (inl []) in
      match batch with
      | inr err => gret (inr err)
      | inl batch =>
          let* ok := hc_Write (reorg_extend headers batch) in
          if ok : bool then
            gput (hc_set_current last (Header_Hash last)) ;;; gret (inl tt)
          else gret (inr HcDisk)
      end
  end.

(** ** Storing headers *)

(** One turn of the loop of [WriteHeaders]: the new total difficulty, whether the header
    was stored, and the batch. *)
Definition write_header (header : Header) (next : option Header) (parentKnown : bool) (newTD : Z) (batch : kv_batch)
    : HC (Z * bool * kv_batch) :=
  let hash := match next with Some n => hdr_ParentHash n | None => Header_Hash header end in
  let number := big_Uint64 (hdr_Number header) in
  let newTD := newTD + hdr_Difficulty header in
  let* alreadyKnown := if parentKnown then hc_HasHeader hash number else gret false in
  if alreadyKnown : bool then gret (newTD, true, batch)
  else
    let* batch := gpure (WriteTd hash number newTD batch) in
    on_tds (lru_Add hash newTD) ;;;
    let* batch := gpure (WriteHeader header batch) in
    on_headers (lru_Add hash header) ;;;
    on_numbers (lru_Add hash number) ;;;
    gret (newTD, false, batch).

Fixpoint write_headers (headers : list Header) (parentKnown : bool) (newTD inserted : Z) (batch : kv_batch)
    : HC (Z * kv_batch) :=
  match headers with
  | [] => gret (inserted, batch)
  | header :: rest =>
      let* r := write_header header (head rest) parentKnown newTD batch in
      let '(newTD, known, batch) := r in
      write_headers rest known newTD (if known : bool then inserted else inserted + 1) batch
  end.

Definition WriteHeaders (headers : list Header) : HC (Z + hc_error) :=
  match headers with
  | [] => gret (inl 0)
  | first :: _ =>
      let* ptd := hc_GetTd (hdr_ParentHash first) (u64 (big_Uint64 (hdr_Number first) - 1)) in
      match ptd with
      | None => gret (inr HcUnknownAncestor)
      | Some ptd =>
          let* r := write_headers headers true ptd 0 [] in
          let* stop := hc_procInterrupt in
          if stop : bool then gret (inr HcAborted)
          else hc_WriteCrit (snd r) ;;; gret (inl (fst r))
      end
  end.

Record headerWriteResult : Type := mkWriteResult {
  wr_status : WriteStatus;
  wr_ignored : Z;
  wr_imported : Z;
  wr_lastHash : Hash;
  wr_lastHeader : Header
}.

Definition writeHeadersAndSetHead (headers : list Header) (forker : ForkChoice) : HC (headerWriteResult + hc_error) :=
  let* r := WriteHeaders headers in
  match r with
  | inr err => gret (inr err)
  | inl inserted =>
      match headers with
      | [] => gpanic PanicIndex
      | first :: _ =>
          let lastHeader := List.last headers first in
          let lastHash := Header_Hash lastHeader in
          let result status := mkWriteResult status (zlen headers - inserted) inserted lastHash lastHeader in
          let* current := gget hc_currentHeader in
          let* reorg := ReorgNeeded forker current lastHeader in
          match reorg with
          | inr err => gret (inr err)
          | inl false => gret (inl (result (if inserted =? 0 then NonStatTy else SideStatTy)))
          | inl true =>
              let* canonical := hc_GetCanonicalHash (big_Uint64 (hdr_Number lastHeader)) in
              if (canonical =? lastHash) && (big_Uint64 (hdr_Number lastHeader) <=? big_Uint64 (hdr_Number current))
              then gret (inl (result NonStatTy))
              else
                let* r := Reorg headers in
                match r with
                | inr err => gret (inr err)
                | inl _ => gret (inl (result CanonStatTy))
                end
          end
      end
  end.

Definition InsertHeaderChain (chain : list Header) (forker : ForkChoice) : HC (WriteStatus + hc_error) :=
  let* stop := hc_procInterrupt in
  if stop : bool then gret (inr HcAborted)
  else
    let* res := writeHeadersAndSetHead chain forker in
    match res with
    | inr err => gret (inr err)
    | inl res => gret (inl (wr_status res))
    end.

(** ** Ancestors *)

(** The loop of [GetAncestor]: the answer, and how many steps off the canonical chain are
    still allowed. *)
Fixpoint ancestor_loop (fuel : nat) (hash : Hash) (number ancestor maxNonCanonical : Z) : HC (Hash * Z * Z) :=
  if ancestor =? 0 then gret (hash, number, maxNonCanonical)
  else
    let* canonical := hc_GetCanonicalHash number in
    if canonical =? hash then
      let* ancestorHash := hc_GetCanonicalHash (u64 (number - ancestor)) in
      gret (ancestorHash, u64 (number - ancestor), maxNonCanonical)
    else if maxNonCanonical =? 0 then gret (0, 0, maxNonCanonical)
    else
      match fuel with
      | O => fun _ => NoFuel
      | S fuel =>
          let* header := hc_GetHeader hash number in
          match header with
          | None => gret (0, 0, maxNonCanonical - 1)
          | Some header => ancestor_loop fuel (hdr_ParentHash header) (u64 (number - 1)) (ancestor - 1) (maxNonCanonical - 1)
          end
      end.

Definition GetAncestor (hash : Hash) (number ancestor maxNonCanonical : Z) : HC (Hash * Z * Z) :=
  if ancestor >? number then gret (0, 0, maxNonCanonical)
  else if ancestor =? 1 then
    let* header := hc_GetHeader hash number in
    match header with
    | Some header => gret (hdr_ParentHash header, u64 (number - 1), maxNonCanonical)
    | None => gret (0, 0, maxNonCanonical)
    end
  else ancestor_loop (Z.to_nat ancestor) hash number ancestor maxNonCanonical.

(** ** Rewinding *)

(** What [BlockChain] hangs in: what else to write when the head moves, with the block it
    moved to and whether to go on; what else to delete with a header. *)
Record head_callbacks : Type := mkCallbacks {
  updateFn : option (Header -> kv_batch -> kv_batch * Header * bool);
  delFn : option (Hash -> Z -> kv_batch -> kv_batch)
}.

Definition hc_done (headBlock headTime : Z) (header : Header) : bool :=
  if headTime >? 0 then hdr_Time header <=? headTime else big_Uint64 (hdr_Number header) <=? headBlock.

(** Numbers above the head that still have headers, the highest first. *)
Fixpoint leftover (fuel : nat) (n : Z) (nums : list Z) : HC (list Z) :=
  let* db := gget hc_chainDb in
  if zlen (ReadAllHashes n db) >? 0 then
    match fuel with
    | O => fun _ => NoFuel
    | S fuel => leftover fuel (u64 (n + 1)) (n :: nums)
    end
  else gret nums.

(** Everything at a number. *)
Definition delete_number (cb : head_callbacks) (hdr : Header) (db : kvstore) (batch : kv_batch) (num : Z) : kv_batch :=
  let hashes := ReadAllHashes num db in
  let hashes := if zlen hashes =? 0 then [Header_Hash hdr] else hashes in
  let batch := foldl (fun b hash =>
    let b := match delFn cb with Some f => f hash num b | None => b end in
    DeleteTd hash num (DeleteHeader hash num b)) batch hashes in
  DeleteCanonicalHash num batch.

Fixpoint setHead_loop (fuel : nat) (cb : head_callbacks) (headBlock headTime : Z) (origin : bool) (batch : kv_batch)
    : HC kv_batch :=
  let* hdr := gget hc_currentHeader in
  if hc_done headBlock headTime hdr then gret batch
  else
    match fuel with
    | O => fun _ => NoFuel
    | S fuel =>
        let num := big_Uint64 (hdr_Number hdr) in
        let* parent := hc_GetHeader (hdr_ParentHash hdr) (u64 (num - 1)) in
        let* genesis := gget hc_genesisHeader in
        let parent := default genesis parent in
        let parentHash := Header_Hash parent in
        let '(markerBatch, headBlock, headTime) :=
          match updateFn cb with
          | None => ([], headBlock, headTime)
          | Some f =>
              let '(b, newHead, force) := f parent [] in
              if force && (((headTime >? 0) && (hdr_Time newHead <? headTime)) ||
                           ((headTime =? 0) && (big_Uint64 (hdr_Number newHead) <? headBlock)))
              then (b, big_Uint64 (hdr_Number newHead), 0)
              else (b, headBlock, headTime)
          end in
        hc_WriteCrit (WriteHeadHeaderHash parentHash markerBatch) ;;;
        gput (hc_set_current parent parentHash) ;;;
        let* fuel' := gget hc_fuel in
        let* nums := if origin then leftover fuel' (u64 (num + 1)) [] else gret [] in
        let* db := gget hc_chainDb in
        setHead_loop fuel cb headBlock headTime false (foldl (delete_number cb hdr db) batch (nums ++ [num]))
    end.

Definition hc_setHead (headBlock headTime : Z) (cb : head_callbacks) : HC unit :=
  let* genesis := gget hc_genesisHeader in
  if (headTime >? 0) && (hdr_Time genesis >? headTime) then gpanic PanicCrit
  else
    let* current := gget hc_currentHeader in
    let* batch := setHead_loop (S (Z.to_nat (big_Uint64 (hdr_Number current)))) cb headBlock headTime true [] in
    hc_WriteCrit batch ;;;
    gput (fun c => hc_set_headers (lru_Purge (hc_headerCache c)) c) ;;;
    gput (fun c => hc_set_tds (lru_Purge (hc_tdCache c)) c) ;;;
    gput (fun c => hc_set_numbers (lru_Purge (hc_numberCache c)) c).

Definition hc_SetHead (head : Z) (cb : head_callbacks) : HC unit := hc_setHead head 0 cb.
Definition hc_SetHeadWithTimestamp (time : Z) (cb : head_callbacks) : HC unit := hc_setHead 0 time cb.

(** ** Starting *)

Definition hc_SetCurrentHeader (head : Header) : HC unit := gput (hc_set_current head (Header_Hash head)).
Definition hc_SetGenesis (head : Header) : HC unit := gput (hc_set_genesis head).

(** [NewHeaderChain], on a chain whose fields are still unset. *)
Definition NewHeaderChain (config : ChainConfig) (chainDb : kvstore) (interrupts : list bool) (unset : Header)
    : Res (HeaderChain + hc_error) :=
  let hc := mkHC config chainDb unset unset 0 (NewBasicLRU headerCacheLimit) (NewBasicLRU tdCacheLimit)
              (NewBasicLRU numberCacheLimit) interrupts in
  let start : HC (unit + hc_error) :=
    let* genesis := hc_GetHeaderByNumber 0 in
    match genesis with
    | None => gret (inr ErrNoGenesis)
    | Some genesis =>
        gput (hc_set_genesis genesis) ;;;
        gput (hc_set_current genesis 0) ;;;
        let* head := gget (fun c => ReadHeadBlockHash (hc_chainDb c)) in
        (if head =? 0 then gret tt
         else
           let* chead := hc_GetHeaderByHash head in
           match chead with
           | None => gret tt
           | Some chead => gput (hc_set_current chead 0)
           end) ;;;
        let* current := gget hc_currentHeader in
        hc_SetCurrentHeader current ;;;
        gret (inl tt)
    end in
  let? r := start hc in
  match fst r with
  | inl _ => Ret (inl (snd r))
  | inr err => Ret (inr err)
  end.

(** [ValidateHeaderChain], with what the engine answers for each header. *)
Fixpoint contiguous_check (prev : Header) (i : Z) (rest : list Header) (BadHashes : gset Hash) : option (Z * hc_error) :=
  match rest with
  | [] => None
  | h :: rest =>
      if negb (big_Uint64 (hdr_Number h) =? u64 (big_Uint64 (hdr_Number prev) + 1)) then Some (0, HcNonContiguous)
      else if bool_decide (hdr_ParentHash h ∈ BadHashes) then Some (i - 1, HcBannedHash)
      else if match rest with [] => bool_decide (Header_Hash h ∈ BadHashes) | _ => false end then Some (i, HcBannedHash)
      else contiguous_check h (i + 1) rest BadHashes
  end.

Fixpoint await_results (results : list bool) (i : Z) : HC (option (Z * hc_error)) :=
  match results with
  | [] => gret None
  | ok :: results =>
      let* stop := hc_procInterrupt in
      if stop : bool then gret (Some (0, HcAborted))
      else if ok : bool then await_results results (i + 1)
      else gret (Some (i, HcEngine))
  end.

(** The headers whose seals are checked: a random one of each [checkFreq], and the last. *)
Fixpoint pick_seals (n : nat) (i checkFreq : Z) (Intn : Z -> Z) (seals : list bool) : Res (list bool) :=
  match n with
  | O => Ret seals
  | S n =>
      let index := i * checkFreq + Intn i in
      let index := if index >=? zlen seals then zlen seals - 1 else index in
      let? seals := go_update seals index true in
      pick_seals n (i + 1) checkFreq Intn seals
  end.

Definition seal_requests (len checkFreq : Z) (Intn : Z -> Z) : Res (list bool) :=
  let seals := replicate (Z.to_nat len) false in
  if negb (checkFreq =? 0) then
    let? seals := pick_seals (Z.to_nat (len / checkFreq + 1)) 0 checkFreq Intn seals in
    go_update seals (len - 1) true
  else Ret seals.

Definition ValidateHeaderChain (chain : list Header) (checkFreq : Z) (Intn : Z -> Z) (BadHashes : gset Hash)
    (VerifyHeaders : list Header -> list bool -> list bool) : HC (option (Z * hc_error)) :=
  match match chain with [] => None | first :: rest => contiguous_check first 1 rest BadHashes end with
  | Some err => gret (Some err)
  | None =>
      let* seals := gpure (seal_requests (zlen chain) checkFreq Intn) in
      await_results (VerifyHeaders chain seals) 0
  end.
End header_chain.
