(* ===== verification/ChainSpec.v ===== *)
(** * The header chain keeps the ancestors of its head (client/core/headerchain.go)

    The headers that may occur are a universe without hash collisions, in which a
    header's number is one more than its parent's.  The invariant: what is stored is a
    tree of headers with their total difficulties, and the canonical hashes are those of
    the ancestors of the head.  A chain that is started has it. *)

From Stdlib Require Import Strings.Byte.
From S2P Require Import Prelude.
From S2P Require Import Common.
From S2P Require Import Params.
From S2P Require Import Precompiles.
From S2P Require Import Rlp.
From S2P Require Import Crypto.
From S2P Require Import Header.
From S2P Require Import Encoding.
From S2P Require Import RlpStream.
From S2P Require Import Lru.
From S2P Require Import TrieNode.
From S2P Require Import Blocks.
From S2P Require Import StreamSpec.
From S2P Require Import Decoding.
From S2P Require Import ChainKeys.
From S2P Require Import ChainStore.
From S2P Require Import HeaderChain.

(** ** The headers there are *)

Class HeaderUniverse : Type := { in_universe : Header -> Prop; genesis : Header }.

Class HeaderUniverseLaws {K : Keccak} (U : HeaderUniverse) : Prop := {
  hu_wf h : in_universe h -> header_wf h;
  hu_base h : in_universe h -> hdr_WithdrawalsHash h <> None -> hdr_BaseFee h <> None;
  hu_data_gas h : in_universe h -> hdr_ExcessDataGas h = None;
  hu_number h : in_universe h -> 0 <= hdr_Number h < 2 ^ 62;
  hu_hash h : in_universe h -> 0 < Header_Hash h < 2 ^ 256;
  hu_inj a b : in_universe a -> in_universe b -> Header_Hash a = Header_Hash b -> a = b;
  hu_link h p : in_universe h -> in_universe p -> Header_Hash p = hdr_ParentHash h -> hdr_Number h = hdr_Number p + 1;
  hu_genesis : in_universe genesis /\ hdr_Number genesis = 0
}.

(** No item has been moved to the freezer. *)
Class NoFreezer (AS : AncientStore) : Prop := { no_freezer t n : Ancient t n = None }.

#[export] Instance item_key_eq_dec : EqDecision item_key.
Proof. solve_decision. Defined.

(** ** Lemmas: items of the store *)

Lemma kv_put_lookup db k v k' : item_wf k -> item_wf k' ->
  <[key_of k := v]> db !! key_of k' = if decide (k = k') then Some v else (db : kvstore) !! key_of k'.
Proof.
  intros Hk Hk'. case_decide as Heq; [subst; apply lookup_insert_eq|]. apply lookup_insert_ne.
  intros H. by apply Heq, schema_injective.
Qed.

Lemma kv_delete_lookup db k k' : item_wf k -> item_wf k' ->
  delete (key_of k) db !! key_of k' = if decide (k = k') then None else (db : kvstore) !! key_of k'.
Proof.
  intros Hk Hk'. case_decide as Heq; [subst; apply lookup_delete_eq|]. apply lookup_delete_ne.
  intros H. by apply Heq, schema_injective.
Qed.

Lemma kv_write_app b b' db : kv_write (b ++ b') db = kv_write b' (kv_write b db).
Proof. apply foldl_app. Qed.

Lemma hash_roundtrip h : is_hash h -> BytesToHash (hash_bytes h) = h.
Proof.
  intros Hh. unfold BytesToHash, hash_bytes. rewrite length_be_bytes. cbn [Nat.sub]. rewrite drop_0, be_value_be_bytes.
  by apply Z.mod_small.
Qed.

Lemma number_roundtrip n : is_u64 n -> be_value (encodeBlockNumber n) = n.
Proof. intros Hn. unfold encodeBlockNumber. rewrite be_value_be_bytes. by apply Z.mod_small. Qed.

Lemma Decode_of_DecodeBytes {A} (d : decoder A) b a : DecodeBytes d b = Ret (inl a) -> Decode d b = Ret (Some a).
Proof.
  unfold DecodeBytes, Decode. destruct (d (stream_Reset b)) as [[[x|e] s]| |]; cbn; try done.
  by destruct (zlen (s_input s) >? 0); intros [= ->].
Qed.

Lemma Decode_big v : 0 <= v -> zlen (writeBigInt v) < 2 ^ 62 -> Decode stream_decodeBigInt (writeBigInt v) = Ret (Some v).
Proof.
  intros Hv Hl. pose proof (BigInt_exact None _ [] _ (at_list_Reset _ Hl)) as H.
  assert (reads_string big_of (writeBigInt v) v []) as HR by (apply reads_big_iff; by rewrite app_nil_r).
  apply wp_returns in H as ([a|e] & s & Hrun & H); unfold Decode; rewrite Hrun; cbn.
  - destruct H as (l' & Ha & _). by destruct (reads_string_functional _ _ _ _ _ _ Hl Ha HR) as [-> _].
  - destruct H as [_ H]. by destruct (H v []).
Qed.

Lemma writeBigInt_len v n : 0 <= v < 256 ^ n -> 0 <= n < 2 ^ 60 -> zlen (writeBigInt v) < 2 ^ 62.
Proof.
  intros Hv Hn. rewrite writeBigInt_bytes. assert (zlen (int_bytes v) <= n) as Hl.
  { unfold zlen, int_bytes. rewrite length_be_bytes. fold (byte_len v). destruct (Z.eq_dec v 0) as [->|Hv0]; [change (byte_len 0) with 0; cbn; lia|].
    destruct (byte_len_bounds v Hv0) as [H1 H2]. rewrite Z2Nat.id by lia.
    destruct (Z.le_gt_cases (byte_len v) n) as [|Hgt]; [done|exfalso].
    pose proof (Z.pow_le_mono_r 256 n (byte_len v - 1)). lia. }
  pose proof (writeBytes_len (int_bytes v) ltac:(unfold two64; lia)). lia.
Qed.

Section chain_spec.
Context {K : Keccak} {AS : AncientStore} {NF : NoFreezer AS} {W : KvDisk} {U : HeaderUniverse} {UL : HeaderUniverseLaws U}.
Notation num := hdr_Number.
Notation hash := Header_Hash.
Implicit Types (db : kvstore) (x y p h cur : Header) (td : Z).

Lemma hu_u64 x : in_universe x -> is_u64 (num x).
Proof. intros Hx. pose proof (hu_number x Hx). unfold is_u64, two64. lia. Qed.

Lemma hu_is_hash x : in_universe x -> is_hash (hash x).
Proof. intros Hx. pose proof (hu_hash x Hx). unfold is_hash. lia. Qed.

Lemma hu_parent_hash x : in_universe x -> is_hash (hdr_ParentHash x).
Proof. intros Hx. by destruct (hu_wf x Hx). Qed.

Lemma hu_Uint64 x : in_universe x -> big_Uint64 (num x) = num x.
Proof. intros Hx. pose proof (hu_number x Hx). unfold big_Uint64. rewrite Z.abs_eq by lia. by apply u64_small, hu_u64. Qed.

Lemma hu_decodable x : in_universe x -> header_decodable x.
Proof.
  intros Hx. pose proof (hu_wf x Hx) as []. pose proof (hu_base x Hx) as Hb. pose proof (hu_data_gas x Hx) as He. constructor; try done.
  - lia.
  - unfold is_u64 in wf_Number. lia.
  - intros b Hb'. by apply wf_BaseFee.
  - intros w Hw. split; [by apply wf_WithdrawalsHash|]. destruct (hdr_BaseFee x) eqn:E; [by eexists|]. by destruct Hb; [rewrite Hw|].
  - rewrite He. done.
Qed.

(** The encoding of a header, and that it is read back. *)
Definition header_data x : list byte := default [] (Header_EncodeRLP x).

Lemma header_data_eq x : in_universe x -> Header_EncodeRLP x = Some (header_data x).
Proof.
  intros Hx. unfold header_data. by rewrite (Header_EncodeRLP_content x (hu_decodable x Hx) (hu_data_gas x Hx)).
Qed.

Lemma header_data_decode x : in_universe x -> Decode decode_header (header_data x) = Ret (Some x) /\ zlen (header_data x) <> 0.
Proof.
  intros Hx. pose proof (hu_wf x Hx) as Hwf.
  assert (header_data x = encode_item (header_item x)) as Hd by (unfold header_data; by rewrite Header_EncodeRLP_item).
  pose proof (header_encoding_len x Hwf) as Hl. split.
  - apply Decode_of_DecodeBytes. apply decode_header_exact; [by rewrite Hd|]. eexists. split; [split; [by apply hu_decodable|done]|].
    unfold header_data. by rewrite (Header_EncodeRLP_content x (hu_decodable x Hx) (hu_data_gas x Hx)).
  - rewrite Hd. pose proof (encode_item_nonempty (header_item x)). destruct (encode_item (header_item x)); [done|].
    rewrite zlen_cons. pose proof (zlen_nonneg l). lia.
Qed.

(** ** The stored tree *)

Definition stored db x : Prop := in_universe x /\ db !! key_of (IKHeader (num x) (hash x)) = Some (header_data x).

Definition td_of db x td : Prop :=
  db !! key_of (IKTD (num x) (hash x)) = Some (writeBigInt td) /\ 0 <= td <= (num x + 1) * 2 ^ 256.

(** What is stored are headers of the universe with their numbers and total difficulties,
    and with every header its parent, down to the genesis header. *)
Record store_ok db : Prop := {
  so_header n k data : is_u64 n -> is_hash k -> db !! key_of (IKHeader n k) = Some data ->
    exists x, stored db x /\ num x = n /\ hash x = k;
  so_td n k data : is_u64 n -> is_hash k -> db !! key_of (IKTD n k) = Some data ->
    exists x td, stored db x /\ num x = n /\ hash x = k /\ td_of db x td;
  so_number k data : is_hash k -> db !! key_of (IKNumber k) = Some data ->
    exists x, stored db x /\ hash x = k /\ data = encodeBlockNumber (num x);
  so_genesis : stored db genesis /\ exists td, td_of db genesis td;
  so_link x : stored db x -> x = genesis \/ exists p tp, stored db p /\ hash p = hdr_ParentHash x /\ td_of db p tp /\
    td_of db x (tp + hdr_Difficulty x);
  so_numbered x : stored db x -> db !! key_of (IKNumber (hash x)) = Some (encodeBlockNumber (num x))
}.

Lemma td_of_len db x td : in_universe x -> td_of db x td -> zlen (writeBigInt td) < 2 ^ 62.
Proof.
  intros Hx [_ Ht]. pose proof (hu_number x Hx). apply (writeBigInt_len td 40); [|lia].
  change (256 ^ 40) with (2 ^ 64 * 2 ^ 256). split; [lia|]. nia.
Qed.

Lemma td_of_inj db x t t' : in_universe x -> td_of db x t -> td_of db x t' -> t = t'.
Proof.
  intros Hx H H'. pose proof (td_of_len db x t Hx H) as Hl. destruct H as [H1 H2], H' as [H3 H4]. rewrite H1 in H3. injection H3 as H3.
  rewrite !writeBigInt_bytes in *.
  destruct (encode_item_prefix (Str (int_bytes t)) (Str (int_bytes t')) [] []) as [Heq _];
    [rewrite app_nil_r; cbn [encode_item]; lia|by rewrite !app_nil_r|]. apply Str_inj, int_bytes_inj in Heq; [done|lia|lia].
Qed.

Lemma ReadTd_stored db x td : in_universe x -> td_of db x td -> ReadTd (hash x) (num x) db = Ret (Some td).
Proof.
  intros Hx Ht. pose proof (td_of_len db x td Hx Ht) as Hl. destruct Ht as [Hs Ht].
  unfold ReadTd, ReadTdRLP, isCanon. rewrite no_freezer. unfold kv_Get. cbn [key_of] in Hs. rewrite Hs. cbn [default from_option id].
  assert (zlen (writeBigInt td) <> 0) as Hne.
  { rewrite writeBigInt_item. pose proof (encode_item_nonempty (int_item td)). destruct (encode_item (int_item td)); [done|].
    rewrite zlen_cons. pose proof (zlen_nonneg l). lia. }
  rewrite (proj2 (Z.eqb_neq _ _) Hne). apply Decode_big; [lia|done].
Qed.

Lemma ReadTd_absent db n (k : Hash) : db !! key_of (IKTD n k) = None -> ReadTd k n db = Ret None.
Proof.
  intros Hs. unfold ReadTd, ReadTdRLP, isCanon. rewrite no_freezer. unfold kv_Get. cbn [key_of] in Hs. by rewrite Hs.
Qed.

Lemma ReadHeader_stored db x : stored db x -> ReadHeader (hash x) (num x) db = Ret (Some x).
Proof.
  intros [Hx Hs]. unfold ReadHeader, ReadHeaderRLP, ancient_data. rewrite no_freezer. cbn [default from_option].
  change (zlen [] >? 0) with false. cbn [andb]. unfold kv_Get. cbn [key_of] in Hs. rewrite Hs. cbn [default from_option id].
  destruct (header_data_decode x Hx) as [Hd Hl]. by rewrite (proj2 (Z.eqb_neq _ _) Hl).
Qed.

Lemma ReadHeader_absent db n (k : Hash) : db !! key_of (IKHeader n k) = None -> ReadHeader k n db = Ret None.
Proof.
  intros Hs. unfold ReadHeader, ReadHeaderRLP, ancient_data. rewrite no_freezer. cbn [default from_option].
  change (zlen [] >? 0) with false. cbn [andb]. unfold kv_Get. cbn [key_of] in Hs. by rewrite Hs.
Qed.

(** ** The caches *)

Definition cached_headers db (l : BasicLRU Hash Header) : Prop :=
  lru_ok l /\ forall k x, lru_items l !! k = Some x -> stored db x /\ hash x = k.
Definition cached_tds db (l : BasicLRU Hash Z) : Prop :=
  lru_ok l /\ forall k td, lru_items l !! k = Some td -> exists x, stored db x /\ hash x = k /\ td_of db x td.
Definition cached_numbers db (l : BasicLRU Hash Z) : Prop :=
  lru_ok l /\ forall k n, lru_items l !! k = Some n -> exists x, stored db x /\ hash x = k /\ num x = n.

(** The caches know only what is stored. *)
Record caches_ok db (c : HeaderChain) : Prop := {
  ch_headers : cached_headers db (hc_headerCache c);
  ch_tds : cached_tds db (hc_tdCache c);
  ch_numbers : cached_numbers db (hc_numberCache c)
}.

(** The same but for the caches. *)
Definition same (c c' : HeaderChain) : Prop :=
  hc_config c' = hc_config c /\ hc_chainDb c' = hc_chainDb c /\ hc_genesisHeader c' = hc_genesisHeader c /\
  hc_currentHeader c' = hc_currentHeader c /\ hc_currentHeaderHash c' = hc_currentHeaderHash c /\
  hc_interrupts c' = hc_interrupts c.

Lemma same_refl c : same c c.
Proof. done. Qed.

Lemma same_trans c c' c'' : same c c' -> same c' c'' -> same c c''.
Proof. unfold same. intros (?&?&?&?&?&?) (?&?&?&?&?&?). split_and!; congruence. Qed.

Lemma zoom_Get {V} get (put : BasicLRU Hash V -> HeaderChain -> HeaderChain) k c :
  lru_ok (get c) ->
  wp no_panic (gzoom get put (lru_Get k)) (fun r c' =>
    r = lru_items (get c) !! k /\ exists l, lru_ok l /\ lru_items l = lru_items (get c) /\ c' = put l c) c.
Proof.
  intros Hl. destruct (lru_Get_ok k (get c) Hl) as (l & Hrun & Hok & _ & Hi & _). unfold wp, gzoom. rewrite Hrun.
  split; [done|]. by exists l.
Qed.

Lemma zoom_Add {V} get (put : BasicLRU Hash V -> HeaderChain -> HeaderChain) k v c :
  lru_ok (get c) ->
  wp no_panic (gzoom get put (lru_Add k v)) (fun _ c' =>
    exists l, lru_ok l /\ lru_items l ⊆ <[k := v]> (lru_items (get c)) /\ c' = put l c) c.
Proof.
  intros Hl. destruct (lru_Add_ok k v (get c) Hl) as (b & l & Hrun & Hok & _ & _ & _ & Hi). unfold wp, gzoom. rewrite Hrun.
  by exists l.
Qed.

Lemma put_headers db c l : caches_ok db c -> cached_headers db l -> caches_ok db (hc_set_headers l c).
Proof. intros [] Hl. by constructor. Qed.
Lemma put_tds db c l : caches_ok db c -> cached_tds db l -> caches_ok db (hc_set_tds l c).
Proof. intros [] Hl. by constructor. Qed.
Lemma put_numbers db c l : caches_ok db c -> cached_numbers db l -> caches_ok db (hc_set_numbers l c).
Proof. intros [] Hl. by constructor. Qed.

Lemma subset_insert {V} (m m' : gmap Hash V) k v k' v' :
  m' ⊆ <[k := v]> m -> m' !! k' = Some v' -> (k' = k /\ v' = v) \/ m !! k' = Some v'.
Proof.
  intros Hs H. pose proof (lookup_weaken _ _ _ _ H Hs) as H1. destruct (decide (k' = k)) as [->|Hne].
  - rewrite lookup_insert_eq in H1. injection H1 as ->. by left.
  - rewrite lookup_insert_ne in H1 by done. by right.
Qed.

Lemma hc_GetHeader_run c db (k : Hash) n :
  hc_chainDb c = db -> store_ok db -> caches_ok db c -> is_u64 n -> is_hash k ->
  wp no_panic (hc_GetHeader k n) (fun r c' => same c c' /\ caches_ok db c' /\
    match r with
    | Some x => stored db x /\ hash x = k
    | None => forall x, stored db x -> hash x = k -> num x <> n
    end) c.
Proof.
  intros Hdb Hs Hc Hn Hk. unfold hc_GetHeader. pose proof (ch_headers db c Hc) as [Hl Hitems].
  apply wp_gbind. eapply wp_mono; [by apply zoom_Get|]. intros r c1 (-> & l & Hok & Hi & ->).
  assert (caches_ok db (hc_set_headers l c)) as Hc1 by (apply put_headers; [done|split; [done|by rewrite Hi]]).
  destruct (lru_items (hc_headerCache c) !! k) as [x|] eqn:E.
  { apply wp_gret. split; [done|]. split; [done|]. by apply Hitems. }
  apply wp_gbind, wp_gget. cbn [hc_chainDb hc_set_headers]. rewrite Hdb.
  destruct (db !! key_of (IKHeader n k)) as [data|] eqn:Ed.
  - destruct (so_header db Hs n k data Hn Hk Ed) as (x & Hx & <- & <-). apply wp_gbind.
    apply (wp_gpure _ (Some x)); [by apply ReadHeader_stored|]. apply wp_gbind.
    eapply wp_mono; [apply zoom_Add; exact Hok|]. intros _ c2 (l2 & Hok2 & Hi2 & ->). apply wp_gret. split; [done|].
    split; [|by split]. apply put_headers; [done|]. split; [done|]. intros k' x' H'.
    destruct (subset_insert _ _ _ _ _ _ Hi2 H') as [[-> ->]|H]; [by split|]. cbn in H. rewrite Hi in H. by apply Hitems.
  - apply wp_gbind. apply (wp_gpure _ None); [by apply ReadHeader_absent|]. apply wp_gret. split; [done|]. split; [done|].
    intros x [_ Hx] <- <-. by rewrite Hx in Ed.
Qed.

Lemma hc_GetTd_run c db (k : Hash) n :
  hc_chainDb c = db -> store_ok db -> caches_ok db c -> is_u64 n -> is_hash k ->
  wp no_panic (hc_GetTd k n) (fun r c' => same c c' /\ caches_ok db c' /\
    match r with
    | Some td => exists x, stored db x /\ hash x = k /\ td_of db x td
    | None => forall x td, stored db x -> hash x = k -> num x = n -> ~ td_of db x td
    end) c.
Proof.
  intros Hdb Hs Hc Hn Hk. unfold hc_GetTd. pose proof (ch_tds db c Hc) as [Hl Hitems].
  apply wp_gbind. eapply wp_mono; [by apply zoom_Get|]. intros r c1 (-> & l & Hok & Hi & ->).
  assert (caches_ok db (hc_set_tds l c)) as Hc1 by (apply put_tds; [done|split; [done|by rewrite Hi]]).
  destruct (lru_items (hc_tdCache c) !! k) as [td|] eqn:E.
  { apply wp_gret. split; [done|]. split; [done|]. by apply Hitems. }
  apply wp_gbind, wp_gget. cbn [hc_chainDb hc_set_tds]. rewrite Hdb.
  destruct (db !! key_of (IKTD n k)) as [data|] eqn:Ed.
  - destruct (so_td db Hs n k data Hn Hk Ed) as (x & td & Hx & <- & <- & Ht). apply wp_gbind.
    apply (wp_gpure _ (Some td)); [apply ReadTd_stored; [apply Hx|done]|]. apply wp_gbind.
    eapply wp_mono; [apply zoom_Add; exact Hok|]. intros _ c2 (l2 & Hok2 & Hi2 & ->). apply wp_gret. split; [done|].
    split; [|by exists x]. apply put_tds; [done|]. split; [done|]. intros k' x' H'.
    destruct (subset_insert _ _ _ _ _ _ Hi2 H') as [[-> ->]|H]; [by exists x|]. cbn in H. rewrite Hi in H. by apply Hitems.
  - apply wp_gbind. apply (wp_gpure _ None); [by apply ReadTd_absent|]. apply wp_gret. split; [done|]. split; [done|].
    intros x td _ <- <- [Ht _]. by rewrite Ht in Ed.
Qed.

(** ** Ancestors *)

Inductive anc db : Header -> Header -> Prop :=
| anc_refl h : anc db h h
| anc_step h p x : stored db p -> hash p = hdr_ParentHash h -> anc db p x -> anc db h x.

Lemma stored_inj db x y : stored db x -> stored db y -> hash x = hash y -> x = y.
Proof. intros [Hx _] [Hy _]. by apply hu_inj. Qed.

Lemma parent_number db x p : stored db x -> stored db p -> hash p = hdr_ParentHash x -> num x = num p + 1.
Proof. intros [Hx _] [Hp _]. by apply hu_link. Qed.

Lemma anc_stored db h x : stored db h -> anc db h x -> stored db x.
Proof. intros Hh H. induction H as [h|h p x Hp Hl H IH]; [done|]. by apply IH. Qed.

Lemma anc_number db h x : stored db h -> anc db h x -> num x <= num h.
Proof.
  intros Hh H. induction H as [h|h p x Hp Hl H IH]; [lia|]. pose proof (parent_number db h p Hh Hp Hl). specialize (IH Hp). lia.
Qed.

Lemma anc_trans db h x y : anc db h x -> anc db x y -> anc db h y.
Proof. induction 1 as [h|h p x Hp Hl H IH]; [done|]. intros Hy. by eapply anc_step; [..|apply IH]. Qed.

Lemma anc_same_number db h x : stored db h -> anc db h x -> num x = num h -> x = h.
Proof.
  intros Hh H Hn. destruct H as [h|h p x Hp Hl H]; [done|]. pose proof (parent_number db h p Hh Hp Hl).
  pose proof (anc_number db p x Hp H). lia.
Qed.

(** A header has one ancestor of each number. *)
Lemma anc_unique db h x y : stored db h -> anc db h x -> anc db h y -> num x = num y -> x = y.
Proof.
  intros Hh Hx. revert y. induction Hx as [h|h p x Hp Hl H IH]; intros y Hy Hn.
  - symmetry. by apply (anc_same_number db h).
  - destruct Hy as [h|h q y Hq Hlq Hy].
    + pose proof (parent_number db h p Hh Hp Hl). pose proof (anc_number db p x Hp H). lia.
    + assert (q = p) as -> by (apply (stored_inj db); [done..|congruence]). by apply IH.
Qed.

Lemma anc_at db h : store_ok db -> stored db h -> forall n, 0 <= n <= num h -> exists x, anc db h x /\ num x = n.
Proof.
  intros Hs. assert (forall (m : nat) y, stored db y -> num y < Z.of_nat m -> forall n, 0 <= n <= num y -> exists x, anc db y x /\ num x = n) as H.
  { induction m as [|m IH]; intros y Hy Hm n Hn; [lia|].
    destruct (Z.eq_dec n (num y)) as [->|Hne]; [exists y; split; [constructor|done]|].
    destruct (so_link db Hs y Hy) as [->|(p & tp & Hp & Hl & _)]; [destruct hu_genesis; lia|].
    pose proof (parent_number db y p Hy Hp Hl). destruct (IH p Hp ltac:(lia) n ltac:(lia)) as (x & Hx & Hxn).
    exists x. split; [by eapply anc_step|done]. }
  intros Hh. apply (H (Z.to_nat (num h + 1)) h Hh). pose proof (hu_number h (proj1 Hh)). lia.
Qed.

Lemma number_zero db x : store_ok db -> stored db x -> num x = 0 -> x = genesis.
Proof.
  intros Hs Hx H0. destruct (so_link db Hs x Hx) as [?|(p & tp & Hp & Hl & _)]; [done|].
  pose proof (parent_number db x p Hx Hp Hl). pose proof (hu_number p (proj1 Hp)). lia.
Qed.

(** ** The canonical chain *)

Definition canon db (n : Z) : Hash := ReadCanonicalHash n db.

(** The canonical hashes are those of the head and its ancestors. *)
Record canon_ok db cur : Prop := {
  cn_stored : stored db cur;
  cn_anc x : anc db cur x -> canon db (num x) = hash x;
  cn_above n : num cur < n < two64 -> canon db n = 0
}.

Record hc_ok (c : HeaderChain) : Prop := {
  ok_store : store_ok (hc_chainDb c);
  ok_caches : caches_ok (hc_chainDb c) c;
  ok_canon : canon_ok (hc_chainDb c) (hc_currentHeader c);
  ok_hash : hc_currentHeaderHash c = hash (hc_currentHeader c);
  ok_genesis : hc_genesisHeader c = genesis;
  ok_mark : ReadHeadHeaderHash (hc_chainDb c) = hash (hc_currentHeader c)
}.

Lemma canon_get db n : canon db n = BytesToHash (default [] (db !! key_of (IKCanonical n))).
Proof.
  unfold canon, ReadCanonicalHash, ancient_data. rewrite no_freezer. cbn [default from_option].
  change (zlen [] =? 0) with true. done.
Qed.

(** Items of the tree, and the others. *)
Definition tree_key (k : item_key) : bool :=
  match k with IKHeader _ _ | IKTD _ _ | IKNumber _ => true | _ => false end.

Definition same_tree db db' : Prop :=
  forall k, item_wf k -> tree_key k = true -> (db' : kvstore) !! key_of k = db !! key_of k.

Lemma same_tree_sym db db' : same_tree db db' -> same_tree db' db.
Proof. intros H k Hk Ht. symmetry. by apply H. Qed.

Lemma same_tree_trans db db' db'' : same_tree db db' -> same_tree db' db'' -> same_tree db db''.
Proof. intros H H' k Hk Ht. rewrite H', H by done. done. Qed.

Lemma stored_same db db' x : same_tree db db' -> stored db x -> stored db' x.
Proof. intros H [Hx Hs]. split; [done|]. rewrite H; [done| |done]. split; [by apply hu_u64|by apply hu_is_hash]. Qed.

Lemma td_of_same db db' x td : same_tree db db' -> in_universe x -> td_of db x td -> td_of db' x td.
Proof. intros H Hx [Ht Hb]. split; [|done]. rewrite H; [done| |done]. split; [by apply hu_u64|by apply hu_is_hash]. Qed.

Lemma anc_same db db' h x : same_tree db db' -> anc db h x -> anc db' h x.
Proof. intros H Hx. induction Hx as [h|h p x Hp Hl Hx IH]; [constructor|]. eapply anc_step; [by eapply stored_same|done..]. Qed.

Lemma store_ok_same db db' : same_tree db db' -> store_ok db -> store_ok db'.
Proof.
  intros H Hs. pose proof (fun x => stored_same db db' x H) as Hst. pose proof (same_tree_sym db db' H) as H'. constructor.
  - intros n k data Hn Hk Hd. rewrite H in Hd; [|by split|done]. destruct (so_header db Hs n k data Hn Hk Hd) as (x & Hx & ?). exists x. auto.
  - intros n k data Hn Hk Hd. rewrite H in Hd; [|by split|done]. destruct (so_td db Hs n k data Hn Hk Hd) as (x & td & Hx & ? & ? & Ht).
    exists x, td. split_and!; auto. by eapply td_of_same; [..|apply Hx|].
  - intros k data Hk Hd. rewrite H in Hd; [|done|done]. destruct (so_number db Hs k data Hk Hd) as (x & Hx & ?). exists x. auto.
  - destruct (so_genesis db Hs) as [Hg [td Ht]]. split; [auto|]. exists td. by eapply td_of_same; [..|apply Hg|].
  - intros x Hx. assert (stored db x) as Hx' by (by eapply stored_same). destruct (so_link db Hs x Hx') as [?|(p & tp & Hp & Hl & Ht1 & Ht2)]; [by left|].
    right. exists p, tp. split_and!; auto; (eapply td_of_same; [exact H| |done]); [apply Hp|apply Hx'].
  - intros x Hx. assert (stored db x) as Hx' by (by eapply stored_same). rewrite H; [by apply so_numbered|by apply hu_is_hash, Hx|done].
Qed.

Lemma caches_ok_same db db' c : same_tree db db' -> caches_ok db c -> caches_ok db' c.
Proof.
  intros H [[Hl1 H1] [Hl2 H2] [Hl3 H3]]. constructor; (split; [done|]).
  - intros k x Hx. destruct (H1 k x Hx) as [Hs ?]. split; [by eapply stored_same|done].
  - intros k td Hx. destruct (H2 k td Hx) as (x & Hs & ? & Ht). exists x. split_and!; [by eapply stored_same|done|by eapply td_of_same; [..|apply Hs|]].
  - intros k n Hx. destruct (H3 k n Hx) as (x & Hs & ? & ?). exists x. split_and!; [by eapply stored_same|done..].
Qed.
(** ** Starting *)

Definition genesis_writes (body json : list byte) : kv_batch :=
  let n := num genesis in let k := hash genesis in
  [KvPut (key_of (IKTD n k)) (writeBigInt (hdr_Difficulty genesis)); KvPut (key_of (IKBody n k)) body;
   KvPut (key_of (IKNumber k)) (encodeBlockNumber n); KvPut (key_of (IKHeader n k)) (header_data genesis);
   KvPut (key_of (IKReceipts n k)) (write_list []); KvPut (key_of (IKCanonical n)) (hash_bytes k);
   KvPut (key_of (IKMark headBlockKey)) (hash_bytes k); KvPut (key_of (IKMark headFastBlockKey)) (hash_bytes k);
   KvPut (key_of (IKMark headHeaderKey)) (hash_bytes k); KvPut (key_of (IKConfig k)) json].

Lemma Commit_writes_eq body json : Commit_writes body json genesis = Ret (genesis_writes body json).
Proof.
  destruct hu_genesis as [Hg _]. destruct (hu_wf genesis Hg) as []. unfold Commit_writes, WriteTd.
  rewrite (proj2 (Z.ltb_ge _ _)) by lia. unfold WriteHeader. cbn [res_bind]. rewrite header_data_eq, hu_Uint64 by done. done.
Qed.

Lemma genesis_lookup body json k : item_wf k ->
  kv_write (genesis_writes body json) ∅ !! key_of k =
    match k with
    | IKTD n h => if decide (n = num genesis /\ h = hash genesis) then Some (writeBigInt (hdr_Difficulty genesis)) else None
    | IKHeader n h => if decide (n = num genesis /\ h = hash genesis) then Some (header_data genesis) else None
    | IKNumber h => if decide (h = hash genesis) then Some (encodeBlockNumber (num genesis)) else None
    | IKCanonical n => if decide (n = num genesis) then Some (hash_bytes (hash genesis)) else None
    | _ => kv_write (genesis_writes body json) ∅ !! key_of k
    end.
Proof.
  intros Hk. destruct hu_genesis as [Hg _]. pose proof (hu_u64 _ Hg). pose proof (hu_is_hash _ Hg).
  destruct k; try reflexivity; unfold genesis_writes, kv_write; cbn [foldl kv_apply];
    rewrite !kv_put_lookup by (done || (split; done) || (cbn [item_wf]; unfold mark_names; set_solver));
    repeat case_decide; try done; try congruence; destruct_and?; try congruence; exfalso; naive_solver.
Qed.
Section genesis_store.
Context (body json : list byte).
Let db := kv_write (genesis_writes body json) ∅.

Lemma genesis_stored : stored db genesis /\ td_of db genesis (hdr_Difficulty genesis).
Proof.
  destruct hu_genesis as [Hg H0]. pose proof (hu_u64 _ Hg). pose proof (hu_is_hash _ Hg). destruct (hu_wf genesis Hg) as [].
  split; (split; [try done|try lia]); unfold db; rewrite genesis_lookup by done; by rewrite decide_True.
Qed.

Lemma genesis_store_ok : store_ok db.
Proof.
  destruct genesis_stored as [Hs Ht]. destruct hu_genesis as [Hg H0]. constructor.
  - intros n k data Hn Hk Hd. unfold db in Hd. rewrite genesis_lookup in Hd by done. case_decide as Heq; [|done].
    destruct Heq as [-> ->]. by exists genesis.
  - intros n k data Hn Hk Hd. unfold db in Hd. rewrite genesis_lookup in Hd by done. case_decide as Heq; [|done].
    destruct Heq as [-> ->]. by exists genesis, (hdr_Difficulty genesis).
  - intros k data Hk Hd. unfold db in Hd. rewrite genesis_lookup in Hd by done. case_decide as Heq; [|done]. exists genesis.
    split_and!; [done..|congruence].
  - split; [done|by eexists].
  - intros x [Hx Hsx]. unfold db in Hsx. rewrite genesis_lookup in Hsx by (split; [by apply hu_u64|by apply hu_is_hash]).
    case_decide as Heq; [|done]. left. apply hu_inj; [done..|apply Heq].
  - intros x [Hx Hsx]. unfold db in Hsx. rewrite genesis_lookup in Hsx by (split; [by apply hu_u64|by apply hu_is_hash]).
    case_decide as Heq; [|done]. unfold db. rewrite genesis_lookup by by apply hu_is_hash. destruct Heq as [-> ->]. by rewrite decide_True.
Qed.

Lemma genesis_canon_ok : canon_ok db genesis.
Proof.
  destruct genesis_stored as [Hs _]. destruct hu_genesis as [Hg H0]. constructor; [done| |].
  - intros x Hx. pose proof (anc_number db _ x Hs Hx). pose proof (hu_number x (proj1 (anc_stored db _ x Hs Hx))).
    rewrite (anc_same_number db _ x Hs Hx) by lia. rewrite canon_get. unfold db. rewrite genesis_lookup by by apply hu_u64.
    rewrite decide_True by done. apply hash_roundtrip. by apply hu_is_hash.
  - intros n Hn. rewrite canon_get. unfold db. rewrite genesis_lookup by (cbn [item_wf]; unfold is_u64; lia).
    rewrite decide_False by lia. done.
Qed.

Lemma genesis_marks : ReadHeadBlockHash db = hash genesis /\ ReadHeadHeaderHash db = hash genesis.
Proof.
  destruct hu_genesis as [Hg _]. pose proof (hu_is_hash _ Hg). assert (forall key, kv_Get key db = hash_bytes (hash genesis) ->
    read_mark key db = hash genesis) as Hr.
  { intros key Hk. unfold read_mark. rewrite Hk.
    assert (zlen (hash_bytes (hash genesis)) = 32) as -> by (unfold zlen, hash_bytes; by rewrite length_be_bytes). by apply hash_roundtrip. }
  assert (forall name, name = headBlockKey \/ name = headHeaderKey -> kv_Get name db = hash_bytes (hash genesis)) as Hk.
  { intros name Hname. unfold kv_Get. change name with (key_of (IKMark name)).
    assert (item_wf (IKMark name)) as Hwf by (destruct Hname as [-> | ->]; cbn [item_wf]; unfold mark_names; set_solver).
    unfold db, genesis_writes, kv_write; cbn [foldl kv_apply]. pose proof (hu_u64 _ Hg).
    rewrite !kv_put_lookup by (done || (split; done) || (cbn [item_wf]; unfold mark_names; set_solver)).
    destruct Hname as [-> | ->]; repeat case_decide; try done; congruence. }
  split; apply Hr, Hk; auto.
Qed.
End genesis_store.
Lemma ReadHeaderNumber_stored db x : store_ok db -> stored db x -> ReadHeaderNumber (hash x) db = Some (num x).
Proof.
  intros Hs Hx. unfold ReadHeaderNumber, kv_Get. change (headerNumberKey (hash x)) with (key_of (IKNumber (hash x))).
  rewrite (so_numbered db Hs x Hx). cbn [default from_option id]. unfold encodeBlockNumber at 1, zlen. rewrite length_be_bytes.
  change (negb (Z.of_nat 8 =? 8)) with false. cbn iota. f_equal. apply number_roundtrip. by apply hu_u64, Hx.
Qed.

Lemma hc_GetHeader_stored c db x : hc_chainDb c = db -> store_ok db -> caches_ok db c -> stored db x ->
  wp no_panic (hc_GetHeader (hash x) (num x)) (fun r c' => same c c' /\ caches_ok db c' /\ r = Some x) c.
Proof.
  intros Hdb Hs Hc Hx. eapply wp_mono; [apply (hc_GetHeader_run c db); [done..|by apply hu_u64, Hx|by apply hu_is_hash, Hx]|].
  intros [y|] c' (Hsm & Hc' & Hy); [|by destruct (Hy x Hx)]. split_and!; [done|done|]. f_equal. destruct Hy as [Hy Hh].
  by apply (stored_inj db).
Qed.

Lemma hc_GetHeaderByHash_stored c db x : hc_chainDb c = db -> store_ok db -> caches_ok db c -> stored db x ->
  wp no_panic (hc_GetHeaderByHash (hash x)) (fun r c' => same c c' /\ caches_ok db c' /\ r = Some x) c.
Proof.
  intros Hdb Hs Hc Hx. unfold hc_GetHeaderByHash. apply wp_gbind.
  apply wp_mono with (P := fun r c' => same c c' /\ caches_ok db c' /\ r = Some (num x)).
  - unfold hc_GetBlockNumber. pose proof (ch_numbers db c Hc) as [Hl Hitems].
    apply wp_gbind. eapply wp_mono; [by apply zoom_Get|]. intros r c1 (-> & l & Hok & Hi & ->).
    assert (caches_ok db (hc_set_numbers l c)) as Hc1 by (apply put_numbers; [done|split; [done|by rewrite Hi]]).
    destruct (lru_items (hc_numberCache c) !! hash x) as [n|] eqn:E.
    { apply wp_gret. split_and!; [done|done|]. destruct (Hitems _ _ E) as (y & Hy & Hh & <-). by rewrite (stored_inj db y x). }
    apply wp_gbind, wp_gget. cbn [hc_chainDb hc_set_numbers]. rewrite Hdb, (ReadHeaderNumber_stored db x Hs Hx).
    apply wp_gbind. eapply wp_mono; [apply zoom_Add; exact Hok|]. intros _ c2 (l2 & Hok2 & Hi2 & ->). apply wp_gret.
    split_and!; [done| |done]. apply put_numbers; [done|]. split; [done|]. intros k' n' H'.
    destruct (subset_insert _ _ _ _ _ _ Hi2 H') as [[-> ->]|H]; [by exists x|]. cbn in H. rewrite Hi in H. by apply Hitems.
  - intros r c1 (Hsm & Hc1 & ->). assert (hc_chainDb c1 = db) as Hdb1 by (destruct Hsm as (_ & -> & _); done).
    eapply wp_mono; [by apply (hc_GetHeader_stored c1 db x)|]. intros r c2 (Hsm2 & Hc2 & ->). split_and!; [by eapply same_trans|done|done].
Qed.

(** Starting on a stored chain: the head is the marked block's header, and after setting
    it to the marked header the chain is in order. *)
Theorem NewHeaderChain_loads config db interrupts unset y cur :
  store_ok db -> canon_ok db cur -> ReadHeadHeaderHash db = hash cur -> stored db y -> ReadHeadBlockHash db = hash y ->
  exists c, NewHeaderChain config db interrupts unset = Ret (inl c) /\ hc_currentHeader c = y /\
    hc_config c = config /\ hc_interrupts c = interrupts /\ hc_chainDb c = db /\ hc_ok (hc_set_current cur (hash cur) c).
Proof.
  intros Hs Hc Hm Hy Hb. unfold NewHeaderChain. set (c0 := mkHC _ _ _ _ _ _ _ _ _).
  assert (caches_ok db c0) as Hc0 by (constructor; (split; [apply NewBasicLRU_ok|]); intros k v Hk;
    cbn [c0 hc_headerCache hc_tdCache hc_numberCache NewBasicLRU lru_items] in Hk; by rewrite lookup_empty in Hk).
  destruct (anc_at db cur Hs (cn_stored db cur Hc) 0) as (g & Hg & Hg0);
    [pose proof (hu_number cur (proj1 (cn_stored db cur Hc))); lia|].
  pose proof (anc_stored db cur g (cn_stored db cur Hc) Hg) as Hgs. pose proof (number_zero db g Hs Hgs Hg0) as ->.
  pose proof (hu_hash _ (proj1 Hgs)) as Hgh. pose proof (hu_hash _ (proj1 Hy)) as Hyh.
  match goal with |- context[res_bind (?m c0) _] => set (start := m) end.
  assert (wp no_panic start (fun r c => r = inl tt /\ caches_ok db c /\ hc_genesisHeader c = genesis /\ hc_currentHeader c = y /\
    hc_config c = config /\ hc_interrupts c = interrupts /\ hc_chainDb c = db) c0) as H.
  { unfold start. apply wp_gbind. unfold hc_GetHeaderByNumber. apply wp_gbind, wp_gget. fold (canon (hc_chainDb c0) 0).
    cbn [hc_chainDb c0]. pose proof (cn_anc db cur Hc _ Hg) as Hcan. rewrite Hg0 in Hcan. rewrite Hcan, (proj2 (Z.eqb_neq _ _)) by lia.
    pose proof (hc_GetHeader_stored c0 db genesis eq_refl Hs Hc0 Hgs) as Hget. rewrite Hg0 in Hget.
    eapply wp_mono; [exact Hget|]. intros r c1 (Hsm1 & Hc1 & ->).
    apply wp_gbind, wp_gput, wp_gbind, wp_gput, wp_gbind, wp_gget. cbn [hc_set_current hc_set_genesis hc_chainDb].
    destruct Hsm1 as (Hcfg1 & Hdb1 & _ & _ & _ & Hi1). rewrite Hdb1. cbn [hc_chainDb c0]. rewrite Hb, (proj2 (Z.eqb_neq _ _)) by lia.
    apply wp_gbind, wp_gbind. eapply wp_mono; [apply (hc_GetHeaderByHash_stored _ db); [done|done| |done]|].
    { destruct Hc1. by constructor. }
    intros r c2 (Hsm2 & Hc2 & ->). destruct Hsm2 as (Hcfg2 & Hdb2 & Hg2 & _ & _ & Hi2).
    apply wp_gput, wp_gbind, wp_gget, wp_gbind. unfold hc_SetCurrentHeader. apply wp_gput, wp_gret.
    cbn [hc_set_current hc_set_genesis hc_chainDb hc_genesisHeader hc_currentHeader hc_config hc_interrupts] in *.
    split_and!; [done|destruct Hc2; by constructor|done|done|by rewrite Hcfg2, Hcfg1|by rewrite Hi2, Hi1|by rewrite Hdb2, Hdb1]. }
  apply wp_returns in H as (r & c & -> & -> & Hch & Hgen & Hcur & Hcfg & Hint & Hdb). cbn [res_bind fst snd]. exists c.
  split_and!; try done. constructor; cbn [hc_set_current hc_chainDb hc_genesisHeader hc_currentHeader hc_currentHeaderHash];
    rewrite ?Hdb; try done. destruct Hch. by constructor.
Qed.
End chain_spec.
