(* ===== verification/ChainReorg.v ===== *)
(** * Storing headers and choosing between branches keeps the header chain

    Reorg, WriteHeaders and InsertHeaderChain of client/core/headerchain.go and the fork
    choice keep the invariant of [ChainSpec]: whatever branch is chosen, the canonical
    hashes become those of the new head and its ancestors. *)

From Stdlib Require Import Strings.Byte.
From S2P Require Import Prelude.
From S2P Require Import Common.
From S2P Require Import Params.
From S2P Require Import Rlp.
From S2P Require Import Crypto.
From S2P Require Import Header.
From S2P Require Import Encoding.
From S2P Require Import Lru.
From S2P Require Import TrieNode.
From S2P Require Import Blocks.
From S2P Require Import ChainKeys.
From S2P Require Import ChainStore.
From S2P Require Import HeaderChain.
From S2P Require Import ChainSpec.

Section chain_reorg.
Context {K : Keccak} {AS : AncientStore} {NF : NoFreezer AS} {W : KvDisk} {U : HeaderUniverse} {UL : HeaderUniverseLaws U}.
Notation num := hdr_Number.
Notation hash := Header_Hash.
Implicit Types (db : kvstore) (x y p cur : Header) (td : Z).

(** ** What the writes of a batch do to the canonical hashes *)

Lemma same_tree_op db op : (exists k, item_wf k /\ tree_key k = false /\ (op = KvDelete (key_of k) \/ exists v, op = KvPut (key_of k) v)) ->
  same_tree db (kv_apply db op).
Proof.
  intros (k & Hk & Hf & [->|[v ->]]) k' Hk' Ht; cbn [kv_apply]; [rewrite kv_delete_lookup by done|rewrite kv_put_lookup by done];
    case_decide; congruence.
Qed.

Lemma kv_write_snoc b op db : kv_write (b ++ [op]) db = kv_apply (kv_write b db) op.
Proof. by rewrite kv_write_app. Qed.

Lemma canon_Write b db n m (k : Hash) : is_u64 n -> is_u64 m -> is_hash k ->
  canon (kv_write (WriteCanonicalHash k n b) db) m = if m =? n then k else canon (kv_write b db) m.
Proof.
  intros Hn Hm Hk. unfold WriteCanonicalHash. rewrite kv_write_snoc, !canon_get. cbn [kv_apply].
  change (headerHashKey n) with (key_of (IKCanonical n)). rewrite kv_put_lookup by done.
  destruct (Z.eqb_spec m n) as [->|Hne]; case_decide as Heq; try congruence. cbn [default from_option id]. by apply hash_roundtrip.
Qed.

Lemma canon_Delete b db n m : is_u64 n -> is_u64 m ->
  canon (kv_write (DeleteCanonicalHash n b) db) m = if m =? n then 0 else canon (kv_write b db) m.
Proof.
  intros Hn Hm. unfold DeleteCanonicalHash. rewrite kv_write_snoc, !canon_get. cbn [kv_apply].
  change (headerHashKey n) with (key_of (IKCanonical n)). rewrite kv_delete_lookup by done.
  destruct (Z.eqb_spec m n) as [->|Hne]; case_decide as Heq; try congruence. reflexivity.
Qed.

Lemma mark_wf : item_wf (IKMark headHeaderKey).
Proof. cbn [item_wf]. unfold mark_names. set_solver. Qed.

Lemma canon_Mark b db m (k : Hash) : is_u64 m ->
  canon (kv_write (WriteHeadHeaderHash k b) db) m = canon (kv_write b db) m.
Proof.
  intros Hm. unfold WriteHeadHeaderHash. rewrite kv_write_snoc, !canon_get. cbn [kv_apply].
  change headHeaderKey with (key_of (IKMark headHeaderKey)). rewrite kv_put_lookup by (done || apply mark_wf). done.
Qed.

Lemma kv_put_same db key v : <[key := v]> db !! key = Some v.
Proof. apply lookup_insert_eq. Qed.

Lemma mark_Mark b db (k : Hash) : is_hash k -> ReadHeadHeaderHash (kv_write (WriteHeadHeaderHash k b) db) = k.
Proof.
  intros Hk. assert (kv_Get headHeaderKey (kv_write (WriteHeadHeaderHash k b) db) = hash_bytes k) as Hd.
  { unfold WriteHeadHeaderHash, kv_Get. rewrite kv_write_snoc. cbn [kv_apply]. by rewrite kv_put_same. }
  unfold ReadHeadHeaderHash, read_mark. rewrite Hd.
  assert (zlen (hash_bytes k) = 32) as -> by (unfold zlen, hash_bytes; by rewrite length_be_bytes). by apply hash_roundtrip.
Qed.

Lemma tree_Write b db n (k : Hash) : is_u64 n -> same_tree (kv_write b db) (kv_write (WriteCanonicalHash k n b) db).
Proof.
  intros Hn. unfold WriteCanonicalHash. rewrite kv_write_snoc. apply same_tree_op. exists (IKCanonical n). split_and!; [done|done|].
  right. by eexists.
Qed.

Lemma tree_Delete b db n : is_u64 n -> same_tree (kv_write b db) (kv_write (DeleteCanonicalHash n b) db).
Proof.
  intros Hn. unfold DeleteCanonicalHash. rewrite kv_write_snoc. apply same_tree_op. exists (IKCanonical n). split_and!; [done|done|].
  by left.
Qed.

Lemma tree_Mark b db (k : Hash) : same_tree (kv_write b db) (kv_write (WriteHeadHeaderHash k b) db).
Proof.
  unfold WriteHeadHeaderHash. rewrite kv_write_snoc. apply same_tree_op. exists (IKMark headHeaderKey).
  split_and!; [apply mark_wf|done|]. right. by eexists.
Qed.

(** ** The loops of Reorg *)

Lemma same_db c c' : same c c' -> hc_chainDb c' = hc_chainDb c.
Proof. by intros (_ & H & _). Qed.

Lemma canon_at_anc db cur n : store_ok db -> canon_ok db cur -> 0 <= n < two64 ->
  (n <= num cur /\ exists x, anc db cur x /\ num x = n /\ canon db n = hash x) \/ (num cur < n /\ canon db n = 0).
Proof.
  intros Hs Hc Hn. destruct (Z.le_gt_cases n (num cur)) as [Hle|Hgt].
  - left. split; [done|]. destruct (anc_at db cur Hs (cn_stored db cur Hc) n ltac:(lia)) as (x & Hx & <-).
    exists x. split_and!; [done..|]. by apply (cn_anc db cur Hc).
  - right. split; [done|]. apply (cn_above db cur Hc). lia.
Qed.

(** The hash of a stored header is canonical when it is an ancestor of the head. *)
Lemma canon_is_anc db cur x : store_ok db -> canon_ok db cur -> stored db x -> canon db (num x) = hash x -> anc db cur x.
Proof.
  intros Hs Hc Hx Hcx. pose proof (hu_u64 x (proj1 Hx)) as Hn. pose proof (hu_hash x (proj1 Hx)) as Hh.
  destruct (canon_at_anc db cur (num x) Hs Hc Hn) as [(_ & y & Hy & _ & Hcy)|[_ H0]]; [|lia].
  assert (y = x) as <-; [|done]. apply (stored_inj db); [by eapply anc_stored; [apply Hc|]|done|congruence].
Qed.

(** There is an entry for every number up to the head's. *)
Lemma canon_count db cur : store_ok db -> canon_ok db cur -> num cur < Z.of_nat (size db).
Proof.
  intros Hs Hc. pose proof (hu_number cur (proj1 (cn_stored db cur Hc))) as Hn.
  pose (keys := map (fun n => key_of (IKCanonical n)) (seqZ 0 (num cur + 1))).
  assert (NoDup keys) as Hd.
  { apply NoDup_fmap_2_strong; [|apply NoDup_seqZ]. intros a b Ha Hb Heq. apply elem_of_seqZ in Ha, Hb.
    apply schema_injective in Heq; [by injection Heq| |]; cbn; unfold is_u64, two64; lia. }
  assert (list_to_set (C := gset (list byte)) keys ⊆ dom (db : gmap (list byte) (list byte))) as Hsub.
  { intros k Hk. apply elem_of_list_to_set, list_elem_of_fmap in Hk as (n & -> & Hin). apply elem_of_seqZ in Hin.
    apply elem_of_dom. destruct (db !! key_of (IKCanonical n)) eqn:E; [by eexists|exfalso].
    destruct (canon_at_anc db cur n Hs Hc) as [(_ & x & Hx & _ & Hcx)|[? _]]; [unfold two64; lia| |lia].
    pose proof (hu_hash x (proj1 (anc_stored db cur x (cn_stored db cur Hc) Hx))). rewrite canon_get, E in Hcx.
    change (BytesToHash (default [] None)) with 0 in Hcx. lia. }
  apply subseteq_size in Hsub. rewrite size_list_to_set in Hsub by done.
  assert (size (dom (db : gmap (list byte) (list byte))) = size db) as Hz by apply size_dom. rewrite Hz in Hsub.
  unfold keys in Hsub. rewrite length_map, length_seqZ in Hsub. lia.
Qed.
Lemma reorg_delete_run c db cur fuel i batch :
  hc_chainDb c = db -> store_ok db -> canon_ok db cur -> 0 <= i <= 2 ^ 63 -> num cur - i < Z.of_nat fuel ->
  wp no_panic (reorg_delete fuel i batch) (fun b c' => c' = c /\ same_tree (kv_write batch db) (kv_write b db) /\
    forall m, is_u64 m -> canon (kv_write b db) m = if (i <=? m) && (m <=? num cur) then 0 else canon (kv_write batch db) m) c.
Proof.
  intros Hdb Hs Hc. revert i batch. induction fuel as [|fuel IH]; intros i batch Hi Hf; cbn [reorg_delete];
    apply wp_gbind, wp_gget; cbv beta; rewrite Hdb; fold (canon db i);
    (destruct (canon_at_anc db cur i Hs Hc) as [(Hle & x & Hx & Hxn & ->)|[Hgt ->]]; [unfold two64; lia|..]);
    (pose proof (hu_number cur (proj1 (cn_stored db cur Hc))) as Hn).
  all: try (apply wp_gret; split_and!; [done|done|]; intros m Hm;
    destruct (Z.leb_spec i m), (Z.leb_spec m (num cur)); cbn [andb]; done || lia).
  - lia.
  - pose proof (hu_hash x (proj1 (anc_stored db cur x (cn_stored db cur Hc) Hx))) as Hh.
    rewrite (proj2 (Z.eqb_neq _ _)) by lia. rewrite u64_small by (unfold is_u64, two64; lia).
    eapply wp_mono; [apply IH; lia|]. intros b c' (-> & Ht & Hcan). assert (is_u64 i) as Hiu by (unfold is_u64, two64; lia).
    split_and!; [done|eapply same_tree_trans; [by apply tree_Delete|done]|]. intros m Hm. rewrite Hcan by done.
    rewrite canon_Delete by done. destruct (Z.leb_spec i m), (Z.leb_spec (i + 1) m), (Z.leb_spec m (num cur)), (Z.eqb_spec m i);
      cbn [andb]; done || lia.
Qed.

(** Headers one after the other. *)
Fixpoint linked (l : list Header) : Prop :=
  match l with
  | x :: ((y :: _) as rest) => hdr_ParentHash y = hash x /\ linked rest
  | _ => True
  end.

Lemma reorg_link_run c db cur fuel x batch :
  hc_chainDb c = db -> store_ok db -> canon_ok db cur -> caches_ok db c -> stored db x -> num x < Z.of_nat fuel ->
  (forall m, 0 <= m <= num x -> canon (kv_write batch db) m = canon db m) ->
  wp no_panic (reorg_link fuel x (num x) (hash x) batch) (fun r c' => same c c' /\ caches_ok db c' /\
    exists b, r = inl b /\ same_tree (kv_write batch db) (kv_write b db) /\
      (forall y, anc db x y -> canon (kv_write b db) (num y) = hash y) /\
      (forall m, is_u64 m -> num x < m -> canon (kv_write b db) m = canon (kv_write batch db) m)) c.
Proof.
  intros Hdb Hs Hc. revert c x batch Hdb. induction fuel as [|fuel IH]; intros c x batch Hdb Hch Hx Hf Hb;
    pose proof (hu_number x (proj1 Hx)) as Hn; [lia|]. pose proof (hu_u64 x (proj1 Hx)) as Hnu.
  cbn [reorg_link]. apply wp_gbind, wp_gget; cbv beta. rewrite Hdb. fold (canon db (num x)).
  destruct (Z.eqb_spec (canon db (num x)) (hash x)) as [Heq|Hne].
  { apply wp_gret. split; [apply same_refl|]. split; [done|]. exists batch. split_and!; [done|done| |done].
    intros y Hy. pose proof (canon_is_anc db cur x Hs Hc Hx Heq) as Hcx. pose proof (anc_number db x y Hx Hy).
    pose proof (hu_number y (proj1 (anc_stored db x y Hx Hy))). rewrite Hb by lia. apply (cn_anc db cur Hc). by eapply anc_trans. }
  pose proof (hu_is_hash x (proj1 Hx)) as Hhx.
  destruct (so_link db Hs x Hx) as [->|(p & tp & Hp & Hl & _)].
  - assert (num genesis = 0) as H0 by apply hu_genesis. rewrite H0 in *. cbn [Z.eqb]. apply wp_gret. split; [apply same_refl|].
    split; [done|]. eexists. split; [done|]. split_and!; [by apply tree_Write| |].
    + intros y Hy. pose proof (hu_number y (proj1 (anc_stored db _ y Hx Hy))). pose proof (anc_number db _ y Hx Hy) as Hle.
      assert (y = genesis) as -> by (apply (anc_same_number db _ _ Hx Hy); lia). rewrite H0, canon_Write by done. done.
    + intros m Hm Hlt. rewrite canon_Write by done. by rewrite (proj2 (Z.eqb_neq _ _)) by lia.
  - pose proof (parent_number db x p Hx Hp Hl) as Hnp. pose proof (hu_number p (proj1 Hp)) as Hpn.
    rewrite (proj2 (Z.eqb_neq _ _)) by lia. rewrite (hu_Uint64 x (proj1 Hx)), u64_small by (unfold is_u64, two64; lia).
    replace (num x - 1) with (num p) by lia. rewrite <- Hl. apply wp_gbind.
    eapply wp_mono; [apply (hc_GetHeader_run c db); [done..|by apply hu_u64, Hp|by apply hu_is_hash, Hp]|].
    intros [q|] c1 (Hsame & Hch1 & Hq); [|by destruct (Hq p Hp)]. destruct Hq as [Hq Hqp].
    assert (q = p) as -> by by apply (stored_inj db). pose proof (same_db c c1 Hsame) as Hdb1.
    eapply wp_mono; [apply IH; [congruence|done..|lia|]|].
    + intros m Hm. rewrite canon_Write by (done || (unfold is_u64, two64; lia)). rewrite (proj2 (Z.eqb_neq _ _)) by lia. apply Hb. lia.
    + intros r c2 (Hsame2 & Hch2 & b & -> & Ht & Hanc & Habove). split; [by eapply same_trans|]. split; [done|].
      exists b. split; [done|]. split_and!.
      * eapply same_tree_trans; [by apply tree_Write|done].
      * intros y Hy. destruct Hy as [x|x p' y Hp' Hl' Hy].
        -- rewrite Habove by (done || lia). rewrite canon_Write by done. by rewrite Z.eqb_refl.
        -- assert (p' = p) as -> by (apply (stored_inj db); [done..|congruence]). by apply Hanc.
      * intros m Hm Hlt. rewrite Habove by (done || lia). rewrite canon_Write by done. by rewrite (proj2 (Z.eqb_neq _ _)) by lia.
Qed.
Definition all_stored db (l : list Header) : Prop := forall x, x ∈ l -> stored db x.

Lemma all_stored_cons db x l : all_stored db (x :: l) -> stored db x /\ all_stored db l.
Proof. unfold all_stored. intros H. split; [|intros y Hy]; apply H, elem_of_cons; auto. Qed.

Lemma linked_numbers x l : linked (x :: l) -> (forall y, y ∈ x :: l -> in_universe y) -> forall y, y ∈ l -> num x < num y.
Proof.
  revert x. induction l as [|z l IH]; intros x Hl Hu y Hy; [by apply elem_of_nil in Hy|]. destruct Hl as [Hz Hl].
  assert (num z = num x + 1) as Hzn by (apply hu_link; [apply Hu..|done]; set_solver).
  apply elem_of_cons in Hy as [->|Hy]; [lia|]. specialize (IH z Hl ltac:(set_solver) y Hy). lia.
Qed.

Lemma last_in (x d : Header) l : List.last (x :: l) d ∈ x :: l.
Proof. revert x. induction l as [|y l IH]; intros x; [set_solver|]. specialize (IH y). set_solver. Qed.

(** The ancestors of the last header are among the headers, or those of the first. *)
Lemma linked_anc db x d l y : linked (x :: l) -> all_stored db (x :: l) -> anc db (List.last (x :: l) d) y ->
  y ∈ x :: l \/ anc db x y.
Proof.
  revert x. induction l as [|z l IH]; intros x Hl Ha Hy; [by right|]. destruct Hl as [Hz Hl].
  apply all_stored_cons in Ha as [Hx Ha]. change (List.last (x :: z :: l) d) with (List.last (z :: l) d) in Hy.
  destruct (IH z Hl Ha Hy) as [?|Hzy]; [left; set_solver|]. destruct Hzy as [z|z q y Hq Hlq Hqy]; [left; set_solver|].
  right. assert (q = x) as ->; [|done]. apply (stored_inj db); [done..|congruence].
Qed.

Lemma reorg_extend_run db x d l batch : linked (x :: l) -> all_stored db (x :: l) ->
  let b := reorg_extend (x :: l) batch in
  same_tree (kv_write batch db) (kv_write b db) /\ ReadHeadHeaderHash (kv_write b db) = hash (List.last (x :: l) d) /\
  (forall y, y ∈ x :: l -> canon (kv_write b db) (num y) = hash y) /\
  (forall m, is_u64 m -> (forall y, y ∈ x :: l -> num y <> m) -> canon (kv_write b db) m = canon (kv_write batch db) m).
Proof.
  revert x batch. induction l as [|z l IH]; intros x batch Hl Ha b; pose proof (proj1 (all_stored_cons db _ _ Ha)) as Hx;
    pose proof (hu_u64 x (proj1 Hx)) as Hu; pose proof (hu_is_hash x (proj1 Hx)) as Hh; subst b; cbn [reorg_extend];
    rewrite (hu_Uint64 x (proj1 Hx)).
  - split_and!.
    + eapply same_tree_trans; [by apply tree_Write|apply tree_Mark].
    + by apply mark_Mark.
    + intros y ->%list_elem_of_singleton. rewrite canon_Mark, canon_Write by done. by rewrite Z.eqb_refl.
    + intros m Hm Hne. rewrite canon_Mark, canon_Write by done. rewrite (proj2 (Z.eqb_neq _ _)); [done|].
      specialize (Hne x). set_solver.
  - pose proof (linked_numbers x (z :: l) Hl (fun y Hy => proj1 (Ha y Hy))) as Hnums. destruct Hl as [-> Hl].
    destruct (IH z (WriteHeadHeaderHash (hash x) (WriteCanonicalHash (hash x) (num x) batch)) Hl
      (proj2 (all_stored_cons db _ _ Ha))) as (Ht & Hm & Hin & Hout). cbn [reorg_extend] in Ht, Hm, Hin, Hout. split_and!.
    + eapply same_tree_trans; [by apply tree_Write|]. eapply same_tree_trans; [apply tree_Mark|exact Ht].
    + exact Hm.
    + intros y Hy. apply elem_of_cons in Hy as [->|Hy]; [|by apply Hin]. rewrite Hout; [|done|].
      * rewrite canon_Mark, canon_Write by done. by rewrite Z.eqb_refl.
      * intros y Hy. specialize (Hnums y Hy). lia.
    + intros m Hmu Hne. rewrite Hout; [|done|set_solver]. rewrite canon_Mark, canon_Write by done.
      rewrite (proj2 (Z.eqb_neq _ _)); [done|]. specialize (Hne x). set_solver.
Qed.
Lemma last_max x d l y : linked (x :: l) -> (forall z, z ∈ x :: l -> in_universe z) -> y ∈ x :: l ->
  num x <= num y <= num (List.last (x :: l) d).
Proof.
  revert x. induction l as [|z l IH]; intros x Hl Hu Hy; [apply list_elem_of_singleton in Hy as ->; cbn; lia|].
  pose proof (linked_numbers x (z :: l) Hl Hu) as Hn. pose proof (Hn _ (last_in z d l)).
  change (List.last (x :: z :: l) d) with (List.last (z :: l) d). apply elem_of_cons in Hy as [->|Hy]; [lia|].
  destruct Hl as [_ Hl]. specialize (Hn y Hy). specialize (IH z Hl ltac:(set_solver) Hy). lia.
Qed.

Lemma canon_ok_extend db x d l b : linked (x :: l) -> all_stored db (x :: l) ->
  same_tree db (kv_write b db) ->
  (forall y, anc db x y -> y <> x -> canon (kv_write b db) (num y) = hash y) ->
  (forall m, num (List.last (x :: l) d) < m < two64 -> canon (kv_write b db) m = 0) ->
  let db' := kv_write (reorg_extend (x :: l) b) db in
  same_tree db db' /\ ReadHeadHeaderHash db' = hash (List.last (x :: l) d) /\ canon_ok db' (List.last (x :: l) d).
Proof.
  intros Hl Ha Hb Hanc Habove db'. pose proof (fun y Hy => proj1 (Ha y Hy)) as Hu.
  pose proof (fun y => last_max x d l y Hl Hu) as Hmax. set (z := List.last (x :: l) d) in *.
  pose proof (proj1 (all_stored_cons db _ _ Ha)) as Hx.
  destruct (reorg_extend_run db x d l b Hl Ha) as (Ht & Hm & Hin & Hout).
  assert (same_tree db db') as Htt by (by eapply same_tree_trans). split_and!; [done|done|]. constructor.
  - eapply stored_same; [done|]. by apply Ha, last_in.
  - intros y Hy. apply (anc_same db' db) in Hy; [|by apply same_tree_sym].
    destruct (linked_anc db x d l y Hl Ha Hy) as [?|Hxy]; [by apply Hin|].
    destruct (Z.eq_dec (num y) (num x)) as [Hn|Hn]; [rewrite (anc_same_number db x y Hx Hxy Hn); apply Hin; set_solver|].
    assert (y <> x) as Hne by congruence.
    pose proof (hu_u64 y (proj1 (anc_stored db x y Hx Hxy))). rewrite <- (Hanc y Hxy Hne). apply Hout; [done|].
    intros w Hw Heq. specialize (Hmax w Hw). pose proof (anc_number db x y Hx Hxy). lia.
  - intros m Hm'. pose proof (Hmax z (last_in x d l)). pose proof (hu_number x (proj1 Hx)). rewrite <- (Habove m Hm').
    apply Hout; [unfold is_u64; lia|]. intros w Hw <-. specialize (Hmax w Hw). lia.
Qed.

Lemma hc_ok_same c c' : hc_ok c -> same c c' -> caches_ok (hc_chainDb c) c' -> hc_ok c'.
Proof. intros [] (?&Hdb&?&Hcur&?&?) Hc. constructor; rewrite ?Hdb, ?Hcur in *; done || congruence. Qed.

Lemma Reorg_run c x l : let z := List.last (x :: l) x in
  hc_ok c -> linked (x :: l) -> all_stored (hc_chainDb c) (x :: l) ->
  wp no_panic (Reorg (x :: l)) (fun r c' => hc_ok c' /\ hc_config c' = hc_config c /\
    same_tree (hc_chainDb c) (hc_chainDb c') /\
    match r with
    | inl _ => hc_currentHeader c' = z
    | inr e => e = HcDisk /\ same c c'
    end) c.
Proof.
  intros z Hok Hl Ha. pose proof Hok as [Hs Hch Hc Hhash Hgen Hmark]. pose proof (proj1 (all_stored_cons _ _ _ Ha)) as Hx.
  set (cur := hc_currentHeader c) in *. set (db := hc_chainDb c) in *. pose proof (fun y Hy => proj1 (Ha y Hy)) as Hu.
  pose proof (last_max x x l z Hl Hu (last_in x x l)) as Hxz. fold z in Hxz.
  pose proof (hu_number x (Hu x ltac:(set_solver))) as Hxn. pose proof (hu_number z (Hu z (last_in x x l))) as Hzn.
  pose proof (hu_number cur (proj1 (cn_stored db cur Hc))) as Hcn.
  unfold Reorg. fold z. apply wp_gbind, wp_gget, wp_gbind.
  apply wp_mono with (P := fun r c' => same c c' /\ caches_ok db c' /\ exists b, r = inl b /\ same_tree db (kv_write b db) /\
    (forall y, anc db x y -> y <> x -> canon (kv_write b db) (num y) = hash y) /\
    (forall m, num z < m < two64 -> canon (kv_write b db) m = 0)).
  - destruct (Z.eqb_spec (hdr_ParentHash x) (hc_currentHeaderHash c)) as [Heq|Hne]; cbn [negb].
    + apply wp_gret. split; [apply same_refl|]. split; [done|]. exists []. cbn [kv_write foldl]. rewrite Hhash in Heq.
      assert (num x = num cur + 1) as Hxc by (apply hu_link; [apply Hx|apply Hc|done]).
      split_and!; [done|done| |intros m Hm; apply (cn_above db cur Hc); lia].
      intros y Hy Hne. apply (cn_anc db cur Hc). destruct Hy as [x|x p y Hp Hlp Hy]; [done|].
      assert (p = cur) as ->; [|done]. apply (stored_inj db); [done|apply Hc|congruence].
    + rewrite (hu_Uint64 z (Hu z (last_in x x l))), (hu_Uint64 x (proj1 Hx)), u64_small by (unfold is_u64, two64; lia).
      apply wp_gbind, wp_gget, wp_gbind. pose proof (canon_count db cur Hs Hc). eapply wp_mono;
        [apply (reorg_delete_run c db cur); [done..|lia|unfold hc_fuel; fold db; lia]|].
      intros b c1 (-> & Ht & Hcan). eapply wp_mono; [apply (reorg_link_run c db cur); [done..|lia|]|].
      * intros m Hm. rewrite Hcan by (unfold is_u64, two64; lia). by rewrite (proj2 (Z.leb_gt _ _)) by lia.
      * intros r c2 (Hsame & Hch2 & b2 & -> & Ht2 & Hanc & Habove). split; [done|]. split; [done|]. exists b2.
        split_and!; [done|by eapply same_tree_trans|by intros y Hy _; apply Hanc|]. intros m Hm.
        rewrite Habove, Hcan by (unfold is_u64; lia). destruct (Z.leb_spec (num z + 1) m), (Z.leb_spec m (num cur)); cbn [andb]; try done;
          try lia. apply (cn_above db cur Hc). lia.
  - intros r c1 (Hsame & Hch1 & b & -> & Hb & Hanc & Habove). pose proof Hsame as (Hcfg & Hdb1 & Hg1 & Hcur1 & Hh1 & Hi1).
    destruct (canon_ok_extend db x x l b Hl Ha Hb Hanc Habove) as (Ht & Hm & Hcz). fold z in Hm, Hcz. fold db in Hdb1.
    apply wp_gbind. unfold hc_Write. apply wp_gbind, wp_gget. rewrite Hdb1.
    destruct (kv_accepts db (reorg_extend (x :: l) b)).
    + apply wp_gbind, wp_gput, wp_gret, wp_gbind, wp_gput, wp_gret. cbn [hc_set_current hc_set_db hc_chainDb hc_interrupts
        hc_currentHeader hc_config]. split_and!; [|done..]. constructor; cbn [hc_set_current hc_set_db hc_chainDb hc_genesisHeader
        hc_currentHeader hc_currentHeaderHash]; [by eapply store_ok_same| |done|done|congruence|done].
      destruct (caches_ok_same db _ c1 Ht Hch1) as []. by constructor.
    + apply wp_gret, wp_gret. split; [by apply (hc_ok_same c)|]. split_and!; [done| |done|done]. by rewrite Hdb1.
Qed.

(** ** Adding headers to the tree *)

(** What was stored stays, and the rest of the store too. *)
Record grows db db' : Prop := {
  gr_stored x : stored db x -> stored db' x;
  gr_td x td : in_universe x -> td_of db x td -> td_of db' x td;
  gr_rest k : item_wf k -> tree_key k = false -> db' !! key_of k = db !! key_of k
}.

Lemma store_grows_refl db : grows db db.
Proof. by constructor. Qed.

Lemma store_grows_trans db db' db'' : grows db db' -> grows db' db'' -> grows db db''.
Proof.
  intros [H1 H2 H3] [H1' H2' H3']. constructor; [auto|eauto|]. intros k Hk Ht. rewrite H3', H3 by done. done.
Qed.

Lemma same_tree_grows db db' : same_tree db db' -> (forall x, stored db x -> stored db' x) /\
  (forall x td, in_universe x -> td_of db x td -> td_of db' x td).
Proof. intros H. split; intros; [by eapply stored_same|by eapply td_of_same]. Qed.

Lemma caches_ok_grows db db' c : grows db db' -> caches_ok db c -> caches_ok db' c.
Proof.
  intros [Hg1 Hg2 _] [[Hl1 H1] [Hl2 H2] [Hl3 H3]]. constructor; (split; [done|]).
  - intros k x Hx. destruct (H1 k x Hx). auto.
  - intros k td Hx. destruct (H2 k td Hx) as (x & Hs & ? & Ht). exists x. split_and!; [auto|done|]. apply Hg2; [apply Hs|done].
  - intros k n Hx. destruct (H3 k n Hx) as (x & Hs & ? & ?). exists x. auto.
Qed.

(** Nothing is put between a header and its ancestors. *)
Lemma anc_grows db db' h x : store_ok db -> grows db db' -> stored db h -> anc db' h x -> anc db h x.
Proof.
  intros Hs Hg Hh Hx. revert Hh. induction Hx as [h|h p x Hp Hl Hx IH]; intros Hh; [constructor|].
  assert (stored db p) as Hp'; [|eapply anc_step; [done..|by apply IH]].
  pose proof (hu_link h p (proj1 Hh) (proj1 Hp) Hl) as Hn. pose proof (hu_number p (proj1 Hp)).
  destruct (so_link db Hs h Hh) as [->|(q & tq & Hq & Hlq & _)]; [destruct hu_genesis; lia|].
  assert (p = q) as ->; [|done]. apply hu_inj; [apply Hp|apply Hq|congruence].
Qed.

Lemma canon_ok_grows db db' cur : store_ok db -> grows db db' -> canon_ok db cur -> canon_ok db' cur.
Proof.
  intros Hs Hg [Hc Ha Hb]. assert (forall n, is_u64 n -> canon db' n = canon db n) as Heq.
  { intros n Hn. rewrite !canon_get. by rewrite (gr_rest db db' Hg) by done. }
  pose proof (hu_number cur (proj1 Hc)) as Hcn. constructor.
  - by apply (gr_stored db db' Hg).
  - intros x Hx. apply (anc_grows db db') in Hx; [|done..]. pose proof (hu_u64 x (proj1 (anc_stored db cur x Hc Hx))).
    rewrite Heq by done. by apply Ha.
  - intros n Hn. rewrite Heq by (unfold is_u64; lia). by apply Hb.
Qed.

Definition add_header db x td : kvstore :=
  <[key_of (IKHeader (num x) (hash x)) := header_data x]> (<[key_of (IKNumber (hash x)) := encodeBlockNumber (num x)]>
    (<[key_of (IKTD (num x) (hash x)) := writeBigInt td]> db)).

Lemma add_header_lookup db x td k : in_universe x -> item_wf k ->
  add_header db x td !! key_of k =
    if decide (k = IKHeader (num x) (hash x)) then Some (header_data x)
    else if decide (k = IKNumber (hash x)) then Some (encodeBlockNumber (num x))
    else if decide (k = IKTD (num x) (hash x)) then Some (writeBigInt td) else db !! key_of k.
Proof.
  intros Hx Hk. pose proof (hu_u64 x Hx). pose proof (hu_is_hash x Hx). unfold add_header.
  rewrite !kv_put_lookup by (done || by split). repeat case_decide; try congruence.
Qed.

Section add.
Context (db : kvstore) (x p : Header) (t : Z).
Hypothesis Hs : store_ok db.
Hypothesis Hx : in_universe x.
Hypothesis Hp : stored db p.
Hypothesis Hl : hash p = hdr_ParentHash x.
Hypothesis Ht : td_of db p t.
Let td := t + hdr_Difficulty x.

(** A header that is stored already has this total difficulty. *)
Lemma td_known s : stored db x -> td_of db x s -> s = td.
Proof.
  intros Hsx Hts. pose proof (hu_link x p Hx (proj1 Hp) Hl). pose proof (hu_number p (proj1 Hp)).
  destruct (so_link db Hs x Hsx) as [->|(q & tq & Hq & Hlq & Htq & Htx)]; [destruct hu_genesis; lia|].
  assert (q = p) as -> by (apply (stored_inj db); [done..|congruence]).
  rewrite (td_of_inj db p tq t (proj1 Hp) Htq Ht) in Htx. by apply (td_of_inj db x).
Qed.

Lemma td_bound : 0 <= td <= (num x + 1) * 2 ^ 256.
Proof.
  destruct (hu_wf x Hx) as []. pose proof (hu_link x p Hx (proj1 Hp) Hl). destruct Ht as [_ Hb]. unfold td. lia.
Qed.

Lemma add_grows : grows db (add_header db x td).
Proof.
  constructor.
  - intros y [Hy Hsy]. split; [done|]. rewrite add_header_lookup; [|done|by split; [apply hu_u64|apply hu_is_hash]].
    repeat case_decide; try congruence. match goal with H : IKHeader _ _ = _ |- _ => injection H as _ Heq end.
    by rewrite (hu_inj y x Hy Hx Heq).
  - intros y s Hy Hts. pose proof Hts as [Hty Hb]. split; [|done].
    rewrite add_header_lookup; [|done|by split; [apply hu_u64|apply hu_is_hash]]. repeat case_decide; try congruence.
    match goal with H : IKTD _ _ = _ |- _ => injection H as _ Heq end. pose proof (hu_inj y x Hy Hx Heq) as ->.
    destruct (so_td db Hs _ _ _ (hu_u64 x Hx) (hu_is_hash x Hx) Hty) as (z & s' & Hz & _ & Hzh & _).
    pose proof (hu_inj z x (proj1 Hz) Hx Hzh) as ->. by rewrite (td_known s Hz Hts).
  - intros k Hk Hf. rewrite add_header_lookup by done. repeat case_decide; try done; subst; discriminate Hf.
Qed.

Lemma add_stored : stored (add_header db x td) x /\ td_of (add_header db x td) x td.
Proof.
  pose proof (hu_u64 x Hx). pose proof (hu_is_hash x Hx). pose proof td_bound. split; split; try done;
    rewrite add_header_lookup by (done || by split); repeat case_decide; congruence.
Qed.

Lemma add_inv y : stored (add_header db x td) y -> y = x \/ stored db y.
Proof.
  intros [Hy Hsy]. rewrite add_header_lookup in Hsy; [|done|by split; [apply hu_u64|apply hu_is_hash]].
  repeat case_decide; try congruence; [|by right]. left.
  match goal with H : IKHeader _ _ = _ |- _ => injection H as _ Heq end. by apply hu_inj.
Qed.

Lemma add_store_ok : store_ok (add_header db x td).
Proof.
  destruct add_grows as [Hg1 Hg2 _]. destruct add_stored as [Hsx Htx]. pose proof Hs as [H1 H2 H3 H4 H5 H6]. constructor.
  - intros n k data Hn Hk Hd. rewrite add_header_lookup in Hd by (done || by split). repeat case_decide; try congruence.
    + match goal with H : IKHeader _ _ = _ |- _ => injection H as -> -> end. by exists x.
    + destruct (H1 n k data Hn Hk Hd) as (y & Hy & ?). exists y. auto.
  - intros n k data Hn Hk Hd. rewrite add_header_lookup in Hd by (done || by split). repeat case_decide; try congruence.
    + match goal with H : IKTD _ _ = _ |- _ => injection H as -> -> end. by exists x, td.
    + destruct (H2 n k data Hn Hk Hd) as (y & s & Hy & ? & ? & Hts). exists y, s. split_and!; [auto|done..|]. apply Hg2; [apply Hy|done].
  - intros k data Hk Hd. rewrite add_header_lookup in Hd by done. repeat case_decide; try congruence.
    + match goal with H : IKNumber _ = _ |- _ => injection H as -> end. exists x. split_and!; [done..|congruence].
    + destruct (H3 k data Hk Hd) as (y & Hy & ?). exists y. auto.
  - destruct H4 as [Hg [s Hts]]. split; [auto|]. exists s. apply Hg2; [apply Hg|done].
  - intros y Hy. destruct (add_inv y Hy) as [->|Hy'].
    + right. exists p, t. split_and!; [auto|done| |done]. apply Hg2; [apply Hp|done].
    + destruct (H5 y Hy') as [?|(q & tq & Hq & Hlq & Htq & Hty)]; [by left|]. right. exists q, tq.
      split_and!; [auto|done|apply Hg2; [apply Hq|done]|apply Hg2; [apply Hy'|done]].
  - intros y Hy. rewrite add_header_lookup; [|done|by apply hu_is_hash, Hy]. repeat case_decide; try congruence.
    + match goal with H : IKNumber _ = _ |- _ => injection H as Heq end. by rewrite (hu_inj y x (proj1 Hy) Hx Heq).
    + destruct (add_inv y Hy) as [->|Hy']; [congruence|auto].
Qed.
End add.
(** ** The loop of WriteHeaders *)

Lemma write_batch batch db x td : in_universe x -> 0 <= td ->
  exists b b', WriteTd (hash x) (num x) td batch = Ret b /\ WriteHeader x b = Ret b' /\
    kv_write b' db = add_header (kv_write batch db) x td.
Proof.
  intros Hx Ht. unfold WriteTd. rewrite (proj2 (Z.ltb_ge _ _)) by lia. eexists _, _. split; [done|].
  unfold WriteHeader. rewrite header_data_eq, hu_Uint64 by done. split; [done|]. unfold WriteHeaderNumber. by rewrite !kv_write_snoc.
Qed.

Lemma HasHeader_run c db db0 x : hc_chainDb c = db0 -> store_ok db0 -> grows db0 db -> caches_ok db c -> in_universe x ->
  wp no_panic (hc_HasHeader (hash x) (num x)) (fun r c' => c' = c /\ (r = true -> stored db x)) c.
Proof.
  intros Hdb Hs0 Hg [[_ H1] [_ H2] [_ H3]] Hx. unfold hc_HasHeader. apply wp_gbind, wp_gget. cbn [id].
  assert (forall y, stored db y -> hash y = hash x -> stored db x) as Hsame
    by (intros y Hy Heq; by rewrite <- (hu_inj y x (proj1 Hy) Hx Heq)).
  unfold lru_Contains. destruct (lru_items (hc_numberCache c) !! hash x) as [n|] eqn:En.
  { apply wp_gret. split; [done|]. intros _. destruct (H3 _ _ En) as (y & Hy & Heq & _). by apply (Hsame y). }
  destruct (lru_items (hc_headerCache c) !! hash x) as [y|] eqn:Ey.
  { apply wp_gret. split; [done|]. intros _. destruct (H1 _ _ Ey) as [Hy Heq]. by apply (Hsame y). }
  rewrite !bool_decide_eq_false_2 by (by intros [? ?]). cbn [orb]. apply wp_gret. split; [done|].
  unfold HasHeader, isCanon. rewrite no_freezer, Hdb. intros [data Hd]%bool_decide_eq_true.
  destruct (so_header db0 Hs0 _ _ _ (hu_u64 x Hx) (hu_is_hash x Hx) Hd) as (y & Hy & _ & Heq).
  apply (Hsame y); [by apply (gr_stored db0 db Hg)|done].
Qed.

Lemma add_cached {V} db (get : HeaderChain -> BasicLRU Hash V) (put : BasicLRU Hash V -> HeaderChain -> HeaderChain)
    (P : Hash -> V -> Prop) k v c :
  (lru_ok (get c) /\ forall k' v', lru_items (get c) !! k' = Some v' -> P k' v') -> P k v ->
  (forall l, (lru_ok l /\ forall k' v', lru_items l !! k' = Some v' -> P k' v') ->
    same c (put l c) /\ (caches_ok db c -> caches_ok db (put l c))) ->
  caches_ok db c ->
  wp no_panic (gzoom get put (lru_Add k v)) (fun _ c' => same c c' /\ caches_ok db c') c.
Proof.
  intros [Hl HP] Hkv Hput Hc. eapply wp_mono; [by apply zoom_Add|]. intros _ c' (l & Hok & Hi & ->).
  destruct (Hput l) as [Hs Hcl]; [|by split; [|apply Hcl]]. split; [done|]. intros k' v' H.
  by destruct (subset_insert _ _ _ _ _ _ Hi H) as [[-> ->]|?]; [|apply HP].
Qed.

Definition write_post db x td (c c' : HeaderChain) (db' : kvstore) : Prop :=
  same c c' /\ store_ok db' /\ grows db db' /\ caches_ok db' c' /\ stored db' x /\ td_of db' x td.

Lemma write_header_run c db0 batch x p t next known : let db := kv_write batch db0 in
  hc_chainDb c = db0 -> store_ok db0 -> grows db0 db -> store_ok db -> caches_ok db c -> in_universe x ->
  stored db p -> hash p = hdr_ParentHash x -> td_of db p t ->
  match next with Some n => hdr_ParentHash n | None => hash x end = hash x ->
  wp no_panic (write_header x next known t batch) (fun r c' => exists k b, r = (t + hdr_Difficulty x, k, b) /\
    write_post db x (t + hdr_Difficulty x) c c' (kv_write b db0)) c.
Proof.
  intros db Hdb Hs0 Hg0 Hs Hc Hx Hp Hl Ht Hh. unfold write_header. rewrite Hh, (hu_Uint64 x Hx).
  set (td := t + hdr_Difficulty x). apply wp_gbind.
  apply wp_mono with (P := fun r c' => c' = c /\ (r = true -> stored db x)).
  { destruct known; [by eapply HasHeader_run|]. apply wp_gret. done. }
  intros [|] c1 [-> Hk].
  - apply wp_gret. exists true, batch. split; [done|]. fold db. specialize (Hk eq_refl).
    unfold write_post. split_and!; try done.
    destruct (so_link db Hs x Hk) as [->|(q & tq & Hq & Hlq & Htq & Htx)].
    + destruct hu_genesis as [Hgu Hg]. pose proof (hu_link genesis p Hx (proj1 Hp) Hl). pose proof (hu_number p (proj1 Hp)). lia.
    + by rewrite (td_known db x p t Hs Hx Hp Hl Ht _ Hk Htx : _ = td) in Htx.
  - clear Hk. pose proof (td_bound db x p t Hx Hp Hl Ht) as Hb. fold td in Hb.
    destruct (write_batch batch db0 x td Hx ltac:(lia)) as (b & b' & Hw1 & Hw2 & Hdb'). fold db in Hdb'.
    pose proof (add_grows db x p t Hs Hx Hp Hl Ht) as Hg. pose proof (add_stored db x p t Hx Hp Hl Ht) as [Hsx Htx].
    pose proof (add_store_ok db x p t Hs Hx Hp Hl Ht) as Hs'. fold td in Hg, Hsx, Htx, Hs'. rewrite <- Hdb' in *.
    set (db' := kv_write b' db0) in *. pose proof (caches_ok_grows db db' c Hg Hc) as Hc1.
    apply wp_gbind, (wp_gpure _ b); [done|]. apply wp_gbind.
    eapply wp_mono; [apply (add_cached db' _ _ (fun k td => exists y, stored db' y /\ hash y = k /\ td_of db' y td));
      [apply Hc1|by exists x|intros l Hlru; split; [done|intros; by apply put_tds]|done]|].
    intros _ c2 [Hsm2 Hc2]. apply wp_gbind, (wp_gpure _ b'); [done|]. apply wp_gbind.
    eapply wp_mono; [apply (add_cached db' _ _ (fun k y => stored db' y /\ hash y = k));
      [apply Hc2|done|intros l Hlru; split; [done|intros; by apply put_headers]|done]|].
    intros _ c3 [Hsm3 Hc3]. apply wp_gbind.
    eapply wp_mono; [apply (add_cached db' _ _ (fun k n => exists y, stored db' y /\ hash y = k /\ num y = n));
      [apply Hc3|by exists x|intros l Hlru; split; [done|intros; by apply put_numbers]|done]|].
    intros _ c4 [Hsm4 Hc4]. apply wp_gret. exists false, b'. split; [done|]. unfold write_post. split_and!; try done.
    eapply same_trans; [done|]. by eapply same_trans.
Qed.

Definition wrote db (l : list Header) (c c' : HeaderChain) (db' : kvstore) : Prop :=
  same c c' /\ store_ok db' /\ grows db db' /\ caches_ok db' c' /\ all_stored db' l.

Lemma write_headers_run db0 x l : linked (x :: l) -> (forall y, y ∈ x :: l -> in_universe y) -> store_ok db0 ->
  forall c batch p t known n, let db := kv_write batch db0 in
  hc_chainDb c = db0 -> grows db0 db -> store_ok db -> caches_ok db c -> stored db p -> hash p = hdr_ParentHash x -> td_of db p t ->
  wp no_panic (write_headers (x :: l) known t n batch) (fun r c' => wrote db (x :: l) c c' (kv_write (snd r) db0)) c.
Proof.
  intros Hl Hu Hs0. revert x Hl Hu. induction l as [|y l IH]; intros x Hl Hu c batch p t known n db Hdb Hg0 Hs Hc Hp Hlp Ht;
    pose proof (Hu x ltac:(set_solver)) as Hx; cbn [write_headers]; apply wp_gbind;
    (eapply wp_mono; [apply (write_header_run c db0 batch x p t); [done..|]|]).
  - done.
  - intros [[td k] b] c1 (k' & b' & [= -> <- <-] & Hsm & Hs1 & Hg1 & Hc1 & Hsx & _). apply wp_gret. cbn [snd].
    unfold wrote. split_and!; try done. by intros ? ->%list_elem_of_singleton.
  - apply Hl.
  - intros [[td k] b] c1 (k' & b' & [= -> <- <-] & Hsm & Hs1 & Hg1 & Hc1 & Hsx & Htx). destruct Hl as [Hly Hl].
    pose proof (same_db c c1 Hsm) as Hdb1.
    eapply wp_mono; [apply (IH y Hl ltac:(set_solver) c1 b x); try done; [congruence|by eapply store_grows_trans]|].
    intros r c2 (Hsm2 & Hs2 & Hg2 & Hc2 & Ha2). unfold wrote. split_and!; try done; [by eapply same_trans|by eapply store_grows_trans|].
    intros w [->|Hw]%elem_of_cons; [by apply (gr_stored _ _ Hg2)|by apply Ha2].
Qed.

Lemma td_exists db x : store_ok db -> stored db x -> exists td, td_of db x td.
Proof.
  intros Hs Hx. destruct (so_link db Hs x Hx) as [->|(p & t & _ & _ & _ & H)]; [by apply (so_genesis db Hs)|by eexists].
Qed.

Definition crit (p : panic) : Prop := p = PanicCrit.

Lemma wp_crit {A} (m : HC A) Q c : wp no_panic m Q c -> wp crit m Q c.
Proof. unfold wp. by destruct (m c) as [[a s']| |]. Qed.

Lemma hc_Write_run b c db' : kv_write b (hc_chainDb c) = db' ->
  wp crit (hc_WriteCrit b) (fun _ c' => c' = hc_set_db db' c) c.
Proof.
  intros <-. unfold hc_WriteCrit, hc_Write. apply wp_gbind, wp_gbind, wp_gget. destruct (kv_accepts (hc_chainDb c) b).
  - by apply wp_gbind, wp_gput, wp_gret, wp_gret.
  - by apply wp_gret, wp_gpanic.
Qed.

Definition keeps (c c' : HeaderChain) : Prop :=
  hc_config c' = hc_config c /\
  (forall y, stored (hc_chainDb c) y -> stored (hc_chainDb c') y) /\
  (forall y td, in_universe y -> td_of (hc_chainDb c) y td -> td_of (hc_chainDb c') y td).

Lemma keeps_trans c c' c'' : keeps c c' -> keeps c' c'' -> keeps c c''.
Proof. intros (?&?&?) (?&?&?). split_and!; [congruence|auto|eauto]. Qed.

Lemma keeps_same c c' : same c c' -> keeps c c'.
Proof. intros (?&Hdb&?&?&?&?). unfold keeps. rewrite Hdb. auto. Qed.

(** An import that was interrupted: the database and the head are as before. *)
Definition aborted (c c' : HeaderChain) : Prop :=
  hc_chainDb c' = hc_chainDb c /\ hc_currentHeader c' = hc_currentHeader c /\ hc_currentHeaderHash c' = hc_currentHeaderHash c.

Lemma same_aborted c c' : same c c' -> aborted c c'.
Proof. by intros (_&?&_&?&?&_). Qed.

Lemma interrupts_eq c : hc_set_interrupts (hc_interrupts c) c = c.
Proof. by destruct c. Qed.

Lemma hc_procInterrupt_run c : wp no_panic hc_procInterrupt (fun _ c' => exists l, c' = hc_set_interrupts l c) c.
Proof.
  unfold hc_procInterrupt. apply wp_gbind, wp_gget. destruct (hc_interrupts c) as [|b l] eqn:E.
  - apply wp_gret. exists []. by rewrite <- E, interrupts_eq.
  - apply wp_gbind, wp_gput, wp_gret. by exists l.
Qed.

Lemma hc_ok_interrupts c l : hc_ok c -> hc_ok (hc_set_interrupts l c).
Proof. intros [H1 [] H3 H4 H5 H6]. by constructor. Qed.

Lemma hc_ok_written c c' db' l : hc_ok c -> wrote (hc_chainDb c) l c c' db' -> hc_ok (hc_set_db db' c') /\ keeps c (hc_set_db db' c').
Proof.
  intros [Hs Hch Hc Hhash Hgen Hmark] ((Hcfg & _ & Hg & Hcur & Hh & _) & Hs' & Hg' & [] & _). pose proof Hg' as [Hg1 Hg2 Hg3].
  split; [|by split_and!]. constructor; cbn [hc_set_db hc_chainDb hc_currentHeader hc_currentHeaderHash hc_genesisHeader];
    rewrite ?Hcur, ?Hh, ?Hg; [done|by constructor|by apply (canon_ok_grows (hc_chainDb c))|done|done|].
  unfold ReadHeadHeaderHash, read_mark, kv_Get. change headHeaderKey with (key_of (IKMark headHeaderKey)).
  rewrite Hg3; [done|apply mark_wf|done].
Qed.

Definition written_outcome (c : HeaderChain) x (l : list Header) (r : Z + hc_error) (c' : HeaderChain) : Prop :=
  (r = inr HcAborted /\ aborted c c') \/
  (hc_ok c' /\ keeps c c' /\ hc_currentHeader c' = hc_currentHeader c /\
   match r with
   | inl _ => all_stored (hc_chainDb c') l
   | inr e => e = HcUnknownAncestor /\ forall p, stored (hc_chainDb c) p -> hash p <> hdr_ParentHash x
   end).

Lemma WriteHeaders_run c x l : hc_ok c -> linked (x :: l) -> (forall y, y ∈ x :: l -> in_universe y) ->
  wp crit (WriteHeaders (x :: l)) (written_outcome c x (x :: l)) c.
Proof.
  intros Hok Hl Hu. pose proof (ok_store c Hok) as Hs. pose proof (ok_caches c Hok) as Hch. set (db := hc_chainDb c) in *.
  pose proof (Hu x ltac:(set_solver)) as Hx. unfold WriteHeaders. rewrite (hu_Uint64 x Hx). apply wp_gbind, wp_crit.
  eapply wp_mono; [apply (hc_GetTd_run c db); [done..|apply u64_range|by apply hu_parent_hash]|].
  intros [t|] c1 (Hsm & Hc1 & Ht).
  - destruct Ht as (p & Hp & Hlp & Ht). pose proof (same_db c c1 Hsm) as Hdb1. fold db in Hdb1. apply wp_gbind.
    eapply wp_crit, wp_mono; [apply (write_headers_run db x l Hl Hu Hs c1 [] p t); try done; apply store_grows_refl|].
    intros [n b] c2 (Hsm2 & Hs2 & Hg2 & Hc2 & Ha2). cbn [snd fst] in *. change (kv_write [] db) with db in *.
    pose proof (same_trans _ _ _ Hsm Hsm2) as Hsm'. apply wp_gbind.
    eapply wp_crit, wp_mono; [apply hc_procInterrupt_run|]. intros [|] c3 [bs ->].
    { apply wp_gret. left. split; [done|]. by apply same_aborted in Hsm'. }
    apply wp_gbind. eapply wp_mono; [apply (hc_Write_run b _ (kv_write b db)); cbn [hc_set_interrupts hc_chainDb]; by rewrite (same_db _ _ Hsm')|].
    intros _ c3 ->. apply wp_gret. right. destruct (hc_ok_written c c2 (kv_write b db) (x :: l) Hok) as [Hok' Hk]; [by split_and!|].
    split; [exact (hc_ok_interrupts _ bs Hok')|]. split; [exact Hk|]. split; [|exact Ha2]. by destruct Hsm' as (_&_&_&?&_).
  - apply wp_gret. right. split_and!; [by apply (hc_ok_same c)|by apply keeps_same|by destruct Hsm as (_&_&_&?&_)|done|].
    intros p Hp Hlp. destruct (td_exists db p Hs Hp) as [t Htp]. pose proof (hu_link x p Hx (proj1 Hp) (Hlp)) as Hn.
    pose proof (hu_number p (proj1 Hp)). apply (Ht p t Hp Hlp); [|done]. rewrite u64_small; [lia|].
    pose proof (hu_number x Hx). unfold is_u64, two64. lia.
Qed.

(** ** The fork choice *)

(** A header is preferred to the head when it has reached the terminal total difficulty;
    before that, when it is of another height and heavier, or as heavy and lower. *)
Definition preferred (config : ChainConfig) cur x (tc tx : Z) : Prop :=
  (exists ttd, TerminalTotalDifficulty config = Some ttd /\ ttd <= tx) \/
  (num cur <> num x /\ (tc < tx \/ (tc = tx /\ num x < num cur))).

Lemma ReorgNeeded_run c f cur x : let db := hc_chainDb c in
  store_ok db -> caches_ok db c -> stored db cur -> stored db x ->
  wp no_panic (ReorgNeeded f cur x) (fun r c' => same c c' /\ caches_ok db c' /\
    exists b tc tx, r = inl b /\ td_of db cur tc /\ td_of db x tx /\ (b = true <-> preferred (hc_config c) cur x tc tx)) c.
Proof.
  intros db Hs Hc Hcur Hx. destruct (td_exists db cur Hs Hcur) as [tc Htc]. destruct (td_exists db x Hs Hx) as [tx Htx].
  assert (forall c0 y ty, same c c0 -> caches_ok db c0 -> stored db y -> td_of db y ty ->
    wp no_panic (hc_GetTd (hash y) (num y)) (fun r c' => same c c' /\ caches_ok db c' /\ r = Some ty) c0) as Hget.
  { intros c0 y ty Hsm Hc0 Hy Hty. pose proof (same_db c c0 Hsm) as Hdb0. eapply wp_mono;
      [apply (hc_GetTd_run c0 db); [done..|by apply hu_u64, Hy|by apply hu_is_hash, Hy]|].
    intros [t|] c1 (Hsm1 & Hc1 & Ht); [|by destruct (Ht y ty)]. destruct Ht as (z & Hz & Hzh & Ht).
    rewrite (stored_inj db z y Hz Hy Hzh) in Ht. split_and!; [by eapply same_trans|done|]. f_equal. by apply (td_of_inj db y); [apply Hy|..]. }
  unfold ReorgNeeded. rewrite (hu_Uint64 cur (proj1 Hcur)), (hu_Uint64 x (proj1 Hx)).
  apply wp_gbind. eapply wp_mono; [apply (Hget c cur tc); done|]. intros r c1 (Hsm1 & Hc1 & ->).
  apply wp_gbind. eapply wp_mono; [apply (Hget c1 x tx); done|]. intros r c2 (Hsm2 & Hc2 & ->).
  apply wp_gbind, wp_gget. assert (hc_config c2 = hc_config c) as -> by apply Hsm2. unfold preferred. cbv zeta.
  destruct (match TerminalTotalDifficulty (hc_config c) with Some ttd => ttd <=? tx | None => false end) eqn:Ettd.
  { apply wp_gret. split_and!; [done|done|]. exists true, tc, tx. split_and!; [done..|]. split; [|done]. intros _. left.
    destruct (TerminalTotalDifficulty (hc_config c)) as [ttd|]; [|done]. exists ttd. by zbool. }
  assert (~ exists ttd, TerminalTotalDifficulty (hc_config c) = Some ttd /\ ttd <= tx) as Hno.
  { intros (ttd & Heq & Hle). rewrite Heq in Ettd. zbool. lia. }
  destruct (Z.eqb_spec (num cur) (num x)) as [Heq|Hne].
  { apply wp_gret. split_and!; [done|done|]. exists false, tc, tx. split_and!; [done..|]. split; [done|]. intros [?|[? _]]; done. }
  rewrite !Z.gtb_ltb. destruct (Z.ltb_spec tc tx) as [Hlt|Hge]; [|destruct (Z.ltb_spec tx tc) as [Hgt|Hle]]; apply wp_gret;
    (split_and!; [done|done|]).
  - exists true, tc, tx. split_and!; [done..|]. split; [|done]. intros _. right. split; [done|by left].
  - exists false, tc, tx. split_and!; [done..|]. split; [done|]. intros [?|[_ [?|[? _]]]]; [done|lia|lia].
  - destruct (Z.ltb_spec (num x) (num cur)) as [Hn|Hn].
    + exists true, tc, tx. split_and!; [done..|]. split; [|done]. intros _. right. split; [done|right; lia].
    + rewrite (proj2 (Z.eqb_neq _ _)) by lia. exists false, tc, tx. split_and!; [done..|]. split; [done|].
      intros [?|[_ [?|[_ ?]]]]; [done|lia|lia].
Qed.

(** ** Theorems *)

(** What [InsertHeaderChain] answers, and where the head is afterwards. *)
Definition insert_outcome (c : HeaderChain) x z (l : list Header) (r : WriteStatus + hc_error) (c' : HeaderChain) : Prop :=
  let cur := hc_currentHeader c in
  let db' := hc_chainDb c' in
  match r with
  | inl st =>
      all_stored db' l /\
      exists tc tz, td_of db' cur tc /\ td_of db' z tz /\
        ((st = CanonStatTy /\ hc_currentHeader c' = z /\ preferred (hc_config c) cur z tc tz /\ ~ anc db' cur z) \/
         (st <> CanonStatTy /\ hc_currentHeader c' = cur /\ (~ preferred (hc_config c) cur z tc tz \/ anc db' cur z)))
  | inr e =>
      hc_currentHeader c' = cur /\
      (e = HcDisk \/ (e = HcUnknownAncestor /\ forall p, stored (hc_chainDb c) p -> hash p <> hdr_ParentHash x))
  end.

Lemma writeHeadersAndSetHead_run c f x l :
  hc_ok c -> linked (x :: l) -> (forall y, y ∈ x :: l -> in_universe y) ->
  wp crit (writeHeadersAndSetHead (x :: l) f) (fun r c' =>
    let st := match r with inl res => inl (wr_status res) | inr e => inr e end in
    (r = inr HcAborted /\ aborted c c') \/
    (r <> inr HcAborted /\ hc_ok c' /\ keeps c c' /\ insert_outcome c x (List.last (x :: l) x) (x :: l) st c')) c.
Proof.
  intros Hok Hl Hu. unfold writeHeadersAndSetHead. apply wp_gbind.
  eapply wp_mono; [by apply WriteHeaders_run|]. intros r c1 [[-> Ha]|(Hok1 & Hk1 & Hcur1 & Hr)]; [apply wp_gret; by left|].
  eapply wp_mono; [|intros r' c' H; right; exact H]. destruct r as [n|e].
  2:{ destruct Hr as [-> Hr]. apply wp_gret. split_and!; [done..|]. split; [done|by right]. }
  set (z := List.last (x :: l) x). pose proof (Hr z (last_in x x l)) as Hz. pose proof Hok1 as [Hs1 Hc1 Hcan1 _ _ _].
  rewrite (hu_Uint64 z (proj1 Hz)). apply wp_gbind, wp_gget, wp_gbind. apply wp_crit.
  eapply wp_mono; [apply (ReorgNeeded_run c1); [done|done|apply Hcan1|done]|].
  intros r c2 (Hsm2 & Hc2 & b & tc & tz & -> & Htc & Htz & Hb). rewrite Hcur1 in *. set (cur := hc_currentHeader c) in *.
  pose proof (hc_ok_same c1 c2 Hok1 Hsm2 Hc2) as Hok2. pose proof (same_db c1 c2 Hsm2) as Hdb2.
  pose proof (keeps_trans _ _ _ Hk1 (keeps_same _ _ Hsm2)) as Hk2. destruct Hk1 as (Hcfg1 & _).
  assert (hc_currentHeader c2 = cur) as Hcur2 by (destruct Hsm2 as (_&_&_&->&_); done). rewrite Hcfg1 in Hb.
  assert (canon_ok (hc_chainDb c1) cur) as Hcan2 by exact Hcan1.
  assert (forall st, st <> CanonStatTy -> ~ preferred (hc_config c) cur z tc tz \/ anc (hc_chainDb c1) cur z ->
    insert_outcome c x z (x :: l) (inl st) c2) as Hstay.
  { intros st Hst Hor. unfold insert_outcome. rewrite Hdb2. split; [done|]. exists tc, tz. split_and!; [done|done|]. right. by split_and!. }
  destruct b.
  2: { apply wp_gret. split_and!; [done|done|done|]. apply Hstay; [by destruct (n =? 0)|]. left. intros Hp. by apply Hb in Hp. }
  rewrite (hu_Uint64 cur (proj1 (cn_stored _ _ Hcan2))). apply wp_gbind, wp_gget. fold (canon (hc_chainDb c2) (num z)). rewrite Hdb2.
  destruct ((canon (hc_chainDb c1) (num z) =? hash z) && (num z <=? num cur)) eqn:E.
  { zbool. apply wp_gret. split_and!; [done|done|done|]. apply Hstay; [done|]. right. by apply canon_is_anc. }
  assert (~ anc (hc_chainDb c1) cur z) as Hna.
  { intros Ha. apply andb_false_iff in E as [E|E]; zbool; [by apply E, (cn_anc _ _ Hcan2)|].
    pose proof (anc_number _ _ _ (cn_stored _ _ Hcan2) Ha). lia. }
  apply wp_gbind. eapply wp_crit, wp_mono; [apply (Reorg_run c2); [done|done|by rewrite Hdb2]|].
  intros [u|e] c3 (Hok3 & Hcfg3 & Ht3 & Hr3); apply wp_gret.
  - fold z in Hr3. destruct (same_tree_grows _ _ Ht3) as [Hg1 Hg2]. split_and!; [done|done|by eapply keeps_trans; [exact Hk2|by split_and!]|].
    unfold insert_outcome. rewrite Hdb2 in *. split; [intros y Hy; by apply Hg1, Hr|]. exists tc, tz.
    split_and!; [by apply Hg2; [apply Hcan2|]|by apply Hg2; [apply Hz|]|]. left. split_and!; [done|done|by apply Hb|].
    intros Ha. apply Hna. eapply anc_same; [by apply same_tree_sym|done].
  - destruct Hr3 as [-> Hsm3]. split_and!; [done|done|by eapply keeps_trans, keeps_same|]. split; [|by left].
    destruct Hsm3 as (_&_&_&->&_). done.
Qed.

(** C9: Inserting headers that follow each other keeps the header chain, while nothing has
    been moved to the freezer: every stored header has its parent and its total
    difficulty, the caches agree with the store, and the canonical hashes are those of the
    head and its ancestors.  The last header becomes the head exactly when it is preferred
    and not yet canonical.  An import that is interrupted is the exception: it leaves the
    database and the head as they were, but nothing is said of the caches.  No loop runs
    out, and the only panic is the one for a disk that fails. *)
Theorem InsertHeaderChain_keeps c f x l :
  hc_ok c -> linked (x :: l) -> (forall y, y ∈ x :: l -> in_universe y) ->
  wp crit (InsertHeaderChain (x :: l) f) (fun r c' =>
    (r = inr HcAborted /\ aborted c c') \/
    (r <> inr HcAborted /\ hc_ok c' /\ keeps c c' /\ insert_outcome c x (List.last (x :: l) x) (x :: l) r c')) c.
Proof.
  intros Hok Hl Hu. unfold InsertHeaderChain. apply wp_gbind. eapply wp_crit, wp_mono; [apply hc_procInterrupt_run|].
  intros [|] c0 [bs ->]; [apply wp_gret; by left|]. apply wp_gbind.
  eapply wp_mono; [apply (writeHeadersAndSetHead_run (hc_set_interrupts bs c)); [by apply hc_ok_interrupts|done..]|].
  intros [res|e] c' [[Heq Ha]|(Hne & H1 & H2 & H3)]; apply wp_gret; [done| |left|right].
  - right. by split_and!.
  - split; [congruence|done].
  - split_and!; [congruence|done..].
Qed.
End chain_reorg.
