(* ===== verification/DeriveSha.v ===== *)
(** * The tries of a block (client/core/types/hashing.go with client/trie/stacktrie.go)

    The root of the transactions, receipts or withdrawals of a block, computed by a
    stack trie, is the root of the map from their indices to their encodings. *)

From Stdlib Require Import Strings.Byte Sorted Permutation.
From S2P Require Import Prelude.
From S2P Require Import Common.
From S2P Require Import Rlp.
From S2P Require Import Crypto.
From S2P Require Import StateObject.
From S2P Require Import Encoding.
From S2P Require Import TrieKeys.
From S2P Require Import TrieTree.
From S2P Require Import TrieNode.
From S2P Require Import TrieStore.
From S2P Require Import Trie.
From S2P Require Import TrieHash.
From S2P Require Import TrieMap.
From S2P Require Import StackTrie.
From S2P Require Import StackSpec.
From S2P Require Import Blocks.

(** [trie.NewStackTrie(nil)] as a hasher: nothing is written. *)
#[export] Instance stack_hasher {K : Keccak} : TrieHasher StackTrie := {|
  hasher_Reset := StackTrie_Reset NewStackTrie;
  hasher_Update key value st := let? r := StackTrie_Update false key value st in Ret (fst r);
  hasher_Hash st := let? r := StackTrie_Hash false st in Ret (snd (fst r))
|}.

(** ** Lemmas: keys *)

Lemma before_digits a b : before a b -> before (digits a) (digits b).
Proof.
  revert b. induction a as [|x a IH]; intros [|y b]; try done. rewrite !digits_cons. cbn [before].
  pose proof (byte_val_range x). pose proof (byte_val_range y). intros [Hlt|[-> Hb]]; [|right; split; [done|right; split; [done|by apply IH]]].
  assert (byte_val x / 16 < 16 /\ byte_val y / 16 < 16) as [] by (split; apply Z.div_lt_upper_bound; lia).
  pose proof (Z.div_pos (byte_val x) 16). pose proof (Z.div_pos (byte_val y) 16).
  pose proof (Z.mod_pos_bound (byte_val x) 16). pose proof (Z.mod_pos_bound (byte_val y) 16).
  pose proof (Z.div_mod (byte_val x) 16). pose proof (Z.div_mod (byte_val y) 16).
  rewrite !byte_val_of_Z, !(Z.mod_small _ 256) by lia.
  destruct (Z.lt_trichotomy (byte_val x / 16) (byte_val y / 16)) as [|[He|]]; [by left| |lia]. right. rewrite He. split; [done|]. left. lia.
Qed.

Lemma bytes_lt_before a b : bytes_lt a b -> before a b \/ exists r, b = a ++ r.
Proof.
  revert b. induction a as [|x a IH]; intros b H; [right; by exists b|]. destruct b as [|y b]; [done|].
  destruct H as [H|[-> H]]; [by left; left|]. destruct (IH _ H) as [?|[r ->]]; [left; by right|right; by exists r].
Qed.

Lemma index_prefix_free i j r : is_u64 i -> is_u64 j -> AppendUint64 j = AppendUint64 i ++ r -> r = [].
Proof.
  intros Hi Hj. rewrite !AppendUint64_write, !writeUint64_item by done. intros He.
  destruct (encode_item_prefix (int_item j) (int_item i) [] r) as [_ ?]; [|by rewrite app_nil_r|done].
  rewrite app_nil_r. pose proof (int_item_len j). unfold is_u64, two64 in *. lia.
Qed.

Lemma AppendUint64_inj i j : is_u64 i -> is_u64 j -> AppendUint64 i = AppendUint64 j -> i = j.
Proof.
  intros Hi Hj. rewrite !AppendUint64_write, !writeUint64_item by done. intros He.
  destruct (encode_item_prefix (int_item i) (int_item j) [] []) as [Hij _]; [|by rewrite !app_nil_r|].
  { rewrite app_nil_r. pose proof (int_item_len i). unfold is_u64, two64 in *. lia. }
  unfold is_u64 in *. apply int_bytes_inj; [lia..|]. by apply Str_inj in Hij.
Qed.

Lemma bytes_lt_irrefl a : ~ bytes_lt a a.
Proof. induction a as [|x a IH]; [intros []|]. intros [Hlt|[_ Hlt]]; [lia|done]. Qed.

Lemma derive_keys_u64 values k : zlen values < two64 -> k ∈ map fst (derive_updates values) -> exists i, is_u64 i /\ k = AppendUint64 i.
Proof.
  intros Hl Hk. unfold derive_updates in Hk. rewrite map_map in Hk. apply list_elem_of_In, in_map_iff in Hk as (i & <- & Hi).
  exists (Z.of_nat i). split; [|done]. unfold derive_order in Hi. unfold zlen, is_u64, two64 in *.
  apply in_app_or in Hi as [Hi|Hi]; [apply in_seq in Hi; lia|]. apply in_app_or in Hi as [Hi|Hi]; [|apply in_seq in Hi; lia].
  destruct (0 <? _)%nat; [|done]. destruct Hi as [<-|[]]. lia.
Qed.

Lemma derive_before values : zlen values < two64 ->
  StronglySorted (fun a b => before (digits a) (digits b)) (map fst (derive_updates values)).
Proof.
  intros Hl. destruct (DeriveSha_sorted values Hl) as (Hs & _). pose proof (fun k => derive_keys_u64 values k Hl) as Hu. revert Hs Hu.
  generalize (map fst (derive_updates values)) as l. induction 1 as [|k l Hs IH Hk]; intros Hu; constructor.
  - apply IH. intros k' Hk'. apply Hu. by right.
  - apply List.Forall_forall. intros k' Hin. pose proof (proj1 (List.Forall_forall _ _) Hk k' Hin) as Hlt. apply before_digits.
    destruct (bytes_lt_before _ _ Hlt) as [?|[r Hr]]; [done|]. exfalso.
    destruct (Hu k ltac:(by left)) as (i & Hi & ->), (Hu k' ltac:(right; by apply list_elem_of_In)) as (j & Hj & ->).
    rewrite (index_prefix_free i j r Hi Hj Hr), app_nil_r in Hr. rewrite Hr in Hlt. by apply bytes_lt_irrefl in Hlt.
Qed.

(** ** The map of a list *)

Definition put_all (l : list (list byte * list byte)) (m : contents) : contents :=
  fold_left (fun m '(k, v) => <[k := v]> m) l m.

(** The encodings under the encodings of their indices. *)
Definition index_map (values : list (list byte)) : contents := put_all (derive_updates values) ∅.

Lemma put_all_lookup l : forall m k v, NoDup (map fst l) -> (forall k v, (k, v) ∈ l -> m !! k = None) ->
  put_all l m !! k = Some v <-> (k, v) ∈ l \/ m !! k = Some v.
Proof.
  induction l as [|[k0 v0] l IH]; intros m k v Hnd Hm; cbn [put_all fold_left map fst] in *.
  - split; [by right|]. intros [H|H]; [inversion H|done].
  - apply list.NoDup_cons in Hnd as [Hk0 Hnd]. fold (put_all l (<[k0 := v0]> m)). rewrite IH; [|done|].
    + rewrite elem_of_cons, lookup_insert_Some. split.
      * intros [H|[[-> ->]|[_ H]]]; [left; by right|left; by left|by right].
      * intros [[[= -> ->]|H]|H]; [right; by left|by left|]. right. right. split; [|done]. intros ->.
        rewrite (Hm k v0) in H; [done|by left].
    + intros k' v' Hin. rewrite lookup_insert_ne; [apply (Hm k' v'); by right|]. intros ->. apply Hk0, list_elem_of_In.
      apply (in_map fst l (k', v')). by apply list_elem_of_In.
Qed.

Lemma derive_nodup values : zlen values < two64 -> NoDup (map fst (derive_updates values)).
Proof.
  intros Hl. destruct (DeriveSha_sorted values Hl) as (Hs & _). revert Hs. generalize (map fst (derive_updates values)) as l.
  induction 1 as [|k l Hs IH Hk]; constructor; [|done]. intros Hin. pose proof (proj1 (List.Forall_forall _ _) Hk k (proj1 (list_elem_of_In _ _) Hin)) as H.
  by apply bytes_lt_irrefl in H.
Qed.

Lemma index_map_lookup values k v : zlen values < two64 -> index_map values !! k = Some v <-> (k, v) ∈ derive_updates values.
Proof.
  intros Hl. unfold index_map. rewrite put_all_lookup; [|by apply derive_nodup|intros; apply lookup_empty].
  rewrite lookup_empty. split; [by intros [?|?]|by left].
Qed.

Lemma derive_updates_index values k v : (k, v) ∈ derive_updates values -> exists i, k = AppendUint64 (Z.of_nat i) /\ values !! i = Some v.
Proof.
  intros Hin%list_elem_of_In. unfold derive_updates in Hin. apply in_map_iff in Hin as (i & [= <- <-] & Hi). exists i. split; [done|].
  assert (i < length values)%nat as Hlt; [|destruct (lookup_lt_is_Some_2 _ _ Hlt) as [v Hv]; by rewrite nth_lookup, Hv].
  unfold derive_order in Hi. apply in_app_or in Hi as [Hi|Hi]; [apply in_seq in Hi; lia|]. apply in_app_or in Hi as [Hi|Hi]; [|apply in_seq in Hi; lia].
  destruct (0 <? length values)%nat eqn:E; [|done]. destruct Hi as [<-|[]]. by apply Nat.ltb_lt.
Qed.

(** The list comes back from its map. *)
Lemma index_map_inj a b : zlen a < two64 -> zlen b < two64 -> index_map a = index_map b -> a = b.
Proof.
  assert (forall a b i, zlen a < two64 -> zlen b < two64 -> index_map a = index_map b -> forall v, a !! i = Some v -> b !! i = Some v) as H.
  { clear. intros a b i Ha Hb He v Hv. destruct (DeriveSha_sorted a Ha) as (_ & _ & Hin). apply Hin in Hv as Hk.
    apply index_map_lookup in Hk; [|done]. rewrite He in Hk. apply index_map_lookup in Hk; [|done].
    apply derive_updates_index in Hk as (j & Hij & Hj). pose proof (lookup_lt_Some _ _ _ Hv). pose proof (lookup_lt_Some _ _ _ Hj).
    assert (i = j) as ->; [|done]. unfold zlen, two64 in *. assert (is_u64 (Z.of_nat i) /\ is_u64 (Z.of_nat j)) as [Hui Huj] by (unfold is_u64, two64; lia).
    apply AppendUint64_inj in Hij; [lia|done..]. }
  intros Ha Hb He. apply list_eq. intros i. apply option_eq. intros v. split; by apply H.
Qed.

(** ** Lemmas: the root *)

Section derive.
Context {K : Keccak}.

Lemma update_all_ok l : forall st m, stack_rep st m ->
  StronglySorted (fun a b => before (digits a) (digits b)) (map fst l) ->
  (forall k, k ∈ map fst l -> after_all m k) -> (forall k v, (k, v) ∈ l -> v <> []) ->
  exists st', update_all l st = Ret st' /\ stack_rep st' (put_all l m).
Proof.
  induction l as [|[k v] l IH]; intros st m Hst Hs Ha Hv; cbn [update_all put_all fold_left map fst] in *; [by exists st|].
  inversion Hs as [|? ? Hs' Hk]; subst.
  destruct (StackTrie_Update_ok false st m k v Hst) as (st1 & ws & Hr & Hst1); [apply Ha; by left|by apply (Hv k); left|].
  cbn [hasher_Update stack_hasher]. rewrite Hr. cbn [res_bind fst]. apply IH; [done|done| |intros k' v' Hin; apply (Hv k' v'); by right].
  intros k' Hin k2 v2 [[<- _]|[_ H2]]%lookup_insert_Some; [|by apply (Ha k' ltac:(by right) k2 v2)].
  by apply (proj1 (List.Forall_forall _ _) Hk), list_elem_of_In.
Qed.

(** Every element has an encoding, and there are not too many. *)
Definition listable (values : list (list byte)) : Prop := zlen values < two64 /\ Forall (fun v => v <> []) values.

Definition listableb (values : list (list byte)) : bool := (zlen values <? two64) && forallb (fun v => negb (zlen v =? 0)) values.

Lemma listableb_spec values : listableb values = true -> listable values.
Proof.
  intros [Hl Hv]%andb_true_iff. zbool. split; [done|]. rewrite forallb_forall in Hv. apply List.Forall_forall. intros v Hin ->.
  by specialize (Hv [] Hin).
Qed.

Lemma DeriveSha_ok values : listable values ->
  exists h, DeriveSha (T:=StackTrie) values = Ret h /\ root_of (index_map values) h.
Proof.
  intros [Hl Hv]. destruct (update_all_ok (derive_updates values) NewStackTrie ∅) as (st & Hr & Hst).
  - apply stack_rep_new.
  - by apply derive_before.
  - intros k _ k' v H'. by rewrite lookup_empty in H'.
  - intros k v Hin. apply derive_updates_index in Hin as (i & _ & Hi). exact (proj1 (list.Forall_lookup _ _) Hv i v Hi).
  - destruct (StackTrie_Hash_ok false st _ Hst) as (st' & h & ws & Hh & Hroot). exists h. split; [|done].
    unfold DeriveSha. change (@hasher_Reset StackTrie stack_hasher) with NewStackTrie. rewrite Hr. cbn [res_bind hasher_Hash stack_hasher]. by rewrite Hh.
Qed.

Lemma DeriveSha_nil : DeriveSha (T:=StackTrie) [] = Ret EmptyRootHash.
Proof. by vm_compute. Qed.

Lemma index_map_fits values : zlen values < two64 -> Forall (fun v => zlen v <= 2 ^ 58) values -> all_fit (index_map values).
Proof.
  intros Hl Hv k v Hk. apply index_map_lookup in Hk; [|done]. pose proof (derive_keys_u64 values k Hl) as Hu.
  apply derive_updates_index in Hk as Hi. destruct Hi as (i & -> & Hi). split; [|exact (proj1 (list.Forall_lookup _ _) Hv i v Hi)].
  destruct Hu as (j & Hj & ->).
  { apply list_elem_of_In. apply (in_map fst _ (AppendUint64 (Z.of_nat i), v)). by apply list_elem_of_In. }
  rewrite AppendUint64_write, writeUint64_item by done. unfold is_u64, two64 in *. pose proof (int_item_len j). lia.
Qed.

(** What is hashed for a list. *)
Definition list_committed (values : list (list byte)) (l : list (list byte)) : Prop := committed (index_map values) l.

(** The root determines the list, as long as the nodes of the two tries do not collide. *)
Lemma DeriveSha_inj a b h l l' : listable a -> listable b -> Forall (fun v => zlen v <= 2 ^ 58) a ->
  DeriveSha (T:=StackTrie) a = Ret h -> DeriveSha (T:=StackTrie) b = Ret h ->
  list_committed a l -> list_committed b l' -> no_collision (l ++ l') ->
  (forall x, x ∈ l ++ l' -> BytesToHash (hashData x) <> EmptyRootHash) -> a = b.
Proof.
  intros Ha Hb Hf Hra Hrb Hl Hl' Hnc Hne. destruct (DeriveSha_ok a Ha) as (h1 & H1 & R1), (DeriveSha_ok b Hb) as (h2 & H2 & R2).
  assert (h1 = h) as -> by congruence. assert (h2 = h) as -> by congruence. apply index_map_inj; [apply Ha|apply Hb|].
  eapply root_of_inj; [exact R1|exact R2| |exact Hl|exact Hl'|done|done]. by apply index_map_fits; [apply Ha|].
Qed.
End derive.

(** ** Theorem *)

(** C16: A stack trie computes the root a trie does: for keys in increasing order, none a
    prefix of another, and values that are not empty, neither panics and both give the
    same hash, that of the map of the keys and values. *)
Theorem stack_trie_root {K : Keccak} {N : NodeStore} l :
  StronglySorted (fun a b => before (digits a) (digits b)) (map fst l) ->
  (forall k v, (k, v) ∈ l -> v <> [] /\ fits k v) ->
  exists st st' h ws answers T T',
    update_all l NewStackTrie = Ret st /\ StackTrie_Hash false st = Ret (st', h, ws) /\
    run_ops (map (fun '(k, v) => OpUpdate k v) l) (mkTrie nilNode 0 newTracer) = Ret (answers, T) /\
    Trie_Hash T = Ret (h, T') /\ root_of (put_all l ∅) h.
Proof.
  intros Hs Hv. destruct (update_all_ok l NewStackTrie ∅) as (st & Hr & Hst); [apply stack_rep_new|done| |intros k v Hin; by destruct (Hv k v Hin)|].
  { intros k _ k' v H'. by rewrite lookup_empty in H'. }
  destruct (StackTrie_Hash_ok false st _ Hst) as (st' & h & ws & Hh & Hroot).
  assert (trie_rep (mkTrie nilNode 0 newTracer) ∅) as Hrep.
  { split; [exists TNil; split; [constructor|apply tree_of_empty]|]. intros k v H'. by rewrite lookup_empty in H'. }
  assert (Forall op_fits (map (fun '(k, v) => OpUpdate k v) l)) as Hf.
  { apply List.Forall_forall. intros o Ho. apply in_map_iff in Ho as ([k v] & <- & Hin). apply (Hv k v). by apply list_elem_of_In. }
  destruct (wp_returns _ _ _ (run_ops_ok _ _ _ Hrep Hf)) as (answers & T & Hrun & _ & HT).
  destruct (wp_returns _ _ _ (Trie_Hash_ok T _ HT)) as (h2 & T' & HT' & Hroot2 & _).
  assert (fold_left (fun m o => next o m) (map (fun '(k, v) => OpUpdate k v) l) ∅ = put_all l ∅) as Heq.
  { clear -Hv. unfold put_all. generalize (∅ : contents) as m. induction l as [|[k v] l IH]; intros m; [done|]. cbn [map fold_left next].
    unfold put at 1. rewrite bool_decide_eq_false_2 by (apply (Hv k v); by left). apply IH. intros k' v' Hin. apply Hv. by right. }
  rewrite Heq in Hroot2. rewrite (root_of_unique _ _ _ Hroot2 Hroot) in HT'. by exists st, st', h, ws, answers, T, T'.
Qed.
