(* ===== verification/TxSigning.v ===== *)
(** * Signatures of transactions (client/core/types/transaction_signing.go)

    What a signer hashes, how the sender is recovered from a signature, and how a
    signature gets into a transaction.  The elliptic curve is a parameter. *)

From Stdlib Require Import Strings.Byte.
From S2P Require Import Prelude.
From S2P Require Import Common.
From S2P Require Import Params.
From S2P Require Import Precompiles.
From S2P Require Import Rlp.
From S2P Require Import Crypto.
From S2P Require Import StateInterface.
From S2P Require Import Encoding.
From S2P Require Import Transaction.

(** ** The curve *)

(** client/crypto: signing and recovery are those of libsecp256k1. *)
Class Secp256k1 : Type := {
  PrivateKey : Type;
  public_key : PrivateKey -> list byte;
  crypto_Sign : Hash -> PrivateKey -> option (list byte);
  crypto_Ecrecover : Hash -> list byte -> option (list byte)
}.

Definition secp256k1N : Z := 0xfffffffffffffffffffffffffffffffebaaedce6af48a03bbfd25e8cd0364141.
Definition secp256k1halfN : Z := secp256k1N / 2.

(** A signature is [R || S || V] with [V] 0 or 1 and a low [S], from which the
    (uncompressed) public key is recovered. *)
Class Secp256k1Laws (C : Secp256k1) : Prop := {
  public_key_form d : exists rest, public_key d = Byte.x04 :: rest;
  Sign_form h d sig : crypto_Sign h d = Some sig ->
    exists r s v, sig = be_bytes 32 r ++ be_bytes 32 s ++ [byte_of_Z v] /\
      1 <= r < secp256k1N /\ 1 <= s <= secp256k1halfN /\ (v = 0 \/ v = 1);
  Sign_recovers h d sig : crypto_Sign h d = Some sig -> crypto_Ecrecover h sig = Some (public_key d)
}.

Definition ValidateSignatureValues (v r s : Z) (homestead : bool) : bool :=
  if (r <? 1) || (s <? 1) then false
  else if homestead && (s >? secp256k1halfN) then false
  else (r <? secp256k1N) && (s <? secp256k1N) && ((v =? 0) || (v =? 1)).

(** ** Signers *)

Inductive Signer : Type :=
| londonSigner (chainId : Z)
| eip2930Signer (chainId : Z)
| EIP155Signer (chainId : Z)
| HomesteadSigner
| FrontierSigner.

(** The constructors take a nil chain id for zero. *)
Definition NewLondonSigner (chainId : option Z) : Signer := londonSigner (default 0 chainId).
Definition NewEIP2930Signer (chainId : option Z) : Signer := eip2930Signer (default 0 chainId).
Definition NewEIP155Signer (chainId : option Z) : Signer := EIP155Signer (default 0 chainId).

Definition MakeSigner (config : ChainConfig) (blockNumber : Z) : Signer :=
  if IsLondon config blockNumber then NewLondonSigner (ChainID config)
  else if IsBerlin config blockNumber then NewEIP2930Signer (ChainID config)
  else if IsEIP155 config blockNumber then NewEIP155Signer (ChainID config)
  else if IsHomestead config blockNumber then HomesteadSigner
  else FrontierSigner.

Definition LatestSigner (config : ChainConfig) : Signer :=
  match ChainID config with
  | Some chainId =>
      if negb (bool_decide (LondonBlock config = None)) then NewLondonSigner (Some chainId)
      else if negb (bool_decide (BerlinBlock config = None)) then NewEIP2930Signer (Some chainId)
      else if negb (bool_decide (EIP155Block config = None)) then NewEIP155Signer (Some chainId)
      else HomesteadSigner
  | None => HomesteadSigner
  end.

Definition LatestSignerForChainID (chainId : option Z) : Signer :=
  match chainId with None => HomesteadSigner | Some c => NewLondonSigner (Some c) end.

Definition signer_ChainID (s : Signer) : option Z :=
  match s with
  | londonSigner c | eip2930Signer c | EIP155Signer c => Some c
  | HomesteadSigner | FrontierSigner => None
  end.

Definition signer_Equal (s s2 : Signer) : bool :=
  match s, s2 with
  | londonSigner c, londonSigner x => x =? c
  | eip2930Signer c, eip2930Signer x => x =? c
  | EIP155Signer c, EIP155Signer x => x =? c
  | HomesteadSigner, HomesteadSigner => true
  | FrontierSigner, FrontierSigner => true
  | _, _ => false
  end.

Inductive signing_error : Type :=
| ErrTxTypeNotSupported
| ErrInvalidChainId
| ErrInvalidSig
| ErrRecover
| ErrInvalidPublicKey.

Definition isProtectedV (V : Z) : bool :=
  if big_BitLen V <=? 8 then
    let v := big_Uint64 V in
    negb (v =? 27) && negb (v =? 28) && negb (v =? 1) && negb (v =? 0)
  else true.

(** The type of a transaction that is not legacy is protection enough. *)
Definition Protected (tx : Transaction) : bool :=
  match tx_inner tx with TxLegacy t => isProtectedV (lt_V t) | _ => true end.

(** ** What is hashed *)

(** The values [rlp.Encode] is given; a negative integer is an error. *)
Definition enc_big (z : Z) : option item := if z <? 0 then None else Some (int_item z).
Definition enc_uint (z : Z) : option item := Some (int_item z).
Definition enc_to (a : option Address) : option item :=
  Some (Str (match a with Some a => address_bytes a | None => [] end)).
Definition enc_bytes (b : list byte) : option item := Some (Str b).
Definition tuple_item (t : Address * list Hash) : item :=
  Lst [Str (address_bytes (fst t)); Lst (map (fun k => Str (hash_bytes k)) (snd t))].
Definition enc_list (al : option AccessList) : option item := Some (Lst (map tuple_item (default [] al))).

(** After an error nothing has been written. *)
Definition rlp_values (vs : list (option item)) : list byte :=
  match mapM id vs with Some items => encode_item (Lst items) | None => [] end.

Section signing.
Context {K : Keccak}.

Definition frontier_Hash (tx : Transaction) : Hash :=
  rlpHash (rlp_values [enc_uint (tx_Nonce tx); enc_big (tx_GasPrice tx); enc_uint (tx_Gas tx); enc_to (tx_To tx);
    enc_big (tx_Value tx); enc_bytes (tx_Data tx)]).

Definition eip155_Hash (chainId : Z) (tx : Transaction) : Hash :=
  rlpHash (rlp_values [enc_uint (tx_Nonce tx); enc_big (tx_GasPrice tx); enc_uint (tx_Gas tx); enc_to (tx_To tx);
    enc_big (tx_Value tx); enc_bytes (tx_Data tx); enc_big chainId; enc_uint 0; enc_uint 0]).

Definition eip2930_Hash (chainId : Z) (tx : Transaction) : Hash :=
  if Type_ tx =? LegacyTxType then eip155_Hash chainId tx
  else if Type_ tx =? AccessListTxType then
    prefixedRlpHash (Type_ tx) (rlp_values [enc_big chainId; enc_uint (tx_Nonce tx); enc_big (tx_GasPrice tx);
      enc_uint (tx_Gas tx); enc_to (tx_To tx); enc_big (tx_Value tx); enc_bytes (tx_Data tx); enc_list (tx_AccessList tx)])
  else 0.

Definition london_Hash (chainId : Z) (tx : Transaction) : Hash :=
  if negb (Type_ tx =? DynamicFeeTxType) then eip2930_Hash chainId tx
  else
    prefixedRlpHash (Type_ tx) (rlp_values [enc_big chainId; enc_uint (tx_Nonce tx); enc_big (tx_GasTipCap tx);
      enc_big (tx_GasFeeCap tx); enc_uint (tx_Gas tx); enc_to (tx_To tx); enc_big (tx_Value tx); enc_bytes (tx_Data tx);
      enc_list (tx_AccessList tx)]).

Definition signer_Hash (s : Signer) (tx : Transaction) : Hash :=
  match s with
  | londonSigner c => london_Hash c tx
  | eip2930Signer c => eip2930_Hash c tx
  | EIP155Signer c => eip155_Hash c tx
  | HomesteadSigner | FrontierSigner => frontier_Hash tx
  end.

(** [Transaction.Hash]: of the data with its signature. *)
Definition inner_values (d : TxData) : list (option item) :=
  match d with
  | TxLegacy t =>
      [enc_uint (lt_Nonce t); enc_big (lt_GasPrice t); enc_uint (lt_Gas t); enc_to (lt_To t); enc_big (lt_Value t);
       enc_bytes (lt_Data t); enc_big (lt_V t); enc_big (lt_R t); enc_big (lt_S t)]
  | TxAccessList t =>
      [enc_big (at_ChainID t); enc_uint (at_Nonce t); enc_big (at_GasPrice t); enc_uint (at_Gas t); enc_to (at_To t);
       enc_big (at_Value t); enc_bytes (at_Data t); enc_list (Some (at_AccessList t)); enc_big (at_V t);
       enc_big (at_R t); enc_big (at_S t)]
  | TxDynamicFee t =>
      [enc_big (dt_ChainID t); enc_uint (dt_Nonce t); enc_big (dt_GasTipCap t); enc_big (dt_GasFeeCap t);
       enc_uint (dt_Gas t); enc_to (dt_To t); enc_big (dt_Value t); enc_bytes (dt_Data t);
       enc_list (Some (dt_AccessList t)); enc_big (dt_V t); enc_big (dt_R t); enc_big (dt_S t)]
  end.

Definition tx_Hash (tx : Transaction) : Hash :=
  if Type_ tx =? LegacyTxType then rlpHash (rlp_values (inner_values (tx_inner tx)))
  else prefixedRlpHash (Type_ tx) (rlp_values (inner_values (tx_inner tx))).

(** ** Recovery *)

Context {C : Secp256k1}.

Definition PubkeyToAddress (pub : list byte) : Address := hash_to_address (keccak256 (drop 1 pub)).

Definition recoverPlain (sighash : Hash) (R S_ Vb : Z) (homestead : bool) : signing_error + Address :=
  if big_BitLen Vb >? 8 then inl ErrInvalidSig
  else
    let V := u64 (big_Uint64 Vb - 27) mod 256 in
    if negb (ValidateSignatureValues V R S_ homestead) then inl ErrInvalidSig
    else
      let r := int_bytes R in
      let s := int_bytes S_ in
      let sig := replicate 65 Byte.x00 in
      let sig := copy_at sig (32 - length r) r in
      let sig := copy_at sig (64 - length s) s in
      let sig := <[64%nat := byte_of_Z V]> sig in
      match crypto_Ecrecover sighash sig with
      | None => inl ErrRecover
      | Some pub =>
          if (zlen pub =? 0) || negb (bool_decide (head pub = Some Byte.x04)) then inl ErrInvalidPublicKey
          else inr (PubkeyToAddress pub)
      end.

Definition frontier_Sender (tx : Transaction) : signing_error + Address :=
  if negb (Type_ tx =? LegacyTxType) then inl ErrTxTypeNotSupported
  else let '(v, r, s) := RawSignatureValues tx in recoverPlain (frontier_Hash tx) r s v false.

Definition homestead_Sender (tx : Transaction) : signing_error + Address :=
  if negb (Type_ tx =? LegacyTxType) then inl ErrTxTypeNotSupported
  else let '(v, r, s) := RawSignatureValues tx in recoverPlain (frontier_Hash tx) r s v true.

Definition eip155_Sender (chainId : Z) (tx : Transaction) : signing_error + Address :=
  if negb (Type_ tx =? LegacyTxType) then inl ErrTxTypeNotSupported
  else if negb (Protected tx) then homestead_Sender tx
  else if negb (ChainId tx =? chainId) then inl ErrInvalidChainId
  else let '(v, r, s) := RawSignatureValues tx in
    recoverPlain (eip155_Hash chainId tx) r s (v - chainId * 2 - 8) true.

Definition eip2930_Sender (chainId : Z) (tx : Transaction) : signing_error + Address :=
  let '(v, r, s) := RawSignatureValues tx in
  let recover v :=
    if negb (ChainId tx =? chainId) then inl ErrInvalidChainId else recoverPlain (eip2930_Hash chainId tx) r s v true in
  if Type_ tx =? LegacyTxType then
    if negb (Protected tx) then homestead_Sender tx else recover (v - chainId * 2 - 8)
  else if Type_ tx =? AccessListTxType then recover (v + 27)
  else inl ErrTxTypeNotSupported.

Definition london_Sender (chainId : Z) (tx : Transaction) : signing_error + Address :=
  if negb (Type_ tx =? DynamicFeeTxType) then eip2930_Sender chainId tx
  else
    let '(v, r, s) := RawSignatureValues tx in
    if negb (ChainId tx =? chainId) then inl ErrInvalidChainId
    else recoverPlain (london_Hash chainId tx) r s (v + 27) true.

Definition signer_Sender (s : Signer) (tx : Transaction) : signing_error + Address :=
  match s with
  | londonSigner c => london_Sender c tx
  | eip2930Signer c => eip2930_Sender c tx
  | EIP155Signer c => eip155_Sender c tx
  | HomesteadSigner => homestead_Sender tx
  | FrontierSigner => frontier_Sender tx
  end.

(** [types.Sender], with the transaction's cache. *)
Definition Sender (s : Signer) (tx : Transaction) (cache : option (Signer * Address)) :
    (signing_error + Address) * option (Signer * Address) :=
  let derive :=
    match signer_Sender s tx with
    | inl err => (inl err, cache)
    | inr addr => (inr addr, Some (s, addr))
    end in
  match cache with
  | Some (signer, from) => if signer_Equal signer s then (inr from, cache) else derive
  | None => derive
  end.

(** ** Signing *)

Definition decodeSignature (sig : list byte) : Res (Z * Z * Z) :=
  if negb (zlen sig =? 65) then Panic PanicSignature
  else
    Ret (be_value (take 32 sig), be_value (take 32 (drop 32 sig)), (byte_val (nth 64 sig Byte.x00) + 27) mod 256).

Definition sig_V (sig : list byte) : Z := byte_val (nth 64 sig Byte.x00).

Definition legacy_values (d : TxData) (k : Res (signing_error + Z * Z * Z)) : Res (signing_error + Z * Z * Z) :=
  match d with TxLegacy _ => k | _ => Ret (inl ErrTxTypeNotSupported) end.

Definition frontier_SignatureValues (d : TxData) (sig : list byte) : Res (signing_error + Z * Z * Z) :=
  legacy_values d (let? rsv := decodeSignature sig in Ret (inr rsv)).

Definition eip155_SignatureValues (chainId : Z) (d : TxData) (sig : list byte) : Res (signing_error + Z * Z * Z) :=
  legacy_values d (
    let? rsv := decodeSignature sig in
    let '(r, s, v) := rsv in
    Ret (inr (r, s, if negb (chainId =? 0) then (sig_V sig + 35) mod 256 + chainId * 2 else v))).

(** A typed transaction may leave the chain open. *)
Definition typed_values (chainId txChainID : Z) (sig : list byte) : Res (signing_error + Z * Z * Z) :=
  if negb (txChainID =? 0) && negb (txChainID =? chainId) then Ret (inl ErrInvalidChainId)
  else
    let? rsv := decodeSignature sig in
    let '(r, s, _) := rsv in
    Ret (inr (r, s, sig_V sig)).

Definition eip2930_SignatureValues (chainId : Z) (d : TxData) (sig : list byte) : Res (signing_error + Z * Z * Z) :=
  match d with
  | TxLegacy _ => eip155_SignatureValues chainId d sig
  | TxAccessList t => typed_values chainId (at_ChainID t) sig
  | _ => Ret (inl ErrTxTypeNotSupported)
  end.

Definition SignatureValues (s : Signer) (d : TxData) (sig : list byte) : Res (signing_error + Z * Z * Z) :=
  match s with
  | londonSigner c =>
      match d with
      | TxDynamicFee t => typed_values c (dt_ChainID t) sig
      | _ => eip2930_SignatureValues c d sig
      end
  | eip2930Signer c => eip2930_SignatureValues c d sig
  | EIP155Signer c => eip155_SignatureValues c d sig
  | HomesteadSigner | FrontierSigner => frontier_SignatureValues d sig
  end.

Definition WithSignature (tx : Transaction) (signer : Signer) (sig : list byte) : Res (signing_error + Transaction) :=
  let? rsv := SignatureValues signer (tx_inner tx) sig in
  match rsv with
  | inl err => Ret (inl err)
  | inr (r, s, v) =>
      Ret (inr (mkTransaction (setSignatureValues (default 0 (signer_ChainID signer)) v r s (tx_inner tx)) (tx_time tx)))
  end.

(** The error of the curve comes back as [None]. *)
Definition SignTx (tx : Transaction) (s : Signer) (prv : PrivateKey) : Res (option (signing_error + Transaction)) :=
  match crypto_Sign (signer_Hash s tx) prv with
  | None => Ret None
  | Some sig => let? r := WithSignature tx s sig in Ret (Some r)
  end.
End signing.

(** ** Lemmas: recovery *)

Lemma be_bytes_zero n : be_bytes n 0 = replicate n Byte.x00.
Proof. induction n as [|n IH]; [done|]. cbn [be_bytes replicate]. rewrite Z.div_0_l by (apply Z.pow_nonzero; lia). by rewrite IH. Qed.

(** The minimal form of an integer, padded. *)
Lemma be_bytes_pad r : 0 <= r < 2 ^ 256 ->
  exists n, length (int_bytes r) = n /\ (n <= 32)%nat /\ be_bytes 32 r = replicate (32 - n) Byte.x00 ++ int_bytes r.
Proof.
  intros Hr. unfold int_bytes. fold (byte_len r). set (n := Z.to_nat (byte_len r)). exists n. rewrite length_be_bytes.
  assert (r < 256 ^ Z.of_nat n /\ (n <= 32)%nat) as [Hb Hn].
  { destruct (Z.eq_dec r 0) as [->|Hr0]; [split; [done|vm_compute; lia]|]. destruct (byte_len_bounds r Hr0) as [H1 H2].
    unfold n. rewrite Z2Nat.id by lia. split; [lia|].
    destruct (Z.le_gt_cases (byte_len r) 32) as [|Hgt]; [lia|exfalso].
    pose proof (Z.pow_le_mono_r 256 32 (byte_len r - 1)). lia. }
  split_and!; [done|done|]. rewrite Z.abs_eq by lia. replace 32%nat with ((32 - n) + n)%nat at 1 by lia.
  rewrite be_bytes_app, Z.div_small by lia. by rewrite be_bytes_zero.
Qed.

Section recovery.
Context {K : Keccak} {C : Secp256k1}.

Lemma signature_bytes r s v : 0 <= r < 2 ^ 256 -> 0 <= s < 2 ^ 256 ->
  (let sig := replicate 65 Byte.x00 in
   let sig := copy_at sig (32 - length (int_bytes r)) (int_bytes r) in
   let sig := copy_at sig (64 - length (int_bytes s)) (int_bytes s) in
   <[64%nat := byte_of_Z v]> sig) = be_bytes 32 r ++ be_bytes 32 s ++ [byte_of_Z v].
Proof.
  intros Hr Hs. destruct (be_bytes_pad r Hr) as (n & Hn & Hn32 & ->). destruct (be_bytes_pad s Hs) as (m & Hm & Hm32 & ->).
  rewrite Hn, Hm. cbv zeta.
  replace (replicate 65 Byte.x00) with (replicate (32 - n) Byte.x00 ++ replicate n Byte.x00 ++ replicate (65 - 32) Byte.x00)
    by (rewrite <- !replicate_add; f_equal; lia).
  rewrite copy_at_middle by (rewrite ?length_replicate; lia). rewrite app_assoc.
  replace (replicate (65 - 32) Byte.x00) with (replicate (32 - m) Byte.x00 ++ replicate m Byte.x00 ++ [Byte.x00])
    by (change [Byte.x00] with (replicate 1 Byte.x00); rewrite <- !replicate_add; f_equal; lia).
  rewrite app_assoc. rewrite copy_at_middle by (rewrite ?length_app, ?length_replicate; lia).
  rewrite insert_app_r_alt by (rewrite !length_app, !length_replicate; lia).
  rewrite insert_app_r_alt by (rewrite !length_app, !length_replicate; lia).
  rewrite !length_app, !length_replicate, Hn, Hm. replace (64 - _ - m)%nat with 0%nat by lia.
  cbn [insert list_insert]. by rewrite <- !app_assoc.
Qed.

Lemma recoverPlain_valid h r s v homestead :
  1 <= r < secp256k1N -> 1 <= s < secp256k1N -> (homestead = true -> s <= secp256k1halfN) -> v = 0 \/ v = 1 ->
  recoverPlain h r s (27 + v) homestead =
    match crypto_Ecrecover h (be_bytes 32 r ++ be_bytes 32 s ++ [byte_of_Z v]) with
    | None => inl ErrRecover
    | Some pub =>
        if (zlen pub =? 0) || negb (bool_decide (head pub = Some Byte.x04)) then inl ErrInvalidPublicKey
        else inr (PubkeyToAddress pub)
    end.
Proof.
  intros Hr Hs Hh Hv. unfold recoverPlain.
  assert (big_BitLen (27 + v) >? 8 = false) as -> by by destruct Hv as [-> | ->].
  assert (u64 (big_Uint64 (27 + v) - 27) mod 256 = v) as -> by by destruct Hv as [-> | ->].
  assert (ValidateSignatureValues v r s homestead = true) as ->.
  { unfold ValidateSignatureValues. rewrite (proj2 (Z.ltb_ge r 1)), (proj2 (Z.ltb_ge s 1)) by lia. cbn [orb].
    rewrite Z.gtb_ltb. destruct homestead; [rewrite (proj2 (Z.ltb_ge _ s)) by by apply Hh|]; cbn [andb];
      rewrite (proj2 (Z.ltb_lt r _)), (proj2 (Z.ltb_lt s _)) by lia; by destruct Hv as [-> | ->]. }
  cbn [negb]. assert (secp256k1N < 2 ^ 256) by by vm_compute.
  rewrite <- signature_bytes by lia. reflexivity.
Qed.

Lemma decode_signed r s v : 0 <= r < 2 ^ 256 -> 0 <= s < 2 ^ 256 -> v = 0 \/ v = 1 ->
  let sig := be_bytes 32 r ++ be_bytes 32 s ++ [byte_of_Z v] in
  decodeSignature sig = Ret (r, s, v + 27) /\ sig_V sig = v.
Proof.
  intros Hr Hs Hv sig. assert (nth 64 sig Byte.x00 = byte_of_Z v) as Hn.
  { unfold sig. rewrite app_nth2; rewrite length_be_bytes; [|lia]. rewrite app_nth2; rewrite length_be_bytes; [done|lia]. }
  unfold decodeSignature, sig_V. rewrite Hn. assert (zlen sig = 65) as -> by (unfold sig; rewrite !zlen_app; unfold zlen; by rewrite !length_be_bytes).
  cbn [negb Z.eqb]. assert (byte_val (byte_of_Z v) = v) as -> by by destruct Hv as [-> | ->]. split; [|done].
  unfold sig. rewrite take_app_length' by by rewrite length_be_bytes. rewrite drop_app_length' by by rewrite length_be_bytes.
  rewrite take_app_length' by by rewrite length_be_bytes. rewrite !be_value_be_bytes. change (256 ^ Z.of_nat 32) with (2 ^ 256).
  rewrite !Z.mod_small by lia. by destruct Hv as [-> | ->].
Qed.
End recovery.

(** ** Lemmas: protected signatures *)

Lemma big_Uint64_small x : is_u64 x -> big_Uint64 x = x.
Proof. unfold big_Uint64, is_u64. intros H. rewrite Z.abs_eq by lia. by apply Z.mod_small. Qed.

Lemma big_BitLen_le x n : 0 < n -> 0 <= x -> big_BitLen x <=? n = true <-> x < 2 ^ n.
Proof.
  intros Hn Hx. unfold big_BitLen. rewrite Z.abs_eq by lia. rewrite Z.leb_le. destruct (x =? 0) eqn:E; zbool.
  - subst x. split; [intros _; lia|lia].
  - pose proof (Z.log2_lt_pow2 x n ltac:(lia)). lia.
Qed.

(** The [V] of a protected signature. *)
Lemma protected_V c v : 0 < c -> v = 0 \/ v = 1 ->
  isProtectedV ((v + 35) mod 256 + c * 2) = true /\ deriveChainId ((v + 35) mod 256 + c * 2) = c.
Proof.
  intros Hc Hv. assert ((v + 35) mod 256 = v + 35) as -> by by destruct Hv as [-> | ->]. split.
  - unfold isProtectedV. destruct (big_BitLen _ <=? 8) eqn:E; [|done]. apply big_BitLen_le in E; [|lia..].
    rewrite big_Uint64_small by ulia. rewrite !(proj2 (Z.eqb_neq _ _)) by lia. done.
  - unfold deriveChainId. assert (forall x, x = c * 2 + v -> x / 2 = c) as Hd.
    { intros x ->. symmetry. apply (Z.div_unique _ _ _ v); lia. }
    destruct (big_BitLen _ <=? 64) eqn:E; [|apply Hd; lia]. apply big_BitLen_le in E; [|lia..].
    rewrite big_Uint64_small by ulia. rewrite !(proj2 (Z.eqb_neq _ _)) by lia. cbn [orb].
    rewrite u64_small by ulia. apply Hd. lia.
Qed.

(** A transaction without signature and chain. *)
Definition unsigned (d : TxData) : TxData := setSignatureValues 0 0 0 0 d.

(** What a signer signs so that it accepts the signature. *)
Definition signable (s : Signer) (d : TxData) : Prop :=
  match d, s with
  | TxLegacy _, (londonSigner c | eip2930Signer c | EIP155Signer c) => 0 < c
  | TxLegacy _, _ => True
  | TxAccessList t, (londonSigner c | eip2930Signer c) => at_ChainID t = 0 \/ at_ChainID t = c
  | TxDynamicFee t, londonSigner c => dt_ChainID t = 0 \/ dt_ChainID t = c
  | _, _ => False
  end.

Section signing_lemmas.
Context {K : Keccak} {C : Secp256k1} {CL : Secp256k1Laws C}.

Lemma typed_values_ok c x sig r s v :
  x = 0 \/ x = c -> decodeSignature sig = Ret (r, s, v + 27) -> sig_V sig = v ->
  typed_values c x sig = Ret (inr (r, s, v)).
Proof.
  intros Hx Hd Hv. unfold typed_values. rewrite Hd, Hv.
  destruct Hx as [-> | ->]; rewrite ?Z.eqb_refl, ?andb_false_r; done.
Qed.

(** A signed hash is recovered. *)
Lemma recover_signed h prv r s v homestead :
  crypto_Ecrecover h (be_bytes 32 r ++ be_bytes 32 s ++ [byte_of_Z v]) = Some (public_key prv) ->
  1 <= r < secp256k1N -> 1 <= s <= secp256k1halfN -> v = 0 \/ v = 1 ->
  recoverPlain h r s (27 + v) homestead = inr (PubkeyToAddress (public_key prv)).
Proof.
  intros He Hr Hs Hv. assert (secp256k1halfN < secp256k1N) by by vm_compute.
  rewrite recoverPlain_valid by (done || lia). rewrite He. destruct (public_key_form prv) as [rest ->].
  rewrite zlen_cons. pose proof (zlen_nonneg rest). rewrite (proj2 (Z.eqb_neq _ 0)) by lia. by rewrite bool_decide_eq_true_2.
Qed.

(** The senders of a protected legacy transaction and of typed ones. *)
Lemma legacy_Sender c t time v : 0 < c -> v = 0 \/ v = 1 -> lt_V t = (v + 35) mod 256 + c * 2 ->
  let tx := mkTransaction (TxLegacy t) time in
  let r := recoverPlain (eip155_Hash c tx) (lt_R t) (lt_S t) (27 + v) true in
  eip155_Sender c tx = r /\ eip2930_Sender c tx = r /\ london_Sender c tx = r /\ ChainId tx = c /\ Protected tx = true.
Proof.
  intros Hc Hv HV. destruct (protected_V c v Hc Hv) as [Hp Hd]. rewrite <- HV in Hp, Hd. cbv zeta.
  assert (lt_V t - c * 2 - 8 = 27 + v) as Hv27 by (rewrite HV; destruct Hv as [-> | ->]; change ((0 + 35) mod 256) with 35;
    change ((1 + 35) mod 256) with 36; lia).
  assert (eip2930_Sender c (mkTransaction (TxLegacy t) time) =
    recoverPlain (eip155_Hash c (mkTransaction (TxLegacy t) time)) (lt_R t) (lt_S t) (27 + v) true) as H.
  { unfold eip2930_Sender, Protected, ChainId, RawSignatureValues, Type_. cbn [tx_inner chainID rawSignatureValues txType].
    change (LegacyTxType =? LegacyTxType) with true. cbv iota. by rewrite Hp, Hd, Z.eqb_refl, Hv27. }
  split_and!; [|exact H|exact H|exact Hd|exact Hp].
  unfold eip155_Sender, Protected, ChainId, RawSignatureValues, Type_. cbn [tx_inner chainID rawSignatureValues txType].
  change (LegacyTxType =? LegacyTxType) with true. cbn [negb]. by rewrite Hp, Hd, Z.eqb_refl, Hv27.
Qed.

Lemma access_Sender c t time v : at_ChainID t = c -> at_V t = v ->
  let tx := mkTransaction (TxAccessList t) time in
  let r := recoverPlain (eip2930_Hash c tx) (at_R t) (at_S t) (27 + v) true in
  eip2930_Sender c tx = r /\ london_Sender c tx = r.
Proof.
  intros Hc HV. cbv zeta.
  assert (eip2930_Sender c (mkTransaction (TxAccessList t) time) =
    recoverPlain (eip2930_Hash c (mkTransaction (TxAccessList t) time)) (at_R t) (at_S t) (27 + v) true) as H; [|by split].
  unfold eip2930_Sender, ChainId, RawSignatureValues, Type_. cbn [tx_inner chainID rawSignatureValues txType].
  change (AccessListTxType =? LegacyTxType) with false. change (AccessListTxType =? AccessListTxType) with true. cbv iota.
  by rewrite Hc, HV, Z.eqb_refl, (Z.add_comm v 27).
Qed.

Lemma dynamic_Sender c t time v : dt_ChainID t = c -> dt_V t = v ->
  let tx := mkTransaction (TxDynamicFee t) time in
  london_Sender c tx = recoverPlain (london_Hash c tx) (dt_R t) (dt_S t) (27 + v) true.
Proof.
  intros Hc HV. cbv zeta. unfold london_Sender, ChainId, RawSignatureValues, Type_. cbn [tx_inner chainID rawSignatureValues txType].
  change (DynamicFeeTxType =? DynamicFeeTxType) with true. cbn [negb]. by rewrite Hc, HV, Z.eqb_refl, (Z.add_comm v 27).
Qed.

Lemma signed_ok s tx prv sig :
  signable s (tx_inner tx) -> crypto_Sign (signer_Hash s tx) prv = Some sig ->
  exists tx', SignTx tx s prv = Ret (Some (inr tx')) /\ signer_Sender s tx' = inr (PubkeyToAddress (public_key prv)) /\
    unsigned (tx_inner tx') = unsigned (tx_inner tx) /\
    (forall c, signer_ChainID s = Some c -> ChainId tx' = c /\ Protected tx' = true).
Proof.
  intros Hs Hsig. destruct (Sign_form _ _ _ Hsig) as (r & s' & v & Hform & Hr & Hs' & Hv).
  pose proof (Sign_recovers _ _ _ Hsig) as He. rewrite Hform in He.
  assert (secp256k1N < 2 ^ 256 /\ secp256k1halfN < 2 ^ 256) as [HN HN'] by (split; by vm_compute).
  destruct (decode_signed r s' v ltac:(lia) ltac:(lia) Hv) as [Hdec HV]. rewrite <- Hform in Hdec, HV.
  pose proof (fun homestead => recover_signed _ prv r s' v homestead He Hr Hs' Hv) as Hrec.
  unfold SignTx. rewrite Hsig. destruct tx as [[t|t|t] time]; cbn [tx_inner] in *; destruct s as [c|c|c| |]; try done;
    unfold WithSignature; cbn [tx_inner SignatureValues eip2930_SignatureValues].
  1-3: cbn [signable] in Hs; unfold eip155_SignatureValues, legacy_values; rewrite Hdec; cbn [res_bind];
    rewrite (proj2 (Z.eqb_neq c 0)) by lia; cbn [negb]; rewrite HV; eexists; (split; [reflexivity|]);
    edestruct (legacy_Sender c (mkLegacyTx (lt_Nonce t) (lt_GasPrice t) (lt_Gas t) (lt_To t) (lt_Value t) (lt_Data t) _ r s') time v Hs Hv eq_refl)
      as (H155 & H2930 & Hlon & Hid & Hprot);
    (split; [|split; [done|intros ? [= <-]; by split]]); cbn [signer_Sender setSignatureValues tx_inner tx_time].
  - rewrite Hlon. apply Hrec.
  - rewrite H2930. apply Hrec.
  - rewrite H155. apply Hrec.
  - unfold frontier_SignatureValues, legacy_values. rewrite Hdec, (Z.add_comm v 27). cbn [res_bind]. eexists.
    split; [reflexivity|]. split; [exact (Hrec true)|done].
  - unfold frontier_SignatureValues, legacy_values. rewrite Hdec, (Z.add_comm v 27). cbn [res_bind]. eexists.
    split; [reflexivity|]. split; [exact (Hrec false)|done].
  - rewrite (typed_values_ok c _ sig r s' v) by done. cbn [res_bind]. eexists. split; [reflexivity|].
    split; [|split; [done|by intros ? [= <-]]]. cbn [signer_Sender setSignatureValues tx_inner tx_time signer_ChainID default].
    etrans; [apply (access_Sender c _ time v); reflexivity|]. exact (Hrec true).
  - rewrite (typed_values_ok c _ sig r s' v) by done. cbn [res_bind]. eexists. split; [reflexivity|].
    split; [|split; [done|by intros ? [= <-]]]. cbn [signer_Sender setSignatureValues tx_inner tx_time signer_ChainID default].
    etrans; [apply (access_Sender c _ time v); reflexivity|]. exact (Hrec true).
  - rewrite (typed_values_ok c _ sig r s' v) by done. cbn [res_bind]. eexists. split; [reflexivity|].
    split; [|split; [done|by intros ? [= <-]]]. cbn [signer_Sender setSignatureValues tx_inner tx_time signer_ChainID default].
    etrans; [apply (dynamic_Sender c _ time v); reflexivity|]. exact (Hrec true).
Qed.
End signing_lemmas.

(** ** Lemmas: what a hash commits to *)

(** The values that are signed, for each kind of transaction: with a chain id, except for
    the oldest signers. *)
Definition payload (c : option Z) (d : TxData) : list (option item) :=
  match d with
  | TxLegacy t =>
      [enc_uint (lt_Nonce t); enc_big (lt_GasPrice t); enc_uint (lt_Gas t); enc_to (lt_To t);
       enc_big (lt_Value t); enc_bytes (lt_Data t)] ++
      match c with Some c => [enc_big c; enc_uint 0; enc_uint 0] | None => [] end
  | TxAccessList t =>
      [enc_big (default 0 c); enc_uint (at_Nonce t); enc_big (at_GasPrice t); enc_uint (at_Gas t); enc_to (at_To t);
       enc_big (at_Value t); enc_bytes (at_Data t); enc_list (Some (at_AccessList t))]
  | TxDynamicFee t =>
      [enc_big (default 0 c); enc_uint (dt_Nonce t); enc_big (dt_GasTipCap t); enc_big (dt_GasFeeCap t); enc_uint (dt_Gas t);
       enc_to (dt_To t); enc_big (dt_Value t); enc_bytes (dt_Data t); enc_list (Some (dt_AccessList t))]
  end.

(** The bytes before them: the type of a typed transaction. *)
Definition type_prefix (d : TxData) : list byte := match d with TxLegacy _ => [] | _ => [byte_of_Z (txType d)] end.

Definition signing_bytes (c : option Z) (d : TxData) : list byte := type_prefix d ++ rlp_values (payload c d).

(** Transaction data of the right ranges. *)
Definition to_wf (a : option Address) : Prop := forall x, a = Some x -> 0 <= x < 2 ^ 160.
Definition list_wf (al : AccessList) : Prop :=
  Forall (fun t => 0 <= fst t < 2 ^ 160 /\ Forall (fun k => 0 <= k < 2 ^ 256) (snd t)) al.
Definition data_wf (d : TxData) : Prop :=
  match d with
  | TxLegacy t => 0 <= lt_Nonce t /\ 0 <= lt_GasPrice t /\ 0 <= lt_Gas t /\ to_wf (lt_To t) /\ 0 <= lt_Value t
  | TxAccessList t =>
      0 <= at_Nonce t /\ 0 <= at_GasPrice t /\ 0 <= at_Gas t /\ to_wf (at_To t) /\ 0 <= at_Value t /\ list_wf (at_AccessList t)
  | TxDynamicFee t =>
      0 <= dt_Nonce t /\ 0 <= dt_GasTipCap t /\ 0 <= dt_GasFeeCap t /\ 0 <= dt_Gas t /\ to_wf (dt_To t) /\
      0 <= dt_Value t /\ list_wf (dt_AccessList t)
  end.

Lemma enc_big_Some z : 0 <= z -> enc_big z = Some (int_item z).
Proof. intros Hz. unfold enc_big. by rewrite (proj2 (Z.ltb_ge z 0)). Qed.

Lemma to_inj a b : to_wf a -> to_wf b ->
  Str (match a with Some a => address_bytes a | None => [] end) = Str (match b with Some a => address_bytes a | None => [] end) ->
  a = b.
Proof.
  intros Ha Hb H%Str_inj. destruct a as [a|], b as [b|]; [|by apply (f_equal length) in H; unfold address_bytes in H; rewrite length_be_bytes in H..|done].
  f_equal. apply address_bytes_inj; [by apply Ha|by apply Hb|done].
Qed.

Lemma tuple_item_inj t t' :
  0 <= fst t < 2 ^ 160 /\ Forall (fun k => 0 <= k < 2 ^ 256) (snd t) ->
  0 <= fst t' < 2 ^ 160 /\ Forall (fun k => 0 <= k < 2 ^ 256) (snd t') -> tuple_item t = tuple_item t' -> t = t'.
Proof.
  destruct t as [a ks], t' as [a' ks']. cbn [fst snd]. intros [Ha Hk] [Ha' Hk'] H%Lst_inj.
  apply (inj2 cons) in H as [H1%Str_inj H2]. apply (inj2 cons) in H2 as [H2%Lst_inj _]. f_equal; [by apply address_bytes_inj|].
  clear H1. revert ks' Hk' H2. induction Hk as [|k ks Hk0 Hk IH]; intros [|k' ks'] Hk' H2; try done.
  apply (inj2 cons) in H2 as [H3%Str_inj H4]. apply list.Forall_cons in Hk' as [Hk0' Hk']. f_equal; [by apply hash_bytes_inj|by apply IH].
Qed.

Lemma list_inj al al' : list_wf al -> list_wf al' -> map tuple_item al = map tuple_item al' -> al = al'.
Proof.
  intros Hal. revert al'. induction Hal as [|t al Ht Hal IH]; intros [|t' al'] Hal' H; try done.
  apply (inj2 cons) in H as [H1 H2]. apply list.Forall_cons in Hal' as [Ht' Hal']. f_equal; [by apply tuple_item_inj|by apply IH].
Qed.

(** A list starts with none of the types of transactions. *)
Lemma typed_not_list ty items items' rest :
  ty = 1 \/ ty = 2 -> zlen (encode_item (Lst items)) < 2 ^ 62 ->
  encode_item (Lst items) <> byte_of_Z ty :: encode_item (Lst items') ++ rest.
Proof.
  intros Hty Hl H. assert (encode_item (Str [byte_of_Z ty]) = [byte_of_Z ty]) as Hs by by destruct Hty as [-> | ->].
  assert (encode_item (Lst items) ++ [] = encode_item (Str [byte_of_Z ty]) ++ encode_item (Lst items') ++ rest) as He
    by (rewrite app_nil_r, Hs; exact H).
  apply encode_item_prefix in He as [He _]; [done|]. rewrite app_nil_r. lia.
Qed.

(** Well-formed values are all encoded. *)
Definition payload_items (c : option Z) (d : TxData) : list item :=
  match d with
  | TxLegacy t =>
      [int_item (lt_Nonce t); int_item (lt_GasPrice t); int_item (lt_Gas t);
       Str (match lt_To t with Some a => address_bytes a | None => [] end);
       int_item (lt_Value t); Str (lt_Data t)] ++ match c with Some c => [int_item c; int_item 0; int_item 0] | None => [] end
  | TxAccessList t =>
      [int_item (default 0 c); int_item (at_Nonce t); int_item (at_GasPrice t); int_item (at_Gas t);
       Str (match at_To t with Some a => address_bytes a | None => [] end);
       int_item (at_Value t); Str (at_Data t); Lst (map tuple_item (at_AccessList t))]
  | TxDynamicFee t =>
      [int_item (default 0 c); int_item (dt_Nonce t); int_item (dt_GasTipCap t); int_item (dt_GasFeeCap t); int_item (dt_Gas t);
       Str (match dt_To t with Some a => address_bytes a | None => [] end);
       int_item (dt_Value t); Str (dt_Data t); Lst (map tuple_item (dt_AccessList t))]
  end.

(** A chain id that is signed, and the signers that sign a kind of transaction. *)
Definition chain_wf (c : option Z) : Prop := 0 <= default 0 c.
Definition signs (s : Signer) (d : TxData) : Prop :=
  match d, s with
  | TxLegacy _, _ | TxAccessList _, (londonSigner _ | eip2930Signer _) | TxDynamicFee _, londonSigner _ => True
  | _, _ => False
  end.
Definition chain_of (c : option Z) (d : TxData) : Prop := match d with TxLegacy _ => True | _ => is_Some c end.

Lemma signs_chain s d : signs s d -> chain_of (signer_ChainID s) d.
Proof. destruct d, s; cbn; intros H; try done; by eexists. Qed.

Lemma payload_encoded c d : chain_wf c -> data_wf d -> rlp_values (payload c d) = encode_item (Lst (payload_items c d)).
Proof.
  intros Hc Hd. unfold rlp_values.
  assert (mapM id (payload c d) = Some (payload_items c d)) as ->; [|done].
  unfold chain_wf in Hc. destruct d as [t|t|t]; [destruct c as [c|]|..]; cbn [default from_option] in Hc; unfold id in Hc;
    cbn [data_wf payload app] in *; repeat (destruct Hd as [? Hd]); unfold enc_uint, enc_to, enc_bytes, enc_list;
    rewrite !enc_big_Some by done; reflexivity.
Qed.

Lemma unsigned_legacy t t' :
  lt_Nonce t = lt_Nonce t' -> lt_GasPrice t = lt_GasPrice t' -> lt_Gas t = lt_Gas t' -> lt_To t = lt_To t' ->
  lt_Value t = lt_Value t' -> lt_Data t = lt_Data t' -> unsigned (TxLegacy t) = unsigned (TxLegacy t').
Proof. intros. unfold unsigned, setSignatureValues. by f_equal; f_equal. Qed.

Lemma chain_inj c c' d d' : chain_of c d -> chain_of c' d' -> txType d = txType d' -> default 0 c = default 0 c' ->
  (forall t, d <> TxLegacy t) -> c = c'.
Proof.
  intros Hd Hd' Hty Heq Hl. destruct d as [t|t|t], d' as [t'|t'|t']; try done; [by destruct (Hl t)|..];
    destruct Hd as [x ->], Hd' as [x' ->]; cbn in Heq; by f_equal.
Qed.

Lemma payload_inj c c' d d' : chain_wf c -> chain_wf c' -> chain_of c d -> chain_of c' d' -> data_wf d -> data_wf d' ->
  txType d = txType d' -> payload_items c d = payload_items c' d' -> c = c' /\ unsigned d = unsigned d'.
Proof.
  intros Hc Hc' Hk Hk' Hd Hd' Hty H. unfold chain_wf in Hc, Hc'. pose proof (chain_inj c c' d d' Hk Hk' Hty) as Hinj.
  destruct d as [t|t|t], d' as [t'|t'|t']; try done; [destruct c as [c|], c' as [c'|]|..];
    cbn [data_wf payload_items app default from_option] in *; unfold id in *; destruct_and?;
    repeat (apply (inj2 cons) in H as [? H]); try discriminate H;
    repeat match goal with
    | E : int_item _ = int_item _ |- _ => apply int_item_inj in E; [|done..]
    | E : Str (match _ with _ => _ end) = _ |- _ => apply to_inj in E; [|done..]
    | E : Str _ = Str _ |- _ => apply Str_inj in E
    | E : Lst _ = Lst _ |- _ => apply Lst_inj, list_inj in E; [|done..]
    end; (split; [first [reflexivity | f_equal; assumption | apply Hinj; [assumption|discriminate]]|]); unfold unsigned, setSignatureValues; f_equal; f_equal; assumption.
Qed.

Section hashes.
Context {K : Keccak} {KL : KeccakLaws K}.

Lemma signer_Hash_bytes s tx : signs s (tx_inner tx) -> signer_Hash s tx = keccak256 (signing_bytes (signer_ChainID s) (tx_inner tx)).
Proof. by destruct tx as [[t|t|t] time], s. Qed.

Lemma signing_bytes_inj c c' d d' : chain_wf c -> chain_wf c' -> chain_of c d -> chain_of c' d' -> data_wf d -> data_wf d' ->
  zlen (signing_bytes c d) < 2 ^ 62 -> signing_bytes c d = signing_bytes c' d' -> c = c' /\ unsigned d = unsigned d'.
Proof.
  intros Hc Hc' Hk Hk' Hd Hd' Hl H. unfold signing_bytes in *. rewrite (payload_encoded c d), (payload_encoded c' d') in * by done.
  assert (type_prefix d = type_prefix d' /\ txType d = txType d') as [Hp Hty].
  { assert (forall ty x y, ty = 1 \/ ty = 2 -> zlen (encode_item (Lst x)) < 2 ^ 62 ->
      encode_item (Lst x) = byte_of_Z ty :: encode_item (Lst y) -> False) as Hno.
    { intros ty x y Hty Hx He. refine (typed_not_list ty x y [] Hty Hx _). by rewrite app_nil_r. }
    destruct d as [t|t|t], d' as [t'|t'|t']; try (split; reflexivity);
      cbn [type_prefix app txType] in H, Hl; exfalso.
    - by apply (Hno 1 _ _ (or_introl eq_refl) Hl H).
    - by apply (Hno 2 _ _ (or_intror eq_refl) Hl H).
    - rewrite H in Hl. by apply (Hno 1 _ _ (or_introl eq_refl) Hl (eq_sym H)).
    - by apply (inj2 cons) in H as [? _].
    - rewrite H in Hl. by apply (Hno 2 _ _ (or_intror eq_refl) Hl (eq_sym H)).
    - by apply (inj2 cons) in H as [? _]. }
  rewrite Hp in H. apply app_inv_head in H.
  assert (encode_item (Lst (payload_items c d)) ++ [] = encode_item (Lst (payload_items c' d')) ++ []) as H'
    by (by rewrite !app_nil_r).
  apply encode_item_prefix in H' as [H' _]; [|rewrite app_nil_r; rewrite zlen_app in Hl; pose proof (zlen_nonneg (type_prefix d)); lia].
  apply Lst_inj in H'. by apply payload_inj.
Qed.
End hashes.

(** ** Theorems *)

(** C29: A transaction signed with a key gives back the key's address as its sender, under
    every signer that supports it (a legacy one needs a chain id above zero): signing
    returns, changes nothing but the signature and the chain, and makes the
    transaction protected if the signer has a chain. *)
Theorem sign_recovers {K : Keccak} {C : Secp256k1} {CL : Secp256k1Laws C} s tx prv sig :
  signable s (tx_inner tx) -> crypto_Sign (signer_Hash s tx) prv = Some sig ->
  exists tx', SignTx tx s prv = Ret (Some (inr tx')) /\ signer_Sender s tx' = inr (PubkeyToAddress (public_key prv)) /\
    unsigned (tx_inner tx') = unsigned (tx_inner tx) /\
    (forall c, signer_ChainID s = Some c -> ChainId tx' = c /\ Protected tx' = true).
Proof. apply signed_ok. Qed.

(** C30: What is signed commits to the transaction and the chain: if two signers, each of a
    kind that signs its transaction's type, hash two transactions with values in range to
    the same value, they are of the same chain, or both without a chain, and the
    transactions agree in everything but their signatures and the chain ids written in
    them.  (What is hashed is shorter than 2^62 bytes.) *)
Theorem signing_hash_commits {K : Keccak} {KL : KeccakLaws K} s s' tx tx' :
  signs s (tx_inner tx) -> signs s' (tx_inner tx') -> chain_wf (signer_ChainID s) -> chain_wf (signer_ChainID s') ->
  data_wf (tx_inner tx) -> data_wf (tx_inner tx') ->
  zlen (signing_bytes (signer_ChainID s) (tx_inner tx)) < 2 ^ 62 ->
  signer_Hash s tx = signer_Hash s' tx' ->
  signer_ChainID s = signer_ChainID s' /\ unsigned (tx_inner tx) = unsigned (tx_inner tx').
Proof.
  intros Hs Hs' Hc Hc' Hd Hd' Hl. rewrite (signer_Hash_bytes s), (signer_Hash_bytes s') by done. intros H%keccak256_inj.
  apply signing_bytes_inj; try done; by apply signs_chain.
Qed.

Lemma plain_Sender_inr {K : Keccak} {C : Secp256k1} c tx a :
  (eip155_Sender c tx = inr a -> Protected tx = true -> ChainId tx = c) /\
  (eip2930_Sender c tx = inr a -> Protected tx = true -> ChainId tx = c) /\
  (london_Sender c tx = inr a -> Protected tx = true -> ChainId tx = c).
Proof.
  assert (eip2930_Sender c tx = inr a -> Protected tx = true -> ChainId tx = c) as H2930.
  { unfold eip2930_Sender. destruct (RawSignatureValues tx) as [[v r] s]. intros H Hp. rewrite Hp in H. cbn [negb] in H.
    destruct (ChainId tx =? c) eqn:E; [by zbool|]. cbn [negb] in H. repeat case_match; done. }
  split_and!; [|done|].
  - unfold eip155_Sender. intros H Hp. rewrite Hp in H. cbn [negb] in H.
    destruct (ChainId tx =? c) eqn:E; [by zbool|]. cbn [negb] in H. repeat case_match; done.
  - unfold london_Sender. intros H Hp. destruct (negb _); [by apply H2930|].
    destruct (RawSignatureValues tx) as [[v r] s]. destruct (ChainId tx =? c) eqn:E; [by zbool|done].
Qed.

(** C31: A protected transaction cannot be replayed: signers of different chains never both
    accept it. *)
Theorem replay_protected {K : Keccak} {C : Secp256k1} s s' c c' tx a a' :
  Protected tx = true -> signer_ChainID s = Some c -> signer_ChainID s' = Some c' ->
  signer_Sender s tx = inr a -> signer_Sender s' tx = inr a' -> c = c'.
Proof.
  assert (forall s c a, signer_ChainID s = Some c -> signer_Sender s tx = inr a -> Protected tx = true -> ChainId tx = c) as H.
  { intros s0 c0 a0 Hc Hs Hp. destruct (plain_Sender_inr c0 tx a0) as (H1 & H2 & H3).
    destruct s0; cbn in Hc; try done; injection Hc as ->; auto. }
  intros Hp Hc Hc' Hs Hs'. rewrite <- (H s c a Hc Hs Hp). by apply (H s' c' a').
Qed.

(** The cache of a transaction holds a sender some signer derived. *)
Definition cache_ok {K : Keccak} {C : Secp256k1} (tx : Transaction) (cache : option (Signer * Address)) : Prop :=
  forall s a, cache = Some (s, a) -> signer_Sender s tx = inr a.

(** The sender's cache is transparent: whatever earlier calls have left in it, the
    answer is the signer's. *)
Theorem Sender_cached {K : Keccak} {C : Secp256k1} s tx cache :
  cache_ok tx cache ->
  (Sender s tx cache).1 = signer_Sender s tx /\ cache_ok tx (Sender s tx cache).2.
Proof.
  intros Hc. unfold Sender.
  assert (forall r, r = match signer_Sender s tx with inl err => (inl err, cache) | inr addr => (inr addr, Some (s, addr)) end ->
    r.1 = signer_Sender s tx /\ cache_ok tx r.2) as Hd.
  { intros r ->. destruct (signer_Sender s tx) as [err|addr] eqn:E; (split; [done|]); [exact Hc|]. by intros ? ? [= <- <-]. }
  destruct cache as [[s0 a]|]; [|by apply Hd]. destruct (signer_Equal s0 s) eqn:E; [|by apply Hd].
  assert (s0 = s) as -> by (destruct s0, s; cbn in E; try done; zbool; congruence). cbn [fst snd].
  split; [symmetry; by apply Hc|exact Hc].
Qed.
