(* ===== verification/Receipts.v ===== *)
(** * Receipts and log blooms (client/core/types/receipt.go, bloom9.go, log.go)

    The receipt of a transaction with its encodings and derived fields, the decoder of
    the form that is stored, writing and reading it in the chain database
    (client/core/rawdb/accessors_chain.go), and the bloom filter over the addresses
    and topics of its logs. *)

From Stdlib Require Import Strings.Byte.
From S2P Require Import Prelude.
From S2P Require Import Common.
From S2P Require Import Params.
From S2P Require Import Rlp.
From S2P Require Import Crypto.
From S2P Require Import Analysis.
From S2P Require Import StateInterface.
From S2P Require Import StateObject.
From S2P Require Import StateStore.
From S2P Require Import Header.
From S2P Require Import Precompiles.
From S2P Require Import Encoding.
From S2P Require Import RlpStream.
From S2P Require Import Blocks.
From S2P Require Import StreamSpec.
From S2P Require Import Decoding.
From S2P Require Import ChainKeys.
From S2P Require Import ChainStore.
From S2P Require Import Transaction.
From S2P Require Import TxSigning.

(** ** Logs *)

(** A log as a receipt holds it: [TxLog] with the hash of the block. *)
Record RLog : Type := mkRLog { rl_TxLog : TxLog; rl_BlockHash : Hash }.

Definition rl_Log (l : RLog) : Log := txlog (rl_TxLog l).

Definition log_item (l : Log) : item :=
  Lst [Str (address_bytes (log_Address l)); Lst (map (fun t => Str (hash_bytes t)) (log_Topics l)); Str (log_Data l)].

(** [*Log.EncodeRLP]. *)
Definition Log_EncodeRLP (l : Log) : list byte := encode_item (log_item l).

(** [GetLogs]: the logs of a transaction, with the block filled in.  (The
    assignments go to objects the state database shares with the receipt and does
    not read again.) *)
Definition GetLogs (s : state) (hash : Hash) (blockNumber : Z) (blockHash : Hash) : list RLog :=
  map (fun l => mkRLog (mkTxLog (mkLog (log_Address (txlog l)) (log_Topics (txlog l)) (log_Data (txlog l)) blockNumber)
                          (log_TxHash l) (log_TxIndex l) (log_Index l)) blockHash) (default [] (logs s !! hash)).

(** ** Blooms *)

Definition BloomByteLength : Z := 256.
Abbreviation Bloom := (list byte).
Definition empty_bloom : Bloom := replicate 256 Byte.x00.

Definition byte_and (a b : byte) : byte := byte_of_Z (Z.land (byte_val a) (byte_val b)).

Section bloom.
Context {K : Keccak}.

(** Byte and bit for the pair of bytes at [i] of the hash. *)
Definition bloom_value (hashbuf : list byte) (i : nat) : Z * byte :=
  let hi := byte_val (nth i hashbuf Byte.x00) in
  let lo := byte_val (nth (i + 1) hashbuf Byte.x00) in
  (BloomByteLength - Z.shiftr (Z.land (hi * 256 + lo) 0x7ff) 3 - 1, byte_of_Z (Z.shiftl 1 (Z.land lo 0x7))).

Definition bloomValues (data : list byte) : list (Z * byte) :=
  let hashbuf := take 6 (hash_bytes (keccak256 data)) in
  [bloom_value hashbuf 0; bloom_value hashbuf 2; bloom_value hashbuf 4].

(** [add]: three times [b[i] |= v]. *)
Fixpoint bloom_or (vs : list (Z * byte)) (b : Bloom) : Res Bloom :=
  match vs with
  | [] => Ret b
  | (i, v) :: vs => let? b := bits_or b i v in bloom_or vs b
  end.

Definition bloom_add (d : list byte) (b : Bloom) : Res Bloom := bloom_or (bloomValues d) b.

(** [v == v & b[i]] for all three; the conjunction stops at the first failure. *)
Fixpoint bloom_has (vs : list (Z * byte)) (b : Bloom) : Res bool :=
  match vs with
  | [] => Ret true
  | (i, v) :: vs =>
      let? x := go_index b i in
      if Byte.eqb v (byte_and v x) then bloom_has vs b else Ret false
  end.

Definition bloom_Test (b : Bloom) (topic : list byte) : Res bool := bloom_has (bloomValues topic) b.

(** What is added for a log: its address and its topics. *)
Fixpoint add_topics (topics : list Hash) (b : Bloom) : Res Bloom :=
  match topics with
  | [] => Ret b
  | t :: topics => let? b := bloom_add (hash_bytes t) b in add_topics topics b
  end.

Fixpoint add_logs (ls : list RLog) (b : Bloom) : Res Bloom :=
  match ls with
  | [] => Ret b
  | l :: ls =>
      let? b := bloom_add (address_bytes (log_Address (rl_Log l))) b in
      let? b := add_topics (log_Topics (rl_Log l)) b in
      add_logs ls b
  end.

Definition LogsBloom (ls : list RLog) : Res Bloom := add_logs ls empty_bloom.
End bloom.

(** ** Receipts *)

Definition ReceiptStatusFailed : Z := 0.
Definition ReceiptStatusSuccessful : Z := 1.
Definition receiptStatusFailedRLP : list byte := [].
Definition receiptStatusSuccessfulRLP : list byte := [Byte.x01].

Record Receipt : Type := mkReceipt {
  rc_Type : Z;
  rc_PostState : list byte;
  rc_Status : Z;
  rc_CumulativeGasUsed : Z;
  rc_Bloom : Bloom;
  rc_Logs : list RLog;
  rc_TxHash : Hash;
  rc_ContractAddress : Address;
  rc_GasUsed : Z;
  rc_EffectiveGasPrice : option Z;
  rc_BlockHash : Hash;
  rc_BlockNumber : option Z;
  rc_TransactionIndex : Z
}.

Definition new_receipt : Receipt := mkReceipt 0 [] 0 0 empty_bloom [] 0 0 0 None 0 None 0.

(** [NewReceipt]. *)
Definition NewReceipt (root : list byte) (failed : bool) (cumulativeGasUsed : Z) : Receipt :=
  mkReceipt LegacyTxType root (if failed then ReceiptStatusFailed else ReceiptStatusSuccessful) cumulativeGasUsed
    empty_bloom [] 0 0 0 None 0 None 0.

Definition statusEncoding (r : Receipt) : list byte :=
  if zlen (rc_PostState r) =? 0 then
    if rc_Status r =? ReceiptStatusFailed then receiptStatusFailedRLP else receiptStatusSuccessfulRLP
  else rc_PostState r.

Definition set_status (status : Z) (r : Receipt) : Receipt :=
  mkReceipt (rc_Type r) (rc_PostState r) status (rc_CumulativeGasUsed r) (rc_Bloom r) (rc_Logs r) (rc_TxHash r)
    (rc_ContractAddress r) (rc_GasUsed r) (rc_EffectiveGasPrice r) (rc_BlockHash r) (rc_BlockNumber r) (rc_TransactionIndex r).
Definition set_poststate (p : list byte) (r : Receipt) : Receipt :=
  mkReceipt (rc_Type r) p (rc_Status r) (rc_CumulativeGasUsed r) (rc_Bloom r) (rc_Logs r) (rc_TxHash r)
    (rc_ContractAddress r) (rc_GasUsed r) (rc_EffectiveGasPrice r) (rc_BlockHash r) (rc_BlockNumber r) (rc_TransactionIndex r).
Definition set_bloom (b : Bloom) (r : Receipt) : Receipt :=
  mkReceipt (rc_Type r) (rc_PostState r) (rc_Status r) (rc_CumulativeGasUsed r) b (rc_Logs r) (rc_TxHash r)
    (rc_ContractAddress r) (rc_GasUsed r) (rc_EffectiveGasPrice r) (rc_BlockHash r) (rc_BlockNumber r) (rc_TransactionIndex r).
Definition set_consensus (cumulativeGasUsed : Z) (b : Bloom) (ls : list RLog) (r : Receipt) : Receipt :=
  mkReceipt (rc_Type r) (rc_PostState r) (rc_Status r) cumulativeGasUsed b ls (rc_TxHash r)
    (rc_ContractAddress r) (rc_GasUsed r) (rc_EffectiveGasPrice r) (rc_BlockHash r) (rc_BlockNumber r) (rc_TransactionIndex r).

(** [setStatus]; [None] is the error. *)
Definition setStatus (postStateOrStatus : list byte) (r : Receipt) : option Receipt :=
  if bool_decide (postStateOrStatus = receiptStatusSuccessfulRLP) then Some (set_status ReceiptStatusSuccessful r)
  else if bool_decide (postStateOrStatus = receiptStatusFailedRLP) then Some (set_status ReceiptStatusFailed r)
  else if zlen postStateOrStatus =? 32 then Some (set_poststate postStateOrStatus r)
  else None.

(** What a database stores of a receipt ([storedReceiptRLP]); a stored log has only
    the fields its encoding has. *)
Record storedReceiptRLP : Type := mkStored {
  st_PostStateOrStatus : list byte;
  st_CumulativeGasUsed : Z;
  st_Logs : list RLog
}.

Definition strip_log (l : RLog) : RLog :=
  mkRLog (mkTxLog (mkLog (log_Address (rl_Log l)) (log_Topics (rl_Log l)) (log_Data (rl_Log l)) 0) 0 0 0) 0.

Definition stored_item (r : Receipt) : item :=
  Lst [Str (statusEncoding r); int_item (rc_CumulativeGasUsed r); Lst (map (fun l => log_item (rl_Log l)) (rc_Logs r))].

(** [*ReceiptForStorage.EncodeRLP]. *)
Definition ReceiptForStorage_EncodeRLP (r : Receipt) : list byte := encode_item (stored_item r).

(** The encoding of a receipt in the trie of a block ([Receipts.EncodeIndex]). *)
Definition receipt_item (r : Receipt) : item :=
  Lst [Str (statusEncoding r); int_item (rc_CumulativeGasUsed r); Str (rc_Bloom r);
    Lst (map (fun l => log_item (rl_Log l)) (rc_Logs r))].

Definition Receipt_EncodeIndex (r : Receipt) : list byte :=
  if rc_Type r =? LegacyTxType then encode_item (receipt_item r)
  else if rc_Type r =? AccessListTxType then byte_of_Z AccessListTxType :: encode_item (receipt_item r)
  else if rc_Type r =? DynamicFeeTxType then byte_of_Z DynamicFeeTxType :: encode_item (receipt_item r)
  else [].

Section receipts.
Context {K : Keccak} {C : Secp256k1}.

Fixpoint add_receipts (rs : list Receipt) (b : Bloom) : Res Bloom :=
  match rs with
  | [] => Ret b
  | r :: rs => let? b := add_logs (rc_Logs r) b in add_receipts rs b
  end.

Definition CreateBloom (rs : list Receipt) : Res Bloom := add_receipts rs empty_bloom.

(** [*Log.DecodeRLP], through [rlpLog]. *)
Definition Log_DecodeRLP : decoder RLog :=
  struct (
    let! Address := field decodeAddress in
    let! Topics := field (decodeListSlice decodeHash) in
    let! Data := field stream_Bytes in
    sret (mkRLog (mkTxLog (mkLog Address Topics Data 0) 0 0 0) 0)).

Definition decode_storedReceiptRLP : decoder storedReceiptRLP :=
  struct (
    let! PostStateOrStatus := field stream_Bytes in
    let! CumulativeGasUsed := field stream_Uint64 in
    let! Logs := field (decodeListSlice Log_DecodeRLP) in
    sret (mkStored PostStateOrStatus CumulativeGasUsed Logs)).

(** [*ReceiptForStorage.DecodeRLP]. *)
Definition ReceiptForStorage_DecodeRLP : decoder Receipt :=
  let! stored := decode_storedReceiptRLP in
  match setStatus (st_PostStateOrStatus stored) new_receipt with
  | None => serr InvalidReceiptStatus
  | Some r =>
      let r := set_consensus (st_CumulativeGasUsed stored) (rc_Bloom r) (st_Logs stored) r in
      let* b := gpure (CreateBloom [r]) in
      sret (set_bloom b r)
  end.

(** [DeriveFields], one receipt after the other: [prev] is the gas used before it. *)
Fixpoint derive_logs (number : Z) (hash txHash : Hash) (i logIndex : Z) (ls : list RLog) : list RLog :=
  match ls with
  | [] => []
  | l :: ls =>
      mkRLog (mkTxLog (mkLog (log_Address (rl_Log l)) (log_Topics (rl_Log l)) (log_Data (rl_Log l)) number) txHash i logIndex) hash
        :: derive_logs number hash txHash i (u64 (logIndex + 1)) ls
  end.

Definition derive_fields (signer : Signer) (hash : Hash) (number : Z) (baseFee : option Z) (i prev logIndex : Z)
    (r : Receipt) (tx : Transaction) : Receipt :=
  mkReceipt (Type_ tx) (rc_PostState r) (rc_Status r) (rc_CumulativeGasUsed r) (rc_Bloom r)
    (derive_logs number hash (tx_Hash tx) i logIndex (rc_Logs r))
    (tx_Hash tx)
    (match tx_To tx with
     | None => CreateAddress (match signer_Sender signer tx with inr from => from | inl _ => 0 end) (tx_Nonce tx)
     | Some _ => 0
     end)
    (u64 (rc_CumulativeGasUsed r - prev))
    (Some (effectiveGasPrice (tx_inner tx) baseFee)) hash (Some number) i.

Fixpoint derive_all (signer : Signer) (hash : Hash) (number : Z) (baseFee : option Z) (i prev logIndex : Z)
    (rs : list Receipt) (txs : list Transaction) : list Receipt :=
  match rs, txs with
  | r :: rs, tx :: txs =>
      derive_fields signer hash number baseFee i prev logIndex r tx
        :: derive_all signer hash number baseFee (i + 1) (rc_CumulativeGasUsed r) (u64 (logIndex + zlen (rc_Logs r))) rs txs
  | _, _ => []
  end.

(** [None]: the counts differ. *)
Definition DeriveFields (config : ChainConfig) (hash : Hash) (number : Z) (baseFee : option Z) (txs : list Transaction)
    (rs : list Receipt) : option (list Receipt) :=
  if negb (zlen txs =? zlen rs) then None
  else Some (derive_all (MakeSigner config number) hash number baseFee 0 0 0 rs txs).

(** *** In the chain database (client/core/rawdb/accessors_chain.go) *)

Definition WriteReceipts (hash : Hash) (number : Z) (rs : list Receipt) (b : kv_batch) : kv_batch :=
  b ++ [KvPut (blockReceiptsKey number hash) (write_list (concat (map ReceiptForStorage_EncodeRLP rs)))].

Context {AS : AncientStore}.

Definition ReadReceiptsRLP (hash : Hash) (number : Z) (db : kvstore) : list byte :=
  if isCanon number hash then ancient_data ChainFreezerReceiptTable number else kv_Get (blockReceiptsKey number hash) db.

(** [None] is nil, which is not the empty slice. *)
Definition ReadRawReceipts (hash : Hash) (number : Z) (db : kvstore) : Res (option (list Receipt)) :=
  let data := ReadReceiptsRLP hash number db in
  if zlen data =? 0 then Ret None
  else
    let? r := DecodeBytes (decodeListSlice ReceiptForStorage_DecodeRLP) data in
    match r with inl rs => Ret (Some rs) | inr _ => Ret None end.

(** [ReadReceipts], given the transactions of the body that is stored, if there is one. *)
Definition ReadReceipts (hash : Hash) (number : Z) (config : ChainConfig) (body : option (list Transaction)) (db : kvstore) :
    Res (option (list Receipt)) :=
  let? receipts := ReadRawReceipts hash number db in
  match receipts, body with
  | Some receipts, Some txs =>
      let? header := ReadHeader hash number db in
      let baseFee := match header with None => Some 0 | Some header => hdr_BaseFee header end in
      Ret (DeriveFields config hash number baseFee txs receipts)
  | _, _ => Ret None
  end.
End receipts.

(** ** Lemmas: blooms *)

Section bloom_lemmas.
Context {K : Keccak}.

Lemma byte_val_and a b : byte_val (byte_and a b) = Z.land (byte_val a) (byte_val b).
Proof.
  unfold byte_and. pose proof (byte_val_range a). pose proof (byte_val_range b).
  rewrite byte_val_of_Z. change 256 with (2 ^ 8). rewrite <- Z.land_ones, <- Z.land_assoc by lia. f_equal.
  rewrite Z.land_ones by lia. apply Z.mod_small. lia.
Qed.

Lemma byte_val_or a b : byte_val (byte_or a b) = Z.lor (byte_val a) (byte_val b).
Proof.
  unfold byte_or. pose proof (byte_val_range a). pose proof (byte_val_range b).
  rewrite byte_val_of_Z. change 256 with (2 ^ 8). rewrite <- Z.land_ones, Z.land_lor_distr_l, !Z.land_ones by lia.
  rewrite !Z.mod_small by lia. done.
Qed.

(** The bits of [v] are set in [x]. *)
Definition bits_in (v x : byte) : Prop := byte_and v x = v.

Lemma bits_in_or_l v x y : bits_in v x -> bits_in v (byte_or x y).
Proof.
  unfold bits_in. intros H. apply byte_val_inj. apply (f_equal byte_val) in H.
  rewrite byte_val_and in H. rewrite byte_val_and, byte_val_or, Z.land_lor_distr_r, H.
  apply Z.bits_inj'. intros n _. rewrite Z.lor_spec, Z.land_spec. by destruct (Z.testbit (byte_val v) n).
Qed.

Lemma bits_in_or_r v x : bits_in v (byte_or x v).
Proof.
  unfold bits_in. apply byte_val_inj. rewrite byte_val_and, byte_val_or.
  apply Z.bits_inj'. intros n _. rewrite Z.land_spec, Z.lor_spec. by destruct (Z.testbit (byte_val v) n), (Z.testbit (byte_val x) n).
Qed.

(** A filter with at least the bits of another. *)
Definition bloom_le (b b' : Bloom) : Prop :=
  length b' = length b /\ forall i x, b !! i = Some x -> exists y, b' !! i = Some y /\ forall v, bits_in v x -> bits_in v y.

#[export] Instance bloom_le_preorder : PreOrder bloom_le.
Proof.
  split.
  - intros b. split; [done|]. intros i x Hx. by exists x.
  - intros b1 b2 b3 [L1 H1] [L2 H2]. split; [congruence|]. intros i x Hx.
    destruct (H1 i x Hx) as (y & Hy & Hxy), (H2 i y Hy) as (z & Hz & Hyz). exists z. auto.
Qed.

Definition bloom_wf (b : Bloom) : Prop := length b = 256%nat.

(** A pair of the filter. *)
Definition has_pair (b : Bloom) (p : Z * byte) : Prop := exists x, b !! Z.to_nat p.1 = Some x /\ bits_in p.2 x.

Lemma bloom_value_range hashbuf i : 0 <= (bloom_value hashbuf i).1 < 256.
Proof.
  unfold bloom_value, BloomByteLength. cbn [fst]. set (w := _ * 256 + _).
  change 0x7ff with (Z.ones 11). rewrite Z.land_ones, Z.shiftr_div_pow2 by lia.
  pose proof (Z.mod_pos_bound w (2 ^ 11) ltac:(lia)). change (2 ^ 11) with 2048 in *. change (2 ^ 3) with 8.
  pose proof (Z.div_pos (w mod 2048) 8 ltac:(lia) ltac:(lia)).
  pose proof (Z.div_lt_upper_bound (w mod 2048) 8 256 ltac:(lia) ltac:(lia)). lia.
Qed.

Lemma bloomValues_range data p : p ∈ bloomValues data -> 0 <= p.1 < 256.
Proof. unfold bloomValues. intros [->|[->|[->|Hp%elem_of_nil]%elem_of_cons]%elem_of_cons]%elem_of_cons; [apply bloom_value_range..|done]. Qed.

Lemma bits_or_le b i v : bloom_wf b -> 0 <= i < 256 ->
  exists b', bits_or b i v = Ret b' /\ bloom_le b b' /\ has_pair b' (i, v).
Proof.
  intros Hb Hi. assert (zlen b = 256) as Hl by (unfold zlen; by rewrite Hb). unfold bits_or.
  destruct (go_index_ok b i) as (x & -> & Hx); [lia|]. rewrite go_update_ok by lia. eexists. split; [done|].
  assert (Z.to_nat i < length b)%nat as Hn by (rewrite Hb; lia). split; [split; [apply length_insert|]|].
  - intros j y Hy. destruct (decide (j = Z.to_nat i)) as [->|Hj].
    + exists (byte_or x v). rewrite list_lookup_insert_eq by done. split; [done|].
      assert (y = x) as -> by congruence. intros w. apply bits_in_or_l.
    + exists y. by rewrite list_lookup_insert_ne by done.
  - exists (byte_or x v). cbn. rewrite list_lookup_insert_eq by done. split; [done|apply bits_in_or_r].
Qed.

Lemma bloom_le_wf b b' : bloom_le b b' -> bloom_wf b -> bloom_wf b'.
Proof. intros [H _] Hb. unfold bloom_wf in *. congruence. Qed.

Lemma has_pair_le b b' p : bloom_le b b' -> has_pair b p -> has_pair b' p.
Proof. intros [_ H] (x & Hx & Hv). destruct (H _ _ Hx) as (y & Hy & Hxy). exists y. auto. Qed.

Lemma bloom_or_le vs b : bloom_wf b -> (forall p, p ∈ vs -> 0 <= p.1 < 256) ->
  exists b', bloom_or vs b = Ret b' /\ bloom_le b b' /\ forall p, p ∈ vs -> has_pair b' p.
Proof.
  revert b. induction vs as [|[i v] vs IH]; intros b Hb Hr; cbn [bloom_or].
  { exists b. split_and!; [done|reflexivity|]. by intros p ?%elem_of_nil. }
  destruct (bits_or_le b i v Hb) as (b1 & -> & H1 & Hp); [apply (Hr (i, v)); by left|]. cbn [res_bind].
  destruct (IH b1) as (b2 & -> & H2 & Hps); [by eapply bloom_le_wf|intros p Hin; apply Hr; by right|].
  exists b2. split_and!; [done|by etrans|]. intros p [->|Hin]%elem_of_cons; [by eapply has_pair_le|by apply Hps].
Qed.

Definition has_data (b : Bloom) (d : list byte) : Prop := forall p, p ∈ bloomValues d -> has_pair b p.

Lemma has_data_le b b' d : bloom_le b b' -> has_data b d -> has_data b' d.
Proof. intros H Hd p Hp. by eapply has_pair_le, Hd. Qed.

Lemma bloom_add_le d b : bloom_wf b -> exists b', bloom_add d b = Ret b' /\ bloom_le b b' /\ has_data b' d.
Proof. intros Hb. apply bloom_or_le; [done|apply bloomValues_range]. Qed.

Lemma bloom_Test_true b d : bloom_wf b -> has_data b d -> bloom_Test b d = Ret true.
Proof.
  intros Hb Hd. unfold bloom_Test. pose proof (bloomValues_range d) as Hr. unfold has_data in Hd.
  assert (zlen b = 256) as Hl by (unfold zlen; by rewrite Hb).
  revert Hd Hr. generalize (bloomValues d). intros vs. induction vs as [|[i v] vs IH]; intros Hd Hr; [done|]. cbn [bloom_has].
  destruct (Hd (i, v)) as (x & Hx & Hv); [by left|]. cbn in Hx, Hv.
  destruct (go_index_ok b i) as (y & -> & Hy); [pose proof (Hr (i, v) ltac:(by left)); cbn in *; lia|].
  cbn [res_bind]. assert (y = x) as -> by congruence. rewrite Hv.
  rewrite Byte.byte_dec_lb by done.
  apply IH; intros p Hp; [apply Hd|apply Hr]; by right.
Qed.

(** The log has been added. *)
Definition has_log (b : Bloom) (l : RLog) : Prop :=
  has_data b (address_bytes (log_Address (rl_Log l))) /\ forall t, t ∈ log_Topics (rl_Log l) -> has_data b (hash_bytes t).

Lemma has_log_le b b' l : bloom_le b b' -> has_log b l -> has_log b' l.
Proof. intros H [Ha Ht]. split; [by eapply has_data_le|]. intros t Hin. by eapply has_data_le, Ht. Qed.

Lemma add_topics_le topics b : bloom_wf b ->
  exists b', add_topics topics b = Ret b' /\ bloom_le b b' /\ forall t, t ∈ topics -> has_data b' (hash_bytes t).
Proof.
  revert b. induction topics as [|t topics IH]; intros b Hb; cbn [add_topics].
  { exists b. split_and!; [done|reflexivity|]. by intros t ?%elem_of_nil. }
  destruct (bloom_add_le (hash_bytes t) b Hb) as (b1 & -> & H1 & Ht). cbn [res_bind].
  destruct (IH b1) as (b2 & -> & H2 & Hts); [by eapply bloom_le_wf|]. exists b2. split_and!; [done|by etrans|].
  intros t' [->|Hin]%elem_of_cons; [by eapply has_data_le|by apply Hts].
Qed.

Lemma add_logs_le ls b : bloom_wf b ->
  exists b', add_logs ls b = Ret b' /\ bloom_le b b' /\ forall l, l ∈ ls -> has_log b' l.
Proof.
  revert b. induction ls as [|l ls IH]; intros b Hb; cbn [add_logs].
  { exists b. split_and!; [done|reflexivity|]. by intros l ?%elem_of_nil. }
  destruct (bloom_add_le (address_bytes (log_Address (rl_Log l))) b Hb) as (b1 & -> & H1 & Ha). cbn [res_bind].
  destruct (add_topics_le (log_Topics (rl_Log l)) b1) as (b2 & -> & H2 & Ht); [by eapply bloom_le_wf|]. cbn [res_bind].
  destruct (IH b2) as (b3 & -> & H3 & Hls); [by eapply bloom_le_wf, bloom_le_wf|].
  exists b3. split_and!; [done|by etrans; [|etrans]|].
  intros l' [->|Hin]%elem_of_cons; [|by apply Hls]. split; [by eapply has_data_le, has_data_le|].
  intros t Hin. by eapply has_data_le, Ht.
Qed.
End bloom_lemmas.

(** ** Lemmas: storing receipts *)

Section receipt_lemmas.
Context {K : Keccak} {C : Secp256k1}.

Lemma add_receipts_le rs b : bloom_wf b ->
  exists b', add_receipts rs b = Ret b' /\ bloom_le b b' /\ forall r l, r ∈ rs -> l ∈ rc_Logs r -> has_log b' l.
Proof.
  revert b. induction rs as [|r rs IH]; intros b Hb; cbn [add_receipts].
  { exists b. split_and!; [done|reflexivity|]. by intros r l ?%elem_of_nil. }
  destruct (add_logs_le (rc_Logs r) b Hb) as (b1 & -> & H1 & Hl). cbn [res_bind].
  destruct (IH b1) as (b2 & -> & H2 & Hls); [by eapply bloom_le_wf|]. exists b2. split_and!; [done|by etrans|].
  intros r' l [->|Hin]%elem_of_cons Hin2; [by eapply has_log_le, Hl|by eapply Hls].
Qed.

Lemma CreateBloom_ok rs : exists b, CreateBloom rs = Ret b /\ bloom_wf b /\
  forall r l, r ∈ rs -> l ∈ rc_Logs r -> has_log b l.
Proof.
  destruct (add_receipts_le rs empty_bloom eq_refl) as (b & Hb & Hle & H). exists b. split_and!; try done.
  by apply (bloom_le_wf _ _ Hle).
Qed.

Lemma add_logs_strip ls b : add_logs (map strip_log ls) b = add_logs ls b.
Proof.
  revert b. induction ls as [|l ls IH]; intros b; [done|]. cbn [map add_logs].
  change (log_Address (rl_Log (strip_log l))) with (log_Address (rl_Log l)).
  change (log_Topics (rl_Log (strip_log l))) with (log_Topics (rl_Log l)).
  destruct (bloom_add _ b) as [b1| |]; [|done..]. cbn [res_bind].
  destruct (add_topics _ b1) as [b2| |]; [|done..]. apply IH.
Qed.

(** What comes back from the database: the consensus fields. *)
Definition strip (r : Receipt) : Receipt :=
  mkReceipt 0 (rc_PostState r) (rc_Status r) (rc_CumulativeGasUsed r) (rc_Bloom r) (map strip_log (rc_Logs r))
    0 0 0 None 0 None 0.

Record receipt_wf (r : Receipt) : Prop := {
  rw_state : (rc_PostState r = [] /\ (rc_Status r = 0 \/ rc_Status r = 1)) \/ (zlen (rc_PostState r) = 32 /\ rc_Status r = 0);
  rw_bloom : CreateBloom [r] = Ret (rc_Bloom r)
}.

(** Addresses, topics and gas as wide as their types. *)
Definition log_ok (l : RLog) : Prop :=
  0 <= log_Address (rl_Log l) < 2 ^ 160 /\ Forall (fun t => 0 <= t < 2 ^ 256) (log_Topics (rl_Log l)).

Lemma topic_consumes t : 0 <= t < 2 ^ 256 -> consumes decodeHash (writeBytes (hash_bytes t)) t.
Proof.
  intros Ht. eapply exact_consumes; [exact decodeHash_exact|apply reads_string_functional|]. intros l. by apply reads_hash_iff.
Qed.

Lemma string_bytes_nonempty b : writeBytes b <> [].
Proof. exact (encode_item_nonempty (Str b)). Qed.

Lemma Log_consumes l : log_ok l -> consumes Log_DecodeRLP (Log_EncodeRLP (rl_Log l)) (strip_log l).
Proof.
  intros [Ha Ht]. unfold Log_DecodeRLP, Log_EncodeRLP, log_item. cbn [encode_item map concat]. apply struct_consumes.
  rewrite map_map. apply finishes_field with (a := log_Address (rl_Log l)).
  { eapply exact_consumes; [exact decodeAddress_exact|apply reads_string_functional|]. intros l'. by apply reads_address_iff. }
  apply finishes_field with (a := log_Topics (rl_Log l)).
  { apply (ListSlice_consumes decodeHash (fun t => writeBytes (hash_bytes t))).
    - eapply exact_stops. exact decodeHash_exact.
    - intros t. apply string_bytes_nonempty.
    - eapply list.Forall_impl; [exact Ht|]. apply topic_consumes. }
  apply finishes_field with (a := log_Data (rl_Log l)); [|apply finishes_ret].
  eapply exact_consumes; [exact Bytes_exact|apply reads_string_functional|]. intros l'. by apply reads_bytes_iff.
Qed.

Lemma stored_consumes r : Forall log_ok (rc_Logs r) -> is_u64 (rc_CumulativeGasUsed r) ->
  consumes decode_storedReceiptRLP (ReceiptForStorage_EncodeRLP r)
    (mkStored (statusEncoding r) (rc_CumulativeGasUsed r) (map (fun l => strip_log l) (rc_Logs r))).
Proof.
  intros Hls Hgas. unfold ReceiptForStorage_EncodeRLP, stored_item. cbn [encode_item map concat]. apply struct_consumes.
  apply finishes_field with (a := statusEncoding r).
  { eapply exact_consumes; [exact Bytes_exact|apply reads_string_functional|]. intros l'. by apply reads_bytes_iff. }
  apply finishes_field with (a := rc_CumulativeGasUsed r).
  { eapply exact_consumes; [exact Uint64_exact|apply reads_string_functional|]. intros l'. apply reads_uint_iff.
    by rewrite writeUint64_item. }
  rewrite map_map. apply finishes_field with (a := map (fun l => strip_log l) (rc_Logs r)); [|apply finishes_ret].
  replace (map (fun l => encode_item (log_item (rl_Log l))) (rc_Logs r))
    with (map (fun l => Log_EncodeRLP (rl_Log l)) (map (fun l => strip_log l) (rc_Logs r))) by by rewrite map_map.
  apply (ListSlice_consumes Log_DecodeRLP (fun l => Log_EncodeRLP (rl_Log l))).
  - apply struct_stops.
  - intros l. apply encode_item_nonempty.
  - apply list.Forall_forall. intros l' (l & -> & Hl)%list_elem_of_fmap. apply (Log_consumes l).
    by apply (proj1 (list.Forall_forall _ _) Hls).
Qed.

Lemma setStatus_encoded r : receipt_wf r ->
  setStatus (statusEncoding r) new_receipt = Some (set_poststate (rc_PostState r) (set_status (rc_Status r) new_receipt)).
Proof.
  intros [Hs _]. unfold statusEncoding, setStatus. destruct Hs as [[-> [->| ->]]|[Hl ->]]; [done..|].
  rewrite Hl. change (32 =? 0) with false. cbv iota.
  assert (rc_PostState r <> receiptStatusSuccessfulRLP /\ rc_PostState r <> receiptStatusFailedRLP) as [H1 H2]
    by (split; intros E; by rewrite E in Hl).
  rewrite !bool_decide_eq_false_2, Hl by done. done.
Qed.

(** What is decoded of a receipt is what was encoded of it. *)
Lemma receipt_consumes r : receipt_wf r -> Forall log_ok (rc_Logs r) -> is_u64 (rc_CumulativeGasUsed r) ->
  consumes ReceiptForStorage_DecodeRLP (ReceiptForStorage_EncodeRLP r) (strip r).
Proof.
  intros Hwf Hls Hgas f l tail s Hat. unfold ReceiptForStorage_DecodeRLP. apply run_bind.
  eapply run_mono; [by apply stored_consumes|]. intros r' s' [-> Hat']. cbn [st_PostStateOrStatus st_CumulativeGasUsed st_Logs].
  rewrite setStatus_encoded by done. destruct Hwf as [_ Hb].
  apply wp_gbind, (wp_gpure _ (rc_Bloom r)); [|by run_step].
  unfold CreateBloom in *. cbn [add_receipts set_consensus rc_Logs] in *. by rewrite add_logs_strip.
Qed.

Lemma strip_encoding r : ReceiptForStorage_EncodeRLP (strip r) = ReceiptForStorage_EncodeRLP r.
Proof.
  unfold ReceiptForStorage_EncodeRLP, stored_item. cbn [strip rc_Logs rc_CumulativeGasUsed]. rewrite map_map. reflexivity.
Qed.

Lemma receipts_consumes rs :
  Forall receipt_wf rs -> Forall (fun r => Forall log_ok (rc_Logs r) /\ is_u64 (rc_CumulativeGasUsed r)) rs ->
  consumes (decodeListSlice ReceiptForStorage_DecodeRLP) (write_list (concat (map ReceiptForStorage_EncodeRLP rs))) (map strip rs).
Proof.
  intros Hwf Hok. replace (map ReceiptForStorage_EncodeRLP rs) with (map ReceiptForStorage_EncodeRLP (map strip rs)).
  2:{ rewrite map_map. apply map_ext. apply strip_encoding. }
  apply ListSlice_consumes.
  - apply stops_bind, struct_stops.
  - intros r. apply encode_item_nonempty.
  - apply list.Forall_forall. intros r' (r & -> & Hr)%list_elem_of_fmap.
    pose proof (proj1 (list.Forall_forall _ _) Hwf r Hr). destruct (proj1 (list.Forall_forall _ _) Hok r Hr).
    rewrite strip_encoding. by apply receipt_consumes.
Qed.
End receipt_lemmas.

(** ** Theorems *)

(** A bloom has no false negatives: creating it does not panic, and the address and
    every topic of every log of the receipts test positive. *)
Theorem CreateBloom_complete {K : Keccak} rs :
  exists b, CreateBloom rs = Ret b /\ length b = 256%nat /\
    forall r l, r ∈ rs -> l ∈ rc_Logs r ->
      bloom_Test b (address_bytes (log_Address (rl_Log l))) = Ret true /\
      forall t, t ∈ log_Topics (rl_Log l) -> bloom_Test b (hash_bytes t) = Ret true.
Proof.
  destruct (CreateBloom_ok rs) as (b & Hb & Hw & H). exists b. split; [done|]. split; [done|].
  intros r l Hr Hl. destruct (H r l Hr Hl) as [Ha Ht]. split; [by apply bloom_Test_true|].
  intros t Hin. apply bloom_Test_true; auto.
Qed.
