(* ===== verification/Misc.v ===== *)
(** * Header rules shared by the engines (client/consensus/misc, client/params/dao.go)

    The gas limit and base fee rules, the extra data and the state change of the
    DAO fork, and the price of blob gas. *)

From Stdlib Require Import Strings.Byte.
From S2P Require Import Prelude.
From S2P Require Import Common.
From S2P Require Import Params.
From S2P Require Import Rlp.
From S2P Require Import Crypto.
From S2P Require Import Header.
From S2P Require Import StateObject.
From S2P Require Import StateInterface.
From S2P Require Import StateStore.
From S2P Require Import StateSpec.
From S2P Require Import StateSafe.
From S2P Require Import StateTheorems.
From S2P Require Import StateSupply.
From S2P Require Import Transaction.

(** ** The DAO fork (client/params/dao.go) *)

(** "dao-hard-fork". *)
Definition DAOForkBlockExtra : list byte := be_bytes 13 0x64616f2d686172642d666f726b.
Definition DAOForkExtraRange : Z := 10.
Definition DAORefundContract : Address := 0xbf4ed7b27f1d666546e30d74d50d173d20bca754.

Definition DAODrainList : list Address :=
  [0xd4fe7bc31cedb7bfb8a345f31e668033056b2728; 0xb3fb0e5aba0e20e5c49d252dfd30e102b171a425;
   0x2c19c7f9ae8b751e37aeb2d93a699722395ae18f; 0xecd135fa4f61a655311e86238c92adcd779555d2;
   0x1975bd06d486162d5dc297798dfc41edd5d160a7; 0xa3acf3a1e16b1d7c315e23510fdd7847b48234f6;
   0x319f70bab6845585f412ec7724b744fec6095c85; 0x06706dd3f2c9abf0a21ddcc6941d9b86f0596936;
   0x5c8536898fbb74fc7445814902fd08422eac56d0; 0x6966ab0d485353095148a2155858910e0965b6f9;
   0x779543a0491a837ca36ce8c635d6154e3c4911a6; 0x2a5ed960395e2a49b1c758cef4aa15213cfd874c;
   0x5c6e67ccd5849c0d29219c4f95f1a7a93b3f5dc5; 0x9c50426be05db97f5d64fc54bf89eff947f0a321;
   0x200450f06520bdd6c527622a273333384d870efb; 0xbe8539bfe837b67d1282b2b1d61c3f723966f049;
   0x6b0c4d41ba9ab8d8cfb5d379c69a612f2ced8ecb; 0xf1385fb24aad0cd7432824085e42aff90886fef5;
   0xd1ac8b1ef1b69ff51d1d401a476e7e612414f091; 0x8163e7fb499e90f8544ea62bbf80d21cd26d9efd;
   0x51e0ddd9998364a2eb38588679f0d2c42653e4a6; 0x627a0a960c079c21c34f7612d5d230e01b4ad4c7;
   0xf0b1aa0eb660754448a7937c022e30aa692fe0c5; 0x24c4d950dfd4dd1902bbed3508144a54542bba94;
   0x9f27daea7aca0aa0446220b98d028715e3bc803d; 0xa5dc5acd6a7968a4554d89d65e59b7fd3bff0f90;
   0xd9aef3a1e38a39c16b31d1ace71bca8ef58d315b; 0x63ed5a272de2f6d968408b4acb9024f4cc208ebf;
   0x6f6704e5a10332af6672e50b3d9754dc460dfa4d; 0x77ca7b50b6cd7e2f3fa008e24ab793fd56cb15f6;
   0x492ea3bb0f3315521c31f273e565b868fc090f17; 0x0ff30d6de14a8224aa97b78aea5388d1c51c1f00;
   0x9ea779f907f0b315b364b0cfc39a0fde5b02a416; 0xceaeb481747ca6c540a000c1f3641f8cef161fa7;
   0xcc34673c6c40e791051898567a1222daf90be287; 0x579a80d909f346fbfb1189493f521d7f48d52238;
   0xe308bd1ac5fda103967359b2712dd89deffb7973; 0x4cb31628079fb14e4bc3cd5e30c2f7489b00960c;
   0xac1ecab32727358dba8962a0f3b261731aad9723; 0x4fd6ace747f06ece9c49699c7cabc62d02211f75;
   0x440c59b325d2997a134c2c7c60a8c61611212bad; 0x4486a3d68fac6967006d7a517b889fd3f98c102b;
   0x9c15b54878ba618f494b38f0ae7443db6af648ba; 0x27b137a85656544b1ccb5a0f2e561a5703c6a68f;
   0x21c7fdb9ed8d291d79ffd82eb2c4356ec0d81241; 0x23b75c2f6791eef49c69684db4c6c1f93bf49a50;
   0x1ca6abd14d30affe533b24d7a21bff4c2d5e1f3b; 0xb9637156d330c0d605a791f1c31ba5890582fe1c;
   0x6131c42fa982e56929107413a9d526fd99405560; 0x1591fc0f688c81fbeb17f5426a162a7024d430c2;
   0x542a9515200d14b68e934e9830d91645a980dd7a; 0xc4bbd073882dd2add2424cf47d35213405b01324;
   0x782495b7b3355efb2833d56ecb34dc22ad7dfcc4; 0x58b95c9a9d5d26825e70a82b6adb139d3fd829eb;
   0x3ba4d81db016dc2890c81f3acec2454bff5aada5; 0xb52042c8ca3f8aa246fa79c3feaa3d959347c0ab;
   0xe4ae1efdfc53b73893af49113d8694a057b9c0d1; 0x3c02a7bc0391e86d91b7d144e61c2c01a25a79c5;
   0x0737a6b837f97f46ebade41b9bc3e1c509c85c53; 0x97f43a37f595ab5dd318fb46e7a155eae057317a;
   0x52c5317c848ba20c7504cb2c8052abd1fde29d03; 0x4863226780fe7c0356454236d3b1c8792785748d;
   0x5d2b2e6fcbe3b11d26b525e085ff818dae332479; 0x5f9f3392e9f62f63b8eac0beb55541fc8627f42c;
   0x057b56736d32b86616a10f619859c6cd6f59092a; 0x9aa008f65de0b923a2a4f02012ad034a5e2e2192;
   0x304a554a310c7e546dfe434669c62820b7d83490; 0x914d1b8b43e92723e64fd0a06f5bdb8dd9b10c79;
   0x4deb0033bb26bc534b197e61d19e0733e5679784; 0x07f5c1e1bc2c93e0402f23341973a0e043f7bf8a;
   0x35a051a0010aba705c9008d7a7eff6fb88f6ea7b; 0x4fa802324e929786dbda3b8820dc7834e9134a2a;
   0x9da397b9e80755301a3b32173283a91c0ef6c87e; 0x8d9edb3054ce5c5774a420ac37ebae0ac02343c6;
   0x0101f3be8ebb4bbd39a2e3b9a3639d4259832fd9; 0x5dc28b15dffed94048d73806ce4b7a4612a1d48f;
   0xbcf899e6c7d9d5a215ab1e3444c86806fa854c76; 0x12e626b0eebfe86a56d633b9864e389b45dcb260;
   0xa2f1ccba9395d7fcb155bba8bc92db9bafaeade7; 0xec8e57756626fdc07c63ad2eafbd28d08e7b0ca5;
   0xd164b088bd9108b60d0ca3751da4bceb207b0782; 0x6231b6d0d5e77fe001c2a460bd9584fee60d409b;
   0x1cba23d343a983e9b5cfd19496b9a9701ada385f; 0xa82f360a8d3455c5c41366975bde739c37bfeb8a;
   0x9fcd2deaff372a39cc679d5c5e4de7bafb0b1339; 0x005f5cee7a43331d5a3d3eec71305925a62f34b6;
   0x0e0da70933f4c7849fc0d203f5d1d43b9ae4532d; 0xd131637d5275fd1a68a3200f4ad25c71a2a9522e;
   0xbc07118b9ac290e4622f5e77a0853539789effbe; 0x47e7aa56d6bdf3f36be34619660de61275420af8;
   0xacd87e28b0c9d1254e868b81cba4cc20d9a32225; 0xadf80daec7ba8dcf15392f1ac611fff65d94f880;
   0x5524c55fb03cf21f549444ccbecb664d0acad706; 0x40b803a9abce16f50f36a77ba41180eb90023925;
   0xfe24cdd8648121a43a7c86d289be4dd2951ed49f; 0x17802f43a0137c506ba92291391a8a8f207f487d;
   0x253488078a4edf4d6f42f113d1e62836a942cf1a; 0x86af3e9626fce1957c82e88cbf04ddf3a2ed7915;
   0xb136707642a4ea12fb4bae820f03d2562ebff487; 0xdbe9b615a3ae8709af8b93336ce9b477e4ac0940;
   0xf14c14075d6c4ed84b86798af0956deef67365b5; 0xca544e5c4687d109611d0f8f928b53a25af72448;
   0xaeeb8ff27288bdabc0fa5ebb731b6f409507516c; 0xcbb9d3703e651b0d496cdefb8b92c25aeb2171f7;
   0x6d87578288b6cb5549d5076a207456a1f6a63dc0; 0xb2c6f0dfbb716ac562e2d85d6cb2f8d5ee87603e;
   0xaccc230e8a6e5be9160b8cdf2864dd2a001c28b6; 0x2b3455ec7fedf16e646268bf88846bd7a2319bb2;
   0x4613f3bca5c44ea06337a9e439fbc6d42e501d0a; 0xd343b217de44030afaa275f54d31a9317c7f441e;
   0x84ef4b2357079cd7a7c69fd7a37cd0609a679106; 0xda2fef9e4a3230988ff17df2165440f37e8b1708;
   0xf4c64518ea10f995918a454158c6b61407ea345c; 0x7602b46df5390e432ef1c307d4f2c9ff6d65cc97;
   0xbb9bc244d798123fde783fcc1c72d3bb8c189413; 0x807640a13483f8ac783c557fcdf27be11ea4ac7a].

(** ** Header rules *)

Inductive error : Type :=
| InvalidGasLimit
| GasLimitBelowMinimum
| MissingBaseFee
| InvalidBaseFee
| ErrBadProDAOExtra
| ErrBadNoDAOExtra.

(** [VerifyGaslimit]: the difference is taken on signed integers. *)
Definition VerifyGaslimit (parentGasLimit headerGasLimit : Z) : option error :=
  let diff := i64 (i64 parentGasLimit - i64 headerGasLimit) in
  let diff := if diff <? 0 then i64 (diff * -1) else diff in
  let limit := parentGasLimit / GasLimitBoundDivisor in
  if u64 diff >=? limit then Some InvalidGasLimit
  else if headerGasLimit <? MinGasLimit then Some GasLimitBelowMinimum
  else None.

(** [big.Int.Div]: Euclidean, and a panic on zero. *)
Definition big_Div (x y : Z) : Res Z :=
  if y =? 0 then Panic PanicDivide else Ret (Z.sgn y * (x / Z.abs y)).

Definition big_nonnil (x : option Z) : Res Z :=
  match x with Some x => Ret x | None => Panic PanicNil end.

(** [CalcBaseFee]: a parent without a base fee is a nil dereference, a target of
    zero a division by zero. *)
Definition CalcBaseFee (config : ChainConfig) (parent : Header) : Res Z :=
  if negb (IsLondon config (hdr_Number parent)) then Ret InitialBaseFee
  else
    let parentGasTarget := hdr_GasLimit parent / ElasticityMultiplier config in
    if hdr_GasUsed parent =? parentGasTarget then big_nonnil (hdr_BaseFee parent)
    else if hdr_GasUsed parent >? parentGasTarget then
      let? base := big_nonnil (hdr_BaseFee parent) in
      let? num := big_Div (u64 (hdr_GasUsed parent - parentGasTarget) * base) parentGasTarget in
      let? num := big_Div num (BaseFeeChangeDenominator config) in
      Ret (base + BigMax num 1)
    else
      let? base := big_nonnil (hdr_BaseFee parent) in
      let? num := big_Div (u64 (parentGasTarget - hdr_GasUsed parent) * base) parentGasTarget in
      let? num := big_Div num (BaseFeeChangeDenominator config) in
      Ret (BigMax (base - num) 0).

Definition VerifyEip1559Header (config : ChainConfig) (parent header : Header) : Res (option error) :=
  let parentGasLimit :=
    if negb (IsLondon config (hdr_Number parent)) then u64 (hdr_GasLimit parent * ElasticityMultiplier config)
    else hdr_GasLimit parent in
  match VerifyGaslimit parentGasLimit (hdr_GasLimit header) with
  | Some err => Ret (Some err)
  | None =>
      match hdr_BaseFee header with
      | None => Ret (Some MissingBaseFee)
      | Some b =>
          let? expectedBaseFee := CalcBaseFee config parent in
          Ret (if negb (b =? expectedBaseFee) then Some InvalidBaseFee else None)
      end
  end.

Definition VerifyDAOHeaderExtraData (config : ChainConfig) (header : Header) : option error :=
  match DAOForkBlock config with
  | None => None
  | Some fork =>
      let limit := fork + DAOForkExtraRange in
      if (hdr_Number header <? fork) || (hdr_Number header >=? limit) then None
      else if DAOForkSupport config then
        if negb (bool_decide (hdr_Extra header = DAOForkBlockExtra)) then Some ErrBadProDAOExtra else None
      else
        if bool_decide (hdr_Extra header = DAOForkBlockExtra) then Some ErrBadNoDAOExtra else None
  end.

(** ** Blob gas *)

(** The loop of [fakeExponential]; [denominator] is positive. *)
Fixpoint fakeExponential_loop (fuel : nat) (numerator denominator i output accum : Z) : Res Z :=
  match fuel with
  | O => NoFuel
  | Datatypes.S fuel =>
      if accum >? 0 then
        let output := output + accum in
        let accum := accum * numerator in
        let? accum := big_Div accum denominator in
        let? accum := big_Div accum i in
        fakeExponential_loop fuel numerator denominator (i + 1) output accum
      else big_Div output denominator
  end.

Definition fakeExponential (fuel : nat) (factor numerator denominator : Z) : Res Z :=
  fakeExponential_loop fuel numerator denominator 1 0 (factor * denominator).

Definition CalcBlobFee (fuel : nat) (excessDataGas : option Z) : Res Z :=
  match excessDataGas with
  | None => Ret BlobTxMinDataGasprice
  | Some excess => fakeExponential fuel BlobTxMinDataGasprice excess BlobTxDataGaspriceUpdateFraction
  end.

(** ** The state change of the DAO fork *)

Section dao.
Context {B : Database} {K : Keccak}.

Fixpoint drain (addrs : list Address) : GM state unit :=
  match addrs with
  | [] => gret tt
  | addr :: addrs =>
      let* balance := sdb_GetBalance addr in
      sdb_AddBalance DAORefundContract balance ;;;
      sdb_SetBalance addr 0 ;;;
      drain addrs
  end.

Definition ApplyDAOHardFork : GM state unit :=
  let* exists_ := sdb_Exist DAORefundContract in
  (if negb exists_ then sdb_CreateAccount DAORefundContract else gret tt) ;;;
  drain DAODrainList.
End dao.

(** ** Lemmas: the gas limit *)

Lemma i64_congr x y : x mod two64 = y mod two64 -> i64 x = i64 y.
Proof. intros H. unfold i64. by rewrite Zplus_mod, H, <- Zplus_mod. Qed.

Lemma i64_mod x : i64 x mod two64 = x mod two64.
Proof. unfold i64. rewrite Zminus_mod_idemp_l. f_equal. lia. Qed.

(** Distances on the circle of 64-bit integers. *)
Definition distance (p h : Z) : Z := Z.min (u64 (p - h)) (u64 (h - p)).

Lemma mod_cases z : - two64 < z < two64 -> z mod two64 = if z <? 0 then z + two64 else z.
Proof.
  intros Hz. case_match; zbool; [symmetry; apply (Z.mod_unique _ _ (-1)); lia|apply Z.mod_small; lia].
Qed.

Lemma signed_distance p h : is_u64 p -> is_u64 h ->
  u64 (let diff := i64 (i64 p - i64 h) in if diff <? 0 then i64 (diff * -1) else diff) = distance p h.
Proof.
  unfold is_u64. intros Hp Hh. cbv zeta.
  assert (i64 (i64 p - i64 h) = i64 (p - h)) as ->.
  { apply i64_congr. by rewrite Zminus_mod, !i64_mod, <- Zminus_mod. }
  unfold distance, u64, i64. rewrite (mod_cases (p - h)), (mod_cases (h - p)) by (unfold two64 in *; lia).
  assert (Z.abs (p - h) < two64) as Hd by lia. set (d := p - h) in *. replace (h - p) with (- d) by lia. clearbody d. clear p h Hp Hh.
  assert (((d + 2 ^ 63) mod two64) = if d + 2 ^ 63 <? 0 then d + 2 ^ 63 + two64 else if d + 2 ^ 63 <? two64 then d + 2 ^ 63 else d + 2 ^ 63 - two64) as ->.
  { unfold two64 in *. repeat case_match; zbool; symmetry; [apply (Z.mod_unique _ _ (-1))|apply (Z.mod_unique _ _ 0)|apply (Z.mod_unique _ _ 1)]; lia. }
  unfold two64 in *.
  destruct (d + 2 ^ 63 <? 0) eqn:E1; zbool.
  - rewrite (proj2 (Z.ltb_ge _ 0)) by lia. rewrite (proj2 (Z.ltb_lt d 0)) by lia. rewrite (proj2 (Z.ltb_ge (- d) 0)) by lia.
    rewrite Z.mod_small by lia. lia.
  - destruct (d + 2 ^ 63 <? 2 ^ 64) eqn:E2; zbool.
    + replace (d + 2 ^ 63 - 2 ^ 63) with d by lia. destruct (d <? 0) eqn:E3; zbool.
      * rewrite (proj2 (Z.ltb_ge (- d) 0)) by lia. replace (d * -1) with (- d) by lia.
        destruct (Z.eq_dec d (- 2 ^ 63)) as [->|]; [done|]. rewrite (Z.mod_small (- d + 2 ^ 63)) by lia.
        rewrite Z.mod_small by lia. lia.
      * rewrite Z.mod_small by lia. destruct (- d <? 0) eqn:E4; zbool; lia.
    + rewrite (proj2 (Z.ltb_lt _ 0)) by lia. rewrite (proj2 (Z.ltb_ge d 0)) by lia. rewrite (proj2 (Z.ltb_lt (- d) 0)) by lia.
      destruct (Z.eq_dec d (2 ^ 63)) as [->|]; [done|].
      rewrite (Z.mod_small (_ * -1 + _)) by lia. rewrite Z.mod_small by lia. lia.
Qed.

Lemma VerifyGaslimit_spec p h : is_u64 p -> is_u64 h ->
  VerifyGaslimit p h = None <-> distance p h < p / 1024 /\ 5000 <= h.
Proof.
  intros Hp Hh. pose proof (signed_distance p h Hp Hh) as Hd. cbv zeta in Hd.
  unfold VerifyGaslimit. rewrite Hd. change GasLimitBoundDivisor with 1024. change MinGasLimit with 5000.
  destruct (_ >=? _) eqn:E1; zbool; [split; [done|lia]|]. destruct (h <? 5000) eqn:E2; zbool; split; done || lia.
Qed.

Lemma distance_small p h : 0 <= p < 2 ^ 63 -> 0 <= h < 2 ^ 63 -> distance p h = Z.abs (p - h).
Proof.
  intros Hp Hh. unfold distance, u64. rewrite !mod_cases by (unfold two64; lia). unfold two64.
  repeat case_match; zbool; lia.
Qed.

(** ** Lemmas: the base fee *)

Lemma big_Div_pos x y : 0 < y -> big_Div x y = Ret (x / y).
Proof.
  intros Hy. unfold big_Div. rewrite (proj2 (Z.eqb_neq y 0)) by lia.
  rewrite Z.sgn_pos, Z.abs_eq by lia. f_equal. lia.
Qed.

(** An eighth of the base fee for the whole target, in proportion below it. *)
Lemma fee_step d t b : 0 <= d <= t -> 0 < t -> 0 <= b -> 0 <= d * b / t / 8 <= b / 8.
Proof.
  intros Hd Ht Hb. assert (0 <= d * b / t <= b).
  { split; [apply Z.div_pos; nia|apply Z.div_le_upper_bound; nia]. }
  split; [apply Z.div_pos; lia|by apply Z.div_le_mono; lia].
Qed.

(** ** Lemmas: the exponential *)

Lemma fakeExponential_step fuel n d i output accum : 0 < d -> 0 < i ->
  fakeExponential_loop (Datatypes.S fuel) n d i output accum =
    if accum >? 0 then fakeExponential_loop fuel n d (i + 1) (output + accum) (accum * n / d / i)
    else Ret (output / d).
Proof. intros Hd Hi. 
  cbn [fakeExponential_loop]. case_match; rewrite big_Div_pos by done; [|done]. cbn [res_bind].
  by rewrite big_Div_pos.
Qed.

(** Once the index is past twice the exponent the terms halve at least. *)
Lemma fakeExponential_tail n d : 0 <= n -> 0 < d ->
  forall fuel i output accum, 0 < i -> 2 * n <= d * i -> 0 <= accum < 2 ^ Z.of_nat fuel ->
  exists v, (forall fuel', (Datatypes.S fuel <= fuel')%nat ->
    fakeExponential_loop fuel' n d i output accum = Ret v) /\ (output + accum) / d <= v.
Proof.
  intros Hn Hd. induction fuel as [|fuel IH]; intros i output accum Hi Hbig Ha.
  - change (2 ^ Z.of_nat 0) with 1 in Ha. assert (accum = 0) as -> by lia. exists (output / d). split_and!; [|by rewrite Z.add_0_r].
    intros [|fuel'] Hf; [lia|]. by rewrite fakeExponential_step.
  - destruct (Z.eq_dec accum 0) as [->|].
    { exists (output / d). split_and!; [|by rewrite Z.add_0_r].
      intros [|fuel'] Hf; [lia|]. by rewrite fakeExponential_step. }
    assert (0 <= accum * n / d / i <= accum / 2) as [H1 H2].
    { rewrite Z.div_div by lia. split; [apply Z.div_pos; nia|].
      assert (accum * n / (d * i) * 2 <= accum); [|apply Z.div_le_lower_bound; lia].
      pose proof (Z.mul_div_le (accum * n) (d * i) ltac:(nia)). nia. }
    destruct (IH (i + 1) (output + accum) (accum * n / d / i)) as (v & Hv & Hle); [lia|nia| |].
    { split; [done|]. replace (Z.of_nat (Datatypes.S fuel)) with (Z.of_nat fuel + 1) in Ha by lia.
      rewrite Z.pow_add_r in Ha by lia. apply Z.le_lt_trans with (accum / 2); [done|]. apply Z.div_lt_upper_bound; lia. }
    exists v. split.
    + intros [|fuel'] Hf; [lia|]. rewrite fakeExponential_step by done. rewrite Z.gtb_ltb, (proj2 (Z.ltb_lt 0 accum)) by lia.
      apply Hv. lia.
    + etrans; [|exact Hle]. apply Z.div_le_mono; lia.
Qed.

Lemma fakeExponential_ends n d : 0 <= n -> 0 < d ->
  forall k i output accum, 0 < i -> 2 * n <= d * (i + Z.of_nat k) -> 0 <= accum ->
  exists fuel v, (forall fuel', (fuel <= fuel')%nat -> fakeExponential_loop fuel' n d i output accum = Ret v) /\
    (output + accum) / d <= v.
Proof.
  intros Hn Hd. induction k as [|k IH]; intros i output accum Hi Hbig Ha.
  - rewrite Z.add_0_r in Hbig. set (m := Z.to_nat (accum + 1)).
    destruct (fakeExponential_tail n d Hn Hd m i output accum Hi Hbig) as (v & Hv & Hle).
    { split; [done|]. unfold m. rewrite Z2Nat.id by lia. pose proof (Z.pow_gt_lin_r 2 (accum + 1)). lia. }
    by exists (Datatypes.S m), v.
  - destruct (Z.eq_dec accum 0) as [->|].
    { exists 1%nat, (output / d). split; [|by rewrite Z.add_0_r]. intros [|fuel'] Hf; [lia|]. by rewrite fakeExponential_step. }
    destruct (IH (i + 1) (output + accum) (accum * n / d / i)) as (fuel & v & Hv & Hle); [lia|lia| |].
    { rewrite Z.div_div by lia. apply Z.div_pos; nia. }
    exists (Datatypes.S fuel), v. split.
    + intros [|fuel'] Hf; [lia|]. rewrite fakeExponential_step by done. rewrite Z.gtb_ltb, (proj2 (Z.ltb_lt 0 accum)) by lia.
      apply Hv. lia.
    + etrans; [|exact Hle]. apply Z.div_le_mono; [done|]. assert (0 <= accum * n / d / i); [|lia].
      rewrite Z.div_div by lia. apply Z.div_pos; nia.
Qed.

(** ** Lemmas: draining accounts *)

Section dao_lemmas.
Context {B : Database} {K : Keccak} {KL : KeccakLaws K} {BL : DatabaseLaws B}.

(** Everything the drained accounts own goes to the refund contract. *)
Lemma drain_ok addrs : DAORefundContract ∉ addrs -> NoDup addrs -> forall s, state_ok s ->
  wp no_panic (drain addrs) (fun _ s' => state_ok s' /\ state_ext s s' /\
    forall a, balance_of s' a =
      if decide (a = DAORefundContract) then balance_of s a + total_of (balance_of s) addrs
      else if decide (a ∈ addrs) then 0 else balance_of s a) s.
Proof.
  induction addrs as [|addr addrs IH]; intros Hrefund Hdup s Hs.
  { apply wp_gret. split_and!; [done|done|]. intros a. case_decide; [cbn; lia|by rewrite decide_False by apply not_elem_of_nil]. }
  apply not_elem_of_cons in Hrefund as [Hne Hrefund]. apply list.NoDup_cons in Hdup as [Hnot Hdup].
  cbn [drain]. apply wp_gbind. eapply wp_mono; [by apply state_GetBalance_ok|].
  intros b s1 (-> & Hs1 & Hx1 & He1). apply wp_gbind.
  eapply wp_mono; [apply wp_conj; [by apply sdb_AddBalance_ok|apply AddBalance_balance]|].
  intros u s2 [[Hs2 Hx2] H2]. apply wp_gbind.
  eapply wp_mono; [apply wp_conj; [by apply sdb_SetBalance_ok|apply sdb_SetBalance_balance]|].
  intros u' s3 [[Hs3 Hx3] H3]. eapply wp_mono; [by apply IH|]. intros u'' s4 (Hs4 & Hx4 & H4).
  split_and!; [done|by do 3 (etrans; [eassumption|])|].
  assert (forall a, balance_of s3 a = if decide (a = addr) then 0 else
    balance_of s a + if decide (a = DAORefundContract) then balance_of s addr else 0) as Hb.
  { intros a. rewrite H3, H2, (balance_of_equiv _ _ _ He1). repeat case_decide; congruence. }
  intros a. rewrite H4, Hb. cbn [total_of foldr].
  assert (total_of (balance_of s3) addrs = total_of (balance_of s) addrs) as Ht.
  { apply total_of_ext. intros x Hx. rewrite Hb, !decide_False by congruence. lia. }
  rewrite Ht. destruct (decide (a = DAORefundContract)) as [->|Ha].
  - rewrite decide_False by congruence. fold (total_of (balance_of s) addrs). lia.
  - destruct (decide (a = addr)) as [->|Haddr].
    + rewrite (decide_False (P := addr ∈ addrs)) by done. by rewrite decide_True by by left.
    + rewrite Z.add_0_r. destruct (decide (a ∈ addrs)).
      * by rewrite decide_True by by right.
      * rewrite decide_False; [done|]. by intros [?|?]%elem_of_cons.
Qed.
End dao_lemmas.

(** ** Theorems *)

(** The gas limit check accepts exactly the limits of at least 5000 at a distance
    below a 1024th of the parent's, measured on the circle of 64-bit integers: on
    signed values, so that limits of 2^63 and more are compared as well; below that
    the distance is the difference. *)
Theorem VerifyGaslimit_exact p h :
  is_u64 p -> is_u64 h ->
  (VerifyGaslimit p h = None <-> distance p h < p / 1024 /\ 5000 <= h) /\
  (p < 2 ^ 63 -> h < 2 ^ 63 -> VerifyGaslimit p h = None <-> Z.abs (p - h) < p / 1024 /\ 5000 <= h).
Proof.
  intros Hp Hh. split; [by apply VerifyGaslimit_spec|]. intros Hp' Hh'. unfold is_u64 in *.
  rewrite <- distance_small by lia. by apply VerifyGaslimit_spec.
Qed.

(** The base fee of the block after a London block exists whenever the parent has a
    base fee, a gas limit of at least two and no more gas used than twice the target:
    it is not negative, stays if the target is met, and rises (by at least one) or
    falls with the gas used, by an eighth at most. *)
Theorem CalcBaseFee_bounds config parent b :
  let target := hdr_GasLimit parent / 2 in
  IsLondon config (hdr_Number parent) = true -> hdr_BaseFee parent = Some b -> 0 <= b ->
  is_u64 (hdr_GasLimit parent) -> 2 <= hdr_GasLimit parent -> 0 <= hdr_GasUsed parent <= 2 * target ->
  exists r, CalcBaseFee config parent = Ret r /\ 0 <= r /\
    (hdr_GasUsed parent = target -> r = b) /\
    (target < hdr_GasUsed parent -> b < r <= b + Z.max (b / 8) 1) /\
    (hdr_GasUsed parent < target -> b - b / 8 <= r <= b).
Proof.
  intros target Hl Hb Hb0 Hg Hg2 Hu. unfold CalcBaseFee. rewrite Hl, Hb. cbn [negb big_nonnil res_bind].
  change (ElasticityMultiplier config) with 2. change (BaseFeeChangeDenominator config) with 8. fold target.
  assert (1 <= target) as Ht by (apply Z.div_le_lower_bound; lia).
  assert (target <= hdr_GasLimit parent) as Htl by (apply Z.div_le_upper_bound; lia).
  destruct (Z.eq_dec (hdr_GasUsed parent) target) as [He|Hne].
  { rewrite (proj2 (Z.eqb_eq _ _) He). exists b. split_and!; done || lia. }
  rewrite (proj2 (Z.eqb_neq _ _) Hne), Z.gtb_ltb. destruct (target <? hdr_GasUsed parent) eqn:E; zbool.
  - rewrite u64_small by ulia. rewrite big_Div_pos by lia. cbn [res_bind]. rewrite big_Div_pos by lia. cbn [res_bind].
    rewrite BigMax_max. pose proof (fee_step (hdr_GasUsed parent - target) target b ltac:(lia) ltac:(lia) Hb0) as Hs.
    eexists. split; [reflexivity|]. lia.
  - rewrite u64_small by ulia. rewrite big_Div_pos by lia. cbn [res_bind]. rewrite big_Div_pos by lia. cbn [res_bind].
    rewrite BigMax_max. pose proof (fee_step (target - hdr_GasUsed parent) target b ltac:(lia) ltac:(lia) Hb0) as Hs.
    assert (b / 8 <= b) by (apply Z.div_le_upper_bound; lia).
    eexists. split; [reflexivity|]. lia.
Qed.

(** The loop of the exponential ends: with enough fuel the price of blob gas is the
    same for every amount of fuel, and it is at least the factor (one for the price
    of the code). *)
Theorem fakeExponential_total factor numerator denominator :
  0 <= factor -> 0 <= numerator -> 0 < denominator ->
  exists fuel v, (forall fuel', (fuel <= fuel')%nat -> fakeExponential fuel' factor numerator denominator = Ret v) /\
    factor <= v.
Proof.
  intros Hf Hn Hd. unfold fakeExponential.
  destruct (fakeExponential_ends numerator denominator Hn Hd (Z.to_nat (2 * numerator)) 1 0 (factor * denominator))
    as (fuel & v & Hv & Hle); [lia|rewrite Z2Nat.id by lia; nia|nia|].
  exists fuel, v. split; [done|]. etrans; [|exact Hle]. by rewrite Z.add_0_l, Z.div_mul by lia.
Qed.

(** The DAO fork moves the balances of its 116 accounts to the refund contract and
    changes no other balance; it ends without a panic. *)
Theorem ApplyDAOHardFork_moves {B : Database} {K : Keccak} {KL : KeccakLaws K} {BL : DatabaseLaws B} s :
  state_ok s ->
  wp no_panic ApplyDAOHardFork (fun _ s' => state_ok s' /\
    forall a, balance_of s' a =
      if decide (a = DAORefundContract) then balance_of s a + total_of (balance_of s) DAODrainList
      else if decide (a ∈ DAODrainList) then 0 else balance_of s a) s.
Proof.
  intros Hs. unfold ApplyDAOHardFork. apply wp_gbind.
  eapply wp_mono; [by apply (query_read_ok DAORefundContract false _ s (fun _ => True)); [done|intros; done..]|].
  intros e s1 (_ & Hs1 & _ & He). apply wp_gbind.
  assert (wp no_panic (if negb e then sdb_CreateAccount DAORefundContract else gret tt)
    (fun _ s2 => state_ok s2 /\ forall a, balance_of s2 a = balance_of s a) s1) as Hc.
  { destruct (negb e).
    - eapply wp_mono; [apply wp_conj; [by apply sdb_CreateAccount_ok|by apply CreateAccount_keeps]|].
      intros u s2 [[Hs2 _] Hb]. split; [done|]. intros a. rewrite Hb. symmetry. by apply balance_of_equiv.
    - apply wp_gret. split; [done|]. intros a. symmetry. by apply balance_of_equiv. }
  eapply wp_mono; [exact Hc|]. intros u s2 [Hs2 Hb]. eapply wp_mono; [apply drain_ok; [..|exact Hs2]|].
  - by apply (bool_decide_unpack _); vm_compute.
  - by apply (bool_decide_unpack _); vm_compute.
  - intros u' s3 (Hs3 & _ & H). split; [done|]. intros a. rewrite H, Hb. by rewrite (total_of_ext _ (balance_of s)).
Qed.
