(* ===== verification/Hashimoto.v ===== *)
(** * The proof-of-work function (client/consensus/ethash/algorithm.go)

    The verification cache, the dataset computed from it by any number of threads,
    and the hash over dataset items that seals a block, with this chain's own
    additions: the sequential dependency, the data-dependent branch and the four
    extra rounds.  Verifiers compute the items they need from the cache, miners
    read them from the dataset. *)

From Stdlib Require Import Strings.Byte.
From S2P Require Import Prelude.
From S2P Require Import Common.
From S2P Require Import Crypto.

Definition mixBytes : Z := 128.
Definition hashBytes : Z := 64.
Definition hashWords : Z := 16.
Definition datasetParents : Z := 256.
Definition cacheRounds : Z := 3.
Definition loopAccesses : Z := 64.
Definition epochLength : Z := 30000.

(** Keccak-512 of golang.org/x/crypto/sha3. *)
Class Keccak512 : Type := { keccak512 : list byte -> list byte }.

Class Keccak512Laws (K5 : Keccak512) : Prop := {
  length_keccak512 data : length (keccak512 data) = 64%nat
}.

(** ** 32-bit words *)

Definition two32 : Z := 2 ^ 32.
Definition u32 (z : Z) : Z := z mod two32.
Definition is_u32 (z : Z) : Prop := 0 <= z < two32.

(** [binary.LittleEndian]. *)
Definition le32 (w : Z) : list byte :=
  [byte_of_Z w; byte_of_Z (Z.shiftr w 8); byte_of_Z (Z.shiftr w 16); byte_of_Z (Z.shiftr w 24)].
Definition le64 (w : Z) : list byte := le32 (u32 w) ++ le32 (u32 (Z.shiftr w 32)).
Definition Uint32_of (b0 b1 b2 b3 : byte) : Z :=
  Z.lor (byte_val b0) (Z.lor (Z.shiftl (byte_val b1) 8) (Z.lor (Z.shiftl (byte_val b2) 16) (Z.shiftl (byte_val b3) 24))).

(** All the words of a byte string, and the bytes of a list of words. *)
Fixpoint words_of (bs : list byte) : list Z :=
  match bs with
  | b0 :: b1 :: b2 :: b3 :: bs => Uint32_of b0 b1 b2 b3 :: words_of bs
  | _ => []
  end.
Definition bytes_of (ws : list Z) : list byte := concat (map le32 ws).

(** [x % y], which panics on zero. *)
Definition u32_rem (x y : Z) : Res Z := if y =? 0 then Panic PanicDivide else Ret (x mod y).

(** [s[lo:]]. *)
Definition go_slice_from {A} (l : list A) (lo : Z) : Res (list A) := go_slice l lo (zlen l).

Definition fnv (a b : Z) : Z := Z.lxor (u32 (a * 0x01000193)) b.

(** [fnvHash]: an index out of range if [data] is shorter than [mix]. *)
Fixpoint fnvHash (mix data : list Z) : Res (list Z) :=
  match mix, data with
  | [], _ => Ret []
  | _ :: _, [] => Panic PanicIndex
  | m :: mix, d :: data => let? rest := fnvHash mix data in Ret (fnv m d :: rest)
  end.

Section pow.
Context {K : Keccak} {K5 : Keccak512}.

(** Keccak-256 as the 32 bytes the hasher writes. *)
Definition keccak256_bytes (data : list byte) : list byte := hash_bytes (keccak256 data).

(** ** The verification cache *)

Fixpoint seed_rounds (n : nat) (seed : list byte) : list byte :=
  match n with O => seed | Datatypes.S n => seed_rounds n (keccak256_bytes seed) end.

Definition seedHash (block : Z) : list byte :=
  let seed := replicate 32 Byte.x00 in
  if block <? epochLength then seed else seed_rounds (Z.to_nat (block / epochLength)) seed.

(** The rows after the first are hashes of the row before. *)
Fixpoint cache_fill (n : nat) (offset : Z) (cache : list byte) : Res (list byte) :=
  match n with
  | O => Ret cache
  | Datatypes.S n =>
      let? prev := go_slice cache (offset - hashBytes) offset in
      cache_fill n (offset + hashBytes) (copy_at cache (Z.to_nat offset) (keccak512 prev))
  end.

Fixpoint xor_bytes (a b : list byte) : list byte :=
  match a, b with
  | x :: a, y :: b => byte_of_Z (Z.lxor (byte_val x) (byte_val y)) :: xor_bytes a b
  | _, _ => []
  end.

Definition cache_mix (rows j : Z) (cache : list byte) : Res (list byte) :=
  let srcOff := (j - 1 + rows) mod rows * hashBytes in
  let dstOff := j * hashBytes in
  let? dst := go_slice cache dstOff (dstOff + 4) in
  let? row := u32_rem (nth 0 (words_of dst) 0) (u32 rows) in
  let xorOff := u32 (row * hashBytes) in
  let? src := go_slice cache srcOff (srcOff + hashBytes) in
  let? xor := go_slice cache xorOff (xorOff + hashBytes) in
  Ret (copy_at cache (Z.to_nat dstOff) (keccak512 (xor_bytes src xor))).

Fixpoint res_fold {A B} (f : B -> A -> Res A) (l : list B) (a : A) : Res A :=
  match l with
  | [] => Ret a
  | b :: l => let? a := f b a in res_fold f l a
  end.

(** The hasher needs room for the last row. *)
Definition generateCache (words : Z) (seed : list byte) : Res (list Z) :=
  let size := words * 4 in
  let rows := size / hashBytes in
  let cache := replicate (Z.to_nat size) Byte.x00 in
  let? _ := go_slice cache 0 hashBytes in
  let cache := copy_at cache 0 (keccak512 seed) in
  let? _ := (if size mod hashBytes =? 0 then Ret tt else Panic PanicIndex) in
  let? cache := cache_fill (Z.to_nat (rows - 1)) hashBytes cache in
  let? cache := res_fold (fun _ c => res_fold (cache_mix rows) (seqZ 0 rows) c) (seqZ 0 cacheRounds) cache in
  Ret (words_of cache).

(** ** The items of the dataset *)

Definition xor_first (index : Z) (row : list Z) : list Z :=
  match row with [] => [] | w :: row => Z.lxor w index :: row end.

(** One of the 256 rows mixed into an item. *)
Definition mix_parent (cache : list Z) (index rows i : Z) (intMix : list Z) : Res (list Z) :=
  let? w := go_index intMix (i mod 16) in
  let? parent := u32_rem (fnv (Z.lxor index i) w) rows in
  let? data := go_slice_from cache (u32 (parent * hashWords)) in
  fnvHash intMix data.

Definition generateDatasetItem (cache : list Z) (index : Z) : Res (list byte) :=
  let rows := u32 (zlen cache / hashWords) in
  let? row := u32_rem index rows in
  let off := u32 (row * hashWords) in
  let? words := go_slice cache off (off + hashWords) in
  let mix := keccak512 (bytes_of (xor_first index words)) in
  let? intMix := res_fold (mix_parent cache index rows) (seqZ 0 datasetParents) (words_of mix) in
  Ret (keccak512 (bytes_of intMix)).

(** ** The dataset

    The segment of one of the threads. *)
Definition segment (size threads id : Z) : list Z :=
  let batch := u64 (size + hashBytes * threads - 1) / (hashBytes * threads) in
  let first := u64 (id * batch) in
  let limit := u64 (first + batch) in
  let limit := if limit >? size / hashBytes then size / hashBytes else limit in
  seqZ first (limit - first).

(** Storing one item; the progress counter divides by a hundredth of the items. *)
Definition store_item (cache : list Z) (size index : Z) (dataset : list Z) : Res (list Z) :=
  let percent := size / hashBytes / 100 in
  let? item := generateDatasetItem cache (u32 index) in
  let? _ := u32_rem 0 percent in
  Ret (copy_at dataset (Z.to_nat (index * hashWords)) (words_of item)).

(** The threads run concurrently: their stores happen in some [order]. *)
Definition all_segments (size threads : Z) : list Z := concat (map (segment size threads) (seqZ 0 threads)).

Definition generateDataset (order : list Z) (words : Z) (cache : list Z) : Res (list Z) :=
  res_fold (store_item cache (words * 4)) order (replicate (Z.to_nat words) 0).

(** ** Hashimoto *)

(** The additions of this chain to the main loop: the dependency carried from
    access to access and the branch on the lowest bit of the mix. *)
Record hashimoto_state : Type := mkHashimoto { seqDep : Z; hmix : list Z; htemp : list Z }.

Definition hashimoto_access (lookup : Z -> Res (list Z)) (rows i : Z) (st : hashimoto_state) : Res hashimoto_state :=
  let '(mkHashimoto seqDep mix temp) := st in
  let? m := go_index mix (i mod zlen mix) in
  let seqDep := fnv seqDep m in
  let? parent := u32_rem (fnv (Z.lxor (u32 i) seqDep) m) rows in
  let? item := lookup (u32 (2 * parent)) in
  let temp := copy_at temp 0 item in
  let? item := lookup (u32 (2 * parent + 1)) in
  let temp := copy_at temp 16 item in
  let? mix0 := go_index mix 0 in
  let? mix :=
    (if Z.land mix0 1 =? 1 then
      let? temp0 := go_index temp 0 in
      go_update mix 0 (fnv mix0 temp0)
     else Ret mix) in
  let? mix := fnvHash mix temp in
  Ret (mkHashimoto seqDep mix temp).

Definition compress (i : Z) (mix : list Z) : Res (list Z) :=
  let? a := go_index mix i in
  let? b := go_index mix (i + 1) in
  let? c := go_index mix (i + 2) in
  let? d := go_index mix (i + 3) in
  go_update mix (i / 4) (fnv (fnv (fnv a b) c) d).

(** One of the extra rounds on the digest. *)
Definition extra_step (_ : Z) (extra : list Z) : Res (list Z) :=
  let? first := go_index extra 0 in
  let? last := go_index extra (zlen extra - 1) in
  go_update extra 0 (fnv first last).

Definition extra_round (_ : Z) (digest : list byte) : Res (list byte) :=
  let extra := words_of digest in
  let? extra := res_fold extra_step (seqZ 0 3) extra in
  let? extra := fnvHash extra extra in
  let digest := bytes_of extra in
  let? d0 := go_index digest 0 in
  Ret (if Z.land (byte_val d0) 1 =? 0 then keccak256_bytes digest else digest).

Definition hashimoto (hash : list byte) (nonce size : Z) (lookup : Z -> Res (list Z)) : Res (list byte * list byte) :=
  let rows := u32 (size / mixBytes) in
  let seed := copy_at (copy_at (replicate 40 Byte.x00) 0 hash) 32 (le64 nonce) in
  let seed := keccak512 seed in
  let? seedHead := go_index (words_of seed) 0 in
  let mix := words_of seed ++ words_of seed in
  let? st := res_fold (hashimoto_access lookup rows) (seqZ 0 loopAccesses)
    (mkHashimoto seedHead mix (replicate 32 0)) in
  let? mix := res_fold (fun k => compress (4 * k)) (seqZ 0 8) (hmix st) in
  let? mix := go_slice mix 0 (zlen mix / 4) in
  let? digest := res_fold extra_round (seqZ 0 4) (bytes_of mix) in
  Ret (digest, keccak256_bytes (seed ++ digest)).

Definition light_lookup (cache : list Z) (index : Z) : Res (list Z) :=
  let? item := generateDatasetItem cache index in Ret (words_of item).

Definition hashimotoLight (size : Z) (cache : list Z) (hash : list byte) (nonce : Z) : Res (list byte * list byte) :=
  hashimoto hash nonce size (light_lookup cache).

(** The offset is a 32-bit integer. *)
Definition full_lookup (dataset : list Z) (index : Z) : Res (list Z) :=
  let offset := u32 (index * hashWords) in
  go_slice dataset offset (u32 (offset + hashWords)).

Definition hashimotoFull (dataset : list Z) (hash : list byte) (nonce : Z) : Res (list byte * list byte) :=
  hashimoto hash nonce (zlen dataset * 4) (full_lookup dataset).
End pow.

(** ** Lemmas: outcomes and loops *)

Definition res_ok {A} (r : Res A) (P : A -> Prop) : Prop := match r with Ret a => P a | _ => False end.

Lemma res_ok_bind {A B} (r : Res A) (k : A -> Res B) P Q :
  res_ok r P -> (forall a, P a -> res_ok (k a) Q) -> res_ok (res_bind r k) Q.
Proof. destruct r; cbn; auto. Qed.

Lemma res_ok_mono {A} (r : Res A) (P Q : A -> Prop) : res_ok r P -> (forall a, P a -> Q a) -> res_ok r Q.
Proof. destruct r; cbn; auto. Qed.

Lemma res_ok_ret {A} (r : Res A) P : res_ok r P -> exists a, r = Ret a /\ P a.
Proof. destruct r; cbn; [eauto|done..]. Qed.

Lemma res_fold_app {A B} (f : B -> A -> Res A) l k a :
  res_fold f (l ++ k) a = res_bind (res_fold f l a) (res_fold f k).
Proof. revert a. induction l as [|b l IH]; intros a; [done|]. cbn. destruct (f b a); cbn; [apply IH|done..]. Qed.

Lemma res_fold_ext {A B} (f g : B -> A -> Res A) l a :
  (forall b a, b ∈ l -> f b a = g b a) -> res_fold f l a = res_fold g l a.
Proof.
  revert a. induction l as [|b l IH]; intros a H; [done|]. cbn. rewrite H by by left.
  destruct (g b a); cbn; [|done..]. apply IH. intros c x Hc. apply H. by right.
Qed.

Lemma res_fold_inv {A B} (f : B -> A -> Res A) (P : A -> Prop) l a :
  (forall b a, b ∈ l -> P a -> res_ok (f b a) P) -> P a -> res_ok (res_fold f l a) P.
Proof.
  revert a. induction l as [|b l IH]; intros a H Ha; [done|]. cbn. eapply res_ok_bind; [apply H; [by left|done]|].
  intros a' Ha'. apply IH; [|done]. intros c x Hc. apply H. by right.
Qed.

Lemma go_index_res {A} (l : list A) i : 0 <= i < zlen l -> res_ok (go_index l i) (fun x => l !! Z.to_nat i = Some x).
Proof. intros Hi. by destruct (go_index_ok l i Hi) as (x & -> & ?). Qed.

Lemma go_slice_res {A} (l : list A) lo hi :
  0 <= lo <= hi -> hi <= zlen l -> res_ok (go_slice l lo hi) (fun r => length r = Z.to_nat (hi - lo)).
Proof. intros H1 H2. destruct (go_slice_ok l lo hi H1 H2) as (r & -> & Hr). cbn. unfold zlen in Hr. lia. Qed.

Lemma go_update_res {A} (l : list A) i x : 0 <= i < zlen l -> res_ok (go_update l i x) (fun r => length r = length l).
Proof. intros Hi. rewrite go_update_ok by done. cbn. by rewrite length_insert. Qed.

Lemma u32_rem_res x y : 0 < y -> res_ok (u32_rem x y) (fun r => 0 <= r < y).
Proof. intros Hy. unfold u32_rem. rewrite (proj2 (Z.eqb_neq y 0)) by lia. cbn. apply Z.mod_pos_bound. lia. Qed.

Lemma u32_small z : is_u32 z -> u32 z = z.
Proof. apply Z.mod_small. Qed.

(** ** Lemmas: words *)

Lemma fnvHash_res mix data : (length mix <= length data)%nat -> res_ok (fnvHash mix data) (fun r => length r = length mix).
Proof.
  revert data. induction mix as [|m mix IH]; intros [|d data] Hl; cbn in *; try done || lia.
  eapply res_ok_bind; [apply IH; lia|]. intros r Hr. cbn. by rewrite Hr.
Qed.

Lemma length_words_of n bs : length bs = (4 * n)%nat -> length (words_of bs) = n.
Proof.
  revert bs. induction n as [|n IH]; intros bs Hl; [by destruct bs|].
  destruct bs as [|b0 [|b1 [|b2 [|b3 bs]]]]; cbn in Hl; try lia. cbn. f_equal. apply IH. lia.
Qed.

Lemma length_bytes_of ws : length (bytes_of ws) = (4 * length ws)%nat.
Proof. unfold bytes_of. induction ws as [|w ws IH]; [done|]. cbn in *. lia. Qed.

Lemma length_xor_first i row : length (xor_first i row) = length row.
Proof. by destruct row. Qed.

(** ** Lemmas: copying rows *)

Lemma go_slice_take {A} (l : list A) lo hi :
  0 <= lo <= hi -> hi <= zlen l -> go_slice l lo hi = Ret (take (Z.to_nat (hi - lo)) (drop (Z.to_nat lo) l)).
Proof.
  intros H1 H2. unfold go_slice.
  by rewrite (proj2 (Z.leb_le 0 lo)), (proj2 (Z.leb_le lo hi)), (proj2 (Z.leb_le hi (zlen l))) by lia.
Qed.

Lemma slice_copy_same {A} (dst src : list A) off :
  0 <= off -> off + zlen src <= zlen dst ->
  go_slice (copy_at dst (Z.to_nat off) src) off (off + zlen src) = Ret src.
Proof.
  intros H0 H. unfold zlen in *. rewrite go_slice_take; [|lia|unfold zlen; rewrite length_copy_at; lia].
  rewrite copy_at_fits by lia. f_equal. rewrite drop_app_length' by (rewrite length_take; lia).
  by rewrite take_app_length' by lia.
Qed.

Lemma lookup_copy_other {A} (dst src : list A) off i :
  (off + length src <= length dst)%nat -> (i < off \/ off + length src <= i)%nat -> copy_at dst off src !! i = dst !! i.
Proof.
  intros H Hi. rewrite copy_at_fits by done. destruct Hi as [Hi|Hi].
  - rewrite lookup_app_l by (rewrite length_take; lia). by apply lookup_take_lt.
  - rewrite lookup_app_r by (rewrite length_take; lia). rewrite length_take, lookup_app_r by lia.
    rewrite lookup_drop. f_equal. lia.
Qed.

Lemma slice_copy_other {A} (dst src : list A) off lo hi :
  0 <= off -> off + zlen src <= zlen dst -> 0 <= lo <= hi -> hi <= zlen dst ->
  hi <= off \/ off + zlen src <= lo ->
  go_slice (copy_at dst (Z.to_nat off) src) lo hi = go_slice dst lo hi.
Proof.
  intros H0 H Hlo Hhi Hd. unfold zlen in *. rewrite !go_slice_take; try (unfold zlen; rewrite ?length_copy_at; lia).
  f_equal. apply list_eq. intros i. destruct (decide (i < Z.to_nat (hi - lo))%nat) as [Hi|Hi].
  - rewrite !lookup_take_lt, !lookup_drop by done. apply lookup_copy_other; lia.
  - rewrite !lookup_take_ge by lia. done.
Qed.

(** ** Lemmas: items and the dataset *)

Section pow_lemmas.
Context {K : Keccak} {K5 : Keccak512} {KL5 : Keccak512Laws K5}.

(** A cache of at least one row, of 32-bit size. *)
Definition cache_wf (cache : list Z) : Prop := hashWords <= zlen cache <= two32.

Lemma cache_rows cache : cache_wf cache ->
  u32 (zlen cache / hashWords) = zlen cache / hashWords /\ 0 < zlen cache / hashWords /\
  zlen cache / hashWords * hashWords <= zlen cache.
Proof.
  unfold cache_wf, hashWords, two32. intros H. assert (0 < zlen cache / 16) by (apply Z.div_str_pos; lia).
  assert (zlen cache / 16 * 16 <= zlen cache) by (rewrite Z.mul_comm; apply Z.mul_div_le; lia).
  split_and!; try done. apply u32_small. unfold is_u32, two32. lia.
Qed.

Lemma row_offset cache row : cache_wf cache -> 0 <= row < zlen cache / hashWords ->
  u32 (row * hashWords) = row * hashWords /\ row * hashWords + hashWords <= zlen cache.
Proof.
  intros Hc Hr. destruct (cache_rows cache Hc) as (_ & _ & H). unfold cache_wf, hashWords, two32 in *.
  split; [apply u32_small; unfold is_u32, two32|]; lia.
Qed.

Lemma mix_parent_ok cache index i intMix : cache_wf cache -> length intMix = 16%nat ->
  res_ok (mix_parent cache index (zlen cache / hashWords) i intMix) (fun r => length r = 16%nat).
Proof.
  intros Hc Hm. unfold mix_parent.
  eapply res_ok_bind; [apply go_index_res; unfold zlen; rewrite Hm; by apply Z.mod_pos_bound|]. intros w _.
  eapply res_ok_bind; [apply u32_rem_res, (cache_rows cache Hc)|]. intros parent Hp.
  destruct (row_offset cache parent Hc Hp) as [-> Ho]. unfold hashWords in *.
  eapply res_ok_bind; [apply go_slice_res; lia|cbv beta]. intros data Hd.
  eapply res_ok_mono; [apply fnvHash_res; lia|]. intros r Hr. by rewrite Hr.
Qed.

Lemma generateDatasetItem_ok cache index : cache_wf cache ->
  res_ok (generateDatasetItem cache index) (fun item => length item = 64%nat).
Proof.
  intros Hc. unfold generateDatasetItem. destruct (cache_rows cache Hc) as (-> & Hr & _).
  eapply res_ok_bind; [by apply u32_rem_res|]. intros row Hrow. destruct (row_offset cache row Hc Hrow) as [-> Ho].
  eapply res_ok_bind; [apply go_slice_res; unfold hashWords in *; lia|]. intros ws Hws.
  eapply res_ok_bind; [apply (res_fold_inv _ (fun m => length m = 16%nat))|].
  - intros i m _ Hm. by apply mix_parent_ok.
  - apply (length_words_of 16). apply length_keccak512.
  - intros m _. apply length_keccak512.
Qed.

(** The words of an item. *)
Definition item_words (cache : list Z) (index : Z) : Res (list Z) :=
  let? item := generateDatasetItem cache (u32 index) in Ret (words_of item).

Lemma item_words_ok cache index : cache_wf cache -> res_ok (item_words cache index) (fun ws => length ws = 16%nat).
Proof.
  intros Hc. unfold item_words. eapply res_ok_bind; [by apply generateDatasetItem_ok|].
  intros item Hi. by apply (length_words_of 16).
Qed.

Definition dataset_row (dataset : list Z) (index : Z) : Res (list Z) :=
  go_slice dataset (index * hashWords) (index * hashWords + hashWords).

(** A dataset of whole rows, large enough for the progress counter. *)
Definition dataset_wf (words : Z) : Prop := 1600 <= words < two32 /\ words mod hashWords = 0.

Lemma store_item_eq cache words index dataset : cache_wf cache -> dataset_wf words ->
  exists ws, item_words cache index = Ret ws /\ length ws = 16%nat /\
    store_item cache (words * 4) index dataset = Ret (copy_at dataset (Z.to_nat (index * hashWords)) ws).
Proof.
  intros Hc [Hw _]. destruct (res_ok_ret _ _ (item_words_ok cache index Hc)) as (ws & Hi & Hl). exists ws.
  split_and!; [done..|]. unfold store_item, item_words in *. destruct (generateDatasetItem _ _) as [item| |]; try done.
  cbn [res_bind] in *. injection Hi as Hi. destruct (res_ok_ret (u32_rem 0 (words * 4 / hashBytes / 100)) (fun _ => True)) as (r & -> & _).
  { eapply res_ok_mono; [apply u32_rem_res|done]. unfold hashBytes. rewrite Z.div_div by lia. apply Z.div_str_pos. lia. }
  cbn [res_bind]. by rewrite Hi.
Qed.

Lemma store_items cache words order dataset : cache_wf cache -> dataset_wf words -> zlen dataset = words ->
  (forall i, i ∈ order -> 0 <= i < words / hashWords) ->
  res_ok (res_fold (store_item cache (words * 4)) order dataset) (fun d => zlen d = words /\
    (forall i, i ∈ order -> dataset_row d i = item_words cache i) /\
    (forall i, 0 <= i < words / hashWords -> i ∉ order -> dataset_row d i = dataset_row dataset i)).
Proof.
  intros Hc Hw. assert (forall i, 0 <= i < words / hashWords -> i * hashWords + hashWords <= words) as Hrow.
  { intros i Hi. destruct Hw as [_ Hm]. unfold hashWords in *. pose proof (Z.div_mod words 16 ltac:(lia)). lia. }
  revert dataset. induction order as [|i order IH]; intros dataset Hl Hr; cbn [res_fold].
  { split_and!; [done|by intros i ?%elem_of_nil|done]. }
  destruct (store_item_eq cache words i dataset Hc Hw) as (ws & Hi & Hws & ->). cbn [res_bind].
  pose proof (Hr i ltac:(by left)) as Hir. pose proof (Hrow i Hir). unfold hashWords in *.
  set (d := copy_at dataset (Z.to_nat (i * 16)) ws). assert (zlen d = words) as Hd.
  { unfold d, zlen in *. by rewrite length_copy_at. }
  assert (zlen ws = 16) as Hz by (unfold zlen; lia).
  eapply res_ok_mono; [apply (IH d Hd); intros j Hj; apply Hr; by right|]. intros d' (Hd' & Hin & Hout).
  split_and!; [done| |].
  - intros j Hj. destruct (decide (j ∈ order)) as [Hjo|Hjo]; [by apply Hin|]. rewrite Hout; [|by apply Hr|done].
    apply elem_of_cons in Hj as [->|]; [|done]. rewrite Hi. pose proof (slice_copy_same dataset ws (i * 16)) as Hs.
    rewrite Hz in Hs. apply Hs; lia.
  - intros j Hj Hno. apply not_elem_of_cons in Hno as [Hne Hno]. rewrite Hout by done.
    pose proof (Hrow j Hj). unfold dataset_row, hashWords, d. apply slice_copy_other; lia.
Qed.

(** ** Lemmas: the segments *)

Lemma batch_covers size threads : 0 <= size -> 0 < threads ->
  let batch := (size + hashBytes * threads - 1) / (hashBytes * threads) in
  0 <= batch /\ size / hashBytes <= batch * threads /\ batch * threads <= size / hashBytes + threads.
Proof.
  intros Hs Ht. cbv zeta. unfold hashBytes. set (m := 64 * threads). assert (0 < m) by lia.
  set (batch := (size + m - 1) / m).
  assert (0 <= batch) by (apply Z.div_pos; lia).
  assert (size <= m * batch) as Hcov.
  { pose proof (Z.div_mod (size + m - 1) m ltac:(lia)). pose proof (Z.mod_pos_bound (size + m - 1) m ltac:(lia)).
    unfold batch. lia. }
  assert (m * batch <= size + m - 1) as Hup by (unfold batch; apply Z.mul_div_le; lia). unfold m in *.
  split_and!; [done| |].
  - apply Z.lt_succ_r. apply Z.div_lt_upper_bound; lia.
  - apply Z.lt_succ_r. assert (64 * (batch * threads) < 64 * (size / 64 + threads + 1)); [|lia].
    pose proof (Z.div_mod size 64 ltac:(lia)). pose proof (Z.mod_pos_bound size 64 ltac:(lia)). lia.
Qed.

(** A segment without the wrap-around. *)
Lemma segment_eq size threads id : 0 <= size < 2 ^ 40 -> 0 < threads < 2 ^ 20 -> 0 <= id < threads ->
  segment size threads id =
    let batch := (size + hashBytes * threads - 1) / (hashBytes * threads) in
    seqZ (id * batch) (Z.min (id * batch + batch) (size / hashBytes) - id * batch).
Proof.
  intros Hs Ht Hid. destruct (batch_covers size threads) as (H0 & H1 & H2); [lia..|]. unfold segment. cbv zeta.
  rewrite (u64_small (size + _ - 1)) by (unfold hashBytes in *; ulia).
  set (batch := (size + hashBytes * threads - 1) / (hashBytes * threads)) in *.
  assert (size / hashBytes <= size) by (apply Z.div_le_upper_bound; unfold hashBytes; lia).
  assert (id * batch + batch <= threads * batch) by nia.
  rewrite (u64_small (id * batch)) by ulia. rewrite (u64_small (id * batch + batch)) by ulia.
  f_equal. f_equal. rewrite Z.gtb_ltb. case_match; zbool; lia.
Qed.

Lemma seqZ_split a n m : 0 <= n -> 0 <= m -> seqZ a (n + m) = seqZ a n ++ seqZ (a + n) m.
Proof. intros Hn Hm. by apply seqZ_app. Qed.

(** Together the segments are the indices, each of them once. *)
Lemma all_segments_eq size threads : 0 <= size < 2 ^ 40 -> 0 < threads < 2 ^ 20 ->
  all_segments size threads = seqZ 0 (size / hashBytes).
Proof.
  intros Hs Ht. destruct (batch_covers size threads) as (H0 & H1 & H2); [lia..|].
  set (batch := (size + hashBytes * threads - 1) / (hashBytes * threads)) in *.
  assert (0 <= size / hashBytes) by (apply Z.div_pos; unfold hashBytes; lia).
  set (n := size / hashBytes) in *.
  assert (forall k, (Z.of_nat k <= threads) ->
    concat (map (segment size threads) (seqZ 0 (Z.of_nat k))) = seqZ 0 (Z.min (Z.of_nat k * batch) n)) as Hk.
  { induction k as [|k IH]; intros Hk; [by rewrite Z.min_l by lia|].
    rewrite Nat2Z.inj_succ, <- Z.add_1_r, seqZ_split by lia. rewrite map_app, concat_app, IH by lia. cbn [seqZ].
    replace (seqZ (0 + Z.of_nat k) 1) with [Z.of_nat k] by (by rewrite seqZ_cons by lia). cbn [map concat].
    rewrite app_nil_r, segment_eq by lia. fold batch n. cbv zeta.
    destruct (Z.le_gt_cases (Z.of_nat k * batch) n) as [Hle|Hgt].
    - rewrite (Z.min_l (Z.of_nat k * batch) n) by lia. rewrite <- (Z.add_0_l (Z.of_nat k * batch)) at 2.
      rewrite <- seqZ_split by lia. f_equal. lia.
    - rewrite (Z.min_r (Z.of_nat k * batch) n), (Z.min_r (Z.of_nat k * batch + batch) n) by lia.
      rewrite (seqZ_nil _ (n - _)) by lia. rewrite app_nil_r. f_equal. lia. }
  unfold all_segments. rewrite <- (Z2Nat.id threads) at 2 by lia. rewrite Hk by lia. f_equal. lia.
Qed.

(** ** Lemmas: the cache *)

Lemma cache_fill_ok n offset cache :
  hashBytes <= offset -> offset + Z.of_nat n * hashBytes <= zlen cache ->
  res_ok (cache_fill n offset cache) (fun c => zlen c = zlen cache).
Proof.
  revert offset cache. induction n as [|n IH]; intros offset cache Ho Hl; [done|]. cbn [cache_fill]. unfold hashBytes in *.
  eapply res_ok_bind; [apply go_slice_res; lia|]. intros prev _. set (cache' := copy_at _ _ _).
  assert (zlen cache' = zlen cache) as Hz by (unfold cache', zlen; by rewrite length_copy_at).
  rewrite <- Hz. apply IH; lia.
Qed.

Lemma cache_mix_ok rows j cache :
  0 <= j < rows -> rows * hashBytes = zlen cache -> zlen cache <= two32 ->
  res_ok (cache_mix rows j cache) (fun c => zlen c = zlen cache).
Proof.
  intros Hj Hl H32. unfold cache_mix, hashBytes, two32 in *.
  pose proof (Z.mod_pos_bound (j - 1 + rows) rows ltac:(lia)).
  eapply res_ok_bind; [apply go_slice_res; lia|]. intros dst _. rewrite u32_small by (unfold is_u32, two32; lia).
  eapply res_ok_bind; [apply u32_rem_res; lia|cbv beta]. intros row Hrow.
  rewrite u32_small by (unfold is_u32, two32; lia).
  eapply res_ok_bind; [apply go_slice_res; lia|]. intros src _.
  eapply res_ok_bind; [apply go_slice_res; lia|]. intros xor _. cbn. unfold zlen. by rewrite length_copy_at.
Qed.

Lemma generateCache_ok words seed :
  hashWords <= words -> words mod hashWords = 0 -> words * 4 <= two32 ->
  res_ok (generateCache words seed) (fun c => zlen c = words).
Proof.
  intros Hw Hm H32. unfold generateCache. set (c0 := replicate _ _).
  assert (zlen c0 = words * 4) as Hz0 by (unfold c0, zlen, hashWords in *; rewrite length_replicate; lia).
  unfold hashWords in *. pose proof (Z.div_mod words 16 ltac:(lia)) as Hdm.
  assert (words * 4 / hashBytes = words / 16) as -> by (unfold hashBytes; replace (words * 4) with (words / 16 * 64) by lia; apply Z.div_mul; lia).
  assert (words * 4 mod hashBytes = 0) as -> by (unfold hashBytes; replace (words * 4) with (words / 16 * 64) by lia; apply Z.mod_mul; lia).
  eapply res_ok_bind; [apply go_slice_res; unfold hashBytes; lia|]. intros s0 _. cbn [Z.eqb res_bind].
  set (c1 := copy_at c0 0 _). assert (zlen c1 = words * 4) as Hz1 by (unfold c1, zlen in *; by rewrite length_copy_at).
  assert (1 <= words / 16) by (apply Z.div_le_lower_bound; lia).
  eapply (res_ok_bind _ _ (fun c => zlen c = words * 4)).
  { eapply res_ok_mono; [apply cache_fill_ok; unfold hashBytes; lia|cbv beta; lia]. }
  intros c2 Hz2. eapply (res_ok_bind _ _ (fun c => zlen c = words * 4)).
  { apply res_fold_inv; [|done]. intros r c _ Hc. apply res_fold_inv; [|done].
    intros j c' Hj%elem_of_seqZ Hc'. eapply res_ok_mono; [apply cache_mix_ok; unfold hashBytes in *; lia|cbv beta; lia]. }
  intros c3 Hz3. cbn. unfold zlen in *. rewrite (length_words_of (Z.to_nat words)); lia.
Qed.

(** ** Lemmas: hashimoto *)

(** A lookup that gives a row of words for the indices in use. *)
Definition lookup_ok (rows : Z) (lookup : Z -> Res (list Z)) : Prop :=
  forall index, 0 <= index < 2 * rows -> res_ok (lookup index) (fun ws => length ws = 16%nat).

Lemma access_ext l1 l2 rows i st : 0 < rows -> 2 * rows <= two32 ->
  (forall index, 0 <= index < 2 * rows -> l1 index = l2 index) ->
  hashimoto_access l1 rows i st = hashimoto_access l2 rows i st.
Proof.
  intros Hr Hr32 Hl. destruct st as [seqDep mix temp]. unfold hashimoto_access.
  destruct (go_index mix _) as [m| |]; [|done..]. cbn [res_bind].
  destruct (u32_rem _ rows) as [parent| |] eqn:Ep; [|done..]. cbn [res_bind].
  assert (0 <= parent < rows) as Hp.
  { unfold u32_rem in Ep. destruct (rows =? 0); [done|]. injection Ep as <-. by apply Z.mod_pos_bound. }
  rewrite !u32_small by (unfold is_u32; lia). by rewrite !Hl by lia.
Qed.

Lemma hashimoto_ext hash nonce size l1 l2 :
  let rows := size / mixBytes in
  0 < rows -> 2 * rows <= two32 -> (forall index, 0 <= index < 2 * rows -> l1 index = l2 index) ->
  hashimoto hash nonce size l1 = hashimoto hash nonce size l2.
Proof.
  intros rows Hr Hr32 Hl. unfold hashimoto. rewrite u32_small by (unfold is_u32; fold rows; lia).
  set (seed := keccak512 _). clearbody seed.
  destruct (go_index (words_of seed) 0) as [h| |]; cbn [res_bind]; [|reflexivity..].
  rewrite (res_fold_ext (hashimoto_access l1 rows) (hashimoto_access l2 rows)); [reflexivity|].
  intros i st _. by apply access_ext.
Qed.

Definition hashimoto_wf (st : hashimoto_state) : Prop := length (hmix st) = 32%nat /\ length (htemp st) = 32%nat.

Lemma access_ok lookup rows i st : 0 < rows -> 2 * rows <= two32 -> lookup_ok rows lookup ->
  hashimoto_wf st -> res_ok (hashimoto_access lookup rows i st) hashimoto_wf.
Proof.
  intros Hr Hr32 Hl. destruct st as [seqDep mix temp]. intros [Hm Ht]. cbn [hmix htemp] in *. unfold hashimoto_access.
  assert (zlen mix = 32) as Hz by (unfold zlen; lia).
  eapply res_ok_bind; [apply go_index_res; rewrite Hz; by apply Z.mod_pos_bound|]. intros m _.
  eapply res_ok_bind; [by apply u32_rem_res|cbv beta]. intros parent Hp. rewrite !u32_small by (unfold is_u32; lia).
  eapply res_ok_bind; [apply Hl; lia|cbv beta]. intros ws1 Hw1. eapply res_ok_bind; [apply Hl; lia|cbv beta]. intros ws2 Hw2.
  eapply res_ok_bind; [apply go_index_res; lia|]. intros mix0 _.
  set (temp' := copy_at (copy_at temp 0 ws1) 16 ws2). assert (length temp' = 32%nat) as Ht' by by (unfold temp'; rewrite !length_copy_at).
  eapply (res_ok_bind _ _ (fun mix => length mix = 32%nat)).
  { case_match; [|done]. eapply res_ok_bind; [apply go_index_res; unfold zlen; lia|]. intros temp0 _.
    eapply res_ok_mono; [apply go_update_res; lia|]. intros r Hr'. cbv beta in Hr'. lia. }
  intros mix' Hm'. eapply res_ok_bind; [apply fnvHash_res; lia|cbv beta]. intros mix'' Hm''. split; cbn; lia.
Qed.

Lemma compress_ok k mix : 0 <= k < 8 -> length mix = 32%nat -> res_ok (compress (4 * k) mix) (fun m => length m = 32%nat).
Proof.
  intros Hk Hm. assert (zlen mix = 32) as Hz by (unfold zlen; lia). unfold compress.
  do 4 (eapply res_ok_bind; [apply go_index_res; lia|]; intros ? _).
  rewrite Z.mul_comm, Z.div_mul by lia. eapply res_ok_mono; [apply go_update_res; lia|]. intros r Hr. cbv beta in Hr. lia.
Qed.

Lemma extra_round_ok k digest : length digest = 32%nat -> res_ok (extra_round k digest) (fun d => length d = 32%nat).
Proof.
  intros Hd. unfold extra_round. eapply (res_ok_bind _ _ (fun e => length e = 8%nat)).
  { apply res_fold_inv; [|by apply (length_words_of 8)]. intros j e _ He. assert (zlen e = 8) as Hz by (unfold zlen; lia).
    unfold extra_step. do 2 (eapply res_ok_bind; [apply go_index_res; lia|]; intros ? _).
    eapply res_ok_mono; [apply go_update_res; lia|]. intros r Hr. cbv beta in Hr. lia. }
  intros e He. eapply res_ok_bind; [by apply fnvHash_res|cbv beta]. intros e' He'.
  assert (length (bytes_of e') = 32%nat) as Hb by (rewrite length_bytes_of; lia).
  eapply res_ok_bind; [apply go_index_res; unfold zlen; lia|]. intros d0 _. cbn [res_ok]. case_match; [|done].
  apply length_be_bytes.
Qed.

Lemma hashimoto_ok hash nonce size lookup :
  let rows := size / mixBytes in
  0 < rows -> 2 * rows <= two32 -> lookup_ok rows lookup ->
  res_ok (hashimoto hash nonce size lookup) (fun r => length r.1 = 32%nat /\ length r.2 = 32%nat).
Proof.
  intros rows Hr Hr32 Hl. unfold hashimoto. rewrite u32_small by (unfold is_u32; fold rows; lia). fold rows.
  set (seed := keccak512 _). assert (length (words_of seed) = 16%nat) as Hs by (apply (length_words_of 16), length_keccak512).
  eapply res_ok_bind; [apply go_index_res; unfold zlen; lia|]. intros h _.
  eapply (res_ok_bind _ _ hashimoto_wf).
  { apply res_fold_inv; [intros; by apply access_ok|]. split; cbn; [rewrite length_app; lia|done]. }
  intros st [Hm _]. eapply (res_ok_bind _ _ (fun m => length m = 32%nat)).
  { apply res_fold_inv; [|done]. intros k m Hk%elem_of_seqZ Hlen. apply compress_ok; [lia|done]. }
  intros m Hlen. assert (zlen m = 32) as Hz by (unfold zlen; lia). rewrite Hz. change (32 / 4) with 8.
  eapply res_ok_bind; [apply go_slice_res; lia|cbv beta]. intros m8 H8.
  eapply (res_ok_bind _ _ (fun d => length d = 32%nat)).
  { apply res_fold_inv; [intros; by apply extra_round_ok|]. rewrite length_bytes_of. lia. }
  intros d Hd. split; [done|]. apply length_be_bytes.
Qed.
End pow_lemmas.

(** The statement of the theorem below, which seals are checked with. *)
Lemma hashimoto_agree {K : Keccak} {K5 : Keccak512} {KL5 : Keccak512Laws K5} cache words threads order :
  cache_wf cache -> dataset_wf words -> 0 < threads < 2 ^ 20 -> order ≡ₚ all_segments (words * 4) threads ->
  exists dataset, generateDataset order words cache = Ret dataset /\
    forall hash nonce, exists digest result,
      hashimotoFull dataset hash nonce = Ret (digest, result) /\
      hashimotoLight (words * 4) cache hash nonce = Ret (digest, result) /\
      length digest = 32%nat /\ length result = 32%nat.
Proof.
  intros Hc Hw Ht Ho. assert (1600 <= words < two32 /\ words mod 16 = 0) as [Hw1 Hw2] by apply Hw.
  rewrite all_segments_eq in Ho by (unfold two32 in *; lia).
  assert (words * 4 / hashBytes = words / 16) as Hn.
  { unfold hashBytes. pose proof (Z.div_mod words 16 ltac:(lia)). replace (words * 4) with (words / 16 * 64) by lia.
    apply Z.div_mul. lia. }
  rewrite Hn in Ho. destruct (res_ok_ret _ _ (store_items cache words order (replicate (Z.to_nat words) 0) Hc Hw
    ltac:(unfold zlen; rewrite length_replicate; lia) ltac:(intros i Hi; rewrite Ho in Hi; apply elem_of_seqZ in Hi; unfold hashWords; lia)))
    as (dataset & Hd & Hl & Hrows & _).
  exists dataset. split; [done|]. intros hash nonce.
  assert (words * 4 / mixBytes = words / 32) as Hm.
  { unfold mixBytes. rewrite <- (Z.div_mul_cancel_r words 32 4) by lia. done. }
  assert (50 <= words / 32) as Hr1 by (apply Z.div_le_lower_bound; lia).
  assert (32 * (words / 32) <= words) as Hr2 by (apply Z.mul_div_le; lia).
  assert (forall index, 0 <= index < 2 * (words / 32) -> full_lookup dataset index = light_lookup cache index) as Hlook.
  { intros index Hi. assert (index * 16 + 16 <= words) by lia. unfold two32 in *.
    transitivity (item_words cache index).
    - rewrite <- Hrows. 2:{ rewrite Ho. apply elem_of_seqZ. pose proof (Z.div_mod words 16 ltac:(lia)). lia. }
      unfold full_lookup, dataset_row, hashWords. by rewrite (u32_small (index * 16)), u32_small by (unfold is_u32, two32; lia).
    - unfold item_words, light_lookup. by rewrite u32_small by (unfold is_u32, two32; lia). }
  destruct (res_ok_ret _ _ (hashimoto_ok hash nonce (words * 4) (light_lookup cache)
    ltac:(lia) ltac:(rewrite Hm; unfold two32 in *; lia)
    ltac:(intros index Hi; eapply res_ok_bind; [by apply generateDatasetItem_ok|]; intros item Hitem; by apply (length_words_of 16))))
    as ([digest result] & Hh & Hlen).
  exists digest, result. split; [|exact (conj Hh Hlen)].
  unfold hashimotoFull. rewrite Hl, <- Hh. apply hashimoto_ext; rewrite Hm; [lia|unfold two32 in *; lia|exact Hlook].
Qed.

(** From 2^28 items on the offsets wrap around: the item is that of a lower index. *)
Lemma full_lookup_wraps dataset index : full_lookup dataset (index + 2 ^ 28) = full_lookup dataset index.
Proof.
  unfold full_lookup, u32. assert ((index + 2 ^ 28) * hashWords mod two32 = index * hashWords mod two32) as ->; [|done].
  unfold hashWords, two32. rewrite Z.mul_add_distr_r. change (2 ^ 28 * 16) with (1 * 2 ^ 32). apply Z_mod_plus_full.
Qed.

(** ** Theorems *)

(** C25: Miners and verifiers compute the same for datasets below 2^34 bytes: with
    fewer than 2^20 threads, in whatever order they store the items of the dataset,
    generating it ends without a panic, and the hash over the dataset is, for every
    header hash and nonce, the hash over the cache.  The dataset has whole rows and
    at least a hundred of them, the cache at least one and no more than 2^32 words.
    (In larger datasets the 32-bit offsets wrap around and the two hashes differ:
    [full_lookup_wraps].) *)
Theorem hashimoto_light_full {K : Keccak} {K5 : Keccak512} {KL5 : Keccak512Laws K5} cache words threads order :
  cache_wf cache -> dataset_wf words -> 0 < threads < 2 ^ 20 -> order ≡ₚ all_segments (words * 4) threads ->
  exists dataset, generateDataset order words cache = Ret dataset /\
    forall hash nonce, exists digest result,
      hashimotoFull dataset hash nonce = Ret (digest, result) /\
      hashimotoLight (words * 4) cache hash nonce = Ret (digest, result) /\
      length digest = 32%nat /\ length result = 32%nat.
Proof. apply hashimoto_agree. Qed.
