(* ===== verification/Difficulty.v ===== *)
(** * Difficulty (client/consensus/ethash/consensus.go, difficulty.go)

    The difficulty of a block from the times and the difficulty of its parent: the
    calculators on big integers and their counterparts on 256-bit integers. *)

From S2P Require Import Prelude.
From S2P Require Import Uint256.
From S2P Require Import Common.
From S2P Require Import Params.
From S2P Require Import Rlp.
From S2P Require Import Crypto.
From S2P Require Import Header.
From S2P Require Import Encoding.
From S2P Require Import Transaction.
From S2P Require Import Blocks.
From S2P Require Import Misc.

Definition targetDurationLimit : Z := 7.
Definition minimumDifficulty : Z := 131072.
(** The shift, where [Params.DifficultyBoundDivisor] is the divisor 2048. *)
Definition difficultyBoundDivisor : Z := 11.

Section difficulty.
Context {K : Keccak} {U : Uint256}.

(** The adjustment of the Byzantium rules: a number of steps, and whether they are
    taken away. *)
Definition byzantium_steps (time : Z) (parent : Header) : Z * bool :=
  let x := u64 (time - hdr_Time parent) / 7 in
  let c := if negb (hdr_UncleHash parent =? EmptyUncleHash) then 2 else 1 in
  let xNeg := x >=? c in
  let x := if xNeg then u64 (x - c) else u64 (c - x) in
  (if x >? 99 then 99 else x, xNeg).

(** [makeDifficultyCalculator]. *)
Definition calcDifficultyByzantium (time : Z) (parent : Header) : Z :=
  let '(x, xNeg) := byzantium_steps time parent in
  let y := u256_FromBig (hdr_Difficulty parent) in
  let pDiff := y in
  let z := u256_SetUint64 x in
  let y := u256_Rsh y difficultyBoundDivisor in
  let z := u256_Mul y z in
  let y := if xNeg then u256_Sub pDiff z else u256_Add pDiff z in
  let y := if u256_LtUint64 y minimumDifficulty then u256_SetUint64 minimumDifficulty else y in
  u256_ToBig y.

(** The later rules delayed the difficulty bomb, which this chain has not. *)
Definition calcDifficultyConstantinople : Z -> Header -> Z := calcDifficultyByzantium.
Definition calcDifficultyEip2384 : Z -> Header -> Z := calcDifficultyByzantium.
Definition calcDifficultyEip3554 : Z -> Header -> Z := calcDifficultyByzantium.
Definition calcDifficultyEip4345 : Z -> Header -> Z := calcDifficultyByzantium.
Definition calcDifficultyEip5133 : Z -> Header -> Z := calcDifficultyByzantium.

(** [Div] by a positive constant rounds down. *)
Definition calcDifficultyHomestead (time : Z) (parent : Header) : Z :=
  let x := time - hdr_Time parent in
  let x := x / 7 in
  let x := 1 - x in
  let x := if x <? -99 then -99 else x in
  let y := hdr_Difficulty parent / DifficultyBoundDivisor in
  let x := y * x in
  let x := hdr_Difficulty parent + x in
  if x <? MinimumDifficulty then MinimumDifficulty else x.

Definition calcDifficultyFrontier (time : Z) (parent : Header) : Z :=
  let adjust := hdr_Difficulty parent / DifficultyBoundDivisor in
  let diff :=
    if time - hdr_Time parent <? DurationLimit then hdr_Difficulty parent + adjust else hdr_Difficulty parent - adjust in
  if diff <? MinimumDifficulty then MinimumDifficulty else diff.

(** [CalcDifficulty]: the rules of the next block. *)
Definition CalcDifficulty (config : ChainConfig) (time : Z) (parent : Header) : Z :=
  let next := hdr_Number parent + 1 in
  if IsGrayGlacier config next then calcDifficultyEip5133 time parent
  else if IsArrowGlacier config next then calcDifficultyEip4345 time parent
  else if IsLondon config next then calcDifficultyEip3554 time parent
  else if IsMuirGlacier config next then calcDifficultyEip2384 time parent
  else if IsConstantinople config next then calcDifficultyConstantinople time parent
  else if IsByzantium config next then calcDifficultyByzantium time parent
  else if IsHomestead config next then calcDifficultyHomestead time parent
  else calcDifficultyFrontier time parent.

(** ** On 256-bit integers (difficulty.go) *)

Definition CalcDifficultyFrontierU256 (time : Z) (parent : Header) : Z :=
  let pDiff := u256_FromBig (hdr_Difficulty parent) in
  let adjust := u256_Rsh pDiff difficultyBoundDivisor in
  let pDiff :=
    if u64 (time - hdr_Time parent) <? targetDurationLimit then u256_Add pDiff adjust else u256_Sub pDiff adjust in
  let pDiff := if u256_LtUint64 pDiff minimumDifficulty then u256_SetUint64 minimumDifficulty else pDiff in
  u256_ToBig pDiff.

Definition CalcDifficultyHomesteadU256 (time : Z) (parent : Header) : Z :=
  let pDiff := u256_FromBig (hdr_Difficulty parent) in
  let adjust := u256_Rsh pDiff difficultyBoundDivisor in
  let x := u64 (time - hdr_Time parent) / 7 in
  let '(x, neg) := if x =? 0 then (1, false) else if x >=? 100 then (99, true) else (u64 (x - 1), true) in
  let z := u256_SetUint64 x in
  let adjust := u256_Mul adjust z in
  let pDiff := if neg then u256_Sub pDiff adjust else u256_Add pDiff adjust in
  let pDiff := if u256_LtUint64 pDiff minimumDifficulty then u256_SetUint64 minimumDifficulty else pDiff in
  u256_ToBig pDiff.

(** [MakeDifficultyCalculatorU256]: the delay is not used. *)
Definition MakeDifficultyCalculatorU256 (bombDelay : Z) (time : Z) (parent : Header) : Z :=
  let '(x, xNeg) := byzantium_steps time parent in
  let y := u256_FromBig (hdr_Difficulty parent) in
  let pDiff := y in
  let z := u256_SetUint64 x in
  let y := u256_Rsh y difficultyBoundDivisor in
  let z := u256_Mul y z in
  let y := if xNeg then u256_Sub pDiff z else u256_Add pDiff z in
  let y := if u256_LtUint64 y minimumDifficulty then u256_SetUint64 minimumDifficulty else y in
  u256_ToBig y.
End difficulty.

(** ** Lemmas *)

(** The specification: [k] steps of a 2048th up or down, not below the minimum. *)
Definition adjusted (d k : Z) : Z := Z.max minimumDifficulty (d + d / 2048 * k).

Section difficulty_lemmas.
Context {K : Keccak} {U : Uint256} {UL : Uint256Laws U}.

Lemma is_u256_div d n : is_u256 d -> 0 < n -> is_u256 (d / n).
Proof.
  unfold is_u256. intros Hd Hn. split; [apply Z.div_pos; lia|]. apply Z.le_lt_trans with d; [|lia].
  apply Z.div_le_upper_bound; nia.
Qed.

(** The end of every calculator on 256-bit integers. *)
Lemma u256_adjusted d x (neg : bool) :
  minimumDifficulty <= d < 2 ^ 255 -> 0 <= x <= 99 ->
  (let y := if neg then u256_Sub (u256_FromBig d) (u256_Mul (u256_Rsh (u256_FromBig d) difficultyBoundDivisor) (u256_SetUint64 x))
            else u256_Add (u256_FromBig d) (u256_Mul (u256_Rsh (u256_FromBig d) difficultyBoundDivisor) (u256_SetUint64 x)) in
   let y := if u256_LtUint64 y minimumDifficulty then u256_SetUint64 minimumDifficulty else y in
   u256_ToBig y) = adjusted d (if neg then - x else x).
Proof.
  unfold adjusted, minimumDifficulty, difficultyBoundDivisor. intros Hd Hx.
  assert (is_u256 d) as Hu by ulia. rewrite FromBig_spec, (Z.mod_small d) by exact Hu.
  rewrite Rsh_spec by (done || lia). change (2 ^ 11) with 2048. rewrite SetUint64_spec, u64_small by ulia.
  pose proof (is_u256_div d 2048 Hu ltac:(lia)) as Hq.
  assert (0 <= d / 2048 /\ d / 2048 * 2048 <= d) as [Hq0 Hq1].
  { split; [apply Z.div_pos; lia|]. rewrite Z.mul_comm. apply Z.mul_div_le. lia. }
  assert (0 <= d / 2048 * x) as Hz0 by (apply Z.mul_nonneg_nonneg; lia).
  assert (d / 2048 * x <= d / 2048 * 99) as Hz1 by (apply Z.mul_le_mono_nonneg_l; lia).
  rewrite Mul_spec by (done || ulia). rewrite (Z.mod_small (d / 2048 * x)) by ulia.
  destruct neg.
  - rewrite Sub_spec by (done || ulia). rewrite Z.mod_small by ulia. cbv zeta.
    rewrite LtUint64_spec by ulia. replace (d / 2048 * - x) with (- (d / 2048 * x)) by lia.
    case_match; zbool; rewrite ?SetUint64_spec, ?u64_small, ToBig_spec; ulia.
  - rewrite Add_spec by (done || ulia). rewrite Z.mod_small by ulia. cbv zeta.
    rewrite LtUint64_spec by ulia. case_match; zbool; rewrite ?SetUint64_spec, ?u64_small, ToBig_spec; ulia.
Qed.

(** The steps of the Byzantium rules for a child of its parent. *)
Definition byzantium_factor (time : Z) (parent : Header) : Z :=
  Z.max (-99) ((if hdr_UncleHash parent =? EmptyUncleHash then 1 else 2) - (time - hdr_Time parent) / 7).

Lemma byzantium_steps_eq time parent :
  is_u64 (hdr_Time parent) -> is_u64 time -> hdr_Time parent <= time ->
  let '(x, neg) := byzantium_steps time parent in
  0 <= x <= 99 /\ (if neg then - x else x) = byzantium_factor time parent.
Proof.
  intros Hp Ht Hle. unfold byzantium_steps, byzantium_factor. rewrite (u64_small (time - hdr_Time parent)) by ulia.
  set (g := (time - hdr_Time parent) / 7). assert (0 <= g < two64) as Hg.
  { unfold g. split; [apply Z.div_pos; lia|]. apply Z.div_lt_upper_bound; ulia. }
  clearbody g. rewrite Z.geb_leb. set (e := hdr_UncleHash parent =? EmptyUncleHash). clearbody e.
  destruct e; cbn [negb]; match goal with |- context [?c <=? g] => destruct (c <=? g) eqn:E end; zbool;
    rewrite u64_small by ulia; match goal with |- context [if ?b then 99 else _] => destruct b eqn:E2 end; zbool; lia.
Qed.

Lemma calcDifficultyByzantium_eq time parent :
  is_u64 (hdr_Time parent) -> is_u64 time -> hdr_Time parent <= time ->
  minimumDifficulty <= hdr_Difficulty parent < 2 ^ 255 ->
  calcDifficultyByzantium time parent = adjusted (hdr_Difficulty parent) (byzantium_factor time parent).
Proof.
  intros Hp Ht Hle Hd. pose proof (byzantium_steps_eq time parent Hp Ht Hle) as Hs. unfold calcDifficultyByzantium.
  destruct (byzantium_steps time parent) as [x neg]. destruct Hs as [Hx <-]. by apply u256_adjusted.
Qed.

Lemma calcDifficultyHomestead_eq time parent :
  calcDifficultyHomestead time parent =
    adjusted (hdr_Difficulty parent) (Z.max (-99) (1 - (time - hdr_Time parent) / 7)).
Proof.
  unfold calcDifficultyHomestead, adjusted, minimumDifficulty.
  change DifficultyBoundDivisor with 2048. change MinimumDifficulty with 131072.
  set (g := 1 - _). destruct (g <? -99) eqn:E; zbool.
  - rewrite (Z.max_l (-99) g) by lia. case_match; zbool; lia.
  - rewrite (Z.max_r (-99)) by lia. case_match; zbool; lia.
Qed.

(** An adjustment by [-99] to [2] steps: between a tenth down and a thousandth up. *)
Lemma adjusted_bounds d k : minimumDifficulty <= d -> -99 <= k <= 2 ->
  minimumDifficulty <= adjusted d k /\ d - d / 2048 * 99 <= adjusted d k <= d + d / 2048 * 2.
Proof.
  unfold adjusted, minimumDifficulty. intros Hd Hk. assert (0 <= d / 2048) by (apply Z.div_pos; lia). nia.
Qed.

Lemma adjusted_mono d k j : 0 <= d -> k <= j -> adjusted d k <= adjusted d j.
Proof. unfold adjusted. intros Hd Hk. assert (0 <= d / 2048) by (apply Z.div_pos; lia). nia. Qed.
End difficulty_lemmas.

(** ** Theorems *)

(** The calculators on big integers and on 256-bit integers agree on every child of
    its parent: the Frontier and Homestead rules with their counterparts, the
    Byzantium rules with theirs for every delay of the bomb, and Byzantium with
    Homestead where the parent has no uncles. *)
Theorem calculators_agree {K : Keccak} {U : Uint256} {UL : Uint256Laws U} time parent bombDelay :
  is_u64 (hdr_Time parent) -> is_u64 time -> hdr_Time parent <= time ->
  minimumDifficulty <= hdr_Difficulty parent < 2 ^ 255 ->
  CalcDifficultyFrontierU256 time parent = calcDifficultyFrontier time parent /\
  CalcDifficultyHomesteadU256 time parent = calcDifficultyHomestead time parent /\
  MakeDifficultyCalculatorU256 bombDelay time parent = calcDifficultyByzantium time parent /\
  (hdr_UncleHash parent = EmptyUncleHash -> calcDifficultyByzantium time parent = calcDifficultyHomestead time parent).
Proof.
  intros Hp Ht Hle Hd. split_and!; [| |done|].
  - unfold CalcDifficultyFrontierU256, calcDifficultyFrontier. rewrite u64_small by ulia.
    change targetDurationLimit with 7. change DurationLimit with 7. change DifficultyBoundDivisor with 2048.
    pose proof (u256_adjusted (hdr_Difficulty parent) 1 (negb (time - hdr_Time parent <? 7)) Hd ltac:(lia)) as H.
    cbv zeta in H. set (y := u256_FromBig _) in *. set (a := u256_Rsh y _) in *.
    assert (u256_Mul a (u256_SetUint64 1) = a) as Hmul.
    { assert (is_u256 (hdr_Difficulty parent)) as Hu by (unfold minimumDifficulty in *; ulia).
      assert (is_u256 a) as Ha.
      { unfold a, y, difficultyBoundDivisor. rewrite FromBig_spec, (Z.mod_small _ two256) by exact Hu.
        rewrite Rsh_spec by (done || lia). apply is_u256_div; done || lia. }
      rewrite SetUint64_spec, u64_small by ulia. rewrite Mul_spec by (done || ulia). rewrite Z.mul_1_r. by apply Z.mod_small. }
    rewrite Hmul in H. destruct (time - hdr_Time parent <? 7); cbn [negb] in H; cbv zeta; rewrite H; unfold adjusted;
      change MinimumDifficulty with 131072; unfold minimumDifficulty; destruct (_ <? 131072) eqn:?; zbool; lia.
  - rewrite calcDifficultyHomestead_eq. unfold CalcDifficultyHomesteadU256. rewrite u64_small by ulia.
    set (g := (time - hdr_Time parent) / 7). assert (0 <= g < two64) as Hg.
    { unfold g. split; [apply Z.div_pos; lia|]. apply Z.div_lt_upper_bound; ulia. }
    clearbody g. destruct (g =? 0) eqn:E0; zbool.
    + rewrite (u256_adjusted _ 1 false) by (done || lia). f_equal. lia.
    + rewrite Z.geb_leb. destruct (100 <=? g) eqn:E1; zbool.
      * rewrite (u256_adjusted _ 99 true) by (done || lia). f_equal. lia.
      * rewrite u64_small by ulia. rewrite (u256_adjusted _ (g - 1) true) by (done || lia). f_equal. lia.
  - intros Hu. rewrite calcDifficultyByzantium_eq, calcDifficultyHomestead_eq by done. unfold byzantium_factor.
    by rewrite Hu, Z.eqb_refl.
Qed.

(** C40: On the main network the difficulty of a child is at least the minimum, falls by
    at most 99 and rises by at most 2 of 2048 parts of its parent's, and is never
    higher for a later time. *)
Theorem CalcDifficulty_mainnet {K : Keccak} {U : Uint256} {UL : Uint256Laws U} time later parent :
  is_u64 (hdr_Time parent) -> is_u64 later -> hdr_Time parent <= time <= later -> 0 <= hdr_Number parent ->
  minimumDifficulty <= hdr_Difficulty parent < 2 ^ 255 ->
  let d := hdr_Difficulty parent in
  let new := CalcDifficulty MainnetChainConfig time parent in
  minimumDifficulty <= new /\ d - d / 2048 * 99 <= new <= d + d / 2048 * 2 /\
  CalcDifficulty MainnetChainConfig later parent <= new.
Proof.
  intros Hp Hl Hle Hn Hd d new.
  assert (forall t, CalcDifficulty MainnetChainConfig t parent = calcDifficultyByzantium t parent) as Hc.
  { intros t. unfold CalcDifficulty. change (IsConstantinople MainnetChainConfig (hdr_Number parent + 1)) with (0 <=? hdr_Number parent + 1).
    by rewrite (proj2 (Z.leb_le 0 _)) by lia. }
  unfold new. rewrite !Hc, !calcDifficultyByzantium_eq by (done || ulia). fold d.
  assert (forall t, hdr_Time parent <= t -> -99 <= byzantium_factor t parent <= 2) as Hf.
  { intros t Ht. unfold byzantium_factor. assert (0 <= (t - hdr_Time parent) / 7) by (apply Z.div_pos; lia). case_match; lia. }
  destruct (adjusted_bounds d (byzantium_factor time parent)) as [H1 H2]; [apply Hd|apply Hf; lia|].
  split_and!; [done|lia|lia|]. apply adjusted_mono; [unfold minimumDifficulty in *; lia|]. unfold byzantium_factor.
  assert ((time - hdr_Time parent) / 7 <= (later - hdr_Time parent) / 7) by (apply Z.div_le_mono; lia). lia.
Qed.
