(* ===== verification/Emission.v ===== *)
(** * Emission (client/consensus/ethash/consensus.go)

    The rewards of the blocks, the circulating supply computed from the height, and
    the reward paid when a block is finalised. *)

From S2P Require Import Prelude.
From S2P Require Import Common.
From S2P Require Import Params.
From S2P Require Import Rlp.
From S2P Require Import Crypto.
From S2P Require Import Header.
From S2P Require Import StateObject.
From S2P Require Import StateInterface.
From S2P Require Import StateStore.
From S2P Require Import StateSpec.
From S2P Require Import StateSafe.
From S2P Require Import StateTheorems.
From S2P Require Import StateSupply.
From S2P Require Import Encoding.

Definition weiPerR5 : Z := 1000000000000000000.
Definition SupplyCap : Z := 66337700 * weiPerR5.
Definition preminedSupply : Z := 2000000 * weiPerR5.
Definition finalBlock : Z := 1290406400.

Definition epoch1End : Z := 4000000.
Definition epoch2End : Z := 8000000.
Definition epoch3End : Z := 16000000.
Definition epoch4End : Z := 32000000.
Definition epoch5End : Z := 64000000.
Definition epoch6End : Z := 128000000.

(** The blocks of an epoch up to [blockNum]. *)
Definition minBlocks (blockNum start end_ : Z) : Z :=
  if blockNum <? start then 0
  else if blockNum >? end_ then u64 (end_ - start + 1)
  else u64 (blockNum - start + 1).

Definition CalculateCirculatingSupply (blockNum : Z) : Z :=
  let supply := preminedSupply in
  if blockNum >=? finalBlock then
    let totalBlockRewards := 64337700 * weiPerR5 in
    preminedSupply + totalBlockRewards
  else
    let blocks := minBlocks blockNum 1 epoch1End in
    let epochReward := 2 * weiPerR5 in
    let supply := supply + i64 blocks * epochReward in
    let blocks := minBlocks blockNum (epoch1End + 1) epoch2End in
    let epochReward := weiPerR5 in
    let supply := supply + i64 blocks * epochReward in
    let blocks := minBlocks blockNum (epoch2End + 1) epoch3End in
    let epochReward := 500000000000000000 in
    let supply := supply + i64 blocks * epochReward in
    let blocks := minBlocks blockNum (epoch3End + 1) epoch4End in
    let epochReward := 250000000000000000 in
    let supply := supply + i64 blocks * epochReward in
    let blocks := minBlocks blockNum (epoch4End + 1) epoch5End in
    let epochReward := 125000000000000000 in
    let supply := supply + i64 blocks * epochReward in
    let blocks := minBlocks blockNum (epoch5End + 1) epoch6End in
    let epochReward := 62500000000000000 in
    let supply := supply + i64 blocks * epochReward in
    if blockNum >? epoch6End then
      let blocks := minBlocks blockNum (epoch6End + 1) blockNum in
      let epochReward := 31250000000000000 in
      supply + i64 blocks * epochReward
    else supply.

Definition calculateBlockReward (blockNumber totalSupply : Z) : Z :=
  if totalSupply >=? SupplyCap then 0
  else
    let oneR5 := 1 * weiPerR5 in
    if blockNumber <=? 4000000 then 2 * oneR5
    else if blockNumber <=? 8000000 then oneR5
    else if blockNumber <=? 16000000 then oneR5 / 2
    else if blockNumber <=? 32000000 then oneR5 / 4
    else if blockNumber <=? 64000000 then oneR5 / 8
    else if blockNumber <=? 128000000 then oneR5 / 16
    else oneR5 / 32.

(** The reward [accumulateRewards] pays at a height. *)
Definition reward_at (number : Z) : Z :=
  let totalSupply := CalculateCirculatingSupply (big_Uint64 number) in
  calculateBlockReward (big_Uint64 number) totalSupply.

Section rewards.
Context {B : Database} {K : Keccak}.

(** There are no rewards for uncles. *)
Definition accumulateRewards (config : ChainConfig) (header : Header) (uncles : list Header) : GM state unit :=
  let totalSupply := CalculateCirculatingSupply (big_Uint64 (hdr_Number header)) in
  let reward := calculateBlockReward (big_Uint64 (hdr_Number header)) totalSupply in
  sdb_AddBalance (hdr_Coinbase header) reward.

(** [Ethash.Finalize]. *)
Definition Finalize (config : ChainConfig) (header : Header) (uncles : list Header) : GM state unit :=
  accumulateRewards config header uncles.
End rewards.

(** ** Lemmas *)

(** What the rewards of the first [n] blocks add up to. *)
Fixpoint issued (n : nat) : Z :=
  match n with
  | O => 0
  | Datatypes.S m => issued m + reward_at (Z.of_nat n)
  end.

(** Everything that is ever issued: 66,325,199.96875 R5. *)
Definition finalSupply : Z := 66325199968750000000000000.

Lemma minBlocks_eq n start end_ : 0 <= n < two64 -> 0 <= start -> start <= end_ + 1 -> end_ < two64 - 1 ->
  minBlocks n start end_ = Z.max 0 (Z.min n end_ - start + 1).
Proof.
  intros Hn Hs He H. unfold minBlocks. rewrite Z.gtb_ltb.
  destruct (n <? start) eqn:E1; zbool; [lia|]. destruct (end_ <? n) eqn:E2; zbool; rewrite u64_small by (unfold is_u64; lia); lia.
Qed.

(** The blocks of each epoch, and the supply as a sum over the epochs. *)
Definition epoch_blocks (n start end_ : Z) : Z := Z.max 0 (Z.min n end_ - start + 1).

Lemma supply_epochs n : 0 <= n < finalBlock ->
  CalculateCirculatingSupply n = preminedSupply +
    epoch_blocks n 1 epoch1End * (2 * weiPerR5) +
    epoch_blocks n (epoch1End + 1) epoch2End * weiPerR5 +
    epoch_blocks n (epoch2End + 1) epoch3End * 500000000000000000 +
    epoch_blocks n (epoch3End + 1) epoch4End * 250000000000000000 +
    epoch_blocks n (epoch4End + 1) epoch5End * 125000000000000000 +
    epoch_blocks n (epoch5End + 1) epoch6End * 62500000000000000 +
    epoch_blocks n (epoch6End + 1) n * 31250000000000000.
Proof.
  unfold finalBlock. intros Hn. unfold CalculateCirculatingSupply, finalBlock. rewrite Z.geb_leb, (proj2 (Z.leb_gt _ n)) by lia.
  rewrite !minBlocks_eq by (unfold epoch1End, epoch2End, epoch3End, epoch4End, epoch5End, epoch6End, two64; lia).
  rewrite !i64_small by (unfold epoch1End, epoch2End, epoch3End, epoch4End, epoch5End, epoch6End; lia).
  unfold epoch_blocks. rewrite Z.gtb_ltb. destruct (epoch6End <? n) eqn:E; zbool.
  - rewrite minBlocks_eq by (unfold epoch6End, two64 in *; lia). rewrite i64_small by (unfold epoch6End in *; lia). reflexivity.
  - rewrite (Z.max_l 0 (Z.min n n - (epoch6End + 1) + 1)) by (unfold epoch6End in *; lia). rewrite Z.mul_0_l, Z.add_0_r. reflexivity.
Qed.

Ltac unfold_emission :=
  unfold finalSupply, SupplyCap, preminedSupply, weiPerR5, epoch_blocks, epoch1End, epoch2End, epoch3End, epoch4End, epoch5End,
    epoch6End, finalBlock in *.

Lemma supply_below_cap n : 0 <= n < finalBlock -> CalculateCirculatingSupply n <= finalSupply.
Proof. intros Hn. rewrite supply_epochs by done. unfold_emission. lia. Qed.

Lemma supply_at_final n : finalBlock <= n -> CalculateCirculatingSupply n = SupplyCap.
Proof. intros Hn. unfold CalculateCirculatingSupply. by rewrite Z.geb_leb, (proj2 (Z.leb_le _ n)) by lia. Qed.

Lemma reward_final n : finalBlock <= n < two64 -> reward_at n = 0.
Proof.
  intros Hn. unfold reward_at, big_Uint64. rewrite Z.abs_eq, u64_small by (unfold finalBlock, is_u64 in *; lia).
  rewrite supply_at_final by lia. unfold calculateBlockReward. by rewrite Z.geb_leb, Z.leb_refl.
Qed.

(** The next block belongs to one epoch. *)
Lemma epoch_blocks_step n start end_ : start <= end_ + 1 ->
  epoch_blocks (n + 1) start end_ = epoch_blocks n start end_ + if (start <=? n + 1) && (n + 1 <=? end_) then 1 else 0.
Proof.
  intros H. unfold epoch_blocks. destruct (Z.leb_spec start (n + 1)), (Z.leb_spec (n + 1) end_); cbn [andb]; lia.
Qed.

Lemma epoch_blocks_last n start :
  epoch_blocks (n + 1) start (n + 1) = epoch_blocks n start n + if start <=? n + 1 then 1 else 0.
Proof. unfold epoch_blocks. destruct (Z.leb_spec start (n + 1)); lia. Qed.

(** Each block adds its reward to the supply. *)
Lemma supply_step n : 0 <= n -> n + 1 < finalBlock ->
  CalculateCirculatingSupply (n + 1) = CalculateCirculatingSupply n + reward_at (n + 1).
Proof.
  intros Hn Hf. unfold reward_at, big_Uint64. rewrite Z.abs_eq, u64_small by (unfold finalBlock, is_u64, two64 in *; lia).
  unfold calculateBlockReward.
  rewrite Z.geb_leb, (proj2 (Z.leb_gt _ _)) by (pose proof (supply_below_cap (n + 1)); unfold finalSupply, SupplyCap, weiPerR5 in *; lia).
  rewrite !supply_epochs, !epoch_blocks_step, epoch_blocks_last
    by (unfold epoch1End, epoch2End, epoch3End, epoch4End, epoch5End, epoch6End; lia).
  change epoch1End with 4000000. change epoch2End with 8000000. change epoch3End with 16000000.
  change epoch4End with 32000000. change epoch5End with 64000000. change epoch6End with 128000000.
  assert (1 <= n + 1) as Hm by lia. revert Hm. generalize (epoch_blocks n). intros b. generalize (n + 1). clear Hn Hf.
  intros m Hm. unfold weiPerR5. cbv zeta.
  change (1 * 1000000000000000000 / 2) with 500000000000000000. change (1 * 1000000000000000000 / 4) with 250000000000000000.
  change (1 * 1000000000000000000 / 8) with 125000000000000000. change (1 * 1000000000000000000 / 16) with 62500000000000000.
  change (1 * 1000000000000000000 / 32) with 31250000000000000.
  repeat (match goal with |- context [?a <=? ?b] => destruct (Z.leb_spec a b) end; try (exfalso; lia)); cbn [andb]; lia.
Qed.

Lemma supply_issued n : Z.of_nat n < finalBlock ->
  CalculateCirculatingSupply (Z.of_nat n) = preminedSupply + issued n.
Proof.
  induction n as [|n IH]; intros Hn; [done|]. cbn [issued]. rewrite Nat2Z.inj_succ, <- Z.add_1_r in *.
  rewrite supply_step by lia. rewrite IH by lia. lia.
Qed.

Lemma issued_final last n : Z.of_nat last = finalBlock - 1 -> finalBlock - 1 <= Z.of_nat n < two64 -> issued n = issued last.
Proof.
  intros Hlast. induction n as [|n IH]; intros Hn; [unfold finalBlock in *; lia|].
  destruct (Z.eq_dec (Z.of_nat (Datatypes.S n)) (finalBlock - 1)) as [He|Hne]; [f_equal; lia|].
  cbn [issued]. rewrite reward_final, IH by lia. lia.
Qed.

(** The last block with a reward, kept abstract: its number has too many successors to compute with. *)
Lemma last_reward : exists last, Z.of_nat last = finalBlock - 1 /\ preminedSupply + issued last = finalSupply.
Proof.
  destruct (Z_of_nat_complete (finalBlock - 1)) as [last Hlast]; [by vm_compute|]. exists last. split; [done|].
  rewrite <- supply_issued by lia. rewrite <- Hlast. by vm_compute.
Qed.

Lemma reward_nonneg n : 0 <= reward_at n <= 2 * weiPerR5.
Proof.
  unfold reward_at. generalize (big_Uint64 n). intros m. generalize (CalculateCirculatingSupply m). intros t.
  unfold calculateBlockReward. repeat case_match; by vm_compute.
Qed.

(** ** Theorems *)

(** C17: The supply computed from the height is the premine and the rewards of all blocks
    up to it, for every height below the final block; from the final block on nothing
    is issued any more, and what has been issued is 66,325,199.96875 R5, below the cap. *)
Theorem supply_schedule n :
  Z.of_nat n < two64 ->
  (Z.of_nat n < finalBlock -> CalculateCirculatingSupply (Z.of_nat n) = preminedSupply + issued n) /\
  (finalBlock <= Z.of_nat n -> reward_at (Z.of_nat n) = 0 /\ preminedSupply + issued n = finalSupply) /\
  preminedSupply + issued n <= finalSupply /\ finalSupply < SupplyCap.
Proof.
  intros Hn. destruct last_reward as (last & Hlast & Hfin). split_and!; [by apply supply_issued| | |by vm_compute].
  - intros H. split; [by apply reward_final|]. rewrite (issued_final last) by lia. exact Hfin.
  - destruct (Z.lt_ge_cases (Z.of_nat n) finalBlock).
    + rewrite <- supply_issued by done. apply supply_below_cap. lia.
    + rewrite (issued_final last) by lia. by rewrite Hfin.
Qed.

(** Finalising a block pays its reward to the miner and changes no other balance. *)
Theorem Finalize_pays {B : Database} {K : Keccak} {KL : KeccakLaws K} {BL : DatabaseLaws B} config header uncles s :
  state_ok s ->
  wp no_panic (Finalize config header uncles) (fun _ s' => state_ok s' /\ state_ext s s' /\
    forall a, balance_of s' a = balance_of s a + if decide (hdr_Coinbase header = a) then reward_at (hdr_Number header) else 0) s.
Proof.
  intros Hs. unfold Finalize, accumulateRewards. eapply wp_mono; [apply wp_conj; [by apply sdb_AddBalance_ok|apply AddBalance_balance]|].
  intros u s' [[H1 H2] H3]. by split_and!.
Qed.
