(* ===== verification/Ethash.v ===== *)
(** * The proof-of-work engine (client/consensus/ethash/consensus.go, sealer.go, ethash.go)

    Sealing and verification: the seal of a header, the rules a header has to meet,
    the uncles of a block, and the search for a nonce. *)

From Stdlib Require Import Strings.Byte.
From S2P Require Import Prelude.
From S2P Require Import Uint256.
From S2P Require Import Common.
From S2P Require Import Params.
From S2P Require Import Rlp.
From S2P Require Import Crypto.
From S2P Require Import Header.
From S2P Require Import Encoding.
From S2P Require Import Transaction.
From S2P Require Import Blocks.
From S2P Require Import Misc.
From S2P Require Import Hashimoto.
From S2P Require Import DagSizes.
From S2P Require Import Difficulty.

Inductive Mode : Type := ModeNormal | ModeShared | ModeTest | ModeFake | ModeFullFake.

(** The engine: its mode, the block at which a fake one fails, and the engine it
    shares. *)
Inductive Engine : Type := mkEngine (PowMode : Mode) (fakeFail : Z) (shared : option Engine).

Definition engine_mode (e : Engine) : Mode := let 'mkEngine m _ _ := e in m.

(** The constructors of ethash.go. *)
Definition sharedEthash : Engine := mkEngine ModeNormal 0 None.
Definition engine_New (mode : Mode) : Engine :=
  mkEngine mode 0 (match mode with ModeShared => Some sharedEthash | _ => None end).
Definition NewTester : Engine := engine_New ModeTest.
Definition NewFaker : Engine := mkEngine ModeFake 0 None.
Definition NewFakeFailer (fail : Z) : Engine := mkEngine ModeFake fail None.
Definition NewFullFaker : Engine := mkEngine ModeFullFake 0 None.
Definition NewShared : Engine := mkEngine ModeNormal 0 (Some sharedEthash).

Inductive header_error : Type :=
| ErrUnknownAncestor
| ErrFutureBlock
| ErrInvalidNumber
| ExtraDataTooLong
| errOlderBlockTime
| InvalidDifficulty
| GasLimitAboveMaximum
| GasUsedAboveLimit
| BaseFeeBeforeFork
| MiscError (err : Misc.error)
| ShanghaiNotSupported
| CancunNotSupported
| errTooManyUncles
| errDuplicateUncle
| errUncleIsAncestor
| errDanglingUncle
| errInvalidDifficulty
| errInvalidMixDigest
| errInvalidPoW.

(** The blockchain as the engine reads it ([consensus.ChainReader]). *)
Class ChainReader : Type := {
  cr_Config : ChainConfig;
  cr_GetHeader : Hash -> Z -> option Header;
  cr_GetBlock : Hash -> Z -> option Block
}.

(** What goes on in the background: which epochs' datasets have been generated, and
    in which order the threads stored the items of a dataset. *)
Class Background : Type := {
  dataset_ready : Z -> bool;
  store_order : Z -> list Z
}.

Class BackgroundLaws (G : Background) : Prop := {
  store_order_segments size : exists threads, 0 < threads < 2 ^ 20 /\ store_order size ≡ₚ all_segments size threads
}.

Section engine.
Context {K : Keccak} {K5 : Keccak512} {P : Primality} {U : Uint256} {G : Background}.

(** ** The seal *)

(** The fields a miner hashes: all but the seal itself. *)
Definition seal_items (header : Header) : option (list byte) :=
  if hdr_Difficulty header <? 0 then None
  else if hdr_Number header <? 0 then None
  else
    let fixed :=
      writeBytes (hash_bytes (hdr_ParentHash header)) ++ writeBytes (hash_bytes (hdr_UncleHash header)) ++
      writeBytes (address_bytes (hdr_Coinbase header)) ++ writeBytes (hash_bytes (hdr_Root header)) ++
      writeBytes (hash_bytes (hdr_TxHash header)) ++ writeBytes (hash_bytes (hdr_ReceiptHash header)) ++
      writeBytes (hdr_Bloom header) ++ writeBigInt (hdr_Difficulty header) ++ writeBigInt (hdr_Number header) ++
      writeUint64 (hdr_GasLimit header) ++ writeUint64 (hdr_GasUsed header) ++ writeUint64 (hdr_Time header) ++
      writeBytes (hdr_Extra header) in
    match hdr_BaseFee header with
    | None => Some (write_list fixed)
    | Some b => if b <? 0 then None else Some (write_list (fixed ++ writeBigInt b))
    end.

(** [SealHash] panics on a header with a withdrawals hash. *)
Definition SealHash (header : Header) : Res Hash :=
  match hdr_WithdrawalsHash header with
  | Some _ => Panic PanicWithdrawals
  | None => Ret (keccak256 (default [] (seal_items header)))
  end.

(** [cache.generate]: the content of the cache of an epoch, which memory and disk
    only keep. *)
Definition engine_cache (test : bool) (block : Z) : Res (list Z) :=
  let first := u64 (block / epochLength * epochLength + 1) in
  let? size := (if test then Ret 1024 else cacheSize first) in
  generateCache (size / 4) (seedHash first).

(** [dataset.generate]. *)
Definition engine_dataset (test : bool) (block : Z) : Res (list Z) :=
  let first := u64 (block / epochLength * epochLength + 1) in
  let? csize := (if test then Ret 1024 else cacheSize first) in
  let? dsize := (if test then Ret (32 * 1024) else datasetSize first) in
  let? cache := generateCache (csize / 4) (seedHash first) in
  generateDataset (store_order dsize) (dsize / 4) cache.

Definition is_test (m : Mode) : bool := match m with ModeTest => true | _ => false end.
Definition is_fake (m : Mode) : bool := match m with ModeFake | ModeFullFake => true | _ => false end.
Definition is_full_fake (m : Mode) : bool := match m with ModeFullFake => true | _ => false end.

(** The hash of a header over the cache, or over the dataset if that is wanted and
    there. *)
Definition seal_light (test : bool) (header : Header) : Res (list byte * list byte) :=
  let number := big_Uint64 (hdr_Number header) in
  let? cache := engine_cache test number in
  let? size := datasetSize number in
  let size := if test then 32 * 1024 else size in
  let? hash := SealHash header in
  hashimotoLight size cache (hash_bytes hash) (hdr_Nonce header).

Definition seal_full (test : bool) (header : Header) : Res (list byte * list byte) :=
  let number := big_Uint64 (hdr_Number header) in
  let? dataset := engine_dataset test number in
  let? hash := SealHash header in
  hashimotoFull dataset (hash_bytes hash) (hdr_Nonce header).

Definition check_seal (header : Header) (digest result : list byte) : Res (option header_error) :=
  if negb (bool_decide (hash_bytes (hdr_MixDigest header) = digest)) then Ret (Some errInvalidMixDigest)
  else
    let? target := big_Div two256 (hdr_Difficulty header) in
    Ret (if be_value result >? target then Some errInvalidPoW else None).

Fixpoint verifySeal (e : Engine) (header : Header) (fulldag : bool) : Res (option header_error) :=
  let '(mkEngine mode fakeFail shared) := e in
  if is_fake mode then
    Ret (if fakeFail =? big_Uint64 (hdr_Number header) then Some errInvalidPoW else None)
  else
    match shared with
    | Some s => verifySeal s header fulldag
    | None =>
        if hdr_Difficulty header <=? 0 then Ret (Some errInvalidDifficulty)
        else
          let number := big_Uint64 (hdr_Number header) in
          let? r :=
            (if fulldag && dataset_ready (number / epochLength) then seal_full (is_test mode) header
             else seal_light (is_test mode) header) in
          check_seal header (fst r) (snd r)
    end.

(** ** Mining *)

Definition set_seal (nonce : Z) (digest : Hash) (h : Header) : Header :=
  mkHeader (hdr_ParentHash h) (hdr_UncleHash h) (hdr_Coinbase h) (hdr_Root h) (hdr_TxHash h) (hdr_ReceiptHash h)
    (hdr_Bloom h) (hdr_Difficulty h) (hdr_Number h) (hdr_GasLimit h) (hdr_GasUsed h) (hdr_Time h) (hdr_Extra h)
    digest nonce (hdr_BaseFee h) (hdr_WithdrawalsHash h) (hdr_ExcessDataGas h).

(** The search, up to [attempts] nonces before it is aborted. *)
Fixpoint mine_loop (attempts : nat) (dataset : list Z) (hash : list byte) (target nonce : Z) (header : Header) :
    Res (option Header) :=
  match attempts with
  | O => Ret None
  | Datatypes.S attempts =>
      let? r := hashimotoFull dataset hash nonce in
      let '(digest, result) := r in
      if be_value result <=? target then Ret (Some (set_seal nonce (be_value digest) header))
      else mine_loop attempts dataset hash target (u64 (nonce + 1)) header
  end.

Definition mine (e : Engine) (attempts : nat) (block : Block) (seed : Z) : Res (option Block) :=
  let header := blk_header block in
  let? hash := SealHash header in
  let? target := big_Div two256 (hdr_Difficulty header) in
  let number := big_Uint64 (hdr_Number header) in
  let? dataset := engine_dataset (is_test (engine_mode e)) number in
  let? r := mine_loop attempts dataset (hash_bytes hash) target seed header in
  Ret (option_map (WithSeal block) r).

(** ** Headers *)

Definition allowedFutureBlockTimeSeconds : Z := 8.

Definition verifyHeader (e : Engine) (config : ChainConfig) (header parent : Header) (uncle seal : bool) (unixNow : Z) :
    Res (option header_error) :=
  if zlen (hdr_Extra header) >? MaximumExtraDataSize then Ret (Some ExtraDataTooLong)
  else if negb uncle && (hdr_Time header >? u64 (i64 (unixNow + allowedFutureBlockTimeSeconds))) then Ret (Some ErrFutureBlock)
  else if hdr_Time header <=? hdr_Time parent then Ret (Some errOlderBlockTime)
  else
    let expected := CalcDifficulty config (hdr_Time header) parent in
    if negb (expected =? hdr_Difficulty header) then Ret (Some InvalidDifficulty)
    else if hdr_GasLimit header >? MaxGasLimit then Ret (Some GasLimitAboveMaximum)
    else if hdr_GasUsed header >? hdr_GasLimit header then Ret (Some GasUsedAboveLimit)
    else
      let? fees :=
        (if negb (IsLondon config (hdr_Number header)) then
           match hdr_BaseFee header with
           | Some _ => Ret (Some BaseFeeBeforeFork)
           | None => Ret (option_map MiscError (VerifyGaslimit (hdr_GasLimit parent) (hdr_GasLimit header)))
           end
         else
           let? err := VerifyEip1559Header config parent header in
           Ret (option_map MiscError err)) in
      match fees with
      | Some err => Ret (Some err)
      | None =>
          if negb (hdr_Number header - hdr_Number parent =? 1) then Ret (Some ErrInvalidNumber)
          else if IsShanghai config (hdr_Time header) then Ret (Some ShanghaiNotSupported)
          else if IsCancun config (hdr_Time header) then Ret (Some CancunNotSupported)
          else
            let? sealed := (if seal then verifySeal e header false else Ret None) in
            match sealed with
            | Some err => Ret (Some err)
            | None => Ret (option_map MiscError (VerifyDAOHeaderExtraData config header))
            end
      end.

Section chain.
Context {R : ChainReader}.

Definition VerifyHeader (e : Engine) (header : Header) (seal : bool) (unixNow : Z) : Res (option header_error) :=
  if is_full_fake (engine_mode e) then Ret None
  else
    let number := big_Uint64 (hdr_Number header) in
    match cr_GetHeader (Header_Hash header) number with
    | Some _ => Ret None
    | None =>
        match cr_GetHeader (hdr_ParentHash header) (u64 (number - 1)) with
        | None => Ret (Some ErrUnknownAncestor)
        | Some parent => verifyHeader e cr_Config header parent false seal unixNow
        end
    end.

(** One header of a batch: its parent is in the database or the header before it. *)
Definition verifyHeaderWorker (e : Engine) (headers : list Header) (seals : list bool) (index unixNow : Z) :
    Res (option header_error) :=
  let? header := go_index headers index in
  let? parent :=
    (if index =? 0 then
       Ret (cr_GetHeader (hdr_ParentHash header) (u64 (big_Uint64 (hdr_Number header) - 1)))
     else
       let? prev := go_index headers (index - 1) in
       Ret (if Header_Hash prev =? hdr_ParentHash header then Some prev else None)) in
  match parent with
  | None => Ret (Some ErrUnknownAncestor)
  | Some parent =>
      let? seal := go_index seals index in
      verifyHeader e cr_Config header parent false seal unixNow
  end.

(** [Prepare]: the difficulty of a header to be mined. *)
Definition set_difficulty (d : Z) (h : Header) : Header :=
  mkHeader (hdr_ParentHash h) (hdr_UncleHash h) (hdr_Coinbase h) (hdr_Root h) (hdr_TxHash h) (hdr_ReceiptHash h)
    (hdr_Bloom h) d (hdr_Number h) (hdr_GasLimit h) (hdr_GasUsed h) (hdr_Time h) (hdr_Extra h)
    (hdr_MixDigest h) (hdr_Nonce h) (hdr_BaseFee h) (hdr_WithdrawalsHash h) (hdr_ExcessDataGas h).

Definition Prepare (header : Header) : header_error + Header :=
  match cr_GetHeader (hdr_ParentHash header) (u64 (big_Uint64 (hdr_Number header) - 1)) with
  | None => inl ErrUnknownAncestor
  | Some parent => inr (set_difficulty (CalcDifficulty cr_Config (hdr_Time header) parent) header)
  end.

(** ** Uncles *)

Definition maxUncles : Z := 2.

(** The headers of the last seven generations and the uncles they included. *)
Fixpoint gather (n : nat) (parent : Hash) (number : Z) (uncles : gset Hash) (ancestors : gmap Hash Header) :
    gset Hash * gmap Hash Header :=
  match n with
  | O => (uncles, ancestors)
  | Datatypes.S n =>
      match cr_GetHeader parent number with
      | None => (uncles, ancestors)
      | Some ancestorHeader =>
          let ancestors := <[parent := ancestorHeader]> ancestors in
          if negb (hdr_UncleHash ancestorHeader =? EmptyUncleHash) then
            match cr_GetBlock parent number with
            | None => (uncles, ancestors)
            | Some ancestor =>
                let uncles := list_to_set (map Header_Hash (blk_uncles ancestor)) ∪ uncles in
                gather n (hdr_ParentHash ancestorHeader) (u64 (number - 1)) uncles ancestors
            end
          else gather n (hdr_ParentHash ancestorHeader) (u64 (number - 1)) uncles ancestors
      end
  end.

(** The checks of one uncle after the other. *)
Fixpoint check_uncles (e : Engine) (block : Block) (ancestors : gmap Hash Header) (seen : gset Hash) (unixNow : Z)
    (us : list Header) : Res (option header_error) :=
  match us with
  | [] => Ret None
  | uncle :: us =>
      let hash := Header_Hash uncle in
      if bool_decide (hash ∈ seen) then Ret (Some errDuplicateUncle)
      else
        let seen := {[hash]} ∪ seen in
        match ancestors !! hash with
        | Some _ => Ret (Some errUncleIsAncestor)
        | None =>
            match ancestors !! hdr_ParentHash uncle with
            | None => Ret (Some errDanglingUncle)
            | Some parent =>
                if hdr_ParentHash uncle =? hdr_ParentHash (blk_header block) then Ret (Some errDanglingUncle)
                else
                  let? err := verifyHeader e cr_Config uncle parent true true unixNow in
                  match err with
                  | Some err => Ret (Some err)
                  | None => check_uncles e block ancestors seen unixNow us
                  end
            end
        end
  end.

Definition VerifyUncles (e : Engine) (block : Block) (unixNow : Z) : Res (option header_error) :=
  if is_full_fake (engine_mode e) then Ret None
  else if zlen (blk_uncles block) >? maxUncles then Ret (Some errTooManyUncles)
  else if zlen (blk_uncles block) =? 0 then Ret None
  else
    let '(uncles, ancestors) :=
      gather 7 (hdr_ParentHash (blk_header block)) (u64 (NumberU64 block - 1)) ∅ ∅ in
    let ancestors := <[Block_Hash block := blk_header block]> ancestors in
    let uncles := {[Block_Hash block]} ∪ uncles in
    check_uncles e block ancestors uncles unixNow (blk_uncles block).
End chain.
End engine.

(** ** The batch

    [VerifyHeaders] hands the headers to workers that finish in any order; the
    results come out in the order of the headers.  The state is the next result to
    give out and the set of those that are done; the loop runs until [n] results are
    out. *)
Fixpoint release (fuel : nat) (n out : nat) (checked : gset nat) : list nat * nat :=
  match fuel with
  | O => ([], out)
  | Datatypes.S fuel =>
      if bool_decide (out ∈ checked) then
        if bool_decide (Datatypes.S out = n) then ([out], Datatypes.S out)
        else let '(outs, out') := release fuel n (Datatypes.S out) checked in (out :: outs, out')
      else ([], out)
  end.

Fixpoint collect (n : nat) (done_order : list nat) (out : nat) (checked : gset nat) : list nat :=
  match done_order with
  | [] => []
  | index :: rest =>
      let checked := {[index]} ∪ checked in
      let '(outs, out') := release n n out checked in
      outs ++ (if bool_decide (out' = n) then [] else collect n rest out' checked)
  end.

(** The results of a batch whose headers are finished in the order [done_order]. *)
Definition VerifyHeaders {K : Keccak} {K5 : Keccak512} {P : Primality} {U : Uint256} {G : Background} {R : ChainReader}
    (e : Engine) (headers : list Header) (seals : list bool) (unixNow : Z) (done_order : list nat) :
    list (Res (option header_error)) :=
  if is_full_fake (engine_mode e) || (zlen headers =? 0) then map (fun _ => Ret None) headers
  else map (fun index => verifyHeaderWorker e headers seals (Z.of_nat index) unixNow) (collect (length headers) done_order 0 ∅).

(** ** Lemmas: the batch *)

Lemma release_spec n checked fuel out : (out < n)%nat -> (n - out <= fuel)%nat ->
  exists k, release fuel n out checked = (seq out k, (out + k)%nat) /\ (out + k <= n)%nat /\
    ((out + k)%nat = n \/ (out + k)%nat ∉ checked).
Proof.
  revert out. induction fuel as [|fuel IH]; intros out Ho Hf; [lia|]. cbn [release].
  case_bool_decide as Hin.
  2:{ exists 0%nat. rewrite Nat.add_0_r. split_and!; [done|lia|by right]. }
  case_bool_decide as Hlast.
  { exists 1%nat. rewrite Nat.add_1_r. split_and!; [done|lia|by left]. }
  destruct (IH (Datatypes.S out)) as (k & -> & Hk & Hstop); [lia..|]. exists (Datatypes.S k).
  rewrite Nat.add_succ_r. cbn [plus] in *. by split_and!.
Qed.

(** Whatever is left to be finished, all the remaining results come out, in order. *)
Lemma collect_in_order n rest out checked :
  (out < n)%nat -> out ∉ checked -> (forall i, (out <= i < n)%nat -> i ∈ rest \/ i ∈ checked) ->
  collect n rest out checked = seq out (n - out).
Proof.
  revert out checked. induction rest as [|index rest IH]; intros out checked Ho Hout Hall.
  { destruct (Hall out) as [H|H]; [lia|by apply elem_of_nil in H|done]. }
  cbn [collect]. destruct (release_spec n ({[index]} ∪ checked) n out Ho ltac:(lia)) as (k & -> & Hk & Hstop).
  case_bool_decide as Hn.
  - rewrite app_nil_r. f_equal. lia.
  - destruct Hstop as [?|Hstop]; [done|]. rewrite IH; [|lia|done|].
    + replace (n - out)%nat with (k + (n - (out + k)))%nat by lia. by rewrite seq_app.
    + intros i Hi. destruct (Hall i) as [Hr|Hc]; [lia| |right; set_solver].
      apply elem_of_cons in Hr as [->|Hr]; [right; set_solver|by left].
Qed.

(** ** Lemmas: seals *)

Section engine_lemmas.
Context {K : Keccak} {K5 : Keccak512} {KL5 : Keccak512Laws K5} {P : Primality} {U : Uint256} {G : Background}
  {GL : BackgroundLaws G}.

(** The last block for which a dataset can be read. *)
Definition dag_limit : Z := 57630000.

Lemma epoch_first number : 0 <= number < dag_limit ->
  let first := u64 (number / epochLength * epochLength + 1) in
  0 <= first < dag_limit /\ first / epochLength = number / epochLength.
Proof.
  unfold dag_limit, epochLength. intros Hn. cbv zeta.
  pose proof (Z.div_mod number 30000 ltac:(lia)). pose proof (Z.mod_pos_bound number 30000 ltac:(lia)).
  assert (0 <= number / 30000 < 1921) as He.
  { split; [apply Z.div_pos; lia|]. apply Z.div_lt_upper_bound; lia. }
  rewrite u64_small by ulia. split; [lia|]. rewrite Z.add_comm, Z.div_add by lia. by rewrite (Z.div_small 1).
Qed.

(** The cache and the sizes of an epoch. *)
Lemma engine_parts (test : bool) number : 0 <= number < dag_limit ->
  exists cache dsize, engine_cache test number = Ret cache /\ cache_wf cache /\
    (let? size := datasetSize number in Ret (if test then 32 * 1024 else size)) = Ret dsize /\
    dataset_wf (dsize / 4) /\ dsize / 4 * 4 = dsize /\
    engine_dataset test number = generateDataset (store_order dsize) (dsize / 4) cache.
Proof.
  intros Hn. destruct (epoch_first number Hn) as [Hf He]. set (first := u64 _) in *.
  destruct (sizes_of_tables first) as (csize & dsize & Hc & Hd & Hcm & Hcl & Hdm & Hwf).
  { unfold dag_limit, epochLength, maxEpoch in *. lia. }
  assert (datasetSize number = Ret dsize) as Hds by (rewrite <- Hd; unfold datasetSize; by rewrite He).
  assert (exists c, generateCache ((if test then 1024 else csize) / 4) (seedHash first) = Ret c /\ cache_wf c) as (cache & Hg & Hcw).
  { set (size := if test then 1024 else csize).
    assert (size mod 64 = 0 /\ 64 <= size < two32) as [Hm Hl] by (unfold size; destruct test; done).
    pose proof (Z.div_mod size 64 ltac:(lia)). assert (size / 4 = size / 64 * 16) as Hs.
    { replace size with (size / 64 * 16 * 4) at 1 by lia. by apply Z.div_mul. }
    destruct (res_ok_ret _ _ (generateCache_ok (size / 4) (seedHash first) ltac:(unfold hashWords; lia)
      ltac:(rewrite Hs; by apply Z.mod_mul) ltac:(lia))) as (c & Hc' & Hz).
    exists c. split; [done|]. unfold cache_wf, hashWords. lia. }
  exists cache, (if test then 32 * 1024 else dsize). unfold engine_cache, engine_dataset. fold first.
  rewrite Hds. cbn [res_bind]. destruct test; cbn [res_bind]; rewrite ?Hc, ?Hd; cbn [res_bind]; rewrite Hg; cbn [res_bind].
  - split_and!; done.
  - split_and!; try done; [apply Hwf; unfold dag_limit in Hf; lia|]. unfold mixBytes in *. pose proof (Z.div_mod dsize 128 ltac:(lia)) as Hdiv.
    replace dsize with (dsize / 128 * 32 * 4) at 1 by lia. rewrite Z.div_mul by lia. lia.
Qed.

(** A miner's hash of a header is a verifier's. *)
Lemma seal_agree (test : bool) header :
  0 <= hdr_Number header < dag_limit -> hdr_WithdrawalsHash header = None ->
  exists digest result, seal_full test header = Ret (digest, result) /\ seal_light test header = Ret (digest, result) /\
    length digest = 32%nat.
Proof.
  intros Hn Hw. assert (big_Uint64 (hdr_Number header) = hdr_Number header) as Hu.
  { unfold big_Uint64, dag_limit in *. rewrite Z.abs_eq, u64_small by ulia. done. }
  destruct (engine_parts test (hdr_Number header) Hn) as (cache & dsize & Hc & Hcw & Hs & Hdw & Hd4 & Hd).
  destruct (store_order_segments dsize) as (threads & Ht & Ho).
  destruct (hashimoto_agree cache (dsize / 4) threads (store_order dsize) Hcw Hdw Ht) as (dataset & Hgen & Hagree).
  { by rewrite Hd4. }
  unfold seal_full, seal_light, SealHash. rewrite Hu, Hd, Hgen, Hc, Hw. cbn [res_bind]. rewrite Hd4 in Hagree.
  destruct (Hagree (hash_bytes (keccak256 (default [] (seal_items header)))) (hdr_Nonce header)) as (d & r & H1 & H2 & H3 & _).
  exists d, r. split; [exact H1|]. split; [|exact H3].
  destruct (datasetSize (hdr_Number header)) as [size| |]; cbn [res_bind] in *; [|discriminate..].
  injection Hs as ->. exact H2.
Qed.
End engine_lemmas.

(** ** Lemmas: mining *)

Section mining_lemmas.
Context {K : Keccak} {K5 : Keccak512} {KL5 : Keccak512Laws K5} {P : Primality} {U : Uint256} {G : Background}
  {GL : BackgroundLaws G}.

(** A header whose seal can be computed. *)
Definition sealable (header : Header) : Prop :=
  0 <= hdr_Number header < dag_limit /\ hdr_WithdrawalsHash header = None /\ 0 < hdr_Difficulty header.

Lemma hash_bytes_value bs : length bs = 32%nat -> hash_bytes (be_value bs) = bs.
Proof. intros Hl. unfold hash_bytes. rewrite <- Hl. apply be_bytes_be_value. Qed.

Lemma SealHash_set_seal nonce digest header : SealHash (set_seal nonce digest header) = SealHash header.
Proof. done. Qed.

Lemma verifySeal_eq mode fail header fulldag :
  is_fake mode = false -> sealable header ->
  exists digest result, seal_full (is_test mode) header = Ret (digest, result) /\ length digest = 32%nat /\
    verifySeal (mkEngine mode fail None) header fulldag = check_seal header digest result.
Proof.
  intros Hf (Hn & Hw & Hd). destruct (seal_agree (is_test mode) header Hn Hw) as (digest & result & H1 & H2 & H3).
  exists digest, result. split; [done|]. split; [done|]. cbn [verifySeal]. rewrite Hf, (proj2 (Z.leb_gt _ 0)) by lia.
  rewrite H1, H2. by destruct (fulldag && _).
Qed.

(** The search returns, and what it finds meets the target. *)
Lemma mine_loop_ok test header dataset hash target :
  engine_dataset test (big_Uint64 (hdr_Number header)) = Ret dataset -> SealHash header = Ret hash ->
  0 <= hdr_Number header < dag_limit -> hdr_WithdrawalsHash header = None ->
  forall attempts nonce, exists r, mine_loop attempts dataset (hash_bytes hash) target nonce header = Ret r /\
    forall header', r = Some header' -> exists n digest result, header' = set_seal n (be_value digest) header /\
      seal_full test header' = Ret (digest, result) /\ be_value result <= target.
Proof.
  intros Hds Hh Hn Hw. induction attempts as [|attempts IH]; intros nonce; [by eexists|]. cbn [mine_loop].
  destruct (seal_agree test (set_seal nonce 0 header) Hn Hw) as (digest & result & Hfull & _ & Hl).
  assert (hashimotoFull dataset (hash_bytes hash) nonce = Ret (digest, result)) as Hhash.
  { revert Hfull. unfold seal_full. rewrite SealHash_set_seal, Hh.
    change (hdr_Number (set_seal nonce 0 header)) with (hdr_Number header). by rewrite Hds. }
  rewrite Hhash. cbn [res_bind]. destruct (be_value result <=? target) eqn:E; [zbool|by apply IH].
  eexists. split; [reflexivity|]. intros header' [= <-]. exists nonce, digest, result. split; [done|]. split; [|done].
  exact Hfull.
Qed.

Lemma mine_ok mode fail attempts block seed :
  sealable (blk_header block) ->
  exists r, mine (mkEngine mode fail None) attempts block seed = Ret r /\
    forall block', r = Some block' -> exists n digest result,
      block' = WithSeal block (set_seal n (be_value digest) (blk_header block)) /\
      seal_full (is_test mode) (blk_header block') = Ret (digest, result) /\ length digest = 32%nat /\
      be_value result <= two256 / hdr_Difficulty (blk_header block).
Proof.
  intros (Hn & Hw & Hd). set (header := blk_header block) in *. unfold mine. fold header.
  assert (SealHash header = Ret (keccak256 (default [] (seal_items header)))) as Hh by (unfold SealHash; by rewrite Hw).
  assert (exists dataset, engine_dataset (is_test mode) (big_Uint64 (hdr_Number header)) = Ret dataset) as [dataset Hds].
  { destruct (seal_agree (is_test mode) header Hn Hw) as (d & r & H & _). revert H. unfold seal_full.
    destruct (engine_dataset _ _) as [ds| |]; [by exists ds|done..]. }
  rewrite Hh. cbn [res_bind]. rewrite big_Div_pos by done. cbn [res_bind engine_mode]. rewrite Hds. cbn [res_bind].
  destruct (mine_loop_ok _ header dataset _ (two256 / hdr_Difficulty header) Hds Hh Hn Hw attempts seed) as (r & -> & Hr).
  cbn [res_bind]. eexists. split; [reflexivity|]. intros block' Hb. destruct r as [header'|]; [|done].
  injection Hb as <-. destruct (Hr header' eq_refl) as (n & digest & result & -> & Hfull & Hle).
  exists n, digest, result. split; [done|]. split; [exact Hfull|]. split; [|done].
  destruct (seal_agree (is_test mode) (set_seal n (be_value digest) header) Hn Hw) as (d & r & H & _ & Hl).
  rewrite Hfull in H. by injection H as -> ->.
Qed.
End mining_lemmas.

(** ** Theorems *)

(** C23: A miner of an engine that is neither fake nor shared, without an abort signal
    in the first [attempts] nonces, returns without a panic, and a block it returns
    differs from the given one only in nonce and mix digest and passes the
    verification of its seal, by the light and by the full method alike.  The header
    must be [sealable]: of a block below 57,630,000, where the dataset stays below
    2^34 bytes, with a positive difficulty and no hash of withdrawals.  From that
    block on the 32-bit offsets of the dataset wrap around in [hashimotoFull] and not
    in [hashimotoLight], so that the light method rejects what is mined. *)
Theorem mined_block_verifies {K : Keccak} {K5 : Keccak512} {KL5 : Keccak512Laws K5} {P : Primality} {U : Uint256}
    {G : Background} {GL : BackgroundLaws G} mode fail attempts block seed fulldag :
  is_fake mode = false -> sealable (blk_header block) ->
  exists r, mine (mkEngine mode fail None) attempts block seed = Ret r /\
    forall block', r = Some block' ->
      (exists nonce digest, block' = WithSeal block (set_seal nonce digest (blk_header block))) /\
      verifySeal (mkEngine mode fail None) (blk_header block') fulldag = Ret None.
Proof.
  intros Hf Hs. destruct (mine_ok mode fail attempts block seed Hs) as (r & Hr & Hb). exists r. split; [exact Hr|].
  intros block' Hb'. destruct (Hb block' Hb') as (n & digest & result & -> & Hfull & Hl & Hle).
  split; [by eexists _, _|]. set (header' := blk_header (WithSeal _ _)) in *.
  destruct (verifySeal_eq mode fail header' fulldag Hf) as (d & r' & Hfull' & _ & ->); [exact Hs|].
  rewrite Hfull in Hfull'. injection Hfull' as <- <-. unfold check_seal.
  change (hdr_MixDigest header') with (be_value digest). rewrite hash_bytes_value by done. rewrite bool_decide_eq_true_2 by done.
  cbn [negb]. change (hdr_Difficulty header') with (hdr_Difficulty (blk_header block)).
  rewrite big_Div_pos by apply Hs. cbn [res_bind]. by rewrite Z.gtb_ltb, (proj2 (Z.ltb_ge _ _)).
Qed.

(** C26: The main network accepts a header exactly if it follows from its parent by the
    rules: extra data of 32 bytes at most, a time after the parent's and (unless it is
    an uncle) at most eight seconds ahead, the computed difficulty, gas used within
    the limit and the limit within its bounds, no base fee, the next number, and a
    valid seal.  No header makes the verification panic but through its seal. *)
Theorem verifyHeader_mainnet {K : Keccak} {K5 : Keccak512} {P : Primality} {U : Uint256} {G : Background}
    e header parent (uncle seal : bool) unixNow :
  verifyHeader e MainnetChainConfig header parent uncle seal unixNow = Ret None <->
    zlen (hdr_Extra header) <= 32 /\
    (uncle = false -> hdr_Time header <= u64 (i64 (unixNow + 8))) /\
    hdr_Time parent < hdr_Time header /\
    hdr_Difficulty header = CalcDifficulty MainnetChainConfig (hdr_Time header) parent /\
    hdr_GasLimit header <= MaxGasLimit /\ hdr_GasUsed header <= hdr_GasLimit header /\
    hdr_BaseFee header = None /\ VerifyGaslimit (hdr_GasLimit parent) (hdr_GasLimit header) = None /\
    hdr_Number header = hdr_Number parent + 1 /\
    (seal = true -> verifySeal e header false = Ret None).
Proof.
  unfold verifyHeader. change MaximumExtraDataSize with 32. change allowedFutureBlockTimeSeconds with 8.
  change (IsLondon MainnetChainConfig (hdr_Number header)) with false. cbn [negb].
  change (IsShanghai MainnetChainConfig (hdr_Time header)) with false.
  change (IsCancun MainnetChainConfig (hdr_Time header)) with false.
  change (VerifyDAOHeaderExtraData MainnetChainConfig header) with (@None Misc.error).
  destruct (zlen (hdr_Extra header) >? 32) eqn:E1; zbool; [split; [done|lia]|].
  destruct (negb uncle && _) eqn:E2.
  { apply andb_true_iff in E2 as [E2 E2']. apply negb_true_iff in E2. zbool. split; [done|]. intros (_ & H & _). specialize (H E2). lia. }
  apply andb_false_iff in E2. assert (uncle = false -> hdr_Time header <= u64 (i64 (unixNow + 8))) as Hu.
  { intros ->. destruct E2 as [E2|E2]; [done|]. zbool. lia. }
  destruct (hdr_Time header <=? hdr_Time parent) eqn:E3; zbool; [split; [done|lia]|].
  destruct (CalcDifficulty _ _ _ =? _) eqn:E4; zbool; [|split; [done|intros (_ & _ & _ & H & _); congruence]]. cbn [negb].
  destruct (hdr_GasLimit header >? MaxGasLimit) eqn:E5; zbool; [split; [done|lia]|].
  destruct (hdr_GasUsed header >? hdr_GasLimit header) eqn:E6; zbool; [split; [done|lia]|].
  destruct (hdr_BaseFee header) as [b|]; cbn [res_bind]; [split; [done|intros (_ & _ & _ & _ & _ & _ & H & _); done]|].
  destruct (VerifyGaslimit _ _) as [err|]; cbn [option_map]; [split; [done|intros (_ & _ & _ & _ & _ & _ & _ & H & _); done]|].
  destruct (_ - _ =? 1) eqn:E7; zbool; cbn [negb]; [|split; [done|lia]].
  destruct seal.
  - destruct (verifySeal e header false) as [[err|]| |]; cbn [res_bind option_map];
      (split; [intros H; try discriminate H|intros (_ & _ & _ & _ & _ & _ & _ & _ & _ & H); try discriminate (H eq_refl)]);
      try done; split_and!; first [done|lia].
  - cbn [res_bind option_map]. split; [|done]. intros _. split_and!; first [done|lia].
Qed.

(** C39: The results of a batch come out in the order of the headers, each as the worker
    computes it, in whatever order the workers finish. *)
Theorem VerifyHeaders_in_order {K : Keccak} {K5 : Keccak512} {P : Primality} {U : Uint256} {G : Background} {R : ChainReader}
    e headers seals unixNow done_order :
  is_full_fake (engine_mode e) = false -> done_order ≡ₚ seq 0 (length headers) ->
  VerifyHeaders e headers seals unixNow done_order =
    map (fun index => verifyHeaderWorker e headers seals (Z.of_nat index) unixNow) (seq 0 (length headers)).
Proof.
  intros Hf Ho. unfold VerifyHeaders. rewrite Hf. cbn [orb]. destruct headers as [|h headers]; [done|].
  rewrite (proj2 (Z.eqb_neq (zlen (h :: headers)) 0)) by (unfold zlen; cbn [length]; lia).
  f_equal. rewrite collect_in_order; [by rewrite Nat.sub_0_r|cbn [length]; lia|set_solver|].
  intros i Hi. left. rewrite Ho. apply list_elem_of_In, in_seq. lia.
Qed.

(** The generations before a block, the parent being generation 0: the header with the
    hash and number its child gives, as long as the chain has it, and the whole block too
    where the header speaks of uncles. *)
Inductive lineage {K : Keccak} {R : ChainReader} (parent : Hash) (number : Z) : nat -> Hash -> Z -> Header -> Prop :=
| lineage_here h : cr_GetHeader parent number = Some h -> lineage parent number 0 parent number h
| lineage_up h i hash n x :
    cr_GetHeader parent number = Some h ->
    hdr_UncleHash h = EmptyUncleHash \/ is_Some (cr_GetBlock parent number) ->
    lineage (hdr_ParentHash h) (u64 (number - 1)) i hash n x -> lineage parent number (Datatypes.S i) hash n x.

(** A header of the last seven generations before a block. *)
Definition ancestor_of {K : Keccak} {R : ChainReader} (block : Block) (hash : Hash) (n : Z) (h : Header) : Prop :=
  exists i, (i < 7)%nat /\ lineage (hdr_ParentHash (blk_header block)) (u64 (NumberU64 block - 1)) i hash n h.

(** An uncle one of them included. *)
Definition included_before {K : Keccak} {R : ChainReader} (block : Block) (uncle : Header) : Prop :=
  exists hash n h b, ancestor_of block hash n h /\ hdr_UncleHash h <> EmptyUncleHash /\ cr_GetBlock hash n = Some b /\
    uncle ∈ blk_uncles b.

(** A hash belongs to one header of the chain. *)
Definition headers_by_hash {R : ChainReader} : Prop :=
  forall hash n n' h h', cr_GetHeader hash n = Some h -> cr_GetHeader hash n' = Some h' -> h = h'.

Definition uncle_ok {K : Keccak} {K5 : Keccak512} {P : Primality} {U : Uint256} {G : Background} {R : ChainReader}
    (e : Engine) (block : Block) (ancestors : gmap Hash Header) (unixNow : Z) (uncle : Header) : Prop :=
  ancestors !! Header_Hash uncle = None /\ hdr_ParentHash uncle <> hdr_ParentHash (blk_header block) /\
  exists parent, ancestors !! hdr_ParentHash uncle = Some parent /\
    verifyHeader e cr_Config uncle parent true true unixNow = Ret None.

Lemma lineage_header {K : Keccak} {R : ChainReader} parent number i hash n h : lineage parent number i hash n h -> cr_GetHeader hash n = Some h.
Proof. by induction 1. Qed.

(** The hashes of the uncles a generation included, if the chain has its block. *)
Definition brood {K : Keccak} {R : ChainReader} (hash : Hash) (n : Z) (h : Header) : option (gset Hash) :=
  if hdr_UncleHash h =? EmptyUncleHash then Some ∅
  else option_map (fun b => list_to_set (map Header_Hash (blk_uncles b))) (cr_GetBlock hash n).

Lemma gather_S {K : Keccak} {R : ChainReader} n parent number U A :
  gather (Datatypes.S n) parent number U A =
    match cr_GetHeader parent number with
    | None => (U, A)
    | Some h =>
        match brood parent number h with
        | None => (U, <[parent := h]> A)
        | Some X => gather n (hdr_ParentHash h) (u64 (number - 1)) (X ∪ U) (<[parent := h]> A)
        end
    end.
Proof.
  cbn [gather]. destruct (cr_GetHeader parent number) as [h|]; [|done]. unfold brood. destruct (_ =? _); cbn [negb option_map].
  - by rewrite (left_id_L ∅ (∪)).
  - by destruct (cr_GetBlock parent number).
Qed.

Lemma brood_some {K : Keccak} {R : ChainReader} hash n h :
  is_Some (brood hash n h) <-> hdr_UncleHash h = EmptyUncleHash \/ is_Some (cr_GetBlock hash n).
Proof.
  unfold brood. destruct (Z.eqb_spec (hdr_UncleHash h) EmptyUncleHash) as [He|He]; [by split; [left|eexists]|].
  destruct (cr_GetBlock hash n); cbn [option_map]; (split; [intros [? ?]; try done; right; by eexists|intros [?|[? ?]]; try done; by eexists]).
Qed.

(** The hash of an uncle a header's block included. *)
Definition included_hash {K : Keccak} {R : ChainReader} (hash : Hash) (n : Z) (h : Header) (x : Hash) : Prop :=
  exists b u, hdr_UncleHash h <> EmptyUncleHash /\ cr_GetBlock hash n = Some b /\ u ∈ blk_uncles b /\ Header_Hash u = x.

Lemma brood_elem {K : Keccak} {R : ChainReader} hash n h x : x ∈ default ∅ (brood hash n h) <-> included_hash hash n h x.
Proof.
  unfold brood, included_hash. destruct (Z.eqb_spec (hdr_UncleHash h) EmptyUncleHash) as [He|He].
  { cbn. split; [set_solver|]. by intros (b & u & ? & _). }
  destruct (cr_GetBlock hash n) as [b|]; cbn [option_map default from_option].
  - unfold id. rewrite elem_of_list_to_set, list_elem_of_In, in_map_iff. split.
    + intros (u & <- & Hu%list_elem_of_In). by exists b, u.
    + intros (b' & u & _ & [= <-] & Hu%list_elem_of_In & <-). by exists u.
  - split; [set_solver|]. by intros (b & u & _ & ? & _).
Qed.

Lemma lineage_inv {K : Keccak} {R : ChainReader} parent number h : cr_GetHeader parent number = Some h ->
  forall i k m x, lineage parent number i k m x <-> (i = 0%nat /\ k = parent /\ m = number /\ x = h) \/
    exists j, i = Datatypes.S j /\ is_Some (brood parent number h) /\ lineage (hdr_ParentHash h) (u64 (number - 1)) j k m x.
Proof.
  intros Eh i k m x. split.
  - intros H. inversion H as [y Hy|y j k' m' x' Hy Hb Hl]; subst; rewrite Eh in Hy; injection Hy as <-; [by left|].
    right. exists j. by rewrite brood_some.
  - intros [(-> & -> & -> & ->)|(j & -> & Hb & Hl)]; [by constructor|]. eapply lineage_up; [done|by apply brood_some|done].
Qed.

(** [gather] collects the lineage. *)
Lemma gather_spec {K : Keccak} {R : ChainReader} n : forall parent number U A,
  let '(U', A') := gather n parent number U A in
  (forall x, x ∈ U' <-> x ∈ U \/ exists i hash m h, (i < n)%nat /\ lineage parent number i hash m h /\ included_hash hash m h x) /\
  (forall k x, A' !! k = Some x -> A !! k = Some x \/ exists i m, (i < n)%nat /\ lineage parent number i k m x) /\
  (forall k, is_Some (A !! k) -> is_Some (A' !! k)) /\
  (forall i k m x, (i < n)%nat -> lineage parent number i k m x -> is_Some (A' !! k)).
Proof.
  induction n as [|n IH]; intros parent number U A; [|rewrite gather_S].
  { cbn [gather]. split_and!; [|by left|done|lia]. intros x. split; [by left|]. intros [?|(i & ? & ? & ? & ? & _)]; [done|lia]. }
  destruct (cr_GetHeader parent number) as [h|] eqn:Eh.
  2:{ assert (forall i k m x, ~ lineage parent number i k m x) as Hno by (intros i k m x H; inversion H; congruence).
    split_and!; [|by left|done|intros i k m x _ H; by destruct (Hno i k m x)]. intros x. split; [by left|].
    intros [?|(i & k & m & y & ? & H & _)]; [done|by destruct (Hno i k m y)]. }
  set (A1 := <[parent := h]> A). pose proof (lineage_inv parent number h Eh) as Hinv.
  assert (forall k x, A1 !! k = Some x -> A !! k = Some x \/ lineage parent number 0 k number x) as HA1.
  { intros k x. unfold A1. rewrite lookup_insert_Some. intros [[<- <-]|[_ ?]]; [right; by constructor|by left]. }
  assert (forall k, is_Some (A !! k) \/ k = parent -> is_Some (A1 !! k)) as HA.
  { intros k. unfold A1. destruct (decide (k = parent)) as [->|Hk]; [rewrite lookup_insert_eq; by eexists|].
    rewrite lookup_insert_ne by done. by intros [?|?]. }
  pose proof (brood_elem parent number h) as Hel. destruct (brood parent number h) as [X|] eqn:Eb; cbn [default from_option] in Hel; unfold id in Hel.
  - specialize (IH (hdr_ParentHash h) (u64 (number - 1)) (X ∪ U) A1).
    destruct (gather n _ _ _ _) as [U' A']. destruct IH as (H1 & H2 & H3 & H4).
    assert (forall i k m x, lineage (hdr_ParentHash h) (u64 (number - 1)) i k m x -> lineage parent number (Datatypes.S i) k m x) as Hup
      by (intros i k m x Hl; apply Hinv; right; exists i; split_and!; [done|by eexists|done]).
    split_and!; [intros x; rewrite H1, elem_of_union, Hel; split| |auto|].
    + intros [[Hx|Hx]|(i & k & m & y & Hi & Hl & Hx)]; [|by left|].
      * right. exists 0%nat, parent, number, h. split_and!; [lia|by constructor|done].
      * right. exists (Datatypes.S i), k, m, y. split_and!; [lia|by apply Hup|done].
    + intros [Hx|(i & k & m & y & Hi & Hl & Hx)]; [by left; right|].
      apply Hinv in Hl as [(-> & -> & -> & ->)|(j & -> & _ & Hj)]; [by left; left|]. right. exists j, k, m, y. split_and!; done || lia.
    + intros k x Hx. destruct (H2 k x Hx) as [Hx1|(i & m & Hi & Hl)].
      * destruct (HA1 k x Hx1) as [?|?]; [by left|right]. exists 0%nat, number. split; [lia|done].
      * right. exists (Datatypes.S i), m. split; [lia|by apply Hup].
    + intros i k m x Hi Hl. apply Hinv in Hl as [(-> & -> & -> & ->)|(j & -> & _ & Hj)]; [apply H3, HA; by right|].
      apply (H4 j k m x); [lia|done].
  - split_and!; [intros x; split; [by left|]| |auto|].
    + intros [?|(i & k & m & y & Hi & Hl & Hx)]; [done|]. apply Hinv in Hl as [(-> & -> & -> & ->)|(j & -> & [? ?] & _)]; [|done].
      exfalso. apply Hel in Hx. set_solver.
    + intros k x Hx. destruct (HA1 k x Hx) as [?|?]; [by left|right]. exists 0%nat, number. split; [lia|done].
    + intros i k m x Hi Hl. apply Hinv in Hl as [(-> & -> & -> & ->)|(j & -> & [? ?] & _)]; [apply HA; by right|done].
Qed.

Lemma check_uncles_spec {K : Keccak} {K5 : Keccak512} {P : Primality} {U : Uint256} {G : Background} {R : ChainReader}
    e block ancestors unixNow us seen :
  check_uncles e block ancestors seen unixNow us = Ret None <->
    NoDup (map Header_Hash us) /\ (forall uncle, uncle ∈ us -> Header_Hash uncle ∉ seen /\ uncle_ok e block ancestors unixNow uncle).
Proof.
  revert seen. induction us as [|uncle us IH]; intros seen; cbn [check_uncles map].
  { split; [|done]. split; [constructor|]. by intros x ?%elem_of_nil. }
  assert (forall Q : Prop, ~ uncle_ok e block ancestors unixNow uncle \/ Header_Hash uncle ∈ seen ->
    (NoDup (Header_Hash uncle :: map Header_Hash us) /\
      (forall x, x ∈ uncle :: us -> Header_Hash x ∉ seen /\ uncle_ok e block ancestors unixNow x)) -> Q) as Hno.
  { intros Q Hbad [_ H]. destruct (H uncle) as [H1 H2]; [by left|]. destruct Hbad; done. }
  case_bool_decide as Hseen; [split; [done|apply Hno; by right]|].
  destruct (ancestors !! Header_Hash uncle) as [a|] eqn:Ea.
  { split; [done|]. apply Hno. left. intros (H & _). congruence. }
  destruct (ancestors !! hdr_ParentHash uncle) as [parent|] eqn:Ep.
  2:{ split; [done|]. apply Hno. left. intros (_ & _ & p & H & _). congruence. }
  destruct (_ =? _) eqn:Eq; zbool.
  { split; [done|]. apply Hno. left. by intros (_ & H & _). }
  destruct (verifyHeader e cr_Config uncle parent true true unixNow) as [[err|]| |] eqn:Ev; cbn [res_bind];
    try (split; [done|]; apply Hno; left; intros (_ & _ & pa & Hp & Hv); congruence).
  rewrite IH, list.NoDup_cons. split.
  - intros [Hd H]. split_and!; [|done|].
    + intros (x & Hx & Hin)%list_elem_of_fmap. destruct (H x Hin) as [Hns _]. apply Hns. rewrite <- Hx. set_solver.
    + intros x [->|Hx]%elem_of_cons; [|destruct (H x Hx); split; [set_solver|done]].
      split; [done|]. split_and!; [done|done|by exists parent].
  - intros [[Hnot Hd] H]. split; [done|]. intros x Hx. destruct (H x) as [H1 H2]; [by right|]. split; [|done].
    intros [Heq|Hin]%elem_of_union; [|exact (H1 Hin)]. apply elem_of_singleton in Heq. apply Hnot. rewrite <- Heq.
    by apply list_elem_of_In, in_map, list_elem_of_In.
Qed.

(** A parent for an uncle of a block: the block itself or a header of the last seven
    generations. *)
Definition parent_for {K : Keccak} {R : ChainReader} (block : Block) (hash : Hash) (h : Header) : Prop :=
  (hash = Block_Hash block /\ h = blk_header block) \/ (hash <> Block_Hash block /\ exists n, ancestor_of block hash n h).

Lemma gathered {K : Keccak} {R : ChainReader} (block : Block) U A :
  headers_by_hash -> gather 7 (hdr_ParentHash (blk_header block)) (u64 (NumberU64 block - 1)) ∅ ∅ = (U, A) ->
  (forall x, x ∈ U <-> exists u, included_before block u /\ Header_Hash u = x) /\
  (forall k h, <[Block_Hash block := blk_header block]> A !! k = Some h <-> parent_for block k h).
Proof.
  intros Hf Hg. pose proof (gather_spec 7 (hdr_ParentHash (blk_header block)) (u64 (NumberU64 block - 1)) ∅ ∅) as H.
  rewrite Hg in H. destruct H as (H1 & H2 & _ & H4). split.
  - intros x. rewrite H1. split.
    + intros [?|(i & k & m & h & Hi & Hl & b & u & Hne & Hb & Hu & Hx)]; [set_solver|]. exists u. split; [|done].
      exists k, m, h, b. split; [by exists i|done].
    + intros (u & (k & m & h & b & (i & Hi & Hl) & Hne & Hb & Hu) & Hx). right. exists i, k, m, h. split_and!; [done..|]. by exists b, u.
  - intros k h. unfold parent_for. rewrite lookup_insert_Some. split.
    + intros [[<- <-]|[Hne Hk]]; [by left|right]. split; [done|].
      destruct (H2 k h Hk) as [Hn|(i & m & Hi & Hl)]; [by rewrite lookup_empty in Hn|]. exists m. by exists i.
    + intros [[-> ->]|[Hne (m & i & Hi & Hl)]]; [by left|right]. split; [done|].
      destruct (H4 i k m h Hi Hl) as [h' Hh']. destruct (H2 k h' Hh') as [Hn|(j & m' & Hj & Hl')]; [by rewrite lookup_empty in Hn|].
      rewrite Hh'. f_equal. by apply (Hf k m' m); apply lineage_header in Hl, Hl'.
Qed.

(** C38: A block's uncles are accepted exactly if there are at most two of them, all
    different, none of them the block itself, nor an ancestor or an included uncle of the
    last seven generations, and each the child of one of these ancestors (or of the block,
    as far as this check goes) other than the block's own parent, with a header valid
    under that parent.  The generations are followed as far as the chain has them; the
    chain knows one header for a hash, and the engine is not the one that accepts
    everything. *)
Theorem VerifyUncles_exact {K : Keccak} {K5 : Keccak512} {P : Primality} {U : Uint256} {G : Background} {R : ChainReader}
    e block unixNow :
  is_full_fake (engine_mode e) = false -> headers_by_hash ->
  VerifyUncles e block unixNow = Ret None <->
    zlen (blk_uncles block) <= 2 /\ NoDup (map Header_Hash (blk_uncles block)) /\
    forall uncle, uncle ∈ blk_uncles block ->
      Header_Hash uncle <> Block_Hash block /\
      (forall n h, ~ ancestor_of block (Header_Hash uncle) n h) /\
      (forall u, included_before block u -> Header_Hash u <> Header_Hash uncle) /\
      hdr_ParentHash uncle <> hdr_ParentHash (blk_header block) /\
      exists parent, parent_for block (hdr_ParentHash uncle) parent /\
        verifyHeader e cr_Config uncle parent true true unixNow = Ret None.
Proof.
  intros Hf Hh. unfold VerifyUncles. rewrite Hf. change maxUncles with 2.
  destruct (_ >? 2) eqn:E; zbool; [split; [done|lia]|]. destruct (_ =? 0) eqn:E0; zbool.
  { split; [|done]. intros _. destruct (blk_uncles block) as [|u us]; [|unfold zlen in E0; cbn in E0; lia].
    split_and!; [done|constructor|]. by intros u ?%elem_of_nil. }
  destruct (gather _ _ _ _ _) as [uncles ancestors] eqn:Hg. destruct (gathered block uncles ancestors Hh Hg) as [H1 H2].
  rewrite check_uncles_spec. assert (forall uncle, Header_Hash uncle ∉ {[Block_Hash block]} ∪ uncles /\
      uncle_ok e block (<[Block_Hash block := blk_header block]> ancestors) unixNow uncle <->
      Header_Hash uncle <> Block_Hash block /\ (forall n h, ~ ancestor_of block (Header_Hash uncle) n h) /\
      (forall u, included_before block u -> Header_Hash u <> Header_Hash uncle) /\
      hdr_ParentHash uncle <> hdr_ParentHash (blk_header block) /\
      exists parent, parent_for block (hdr_ParentHash uncle) parent /\
        verifyHeader e cr_Config uncle parent true true unixNow = Ret None) as Hu.
  { intros uncle. rewrite not_elem_of_union, not_elem_of_singleton, H1. unfold uncle_ok. rewrite eq_None_not_Some. split.
    - intros ([Hne Hin] & Ha & Hp & parent & Hpar & Hv). rewrite H2 in Hpar. split_and!; [done| | |done|by exists parent].
      + intros n h Hanc. apply Ha. exists h. apply H2. right. split; [done|by exists n].
      + intros u Hu Heq. apply Hin. by exists u.
    - intros (Hne & Ha & Hin & Hp & parent & Hpar & Hv). split_and!; [done| | |done|exists parent; by rewrite H2].
      + intros (u & Hu & Heq). by apply (Hin u).
      + intros [h Hx]. apply H2 in Hx as [[? _]|[_ [n Hx]]]; [done|by apply (Ha n h)]. }
  split.
  - intros [Hd H]. split_and!; [done..|]. intros uncle Hin. by apply Hu, H.
  - intros (_ & Hd & H). split; [done|]. intros uncle Hin. by apply Hu, H.
Qed.
