(* ===== verification/StateTransition.v ===== *)
(** * Applying a message (client/core/state_transition.go, client/core/gaspool.go)

    The gas pool of a block, the gas a transaction costs before it runs, the
    checks on a message, and the transition itself: buy the gas, run the call or
    the creation, refund, pay the fees. *)

From Stdlib Require Import Strings.Byte.
From S2P Require Import Prelude.

From S2P Require Import Uint256.
From S2P Require Import Common.
From S2P Require Import Params.
From S2P Require Import Precompiles.
From S2P Require Import Crypto.
From S2P Require Import StateInterface.
From S2P Require Import Machine.
From S2P Require Import Invariant.
From S2P Require Import Evm.
From S2P Require Import Safety.
From S2P Require Import Transaction.
From S2P Require Import Header.
From S2P Require Import StateObject.
From S2P Require Import StateStore.
From S2P Require Import StateSpec.
From S2P Require Import StateSafe.
From S2P Require Import StateTheorems.
From S2P Require Import StateSupply.
From S2P Require Import CoreEvm.

(** client/core/error.go: the reasons a message is not valid in its block. *)
Module core.
Inductive error : Type :=
| ErrNonceTooLow
| ErrNonceTooHigh
| ErrNonceMax
| ErrGasLimitReached
| ErrInsufficientFundsForTransfer
| ErrMaxInitCodeSizeExceeded
| ErrInsufficientFunds
| ErrGasUintOverflow
| ErrIntrinsicGas
| ErrTipAboveFeeCap
| ErrTipVeryHigh
| ErrFeeCapVeryHigh
| ErrFeeCapTooLow
| ErrSenderNoEOA.
End core.

(** ** The gas pool *)

Definition GasPool : Type := Z.

Definition GasPool_AddGas (amount : Z) : GM GasPool unit :=
  let* gp := gget id in
  if gp >? MaxUint64 - amount then gpanic PanicGasPool else gput (fun gp => u64 (gp + amount)).

Definition GasPool_SubGas (amount : Z) : GM GasPool (option core.error) :=
  let* gp := gget id in
  if gp <? amount then gret (Some core.ErrGasLimitReached)
  else gput (fun gp => u64 (gp - amount)) ;;; gret None.

Definition GasPool_Gas (gp : GasPool) : Z := gp.
Definition GasPool_SetGas (gas : Z) : GM GasPool unit := gput (fun _ => gas).

(** ** The gas a message costs before it runs *)

Definition non_zero (data : list byte) : Z := zlen (filter (fun b => b <> Byte.x00) data).

(** One step of the sum: [count] things at [price], or an overflow. *)
Definition charge (gas count price : Z) : option Z :=
  if (MaxUint64 - gas) / price <? count then None else Some (u64 (gas + u64 (count * price))).

(** The end of the sum, without checks. *)
Definition with_list (accessList : option AccessList) (gas : Z) : Z * option core.error :=
  match accessList with
  | Some al =>
      let gas := u64 (gas + u64 (zlen al * TxAccessListAddressGas)) in
      (u64 (gas + u64 (StorageKeys al * TxAccessListStorageKeyGas)), None)
  | None => (gas, None)
  end.

Definition IntrinsicGas (data : list byte) (accessList : option AccessList)
    (isContractCreation isHomestead isEIP2028 isEIP3860 : bool) : Z * option core.error :=
  let gas := if isContractCreation && isHomestead then TxGasContractCreation else TxGas in
  let dataLen := zlen data in
  let overflow := (0, Some core.ErrGasUintOverflow) in
  if dataLen >? 0 then
    let nz := non_zero data in
    let nonZeroGas := if isEIP2028 then TxDataNonZeroGasEIP2028 else TxDataNonZeroGasFrontier in
    match charge gas nz nonZeroGas with
    | None => overflow
    | Some gas =>
        let z := dataLen - nz in
        match charge gas z TxDataZeroGas with
        | None => overflow
        | Some gas =>
            if isContractCreation && isEIP3860 then
              match charge gas (toWordSize dataLen) InitCodeWordGas with
              | None => overflow
              | Some gas => with_list accessList gas
              end
            else with_list accessList gas
        end
    end
  else with_list accessList gas.

(** ** Messages *)

Record Message : Type := mkMessage {
  msg_To : option Address;
  msg_From : Address;
  msg_Nonce : Z;
  msg_Value : Z;
  msg_GasLimit : Z;
  msg_GasPrice : Z;
  msg_GasFeeCap : option Z;
  msg_GasTipCap : option Z;
  msg_Data : list byte;
  msg_AccessList : option AccessList;
  msg_SkipAccountChecks : bool
}.

(** The sender comes from the signature ([types.Sender], whose error is
    returned with the message). *)
Definition TransactionToMessage (tx : Transaction) (from : Address) (baseFee : option Z) : Message :=
  mkMessage (tx_To tx) from (tx_Nonce tx) (tx_Value tx) (tx_Gas tx)
    (match baseFee with
     | Some b => BigMin (tx_GasTipCap tx + b) (tx_GasFeeCap tx)
     | None => tx_GasPrice tx
     end)
    (Some (tx_GasFeeCap tx)) (Some (tx_GasTipCap tx)) (tx_Data tx) (tx_AccessList tx) false.

(** ** The transition *)

Record ExecutionResult : Type := mkExecutionResult {
  UsedGas : Z;
  res_Err : option error;
  ReturnData : list byte
}.

Definition Failed (r : ExecutionResult) : bool := negb (bool_decide (res_Err r = None)).
Definition result_Return (r : ExecutionResult) : list byte :=
  match res_Err r with Some _ => [] | None => ReturnData r end.
Definition result_Revert (r : ExecutionResult) : list byte :=
  if bool_decide (res_Err r = Some ErrExecutionReverted) then ReturnData r else [].

Section transition.
Context {S : Type} {D : StateDB S} {K : Keccak} {E : EVM S} {C : Calls S}.

(** The message is a parameter; the state database is the one of the EVM. *)
Record StateTransition : Type := mkStateTransition {
  st_gp : GasPool;
  st_gasRemaining : Z;
  st_initialGas : Z;
  st_evm : EVMState S
}.

Definition NewStateTransition (evm : EVMState S) (gp : GasPool) : StateTransition := mkStateTransition gp 0 0 evm.

Definition set_gp gp st := mkStateTransition gp (st_gasRemaining st) (st_initialGas st) (st_evm st).
Definition set_gasRemaining g st := mkStateTransition (st_gp st) g (st_initialGas st) (st_evm st).
Definition set_initialGas g st := mkStateTransition (st_gp st) (st_gasRemaining st) g (st_evm st).
Definition set_st_evm e st := mkStateTransition (st_gp st) (st_gasRemaining st) (st_initialGas st) e.

Definition on_gp {A} (m : GM GasPool A) : GM StateTransition A := gzoom st_gp set_gp m.
Definition on_st_evm {A} (m : GM (EVMState S) A) : GM StateTransition A := gzoom st_evm set_st_evm m.
Definition st_db {A} (m : GM S A) : GM StateTransition A := on_st_evm (on_sdb m).

(** A [*big.Int] that may be nil. *)
Definition big_deref (x : option Z) : Res Z := match x with Some x => Ret x | None => Panic PanicNil end.

Variable msg : Message.

Definition st_to : Address := match msg_To msg with None => 0 | Some a => a end.

Definition buyGas : GM StateTransition (option core.error) :=
  let mgval := msg_GasLimit msg * msg_GasPrice msg in
  let balanceCheck :=
    match msg_GasFeeCap msg with
    | Some cap => msg_GasLimit msg * cap + msg_Value msg
    | None => mgval
    end in
  let* have := st_db (GetBalance (msg_From msg)) in
  if have <? balanceCheck then gret (Some core.ErrInsufficientFunds)
  else
    let* err := on_gp (GasPool_SubGas (msg_GasLimit msg)) in
    match err with
    | Some err => gret (Some err)
    | None =>
        gput (fun st => set_gasRemaining (u64 (st_gasRemaining st + msg_GasLimit msg)) st) ;;;
        gput (set_initialGas (msg_GasLimit msg)) ;;;
        st_db (SubBalance (msg_From msg) mgval) ;;;
        gret None
    end.

(** [preCheck]: the nonce and the account ... *)
Definition preCheck_account : GM StateTransition (option core.error) :=
  if negb (msg_SkipAccountChecks msg) then
    let* stNonce := st_db (GetNonce (msg_From msg)) in
    let msgNonce := msg_Nonce msg in
    if stNonce <? msgNonce then gret (Some core.ErrNonceTooHigh)
    else if stNonce >? msgNonce then gret (Some core.ErrNonceTooLow)
    else if u64 (stNonce + 1) <? stNonce then gret (Some core.ErrNonceMax)
    else
      let* codeHash := st_db (GetCodeHash (msg_From msg)) in
      if negb (codeHash =? 0) && negb (codeHash =? emptyCodeHash)
      then gret (Some core.ErrSenderNoEOA) else gret None
  else gret None.

(** ... whether the fees are checked at all, and the fees. *)
Definition fees_checked : Res bool :=
  if negb (NoBaseFee evm_Config) then Ret true
  else
    let? cap := big_deref (msg_GasFeeCap msg) in
    if big_BitLen cap >? 0 then Ret true
    else let? tip := big_deref (msg_GasTipCap msg) in Ret (big_BitLen tip >? 0).

Definition preCheck_fees : Res (option core.error) :=
  if IsLondon chainConfig (BlockNumber Context) then
    let? checked := fees_checked in
    if checked : bool then
      let? cap := big_deref (msg_GasFeeCap msg) in
      if big_BitLen cap >? 256 then Ret (Some core.ErrFeeCapVeryHigh)
      else
        let? tip := big_deref (msg_GasTipCap msg) in
        if big_BitLen tip >? 256 then Ret (Some core.ErrTipVeryHigh)
        else if cap <? tip then Ret (Some core.ErrTipAboveFeeCap)
        else
          let? base := big_deref (BaseFee Context) in
          if cap <? base then Ret (Some core.ErrFeeCapTooLow) else Ret None
    else Ret None
  else Ret None.

Definition preCheck : GM StateTransition (option core.error) :=
  let* err := preCheck_account in
  match err with
  | Some err => gret (Some err)
  | None =>
      let* err := gpure preCheck_fees in
      match err with Some err => gret (Some err) | None => buyGas end
  end.

Definition gasUsed (st : StateTransition) : Z := u64 (st_initialGas st - st_gasRemaining st).

Definition refundGas (refundQuotient : Z) : GM StateTransition unit :=
  let* used := gget gasUsed in
  let refund := used / refundQuotient in
  let* r := st_db GetRefund in
  let* refund := (if refund >? r then st_db GetRefund else gret refund) in
  gput (fun st => set_gasRemaining (u64 (st_gasRemaining st + refund)) st) ;;;
  let* g := gget st_gasRemaining in
  st_db (AddBalance (msg_From msg) (g * msg_GasPrice msg)) ;;;
  on_gp (GasPool_AddGas g).

(** The rules of the block the message is applied in. *)
Definition st_rules : Rules :=
  config_Rules chainConfig (BlockNumber Context) (bool_decide (is_Some (Random Context))) (Time Context).

(** The end of [TransitionDb]: what the miner gets. *)
Definition payFees : GM StateTransition unit :=
  let* tip :=
    if rIsLondon st_rules then
      let* cap := gpure (big_deref (msg_GasFeeCap msg)) in
      let* base := gpure (big_deref (BaseFee Context)) in
      let* tip := gpure (big_deref (msg_GasTipCap msg)) in
      gret (BigMin tip (cap - base))
    else gret (msg_GasPrice msg) in
  let* skip :=
    if NoBaseFee evm_Config then
      let* cap := gpure (big_deref (msg_GasFeeCap msg)) in
      if cap =? 0 then let* t := gpure (big_deref (msg_GasTipCap msg)) in gret (t =? 0) else gret false
    else gret false in
  if skip : bool then gret tt
  else
    let* used := gget gasUsed in
    st_db (AddBalance (Coinbase Context) (used * tip)).

(** The part of [TransitionDb] from the execution on. *)
Definition execute : GM StateTransition ExecutionResult :=
  let sender := AccountRef (msg_From msg) in
  let* g := gget st_gasRemaining in
  let* r :=
    match msg_To msg with
    | None =>
        let* r := on_st_evm (evm_Create sender (msg_Data msg) g (msg_Value msg)) in
        let '(ret, _, gasLeft, vmerr) := r in gret (ret, gasLeft, vmerr)
    | Some _ =>
        let* n := st_db (GetNonce (msg_From msg)) in
        st_db (SetNonce (msg_From msg) (u64 (n + 1))) ;;;
        on_st_evm (evm_Call sender st_to (msg_Data msg) g (msg_Value msg))
    end in
  let '(ret, gasLeft, vmerr) := r in
  gput (set_gasRemaining gasLeft) ;;;
  (if negb (rIsLondon st_rules) then refundGas RefundQuotient else refundGas RefundQuotientEIP3529) ;;;
  payFees ;;;
  let* used := gget gasUsed in
  gret (mkExecutionResult used vmerr ret).

Definition TransitionDb : GM StateTransition (ExecutionResult + core.error) :=
  let* err := preCheck in
  match err with
  | Some err => gret (inr err)
  | None =>
      let contractCreation := bool_decide (msg_To msg = None) in
      let '(gas, err) := IntrinsicGas (msg_Data msg) (msg_AccessList msg) contractCreation
        (rIsHomestead st_rules) (rIsIstanbul st_rules) (rIsShanghai st_rules) in
      match err with
      | Some err => gret (inr err)
      | None =>
          let* g := gget st_gasRemaining in
          if g <? gas then gret (inr core.ErrIntrinsicGas)
          else
            gput (set_gasRemaining (u64 (g - gas))) ;;;
            let* enough :=
              if msg_Value msg >? 0 then st_db (CanTransfer Context (msg_From msg) (msg_Value msg)) else gret true in
            if negb enough then gret (inr core.ErrInsufficientFundsForTransfer)
            else if rIsShanghai st_rules && contractCreation && (zlen (msg_Data msg) >? MaxInitCodeSize)
            then gret (inr core.ErrMaxInitCodeSizeExceeded)
            else
              st_db (Prepare st_rules (msg_From msg) (Coinbase Context) (msg_To msg) (ActivePrecompiles st_rules)
                (default [] (msg_AccessList msg))) ;;;
              let* r := execute in gret (inl r)
      end
  end.
End transition.
Arguments StateTransition : clear implicits.

Definition ApplyMessage {S} {D : StateDB S} {K : Keccak} {E : EVM S} {C : Calls S} (msg : Message)
    (evm : EVMState S) (gp : GasPool) : Res ((ExecutionResult + core.error) * StateTransition S) :=
  TransitionDb msg (NewStateTransition evm gp).

(** ** Lemmas: the intrinsic gas *)

Lemma charge_spec gas count price :
  is_u64 gas -> 0 <= count -> 0 < price ->
  charge gas count price = if two64 <=? gas + count * price then None else Some (gas + count * price).
Proof.
  intros Hg Hc Hp. unfold charge. assert ((MaxUint64 - gas) / price < count <-> two64 <= gas + count * price) as H.
  { unfold MaxUint64. split; intros H.
    - pose proof (Z.mul_succ_div_gt (two64 - 1 - gas) price Hp).
      pose proof (Z.mul_le_mono_nonneg_l (Z.succ ((two64 - 1 - gas) / price)) count price ltac:(lia) ltac:(lia)). lia.
    - apply Z.div_lt_upper_bound; lia. }
  destruct (_ <? count) eqn:E1, (two64 <=? _) eqn:E2; zbool; try lia; [done|].
  unfold is_u64 in *. rewrite (u64_small (count * price)) by (unfold is_u64; nia).
  by rewrite u64_small by (unfold is_u64; nia).
Qed.

Lemma non_zero_range data : 0 <= non_zero data <= zlen data.
Proof. unfold non_zero, zlen. split; [lia|]. apply Nat2Z.inj_le, length_filter. Qed.

(** The exact cost of the data, and of the access list. *)
Definition data_cost (data : list byte) (isContractCreation isHomestead isEIP2028 isEIP3860 : bool) : Z :=
  (if isContractCreation && isHomestead then 53000 else 21000) +
  non_zero data * (if isEIP2028 then 16 else 68) + (zlen data - non_zero data) * 4 +
  (if isContractCreation && isEIP3860 then 2 * ((zlen data + 31) / 32) else 0).

Definition list_cost (accessList : option AccessList) : Z :=
  match accessList with Some al => 2400 * zlen al + 1900 * StorageKeys al | None => 0 end.

Lemma IntrinsicGas_eq data al c h e i :
  zlen data < two64 ->
  IntrinsicGas data al c h e i =
    if two64 <=? data_cost data c h e i then (0, Some core.ErrGasUintOverflow)
    else (u64 (data_cost data c h e i + list_cost al), None).
Proof.
  intros Hlen. unfold IntrinsicGas. pose proof (non_zero_range data) as Hnz. pose proof (zlen_nonneg data) as Hl0.
  set (base := if c && h then TxGasContractCreation else TxGas).
  assert (base = if c && h then 53000 else 21000) as Hbase by (unfold base; by case_match).
  assert (is_u64 base) as Hbu by (rewrite Hbase; case_match; done).
  assert (forall g, is_u64 g -> with_list al g = (u64 (g + list_cost al), None)) as Hwl.
  { intros g Hg. unfold with_list, list_cost. destruct al as [al|]; [|by rewrite Z.add_0_r, u64_small].
    f_equal. unfold TxAccessListAddressGas, TxAccessListStorageKeyGas, u64.
    rewrite !Zplus_mod_idemp_r, !Zplus_mod_idemp_l. f_equal. lia. }
  unfold data_cost. rewrite <- Hbase.
  assert (TxDataNonZeroGasEIP2028 = 16 /\ TxDataNonZeroGasFrontier = 68 /\ TxDataZeroGas = 4 /\ InitCodeWordGas = 2)
    as (Hc1 & Hc2 & Hc3 & Hc4) by done. rewrite Hc1, Hc2, Hc3, Hc4.
  set (price := if e then 16 else 68). assert (0 < price) as Hprice by (unfold price; destruct e; lia).
  assert (0 <= (zlen data + 31) / 32) as Hw by (apply Z.div_pos; lia).
  assert (0 <= if c && i then 2 * ((zlen data + 31) / 32) else 0) as Hwords by (destruct (c && i); lia).
  destruct (zlen data >? 0) eqn:E0; zbool.
  2:{ assert (zlen data = 0) as Hz by lia. assert (non_zero data = 0) as Hn by lia. rewrite Hwl by done.
      rewrite Hz, Hn. replace (if c && i then 2 * ((0 + 31) / 32) else 0) with 0 by by destruct (c && i).
      replace (base + 0 * price + (0 - 0) * 4 + 0) with base by lia. unfold is_u64 in Hbu. by rewrite (proj2 (Z.leb_gt _ _)) by lia. }
  rewrite charge_spec by (done || lia). set (g1 := base + non_zero data * price).
  assert (base <= g1) by (unfold g1; nia).
  destruct (two64 <=? g1) eqn:E1; zbool.
  { rewrite (proj2 (Z.leb_le _ _)); [done|]. lia. }
  rewrite charge_spec by (unfold is_u64 in *; lia). set (g2 := g1 + (zlen data - non_zero data) * 4).
  assert (g1 <= g2) by (unfold g2; lia).
  destruct (two64 <=? g2) eqn:E2; zbool.
  { rewrite (proj2 (Z.leb_le _ _)); [done|]. lia. }
  destruct (c && i).
  - rewrite toWordSize_spec by (unfold is_u64 in *; lia). rewrite charge_spec by (unfold is_u64 in *; lia).
    rewrite (Z.mul_comm _ 2). destruct (two64 <=? _) eqn:E3; [done|]. zbool. apply Hwl. unfold is_u64 in *; lia.
  - rewrite Z.add_0_r, (proj2 (Z.leb_gt _ _)) by lia. apply Hwl. unfold is_u64 in *; lia.
Qed.

(** ** Lemmas: steps of a transition *)

Section steps.
Context {S : Type} {D : StateDB S} {K : Keccak} {SP : StateDBSpec S} {E : EVM S}.
Context {A : Type} (Q : A -> StateTransition S -> Prop).

Lemma step_st_db {B} (op : GM S B) P (k : B -> GM (StateTransition S) A) gp g i e :
  wp no_panic op P (evm_StateDB e) ->
  (forall b s', P b s' -> wp refund_panic (k b) Q (mkStateTransition gp g i (set_sdb s' e))) ->
  wp refund_panic (gbind (st_db op) k) Q (mkStateTransition gp g i e).
Proof.
  intros Hm Hk. apply wp_gbind. unfold st_db, on_st_evm, on_sdb. do 2 apply wp_gzoom.
  apply wp_no_panic. eapply wp_mono; [exact Hm|]. intros b s' HP. by apply Hk.
Qed.

Lemma step_st_gbind {B B'} (m : GM (StateTransition S) B) (k : B -> GM (StateTransition S) B')
    (k' : B' -> GM (StateTransition S) A) st :
  wp refund_panic (gbind m (fun b => gbind (k b) k')) Q st -> wp refund_panic (gbind (gbind m k) k') Q st.
Proof. unfold wp, gbind. by destruct (m st) as [[b s']| |]. Qed.
End steps.

(** The balances before and after: the supply grew by at most [n]. *)
Definition supply {S} {D : StateDB S} {K : Keccak} {SP : StateDBSpec S} (n : Z) (e e' : EVMState S) : Prop :=
  grows_by n (balance_at (evm_StateDB e)) (balance_at (evm_StateDB e')).

(** A message whose fees are set and not negative, with data of a length
    that exists. *)
Record msg_ok (msg : Message) (cap tip : Z) : Prop := {
  mo_gas : is_u64 (msg_GasLimit msg);
  mo_cap : msg_GasFeeCap msg = Some cap;
  mo_tip : msg_GasTipCap msg = Some tip;
  mo_tip_nonneg : 0 <= tip;
  mo_price : 0 <= msg_GasPrice msg <= cap;
  mo_value : 0 <= msg_Value msg;
  mo_data : zlen (msg_Data msg) < 2 ^ 60
}.

Section transition_spec.
Context {S : Type} {D : StateDB S} {K : Keccak} {KL : KeccakLaws K} {SP : StateDBSpec S}.
Context {E : EVM S} {ES : EVMSpec E}.
Context (Hrules : chainRules = st_rules).
Variables (msg : Message) (cap tip : Z).
Context (Hmsg : msg_ok msg cap tip).

(** What a message that is executed has passed. *)
Record accepted (e : EVMState S) (gp : Z) : Prop := {
  acc_nonce : msg_SkipAccountChecks msg = false ->
    nonce_at (evm_StateDB e) (msg_From msg) = msg_Nonce msg /\ msg_Nonce msg < MaxUint64 /\
    (codehash_of (evm_StateDB e) (msg_From msg) = 0 \/ codehash_of (evm_StateDB e) (msg_From msg) = emptyCodeHash);
  acc_pool : msg_GasLimit msg <= gp;
  acc_funds : msg_GasLimit msg * cap + msg_Value msg <= balance_at (evm_StateDB e) (msg_From msg);
  acc_fees : rIsLondon st_rules = true -> NoBaseFee evm_Config && (cap =? 0) && (tip =? 0) = false ->
    tip <= cap /\ exists base, BaseFee Context = Some base /\ base <= cap
}.

(** What the gas costs. *)
Definition paid : Z := msg_GasLimit msg * msg_GasPrice msg.

Lemma paid_nonneg : 0 <= paid.
Proof using Hmsg. unfold paid. destruct Hmsg as [[]]. nia. Qed.

(** The state and the pool of a message that is refused before it pays. *)
Definition untouched (gp g i : Z) (e : EVMState S) (st : StateTransition S) : Prop :=
  st_gp st = gp /\ st_gasRemaining st = g /\ st_initialGas st = i /\
  evm_ok (st_evm st) /\ evm_ext e (st_evm st) /\ evm_equiv (st_evm st) e.

Lemma untouched_refl gp g i e : evm_ok e -> untouched gp g i e (mkStateTransition gp g i e).
Proof. intros He. split_and!; try done. unfold evm_equiv. cbn. reflexivity. Qed.

Definition bought (gp : Z) (e : EVMState S) (st : StateTransition S) : Prop :=
  st_gp st = gp - msg_GasLimit msg /\ st_gasRemaining st = msg_GasLimit msg /\
  st_initialGas st = msg_GasLimit msg /\ evm_ok (st_evm st) /\ evm_ext e (st_evm st) /\
  supply (- paid) e (st_evm st) /\
  balance_at (evm_StateDB (st_evm st)) (msg_From msg) = balance_at (evm_StateDB e) (msg_From msg) - paid.

Lemma buyGas_ok gp e :
  is_u64 gp -> evm_ok e ->
  wp refund_panic (buyGas msg)
    (fun r st => match r with
     | Some _ => untouched gp 0 0 e st
     | None => bought gp e st /\ msg_GasLimit msg <= gp /\
         msg_GasLimit msg * cap + msg_Value msg <= balance_at (evm_StateDB e) (msg_From msg)
     end) (mkStateTransition gp 0 0 e).
Proof using Hmsg.
  intros Hgp He. unfold buyGas. rewrite (mo_cap _ _ _ Hmsg). pose proof (mo_gas _ _ _ Hmsg) as Hg.
  pose proof paid_nonneg as Hpaid.
  eapply step_st_db; [apply GetBalance_ok, He|]. intros b s' (-> & Hs' & Hx & Heq).
  assert (evm_ext e (set_sdb s' e)) as Hext by by apply evm_ext_sdb.
  destruct (_ <? _) eqn:E1; zbool; [apply wp_gret; split_and!; try done; by apply evm_ok_sdb|].
  apply wp_gbind, wp_gzoom. unfold GasPool_SubGas. apply wp_gbind, wp_gget. cbn [st_gp id].
  destruct (gp <? _) eqn:E2; zbool; [do 2 apply wp_gret; split_and!; try done; by apply evm_ok_sdb|].
  apply wp_gbind, wp_gput, wp_gret. do 2 apply wp_gbind, wp_gput.
  unfold set_gp, set_gasRemaining, set_initialGas. cbn [st_gp st_gasRemaining st_initialGas st_evm].
  assert (paid <= balance_at (evm_StateDB e) (msg_From msg)) as Hle.
  { unfold paid. destruct Hmsg as [[] _ _ _ [] ? _]. nia. }
  eapply step_st_db; [apply SubBalance_ok; [done|]|].
  { cbn. rewrite (balance_equiv _ _ _ Heq). split; [exact Hpaid|exact Hle]. }
  intros u s'' (Hs2 & Hx2 & Hb2). apply wp_gret. change (set_sdb s'' (set_sdb s' e)) with (set_sdb s'' e).
  cbn in Hs2, Hx2, Hb2. rewrite Z.add_0_l.
  rewrite (u64_small (gp - _)) by (unfold is_u64 in *; lia). rewrite u64_small by done.
  assert (sdb_evolve (- paid) (evm_StateDB e) s'') as Hx12.
  { replace (- paid) with (0 + - paid) by lia. by eapply evolve_trans. }
  split_and!; [|done|done]. split_and!; try done.
  - by apply evm_ok_sdb.
  - apply evm_ext_sdb. unfold sdb_ext. eapply evolve_weaken; [|exact Hx12]. lia.
  - by apply evolve_supply.
  - cbn. rewrite Hb2, decide_True, (balance_equiv _ _ _ Heq) by done. fold paid. lia.
Qed.

Lemma preCheck_account_ok gp e :
  evm_ok e ->
  wp refund_panic (preCheck_account msg)
    (fun r st => untouched gp 0 0 e st /\ (r = None -> msg_SkipAccountChecks msg = false ->
       nonce_at (evm_StateDB e) (msg_From msg) = msg_Nonce msg /\ msg_Nonce msg < MaxUint64 /\
       (codehash_of (evm_StateDB e) (msg_From msg) = 0 \/ codehash_of (evm_StateDB e) (msg_From msg) = emptyCodeHash)))
    (mkStateTransition gp 0 0 e).
Proof.
  intros He. unfold preCheck_account. destruct (msg_SkipAccountChecks msg); cbn [negb].
  { apply wp_gret. split; [by apply untouched_refl|done]. }
  eapply step_st_db; [apply GetNonce_ok, He|]. intros n s' (-> & Hs' & Hx & Heq).
  assert (evm_ext e (set_sdb s' e)) as Hext by by apply evm_ext_sdb.
  assert (untouched gp 0 0 e (mkStateTransition gp 0 0 (set_sdb s' e))) as Hun
    by (split_and!; try done; by apply evm_ok_sdb).
  destruct (_ <? msg_Nonce msg) eqn:E1; [by apply wp_gret|].
  destruct (_ >? msg_Nonce msg) eqn:E2; [by apply wp_gret|].
  destruct (u64 _ <? _) eqn:E3; [by apply wp_gret|]. zbool.
  pose proof (nonce_u64 (evm_StateDB e) (msg_From msg) (ok_sdb _ He)) as Hn.
  assert (msg_Nonce msg < MaxUint64) as Hmax.
  { unfold is_u64, MaxUint64 in *. destruct (Z.eq_dec (nonce_at (evm_StateDB e) (msg_From msg)) (two64 - 1)) as [Hq|]; [|lia].
    rewrite Hq in E3. replace (two64 - 1 + 1) with two64 in E3 by lia. vm_compute in E3. done. }
  eapply step_st_db; [by apply GetCodeHash_ok|]. intros h s2 (-> & Hs2 & Hx2 & Heq2).
  change (set_sdb s2 (set_sdb s' e)) with (set_sdb s2 e). cbn in Hx2, Heq2.
  assert (evm_ext e (set_sdb s2 e)) as Hext2 by (apply evm_ext_sdb; by etrans).
  assert (untouched gp 0 0 e (mkStateTransition gp 0 0 (set_sdb s2 e))) as Hun2.
  { split_and!; try done; [by apply evm_ok_sdb|]. unfold evm_equiv. cbn. by etrans. }
  cbn [evm_StateDB set_sdb]. rewrite (codehash_of_equiv _ _ _ Heq).
  destruct (negb _ && negb _) eqn:E4; [by apply wp_gret|]. apply wp_gret. split; [done|]. intros _ _.
  split; [lia|]. split; [done|]. apply andb_false_iff in E4 as [E4|E4]; zbool; [by left|by right].
Qed.

(** The fees are not checked, and no fee is paid, for simulated calls without fees. *)
Definition fees_skipped : bool := NoBaseFee evm_Config && (cap =? 0) && (tip =? 0).

Lemma big_BitLen_pos x : (big_BitLen x >? 0) = negb (x =? 0).
Proof.
  unfold big_BitLen. rewrite Z.gtb_ltb. destruct (x =? 0); [done|]. cbn.
  pose proof (Z.log2_nonneg (Z.abs x)). apply Z.ltb_lt. lia.
Qed.

Lemma preCheck_fees_ok :
  exists r, preCheck_fees msg = Ret r /\
    (r = None -> rIsLondon st_rules = true -> fees_skipped = false ->
       tip <= cap /\ exists base, BaseFee Context = Some base /\ base <= cap).
Proof using Hmsg Hrules ES.
  unfold preCheck_fees. change (IsLondon chainConfig (BlockNumber Context)) with (rIsLondon st_rules).
  destruct (rIsLondon st_rules) eqn:El; [|by eexists].
  assert (fees_checked msg = Ret (negb fees_skipped)) as ->.
  { unfold fees_checked, fees_skipped, big_deref. rewrite (mo_cap _ _ _ Hmsg), (mo_tip _ _ _ Hmsg). cbn [res_bind].
    rewrite !big_BitLen_pos. by destruct (NoBaseFee _), (cap =? 0), (tip =? 0). }
  cbn [res_bind]. destruct fees_skipped; cbn [negb]; [by eexists|].
  unfold big_deref. rewrite (mo_cap _ _ _ Hmsg), (mo_tip _ _ _ Hmsg). cbn [res_bind].
  destruct env_BaseFee as [base Hbase]; [by rewrite Hrules|]. rewrite Hbase. cbn [res_bind].
  repeat (destruct (_ >? _); [by eexists|]). destruct (cap <? tip) eqn:E1; [by eexists|].
  destruct (cap <? base) eqn:E2; [by eexists|]. eexists. split; [done|]. intros _ _ _. zbool. eauto.
Qed.

Lemma preCheck_ok gp e :
  is_u64 gp -> evm_ok e ->
  wp refund_panic (preCheck msg)
    (fun r st => match r with
     | Some _ => untouched gp 0 0 e st
     | None => bought gp e st /\ accepted e gp
     end) (mkStateTransition gp 0 0 e).
Proof using Hmsg Hrules ES.
  intros Hgp He. unfold preCheck. apply wp_gbind. eapply wp_mono; [by apply preCheck_account_ok|].
  intros [err|] [gp1 g1 i1 e1] [(Hgp1 & Hg1 & Hi1 & He1 & Hx1 & Hq1) Hacc];
    cbn [st_gp st_gasRemaining st_initialGas st_evm] in *; subst gp1 g1 i1; [by apply wp_gret|].
  destruct preCheck_fees_ok as (r & Hr & Hfees). apply wp_gbind. eapply wp_gpure; [exact Hr|].
  destruct r as [err|]; [by apply wp_gret|].
  eapply wp_mono; [by apply buyGas_ok|]. intros [err|] st.
  - intros (H1 & H2 & H3 & H4 & H5 & H6). split_and!; try done; [by etrans|]. unfold evm_equiv in *. by etrans.
  - intros [(H1 & H2 & H3 & H4 & H5 & H6 & H7) [H8 H9]]. unfold evm_equiv in Hq1.
    rewrite (balance_equiv _ _ _ Hq1) in H7, H9. split; [|by split; auto].
    split_and!; try done; [by etrans|]. unfold supply in *. replace (- paid) with (0 + - paid) by lia.
    eapply grows_trans; [|exact H6]. apply grows_same. intros a. by apply balance_equiv.
Qed.

(** *** The end of the transition *)

(** Without reverting below, except that the access list was prepared. *)
Definition carried (n : Z) (e e' : EVMState S) : Prop :=
  evm_ok e' /\ depth e' = depth e /\ supply n e e' /\ tx_at (evm_StateDB e') = tx_at (evm_StateDB e).

Lemma carried_trans n m e1 e2 e3 : carried n e1 e2 -> carried m e2 e3 -> carried (n + m) e1 e3.
Proof. intros (H1 & H2 & H3 & H4) (G1 & G2 & G3 & G4). split_and!; [done|congruence|by eapply grows_trans|congruence]. Qed.

Lemma carried_ext e e' : evm_ok e' -> evm_ext e e' -> carried 0 e e'.
Proof. intros He Hx. split_and!; [done|apply Hx|apply (evolve_supply 0), Hx|apply (evolve_tx 0), Hx]. Qed.

Lemma carried_sdb n e s' : evm_ok e -> sdb_ok s' -> sdb_evolve n (evm_StateDB e) s' -> carried n e (set_sdb s' e).
Proof. intros He Hs Hx. split_and!; [by apply evm_ok_sdb|done|by apply evolve_supply|by eapply evolve_tx]. Qed.

Lemma refundGas_ok q gp g i e :
  0 < q -> is_u64 i -> 0 <= g <= i -> 0 <= gp -> gp + i < two64 -> evm_ok e ->
  wp refund_panic (refundGas msg q)
    (fun _ st => exists r, 0 <= r <= (i - g) / q /\ st_gp st = gp + (g + r) /\ st_gasRemaining st = g + r /\
       st_initialGas st = i /\ carried ((g + r) * msg_GasPrice msg) e (st_evm st))
    (mkStateTransition gp g i e).
Proof using Hmsg.
  intros Hq Hi Hg Hgp Hsum He. unfold refundGas. apply wp_gbind, wp_gget.
  unfold gasUsed at 1. cbn [st_initialGas st_gasRemaining].
  rewrite u64_small by (unfold is_u64 in *; lia). set (cut := (i - g) / q).
  assert (0 <= cut <= i - g) as Hcut.
  { unfold cut. split; [apply Z.div_pos; lia|]. apply Z.div_le_upper_bound; nia. }
  eapply step_st_db; [apply GetRefund_ok, He|]. intros r s1 (-> & Hs1 & Hx1 & Hq1).
  pose proof (refund_u64 _ (ok_sdb _ He)) as Hr. set (r := refund_at (evm_StateDB e)) in *.
  lazymatch goal with |- wp _ (gbind _ ?kk) ?QQ _ => set (k := kk); set (Q := QQ) end.
  assert (forall s' rr, sdb_ok s' -> sdb_ext (evm_StateDB e) s' -> sdb_equiv s' (evm_StateDB e) -> rr = Z.min cut r ->
    wp refund_panic (k rr) Q (mkStateTransition gp g i (set_sdb s' e))) as Hk.
  { intros s' rr Hs' Hx' Hq' ->. unfold k. apply wp_gbind, wp_gput. unfold set_gasRemaining.
    cbn [st_gp st_gasRemaining st_initialGas st_evm]. rewrite u64_small by (unfold is_u64 in *; lia).
    apply wp_gbind, wp_gget. cbn [st_gasRemaining]. pose proof (proj1 (mo_price _ _ _ Hmsg)).
    eapply step_st_db; [apply AddBalance_ok; [done|unfold is_u64 in *; nia]|].
    intros u s2 (Hs2 & Hx2 & _). change (set_sdb s2 (set_sdb s' e)) with (set_sdb s2 e). cbn in Hx2.
    apply wp_gzoom. unfold GasPool_AddGas. apply wp_gbind, wp_gget. cbn [st_gp id].
    destruct (gp >? _) eqn:E1; zbool; [unfold MaxUint64, is_u64 in *; lia|]. apply wp_gput.
    exists (Z.min cut r). unfold is_u64 in *. cbn. rewrite u64_small by (unfold is_u64; lia).
    split_and!; try done; try lia. apply carried_sdb; [done..|].
    replace ((g + Z.min cut r) * msg_GasPrice msg) with (0 + (g + Z.min cut r) * msg_GasPrice msg) by lia.
    by eapply evolve_trans. }
  destruct (cut >? r) eqn:E1; zbool.
  - eapply step_st_db; [by apply GetRefund_ok|]. intros r2 s2 (-> & Hs2 & Hx2 & Hq2). cbn in Hx2, Hq2.
    change (set_sdb s2 (set_sdb s1 e)) with (set_sdb s2 e). apply Hk; [done|by etrans|by etrans|].
    cbn. rewrite (refund_equiv _ _ Hq1). fold r. lia.
  - apply wp_gbind, wp_gret, Hk; [done..|]. unfold gasUsed. cbn [st_initialGas st_gasRemaining].
    rewrite u64_small by (unfold is_u64 in *; lia). fold cut. lia.
Qed.

(** The part of the price that is burnt. *)
Definition burnt : Z :=
  if rIsLondon st_rules && negb (NoBaseFee evm_Config) then default 0 (BaseFee Context) else 0.

(** The price of a message made from a transaction in this block. *)
Definition price_ok : Prop :=
  rIsLondon st_rules = true -> forall base, BaseFee Context = Some base ->
    0 <= base /\ msg_GasPrice msg = Z.min (tip + base) cap.

Lemma payFees_ok gp g i e :
  price_ok ->
  (rIsLondon st_rules = true -> fees_skipped = false -> exists base, BaseFee Context = Some base /\ base <= cap) ->
  is_u64 i -> 0 <= g <= i -> evm_ok e ->
  wp refund_panic (payFees msg)
    (fun _ st => st_gp st = gp /\ st_gasRemaining st = g /\ st_initialGas st = i /\
       carried ((i - g) * (msg_GasPrice msg - burnt)) e (st_evm st))
    (mkStateTransition gp g i e).
Proof using Hmsg Hrules ES.
  intros Hprice Hfees Hi Hg He. unfold payFees. set (st0 := mkStateTransition gp g i e).
  pose proof (mo_price _ _ _ Hmsg) as Hp. pose proof (mo_tip_nonneg _ _ _ Hmsg) as Ht.
  set (eff := if rIsLondon st_rules then Z.min tip (cap - default 0 (BaseFee Context)) else msg_GasPrice msg).
  apply wp_gbind. eapply (wp_mono _ (fun t st => t = eff /\ st = st0)).
  { unfold eff. destruct (rIsLondon st_rules) eqn:El; [|by apply wp_gret].
    destruct env_BaseFee as [base Hbase]; [by rewrite Hrules|].
    apply wp_gbind. eapply wp_gpure; [unfold big_deref; by rewrite (mo_cap _ _ _ Hmsg)|].
    apply wp_gbind. eapply wp_gpure; [unfold big_deref; by rewrite Hbase|].
    apply wp_gbind. eapply wp_gpure; [unfold big_deref; by rewrite (mo_tip _ _ _ Hmsg)|].
    apply wp_gret. by rewrite BigMin_min, Hbase. }
  intros t st [-> ->]. apply wp_gbind. eapply (wp_mono _ (fun b st => b = fees_skipped /\ st = st0)).
  { unfold fees_skipped. destruct (NoBaseFee evm_Config); [|by apply wp_gret].
    apply wp_gbind. eapply wp_gpure; [unfold big_deref; by rewrite (mo_cap _ _ _ Hmsg)|].
    destruct (cap =? 0); [|by apply wp_gret].
    apply wp_gbind. eapply wp_gpure; [unfold big_deref; by rewrite (mo_tip _ _ _ Hmsg)|]. by apply wp_gret. }
  intros b st [-> ->]. destruct fees_skipped eqn:Es.
  - apply wp_gret. split_and!; try done. unfold burnt, fees_skipped in *. zbool. destruct (NoBaseFee _); [|done].
    rewrite andb_false_r. split_and!; [done|done| |done]. eapply (grows_weaken 0); [|by apply grows_same]. nia.
  - apply wp_gbind, wp_gget. unfold gasUsed, st0. cbn [st_initialGas st_gasRemaining].
    rewrite u64_small by (unfold is_u64 in *; lia).
    assert (0 <= eff <= msg_GasPrice msg - burnt) as Heff.
    { unfold eff, burnt. destruct (rIsLondon st_rules) eqn:El; cbn [andb]; [|lia].
      destruct (Hfees eq_refl eq_refl) as (base & Hbase & Hle). destruct (Hprice El base Hbase) as [Hb Hpr].
      rewrite Hbase. cbn [default from_option id]. destruct (negb _); lia. }
    unfold st_db, on_st_evm, on_sdb. do 2 apply wp_gzoom. apply wp_no_panic.
    eapply wp_mono; [apply AddBalance_ok; [apply He|nia]|]. intros u s' (Hs' & Hx' & _).
    split_and!; [done..|]. apply carried_sdb; [done..|]. eapply evolve_weaken; [|exact Hx']. nia.
Qed.

(** *** The execution *)

Context {C : Calls S} {dmin gmax : Z} {CS : CallsSpec dmin gmax C}.

Lemma evm_result_ok (g : Z) gp i e :
  is_u64 g -> g < gmax -> evm_ok e -> dmin <= depth e ->
  warm e (msg_From msg) -> (forall a, msg_To msg = Some a -> warm e a) ->
  wp refund_panic
    (match msg_To msg with
     | None =>
         let* r := on_st_evm (evm_Create (AccountRef (msg_From msg)) (msg_Data msg) g (msg_Value msg)) in
         let '(ret, _, gasLeft, vmerr) := r in gret (ret, gasLeft, vmerr)
     | Some _ =>
         let* n := st_db (GetNonce (msg_From msg)) in
         st_db (SetNonce (msg_From msg) (u64 (n + 1))) ;;;
         on_st_evm (evm_Call (AccountRef (msg_From msg)) (st_to msg) (msg_Data msg) g (msg_Value msg))
     end)
    (fun r st => 0 <= r.1.2 <= g /\ zlen r.1.1 < 2 ^ 60 /\ st_gp st = gp /\ st_initialGas st = i /\
       carried 0 e (st_evm st)) (mkStateTransition gp g i e).
Proof using Hmsg CS.
  intros Hg Hgm He Hd Hw Hto. pose proof (mo_value _ _ _ Hmsg). pose proof (mo_data _ _ _ Hmsg).
  unfold st_to. destruct (msg_To msg) as [a|].
  - eapply step_st_db; [apply GetNonce_ok, He|]. intros n s1 (-> & Hs1 & Hx1 & Hq1).
    eapply step_st_db; [apply SetNonce_ok; [apply u64_range|done]|]. intros u s2 (Hs2 & Hx2 & _).
    change (set_sdb s2 (set_sdb s1 e)) with (set_sdb s2 e). cbn in Hx2.
    assert (evm_ok (set_sdb s2 e)) as He2 by by apply evm_ok_sdb.
    assert (evm_ext e (set_sdb s2 e)) as Hext by (apply evm_ext_sdb; by etrans).
    apply wp_gzoom. cbn [st_evm]. eapply wp_mono; [apply (Call_ok (dmin:=dmin) (gmax:=gmax))|].
    + unfold call_pre, caller_ok. split_and!; try done. by eapply warm_ext.
    + eapply warm_ext; [done|by apply Hto].
    + done.
    + intros [[ret gl] err] e' (He' & Hx' & Hgl & Hret). split_and!; try done; try apply Hgl.
      apply carried_ext; [done|by etrans].
  - apply wp_gbind, wp_gzoom. cbn [st_evm]. eapply wp_mono; [apply (Create_ok (dmin:=dmin) (gmax:=gmax))|].
    + unfold call_pre, caller_ok. by split_and!.
    + done.
    + intros [[[ret addr] gl] err] e' (He' & Hx' & Hgl & Hret). apply wp_gret.
      split_and!; try done; try apply Hgl. by apply carried_ext.
Qed.

(** The quotient the refund is capped with. *)
Definition refund_quotient : Z := if rIsLondon st_rules then RefundQuotientEIP3529 else RefundQuotient.

Lemma execute_ok g gp i e :
  price_ok ->
  (rIsLondon st_rules = true -> fees_skipped = false -> exists base, BaseFee Context = Some base /\ base <= cap) ->
  is_u64 i -> i < gmax -> 0 <= g <= i -> 0 <= gp -> gp + i < two64 -> evm_ok e -> dmin <= depth e ->
  warm e (msg_From msg) -> (forall a, msg_To msg = Some a -> warm e a) ->
  wp refund_panic (execute msg)
    (fun r st => (i - g) - (i - g) / refund_quotient <= UsedGas r <= i /\ zlen (ReturnData r) < 2 ^ 60 /\
       st_gp st = gp + (i - UsedGas r) /\ st_gasRemaining st = i - UsedGas r /\ st_initialGas st = i /\
       carried ((i - UsedGas r) * msg_GasPrice msg + UsedGas r * (msg_GasPrice msg - burnt)) e (st_evm st))
    (mkStateTransition gp g i e).
Proof using Hmsg Hrules ES CS.
  intros Hprice Hfees Hi Hgm Hg Hgp Hsum He Hd Hw Hto. unfold execute. apply wp_gbind, wp_gget. cbn [st_gasRemaining].
  apply wp_gbind. eapply wp_mono; [apply (evm_result_ok g gp i e); try done; [unfold is_u64 in *; lia|lia]|].
  intros [[ret gl] err] [gp1 g1 i1 e1] (Hgl & Hret & Hgp1 & Hi1 & Hc1);
    cbn [fst snd st_gp st_gasRemaining st_initialGas st_evm] in *; subst gp1 i1.
  apply wp_gbind, wp_gput. unfold set_gasRemaining. cbn [st_gp st_initialGas st_evm]. apply wp_gbind.
  eapply (wp_mono _ (fun _ st => exists r, 0 <= r <= (i - gl) / refund_quotient /\ st_gp st = gp + (gl + r) /\
    st_gasRemaining st = gl + r /\ st_initialGas st = i /\ carried ((gl + r) * msg_GasPrice msg) e1 (st_evm st))).
  { unfold refund_quotient. destruct (rIsLondon st_rules); cbn [negb]; apply refundGas_ok; try done; try lia; apply Hc1. }
  intros u [gp2 g2 i2 e2] (r & Hr & Hgp2 & Hg2 & Hi2 & Hc2). cbn [st_gp st_gasRemaining st_initialGas st_evm] in *. subst gp2 g2 i2.
  assert (0 < refund_quotient) as Hq by (unfold refund_quotient; by case_match).
  assert ((i - gl) / refund_quotient <= i - gl) as Hdiv by (apply Z.div_le_upper_bound; nia).
  apply wp_gbind. eapply wp_mono; [apply payFees_ok; try done; [lia|apply Hc2]|].
  intros u' [gp3 g3 i3 e3] (Hgp3 & Hg3 & Hi3 & Hc3).
  cbn [st_gp st_gasRemaining st_initialGas st_evm] in *; subst gp3 g3 i3. apply wp_gbind, wp_gget, wp_gret.
  unfold gasUsed. cbn [st_gp st_gasRemaining st_initialGas st_evm UsedGas ReturnData] in *.
  rewrite u64_small by (unfold is_u64 in *; lia). set (used := i - (gl + r)).
  assert ((i - g) - (i - g) / refund_quotient <= used) as Hused.
  { pose proof (Z.div_mod (i - gl) refund_quotient ltac:(lia)). pose proof (Z.div_mod (i - g) refund_quotient ltac:(lia)).
    pose proof (Z.mod_pos_bound (i - gl) refund_quotient Hq). pose proof (Z.mod_pos_bound (i - g) refund_quotient Hq).
    unfold used. nia. }
  split_and!; try done; try (unfold used; lia).
  replace ((i - used) * msg_GasPrice msg + used * (msg_GasPrice msg - burnt))
    with (0 + ((gl + r) * msg_GasPrice msg + (i - (gl + r)) * (msg_GasPrice msg - burnt))) by (unfold used; lia).
  eapply carried_trans; [exact Hc1|]. by eapply carried_trans.
Qed.

(** The gas taken before the execution. *)
Definition intrinsic : Z :=
  fst (IntrinsicGas (msg_Data msg) (msg_AccessList msg) (bool_decide (msg_To msg = None))
    (rIsHomestead st_rules) (rIsIstanbul st_rules) (rIsShanghai st_rules)).

Lemma intrinsic_u64 : is_u64 intrinsic.
Proof using Hmsg.
  unfold intrinsic. rewrite IntrinsicGas_eq by (pose proof (mo_data _ _ _ Hmsg); unfold two64; lia).
  case_match; [done|]. apply u64_range.
Qed.

(** After a transition: executed, refused before it paid, or refused after. *)
Definition executed (gp : Z) (e : EVMState S) (r : ExecutionResult) (st : StateTransition S) : Prop :=
  accepted e gp /\ intrinsic <= msg_GasLimit msg /\
  intrinsic - intrinsic / refund_quotient <= UsedGas r <= msg_GasLimit msg /\
  zlen (ReturnData r) < 2 ^ 60 /\
  st_gp st = gp - UsedGas r /\ st_gasRemaining st = msg_GasLimit msg - UsedGas r /\
  carried (- (UsedGas r * burnt)) e (st_evm st).

Definition refused (gp : Z) (e : EVMState S) (err : core.error) (st : StateTransition S) : Prop :=
  evm_ok (st_evm st) /\ evm_ext e (st_evm st) /\
  ((st_gp st = gp /\ evm_equiv (st_evm st) e) \/
   (st_gp st = gp - msg_GasLimit msg /\ accepted e gp /\
    (err = core.ErrGasUintOverflow \/ err = core.ErrIntrinsicGas \/ err = core.ErrMaxInitCodeSizeExceeded))).

(** The value can be paid after the gas. *)
Lemma enough_left gp e st :
  accepted e gp -> bought gp e st -> msg_Value msg <= balance_at (evm_StateDB (st_evm st)) (msg_From msg).
Proof using Hmsg.
  intros [_ _ Hf _] (_ & _ & _ & _ & _ & _ & Hb). rewrite Hb. unfold paid. destruct Hmsg as [[] _ _ _ [] _ _]. nia.
Qed.

Lemma prepared_ok gp g i e :
  evm_ok e ->
  wp refund_panic
    (st_db (Prepare st_rules (msg_From msg) (Coinbase Context) (msg_To msg) (ActivePrecompiles st_rules)
       (default [] (msg_AccessList msg))))
    (fun _ st => st_gp st = gp /\ st_gasRemaining st = g /\ st_initialGas st = i /\ carried 0 e (st_evm st) /\
       warm (st_evm st) (msg_From msg) /\ (forall a, msg_To msg = Some a -> warm (st_evm st) a))
    (mkStateTransition gp g i e).
Proof using Hrules.
  intros He. unfold st_db, on_st_evm, on_sdb. do 2 apply wp_gzoom. apply wp_no_panic.
  eapply wp_mono; [apply Prepare_ok, He|]. intros u s' (Hs' & Hb & Htx & Hw). unfold warm, berlin. rewrite Hrules.
  split_and!; try done.
  - split_and!; [by apply evm_ok_sdb|done|by apply grows_same|done].
  - intros Hbl. exact (proj1 (Hw Hbl)).
  - intros a Ha Hbl. exact (proj2 (Hw Hbl) a Ha).
Qed.

Lemma TransitionDb_spec gp e :
  price_ok -> is_u64 gp -> evm_ok e -> dmin <= depth e -> msg_GasLimit msg < gmax ->
  wp refund_panic (TransitionDb msg)
    (fun r st => match r with inl res => executed gp e res st | inr err => refused gp e err st end)
    (mkStateTransition gp 0 0 e).
Proof using Hmsg Hrules ES CS KL.
  intros Hprice Hgp He Hd Hgm. unfold TransitionDb. pose proof (mo_gas _ _ _ Hmsg) as Hgas.
  apply wp_gbind. eapply wp_mono; [by apply preCheck_ok|]. intros [err|] st.
  { intros (H1 & _ & _ & H4 & H5 & H6). apply wp_gret. split_and!; [done..|]. by left. }
  intros [Hb Hacc]. pose proof (enough_left gp e st Hacc Hb) as Hval.
  destruct st as [gp1 g1 i1 e1], Hb as (Hgp1 & Hg1 & Hi1 & He1 & Hx1 & Hs1 & _).
  cbn [st_gp st_gasRemaining st_initialGas st_evm] in *. subst gp1 g1 i1.
  assert (forall g s' err, sdb_ok s' -> sdb_ext (evm_StateDB e1) s' ->
    (err = core.ErrGasUintOverflow \/ err = core.ErrIntrinsicGas \/ err = core.ErrMaxInitCodeSizeExceeded) ->
    refused gp e err (mkStateTransition (gp - msg_GasLimit msg) g (msg_GasLimit msg) (set_sdb s' e1))) as Hout.
  { intros g s' err Hs' Hx' Herr. split_and!; [by apply evm_ok_sdb| |by right].
    etrans; [exact Hx1|]. by apply evm_ext_sdb. }
  assert (forall g err, (err = core.ErrGasUintOverflow \/ err = core.ErrIntrinsicGas \/ err = core.ErrMaxInitCodeSizeExceeded) ->
    refused gp e err (mkStateTransition (gp - msg_GasLimit msg) g (msg_GasLimit msg) e1)) as Hout'
    by (intros g err Herr; by split_and!; [done|done|right]).
  pose proof intrinsic_u64 as Hiu. unfold intrinsic in Hiu. destruct (IntrinsicGas _ _ _ _ _ _) as [g0 err] eqn:Eg.
  assert (intrinsic = g0) as Hg0 by (unfold intrinsic; by rewrite Eg). cbn [fst] in Hiu.
  destruct err as [err|].
  { apply wp_gret, Hout'. rewrite IntrinsicGas_eq in Eg by (pose proof (mo_data _ _ _ Hmsg); unfold two64; lia).
    case_match; [injection Eg as <- <-; by left|done]. }
  apply wp_gbind, wp_gget. cbn [st_gasRemaining]. destruct (_ <? g0) eqn:E1; zbool; [apply wp_gret, Hout'; auto|].
  apply wp_gbind, wp_gput. unfold set_gasRemaining. cbn [st_gp st_initialGas st_evm].
  rewrite u64_small by (unfold is_u64 in *; lia). set (g1 := msg_GasLimit msg - g0).
  apply wp_gbind. eapply (wp_mono _ (fun b st => b = true /\ exists s', st = mkStateTransition (gp - msg_GasLimit msg) g1
    (msg_GasLimit msg) (set_sdb s' e1) /\ sdb_ok s' /\ sdb_ext (evm_StateDB e1) s' /\ sdb_equiv s' (evm_StateDB e1))).
  { destruct (msg_Value msg >? 0).
    - unfold st_db, on_st_evm, on_sdb. do 2 apply wp_gzoom. apply wp_no_panic.
      eapply wp_mono; [apply env_CanTransfer, He1|]. intros b s' (-> & Hs' & Hx' & Hq').
      split; [by apply Z.leb_le|]. by exists s'.
    - apply wp_gret. split; [done|]. exists (evm_StateDB e1). split_and!; [by destruct e1|apply He1|reflexivity|reflexivity]. }
  intros b st (-> & s' & -> & Hs' & Hx' & Hq'). cbn [negb].
  destruct (_ && _); [apply wp_gret, Hout; auto|].
  assert (evm_ok (set_sdb s' e1)) as He2 by by apply evm_ok_sdb.
  apply wp_gbind. eapply wp_mono; [by apply prepared_ok|]. intros u [gp2 g2 i2 e2] (Hgp2 & Hg2 & Hi2 & Hc2 & Hw & Hto).
  cbn [st_gp st_gasRemaining st_initialGas st_evm] in *. subst gp2 g2 i2.
  apply wp_gbind. destruct Hacc as [Hn Hpool Hfunds Hfees].
  assert (depth e2 = depth e) as Hdep.
  { destruct Hc2 as (_ & -> & _). cbn. apply Hx1. }
  eapply wp_mono; [apply execute_ok; try done; try (unfold is_u64 in *; lia)|].
  - intros Hl Hsk. by destruct (Hfees Hl Hsk) as [_ ?].
  - apply Hc2.
  - intros r [gp3 g3 i3 e3] (Hu & Hret & Hgp3 & Hg3 & Hi3 & Hc3). apply wp_gret.
    cbn [st_gp st_gasRemaining st_initialGas st_evm] in *. split; [by split|]. rewrite Hg0.
    replace (msg_GasLimit msg - g1) with g0 in Hu by (unfold g1; lia).
    split_and!; cbn [st_gp st_gasRemaining st_evm]; try done; try lia.
    assert (carried (- paid) e (set_sdb s' e1)) as Hc1.
    { split_and!; [done|apply Hx1| |].
      - replace (- paid) with (- paid + 0) by lia. eapply grows_trans; [exact Hs1|]. exact (evolve_supply 0 _ _ Hx').
      - etrans; [apply (evolve_tx 0 _ _ Hx')|]. exact (evolve_tx 0 _ _ (ext_sdb _ _ Hx1)). }
    replace (- (UsedGas r * burnt)) with (- paid + (0 + ((msg_GasLimit msg - UsedGas r) * msg_GasPrice msg +
      UsedGas r * (msg_GasPrice msg - burnt)))) by (unfold paid; lia).
    eapply carried_trans; [exact Hc1|]. by eapply carried_trans.
Qed.
End transition_spec.

(** ** Messages made from transactions *)

Record tx_ok (tx : Transaction) : Prop := {
  to_gas : is_u64 (tx_Gas tx);
  to_tip : 0 <= tx_GasTipCap tx;
  to_cap : 0 <= tx_GasFeeCap tx;
  to_value : 0 <= tx_Value tx;
  to_data : zlen (tx_Data tx) < 2 ^ 60
}.

Lemma TransactionToMessage_ok tx from baseFee :
  tx_ok tx -> (forall b, baseFee = Some b -> 0 <= b) ->
  msg_ok (TransactionToMessage tx from baseFee) (tx_GasFeeCap tx) (tx_GasTipCap tx).
Proof.
  intros [] Hb. split; cbn [TransactionToMessage msg_GasLimit msg_GasFeeCap msg_GasTipCap msg_GasPrice msg_Value msg_Data];
    try done. destruct baseFee as [b|].
  - specialize (Hb b eq_refl). rewrite BigMin_min. lia.
  - assert (tx_GasPrice tx = tx_GasFeeCap tx) as -> by by destruct tx as [[] ?]. lia.
Qed.

(** ** Theorems *)

(** The intrinsic gas of a message is the exact cost of its data, with an error
    if and only if that does not fit into 64 bits; the cost of the access list is
    added without a check, and is exact if the sum fits. *)
Theorem IntrinsicGas_exact data al create homestead eip2028 eip3860 :
  zlen data < two64 ->
  let cost := data_cost data create homestead eip2028 eip3860 in
  let r := IntrinsicGas data al create homestead eip2028 eip3860 in
  (r.2 <> None <-> two64 <= cost) /\ (r.2 <> None -> r = (0, Some core.ErrGasUintOverflow)) /\
  (cost + list_cost al < two64 -> r = (cost + list_cost al, None)).
Proof.
  intros Hlen cost r. unfold r. rewrite IntrinsicGas_eq by done. fold cost.
  assert (0 <= cost) as Hc.
  { unfold cost, data_cost. pose proof (non_zero_range data). assert (0 <= (zlen data + 31) / 32) by (apply Z.div_pos; lia).
    repeat case_match; nia. }
  assert (0 <= list_cost al) as Hl.
  { unfold list_cost. destruct al as [al|]; [|done]. pose proof (StorageKeys_nonneg al). pose proof (zlen_nonneg al). lia. }
  destruct (two64 <=? cost) eqn:E; zbool; cbn [snd]; split_and!; try done; try lia.
  - split; [by intros []|lia].
  - intros H. rewrite u64_small; [done|]. unfold is_u64. lia.
Qed.

(** Applying a message to a pool and a state runs to an end without a panic
    (except for [SubRefund]'s), for every message with fees in order.  If it is
    executed, it had passed every check; the gas used is at most the limit and at
    least the intrinsic gas less the capped refund; the pool gets exactly the rest
    back; and the supply shrinks by at least the base fee of the gas used.  If it
    is refused, the state can still be reverted to the one before; the gas has been
    bought only if the refusal is for the intrinsic gas or the size of the code. *)
Theorem TransitionDb_safe {S : Type} {D : StateDB S} {K : Keccak} {KL : KeccakLaws K} {SP : StateDBSpec S}
    {U : Uint256} {UL : Uint256Laws U} {R : PrecompileRun} {RL : PrecompileRunLaws R} {E : EVM S} {ES : EVMSpec E}
    n fuel msg cap tip gp (e : EVMState S) :
  chainRules = st_rules -> msg_ok msg cap tip -> price_ok msg cap tip -> is_u64 gp -> evm_ok e ->
  CallCreateDepth + 2 - Z.of_nat n <= depth e -> msg_GasLimit msg < Z.of_nat fuel ->
  wp refund_panic (TransitionDb (C:=evm_calls n fuel) msg)
    (fun r st => match r with
     | inl res => executed msg cap tip gp e res st
     | inr err => refused msg cap tip gp e err st
     end) (NewStateTransition e gp).
Proof.
  intros Hrules Hmsg Hprice Hgp He Hd Hf.
  eapply (TransitionDb_spec Hrules msg cap tip Hmsg (CS := evm_calls_spec n fuel)); done.
Qed.

(** A transaction of a block over the journaled state database, on an EVM that may
    have run others before. *)
Lemma transaction_ok {B : Database} {K : Keccak} {KL : KeccakLaws K} {BL : DatabaseLaws B}
    {U : Uint256} {UL : Uint256Laws U} {R : PrecompileRun} {RL : PrecompileRunLaws R} {CC : ChainContext}
    c header author txCtx abort (e : EVMState state) tx from gp :
  evm_ok e -> 0 <= depth e -> config_ok c header -> (forall b, hdr_BaseFee header = Some b -> 0 <= b) ->
  tx_ok tx -> is_u64 gp ->
  let E := NewEVM (NewEVMBlockContext header author) txCtx c (mkConfig false false []) abort in
  let C := evm_calls (E:=E) 1026 (Datatypes.S (Z.to_nat (tx_Gas tx))) in
  let msg := TransactionToMessage tx from (hdr_BaseFee header) in
  let s := evm_StateDB e in
  wp refund_panic (TransitionDb (S:=state) msg)
    (fun r st => let s' := evm_StateDB (st_evm st) in
       evm_ok (st_evm st) /\ depth (st_evm st) = depth e /\ same_tx s s' /\
       match r with
       | inl res =>
           nonce_of s from = tx_Nonce tx /\ 0 <= UsedGas res <= tx_Gas tx /\ tx_Gas tx <= gp /\
           st_gp st = gp - UsedGas res /\
           grows_by (- (UsedGas res * if IsLondon c (hdr_Number header) then default 0 (hdr_BaseFee header) else 0))
             (balance_of s) (balance_of s')
       | inr err =>
           grows_by 0 (balance_of s) (balance_of s') /\
           (st_gp st = gp /\ state_equiv s' s \/ st_gp st = gp - tx_Gas tx)
       end)
    (NewStateTransition e gp).
Proof.
  intros He Hdep Hc Hb Htx Hgp E C msg s.
  pose proof (NewEVM_spec header author txCtx c (mkConfig false false []) abort Hc eq_refl) as ES.
  pose proof (TransactionToMessage_ok tx from (hdr_BaseFee header) Htx Hb) as Hmsg. pose proof (to_gas _ Htx) as Hg.
  eapply wp_mono.
  - refine (TransitionDb_spec (E:=E) _ msg _ _ Hmsg (CS := evm_calls_spec (E:=E) 1026 (Datatypes.S (Z.to_nat (tx_Gas tx))))
      gp e _ Hgp He _ _).
    + done.
    + intros _ base Hbase. change (hdr_BaseFee header = Some base) in Hbase.
      split; [by apply Hb|]. unfold msg. cbn [TransactionToMessage msg_GasPrice]. by rewrite Hbase, BigMin_min.
    + unfold CallCreateDepth. lia.
    + change (msg_GasLimit msg) with (tx_Gas tx). unfold is_u64 in *. lia.
  - intros [res|err] st.
    + intros (Hacc & Hi & Hu & Hret & Hp & Hrem & (He' & Hd' & Hsup & Htx')). destruct Hacc as [Hn Hpool _ _].
      pose proof (intrinsic_u64 (E:=E) msg _ _ Hmsg). split_and!; try done.
      * by apply (Hn eq_refl).
      * etrans; [|apply Hu]. assert (0 < refund_quotient (E:=E)) by (unfold refund_quotient; by case_match).
        assert (intrinsic (E:=E) msg / refund_quotient (E:=E) <= intrinsic (E:=E) msg); [|lia].
        apply Z.div_le_upper_bound; [done|]. unfold is_u64 in *. nia.
      * apply Hu.
      * unfold supply, burnt in Hsup. cbn [NewEVM evm_Config NoBaseFee negb] in Hsup. rewrite andb_true_r in Hsup. exact Hsup.
    + intros (He' & Hx & Hor). split; [done|]. split; [apply Hx|]. split; [exact (evolve_tx 0 _ _ (ext_sdb _ _ Hx))|].
      split; [exact (evolve_supply 0 _ _ (ext_sdb _ _ Hx))|]. destruct Hor as [[H1 H2]|(H1 & _)]; [by left|by right].
Qed.

(** C4: Every transaction of a block, over the journaled state database, runs to
    an end or to the panic of [SubRefund], which is the only one it can raise, and
    no balance becomes negative.  If it is executed ([inl]), its nonce was the
    account's, it used no more gas than it bought from the pool, which has the rest
    back, and the sum of the balances shrinks by at least the base fee it burns
    (with the purchase of the gas, the refund and the miner's fee all counted).  If
    it is refused ([inr]), the sum of the balances does not grow, and either the
    pool and the state are as before or the pool has lost the gas limit of the
    transaction. *)
Theorem transaction_accounts {B : Database} {K : Keccak} {KL : KeccakLaws K} {BL : DatabaseLaws B}
    {U : Uint256} {UL : Uint256Laws U} {R : PrecompileRun} {RL : PrecompileRunLaws R} {CC : ChainContext}
    c header author txCtx abort s tx from gp :
  state_ok s -> solvent s -> config_ok c header -> (forall b, hdr_BaseFee header = Some b -> 0 <= b) ->
  tx_ok tx -> is_u64 gp ->
  let E := NewEVM (NewEVMBlockContext header author) txCtx c (mkConfig false false []) abort in
  let C := evm_calls (E:=E) 1026 (Datatypes.S (Z.to_nat (tx_Gas tx))) in
  let msg := TransactionToMessage tx from (hdr_BaseFee header) in
  wp refund_panic (TransitionDb (S:=state) msg)
    (fun r st => let s' := evm_StateDB (st_evm st) in
       state_ok s' /\ solvent s' /\
       match r with
       | inl res =>
           nonce_of s from = tx_Nonce tx /\ 0 <= UsedGas res <= tx_Gas tx /\ tx_Gas tx <= gp /\
           st_gp st = gp - UsedGas res /\
           grows_by (- (UsedGas res * if IsLondon c (hdr_Number header) then default 0 (hdr_BaseFee header) else 0))
             (balance_of s) (balance_of s')
       | inr err =>
           grows_by 0 (balance_of s) (balance_of s') /\
           (st_gp st = gp /\ state_equiv s' s \/ st_gp st = gp - tx_Gas tx)
       end)
    (NewStateTransition (mkEVMState s 0 0 false [] [] 0) gp).
Proof.
  intros Hs Hsol Hc Hb Htx Hgp E C msg.
  assert (evm_ok (mkEVMState s 0 0 false [] [] 0)) as He by by split; cbn; try done; intros j m; rewrite lookup_nil.
  eapply wp_mono; [exact (transaction_ok c header author txCtx abort (mkEVMState s 0 0 false [] [] 0) tx from gp
    He (Z.le_refl 0) Hc Hb Htx Hgp)|].
  intros r st (He' & _ & _ & H). destruct (ok_sdb _ He') as [H1 H2]. cbv zeta. split; [exact H1|]. split; [exact H2|exact H].
Qed.
