(* ===== verification/Processor.v ===== *)
(** * Processing a block (client/core/state_processor.go)

    [Process] runs the transactions of a block one after the other on one EVM, ends
    each with [Finalise], writes its receipt, and pays the reward. *)

From S2P Require Import Prelude.
From S2P Require Import Uint256.
From S2P Require Import Common.
From S2P Require Import Params.
From S2P Require Import Precompiles.
From S2P Require Import Crypto.
From S2P Require Import Header.
From S2P Require Import StateObject.
From S2P Require Import StateInterface.
From S2P Require Import StateStore.
From S2P Require Import StateSpec.
From S2P Require Import StateSafe.
From S2P Require Import StateTheorems.
From S2P Require Import StateSupply.
From S2P Require Import Finalise.
From S2P Require Import Machine.
From S2P Require Import Invariant.
From S2P Require Import Evm.
From S2P Require Import CoreEvm.
From S2P Require Import Encoding.
From S2P Require Import Transaction.
From S2P Require Import Rlp.
From S2P Require Import Blocks.
From S2P Require Import TxSigning.
From S2P Require Import StreamSpec.
From S2P Require Import ChainStore.
From S2P Require Import Receipts.
From S2P Require Import Misc.
From S2P Require Import Emission.
From S2P Require Import StateTransition.

(** The order in which Go visits the keys of a map. *)
Class MapOrder : Type := { map_order : gset Address -> list Address }.
Class MapOrderLaws (O : MapOrder) : Prop := {
  map_order_elem X a : a ∈ map_order X <-> a ∈ X
}.

(** The root of the state trie ([IntermediateRoot] of statedb.go), which receipts
    held before Byzantium.  The tries are not modelled. *)
Class StateRoots : Type := { IntermediateRoot : bool -> GM state Hash }.

(** [NewEVMTxContext] of client/core/evm.go. *)
Definition NewEVMTxContext (msg : Message) : TxContext := mkTxContext (msg_From msg) (msg_GasPrice msg).

(** Why a block is refused. *)
Inductive process_error : Type :=
| CouldNotSign (i : Z) (err : signing_error)
| CouldNotApply (i : Z) (err : core.error)
| WithdrawalsBeforeShanghai.

(** What the transactions of a block share: the EVM over the state, the gas pool and
    the gas used so far. *)
Record processing : Type := mkProcessing {
  pr_evm : EVMState state;
  pr_gp : GasPool;
  pr_usedGas : Z
}.

Definition set_pr_evm (e : EVMState state) (p : processing) : processing := mkProcessing e (pr_gp p) (pr_usedGas p).
Definition set_usedGas (g : Z) (p : processing) : processing := mkProcessing (pr_evm p) (pr_gp p) g.
Definition pr_state (p : processing) : state := evm_StateDB (pr_evm p).
Definition on_state {A} (m : GM state A) : GM processing A :=
  gzoom pr_state (fun s p => set_pr_evm (set_sdb s (pr_evm p)) p) m.

Section processor.
Context {B : Database} {K : Keccak} {U : Uint256} {R : PrecompileRun} {CC : ChainContext} {C : Secp256k1}
  {O : MapOrder} {SR : StateRoots}.
Context (config : ChainConfig) (cfg : Config) (abort : nat -> bool).

(** [Finalise] on the dirty accounts. *)
Definition Finalise (deleteEmptyObjects : bool) : GM state unit :=
  let* d := gget dirties in sdb_Finalise (map_order (dom d)) deleteEmptyObjects.

(** [ApplyMessage] on the EVM reset to the message; the calls have fuel for the gas
    of the message. *)
Definition apply_message (header : Header) (author : option Address) (msg : Message) :
    GM processing (ExecutionResult + core.error) :=
  fun p =>
    let E := NewEVM (NewEVMBlockContext header author) (NewEVMTxContext msg) config cfg abort in
    let calls := evm_calls (E:=E) 1026 (Datatypes.S (Z.to_nat (msg_GasLimit msg))) in
    match ApplyMessage (C:=calls) msg (pr_evm p) (pr_gp p) with
    | Ret (r, st) => Ret (r, mkProcessing (st_evm st) (st_gp st) (pr_usedGas p))
    | Panic p => Panic p
    | NoFuel => NoFuel
    end.

Definition applyTransaction (header : Header) (author : option Address) (msg : Message) (blockNumber : Z) (blockHash : Hash)
    (tx : Transaction) : GM processing (Receipt + core.error) :=
  let* result := apply_message header author msg in
  match result with
  | inr err => gret (inr err)
  | inl result =>
      let* root :=
        (if IsByzantium config blockNumber then on_state (Finalise true) ;;; gret []
         else let* root := on_state (IntermediateRoot (IsEIP158 config blockNumber)) in gret (hash_bytes root)) in
      let* used := gget pr_usedGas in
      let used := u64 (used + UsedGas result) in
      gput (set_usedGas used) ;;;
      let* s := gget pr_state in
      let receipt := mkReceipt (Type_ tx) root
        (if Failed result then ReceiptStatusFailed else ReceiptStatusSuccessful) used empty_bloom
        (GetLogs s (tx_Hash tx) (big_Uint64 blockNumber) blockHash) (tx_Hash tx)
        (match msg_To msg with None => CreateAddress (Origin (NewEVMTxContext msg)) (tx_Nonce tx) | Some _ => 0 end)
        (UsedGas result) None 0 None 0 in
      let* bloom := gpure (CreateBloom [receipt]) in
      gret (inl (mkReceipt (rc_Type receipt) (rc_PostState receipt) (rc_Status receipt) (rc_CumulativeGasUsed receipt) bloom
        (rc_Logs receipt) (rc_TxHash receipt) (rc_ContractAddress receipt) (rc_GasUsed receipt) None blockHash
        (Some blockNumber) (txIndex s)))
  end.

(** [ApplyTransaction]: one transaction on an EVM of its own, as the miner runs it. *)
Definition ApplyTransaction (header : Header) (author : option Address) (tx : Transaction) :
    GM processing (Receipt + process_error) :=
  match signer_Sender (MakeSigner config (hdr_Number header)) tx with
  | inl err => gret (inr (CouldNotSign 0 err))
  | inr from =>
      let msg := TransactionToMessage tx from (hdr_BaseFee header) in
      gput (fun p => set_pr_evm (mkEVMState (pr_state p) 0 0 false [] [] 0) p) ;;;
      let* r := applyTransaction header author msg (hdr_Number header) (Header_Hash header) tx in
      gret (match r with inl receipt => inl receipt | inr err => inr (CouldNotApply 0 err) end)
  end.

(** The loop over the transactions, from the [i]-th on. *)
Fixpoint process_txs (header : Header) (blockHash : Hash) (i : Z) (txs : list Transaction) :
    GM processing (list Receipt + process_error) :=
  match txs with
  | [] => gret (inl [])
  | tx :: txs =>
      match signer_Sender (MakeSigner config (hdr_Number header)) tx with
      | inl err => gret (inr (CouldNotSign i err))
      | inr from =>
          let msg := TransactionToMessage tx from (hdr_BaseFee header) in
          on_state (gput (set_tx (tx_Hash tx) i)) ;;;
          let* r := applyTransaction header None msg (hdr_Number header) blockHash tx in
          match r with
          | inr err => gret (inr (CouldNotApply i err))
          | inl receipt =>
              let* rs := process_txs header blockHash (i + 1) txs in
              gret (match rs with inl rs => inl (receipt :: rs) | inr err => inr err end)
          end
      end
  end.

(** [Process]: receipts, logs and gas used, or why the block is refused. *)
Definition Process (block : Block) : GM state ((list Receipt * list RLog * Z) + process_error) :=
  let header := blk_header block in
  let* gp := gpure (let? r := GasPool_AddGas (hdr_GasLimit header) 0 in Ret (snd r)) in
  (if DAOForkSupport config && bool_decide (DAOForkBlock config = Some (hdr_Number header)) then ApplyDAOHardFork else gret tt) ;;;
  let* s := gget id in
  let* r := gpure (process_txs header (Block_Hash block) 0 (blk_transactions block)
                     (mkProcessing (mkEVMState s 0 0 false [] [] 0) gp 0)) in
  let '(rs, p) := r in
  gput (fun _ => pr_state p) ;;;
  match rs with
  | inr err => gret (inr err)
  | inl receipts =>
      if (zlen (default [] (blk_withdrawals block)) >? 0) && negb (IsShanghai config (hdr_Time header))
      then gret (inr WithdrawalsBeforeShanghai)
      else
        Finalize config header (blk_uncles block) ;;;
        gret (inl (receipts, concat (map rc_Logs receipts), pr_usedGas p))
  end.
End processor.

(** ** Lemmas *)

Section processor_lemmas.
Context {B : Database} {K : Keccak} {KL : KeccakLaws K} {BL : DatabaseLaws B} {U : Uint256} {UL : Uint256Laws U}
  {R : PrecompileRun} {RL : PrecompileRunLaws R} {CC : ChainContext} {C : Secp256k1} {O : MapOrder} {SR : StateRoots}.
Context (config : ChainConfig) (abort : nat -> bool) (header : Header).
Context (Hconfig : config_ok config header) (Hbyz : IsByzantium config (hdr_Number header) = true)
  (Hbase : forall b, hdr_BaseFee header = Some b -> 0 <= b).

Abbreviation cfg := (mkConfig false false []).

(** What is burnt for a unit of gas. *)
Definition base_burnt : Z := if IsLondon config (hdr_Number header) then default 0 (hdr_BaseFee header) else 0.

Lemma base_burnt_nonneg : 0 <= base_burnt.
Proof using Hbase.
  unfold base_burnt. destruct (IsLondon _ _); [|done]. destruct (hdr_BaseFee header) as [b|] eqn:E; [|done]. by apply Hbase.
Qed.

Lemma set_tx_ok s h i : state_ok s -> state_ok (set_tx h i s).
Proof. intros []. by split. Qed.

(** The receipt of the [i]-th transaction, after [used] gas. *)
Record receipt_of (blockHash : Hash) (i used : Z) (tx : Transaction) (r : Receipt) : Prop := {
  ro_Type : rc_Type r = Type_ tx;
  ro_TxHash : rc_TxHash r = tx_Hash tx;
  ro_GasUsed : 0 <= rc_GasUsed r <= tx_Gas tx;
  ro_Cumulative : rc_CumulativeGasUsed r = used + rc_GasUsed r;
  ro_BlockHash : rc_BlockHash r = blockHash;
  ro_BlockNumber : rc_BlockNumber r = Some (hdr_Number header);
  ro_Index : rc_TransactionIndex r = i;
  ro_Price : rc_EffectiveGasPrice r = None;
  ro_Contract : exists from, signer_Sender (MakeSigner config (hdr_Number header)) tx = inr from /\
    rc_ContractAddress r = match tx_To tx with None => CreateAddress from (tx_Nonce tx) | Some _ => 0 end;
  ro_PostState : rc_PostState r = [];
  ro_wf : receipt_wf r
}.

Fixpoint receipts_of (blockHash : Hash) (i used : Z) (txs : list Transaction) (rs : list Receipt) (total : Z) : Prop :=
  match txs, rs with
  | [], [] => used = total
  | tx :: txs, r :: rs =>
      receipt_of blockHash i used tx r /\ receipts_of blockHash (i + 1) (rc_CumulativeGasUsed r) txs rs total
  | _, _ => False
  end.

Lemma CreateBloom_logs (r r' : Receipt) : rc_Logs r = rc_Logs r' -> CreateBloom [r] = CreateBloom [r'].
Proof. intros H. unfold CreateBloom. cbn [add_receipts]. by rewrite H. Qed.

(** [Finalise] on the state of an EVM. *)
Lemma evm_Finalise_ok p : evm_ok (pr_evm p) ->
  wp refund_panic (on_state (Finalise true)) (fun _ p' =>
    evm_ok (pr_evm p') /\ depth (pr_evm p') = depth (pr_evm p) /\ pr_gp p' = pr_gp p /\ pr_usedGas p' = pr_usedGas p /\
    grows_by 0 (balance_of (pr_state p)) (balance_of (pr_state p')) /\ txIndex (pr_state p') = txIndex (pr_state p)) p.
Proof using KL BL.
  intros He. apply wp_gzoom. destruct (ok_sdb _ He) as [Hs Hsol]. unfold Finalise. apply wp_gbind, wp_gget, wp_no_panic.
  set (order := map_order _). eapply wp_mono; [apply wp_conj; [by apply sdb_Finalise_ok|]|].
  { instantiate (1 := fun _ s' => txIndex s' = txIndex (pr_state p)). unfold sdb_Finalise. apply wp_gbind, wp_gput.
    pose proof (finalise_loop_state true order (pr_state p)) as Hf. set (s1 := foldl _ _ _) in *.
    destruct (fin_rest _ _ _ _ Hf) as (o1 & p1 & d1 & x1 & E1). destruct (clear_eq s1) as (es & d & r & Hc & _).
    unfold wp. rewrite Hc. by rewrite E1. }
  intros _ s' [(H1 & H2 & H3 & _) H4]. split_and!; try done. by apply evm_ok_sdb.
Qed.

Lemma applyTransaction_ok author (from : Address) blockHash tx p :
  let msg := TransactionToMessage tx from (hdr_BaseFee header) in
  signer_Sender (MakeSigner config (hdr_Number header)) tx = inr from ->
  evm_ok (pr_evm p) -> 0 <= depth (pr_evm p) -> is_u64 (pr_gp p) -> 0 <= pr_usedGas p -> pr_usedGas p + pr_gp p < two64 ->
  tx_ok tx ->
  wp refund_panic (applyTransaction config cfg abort header author msg (hdr_Number header) blockHash tx)
    (fun r p' => evm_ok (pr_evm p') /\ depth (pr_evm p') = depth (pr_evm p) /\
       match r with
       | inl r =>
           receipt_of blockHash (txIndex (pr_state p)) (pr_usedGas p) tx r /\ pr_usedGas p' = rc_CumulativeGasUsed r /\
           pr_usedGas p' + pr_gp p' = pr_usedGas p + pr_gp p /\ 0 <= pr_gp p' /\
           grows_by (- (rc_GasUsed r * base_burnt)) (balance_of (pr_state p)) (balance_of (pr_state p'))
       | inr _ => grows_by 0 (balance_of (pr_state p)) (balance_of (pr_state p'))
       end) p.
Proof using KL BL UL RL Hconfig Hbyz Hbase.
  intros msg Hfrom He Hd Hgp Hused Hsum Htx. unfold applyTransaction. apply wp_gbind.
  eapply (wp_mono _ (fun r p1 => evm_ok (pr_evm p1) /\ depth (pr_evm p1) = depth (pr_evm p) /\ pr_usedGas p1 = pr_usedGas p /\
    same_tx (pr_state p) (pr_state p1) /\
    match r with
    | inl res => 0 <= UsedGas res <= tx_Gas tx /\ tx_Gas tx <= pr_gp p /\ pr_gp p1 = pr_gp p - UsedGas res /\
        grows_by (- (UsedGas res * base_burnt)) (balance_of (pr_state p)) (balance_of (pr_state p1))
    | inr _ => grows_by 0 (balance_of (pr_state p)) (balance_of (pr_state p1))
    end)).
  { pose proof (transaction_ok config header author (NewEVMTxContext msg) abort (pr_evm p) tx from (pr_gp p)
      He Hd Hconfig Hbase Htx Hgp) as H.
    unfold wp, apply_message, ApplyMessage in *. unfold msg in *. cbn [TransactionToMessage msg_GasLimit] in *.
    destruct (TransitionDb _ _) as [[r st]| |]; [|done..]. destruct H as (H1 & H2 & Ht & H3). split_and!; [done..|].
    destruct r as [res|err]; [by destruct H3 as (_ & ? & ? & ? & ?)|by destruct H3]. }
  intros [res|err] p1 (He1 & Hd1 & Hu1 & Ht1 & H1); [|by apply wp_gret].
  destruct H1 as (Hres & Hpool & Hgp1 & Hg1). rewrite Hbyz. apply wp_gbind, wp_gbind.
  eapply wp_mono; [by apply evm_Finalise_ok|]. intros _ p2 (He2 & Hd2 & Hgp2 & Hu2 & Hg2 & Ht2).
  apply wp_gret, wp_gbind, wp_gget, wp_gbind, wp_gput, wp_gbind, wp_gget.
  set (used := u64 _). assert (used = pr_usedGas p + UsedGas res) as Eu.
  { unfold used. rewrite Hu2, Hu1, u64_small; [done|]. unfold is_u64 in *. lia. }
  set (p3 := set_usedGas used p2). set (rec := mkReceipt _ _ _ _ _ _ _ _ _ _ _ _ _).
  destruct (CreateBloom_ok [rec]) as (b & Hb & _). apply wp_gbind, (wp_gpure _ b); [done|]. apply wp_gret.
  split; [done|]. split; [by etrans|]. split; [|split_and!; cbn; rewrite ?Hgp2; try lia].
  - split; cbn; try done; [|by exists from|].
    { etrans; [exact Ht2|]. by injection Ht1. }
    split; [|cbn [rc_Bloom]; by rewrite <- Hb; apply CreateBloom_logs]. left. split; [done|]. cbn.
    destruct (Failed res); [by left|by right].
  - eapply grows_weaken; [|exact (grows_trans _ _ _ _ _ Hg1 Hg2)]. lia.
Qed.

Lemma process_txs_ok blockHash txs i p :
  evm_ok (pr_evm p) -> 0 <= depth (pr_evm p) -> is_u64 (pr_gp p) -> 0 <= pr_usedGas p -> pr_usedGas p + pr_gp p < two64 ->
  Forall tx_ok txs ->
  wp refund_panic (process_txs config cfg abort header blockHash i txs)
    (fun r p' => evm_ok (pr_evm p') /\
       match r with
       | inl rs =>
           receipts_of blockHash i (pr_usedGas p) txs rs (pr_usedGas p') /\ pr_usedGas p <= pr_usedGas p' /\
           pr_usedGas p' + pr_gp p' = pr_usedGas p + pr_gp p /\ 0 <= pr_gp p' /\
           grows_by (- ((pr_usedGas p' - pr_usedGas p) * base_burnt)) (balance_of (pr_state p)) (balance_of (pr_state p'))
       | inr _ => grows_by 0 (balance_of (pr_state p)) (balance_of (pr_state p'))
       end) p.
Proof using KL BL UL RL Hconfig Hbyz Hbase.
  revert i p. induction txs as [|tx txs IH]; intros i p He Hd Hgp Hused Hsum Htxs; cbn [process_txs].
  { apply wp_gret. split; [done|]. unfold is_u64 in *. split_and!; [done|lia|lia|lia|].
    eapply grows_weaken; [|by apply grows_same]. lia. }
  apply list.Forall_cons in Htxs as [Htx Htxs]. pose proof base_burnt_nonneg as Hbb.
  destruct (signer_Sender _ tx) as [err|from] eqn:Hfrom; [apply wp_gret; split; [done|by apply grows_same]|].
  apply wp_gbind, wp_gzoom, wp_gput. set (p0 := set_pr_evm _ p).
  assert (evm_ok (pr_evm p0)) as He0.
  { apply evm_ok_sdb; [done|]. destruct (ok_sdb _ He) as [Hs Hsol]. split; [by apply set_tx_ok|done]. }
  apply wp_gbind. eapply wp_mono; [exact (applyTransaction_ok None from blockHash tx p0 Hfrom He0 Hd Hgp Hused Hsum Htx)|].
  intros [r|err] p1 (He1 & Hd1 & H1); [|apply wp_gret; by split].
  destruct H1 as (Hr & Hu1 & Hs1 & Hg1 & Hgr). pose proof (ro_Cumulative _ _ _ _ _ Hr) as Hcum. pose proof (ro_GasUsed _ _ _ _ _ Hr).
  change (pr_gp p0) with (pr_gp p) in *. change (pr_usedGas p0) with (pr_usedGas p) in *.
  apply wp_gbind. eapply wp_mono; [apply (IH (i + 1) p1); [done|rewrite Hd1; exact Hd|unfold is_u64 in *; lia|lia|lia|done]|].
  intros [rs|err] p2 (He2 & H2); apply wp_gret; (split; [done|]).
  - destruct H2 as (Hrs & Hle & Hs2 & Hg2 & Hgr2). cbn [receipts_of]. rewrite <- Hu1 at 1. split_and!; [done|done|lia|lia|lia|].
    eapply grows_weaken; [|exact (grows_trans _ _ _ _ _ Hgr Hgr2)]. nia.
  - eapply grows_weaken; [|exact (grows_trans _ _ _ _ _ Hgr H2)]. nia.
Qed.

(** *** What the receipts report *)

(** The logs a transaction has left in the state, with the block filled in. *)
Definition logs_in (s : state) (txHash : Hash) (number : Z) (blockHash : Hash) (ls : list RLog) : Prop :=
  Forall2 (fun l r =>
    log_Address (rl_Log r) = log_Address (txlog l) /\ log_Topics (rl_Log r) = log_Topics (txlog l) /\
    log_Data (rl_Log r) = log_Data (txlog l) /\ log_BlockNumber (rl_Log r) = number /\ rl_BlockHash r = blockHash /\
    log_TxHash (rl_TxLog r) = log_TxHash l /\ log_TxIndex (rl_TxLog r) = log_TxIndex l /\ log_Index (rl_TxLog r) = log_Index l)
    (default [] (logs s !! txHash)) ls.

(** A transaction is run: its message is applied to the state it finds, and the state is
    finalised.  The receipt tells whether the message failed, the gas it used, and the logs
    it left. *)
Record executed_as (author : option Address) (blockHash : Hash) (tx : Transaction) (p : processing) (r : Receipt) (p' : processing)
    : Prop := {
  ex_run : exists from res p1 p2,
    signer_Sender (MakeSigner config (hdr_Number header)) tx = inr from /\
    apply_message config cfg abort header author (TransactionToMessage tx from (hdr_BaseFee header)) p = Ret (inl res, p1) /\
    on_state (Finalise true) p1 = Ret (tt, p2) /\ p' = set_usedGas (u64 (pr_usedGas p2 + UsedGas res)) p2 /\
    (rc_Status r = 1 <-> res_Err res = None) /\ (rc_Status r = 0 <-> res_Err res <> None) /\ rc_GasUsed r = UsedGas res /\
    logs_in (pr_state p1) (tx_Hash tx) (big_Uint64 (hdr_Number header)) blockHash (rc_Logs r)
}.

(** One transaction after the other. *)
Fixpoint executed (blockHash : Hash) (i : Z) (txs : list Transaction) (p : processing) (rs : list Receipt) (p' : processing) : Prop :=
  match txs, rs with
  | [], [] => p' = p
  | tx :: txs, r :: rs =>
      exists p1, executed_as None blockHash tx (set_pr_evm (set_sdb (set_tx (tx_Hash tx) i (pr_state p)) (pr_evm p)) p) r p1 /\
        executed blockHash (i + 1) txs p1 rs p'
  | _, _ => False
  end.

Lemma Finalise_logs p u p' : on_state (Finalise true) p = Ret (u, p') -> logs (pr_state p') = logs (pr_state p).
Proof using KL BL.
  unfold on_state, gzoom, Finalise, gbind, gget, sdb_Finalise, gput. cbv beta iota zeta. unfold gbind at 1. cbv beta iota.
  set (order := map_order _). pose proof (finalise_loop_state true order (pr_state p)) as Hf. set (s1 := foldl _ _ _) in *.
  destruct (fin_rest _ _ _ _ Hf) as (o1 & p1 & d1 & x1 & E1). destruct (clear_eq s1) as (es & d & r & Hc & _).
  rewrite Hc. intros [= _ <-]. cbn. by rewrite E1.
Qed.

Lemma GetLogs_in s h number blockHash : logs_in s h number blockHash (GetLogs s h number blockHash).
Proof using. unfold logs_in, GetLogs. apply Forall2_fmap_r, Forall_Forall2_diag, Forall_true. done. Qed.

Lemma applyTransaction_run author (from : Address) blockHash tx p r p' :
  signer_Sender (MakeSigner config (hdr_Number header)) tx = inr from ->
  applyTransaction config cfg abort header author (TransactionToMessage tx from (hdr_BaseFee header)) (hdr_Number header) blockHash tx p
    = Ret (inl r, p') -> executed_as author blockHash tx p r p'.
Proof using KL BL Hbyz.
  intros Hfrom. unfold applyTransaction, gbind at 1. destruct (apply_message _ _ _ _ _ _ p) as [[[res|err] p1]| |] eqn:Em; [|done..].
  rewrite Hbyz. unfold gbind at 1, gbind at 1. destruct (on_state (Finalise true) p1) as [[[] p2]| |] eqn:Ef; [|done..].
  unfold gret at 1. unfold gbind, gget, gput, gpure. cbv beta iota zeta. destruct (CreateBloom _); [|done..]. unfold gret.
  intros [= <- <-]. split. exists from, res, p1, p2. cbn [rc_Status rc_GasUsed rc_Logs].
  split_and!; try done.
  1,2: unfold Failed; destruct (res_Err res); cbn; split; intros ?; done || congruence.
  change (pr_state (set_usedGas _ p2)) with (pr_state p2). unfold logs_in. rewrite <- (Finalise_logs p1 tt p2 Ef). apply GetLogs_in.
Qed.

Lemma process_txs_run blockHash txs : forall i p rs p',
  process_txs config cfg abort header blockHash i txs p = Ret (inl rs, p') -> executed blockHash i txs p rs p'.
Proof using KL BL Hbyz.
  induction txs as [|tx txs IH]; intros i p rs p'; cbn [process_txs]; [by intros [= <- <-]|].
  destruct (signer_Sender _ tx) as [err|from] eqn:Hfrom; [done|].
  unfold gbind at 1. unfold on_state at 1, gzoom, gput at 1. cbv beta iota. unfold gbind at 1.
  destruct (applyTransaction _ _ _ _ _ _ _ _ _ _) as [[[r|err] p1]| |] eqn:Ea; [|done..]. unfold gbind at 1.
  destruct (process_txs _ _ _ _ _ _ txs p1) as [[[rs'|err] p2]| |] eqn:Er; [|done..]. intros [= <- <-].
  exists p1. split; [by eapply applyTransaction_run|by apply IH].
Qed.

(** The block is processed: after the fork's transfers, if this is its block, the
    transactions are executed from an empty gas count, and the reward is paid. *)
Definition processed (block : Block) (s : state) (receipts : list Receipt) (usedGas : Z) (s' : state) : Prop :=
  exists s1 p,
    (if DAOForkSupport config && bool_decide (DAOForkBlock config = Some (hdr_Number header)) then ApplyDAOHardFork s = Ret (tt, s1)
     else s1 = s) /\
    executed (Block_Hash block) 0 (blk_transactions block)
      (mkProcessing (mkEVMState s1 0 0 false [] [] 0) (hdr_GasLimit header) 0) receipts p /\
    usedGas = pr_usedGas p /\ Finalize config header (blk_uncles block) (pr_state p) = Ret (tt, s').

Lemma gas_pool gas : is_u64 gas -> (let? r := GasPool_AddGas gas 0 in Ret (snd r)) = Ret gas.
Proof using.
  unfold is_u64. intros H. unfold GasPool_AddGas, gbind, gget. cbn. destruct (0 >? _) eqn:E; zbool; [unfold MaxUint64, two64 in *; lia|].
  cbn. by rewrite u64_small.
Qed.

Lemma Process_run block s receipts ls usedGas s' :
  blk_header block = header -> is_u64 (hdr_GasLimit header) ->
  Process config cfg abort block s = Ret (inl (receipts, ls, usedGas), s') -> processed block s receipts usedGas s'.
Proof using KL BL Hbyz.
  intros Hh Hgas. unfold Process. rewrite Hh. unfold gbind at 1, gpure at 1. rewrite gas_pool by done. unfold gbind at 1.
  match goal with |- context [(if ?b then ApplyDAOHardFork else _) s] => set (fork := b) end.
  destruct ((if fork then ApplyDAOHardFork else gret tt) s) as [[[] s1]| |] eqn:Ed; [|done..].
  unfold gbind at 1, gget at 1, id at 1. unfold gbind at 1, gpure at 1.
  destruct (process_txs _ _ _ _ _ _ _ _) as [[[rs|err] p]| |] eqn:Et; [| |done..]; unfold gbind at 1, gput at 1; [|done].
  destruct (_ && negb _); [done|]. unfold gbind. destruct (Finalize _ _ _ _) as [[[] s2]| |] eqn:Ef; [|done..].
  intros [= <- _ <- <-]. exists s1, p. split_and!; [|by apply process_txs_run|done|exact Ef].
  fold fork. destruct fork; [exact Ed|by injection Ed as <-].
Qed.

(** *** The DAO fork conserves the balances *)

Lemma delta_at_outflows f (l : list Address) a : NoDup l ->
  delta_at (map (fun x => (x, - f x)) l) a = if decide (a ∈ l) then - f a else 0.
Proof.
  induction l as [|x l IH]; intros Hl; [by rewrite decide_False by apply not_elem_of_nil|].
  apply list.NoDup_cons in Hl as [Hx Hl]. cbn [map]. rewrite delta_at_cons, IH by done. cbn [fst snd].
  destruct (decide (x = a)) as [->|Hne].
  - rewrite decide_False by done. rewrite decide_True by by left. lia.
  - destruct (decide (a ∈ l)); [by rewrite decide_True by by right|].
    rewrite decide_False; [done|]. by intros [?|?]%elem_of_cons.
Qed.

Lemma delta_sum_outflows f (l : list Address) : delta_sum (map (fun x => (x, - f x)) l) = - total_of f l.
Proof. induction l as [|x l IH]; [done|]. cbn [map]. rewrite delta_sum_cons, total_of_cons, IH. cbn. lia. Qed.

Lemma total_nonneg f (l : list Address) : (forall a, 0 <= f a) -> 0 <= total_of f l.
Proof. intros H. induction l as [|x l IH]; [done|]. rewrite total_of_cons. specialize (H x). lia. Qed.

Lemma ApplyDAOHardFork_grows s : state_ok s -> solvent s ->
  wp no_panic ApplyDAOHardFork (fun _ s' => state_ok s' /\ solvent s' /\ grows_by 0 (balance_of s) (balance_of s')) s.
Proof using KL BL.
  intros Hs Hsol. assert (NoDup DAODrainList /\ DAORefundContract ∉ DAODrainList) as [Hnd Hnin]
    by (split; by apply (bool_decide_unpack _); vm_compute).
  eapply wp_mono; [by apply ApplyDAOHardFork_moves|]. intros u s' (Hs' & Hb). split; [done|].
  pose proof (total_nonneg (balance_of s) DAODrainList Hsol) as Ht.
  revert Hnd Hnin Hb Ht. generalize DAODrainList. intros l Hnd Hnin Hb Ht. split.
  - intros a. rewrite Hb. specialize (Hsol a). repeat case_decide; lia.
  - exists ((DAORefundContract, total_of (balance_of s) l) :: map (fun x => (x, - balance_of s x)) l). split.
    + intros a. rewrite delta_at_cons, delta_at_outflows, Hb by done. cbn [fst snd].
      destruct (decide (a = DAORefundContract)) as [->|Ha].
      * rewrite decide_True, decide_False by done. lia.
      * rewrite (decide_False (P := DAORefundContract = a)) by congruence. case_decide; lia.
    + rewrite delta_sum_cons, delta_sum_outflows. cbn. lia.
Qed.

(** *** The block *)

Lemma receipts_of_bound blockHash i used txs rs total : receipts_of blockHash i used txs rs total ->
  length rs = length txs /\ used <= total.
Proof using.
  revert i used rs. induction txs as [|tx txs IH]; intros i used [|r rs] H; cbn in H; try done; [split; [done|lia]|].
  destruct H as [Hr H]. destruct (IH _ _ _ H) as [Hl Hle]. pose proof (ro_GasUsed _ _ _ _ _ Hr).
  rewrite (ro_Cumulative _ _ _ _ _ Hr) in Hle. cbn. split; [congruence|lia].
Qed.

Lemma Process_ok block s :
  blk_header block = header -> state_ok s -> solvent s -> is_u64 (hdr_GasLimit header) ->
  Forall tx_ok (blk_transactions block) ->
  wp refund_panic (Process config cfg abort block)
    (fun r s' => state_ok s' /\ solvent s' /\
       match r with
       | inl (receipts, logs, usedGas) =>
           receipts_of (Block_Hash block) 0 0 (blk_transactions block) receipts usedGas /\
           logs = concat (map rc_Logs receipts) /\ 0 <= usedGas <= hdr_GasLimit header /\
           grows_by (reward_at (hdr_Number header) - usedGas * base_burnt) (balance_of s) (balance_of s')
       | inr _ => grows_by 0 (balance_of s) (balance_of s')
       end) s.
Proof using KL BL UL RL Hconfig Hbyz Hbase.
  intros Hh Hs Hsol Hgas Htxs. unfold Process. rewrite Hh. unfold is_u64 in Hgas.
  apply wp_gbind, (wp_gpure _ (hdr_GasLimit header)); [by apply gas_pool|].
  apply wp_gbind. eapply (wp_mono _ (fun _ s1 => state_ok s1 /\ solvent s1 /\ grows_by 0 (balance_of s) (balance_of s1))).
  { destruct (_ && _); [apply wp_no_panic; by apply ApplyDAOHardFork_grows|].
    apply wp_gret. split_and!; [done..|by apply grows_same]. }
  intros _ s1 (Hs1 & Hsol1 & Hg1). apply wp_gbind, wp_gget. unfold id at 1.
  set (p0 := mkProcessing _ _ _). assert (evm_ok (pr_evm p0)) as He0.
  { split; cbn; try done; intros j m; by rewrite lookup_nil. }
  pose proof (process_txs_ok (Block_Hash block) (blk_transactions block) 0 p0 He0) as H.
  cbn [p0 pr_evm pr_gp pr_usedGas depth] in H.
  specialize (H (Z.le_refl 0) Hgas (Z.le_refl 0) ltac:(lia) Htxs).
  apply wp_gbind. unfold wp at 1 in H. unfold wp at 1, gpure. fold p0 in H.
  destruct (process_txs _ _ _ _ _ _ _ p0) as [[rs p]| |]; [|done..]. destruct H as [He H].
  destruct (ok_sdb _ He) as [Hs2 Hsol2]. apply wp_gbind, wp_gput. destruct rs as [receipts|err].
  2:{ apply wp_gret. split; [done|]. split; [done|]. exact (grows_trans 0 0 _ _ _ Hg1 H). }
  destruct H as (Hrs & Hle & Hsum & Hgp & Hg2). cbn [p0 pr_usedGas pr_gp] in *.
  assert (grows_by (- (pr_usedGas p * base_burnt)) (balance_of s) (balance_of (pr_state p))) as Hg.
  { eapply grows_weaken; [|exact (grows_trans _ _ _ _ _ Hg1 Hg2)]. lia. }
  pose proof base_burnt_nonneg as Hbb.
  destruct (_ && _).
  { apply wp_gret. split; [done|]. split; [done|]. eapply grows_weaken; [|exact Hg]. nia. }
  apply wp_gbind, wp_no_panic. eapply wp_mono; [by apply (Finalize_pays config header (blk_uncles block))|].
  intros u s3 (Hs3 & _ & Hb3). apply wp_gret. split; [done|].
  pose proof (reward_nonneg (hdr_Number header)) as Hr. split.
  { intros a. rewrite Hb3. specialize (Hsol2 a). change (evm_StateDB (pr_evm p)) with (pr_state p) in Hsol2. case_decide; lia. }
  split; [exact Hrs|]. split; [done|]. split; [lia|].
  eapply grows_weaken; [|exact (grows_trans _ _ _ _ _ Hg (grows_one _ _ _ _ Hb3))]. lia.
Qed.
End processor_lemmas.

(** *** Deriving the fields of stored receipts *)

(** The log [l] again, with its place: the block, the transaction, and how many logs of the
    block come before it. *)
Record placed_log (number : Z) (blockHash txHash : Hash) (i index : Z) (l l' : RLog) : Prop := {
  pl_Address : log_Address (rl_Log l') = log_Address (rl_Log l);
  pl_Topics : log_Topics (rl_Log l') = log_Topics (rl_Log l);
  pl_Data : log_Data (rl_Log l') = log_Data (rl_Log l);
  pl_BlockNumber : log_BlockNumber (rl_Log l') = number;
  pl_BlockHash : rl_BlockHash l' = blockHash;
  pl_TxHash : log_TxHash (rl_TxLog l') = txHash;
  pl_TxIndex : log_TxIndex (rl_TxLog l') = i;
  pl_Index : log_Index (rl_TxLog l') = index
}.

(** The same receipt, with the effective price, which [Process] leaves out, and [before]
    logs of the block before its own. *)
Record same_receipt (number : Z) (price : Z) (before : Z) (r r' : Receipt) : Prop := {
  same_Type : rc_Type r' = rc_Type r;
  same_PostState : rc_PostState r' = rc_PostState r;
  same_Status : rc_Status r' = rc_Status r;
  same_Cumulative : rc_CumulativeGasUsed r' = rc_CumulativeGasUsed r;
  same_Bloom : rc_Bloom r' = rc_Bloom r;
  same_count : length (rc_Logs r') = length (rc_Logs r);
  same_Logs : forall j l l', rc_Logs r !! j = Some l -> rc_Logs r' !! j = Some l' ->
    placed_log number (rc_BlockHash r) (rc_TxHash r) (rc_TransactionIndex r) (before + Z.of_nat j) l l';
  same_TxHash : rc_TxHash r' = rc_TxHash r;
  same_Contract : rc_ContractAddress r' = rc_ContractAddress r;
  same_GasUsed : rc_GasUsed r' = rc_GasUsed r;
  same_Price : rc_EffectiveGasPrice r' = Some price;
  same_BlockHash : rc_BlockHash r' = rc_BlockHash r;
  same_BlockNumber : rc_BlockNumber r' = rc_BlockNumber r;
  same_Index : rc_TransactionIndex r' = rc_TransactionIndex r
}.

(** The logs before those of the [k]-th receipt. *)
Definition logs_before (rs : list Receipt) (k : nat) : Z := zlen (concat (map rc_Logs (take k rs))).

Lemma derive_logs_lookup number hash txHash i logIndex ls j l l' :
  0 <= logIndex -> logIndex + zlen ls < two64 -> ls !! j = Some l ->
  derive_logs number hash txHash i logIndex (map strip_log ls) !! j = Some l' ->
  placed_log number hash txHash i (logIndex + Z.of_nat j) l l'.
Proof.
  revert logIndex j. induction ls as [|x ls IH]; intros logIndex [|j] H0 Hl; cbn [map derive_logs lookup list_lookup]; try done.
  - intros [= <-] [= <-]. split; cbn; try done. lia.
  - rewrite zlen_cons in Hl. pose proof (zlen_nonneg ls). intros Hx Hd. rewrite u64_small in Hd by (unfold is_u64; lia).
    replace (logIndex + Z.of_nat (Datatypes.S j)) with (logIndex + 1 + Z.of_nat j) by lia. apply (IH _ j); [lia..|done|exact Hd].
Qed.

Lemma derive_logs_length number hash txHash i logIndex ls : length (derive_logs number hash txHash i logIndex ls) = length ls.
Proof. revert logIndex. induction ls as [|l ls IH]; intros logIndex; cbn; [done|]. by rewrite IH. Qed.

Lemma strip_logs r : rc_Logs (strip r) = map strip_log (rc_Logs r).
Proof. done. Qed.

Lemma derive_fields_ok {K : Keccak} {C : Secp256k1} config header baseFee blockHash i used logIndex tx r :
  tx_ok tx -> 0 <= used -> 0 <= logIndex -> logIndex + zlen (rc_Logs r) < two64 ->
  receipt_of config header blockHash i used tx r ->
  same_receipt (hdr_Number header) (effectiveGasPrice (tx_inner tx) baseFee) logIndex r
    (derive_fields (MakeSigner config (hdr_Number header)) blockHash (hdr_Number header) baseFee i used logIndex (strip r) tx).
Proof.
  intros Ht Hu Hi Hl []. pose proof (to_gas _ Ht) as Hgas. unfold is_u64 in Hgas. unfold derive_fields. rewrite strip_logs.
  split; cbn; try congruence.
  - rewrite derive_logs_length. apply length_map.
  - intros j l l' Hj Hj'. rewrite ro_BlockHash0, ro_TxHash0, ro_Index0. by eapply derive_logs_lookup.
  - destruct ro_Contract0 as (from & Hf & ->). by rewrite Hf.
  - rewrite ro_Cumulative0. replace (used + rc_GasUsed r - used) with (rc_GasUsed r) by lia. apply u64_small. unfold is_u64. lia.
Qed.

(** The [k]-th receipt is derived from the [k]-th transaction. *)
Lemma derive_all_lookup {K : Keccak} {C : Secp256k1} config header baseFee blockHash txs : forall k i used logIndex rs total tx r,
  Forall tx_ok txs -> 0 <= used -> 0 <= logIndex -> logIndex + zlen (concat (map rc_Logs rs)) < two64 ->
  receipts_of config header blockHash i used txs rs total -> txs !! k = Some tx -> rs !! k = Some r ->
  exists r', derive_all (MakeSigner config (hdr_Number header)) blockHash (hdr_Number header) baseFee i used logIndex
      (map strip rs) txs !! k = Some r' /\
    same_receipt (hdr_Number header) (effectiveGasPrice (tx_inner tx) baseFee) (logIndex + logs_before rs k) r r'.
Proof.
  induction txs as [|tx0 txs IH]; intros k i used logIndex [|r0 rs] total tx r Htxs Hu Hi Hl H; try done.
  cbn [receipts_of] in H. destruct H as [Hr H]. apply list.Forall_cons in Htxs as [Ht Htxs].
  cbn [map concat] in Hl. rewrite zlen_app in Hl. pose proof (zlen_nonneg (concat (map rc_Logs rs))). pose proof (zlen_nonneg (rc_Logs r0)).
  pose proof (ro_GasUsed _ _ _ _ _ _ _ Hr). pose proof (ro_Cumulative _ _ _ _ _ _ _ Hr).
  cbn [map derive_all]. destruct k as [|k]; cbn [lookup list_lookup].
  - intros [= <-] [= <-]. eexists. split; [done|]. replace (logIndex + logs_before _ 0) with logIndex by (unfold logs_before; cbn [take map concat]; rewrite zlen_nil; lia).
    apply derive_fields_ok; [done..|lia|done].
  - intros Htx Hk. rewrite strip_logs. assert (zlen (map strip_log (rc_Logs r0)) = zlen (rc_Logs r0)) as Hlen by (unfold zlen; by rewrite length_map).
    change (rc_CumulativeGasUsed (strip r0)) with (rc_CumulativeGasUsed r0).
    rewrite Hlen, u64_small by (unfold is_u64; lia).
    destruct (IH k (i + 1) (rc_CumulativeGasUsed r0) (logIndex + zlen (rc_Logs r0)) rs total tx r) as (r' & Hr' & Hs); [done|lia..|done|done|done|].
    exists r'. split; [exact Hr'|]. unfold logs_before in *. cbn [take map concat]. by rewrite zlen_app, Z.add_assoc.
Qed.

Lemma derive_all_length {K : Keccak} {C : Secp256k1} signer hash number baseFee i used logIndex rs txs :
  length rs = length txs -> length (derive_all signer hash number baseFee i used logIndex rs txs) = length rs.
Proof.
  revert i used logIndex txs. induction rs as [|r rs IH]; intros i used logIndex [|tx txs] H; try done.
  cbn [derive_all length] in *. by rewrite IH by congruence.
Qed.

Lemma receipts_of_wf {K : Keccak} {C : Secp256k1} config header blockHash i used txs rs total :
  receipts_of config header blockHash i used txs rs total -> Forall receipt_wf rs.
Proof.
  revert i used rs. induction txs as [|tx txs IH]; intros i used [|r rs] H; try done.
  destruct H as [Hr H]. constructor; [apply Hr|by eapply IH].
Qed.

Lemma receipts_of_gas {K : Keccak} {C : Secp256k1} config header blockHash i used txs rs total :
  0 <= used -> total < two64 -> receipts_of config header blockHash i used txs rs total ->
  Forall (fun r => is_u64 (rc_CumulativeGasUsed r)) rs.
Proof.
  revert i used rs. induction txs as [|tx txs IH]; intros i used [|r rs] Hu Ht H; try done.
  destruct H as [Hr H]. pose proof (ro_GasUsed _ _ _ _ _ _ _ Hr). pose proof (ro_Cumulative _ _ _ _ _ _ _ Hr).
  constructor; [|by eapply IH; [|done|exact H]; lia]. destruct (receipts_of_bound _ _ _ _ _ _ _ _ H). unfold is_u64. lia.
Qed.

Lemma logs_gas_ok rs : Forall log_ok (concat (map rc_Logs rs)) -> Forall (fun r => is_u64 (rc_CumulativeGasUsed r)) rs ->
  Forall (fun r => Forall log_ok (rc_Logs r) /\ is_u64 (rc_CumulativeGasUsed r)) rs.
Proof.
  intros Hls Hgas. induction Hgas as [|r rs Hr Hrs IH]; [done|]. cbn [map concat] in Hls. apply Forall_app in Hls as [H1 H2].
  constructor; [done|by apply IH].
Qed.

(** Receipts that were written are read. *)
Lemma ReadRaw_written {K : Keccak} {AS : AncientStore} hash number rs db :
  isCanon number hash = false -> Forall receipt_wf rs ->
  Forall (fun r => Forall log_ok (rc_Logs r) /\ is_u64 (rc_CumulativeGasUsed r)) rs ->
  zlen (write_list (concat (map ReceiptForStorage_EncodeRLP rs))) < 2 ^ 62 ->
  ReadRawReceipts hash number (kv_write (WriteReceipts hash number rs []) db) = Ret (Some (map strip rs)).
Proof.
  intros Hcanon Hwf Hok Hlen. unfold ReadRawReceipts, ReadReceiptsRLP. rewrite Hcanon.
  assert (forall k v (db : kvstore), kv_Get k (kv_apply db (KvPut k v)) = v) as Hget.
  { intros k v db0. unfold kv_Get, kv_apply. assert (<[k := v]> db0 !! k = Some v) as Hl by apply lookup_insert_eq. exact (f_equal (default []) Hl). }
  unfold WriteReceipts, kv_write. cbn [app foldl]. rewrite Hget. set (data := write_list _) in *.
  assert (zlen data <> 0) as Hne.
  { pose proof (encode_item_nonempty (Lst (map stored_item rs))) as Hne. cbn [encode_item] in Hne. rewrite map_map in Hne.
    change (data <> []) in Hne. destruct data as [|x data']; [done|]. rewrite zlen_cons. pose proof (zlen_nonneg data'). lia. }
  rewrite (proj2 (Z.eqb_neq _ _) Hne). pose proof (DecodeBytes_consumes _ _ _ (receipts_consumes rs Hwf Hok) Hlen) as Hd.
  fold data in Hd. by rewrite Hd.
Qed.

(** A stored receipt is longer than it has logs. *)
Lemma stored_logs rs : zlen (concat (map rc_Logs rs)) <= zlen (write_list (concat (map ReceiptForStorage_EncodeRLP rs))).
Proof.
  assert (forall c, zlen c <= zlen (write_list c)) as Hw.
  { intros c. unfold write_list. rewrite zlen_app. pose proof (zlen_nonneg (listhead_encode (zlen c))). lia. }
  etrans; [|apply Hw]. induction rs as [|r rs IH]; [done|]. cbn [map concat]. rewrite !zlen_app.
  cut (zlen (rc_Logs r) <= zlen (ReceiptForStorage_EncodeRLP r)); [lia|].
  unfold ReceiptForStorage_EncodeRLP, stored_item. cbn [encode_item map concat]. etrans; [|apply Hw]. rewrite !zlen_app.
  set (logs := write_list _). cut (zlen (rc_Logs r) <= zlen logs).
  { pose proof (zlen_nonneg (writeBytes (statusEncoding r))). pose proof (zlen_nonneg (encode_item (int_item (rc_CumulativeGasUsed r)))).
    rewrite zlen_nil. lia. }
  unfold logs. etrans; [|apply Hw]. rewrite map_map. apply (concat_count (fun l => encode_item (log_item (rl_Log l)))).
  intros l. apply encode_item_nonempty.
Qed.

(** ** Theorems *)

Section processor_theorems.
Context {B : Database} {K : Keccak} {KL : KeccakLaws K} {BL : DatabaseLaws B} {U : Uint256} {UL : Uint256Laws U}
  {R : PrecompileRun} {RL : PrecompileRunLaws R} {CC : ChainContext} {C : Secp256k1} {O : MapOrder} {SR : StateRoots}.

(** A block as it can be decoded, on a chain with Byzantium in force. *)
Record block_ok (config : ChainConfig) (block : Block) : Prop := {
  bo_config : config_ok config (blk_header block);
  bo_byzantium : IsByzantium config (hdr_Number (blk_header block)) = true;
  bo_base : forall b, hdr_BaseFee (blk_header block) = Some b -> 0 <= b;
  bo_gas : is_u64 (hdr_GasLimit (blk_header block));
  bo_txs : Forall tx_ok (blk_transactions block)
}.

(** C3: Processing a block ends without any panic but [SubRefund]'s.  If it succeeds the
    transactions were executed one after the other ([processed]) and there is one receipt
    for each, in order: its status tells whether the message failed, its logs are those the
    transaction left in the state, its gas is what the message used, no more than the
    limit; it has the type and hash of the transaction, the sum of the gas so far, its place
    in the block, the address of the contract it created, and the bloom of its logs.  The
    gas used is their sum and within the block's limit; no balance is negative; and the sum
    of the balances grew by no more than the reward less the base fee burnt.  If it
    fails, nothing was created. *)
Theorem Process_accounts config abort block s :
  block_ok config block -> state_ok s -> solvent s ->
  wp refund_panic (Process config (mkConfig false false []) abort block)
    (fun r s' => state_ok s' /\ solvent s' /\
       match r with
       | inl (receipts, logs, usedGas) =>
           processed config abort (blk_header block) block s receipts usedGas s' /\
           receipts_of config (blk_header block) (Block_Hash block) 0 0 (blk_transactions block) receipts usedGas /\
           length receipts = length (blk_transactions block) /\
           logs = concat (map rc_Logs receipts) /\ 0 <= usedGas <= hdr_GasLimit (blk_header block) /\
           grows_by (reward_at (hdr_Number (blk_header block)) - usedGas * base_burnt config (blk_header block))
             (balance_of s) (balance_of s')
       | inr _ => grows_by 0 (balance_of s) (balance_of s')
       end) s.
Proof.
  intros [] Hs Hsol.
  pose proof (Process_ok config abort (blk_header block) bo_config0 bo_byzantium0 bo_base0 block s eq_refl Hs Hsol bo_gas0 bo_txs0) as H.
  unfold wp in *. destruct (Process _ _ _ _ _) as [[[[[receipts logs] usedGas]|err] s']| |] eqn:E; [|exact H..].
  destruct H as (H1 & H2 & H3 & H4 & H5 & H6). split; [exact H1|]. split; [exact H2|].
  split; [by apply (Process_run _ _ _ bo_byzantium0) in E|]. split; [exact H3|].
  split; [apply (receipts_of_bound _ _ _ _ _ _ _ _ H3)|]. split; [exact H4|]. split; [exact H5|exact H6].
Qed.

(** C34: The receipts of a processed block survive the database.  They are written
    ([WriteReceipts]) as bytes under the key of the block; when a database that has these
    bytes, and the header, is read ([ReadReceipts]) they are decoded, and the fields that
    are not stored are derived from the transactions of the block: all fields come back as
    processing left them, the effective price is that of the transaction at the base fee
    of the header, and each log has its address, topics and data again, and with them the
    number and hash of the block, the hash and index of its transaction, and its own index
    in the block, which is the number of logs before it.  The block is not in the freezer;
    addresses and topics of the logs are as wide as their types, and the bytes
    written are fewer than 2^62. *)
Theorem receipts_restored {AS : AncientStore} config abort block s receipts logs usedGas s' db :
  let header := blk_header block in
  let hash := Block_Hash block in
  let number := hdr_Number header in
  block_ok config block -> state_ok s -> solvent s ->
  Process config (mkConfig false false []) abort block s = Ret (inl (receipts, logs, usedGas), s') ->
  Forall log_ok logs ->
  zlen (write_list (concat (map ReceiptForStorage_EncodeRLP receipts))) < 2 ^ 62 ->
  isCanon number hash = false ->
  let db' := kv_write (WriteReceipts hash number receipts []) db in
  ReadHeader hash number db' = Ret (Some header) ->
  exists rs, ReadReceipts hash number config (Some (blk_transactions block)) db' = Ret (Some rs) /\
    length rs = length receipts /\
    forall k tx r r', blk_transactions block !! k = Some tx -> receipts !! k = Some r -> rs !! k = Some r' ->
      same_receipt number (effectiveGasPrice (tx_inner tx) (hdr_BaseFee header)) (logs_before receipts k) r r'.
Proof.
  intros header hash number [] Hs Hsol HP Hlogs Hlen Hcanon db' Hheader.
  pose proof (Process_ok config abort header bo_config0 bo_byzantium0 bo_base0 block s eq_refl Hs Hsol bo_gas0 bo_txs0) as H.
  unfold wp in H. rewrite HP in H. destruct H as (_ & _ & H & -> & Hused & _).
  pose proof (receipts_of_bound _ _ _ _ _ _ _ _ H) as [Hcount _]. unfold is_u64 in bo_gas0. fold header in bo_gas0.
  assert (ReadRawReceipts hash number db' = Ret (Some (map strip receipts))) as Hraw.
  { apply ReadRaw_written; [done|by eapply receipts_of_wf| |done]. apply logs_gas_ok; [done|].
    by eapply receipts_of_gas; [..|exact H]; lia. }
  unfold ReadReceipts. rewrite Hraw. cbn [res_bind]. rewrite Hheader. cbn [res_bind]. unfold DeriveFields.
  assert (zlen (blk_transactions block) = zlen (map strip receipts)) as -> by (unfold zlen; by rewrite length_map, Hcount).
  rewrite Z.eqb_refl. cbn [negb]. eexists. split; [reflexivity|]. split; [by rewrite derive_all_length; rewrite length_map|].
  intros k tx r r' Htx Hr Hr'. pose proof (stored_logs receipts) as Hsmall.
  destruct (derive_all_lookup config header (hdr_BaseFee header) hash (blk_transactions block) k 0 0 0 receipts usedGas tx r)
    as (r1 & Hr1 & Hsame); [done|lia|lia|unfold two64; lia|done..|].
  rewrite Z.add_0_l in Hsame. unfold number in Hr'. rewrite Hr1 in Hr'. by injection Hr' as <-.
Qed.
End processor_theorems.
