(* ===== verification/Validator.v ===== *)
(** * Validating and assembling blocks (client/core/block_validator.go, client/core/types/block.go)

    The checks on the body of a block and on what processing it gave, the gas limit
    a miner aims at, and the assembly of a mined block. *)

From S2P Require Import Prelude.
From S2P Require Import Uint256.
From S2P Require Import Common.
From S2P Require Import Params.
From S2P Require Import Rlp.
From S2P Require Import Precompiles.
From S2P Require Import Crypto.
From S2P Require Import Header.
From S2P Require Import StateObject.
From S2P Require Import StateInterface.
From S2P Require Import StateStore.
From S2P Require Import StateSpec.
From S2P Require Import StateSupply.
From S2P Require Import Encoding.
From S2P Require Import TrieNode.
From S2P Require Import TrieHash.
From S2P Require Import TrieMap.
From S2P Require Import StackTrie.
From S2P Require Import CoreEvm.
From S2P Require Import Machine.
From S2P Require Import Transaction.
From S2P Require Import Blocks.
From S2P Require Import DeriveSha.
From S2P Require Import TxSigning.
From S2P Require Import Receipts.
From S2P Require Import Misc.
From S2P Require Import Hashimoto.
From S2P Require Import DagSizes.
From S2P Require Import Emission.
From S2P Require Import Ethash.
From S2P Require Import StateTransition.
From S2P Require Import Processor.

(** What the validator asks the blockchain. *)
Class KnownBlocks : Type := {
  HasBlock : Hash -> Z -> bool;
  HasBlockAndState : Hash -> Z -> bool
}.

Inductive body_error : Type :=
| ErrKnownBlock
| UncleError (err : header_error)
| UncleRootMismatch
| TxRootMismatch
| MissingWithdrawals
| WithdrawalsRootMismatch
| WithdrawalsPresent
| BodyUnknownAncestor
| ErrPrunedAncestor.

Inductive state_error : Type :=
| InvalidGasUsed
| InvalidBloom
| InvalidReceiptRoot
| InvalidMerkleRoot.

(** ** Encodings in the tries of a block *)

(** [Transactions.EncodeIndex]. *)
Definition tx_EncodeIndex (tx : Transaction) : list byte :=
  if Type_ tx =? LegacyTxType then rlp_values (inner_values (tx_inner tx))
  else byte_of_Z (Type_ tx) :: rlp_values (inner_values (tx_inner tx)).

(** [Withdrawals.EncodeIndex]. *)
Definition wd_EncodeIndex (w : Withdrawal) : list byte :=
  encode_item (Lst [int_item (wd_Index w); int_item (wd_Validator w); Str (address_bytes (wd_Address w)); int_item (wd_Amount w)]).

Section validator.
Context {B : Database} {K : Keccak} {K5 : Keccak512} {P : Primality} {U : Uint256} {G : Background} {R : ChainReader}
  {C : Secp256k1} {KB : KnownBlocks} {O : MapOrder} {SR : StateRoots}.

Definition ValidateBody (e : Engine) (block : Block) (unixNow : Z) : Res (option body_error) :=
  let header := blk_header block in
  if HasBlockAndState (Block_Hash block) (NumberU64 block) then Ret (Some ErrKnownBlock)
  else
    let? err := VerifyUncles e block unixNow in
    match err with
    | Some err => Ret (Some (UncleError err))
    | None =>
        if negb (CalcUncleHash (blk_uncles block) =? hdr_UncleHash header) then Ret (Some UncleRootMismatch)
        else
          let? hash := DeriveSha (T:=StackTrie) (map tx_EncodeIndex (blk_transactions block)) in
          if negb (hash =? hdr_TxHash header) then Ret (Some TxRootMismatch)
          else
          let? withdrawals :=
            match hdr_WithdrawalsHash header, blk_withdrawals block with
            | Some _, None => Ret (Some MissingWithdrawals)
            | Some h, Some ws =>
                let? hash := DeriveSha (T:=StackTrie) (map wd_EncodeIndex ws) in
                Ret (if negb (hash =? h) then Some WithdrawalsRootMismatch else None)
            | None, Some _ => Ret (Some WithdrawalsPresent)
            | None, None => Ret None
            end in
          match withdrawals with
          | Some err => Ret (Some err)
          | None =>
              if negb (HasBlockAndState (hdr_ParentHash header) (u64 (NumberU64 block - 1))) then
                if negb (HasBlock (hdr_ParentHash header) (u64 (NumberU64 block - 1))) then Ret (Some BodyUnknownAncestor)
                else Ret (Some ErrPrunedAncestor)
              else Ret None
          end
    end.

Definition ValidateState (config : ChainConfig) (block : Block) (receipts : list Receipt) (usedGas : Z) :
    GM state (option state_error) :=
  let header := blk_header block in
  if negb (hdr_GasUsed header =? usedGas) then gret (Some InvalidGasUsed)
  else
    let* rbloom := gpure (CreateBloom receipts) in
    if negb (bool_decide (rbloom = hdr_Bloom header)) then gret (Some InvalidBloom)
    else
      let* receiptSha := gpure (DeriveSha (T:=StackTrie) (map Receipt_EncodeIndex receipts)) in
      if negb (receiptSha =? hdr_ReceiptHash header) then gret (Some InvalidReceiptRoot)
      else
      let* root := IntermediateRoot (IsEIP158 config (hdr_Number header)) in
      if negb (hdr_Root header =? root) then gret (Some InvalidMerkleRoot) else gret None.

(** ** Assembling *)

Definition set_roots (txHash receiptHash uncleHash : Hash) (bloom : list byte) (h : Header) : Header :=
  mkHeader (hdr_ParentHash h) uncleHash (hdr_Coinbase h) (hdr_Root h) txHash receiptHash bloom (hdr_Difficulty h)
    (hdr_Number h) (hdr_GasLimit h) (hdr_GasUsed h) (hdr_Time h) (hdr_Extra h) (hdr_MixDigest h) (hdr_Nonce h)
    (hdr_BaseFee h) (hdr_WithdrawalsHash h) (hdr_ExcessDataGas h).

Definition set_root (root : Hash) (h : Header) : Header :=
  mkHeader (hdr_ParentHash h) (hdr_UncleHash h) (hdr_Coinbase h) root (hdr_TxHash h) (hdr_ReceiptHash h) (hdr_Bloom h)
    (hdr_Difficulty h) (hdr_Number h) (hdr_GasLimit h) (hdr_GasUsed h) (hdr_Time h) (hdr_Extra h) (hdr_MixDigest h)
    (hdr_Nonce h) (hdr_BaseFee h) (hdr_WithdrawalsHash h) (hdr_ExcessDataGas h).

Definition set_withdrawals_hash (w : option Hash) (h : Header) : Header :=
  mkHeader (hdr_ParentHash h) (hdr_UncleHash h) (hdr_Coinbase h) (hdr_Root h) (hdr_TxHash h) (hdr_ReceiptHash h) (hdr_Bloom h)
    (hdr_Difficulty h) (hdr_Number h) (hdr_GasLimit h) (hdr_GasUsed h) (hdr_Time h) (hdr_Extra h) (hdr_MixDigest h)
    (hdr_Nonce h) (hdr_BaseFee h) w (hdr_ExcessDataGas h).

Definition NewBlock (header : Header) (txs : list Transaction) (uncles : list Header) (receipts : list Receipt) : Res Block :=
  let? txHash := (if zlen txs =? 0 then Ret EmptyTxsHash else DeriveSha (T:=StackTrie) (map tx_EncodeIndex txs)) in
  let? receipt_fields :=
    (if zlen receipts =? 0 then Ret (EmptyReceiptsHash, hdr_Bloom header)
     else
       let? receiptHash := DeriveSha (T:=StackTrie) (map Receipt_EncodeIndex receipts) in
       let? bloom := CreateBloom receipts in
       Ret (receiptHash, bloom)) in
  let '(receiptHash, bloom) := receipt_fields in
  let uncleHash := if zlen uncles =? 0 then EmptyUncleHash else CalcUncleHash uncles in
  Ret (mkBlock (set_roots txHash receiptHash uncleHash bloom header) uncles txs None).

Definition NewBlockWithWithdrawals (header : Header) (txs : list Transaction) (uncles : list Header) (receipts : list Receipt)
    (withdrawals : option (list Withdrawal)) : Res Block :=
  let? b := NewBlock header txs uncles receipts in
  let? h := match withdrawals with
            | None => Ret None
            | Some [] => Ret (Some EmptyWithdrawalsHash)
            | Some ws => let? h := DeriveSha (T:=StackTrie) (map wd_EncodeIndex ws) in Ret (Some h)
            end in
  Ret (WithWithdrawals (mkBlock (set_withdrawals_hash h (blk_header b)) (blk_uncles b) (blk_transactions b) (blk_withdrawals b))
         withdrawals).

(** [Ethash.FinalizeAndAssemble]; [None]: withdrawals are not supported. *)
Definition FinalizeAndAssemble (config : ChainConfig) (header : Header) (txs : list Transaction) (uncles : list Header)
    (receipts : list Receipt) (withdrawals : list Withdrawal) : GM state (option Block) :=
  if zlen withdrawals >? 0 then gret None
  else
    Finalize config header uncles ;;;
    let* root := IntermediateRoot (IsEIP158 config (hdr_Number header)) in
    let* block := gpure (NewBlock (set_root root header) txs uncles receipts) in
    gret (Some block).
End validator.

(** ** The gas limit of the next block *)

Definition CalcGasLimit (parentGasLimit desiredLimit : Z) : Z :=
  let delta := u64 (parentGasLimit / GasLimitBoundDivisor - 1) in
  let limit := parentGasLimit in
  let desiredLimit := if desiredLimit <? MinGasLimit then MinGasLimit else desiredLimit in
  if limit <? desiredLimit then
    let limit := u64 (parentGasLimit + delta) in
    if limit >? desiredLimit then desiredLimit else limit
  else if limit >? desiredLimit then
    let limit := u64 (parentGasLimit - delta) in
    if limit <? desiredLimit then desiredLimit else limit
  else limit.

(** ** Lemmas *)

Section validator_lemmas.
Context {B : Database} {K : Keccak} {K5 : Keccak512} {P : Primality} {U : Uint256} {G : Background} {R : ChainReader}
  {C : Secp256k1} {KB : KnownBlocks} {O : MapOrder} {SR : StateRoots}.

Lemma ValidateState_None config block receipts usedGas s s' :
  ValidateState config block receipts usedGas s = Ret (None, s') ->
  hdr_GasUsed (blk_header block) = usedGas /\ CreateBloom receipts = Ret (hdr_Bloom (blk_header block)) /\
  DeriveSha (T:=StackTrie) (map Receipt_EncodeIndex receipts) = Ret (hdr_ReceiptHash (blk_header block)) /\
  IntermediateRoot (IsEIP158 config (hdr_Number (blk_header block))) s = Ret (hdr_Root (blk_header block), s').
Proof.
  unfold ValidateState, gbind, gret, gpure. destruct (_ =? usedGas) eqn:E1; [|done]. cbn [negb].
  destruct (CreateBloom receipts) as [b| |]; [|done..]. case_bool_decide as E2; [|done]. cbn [negb].
  destruct (DeriveSha _) as [receiptSha| |]; [|done..]. destruct (receiptSha =? _) eqn:E3; [|done]. cbn [negb].
  destruct (IntermediateRoot _ s) as [[root s1]| |]; [|done..]. destruct (_ =? root) eqn:E4; [|done]. cbn [negb].
  zbool. intros [= <-]. by subst.
Qed.

Lemma NewBlock_ok header txs uncles receipts :
  listable (map tx_EncodeIndex txs) -> listable (map Receipt_EncodeIndex receipts) ->
  (receipts = [] -> hdr_Bloom header = empty_bloom) ->
  exists txHash receiptHash bloom,
    DeriveSha (T:=StackTrie) (map tx_EncodeIndex txs) = Ret txHash /\
    DeriveSha (T:=StackTrie) (map Receipt_EncodeIndex receipts) = Ret receiptHash /\
    CreateBloom receipts = Ret bloom /\
    NewBlock header txs uncles receipts = Ret (mkBlock (set_roots txHash receiptHash (CalcUncleHash uncles) bloom header) uncles txs None).
Proof.
  intros Ht Hr Hb. destruct (CreateBloom_ok receipts) as (bloom & Hbl & _).
  destruct (DeriveSha_ok _ Ht) as (txHash & Hth & _), (DeriveSha_ok _ Hr) as (receiptHash & Hrh & _).
  exists txHash, receiptHash, bloom. split; [done|]. split; [done|]. split; [done|]. unfold NewBlock.
  assert ((if zlen txs =? 0 then Ret EmptyTxsHash else DeriveSha (T:=StackTrie) (map tx_EncodeIndex txs)) = Ret txHash) as ->.
  { destruct txs; [|done]. cbn [map] in Hth. by rewrite DeriveSha_nil in Hth. }
  assert ((if zlen uncles =? 0 then EmptyUncleHash else CalcUncleHash uncles) = CalcUncleHash uncles) as -> by by destruct uncles.
  cbn [res_bind]. destruct receipts as [|r receipts].
  - cbn [zlen length map]. change (Z.of_nat 0 =? 0) with true. cbv iota. cbn [res_bind]. rewrite Hb by done.
    cbn [map] in Hrh. rewrite DeriveSha_nil in Hrh. cbn in Hbl. injection Hbl as <-. by injection Hrh as <-.
  - rewrite (proj2 (Z.eqb_neq (zlen (r :: receipts)) 0)) by (unfold zlen; cbn [length]; lia). by rewrite Hrh, Hbl.
Qed.

Lemma ValidateBody_None e block unixNow : ValidateBody e block unixNow = Ret None ->
  DeriveSha (T:=StackTrie) (map tx_EncodeIndex (blk_transactions block)) = Ret (hdr_TxHash (blk_header block)) /\
  CalcUncleHash (blk_uncles block) = hdr_UncleHash (blk_header block) /\ VerifyUncles e block unixNow = Ret None.
Proof.
  unfold ValidateBody. destruct (HasBlockAndState _ _); [done|]. destruct (VerifyUncles _ _ _) as [[err|]| |]; [done| |done..]. cbn [res_bind].
  destruct (_ =? hdr_UncleHash _) eqn:E1; [|done]. cbn [negb]. destruct (DeriveSha _) as [hash| |]; [|done..]. cbn [res_bind].
  destruct (hash =? _) eqn:E2; [|done]. intros _. zbool. by subst.
Qed.

Lemma tx_Hash_encoding tx : tx_Hash tx = keccak256 (tx_EncodeIndex tx).
Proof. unfold tx_Hash, tx_EncodeIndex. by destruct (_ =? LegacyTxType). Qed.
End validator_lemmas.

(** ** Theorems *)

(** C6: What a miner assembles validates: if the header has the gas used and the root of
    the state, the block made of it with the transactions, uncles and receipts passes
    the checks on the state, and its body passes if its uncles are valid, it is new
    and its parent's state is there. *)
Theorem assembled_validates {B : Database} {K : Keccak} {K5 : Keccak512} {P : Primality} {U : Uint256} {G : Background}
    {R : ChainReader} {C : Secp256k1} {KB : KnownBlocks} {SR : StateRoots}
    e config header txs uncles receipts unixNow s s' :
  listable (map tx_EncodeIndex txs) -> listable (map Receipt_EncodeIndex receipts) ->
  (receipts = [] -> hdr_Bloom header = empty_bloom) -> hdr_WithdrawalsHash header = None ->
  IntermediateRoot (IsEIP158 config (hdr_Number header)) s = Ret (hdr_Root header, s') ->
  exists block, NewBlock header txs uncles receipts = Ret block /\
    blk_transactions block = txs /\ blk_uncles block = uncles /\
    ValidateState config block receipts (hdr_GasUsed header) s = Ret (None, s') /\
    (HasBlockAndState (Block_Hash block) (NumberU64 block) = false -> VerifyUncles e block unixNow = Ret None ->
     HasBlockAndState (hdr_ParentHash header) (u64 (NumberU64 block - 1)) = true ->
     ValidateBody e block unixNow = Ret None).
Proof.
  intros Ht Hr Hb Hw Hroot. destruct (NewBlock_ok header txs uncles receipts Ht Hr Hb) as (txHash & receiptHash & bloom & Hth & Hrh & Hbl & ->).
  eexists. split; [reflexivity|]. split; [done|]. split; [done|]. split.
  - unfold ValidateState, gbind, gret, gpure. cbn [blk_header set_roots hdr_GasUsed hdr_Bloom hdr_ReceiptHash hdr_Number hdr_Root].
    rewrite Hbl, Hrh, !Z.eqb_refl. cbn [negb]. rewrite bool_decide_eq_true_2 by done. cbn [negb].
    by rewrite Hroot, Z.eqb_refl.
  - intros Hnew Hu Hp. unfold ValidateBody. rewrite Hnew, Hu. cbn [res_bind].
    cbn [blk_header blk_uncles blk_transactions blk_withdrawals set_roots hdr_UncleHash hdr_TxHash hdr_WithdrawalsHash hdr_ParentHash] in *.
    rewrite Hth. cbn [res_bind]. rewrite !Z.eqb_refl, Hw. cbn [negb res_bind]. by rewrite Hp.
Qed.

(** C5: The header of an accepted block commits to its receipts: its gas used is the sum
    of theirs and within its limit, its receipt root is theirs, and its bloom finds
    the address and every topic of every log. *)
Theorem accepted_block_commits {B : Database} {K : Keccak} {KL : KeccakLaws K} {BL : DatabaseLaws B} {U : Uint256}
    {UL : Uint256Laws U} {RR : PrecompileRun} {RL : PrecompileRunLaws RR} {CC : ChainContext} {C : Secp256k1} {O : MapOrder}
    {SR : StateRoots}
    config abort block s receipts logs usedGas s1 s2 :
  block_ok config block -> state_ok s -> solvent s ->
  Process config (mkConfig false false []) abort block s = Ret (inl (receipts, logs, usedGas), s1) ->
  ValidateState config block receipts usedGas s1 = Ret (None, s2) ->
  let header := blk_header block in
  hdr_GasUsed header = foldr (fun r acc => rc_GasUsed r + acc) 0 receipts /\ hdr_GasUsed header <= hdr_GasLimit header /\
  DeriveSha (T:=StackTrie) (map Receipt_EncodeIndex receipts) = Ret (hdr_ReceiptHash header) /\
  forall l, l ∈ logs ->
    bloom_Test (hdr_Bloom header) (address_bytes (log_Address (rl_Log l))) = Ret true /\
    forall t, t ∈ log_Topics (rl_Log l) -> bloom_Test (hdr_Bloom header) (hash_bytes t) = Ret true.
Proof.
  intros [] Hs Hsol HP HV. cbv zeta.
  pose proof (Process_ok config abort (blk_header block) bo_config bo_byzantium bo_base block s eq_refl Hs Hsol bo_gas bo_txs) as Hok.
  unfold wp in Hok. rewrite HP in Hok. destruct Hok as (_ & _ & Hrs & -> & Hu & _).
  destruct (ValidateState_None _ _ _ _ _ _ HV) as (Hgas & Hbloom & Hroot & _). split_and!.
  - rewrite Hgas. clear - Hrs. revert Hrs. generalize 0 at 1. intros i.
    assert (forall used, receipts_of config (blk_header block) (Block_Hash block) i used (blk_transactions block) receipts usedGas ->
      usedGas = used + foldr (fun r acc => rc_GasUsed r + acc) 0 receipts) as Hsum; [|intros Hr; rewrite (Hsum 0 Hr); lia].
    revert i. generalize (blk_transactions block) as txs. induction receipts as [|r rs IH]; intros [|tx txs] i used Hr; cbn in *; try done; [lia|].
    destruct Hr as [Hr Hrs]. rewrite (IH _ _ _ Hrs), (ro_Cumulative _ _ _ _ _ _ _ Hr). lia.
  - rewrite Hgas. apply Hu.
  - exact Hroot.
  - intros l Hl. apply list_elem_of_In, in_concat in Hl as (ls & Hin & Hl). apply in_map_iff in Hin as (r & <- & Hr).
    apply list_elem_of_In in Hr, Hl. destruct (CreateBloom_ok receipts) as (b & Hb & Hw & Hlog).
    assert (b = hdr_Bloom (blk_header block)) as <- by congruence. destruct (Hlog r l Hr Hl) as [Ha Ht].
    split; [by apply bloom_Test_true|]. intros t Hin. apply bloom_Test_true; auto.
Qed.

(** The gas limit a miner aims at is one the verifier of the next header accepts,
    whatever limit is desired, for every limit of the parent from the minimum to the
    maximum. *)
Theorem CalcGasLimit_verifies parentGasLimit desiredLimit :
  MinGasLimit <= parentGasLimit <= MaxGasLimit -> is_u64 desiredLimit ->
  VerifyGaslimit parentGasLimit (CalcGasLimit parentGasLimit desiredLimit) = None /\
  let desired := Z.max desiredLimit MinGasLimit in
  let step := parentGasLimit / 1024 - 1 in
  CalcGasLimit parentGasLimit desiredLimit = Z.max (parentGasLimit - step) (Z.min (parentGasLimit + step) desired).
Proof.
  unfold MinGasLimit, MaxGasLimit, is_u64, two64. intros Hp Hd.
  pose proof (Z.div_le_lower_bound parentGasLimit 1024 4 ltac:(lia) ltac:(lia)).
  pose proof (Z.div_mod parentGasLimit 1024 ltac:(lia)). pose proof (Z.mod_pos_bound parentGasLimit 1024 ltac:(lia)).
  assert (CalcGasLimit parentGasLimit desiredLimit = Z.max (parentGasLimit - (parentGasLimit / 1024 - 1))
    (Z.min (parentGasLimit + (parentGasLimit / 1024 - 1)) (Z.max desiredLimit 5000))) as ->.
  { unfold CalcGasLimit, GasLimitBoundDivisor, MinGasLimit. set (q := parentGasLimit / 1024) in *.
    rewrite (u64_small (q - 1)) by ulia. rewrite (u64_small (parentGasLimit + (q - 1))), (u64_small (parentGasLimit - (q - 1))) by ulia.
    rewrite !Z.gtb_ltb. repeat case_match; zbool; lia. }
  split; [|done]. set (q := parentGasLimit / 1024) in *.
  apply VerifyGaslimit_spec; [ulia|ulia|]. unfold distance, u64. rewrite !mod_cases by (unfold two64; lia).
  fold q. unfold two64. repeat case_match; zbool; lia.
Qed.

(** C19: The header of an accepted block commits to its transactions: two blocks whose
    bodies are accepted and whose headers have the same transaction root have the same
    transactions, as encoded and by their hashes, in the same order, unless Keccak
    collides on the nodes of the two tries. *)
Theorem accepted_transactions_unique {B : Database} {K : Keccak} {K5 : Keccak512} {P : Primality} {U : Uint256} {G : Background}
    {R : ChainReader} {C : Secp256k1} {KB : KnownBlocks}
    e block block' unixNow unixNow' l l' :
  let encodings b := map tx_EncodeIndex (blk_transactions b) in
  ValidateBody e block unixNow = Ret None -> ValidateBody e block' unixNow' = Ret None ->
  hdr_TxHash (blk_header block) = hdr_TxHash (blk_header block') ->
  listable (encodings block) -> listable (encodings block') -> Forall (fun v => zlen v <= 2 ^ 58) (encodings block) ->
  list_committed (encodings block) l -> list_committed (encodings block') l' -> no_collision (l ++ l') ->
  (forall x, x ∈ l ++ l' -> BytesToHash (hashData x) <> EmptyRootHash) ->
  encodings block = encodings block' /\ map tx_Hash (blk_transactions block) = map tx_Hash (blk_transactions block').
Proof.
  intros encodings HV HV' He Ha Hb Hf Hl Hl' Hnc Hne. apply ValidateBody_None in HV as [HV _], HV' as [HV' _]. rewrite He in HV.
  pose proof (DeriveSha_inj _ _ _ l l' Ha Hb Hf HV HV' Hl Hl' Hnc Hne) as Heq. split; [done|].
  assert (forall txs, map tx_Hash txs = map keccak256 (map tx_EncodeIndex txs)) as Hh.
  { intros txs. rewrite map_map. apply map_ext. apply tx_Hash_encoding. }
  rewrite !Hh. by f_equal.
Qed.
