(* ===== verification/Chain.v ===== *)
(** * Genesis and the supply of the chain (client/core/genesis.go)

    The genesis block with its allocation, and the balances a chain of blocks can
    reach from it by processing one block after the other. *)

From S2P Require Import Prelude.
From S2P Require Import Uint256.
From S2P Require Import Common.
From S2P Require Import Params.
From S2P Require Import Precompiles.
From S2P Require Import Crypto.
From S2P Require Import Header.
From S2P Require Import StateObject.
From S2P Require Import StateInterface.
From S2P Require Import StateStore.
From S2P Require Import StateSpec.
From S2P Require Import StateSafe.
From S2P Require Import StateTheorems.
From S2P Require Import StateSupply.
From S2P Require Import Machine.
From S2P Require Import CoreEvm.
From S2P Require Import Blocks.
From S2P Require Import TxSigning.
From S2P Require Import Receipts.
From S2P Require Import Emission.
From S2P Require Import StateTransition.
From S2P Require Import Processor.
From S2P Require Import Validator.

(** ** Genesis *)

Record GenesisAccount : Type := mkGenesisAccount {
  ga_Code : list byte;
  ga_Storage : list (Hash * Hash);
  ga_Balance : Z;
  ga_Nonce : Z
}.

(** A map, in the order in which Go visits it. *)
Definition GenesisAlloc : Type := list (Address * GenesisAccount).

Record Genesis : Type := mkGenesis {
  gen_Config : option ChainConfig;
  gen_Nonce : Z;
  gen_Timestamp : Z;
  gen_ExtraData : list byte;
  gen_GasLimit : Z;
  gen_Difficulty : option Z;
  gen_Mixhash : Hash;
  gen_Coinbase : Address;
  gen_Alloc : GenesisAlloc;
  gen_Number : Z;
  gen_GasUsed : Z;
  gen_ParentHash : Hash;
  gen_BaseFee : option Z
}.

Definition DefaultGenesisBlock : Genesis :=
  mkGenesis (Some MainnetChainConfig) 0 0 [] 147000000 (Some 1) 0 0
    [(0xc657de8D48cAB170e98782815670f8B019005473, mkGenesisAccount [] [] (2000000 * 1000000000000000000) 0)] 0 0 0 None.

Section genesis.
Context {B : Database} {K : Keccak}.

Fixpoint alloc_storage (addr : Address) (storage : list (Hash * Hash)) : GM state unit :=
  match storage with
  | [] => gret tt
  | (key, value) :: storage => sdb_SetState addr key value ;;; alloc_storage addr storage
  end.

(** The loop of [deriveHash] and of [flush]. *)
Fixpoint alloc_accounts (alloc : GenesisAlloc) : GM state unit :=
  match alloc with
  | [] => gret tt
  | (addr, account) :: alloc =>
      sdb_AddBalance addr (ga_Balance account) ;;;
      sdb_SetCode addr (ga_Code account) ;;;
      sdb_SetNonce addr (ga_Nonce account) ;;;
      alloc_storage addr (ga_Storage account) ;;;
      alloc_accounts alloc
  end.

(** [ToBlock], given the root of the allocated state. *)
Definition ToBlock {C : Secp256k1} (g : Genesis) (root : Hash) : Res Block :=
  let london := match gen_Config g with Some c => IsLondon c 0 | None => false end in
  let shanghai := match gen_Config g with Some c => IsShanghai c (gen_Timestamp g) | None => false end in
  let head := mkHeader (gen_ParentHash g) 0 (gen_Coinbase g) root 0 0 empty_bloom
    (match gen_Difficulty g with
     | Some d => d
     | None => if gen_Mixhash g =? 0 then GenesisDifficulty else 0
     end)
    (gen_Number g) (if gen_GasLimit g =? 0 then GenesisGasLimit else gen_GasLimit g) (gen_GasUsed g) (gen_Timestamp g)
    (gen_ExtraData g) (gen_Mixhash g) (gen_Nonce g)
    (if london then match gen_BaseFee g with Some b => Some b | None => Some InitialBaseFee end else gen_BaseFee g)
    (if shanghai then Some EmptyWithdrawalsHash else None) None in
  let? b := NewBlock head [] [] [] in
  Ret (WithWithdrawals b (if shanghai then Some [] else None)).
End genesis.

(** ** Lemmas: the allocation *)

Section genesis_lemmas.
Context {B : Database} {K : Keccak} {KL : KeccakLaws K} {BL : DatabaseLaws B}.

Definition account_ok (account : GenesisAccount) : Prop :=
  zlen (ga_Code account) < 2 ^ 60 /\ 0 <= ga_Balance account /\ is_u64 (ga_Nonce account).

Definition alloc_balance (alloc : GenesisAlloc) (a : Address) : Z :=
  delta_at (map (fun '(addr, account) => (addr, ga_Balance account)) alloc) a.

Lemma keeps_step (m : GM state unit) s : mutates m -> keeps m -> state_ok s ->
  wp no_panic m (fun _ s' => state_ok s' /\ same_balances s s') s.
Proof using.
  intros Hm Hk Hs. eapply wp_mono; [apply wp_conj; [by apply Hm|by apply Hk]|]. by intros u s' [[? _] ?].
Qed.

Lemma alloc_storage_ok addr storage s : state_ok s ->
  wp no_panic (alloc_storage addr storage) (fun _ s' => state_ok s' /\ same_balances s s') s.
Proof using KL BL.
  revert s. induction storage as [|[key value] storage IH]; intros s Hs; cbn [alloc_storage]; [by apply wp_gret|].
  apply wp_gbind. eapply wp_mono; [apply keeps_step; [apply sdb_SetState_ok|apply SetState_keeps|done]|].
  intros u s1 [Hs1 Hb1]. eapply wp_mono; [by apply IH|]. intros u' s2 [Hs2 Hb2]. split; [done|].
  intros a. by rewrite Hb2.
Qed.

Lemma alloc_accounts_ok alloc s : state_ok s -> Forall (fun x => account_ok x.2) alloc ->
  wp no_panic (alloc_accounts alloc)
    (fun _ s' => state_ok s' /\ forall a, balance_of s' a = balance_of s a + alloc_balance alloc a) s.
Proof using KL BL.
  revert s. induction alloc as [|[addr account] alloc IH]; intros s Hs Hall; cbn [alloc_accounts].
  { apply wp_gret. split; [done|]. intros a. unfold alloc_balance, delta_at. cbn. lia. }
  apply list.Forall_cons in Hall as [(Hc & Hb & Hn) Hall].
  apply wp_gbind. eapply wp_mono; [apply wp_conj; [by apply sdb_AddBalance_ok|apply AddBalance_balance]|]. intros u1 s1 [[Hs1 _] Hb1].
  apply wp_gbind. eapply wp_mono; [apply keeps_step; [by apply sdb_SetCode_ok|apply SetCode_keeps|done]|]. intros u2 s2 [Hs2 Hb2].
  apply wp_gbind. eapply wp_mono; [apply keeps_step; [by apply sdb_SetNonce_ok|apply SetNonce_keeps|done]|]. intros u3 s3 [Hs3 Hb3].
  apply wp_gbind. eapply wp_mono; [by apply alloc_storage_ok|]. intros u4 s4 [Hs4 Hb4].
  eapply wp_mono; [by apply IH|]. intros u5 s5 [Hs5 Hb5]. split; [done|]. intros a.
  rewrite Hb5, Hb4, Hb3, Hb2, Hb1. unfold alloc_balance. cbn [map]. rewrite delta_at_cons. cbn [fst snd]. lia.
Qed.
End genesis_lemmas.

(** ** The chain *)

Section chain.
Context {K : Keccak} {U : Uint256} {R : PrecompileRun} {C : Secp256k1} {O : MapOrder} {SR : StateRoots}.

(** The balances of the main network after [n] blocks, from those of the genesis
    state.  Each block is processed on a state opened from a database that has the
    balances the previous one left: what [Commit] writes and [New] reads back. *)
Inductive balances_after (genesis : Address -> Z) : nat -> (Address -> Z) -> Prop :=
| after_genesis : balances_after genesis 0 genesis
| after_block n f block s s' result (B : Database) (BL : DatabaseLaws B) (CC : ChainContext) abort :
    balances_after genesis n f ->
    hdr_Number (blk_header block) = Z.of_nat (Datatypes.S n) -> block_ok MainnetChainConfig block ->
    state_ok s -> (forall a, balance_of s a = f a) ->
    Process MainnetChainConfig (mkConfig false false []) abort block s = Ret (inl result, s') ->
    balances_after genesis (Datatypes.S n) (balance_of s').

Context {KL : KeccakLaws K} {UL : Uint256Laws U} {RL : PrecompileRunLaws R}.

Lemma balances_after_grows genesis n f :
  (forall a, 0 <= genesis a) -> balances_after genesis n f ->
  (forall a, 0 <= f a) /\ grows_by (issued n) genesis f.
Proof using KL UL RL.
  intros Hg Hf. induction Hf as [|n f block s s' result B BL CC abort Hf [IH1 IH2] Hnum [] Hs Hb HP].
  { split; [done|]. by apply grows_same. }
  assert (solvent s) as Hsol by (intros a; rewrite Hb; apply IH1).
  pose proof (Process_ok MainnetChainConfig abort (blk_header block) bo_config bo_byzantium bo_base block s eq_refl Hs Hsol bo_gas bo_txs) as H.
  unfold wp in H. rewrite HP in H. destruct result as [[receipts logs] usedGas].
  destruct H as (Hs' & Hsol' & _ & _ & Hu & Hgrow). split; [exact Hsol'|]. cbn [issued].
  eapply grows_trans; [exact IH2|]. apply (grows_weaken (reward_at (hdr_Number (blk_header block)) -
    usedGas * base_burnt MainnetChainConfig (blk_header block))).
  - pose proof (base_burnt_nonneg MainnetChainConfig (blk_header block) bo_base). rewrite Hnum. nia.
  - destruct Hgrow as (d & Hd & Hsum). exists d. split; [|done]. intros a. by rewrite Hd, Hb.
Qed.

Lemma total_le f (l l' : list Address) : (forall a, 0 <= f a) -> NoDup l -> l ⊆ l' -> total_of f l <= total_of f l'.
Proof using.
  intros Hf Hl. revert l'. induction l as [|x l IH]; intros l' Hsub; [by apply total_nonneg|].
  apply list.NoDup_cons in Hl as [Hx Hl]. destruct (list_elem_of_split l' x) as (l1 & l2 & ->); [apply Hsub; by left|].
  assert (total_of f (l1 ++ x :: l2) = f x + total_of f (l1 ++ l2)) as ->.
  { clear. induction l1 as [|y l1 IH]; [done|]. rewrite <- !app_comm_cons, !total_of_cons, IH. lia. }
  rewrite total_of_cons. apply Z.add_le_mono_l, IH; [done|]. intros y Hy.
  assert (y ∈ l1 ++ x :: l2) as Hin by (apply Hsub; by right). rewrite elem_of_app in Hin |- *.
  destruct Hin as [?|Hin]; [by left|]. apply elem_of_cons in Hin as [->|?]; [done|by right].
Qed.

Lemma total_cap genesis n f (m : Z) :
  (forall a, 0 <= genesis a) -> (forall l, NoDup l -> total_of genesis l <= m) -> balances_after genesis n f ->
  forall l, NoDup l -> total_of f l <= m + issued n.
Proof using KL UL RL.
  intros Hg Hm Hf l Hl. destruct (balances_after_grows genesis n f Hg Hf) as [Hpos Hgrow].
  destruct (grows_total _ _ _ Hgrow) as (l0 & Htot). set (l1 := remove_dups (l ++ l0)).
  etrans; [apply (total_le f l l1 Hpos Hl)|].
  { intros x Hx. apply elem_of_remove_dups, elem_of_app. by left. }
  etrans; [apply Htot|]; [apply NoDup_remove_dups|intros x Hx; apply elem_of_remove_dups, elem_of_app; by right|].
  specialize (Hm l1 (NoDup_remove_dups _)). lia.
Qed.
End chain.

(** The allocation of the default genesis block. *)
Lemma default_alloc_total l : NoDup l -> total_of (alloc_balance (gen_Alloc DefaultGenesisBlock)) l <= preminedSupply.
Proof.
  intros Hl. set (a0 := 0xc657de8D48cAB170e98782815670f8B019005473). transitivity (total_of (alloc_balance (gen_Alloc DefaultGenesisBlock)) [a0]).
  2:{ by vm_compute. }
  assert (forall a, a <> a0 -> alloc_balance (gen_Alloc DefaultGenesisBlock) a = 0) as H0.
  { intros a Ha. unfold alloc_balance. cbn [DefaultGenesisBlock gen_Alloc map]. rewrite delta_at_cons. cbn [fst snd].
    rewrite decide_False by (unfold a0 in Ha; congruence). done. }
  revert H0. assert (0 <= alloc_balance (gen_Alloc DefaultGenesisBlock) a0) as Hpos by by vm_compute.
  revert Hpos. generalize (alloc_balance (gen_Alloc DefaultGenesisBlock)) as f. generalize a0. clear a0. intros a0 f Hpos H0.
  assert (total_of f [a0] = f a0) as -> by (unfold total_of; cbn; lia).
  induction l as [|x l IH]; [done|]. apply list.NoDup_cons in Hl as [Hx Hl]. rewrite total_of_cons.
  destruct (decide (x = a0)) as [->|Hne]; [|rewrite H0 by done; by apply IH].
  assert (total_of f l = 0) as ->; [|lia]. clear IH Hl. induction l as [|y l IH]; [done|].
  apply not_elem_of_cons in Hx as [Hy Hx]. rewrite total_of_cons, H0, IH by done. done.
Qed.

(** ** Theorems *)

(** C1: The supply cap.  Writing the genesis allocation ends without a panic and leaves
    the premine; and whatever blocks follow on the main network, after [n] of them the
    balances of any set of accounts add up to no more than the circulating supply the
    code computes for that height, to no more than 66,325,199.96875 R5 at any height,
    and so to less than the cap. *)
Theorem supply_cap {K : Keccak} {KL : KeccakLaws K} {U : Uint256} {UL : Uint256Laws U} {R : PrecompileRun}
    {RL : PrecompileRunLaws R} {C : Secp256k1} {O : MapOrder} {SR : StateRoots}
    {B : Database} {BL : DatabaseLaws B} (Hempty : forall a, GetAccount a = Some None) :
  wp no_panic (alloc_accounts (gen_Alloc DefaultGenesisBlock)) (fun _ s0 => state_ok s0 /\
    forall n f l, balances_after (balance_of s0) n f -> NoDup l -> Z.of_nat n < two64 ->
      total_of f l <= preminedSupply + issued n /\
      (Z.of_nat n < finalBlock -> total_of f l <= CalculateCirculatingSupply (Z.of_nat n)) /\
      total_of f l <= finalSupply /\ total_of f l < SupplyCap) state_New.
Proof.
  eapply wp_mono; [apply alloc_accounts_ok; [apply state_New_ok|]|].
  { constructor; [|done]. by vm_compute. }
  intros u s0 [Hs0 Hb]. split; [done|]. intros n f l Hf Hl Hn.
  assert (forall a, balance_of s0 a = alloc_balance (gen_Alloc DefaultGenesisBlock) a) as Hb0.
  { intros a. rewrite Hb. unfold balance_of at 1, live_object, lookup_object. cbn. rewrite lookup_empty. by rewrite Hempty. }
  assert (forall a, 0 <= balance_of s0 a) as Hpos.
  { intros a. rewrite Hb0. unfold alloc_balance. cbn [DefaultGenesisBlock gen_Alloc map]. rewrite delta_at_cons. cbn [fst snd].
    unfold delta_at. cbn [foldr]. by case_decide. }
  assert (total_of f l <= preminedSupply + issued n) as Htot.
  { apply (total_cap _ _ _ _ Hpos) with (2 := Hf); [|done]. intros l' Hl'.
    rewrite (total_of_ext _ (alloc_balance (gen_Alloc DefaultGenesisBlock))) by (intros; apply Hb0). by apply default_alloc_total. }
  assert (preminedSupply + issued n <= finalSupply) as Hcap.
  { destruct last_reward as (last & Hlast & Hfin). destruct (Z.lt_ge_cases (Z.of_nat n) finalBlock).
    - rewrite <- supply_issued by done. apply supply_below_cap. lia.
    - rewrite (issued_final last) by lia. by rewrite Hfin. }
  split; [done|]. split; [intros H; by rewrite supply_issued|]. split; [lia|].
  assert (finalSupply < SupplyCap) by by vm_compute. lia.
Qed.
