(* ===== verification/Example.v ===== *)
(** * A concrete instance

    Every parameter of the development instantiated by a function that computes:
    an injective hash, a database with two accounts, precompiled contracts that
    return nothing, a chain of two headers.  The hypotheses of the theorems are
    discharged on it, so that none of them is vacuous. *)

From Stdlib Require Import Strings.Byte Sorting.Sorted.
From S2P Require Import Prelude.
From S2P Require Import Uint256.
From S2P Require Import OpCodes.
From S2P Require Import Common.
From S2P Require Import Params.
From S2P Require Import Precompiles.
From S2P Require Import Rlp.
From S2P Require Import Crypto.
From S2P Require Import Header.
From S2P Require Import StateObject.
From S2P Require Import StateInterface.
From S2P Require Import StateStore.
From S2P Require Import StateSpec.
From S2P Require Import StateSafe.
From S2P Require Import StateTheorems.
From S2P Require Import StateSupply.
From S2P Require Import Stack.
From S2P Require Import Memory.
From S2P Require Import Analysis.
From S2P Require Import Machine.
From S2P Require Import Invariant.
From S2P Require Import GasTable.
From S2P Require Import Instructions.
From S2P Require Import JumpTable.
From S2P Require Import Interpreter.
From S2P Require Import TableOk.
From S2P Require Import Evm.
From S2P Require Import Safety.
From S2P Require Import Encoding.
From S2P Require Import CoreEvm.
From S2P Require Import Transaction.
From S2P Require Import Blocks.
From S2P Require Import StateTransition.

(** ** The parameters *)

(** The bytes as a number, with a leading one to keep the length. *)
#[export] Instance ex_keccak : Keccak := {| keccak256 c := be_value (Byte.x01 :: c) |}.

#[export] Instance ex_keccak_laws : KeccakLaws ex_keccak.
Proof.
  assert (forall c, keccak256 c = 256 ^ zlen c + be_value c) as Hk.
  { intros c. cbn [keccak256 ex_keccak]. rewrite be_value_cons. change (byte_val Byte.x01) with 1. lia. }
  split.
  - intros c1 c2. rewrite !Hk. intros H. pose proof (be_value_bound c1). pose proof (be_value_bound c2).
    assert (zlen c1 = zlen c2) as Hl.
    { destruct (Z.lt_trichotomy (zlen c1) (zlen c2)) as [Hlt|[?|Hlt]]; [exfalso|done|exfalso].
      - pose proof (Z.pow_le_mono_r 256 (zlen c1 + 1) (zlen c2)). rewrite Z.pow_add_r in * by (lia || apply zlen_nonneg). lia.
      - pose proof (Z.pow_le_mono_r 256 (zlen c2 + 1) (zlen c1)). rewrite Z.pow_add_r in * by (lia || apply zlen_nonneg). lia. }
    rewrite <- (be_bytes_be_value c1), <- (be_bytes_be_value c2). rewrite Hl in H.
    f_equal; [unfold zlen in Hl; lia|lia].
  - intros c. rewrite Hk. pose proof (be_value_bound c). pose proof (zlen_nonneg c).
    pose proof (Z.pow_pos_nonneg 256 (zlen c)). lia.
Qed.

(** PUSH1 42; PUSH1 0; SSTORE; PUSH1 8; JUMP; JUMPDEST; STOP. *)
Definition ex_code : list byte :=
  [Byte.x60; Byte.x2a; Byte.x60; Byte.x00; Byte.x55; Byte.x60; Byte.x08; Byte.x56; Byte.x5b; Byte.x00].

Definition alice : Address := 1000.
Definition bob : Address := 2000.
Definition miner : Address := 3000.

(** Alice owns 10^20, Bob is a contract. *)
#[export] Instance ex_database : Database := {|
  GetAccount a :=
    if a =? alice then Some (Some (mkStateAccount 0 (Some (10 ^ 20)) 0 None))
    else if a =? bob then Some (Some (mkStateAccount 1 (Some 0) 0 (Some (keccak256 ex_code))))
    else Some None;
  GetStorage a r k := Some [];
  ContractCode ah h := if h =? keccak256 ex_code then Some ex_code else None;
  ContractCodeSize ah h := if h =? keccak256 ex_code then Some (zlen ex_code) else None
|}.

#[export] Instance ex_database_laws : DatabaseLaws ex_database.
Proof.
  split; cbn [GetAccount GetStorage ContractCode ex_database].
  - intros a acc. repeat (destruct (_ =? _)); intros [= <-]; vm_compute; split; congruence.
  - intros a acc b. repeat (destruct (_ =? _)); intros [= <-] [= <-]; by vm_compute.
  - done.
  - by intros a r k enc [= <-].
  - intros ah h c. destruct (_ =? _) eqn:E; [|done]. zbool. intros [= <-]. done.
  - intros ah h c. destruct (_ =? _); [|done]. intros [= <-]. by vm_compute.
Qed.

#[export] Instance ex_precompiles : PrecompileRun := fun p input => ([], None).

#[export] Instance ex_precompiles_laws : PrecompileRunLaws ex_precompiles.
Proof. intros p input H. by vm_compute. Qed.

(** Block 7, its parent 6 and nothing below. *)
Definition ex_header (number parent : Z) : Header :=
  mkHeader parent 0 miner 0 0 0 [] 131072 number 8000000 0 1000 [] 0 0 None None None.

#[export] Instance ex_chain : ChainContext := {|
  Author header := hdr_Coinbase header;
  GetHeader h n := if (h =? 66) && (n =? 6) then Some (ex_header 6 55) else None
|}.

#[export] Instance ex_chain_laws : ChainLaws ex_chain.
Proof. intros h n header. cbn. destruct (_ && _) eqn:E; [|done]. zbool. intros [= <-]. done. Qed.

(** The environment of a call from Alice, and a state in which Alice and Bob are warm. *)
#[export] Instance ex_evm : EVM state :=
  NewEVM (NewEVMBlockContext (ex_header 7 66) None) (mkTxContext alice 1) MainnetChainConfig
    (mkConfig false false []) (fun _ => false).

#[export] Instance ex_evm_spec : EVMSpec ex_evm.
Proof. by apply NewEVM_spec; [apply mainnet_config_ok|]. Qed.

Definition ex_state : state := set_accessList (mkAccessList {[alice := -1; bob := -1]} []) state_New.

Lemma ex_state_ok : state_ok ex_state.
Proof.
  destruct state_New_ok. split; try done. split.
  - intros a i Ha. left. revert Ha. change (addresses _) with ({[alice := -1; bob := -1]} : gmap Address Z).
    rewrite lookup_insert_Some, lookup_singleton_Some. naive_solver.
  - by intros m Hm%elem_of_nil.
  - intros a b i Ha _ Hi. destruct Hi. revert Ha.
    change (addresses _) with ({[alice := -1; bob := -1]} : gmap Address Z).
    rewrite lookup_insert_Some, lookup_singleton_Some. naive_solver.
Qed.

Lemma ex_state_solvent : solvent ex_state.
Proof. apply state_New_solvent. Qed.

Definition ex_machine : EVMState state := mkEVMState ex_state 0 0 false [] [∅] 0.

Lemma ex_machine_ok : evm_ok ex_machine.
Proof.
  split; cbn; try done; [split; [apply ex_state_ok|apply ex_state_solvent]|]. intros j m. destruct j; cbn; [|done]. intros [= <-].
  intros h a. by rewrite lookup_empty.
Qed.

(** Enough nesting and enough fuel for 30000 units of gas. *)
Definition ex_gas : Z := 30000.
Definition ex_calls : Calls state := evm_calls 1026 (Z.to_nat ex_gas + 1).

(** ** Runs

    The definitions compute: Alice sends 5 to Bob, whose code stores 42 and jumps. *)

Example call_runs :
  match @evm_Call state (evm_calls 3 100) (AccountRef alice) bob [] ex_gas 5 ex_machine with
  | Ret ((ret, gasLeft, err), e) =>
      (ret, gasLeft, err) = ([], 7882, None) /\ balance_of (evm_StateDB e) alice = 10 ^ 20 - 5 /\
      balance_of (evm_StateDB e) bob = 5 /\ state_of (evm_StateDB e) bob 0 = 42
  | _ => False
  end.
Proof. vm_compute. done. Qed.

(** A static call of the same code fails on the write, consumes the gas and leaves
    the state alone. *)
Example static_call_fails :
  match @evm_StaticCall state (evm_calls 3 100) (AccountRef alice) bob [] ex_gas ex_machine with
  | Ret ((ret, gasLeft, err), e) =>
      (gasLeft, err) = (0, Some ErrWriteProtection) /\ balance_of (evm_StateDB e) alice = 10 ^ 20 /\
      state_of (evm_StateDB e) bob 0 = 0 /\ readOnly e = false
  | _ => False
  end.
Proof. vm_compute. done. Qed.

(** ** Witnesses: the machine *)

Lemma call_pre_ex r input :
  caller_ok ex_machine r -> zlen input < 2 ^ 60 ->
  call_pre (CallCreateDepth + 2 - Z.of_nat 1026) (Z.of_nat 4001) 4000 r input ex_machine.
Proof. intros Hr Hi. unfold call_pre. split_and!; try done. apply ex_machine_ok. Qed.

Lemma alice_ok : caller_ok ex_machine (AccountRef alice).
Proof. by split; [intros _|]. Qed.

(** The caller of a delegate call: Bob's contract. *)
Definition ex_parent : ContractRef := ParentContract bob alice (Some 0) 0.

Lemma parent_ok : caller_ok ex_machine ex_parent.
Proof. split; [by intros _|]. split; [done|]. cbn. lia. Qed.

Lemma Call_safe_witness :
  wp refund_panic (@evm_Call state (evm_calls 1026 4001) (AccountRef alice) bob [] 4000 5)
    (call_strong 4000 ex_machine) ex_machine.
Proof. apply (Call_safe 1026 4001); [by apply call_pre_ex; [apply alice_ok|]|by intros _|done]. Defined.

Lemma code_calls_safe_witness :
  let C := evm_calls 1026 4001 in
  wp refund_panic (@evm_CallCode state C ex_parent bob [] 4000 0) (call_strong 4000 ex_machine) ex_machine /\
  wp refund_panic (@evm_DelegateCall state C ex_parent bob [] 4000) (call_strong 4000 ex_machine) ex_machine /\
  wp refund_panic (@evm_StaticCall state C ex_parent bob [] 4000) (call_strong 4000 ex_machine) ex_machine.
Proof. apply (code_calls_safe 1026 4001); [by apply call_pre_ex; [apply parent_ok|]|done|by intros _]. Defined.

Lemma creations_safe_witness :
  let C := evm_calls 1026 4001 in
  wp refund_panic (@evm_Create state C (AccountRef alice) ex_code 4000 5) (create_strong 4000 ex_machine) ex_machine /\
  wp refund_panic (@evm_Create2 state C (AccountRef alice) ex_code 4000 5 9) (create_strong 4000 ex_machine) ex_machine.
Proof. apply (creations_safe 1026 4001); [by apply call_pre_ex; [apply alice_ok|]|done]. Defined.

Lemma calls_create_no_ether_witness :
  let C := evm_calls 1026 4001 in
  let no_more (e' : EVMState state) := exists l0, forall l, NoDup l -> l0 ⊆ l ->
    total_of (balance_at (evm_StateDB e')) l <= total_of (balance_at (evm_StateDB ex_machine)) l in
  wp refund_panic (@evm_Call state C (AccountRef alice) bob ex_code 4000 5) (fun _ e' => no_more e') ex_machine /\
  wp refund_panic (@evm_Create state C (AccountRef alice) ex_code 4000 5) (fun _ e' => no_more e') ex_machine /\
  wp refund_panic (@evm_Create2 state C (AccountRef alice) ex_code 4000 5 9) (fun _ e' => no_more e') ex_machine.
Proof.
  apply (calls_create_no_ether 1026 4001); [by apply call_pre_ex; [apply alice_ok|]|by intros _|done].
Defined.

Definition ex_contract : Contract :=
  mkContract alice (AccountRef alice) bob 0 None ex_code (keccak256 ex_code) (Some bob) [] 4000 (Some 0).

Lemma ex_contract_ok : contract_ok ex_machine ex_contract.
Proof. split; first [done|intros _; by right|by intros _|cbn; lia]. Qed.


(** In front of the JUMP, and of a JUMPI. *)
Definition ex_frame (st : Stack) : Frame state := mkFrame 7 st NewMemory ex_contract ex_machine.

Lemma ex_frame_ok st : stack_ok st -> zlen st <= StackLimit -> frame_ok (ex_frame st).
Proof. intros Hs Hl. split; first [exact ex_contract_ok|exact ex_machine_ok|done]. Qed.

Lemma jumps_land_witness :
  (forall dest, head [8; 1] = Some dest ->
   wp refund_panic opJump (fun r f' =>
     r.2 = Some errStopToken \/ r.2 = Some ErrInvalidJump \/ r.2 = None /\ jumped (ex_frame [8; 1]) f' dest)
     (ex_frame [8; 1])) /\
  (forall dest cond, take 2 [8; 1] = [dest; cond] ->
   wp refund_panic opJumpi (fun r f' =>
     r.2 = Some errStopToken \/ r.2 = Some ErrInvalidJump \/
     r.2 = None /\ (if cond =? 0 then fr_pc f' = 7 else jumped (ex_frame [8; 1]) f' dest)) (ex_frame [8; 1])).
Proof. apply (jumps_land (ex_frame [8; 1])); [by apply ex_frame_ok; [repeat constructor|]|done]. Defined.

Lemma interpreter_table_safe_witness :
  exists jt, NewEVMInterpreter (C:=evm_calls 5 10) = Ret (jt, []) /\
    table_ok (dmin:=CallCreateDepth + 2 - 5) (gmax:=10) jt.
Proof. apply (interpreter_table_safe 5 10). Defined.

Lemma mainnet_call_safe_witness :
  let E := NewEVM (NewEVMBlockContext (ex_header 7 66) None) (mkTxContext alice 1) MainnetChainConfig
    (mkConfig false false []) (fun _ => false) in
  let C := evm_calls (E:=E) 1026 (Datatypes.S (Z.to_nat 4000)) in
  wp refund_panic (@evm_Call state C (AccountRef alice) bob [] 4000 5)
    (fun r e' => state_ok (evm_StateDB e') /\ solvent (evm_StateDB e') /\
       grows_by 0 (balance_of ex_state) (balance_of (evm_StateDB e')) /\ 0 <= r.1.2 <= 4000 /\
       (r.2 <> None -> state_equiv (evm_StateDB e') ex_state))
    (mkEVMState ex_state 0 0 false [] [] 0).
Proof.
  refine (mainnet_call_safe (ex_header 7 66) None (mkTxContext alice 1) (fun _ => false) ex_state alice bob [] 4000 5
    ex_state_ok ex_state_solvent _ _ _ _ _ _ _); done.
Defined.

(** ** Witnesses: the state database *)

Definition ex_script : script :=
  then_op (op_SetState bob 0 7)
    (try_revert (then_op (op_Suicide bob) (then_op (op_CreateAccount bob) done_script))
      (then_op (op_SubBalance alice 30) (then_op (op_AddSlotToAccessList alice 4) done_script))).

Lemma revert_restores_witness :
  wp refund_panic (let* id := sdb_Snapshot in run_script ex_script ;;; sdb_RevertToSnapshot id)
    (fun _ s' => state_ok s' /\ state_equiv s' ex_state /\ state_ext ex_state s') ex_state.
Proof. apply (revert_restores ex_script); [apply ex_state_ok|done]. Defined.

Lemma SetState_GetState_witness :
  wp no_panic (sdb_SetState bob 0 7)
    (fun _ s' => forall b j, wp no_panic (sdb_GetState b j)
       (fun w _ => w = if decide (bob = b /\ 0 = j) then 7 else state_of ex_state b j) s') ex_state.
Proof. apply (SetState_GetState bob 0 7), ex_state_ok. Defined.

Lemma CreateAccount_resets_witness :
  wp no_panic (sdb_CreateAccount bob)
    (fun _ s' => balance_of s' bob = balance_of ex_state bob /\ nonce_of s' bob = 0 /\ state_code_of s' bob = [] /\
       state_codehash_of s' bob = emptyCodeHash /\ (forall k, state_of s' bob k = 0) /\
       (forall k, committed_of s' bob k = 0)) ex_state.
Proof. apply (CreateAccount_resets bob ex_state), ex_state_ok. Defined.

Lemma state_refines_StateDB_witness :
  exists SP : StateDBSpec state,
    (forall s, sdb_ok s <-> state_ok s /\ solvent s) /\
    (forall n s s', sdb_evolve n s s' <-> state_ext s s' /\ grows_by n (balance_of s) (balance_of s')) /\
    sdb_equiv = state_equiv /\ balance_at = balance_of /\ sdb_ok state_New.
Proof. apply state_refines_StateDB. Defined.

Lemma Transfer_conserves_witness :
  wp no_panic (core_Transfer alice bob 30) (fun _ s' =>
    state_ok s' /\
    (forall c, balance_of s' c =
       balance_of ex_state c - (if decide (alice = c) then 30 else 0) + (if decide (bob = c) then 30 else 0)) /\
    (forall l, NoDup l -> alice ∈ l -> bob ∈ l -> total s' l = total ex_state l)) ex_state.
Proof. apply (Transfer_conserves alice bob 30 ex_state), ex_state_ok. Defined.

Definition ex_access : accessList := mkAccessList {[alice := -1]} [].

Lemma AddSlot_correct_witness :
  exists ac sc al', AddSlot bob 4 newAccessList = Ret ((ac, sc), al') /\ access_ok al' /\
    (forall b j, Contains al' b j =
       Ret (bool_decide (b = bob) || ContainsAddress newAccessList b,
            bool_decide (b = bob /\ j = 4) || bool_decide (j ∈ slots_of newAccessList b))) /\
    ac = negb (ContainsAddress newAccessList bob) /\
    (if sc : bool then DeleteSlot bob 4 al' = Ret (tt, before_slot ac bob newAccessList) else al' = newAccessList).
Proof. apply (AddSlot_correct bob 4 newAccessList), newAccessList_ok. Defined.

(** ** Witnesses: the environment *)

Lemma GetHashFn_correct_witness :
  GetHashFn (ex_header 7 66) 5 = 55 /\
  exists cache', GetHash_call (ex_header 7 66) 5 [66] = Ret (GetHashFn (ex_header 7 66) 5, cache') /\
    cache_ok (ex_header 7 66) cache'.
Proof.
  destruct (GetHashFn_correct (ex_header 7 66) 5 [66]) as [H1 H2]; [done|done|by intros [|i] h; [intros [= <-]|]|].
  split; [by rewrite H1|exact H2].
Defined.

(** ** Witnesses: the EVM's parts *)

Lemma SafeMath_exact_witness :
  SafeSub 3 5 = (u64 (-2), true) /\ SafeAdd 3 5 = (8, false) /\ SafeMul 3 (two64 - 1) = (u64 (3 * (two64 - 1)), true).
Proof.
  destruct (SafeMath_exact 3 5) as (H1 & H2 & _); [done..|].
  destruct (SafeMath_exact 3 (two64 - 1)) as (_ & _ & H3); [done..|]. rewrite H1, H2, H3. by vm_compute.
Defined.

Lemma memory_operand_exact_witness :
  exists size overflow, calcMemSize64 64 (two64 - 1) = (size, overflow) /\
    (overflow = true <-> two64 - 1 <> 0 /\ two64 <= 64 + (two64 - 1)) /\
    (overflow = false -> size = if two64 - 1 =? 0 then 0 else 64 + (two64 - 1)).
Proof. by apply (memory_operand_exact 64 (two64 - 1)). Defined.

Lemma toWordSize_exact_witness :
  toWordSize (two64 - 1) = (two64 - 1 + 31) / 32 /\ is_u64 (toWordSize (two64 - 1)).
Proof. by apply (toWordSize_exact (two64 - 1)). Defined.

Lemma codeBitmap_correct_witness :
  exists bits, codeBitmap ex_code = Ret bits /\
    forall pos, (pos < length ex_code)%nat -> codeSegment bits (Z.of_nat pos) = Ret (is_instruction ex_code pos).
Proof. by apply (codeBitmap_correct ex_code). Defined.

Lemma swap_dup_correct_witness :
  (exists st', stack_swap 3 [5; 6; 7] = Ret (tt, st') /\ length st' = 3%nat /\
     forall i, st' !! i = [5; 6; 7] !! (if decide (i = 0%nat) then Z.to_nat (3 - 1)
                                else if decide (i = Z.to_nat (3 - 1)) then 0%nat else i)) /\
  (exists x, stack_dup 3 [5; 6; 7] = Ret (tt, x :: [5; 6; 7]) /\ [5; 6; 7] !! Z.to_nat (3 - 1) = Some x).
Proof. by apply (swap_dup_correct 3 [5; 6; 7]). Defined.

Definition ex_memory : Memory := mkMemory (replicate 64 Byte.x00) (memory_fee 2).

Lemma Memory_write_read_witness :
  exists m', Memory_Set 3 2 [Byte.x01; Byte.x02] ex_memory = Ret (tt, m') /\ Memory_Len m' = 64 /\
    Memory_GetPtr 3 2 m' = Ret [Byte.x01; Byte.x02] /\ Memory_GetCopy 3 2 m' = Ret [Byte.x01; Byte.x02].
Proof. by apply (Memory_write_read ex_memory 3 2 [Byte.x01; Byte.x02]). Defined.

Lemma memoryGasCost_correct_witness :
  exists cost err m', memoryGasCost 96 ex_memory = Ret ((cost, err), m') /\ mem_store m' = mem_store ex_memory /\
    (err <> None <-> MaxMemory < 96) /\
    (err = None -> cost = memory_fee (Z.max (Memory_Len ex_memory) 96 / 32) - memory_fee (Memory_Len ex_memory / 32) /\
       is_u64 cost /\ (96 <= Memory_Len ex_memory -> cost = 0)).
Proof. by apply (memoryGasCost_correct 96 ex_memory). Defined.

Lemma callGas_correct_witness :
  callGas true 6500 100 two64 = (Z.min two64 ((6500 - 100) - (6500 - 100) / 64), None) /\
  callGas false 6500 100 two64 = (if two64 <=? two64 then (0, Some ErrGasUintOverflow) else (two64, None)).
Proof. by apply (callGas_correct 6500 100 two64). Defined.

Lemma precompile_charged_witness :
  exists cost, RequiredGas sha256hash [Byte.x01] = Ret cost /\ is_u64 cost /\
    RunPrecompiledContract sha256hash [Byte.x01] 100 =
      Ret (if 100 <? cost then ([], 0, Some ErrOutOfGas)
           else (fst (precompile_Run sha256hash [Byte.x01]), 100 - cost, snd (precompile_Run sha256hash [Byte.x01]))).
Proof. by apply (precompile_charged sha256hash [Byte.x01] 100). Defined.

(** ** Witnesses: RLP *)

Lemma Split_canonical_witness :
  Split [Byte.x82; Byte.x80; Byte.x01; Byte.x05] = Ret (KString, [Byte.x80; Byte.x01], [Byte.x05], None) <->
  [Byte.x82; Byte.x80; Byte.x01; Byte.x05] =
    header KString [Byte.x80; Byte.x01] ++ [Byte.x80; Byte.x01] ++ [Byte.x05] /\ kind_ok KString [Byte.x80; Byte.x01].
Proof. by apply (Split_canonical [Byte.x82; Byte.x80; Byte.x01; Byte.x05]). Defined.

Lemma SplitString_writeBytes_witness :
  SplitString (writeBytes [Byte.x80; Byte.x01] ++ [Byte.x05]) = Ret ([Byte.x80; Byte.x01], [Byte.x05], None).
Proof. by apply (SplitString_writeBytes [Byte.x80; Byte.x01] [Byte.x05]). Defined.

Lemma SplitUint64_AppendUint64_witness :
  SplitUint64 [Byte.x82; Byte.x01; Byte.x00] = Ret (256, [], None) <->
  is_u64 256 /\ [Byte.x82; Byte.x01; Byte.x00] = AppendUint64 256 ++ [] /\ AppendUint64 256 = writeUint64 256.
Proof. by apply (SplitUint64_AppendUint64 [Byte.x82; Byte.x01; Byte.x00] 256 []). Defined.

Lemma encoded_sizes_witness :
  BytesSize [Byte.x80] = zlen (writeBytes [Byte.x80]) /\ IntSize 300 = zlen (writeUint64 300) /\
  headsize 300 = zlen (listhead_encode 300).
Proof. by apply (encoded_sizes [Byte.x80] 300). Defined.

(** ** Witnesses: transactions *)

(** Alice's call of Bob, with two bytes of data. *)
Definition ex_tx : Transaction :=
  mkTransaction (TxLegacy (mkLegacyTx 0 7 60000 (Some bob) 5 [Byte.x00; Byte.x01] 27 1 1)) 0.

Lemma ex_tx_ok : tx_ok ex_tx.
Proof. by split. Qed.

Definition ex_msg : Message := TransactionToMessage ex_tx alice None.

Lemma ex_msg_ok : msg_ok ex_msg 7 7.
Proof. by split. Qed.

(** The transaction uses 21000 + 4 + 16 units for itself and 22118 in Bob's code; Alice
    pays 7 for each of them and 5 to Bob. *)
Example transaction_runs :
  match TransitionDb (C:=evm_calls 3 4000) ex_msg (NewStateTransition ex_machine 100000) with
  | Ret (inl res, st) =>
      let s := evm_StateDB (st_evm st) in
      (UsedGas res, res_Err res, st_gp st) = (43138, None, 100000 - 43138) /\
      balance_of s alice = 10 ^ 20 - 5 - 7 * 43138 /\ balance_of s bob = 5 /\ balance_of s miner = 7 * 43138
  | _ => False
  end.
Proof. vm_compute. done. Qed.

Lemma IntrinsicGas_exact_witness :
  let r := IntrinsicGas [Byte.x00; Byte.x01] (Some [(bob, [1; 2])]) false true true false in
  (r.2 <> None <-> two64 <= 21020) /\ (r.2 <> None -> r = (0, Some core.ErrGasUintOverflow)) /\
  (21020 + 6200 < two64 -> r = (21020 + 6200, None)).
Proof. apply (IntrinsicGas_exact [Byte.x00; Byte.x01] (Some [(bob, [1; 2])]) false true true false). done. Defined.

Lemma TransitionDb_safe_witness :
  wp refund_panic (TransitionDb (C:=evm_calls 1026 60001) ex_msg)
    (fun r st => match r with
     | inl res => executed ex_msg 7 7 100000 ex_machine res st
     | inr err => refused ex_msg 7 7 100000 ex_machine err st
     end) (NewStateTransition ex_machine 100000).
Proof.
  apply (TransitionDb_safe 1026 60001); [done|apply ex_msg_ok|done|done|apply ex_machine_ok|done..].
Defined.

Lemma transaction_accounts_witness :
  let E := NewEVM (NewEVMBlockContext (ex_header 7 66) None) (mkTxContext alice 1) MainnetChainConfig
    (mkConfig false false []) (fun _ => false) in
  let C := evm_calls (E:=E) 1026 (Datatypes.S (Z.to_nat 60000)) in
  let msg := TransactionToMessage ex_tx alice None in
  wp refund_panic (TransitionDb (S:=state) msg)
    (fun r st => let s' := evm_StateDB (st_evm st) in
       state_ok s' /\ solvent s' /\
       match r with
       | inl res =>
           nonce_of ex_state alice = 0 /\ 0 <= UsedGas res <= 60000 /\ 60000 <= 100000 /\
           st_gp st = 100000 - UsedGas res /\
           grows_by (- (UsedGas res * if IsLondon MainnetChainConfig 7 then default 0 None else 0))
             (balance_of ex_state) (balance_of s')
       | inr err =>
           grows_by 0 (balance_of ex_state) (balance_of s') /\
           (st_gp st = 100000 /\ state_equiv s' ex_state \/ st_gp st = 100000 - 60000)
       end)
    (NewStateTransition (mkEVMState ex_state 0 0 false [] [] 0) 100000).
Proof.
  refine (transaction_accounts MainnetChainConfig (ex_header 7 66) None (mkTxContext alice 1) (fun _ => false) ex_state
    ex_tx alice 100000 ex_state_ok ex_state_solvent _ _ ex_tx_ok _); [by apply mainnet_config_ok|done|done].
Defined.

(** ** Witnesses: encodings, headers and blocks *)

Lemma writeBigInt_roundtrip_witness :
  exists bs, SplitString (writeBigInt (2 ^ 80 + 5) ++ [Byte.x05]) = Ret (bs, [Byte.x05], None) /\
    be_value bs = 2 ^ 80 + 5 /\ head bs <> Some Byte.x00.
Proof. by apply (writeBigInt_roundtrip (2 ^ 80 + 5) [Byte.x05]). Defined.

Lemma encode_item_injective_witness :
  Lst [Str [Byte.x01]; int_item 1000] = Lst [Str [Byte.x01]; int_item 1000] /\ [Byte.x05] = [Byte.x05].
Proof. by apply (encode_item_injective (Lst [Str [Byte.x01]; int_item 1000]) _ [Byte.x05] [Byte.x05]). Defined.

(** A header with every field the encoding writes, and the same with another
    excess of data gas. *)
Definition ex_full_header (excess : option Z) : Header :=
  mkHeader 66 5 miner 6 7 8 (replicate 256 Byte.x00) 131072 7 8000000 21000 1000 [Byte.x72; Byte.x35] 9 10
    (Some 1000000000) None excess.

Lemma ex_full_header_wf excess : header_wf (ex_full_header excess).
Proof. split; cbn; intros; simplify_eq; done. Qed.

Lemma Header_Hash_commits_witness :
  Header_Hash (ex_full_header None) = Header_Hash (ex_full_header (Some 4)) <->
  without_excess (ex_full_header None) = without_excess (ex_full_header (Some 4)).
Proof.
  apply (Header_Hash_commits (ex_full_header None) (ex_full_header (Some 4)) (ex_full_header_wf _) (ex_full_header_wf _));
    done.
Defined.

Lemma HeaderParentHash_roundtrip_witness :
  HeaderParentHashFromRLP (encode_item (header_item (ex_full_header None))) = Ret 66.
Proof.
  apply (HeaderParentHash_roundtrip (ex_full_header None)); [apply ex_full_header_wf|].
  apply Header_EncodeRLP_item, ex_full_header_wf.
Defined.

Lemma DeriveSha_sorted_witness :
  StronglySorted bytes_lt (map fst (derive_updates [[Byte.x01]; [Byte.x02]; [Byte.x03]])) /\
  map snd (derive_updates [[Byte.x01]; [Byte.x02]; [Byte.x03]]) ≡ₚ [[Byte.x01]; [Byte.x02]; [Byte.x03]] /\
  forall i v, [[Byte.x01]; [Byte.x02]; [Byte.x03]] !! i = Some v ->
    (AppendUint64 (Z.of_nat i), v) ∈ derive_updates [[Byte.x01]; [Byte.x02]; [Byte.x03]].
Proof. by apply (DeriveSha_sorted [[Byte.x01]; [Byte.x02]; [Byte.x03]]). Defined.
