(* ===== verification/ExampleTrie.v ===== *)
(** * Example tries

    Tries, commits and blocks on which the theorems about tries are applied. *)

From Stdlib Require Import Strings.Byte Sorted.
From S2P Require Import Prelude.
From S2P Require Import Common.
From S2P Require Import Params.
From S2P Require Import Rlp.
From S2P Require Import Crypto.
From S2P Require Import StateObject.
From S2P Require Import Encoding.
From S2P Require Import TrieKeys.
From S2P Require Import TrieTree.
From S2P Require Import TrieNode.
From S2P Require Import TrieStore.
From S2P Require Import Trie.
From S2P Require Import TrieHash.
From S2P Require Import TrieMap.
From S2P Require Import TrieCommit.
From S2P Require Import CommitSpec.
From S2P Require Import StackTrie.
From S2P Require Import StackSpec.
From S2P Require Import Blocks.
From S2P Require Import DeriveSha.
From S2P Require Import Example.

(** A database without nodes, and the empty trie. *)
#[export] Instance ex_store : NodeStore := {| NodeBlob _ _ := None |}.

Definition ex_new : Trie := mkTrie nilNode 0 newTracer.

Lemma ex_new_rep : trie_rep ex_new ∅.
Proof.
  split; [exists TNil; split; [constructor|apply tree_of_empty]|]. intros k v H. by rewrite lookup_empty in H.
Qed.

(** The trie some operations lead to. *)
Definition ex_trie (os : list trie_op) : Trie := match run_ops os ex_new with Ret (_, T) => T | _ => ex_new end.

Lemma ex_trie_rep os : Forall op_fits os -> trie_rep (ex_trie os) (fold_left (fun m o => next o m) os ∅).
Proof.
  intros Hf. destruct (wp_returns _ _ _ (run_ops_ok os ex_new ∅ ex_new_rep Hf)) as (l & T & Hr & _ & HT). unfold ex_trie. by rewrite Hr.
Qed.

Definition dog : list byte := [Byte.x64; Byte.x6f; Byte.x67].
Definition doge : list byte := [Byte.x64; Byte.x6f; Byte.x67; Byte.x65].
Definition horse : list byte := [Byte.x68; Byte.x6f].
Definition puppy : list byte := replicate 40 Byte.x70.

Definition op_fitsb (o : trie_op) : bool :=
  match o with OpUpdate key value => (zlen key <? 2 ^ 56) && (zlen value <=? 2 ^ 58) | _ => true end.

Lemma op_fitsb_spec os : forallb op_fitsb os = true -> Forall op_fits os.
Proof.
  intros H. apply List.Forall_forall. intros o Ho. rewrite forallb_forall in H. specialize (H o Ho). destruct o; try done.
  cbn in H. apply andb_true_iff in H as [H1 H2]. zbool. by split.
Qed.

Definition ex_ops : list trie_op :=
  [OpUpdate dog puppy; OpUpdate doge horse; OpGet dog; OpHash; OpUpdate horse puppy; OpDelete doge; OpGet doge; OpGet horse;
   OpUpdate dog []; OpHash; OpUpdate dog horse; OpGet dog; OpHash].

Example ex_ops_answers :
  match run_ops ex_ops ex_new with
  | Ret (l, _) => map (fun a => match a with AnsValue v => Some v | _ => None end) l =
      [None; None; Some (Some puppy); None; None; None; Some None; Some (Some puppy); None; None; None; Some (Some horse); None]
  | _ => False
  end.
Proof. by vm_compute. Qed.

Lemma trie_keys_roundtrip_witness :
  (exists c, hexToCompact (hex_key true (digits dog)) = Ret c /\ compactToHex c = hex_key true (digits dog) /\
     (hex_key true (digits dog) <> [] -> exists buf, hexToCompactInPlace (hex_key true (digits dog)) = Ret (zlen c, buf) /\ take (length c) buf = c)) /\
  hexToKeybytes (keybytesToHex dog) = Ret dog.
Proof. apply trie_keys_roundtrip. apply digits_nibbles. Defined.

Lemma trie_refines_map_witness :
  exists answers T', run_ops ex_ops ex_new = Ret (answers, T') /\ answers_all ∅ ex_ops answers /\
    trie_rep T' (fold_left (fun m o => next o m) ex_ops ∅).
Proof. apply (trie_refines_map ex_new ∅ ex_ops ex_new_rep). apply op_fitsb_spec. by vm_compute. Defined.

(** The same contents by another way. *)
Definition ex_ops2 : list trie_op := [OpUpdate dog horse; OpHash; OpUpdate horse puppy].

Lemma ex_same_contents : fold_left (fun m o => next o m) ex_ops2 ∅ = fold_left (fun m o => next o m) ex_ops ∅.
Proof.
  assert (forall d e h p : list byte, d <> e -> d <> h -> e <> h -> p <> [] -> h <> [] ->
    put h p (put d h ∅) = put d h (put d [] (delete e (put h p (put e h (put d p ∅)))))) as H; [|by apply (H dog doge horse puppy)].
  intros d e h p Hde Hdh Heh Hp Hh. unfold put. rewrite !(bool_decide_eq_false_2 (p = [])), !(bool_decide_eq_false_2 (h = [])), (bool_decide_eq_true_2 ([] = [])) by done.
  apply map_eq. intros k. repeat (rewrite lookup_insert || rewrite lookup_delete || rewrite lookup_empty || case_decide); congruence.
Qed.

Lemma trie_root_canonical_witness :
  exists h U U', Trie_Hash (ex_trie ex_ops) = Ret (h, U) /\ Trie_Hash (ex_trie ex_ops2) = Ret (h, U') /\
    trie_rep U (fold_left (fun m o => next o m) ex_ops ∅) /\ trie_rep U' (fold_left (fun m o => next o m) ex_ops ∅).
Proof.
  apply (trie_root_canonical ex_store ex_store (ex_trie ex_ops) (ex_trie ex_ops2)).
  - apply ex_trie_rep, op_fitsb_spec. by vm_compute.
  - rewrite <- ex_same_contents. apply ex_trie_rep, op_fitsb_spec. by vm_compute.
Defined.

Definition ex_one : Trie := ex_trie [OpUpdate dog puppy].
Definition ex_one_enc : list byte := tree_enc (TShort (keybytesToHex dog) (TValue puppy)).

Lemma ex_one_rep : trie_rep ex_one (<[dog := puppy]> ∅).
Proof. apply (ex_trie_rep [OpUpdate dog puppy]), op_fitsb_spec. by vm_compute. Qed.

Lemma ex_one_hash : forall x, x ∈ [ex_one_enc] ++ [ex_one_enc] -> BytesToHash (hashData x) <> EmptyRootHash /\ BytesToHash (hashData x) <> 0.
Proof.
  assert (negb (BytesToHash (hashData ex_one_enc) =? EmptyRootHash) && negb (BytesToHash (hashData ex_one_enc) =? 0) = true) as H
    by (vm_compute; reflexivity).
  apply andb_true_iff in H as [H1%negb_true_iff%Z.eqb_neq H2%negb_true_iff%Z.eqb_neq]. pose proof (conj H1 H2) as H. clear H1 H2.
  intros x Hx. apply elem_of_app in Hx as [Hx|Hx]; apply list_elem_of_singleton in Hx; rewrite Hx; exact H.
Qed.

Definition ex_root : Hash := match Trie_Hash ex_one with Ret (h, _) => h | _ => 0 end.
Definition ex_hashed : Trie := match Trie_Hash ex_one with Ret (_, T) => T | _ => ex_one end.

Lemma ex_one_hashes : Trie_Hash ex_one = Ret (ex_root, ex_hashed).
Proof. by vm_compute. Qed.

Lemma trie_root_commits_witness : <[dog := puppy]> (∅ : contents) = <[dog := puppy]> ∅.
Proof.
  apply (trie_root_commits ex_store ex_store ex_one ex_one _ _ [ex_one_enc] [ex_one_enc] ex_root ex_hashed ex_hashed
    ex_one_rep ex_one_rep ex_one_hashes ex_one_hashes (committed_singleton dog puppy ltac:(discriminate)) (committed_singleton dog puppy ltac:(discriminate))
    (no_collision_same ex_one_enc)).
  intros x Hx. apply (ex_one_hash x Hx).
Defined.

Lemma commit_reopens_witness :
  exists h set T', Trie_Commit 0 true ex_one = Ret ((h, set), T') /\ root_of (<[dog := puppy]> ∅) h /\
    forall N', extends ex_store N' -> handed N' set -> exists T2, Trie_New (N:=N') h = Ret (inl T2) /\ trie_rep (N:=N') T2 (<[dog := puppy]> ∅).
Proof.
  apply (commit_reopens ex_store 0 true ex_one _ [ex_one_enc] ex_one_rep (committed_singleton dog puppy ltac:(discriminate))).
  - intros x Hx. apply (ex_one_hash x). apply elem_of_app. by left.
  - intros x Hx. apply (ex_one_hash x). apply elem_of_app. by left.
Defined.

Definition ex_updates : list (list byte * list byte) := [(dog, puppy); (horse, puppy); ([Byte.x80], doge)].

Lemma stack_trie_root_witness :
  exists st st' h ws answers T T',
    update_all ex_updates NewStackTrie = Ret st /\ StackTrie_Hash false st = Ret (st', h, ws) /\
    run_ops (map (fun '(k, v) => OpUpdate k v) ex_updates) ex_new = Ret (answers, T) /\
    Trie_Hash T = Ret (h, T') /\ root_of (put_all ex_updates ∅) h.
Proof.
  apply (stack_trie_root ex_updates).
  - repeat constructor; vm_compute; intuition lia.
  - intros k v Hin. apply list_elem_of_In in Hin. cbn in Hin. destruct Hin as [[= <- <-]|[[= <- <-]|[[= <- <-]|[]]]];
      (split; [discriminate|split; [apply Z.ltb_lt|apply Z.leb_le]; by vm_compute]).
Defined.
