(* ===== verification/ExampleNodes.v ===== *)
(** * An example database of trie nodes

    A storage trie of two nodes and an account that refers to it, on which the theorems
    about the database of trie nodes are applied. *)

From Stdlib Require Import Strings.Byte.
From S2P Require Import Prelude.
From S2P Require Import Common.
From S2P Require Import Rlp.
From S2P Require Import Crypto.
From S2P Require Import StateObject.
From S2P Require Import Encoding.
From S2P Require Import TrieKeys.
From S2P Require Import TrieTree.
From S2P Require Import TrieNode.
From S2P Require Import TrieStore.
From S2P Require Import Trie.
From S2P Require Import TrieHash.
From S2P Require Import TrieMap.
From S2P Require Import TrieCommit.
From S2P Require Import CommitSpec.
From S2P Require Import NodeDatabase.
From S2P Require Import NodeGraph.
From S2P Require Import NodeUpdate.
From S2P Require Import NodeSpec.
From S2P Require Import NodeTrie.
From S2P Require Import Example.
From S2P Require Import ExampleTrie.

(** ** What lies below *)

(** A cache that keeps what it was given last. *)
#[export] Instance ex_cache : CleanCache (list (Hash * list byte)) := {|
  cache_Get c h := match c with (h', b) :: _ => if decide (h = h') then Some b else None | [] => None end;
  cache_Set c h b := [(h, b)]
|}.

#[export] Instance ex_cache_laws : CleanCacheLaws ex_cache.
Proof. split. intros c h b h' b'. cbn. destruct (decide (h' = h)) as [->|]; [|done]. intros [= ->]. by left. Qed.

#[export] Instance ex_disk : DiskWriter := {| disk_accepts _ _ := true |}.

#[export] Instance ex_order : HashOrder := {| hash_order X := elements X |}.

#[export] Instance ex_order_laws : HashOrderLaws ex_order.
Proof. split. by intros X. Qed.

(** ** The nodes *)

(** An account with the storage trie of root 1. *)
Definition ex_account : list byte :=
  write_list (writeUint64 5 ++ writeUint64 7 ++ writeBytes (hash_bytes 1) ++ writeBytes (hash_bytes 9)).

(** A trie of one value. *)
Definition ex_leaf : tree := TShort (keybytesToHex dog) (TValue puppy).
Definition ex_leaf_hash : Hash := Eval vm_compute in BytesToHash (tree_hash ex_leaf).

(** An account whose storage is this trie, and an account trie of it. *)
Definition ex_owner : list byte :=
  write_list (writeUint64 5 ++ writeUint64 7 ++ writeBytes (hash_bytes ex_leaf_hash) ++ writeBytes (hash_bytes 9)).
Definition ex_owner_leaf : tree := TShort (keybytesToHex dog) (TValue ex_owner).
Definition ex_owner_hash : Hash := Eval vm_compute in BytesToHash (tree_hash ex_owner_leaf).

#[export] Instance ex_universe : NodeUniverse := {|
  content h :=
    if h =? 1 then rawShortNode [Byte.x11] (rawHashNode (hash_bytes 2))
    else if h =? 2 then rawShortNode [Byte.x20] (rawValueNode puppy)
    else if h =? 3 then rawShortNode [Byte.x20] (rawValueNode ex_account)
    else if h =? ex_leaf_hash then tree_raw ex_leaf
    else if h =? ex_owner_hash then tree_raw ex_owner_leaf
    else rawValueNode [];
  storage h := if h =? 3 then [1] else if h =? ex_owner_hash then [ex_leaf_hash] else [];
  height h := if h =? 1 then 1%nat else if h =? 3 then 2%nat else if h =? ex_owner_hash then 1%nat else 0%nat
|}.

Lemma ex_hashes_differ :
  ex_leaf_hash <> 0 /\ ex_owner_hash <> 1 /\ ex_owner_hash <> 2 /\ ex_owner_hash <> 3 /\ ex_owner_hash <> ex_leaf_hash /\
  ex_leaf_hash <> EmptyRootHash.
Proof. split_and!; apply Z.eqb_neq; vm_compute; reflexivity. Qed.

Lemma ex_leaf_hash_eq : ex_leaf_hash = BytesToHash (tree_hash (TShort (keybytesToHex dog) (TValue puppy))).
Proof. vm_compute. reflexivity. Qed.

Lemma ex_owner_hash_eq : ex_owner_hash = BytesToHash (tree_hash (TShort (keybytesToHex dog) (TValue ex_owner))).
Proof. vm_compute. reflexivity. Qed.

Lemma ex_refs h : refs h = if h =? 1 then [2] else if h =? 3 then [1] else if h =? ex_owner_hash then [ex_leaf_hash] else [].
Proof.
  destruct ex_hashes_differ as (D0 & D1 & D2 & D3 & D4 & _).
  unfold refs. cbn [content storage ex_universe]. destruct (h =? 1) eqn:E1; zbool.
  { subst h. rewrite (proj2 (Z.eqb_neq 1 ex_owner_hash)) by lia. reflexivity. }
  destruct (h =? 2) eqn:E2; zbool.
  { subst h. rewrite (proj2 (Z.eqb_neq 2 ex_owner_hash)) by lia. reflexivity. }
  destruct (h =? 3) eqn:E3; zbool; [subst h; reflexivity|]. destruct (h =? ex_leaf_hash) eqn:E4; zbool.
  { subst h. rewrite (proj2 (Z.eqb_neq ex_leaf_hash ex_owner_hash)) by lia. reflexivity. }
  destruct (h =? ex_owner_hash); reflexivity.
Qed.

Lemma ex_refs_elem h c : c ∈ refs h -> (h = 1 /\ c = 2) \/ (h = 3 /\ c = 1) \/ (h = ex_owner_hash /\ c = ex_leaf_hash).
Proof.
  rewrite ex_refs. destruct (h =? 1) eqn:E1; zbool; [intros ->%list_elem_of_singleton; by left|].
  destruct (h =? 3) eqn:E3; zbool; [intros ->%list_elem_of_singleton; right; by left|].
  destruct (h =? ex_owner_hash) eqn:E4; zbool; [intros ->%list_elem_of_singleton; right; right; exact (conj E4 eq_refl)|]. by intros ?%elem_of_nil.
Qed.

Lemma ex_refs_small h c : h = 1 \/ h = 2 \/ h = 3 -> c ∈ refs h -> (h = 1 /\ c = 2) \/ (h = 3 /\ c = 1).
Proof.
  destruct ex_hashes_differ as (D0 & D1 & D2 & D3 & D4 & _).
  intros Hh Hc. apply ex_refs_elem in Hc as [Hc|[Hc|[He _]]]; [left; exact Hc|right; exact Hc|]. exfalso.
  destruct Hh as [E|[E|E]]; rewrite E in He; [exact (D1 (eq_sym He))|exact (D2 (eq_sym He))|exact (D3 (eq_sym He))].
Qed.

#[export] Instance ex_universe_laws : NodeUniverseLaws ex_universe.
Proof.
  split.
  - intros h c [[-> ->]|[[-> ->]|[-> ->]]]%ex_refs_elem; apply Nat.ltb_lt; by vm_compute.
  - intros h c [[-> ->]|[[-> ->]|[-> ->]]]%ex_refs_elem; [done..|]. apply ex_hashes_differ.
  - intros h. cbn [content ex_universe]. do 5 (case_match; [done|]). done.
Qed.

Definition ex_node (h : Hash) : memoryNode := mkMemoryNode h 100 (content h).

Definition ex_storage_set : NodeSet := mkNodeSet 7 {[ [] := ex_node 1; [Byte.x01] := ex_node 2 ]} [] 2 0 ∅.
Definition ex_account_set : NodeSet := mkNodeSet 0 {[ [] := ex_node 3 ]} [(ex_account, 3)] 1 0 ∅.
Definition ex_sets : MergedNodeSet := {[ 7 := ex_storage_set; 0 := ex_account_set ]}.

(** The child comes first, the account last. *)
Lemma ex_handed_over : handed_over ex_sets = [ex_node 2; ex_node 1; ex_node 3].
Proof. by vm_compute. Qed.

Lemma ex_account_root : account_root ex_account = Some 1.
Proof. by vm_compute. Qed.

Lemma ex_leaves : leaves_of ex_sets = [(ex_account, 3)].
Proof. by vm_compute. Qed.

Lemma ex_storage_small h c : h = 1 \/ h = 2 \/ h = 3 -> c ∈ storage h -> h = 3 /\ c = 1.
Proof.
  destruct ex_hashes_differ as (_ & D1 & D2 & _). cbn [storage ex_universe]. intros [-> |[-> | ->]].
  - change (1 =? 3) with false. rewrite (proj2 (Z.eqb_neq 1 ex_owner_hash)) by lia. by intros ?%elem_of_nil.
  - change (2 =? 3) with false. rewrite (proj2 (Z.eqb_neq 2 ex_owner_hash)) by lia. by intros ?%elem_of_nil.
  - change (3 =? 3) with true. by intros ->%list_elem_of_singleton.
Qed.

Lemma ex_handed_hash n : n ∈ [ex_node 2; ex_node 1; ex_node 3] -> mn_hash n = 1 \/ mn_hash n = 2 \/ mn_hash n = 3.
Proof. rewrite !elem_of_cons, elem_of_nil. intros [->|[->|[->|H]]]; [cbn; auto..|done]. Qed.

Lemma ex_fits (P : Hash -> Prop) : fits P ex_sets.
Proof.
  split; rewrite ?ex_handed_over, ?ex_leaves.
  - intros n Hn. repeat (apply elem_of_cons in Hn as [->|Hn]; [done|]). by apply elem_of_nil in Hn.
  - intros l1 n l2 He c Hc. right. apply ex_refs_small in Hc; [|apply ex_handed_hash; rewrite He; apply elem_of_app; right; by left].
    destruct l1 as [|n1 [|n2 [|n3 [|n4 l1]]]]; cbn [app] in He; simplify_list_eq; cbn in Hc; try lia; rewrite ?elem_of_cons; cbn; intuition lia.
  - intros blob parent Hin. apply list_elem_of_singleton in Hin as [= -> ->]. exists 1. split; [apply ex_account_root|]. right. split; [by left|]. cbn. set_solver.
  - intros n c Hn Hc. assert (mn_hash n = 3 /\ c = 1) as [-> ->].
    { apply ex_storage_small; [by apply ex_handed_hash|exact Hc]. }
    split; [by vm_compute|]. exists ex_account. split; [by left|apply ex_account_root].
Qed.

Definition ex_empty : Database (list (Hash * list byte)) := NewDatabase ∅ (Some []).

Lemma ex_start : good_start ∅ (Some ([] : list (Hash * list byte))).
Proof. split; [intros h b H; by rewrite lookup_empty in H|]. by intros cl h b [= <-]. Qed.

(** The sets are inserted and the account is referenced. *)
Definition ex_held : Hash -> nat := held_after (DbReference 3) (held_after (DbUpdate ex_sets) (fun _ => O)).

Lemma ex_weight : update_weight ex_sets = 2.
Proof. unfold update_weight. rewrite ex_handed_over, ex_leaves. by vm_compute. Qed.

Lemma ex_reached : exists d, reached ∅ (Some []) d ex_held 3 /\ available d 3.
Proof.
  destruct (reached_next ∅ (Some []) ex_empty _ 0 (DbUpdate ex_sets) ex_start (reached_new _ _)) as (a1 & d1 & _ & Hok & Hr1); [apply ex_fits|cbn; rewrite ex_weight; lia|].
  assert (available d1 3) as H3 by (destruct a1; try (by destruct Hok as [_ []]); apply Hok; right; rewrite ex_handed_over; cbn; set_solver).
  cbn [op_weight] in Hr1. rewrite ex_weight in Hr1.
  destruct (reached_next ∅ (Some []) d1 _ _ (DbReference 3) ex_start Hr1 H3) as (a2 & d2 & _ & Hok2 & Hr2); [cbn; lia|].
  exists d2. split; [exact Hr2|]. destruct a2; try (by destruct Hok2 as [_ []]). by apply Hok2.
Qed.

Lemma ex_reach2 : reachable 3 2.
Proof. apply (reachable_ref 3 1 2); [apply (reachable_ref 3 3 1); [constructor|by left]|]. rewrite ex_refs. by left. Qed.

Lemma node_database_safe_witness :
  exists d, reached ∅ (Some []) d ex_held 3 /\ exists a d', db_step (DbDereference 3) d = Ret (a, d') /\ step_ok d (DbDereference 3) a d'.
Proof.
  destruct ex_reached as (d & Hr & _). exists d. split; [exact Hr|].
  apply (node_database_safe ∅ (Some []) d ex_held 3 (DbDereference 3) ex_start Hr); [apply Nat.ltb_lt; by vm_compute|cbn; lia].
Defined.

Lemma held_root_readable_witness :
  exists d, reached ∅ (Some []) d ex_held 3 /\ exists d', db_Node 2 d = Ret (Some (nodeToBytes (content 2)), d').
Proof.
  destruct ex_reached as (d & Hr & _). exists d. split; [exact Hr|].
  apply (held_root_readable ∅ (Some []) d ex_held 3 3 2 ex_start Hr); [apply Nat.ltb_lt; by vm_compute|exact ex_reach2].
Defined.

Lemma Commit_persists_witness :
  exists d, reached ∅ (Some []) d ex_held 3 /\ exists d', Commit 3 d = Ret (None, d') /\ forall h, reachable 3 h -> db_disk d' !! h = Some (nodeToBytes (content h)).
Proof.
  destruct ex_reached as (d & Hr & Ha). exists d. split; [exact Hr|].
  apply (Commit_persists ∅ (Some []) d ex_held 3 3 ex_start Hr); [done|exact Ha].
Defined.

Lemma Cap_frees_memory_witness :
  exists d, reached ∅ (Some []) d ex_held 3 /\ exists d', Cap 200 d = Ret (None, d') /\ (forall h, available d h -> available d' h) /\
    ((exists size, db_Size d' = Ret (size, d') /\ size <= 200) \/ forall h, h <> 0 -> db_dirties d' !! h = None).
Proof.
  destruct ex_reached as (d & Hr & Ha). exists d. split; [exact Hr|].
  apply (Cap_frees_memory ∅ (Some []) d ex_held 3 200 ex_start Hr). done.
Defined.

(** The account's trie is on disk after a commit. *)
Lemma ex_committed : exists d, reached ∅ (Some []) d ex_held 3 /\ on_disk d 3.
Proof.
  destruct ex_reached as (d & Hr & Ha).
  destruct (reached_next ∅ (Some []) d ex_held 3 (DbCommit 3) ex_start Hr) as (a & d' & Hrun & Hok & Hr'); [done|cbn; lia|].
  exists d'. split; [exact Hr'|]. destruct a as [| |err|]; try (by destruct Hok as [_ []]). destruct Hok as (_ & _ & Hd). apply Hd; [|done].
  cbn [db_step] in Hrun. unfold gbind in Hrun. destruct (Commit 3 d) as [[e d1]| |] eqn:E; [|done..]. injection Hrun as <- <-.
  by apply (Commit_accepted 3 d e d1).
Qed.

Lemma disk_survives_restart_witness :
  exists d, reached ∅ (Some []) d ex_held 3 /\
    exists d', db_Node 2 (NewDatabase (db_disk d) (@None (list (Hash * list byte)))) = Ret (Some (nodeToBytes (content 2)), d').
Proof.
  destruct ex_committed as (d & Hr & Hd). exists d. split; [exact Hr|].
  apply (disk_survives_restart ∅ (Some []) d ex_held 3 3 2 ex_start Hr Hd ex_reach2). done.
Defined.

(** ** Tries in the database *)

Definition ex_trie_of (v : list byte) : Trie :=
  match run_ops (N:=hashReader_NodeBlob ex_empty) [OpUpdate dog v] ex_new with Ret (_, T) => T | _ => ex_new end.

Lemma ex_trie_of_rep v : v <> [] -> forallb op_fitsb [OpUpdate dog v] = true ->
  trie_rep (N:=hashReader_NodeBlob ex_empty) (ex_trie_of v) (<[dog := v]> ∅).
Proof.
  intros Hv Hf. assert (trie_rep (N:=hashReader_NodeBlob ex_empty) ex_new ∅) as H0.
  { split; [exists TNil; split; [constructor|apply tree_of_empty]|]. intros k w H. by rewrite lookup_empty in H. }
  destruct (wp_returns _ _ _ (run_ops_ok (N:=hashReader_NodeBlob ex_empty) [OpUpdate dog v] ex_new ∅ H0 (op_fitsb_spec _ Hf)))
    as (l & T & Hr & _ & HT).
  unfold ex_trie_of. rewrite Hr. destruct v; [done|exact HT].
Qed.

Lemma leaf_known cl v h : content h = tree_raw (TShort (keybytesToHex dog) (TValue v)) ->
  storage h = storage_roots cl (tree_raw (TShort (keybytesToHex dog) (TValue v))) -> v <> [] ->
  h = BytesToHash (tree_hash (TShort (keybytesToHex dog) (TValue v))) -> forall t, tree_of t (<[dog := v]> ∅) -> knows cl t.
Proof.
  intros Hc Hs Hv -> t Ht. rewrite (tree_of_unique _ _ _ Ht (tree_of_singleton dog v Hv)). intros u Hu.
  apply elem_of_app in Hu as [Hu|Hu]; [|by apply elem_of_nil in Hu]. cbn in Hu. apply list_elem_of_singleton in Hu as ->. by split.
Qed.

Lemma ex_storage_known t : tree_of t (<[dog := puppy]> ∅) -> knows false t.
Proof. apply (leaf_known false puppy ex_leaf_hash); [vm_compute; reflexivity..|discriminate|exact ex_leaf_hash_eq]. Qed.

Lemma leaf_roots k v r : account_root v = Some r -> r <> EmptyRootHash -> storage_roots true (tree_raw (TShort k (TValue v))) = [r].
Proof.
  intros Hr Hne. unfold storage_roots. assert (leaf_value (tree_raw (TShort k (TValue v))) = Some v) as -> by reflexivity.
  by rewrite Hr, (proj2 (Z.eqb_neq _ _) Hne).
Qed.

Lemma ex_owner_root : account_root ex_owner = Some ex_leaf_hash.
Proof. vm_compute. reflexivity. Qed.

Lemma ex_account_known t : tree_of t (<[dog := ex_owner]> ∅) -> knows true t.
Proof.
  apply (leaf_known true ex_owner ex_owner_hash); [vm_compute; reflexivity| |discriminate|exact ex_owner_hash_eq].
  symmetry. apply (leaf_roots _ _ ex_leaf_hash ex_owner_root). apply ex_hashes_differ.
Qed.

Definition ex_owner_enc : list byte := tree_enc ex_owner_leaf.

Lemma ex_owner_good x : x ∈ [ex_owner_enc] -> BytesToHash (hashData x) <> EmptyRootHash /\ BytesToHash (hashData x) <> 0.
Proof. intros ->%list_elem_of_singleton. split; apply Z.eqb_neq; vm_compute; reflexivity. Qed.

Lemma ex_singleton_root v h : v <> [] -> root_of (<[dog := v]> ∅) h ->
  h = tree_root (TShort (keybytesToHex dog) (TValue v)).
Proof. intros Hv (t & Ht & ->). by rewrite (tree_of_unique _ _ _ Ht (tree_of_singleton dog v Hv)). Qed.

(** The storage trie is committed, then the account trie with its account. *)
Lemma committed_trie_survives_witness :
  exists others, storage_sets ex_empty others /\
  exists h set T' nodes, Trie_Commit 0 true (ex_trie_of ex_owner) = Ret ((h, set), T') /\ root_of (<[dog := ex_owner]> ∅) h /\
    merged set others = Some nodes /\ admissible ex_empty (fun _ => O) (DbUpdate nodes) /\ (0 <> 0 -> storage_sets ex_empty nodes) /\
    ((<[dog := ex_owner]> ∅ : contents) <> ∅ -> available ex_empty h \/ h ∈ map mn_hash (handed_over nodes)) /\
    ((<[dog := ex_owner]> ∅ : contents) <> ∅ -> 0 + update_weight nodes < 2 ^ 32 ->
      exists d', Update nodes ex_empty = Ret (None, d') /\ available d' h) /\
    forall d' held' spent', reached ∅ (Some []) d' held' spent' -> (0 < held' h)%nat \/ on_disk d' h /\ h <> 0 ->
      (exists T2, Trie_New (N:=hashReader_NodeBlob d') h = Ret (inl T2) /\ trie_rep (N:=hashReader_NodeBlob d') T2 (<[dog := ex_owner]> ∅)) /\
      (0 = 0 -> forall k v r m', (<[dog := ex_owner]> ∅ : contents) !! k = Some v -> account_root v = Some r -> root_of m' r ->
         r <> EmptyRootHash -> all_fit m' -> (forall t, tree_of t m' -> knows false t) ->
         exists T2, Trie_New (N:=hashReader_NodeBlob d') r = Ret (inl T2) /\ trie_rep (N:=hashReader_NodeBlob d') T2 m').
Proof.
  assert (storage_sets ex_empty (∅ : MergedNodeSet)) as Hnone by (intros o s H; by pose proof (eq_trans (eq_sym H) (lookup_empty (M:=gmap Hash) o))).
  destruct (committed_trie_survives ∅ (Some []) ex_empty (fun _ => O) 0 7 (ex_trie_of puppy) (<[dog := puppy]> ∅) [ex_one_enc] ∅)
    as (h & set & T' & others & _ & Hroot & _ & _ & Hsets & Hthere & _).
  - exact ex_start.
  - constructor.
  - by apply ex_trie_of_rep.
  - by apply committed_singleton.
  - intros x Hx. apply (ex_one_hash x). apply elem_of_app. by left.
  - intros x Hx. apply (ex_one_hash x). apply elem_of_app. by left.
  - exact ex_storage_known.
  - exact Hnone.
  - exact (lookup_empty (M:=gmap Hash) (7 : Hash)).
  - done.
  - assert (storage_sets ex_empty others) as Hs by by apply Hsets. exists others. split; [exact Hs|].
    apply (committed_trie_survives ∅ (Some []) ex_empty (fun _ => O) 0 0 (ex_trie_of ex_owner) (<[dog := ex_owner]> ∅) [ex_owner_enc] others).
    + exact ex_start.
    + constructor.
    + apply ex_trie_of_rep; [discriminate|vm_compute; reflexivity].
    + apply committed_singleton. discriminate.
    + intros x Hx. by apply ex_owner_good.
    + intros x Hx. by apply ex_owner_good.
    + exact ex_account_known.
    + exact Hs.
    + destruct (others !! (0 : Hash)) as [s|] eqn:E; [by destruct (Hs 0 s E)|done].
    + intros _. assert (forall k v, (<[dog := ex_owner]> ∅ : contents) !! k = Some v -> k = dog /\ v = ex_owner) as Honly.
      { intros k v [[<- <-]|[_ H]]%lookup_insert_Some; [done|by rewrite lookup_empty in H]. }
      split; [|by intros k v k' v' [-> _]%Honly [-> _]%Honly].
      intros k v [_ ->]%Honly. exists ex_leaf_hash. split; [apply ex_owner_root|]. right.
      assert (h = ex_leaf_hash) as <- by (rewrite (ex_singleton_root puppy h ltac:(discriminate) Hroot); vm_compute; reflexivity).
      apply Hthere. apply insert_non_empty.
Defined.

(** The zero hash is the meta root, which has no node to write. *)
Example Commit_of_zero : Commit 0 ex_empty = Panic PanicNil.
Proof. vm_compute. reflexivity. Qed.
