(* ===== verification/ExampleDecode.v ===== *)
(** * Examples: streams, decoding and the header chain

    Concrete inputs on which the theorems of Decoding.v and ChainReorg.v apply. *)

From Stdlib Require Import Strings.Byte.
From S2P Require Import Prelude.
From S2P Require Import Common.
From S2P Require Import Params.
From S2P Require Import Rlp.
From S2P Require Import Crypto.
From S2P Require Import Header.
From S2P Require Import Encoding.
From S2P Require Import Blocks.
From S2P Require Import RlpStream.
From S2P Require Import StreamSpec.
From S2P Require Import Decoding.
From S2P Require Import Lru.
From S2P Require Import ChainKeys.
From S2P Require Import ChainStore.
From S2P Require Import HeaderChain.
From S2P Require Import ChainSpec.
From S2P Require Import ChainReorg.

(** A header of a block with a base fee and withdrawals. *)
Definition ex_decoded (ExcessDataGas : option Z) : Header :=
  mkHeader 1 2 3 4 5 6 (replicate 256 Byte.x00) 1000 (2 ^ 64 + 7) 30000000 21000 1700000000 [Byte.x52; Byte.x35] 8 9
    (Some 0) (Some 10) ExcessDataGas.

Definition ex_header_enc : list byte := default [] (Header_EncodeRLP (ex_decoded None)).

Lemma ex_decoded_ok o : (forall e, o = Some e -> 0 <= e) -> header_decodable (ex_decoded o).
Proof.
  intros Ho. constructor; cbn; try (unfold is_u64, two64; lia); try done.
  - by intros b [= <-].
  - intros w [= <-]. split; [lia|by eexists].
  - intros e He. split; [by apply Ho|by eexists].
Qed.

Lemma Header_roundtrip_witness :
  zlen ex_header_enc < 2 ^ 62 /\ DecodeBytes decode_header ex_header_enc = Ret (inl (ex_decoded None)).
Proof.
  assert (zlen ex_header_enc < 2 ^ 62) as Hl by (apply Z.ltb_lt; vm_compute; reflexivity). split; [exact Hl|].
  destruct (Header_roundtrip ex_header_enc Hl) as [_ H]. apply (proj2 (H (ex_decoded None) eq_refl)).
  split; [apply ex_decoded_ok; discriminate|]. unfold ex_header_enc.
  destruct (Header_EncodeRLP (ex_decoded None)) eqn:E; [reflexivity|].
  exfalso. assert (bool_decide (Header_EncodeRLP (ex_decoded None) = None) = false) as H0 by (vm_compute; reflexivity).
  rewrite E in H0. discriminate.
Defined.

(** The encodings with and without data gas of one header. *)
Definition ex_gas_enc : list byte := write_list (header_fixed (ex_decoded (Some 11)) (header_optional (ex_decoded (Some 11)))).

Lemma Header_data_gas_lost_witness :
  exists enc, Header_EncodeRLP (ex_decoded (Some 11)) = Some enc /\ enc <> ex_gas_enc /\
    DecodeBytes decode_header enc = Ret (inl (without_excess (ex_decoded (Some 11)))).
Proof.
  assert (zlen ex_gas_enc < 2 ^ 61) as Hl by (apply Z.ltb_lt; vm_compute; reflexivity).
  apply (Header_data_gas_lost ex_gas_enc (ex_decoded (Some 11)) Hl); [|discriminate].
  apply decode_header_exact; [lia|]. eexists. split; [split; [|reflexivity]|reflexivity].
  apply ex_decoded_ok. intros e [= <-]. lia.
Defined.

Lemma StateAccount_roundtrip_witness :
  exists b, zlen b < 2 ^ 62 /\ DecodeBytes decode_account b = Ret (inl (7, 10 ^ 30, 99, [Byte.x01])).
Proof.
  set (b := default [] (StateAccount_EncodeRLP 7 (Some (10 ^ 30)) 99 [Byte.x01])).
  assert (zlen b < 2 ^ 62) as Hl by (apply Z.ltb_lt; vm_compute; reflexivity). exists b. split; [exact Hl|].
  apply (proj2 (StateAccount_roundtrip b Hl)). split; [unfold is_u64, two64; lia|]. split; [lia|]. vm_compute. reflexivity.
Defined.

(** Values that are not canonical are refused, with the errors of the code; a nested list
    that is longer than what is left of the list around it makes the remaining size of the
    outer list wrap around. *)
Example ex_leading_zero : DecodeBytes stream_Uint64 [Byte.x82; Byte.x00; Byte.x80] = Ret (inr (RlpErr ErrCanonInt)).
Proof. reflexivity. Qed.

Example ex_short_size : DecodeBytes stream_Uint64 [Byte.x81; Byte.x05] = Ret (inr (RlpErr ErrCanonSize)).
Proof. reflexivity. Qed.

Example ex_too_long : DecodeBytes stream_Bytes [Byte.xb9; Byte.x01; Byte.x00; Byte.x00] = Ret (inr (RlpErr ErrValueTooLarge)).
Proof. reflexivity. Qed.

Example ex_inner_list_overruns :
  exists s, (let! _ := stream_List in stream_List) (stream_Reset [Byte.xc1; Byte.xc1; Byte.x80]) = Ret (inl 1, s) /\
    s_stack s = [1; 2 ^ 64 - 1].
Proof. eexists. vm_compute. split; reflexivity. Qed.

(** ** A header chain *)

(** Hashes from the last bytes, in which headers have their nonces. *)
Definition nonce_keccak : Keccak := {| keccak256 c := be_value (drop (length c - 8) c) |}.
#[local] Existing Instance nonce_keccak.

Definition ex_no_freezer : AncientStore := {| Ancient _ _ := None |}.
#[local] Existing Instance ex_no_freezer.
Definition ex_disk : KvDisk := {| kv_accepts _ _ := true |}.
#[local] Existing Instance ex_disk.

Definition ex_chain_header (parent number nonce : Z) : Header :=
  mkHeader parent 2 3 4 5 6 (replicate 256 Byte.x00) 5 number 30000000 0 1700000000 [] 8 nonce None None None.

Definition hdr_g : Header := ex_chain_header 0 0 1.
Definition hdr_a1 : Header := ex_chain_header 1 1 2.
Definition hdr_b1 : Header := ex_chain_header 1 1 3.
Definition hdr_b2 : Header := ex_chain_header 3 2 4.

Definition ex_universe : HeaderUniverse := {| in_universe h := h ∈ [hdr_g; hdr_a1; hdr_b1; hdr_b2]; genesis := hdr_g |}.
#[local] Existing Instance ex_universe.

Lemma ex_hashes : Header_Hash hdr_g = 1 /\ Header_Hash hdr_a1 = 2 /\ Header_Hash hdr_b1 = 3 /\ Header_Hash hdr_b2 = 4.
Proof. vm_compute. done. Qed.

Lemma ex_in h : in_universe h -> h = hdr_g \/ h = hdr_a1 \/ h = hdr_b1 \/ h = hdr_b2.
Proof. cbn [in_universe ex_universe]. rewrite !elem_of_cons, elem_of_nil. tauto. Qed.

#[local] Instance ex_universe_laws : HeaderUniverseLaws ex_universe.
Proof.
  destruct ex_hashes as (H1 & H2 & H3 & H4). constructor.
  - intros h [-> |[-> |[-> | ->]]]%ex_in; constructor; cbn; unfold is_u64, two64; (lia || done).
  - intros h [-> |[-> |[-> | ->]]]%ex_in; by intros [].
  - by intros h [-> |[-> |[-> | ->]]]%ex_in.
  - intros h [-> |[-> |[-> | ->]]]%ex_in; cbn [hdr_Number hdr_g hdr_a1 hdr_b1 hdr_b2 ex_chain_header]; lia.
  - intros h [-> |[-> |[-> | ->]]]%ex_in; lia.
  - intros a b [-> |[-> |[-> | ->]]]%ex_in [-> |[-> |[-> | ->]]]%ex_in; rewrite ?H1, ?H2, ?H3, ?H4; done.
  - intros h p [-> |[-> |[-> | ->]]]%ex_in [-> |[-> |[-> | ->]]]%ex_in; rewrite ?H1, ?H2, ?H3, ?H4; intros Heq;
      (reflexivity || discriminate Heq).
  - split; [|done]. cbn [in_universe genesis ex_universe]. apply elem_of_cons. by left.
Qed.

#[local] Instance ex_no_freezer_law : NoFreezer ex_no_freezer.
Proof. constructor. done. Qed.
Definition ex_db0 : kvstore := kv_write (genesis_writes [] []) ∅.

Definition ex_started (interrupts : list bool) : HeaderChain :=
  match NewHeaderChain MainnetChainConfig ex_db0 interrupts hdr_g with
  | Ret (inl c) => hc_set_current hdr_g (Header_Hash hdr_g) c
  | _ => mkHC MainnetChainConfig ∅ hdr_g hdr_g 0 (NewBasicLRU 1) (NewBasicLRU 1) (NewBasicLRU 1) []
  end.

Lemma ex_started_ok : hc_ok (ex_started []) /\ hc_interrupts (ex_started []) = [].
Proof.
  destruct (genesis_marks [] []) as [Hb Hh]. destruct (genesis_stored [] []) as [Hs _].
  destruct (NewHeaderChain_loads MainnetChainConfig ex_db0 [] hdr_g hdr_g hdr_g (genesis_store_ok [] []) (genesis_canon_ok [] [])
    Hh Hs Hb) as (c & Hc & _ & _ & Hi & _ & Hok).
  unfold ex_started. rewrite Hc. split; [exact Hok|exact Hi].
Defined.

Definition ex_fork : ForkChoice := mkForkChoice None false.
Definition ex_state {A} (m : HC A) (c : HeaderChain) : HeaderChain := match m c with Ret (_, c) => c | _ => c end.
Definition ex_answer {A} (m : HC A) (c : HeaderChain) : option A := match m c with Ret (a, _) => Some a | _ => None end.
Definition ex_after_a1 : HeaderChain := ex_state (InsertHeaderChain [hdr_a1] ex_fork) (ex_started []).
Definition ex_after_b : HeaderChain := ex_state (InsertHeaderChain [hdr_b1; hdr_b2] ex_fork) ex_after_a1.

(** A branch of two headers overtakes one header; the chain is in order all along. *)
Example ex_branch_wins :
  ex_answer (InsertHeaderChain [hdr_a1] ex_fork) (ex_started []) = Some (inl CanonStatTy) /\
  ex_answer (InsertHeaderChain [hdr_b1] ex_fork) ex_after_a1 = Some (inl SideStatTy) /\
  ex_answer (InsertHeaderChain [hdr_b1; hdr_b2] ex_fork) ex_after_a1 = Some (inl CanonStatTy) /\
  map (fun n => ReadCanonicalHash n (hc_chainDb ex_after_a1)) [0; 1; 2] = [1; 2; 0] /\
  map (fun n => ReadCanonicalHash n (hc_chainDb ex_after_b)) [0; 1; 2] = [1; 3; 4].
Proof. vm_compute. done. Qed.

Lemma ex_run {A} (m : HC A) c Q : wp crit m Q c -> is_Some (ex_answer m c) ->
  exists a, ex_answer m c = Some a /\ Q a (ex_state m c).
Proof.
  unfold wp, ex_answer, ex_state. destruct (m c) as [[a c']| |]; intros H [b Hb]; [|done|done]. by exists a.
Qed.

Lemma InsertHeaderChain_keeps_witness :
  hc_ok ex_after_b /\ hc_currentHeader ex_after_b = hdr_b2 /\ stored (hc_chainDb ex_after_b) hdr_a1.
Proof.
  assert (forall y, y ∈ [hdr_a1] -> in_universe y) as Ha by (intros y ->%list_elem_of_singleton; set_solver).
  assert (forall y, y ∈ [hdr_b1; hdr_b2] -> in_universe y) as Hb by set_solver.
  assert (linked [hdr_b1; hdr_b2]) as Hl by (split; [vm_compute; reflexivity|exact I]).
  destruct ex_started_ok as [Hok _].
  destruct (ex_run _ _ _ (InsertHeaderChain_keeps (ex_started []) ex_fork hdr_a1 [] Hok I Ha)) as (r & Hr & [[-> _]|(_ & Hok1 & Hk1 & _)]);
    [vm_compute; by eexists|exfalso; vm_compute in Hr; discriminate Hr|]. fold ex_after_a1 in Hok1, Hk1.
  destruct (ex_run _ _ _ (InsertHeaderChain_keeps ex_after_a1 ex_fork hdr_b1 [hdr_b2] Hok1 Hl Hb)) as (r2 & Hr2 & [[-> _]|(_ & Hok2 & Hk2 & _)]);
    [vm_compute; by eexists|exfalso; vm_compute in Hr2; discriminate Hr2|]. fold ex_after_b in Hok2, Hk2.
  split; [exact Hok2|]. split; [vm_compute; reflexivity|].
  apply Hk2. split; [cbn [in_universe ex_universe]; apply elem_of_cons; right; apply elem_of_cons; by left|]. vm_compute. reflexivity.
Defined.

(** An import that is aborted has put its headers into the caches; the next one takes them
    for known and does not store them. *)
Definition ex_aborted : HeaderChain := ex_state (InsertHeaderChain [hdr_a1] ex_fork) (ex_started [false; true]).
Definition ex_retried : HeaderChain := ex_state (InsertHeaderChain [hdr_a1] ex_fork) ex_aborted.

Example ex_abort_leaves_cached :
  ex_answer (InsertHeaderChain [hdr_a1] ex_fork) (ex_started [false; true]) = Some (inr HcAborted) /\
  ex_answer (hc_HasHeader (Header_Hash hdr_a1) 1) ex_aborted = Some true /\
  ex_answer (InsertHeaderChain [hdr_a1] ex_fork) ex_aborted = Some (inl CanonStatTy) /\
  HasHeader (Header_Hash hdr_a1) 1 (hc_chainDb ex_retried) = false /\
  ReadCanonicalHash 1 (hc_chainDb ex_retried) = Header_Hash hdr_a1.
Proof. vm_compute. done. Qed.
