(* ===== verification/ExampleChain.v ===== *)
(** * A concrete instance: signatures, consensus and blocks

    The parameters of the consensus components instantiated like those of
    [Example]: padded hashes, a decided primality test, a signature scheme with one
    key, one thread in the background, a chain of two headers.  The hypotheses of
    the theorems are discharged on it. *)

From Stdlib Require Import Strings.Byte Znumtheory.
From S2P Require Import Prelude.
From S2P Require Import Uint256.
From S2P Require Import Common.
From S2P Require Import Params.
From S2P Require Import Rlp.
From S2P Require Import Crypto.
From S2P Require Import Header.
From S2P Require Import StateObject.
From S2P Require Import StateInterface.
From S2P Require Import StateStore.
From S2P Require Import StateSpec.
From S2P Require Import StateSafe.
From S2P Require Import StateTheorems.
From S2P Require Import StateSupply.
From S2P Require Import Encoding.
From S2P Require Import Transaction.
From S2P Require Import TrieKeys.
From S2P Require Import TrieTree.
From S2P Require Import TrieNode.
From S2P Require Import TrieStore.
From S2P Require Import TrieHash.
From S2P Require Import TrieMap.
From S2P Require Import StackTrie.
From S2P Require Import Blocks.
From S2P Require Import DeriveSha.
From S2P Require Import TxSigning.
From S2P Require Import Misc.
From S2P Require Import Hashimoto.
From S2P Require Import DagSizes.
From S2P Require Import Difficulty.
From S2P Require Import Emission.
From S2P Require Import Machine.
From S2P Require Import CoreEvm.
From S2P Require Import StateTransition.
From S2P Require Import Finalise.
From S2P Require Import ChainStore.
From S2P Require Import Receipts.
From S2P Require Import Processor.
From S2P Require Import Validator.
From S2P Require Import Chain.
From S2P Require Import Ethash.
From S2P Require Import Example.

(** ** The parameters *)

#[export] Instance ex_keccak512 : Keccak512 := {| keccak512 data := take 64 (data ++ replicate 64 Byte.x00) |}.

#[export] Instance ex_keccak512_laws : Keccak512Laws ex_keccak512.
Proof. split. intros data. cbn [keccak512 ex_keccak512]. rewrite length_take, length_app, length_replicate. lia. Qed.

#[export] Instance ex_primality : Primality := {| ProbablyPrime n := if prime_dec n then true else false |}.

#[export] Instance ex_primality_laws : PrimalityLaws ex_primality.
Proof. split. intros n _. cbn. rewrite prime_alt. by destruct (prime_dec n). Qed.

(** One key, and the signature with [R] and [S] one. *)
Definition ex_signature : list byte := be_bytes 32 1 ++ be_bytes 32 1 ++ [byte_of_Z 0].

#[export] Instance ex_secp256k1 : Secp256k1 := {|
  PrivateKey := unit;
  public_key _ := Byte.x04 :: replicate 64 Byte.x01;
  crypto_Sign _ _ := Some ex_signature;
  crypto_Ecrecover _ _ := Some (Byte.x04 :: replicate 64 Byte.x01)
|}.

#[export] Instance ex_secp256k1_laws : Secp256k1Laws ex_secp256k1.
Proof.
  split; [by eexists| |done].
  intros h d sig [= <-]. exists 1, 1, 0. split; [done|]. split; [done|]. split; [done|by left].
Qed.

#[export] Instance ex_background : Background := {|
  dataset_ready _ := false;
  store_order size := all_segments size 1
|}.

#[export] Instance ex_background_laws : BackgroundLaws ex_background.
Proof. split. intros size. by exists 1. Qed.

#[export] Instance ex_chain_reader : ChainReader := {|
  cr_Config := MainnetChainConfig;
  cr_GetHeader h n := if (h =? 66) && (n =? 6) then Some (ex_header 6 55) else None;
  cr_GetBlock h n := None
|}.

Definition ex_key : PrivateKey := tt.

(** ** Witnesses: signatures *)

Lemma sign_recovers_witness :
  exists tx', SignTx ex_tx (londonSigner 337) ex_key = Ret (Some (inr tx')) /\
    signer_Sender (londonSigner 337) tx' = inr (PubkeyToAddress (public_key ex_key)) /\
    unsigned (tx_inner tx') = unsigned (tx_inner ex_tx) /\
    (forall c, signer_ChainID (londonSigner 337) = Some c -> ChainId tx' = c /\ Protected tx' = true).
Proof. exact (sign_recovers (londonSigner 337) ex_tx ex_key ex_signature eq_refl eq_refl). Defined.

Lemma ex_tx_wf : data_wf (tx_inner ex_tx).
Proof. cbn. split_and!; try done. by intros ? [= <-]. Qed.

(** The same transaction signed for chain 337. *)
Definition ex_protected_tx : Transaction :=
  mkTransaction (TxLegacy (mkLegacyTx 0 7 60000 (Some bob) 5 [Byte.x00; Byte.x01] (337 * 2 + 35) 1 1)) 0.

(** The London signer hashes it unsigned to what the EIP-155 signer hashes it to signed. *)
Lemma signing_hash_commits_witness :
  tx_inner ex_tx <> tx_inner ex_protected_tx /\
  signer_ChainID (londonSigner 337) = signer_ChainID (EIP155Signer 337) /\
  unsigned (tx_inner ex_tx) = unsigned (tx_inner ex_protected_tx).
Proof.
  split; [done|]. apply (signing_hash_commits (londonSigner 337) (EIP155Signer 337) ex_tx ex_protected_tx); try done; apply ex_tx_wf.
Defined.

Lemma replay_protected_witness : 337 = 337.
Proof.
  by apply (replay_protected (londonSigner 337) (EIP155Signer 337) 337 337 ex_protected_tx
    (PubkeyToAddress (public_key ex_key)) (PubkeyToAddress (public_key ex_key))).
Defined.

Lemma Sender_cached_witness :
  (Sender (londonSigner 337) ex_protected_tx None).1 = signer_Sender (londonSigner 337) ex_protected_tx /\
  TxSigning.cache_ok ex_protected_tx (Sender (londonSigner 337) ex_protected_tx None).2.
Proof. by apply (Sender_cached (londonSigner 337) ex_protected_tx None). Defined.

(** ** Witnesses: proof of work *)

Lemma hashimoto_light_full_witness :
  exists dataset, generateDataset (all_segments (8192 * 4) 1) 8192 (replicate 256 5) = Ret dataset /\
    forall hash nonce, exists digest result,
      hashimotoFull dataset hash nonce = Ret (digest, result) /\
      hashimotoLight (8192 * 4) (replicate 256 5) hash nonce = Ret (digest, result) /\
      length digest = 32%nat /\ length result = 32%nat.
Proof.
  refine (hashimoto_light_full (replicate 256 5) 8192 1 (all_segments (8192 * 4) 1) _ _ _ _);
    [by split|by split; [split|]|by split|reflexivity].
Defined.

Lemma calcDatasetSize_greatest_witness :
  exists p, calcDatasetSize 3000 = Ret (p * mixBytes) /\
    p <= (datasetInitBytes + datasetGrowthBytes * 3000 - mixBytes) / mixBytes /\ Z.prime p /\
    forall q, p < q <= (datasetInitBytes + datasetGrowthBytes * 3000 - mixBytes) / mixBytes -> ~ Z.prime q.
Proof. refine (calcDatasetSize_greatest 3000 _). split; [lia|]. change (2 ^ 20) with 1048576. lia. Defined.

Lemma sizes_usable_witness :
  exists csize dsize, cacheSize 57630000 = Ret csize /\ datasetSize 57630000 = Ret dsize /\
    csize mod 64 = 0 /\ 64 <= csize < two32 /\ dsize mod mixBytes = 0 /\
    (dataset_wf (dsize / 4) <-> 57630000 < 57630000).
Proof. refine (sizes_usable 57630000 _). by split. Defined.

Definition ex_block : Block := mkBlock (ex_header 7 66) [] [ex_tx] None.

Lemma mined_block_verifies_witness :
  exists r, mine NewTester 3 ex_block 5 = Ret r /\
    forall block', r = Some block' ->
      (exists nonce digest, block' = WithSeal ex_block (set_seal nonce digest (blk_header ex_block))) /\
      verifySeal NewTester (blk_header block') true = Ret None.
Proof. refine (mined_block_verifies ModeTest 0 3 ex_block 5 true eq_refl _). by split; [split|split]. Defined.

(** ** Witnesses: headers and emission *)

Lemma VerifyHeaders_in_order_witness :
  VerifyHeaders NewTester [ex_header 6 55; ex_header 7 66; ex_header 8 77] [false; true; true] 1000 [2; 0; 1]%nat =
    map (fun index => verifyHeaderWorker NewTester [ex_header 6 55; ex_header 7 66; ex_header 8 77] [false; true; true] (Z.of_nat index) 1000)
      [0; 1; 2]%nat.
Proof.
  refine (VerifyHeaders_in_order NewTester [ex_header 6 55; ex_header 7 66; ex_header 8 77] [false; true; true] 1000
    [2; 0; 1]%nat eq_refl _).
  apply NoDup_Permutation; [repeat constructor; set_solver|repeat constructor; set_solver|set_solver].
Defined.

(** A block that takes the sibling of its parent as an uncle, and one that takes its own
    sibling: a child of its parent may not be its uncle. *)
Definition ex_uncle_block (uncle : Header) : Block := mkBlock (ex_header 7 66) [uncle] [ex_tx] None.

Lemma ex_headers_by_hash : headers_by_hash.
Proof.
  intros hash n n' h h'. cbn [cr_GetHeader ex_chain_reader]. destruct (hash =? 66), (n =? 6), (n' =? 6); cbn [andb]; congruence.
Qed.

Lemma VerifyUncles_exact_witness :
  VerifyUncles NewTester (ex_uncle_block (ex_header 7 66)) 1000 <> Ret None /\
  exists h, ancestor_of (ex_uncle_block (ex_header 6 44)) 66 6 h /\ hdr_ParentHash h = 55.
Proof.
  split; [|exists (ex_header 6 55); split; [exists 0%nat; split; [lia|by constructor]|done]].
  intros H. apply (VerifyUncles_exact NewTester (ex_uncle_block (ex_header 7 66)) 1000 eq_refl ex_headers_by_hash) in H as (_ & _ & H).
  by destruct (H (ex_header 7 66) ltac:(by left)) as (_ & _ & _ & Hp & _).
Defined.

Lemma calculators_agree_witness :
  CalcDifficultyFrontierU256 1010 (ex_full_header None) = calcDifficultyFrontier 1010 (ex_full_header None) /\
  CalcDifficultyHomesteadU256 1010 (ex_full_header None) = calcDifficultyHomestead 1010 (ex_full_header None) /\
  MakeDifficultyCalculatorU256 5000000 1010 (ex_full_header None) = calcDifficultyByzantium 1010 (ex_full_header None) /\
  (hdr_UncleHash (ex_full_header None) = EmptyUncleHash ->
   calcDifficultyByzantium 1010 (ex_full_header None) = calcDifficultyHomestead 1010 (ex_full_header None)).
Proof. by apply (calculators_agree 1010 (ex_full_header None) 5000000). Defined.

Lemma CalcDifficulty_mainnet_witness :
  minimumDifficulty <= CalcDifficulty MainnetChainConfig 1010 (ex_full_header None) /\
  131072 - 131072 / 2048 * 99 <= CalcDifficulty MainnetChainConfig 1010 (ex_full_header None) <= 131072 + 131072 / 2048 * 2 /\
  CalcDifficulty MainnetChainConfig 1020 (ex_full_header None) <= CalcDifficulty MainnetChainConfig 1010 (ex_full_header None).
Proof. by apply (CalcDifficulty_mainnet 1010 1020 (ex_full_header None)). Defined.

Lemma supply_schedule_witness :
  (Z.of_nat 12 < finalBlock -> CalculateCirculatingSupply (Z.of_nat 12) = preminedSupply + issued 12) /\
  (finalBlock <= Z.of_nat 12 -> reward_at (Z.of_nat 12) = 0 /\ preminedSupply + issued 12 = finalSupply) /\
  preminedSupply + issued 12 <= finalSupply /\ finalSupply < SupplyCap.
Proof. by apply (supply_schedule 12). Defined.

Lemma VerifyGaslimit_exact_witness :
  (VerifyGaslimit 8000000 8007811 = None <-> distance 8000000 8007811 < 8000000 / 1024 /\ 5000 <= 8007811) /\
  (8000000 < 2 ^ 63 -> 8007811 < 2 ^ 63 ->
   VerifyGaslimit 8000000 8007811 = None <-> Z.abs (8000000 - 8007811) < 8000000 / 1024 /\ 5000 <= 8007811).
Proof. by apply (VerifyGaslimit_exact 8000000 8007811). Defined.

(** ** Witnesses: blocks

    A database in which the key's address is rich, a block with its transaction, and
    a hasher that keeps the updates. *)

Definition ex_sender : Address := PubkeyToAddress (public_key ex_key).

Definition ex_rich : Database := {|
  GetAccount a := if a =? ex_sender then Some (Some (mkStateAccount 0 (Some (10 ^ 20)) 0 None)) else Some None;
  GetStorage a r k := Some [];
  ContractCode ah h := None;
  ContractCodeSize ah h := None
|}.

Lemma ex_rich_laws : DatabaseLaws ex_rich.
Proof.
  split; cbn [ex_rich GetAccount GetStorage ContractCode]; try done.
  - intros a acc. case_match; [|done]. by intros [= <-].
  - intros a acc b. case_match; [|done]. intros [= <-]. cbn. intros [= <-]. lia.
  - by intros a r k enc [= <-].
Qed.

Definition ex_empty : Database := {|
  GetAccount a := Some None;
  GetStorage a r k := Some [];
  ContractCode ah h := None;
  ContractCodeSize ah h := None
|}.

Lemma ex_empty_laws : DatabaseLaws ex_empty.
Proof. split; try done. by intros a r k enc [= <-]. Qed.

#[export] Instance ex_map_order : MapOrder := {| map_order X := elements X |}.
#[export] Instance ex_map_order_laws : MapOrderLaws ex_map_order.
Proof. split. intros X a. apply elem_of_elements. Qed.

#[export] Instance ex_state_roots : StateRoots := {| IntermediateRoot _ := gret 5 |}.

#[export] Instance ex_known_blocks : KnownBlocks := {|
  HasBlock h n := h =? 66;
  HasBlockAndState h n := h =? 66
|}.

(** The transaction of the key, and a block of it. *)
Definition ex_block_of (number : Z) (txs : list Transaction) : Block := mkBlock (ex_header number 66) [] txs None.

Lemma ex_block_ok number txs : 0 <= number -> Forall tx_ok txs -> block_ok MainnetChainConfig (ex_block_of number txs).
Proof.
  intros Hn Htx. split; try done. by apply Z.leb_le.
Qed.

Definition ex_process : Res ((list Receipt * list RLog * Z + process_error) * state) :=
  Process (B:=ex_rich) MainnetChainConfig (mkConfig false false []) (fun _ => false) (ex_block_of 7 [ex_protected_tx]) state_New.

Definition ex_receipts : list Receipt := match ex_process with Ret (inl (rs, _, _), _) => rs | _ => [] end.
Definition ex_logs : list RLog := match ex_process with Ret (inl (_, ls, _), _) => ls | _ => [] end.
Definition ex_used : Z := match ex_process with Ret (inl (_, _, g), _) => g | _ => 0 end.
Definition ex_after : state := match ex_process with Ret (_, s) => s | _ => state_New end.

Example block_processes :
  match ex_process with
  | Ret (inl (rs, _, g), s) =>
      (map rc_GasUsed rs, map rc_Status rs, g) = ([21020], [1], 21020) /\
      balance_of (B:=ex_rich) s ex_sender = 10 ^ 20 - 5 - 7 * 21020 /\ balance_of (B:=ex_rich) s bob = 5 /\
      balance_of (B:=ex_rich) s miner = 7 * 21020 + 2 * weiPerR5
  | _ => False
  end.
Proof. vm_compute. done. Qed.

Lemma ex_protected_ok : tx_ok ex_protected_tx.
Proof. split; vm_compute; intuition discriminate. Qed.

Lemma Process_accounts_witness :
  wp refund_panic (Process (B:=ex_rich) MainnetChainConfig (mkConfig false false []) (fun _ => false)
      (ex_block_of 7 [ex_protected_tx]))
    (fun r s' => state_ok (B:=ex_rich) s' /\ solvent (B:=ex_rich) s' /\
       match r with
       | inl (receipts, logs, usedGas) =>
           processed (B:=ex_rich) MainnetChainConfig (fun _ => false) (ex_header 7 66) (ex_block_of 7 [ex_protected_tx]) state_New
             receipts usedGas s' /\
           receipts_of MainnetChainConfig (ex_header 7 66) (Block_Hash (ex_block_of 7 [ex_protected_tx])) 0 0 [ex_protected_tx]
             receipts usedGas /\
           length receipts = 1%nat /\
           logs = concat (map rc_Logs receipts) /\ 0 <= usedGas <= hdr_GasLimit (ex_header 7 66) /\
           grows_by (reward_at 7 - usedGas * base_burnt MainnetChainConfig (ex_header 7 66))
             (balance_of (B:=ex_rich) state_New) (balance_of (B:=ex_rich) s')
       | inr _ => grows_by 0 (balance_of (B:=ex_rich) state_New) (balance_of (B:=ex_rich) s')
       end) state_New.
Proof.
  refine (Process_accounts (BL:=ex_rich_laws) MainnetChainConfig (fun _ => false) (ex_block_of 7 [ex_protected_tx]) state_New _ _ _).
  - apply ex_block_ok; [lia|]. constructor; [exact ex_protected_ok|constructor].
  - exact (state_New_ok (BL:=ex_rich_laws)).
  - exact (state_New_solvent (BL:=ex_rich_laws)).
Defined.

Lemma ex_process_ret : ex_process = Ret (inl (ex_receipts, ex_logs, ex_used), ex_after).
Proof.
  unfold ex_receipts, ex_logs, ex_used, ex_after.
  assert (match ex_process with Ret (inl _, _) => true | _ => false end = true) as H by by vm_compute.
  destruct ex_process as [[[[[rs ls] g]|err] s]| |]; [reflexivity|discriminate..].
Qed.

(** A block like it, with a header that can be stored, where the receiver has code that
    logs twice. *)
Definition ex_logged_block : Block :=
  let h := ex_header 7 66 in
  mkBlock (mkHeader (hdr_ParentHash h) (hdr_UncleHash h) (hdr_Coinbase h) (hdr_Root h) (hdr_TxHash h) (hdr_ReceiptHash h)
      (replicate 256 Byte.x00) (hdr_Difficulty h) (hdr_Number h) (hdr_GasLimit h) (hdr_GasUsed h) (hdr_Time h) (hdr_Extra h)
      (hdr_MixDigest h) (hdr_Nonce h) (hdr_BaseFee h) None None) [] [ex_protected_tx] None.

Lemma ex_logged_block_ok : block_ok MainnetChainConfig ex_logged_block.
Proof. split; try done. constructor; [exact ex_protected_ok|constructor]. Qed.
Definition ex_log_code : list byte := map byte_of_Z [0x60; 5; 0x60; 0; 0x60; 0; 0xa1; 0x60; 0; 0x60; 0; 0xa0].

Definition ex_logging : Database := {|
  GetAccount a :=
    if a =? ex_sender then Some (Some (mkStateAccount 0 (Some (10 ^ 20)) 0 None))
    else if a =? bob then Some (Some (mkStateAccount 0 (Some 0) EmptyRootHash (Some (keccak256 ex_log_code)))) else Some None;
  GetStorage a r k := Some [];
  ContractCode ah h := if h =? keccak256 ex_log_code then Some ex_log_code else None;
  ContractCodeSize ah h := None
|}.

Lemma ex_logging_laws : DatabaseLaws ex_logging.
Proof.
  split; cbn [ex_logging GetAccount GetStorage ContractCode]; try done.
  - intros a acc. do 2 (case_match; [by intros [= <-]|]). done.
  - intros a acc b. do 2 (case_match; [intros [= <-]; cbn; intros [= <-]; lia|]). done.
  - by intros a r k enc [= <-].
  - intros ah h c. case_match eqn:E; [|done]. zbool. by intros [= <-].
  - intros ah h c. case_match; [|done]. by intros [= <-].
Qed.

Definition ex_logged : Res ((list Receipt * list RLog * Z + process_error) * state) :=
  Process (B:=ex_logging) MainnetChainConfig (mkConfig false false []) (fun _ => false) ex_logged_block state_New.
Definition ex_log_receipts : list Receipt := match ex_logged with Ret (inl (rs, _, _), _) => rs | _ => [] end.
Definition ex_log_logs : list RLog := match ex_logged with Ret (inl (_, ls, _), _) => ls | _ => [] end.
Definition ex_log_used : Z := match ex_logged with Ret (inl (_, _, g), _) => g | _ => 0 end.
Definition ex_log_after : state := match ex_logged with Ret (_, s) => s | _ => state_New end.

Lemma ex_logged_ret : ex_logged = Ret (inl (ex_log_receipts, ex_log_logs, ex_log_used), ex_log_after).
Proof.
  unfold ex_log_receipts, ex_log_logs, ex_log_used, ex_log_after.
  assert (match ex_logged with Ret (inl _, _) => true | _ => false end = true) as H by by vm_compute.
  destruct ex_logged as [[[[[rs ls] g]|err] s]| |]; [reflexivity|discriminate..].
Qed.

Example two_logs : map (fun l => (log_Address (rl_Log l), log_Topics (rl_Log l))) ex_log_logs = [(bob, [5]); (bob, [])].
Proof. vm_compute. reflexivity. Qed.

Definition ex_freezer : AncientStore := {| Ancient _ _ := None |}.

(** A database with the header of the block. *)
Definition ex_header_db : kvstore := match WriteHeader (blk_header ex_logged_block) [] with Ret b => kv_write b ∅ | _ => ∅ end.

Definition ex_receipts_db : kvstore :=
  kv_write (WriteReceipts (Block_Hash ex_logged_block) 7 ex_log_receipts []) ex_header_db.

Lemma receipts_restored_witness :
  exists rs, ReadReceipts (AS:=ex_freezer) (Block_Hash ex_logged_block) 7 MainnetChainConfig
      (Some [ex_protected_tx]) ex_receipts_db = Ret (Some rs) /\
    length rs = length ex_log_receipts /\
    forall k tx r r', [ex_protected_tx] !! k = Some tx -> ex_log_receipts !! k = Some r -> rs !! k = Some r' ->
      same_receipt 7 (effectiveGasPrice (tx_inner tx) (hdr_BaseFee (blk_header ex_logged_block))) (logs_before ex_log_receipts k) r r'.
Proof.
  refine (receipts_restored (BL:=ex_logging_laws) (AS:=ex_freezer) MainnetChainConfig (fun _ => false)
    ex_logged_block state_New ex_log_receipts ex_log_logs ex_log_used ex_log_after ex_header_db
    _ _ _ ex_logged_ret _ _ eq_refl _).
  - exact ex_logged_block_ok.
  - exact (state_New_ok (BL:=ex_logging_laws)).
  - exact (state_New_solvent (BL:=ex_logging_laws)).
  - apply (bool_decide_unpack _). vm_compute. exact I.
  - vm_compute. reflexivity.
  - vm_compute. reflexivity.
Defined.

(** The block sealed over what processing gave: the gas used, the root of
    [ex_state_roots], and what [NewBlock] computes. *)
Definition ex_draft : Header :=
  let h := ex_header 7 66 in
  mkHeader (hdr_ParentHash h) (hdr_UncleHash h) (hdr_Coinbase h) 5 (hdr_TxHash h) (hdr_ReceiptHash h) empty_bloom
    (hdr_Difficulty h) (hdr_Number h) (hdr_GasLimit h) 21020 (hdr_Time h) (hdr_Extra h) (hdr_MixDigest h) (hdr_Nonce h)
    (hdr_BaseFee h) None None.

Definition ex_sealed : Block :=
  match NewBlock ex_draft [ex_protected_tx] [] ex_receipts with Ret b => b | _ => ex_block end.

Definition ex_sealed_process := Process (B:=ex_rich) MainnetChainConfig (mkConfig false false []) (fun _ => false) ex_sealed state_New.

Definition ex_validation (r : Res ((list Receipt * list RLog * Z + process_error) * state)) : option unit :=
  match r with
  | Ret (inl (rs, ls, g), s) =>
      match ValidateState MainnetChainConfig ex_sealed rs g s with Ret (None, _) => Some tt | _ => None end
  | _ => None
  end.

Lemma accepted_block_commits_witness :
  exists (receipts : list Receipt) (logs : list RLog) (usedGas : Z),
  hdr_GasUsed (blk_header ex_sealed) = foldr (fun r acc => rc_GasUsed r + acc) 0 receipts /\
  hdr_GasUsed (blk_header ex_sealed) <= hdr_GasLimit (blk_header ex_sealed) /\
  DeriveSha (T:=StackTrie) (map Receipt_EncodeIndex receipts) = Ret (hdr_ReceiptHash (blk_header ex_sealed)) /\
  usedGas = 21020 /\
  forall l, l ∈ logs ->
    bloom_Test (hdr_Bloom (blk_header ex_sealed)) (address_bytes (log_Address (rl_Log l))) = Ret true /\
    forall t, t ∈ log_Topics (rl_Log l) -> bloom_Test (hdr_Bloom (blk_header ex_sealed)) (hash_bytes t) = Ret true.
Proof.
  assert (ex_validation ex_sealed_process = Some tt) as H by by vm_compute.
  unfold ex_validation in H.
  destruct ex_sealed_process as [[[[[rs ls] g]|err] s1]| |] eqn:E; [|discriminate..].
  destruct (ValidateState _ _ _ _ s1) as [[[err|] s2]| |] eqn:V; [discriminate| |discriminate..].
  assert (ex_sealed = mkBlock (blk_header ex_sealed) [] [ex_protected_tx] None) as Hb by by vm_compute.
  destruct (accepted_block_commits (BL:=ex_rich_laws) MainnetChainConfig (fun _ => false) ex_sealed state_New rs ls g s1 s2) as (H1 & H2 & H3 & H4).
  - assert (hdr_Number (blk_header ex_sealed) = 7) as H7 by by vm_compute.
    assert (hdr_GasLimit (blk_header ex_sealed) = 8000000) as Hg by by vm_compute.
    assert (hdr_Difficulty (blk_header ex_sealed) = 131072) as Hd by by vm_compute.
    assert (hdr_BaseFee (blk_header ex_sealed) = None) as Hbase by by vm_compute.
    split.
    + apply mainnet_config_ok; [rewrite H7; clear; lia|rewrite Hd; clear; lia].
    + rewrite H7. reflexivity.
    + intros b Hbb. rewrite Hbase in Hbb. discriminate.
    + rewrite Hg. unfold is_u64, two64. clear. lia.
    + rewrite Hb. constructor; [exact ex_protected_ok|constructor].
  - exact (state_New_ok (BL:=ex_rich_laws)).
  - exact (state_New_solvent (BL:=ex_rich_laws)).
  - exact E.
  - exact V.
  - exists rs, ls, g. split_and!; [exact H1|exact H2|exact H3| |exact H4].
    pose proof (f_equal (fun r : Res ((list Receipt * list RLog * Z + process_error) * state) =>
      match r with Ret (inl (_, _, g), _) => g | _ => 0 end) E) as Hg.
    cbv beta iota in Hg. rewrite <- Hg. by vm_compute.
Defined.

Lemma ex_listable : listable (map tx_EncodeIndex [ex_protected_tx]) /\ listable (map Receipt_EncodeIndex ex_receipts).
Proof.
  split; apply listableb_spec; vm_compute; reflexivity.
Qed.

Lemma assembled_validates_witness :
  exists block, NewBlock ex_draft [ex_protected_tx] [] ex_receipts = Ret block /\
    blk_transactions block = [ex_protected_tx] /\ blk_uncles block = [] /\
    ValidateState MainnetChainConfig block ex_receipts (hdr_GasUsed ex_draft) state_New = Ret (None, state_New) /\
    (HasBlockAndState (Block_Hash block) (NumberU64 block) = false -> VerifyUncles NewTester block 1000 = Ret None ->
     HasBlockAndState (hdr_ParentHash ex_draft) (u64 (NumberU64 block - 1)) = true ->
     ValidateBody NewTester block 1000 = Ret None).
Proof.
  refine (assembled_validates NewTester MainnetChainConfig ex_draft [ex_protected_tx] [] ex_receipts
    1000 state_New state_New (proj1 ex_listable) (proj2 ex_listable) _ eq_refl eq_refl). intros _. reflexivity.
Defined.

(** The one encoding of the trie of the transactions of [ex_sealed]. *)
Definition ex_tx_enc : list byte := tree_enc (TShort (keybytesToHex (AppendUint64 0)) (TValue (tx_EncodeIndex ex_protected_tx))).

Lemma ex_tx_enc_hash : forall x, x ∈ [ex_tx_enc] ++ [ex_tx_enc] -> BytesToHash (hashData x) <> EmptyRootHash.
Proof.
  assert (negb (BytesToHash (hashData ex_tx_enc) =? EmptyRootHash) = true) as H by (vm_compute; reflexivity).
  apply negb_true_iff, Z.eqb_neq in H.
  intros x Hx. apply elem_of_app in Hx as [Hx|Hx]; apply list_elem_of_singleton in Hx; rewrite Hx; exact H.
Qed.

Lemma ex_sealed_transactions : map tx_EncodeIndex (blk_transactions ex_sealed) = [tx_EncodeIndex ex_protected_tx].
Proof. vm_compute. reflexivity. Qed.

Lemma ex_tx_committed : list_committed (map tx_EncodeIndex (blk_transactions ex_sealed)) [ex_tx_enc].
Proof.
  rewrite ex_sealed_transactions. unfold list_committed, index_map, put_all.
  assert (derive_updates [tx_EncodeIndex ex_protected_tx] = [(AppendUint64 0, tx_EncodeIndex ex_protected_tx)]) as -> by (vm_compute; reflexivity).
  apply committed_singleton. vm_compute. discriminate.
Qed.

Lemma accepted_transactions_unique_witness :
  map tx_EncodeIndex (blk_transactions ex_sealed) = [tx_EncodeIndex ex_protected_tx] /\
  map tx_Hash (blk_transactions ex_sealed) = map tx_Hash (blk_transactions ex_sealed).
Proof.
  assert (ValidateBody NewTester ex_sealed 1000 = Ret None) as HV by (vm_compute; reflexivity).
  destruct (accepted_transactions_unique NewTester ex_sealed ex_sealed 1000 1000 [ex_tx_enc] [ex_tx_enc] HV HV eq_refl) as [_ H].
  - rewrite ex_sealed_transactions. exact (proj1 ex_listable).
  - rewrite ex_sealed_transactions. exact (proj1 ex_listable).
  - rewrite ex_sealed_transactions. constructor; [|constructor]. apply Z.leb_le. vm_compute. reflexivity.
  - exact ex_tx_committed.
  - exact ex_tx_committed.
  - exact (no_collision_same ex_tx_enc).
  - exact ex_tx_enc_hash.
  - split; [exact ex_sealed_transactions|exact H].
Defined.

(** The genesis state, and the first block on it. *)
Definition ex_genesis : state :=
  match alloc_accounts (B:=ex_empty) (gen_Alloc DefaultGenesisBlock) state_New with Ret (_, s) => s | _ => state_New end.

Definition ex_first : state :=
  match Process (B:=ex_empty) MainnetChainConfig (mkConfig false false []) (fun _ => false) (ex_block_of 1 []) ex_genesis with
  | Ret (_, s) => s
  | _ => state_New
  end.

Lemma supply_cap_witness :
  exists s0 f, alloc_accounts (B:=ex_empty) (gen_Alloc DefaultGenesisBlock) state_New = Ret (tt, s0) /\
    balances_after (balance_of (B:=ex_empty) s0) 1 f /\ f miner = 2 * weiPerR5 /\
    forall l, NoDup l -> total_of f l <= CalculateCirculatingSupply 1 /\ total_of f l < SupplyCap.
Proof.
  pose proof (supply_cap (BL:=ex_empty_laws) (fun a => eq_refl)) as H. unfold wp in H.
  destruct (alloc_accounts (B:=ex_empty) _ _) as [[[] s0]| |] eqn:E; [|done..]. destruct H as [Hs0 H].
  assert (s0 = ex_genesis) as Hg by (unfold ex_genesis; by rewrite E).
  exists s0, (balance_of (B:=ex_empty) ex_first). split; [reflexivity|].
  assert (balances_after (balance_of (B:=ex_empty) s0) 1 (balance_of (B:=ex_empty) ex_first)) as Hf.
  { assert (match Process (B:=ex_empty) MainnetChainConfig (mkConfig false false []) (fun _ => false) (ex_block_of 1 [])
        ex_genesis with Ret (inl _, _) => true | _ => false end = true) as Hp by by vm_compute.
    destruct (Process (B:=ex_empty) MainnetChainConfig (mkConfig false false []) (fun _ => false) (ex_block_of 1 []) ex_genesis)
      as [[[r|err] s1]| |] eqn:P; [|discriminate..].
    assert (ex_first = s1) as -> by (unfold ex_first; by rewrite P). rewrite <- Hg in P.
    refine (after_block _ 0 _ (ex_block_of 1 []) s0 s1 r ex_empty ex_empty_laws _ _ (after_genesis _) eq_refl _ Hs0 (fun a => eq_refl) P).
    apply ex_block_ok; [lia|constructor]. }
  split; [exact Hf|]. split; [by vm_compute|]. intros l Hl.
  destruct (H 1%nat _ l Hf Hl) as (_ & H1 & _ & H2); [reflexivity|]. split; [apply H1; reflexivity|exact H2].
Defined.

Lemma CalcGasLimit_verifies_witness :
  VerifyGaslimit 8000000 (CalcGasLimit 8000000 30000000) = None /\ CalcGasLimit 8000000 30000000 = 8007811.
Proof.
  destruct (CalcGasLimit_verifies 8000000 30000000) as [H1 H2]; [by vm_compute|by vm_compute|].
  split; [exact H1|]. rewrite H2. reflexivity.
Defined.
